(* ===== verification/_CoqProject ===== *)
-Q . S2P
Prelude.v
Ring.v
NvmProcess.v
NvmInstr.v
NvmSafety.v
NvmKernel.v
NvmMachine.v
NvmScheduler.v
NvmProperties.v
NvmLocal.v
NvmSpawn.v
Buddy.v
BuddyProofs.v
BuddyTheorems.v
CpuPool.v
WorkQueue.v
Rtc.v
Processor.v
Vfs.v
VfsProofs.v
VfsOps.v
VfsTable.v
VfsTheorems.v
Kstd.v
KstdProofs.v
Text.v
Keyboard.v
Timer.v
Bytes.v
Console.v
ConsoleProofs.v
Log.v
Shell.v
BlockDev.v
Ide.v
Nvme.v
Ahci.v
Procfs.v
Fat32.v
IoLogic.v
BlockDevVfs.v
Iso9660.v
Iso9660Proofs.v
Fat32Proofs.v
Fat32Chain.v
Fat32Write.v
Fat32File.v
Fat32Safety.v
Fat32Dir.v
Fat32Create.v
Fat32Theorems.v
Memory.v
Elf.v
Slab.v
SlabProofs.v
SlabPages.v
SlabInv.v
SlabOps.v
SlabTheorems.v
Kmalloc.v
FsBitmap.v
InodeCache.v
Ext2.v
Ext2Proofs.v
Ext2Alloc.v
Ext2Map.v
Ext2File.v
Ext2Data.v
Ext2Write.v
Ext2Meta.v
Ext2Vfs.v
Ext2Dir.v
Ext2DirOps.v
Ext2Demo.v
Ext2Theorems.v
VfsExt2.v
Dirent.v
Chacha20.v
DevFs.v
ProcfsProofs.v
