(* ===== verification/Prelude.v ===== *)
(** * NovariaOS kernel: a verification development

    NovariaOS is a small x86_64 kernel in C.  User programs are bytecode for a
    stack machine, the Novaria Virtual Machine (NVM), which the kernel
    interprets; processes have capabilities instead of users.  Below the NVM
    are a physical memory manager and a virtual file system with its drivers.

    ** The parts and how they interact

    - The NVM (core/kernel/nvm/): [nvm.c] keeps the process table and the
      round-robin scheduler that the timer interrupt calls, [instructions/*.c]
      the instruction handlers, [syscalls.c] the system calls and the message
      queue, [caps.c] the capability list of a process.  System calls use the
      allocator, the VFS, procfs, the console and port I/O.
    - Memory (core/kernel/mem/): [buddy.c] hands out blocks of 4 KiB to 1 MiB
      of a pool; [cpu_pool.c] keeps a few of them per processor; [slab.c] cuts
      pages into small objects; [allocator.c] routes kmalloc and kfree between
      the three and starts them on the memory map of the boot loader.
    - The VFS (core/fs/vfs.c): a flat table of directories and devices, a table
      of mounts that dispatches to file-system drivers, and one descriptor
      table for both.
    - Disk file systems (core/fs/): [fat32.c] and [ext2.c] work through the
      operations of a block device ([block.c] keeps the registry,
      [drivers/ramdisk.c] is the simplest device) and take their buffers from
      kmalloc; [bitmap.c], [inode.c]
      and [dirent.c] are helpers for file systems.  [iso9660.c] reads an image
      in memory, [devfs.c] serves the table of devices on /dev, [procfs.c]
      texts about the processes and the machine, and [block_dev_vfs.c] makes a
      file of every block device.
    - Modules (core/kernel/elf/parser.c, core/kernel/kmodules.c): ELF files that
      are read through the VFS and called with an interface to the kernel.
    - Devices: [drivers/keyboard.c] (interrupt handler, ring of characters, line
      editor), [arch/rtc.c] (the clock), [drivers/timer.c] (the timers and the
      time as a text), [drivers/ide.c] (disks by programmed I/O), [drivers/nvme.c], [drivers/ahci.c],
      [drivers/cdrom.c] (an image in memory), [drivers/serial.c].
    - Processors (core/arch/): [spinlock.c], [idt.c] (interrupt gates), [apic.c]
      (the local timer), [smp.c] (starting the other processors),
      [work_queue.c] (work for them), [entropy.c], [panic.c].
    - The console: [kernel/tty.c] interprets escape sequences and calls a
      driver, which draws on the framebuffer ([kernel/vge/*.c]) or writes to the
      serial line.  [kernel/shell.c] reads commands from the keyboard, resolves
      their paths and starts programs.
    - Libraries: [kstd.c] (strings, memory, numbers) below everything;
      [crypto/chacha20.c] and [crypto/chacha20_rng.c], a stream cipher and the
      random generator behind /dev/urandom; [lib/log.h] (formatted messages on
      the serial line and in a log).

    ** Files

    - Prelude: C integers of a fixed width ([u8] .. [i64], wrap-around written
      out), the outcome of a piece of C code ([Ret], [Fault], [OutOfFuel]) with
      its bind, arrays with checked access ([aget], [aset]), search loops
      ([first_index]) and sums; [runs_to m Q] is total correctness: [m]
      finishes, without fault, in [Q].
    - NvmProcess: [nvm_process_t] as a record, its invariant, caps.c.
    - NvmInstr: one definition per handler of instructions/*.c.
    - NvmSafety: the contract of a handler and that each one meets it.
    - NvmKernel: the global state of nvm.c and syscalls.c ([kstate]), process
      creation, every system call, [nvm_execute_instruction], the scheduler.
      The services of the rest of the kernel are the class [KernelServices];
      what the runtime relies on in them is the class [ServicesOk] (NvmMachine).
    - NvmMachine: safety and isolation of whole instructions, and a concrete
      instance of the services; NvmScheduler, NvmProperties, NvmLocal, NvmSpawn:
      the theorems.
    - Buddy: all of buddy.c; BuddyProofs: the ownership invariant [binv M a L]
      (every byte of the managed block belongs to exactly one free block or one
      live allocation of [L]); BuddyTheorems: the theorems.
    - CpuPool: all of cpu_pool.c on top of the buddy allocator.  Its invariant
      [pool_inv M s L] makes the blocks on the stacks and the blocks [L] of the
      clients the live blocks of the buddy allocator.
    - Vfs: all of vfs.c; the drivers are the class [VfsEnv].  VfsProofs: the
      invariant [vfs_wf] and the descriptor table as a map; VfsOps, VfsTable:
      for every function that it runs and keeps the invariant, with its effect;
      VfsTheorems: the theorems.
    - Ring: a ring buffer with a head and a tail as the list of its contents,
      for the two queues below.  WorkQueue: all of work_queue.c.  Keyboard: all
      of keyboard.c.  Rtc: all of rtc.c; the clock chip is a class.
    - Processor: spinlock.c, idt.c, apic.c, smp.c, entropy.c; the lock and the
      start of the processors are step relations over all of them.
    - Text: how texts are put together in a buffer.  Timer: all of timer.c.
      Procfs: all of procfs.c; ProcfsProofs: its theorems.
    - Console: tty.c, serial.c, vge/*.c and panic.c; ConsoleProofs: the
      theorems.  Shell: all of shell.c with its theorems.  Log: all of lib/log.h
      with its theorems.
    - Ide: all of ide.c and cdrom.c; a channel is the class [AtaOk].  Nvme: all
      of nvme.c; a controller is the class [NvmeOk].  Ahci: all of ahci.c; a port is
      the class [AhciOk].
    - Bytes: ranges of a buffer ([slice], [splice]) and little-endian integers.
    - BlockDev: block.c and ramdisk.c; the interface of a disk file system to
      the kernel (class [FsWorld], its laws [FsWorldOk], and [Reliable] for a
      world without I/O errors and memory shortage); the monad [io] of code that
      returns an error code; ramdisk.c discharges the interface.
      IoLogic: total-correctness triples over the image of one device.
    - Fat32: all of fat32.c.  Fat32Proofs: the image as a table and clusters;
      Fat32Chain: chains, allocation, freeing; Fat32Write, Fat32File: reading and
      writing files; Fat32Dir, Fat32Create: names, directories, new entries;
      Fat32Safety: no operation faults; Fat32Theorems: the boot sector, the
      theorems and a small volume on which each of them is instantiated.
    - Ext2: all of ext2.c; superblock, descriptors and inodes are byte strings
      with accessors at the offsets of the packed structures.  Ext2Proofs: the
      image as blocks, the geometry [geo]; Ext2Alloc: the bitmaps as a set of
      used blocks that agrees with the counters ([lay]), allocation and freeing;
      Ext2Map: trees of pointer blocks and what changing one path does, one level
      at a time; Ext2File: the block map of an inode as a finite map
      ([file_tree], [bmap_of]); Ext2Data, Ext2Write: the bytes of a file
      ([byte_at]), the read and the write loop; Ext2Meta: the metadata blocks
      ([meta_ok]), inodes, saving a file; Ext2Vfs: reading and writing an open
      file, mounting; Ext2Dir, Ext2DirOps: the records of a directory
      block as a list of entries, searching and adding; Ext2Demo: a small
      well-formed volume; Ext2Theorems: the theorems.
    - VfsExt2: the composition of the VFS with the ext2 driver.
    - Iso9660: all of iso9660.c; Iso9660Proofs: an image as a tree of
      directories and files, the theorems and a small image.
    - BlockDevVfs: all of block_dev_vfs.c.  DevFs: all of devfs.c on the models
      of the VFS and of the random generator.
    - Elf: all of parser.c and kmodules.c with its theorems.
    - Memory: a memory of bytes, a finite map from addresses, with loads and
      stores of little-endian words that fault outside it.  Slab: all of slab.c
      in such a memory: page headers, the doubly linked lists of pages and the
      free lists inside the pages are words at addresses.  SlabProofs: the
      representation of the two kinds of list and what the list operations do
      to them; SlabPages: cutting a new page; SlabInv: the invariant (every page
      is a live block of the buddy allocator and is in exactly one list, every
      object of it is free or held); SlabOps: the operations keep it;
      SlabTheorems: clients.
    - Kmalloc: kmalloc, kfree, the statistics and memory_manager_init of
      allocator.c, the block headers in the same memory, and the invariant over
      all three allocators and its clients.
    - FsBitmap, InodeCache, Dirent: all of bitmap.c, inode.c and dirent.c, each
      with its theorems.
    - Kstd, KstdProofs: all of kstd.c, and that its string functions are what
      the VFS model takes them for.
    - Chacha20: the cipher and the generator on signed bytes
      and words, as the code has them.

    A C global or structure is a record, a pointer into a table is an index, an
    access outside an array or through NULL and a call of panic() are faults, an
    early return is a branch.  The calls that only log a
    message are left out of the other models.  Functions that run under
    a lock are one step.

    ** What the theorems show

    - Safety: one instruction of a process, whatever its code, cannot make the
      kernel fault, breaks no table and touches no other process
      ([instruction_isolated]; outside of it are the operands of DIV, MOD and the
      heap instructions that are shown to fault, SYS_SPAWN, and LOAD_ABS and
      STORE_ABS of a process with CAP_DRV_ACCESS, which may reach any address);
      without capabilities it neither changes nor sees files, ports, physical
      memory or the allocator
      ([unprivileged_confined]); any number of timer ticks keeps the invariant
      ([scheduler_tick_safe]); from vfs_init with the real devfs_init and
      procfs_init on, after any sequence of admissible VFS calls the
      next one does not fault ([vfs_calls_safe]); every sequence of requests to the
      buddy allocator runs, live blocks are disjoint and no byte is lost
      ([buddy_client_safe]), and the same through the per-CPU pool
      ([cpu_pool_client_safe]), the slab caches ([slab_client_safe]) and kmalloc
      ([heap_client_safe]), for the last two with clients that write what they
      like into the memory they hold; no text makes the terminal or the
      framebuffer leave its memory ([console_safe]); two processors never hold a
      spin lock at once ([spinlock_mutex]); on a FAT32 volume with a sound geometry ([geom], which
      fat32_mount does not check), whatever its table, directories and files
      contain and under any I/O errors, no sequence of operations faults or hangs
      ([fat32_session_safe], [free_chain_terminates]).
    - Invariants of tables: a held reference pins its inode in the cache
      ([inode_references_pin]); processors that have been counted have passed
      their initialisation and know their number ([smp_all_online]).
    - Progress: a ready process runs within 320 ticks
      ([scheduler_no_starvation]); drawing a line ends after the points of a
      connected line ([draw_line_connects]).
    - Refinement: the message array is a queue per recipient
      ([message_receive_refines], [message_block_wakeup], [message_roundtrip]);
      the handle array is a map from descriptors ([open_close_descriptor]);
      a FAT32 file is an array of bytes, with its chain, directory entry and all
      copies of the table kept consistent and the rest of the volume untouched
      ([write_refines_array], [read_returns_file_bytes], [write_read_back]); the
      table is a map ([fat_entry_write_read]); a directory scan is the listing of
      its slots ([read_dir_is_listing]);
      an ext2 file is an array of bytes behind direct, indirect, double and
      triple indirect pointers, and a write changes nothing but the file and its
      metadata, on the disk too ([ext2_write_refines], [ext2_write_read_back]);
      the pointers are a map ([ext2_block_map_refines]), so is a directory
      ([ext2_dir_refines]) and the inode table ([ext2_inode_roundtrip]); a volume
      survives unmounting and mounting ([ext2_remount]);
      procfs is a map from names, and its files read as their texts
      ([procfs_files_of_process]); the words that the shell cuts and the paths
      that it normalises are those of a definition on lists
      ([parse_command_words], [normalize_path_canonical]); a log message is the text
      that its format describes, with the numbers that int cannot hold as the code
      prints them, and the log of each C file the first 3999 characters of its own
      messages ([log_message_text], [log_session]); an IDE disk that is never busy
      for too long is an
      array of sectors ([ide_read_sectors], [ide_write_sectors]), so is a
      namespace of an NVMe disk, whose commands may take any time
      ([nvme_read_refines], [nvme_write_read_back]), and
      an AHCI disk behind an aligned port ([ahci_read_refines],
      [ahci_write_read_back]);
      on a well-formed image the ISO 9660 driver is a tree of directories and
      files ([iso_refines_tree]); the work queues of all processors are bounded
      FIFO queues in every interleaving of locked sections and unlocked reads
      ([work_queue_refines]), an undisturbed wq_submit_any takes the shortest
      ([submit_any_alone]) and wq_run empties one ([wq_run_drains]); the table of devfs is a map
      ([devfs_register_find]) and /dev/urandom one stream ([urandom_stream]);
      the string functions of kstd.c implement the operations on strings of
      the VFS model ([string_functions_sound]); the two outputs of the random
      generator are one stream ([rng_bytes_are_words]).
    - Functional correctness: the arithmetic unit, heap, frames and calls
      ([alu_correct], [heap_store_load], [enter_leave], [call_ret]),
      capabilities, process creation, allocation, freeing and initialisation of
      the buddy allocator, mount resolution, directory removal and listing,
      reading back what was written, decrypting what was encrypted, memmove
      and itoa; for FAT32, allocation of the first free cluster
      ([alloc_cluster_first_free]), freeing exactly a chain
      ([free_chain_frees_chain]), creating a file that a lookup then finds
      ([create_then_lookup]), 8.3 names ([short_name_roundtrip]) and the geometry
      that mounting computes ([mount_geometry]); taking the first free bit of a
      bitmap with its counts ([bitmap_allocates]), taking the first free block of
      an ext2 volume and giving it back ([ext2_alloc_free]), filling in a directory entry
      with its errors ([dirent_init_correct]); reading a range of a block device
      ([bdev_read_range]); loading an ELF file ([elf_load_correct]), placing a
      module inside of its memory ([module_placed]) and closing its file on every
      path ([kmodule_load_closes]); the clock gives back the second it was set to
      ([rtc_unix_roundtrip]) and the timer tells it as a number and as a text, with
      the name of the next day of the week ([timer_tells_time]); what is typed on a US keyboard is what is read ([typed_line]), what is
      printed has the colour that was asked for ([kprint_colors]), a full screen
      scrolls ([newline_scrolls]), font files are decoded ([psf_font]).
    - Departures from the intent: each is proved of the code as it is
      ([heap_bound_wraps], [division_edges], [spawn_strips_caller],
      [create_process_out_of_memory], [create_never_creates],
      [rmdir_overflows], [umount_leaks_handle], [memmove_skips_head],
      [cipher_is_not_rfc8439], [mount_divides_by_zero], [cross_cpu_free_faults],
      [kmalloc_undersized], [kfree_confused], [used_not_decreased],
      [dirty_inode_lost], [name_valid_edges], [ext2_lookup_endless],
      [ext2_lookup_overrun]; [ext2_unreachable], [ext2_not_listed]: the VFS strips
      the slash that the ext2 driver requires, so that nothing on a mounted volume
      is found; [iso_padding_hides], [iso_block_size_zero], [std_fds_unlinked],
      [elf_no_bounds], [rtc_weekday_shifted], [rtc_pm_misread],
      [bytecode_dump_overruns], [entropy_half_ones], [halt_vector_returns],
      [timer_month_unchecked], [builtin_font_overrun], [long_name_overruns],
      [cd_without_argument], [long_directory_overruns], [ide_write_error_lost], [prp_list_overruns],
      [nvme_unaligned], [ahci_list_from_kmalloc], [ahci_rebase_no_memory],
      [log_string_overruns], [log_number_overruns], [log_hex_negative],
      [submit_any_race]).

    ** Fuel and bounds

    Loops over a table are recursion over its list, loops with a counter carry
    the number of iterations left as a [nat] that the bound of the loop gives,
    so they cannot run out: [alloc_block] gets one unit per order and one for
    the final test, [merge_loop] one per order, [next_process] one per slot.
    The loops of kstd.c that search for a terminator get one unit more than
    the array has bytes and leave it, a fault, before that; the division loop
    of itoa gets 33, enough for bases of absolute value 2 and more.
    In fat32.c the loops over a chain have a bound of their own, except the one of
    fat32_free_chain: it gets two units more than the volume has clusters, and
    frees a cluster in use with each but the last; the copy loops get one unit
    per byte, the path loops one per character.
    In ext2.c the read and write loops get one unit per byte, the loops in a
    directory block one per byte of it, the path loops one per character; the
    loops over the blocks of a directory get two units more than its size has
    blocks, enough when the size is at most 2^32 minus a block, as [dir_ok] says
    (above that the code loops forever, [ext2_lookup_endless]).
    The loop that cuts a page into objects gets one unit per byte of the page and
    one for the last test; the one that rounds a size up to an order gets one per
    order; the bitmap loops one per byte and per bit.
    In iso9660.c the directory loops get one unit per byte of the image and one
    more, enough because a record has a byte at least and an offset behind the
    image faults; the read loops of iso9660.c and block_dev_vfs.c get one per byte.
    The loops of the work queues are steps of a machine and need no fuel: its
    schedule is a list of moves, for any length.  keyboard_getchar waits for a key: its fuel
    is the number of polls.
    draw_line gets the longer of the two distances and one more, the loops of the
    shell over a line or a path of at most 256 characters 257, those of procfs,
    the texts and the log messages one per character and one more.  The waits of the serial line, of the PIT and for
    an IDE disk get the number of polls that the code makes or, where it polls
    forever, an argument; the sector loops get one unit per sector and one more, the polls of NVMe and
    AHCI their number.
    The only other fuel argument is that of SYS_SPAWN, which reads a file byte by byte
    until its driver reports the end; [instruction_isolated] and the scheduler
    theorems do not depend on it (SYS_SPAWN is outside them), and
    [spawn_strips_caller] is about a spawn that has returned.

    ** What is not modelled

    The callbacks of the VFS are parameters: they return a result and a new
    state of the driver but do not call the VFS again.  Interrupts during an
    operation and other processors are outside the model, except that the
    scheduler tick is a step between instructions.  A disk driver is what
    [FsWorldOk] says: reads of 32-bit block numbers deliver the bytes of the
    device, a write that reports success has stored its bytes, after a failed
    write the contents are arbitrary.  The theorems on FAT32 directories are about
    8.3 entries; long names are in the model and in the safety theorem.  The
    ext2 theorems assume a device and an allocator that do not fail, blocks of 1
    to 32 KiB, and a volume whose metadata blocks, files and directories do not
    overlap (what a checker establishes); creation of a file, truncation, path
    resolution and removal of entries are in the model without theorems.  The slab
    theorems are about releases on the processor that owns the page, or on any
    processor when none does, and the heap theorems about sizes that fit their
    block with its header and about blocks whose first word is not the magic
    number of a slab page; what happens otherwise is proved on examples
    ([cross_cpu_free_faults], [kmalloc_undersized], [kfree_confused]).  The
    printing functions and the self-test of allocator.c are left out.  In the work queue
    model a locked section is one step, as [spinlock_mutex] allows, and the number of
    processors is fixed.  Physical memory is a service that may fault; what a process
    with CAP_DRV_ACCESS stores into the tables of the kernel is a fault of the model.
    The file that elf_load_program reads is a list apart from the memory that it
    loads into.  The ISO 9660 theorem assumes directories
    whose records lie one behind the other with only zeros behind them, and paths
    without names behind a file.  The theorem on
    the keyboard assumes that no key is pressed while the line is read.
    The theorems on IDE assume drives that are busy for fewer polls than the driver
    makes ([patient]), the one on writes also drives that tolerate a FLUSH CACHE while
    they are busy; those on AHCI ports that end their commands in time
    ([port_prompt]) and whose structures are aligned, which ahci_port_rebase does not
    see to; those on NVMe queues that have been set up, page-aligned buffers and
    blocks of at most 8 KiB.  The theorems on the log are about messages of at most
    250 characters, one processor and a serial line that takes every character.
    The order of initialisation in kernel.c, the
    wrappers of single machine instructions (cpuid.c, io.h), which the classes
    stand for, the assembly in boot.asm and headers without code are not
    modelled. *)

From stdpp Require Export base numbers list list_numbers option sets.
From Stdlib Require Export ZArith Lia Bool.

#[global] Open Scope Z_scope.

(** ** Fixed-width C integers

    A C integer of width [w] is a [Z]; every assignment that can overflow goes
    through one of the wrap-around functions below (the kernel is compiled for
    x86_64 without optimisation, where signed arithmetic wraps as well). *)

Definition wrapu (w x : Z) : Z := x mod 2 ^ w.
Definition wraps (w x : Z) : Z := (x + 2 ^ (w - 1)) mod 2 ^ w - 2 ^ (w - 1).

Definition u8 (x : Z) : Z := wrapu 8 x.
Definition u16 (x : Z) : Z := wrapu 16 x.
Definition u32 (x : Z) : Z := wrapu 32 x.
Definition u64 (x : Z) : Z := wrapu 64 x.
Definition i8 (x : Z) : Z := wraps 8 x.
Definition i16 (x : Z) : Z := wraps 16 x.
Definition i32 (x : Z) : Z := wraps 32 x.
Definition i64 (x : Z) : Z := wraps 64 x.

Definition in_u (w x : Z) : Prop := 0 <= x < 2 ^ w.
Definition in_s (w x : Z) : Prop := - 2 ^ (w - 1) <= x < 2 ^ (w - 1).

Definition byte_ok (x : Z) : Prop := 0 <= x < 256.

#[global] Instance byte_ok_dec x : Decision (byte_ok x).
Proof. unfold byte_ok. apply _. Defined.

Lemma wrapu_range w x : 0 <= w -> in_u w (wrapu w x).
Proof. intros. apply Z.mod_pos_bound, Z.pow_pos_nonneg; lia. Qed.

Lemma wraps_range w x : 0 < w -> in_s w (wraps w x).
Proof.
  intros Hw. unfold in_s, wraps.
  assert (2 ^ w = 2 * 2 ^ (w - 1)) as E.
  { rewrite <- Z.pow_succ_r by lia. f_equal; lia. }
  pose proof (Z.mod_pos_bound (x + 2 ^ (w - 1)) (2 ^ w) ltac:(apply Z.pow_pos_nonneg; lia)).
  lia.
Qed.

Lemma wrapu_id w x : in_u w x -> wrapu w x = x.
Proof. apply Z.mod_small. Qed.

Lemma wraps_id w x : 0 < w -> in_s w x -> wraps w x = x.
Proof.
  intros Hw H. unfold in_s, wraps in *.
  assert (2 ^ w = 2 * 2 ^ (w - 1)) as E.
  { rewrite <- Z.pow_succ_r by lia. f_equal; lia. }
  rewrite Z.mod_small by lia. lia.
Qed.

(** Unfolds the width-indexed ranges to literals, so that [lia] sees numbers. *)
Ltac unfold_widths :=
  unfold u8, u16, u32, u64, i8, i16, i32, i64, in_u, in_s in *;
  change (2 ^ 8) with 256 in *; change (2 ^ 16) with 65536 in *;
  change (2 ^ 32) with 4294967296 in *;
  change (2 ^ 64) with 18446744073709551616 in *;
  change (2 ^ (8 - 1)) with 128 in *; change (2 ^ (16 - 1)) with 32768 in *;
  change (2 ^ (32 - 1)) with 2147483648 in *;
  change (2 ^ (64 - 1)) with 9223372036854775808 in *.

Lemma u8_range x : 0 <= u8 x < 256.
Proof. exact (wrapu_range 8 x ltac:(lia)). Qed.
Lemma u16_range x : 0 <= u16 x < 65536.
Proof. exact (wrapu_range 16 x ltac:(lia)). Qed.
Lemma u32_range x : 0 <= u32 x < 4294967296.
Proof. exact (wrapu_range 32 x ltac:(lia)). Qed.
Lemma u64_range x : 0 <= u64 x < 18446744073709551616.
Proof. exact (wrapu_range 64 x ltac:(lia)). Qed.
Lemma i8_range x : -128 <= i8 x < 128.
Proof. exact (wraps_range 8 x ltac:(lia)). Qed.
Lemma i16_range x : -32768 <= i16 x < 32768.
Proof. exact (wraps_range 16 x ltac:(lia)). Qed.
Lemma i32_range x : -2147483648 <= i32 x < 2147483648.
Proof. exact (wraps_range 32 x ltac:(lia)). Qed.
Lemma i64_range x : -9223372036854775808 <= i64 x < 9223372036854775808.
Proof. exact (wraps_range 64 x ltac:(lia)). Qed.

Lemma u8_id x : 0 <= x < 256 -> u8 x = x.
Proof. apply (wrapu_id 8). Qed.
Lemma u16_id x : 0 <= x < 65536 -> u16 x = x.
Proof. apply (wrapu_id 16). Qed.
Lemma u32_id x : 0 <= x < 4294967296 -> u32 x = x.
Proof. apply (wrapu_id 32). Qed.
Lemma u64_id x : 0 <= x < 18446744073709551616 -> u64 x = x.
Proof. apply (wrapu_id 64). Qed.
Lemma i32_id x : -2147483648 <= x < 2147483648 -> i32 x = x.
Proof. apply (wraps_id 32); lia. Qed.
Lemma i8_id x : -128 <= x < 128 -> i8 x = x.
Proof. apply (wraps_id 8); lia. Qed.
Lemma i16_id x : -32768 <= x < 32768 -> i16 x = x.
Proof. apply (wraps_id 16); lia. Qed.
Lemma i64_id x : -9223372036854775808 <= x < 9223372036854775808 -> i64 x = x.
Proof. apply (wraps_id 64); lia. Qed.

(** ** Outcomes

    A piece of C code either finishes with a value, performs an access the C
    abstract machine does not define ([Fault]), or exceeds the loop bound of
    its model ([OutOfFuel]). *)

Inductive fault :=
| OutOfBounds      (** an array or buffer access outside its bounds *)
| NullDeref        (** a dereference of a null pointer *)
| DivideError      (** x86 #DE: division by zero or quotient overflow *)
| UninitRead       (** use of an indeterminate value *)
| Panicked.        (** the kernel called panic() *)

#[global] Instance fault_eq_dec : EqDecision fault.
Proof. solve_decision. Defined.

Inductive outcome (A : Type) :=
| Ret (a : A)
| Fault (f : fault)
| OutOfFuel.

Arguments Ret {A} _.
Arguments Fault {A} _.
Arguments OutOfFuel {A}.

#[global] Instance outcome_ret : MRet outcome := fun A a => Ret a.
#[global] Instance outcome_bind : MBind outcome := fun A B f m =>
  match m with
  | Ret a => f a
  | Fault e => Fault e
  | OutOfFuel => OutOfFuel
  end.

(** [runs_to m Q]: [m] finishes without fault, within its fuel, in a value
    that satisfies [Q]. *)
Definition runs_to {A} (m : outcome A) (Q : A -> Prop) : Prop :=
  match m with Ret a => Q a | _ => False end.

Section RunsTo.
Context {A B : Type}.

Lemma runs_to_ret (a : A) (Q : A -> Prop) : Q a -> runs_to (Ret a) Q.
Proof. done. Qed.

Lemma runs_to_bind (m : outcome A) (f : A -> outcome B) (P : A -> Prop) (Q : B -> Prop) :
  runs_to m P -> (forall a, P a -> runs_to (f a) Q) -> runs_to (m ≫= f) Q.
Proof. destruct m; simpl; naive_solver. Qed.

Lemma runs_to_mono (m : outcome A) (P Q : A -> Prop) :
  runs_to m P -> (forall a, P a -> Q a) -> runs_to m Q.
Proof. destruct m; simpl; naive_solver. Qed.

Lemma runs_to_inv (m : outcome A) (Q : A -> Prop) :
  runs_to m Q <-> exists a, m = Ret a /\ Q a.
Proof. destruct m; simpl; naive_solver. Qed.

Lemma runs_to_and (m : outcome A) (P Q : A -> Prop) :
  runs_to m P -> runs_to m Q -> runs_to m (fun a => P a /\ Q a).
Proof. destruct m; simpl; naive_solver. Qed.
End RunsTo.

(** Follows the paths of a computation that returned, on a goal
    [m = Ret v -> P]. *)
Ltac path :=
  match goal with
  | |- (?m ≫= _) = Ret _ -> _ =>
      let E := fresh "E" in destruct m eqn:E; [|by intros..]
  | |- (if ?b then _ else _) = _ -> _ => destruct b eqn:?
  | |- match ?o with Some _ => _ | None => _ end = _ -> _ => destruct o eqn:?
  | |- Ret _ = Ret _ -> _ => intros [=]; subst
  end; cbn [mbind outcome_bind].

(** ** Arrays indexed by C integers *)

Definition len {A} (l : list A) : Z := Z.of_nat (length l).

Definition aget {A} (l : list A) (i : Z) : outcome A :=
  if i <? 0 then Fault OutOfBounds
  else match l !! Z.to_nat i with
       | Some x => Ret x
       | None => Fault OutOfBounds
       end.

Definition aset {A} (l : list A) (i : Z) (x : A) : outcome (list A) :=
  if (0 <=? i) && (i <? len l) then Ret (<[Z.to_nat i := x]> l)
  else Fault OutOfBounds.

Section Arrays.
Context {A : Type}.
Implicit Types (l : list A) (x : A) (i : Z).

Lemma aget_lookup l i x :
  0 <= i -> l !! Z.to_nat i = Some x -> aget l i = Ret x.
Proof.
  intros Hi Hl. unfold aget. destruct (Z.ltb_spec i 0); [lia|]. by rewrite Hl.
Qed.

Lemma aget_inv l i x :
  aget l i = Ret x -> 0 <= i < len l /\ l !! Z.to_nat i = Some x.
Proof.
  unfold aget, len. destruct (Z.ltb_spec i 0); [done|].
  destruct (l !! Z.to_nat i) as [y|] eqn:E; [|done].
  intros [= ->]. apply lookup_lt_Some in E as ?. split; [lia|done].
Qed.

Lemma aget_in_bounds l i :
  0 <= i < len l -> exists x, aget l i = Ret x /\ l !! Z.to_nat i = Some x.
Proof.
  unfold len. intros Hi.
  destruct (lookup_lt_is_Some_2 l (Z.to_nat i)) as [x Hx]; [lia|].
  exists x. split; [|done]. apply aget_lookup; [lia|done].
Qed.

Lemma aget_out_of_bounds l i :
  ~ (0 <= i < len l) -> aget l i = Fault OutOfBounds.
Proof.
  unfold aget, len. intros Hi. destruct (Z.ltb_spec i 0); [done|].
  by rewrite lookup_ge_None_2 by lia.
Qed.

Lemma aset_in_bounds l i x :
  0 <= i < len l -> aset l i x = Ret (<[Z.to_nat i := x]> l).
Proof.
  intros Hi. unfold aset.
  by destruct (Z.leb_spec 0 i), (Z.ltb_spec i (len l)); simpl; try lia.
Qed.

Lemma aset_inv l i x l' :
  aset l i x = Ret l' -> 0 <= i < len l /\ l' = <[Z.to_nat i := x]> l.
Proof.
  unfold aset.
  destruct (Z.leb_spec 0 i), (Z.ltb_spec i (len l)); simpl; naive_solver lia.
Qed.

Lemma len_insert l n x : len (<[n := x]> l) = len l.
Proof. unfold len. by rewrite length_insert. Qed.

Lemma aget_aset_eq l l' i x : aset l i x = Ret l' -> aget l' i = Ret x.
Proof.
  intros [Hi ->]%aset_inv. apply aget_lookup; [lia|].
  apply list_lookup_insert_eq. unfold len in Hi. lia.
Qed.

Lemma aget_aset_ne l l' i j x :
  i <> j -> aset l i x = Ret l' -> aget l' j = aget l j.
Proof.
  intros Hne [Hi ->]%aset_inv. unfold aget.
  destruct (Z.ltb_spec j 0); [done|].
  rewrite list_lookup_insert_ne by lia. done.
Qed.

Lemma runs_to_aget l i (P : A -> Prop) :
  0 <= i < len l -> Forall P l -> runs_to (aget l i) P.
Proof.
  intros Hi HP. destruct (aget_in_bounds l i Hi) as (x & -> & Hx).
  simpl. by eapply Forall_lookup_1.
Qed.

Lemma runs_to_aset l i x :
  0 <= i < len l -> runs_to (aset l i x) (fun l' => l' = <[Z.to_nat i := x]> l).
Proof. intros Hi. by rewrite aset_in_bounds. Qed.
End Arrays.

(** ** Ranges of bytes *)

(** Reading and writing a range of an array. *)
Definition mem_read (a : list Z) (pos n : Z) : outcome (list Z) :=
  if (0 <=? pos) && (0 <=? n) && (pos + n <=? len a)
  then Ret (take (Z.to_nat n) (drop (Z.to_nat pos) a)) else Fault OutOfBounds.

Definition mem_write (a : list Z) (pos : Z) (bs : list Z) : outcome (list Z) :=
  if (0 <=? pos) && (pos + len bs <=? len a)
  then Ret (take (Z.to_nat pos) a ++ bs ++ drop (Z.to_nat pos + length bs) a)
  else Fault OutOfBounds.

Lemma mem_read_ok a pos n :
  0 <= pos -> 0 <= n -> pos + n <= len a ->
  mem_read a pos n = Ret (take (Z.to_nat n) (drop (Z.to_nat pos) a)) /\
  len (take (Z.to_nat n) (drop (Z.to_nat pos) a)) = n.
Proof.
  intros. unfold mem_read.
  rewrite (proj2 (Z.leb_le 0 pos)), (proj2 (Z.leb_le 0 n)), (proj2 (Z.leb_le _ (len a))) by lia.
  split; [done|]. unfold len in *. rewrite length_take, length_drop. lia.
Qed.

Lemma mem_write_ok a pos bs :
  0 <= pos -> pos + len bs <= len a ->
  exists a', mem_write a pos bs = Ret a' /\ len a' = len a /\
  a' = take (Z.to_nat pos) a ++ bs ++ drop (Z.to_nat pos + length bs) a.
Proof.
  intros. unfold mem_write. rewrite (proj2 (Z.leb_le 0 pos)), (proj2 (Z.leb_le _ (len a))) by lia.
  eexists. split; [done|]. split; [|done]. unfold len in *.
  rewrite !length_app, length_take, length_drop. lia.
Qed.

Lemma take_app_drop_middle {A} (l : list A) (i m : nat) x :
  (i < m)%nat -> (m <= length l)%nat -> l !! i = Some x ->
  take m l = take i l ++ x :: take (m - 1 - i) (drop (S i) l).
Proof.
  intros Him Hm Hx.
  rewrite <- (take_drop_middle _ i x Hx) at 1.
  rewrite take_app, length_take, Nat.min_l by lia.
  rewrite take_ge by (rewrite length_take; lia).
  destruct (m - i)%nat as [|k] eqn:E; [lia|]. simpl. do 3 f_equal. lia.
Qed.

(** [first_index f l]: the least index whose element satisfies [f], the value
    of a C search loop [for (i = 0; i < N; i++) if (f(a[i])) ...]. *)
Fixpoint first_index_from {A} (f : A -> bool) (l : list A) (i : Z) : option Z :=
  match l with
  | [] => None
  | x :: l' => if f x then Some i else first_index_from f l' (i + 1)
  end.

Definition first_index {A} (f : A -> bool) (l : list A) : option Z :=
  first_index_from f l 0.

Section FirstIndex.
Context {A : Type} (f : A -> bool).

Lemma first_index_from_Some l : forall k i,
  first_index_from f l k = Some i ->
  k <= i /\ exists x, l !! Z.to_nat (i - k) = Some x /\ f x = true /\
  forall j y, (j < Z.to_nat (i - k))%nat -> l !! j = Some y -> f y = false.
Proof.
  induction l as [|x l IH]; intros k i; simpl; [done|].
  destruct (f x) eqn:Hx.
  - intros [= <-]. split; [lia|]. exists x. rewrite Z.sub_diag. simpl.
    split_and!; [done|done|]. intros j y Hj. lia.
  - intros (Hk & y & Hy & Hf & Hmin)%IH. split; [lia|]. exists y.
    replace (Z.to_nat (i - k)) with (S (Z.to_nat (i - (k + 1)))) by lia. simpl.
    split_and!; [done|done|]. intros [|j] z Hj; simpl; [naive_solver|].
    apply Hmin. lia.
Qed.

Lemma first_index_from_None l : forall k,
  first_index_from f l k = None <-> Forall (fun x => f x = false) l.
Proof.
  induction l as [|x l IH]; intros k; simpl; [done|].
  rewrite Forall_cons. destruct (f x) eqn:Hx; [naive_solver|].
  rewrite IH. naive_solver.
Qed.

Lemma first_index_Some l i :
  first_index f l = Some i ->
  0 <= i < len l /\ exists x, l !! Z.to_nat i = Some x /\ f x = true /\
  forall j y, (j < Z.to_nat i)%nat -> l !! j = Some y -> f y = false.
Proof.
  intros (Hi & x & Hx & Hf & Hmin)%first_index_from_Some.
  rewrite Z.sub_0_r in *. apply lookup_lt_Some in Hx as ?. unfold len.
  split; [lia|]. by exists x.
Qed.

Lemma first_index_app l1 x l2 :
  Forall (fun y => f y = false) l1 -> f x = true ->
  first_index f (l1 ++ x :: l2) = Some (len l1).
Proof.
  intros H1 Hx. unfold first_index, len.
  cut (forall k, first_index_from f (l1 ++ x :: l2) k = Some (k + Z.of_nat (length l1))).
  { intros H. rewrite H. done. }
  induction H1 as [|y l1 Hy H1 IH]; intros k; simpl.
  - rewrite Hx. f_equal. lia.
  - rewrite Hy, IH. f_equal. lia.
Qed.

Lemma first_index_map l l' : map f l = map f l' -> first_index f l = first_index f l'.
Proof.
  unfold first_index. generalize 0. revert l'. induction l as [|x l IH]; intros [|x' l'] k; try done.
  simpl. intros [= -> E]. destruct (f x'); [done|]. by apply IH.
Qed.

Lemma first_index_insert l n x y :
  l !! n = Some y -> f x = f y -> first_index f (<[n := x]> l) = first_index f l.
Proof.
  intros Hy Hf. apply first_index_map. change (f <$> <[n := x]> l = f <$> l).
  rewrite list_fmap_insert, Hf. apply list_insert_id. rewrite list_lookup_fmap, Hy. done.
Qed.

Lemma first_index_None l :
  first_index f l = None <-> Forall (fun x => f x = false) l.
Proof. apply first_index_from_None. Qed.
End FirstIndex.


(** ** Sums over lists *)

Definition sumZ {A} (f : A -> Z) (l : list A) : Z := foldr (fun x s => f x + s) 0 l.

Section Sums.
Context {A : Type}.
Implicit Types (f g : A -> Z) (l : list A).

Lemma sumZ_cons f x l : sumZ f (x :: l) = f x + sumZ f l.
Proof. done. Qed.

Lemma sumZ_app f l1 l2 : sumZ f (l1 ++ l2) = sumZ f l1 + sumZ f l2.
Proof. induction l1 as [|x l1 IH]; simpl; [done|]. unfold sumZ in *. simpl. lia. Qed.

Lemma sumZ_ext f g l : (forall x, x ∈ l -> f x = g x) -> sumZ f l = sumZ g l.
Proof.
  induction l as [|x l IH]; intros H; [done|]. rewrite !sumZ_cons, IH, (H x); [done|left|].
  intros y Hy. apply H. by right.
Qed.

Lemma sumZ_nonneg f l : (forall x, x ∈ l -> 0 <= f x) -> 0 <= sumZ f l.
Proof.
  induction l as [|x l IH]; intros H; [done|]. rewrite sumZ_cons.
  pose proof (H x ltac:(left)). enough (0 <= sumZ f l) by lia. apply IH. intros y Hy. apply H. by right.
Qed.

(** Two functions that differ at one element of a list without duplicates. *)
Lemma sumZ_point f g l x :
  NoDup l -> x ∈ l -> (forall y, y ∈ l -> y <> x -> g y = f y) ->
  sumZ g l = sumZ f l + (g x - f x).
Proof.
  induction l as [|y l IH]; intros Hnd Hx H; [by apply not_elem_of_nil in Hx|].
  apply NoDup_cons in Hnd as [Hy Hnd]. rewrite !sumZ_cons.
  apply elem_of_cons in Hx as [->|Hx].
  - assert (sumZ g l = sumZ f l) as ->; [|lia].
    apply sumZ_ext. intros z Hz. apply H; [by right|]. intros ->. done.
  - assert (y <> x) by (intros ->; done). rewrite (H y ltac:(left) ltac:(done)).
    rewrite IH; [lia|done|done|]. intros z Hz. apply H. by right.
Qed.

Lemma sumZ_elem_le f l x : (forall y, y ∈ l -> 0 <= f y) -> x ∈ l -> f x <= sumZ f l.
Proof.
  induction l as [|y l IH]; intros H Hx; [by apply not_elem_of_nil in Hx|].
  rewrite sumZ_cons. assert (0 <= sumZ f l) by (apply sumZ_nonneg; intros z Hz; apply H; by right).
  apply elem_of_cons in Hx as [->|Hx]; [lia|].
  pose proof (H y ltac:(left)). enough (f x <= sumZ f l) by lia.
  apply IH; [|done]. intros z Hz. apply H. by right.
Qed.

(** Two different elements both contribute. *)
Lemma sumZ_two_le f l x y :
  NoDup l -> (forall z, z ∈ l -> 0 <= f z) -> x ∈ l -> y ∈ l -> x <> y -> f x + f y <= sumZ f l.
Proof.
  induction l as [|z l IH]; intros Hnd H Hx Hy Hne; [by apply not_elem_of_nil in Hx|].
  apply NoDup_cons in Hnd as [Hz Hnd]. rewrite sumZ_cons.
  assert (H' : forall z, z ∈ l -> 0 <= f z) by (intros; apply H; by right).
  pose proof (H z ltac:(left)).
  apply elem_of_cons in Hx as [->|Hx]; apply elem_of_cons in Hy as [->|Hy]; [done|..].
  - pose proof (sumZ_elem_le f l y H' Hy). lia.
  - pose proof (sumZ_elem_le f l x H' Hx). lia.
  - pose proof (IH Hnd H' Hx Hy Hne). lia.
Qed.
Lemma sumZ_perm f l l' : l ≡ₚ l' -> sumZ f l = sumZ f l'.
Proof. induction 1; unfold sumZ in *; simpl; lia. Qed.
End Sums.

Lemma sumZ_plus {A} (f g : A -> Z) l : sumZ (fun x => f x + g x) l = sumZ f l + sumZ g l.
Proof. induction l as [|x l IH]; [done|]. rewrite !sumZ_cons, IH. lia. Qed.

Lemma sumZ_swap {A B} (g : A -> B -> Z) (l : list A) (m : list B) :
  sumZ (fun y => sumZ (fun x => g x y) l) m = sumZ (fun x => sumZ (fun y => g x y) m) l.
Proof.
  induction m as [|y m IH].
  - induction l as [|x l IHl]; [done|]. rewrite sumZ_cons, <- IHl. done.
  - rewrite sumZ_cons, IH, <- sumZ_plus. apply sumZ_ext. intros x _. done.
Qed.

Lemma sumZ_const {A} (c : Z) (l : list A) : sumZ (fun _ => c) l = c * len l.
Proof.
  induction l as [|x l IH]; [unfold len; simpl; lia|]. rewrite sumZ_cons, IH.
  unfold len. simpl length. lia.
Qed.

Lemma sumZ_scale {A} (c : Z) (f : A -> Z) (l : list A) : sumZ (fun x => c * f x) l = c * sumZ f l.
Proof. induction l as [|x l IH]; [unfold sumZ; simpl; lia|]. rewrite !sumZ_cons, IH. lia. Qed.

Lemma len_seqZ a n : 0 <= n -> len (seqZ a n) = n.
Proof. intros. unfold len. rewrite length_seqZ. lia. Qed.

(** A test of the numbers below [n]. *)
Lemma by_cases (n : Z) (f : Z -> bool) : forallb f (seqZ 0 n) = true -> forall m, 0 <= m < n -> f m = true.
Proof. intros H m Hm. eapply forallb_forall in H; [exact H|]. apply list_elem_of_In, elem_of_seqZ. lia. Qed.

Lemma sumZ_le {A} (f g : A -> Z) (l : list A) : (forall x, x ∈ l -> f x <= g x) -> sumZ f l <= sumZ g l.
Proof.
  induction l as [|x l IH]; intros Hle; [done|]. rewrite !sumZ_cons.
  pose proof (Hle x ltac:(left)). enough (sumZ f l <= sumZ g l) by lia. apply IH. intros y Hy. apply Hle. by right.
Qed.
