(* ===== verification/Ring.v ===== *)
(** * Ring buffers

    The kernel keeps several queues in an array with a read and a write index
    that wrap around; one slot stays empty so that equal indices mean an empty
    queue.  This file relates such a ring to the list of its contents. *)

From S2P Require Import Prelude.

Section Ring.
Context {A : Type}.
Implicit Types (items : list A) (head tail k : Z) (x : A).

(** The elements of the ring, oldest first. *)
Definition ring_contents items head tail : list A :=
  omap (fun k => items !! Z.to_nat ((head + k) mod len items))
       (seqZ 0 ((tail - head) mod len items)).

Definition ring_ok items head tail : Prop := 0 <= head < len items /\ 0 <= tail < len items.

Lemma mod_shift cap h k :
  0 <= h < cap -> 0 <= k < cap -> (h + k) mod cap = if h + k <? cap then h + k else h + k - cap.
Proof.
  intros. destruct (Z.ltb_spec (h + k) cap); [by apply Z.mod_small; lia|].
  symmetry. apply (Z.mod_unique _ _ 1); lia.
Qed.

Lemma mod_gap cap h t :
  0 <= h < cap -> 0 <= t < cap -> (t - h) mod cap = if h <=? t then t - h else t - h + cap.
Proof.
  intros. destruct (Z.leb_spec h t); [by apply Z.mod_small; lia|].
  symmetry. apply (Z.mod_unique _ _ (-1)); lia.
Qed.

(** Turns the wrapped indices of a ring into case distinctions. *)
Ltac ring_cases :=
  repeat first
    [ rewrite mod_gap by lia | rewrite mod_shift by lia
    | match goal with
      | |- context [?a <? ?b] => destruct (Z.ltb_spec a b)
      | |- context [?a <=? ?b] => destruct (Z.leb_spec a b)
      | H : context [?a <? ?b] |- _ => destruct (Z.ltb_spec a b)
      | H : context [?a <=? ?b] |- _ => destruct (Z.leb_spec a b)
      end ]; try lia.

Lemma ring_next_ok items head tail :
  ring_ok items head tail ->
  0 <= (head + 1) mod len items < len items /\ 0 <= (tail + 1) mod len items < len items.
Proof. intros [Hh Ht]. split; apply Z.mod_pos_bound; lia. Qed.

Lemma omap_total {B C} (f : B -> option C) (l : list B) : (forall y, y ∈ l -> is_Some (f y)) -> length (omap f l) = length l.
Proof.
  induction l as [|y l IH]; intros Hf; [done|]. cbn [omap list_omap].
  destruct (Hf y ltac:(left)) as [z ->]. cbn. f_equal. apply IH. intros w Hw. apply Hf. by right.
Qed.

Lemma omap_ext_in {B C} (f g : B -> option C) (l : list B) : (forall y, y ∈ l -> f y = g y) -> omap f l = omap g l.
Proof.
  induction l as [|y l IH]; intros Hfg; [done|]. cbn [omap list_omap].
  rewrite (Hfg y) by left. rewrite IH; [done|]. intros w Hw. apply Hfg. by right.
Qed.

Lemma omap_map {B C D} (f : C -> option D) (g : B -> C) (l : list B) : omap f (g <$> l) = omap (fun y => f (g y)) l.
Proof. induction l as [|y l IH]; [done|]. cbn. by rewrite <- IH. Qed.

Lemma ring_len items head tail :
  ring_ok items head tail -> len (ring_contents items head tail) = (tail - head) mod len items.
Proof.
  intros [Hh Ht]. unfold ring_contents, len at 1. rewrite omap_total.
  - rewrite length_seqZ, Z2Nat.id; [done|]. apply Z.mod_pos_bound. lia.
  - intros k [Hk0 Hk]%elem_of_seqZ. apply lookup_lt_is_Some_2.
    pose proof (Z.mod_pos_bound (head + k) (len items) ltac:(lia)). unfold len in *. lia.
Qed.

Lemma ring_empty items head tail :
  ring_ok items head tail -> (head = tail <-> ring_contents items head tail = []).
Proof.
  intros Hok. pose proof (ring_len _ _ _ Hok) as HL. destruct Hok as [Hh Ht].
  rewrite mod_gap in HL by lia. split.
  - intros ->. apply nil_length_inv. unfold len in HL. rewrite Z.leb_refl in HL. lia.
  - intros E. rewrite E in HL. unfold len in HL at 1. simpl in HL.
    destruct (Z.leb_spec head tail); lia.
Qed.

Lemma ring_full items head tail :
  ring_ok items head tail ->
  ((tail + 1) mod len items = head <-> len (ring_contents items head tail) = len items - 1).
Proof.
  intros Hok. rewrite ring_len by done. destruct Hok as [Hh Ht].
  destruct (decide (len items = 1)) as [E|].
  - rewrite E, !Z.mod_1_r. lia.
  - rewrite mod_gap, mod_shift by lia.
    destruct (Z.ltb_spec (tail + 1) (len items)), (Z.leb_spec head tail); lia.
Qed.

(** Storing at the write index and advancing it appends. *)
Lemma ring_push items head tail x :
  ring_ok items head tail -> (tail + 1) mod len items <> head ->
  ring_contents (<[Z.to_nat tail := x]> items) head ((tail + 1) mod len items) =
    ring_contents items head tail ++ [x].
Proof.
  intros [Hh Ht] Hne. assert (1 < len items) as Hcap.
  { destruct (decide (len items = 1)) as [E|]; [|lia]. rewrite E, Z.mod_1_r in Hne. lia. }
  unfold ring_contents. rewrite len_insert.
  replace (((tail + 1) mod len items - head) mod len items) with ((tail - head) mod len items + 1).
  2:{ rewrite (mod_shift _ tail 1) in Hne |- * by lia. ring_cases. }
  assert (0 <= (tail - head) mod len items < len items) as Hn by (apply Z.mod_pos_bound; lia).
  rewrite seqZ_app, omap_app by lia. f_equal.
  - apply omap_ext_in. intros k [Hk0 Hk]%elem_of_seqZ. apply list_lookup_insert_ne.
    rewrite mod_gap in Hk by lia. ring_cases.
  - rewrite Z.add_0_l. change 1 with (Z.succ 0) at 1. rewrite seqZ_cons by lia. cbn [omap list_omap].
    replace ((head + (tail - head) mod len items) mod len items) with tail.
    2:{ rewrite (mod_gap (len items) head tail) by lia. ring_cases. }
    rewrite list_lookup_insert_eq by (unfold len in Ht; lia). done.
Qed.

(** Reading at the read index and advancing it takes the oldest element. *)
Lemma ring_pop items head tail :
  ring_ok items head tail -> head <> tail ->
  exists x, items !! Z.to_nat head = Some x /\
  ring_contents items head tail = x :: ring_contents items ((head + 1) mod len items) tail.
Proof.
  intros [Hh Ht] Hne.
  destruct (lookup_lt_is_Some_2 items (Z.to_nat head)) as [x Hx]; [unfold len in Hh; lia|].
  exists x. split; [done|]. unfold ring_contents.
  assert ((tail - (head + 1) mod len items) mod len items = (tail - head) mod len items - 1) as ->.
  { destruct (decide (len items = 1)) as [E|]; [lia|]. rewrite (mod_shift _ head 1) by lia. ring_cases. }
  assert (0 < (tail - head) mod len items) as Hpos by (rewrite mod_gap by lia; ring_cases).
  rewrite seqZ_cons by done. cbn [omap list_omap].
  rewrite Z.add_0_r, Z.mod_small, Hx by lia. f_equal.
  change (Z.succ 0) with (1 + 0). rewrite <- fmap_add_seqZ, Z.sub_1_r.
  rewrite omap_map. apply omap_ext_in. intros k _. cbn. do 2 f_equal.
  rewrite Zplus_mod_idemp_l. f_equal. lia.
Qed.
End Ring.
