(* ===== verification/NvmProcess.v ===== *)
(** * NVM processes and their capabilities

    The process control block of the Novaria Virtual Machine ([nvm_process_t]
    in include/core/kernel/nvm/nvm.h) and the capability operations of
    core/kernel/nvm/caps.c.  Pointers to buffers are [option buffer] ([None]
    is NULL); a buffer carries its address and its bytes.  The invariant
    [proc_wf] is the type-level well-formedness of the block, [runnable] the
    extra facts about a process that the scheduler may run. *)

From S2P Require Import Prelude.

(** ** Data *)

Definition MAX_PROCESSES : Z := 32.
Definition STACK_SIZE : Z := 1024.
Definition MAX_LOCALS : Z := 256.
Definition MAX_CAPS : Z := 8.
Definition TIME_SLICE_MS : Z := 10.
Definition HEAP_SIZE : Z := 128 * 1024.

Definition CAPS_NONE : Z := 0x0000.
Definition CAP_FS_READ : Z := 0x0001.
Definition CAP_FS_WRITE : Z := 0x0002.
Definition CAP_FS_CREATE : Z := 0x0003.
Definition CAP_FS_DELETE : Z := 0x0004.
Definition CAP_MEM_MGMT : Z := 0x0005.
Definition CAP_DRV_ACCESS : Z := 0x0006.
Definition CAP_PROC_MGMT : Z := 0x0007.
Definition CAP_CAPS_MGMT : Z := 0x0008.
Definition CAP_ALL : Z := 0xFFFF.

#[global] Arguments MAX_PROCESSES : simpl never.
#[global] Arguments STACK_SIZE : simpl never.
#[global] Arguments MAX_LOCALS : simpl never.
#[global] Arguments MAX_CAPS : simpl never.
#[global] Arguments HEAP_SIZE : simpl never.

(** A block of memory obtained from the allocator or handed in by a caller. *)
Record buffer := mkbuf { buf_addr : Z; buf_bytes : list Z }.

Record nvm_process := mkproc {
  bytecode : option buffer;      (** uint8_t*, NULL after exit *)
  ip : Z;                        (** uint32_t *)
  psize : Z;                     (** uint32_t size *)
  stack : list Z;                (** int32_t stack[STACK_SIZE] *)
  sp : Z;                        (** uint16_t *)
  locals : list Z;               (** int32_t locals[MAX_LOCALS] *)
  active : bool;
  blocked : bool;
  exit_code : Z;                 (** int32_t *)
  pid : Z;                       (** uint8_t *)
  fp : Z;                        (** int32_t *)
  wakeup_reason : Z;             (** uint8_t *)
  capabilities : list Z;         (** uint16_t capabilities[MAX_CAPS] *)
  caps_count : Z;                (** uint8_t *)
  heap : option buffer;          (** uint8_t* *)
  heap_size : Z                  (** uint32_t *)
}.

(** Field updates. *)
Definition set_bytecode (p : nvm_process) v := mkproc v (ip p) (psize p) (stack p) (sp p) (locals p) (active p) (blocked p) (exit_code p) (pid p) (fp p) (wakeup_reason p) (capabilities p) (caps_count p) (heap p) (heap_size p).
Definition set_ip (p : nvm_process) v := mkproc (bytecode p) v (psize p) (stack p) (sp p) (locals p) (active p) (blocked p) (exit_code p) (pid p) (fp p) (wakeup_reason p) (capabilities p) (caps_count p) (heap p) (heap_size p).
Definition set_stack (p : nvm_process) v := mkproc (bytecode p) (ip p) (psize p) v (sp p) (locals p) (active p) (blocked p) (exit_code p) (pid p) (fp p) (wakeup_reason p) (capabilities p) (caps_count p) (heap p) (heap_size p).
Definition set_sp (p : nvm_process) v := mkproc (bytecode p) (ip p) (psize p) (stack p) v (locals p) (active p) (blocked p) (exit_code p) (pid p) (fp p) (wakeup_reason p) (capabilities p) (caps_count p) (heap p) (heap_size p).
Definition set_locals (p : nvm_process) v := mkproc (bytecode p) (ip p) (psize p) (stack p) (sp p) v (active p) (blocked p) (exit_code p) (pid p) (fp p) (wakeup_reason p) (capabilities p) (caps_count p) (heap p) (heap_size p).
Definition set_active (p : nvm_process) v := mkproc (bytecode p) (ip p) (psize p) (stack p) (sp p) (locals p) v (blocked p) (exit_code p) (pid p) (fp p) (wakeup_reason p) (capabilities p) (caps_count p) (heap p) (heap_size p).
Definition set_blocked (p : nvm_process) v := mkproc (bytecode p) (ip p) (psize p) (stack p) (sp p) (locals p) (active p) v (exit_code p) (pid p) (fp p) (wakeup_reason p) (capabilities p) (caps_count p) (heap p) (heap_size p).
Definition set_exit_code (p : nvm_process) v := mkproc (bytecode p) (ip p) (psize p) (stack p) (sp p) (locals p) (active p) (blocked p) v (pid p) (fp p) (wakeup_reason p) (capabilities p) (caps_count p) (heap p) (heap_size p).
Definition set_fp (p : nvm_process) v := mkproc (bytecode p) (ip p) (psize p) (stack p) (sp p) (locals p) (active p) (blocked p) (exit_code p) (pid p) v (wakeup_reason p) (capabilities p) (caps_count p) (heap p) (heap_size p).
Definition set_wakeup_reason (p : nvm_process) v := mkproc (bytecode p) (ip p) (psize p) (stack p) (sp p) (locals p) (active p) (blocked p) (exit_code p) (pid p) (fp p) v (capabilities p) (caps_count p) (heap p) (heap_size p).
Definition set_caps (p : nvm_process) v c := mkproc (bytecode p) (ip p) (psize p) (stack p) (sp p) (locals p) (active p) (blocked p) (exit_code p) (pid p) (fp p) (wakeup_reason p) v c (heap p) (heap_size p).
Definition set_heap (p : nvm_process) v := mkproc (bytecode p) (ip p) (psize p) (stack p) (sp p) (locals p) (active p) (blocked p) (exit_code p) (pid p) (fp p) (wakeup_reason p) (capabilities p) (caps_count p) v (heap_size p).
Definition set_heap_size (p : nvm_process) v := mkproc (bytecode p) (ip p) (psize p) (stack p) (sp p) (locals p) (active p) (blocked p) (exit_code p) (pid p) (fp p) (wakeup_reason p) (capabilities p) (caps_count p) (heap p) v.

(** The error path every instruction shares:
    [exit_code = -1; active = false]. *)
Definition terminate (p : nvm_process) : nvm_process :=
  set_active (set_exit_code p (-1)) false.

(** ** Well-formedness *)

Definition i32_ok (x : Z) : Prop := -2147483648 <= x < 2147483648.

Definition buffer_ok (n : Z) (b : buffer) : Prop :=
  n <= len (buf_bytes b) /\ Forall byte_ok (buf_bytes b).

Record proc_wf (p : nvm_process) : Prop := {
  wf_ip : 0 <= ip p < 4294967296;
  wf_size : 0 <= psize p < 2147483648;   (** code below 2 GiB *)
  wf_stack_len : len (stack p) = STACK_SIZE;
  wf_stack : Forall i32_ok (stack p);
  wf_sp : 0 <= sp p <= STACK_SIZE;
  wf_locals_len : len (locals p) = MAX_LOCALS;
  wf_locals : Forall i32_ok (locals p);
  wf_exit : i32_ok (exit_code p);
  wf_pid : 0 <= pid p < MAX_PROCESSES;
  wf_fp : i32_ok (fp p);
  wf_caps_len : len (capabilities p) = MAX_CAPS;
  wf_caps : Forall (fun c => 0 <= c < 65536) (capabilities p);
  wf_caps_count : 0 <= caps_count p <= MAX_CAPS;
  wf_heap_size : 0 <= heap_size p <= HEAP_SIZE;
  wf_bytecode : forall b, bytecode p = Some b -> buffer_ok (psize p) b;
  wf_heap : forall b, heap p = Some b -> buffer_ok (heap_size p) b
}.

(** What the scheduler relies on for a process it runs: code and heap are
    mapped. *)
Definition mapped (p : nvm_process) : Prop :=
  (exists b, bytecode p = Some b) /\ (exists b, heap p = Some b) /\ 0 < heap_size p.

(** ** Capabilities (core/kernel/nvm/caps.c)

    [cap] is an [int16_t] compared with an [uint16_t] slot after promotion to
    [int]; the loops run over the first [caps_count] slots. *)

Fixpoint caps_scan (caps : list Z) (i : Z) (n : nat) (v : Z) : outcome bool :=
  match n with
  | O => Ret false
  | S n' =>
      c ← aget caps i;
      if c =? v then Ret true else caps_scan caps (i + 1) n' v
  end.

Definition caps_has_capability (proc : nvm_process) (cap : Z) : outcome bool :=
  all ← caps_scan (capabilities proc) 0 (Z.to_nat (caps_count proc)) CAP_ALL;
  if (all : bool) then Ret true
  else caps_scan (capabilities proc) 0 (Z.to_nat (caps_count proc)) cap.

Definition caps_add_capability (proc : nvm_process) (cap : Z)
  : outcome (nvm_process * bool) :=
  if MAX_CAPS <=? caps_count proc then Ret (proc, false)
  else
    has ← caps_has_capability proc cap;
    if (has : bool) then Ret (proc, true)
    else
      cs ← aset (capabilities proc) (caps_count proc) (u16 cap);
      Ret (set_caps proc cs (u8 (caps_count proc + 1)), true).

(** The inner loop of the removal: shift slots [j+1 ..] one place down. *)
Fixpoint caps_shift (caps : list Z) (j : Z) (n : nat) : outcome (list Z) :=
  match n with
  | O => Ret caps
  | S n' =>
      c ← aget caps (j + 1);
      caps' ← aset caps j c;
      caps_shift caps' (j + 1) n'
  end.

Fixpoint caps_remove_loop (proc : nvm_process) (cap i : Z) (n : nat)
  : outcome (nvm_process * bool) :=
  match n with
  | O => Ret (proc, false)
  | S n' =>
      c ← aget (capabilities proc) i;
      if c =? cap then
        cs ← caps_shift (capabilities proc) i (Z.to_nat (caps_count proc - 1 - i));
        Ret (set_caps proc cs (u8 (caps_count proc - 1)), true)
      else caps_remove_loop proc cap (i + 1) n'
  end.

Definition caps_remove_capability (proc : nvm_process) (cap : Z)
  : outcome (nvm_process * bool) :=
  caps_remove_loop proc cap 0 (Z.to_nat (caps_count proc)).

Definition caps_clear_all (proc : nvm_process) : nvm_process :=
  set_caps proc (capabilities proc) 0.

Fixpoint caps_copy_loop (dst src : list Z) (i : Z) (n : nat) : outcome (list Z) :=
  match n with
  | O => Ret dst
  | S n' =>
      c ← aget src i;
      dst' ← aset dst i c;
      caps_copy_loop dst' src (i + 1) n'
  end.

(** [caps_copy(dest, src)]: the new value of [dest]. *)
Definition caps_copy (dest src : nvm_process) : outcome (nvm_process * bool) :=
  cs ← caps_copy_loop (capabilities dest) (capabilities src) 0
         (Z.to_nat (caps_count src));
  Ret (set_caps dest cs (caps_count src), true).

(** ** The abstract capability set

    The slots in use, as a list; [grants] is what the docs (2.2-Caps.md) call
    holding a capability. *)

Definition cap_list (p : nvm_process) : list Z :=
  take (Z.to_nat (caps_count p)) (capabilities p).

Definition grants (p : nvm_process) (cap : Z) : Prop :=
  CAP_ALL ∈ cap_list p \/ cap ∈ cap_list p.

#[global] Instance grants_dec p cap : Decision (grants p cap).
Proof. unfold grants. apply _. Defined.

(** ** Lemmas on the loops *)

Lemma take_S_drop {A} (l : list A) (i n : nat) x :
  l !! i = Some x -> take (S n) (drop i l) = x :: take n (drop (S i) l).
Proof. intros H. by rewrite (drop_S l x i H). Qed.

Lemma caps_scan_spec caps v n : forall i,
  0 <= i -> i + Z.of_nat n <= len caps ->
  caps_scan caps i n v = Ret (bool_decide (v ∈ take n (drop (Z.to_nat i) caps))).
Proof.
  induction n as [|n IH]; intros i Hi Hn; simpl.
  { done. }
  destruct (aget_in_bounds caps i) as (c & -> & Hc); [lia|]. simpl.
  rewrite IH by lia. rewrite (take_S_drop _ _ _ _ Hc).
  replace (Z.to_nat (i + 1)) with (S (Z.to_nat i)) by lia.
  destruct (Z.eqb_spec c v) as [->|Hne]; f_equal; symmetry.
  - apply bool_decide_eq_true. left.
  - apply bool_decide_ext. rewrite elem_of_cons. naive_solver.
Qed.

Lemma caps_has_capability_spec p cap :
  proc_wf p -> caps_has_capability p cap = Ret (bool_decide (grants p cap)).
Proof.
  intros Hp. pose proof (wf_caps_len _ Hp). pose proof (wf_caps_count _ Hp).
  unfold caps_has_capability, grants, cap_list.
  rewrite !caps_scan_spec by lia. simpl. rewrite drop_0.
  repeat case_bool_decide; naive_solver.
Qed.

Lemma cap_list_snoc (caps : list Z) n c :
  (n < length caps)%nat -> take (S n) (<[n := c]> caps) = take n caps ++ [c].
Proof.
  intros Hn. rewrite (take_S_r _ _ c).
  - by rewrite take_insert_ge by lia.
  - by apply list_lookup_insert_eq.
Qed.

Lemma proc_wf_set_caps p caps n :
  proc_wf p -> len caps = MAX_CAPS -> Forall (fun c => 0 <= c < 65536) caps ->
  0 <= n <= MAX_CAPS -> proc_wf (set_caps p caps n).
Proof. intros [] ???. by constructor. Qed.

Lemma caps_add_capability_spec p cap :
  proc_wf p ->
  runs_to (caps_add_capability p cap) (fun '(p', ok) =>
    proc_wf p' /\
    if ok : bool
    then cap_list p' = cap_list p ++ (if decide (grants p cap) then [] else [u16 cap])
    else p' = p /\ caps_count p = MAX_CAPS).
Proof.
  intros Hp. pose proof (wf_caps_len _ Hp) as Hl. pose proof (wf_caps_count _ Hp) as Hc.
  unfold caps_add_capability.
  destruct (Z.leb_spec MAX_CAPS (caps_count p)); [simpl; split_and!; [done|done|lia]|].
  rewrite caps_has_capability_spec by done. simpl.
  case_bool_decide as Hg; simpl.
  { split; [done|]. rewrite decide_True by done. by rewrite app_nil_r. }
  rewrite aset_in_bounds by lia. simpl.
  unfold MAX_CAPS in *.
  rewrite u8_id by lia. split.
  - apply proc_wf_set_caps; [done|by rewrite len_insert| |unfold MAX_CAPS; lia].
    apply Forall_insert; [apply (wf_caps _ Hp)|apply u16_range].
  - rewrite decide_False by done. unfold cap_list; simpl.
    replace (Z.to_nat (caps_count p + 1)) with (S (Z.to_nat (caps_count p))) by lia.
    apply cap_list_snoc. unfold len in Hl. lia.
Qed.

(** Deleting position [k] of the slots in use. *)
Lemma caps_shift_spec n : forall caps j,
  0 <= j -> j + Z.of_nat n < len caps ->
  runs_to (caps_shift caps j n) (fun caps' =>
    len caps' = len caps /\
    take (Z.to_nat j + n) caps' = take (Z.to_nat j) caps ++ take n (drop (S (Z.to_nat j)) caps) /\
    forall P : Z -> Prop, Forall P caps -> Forall P caps').
Proof.
  induction n as [|n IH]; intros caps j Hj Hn; simpl.
  { rewrite Nat.add_0_r, app_nil_r. done. }
  destruct (aget_in_bounds caps (j + 1)) as (c & -> & Hc); [lia|]. simpl.
  rewrite aset_in_bounds by lia. simpl.
  eapply runs_to_mono; [apply IH; rewrite ?len_insert; lia|].
  intros caps' (Hlen & Htake & HP). rewrite len_insert in Hlen. split_and!; [done| |].
  - replace (Z.to_nat (j + 1)) with (S (Z.to_nat j)) in Htake, Hc by lia.
    replace (Z.to_nat j + S n)%nat with (S (Z.to_nat j) + n)%nat by lia.
    rewrite Htake, cap_list_snoc by (unfold len in *; lia).
    rewrite drop_insert_lt by lia.
    change (match drop (S (Z.to_nat j)) caps with [] => [] | y :: l => y :: take n l end)
      with (take (S n) (drop (S (Z.to_nat j)) caps)).
    rewrite (take_S_drop caps (S (Z.to_nat j)) n c Hc).
    by rewrite <- app_assoc.
  - intros P HPc. apply HP, Forall_insert; [done|].
    by eapply Forall_lookup_1.
Qed.

(** The first occurrence of [x], removed. *)
Fixpoint remove_first (x : Z) (l : list Z) : list Z :=
  match l with
  | [] => []
  | y :: l' => if y =? x then l' else y :: remove_first x l'
  end.

Lemma remove_first_app x l1 l2 :
  x ∉ l1 -> remove_first x (l1 ++ l2) = l1 ++ remove_first x l2.
Proof.
  induction l1 as [|y l1 IH]; intros Hx; simpl; [done|].
  rewrite not_elem_of_cons in Hx. destruct (Z.eqb_spec y x); [naive_solver|].
  rewrite IH; naive_solver.
Qed.

Lemma caps_remove_loop_spec p cap n : forall i,
  proc_wf p -> 0 <= i -> i + Z.of_nat n = caps_count p ->
  cap ∉ take (Z.to_nat i) (capabilities p) ->
  runs_to (caps_remove_loop p cap i n) (fun '(p', ok) =>
    proc_wf p' /\
    if ok : bool then cap ∈ cap_list p /\ cap_list p' = remove_first cap (cap_list p)
    else p' = p /\ cap ∉ cap_list p).
Proof.
  induction n as [|n IH]; intros i Hp Hi Hn Hnot;
    pose proof (wf_caps_len _ Hp) as Hl; pose proof (wf_caps_count _ Hp) as Hc; simpl.
  { split_and!; [done|done|]. unfold cap_list.
    by replace (caps_count p) with i by lia. }
  destruct (aget_in_bounds (capabilities p) i) as (c & -> & Hlk); [lia|]. simpl.
  assert (Hlen : (Z.to_nat (caps_count p) <= length (capabilities p))%nat)
    by (unfold len in Hl; lia).
  pose proof (take_app_drop_middle _ (Z.to_nat i) (Z.to_nat (caps_count p)) c
    ltac:(lia) Hlen Hlk) as Hsplit.
  destruct (Z.eqb_spec c cap) as [->|Hne].
  - eapply runs_to_bind; [apply caps_shift_spec; lia|].
    intros cs (Hlcs & Hcs & HP). simpl. unfold MAX_CAPS in *.
    rewrite u8_id by lia. split_and!.
    + apply proc_wf_set_caps; [done|by rewrite Hlcs|apply HP, (wf_caps _ Hp)|unfold MAX_CAPS; lia].
    + unfold cap_list. rewrite Hsplit. set_solver.
    + unfold cap_list; simpl. rewrite Hsplit, remove_first_app by done.
      simpl. rewrite Z.eqb_refl.
      replace (Z.to_nat (caps_count p - 1))
        with (Z.to_nat i + Z.to_nat (caps_count p - 1 - i))%nat by lia.
      rewrite Hcs. do 2 f_equal. lia.
  - apply IH; [done|lia|lia|].
    replace (Z.to_nat (i + 1)) with (S (Z.to_nat i)) by lia.
    rewrite (take_S_r _ _ _ Hlk). set_solver.
Qed.

Lemma caps_remove_capability_spec p cap :
  proc_wf p ->
  runs_to (caps_remove_capability p cap) (fun '(p', ok) =>
    proc_wf p' /\
    if ok : bool then cap ∈ cap_list p /\ cap_list p' = remove_first cap (cap_list p)
    else p' = p /\ cap ∉ cap_list p).
Proof.
  intros Hp. pose proof (wf_caps_count _ Hp). apply caps_remove_loop_spec; [done|lia|lia|].
  rewrite take_0. apply not_elem_of_nil.
Qed.

Lemma caps_copy_loop_spec src n : forall dst i,
  0 <= i -> i + Z.of_nat n <= len src -> i + Z.of_nat n <= len dst ->
  runs_to (caps_copy_loop dst src i n) (fun dst' =>
    len dst' = len dst /\
    take (Z.to_nat i + n) dst' = take (Z.to_nat i) dst ++ take n (drop (Z.to_nat i) src) /\
    forall P : Z -> Prop, Forall P src -> Forall P dst -> Forall P dst').
Proof.
  induction n as [|n IH]; intros dst i Hi Hn Hl; simpl.
  { rewrite Nat.add_0_r, app_nil_r. done. }
  destruct (aget_in_bounds src i) as (c & -> & Hc); [lia|]. simpl.
  rewrite aset_in_bounds by lia. simpl.
  eapply runs_to_mono; [apply IH; rewrite ?len_insert; lia|].
  intros dst' (Hlen & Htake & HP). rewrite len_insert in Hlen. split_and!; [done| |].
  - replace (Z.to_nat (i + 1)) with (S (Z.to_nat i)) in Htake by lia.
    replace (Z.to_nat i + S n)%nat with (S (Z.to_nat i) + n)%nat by lia.
    rewrite Htake, cap_list_snoc by (unfold len in *; lia).
    change (match drop (Z.to_nat i) src with [] => [] | y :: l => y :: take n l end)
      with (take (S n) (drop (Z.to_nat i) src)).
    rewrite (take_S_drop src _ n c Hc). by rewrite <- app_assoc.
  - intros P Hs Hd. apply HP; [done|]. apply Forall_insert; [done|].
    exact (Forall_lookup_1 _ _ _ _ Hs Hc).
Qed.

Lemma caps_copy_spec dest src :
  proc_wf dest -> proc_wf src ->
  runs_to (caps_copy dest src) (fun '(d, ok) =>
    ok = true /\ proc_wf d /\ cap_list d = cap_list src /\
    d = set_caps dest (capabilities d) (caps_count d)).
Proof.
  intros Hd Hs. pose proof (wf_caps_count _ Hs).
  pose proof (wf_caps_len _ Hs). pose proof (wf_caps_len _ Hd).
  unfold caps_copy. eapply runs_to_bind; [apply caps_copy_loop_spec; lia|].
  intros cs (Hl & Ht & HP). simpl. split_and!; [done| | |by destruct dest].
  - apply proc_wf_set_caps; [done|lia| |lia].
    apply HP; [apply (wf_caps _ Hs)|apply (wf_caps _ Hd)].
  - unfold cap_list; simpl. change (Z.to_nat 0 + Z.to_nat (caps_count src))%nat with (Z.to_nat (caps_count src)) in Ht. by rewrite Ht, drop_0.
Qed.
