(* ===== verification/NvmInstr.v ===== *)
(** * The NVM instruction handlers

    core/kernel/nvm/instructions/*.c: one definition per handler that works on
    the process alone.  A handler takes the process and returns the process
    it leaves behind with the handler's boolean result ([false] stops the
    time slice); accesses outside an array, a NULL heap or code pointer and
    the x86 divide error are [Fault]s.  Log calls have no effect on the state
    and are left out. *)

From S2P Require Import Prelude NvmProcess.

(** ** Access to code, stack and heap *)

(** [proc->bytecode[i]] with [i] of type [uint32_t]. *)
Definition fetch (p : nvm_process) (i : Z) : outcome Z :=
  match bytecode p with
  | None => Fault NullDeref
  | Some b => aget (buf_bytes b) (u32 i)
  end.

(** [proc->bytecode[proc->ip++]]. *)
Definition fetch8 (p : nvm_process) : outcome (nvm_process * Z) :=
  b ← fetch p (ip p);
  Ret (set_ip p (u32 (ip p + 1)), b).

(** The big-endian operand at [ip], followed by [ip += 4]. *)
Definition fetch32 (p : nvm_process) : outcome (nvm_process * Z) :=
  b0 ← fetch p (ip p);
  b1 ← fetch p (ip p + 1);
  b2 ← fetch p (ip p + 2);
  b3 ← fetch p (ip p + 3);
  let v := u32 (Z.lor (Z.lor (Z.lor (Z.shiftl b0 24) (Z.shiftl b1 16)) (Z.shiftl b2 8)) b3) in
  Ret (set_ip p (u32 (ip p + 4)), v).

(** [proc->ip + 3 < proc->size] in [uint32_t]. *)
Definition has_operand32 (p : nvm_process) : bool := u32 (ip p + 3) <? psize p.

(** [proc->stack[proc->sp++] = v] and [proc->stack[--proc->sp]]. *)
Definition push_val (p : nvm_process) (v : Z) : outcome nvm_process :=
  st ← aset (stack p) (sp p) v;
  Ret (set_sp (set_stack p st) (u16 (sp p + 1))).

Definition pop_val (p : nvm_process) : outcome (nvm_process * Z) :=
  let s := u16 (sp p - 1) in
  v ← aget (stack p) s;
  Ret (set_sp p s, v).

(** The little-endian [int32_t] view of four bytes. *)
Definition le32_read (bs : list Z) (off : Z) : outcome Z :=
  b0 ← aget bs off;
  b1 ← aget bs (off + 1);
  b2 ← aget bs (off + 2);
  b3 ← aget bs (off + 3);
  Ret (i32 (b0 + b1 * 2 ^ 8 + b2 * 2 ^ 16 + b3 * 2 ^ 24)).

Definition le32_write (bs : list Z) (off v : Z) : outcome (list Z) :=
  bs ← aset bs off (Z.land v 255);
  bs ← aset bs (off + 1) (Z.land (Z.shiftr v 8) 255);
  bs ← aset bs (off + 2) (Z.land (Z.shiftr v 16) 255);
  aset bs (off + 3) (Z.land (Z.shiftr v 24) 255).

Definition stop (p : nvm_process) : outcome (nvm_process * bool) :=
  Ret (terminate p, false).

Definition continue (p : nvm_process) : outcome (nvm_process * bool) := Ret (p, true).

(** ** Stack instructions (stack.c) *)

Definition handle_halt (p : nvm_process) : outcome (nvm_process * bool) :=
  Ret (set_exit_code (set_active p false) 0, false).

Definition handle_nop (p : nvm_process) : outcome (nvm_process * bool) := continue p.

Definition handle_push (p : nvm_process) : outcome (nvm_process * bool) :=
  if has_operand32 p then
    '(p, value) ← fetch32 p;
    if sp p <? STACK_SIZE then
      p ← push_val p (i32 value);
      continue p
    else stop p
  else stop p.

Definition handle_pop (p : nvm_process) : outcome (nvm_process * bool) :=
  if 0 <? sp p then continue (set_sp p (u16 (sp p - 1))) else stop p.

Definition handle_dup (p : nvm_process) : outcome (nvm_process * bool) :=
  if sp p =? 0 then stop p
  else if STACK_SIZE <=? sp p then stop p
  else
    v ← aget (stack p) (sp p - 1);
    p ← push_val p v;
    continue p.

Definition handle_swap (p : nvm_process) : outcome (nvm_process * bool) :=
  if 2 <=? sp p then
    top ← aget (stack p) (sp p - 1);
    second ← aget (stack p) (sp p - 2);
    st ← aset (stack p) (sp p - 2) top;
    st ← aset st (sp p - 1) second;
    continue (set_stack p st)
  else stop p.

Fixpoint push_zeros (n : nat) (p : nvm_process) : outcome nvm_process :=
  match n with
  | O => Ret p
  | S n' => p ← push_val p 0; push_zeros n' p
  end.

Definition handle_enter (p : nvm_process) : outcome (nvm_process * bool) :=
  if ip p <? psize p then
    '(p, nlocals) ← fetch8 p;
    if sp p + 1 + nlocals <=? STACK_SIZE then
      p ← push_val p (fp p);
      p ← push_zeros (Z.to_nat nlocals) (set_fp p (sp p - 1));
      continue p
    else stop p
  else stop p.

Definition handle_leave (p : nvm_process) : outcome (nvm_process * bool) :=
  if (fp p <? 0) || (STACK_SIZE <=? fp p) then stop p
  else if sp p <? fp p + 1 then stop p
  else
    saved_fp ← aget (stack p) (fp p);
    continue (set_fp (set_sp p (u16 (fp p))) saved_fp).

(** ** Arithmetic, comparison and bitwise instructions
    (arithmetic.c, bitwise.c)

    Every two-operand instruction reads [top] and [second], writes its result
    over [second] and drops one cell. *)

Definition binary (op : Z -> Z -> outcome Z) (p : nvm_process)
  : outcome (nvm_process * bool) :=
  if 2 <=? sp p then
    top ← aget (stack p) (sp p - 1);
    second ← aget (stack p) (sp p - 2);
    result ← op second top;
    st ← aset (stack p) (sp p - 2) result;
    continue (set_sp (set_stack p st) (u16 (sp p - 1)))
  else stop p.

Definition INT32_MIN : Z := -2147483648.

(** [idiv]: the quotient of [INT32_MIN] by [-1] does not fit and traps, for
    [/] and for [%]. *)
Definition idiv32 (second top : Z) : outcome Z :=
  if (second =? INT32_MIN) && (top =? -1) then Fault DivideError
  else Ret (Z.quot second top).
Definition irem32 (second top : Z) : outcome Z :=
  if (second =? INT32_MIN) && (top =? -1) then Fault DivideError
  else Ret (Z.rem second top).

(** DIV and MOD test the divisor before computing. *)
Definition binary_nz (op : Z -> Z -> outcome Z) (p : nvm_process)
  : outcome (nvm_process * bool) :=
  if 2 <=? sp p then
    top ← aget (stack p) (sp p - 1);
    second ← aget (stack p) (sp p - 2);
    if top =? 0 then stop p
    else
      result ← op second top;
      st ← aset (stack p) (sp p - 2) result;
      continue (set_sp (set_stack p st) (u16 (sp p - 1)))
  else stop p.

Definition handle_add := binary (fun second top => Ret (i32 (top + second))).
Definition handle_sub := binary (fun second top => Ret (i32 (second - top))).
Definition handle_mul := binary (fun second top => Ret (i32 (second * top))).
Definition handle_div := binary_nz idiv32.
Definition handle_mod := binary_nz irem32.

Definition handle_cmp := binary (fun second top =>
  Ret (if second <? top then -1 else if top =? second then 0 else 1)).
Definition handle_eq := binary (fun second top => Ret (if top =? second then 1 else 0)).
Definition handle_neq := binary (fun second top => Ret (if top =? second then 0 else 1)).
Definition handle_gt := binary (fun second top => Ret (if top <? second then 1 else 0)).
Definition handle_lt := binary (fun second top => Ret (if second <? top then 1 else 0)).

Definition handle_and := binary (fun second top => Ret (Z.land second top)).
Definition handle_or := binary (fun second top => Ret (Z.lor second top)).
Definition handle_xor := binary (fun second top => Ret (Z.lxor second top)).

Definition handle_not (p : nvm_process) : outcome (nvm_process * bool) :=
  if 1 <=? sp p then
    top ← aget (stack p) (sp p - 1);
    st ← aset (stack p) (sp p - 1) (Z.lnot top);
    continue (set_stack p st)
  else stop p.

Definition handle_shl := binary (fun second top =>
  let shift := Z.land top 31 in
  Ret (if shift =? 0 then second else i32 (u32 (Z.shiftl (u32 second) shift)))).
Definition handle_shr := binary (fun second top =>
  let shift := Z.land top 31 in
  Ret (if shift =? 0 then second else i32 (Z.shiftr (u32 second) shift))).
Definition handle_sar := binary (fun second top =>
  let shift := Z.land top 31 in
  Ret (if shift =? 0 then second else Z.shiftr second shift)).

(** ** Flow control (flowcontrol.c) *)

Definition valid_target (p : nvm_process) (addr : Z) : bool :=
  (4 <=? addr) && (addr <? psize p).

(** JMP without room for its operand is a no-op. *)
Definition handle_jmp (p : nvm_process) : outcome (nvm_process * bool) :=
  if has_operand32 p then
    '(p, addr) ← fetch32 p;
    if valid_target p addr then continue (set_ip p addr) else stop p
  else continue p.

(** JZ and JNZ, which differ in the condition on the popped value. *)
Definition cond_jump (taken : Z -> bool) (p : nvm_process)
  : outcome (nvm_process * bool) :=
  if 0 <? sp p then
    '(p, value) ← pop_val p;
    if has_operand32 p then
      '(p, addr) ← fetch32 p;
      if taken value then
        if valid_target p addr then continue (set_ip p addr) else stop p
      else continue p
    else stop p
  else stop p.

Definition handle_jz := cond_jump (fun value => value =? 0).
Definition handle_jnz := cond_jump (fun value => negb (value =? 0)).

Definition handle_call (p : nvm_process) : outcome (nvm_process * bool) :=
  if has_operand32 p then
    '(p, addr) ← fetch32 p;
    if sp p <? STACK_SIZE - 1 then
      p ← push_val p (i32 (ip p));
      if valid_target p addr then continue (set_ip p addr) else stop p
    else stop p
  else stop p.

Definition handle_ret (p : nvm_process) : outcome (nvm_process * bool) :=
  if 0 <? sp p then
    '(p, v) ← pop_val p;
    let return_addr := u32 v in
    if valid_target p return_addr then continue (set_ip p return_addr) else stop p
  else stop p.

Definition handle_load_arg (p : nvm_process) : outcome (nvm_process * bool) :=
  if ip p <? psize p then
    '(p, off) ← fetch8 p;
    if fp p <=? 0 then stop p
    else
      let idx := i32 (i32 (fp p - 2) - off) in
      if (0 <=? idx) && (idx <? sp p) && (sp p <? STACK_SIZE) then
        v ← aget (stack p) idx;
        p ← push_val p v;
        continue p
      else continue p
  else continue p.

Definition handle_store_arg (p : nvm_process) : outcome (nvm_process * bool) :=
  if ip p <? psize p then
    '(p, off) ← fetch8 p;
    if fp p <=? 0 then stop p
    else
      let idx := i32 (i32 (fp p - 2) - off) in
      if (0 <=? idx) && (idx <? STACK_SIZE) && (0 <? sp p) then
        '(p, value) ← pop_val p;
        st ← aset (stack p) idx value;
        continue (set_stack p st)
      else continue p
  else continue p.

(** ** Memory (memory.c) *)

Definition handle_load (p : nvm_process) : outcome (nvm_process * bool) :=
  if ip p <? psize p then
    '(p, var_index) ← fetch8 p;
    if var_index <? MAX_LOCALS then
      value ← aget (locals p) var_index;
      if sp p <? STACK_SIZE then
        p ← push_val p value;
        continue p
      else continue p
    else continue p
  else continue p.

Definition handle_store (p : nvm_process) : outcome (nvm_process * bool) :=
  if ip p <? psize p then
    '(p, var_index) ← fetch8 p;
    if (var_index <? MAX_LOCALS) && (0 <? sp p) then
      '(p, value) ← pop_val p;
      ls ← aset (locals p) var_index value;
      continue (set_locals p ls)
    else continue p
  else continue p.

Definition handle_load_rel (p : nvm_process) : outcome (nvm_process * bool) :=
  if ip p <? psize p then
    '(p, off) ← fetch8 p;
    if fp p <? 0 then stop p
    else
      let idx := i32 (i32 (fp p + 1) + off) in
      if (0 <=? idx) && (idx <? sp p) && (sp p <? STACK_SIZE) then
        v ← aget (stack p) idx;
        p ← push_val p v;
        continue p
      else stop p
  else continue p.

Definition handle_store_rel (p : nvm_process) : outcome (nvm_process * bool) :=
  if ip p <? psize p then
    '(p, off) ← fetch8 p;
    if fp p <? 0 then stop p
    else
      let idx := i32 (i32 (fp p + 1) + off) in
      if (0 <=? idx) && (idx <? STACK_SIZE) && (0 <? sp p) then
        '(p, value) ← pop_val p;
        st ← aset (stack p) idx value;
        continue (set_stack p st)
      else continue p
  else continue p.

(** The bounds test of LOAD_HEAP and STORE_HEAP, in [int32_t] arithmetic:
    [offset < 0 || offset + 3 >= (int32_t)heap_size]. *)
Definition heap_out_of_bounds (p : nvm_process) (offset : Z) : bool :=
  (offset <? 0) || (i32 (heap_size p) <=? i32 (offset + 3)).

Definition handle_load_heap (p : nvm_process) : outcome (nvm_process * bool) :=
  if sp p <? 1 then stop p
  else
    '(p, offset) ← pop_val p;
    if heap_out_of_bounds p offset then stop p
    else
      match heap p with
      | None => Fault NullDeref
      | Some h =>
          value ← le32_read (buf_bytes h) offset;
          if STACK_SIZE <=? sp p then stop p
          else
            p ← push_val p value;
            continue p
      end.

Definition handle_store_heap (p : nvm_process) : outcome (nvm_process * bool) :=
  if sp p <? 2 then stop p
  else
    '(p, value) ← pop_val p;
    '(p, offset) ← pop_val p;
    if heap_out_of_bounds p offset then stop p
    else
      match heap p with
      | None => Fault NullDeref
      | Some h =>
          bs ← le32_write (buf_bytes h) offset value;
          continue (set_heap p (Some (mkbuf (buf_addr h) bs)))
      end.

(** ** BREAK (system.c) *)

Definition handle_break (p : nvm_process) : outcome (nvm_process * bool) := continue p.
