(* ===== verification/NvmSafety.v ===== *)
(** * Memory safety of the process-local instructions

    [local_step p p' k]: the contract of one handler.  From a well-formed,
    mapped process every handler finishes without fault and meets it, except
    on the inputs singled out by [idiv_traps] and [heap_wraps]; those two are
    shown to fault in NvmMachine.v. *)

From S2P Require Import Prelude NvmProcess NvmInstr.

Create HintDb nvm.

(** ** The contract *)

Record local_step (p p' : nvm_process) (cont : bool) : Prop := {
  ls_wf : proc_wf p';
  ls_mapped : mapped p';
  ls_bytecode : bytecode p' = bytecode p;
  ls_size : psize p' = psize p;
  ls_pid : pid p' = pid p;
  ls_caps : capabilities p' = capabilities p;
  ls_caps_count : caps_count p' = caps_count p;
  ls_heap_size : heap_size p' = heap_size p;
  ls_blocked : blocked p' = blocked p;
  ls_wakeup : wakeup_reason p' = wakeup_reason p;
  ls_cont : cont = true -> active p' = active p /\ exit_code p' = exit_code p;
  ls_stop : cont = false -> active p' = false /\ (exit_code p' = -1 \/ exit_code p' = 0)
}.

Definition handler_ok (h : nvm_process -> outcome (nvm_process * bool))
    (pre : nvm_process -> Prop) : Prop :=
  forall p, proc_wf p -> mapped p -> ip p <= psize p -> pre p ->
  runs_to (h p) (fun '(p', k) => local_step p p' k).

Definition always (p : nvm_process) : Prop := True.

(** ** Well-formedness under field updates *)

Lemma proc_wf_set_sp p v : proc_wf p -> 0 <= v <= STACK_SIZE -> proc_wf (set_sp p v).
Proof. intros [] ?. by constructor. Qed.

Lemma proc_wf_set_ip p v : proc_wf p -> 0 <= v < 4294967296 -> proc_wf (set_ip p v).
Proof. intros [] ?. by constructor. Qed.

Lemma proc_wf_set_fp p v : proc_wf p -> i32_ok v -> proc_wf (set_fp p v).
Proof. intros [] ?. by constructor. Qed.

Lemma proc_wf_set_exit p v : proc_wf p -> i32_ok v -> proc_wf (set_exit_code p v).
Proof. intros [] ?. by constructor. Qed.

Lemma proc_wf_set_active p v : proc_wf p -> proc_wf (set_active p v).
Proof. intros []. by constructor. Qed.

Lemma proc_wf_set_stack p n v :
  proc_wf p -> i32_ok v -> proc_wf (set_stack p (<[n := v]> (stack p))).
Proof. intros [] ?. constructor; simpl; rewrite ?len_insert; auto using Forall_insert. Qed.

Lemma proc_wf_set_locals p n v :
  proc_wf p -> i32_ok v -> proc_wf (set_locals p (<[n := v]> (locals p))).
Proof. intros [] ?. constructor; simpl; rewrite ?len_insert; auto using Forall_insert. Qed.

Lemma proc_wf_set_heap p h bs :
  proc_wf p -> heap p = Some h -> len bs = len (buf_bytes h) -> Forall byte_ok bs ->
  proc_wf (set_heap p (Some (mkbuf (buf_addr h) bs))).
Proof.
  intros Hp Hh Hl Hb. destruct (wf_heap _ Hp _ Hh). destruct Hp. constructor; simpl; try done.
  intros b [= <-]. split; simpl; [lia|done].
Qed.

Lemma i32_ok_i32 x : i32_ok (i32 x).
Proof. apply i32_range. Qed.

Lemma i32_ok_m1 : i32_ok (-1).
Proof. unfold i32_ok. lia. Qed.

Lemma i32_ok_0 : i32_ok 0.
Proof. unfold i32_ok. lia. Qed.

Lemma i32_ok_1 : i32_ok 1.
Proof. unfold i32_ok. lia. Qed.

Lemma proc_wf_terminate p : proc_wf p -> proc_wf (terminate p).
Proof. intros. apply proc_wf_set_active, proc_wf_set_exit; [done|apply i32_ok_m1]. Qed.

#[export] Hint Resolve proc_wf_set_sp proc_wf_set_ip proc_wf_set_fp proc_wf_set_exit
  proc_wf_set_active proc_wf_set_stack proc_wf_set_locals proc_wf_terminate
  i32_ok_i32 i32_ok_m1 i32_ok_0 i32_ok_1 u32_range : nvm.

(** A handler that leaves a well-formed process with untouched identity meets
    the contract. *)

Lemma local_step_intro p p' :
  proc_wf p' -> mapped p' ->
  (bytecode p', psize p', pid p', capabilities p', caps_count p', heap_size p',
   blocked p', wakeup_reason p') =
  (bytecode p, psize p, pid p, capabilities p, caps_count p, heap_size p,
   blocked p, wakeup_reason p) ->
  active p' = active p -> exit_code p' = exit_code p ->
  local_step p p' true.
Proof. intros ?? [=] ??. by constructor. Qed.

Lemma local_step_stop p p' :
  proc_wf p' -> mapped p' ->
  (bytecode p', psize p', pid p', capabilities p', caps_count p', heap_size p',
   blocked p', wakeup_reason p') =
  (bytecode p, psize p, pid p, capabilities p, caps_count p, heap_size p,
   blocked p, wakeup_reason p) ->
  local_step p (terminate p') false.
Proof.
  intros Hw Hm [=]. constructor; simpl; auto using proc_wf_terminate. done.
Qed.

(** ** Primitives *)

Lemma fetch_ok p i :
  proc_wf p -> mapped p -> u32 i < psize p -> runs_to (fetch p i) byte_ok.
Proof.
  intros Hp [[b Hb] _] Hi. unfold fetch. rewrite Hb.
  destruct (wf_bytecode _ Hp _ Hb) as [Hl HF].
  apply runs_to_aget; [|done]. pose proof (u32_range i). lia.
Qed.

Lemma fetch8_ok p :
  proc_wf p -> mapped p -> ip p < psize p ->
  runs_to (fetch8 p) (fun '(p', b) => p' = set_ip p (u32 (ip p + 1)) /\ byte_ok b).
Proof.
  intros Hp Hm Hi. unfold fetch8. eapply runs_to_bind.
  - apply fetch_ok; [done|done|]. rewrite u32_id; [done|apply (wf_ip _ Hp)].
  - intros b Hb. done.
Qed.

(** The operand bytes are in bounds when the last one is: the index does not
    wrap below the 2 GiB code limit. *)
Lemma has_operand32_spec p :
  proc_wf p -> ip p <= psize p -> has_operand32 p = (ip p + 3 <? psize p).
Proof.
  intros Hp Hi. pose proof (wf_ip _ Hp). pose proof (wf_size _ Hp).
  unfold has_operand32. by rewrite u32_id by lia.
Qed.

Lemma fetch32_ok p :
  proc_wf p -> mapped p -> ip p + 3 < psize p ->
  runs_to (fetch32 p) (fun '(p', v) => p' = set_ip p (ip p + 4) /\ 0 <= v < 4294967296).
Proof.
  intros Hp Hm Hi. pose proof (wf_ip _ Hp). pose proof (wf_size _ Hp).
  unfold fetch32.
  do 4 (eapply runs_to_bind; [apply fetch_ok; [done|done|rewrite u32_id; lia]|];
        intros ? _).
  simpl. split; [|apply u32_range]. by rewrite u32_id by lia.
Qed.

Lemma push_val_ok p v :
  proc_wf p -> sp p < STACK_SIZE ->
  runs_to (push_val p v) (fun p' =>
    p' = set_sp (set_stack p (<[Z.to_nat (sp p) := v]> (stack p))) (sp p + 1)).
Proof.
  intros Hp Hs. pose proof (wf_sp _ Hp). pose proof (wf_stack_len _ Hp).
  unfold push_val. rewrite aset_in_bounds by lia. simpl.
  unfold STACK_SIZE in *. by rewrite u16_id by lia.
Qed.

Lemma pop_val_ok p :
  proc_wf p -> 0 < sp p ->
  runs_to (pop_val p) (fun '(p', v) =>
    p' = set_sp p (sp p - 1) /\ i32_ok v /\ stack p !! Z.to_nat (sp p - 1) = Some v).
Proof.
  intros Hp Hs. pose proof (wf_sp _ Hp). pose proof (wf_stack_len _ Hp).
  unfold pop_val, STACK_SIZE in *. rewrite u16_id by lia.
  destruct (aget_in_bounds (stack p) (sp p - 1)) as (v & -> & Hv); [lia|].
  simpl. split_and!; [done| |done]. eapply Forall_lookup_1; [apply (wf_stack _ Hp)|done].
Qed.

Lemma stack_get_ok p i :
  proc_wf p -> 0 <= i < STACK_SIZE -> runs_to (aget (stack p) i) i32_ok.
Proof.
  intros Hp Hi. pose proof (wf_stack_len _ Hp).
  apply runs_to_aget; [lia|apply (wf_stack _ Hp)].
Qed.

Lemma stack_set_ok p i v :
  proc_wf p -> 0 <= i < STACK_SIZE ->
  runs_to (aset (stack p) i v) (fun st => st = <[Z.to_nat i := v]> (stack p)).
Proof. intros Hp Hi. apply runs_to_aset. rewrite (wf_stack_len _ Hp). done. Qed.

(** ** Stepping through a handler

    [hstep] consumes the next primitive of the handler, leaving its facts in
    the context; [hdone] closes a [continue]/[stop] leaf. *)

Ltac zbool :=
  repeat match goal with
  | H : _ && _ = true |- _ => apply andb_prop in H as [? ?]
  | H : _ || _ = false |- _ => apply orb_false_iff in H as [? ?]
  | H : (_ <? _) = true |- _ => apply Z.ltb_lt in H
  | H : (_ <? _) = false |- _ => apply Z.ltb_ge in H
  | H : (_ <=? _) = true |- _ => apply Z.leb_le in H
  | H : (_ <=? _) = false |- _ => apply Z.leb_gt in H
  | H : (_ =? _) = true |- _ => apply Z.eqb_eq in H
  | H : (_ =? _) = false |- _ => apply Z.eqb_neq in H
  end.

(** Bounds of the fields of a well-formed process, as hypotheses for [lia]. *)
Ltac wf_facts p Hp :=
  pose proof (wf_ip p Hp); pose proof (wf_size p Hp); pose proof (wf_sp p Hp);
  pose proof (wf_fp p Hp); pose proof (wf_stack_len p Hp); pose proof (wf_locals_len p Hp);
  unfold i32_ok, byte_ok, STACK_SIZE, MAX_LOCALS in *.

Ltac slia := unfold STACK_SIZE, MAX_LOCALS, i32_ok, byte_ok in *; simpl in *; lia.

Ltac hval := first [assumption | apply i32_ok_i32 | slia].

Ltac hwf :=
  try assumption;
  lazymatch goal with
  | |- proc_wf (set_sp _ _) => apply proc_wf_set_sp; [hwf | slia]
  | |- proc_wf (set_ip _ _) => apply proc_wf_set_ip; [hwf | first [apply u32_range | slia]]
  | |- proc_wf (set_fp _ _) => apply proc_wf_set_fp; [hwf | hval]
  | |- proc_wf (set_stack ?q _) => apply (proc_wf_set_stack q); [hwf | hval]
  | |- proc_wf (set_locals ?q _) => apply (proc_wf_set_locals q); [hwf | hval]
  | |- proc_wf (set_exit_code _ _) => apply proc_wf_set_exit; [hwf | hval]
  | |- proc_wf (set_active _ _) => apply proc_wf_set_active; hwf
  end.

Ltac hstep :=
  lazymatch goal with
  | |- runs_to (fetch8 _ ≫= _) _ =>
      eapply runs_to_bind; [apply fetch8_ok; [hwf|assumption|slia]|];
      intros [? ?] [-> ?]; simpl
  | |- runs_to (fetch32 _ ≫= _) _ =>
      eapply runs_to_bind; [apply fetch32_ok; [hwf|assumption|slia]|];
      intros [? ?] [-> ?]; simpl
  | |- runs_to (push_val _ _ ≫= _) _ =>
      eapply runs_to_bind; [apply push_val_ok; [hwf|slia]|];
      intros ? ->; simpl
  | |- runs_to (pop_val _ ≫= _) _ =>
      eapply runs_to_bind; [apply pop_val_ok; [hwf|slia]|];
      intros [? ?] (-> & ? & ?); simpl
  | |- runs_to (aget (stack ?p) _ ≫= _) _ =>
      eapply runs_to_bind; [apply stack_get_ok; [hwf|slia]|];
      intros ? ?; simpl
  | |- runs_to (aset (stack ?p) _ _ ≫= _) _ =>
      eapply runs_to_bind; [apply stack_set_ok; [hwf|slia]|];
      intros ? ->; simpl
  | |- runs_to (if has_operand32 ?p then _ else _) _ =>
      rewrite (has_operand32_spec p) by (first [hwf | slia]); simpl
  | |- runs_to (if ?b then _ else _) _ => destruct b eqn:?; zbool; simpl
  end.

Ltac hdone :=
  lazymatch goal with
  | |- runs_to (continue _) _ => unfold continue; simpl; hdone
  | |- runs_to (stop _) _ => unfold stop; simpl; hdone
  | |- local_step _ _ true => apply local_step_intro; [hwf|assumption|reflexivity..]
  | |- local_step _ _ false => apply local_step_stop; [hwf|assumption|reflexivity]
  end.

Ltac handler h :=
  intros p Hp Hm Hip _; unfold h; wf_facts p Hp; repeat hstep; try hdone.

(** ** Stack and flow-control handlers *)

Lemma handle_halt_ok : handler_ok handle_halt always.
Proof.
  intros p Hp Hm _ _. constructor; simpl; auto; [hwf|done].
Qed.

Lemma handle_nop_ok : handler_ok handle_nop always.
Proof. handler handle_nop. Qed.

Lemma handle_push_ok : handler_ok handle_push always.
Proof. handler handle_push. Qed.

Lemma handle_pop_ok : handler_ok handle_pop always.
Proof. handler handle_pop. rewrite u16_id by lia. hdone. Qed.

Lemma handle_dup_ok : handler_ok handle_dup always.
Proof. handler handle_dup. Qed.

Lemma handle_swap_ok : handler_ok handle_swap always.
Proof.
  handler handle_swap.
  eapply runs_to_bind; [apply runs_to_aset; rewrite len_insert; lia|].
  intros ? ->. apply local_step_intro; [|assumption|reflexivity..].
  apply (proc_wf_set_stack (set_stack p _)); [hwf|hval].
Qed.

Lemma push_zeros_ok n : forall p,
  proc_wf p -> sp p + Z.of_nat n <= STACK_SIZE ->
  runs_to (push_zeros n p) (fun p' =>
    proc_wf p' /\ exists st s, p' = set_sp (set_stack p st) s).
Proof.
  induction n as [|n IH]; intros p Hp Hs; cbn [push_zeros].
  { split; [done|]. exists (stack p), (sp p). by destruct p. }
  wf_facts p Hp. hstep.
  eapply runs_to_mono; [apply IH; [hwf|slia]|].
  intros p' [Hp' (st & s & ->)]. split; [done|]. by exists st, s.
Qed.

Lemma handle_enter_ok : handler_ok handle_enter always.
Proof.
  handler handle_enter.
  eapply runs_to_bind; [apply push_zeros_ok; [hwf|slia]|].
  intros p' [Hp' (st & s & ->)]. hdone.
Qed.

Lemma handle_leave_ok : handler_ok handle_leave always.
Proof. handler handle_leave. rewrite u16_id by slia. hdone. Qed.

Lemma handle_jmp_ok : handler_ok handle_jmp always.
Proof. handler handle_jmp. Qed.

Lemma cond_jump_ok taken : handler_ok (cond_jump taken) always.
Proof. handler @cond_jump. Qed.

Lemma handle_call_ok : handler_ok handle_call always.
Proof. handler handle_call. Qed.

Lemma handle_ret_ok : handler_ok handle_ret always.
Proof. handler handle_ret. Qed.

Lemma handle_load_arg_ok : handler_ok handle_load_arg always.
Proof. handler handle_load_arg. Qed.

Lemma handle_store_arg_ok : handler_ok handle_store_arg always.
Proof. handler handle_store_arg. Qed.

(** ** Arithmetic and bitwise handlers *)

(** A total operation on [int32_t]. *)
Definition op_ok (op : Z -> Z -> outcome Z) : Prop :=
  forall a b, i32_ok a -> i32_ok b -> runs_to (op a b) i32_ok.

Lemma binary_ok op : op_ok op -> handler_ok (binary op) always.
Proof.
  intros Hop. handler binary.
  eapply runs_to_bind; [apply Hop; assumption|]. intros r Hr. simpl.
  hstep. rewrite u16_id by lia. hdone.
Qed.

(** An [int32_t] is a [Z] whose bits from 31 upwards agree. *)
Lemma i32_ok_shiftr x : i32_ok x <-> Z.shiftr x 31 = 0 \/ Z.shiftr x 31 = -1.
Proof.
  rewrite Z.shiftr_div_pow2 by lia. change (2 ^ 31) with 2147483648.
  unfold i32_ok. Z.div_mod_to_equations. lia.
Qed.

Lemma op_ok_bitwise (f : Z -> Z -> Z) :
  (forall a b n, 0 <= n -> Z.shiftr (f a b) n = f (Z.shiftr a n) (Z.shiftr b n)) ->
  (forall a b, a = 0 \/ a = -1 -> b = 0 \/ b = -1 -> f a b = 0 \/ f a b = -1) ->
  op_ok (fun second top => Ret (f second top)).
Proof.
  intros Hs Hf a b Ha%i32_ok_shiftr Hb%i32_ok_shiftr. simpl.
  apply i32_ok_shiftr. rewrite Hs by lia. auto.
Qed.

Lemma i32_ok_sar a s : i32_ok a -> 0 <= s -> i32_ok (Z.shiftr a s).
Proof.
  intros Ha Hs. rewrite i32_ok_shiftr in *. rewrite Z.shiftr_shiftr, Z.add_comm by lia.
  rewrite <- Z.shiftr_shiftr by lia. destruct Ha as [->| ->].
  - left. by rewrite Z.shiftr_0_l.
  - right. rewrite Z.shiftr_div_pow2 by lia.
    pose proof (Z.pow_pos_nonneg 2 s ltac:(lia) ltac:(lia)).
    symmetry. apply (Zdiv_unique _ _ _ (2 ^ s - 1)); lia.
Qed.

Lemma op_ok_ret (f : Z -> Z -> Z) :
  (forall a b, i32_ok a -> i32_ok b -> i32_ok (f a b)) ->
  op_ok (fun second top => Ret (f second top)).
Proof. intros Hf a b Ha Hb. simpl. auto. Qed.

Ltac op_solve :=
  apply binary_ok, op_ok_ret; intros a b Ha Hb;
  repeat case_match; auto using i32_ok_i32, i32_ok_0, i32_ok_1, i32_ok_m1.

Lemma handle_add_ok : handler_ok handle_add always.
Proof. op_solve. Qed.
Lemma handle_sub_ok : handler_ok handle_sub always.
Proof. op_solve. Qed.
Lemma handle_mul_ok : handler_ok handle_mul always.
Proof. op_solve. Qed.
Lemma handle_cmp_ok : handler_ok handle_cmp always.
Proof. op_solve. Qed.
Lemma handle_eq_ok : handler_ok handle_eq always.
Proof. op_solve. Qed.
Lemma handle_neq_ok : handler_ok handle_neq always.
Proof. op_solve. Qed.
Lemma handle_gt_ok : handler_ok handle_gt always.
Proof. op_solve. Qed.
Lemma handle_lt_ok : handler_ok handle_lt always.
Proof. op_solve. Qed.
Lemma handle_shl_ok : handler_ok handle_shl always.
Proof. op_solve. Qed.
Lemma handle_shr_ok : handler_ok handle_shr always.
Proof. op_solve. Qed.
Lemma handle_sar_ok : handler_ok handle_sar always.
Proof. op_solve. apply i32_ok_sar; [done|]. apply Z.land_nonneg. lia. Qed.

Lemma handle_and_ok : handler_ok handle_and always.
Proof.
  apply binary_ok, (op_ok_bitwise Z.land); intros;
    [apply Z.shiftr_land|naive_solver].
Qed.
Lemma handle_or_ok : handler_ok handle_or always.
Proof.
  apply binary_ok, (op_ok_bitwise Z.lor); intros;
    [apply Z.shiftr_lor|naive_solver].
Qed.
Lemma handle_xor_ok : handler_ok handle_xor always.
Proof.
  apply binary_ok, (op_ok_bitwise Z.lxor); intros;
    [apply Z.shiftr_lxor|naive_solver].
Qed.

Lemma handle_not_ok : handler_ok handle_not always.
Proof.
  handler handle_not.
  apply local_step_intro; [|assumption|reflexivity..].
  apply proc_wf_set_stack; [done|]. unfold i32_ok, Z.lnot in *. lia.
Qed.

(** ** Division *)

(** [idiv] traps: the two topmost cells hold [-1] over [INT32_MIN]. *)
Definition idiv_traps (p : nvm_process) : Prop :=
  2 <= sp p /\ stack p !! Z.to_nat (sp p - 1) = Some (-1) /\
  stack p !! Z.to_nat (sp p - 2) = Some INT32_MIN.

#[global] Instance idiv_traps_dec p : Decision (idiv_traps p).
Proof. unfold idiv_traps. apply _. Defined.

Lemma binary_nz_ok (op : Z -> Z -> outcome Z) :
  (forall a b, i32_ok a -> i32_ok b -> b <> 0 -> ~ (a = INT32_MIN /\ b = -1) ->
     runs_to (op a b) i32_ok) ->
  handler_ok (binary_nz op) (fun p => ~ idiv_traps p).
Proof.
  intros Hop p Hp Hm Hip Hnt. unfold binary_nz. wf_facts p Hp.
  hstep; [|hdone].
  destruct (aget_in_bounds (stack p) (sp p - 1)) as (b & -> & Hb); [lia|].
  destruct (aget_in_bounds (stack p) (sp p - 2)) as (a & -> & Ha); [lia|]. simpl.
  pose proof (Forall_lookup_1 _ _ _ _ (wf_stack _ Hp) Ha).
  pose proof (Forall_lookup_1 _ _ _ _ (wf_stack _ Hp) Hb).
  hstep; [hdone|].
  eapply runs_to_bind.
  { apply Hop; [done|done|done|]. intros [-> ->]. by apply Hnt. }
  intros r Hr. simpl. hstep. rewrite u16_id by lia. hdone.
Qed.

Lemma idiv32_ok a b :
  i32_ok a -> i32_ok b -> b <> 0 -> ~ (a = INT32_MIN /\ b = -1) ->
  runs_to (idiv32 a b) i32_ok.
Proof.
  unfold idiv32, INT32_MIN, i32_ok. intros Ha Hb Hb0 Hn.
  destruct (Z.eqb_spec a (-2147483648)), (Z.eqb_spec b (-1)); simpl; try (exfalso; lia);
    pose proof (Z.quot_rem' a b); pose proof (Z.rem_bound_abs a b Hb0);
    pose proof (Z.rem_sign_mul a b); nia.
Qed.

Lemma irem32_ok a b :
  i32_ok a -> i32_ok b -> b <> 0 -> ~ (a = INT32_MIN /\ b = -1) ->
  runs_to (irem32 a b) i32_ok.
Proof.
  unfold irem32, INT32_MIN, i32_ok. intros Ha Hb Hb0 Hn.
  destruct (Z.eqb_spec a (-2147483648)), (Z.eqb_spec b (-1)); simpl; try (exfalso; lia);
    pose proof (Z.rem_bound_abs a b Hb0); lia.
Qed.

Lemma handle_div_ok : handler_ok handle_div (fun p => ~ idiv_traps p).
Proof. apply binary_nz_ok, idiv32_ok. Qed.
Lemma handle_mod_ok : handler_ok handle_mod (fun p => ~ idiv_traps p).
Proof. apply binary_nz_ok, irem32_ok. Qed.

(** ** Locals and frame-relative accesses *)

Lemma handle_load_ok : handler_ok handle_load always.
Proof.
  handler handle_load.
  eapply runs_to_bind; [apply runs_to_aget; [slia|apply (wf_locals _ Hp)]|].
  intros v Hv. simpl. repeat hstep; hdone.
Qed.

Lemma handle_store_ok : handler_ok handle_store always.
Proof.
  handler handle_store.
  eapply runs_to_bind; [apply runs_to_aset; slia|].
  intros ls ->. apply local_step_intro; [|assumption|reflexivity..]. hwf.
Qed.

Lemma handle_load_rel_ok : handler_ok handle_load_rel always.
Proof. handler handle_load_rel. Qed.

Lemma handle_store_rel_ok : handler_ok handle_store_rel always.
Proof. handler handle_store_rel. Qed.

(** ** Heap accesses *)

Lemma byte_ok_land v : byte_ok (Z.land v 255).
Proof.
  unfold byte_ok. change 255 with (Z.ones 8). rewrite Z.land_ones by lia.
  apply Z.mod_pos_bound. lia.
Qed.

Lemma le32_read_ok bs off :
  Forall byte_ok bs -> 0 <= off -> off + 3 < len bs -> runs_to (le32_read bs off) i32_ok.
Proof.
  intros Hb H0 H3. unfold le32_read.
  do 4 (eapply runs_to_bind; [apply (runs_to_aget bs _ byte_ok); [lia|done]|]; intros ? _).
  apply i32_ok_i32.
Qed.

Lemma le32_write_ok bs off v :
  Forall byte_ok bs -> 0 <= off -> off + 3 < len bs ->
  runs_to (le32_write bs off v) (fun bs' => len bs' = len bs /\ Forall byte_ok bs').
Proof.
  intros Hb H0 H3. unfold le32_write.
  do 3 (eapply runs_to_bind; [apply runs_to_aset; rewrite ?len_insert; lia|];
        intros ? ->; simpl).
  rewrite aset_in_bounds by (rewrite ?len_insert; lia). simpl.
  rewrite !len_insert. split; [done|].
  repeat (apply Forall_insert; [|apply byte_ok_land]). done.
Qed.

(** Writing an [int32_t] and reading it back. *)
Lemma byte_of_shift v k : 0 <= k -> Z.land (Z.shiftr v k) 255 = (v / 2 ^ k) mod 256.
Proof.
  intros Hk. change 255 with (Z.ones 8). rewrite Z.land_ones by lia.
  rewrite Z.shiftr_div_pow2 by lia. done.
Qed.

Lemma le_bytes_sum v :
  v mod 256 + (v / 2 ^ 8) mod 256 * 2 ^ 8 + (v / 2 ^ 16) mod 256 * 2 ^ 16 +
  (v / 2 ^ 24) mod 256 * 2 ^ 24 = v mod 2 ^ 32.
Proof.
  change (2 ^ 8) with 256. change (2 ^ 16) with 65536. change (2 ^ 24) with 16777216.
  change (2 ^ 32) with 4294967296. Z.div_mod_to_equations. lia.
Qed.

Lemma i32_u32 v : i32_ok v -> i32 (v mod 2 ^ 32) = v.
Proof.
  intros Hv. unfold i32, wraps, i32_ok in *. change (2 ^ (32 - 1)) with 2147483648.
  change (2 ^ 32) with 4294967296. rewrite Zplus_mod_idemp_l, Z.mod_small by lia. lia.
Qed.

Lemma le32_write_read bs off v :
  0 <= off -> off + 3 < len bs -> i32_ok v ->
  (bs' ← le32_write bs off v; le32_read bs' off) = Ret v.
Proof.
  intros H0 H3 Hv.
  pose proof (byte_of_shift v 8 ltac:(lia)) as E8.
  pose proof (byte_of_shift v 16 ltac:(lia)) as E16.
  pose proof (byte_of_shift v 24 ltac:(lia)) as E24.
  pose proof (byte_of_shift v 0 ltac:(lia)) as E0.
  rewrite Z.shiftr_0_r, Z.pow_0_r, Z.div_1_r in E0.
  unfold le32_write, le32_read. rewrite E0, E8, E16, E24.
  do 4 (rewrite aset_in_bounds by (rewrite ?len_insert; lia); simpl).
  assert (Hlen : len bs = Z.of_nat (length bs)) by done.
  rewrite !(aget_lookup _ off (v mod 256)), !(aget_lookup _ (off + 1) ((v / 2 ^ 8) mod 256)),
    !(aget_lookup _ (off + 2) ((v / 2 ^ 16) mod 256)),
    !(aget_lookup _ (off + 3) ((v / 2 ^ 24) mod 256));
    try lia;
    repeat first [rewrite list_lookup_insert_eq by (rewrite ?length_insert; lia); done
                 |rewrite list_lookup_insert_ne by lia].
  simpl. f_equal. rewrite le_bytes_sum. by apply i32_u32.
Qed.

(** The offset cell [d] below the stack pointer holds a value so close to
    [INT32_MAX] that [offset + 3] wraps to a negative number. *)
Definition heap_wraps (d : Z) (p : nvm_process) : Prop :=
  d <= sp p /\ exists off, stack p !! Z.to_nat (sp p - d) = Some off /\ 2147483645 <= off.

Lemma heap_check_ok p off :
  proc_wf p -> off < 2147483645 -> i32_ok off -> heap_out_of_bounds p off = false ->
  0 <= off /\ off + 3 < heap_size p.
Proof.
  intros Hp Ho Hoff. pose proof (wf_heap_size _ Hp) as Hh. unfold HEAP_SIZE in Hh.
  unfold heap_out_of_bounds, i32_ok in *.
  intros [H1%Z.ltb_ge H2%Z.leb_gt]%orb_false_iff.
  rewrite !i32_id in H2 by lia. lia.
Qed.

Lemma handle_load_heap_ok :
  handler_ok handle_load_heap (fun p => ~ heap_wraps 1 p).
Proof.
  intros p Hp Hm Hip Hnw. unfold handle_load_heap. wf_facts p Hp.
  hstep; [hdone|]. hstep. hstep; [hdone|].
  destruct Hm as [Hc [[h Hh] Hs]]. rewrite Hh.
  destruct (wf_heap _ Hp _ Hh) as [Hl HF].
  assert (z < 2147483645).
  { apply Z.nle_gt. intros ?. apply Hnw. split; [lia|]. by exists z. }
  destruct (heap_check_ok _ z Hp ltac:(done) ltac:(done) ltac:(done)).
  assert (mapped p) by (split_and!; eauto).
  eapply runs_to_bind; [apply le32_read_ok; [done|lia|lia]|]. intros v Hv. simpl.
  repeat hstep; hdone.
Qed.

Lemma handle_store_heap_ok :
  handler_ok handle_store_heap (fun p => ~ heap_wraps 2 p).
Proof.
  intros p Hp Hm Hip Hnw. unfold handle_store_heap. wf_facts p Hp.
  hstep; [hdone|]. do 2 hstep. hstep; [hdone|].
  destruct Hm as [Hc [[h Hh] Hs]]. rewrite Hh.
  destruct (wf_heap _ Hp _ Hh) as [Hl HF].
  assert (z0 < 2147483645).
  { apply Z.nle_gt. intros ?. apply Hnw. split; [lia|]. exists z0.
    by replace (sp p - 2) with (sp p - 1 - 1) by lia. }
  assert (0 <= z0 /\ z0 + 3 < heap_size p) as [? ?].
  { apply (heap_check_ok (set_sp (set_sp p (sp p - 1)) (sp p - 1 - 1))); [hwf|done..]. }
  eapply runs_to_bind; [apply le32_write_ok; [done|lia|lia]|]. intros bs [Hlb HFb].
  apply local_step_intro; simpl; [| |reflexivity..].
  - apply (proc_wf_set_heap _ h); [hwf|done..].
  - split_and!; [done|by eexists|done].
Qed.

Lemma handle_break_ok : handler_ok handle_break always.
Proof. handler handle_break. Qed.
