(* ===== verification/NvmKernel.v ===== *)
(** * The NVM runtime: process table, system calls, scheduler

    core/kernel/nvm/nvm.c and core/kernel/nvm/syscalls.c, with the two
    handlers of memory.c that touch physical memory and handle_syscall of
    system.c.  The kernel state holds the global variables of those files; a
    process pointer is an index into the process table, so that the pointer
    handed to a system call and the table entry are one object.

    The services of other components (allocator, VFS, procfs, console, port
    I/O) enter through the class [KernelServices]. *)

From S2P Require Import Prelude NvmProcess NvmInstr.

(** ** The services the runtime calls *)

Class KernelServices (W : Type) := {
  kmalloc : Z -> W -> W * option buffer;
  kfree : Z -> W -> W;
  vfs_open : list Z -> Z -> W -> W * Z;
  (** returned [vfs_ssize_t] and the bytes stored through the buffer *)
  vfs_readfd : Z -> Z -> W -> W * (Z * list Z);
  vfs_writefd : Z -> list Z -> W -> W * Z;
  vfs_delete : list Z -> W -> W * Z;
  tty_puts : list Z -> W -> W;
  inb : Z -> W -> W * Z;
  outb : Z -> Z -> W -> W;
  procfs_register : Z -> W -> W;
  procfs_unregister : Z -> W -> W;
  procfs_set_args : Z -> list (list Z) -> W -> W;
  (** Accesses through an absolute address.  [None]: the page is not mapped, or the
      address is one of the tables of this file, which are not in [W]. *)
  mem_load32 : Z -> W -> option Z;
  mem_store32 : Z -> Z -> W -> option W;
  mem_store16 : Z -> Z -> W -> option W
}.

Definition MAX_FILENAME : Z := 256.
Definition MAX_MESSAGES : Z := 32.
Definition VFS_READ : Z := 0x01.

#[global] Arguments MAX_FILENAME : simpl never.
#[global] Arguments MAX_MESSAGES : simpl never.

Record message := mkmsg {
  recipient : Z;    (** uint16_t *)
  sender : Z;       (** uint16_t *)
  content : Z       (** uint8_t *)
}.

Record kstate (W : Type) := mkk {
  processes : list nvm_process;     (** processes[MAX_PROCESSES] *)
  current_process : Z;              (** uint8_t *)
  timer_ticks : Z;                  (** uint32_t *)
  message_queue : list message;     (** message_queue[MAX_MESSAGES] *)
  message_count : Z;
  next_offset : Z;                  (** static uint32_t of SYS_READ *)
  world : W
}.
Arguments mkk {W}.
Arguments processes {W}.
Arguments current_process {W}.
Arguments timer_ticks {W}.
Arguments message_queue {W}.
Arguments message_count {W}.
Arguments next_offset {W}.
Arguments world {W}.

Section Runtime.
Context {W : Type} `{KS : KernelServices W}.
Implicit Types (k : kstate W) (p : nvm_process) (w : W).

Definition set_processes k v := mkk v (current_process k) (timer_ticks k) (message_queue k) (message_count k) (next_offset k) (world k).
Definition set_current k v := mkk (processes k) v (timer_ticks k) (message_queue k) (message_count k) (next_offset k) (world k).
Definition set_ticks k v := mkk (processes k) (current_process k) v (message_queue k) (message_count k) (next_offset k) (world k).
Definition set_messages k q n := mkk (processes k) (current_process k) (timer_ticks k) q n (next_offset k) (world k).
Definition set_next_offset k v := mkk (processes k) (current_process k) (timer_ticks k) (message_queue k) (message_count k) v (world k).
Definition set_world k (v : W) : kstate W := mkk (processes k) (current_process k) (timer_ticks k) (message_queue k) (message_count k) (next_offset k) v.

Definition get_proc k (i : Z) : outcome nvm_process := aget (processes k) i.

Definition put_proc k (i : Z) p : outcome (kstate W) :=
  ps ← aset (processes k) i p; Ret (set_processes k ps).

(** A handler that works on the process alone. *)
Definition on_proc (h : nvm_process -> outcome (nvm_process * bool)) (i : Z) k
  : outcome (kstate W * bool) :=
  p ← get_proc k i;
  '(p, cont) ← h p;
  k ← put_proc k i p;
  Ret (k, cont).

(** ** Creating processes (nvm.c) *)

Definition signature_ok (bs : list Z) : outcome bool :=
  b0 ← aget bs 0;
  if negb (b0 =? 0x4E) then Ret false else
  b1 ← aget bs 1;
  if negb (b1 =? 0x56) then Ret false else
  b2 ← aget bs 2;
  if negb (b2 =? 0x4D) then Ret false else
  b3 ← aget bs 3;
  Ret (b3 =? 0x30).

(** The zeroing loop over the fresh heap. *)
Definition zero_fill (b : buffer) (n : Z) : outcome buffer :=
  if n <=? len (buf_bytes b)
  then Ret (mkbuf (buf_addr b) (replicate (Z.to_nat n) 0 ++ drop (Z.to_nat n) (buf_bytes b)))
  else Fault OutOfBounds.

(** The assignments made before the heap is allocated. *)
Definition claim_slot p (i : Z) (code : buffer) (size sp0 : Z) : nvm_process :=
  mkproc (Some code) 4 size (stack p) sp0 (locals p) true false 0 i (-1) 0
    (capabilities p) 0 (heap p) (heap_size p).

Definition nvm_create_process (code : buffer) (size : Z) (initial_caps : list Z)
    (ncaps : Z) k : outcome (kstate W * Z) :=
  ok ← signature_ok (buf_bytes code);
  if negb ok then Ret (k, -1) else
  match first_index (fun p => negb (active p)) (processes k) with
  | None => Ret (k, -1)
  | Some i =>
      p ← get_proc k i;
      let p := claim_slot p i code size 0 in
      let '(w, oh) := kmalloc HEAP_SIZE (world k) in
      let k := set_world k w in
      match oh with
      | None =>
          k ← put_proc k i (set_heap p None);
          Ret (k, -1)
      | Some h =>
          h ← zero_fill h HEAP_SIZE;
          let p := set_heap_size (set_heap p (Some h)) HEAP_SIZE in
          cs ← caps_copy_loop (capabilities p) initial_caps 0
                 (Z.to_nat (Z.min ncaps MAX_CAPS));
          let p := set_caps p cs ncaps in
          let p := set_locals p (replicate (Z.to_nat MAX_LOCALS) 0) in
          k ← put_proc k i p;
          Ret (set_world k (procfs_register i (world k)), i)
      end
  end.

(** *** The variant with an initial stack *)

(** [while (str_end < stack_count && initial[str_end] != 0) str_end++]. *)
Fixpoint string_end (init : list Z) (stack_count str_end : Z) (n : nat) : outcome Z :=
  match n with
  | O => Ret str_end
  | S n' =>
      if str_end <? stack_count then
        c ← aget init str_end;
        if c =? 0 then Ret str_end else string_end init stack_count (str_end + 1) n'
      else Ret str_end
  end.

(** The swap loop over one argument string. *)
Fixpoint reverse_loop (st : list Z) (str_start str_end j : Z) (n : nat)
  : outcome (list Z) :=
  match n with
  | O => Ret st
  | S n' =>
      temp ← aget st (str_start + j);
      other ← aget st (str_end - 1 - j);
      st ← aset st (str_start + j) other;
      st ← aset st (str_end - 1 - j) temp;
      reverse_loop st str_start str_end (j + 1) n'
  end.

Fixpoint reverse_args (init st : list Z) (stack_count arg_idx : Z) (n : nat)
  : outcome (list Z) :=
  match n with
  | O => Ret st
  | S n' =>
      string_pointer ← aget init (1 + arg_idx);
      st ← (if (0 <=? string_pointer) && (string_pointer <? stack_count) then
              str_end ← string_end init stack_count string_pointer (Z.to_nat stack_count);
              reverse_loop st string_pointer str_end 0
                (Z.to_nat ((str_end - string_pointer) / 2))
            else Ret st);
      reverse_args init st stack_count (arg_idx + 1) n'
  end.

Definition nvm_create_process_with_stack (code : buffer) (size : Z)
    (initial_caps : list Z) (ncaps : Z) (init : list Z) (stack_count : Z) k
  : outcome (kstate W * Z) :=
  ok ← signature_ok (buf_bytes code);
  if negb ok then Ret (k, -1) else
  if STACK_SIZE <? stack_count then Ret (k, -1) else
  match first_index (fun p => negb (active p)) (processes k) with
  | None => Ret (k, -1)
  | Some i =>
      p ← get_proc k i;
      let p := claim_slot p i code size (sp p) in
      let '(w, oh) := kmalloc HEAP_SIZE (world k) in
      let k := set_world k w in
      match oh with
      | None =>
          k ← put_proc k i (set_heap p None);
          Ret (k, -1)
      | Some h =>
          h ← zero_fill h HEAP_SIZE;
          let p := set_heap_size (set_heap p (Some h)) HEAP_SIZE in
          st ← caps_copy_loop (stack p) init 0 (Z.to_nat stack_count);
          st ← (if 0 <? stack_count then
                  argc ← aget init 0;
                  if 0 <? argc then reverse_args init st stack_count 0 (Z.to_nat argc)
                  else Ret st
                else Ret st);
          let p := set_sp (set_stack p st) stack_count in
          cs ← caps_copy_loop (capabilities p) initial_caps 0
                 (Z.to_nat (Z.min ncaps MAX_CAPS));
          let p := set_caps p cs ncaps in
          let p := set_locals p (replicate (Z.to_nat MAX_LOCALS) 0) in
          k ← put_proc k i p;
          Ret (set_world k (procfs_register i (world k)), i)
      end
  end.

Definition nvm_execute (code : buffer) (size : Z) (caps : list Z) (ncaps : Z) k
  : outcome (kstate W) :=
  '(k, _) ← nvm_create_process code size caps ncaps k; Ret k.

Definition nvm_get_exit_code (id : Z) k : outcome Z :=
  if id <? MAX_PROCESSES then
    p ← get_proc k id;
    if negb (active p) then Ret (exit_code p) else Ret (-1)
  else Ret (-1).

Definition nvm_is_process_active (id : Z) k : outcome bool :=
  if id <? MAX_PROCESSES then p ← get_proc k id; Ret (active p) else Ret false.

(** The loop of [nvm_init] over one slot. *)
Definition init_slot p : nvm_process :=
  mkproc (bytecode p) 0 (psize p) (stack p) 0 (locals p) false (blocked p) 0 (pid p) (-1)
    (wakeup_reason p) (capabilities p) 0 None 0.

Definition nvm_init k : kstate W := set_processes k (map init_slot (processes k)).

(** ** System calls (syscalls.c)

    One definition per [case]; each returns the new state and the value of
    [result].  [i] is the index of the calling process. *)

(** *** SYS_EXIT, SYS_PRINT *)

(** [kfree(proc->heap)] when it is not NULL. *)
Definition release_heap p w : W :=
  match heap p with Some h => kfree (buf_addr h) w | None => w end.

Definition sys_exit (i : Z) k : outcome (kstate W * Z) :=
  p ← get_proc k i;
  code ← (if 1 <=? sp p then aget (stack p) (sp p - 1) else Ret 0);
  let p := set_active (set_exit_code p code) false in
  let w := release_heap p (procfs_unregister (pid p) (world k)) in
  let p := set_heap (set_bytecode p None) None in
  let p := if 0 <? sp p then set_sp p (u16 (sp p - 1)) else p in
  k ← put_proc (set_world k w) i p;
  Ret (k, 0).

Definition deprecated_notice : list Z := [91; 68; 69; 80; 82; 69; 67; 65; 84; 69; 68; 93; 32; 83; 89; 83; 95; 80; 82; 73; 78; 84; 32; 105; 115; 32; 100; 101; 112; 114; 101; 99; 97; 116; 101; 100; 44; 32; 107; 105; 108; 108; 101; 100; 46; 32; 85; 115; 101; 32; 47; 100; 101; 118; 47; 116; 116; 121; 32; 105; 110; 115; 116; 101; 97; 100; 32; 111; 102; 32; 83; 89; 83; 95; 80; 82; 73; 78; 84; 10].

Definition sys_print (i : Z) k : outcome (kstate W * Z) :=
  p ← get_proc k i;
  if sp p <? 1 then Ret (k, -1) else
  let w := tty_puts deprecated_notice (world k) in
  let p := terminate (set_sp p (u16 (sp p - 1))) in
  let w := release_heap p (procfs_unregister (pid p) w) in
  k ← put_proc (set_world k w) i (set_heap (set_bytecode p None) None);
  Ret (k, -1).

(** *** SYS_SPAWN *)

(** Scan down from [pos] for a zero cell: the final [stack_pos] and
    [start_pos] ([-1] when there is none).  [n] counts the cells left. *)
Fixpoint scan_zero (st : list Z) (pos : Z) (n : nat) : outcome (Z * Z) :=
  match n with
  | O => Ret (pos, -1)
  | S n' =>
      c ← aget st pos;
      if c =? 0 then Ret (pos, pos + 1) else scan_zero st (pos - 1) n'
  end.

(** [argv[arg_index][0..len-1]] from the stack, and the terminator. *)
Fixpoint copy_cells (st : list Z) (from : Z) (bs : list Z) (at_ : Z) (n : nat)
  : outcome (list Z) :=
  match n with
  | O => aset bs at_ 0
  | S n' =>
      c ← aget st from;
      bs ← aset bs at_ (u8 c);
      copy_cells st (from + 1) bs (at_ + 1) n'
  end.

(** The outer loop; [n] counts [argc - arg_index].  Returns the world, the
    arguments allocated, [stack_pos] and [alloc_error]. *)
Fixpoint collect_args (st : list Z) (stack_pos : Z) (argv : list buffer) (n : nat) w
  : outcome (W * list buffer * Z * bool) :=
  match n with
  | O => Ret (w, argv, stack_pos, false)
  | S n' =>
      if stack_pos <? 0 then Ret (w, argv, stack_pos, false) else
      let end_pos := stack_pos in
      '(stack_pos, start_pos) ← scan_zero st stack_pos (Z.to_nat (stack_pos + 1));
      if (start_pos =? -1) || (end_pos <? start_pos) then Ret (w, argv, stack_pos, true)
      else
        let n_chars := end_pos - start_pos + 1 in
        let '(w, ob) := kmalloc (n_chars + 1) w in
        match ob with
        | None => Ret (w, argv, stack_pos, true)
        | Some b =>
            bs ← copy_cells st start_pos (buf_bytes b) 0 (Z.to_nat n_chars);
            collect_args st (start_pos - 2) (argv ++ [mkbuf (buf_addr b) bs]) n' w
        end
  end.

(** [for (i = 0; i < n; i++) kfree(argv[i])]; cells that were never assigned
    are indeterminate. *)
Fixpoint free_args (argv : list buffer) (n : nat) w : outcome W :=
  match n, argv with
  | O, _ => Ret w
  | S n', b :: argv' => free_args argv' n' (kfree (buf_addr b) w)
  | S _, [] => Fault UninitRead
  end.

(** The read loop with its doubling buffer.  [None] is the path on which the
    reallocation failed (the buffer and the arguments are already freed). *)
Fixpoint spawn_read (fuel : nat) (fd : Z) (code : buffer) (size alloc : Z)
    (argv : list buffer) (argc : nat) w : outcome (W * option (buffer * Z)) :=
  match fuel with
  | O => OutOfFuel
  | S fuel' =>
      let '(w, (n, bytes)) := vfs_readfd fd 1 w in
      if negb (n =? 1) then Ret (w, Some (code, size)) else
      match bytes with
      | [] => Fault UninitRead
      | byte :: _ =>
          if alloc <=? size then
            let alloc := u64 (alloc * 2) in
            let '(w, ob) := kmalloc alloc w in
            match ob with
            | None =>
                w ← free_args argv argc (kfree (buf_addr code) w);
                Ret (w, None)
            | Some b =>
                if len (buf_bytes b) <? size then Fault OutOfBounds else
                let bs := take (Z.to_nat size) (buf_bytes code) ++
                          drop (Z.to_nat size) (buf_bytes b) in
                let w := kfree (buf_addr code) w in
                bs ← aset bs size byte;
                spawn_read fuel' fd (mkbuf (buf_addr b) bs) (size + 1) alloc argv argc w
            end
          else
            bs ← aset (buf_bytes code) size byte;
            spawn_read fuel' fd (mkbuf (buf_addr code) bs) (size + 1) alloc argv argc w
      end
  end.

Definition sys_spawn (fuel : nat) (i : Z) k : outcome (kstate W * Z) :=
  p ← get_proc k i;
  has ← caps_has_capability p CAP_FS_READ;
  if negb has then Ret (k, -1) else
  if sp p <? 1 then Ret (k, -1) else
  target_fd ← aget (stack p) (sp p - 1);
  argc ← aget (stack p) (sp p - 2);
  if (argc <? 0) || (32 <? argc) then Ret (k, -1) else
  let p := set_sp p (u16 (sp p - 2)) in
  '(w, argv, stack_pos, alloc_error) ←
     collect_args (stack p) (sp p - 1) [] (Z.to_nat argc) (world k);
  if (alloc_error : bool) then
    w ← free_args argv (length argv) w;
    k ← put_proc (set_world k w) i p;
    Ret (k, -1)
  else
    let p := set_sp p (u16 (stack_pos + 1)) in
    k ← put_proc k i p;
    let '(w, ob) := kmalloc 1024 w in
    match ob with
    | None =>
        w ← free_args argv (Z.to_nat argc) w;
        Ret (set_world k w, -1)
    | Some b =>
        '(w, code) ← spawn_read fuel target_fd b 0 1024 argv (Z.to_nat argc) w;
        match code with
        | None => Ret (set_world k w, -1)
        | Some (code, code_size) =>
            '(k, new_pid) ← nvm_create_process code (u32 code_size) [CAPS_NONE] 1
                              (set_world k w);
            if new_pid <? 0 then
              w ← free_args argv (Z.to_nat argc) (kfree (buf_addr code) (world k));
              Ret (set_world k w, -1)
            else
              p ← get_proc k i;
              dest ← get_proc k (pid p);
              src ← get_proc k new_pid;
              '(dest, _) ← caps_copy dest src;
              k ← put_proc k (pid p) dest;
              if len argv <? argc then Fault UninitRead else
              let args := map buf_bytes (drop 1 argv) in
              let w := procfs_set_args new_pid args (world k) in
              w ← free_args argv (Z.to_nat argc) w;
              Ret (set_world k w, new_pid)
        end
    end.

(** *** File system calls *)

(** The file name at [off] of the heap, at most [n] characters. *)
Fixpoint heap_string (bs : list Z) (hsize off : Z) (n : nat) : outcome (list Z) :=
  match n with
  | O => Ret []
  | S n' =>
      if off <? hsize then
        c ← aget bs off;
        if c =? 0 then Ret []
        else rest ← heap_string bs hsize (u32 (off + 1)) n'; Ret (c :: rest)
      else Ret []
  end.

Definition heap_bytes p : outcome (list Z) :=
  match heap p with Some h => Ret (buf_bytes h) | None => Fault NullDeref end.

Definition sys_open (i : Z) k : outcome (kstate W * Z) :=
  p ← get_proc k i;
  has ← caps_has_capability p CAP_FS_READ;
  if negb has then Ret (k, -1) else
  if sp p <? 1 then Ret (k, -1) else
  offset ← aget (stack p) (sp p - 1);
  let p := set_sp p (u16 (sp p - 1)) in
  if (offset <? 0) || (i32 (heap_size p) <=? offset) then
    k ← put_proc k i p; Ret (k, -1)
  else
    bs ← heap_bytes p;
    filename ← heap_string bs (heap_size p) offset (Z.to_nat (MAX_FILENAME - 1));
    match filename with
    | [] => k ← put_proc k i p; Ret (k, -1)
    | _ =>
        let '(w, fd) := vfs_open filename VFS_READ (world k) in
        p ← push_val p (i32 fd);
        k ← put_proc (set_world k w) i p;
        Ret (k, 0)
    end.

(** The read loop of SYS_READ; [n] bounds the bytes that fit. *)
Fixpoint read_heap (fd limit pos : Z) (bs : list Z) (n : nat) w
  : outcome (W * list Z * Z) :=
  match n with
  | O => Ret (w, bs, pos)
  | S n' =>
      if pos <? limit then
        let '(w, (r, bytes)) := vfs_readfd fd 1 w in
        if negb (r =? 1) then Ret (w, bs, pos) else
        match bytes with
        | [] => Fault UninitRead
        | ch :: _ =>
            bs ← aset bs pos ch;
            if ch =? 0 then Ret (w, bs, u32 (pos + 1))
            else read_heap fd limit (u32 (pos + 1)) bs n' w
        end
      else Ret (w, bs, pos)
  end.

Definition sys_read (i : Z) k : outcome (kstate W * Z) :=
  p ← get_proc k i;
  has ← caps_has_capability p CAP_FS_READ;
  if negb has then Ret (k, -1) else
  if sp p <? 1 then Ret (k, -1) else
  fd ← aget (stack p) (sp p - 1);
  let p := set_sp p (u16 (sp p - 1)) in
  if fd <? 0 then k ← put_proc k i p; Ret (k, -1) else
  match heap p with
  | None => Fault NullDeref
  | Some h =>
      let offset := next_offset k in
      let limit := u32 (heap_size p - 1) in
      '(w, bs, pos) ← read_heap fd limit offset (buf_bytes h) (Z.to_nat (limit - offset))
                        (world k);
      let k := set_world k w in
      if pos <? heap_size p then
        bs ← aset bs pos 0;
        let p := set_heap p (Some (mkbuf (buf_addr h) bs)) in
        p ← push_val p (i32 offset);
        k ← put_proc (set_next_offset k (u32 (pos + 1))) i p;
        Ret (k, i32 offset)
      else
        k ← put_proc k i (set_heap p (Some (mkbuf (buf_addr h) bs)));
        Ret (k, -1)
  end.

(** The write loop: [result] and the world.  Descriptors 1 and 2 go to the
    console. *)
Fixpoint write_heap (fd hsize off written : Z) (bs : list Z) (n : nat) w
  : outcome (W * Z) :=
  match n with
  | O => Ret (w, written)
  | S n' =>
      if off <? hsize then
        ch ← aget bs off;
        if ch =? 0 then Ret (w, written) else
        let '(w, r) := if (fd =? 1) || (fd =? 2) then (tty_puts [ch] w, 1)
                       else vfs_writefd fd [ch] w in
        if negb (r =? 1) then Ret (w, if written =? 0 then -1 else written)
        else write_heap fd hsize (u32 (off + 1)) (u32 (written + 1)) bs n' w
      else Ret (w, written)
  end.

Definition sys_write (i : Z) k : outcome (kstate W * Z) :=
  p ← get_proc k i;
  has ← caps_has_capability p CAP_FS_WRITE;
  if negb has then Ret (k, -1) else
  if sp p <? 2 then Ret (k, -1) else
  offset ← aget (stack p) (sp p - 1);
  fd ← aget (stack p) (sp p - 2);
  let p := set_sp p (u16 (sp p - 2)) in
  if (fd <? 0) || (offset <? 0) || (i32 (heap_size p) <=? offset) then
    k ← put_proc k i p; Ret (k, -1)
  else
    bs ← heap_bytes p;
    '(w, result) ← write_heap fd (heap_size p) offset 0 bs
                     (Z.to_nat (heap_size p - offset)) (world k);
    p ← push_val p (i32 result);
    k ← put_proc (set_world k w) i p;
    Ret (k, i32 result).

(** SYS_DELETE takes its name from the stack. *)
Fixpoint find_null (st : list Z) (pos : Z) (n : nat) : outcome Z :=
  match n with
  | O => Ret (-1)
  | S n' =>
      c ← aget st pos;
      if Z.land c 255 =? 0 then Ret pos else find_null st (pos - 1) n'
  end.

Fixpoint stack_string (st : list Z) (from : Z) (n : nat) : outcome (list Z) :=
  match n with
  | O => Ret []
  | S n' =>
      c ← aget st from;
      rest ← stack_string st (from + 1) n';
      Ret (Z.land c 255 :: rest)
  end.

Definition sys_delete (i : Z) k : outcome (kstate W * Z) :=
  p ← get_proc k i;
  has ← caps_has_capability p CAP_FS_DELETE;
  if negb has then Ret (k, -1) else
  if sp p <? 1 then Ret (k, -1) else
  null_pos ← find_null (stack p) (sp p - 1) (Z.to_nat (sp p));
  if null_pos =? -1 then Ret (k, -1) else
  filename ← stack_string (stack p) (null_pos + 1)
               (Z.to_nat (Z.min (sp p - (null_pos + 1)) (MAX_FILENAME - 1)));
  k ← put_proc k i (set_sp p (u16 null_pos));
  let '(w, r) := vfs_delete filename (world k) in
  Ret (set_world k w, i32 r).

(** *** Messages *)

(** The wake-up loop: the first active blocked process with that pid. *)
Definition wakeup (rcp : Z) (ps : list nvm_process) : list nvm_process :=
  match first_index (fun q => active q && (pid q =? rcp) && blocked q) ps with
  | None => ps
  | Some j =>
      match ps !! Z.to_nat j with
      | Some q => <[Z.to_nat j := set_wakeup_reason (set_blocked q false) 1]> ps
      | None => ps
      end
  end.

Definition sys_msg_send (i : Z) k : outcome (kstate W * Z) :=
  p ← get_proc k i;
  if sp p <? 2 then Ret (k, -1) else
  rcp ← aget (stack p) (sp p - 2);
  cnt ← aget (stack p) (sp p - 1);
  let rcp := Z.land rcp 0xFFFF in
  let cnt := Z.land cnt 0xFF in
  if MAX_MESSAGES <=? message_count k then Ret (k, -1) else
  q ← aset (message_queue k) (message_count k) (mkmsg rcp (pid p) cnt);
  let k := set_messages k q (message_count k + 1) in
  let k := set_processes k (wakeup rcp (processes k)) in
  p ← get_proc k i;
  k ← put_proc k i (set_sp p (u16 (sp p - 2)));
  Ret (k, 0).

(** [for (i = found_index; i < message_count - 1; i++) q[i] = q[i+1]]. *)
Fixpoint queue_shift (q : list message) (j : Z) (n : nat) : outcome (list message) :=
  match n with
  | O => Ret q
  | S n' =>
      m ← aget q (j + 1);
      q ← aset q j m;
      queue_shift q (j + 1) n'
  end.

Definition sys_msg_receive (i : Z) k : outcome (kstate W * Z) :=
  p ← get_proc k i;
  match first_index (fun m => recipient m =? pid p)
          (take (Z.to_nat (message_count k)) (message_queue k)) with
  | None => k ← put_proc k i (set_blocked p true); Ret (k, -1)
  | Some found =>
      if STACK_SIZE <=? sp p + 1 then Ret (k, -1) else
      m ← aget (message_queue k) found;
      q ← queue_shift (message_queue k) found (Z.to_nat (message_count k - 1 - found));
      let k := set_messages k q (message_count k - 1) in
      st ← aset (stack p) (sp p) (sender m);
      st ← aset st (sp p + 1) (content m);
      k ← put_proc k i (set_sp (set_stack p st) (u16 (sp p + 2)));
      Ret (k, 0)
  end.

(** *** Port I/O *)

Definition sys_port_in (i : Z) k : outcome (kstate W * Z) :=
  p ← get_proc k i;
  has ← caps_has_capability p CAP_DRV_ACCESS;
  if negb has then Ret (k, -1) else
  if sp p =? 0 then Ret (k, -1) else
  port ← aget (stack p) (sp p - 1);
  let '(w, val) := inb (u16 port) (world k) in
  st ← aset (stack p) (sp p - 1) (i16 (u8 val));
  k ← put_proc (set_world k w) i (set_stack p st);
  Ret (k, 0).

Definition sys_port_out (i : Z) k : outcome (kstate W * Z) :=
  p ← get_proc k i;
  has ← caps_has_capability p CAP_DRV_ACCESS;
  if negb has then Ret (k, -1) else
  if sp p <? 2 then Ret (k, -1) else
  port ← aget (stack p) (sp p - 2);
  val ← aget (stack p) (sp p - 1);
  let w := outb (Z.land port 0xFFFF) (Z.land val 0xFF) (world k) in
  k ← put_proc (set_world k w) i (set_sp p (u16 (sp p - 2)));
  Ret (k, 0).

(** *** The dispatcher *)

Definition sys_unknown (i : Z) k : outcome (kstate W * Z) :=
  p ← get_proc k i;
  k ← put_proc k i (terminate p);
  Ret (k, 0).

Definition syscall_handler (fuel : nat) (syscall_id i : Z) k : outcome (kstate W * Z) :=
  if syscall_id =? 0x00 then sys_exit i k
  else if syscall_id =? 0x01 then sys_spawn fuel i k
  else if syscall_id =? 0x02 then sys_open i k
  else if syscall_id =? 0x03 then sys_read i k
  else if syscall_id =? 0x04 then sys_write i k
  else if syscall_id =? 0x06 then sys_delete i k
  else if syscall_id =? 0x0A then sys_msg_send i k
  else if syscall_id =? 0x0B then sys_msg_receive i k
  else if syscall_id =? 0x0C then sys_port_in i k
  else if syscall_id =? 0x0D then sys_port_out i k
  else if syscall_id =? 0x0E then sys_print i k
  else sys_unknown i k.

(** ** Handlers that leave the process (memory.c, system.c) *)

(** [(uintptr_t)proc->stack[..]]: sign extension to 64 bits. *)
Definition abs_window (addr : Z) : bool :=
  ((0x100000 <=? addr) && (addr <? 0xFFFFFFFF)) || ((0xB8000 <=? addr) && (addr <=? 0xB8FA0)).

Definition vga_window (addr : Z) : bool := (0xB8000 <=? addr) && (addr <=? 0xB8FA0).

Definition handle_load_abs (i : Z) k : outcome (kstate W * bool) :=
  p ← get_proc k i;
  has ← caps_has_capability p CAP_DRV_ACCESS;
  if negb has then k ← put_proc k i (terminate p); Ret (k, false) else
  if 0 <? sp p then
    v ← aget (stack p) (sp p - 1);
    let addr := u64 v in
    if abs_window addr then
      match mem_load32 addr (world k) with
      | Some value =>
          st ← aset (stack p) (sp p - 1) (i32 value);
          k ← put_proc k i (set_stack p st);
          Ret (k, true)
      | None => Fault OutOfBounds
      end
    else Ret (k, true)
  else Ret (k, true).

Definition handle_store_abs (i : Z) k : outcome (kstate W * bool) :=
  p ← get_proc k i;
  has ← caps_has_capability p CAP_DRV_ACCESS;
  if negb has then k ← put_proc k i (terminate p); Ret (k, false) else
  if 2 <=? sp p then
    a ← aget (stack p) (sp p - 2);
    value ← aget (stack p) (sp p - 1);
    let addr := u64 a in
    if abs_window addr then
      match (if vga_window addr then mem_store16 addr (Z.land value 0xFFFF) (world k)
             else mem_store32 addr value (world k)) with
      | Some w =>
          k ← put_proc (set_world k w) i (set_sp p (u16 (sp p - 2)));
          Ret (k, true)
      | None => Fault OutOfBounds
      end
    else Ret (k, true)
  else Ret (k, true).

Definition handle_syscall (fuel : nat) (i : Z) k : outcome (kstate W * bool) :=
  p ← get_proc k i;
  if ip p <? psize p then
    '(p, syscall_id) ← fetch8 p;
    k ← put_proc k i p;
    '(k, _) ← syscall_handler fuel syscall_id i k;
    Ret (k, true)
  else Ret (k, true).

(** ** The instruction table and the interpreter loop (nvm.c) *)

Definition handler := Z -> kstate W -> outcome (kstate W * bool).

Definition instruction_table (fuel : nat) (opcode : Z) : option handler :=
  if opcode =? 0x00 then Some (on_proc handle_halt)
  else if opcode =? 0x01 then Some (on_proc handle_nop)
  else if opcode =? 0x02 then Some (on_proc handle_push)
  else if opcode =? 0x04 then Some (on_proc handle_pop)
  else if opcode =? 0x05 then Some (on_proc handle_dup)
  else if opcode =? 0x06 then Some (on_proc handle_swap)
  else if opcode =? 0x10 then Some (on_proc handle_add)
  else if opcode =? 0x11 then Some (on_proc handle_sub)
  else if opcode =? 0x12 then Some (on_proc handle_mul)
  else if opcode =? 0x13 then Some (on_proc handle_div)
  else if opcode =? 0x14 then Some (on_proc handle_mod)
  else if opcode =? 0x20 then Some (on_proc handle_cmp)
  else if opcode =? 0x21 then Some (on_proc handle_eq)
  else if opcode =? 0x22 then Some (on_proc handle_neq)
  else if opcode =? 0x23 then Some (on_proc handle_gt)
  else if opcode =? 0x24 then Some (on_proc handle_lt)
  else if opcode =? 0x30 then Some (on_proc handle_jmp)
  else if opcode =? 0x31 then Some (on_proc handle_jz)
  else if opcode =? 0x32 then Some (on_proc handle_jnz)
  else if opcode =? 0x33 then Some (on_proc handle_call)
  else if opcode =? 0x34 then Some (on_proc handle_ret)
  else if opcode =? 0x35 then Some (on_proc handle_enter)
  else if opcode =? 0x36 then Some (on_proc handle_leave)
  else if opcode =? 0x37 then Some (on_proc handle_load_arg)
  else if opcode =? 0x38 then Some (on_proc handle_store_arg)
  else if opcode =? 0x40 then Some (on_proc handle_load)
  else if opcode =? 0x41 then Some (on_proc handle_store)
  else if opcode =? 0x42 then Some (on_proc handle_load_rel)
  else if opcode =? 0x43 then Some (on_proc handle_store_rel)
  else if opcode =? 0x44 then Some handle_load_abs
  else if opcode =? 0x45 then Some handle_store_abs
  else if opcode =? 0x46 then Some (on_proc handle_load_heap)
  else if opcode =? 0x47 then Some (on_proc handle_store_heap)
  else if opcode =? 0x50 then Some (handle_syscall fuel)
  else if opcode =? 0x51 then Some (on_proc handle_break)
  else if opcode =? 0x60 then Some (on_proc handle_and)
  else if opcode =? 0x61 then Some (on_proc handle_or)
  else if opcode =? 0x62 then Some (on_proc handle_xor)
  else if opcode =? 0x63 then Some (on_proc handle_not)
  else if opcode =? 0x64 then Some (on_proc handle_shl)
  else if opcode =? 0x65 then Some (on_proc handle_shr)
  else if opcode =? 0x66 then Some (on_proc handle_sar)
  else None.

Definition nvm_execute_instruction (fuel : nat) (i : Z) k : outcome (kstate W * bool) :=
  p ← get_proc k i;
  if psize p <=? ip p then
    k ← put_proc k i (terminate p); Ret (k, false)
  else
    '(p, opcode) ← fetch8 p;
    k ← put_proc k i p;
    match instruction_table fuel opcode with
    | Some h => h i k
    | None => Ret (k, true)
    end.

Definition schedulable p : bool := active p && negb (blocked p).

(** The [do ... while] search of the scheduler: at most one turn around the
    table. *)
Fixpoint next_process (ps : list nvm_process) (cur start : Z) (n : nat) : outcome Z :=
  match n with
  | O => Ret cur
  | S n' =>
      let cur := (cur + 1) mod MAX_PROCESSES in
      q ← aget ps cur;
      if schedulable q then Ret cur
      else if cur =? start then Ret cur
      else next_process ps cur start n'
  end.

(** The time slice: at most [n] instructions of process [i]. *)
Fixpoint run_slice (fuel : nat) (i : Z) (n : nat) k : outcome (kstate W) :=
  match n with
  | O => Ret k
  | S n' =>
      p ← get_proc k i;
      if (ip p <? psize p) && active p && negb (blocked p) then
        '(k, cont) ← nvm_execute_instruction fuel i k;
        if (cont : bool) then run_slice fuel i n' k else Ret k
      else if (psize p <=? ip p) && active p then
        put_proc k i (set_exit_code (set_active p false) 0)
      else Ret k
  end.

Definition SLICE_INSTRUCTIONS : nat := Z.to_nat 5000.


Definition nvm_scheduler_tick (fuel : nat) k : outcome (kstate W) :=
  let k := set_ticks k (u32 (timer_ticks k + 1)) in
  if negb (timer_ticks k mod TIME_SLICE_MS =? 0) then Ret k else
  let original := current_process k in
  cur ← next_process (processes k) original original (Z.to_nat MAX_PROCESSES);
  let k := set_current k cur in
  q ← get_proc k cur;
  if schedulable q then run_slice fuel cur SLICE_INSTRUCTIONS k
  else Ret (set_current k original).

End Runtime.

#[global] Arguments heap_string : simpl never.
#[global] Arguments run_slice : simpl never.
#[global] Arguments next_process : simpl never.
#[global] Arguments SLICE_INSTRUCTIONS : simpl never.
