(* ===== verification/NvmMachine.v ===== *)
(** * Safety, isolation and capability confinement of the NVM

    The kernel-level theorems about NvmKernel.v: one instruction of a mapped
    process keeps every table well formed, never faults outside the listed
    inputs, leaves every other process alone (but for a message wake-up) and
    cannot reach the outside world without the capability the docs ask for.

    SYS_SPAWN is treated in NvmSpawn.v. *)

From S2P Require Import Prelude NvmProcess NvmInstr NvmSafety NvmKernel.

(** ** What the runtime expects of the other components *)

Class ServicesOk (W : Type) `{KernelServices W} : Prop := {
  kmalloc_ok : forall n w w' b, kmalloc n w = (w', Some b) -> buffer_ok n b;
  readfd_ok : forall fd w w' bytes, vfs_readfd fd 1 w = (w', (1, bytes)) ->
    exists b, bytes = [b] /\ byte_ok b
}.

(** ** The kernel invariant *)

Definition message_ok (m : message) : Prop :=
  0 <= recipient m < 65536 /\ 0 <= sender m < 65536 /\ byte_ok (content m).

Record kwf {W : Type} (k : kstate W) : Prop := {
  kwf_len : len (processes k) = MAX_PROCESSES;
  kwf_procs : Forall proc_wf (processes k);
  kwf_current : 0 <= current_process k < MAX_PROCESSES;
  kwf_ticks : 0 <= timer_ticks k < 4294967296;
  kwf_queue_len : len (message_queue k) = MAX_MESSAGES;
  kwf_queue : Forall message_ok (message_queue k);
  kwf_count : 0 <= message_count k <= MAX_MESSAGES;
  kwf_offset : 0 <= next_offset k < 4294967296
}.

(** Process [i] of the table is [p]. *)
Definition proc_at {W} (k : kstate W) (i : Z) (p : nvm_process) : Prop :=
  0 <= i /\ processes k !! Z.to_nat i = Some p.

Section Machine.
Context {W : Type} `{KS : KernelServices W} {KO : ServicesOk W}.
Implicit Types (k : kstate W) (p q : nvm_process) (w : W) (i : Z).

(** What one process may see of another's instruction: nothing, or the
    wake-up that ends its wait for a message. *)
Definition untouched (q q' : nvm_process) : Prop :=
  q' = q \/ (blocked q = true /\ q' = set_wakeup_reason (set_blocked q false) 1).

(** The contract of an instruction of process [i]. *)
Record kstep (i : Z) (k k' : kstate W) : Prop := {
  ks_wf : kwf k';
  ks_others : forall j q, j <> i -> proc_at k j q ->
    exists q', proc_at k' j q' /\ untouched q q';
  ks_self : forall p, proc_at k i p ->
    exists p', proc_at k' i p' /\ pid p' = pid p /\ cap_list p' = cap_list p /\
    (active p' = true ->
       active p = true /\ (mapped p -> mapped p') /\ bytecode p' = bytecode p);
  ks_current : current_process k' = current_process k;
  ks_ticks : timer_ticks k' = timer_ticks k
}.

(** ** Access to the process table *)

Lemma get_proc_at k i p : proc_at k i p -> get_proc k i = Ret p.
Proof. intros [? ?]. by apply aget_lookup. Qed.

Lemma proc_at_wf k i p : kwf k -> proc_at k i p -> proc_wf p.
Proof. intros Hk [_ Hp]. eapply Forall_lookup_1; [apply (kwf_procs _ Hk)|done]. Qed.

Lemma proc_at_range k i p : proc_at k i p -> 0 <= i < len (processes k).
Proof. intros [? ?%lookup_lt_Some]. unfold len. lia. Qed.

Lemma put_proc_ok k i p q :
  proc_at k i p ->
  put_proc k i q = Ret (set_processes k (<[Z.to_nat i := q]> (processes k))).
Proof.
  intros Hp%proc_at_range. unfold put_proc. by rewrite aset_in_bounds by lia.
Qed.

Lemma proc_at_insert k i p : proc_at k i p -> forall j q' ,
  proc_at (set_processes k (<[Z.to_nat i := q']> (processes k))) j q' <->
  (j = i \/ (j <> i /\ proc_at k j q')).
Proof.
  intros Hp j q'. pose proof (proc_at_range _ _ _ Hp). unfold proc_at, len in *. simpl.
  destruct (decide (j = i)) as [->|Hne].
  - rewrite list_lookup_insert_eq by lia. naive_solver lia.
  - split.
    + intros [Hj Hl]. rewrite list_lookup_insert_ne in Hl by lia. auto.
    + intros [?|(_ & Hj & Hl)]; [done|]. split; [done|].
      by rewrite list_lookup_insert_ne by lia.
Qed.

Lemma proc_at_put_eq k i p q :
  proc_at k i p -> proc_at (set_processes k (<[Z.to_nat i := q]> (processes k))) i q.
Proof. intros Hp. apply (proc_at_insert k i p Hp). auto. Qed.

Lemma proc_at_put_ne k i p q j r :
  proc_at k i p -> j <> i -> proc_at k j r ->
  proc_at (set_processes k (<[Z.to_nat i := q]> (processes k))) j r.
Proof.
  intros Hp%proc_at_range Hne [Hj Hl]. split; [done|]. simpl.
  by rewrite list_lookup_insert_ne by lia.
Qed.

Lemma proc_at_fun k i p q : proc_at k i p -> proc_at k i q -> p = q.
Proof. unfold proc_at. naive_solver. Qed.

Lemma kwf_put k i q :
  kwf k -> proc_wf q -> kwf (set_processes k (<[Z.to_nat i := q]> (processes k))).
Proof.
  intros [] Hq. constructor; simpl; rewrite ?len_insert; auto using Forall_insert.
Qed.

Lemma kwf_world k w : kwf k -> kwf (set_world k w).
Proof. intros []. by constructor. Qed.

(** ** Lifting a process step to the kernel *)

(** The usual shape: process [i] becomes [p'], the world becomes [w]. *)
Lemma kstep_update k i p p' w :
  kwf k -> proc_at k i p -> proc_wf p' -> pid p' = pid p -> cap_list p' = cap_list p ->
  (active p' = true ->
     active p = true /\ (mapped p -> mapped p') /\ bytecode p' = bytecode p) ->
  kstep i k (set_processes (set_world k w) (<[Z.to_nat i := p']> (processes k))).
Proof.
  intros Hk Hp Hw Hpid Hcaps Hm. constructor.
  - apply (kwf_put (set_world k w)); [by apply kwf_world|done].
  - intros j q Hne Hq. exists q. split; [|by left].
    by apply (proc_at_put_ne (set_world k w) i p).
  - intros p0 Hp0. rewrite (proc_at_fun _ _ _ _ Hp0 Hp). exists p'.
    split; [by apply (proc_at_put_eq (set_world k w) i p)|done].
  - done.
  - done.
Qed.

Lemma kstep_refl k i : kwf k -> kstep i k k.
Proof.
  intros Hk. constructor; [done|..|done|done].
  - intros j q _ Hq. exists q. split; [done|by left].
  - intros p Hp. exists p. naive_solver.
Qed.

Lemma kstep_trans k1 k2 k3 i : kstep i k1 k2 -> kstep i k2 k3 -> kstep i k1 k3.
Proof.
  intros H1 H2. constructor; [apply H2|..|by rewrite (ks_current _ _ _ H2), (ks_current _ _ _ H1)
    |by rewrite (ks_ticks _ _ _ H2), (ks_ticks _ _ _ H1)].
  - intros j q Hne Hq. destruct (ks_others _ _ _ H1 _ _ Hne Hq) as (q1 & Hq1 & Hu1).
    destruct (ks_others _ _ _ H2 _ _ Hne Hq1) as (q2 & Hq2 & Hu2).
    exists q2. split; [done|]. unfold untouched in *.
    destruct Hu1 as [->|[? ->]], Hu2 as [->|[? ->]]; simpl in *; auto.
  - intros p Hp. destruct (ks_self _ _ _ H1 _ Hp) as (p1 & Hp1 & ? & ? & Ha1).
    destruct (ks_self _ _ _ H2 _ Hp1) as (p2 & Hp2 & ? & ? & Ha2).
    exists p2. split_and!; [done|congruence|congruence|].
    intros Ha. destruct (Ha2 Ha) as (Ha' & ? & ?). destruct (Ha1 Ha') as (? & ? & ?).
    split_and!; [done|auto|congruence].
Qed.

Lemma local_step_kstep k i p p' cont :
  kwf k -> proc_at k i p -> local_step p p' cont ->
  kstep i k (set_processes k (<[Z.to_nat i := p']> (processes k))).
Proof.
  intros Hk Hp Hl. apply (kstep_update k i p p' (world k)); [done|done|apply Hl|apply Hl| |].
  - unfold cap_list. by rewrite (ls_caps _ _ _ Hl), (ls_caps_count _ _ _ Hl).
  - intros Ha. split_and!; [|intros; apply Hl|apply Hl]. destruct cont.
    + by destruct (ls_cont _ _ _ Hl eq_refl) as [<- _].
    + destruct (ls_stop _ _ _ Hl eq_refl) as [H _]. by rewrite H in Ha.
Qed.

(** The contract of a kernel-level handler, for a mapped process whose
    instruction pointer is at most one past its code. *)
Definition khandler_ok (h : Z -> kstate W -> outcome (kstate W * bool))
    (pre : nvm_process -> Prop) : Prop :=
  forall k i p, kwf k -> proc_at k i p -> mapped p -> active p = true -> ip p <= psize p ->
  pre p ->
  runs_to (h i k) (fun '(k', cont) => kstep i k k' /\
    (cont = false -> exists p', proc_at k' i p' /\ active p' = false)).

Lemma on_proc_ok h pre : handler_ok h pre -> khandler_ok (on_proc h) pre.
Proof.
  intros Hh k i p Hk Hp Hm Ha Hip Hpre. unfold on_proc.
  rewrite (get_proc_at _ _ _ Hp). simpl.
  eapply runs_to_bind; [apply Hh; [by eapply proc_at_wf|done..]|].
  intros [p' cont] Hl. rewrite (put_proc_ok _ _ _ _ Hp). simpl.
  split; [by eapply local_step_kstep|]. intros ->. exists p'.
  split; [by eapply proc_at_put_eq|]. apply (ls_stop _ _ _ Hl). done.
Qed.

(** ** System calls other than SYS_SPAWN *)

Definition syscall_ok (s : Z -> kstate W -> outcome (kstate W * Z)) : Prop :=
  forall k i p, kwf k -> proc_at k i p -> mapped p -> active p = true ->
  runs_to (s i k) (fun '(k', _) => kstep i k k').

(** Opens a system call: fetches the process and its facts. *)
Tactic Notation "sys_start" reference(s) :=
  let k := fresh "k" in let i := fresh "i" in let p := fresh "p" in
  intros k i p Hk Hp Hm Ha; unfold s;
  pose proof (proc_at_wf _ _ _ Hk Hp) as Hw;
  rewrite (get_proc_at _ _ _ Hp); simpl;
  rewrite ?(caps_has_capability_spec _ _ Hw); simpl; wf_facts p Hw.

(** Closes a path that only replaces the calling process (and the world). *)
Ltac kupdate :=
  match goal with
  | Hp : proc_at ?k ?i ?p |- context [put_proc (set_world ?k ?w) ?i _] =>
      rewrite (put_proc_ok (set_world k w) i p _ Hp); simpl; kupdate
  | Hp : proc_at ?k ?i ?p |- context [put_proc ?k ?i _] =>
      rewrite (put_proc_ok k i p _ Hp); simpl; kupdate
  | Hp : proc_at ?k ?i ?p, Hk : kwf ?k |- kstep ?i ?k ?k =>
      apply kstep_refl; assumption
  | Hp : proc_at ?k ?i ?p, Hk : kwf ?k |- kstep ?i ?k (set_processes (set_world ?k ?w) _) =>
      apply (kstep_update k i p _ w Hk Hp); [hwf|reflexivity|reflexivity|]; try done
  | Hp : proc_at ?k ?i ?p, Hk : kwf ?k |- kstep ?i ?k (set_processes ?k _) =>
      apply (kstep_update k i p _ (world k) Hk Hp); [hwf|reflexivity|reflexivity|]; try done
  end.

Ltac kif := match goal with |- runs_to (if ?b then _ else _) _ => destruct b eqn:?; zbool; simpl end.

Lemma proc_wf_unmap p : proc_wf p -> proc_wf (set_heap (set_bytecode p None) None).
Proof. intros []. by constructor. Qed.

Lemma sys_exit_ok : syscall_ok sys_exit.
Proof.
  sys_start sys_exit.
  apply (runs_to_bind _ _ i32_ok).
  { destruct (Z.leb_spec 1 (sp p)); [apply stack_get_ok; [done|slia]|apply i32_ok_0]. }
  intros c Hc. simpl.
  rewrite (put_proc_ok (set_world k _) i p _ Hp). simpl.
  apply (kstep_update k i p _ _ Hk Hp).
  - assert (proc_wf (set_active (set_exit_code p c) false)) by hwf.
    destruct (Z.ltb_spec 0 (sp p)); [rewrite u16_id by lia; apply proc_wf_set_sp; [|slia]|];
      by apply proc_wf_unmap.
  - by case_match.
  - by case_match.
  - by case_match.
Qed.

Lemma sys_print_ok : syscall_ok sys_print.
Proof.
  sys_start sys_print. kif; [kupdate|]. rewrite u16_id by lia.
  rewrite (put_proc_ok (set_world k _) i p _ Hp). simpl.
  apply (kstep_update k i p _ _ Hk Hp); [|done|done|done].
  apply proc_wf_unmap, proc_wf_terminate. hwf.
Qed.

Lemma heap_string_ok bs hsize n : forall off,
  Forall byte_ok bs -> hsize <= len bs -> hsize <= HEAP_SIZE -> 0 <= off ->
  runs_to (heap_string bs hsize off n) (Forall (fun c => 0 < c < 256)).
Proof.
  induction n as [|n IH]; intros off HF Hl Hh Ho; unfold heap_string; fold heap_string; [constructor|].
  kif; [|constructor]. unfold HEAP_SIZE in *.
  eapply runs_to_bind; [apply (runs_to_aget bs off byte_ok); [lia|done]|].
  intros c Hc. simpl. kif; [constructor|]. rewrite u32_id by lia.
  eapply runs_to_bind; [apply IH; [done|lia..]|]. intros l Hlf. simpl.
  constructor; [unfold byte_ok in Hc; lia|done].
Qed.

Lemma sys_open_ok : syscall_ok sys_open.
Proof.
  sys_start sys_open. kif; [kupdate|]. kif; [kupdate|].
  hstep. rewrite u16_id by lia. kif; [kupdate|].
  destruct Hm as [Hc [[h Hh] Hs]]. unfold heap_bytes. simpl. rewrite Hh. simpl.
  destruct (wf_heap _ Hw _ Hh) as [Hl HF]. pose proof (wf_heap_size _ Hw).
  eapply runs_to_bind; [apply heap_string_ok; [done|lia..]|].
  intros name Hname. assert (mapped p) by (split_and!; eauto).
  destruct name as [|c name]; [simpl; kupdate|].
  destruct (vfs_open (c :: name) VFS_READ (world k)) as [w fd].
  hstep. kupdate.
Qed.

Lemma read_heap_ok fd limit n : forall pos bs w,
  Forall byte_ok bs -> limit <= len bs -> limit <= HEAP_SIZE -> 0 <= pos < 4294967296 ->
  runs_to (read_heap fd limit pos bs n w) (fun '(_, bs', pos') =>
    len bs' = len bs /\ Forall byte_ok bs' /\ pos <= pos' < 4294967296).
Proof.
  induction n as [|n IH]; intros pos bs w HF Hl Hh Ho; simpl; [split_and!; [done..|lia|lia]|].
  kif; [|split_and!; [done..|lia|lia]].
  destruct (vfs_readfd fd 1 w) as [w' [r bytes]] eqn:Hr.
  kif; [split_and!; [done..|lia|lia]|]. apply negb_false_iff in Heqb0. zbool. subst r.
  destruct (readfd_ok _ _ _ _ Hr) as (b & -> & Hb).
  rewrite aset_in_bounds by lia. simpl. unfold HEAP_SIZE in *. rewrite u32_id by lia.
  assert (Forall byte_ok (<[Z.to_nat pos := b]> bs)) by by apply Forall_insert.
  kif; [rewrite len_insert; split_and!; [done..|lia|lia]|].
  eapply runs_to_mono; [apply IH; rewrite ?len_insert; [done|lia..]|].
  intros [[w'' bs'] pos'] (E & ? & ?). rewrite len_insert in E. split_and!; [done|done|lia|lia].
Qed.

Lemma kwf_next_offset k v :
  kwf k -> 0 <= v < 4294967296 -> kwf (set_next_offset k v).
Proof. intros [] ?. by constructor. Qed.

Lemma sys_read_ok : syscall_ok sys_read.
Proof.
  sys_start sys_read. kif; [kupdate|]. kif; [kupdate|].
  hstep. rewrite u16_id by lia. kif; [kupdate|].
  assert (Hm' := Hm). destruct Hm' as [Hc [[h Hh] Hs]]. rewrite Hh.
  destruct (wf_heap _ Hw _ Hh) as [Hl HF]. pose proof (wf_heap_size _ Hw).
  pose proof (kwf_offset _ Hk). unfold HEAP_SIZE in *. rewrite (u32_id (heap_size p - 1)) by lia.
  eapply runs_to_bind; [apply read_heap_ok; [done|unfold HEAP_SIZE; lia..]|].
  intros [[w bs] pos] (Hlb & HFb & Hpos). simpl. kif.
  - rewrite aset_in_bounds by lia. simpl.
    assert (Hbs : Forall byte_ok (<[Z.to_nat pos := 0]> bs))
      by (apply Forall_insert; [done|unfold byte_ok; lia]).
    assert (Hq : proc_wf (set_heap (set_sp p (sp p - 1))
                   (Some (mkbuf (buf_addr h) (<[Z.to_nat pos := 0]> bs))))).
    { apply (proc_wf_set_heap _ h); [hwf|done|by rewrite len_insert|done]. }
    hstep.
    rewrite (put_proc_ok (set_next_offset (set_world k w) _) i p _ Hp). simpl.
    rewrite u32_id by lia.
    assert (Hk' : kwf (set_next_offset k (pos + 1))) by (apply kwf_next_offset; [done|lia]).
    eapply (kstep_trans _ (set_next_offset k (pos + 1))).
    + destruct (kstep_refl k i Hk). by constructor.
    + apply (kstep_update (set_next_offset k (pos + 1)) i p _ w Hk' Hp);
        [hwf|done|done|]. intros _. split_and!; [done| |done]. intros _.
      split_and!; [done|by eexists|done].
  - rewrite (put_proc_ok (set_world k w) i p _ Hp). simpl.
    apply (kstep_update k i p _ w Hk Hp); [|done|done|].
    + apply (proc_wf_set_heap (set_sp p (sp p - 1)) h); [hwf|done..].
    + intros _. split_and!; [done| |done]. intros _. split_and!; [done|by eexists|done].
Qed.

Lemma write_heap_ok fd hsize bs n : forall off written w,
  Forall byte_ok bs -> hsize <= len bs -> hsize <= HEAP_SIZE -> 0 <= off ->
  runs_to (write_heap fd hsize off written bs n w) (fun _ => True).
Proof.
  induction n as [|n IH]; intros off written w HF Hl Hh Ho; simpl; [done|].
  kif; [|done]. unfold HEAP_SIZE in *.
  eapply runs_to_bind; [apply (runs_to_aget bs off byte_ok); [lia|done]|].
  intros c Hc. simpl. kif; [done|].
  destruct (if (fd =? 1) || (fd =? 2) then _ else _) as [w' r]. kif; [done|].
  apply IH; [done|unfold HEAP_SIZE; lia..|]. rewrite u32_id by lia. lia.
Qed.

Lemma sys_write_ok : syscall_ok sys_write.
Proof.
  sys_start sys_write. kif; [kupdate|]. kif; [kupdate|].
  do 2 hstep. rewrite u16_id by lia.
  kif; [kupdate|].
  destruct (wf_heap_size _ Hw). assert (Hm' := Hm). destruct Hm' as [Hc [[h Hh] Hs]].
  unfold heap_bytes. simpl. rewrite Hh. simpl.
  destruct (wf_heap _ Hw _ Hh) as [Hl HF].
  eapply runs_to_bind; [apply write_heap_ok; [done|lia..]|].
  intros [w r] _. hstep. kupdate.
Qed.

Lemma find_null_ok st n : forall pos,
  Forall i32_ok st -> Z.of_nat n = pos + 1 -> pos < len st ->
  runs_to (find_null st pos n) (fun r => r = -1 \/ 0 <= r <= pos).
Proof.
  induction n as [|n IH]; intros pos HF Hn Hl; simpl; [by left|].
  eapply runs_to_bind; [apply (runs_to_aget st pos i32_ok); [lia|done]|].
  intros c _. simpl. kif; [right; lia|].
  eapply runs_to_mono; [apply IH; [done|lia..]|]. intros r [?|?]; [by left|right; lia].
Qed.

Lemma stack_string_ok st n : forall from,
  Forall i32_ok st -> 0 <= from -> from + Z.of_nat n <= len st ->
  runs_to (stack_string st from n) (Forall byte_ok).
Proof.
  induction n as [|n IH]; intros from HF H0 Hl; simpl; [constructor|].
  eapply runs_to_bind; [apply (runs_to_aget st from i32_ok); [lia|done]|].
  intros c _. eapply runs_to_bind; [apply IH; [done|lia..]|].
  intros l Hlf. constructor; [apply byte_ok_land|done].
Qed.

Lemma sys_delete_ok : syscall_ok sys_delete.
Proof.
  sys_start sys_delete. kif; [kupdate|]. kif; [kupdate|].
  eapply runs_to_bind.
  { apply find_null_ok; [apply (wf_stack _ Hw)|lia..]. }
  intros r Hr. simpl. kif; [kupdate|]. destruct Hr as [?|Hr]; [done|].
  eapply runs_to_bind.
  { apply stack_string_ok; [apply (wf_stack _ Hw)|lia..]. }
  intros name _. rewrite (put_proc_ok k i p _ Hp). simpl. rewrite u16_id by lia.
  destruct (vfs_delete name (world k)) as [w d].
  apply (kstep_update k i p _ w Hk Hp); [hwf|done..].
Qed.

(** *** Messages *)

Lemma wakeup_spec rcp ps :
  (wakeup rcp ps = ps /\ Forall (fun q => active q && (pid q =? rcp) && blocked q = false) ps) \/
  exists j q, ps !! j = Some q /\ active q = true /\ pid q = rcp /\ blocked q = true /\
    wakeup rcp ps = <[j := set_wakeup_reason (set_blocked q false) 1]> ps.
Proof.
  unfold wakeup. destruct (first_index _ ps) as [j|] eqn:E.
  - apply first_index_Some in E as (_ & q & Hq & Hf & _). right. rewrite Hq.
    exists (Z.to_nat j), q. apply andb_prop in Hf as [[? ?%Z.eqb_eq]%andb_prop ?]. done.
  - left. split; [done|]. by apply first_index_None in E.
Qed.

Lemma proc_wf_wakeup q : proc_wf q -> proc_wf (set_wakeup_reason (set_blocked q false) 1).
Proof. intros []. by constructor. Qed.

Lemma kstep_wakeup i k rcp :
  kwf k -> kstep i k (set_processes k (wakeup rcp (processes k))).
Proof.
  intros Hk. destruct (wakeup_spec rcp (processes k)) as [[-> _]|(j & q & Hq & Ha & Hpid & Hb & ->)].
  { replace (set_processes k (processes k)) with k by (by destruct k). by apply kstep_refl. }
  assert (Hj : proc_at k (Z.of_nat j) q) by (split; [lia|by rewrite Nat2Z.id]).
  assert (Hwq := proc_wf_wakeup _ (proc_at_wf _ _ _ Hk Hj)).
  rewrite <- (Nat2Z.id j). constructor.
  - by apply kwf_put.
  - intros j' q' _ Hq'. destruct (decide (j' = Z.of_nat j)) as [->|Hne].
    + rewrite (proc_at_fun _ _ _ _ Hq' Hj).
      exists (set_wakeup_reason (set_blocked q false) 1). split; [|by right].
      by apply (proc_at_put_eq k _ q).
    + exists q'. split; [by apply (proc_at_put_ne k _ q)|by left].
  - intros p Hp. destruct (decide (i = Z.of_nat j)) as [->|Hne].
    + rewrite (proc_at_fun _ _ _ _ Hp Hj).
      exists (set_wakeup_reason (set_blocked q false) 1).
      split; [by apply (proc_at_put_eq k _ q)|done].
    + exists p. split; [by apply (proc_at_put_ne k _ q)|done].
  - done.
  - done.
Qed.

Lemma kwf_messages k (q : list message) n :
  kwf k -> len q = MAX_MESSAGES -> Forall message_ok q -> 0 <= n <= MAX_MESSAGES ->
  kwf (set_messages k q n).
Proof. intros [] ???. by constructor. Qed.

Lemma kstep_messages i k (q : list message) n : kwf k -> kwf (set_messages k q n) -> kstep i k (set_messages k q n).
Proof. intros Hk Hk'. destruct (kstep_refl k i Hk). by constructor. Qed.

Lemma land_u16 v : 0 <= Z.land v 0xFFFF < 65536.
Proof. change 0xFFFF with (Z.ones 16). rewrite Z.land_ones by lia. apply Z.mod_pos_bound. lia. Qed.

Lemma sys_msg_send_ok : syscall_ok sys_msg_send.
Proof.
  sys_start sys_msg_send. kif; [kupdate|]. do 2 hstep.
  pose proof (kwf_count _ Hk). pose proof (kwf_queue_len _ Hk). pose proof (wf_pid _ Hw).
  kif; [kupdate|]. rewrite aset_in_bounds by lia. simpl.
  set (m := mkmsg _ _ _). set (k1 := set_messages k _ _).
  assert (Hm1 : message_ok m).
  { unfold MAX_PROCESSES in *. split; [apply land_u16|]. split; [simpl; lia|apply byte_ok_land]. }
  assert (Hk1 : kwf k1).
  { apply kwf_messages; [done|by rewrite len_insert| |lia].
    apply Forall_insert; [apply (kwf_queue _ Hk)|done]. }
  pose proof (kstep_wakeup i k1 (Z.land a 65535) Hk1) as Hs.
  set (k2 := set_processes k1 _) in *. change (set_processes k1 _) with k2.
  assert (Hs0 : kstep i k k2) by (eapply kstep_trans; [by apply kstep_messages|done]).
  destruct (ks_self _ _ _ Hs0 _ Hp) as (p2 & Hp2 & Hpid & Hcaps & Ha2).
  rewrite (get_proc_at _ _ _ Hp2). simpl. rewrite (put_proc_ok _ _ _ _ Hp2). simpl.
  assert (Hw2 : proc_wf p2) by (eapply proc_at_wf; [apply Hs|done]).
  assert (Hsp : sp p2 = sp p).
  { destruct (wakeup_spec (Z.land a 65535) (processes k1)) as [[E _]|(j & q & Hq & _ & _ & _ & E)].
    - destruct Hp2 as [_ Hp2]. simpl in Hp2. simpl in E. rewrite E in Hp2. destruct Hp. congruence.
    - destruct Hp as [Hi Hp], Hp2 as [_ Hp2]. simpl in Hp2, E, Hq. rewrite E in Hp2.
      rewrite list_lookup_insert in Hp2. case_decide as Hd.
      + destruct Hd as [-> _]. injection Hp2 as <-. simpl. congruence.
      + congruence. }
  eapply kstep_trans; [exact Hs0|].
  apply (kstep_update k2 i p2 _ (world k2)); [apply Hs0|done| |done|done|done].
  rewrite Hsp, u16_id by lia. hwf.
Qed.

Lemma queue_shift_ok n : forall (ms : list message) j,
  0 <= j -> j + Z.of_nat n < len ms -> Forall message_ok ms ->
  runs_to (queue_shift ms j n) (fun ms' => len ms' = len ms /\ Forall message_ok ms').
Proof.
  induction n as [|n IH]; intros ms j Hj Hn HF; simpl; [done|].
  eapply runs_to_bind; [apply (runs_to_aget ms _ message_ok); [lia|done]|].
  intros m Hm. rewrite aset_in_bounds by lia. simpl.
  eapply runs_to_mono; [apply IH; [lia|rewrite len_insert; lia|by apply Forall_insert]|].
  intros ms' [E ?]. by rewrite len_insert in E.
Qed.

Lemma sys_msg_receive_ok : syscall_ok sys_msg_receive.
Proof.
  sys_start sys_msg_receive.
  pose proof (kwf_count _ Hk). pose proof (kwf_queue_len _ Hk).
  destruct (first_index _ _) as [f|] eqn:E.
  - apply first_index_Some in E as (Hf & m & Hlk & _).
    assert (Hf' : 0 <= f < message_count k).
    { unfold len in Hf. rewrite length_take in Hf. lia. }
    kif; [kupdate|].
    eapply runs_to_bind; [apply (runs_to_aget _ f message_ok); [lia|apply (kwf_queue _ Hk)]|].
    intros m' (Hr & Hs & Hc).
    eapply runs_to_bind; [apply queue_shift_ok; [lia..|apply (kwf_queue _ Hk)]|].
    intros ms [Hq HFq]. simpl. unfold STACK_SIZE in *.
    rewrite !aset_in_bounds by (rewrite ?len_insert; lia). simpl.
    rewrite aset_in_bounds by (rewrite ?len_insert; lia). simpl.
    set (k1 := set_messages k ms (message_count k - 1)).
    assert (Hk1 : kwf k1) by (apply kwf_messages; [done|lia|done|lia]).
    rewrite (put_proc_ok k1 i p _ Hp). simpl. rewrite u16_id by lia.
    eapply kstep_trans; [by apply kstep_messages|].
    apply (kstep_update k1 i p _ (world k1) Hk1 Hp); [|done..].
    apply proc_wf_set_sp; [|slia].
    unfold byte_ok in Hc.
    apply (proc_wf_set_stack (set_stack p _)); [hwf|slia].
  - rewrite (put_proc_ok k i p _ Hp). simpl.
    apply (kstep_update k i p _ (world k) Hk Hp); [|done..].
    destruct Hw. by constructor.
Qed.

Lemma i16_u8 v : i16 (u8 v) = u8 v.
Proof. apply i16_id. pose proof (u8_range v). lia. Qed.

Lemma sys_port_in_ok : syscall_ok sys_port_in.
Proof.
  sys_start sys_port_in. kif; [kupdate|]. kif; [kupdate|]. hstep.
  destruct (inb (u16 a) (world k)) as [w v]. hstep. rewrite i16_u8.
  pose proof (u8_range v). kupdate.
Qed.

Lemma sys_port_out_ok : syscall_ok sys_port_out.
Proof.
  sys_start sys_port_out. kif; [kupdate|]. kif; [kupdate|]. do 2 hstep.
  rewrite u16_id by lia. kupdate.
Qed.

Lemma sys_unknown_ok : syscall_ok sys_unknown.
Proof.
  sys_start sys_unknown. rewrite (put_proc_ok k i p _ Hp). simpl.
  apply (kstep_update k i p _ (world k) Hk Hp); [by apply proc_wf_terminate|done..].
Qed.

Lemma syscall_handler_ok fuel id : id <> 1 -> syscall_ok (syscall_handler fuel id).
Proof.
  intros Hid k i p Hk Hp Hm Ha. unfold syscall_handler.
  repeat match goal with |- runs_to (if id =? ?n then _ else _) _ =>
    destruct (Z.eqb_spec id n); [first [done
      | by eapply sys_exit_ok | by eapply sys_open_ok | by eapply sys_read_ok
      | by eapply sys_write_ok | by eapply sys_delete_ok | by eapply sys_msg_send_ok
      | by eapply sys_msg_receive_ok | by eapply sys_port_in_ok | by eapply sys_port_out_ok
      | by eapply sys_print_ok]|] end.
  by eapply sys_unknown_ok.
Qed.

(** ** Handlers that leave the process *)

(** Without the capability the process is terminated before the address is used. *)
Lemma abs_refused k i p h :
  kwf k -> proc_at k i p -> ~ grants p CAP_DRV_ACCESS -> h = handle_load_abs \/ h = handle_store_abs ->
  h i k = Ret (set_processes k (<[Z.to_nat i := terminate p]> (processes k)), false).
Proof.
  intros Hk Hp Hn Hh. pose proof (proc_at_wf _ _ _ Hk Hp) as Hw.
  destruct Hh as [-> | ->]; unfold handle_load_abs, handle_store_abs; rewrite (get_proc_at _ _ _ Hp);
    cbn [mbind outcome_bind]; rewrite (caps_has_capability_spec _ _ Hw); cbn [mbind outcome_bind];
    rewrite bool_decide_eq_false_2 by done; cbn [negb]; by rewrite (put_proc_ok k i p _ Hp).
Qed.

Lemma abs_ok h : h = handle_load_abs \/ h = handle_store_abs -> khandler_ok h (fun p => ~ grants p CAP_DRV_ACCESS).
Proof.
  intros Hh k i p Hk Hp Hm Ha Hip Hn. rewrite (abs_refused k i p h Hk Hp Hn Hh). cbn [runs_to]. split.
  - apply (kstep_update k i p _ (world k) Hk Hp); [apply proc_wf_terminate; by eapply proc_at_wf|done..].
  - intros _. exists (terminate p). split; [by apply (proc_at_put_eq k i p)|done].
Qed.

(** The code byte at address [a]. *)
Definition code_at p (a : Z) : option Z :=
  match bytecode p with Some b => buf_bytes b !! Z.to_nat a | None => None end.

Lemma fetch8_value p :
  proc_wf p -> mapped p -> ip p < psize p ->
  exists b, code_at p (ip p) = Some b /\ byte_ok b /\
    fetch8 p = Ret (set_ip p (ip p + 1), b).
Proof.
  intros Hp [[b Hb] _] Hi. pose proof (wf_ip _ Hp). pose proof (wf_size _ Hp).
  destruct (wf_bytecode _ Hp _ Hb) as [Hl HF].
  unfold fetch8, fetch, code_at. rewrite Hb, (u32_id (ip p)), (u32_id (ip p + 1)) by lia.
  destruct (aget_in_bounds (buf_bytes b) (ip p)) as (c & Hc & Hlk); [lia|].
  exists c. rewrite Hc. simpl. split_and!; [done| |done].
  by eapply Forall_lookup_1.
Qed.

Lemma handle_syscall_ok fuel :
  khandler_ok (handle_syscall fuel) (fun p => code_at p (ip p) <> Some 1).
Proof.
  intros k i p Hk Hp Hm Ha Hip Hn. unfold handle_syscall.
  pose proof (proc_at_wf _ _ _ Hk Hp) as Hw. rewrite (get_proc_at _ _ _ Hp). simpl.
  wf_facts p Hw. kif; [|split; [by apply kstep_refl|done]].
  destruct (fetch8_value _ Hw Hm ltac:(done)) as (id & Hid & Hb & ->). simpl.
  rewrite (put_proc_ok k i p _ Hp). simpl.
  set (k1 := set_processes k _).
  assert (Hs1 : kstep i k k1) by (apply (kstep_update k i p _ (world k) Hk Hp); [hwf|done..]).
  eapply runs_to_bind.
  - apply (syscall_handler_ok fuel id ltac:(congruence) k1 i (set_ip p (ip p + 1)));
      [apply Hs1|by apply (proc_at_put_eq k i p)|done|done].
  - intros [k2 r] Hs2. simpl. split; [|done]. by eapply kstep_trans.
Qed.

(** ** The interpreter *)

(** The inputs on which an instruction is not covered: the two divide traps,
    the wrapped heap bound, absolute accesses of a process that may make them,
    which reach unmapped pages and the tables of the kernel, and SYS_SPAWN (see
    NvmSpawn.v). *)
Definition opcode_pre (op : Z) (p : nvm_process) : Prop :=
  if (op =? 0x13) || (op =? 0x14) then ~ idiv_traps p
  else if op =? 0x46 then ~ heap_wraps 1 p
  else if op =? 0x47 then ~ heap_wraps 2 p
  else if (op =? 0x44) || (op =? 0x45) then ~ grants p CAP_DRV_ACCESS
  else if op =? 0x50 then code_at p (ip p) <> Some 1
  else True.

(** The same, before the opcode is fetched. *)
Definition safe_instruction (p : nvm_process) : Prop :=
  forall op, code_at p (ip p) = Some op -> opcode_pre op (set_ip p (ip p + 1)).

Lemma instruction_table_ok fuel op h :
  instruction_table fuel op = Some h -> khandler_ok h (opcode_pre op).
Proof.
  unfold instruction_table.
  repeat match goal with |- (if op =? ?n then _ else _) = _ -> _ =>
    destruct (Z.eqb_spec op n);
      [subst op; intros [= <-]; first
        [ apply (on_proc_ok _ always); first
          [ apply handle_halt_ok | apply handle_nop_ok | apply handle_push_ok
          | apply handle_pop_ok | apply handle_dup_ok | apply handle_swap_ok
          | apply handle_add_ok | apply handle_sub_ok | apply handle_mul_ok
          | apply handle_cmp_ok | apply handle_eq_ok | apply handle_neq_ok
          | apply handle_gt_ok | apply handle_lt_ok | apply handle_jmp_ok
          | apply cond_jump_ok | apply handle_call_ok | apply handle_ret_ok
          | apply handle_enter_ok | apply handle_leave_ok | apply handle_load_arg_ok
          | apply handle_store_arg_ok | apply handle_load_ok | apply handle_store_ok
          | apply handle_load_rel_ok | apply handle_store_rel_ok | apply handle_break_ok
          | apply handle_and_ok | apply handle_or_ok | apply handle_xor_ok
          | apply handle_not_ok | apply handle_shl_ok | apply handle_shr_ok
          | apply handle_sar_ok ]
        | apply on_proc_ok; first
          [ apply handle_div_ok | apply handle_mod_ok | apply handle_load_heap_ok
          | apply handle_store_heap_ok ]
        | apply abs_ok; by left | apply abs_ok; by right | apply handle_syscall_ok ]
      |] end.
  done.
Qed.

Lemma execute_instruction_ok fuel k i p :
  kwf k -> proc_at k i p -> mapped p -> active p = true -> safe_instruction p ->
  runs_to (nvm_execute_instruction fuel i k) (fun '(k', cont) => kstep i k k' /\
    (cont = false -> exists p', proc_at k' i p' /\ active p' = false)).
Proof.
  intros Hk Hp Hm Ha Hsafe. unfold nvm_execute_instruction.
  pose proof (proc_at_wf _ _ _ Hk Hp) as Hw. rewrite (get_proc_at _ _ _ Hp). simpl.
  wf_facts p Hw. kif.
  { rewrite (put_proc_ok k i p _ Hp). simpl. split.
    - apply (kstep_update k i p _ (world k) Hk Hp); [by apply proc_wf_terminate|done..].
    - intros _. exists (terminate p). split; [by apply (proc_at_put_eq k i p)|done]. }
  destruct (fetch8_value _ Hw Hm ltac:(done)) as (op & Hop & Hb & ->). simpl.
  rewrite (put_proc_ok k i p _ Hp). simpl. set (k1 := set_processes k _).
  assert (Hs1 : kstep i k k1) by (apply (kstep_update k i p _ (world k) Hk Hp); [hwf|done..]).
  destruct (instruction_table fuel op) as [h|] eqn:Hh; [|by split].
  eapply runs_to_mono.
  - apply (instruction_table_ok _ _ _ Hh k1 i (set_ip p (ip p + 1)));
      [apply Hs1|by apply (proc_at_put_eq k i p)|done|done|simpl; lia|by apply Hsafe].
  - intros [k2 cont] [Hs2 Hc]. split; [by eapply kstep_trans|done].
Qed.

(** ** The scheduler *)

(** Code that cannot reach an excluded input, at whatever address it is
    entered. *)
Definition tame_code (bs : list Z) : Prop :=
  forall a b, bs !! a = Some b ->
    b <> 0x13 /\ b <> 0x14 /\ b <> 0x46 /\ b <> 0x47 /\
    (b = 0x50 -> bs !! S a <> Some 1).

(** No absolute accesses. *)
Definition no_abs (bs : list Z) : Prop := forall a b, bs !! a = Some b -> b <> 0x44 /\ b <> 0x45.

Definition tame_proc (p : nvm_process) : Prop :=
  mapped p /\ forall b, bytecode p = Some b ->
    tame_code (buf_bytes b) /\ (~ grants p CAP_DRV_ACCESS \/ no_abs (buf_bytes b)).

Definition tame k : Prop :=
  forall i p, proc_at k i p -> active p = true -> tame_proc p.

Lemma tame_safe p : proc_wf p -> tame_proc p -> safe_instruction p.
Proof.
  intros Hw [[[b Hb] _] Ht] op. unfold code_at, opcode_pre. rewrite Hb. intros Hop.
  destruct (Ht _ Hb) as [Hc Hg]. specialize (Hc _ _ Hop) as (H1 & H2 & H3 & H4 & H5).
  apply Z.eqb_neq in H1, H2, H3, H4. rewrite H1, H2, H3, H4. cbn [orb].
  destruct ((op =? 0x44) || (op =? 0x45)) eqn:Eabs.
  { destruct Hg as [Hg|Hg]; [exact Hg|]. apply orb_prop in Eabs.
    destruct (Hg _ _ Hop). destruct Eabs as [?%Z.eqb_eq|?%Z.eqb_eq]; done. }
  destruct (Z.eqb_spec op 80) as [->|]; [|done]. unfold code_at. simpl. rewrite Hb.
  pose proof (wf_ip _ Hw). replace (Z.to_nat (ip p + 1)) with (S (Z.to_nat (ip p))) by lia.
  auto.
Qed.

Lemma untouched_active q q' :
  untouched q q' -> active q' = active q /\ bytecode q' = bytecode q /\ (mapped q <-> mapped q') /\ cap_list q' = cap_list q.
Proof. by intros [->|[_ ->]]. Qed.

Lemma kstep_tame i k k' :
  kwf k -> kstep i k k' -> (exists p, proc_at k i p) -> tame k -> tame k'.
Proof.
  intros Hk Hs [p0 Hp0] Ht j q' Hq' Ha.
  destruct (lookup_lt_is_Some_2 (processes k) (Z.to_nat j)) as [q Hq].
  { destruct Hq' as [_ Hq'%lookup_lt_Some].
    pose proof (kwf_len _ Hk). pose proof (kwf_len _ (ks_wf _ _ _ Hs)). unfold len in *. lia. }
  assert (Hqk : proc_at k j q) by (split; [apply Hq'|done]).
  destruct (decide (j = i)) as [->|Hne].
  - destruct (ks_self _ _ _ Hs _ Hqk) as (p' & Hp' & _ & Hcl & Hact).
    rewrite (proc_at_fun _ _ _ _ Hq' Hp') in *. destruct (Hact Ha) as (Haq & Hmq & Hb).
    destruct (Ht _ _ Hqk Haq) as [Hm Hc]. split; [auto|]. unfold grants. by rewrite Hb, Hcl.
  - destruct (ks_others _ _ _ Hs _ _ Hne Hqk) as (q1 & Hq1 & Hu).
    rewrite (proc_at_fun _ _ _ _ Hq' Hq1) in *.
    destruct (untouched_active _ _ Hu) as (Ea & Eb & Em & Ec).
    destruct (Ht _ _ Hqk ltac:(congruence)) as [Hm Hc]. split; [by apply Em|]. unfold grants. by rewrite Eb, Ec.
Qed.

Lemma run_slice_ok fuel i n : forall k,
  kwf k -> tame k -> (exists p, proc_at k i p) ->
  runs_to (run_slice fuel i n k) (fun k' => kstep i k k' /\ tame k').
Proof.
  induction n as [|n IH]; intros k Hk Ht [p Hp]; [by split; [apply kstep_refl|]|].
  unfold run_slice; fold (@run_slice W KS). rewrite (get_proc_at _ _ _ Hp). simpl.
  pose proof (proc_at_wf _ _ _ Hk Hp) as Hw.
  destruct ((ip p <? psize p) && active p && negb (blocked p)) eqn:E.
  - apply andb_prop in E as [[_ Ha]%andb_prop _].
    destruct (Ht _ _ Hp Ha) as [Hm Hc].
    eapply runs_to_bind.
    { apply (execute_instruction_ok fuel k i p Hk Hp Hm Ha). apply tame_safe; [done|by split]. }
    intros [k' cont] [Hs _]. simpl.
    assert (tame k') by (eapply kstep_tame; eauto).
    destruct cont; [|done].
    destruct (ks_self _ _ _ Hs _ Hp) as (p' & Hp' & _).
    eapply runs_to_mono; [apply IH; [apply Hs|done|by exists p']|].
    intros k2 [Hs2 ?]. split; [by eapply kstep_trans|done].
  - destruct ((psize p <=? ip p) && active p) eqn:E2; [|by split; [apply kstep_refl|]].
    rewrite (put_proc_ok k i p _ Hp). simpl.
    assert (Hs : kstep i k (set_processes k (<[Z.to_nat i :=
       set_exit_code (set_active p false) 0]> (processes k)))).
    { apply (kstep_update k i p _ (world k) Hk Hp); [hwf|done..]. }
    split; [done|]. eapply kstep_tame; eauto.
Qed.

(** *** The choice of the next process *)

(** How far [j] is ahead of [cur] in the round, between 1 and 32. *)
Definition ahead (cur j : Z) : Z := (j - cur - 1) mod MAX_PROCESSES + 1.

Lemma ahead_range cur j : 1 <= ahead cur j <= MAX_PROCESSES.
Proof.
  unfold ahead. pose proof (Z.mod_pos_bound (j - cur - 1) MAX_PROCESSES ltac:(done)). lia.
Qed.

Lemma ahead_mod cur d :
  0 <= cur < MAX_PROCESSES -> 1 <= d <= MAX_PROCESSES -> ahead cur ((cur + d) mod MAX_PROCESSES) = d.
Proof.
  intros Hc Hd. unfold ahead, MAX_PROCESSES in *.
  pose proof (Z.div_mod (cur + d) 32 ltac:(lia)). pose proof (Z.mod_pos_bound (cur + d) 32 ltac:(lia)).
  replace ((cur + d) mod 32 - cur - 1) with (d - 1 + (- ((cur + d) / 32)) * 32) by lia.
  rewrite Z.mod_add by lia. rewrite Z.mod_small by lia. lia.
Qed.

Lemma mod_ahead cur j :
  0 <= cur < MAX_PROCESSES -> 0 <= j < MAX_PROCESSES -> (cur + ahead cur j) mod MAX_PROCESSES = j.
Proof.
  intros Hc Hj. unfold ahead, MAX_PROCESSES in *.
  rewrite Z.add_assoc, (Z.add_comm cur), <- Z.add_assoc, Z.add_mod_idemp_l by lia.
  replace (j - cur - 1 + (cur + 1)) with j by lia. by apply Z.mod_small.
Qed.

(** The search stops at the first schedulable process after [cur], and at
    [cur] itself when there is none. *)
Definition chosen (ps : list nvm_process) (cur r : Z) : Prop :=
  0 <= r < MAX_PROCESSES /\
  (forall j q, 0 <= j -> ps !! Z.to_nat j = Some q -> j < MAX_PROCESSES ->
     ahead cur j < ahead cur r -> schedulable q = false) /\
  ((exists q, ps !! Z.to_nat r = Some q /\ schedulable q = true) \/ r = cur).

Lemma next_process_from ps start n : forall d,
  len ps = MAX_PROCESSES -> 0 <= start < MAX_PROCESSES ->
  0 <= d -> d + Z.of_nat n = MAX_PROCESSES -> (0 < n)%nat ->
  (forall j q, 0 <= j -> ps !! Z.to_nat j = Some q -> j < MAX_PROCESSES ->
     ahead start j <= d -> schedulable q = false) ->
  runs_to (next_process ps ((start + d) mod MAX_PROCESSES) start n) (chosen ps start).
Proof.
  induction n as [|n IH]; intros d Hl Hst Hd Hn Hpos Hmin; [lia|].
  unfold next_process; fold next_process.
  rewrite Z.add_mod_idemp_l by done. rewrite <- Z.add_assoc.
  set (cur := (start + (d + 1)) mod MAX_PROCESSES).
  assert (Hcur : 0 <= cur < MAX_PROCESSES) by (apply Z.mod_pos_bound; done).
  assert (Hah : ahead start cur = d + 1) by (apply ahead_mod; lia).
  destruct (aget_in_bounds ps cur) as (q & -> & Hq); [lia|]. simpl.
  destruct (schedulable q) eqn:Hs.
  { split_and!; [lia|lia| |left; eauto]. intros j q' ????. eapply Hmin; eauto. lia. }
  destruct (Z.eqb_spec cur start) as [Heq|Hne].
  { split_and!; [lia|lia| |by right]. intros j q' ????. eapply Hmin; eauto. lia. }
  apply IH; [done|done|lia..| |].
  - destruct n; [|lia]. exfalso. apply Hne. unfold cur.
    replace (d + 1) with (1 * MAX_PROCESSES) by lia. rewrite Z.mod_add by done.
    by apply Z.mod_small.
  - intros j q' Hj Hlk Hjm Ha. destruct (decide (j = cur)) as [->|Hjc]; [naive_solver|].
    eapply Hmin; eauto. enough (ahead start j <> d + 1) by lia. intros E. apply Hjc.
    rewrite <- (mod_ahead start j) by lia. unfold cur. by rewrite E.
Qed.

Lemma next_process_ok ps cur :
  len ps = MAX_PROCESSES -> 0 <= cur < MAX_PROCESSES ->
  runs_to (next_process ps cur cur (Z.to_nat MAX_PROCESSES)) (chosen ps cur).
Proof.
  intros Hl Hc. rewrite <- (Z.mod_small cur MAX_PROCESSES) at 1 by done.
  rewrite <- (Z.add_0_r cur) at 1. apply next_process_from; [done|done|lia|done|unfold MAX_PROCESSES; lia|].
  intros j q _ _ _. pose proof (ahead_range cur j). lia.
Qed.

End Machine.

(** * A concrete machine for the NVM

    An instance of the services the runtime calls, and small kernel states,
    on which the theorems of the NVM are evaluated. *)

(** ** The services *)

(** A bump allocator, one input stream and a log of output events. *)
Record demo_world := mkdw {
  dw_brk : Z;
  dw_limit : Z;
  dw_input : list Z;
  dw_output : list Z
}.

Definition demo_log (bs : list Z) (w : demo_world) : demo_world :=
  mkdw (dw_brk w) (dw_limit w) (dw_input w) (dw_output w ++ bs).

#[global] Instance demo_services : KernelServices demo_world := {|
  kmalloc := fun n w =>
    if dw_brk w + n <=? dw_limit w
    then (mkdw (dw_brk w + n) (dw_limit w) (dw_input w) (dw_output w),
          Some (mkbuf (dw_brk w) (replicate (Z.to_nat n) 0)))
    else (w, None);
  kfree := fun _ w => w;
  vfs_open := fun _ _ w => (w, 3);
  vfs_readfd := fun _ _ w =>
    match dw_input w with
    | [] => (w, (0, []))
    | b :: r => (mkdw (dw_brk w) (dw_limit w) r (dw_output w), (1, [u8 b]))
    end;
  vfs_writefd := fun _ bs w => (demo_log bs w, len bs);
  vfs_delete := fun name w => (demo_log name w, 0);
  tty_puts := demo_log;
  inb := fun port w => (w, port mod 256);
  outb := fun port v w => demo_log [port; v] w;
  procfs_register := fun _ w => w;
  procfs_unregister := fun _ w => w;
  procfs_set_args := fun _ _ w => w;
  mem_load32 := fun a _ => if a <? 0x200000 then Some a else None;
  mem_store32 := fun a v w => if a <? 0x200000 then Some (demo_log [a; v] w) else None;
  mem_store16 := fun a v w => Some (demo_log [a; v] w)
|}.

#[global] Instance demo_services_ok : ServicesOk demo_world.
Proof.
  constructor; simpl.
  - intros n w w' b. destruct (_ <=? _); [|done]. intros [= _ <-]. split; simpl.
    + unfold len. rewrite length_replicate. lia.
    + apply Forall_replicate. unfold byte_ok. lia.
  - intros fd w w' bytes. destruct (dw_input w); [done|]. intros [= _ <-].
    eexists. split; [done|apply u8_range].
Qed.

Definition demo_world0 (input : list Z) : demo_world := mkdw 4096 1048576 input [].

(** ** Processes *)

(** A process about to run [code] with the values [st] on its stack (bottom
    first), the capabilities [caps] and a heap of 16 bytes. *)
Definition demo_proc (i : Z) (code st caps : list Z) : nvm_process :=
  mkproc (Some (mkbuf 65536 code)) 0 (len code)
    (st ++ replicate (Z.to_nat STACK_SIZE - length st) 0) (len st)
    (replicate (Z.to_nat MAX_LOCALS) 0) true false 0 i (-1) 0
    (caps ++ replicate (Z.to_nat MAX_CAPS - length caps) 0) (len caps)
    (Some (mkbuf 131072 (replicate 16 0))) 16.

(** A free slot. *)
Definition idle_proc (i : Z) : nvm_process :=
  mkproc None 0 0 (replicate (Z.to_nat STACK_SIZE) 0) 0
    (replicate (Z.to_nat MAX_LOCALS) 0) false false 0 i (-1) 0
    (replicate (Z.to_nat MAX_CAPS) 0) 0 None 0.

Ltac proc_fields := cbn [bytecode ip psize stack sp locals active blocked exit_code pid fp
  wakeup_reason capabilities caps_count heap heap_size demo_proc idle_proc].

Lemma pad_length {A} (l : list A) n x :
  (length l <= n)%nat -> length (l ++ replicate (n - length l) x) = n.
Proof. intros. rewrite length_app, length_replicate. lia. Qed.

Definition demo_args_ok (i : Z) (code st caps : list Z) : bool :=
  bool_decide (0 <= i < MAX_PROCESSES) &&
  bool_decide (Forall byte_ok code) && (len code <? 1000) &&
  bool_decide (Forall (fun v => -2147483648 <= v < 2147483648) st) && (len st <=? 1024) &&
  bool_decide (Forall (fun c => 0 <= c < 65536) caps) && (len caps <=? 8).

Lemma demo_proc_wf i code st caps :
  demo_args_ok i code st caps = true -> proc_wf (demo_proc i code st caps).
Proof.
  unfold demo_args_ok. rewrite !andb_true_iff, !bool_decide_eq_true.
  intros ((((((Hi & Hc) & Hcl) & Hs) & Hsl) & Hk) & Hkl).
  apply Z.ltb_lt in Hcl. apply Z.leb_le in Hsl, Hkl. unfold len in Hcl, Hsl, Hkl.
  constructor; proc_fields; unfold len, STACK_SIZE, MAX_LOCALS, MAX_CAPS, HEAP_SIZE, i32_ok;
    rewrite ?pad_length, ?length_replicate by lia; try done; try lia.
  - apply Forall_app_2; [done|]. apply Forall_replicate. lia.
  - apply Forall_replicate. lia.
  - apply Forall_app_2; [done|]. apply Forall_replicate. lia.
  - intros b [= <-]. split; [unfold len; simpl; lia|done].
  - intros b [= <-]. split; [by vm_compute|]. change (Forall byte_ok (replicate 16 0)).
    apply Forall_replicate. unfold byte_ok. lia.
Qed.

Lemma idle_proc_wf i : 0 <= i < MAX_PROCESSES -> proc_wf (idle_proc i).
Proof.
  intros Hi. constructor; proc_fields; unfold len, STACK_SIZE, MAX_LOCALS, MAX_CAPS, HEAP_SIZE, i32_ok;
    rewrite ?length_replicate; try done; try lia; apply Forall_replicate; lia.
Qed.

(** ** Kernel states *)

Definition empty_message : message := mkmsg 0 0 0.

(** The processes [ps] in the first slots; the other slots are free. *)
Definition demo_kernel (ps : list nvm_process) (ms : list message) (t : Z) (w : demo_world)
  : kstate demo_world :=
  mkk (ps ++ map (fun i => idle_proc i) (seqZ (len ps) (MAX_PROCESSES - len ps))) 0 t
    (ms ++ replicate (Z.to_nat MAX_MESSAGES - length ms) empty_message) (len ms) 0 w.

Lemma demo_kernel_wf ps ms t w :
  Forall proc_wf ps -> Forall message_ok ms ->
  len ps <= MAX_PROCESSES -> len ms <= MAX_MESSAGES -> 0 <= t < 4294967296 ->
  kwf (demo_kernel ps ms t w).
Proof.
  intros Hp Hm Hl Hml Ht. unfold MAX_PROCESSES, MAX_MESSAGES, len in *.
  constructor; simpl; unfold MAX_PROCESSES, MAX_MESSAGES, len in *; try lia.
  - rewrite length_app, length_map, length_seqZ. lia.
  - apply Forall_app_2; [done|]. apply Forall_fmap, Forall_seqZ. intros i Hi. simpl.
    apply idle_proc_wf. unfold MAX_PROCESSES. lia.
  - rewrite pad_length by lia. done.
  - apply Forall_app_2; [done|]. apply Forall_replicate.
    split_and!; simpl; unfold byte_ok; lia.
Qed.

(** The active processes of a demo kernel are among the given ones. *)
Lemma demo_kernel_active ps ms t w i p :
  proc_at (demo_kernel ps ms t w) i p -> active p = true ->
  ps !! Z.to_nat i = Some p.
Proof.
  intros [Hi Hp] Ha. unfold demo_kernel in Hp. simpl in Hp.
  apply lookup_app_Some in Hp as [?|[_ Hp]]; [done|].
  apply list_lookup_fmap_Some in Hp as (j & -> & _). done.
Qed.

(** Decides the absence of excluded instructions in a code block. *)
Fixpoint tame_codeb (bs : list Z) : bool :=
  match bs with
  | [] => true
  | b :: r =>
      negb ((b =? 0x13) || (b =? 0x14) || (b =? 0x46) || (b =? 0x47)) &&
      negb ((b =? 0x50) && match r with 1 :: _ => true | _ => false end) && tame_codeb r
  end.

Lemma tame_codeb_ok bs : tame_codeb bs = true -> tame_code bs.
Proof.
  induction bs as [|b r IH]; simpl; [intros _ a b; by rewrite lookup_nil|].
  intros [[H1 H2]%andb_prop H3]%andb_prop [|a] b'; simpl; [|intros; by eapply IH].
  intros [= <-]. rewrite negb_true_iff, !orb_false_iff, !Z.eqb_neq in H1.
  split_and!; try tauto. intros -> Hr. destruct r as [|c r]; [done|]. simpl in Hr.
  injection Hr as ->. done.
Qed.

Lemma demo_kernel_tame ps ms t w :
  Forall (fun p => exists i code st caps, p = demo_proc i code st caps /\ tame_codeb code = true /\ caps = []) ps ->
  tame (demo_kernel ps ms t w).
Proof.
  intros HF i p Hp Ha. apply demo_kernel_active in Hp; [|done].
  destruct (Forall_lookup_1 _ _ _ _ HF Hp) as (j & code & st & caps & -> & Ht & ->).
  split; [split_and!; eauto; done|]. intros b [= <-]. split; [by apply tame_codeb_ok|left].
  unfold grants, cap_list. cbn. by intros [?%not_elem_of_nil|?%not_elem_of_nil].
Qed.

(** Discharge the hypotheses of [demo_kernel_wf] and [demo_kernel_tame] by
    evaluation. *)
Ltac demo_wf :=
  apply demo_kernel_wf;
  [ repeat (apply Forall_cons_2; [by apply demo_proc_wf|]); apply Forall_nil_2
  | repeat (apply Forall_cons_2; [unfold message_ok, byte_ok; simpl; lia|]); apply Forall_nil_2
  | done | done | done ].

Ltac demo_tame :=
  apply demo_kernel_tame;
  repeat (apply Forall_cons_2; [by eexists _, _, _, _|]); apply Forall_nil_2.
