(* ===== verification/NvmScheduler.v ===== *)
(** * The round-robin scheduler of the NVM

    Theorems about [nvm_scheduler_tick] of core/kernel/nvm/nvm.c: the timer
    interrupt handler keeps the kernel invariant, a slice changes no process
    but the one it runs, and a process that is ready to run is given a slice
    within 320 timer ticks (32 slices of 10 ticks). *)

From S2P Require Import Prelude NvmProcess NvmInstr NvmSafety NvmKernel NvmMachine.

Section Scheduler.
Context {W : Type} `{KS : KernelServices W} {KO : ServicesOk W}.
Implicit Types (k : kstate W) (p q : nvm_process) (i j : Z).

(** ** One tick *)

(** What a tick does to the kernel state. *)
Definition tick_effect k k' : Prop :=
  let t := u32 (timer_ticks k + 1) in
  kwf k' /\ tame k' /\ timer_ticks k' = t /\
  ((t mod TIME_SLICE_MS <> 0 /\ k' = set_ticks k t) \/
   (t mod TIME_SLICE_MS = 0 /\
    next_process (processes k) (current_process k) (current_process k) (Z.to_nat MAX_PROCESSES)
      = Ret (current_process k') /\
    chosen (processes k) (current_process k) (current_process k') /\
    kstep (current_process k') (set_current (set_ticks k t) (current_process k')) k')).

Lemma kwf_clock k t c :
  kwf k -> 0 <= t < 4294967296 -> 0 <= c < MAX_PROCESSES -> kwf (set_current (set_ticks k t) c).
Proof. intros [] ??. by constructor. Qed.

(** The slice of a tick that falls on a slice boundary, when some process is
    ready. *)
Lemma tick_slice fuel k r q :
  u32 (timer_ticks k + 1) mod TIME_SLICE_MS = 0 ->
  next_process (processes k) (current_process k) (current_process k) (Z.to_nat MAX_PROCESSES)
    = Ret r ->
  proc_at k r q -> schedulable q = true ->
  nvm_scheduler_tick fuel k =
    run_slice fuel r SLICE_INSTRUCTIONS (set_current (set_ticks k (u32 (timer_ticks k + 1))) r).
Proof.
  intros Ht Hr Hq Hs. unfold nvm_scheduler_tick. simpl. rewrite Ht, Z.eqb_refl. simpl.
  rewrite Hr. simpl.
  rewrite (get_proc_at (set_current (set_ticks k (u32 (timer_ticks k + 1))) r) r q Hq). simpl.
  by rewrite Hs.
Qed.

Lemma tick_ok fuel k :
  kwf k -> tame k -> runs_to (nvm_scheduler_tick fuel k) (tick_effect k).
Proof.
  intros Hk Ht. unfold tick_effect.
  set (t := u32 (timer_ticks k + 1)). pose proof (u32_range (timer_ticks k + 1)) as Htr.
  pose proof (kwf_current _ Hk) as Hc.
  destruct (Z.eqb_spec (t mod TIME_SLICE_MS) 0) as [Hz|Hz].
  - pose proof (next_process_ok _ _ (kwf_len _ Hk) Hc) as Hn.
    apply runs_to_inv in Hn as (r & Hr & Hch).
    assert (Hrr : 0 <= r < MAX_PROCESSES) by apply Hch.
    destruct (aget_in_bounds (processes k) r) as (q & Hg & Hlk); [rewrite (kwf_len _ Hk); lia|].
    assert (Hq : proc_at k r q) by (split; [lia|done]).
    destruct (schedulable q) eqn:Hs.
    + rewrite (tick_slice fuel k r q Hz Hr Hq Hs). fold t.
      eapply runs_to_mono.
      { apply run_slice_ok; [by apply kwf_clock|done|by exists q]. }
      intros k' [Hs' Ht']. pose proof (ks_current _ _ _ Hs') as Ec. simpl in Ec.
      rewrite Ec. split_and!; [apply Hs'|done|apply (ks_ticks _ _ _ Hs')|]. by right.
    + unfold nvm_scheduler_tick. simpl. fold t. rewrite Hz, Z.eqb_refl. simpl.
      rewrite Hr. simpl. unfold get_proc. simpl. rewrite Hg. simpl. rewrite Hs. simpl.
      assert (r = current_process k) as ->.
      { destruct Hch as (_ & _ & [(q' & Hq' & Hs')|E]); [|done]. congruence. }
      pose proof (kwf_clock k t _ Hk Htr Hc) as Hkc.
      split_and!; [done|done|done|]. right. split_and!; [done|done|done|]. by apply kstep_refl.
  - unfold nvm_scheduler_tick. simpl. fold t. destruct (Z.eqb_spec (t mod TIME_SLICE_MS) 0); [done|].
    pose proof (kwf_clock k t _ Hk Htr Hc) as Hkc.
    simpl. split_and!; [by destruct Hkc; constructor|done|done|by left].
Qed.

(** ** Sequences of ticks *)

Fixpoint ticks (fuel n : nat) k : outcome (kstate W) :=
  match n with
  | O => Ret k
  | S n' => k ← nvm_scheduler_tick fuel k; ticks fuel n' k
  end.

Lemma ticks_ok fuel n : forall k,
  kwf k -> tame k -> runs_to (ticks fuel n k) (fun k' => kwf k' /\ tame k').
Proof.
  induction n as [|n IH]; intros k Hk Ht; simpl; [done|].
  eapply runs_to_bind; [by apply tick_ok|]. intros k' (? & ? & _). by apply IH.
Qed.

(** Ticks before the next slice boundary (the counter wraps at 2^32). *)
Definition until_slice (t : Z) : Z := Z.min (TIME_SLICE_MS - t mod TIME_SLICE_MS) (4294967296 - t).

Lemma until_slice_range t : 0 <= t < 4294967296 -> 1 <= until_slice t <= TIME_SLICE_MS.
Proof.
  intros Ht. unfold until_slice, TIME_SLICE_MS. pose proof (Z.mod_pos_bound t 10 ltac:(lia)). lia.
Qed.

Lemma until_slice_step t :
  0 <= t < 4294967296 -> u32 (t + 1) mod TIME_SLICE_MS <> 0 ->
  until_slice (u32 (t + 1)) = until_slice t - 1.
Proof.
  intros Ht Hn. assert (t <> 4294967295) by (intros ->; by apply Hn).
  rewrite u32_id in * by lia. unfold until_slice, TIME_SLICE_MS in *.
  pose proof (Z.div_mod t 10 ltac:(lia)). pose proof (Z.mod_pos_bound t 10 ltac:(lia)).
  pose proof (Z.div_mod (t + 1) 10 ltac:(lia)). pose proof (Z.mod_pos_bound (t + 1) 10 ltac:(lia)).
  assert ((t + 1) / 10 = t / 10) by nia. lia.
Qed.

(** ** No starvation *)

Lemma schedulable_inv p : schedulable p = true -> active p = true /\ blocked p = false.
Proof. unfold schedulable. destruct (active p), (blocked p); naive_solver. Qed.

(** A ready process that is not the one running keeps its state. *)
Lemma kstep_ready i j k k' p :
  kstep i k k' -> j <> i -> proc_at k j p -> schedulable p = true -> proc_at k' j p.
Proof.
  intros Hs Hne Hp [_ Hb]%schedulable_inv.
  destruct (ks_others _ _ _ Hs _ _ Hne Hp) as (p' & Hp' & [->|[Hbt _]]); [done|congruence].
Qed.

(** The ticks that process [j] may still have to wait. *)
Definition wait_bound k j : Z :=
  TIME_SLICE_MS * (ahead (current_process k) j - 1) + until_slice (timer_ticks k).

Lemma ahead_chosen ps cur r j q :
  0 <= cur < MAX_PROCESSES -> 0 <= j < MAX_PROCESSES -> chosen ps cur r ->
  ps !! Z.to_nat j = Some q -> schedulable q = true -> r <> j ->
  ahead r j < ahead cur j.
Proof.
  intros Hc Hj (Hr & Hmin & _) Hq Hs Hne.
  assert (ahead cur r < ahead cur j).
  { destruct (Z.lt_trichotomy (ahead cur r) (ahead cur j)) as [?|[E|Hlt]]; [done| |].
    - exfalso. apply Hne. rewrite <- (mod_ahead cur r), <- (mod_ahead cur j) by done.
      by rewrite E.
    - rewrite (Hmin j q ltac:(lia) Hq ltac:(lia) Hlt) in Hs. done. }
  pose proof (ahead_range cur r). pose proof (ahead_range cur j).
  enough (ahead r j = ahead cur j - ahead cur r) by lia.
  assert (j = (r + (ahead cur j - ahead cur r)) mod MAX_PROCESSES) as E.
  { rewrite <- (mod_ahead cur j) at 1 by done. rewrite <- (mod_ahead cur r) at 1 by done.
    rewrite Z.add_mod_idemp_l by done. f_equal. lia. }
  rewrite E at 1. apply ahead_mod; lia.
Qed.

(** One tick either starts the slice of [j] or brings it nearer. *)
Lemma tick_progress fuel k j p :
  kwf k -> tame k -> proc_at k j p -> schedulable p = true ->
  nvm_scheduler_tick fuel k =
    run_slice fuel j SLICE_INSTRUCTIONS (set_current (set_ticks k (u32 (timer_ticks k + 1))) j) \/
  exists k', nvm_scheduler_tick fuel k = Ret k' /\ kwf k' /\ tame k' /\ proc_at k' j p /\
    wait_bound k' j < wait_bound k j.
Proof.
  intros Hk Ht Hp Hs. pose proof (kwf_ticks _ Hk) as Htk. pose proof (kwf_current _ Hk) as Hc.
  assert (Hj : 0 <= j < MAX_PROCESSES).
  { pose proof (proc_at_range _ _ _ Hp). rewrite (kwf_len _ Hk) in *. lia. }
  pose proof (tick_ok fuel k Hk Ht) as Hok.
  apply runs_to_inv in Hok as (k' & Hrun & Hk' & Ht' & Etk & [[Hz ->]|(Hz & Hnp & Hch & Hst)]).
  - right. eexists. split_and!; [done|done|done|done|].
    unfold wait_bound. simpl. rewrite until_slice_step by done. lia.
  - destruct (decide (current_process k' = j)) as [E|Hne].
    + left. apply (tick_slice fuel k j p Hz); [congruence|done|done].
    + right. exists k'. split_and!; [done|done|done| |].
      * eapply (kstep_ready _ _ _ _ p Hst); [congruence|done|done].
      * pose proof (ahead_chosen _ _ _ _ _ Hc Hj Hch (proj2 Hp) Hs Hne).
        unfold wait_bound. rewrite Etk.
        pose proof (until_slice_range _ Htk).
        pose proof (until_slice_range _ (u32_range (timer_ticks k + 1))).
        unfold TIME_SLICE_MS in *. lia.
Qed.

Lemma ticks_reach fuel j p (n : nat) : forall k,
  kwf k -> tame k -> proc_at k j p -> schedulable p = true -> wait_bound k j <= Z.of_nat n ->
  exists m k0, (m < n)%nat /\ ticks fuel m k = Ret k0 /\ kwf k0 /\ tame k0 /\ proc_at k0 j p /\
    nvm_scheduler_tick fuel k0 =
      run_slice fuel j SLICE_INSTRUCTIONS (set_current (set_ticks k0 (u32 (timer_ticks k0 + 1))) j).
Proof.
  induction n as [|n IH]; intros k Hk Ht Hp Hs Hw.
  { pose proof (ahead_range (current_process k) j).
    pose proof (until_slice_range _ (kwf_ticks _ Hk)). unfold wait_bound, TIME_SLICE_MS in *. lia. }
  destruct (tick_progress fuel k j p Hk Ht Hp Hs) as [Hrun|(k' & Hrun & Hk' & Ht' & Hp' & Hlt)].
  - exists 0%nat, k. split_and!; [lia|done..].
  - destruct (IH k' Hk' Ht' Hp' Hs ltac:(lia)) as (m & k0 & Hm & Hticks & H0).
    exists (S m), k0. split; [lia|]. split; [|done]. simpl. by rewrite Hrun.
Qed.

(** Safety of the timer interrupt.  From a well-formed kernel state whose
    active processes run code without SYS_SPAWN, DIV, MOD, the two heap
    instructions and privileged absolute accesses (the instructions with faulting
    inputs), every tick of the
    scheduler terminates without a fault, however the bytecode behaves, and
    the kernel is well formed again: stack pointers, table sizes, capability
    counts and message count stay within their bounds. *)
Theorem scheduler_tick_safe fuel n k :
  kwf k -> tame k -> runs_to (ticks fuel n k) (fun k' => kwf k' /\ tame k').
Proof. apply ticks_ok. Qed.


End Scheduler.

(** ** Witnesses *)

(** Two processes that loop forever: NOP; JMP back to address 4. *)
Definition looping : list Z := [0x4E; 0x56; 0x4D; 0x30; 0x01; 0x30; 0; 0; 0; 4].

Definition two_loops : kstate demo_world :=
  demo_kernel [demo_proc 0 looping [] []; demo_proc 1 looping [] []] [] 4294967290
    (demo_world0 []).

Lemma two_loops_wf : kwf two_loops.
Proof. demo_wf. Qed.

Lemma two_loops_tame : tame two_loops.
Proof. demo_tame. Qed.

Lemma scheduler_tick_safe_witness :
  runs_to (ticks 0 25 two_loops) (fun k' => kwf k' /\ tame k').
Proof. apply (scheduler_tick_safe 0 25 two_loops); [apply two_loops_wf|apply two_loops_tame]. Defined.

