(* ===== verification/NvmProperties.v ===== *)
(** * What the NVM guarantees to the rest of the kernel

    Isolation of processes, confinement by capabilities and the refinement of
    the message array by a queue, with the inputs on which the bounds of the
    runtime do not hold. *)

From S2P Require Import Prelude NvmProcess NvmInstr NvmSafety NvmKernel NvmMachine.

Section Properties.
Context {W : Type} `{KS : KernelServices W} {KO : ServicesOk W}.
Implicit Types (k : kstate W) (p q : nvm_process) (i j : Z).

(** ** Isolation *)

(** C1. Safety and isolation of an instruction.  The instruction must not be one
    of those that [safe_instruction] excludes: DIV and MOD on the operands that trap,
    a heap access whose bound wraps, SYS_SPAWN, and LOAD_ABS and STORE_ABS of a
    process that holds CAP_DRV_ACCESS (it can reach the tables of the kernel).  The
    services of the other subsystems are assumed to return, as [ServicesOk] says.
    Then an instruction of a mapped, active process terminates without a fault, keeps
    every kernel table well formed, keeps the identity and the capabilities of the
    process, and leaves every other process exactly as it was or, when that one
    waited for a message, woken up; [false] is returned only for a process that is no
    longer active. *)
Theorem instruction_isolated fuel k i p :
  kwf k -> proc_at k i p -> mapped p -> active p = true -> safe_instruction p ->
  runs_to (nvm_execute_instruction fuel i k) (fun '(k', cont) => kstep i k k' /\
    (cont = false -> exists p', proc_at k' i p' /\ active p' = false)).
Proof. apply execute_instruction_ok. Qed.

(** ** Confinement *)

(** The capability a system call asks for. *)
Definition required_cap (id : Z) : option Z :=
  if (id =? 0x02) || (id =? 0x03) then Some CAP_FS_READ
  else if id =? 0x04 then Some CAP_FS_WRITE
  else if id =? 0x06 then Some CAP_FS_DELETE
  else if (id =? 0x0C) || (id =? 0x0D) then Some CAP_DRV_ACCESS
  else None.

Ltac refused Hn := rewrite bool_decide_eq_false_2 by exact Hn; reflexivity.

Lemma syscall_refused fuel id cap k i p :
  kwf k -> proc_at k i p -> required_cap id = Some cap -> ~ grants p cap ->
  syscall_handler fuel id i k = Ret (k, -1).
Proof.
  intros Hk Hp Hid Hn. pose proof (proc_at_wf _ _ _ Hk Hp) as Hw. revert Hid.
  unfold required_cap, syscall_handler.
  repeat match goal with |- context [id =? ?n] => destruct (Z.eqb_spec id n) as [->|] end;
    simpl; try done; intros [= <-];
    unfold sys_open, sys_read, sys_write, sys_delete, sys_port_in, sys_port_out;
    rewrite (get_proc_at _ _ _ Hp); simpl; rewrite (caps_has_capability_spec _ _ Hw); simpl;
    refused Hn.
Qed.

(** A guarded system call (OPEN, READ, WRITE, DELETE, PORT_IN, PORT_OUT)
    of a process that holds neither the required capability nor CAP_ALL
    returns -1 and changes nothing at all: no process, no message, no file and
    no port. *)
Theorem guarded_syscall_refused fuel id cap k i p :
  kwf k -> proc_at k i p -> required_cap id = Some cap -> ~ grants p cap ->
  syscall_handler fuel id i k = Ret (k, -1).
Proof. apply syscall_refused. Qed.

(** A computation that does not use the world: in any other world it does the same
    to the tables, and leaves that world as it is. *)
Definition blind {A} (m : kstate W -> outcome (kstate W * A)) k : Prop :=
  forall w, m (set_world k w) = '(k', r) ← m k; Ret (set_world k' w, r).

(** Both runs make the same case distinctions. *)
Ltac same_run :=
  repeat match goal with
  | |- context [aget ?x ?y] => destruct (aget x y); cbn [mbind outcome_bind]
  | |- context [aset ?x ?y ?z] => destruct (aset x y z); cbn [mbind outcome_bind]
  | |- context [queue_shift ?x ?y ?z] => destruct (queue_shift x y z); cbn [mbind outcome_bind]
  | |- context [if ?b then _ else _] => destruct b; cbn [mbind outcome_bind]
  | |- context [match ?o with Some _ => _ | None => _ end] => destruct o; cbn [mbind outcome_bind]
  end; try reflexivity.

Lemma on_proc_blind h i k : blind (on_proc h i) k.
Proof.
  intros w. unfold on_proc, get_proc, put_proc. cbn [processes set_world].
  destruct (aget (processes k) i) as [p| |]; cbn [mbind outcome_bind]; [|done..].
  destruct (h p) as [[p' c]| |]; cbn [mbind outcome_bind]; [|done..]. by destruct (aset (processes k) i p').
Qed.

Lemma blind_world {A} (m : kstate W -> outcome (kstate W * A)) k k' r :
  blind m k -> m k = Ret (k', r) -> forall w, m (set_world k w) = Ret (set_world k' w, r).
Proof. intros Hb E w. by rewrite Hb, E. Qed.

Lemma blind_keeps {A} (m : kstate W -> outcome (kstate W * A)) k k' r :
  blind m k -> m k = Ret (k', r) -> world k' = world k.
Proof.
  intros Hb E. pose proof (blind_world m k k' r Hb E (world k)) as H.
  assert (set_world k (world k) = k) as Ek by by destruct k. rewrite Ek, E in H. injection H as H. by rewrite H.
Qed.

(** A process without access to files and devices. *)
Definition unprivileged p : Prop :=
  ~ grants p CAP_FS_READ /\ ~ grants p CAP_FS_WRITE /\ ~ grants p CAP_FS_DELETE /\
  ~ grants p CAP_DRV_ACCESS.

Lemma required_cap_unprivileged id cap p :
  unprivileged p -> required_cap id = Some cap -> ~ grants p cap.
Proof.
  intros (?&?&?&?). unfold required_cap.
  repeat match goal with |- context [id =? ?n] => destruct (Z.eqb_spec id n) end;
    simpl; intros [=]; subst; done.
Qed.

Lemma msg_send_blind i k : blind (sys_msg_send i) k.
Proof.
  intros w. unfold sys_msg_send, get_proc, put_proc. cbn [processes set_world message_count message_queue set_messages set_processes].
  same_run.
Qed.

Lemma msg_receive_blind i k : blind (sys_msg_receive i) k.
Proof.
  intros w. unfold sys_msg_receive, get_proc, put_proc. cbn [processes set_world message_count message_queue set_messages set_processes].
  same_run.
Qed.

Lemma syscall_blind fuel id k i p :
  kwf k -> proc_at k i p -> unprivileged p -> id <> 0 /\ id <> 1 /\ id <> 0x0E -> blind (syscall_handler fuel id i) k.
Proof.
  intros Hk Hp Hu (? & ? & ?) w. destruct (required_cap id) as [cap|] eqn:Hcap.
  { pose proof (required_cap_unprivileged id cap p Hu Hcap) as Hn.
    rewrite (syscall_refused fuel id cap k i p Hk Hp Hcap Hn). cbn [mbind outcome_bind].
    apply (syscall_refused fuel id cap (set_world k w) i p); [by destruct Hk; constructor|done|done|done]. }
  revert Hcap. unfold required_cap, syscall_handler.
  destruct (Z.eqb_spec id 0x0A) as [->|]; [intros _; apply msg_send_blind|].
  destruct (Z.eqb_spec id 0x0B) as [->|]; [intros _; apply msg_receive_blind|].
  repeat match goal with |- context [id =? ?n] =>
    destruct (Z.eqb_spec id n); [first [lia | simpl; discriminate | simpl; by intros]|] end.
  intros _. unfold sys_unknown, get_proc, put_proc. cbn [processes set_world]. same_run.
Qed.

Lemma handle_syscall_confined fuel k i p :
  kwf k -> proc_at k i p -> mapped p -> unprivileged p ->
  (forall id, code_at p (ip p) = Some id -> id <> 0 /\ id <> 1 /\ id <> 0x0E) ->
  blind (handle_syscall fuel i) k.
Proof.
  intros Hk Hp Hm Hu Hid w. pose proof (proc_at_wf _ _ _ Hk Hp) as Hw.
  unfold handle_syscall. rewrite (get_proc_at _ _ _ Hp), (get_proc_at (set_world k w) _ _ Hp). cbn [mbind outcome_bind].
  destruct (Z.ltb_spec (ip p) (psize p)); [|done].
  destruct (fetch8_value _ Hw Hm ltac:(done)) as (id & Hc & _ & ->). cbn [mbind outcome_bind].
  rewrite (put_proc_ok k i p _ Hp), (put_proc_ok (set_world k w) i p _ Hp). cbn [mbind outcome_bind].
  set (k1 := set_processes k _).
  assert (Hp1 : proc_at k1 i (set_ip p (ip p + 1))) by by apply (proc_at_put_eq k i p).
  assert (Hk1 : kwf k1).
  { apply kwf_put; [done|]. apply proc_wf_set_ip; [done|]. pose proof (wf_ip _ Hw). pose proof (wf_size _ Hw). lia. }
  change (set_processes (set_world k w) _) with (set_world k1 w).
  rewrite (syscall_blind fuel id k1 i _ Hk1 Hp1 Hu (Hid _ Hc) w).
  by destruct (syscall_handler fuel id i k1) as [[k2 r]| |].
Qed.

Lemma abs_blind k i p h :
  kwf k -> proc_at k i p -> ~ grants p CAP_DRV_ACCESS -> h = handle_load_abs \/ h = handle_store_abs -> blind (h i) k.
Proof.
  intros Hk Hp Hn Hh w. rewrite (abs_refused k i p h Hk Hp Hn Hh).
  by rewrite (abs_refused (set_world k w) i p h ltac:(by destruct Hk; constructor) Hp Hn Hh).
Qed.

(** The opcode at [ip] and, for SYSCALL, its number, other than EXIT, SPAWN
    and PRINT, which release or create a process whoever calls them. *)
Definition no_process_call p : Prop :=
  code_at p (ip p) = Some 0x50 ->
  forall id, code_at p (ip p + 1) = Some id -> id <> 0 /\ id <> 1 /\ id <> 0x0E.

Lemma table_confined fuel op h k i p :
  instruction_table fuel op = Some h ->
  kwf k -> proc_at k i p -> mapped p -> unprivileged p ->
  (op = 0x50 -> forall id, code_at p (ip p) = Some id -> id <> 0 /\ id <> 1 /\ id <> 0x0E) ->
  blind (h i) k.
Proof.
  intros Hh Hk Hp Hm Hu Hid. revert Hh. unfold instruction_table.
  repeat match goal with |- (if op =? ?n then _ else _) = _ -> _ =>
    destruct (Z.eqb_spec op n); [intros [= <-]; try apply on_proc_blind|] end; try done.
  - apply (abs_blind k i p); [done|done|apply Hu|by left].
  - apply (abs_blind k i p); [done|done|apply Hu|by right].
  - by apply (handle_syscall_confined fuel k i p Hk Hp Hm Hu (Hid ltac:(done))).
Qed.

Lemma instruction_blind fuel k i p :
  kwf k -> proc_at k i p -> mapped p -> unprivileged p -> no_process_call p -> blind (nvm_execute_instruction fuel i) k.
Proof.
  intros Hk Hp Hm Hu Hno w. pose proof (proc_at_wf _ _ _ Hk Hp) as Hw.
  unfold nvm_execute_instruction. rewrite (get_proc_at _ _ _ Hp), (get_proc_at (set_world k w) _ _ Hp). cbn [mbind outcome_bind].
  destruct (Z.leb_spec (psize p) (ip p)).
  { by rewrite (put_proc_ok k i p _ Hp), (put_proc_ok (set_world k w) i p _ Hp). }
  destruct (fetch8_value _ Hw Hm ltac:(done)) as (op & Hc & _ & ->). cbn [mbind outcome_bind].
  rewrite (put_proc_ok k i p _ Hp), (put_proc_ok (set_world k w) i p _ Hp). cbn [mbind outcome_bind].
  set (k1 := set_processes k _). change (set_processes (set_world k w) _) with (set_world k1 w).
  destruct (instruction_table fuel op) as [h|] eqn:Hh; [|done].
  apply (table_confined fuel op h k1 i (set_ip p (ip p + 1)) Hh).
  - apply kwf_put; [done|]. apply proc_wf_set_ip; [done|]. pose proof (wf_ip _ Hw). pose proof (wf_size _ Hw). lia.
  - by apply (proc_at_put_eq k i p).
  - done.
  - apply Hu.
  - intros ->. by apply Hno.
Qed.


(** ** Messages: the array refines a queue *)

(** The messages waiting, oldest first. *)
Definition queue k : list message := take (Z.to_nat (message_count k)) (message_queue k).

Lemma queue_len k : kwf k -> len (queue k) = message_count k.
Proof.
  intros Hk. pose proof (kwf_count _ Hk). pose proof (kwf_queue_len _ Hk).
  unfold queue, len in *. rewrite length_take. lia.
Qed.

Lemma queue_snoc k m :
  kwf k -> message_count k < MAX_MESSAGES ->
  queue (set_messages k (<[Z.to_nat (message_count k) := m]> (message_queue k))
           (message_count k + 1)) = queue k ++ [m].
Proof.
  intros Hk Hc. pose proof (kwf_count _ Hk). pose proof (kwf_queue_len _ Hk).
  unfold queue, len in *. simpl.
  replace (Z.to_nat (message_count k + 1)) with (S (Z.to_nat (message_count k))) by lia.
  rewrite (take_S_r _ _ m) by (apply list_lookup_insert_eq; lia).
  by rewrite take_insert_ge by lia.
Qed.

Lemma wakeup_lookup rcp ps (j : nat) q :
  ps !! j = Some q ->
  exists q', wakeup rcp ps !! j = Some q' /\ stack q' = stack q /\ sp q' = sp q /\ pid q' = pid q.
Proof.
  intros Hq. destruct (wakeup_spec rcp ps) as [[-> _]|(j' & q0 & Hq0 & _ & _ & _ & ->)].
  { by exists q. }
  rewrite list_lookup_insert. case_decide as Hd; [|by exists q].
  destruct Hd as [-> _]. eexists. split; [done|]. simpl. naive_solver.
Qed.

Lemma msg_send_effect k i p r c :
  kwf k -> proc_at k i p -> 2 <= sp p ->
  stack p !! Z.to_nat (sp p - 2) = Some r -> stack p !! Z.to_nat (sp p - 1) = Some c ->
  len (queue k) < MAX_MESSAGES ->
  runs_to (sys_msg_send i k) (fun '(k', res) =>
    res = 0 /\ queue k' = queue k ++ [mkmsg (r mod 65536) (pid p) (c mod 256)] /\
    world k' = world k).
Proof.
  intros Hk Hp Hsp Hr Hc Hq. rewrite (queue_len _ Hk) in Hq. unfold sys_msg_send.
  rewrite (get_proc_at _ _ _ Hp). simpl. destruct (Z.ltb_spec (sp p) 2); [lia|].
  rewrite (aget_lookup _ (sp p - 2) r ltac:(lia) Hr), (aget_lookup _ (sp p - 1) c ltac:(lia) Hc). simpl.
  destruct (Z.leb_spec MAX_MESSAGES (message_count k)); [lia|].
  rewrite aset_in_bounds by (pose proof (kwf_count _ Hk); rewrite (kwf_queue_len _ Hk); lia). simpl.
  destruct Hp as [Hi Hp].
  destruct (wakeup_lookup (Z.land r 65535) _ _ _ Hp) as (q' & Hq' & _ & Hsq & _).
  unfold get_proc. simpl. rewrite (aget_lookup _ _ _ Hi Hq'). simpl.
  unfold put_proc. rewrite aset_in_bounds by (apply lookup_lt_Some in Hq'; unfold len; simpl; lia).
  simpl. split_and!; [done| |done].
  change (queue (set_messages k (<[Z.to_nat (message_count k) :=
      mkmsg (Z.land r (Z.ones 16)) (pid p) (Z.land c (Z.ones 8))]> (message_queue k))
     (message_count k + 1)) = queue k ++ [mkmsg (r mod 65536) (pid p) (c mod 256)]).
  rewrite !Z.land_ones by lia. by apply queue_snoc.
Qed.

Lemma queue_shift_spec n : forall (q : list message) j,
  0 <= j -> j + Z.of_nat n < len q ->
  runs_to (queue_shift q j n) (fun q' : list message =>
    take (Z.to_nat j + n) q' = take (Z.to_nat j) q ++ take n (drop (S (Z.to_nat j)) q)).
Proof.
  induction n as [|n IH]; intros q j Hj Hn; cbn [queue_shift].
  { simpl. by rewrite Nat.add_0_r, app_nil_r. }
  destruct (aget_in_bounds q (j + 1)) as (m & -> & Hm); [lia|]. cbn [mbind outcome_bind].
  rewrite aset_in_bounds by lia. cbn [mbind outcome_bind].
  eapply runs_to_mono; [apply IH; rewrite ?len_insert; lia|].
  intros q' Ht. replace (Z.to_nat (j + 1)) with (S (Z.to_nat j)) in * by lia.
  replace (Z.to_nat j + S n)%nat with (S (Z.to_nat j) + n)%nat by lia. rewrite Ht.
  rewrite (take_S_r _ _ m) by (apply list_lookup_insert_eq; unfold len in *; lia).
  rewrite take_insert_ge, drop_insert_lt by lia.
  by rewrite (drop_S q m _ Hm), <- app_assoc.
Qed.

(** The slot and the counts of a message in the middle of the queue. *)
Lemma queue_middle k l1 m l2 :
  kwf k -> queue k = l1 ++ m :: l2 ->
  message_queue k !! Z.to_nat (len l1) = Some m /\ message_count k = len l1 + 1 + len l2.
Proof.
  intros Hk Hq. split.
  - assert (Hlm : queue k !! length l1 = Some m) by (rewrite Hq; by apply list_lookup_middle).
    unfold len. rewrite Nat2Z.id. unfold queue in Hlm. by apply lookup_take_Some in Hlm as [? _].
  - rewrite <- (queue_len _ Hk), Hq. unfold len. rewrite length_app. simpl. lia.
Qed.

Lemma queue_remove k l1 m l2 (ms : list message) :
  kwf k -> queue k = l1 ++ m :: l2 ->
  take (Z.to_nat (len l1) + Z.to_nat (message_count k - 1 - len l1)) ms =
    take (Z.to_nat (len l1)) (message_queue k) ++
    take (Z.to_nat (message_count k - 1 - len l1)) (drop (S (Z.to_nat (len l1))) (message_queue k)) ->
  take (Z.to_nat (message_count k - 1)) ms = l1 ++ l2.
Proof.
  intros Hk Hq Hsh. destruct (queue_middle k l1 m l2 Hk Hq) as [Hlm Hcnt].
  pose proof (kwf_count _ Hk). pose proof (kwf_queue_len _ Hk). unfold len in *.
  replace (Z.to_nat (message_count k - 1))
    with (Z.to_nat (Z.of_nat (length l1)) +
          Z.to_nat (message_count k - 1 - Z.of_nat (length l1)))%nat by lia.
  rewrite Hsh. unfold queue in Hq.
  rewrite (take_app_drop_middle (message_queue k) (Z.to_nat (Z.of_nat (length l1)))
             (Z.to_nat (message_count k)) m) in Hq by (done || lia).
  apply app_inj_1 in Hq as [-> [= <-]]; [|rewrite length_take; lia].
  f_equal. f_equal. lia.
Qed.

Lemma first_message k i p l1 m l2 :
  proc_at k i p -> queue k = l1 ++ m :: l2 ->
  Forall (fun m' => recipient m' <> pid p) l1 -> recipient m = pid p ->
  first_index (fun m => recipient m =? pid p)
    (take (Z.to_nat (message_count k)) (message_queue k)) = Some (len l1).
Proof.
  intros Hp Hq H1 Hm. fold (queue k). rewrite Hq. apply first_index_app; [|by rewrite Hm, Z.eqb_refl].
  eapply Forall_impl; [exact H1|]. intros m' Hm'. by apply Z.eqb_neq.
Qed.

Lemma msg_receive_effect k i p l1 m l2 :
  kwf k -> proc_at k i p -> queue k = l1 ++ m :: l2 ->
  Forall (fun m' => recipient m' <> pid p) l1 -> recipient m = pid p ->
  sp p + 1 < STACK_SIZE ->
  runs_to (sys_msg_receive i k) (fun '(k', res) =>
    res = 0 /\ queue k' = l1 ++ l2 /\ world k' = world k /\
    exists p', proc_at k' i p' /\ sp p' = sp p + 2 /\
      stack p' !! Z.to_nat (sp p) = Some (sender m) /\
      stack p' !! Z.to_nat (sp p + 1) = Some (content m)).
Proof.
  intros Hk Hp Hq H1 Hm Hsp. unfold sys_msg_receive.
  rewrite (get_proc_at _ _ _ Hp). cbn [mbind outcome_bind].
  rewrite (first_message k i p l1 m l2 Hp Hq H1 Hm).
  pose proof (proc_at_wf _ _ _ Hk Hp) as Hw. pose proof (wf_sp _ Hw). pose proof (wf_stack_len _ Hw).
  destruct (Z.leb_spec STACK_SIZE (sp p + 1)); [lia|].
  pose proof (queue_len _ Hk) as Hql. pose proof (kwf_count _ Hk). pose proof (kwf_queue_len _ Hk).
  destruct (queue_middle k l1 m l2 Hk Hq) as [Hlm Hcnt].
  rewrite (aget_lookup _ (len l1) m ltac:(unfold len; lia) Hlm). cbn [mbind outcome_bind].
  eapply runs_to_bind; [apply queue_shift_spec; unfold len in *; lia|].
  intros q' Hsh. unfold STACK_SIZE in *.
  do 2 (rewrite aset_in_bounds by (rewrite ?len_insert; lia); cbn [mbind outcome_bind]).
  set (k1 := set_messages k q' _).
  rewrite (put_proc_ok k1 i p _ Hp). simpl. split_and!; [done| |done|].
  - by apply (queue_remove k l1 m l2).
  - eexists. split; [by apply (proc_at_put_eq k1 i p)|]. simpl. rewrite u16_id by lia.
    unfold len in *. split_and!; [done| |].
    + rewrite list_lookup_insert_ne, list_lookup_insert_eq by lia. done.
    + by rewrite list_lookup_insert_eq by (rewrite ?length_insert; lia).
Qed.

(** MSG_SEND refines the queue: with room, the message (16-bit recipient,
    sender's pid, 8-bit content) goes to the end of the queue and nothing
    outside the kernel changes; with 32 messages waiting the call returns -1
    and changes nothing. *)
Theorem message_send_refines k i p r c :
  kwf k -> proc_at k i p -> 2 <= sp p ->
  stack p !! Z.to_nat (sp p - 2) = Some r -> stack p !! Z.to_nat (sp p - 1) = Some c ->
  runs_to (sys_msg_send i k) (fun '(k', res) =>
    if len (queue k) <? MAX_MESSAGES
    then res = 0 /\ queue k' = queue k ++ [mkmsg (r mod 65536) (pid p) (c mod 256)] /\
         world k' = world k
    else res = -1 /\ k' = k).
Proof.
  intros Hk Hp Hsp Hr Hc. destruct (Z.ltb_spec (len (queue k)) MAX_MESSAGES) as [Hlt|Hge].
  { by eapply msg_send_effect. }
  rewrite (queue_len _ Hk) in Hge. unfold sys_msg_send. rewrite (get_proc_at _ _ _ Hp). simpl.
  destruct (Z.ltb_spec (sp p) 2); [lia|].
  rewrite (aget_lookup _ (sp p - 2) r ltac:(lia) Hr), (aget_lookup _ (sp p - 1) c ltac:(lia) Hc).
  simpl. by destruct (Z.leb_spec MAX_MESSAGES (message_count k)); [|lia].
Qed.

(** MSG_RECEIVE refines the queue: the oldest message addressed to the
    caller is removed, every other message stays in order, and its sender and
    content are pushed on the caller's stack. *)
Theorem message_receive_refines k i p l1 m l2 :
  kwf k -> proc_at k i p -> queue k = l1 ++ m :: l2 ->
  Forall (fun m' => recipient m' <> pid p) l1 -> recipient m = pid p ->
  sp p + 1 < STACK_SIZE ->
  runs_to (sys_msg_receive i k) (fun '(k', res) =>
    res = 0 /\ queue k' = l1 ++ l2 /\ world k' = world k /\
    exists p', proc_at k' i p' /\ sp p' = sp p + 2 /\
      stack p' !! Z.to_nat (sp p) = Some (sender m) /\
      stack p' !! Z.to_nat (sp p + 1) = Some (content m)).
Proof. apply msg_receive_effect. Qed.

Lemma receive_blocks k j q :
  proc_at k j q -> Forall (fun m => recipient m <> pid q) (queue k) ->
  sys_msg_receive j k =
    Ret (set_processes k (<[Z.to_nat j := set_blocked q true]> (processes k)), -1).
Proof.
  intros Hq Hnone. unfold sys_msg_receive. rewrite (get_proc_at _ _ _ Hq). cbn [mbind outcome_bind].
  assert (first_index (fun m => recipient m =? pid q)
            (take (Z.to_nat (message_count k)) (message_queue k)) = None) as ->.
  { apply first_index_None. eapply Forall_impl; [exact Hnone|]. intros m Hm. by apply Z.eqb_neq. }
  by rewrite (put_proc_ok _ _ _ _ Hq).
Qed.

(** No two slots carry the pid of slot [j]. *)
Definition pid_unique k j : Prop :=
  forall i p q, proc_at k j q -> proc_at k i p -> pid p = pid q -> i = j.

Lemma wakeup_target k j q :
  proc_at k j q -> active q = true -> blocked q = true -> pid_unique k j ->
  wakeup (pid q) (processes k) =
    <[Z.to_nat j := set_wakeup_reason (set_blocked q false) 1]> (processes k).
Proof.
  intros Hq Ha Hb Hu.
  destruct (wakeup_spec (pid q) (processes k)) as [[_ HF]|(j' & q' & Hq' & _ & Hpid & _ & ->)].
  - pose proof (Forall_lookup_1 _ _ _ _ HF (proj2 Hq)) as Hf. simpl in Hf.
    rewrite Ha, Hb, Z.eqb_refl in Hf. done.
  - assert (Z.of_nat j' = j) as <-.
    { apply (Hu _ q' q Hq); [|done]. split; [lia|by rewrite Nat2Z.id]. }
    destruct Hq as [_ Hq]. rewrite Nat2Z.id in *. naive_solver.
Qed.

Lemma send_wakes k i j p q r c :
  kwf k -> proc_at k i p -> i <> j -> 2 <= sp p ->
  stack p !! Z.to_nat (sp p - 2) = Some r -> stack p !! Z.to_nat (sp p - 1) = Some c ->
  len (queue k) < MAX_MESSAGES ->
  proc_at k j q -> active q = true -> blocked q = true -> pid_unique k j -> r mod 65536 = pid q ->
  runs_to (sys_msg_send i k) (fun '(k', res) => res = 0 /\
    proc_at k' j (set_wakeup_reason (set_blocked q false) 1)).
Proof.
  intros Hk Hp Hij Hsp Hr Hc Hlen Hq Ha Hb Hu Hrcp. rewrite (queue_len _ Hk) in Hlen.
  unfold sys_msg_send. rewrite (get_proc_at _ _ _ Hp). cbn [mbind outcome_bind].
  destruct (Z.ltb_spec (sp p) 2); [lia|].
  rewrite (aget_lookup _ (sp p - 2) r ltac:(lia) Hr), (aget_lookup _ (sp p - 1) c ltac:(lia) Hc).
  cbn [mbind outcome_bind]. destruct (Z.leb_spec MAX_MESSAGES (message_count k)); [lia|].
  rewrite aset_in_bounds by (pose proof (kwf_count _ Hk); rewrite (kwf_queue_len _ Hk); lia).
  cbn [mbind outcome_bind].
  change 0xFFFF with (Z.ones 16). rewrite Z.land_ones by lia. change (2 ^ 16) with 65536.
  rewrite Hrcp. set (k1 := set_messages k _ _).
  rewrite (wakeup_target k1 j q Hq Ha Hb Hu).
  set (k2 := set_processes k1 _).
  assert (Hp2 : proc_at k2 i p) by (apply (proc_at_put_ne k1 j q _ i p); done).
  assert (Hq2 : proc_at k2 j (set_wakeup_reason (set_blocked q false) 1))
    by (apply (proc_at_put_eq k1 j q); done).
  rewrite (get_proc_at _ _ _ Hp2). cbn [mbind outcome_bind].
  rewrite (put_proc_ok _ _ _ _ Hp2). cbn [mbind outcome_bind].
  split; [done|]. by apply (proc_at_put_ne k2 i p).
Qed.

(** Without a message for the caller, MSG_RECEIVE returns -1, blocks the
    caller and leaves the queue alone; the next MSG_SEND to its pid finds it,
    makes it schedulable again and records the reason. *)
Theorem message_block_wakeup k i j p q r c :
  kwf k -> proc_at k j q -> active q = true -> Forall (fun m => recipient m <> pid q) (queue k) ->
  pid_unique k j -> i <> j -> proc_at k i p -> 2 <= sp p ->
  stack p !! Z.to_nat (sp p - 2) = Some r -> stack p !! Z.to_nat (sp p - 1) = Some c ->
  r mod 65536 = pid q -> len (queue k) < MAX_MESSAGES ->
  exists k1, sys_msg_receive j k = Ret (k1, -1) /\ queue k1 = queue k /\
    proc_at k1 j (set_blocked q true) /\
    runs_to (sys_msg_send i k1) (fun '(k2, res) => res = 0 /\
      exists q', proc_at k2 j q' /\ schedulable q' = true /\ wakeup_reason q' = 1).
Proof.
  intros Hk Hq Ha Hnone Hu Hij Hp Hsp Hr Hc Hrcp Hlen.
  exists (set_processes k (<[Z.to_nat j := set_blocked q true]> (processes k))).
  pose proof (proc_at_put_eq k j q (set_blocked q true) Hq) as Hq1.
  split; [by apply receive_blocks|]. split; [done|]. split; [exact Hq1|].
  eapply runs_to_mono.
  - eapply (send_wakes _ i j p (set_blocked q true)); try done.
    + apply kwf_put; [done|]. by destruct (proc_at_wf _ _ _ Hk Hq); constructor.
    + by apply (proc_at_put_ne k j q).
    + intros i' p' q' Hq' Hp' Hpid. rewrite (proc_at_fun _ _ _ _ Hq' Hq1) in Hpid.
      destruct (decide (i' = j)) as [|Hne]; [done|]. apply (Hu i' p' q); [done| |done].
      destruct Hp' as [Hi' Hl]. simpl in Hl. split; [done|].
      destruct Hq. rewrite list_lookup_insert_ne in Hl by lia. done.
  - intros [k2 res] [-> Hq2]. split; [done|]. eexists. split; [exact Hq2|].
    split; [|done]. unfold schedulable. simpl. by rewrite Ha.
Qed.

(** Delivery: a message sent to a process that has none waiting is what
    its next MSG_RECEIVE returns, with the pid of the sender. *)
Theorem message_roundtrip k i j p q r c :
  kwf k -> proc_at k i p -> mapped p -> active p = true -> 2 <= sp p ->
  stack p !! Z.to_nat (sp p - 2) = Some r -> stack p !! Z.to_nat (sp p - 1) = Some c ->
  len (queue k) < MAX_MESSAGES ->
  i <> j -> proc_at k j q -> r mod 65536 = pid q -> sp q + 1 < STACK_SIZE ->
  Forall (fun m => recipient m <> pid q) (queue k) ->
  runs_to ('(k1, _) ← sys_msg_send i k; sys_msg_receive j k1) (fun '(k2, res) =>
    res = 0 /\ queue k2 = queue k /\
    exists q', proc_at k2 j q' /\ sp q' = sp q + 2 /\
      stack q' !! Z.to_nat (sp q) = Some (pid p) /\
      stack q' !! Z.to_nat (sp q + 1) = Some (c mod 256)).
Proof.
  intros Hk Hp Hm Ha Hsp Hr Hc Hlen Hij Hq Hrcp Hspq Hnone.
  eapply runs_to_bind.
  { apply runs_to_and; [by eapply msg_send_effect|by eapply sys_msg_send_ok]. }
  intros [k1 res] [(-> & Hqueue & _) Hs].
  destruct (ks_others _ _ _ Hs j q ltac:(done) Hq) as (q1 & Hq1 & Hu).
  assert (pid q1 = pid q /\ sp q1 = sp q) as [Epid Esp] by (destruct Hu as [->|[_ ->]]; done).
  eapply runs_to_mono.
  - eapply (msg_receive_effect k1 j q1 (queue k) _ []);
      [apply Hs|done|exact Hqueue|by rewrite Epid|by rewrite Epid|by rewrite Esp].
  - intros [k2 res] (-> & Hq2 & _ & q' & Hq' & H1 & H2 & H3). rewrite app_nil_r in Hq2.
    rewrite Esp in *. split_and!; [done|done|]. by exists q'.
Qed.

End Properties.

(** ** Witnesses *)

Lemma demo_proc_mapped i code st caps : mapped (demo_proc i code st caps).
Proof. split_and!; eauto; done. Qed.

(** Process 0 is about to run NOP; process 1 is about to run MSG_RECEIVE. *)
Definition talkers : kstate demo_world :=
  demo_kernel [demo_proc 0 [0x01; 0x50; 0x0A] [1; 321] []; demo_proc 1 [0x50; 0x0B] [] []]
    [mkmsg 7 3 9] 0 (demo_world0 []).

(** Process 0 is about to send a message to process 1, which is about to read
    physical memory without the capability for it. *)
Definition peeker : nvm_process := demo_proc 1 [0x44] [0x100000] [].
Definition sender_first : kstate demo_world :=
  demo_kernel [demo_proc 0 [0x50; 0x0A] [1; 321] []; peeker] [mkmsg 7 3 9] 0 (demo_world0 []).

Lemma sender_first_wf : kwf sender_first.
Proof. demo_wf. Qed.

Lemma talkers_wf : kwf talkers.
Proof. demo_wf. Qed.

Lemma talkers_at0 : proc_at talkers 0 (demo_proc 0 [0x01; 0x50; 0x0A] [1; 321] []).
Proof. split; [lia|reflexivity]. Qed.

Lemma talkers_at1 : proc_at talkers 1 (demo_proc 1 [0x50; 0x0B] [] []).
Proof. split; [lia|reflexivity]. Qed.

Lemma talkers_none : Forall (fun m => recipient m <> 1) (queue talkers).
Proof. by repeat constructor. Qed.

Lemma instruction_isolated_witness :
  exists k', nvm_execute_instruction 0 0 sender_first = Ret (k', true) /\ kstep 0 sender_first k' /\
    queue k' = [mkmsg 7 3 9; mkmsg 1 0 65] /\
    kstep 1 sender_first (set_processes sender_first (<[1%nat := terminate (set_ip peeker 1)]> (processes sender_first))).
Proof.
  destruct (nvm_execute_instruction 0 0 sender_first) as [[k' c]| |] eqn:E; [|vm_compute in E; done..].
  pose proof (instruction_isolated 0 sender_first 0 (demo_proc 0 [0x50; 0x0A] [1; 321] [])) as H.
  rewrite E in H. destruct H as [Hs _]; [apply sender_first_wf|split; [lia|reflexivity]|apply demo_proc_mapped|reflexivity| |].
  { intros op [= <-]. by vm_compute. }
  pose proof (instruction_isolated 0 sender_first 1 peeker) as H1.
  destruct H1 as [Hs1 _]; [apply sender_first_wf|split; [lia|reflexivity]|apply demo_proc_mapped|reflexivity| |].
  { intros op [= <-]. apply (bool_decide_unpack _). by vm_compute. }
  exists k'. assert (c = true /\ queue k' = [mkmsg 7 3 9; mkmsg 1 0 65]) as [-> Hq] by (vm_compute in E; injection E as <- <-; by vm_compute).
  split; [reflexivity|]. split; [exact Hs|]. split; [exact Hq|]. exact Hs1.
Defined.

Lemma guarded_syscall_refused_witness :
  syscall_handler 0 0x06 1 talkers = Ret (talkers, -1).
Proof.
  apply (guarded_syscall_refused 0 0x06 CAP_FS_DELETE talkers 1 (demo_proc 1 [0x50; 0x0B] [] []));
    [apply talkers_wf|apply talkers_at1|reflexivity|].
  apply (bool_decide_unpack _). vm_compute. exact I.
Defined.


Lemma message_send_refines_witness :
  runs_to (sys_msg_send 0 talkers) (fun '(k', res) =>
    if len (queue talkers) <? MAX_MESSAGES
    then res = 0 /\ queue k' = queue talkers ++ [mkmsg 1 0 65] /\ world k' = world talkers
    else res = -1 /\ k' = talkers).
Proof.
  apply (message_send_refines talkers 0 (demo_proc 0 [0x01; 0x50; 0x0A] [1; 321] []) 1 321);
    [apply talkers_wf|apply talkers_at0|vm_compute; discriminate|reflexivity|reflexivity].
Defined.

(** The queue holds a message for process 3 before the one for process 1. *)
Definition mailbox : kstate demo_world :=
  demo_kernel [demo_proc 0 [0x01] [] []; demo_proc 1 [0x50; 0x0B] [5] []]
    [mkmsg 3 0 9; mkmsg 1 2 77; mkmsg 1 2 78] 0 (demo_world0 []).

Lemma message_receive_refines_witness :
  runs_to (sys_msg_receive 1 mailbox) (fun '(k', res) =>
    res = 0 /\ queue k' = [mkmsg 3 0 9] ++ [mkmsg 1 2 78] /\ world k' = world mailbox /\
    exists p', proc_at k' 1 p' /\ sp p' = 1 + 2 /\
      stack p' !! Z.to_nat 1 = Some 2 /\ stack p' !! Z.to_nat (1 + 1) = Some 77).
Proof.
  apply (message_receive_refines mailbox 1 (demo_proc 1 [0x50; 0x0B] [5] [])
           [mkmsg 3 0 9] (mkmsg 1 2 77) [mkmsg 1 2 78]).
  - demo_wf.
  - split; [lia|reflexivity].
  - reflexivity.
  - by repeat constructor.
  - reflexivity.
  - vm_compute. reflexivity.
Defined.

Lemma demo_pid_unique ps ms t w j :
  (forall i p, ps !! i = Some p -> pid p = Z.of_nat i) ->
  pid_unique (demo_kernel ps ms t w) j.
Proof.
  intros Hps.
  assert (Hall : forall i p, proc_at (demo_kernel ps ms t w) i p -> pid p = i).
  { intros i p [Hi Hp]. simpl in Hp. apply lookup_app_Some in Hp as [Hp|[Hl Hp]].
    - rewrite (Hps _ _ Hp). lia.
    - apply list_lookup_fmap_Some in Hp as (x & -> & Hx). simpl.
      apply lookup_seqZ in Hx as [-> _]. unfold len. lia. }
  intros i p q Hq Hp. rewrite (Hall _ _ Hq), (Hall _ _ Hp). done.
Qed.

Lemma message_block_wakeup_witness :
  exists k1, sys_msg_receive 1 talkers = Ret (k1, -1) /\ queue k1 = queue talkers /\
    proc_at k1 1 (set_blocked (demo_proc 1 [0x50; 0x0B] [] []) true) /\
    runs_to (sys_msg_send 0 k1) (fun '(k2, res) => res = 0 /\
      exists q', proc_at k2 1 q' /\ schedulable q' = true /\ wakeup_reason q' = 1).
Proof.
  apply (message_block_wakeup talkers 0 1 (demo_proc 0 [0x01; 0x50; 0x0A] [1; 321] [])
           (demo_proc 1 [0x50; 0x0B] [] []) 1 321);
    [apply talkers_wf|apply talkers_at1|reflexivity|apply talkers_none| |lia|apply talkers_at0
    |vm_compute; discriminate|reflexivity|reflexivity|reflexivity|vm_compute; reflexivity].
  apply demo_pid_unique. intros [|[|i]] p [= <-]; reflexivity.
Defined.

Lemma message_roundtrip_witness :
  runs_to ('(k1, _) ← sys_msg_send 0 talkers; sys_msg_receive 1 k1) (fun '(k2, res) =>
    res = 0 /\ queue k2 = queue talkers /\
    exists q', proc_at k2 1 q' /\ sp q' = 0 + 2 /\
      stack q' !! Z.to_nat 0 = Some 0 /\ stack q' !! Z.to_nat (0 + 1) = Some 65).
Proof.
  apply (message_roundtrip talkers 0 1 (demo_proc 0 [0x01; 0x50; 0x0A] [1; 321] [])
           (demo_proc 1 [0x50; 0x0B] [] []) 1 321);
    [apply talkers_wf|apply talkers_at0|apply demo_proc_mapped|reflexivity
    |vm_compute; discriminate|reflexivity|reflexivity|vm_compute; reflexivity|lia
    |apply talkers_at1|reflexivity|vm_compute; reflexivity|apply talkers_none].
Defined.
