(* ===== verification/NvmLocal.v ===== *)
(** * Functional correctness of the NVM instructions and capabilities

    Process-level theorems: the results of the arithmetic unit in terms of
    integers, the round trips a compiler for the NVM relies on (heap, locals,
    call frames), the two families of inputs on which the runtime faults, and
    the algebra of the capability list. *)

From S2P Require Import Prelude NvmProcess NvmInstr NvmSafety NvmKernel NvmMachine.

(** ** Reading and writing the stack *)

(** The operands of a two-operand instruction: [a] below [b]. *)
Record operands (p : nvm_process) (a b : Z) : Prop := {
  op_depth : 2 <= sp p;
  op_second : stack p !! Z.to_nat (sp p - 2) = Some a;
  op_top : stack p !! Z.to_nat (sp p - 1) = Some b
}.

(** The process after a two-operand instruction with result [v]. *)
Definition result (p : nvm_process) (v : Z) : nvm_process :=
  set_sp (set_stack p (<[Z.to_nat (sp p - 2) := v]> (stack p))) (sp p - 1).

Section Local.
Implicit Types (p : nvm_process).

Lemma operands_i32 p a b : proc_wf p -> operands p a b -> i32_ok a /\ i32_ok b.
Proof.
  intros Hp [_ Ha Hb]. split; (eapply Forall_lookup_1; [apply (wf_stack _ Hp)|eassumption]).
Qed.

Lemma binary_result op p a b :
  proc_wf p -> operands p a b ->
  binary op p = (v ← op a b; Ret (result p v, true)).
Proof.
  intros Hp [Hd Ha Hb]. pose proof (wf_sp _ Hp). pose proof (wf_stack_len _ Hp).
  unfold STACK_SIZE in *. unfold binary, continue, result.
  destruct (Z.leb_spec 2 (sp p)); [|lia].
  rewrite (aget_lookup _ (sp p - 1) b), (aget_lookup _ (sp p - 2) a) by (done || lia).
  cbn [mbind outcome_bind]. destruct (op a b); [|done..]. cbn [mbind outcome_bind].
  rewrite aset_in_bounds by lia. cbn [mbind outcome_bind]. by rewrite u16_id by lia.
Qed.

Lemma binary_nz_result op p a b :
  proc_wf p -> operands p a b -> b <> 0 ->
  binary_nz op p = (v ← op a b; Ret (result p v, true)).
Proof.
  intros Hp Ho Hb. rewrite <- (binary_result op p a b Hp Ho). unfold binary_nz, binary.
  destruct Ho as [Hd Ha Hb']. destruct (Z.leb_spec 2 (sp p)); [|lia].
  rewrite (aget_lookup _ (sp p - 1) b), (aget_lookup _ (sp p - 2) a) by (done || lia).
  cbn [mbind outcome_bind]. by destruct (Z.eqb_spec b 0).
Qed.

Lemma shift_amount b : 0 <= Z.land b 31 < 32 /\ Z.land b 31 = b mod 32.
Proof.
  change 31 with (Z.ones 5). rewrite Z.land_ones by lia.
  split; [apply Z.mod_pos_bound; lia|done].
Qed.

Lemma i32_u32_id x : i32 (u32 x) = i32 x.
Proof.
  unfold i32, u32, wraps, wrapu. by rewrite Zplus_mod_idemp_l.
Qed.

Lemma i32_mod_pow x y : u32 x = u32 y -> i32 x = i32 y.
Proof. intros E. by rewrite <- (i32_u32_id x), <- (i32_u32_id y), E. Qed.

Lemma shl_value a b :
  i32_ok a ->
  (if Z.land b 31 =? 0 then a else i32 (u32 (Z.shiftl (u32 a) (Z.land b 31))))
  = i32 (a * 2 ^ (b mod 32)).
Proof.
  intros Ha. destruct (shift_amount b) as [Hr <-].
  destruct (Z.eqb_spec (Z.land b 31) 0) as [->|Hne].
  - rewrite Z.pow_0_r, Z.mul_1_r. by rewrite i32_id.
  - rewrite i32_u32_id, Z.shiftl_mul_pow2 by lia. apply i32_mod_pow.
    unfold u32, wrapu. by rewrite Zmult_mod_idemp_l.
Qed.

Lemma shr_value a b :
  i32_ok a ->
  (if Z.land b 31 =? 0 then a else i32 (Z.shiftr (u32 a) (Z.land b 31)))
  = i32 (u32 a / 2 ^ (b mod 32)).
Proof.
  intros Ha. destruct (shift_amount b) as [Hr <-].
  destruct (Z.eqb_spec (Z.land b 31) 0) as [->|Hne].
  - rewrite Z.pow_0_r, Z.div_1_r, i32_u32_id. by rewrite i32_id.
  - by rewrite Z.shiftr_div_pow2 by lia.
Qed.

Lemma sar_value a b :
  (if Z.land b 31 =? 0 then a else Z.shiftr a (Z.land b 31)) = a / 2 ^ (b mod 32).
Proof.
  destruct (shift_amount b) as [Hr <-]. destruct (Z.eqb_spec (Z.land b 31) 0) as [->|Hne].
  - by rewrite Z.pow_0_r, Z.div_1_r.
  - by rewrite Z.shiftr_div_pow2 by lia.
Qed.

(** The arithmetic unit.  On operands a and b every two-operand
    instruction replaces them by its result: sums, differences and products
    modulo 2^32, the sign of the comparison, shifts by b mod 32 (SHL and SHR
    of the 32-bit pattern, SAR of the integer), and, for b different from 0
    outside INT_MIN / -1, the truncating quotient and its remainder. *)
Theorem alu_correct p a b :
  proc_wf p -> operands p a b ->
  handle_add p = Ret (result p (i32 (a + b)), true) /\
  handle_sub p = Ret (result p (i32 (a - b)), true) /\
  handle_mul p = Ret (result p (i32 (a * b)), true) /\
  handle_cmp p = Ret (result p (Z.sgn (a - b)), true) /\
  handle_shl p = Ret (result p (i32 (a * 2 ^ (b mod 32))), true) /\
  handle_shr p = Ret (result p (i32 (u32 a / 2 ^ (b mod 32))), true) /\
  handle_sar p = Ret (result p (a / 2 ^ (b mod 32)), true) /\
  (b <> 0 -> ~ (a = INT32_MIN /\ b = -1) ->
   handle_div p = Ret (result p (Z.quot a b), true) /\
   handle_mod p = Ret (result p (Z.rem a b), true)).
Proof.
  intros Hp Ho. destruct (operands_i32 _ _ _ Hp Ho) as [Ha Hb].
  unfold handle_add, handle_sub, handle_mul, handle_cmp, handle_shl, handle_shr, handle_sar,
    handle_div, handle_mod.
  rewrite !(binary_result _ p a b Hp Ho). cbn [mbind outcome_bind].
  rewrite shl_value, shr_value, sar_value by done.
  split_and!; [by rewrite Z.add_comm|done|done| |done|done|done|].
  - do 3 f_equal. destruct (Z.ltb_spec a b); [lia|]. destruct (Z.eqb_spec b a); lia.
  - intros Hb0 Hn. rewrite !(binary_nz_result _ p a b Hp Ho Hb0). unfold idiv32, irem32.
    destruct (Z.eqb_spec a INT32_MIN), (Z.eqb_spec b (-1)); try (exfalso; tauto); done.
Qed.

(** Division by zero is caught, the overflowing division is not.  DIV and
    MOD by 0 stop the process with exit code -1; INT_MIN / -1 and INT_MIN % -1
    raise the processor's divide error inside the kernel. *)
Theorem division_edges p a b :
  proc_wf p -> operands p a b ->
  (b = 0 -> handle_div p = Ret (terminate p, false) /\ handle_mod p = Ret (terminate p, false)) /\
  (a = INT32_MIN -> b = -1 ->
   handle_div p = Fault DivideError /\ handle_mod p = Fault DivideError).
Proof.
  intros Hp Ho. unfold handle_div, handle_mod. split.
  - intros ->. destruct Ho as [Hd Ha Hb]. unfold binary_nz, stop.
    destruct (Z.leb_spec 2 (sp p)); [|lia].
    by rewrite (aget_lookup _ (sp p - 1) 0), (aget_lookup _ (sp p - 2) a) by (done || lia).
  - intros -> ->. by rewrite !(binary_nz_result _ p INT32_MIN (-1) Hp Ho) by done.
Qed.

(** ** The heap *)

Lemma pop_val_eq p v :
  proc_wf p -> 1 <= sp p -> stack p !! Z.to_nat (sp p - 1) = Some v ->
  pop_val p = Ret (set_sp p (sp p - 1), v).
Proof.
  intros Hp Hs Hv. pose proof (wf_sp _ Hp). unfold STACK_SIZE in *. unfold pop_val.
  rewrite u16_id by lia. by rewrite (aget_lookup _ (sp p - 1) v) by (done || lia).
Qed.

Lemma push_val_eq p v :
  proc_wf p -> sp p < STACK_SIZE ->
  push_val p v = Ret (set_sp (set_stack p (<[Z.to_nat (sp p) := v]> (stack p))) (sp p + 1)).
Proof.
  intros Hp Hs. pose proof (wf_sp _ Hp). pose proof (wf_stack_len _ Hp). unfold STACK_SIZE in *.
  unfold push_val. rewrite aset_in_bounds by lia. cbn [mbind outcome_bind]. by rewrite u16_id by lia.
Qed.

Lemma heap_check_in p off :
  proc_wf p -> 0 <= off -> off + 3 < heap_size p -> heap_out_of_bounds p off = false.
Proof.
  intros Hp H0 H3. pose proof (wf_heap_size _ Hp). unfold HEAP_SIZE in *.
  unfold heap_out_of_bounds. rewrite !i32_id by lia.
  apply orb_false_iff. split; [apply Z.ltb_ge|apply Z.leb_gt]; lia.
Qed.

(** The heap after STORE_HEAP of [v] at [off]. *)
Lemma store_heap_eq p off v h bs :
  proc_wf p -> operands p off v -> heap p = Some h -> 0 <= off -> off + 3 < heap_size p ->
  le32_write (buf_bytes h) off v = Ret bs ->
  handle_store_heap p =
    Ret (set_heap (set_sp p (sp p - 2)) (Some (mkbuf (buf_addr h) bs)), true).
Proof.
  intros Hp [Hd Ho Hv] Hh H0 H3 Hbs. pose proof (wf_sp _ Hp). unfold handle_store_heap.
  destruct (Z.ltb_spec (sp p) 2); [lia|].
  rewrite (pop_val_eq p v Hp) by (done || lia). cbn [mbind outcome_bind].
  rewrite (pop_val_eq (set_sp p (sp p - 1)) off);
    [|apply proc_wf_set_sp; [done|lia]|simpl; lia|simpl; by replace (sp p - 1 - 1) with (sp p - 2) by lia].
  cbn [mbind outcome_bind]. cbn [sp set_sp]. replace (sp p - 1 - 1) with (sp p - 2) by lia.
  change (heap_out_of_bounds _ off) with (heap_out_of_bounds p off).
  rewrite heap_check_in by done. cbn [heap set_sp]. rewrite Hh, Hbs. done.
Qed.

Lemma load_heap_eq p off v h :
  proc_wf p -> 1 <= sp p -> stack p !! Z.to_nat (sp p - 1) = Some off -> heap p = Some h ->
  0 <= off -> off + 3 < heap_size p -> le32_read (buf_bytes h) off = Ret v ->
  handle_load_heap p =
    Ret (set_sp (set_stack p (<[Z.to_nat (sp p - 1) := v]> (stack p))) (sp p), true).
Proof.
  intros Hp Hs Ho Hh H0 H3 Hv. pose proof (wf_sp _ Hp). unfold handle_load_heap.
  destruct (Z.ltb_spec (sp p) 1); [lia|].
  rewrite (pop_val_eq p off Hp) by (done || lia). cbn [mbind outcome_bind].
  change (heap_out_of_bounds _ off) with (heap_out_of_bounds p off).
  rewrite heap_check_in by done. cbn [heap set_sp]. rewrite Hh, Hv. cbn [mbind outcome_bind].
  destruct (Z.leb_spec STACK_SIZE (sp (set_sp p (sp p - 1)))); [simpl in *; lia|].
  rewrite push_val_eq; [|apply proc_wf_set_sp; [done|lia]|done].
  cbn [mbind outcome_bind sp stack set_sp]. by rewrite Z.sub_add.
Qed.

(** Heap round trip.  STORE_HEAP of v at an offset inside the heap,
    followed by pushing the same offset and LOAD_HEAP, leaves v on top of the
    stack: the two instructions agree on byte order and sign. *)
Theorem heap_store_load p off v :
  proc_wf p -> mapped p -> operands p off v -> 0 <= off -> off + 3 < heap_size p ->
  exists p1 p2 p3, handle_store_heap p = Ret (p1, true) /\ push_val p1 off = Ret p2 /\
    handle_load_heap p2 = Ret (p3, true) /\ sp p3 = sp p - 1 /\
    stack p3 !! Z.to_nat (sp p - 2) = Some v.
Proof.
  intros Hp Hm Ho H0 H3. destruct (operands_i32 _ _ _ Hp Ho) as [Hoff Hv].
  destruct Hm as [_ [[h Hh] _]]. destruct (wf_heap _ Hp _ Hh) as [Hl HF].
  pose proof (wf_sp _ Hp) as Hsp. pose proof (wf_stack_len _ Hp) as Hsl.
  pose proof (op_depth _ _ _ Ho) as Hd. unfold STACK_SIZE, len in Hsp, Hsl.
  pose proof (le32_write_ok (buf_bytes h) off v HF H0 ltac:(lia)) as Hw.
  apply runs_to_inv in Hw as (bs & Hbs & Hlb & HFb).
  pose proof (le32_write_read (buf_bytes h) off v H0 ltac:(lia) Hv) as Hrd. rewrite Hbs in Hrd.
  set (p1 := set_heap (set_sp p (sp p - 2)) (Some (mkbuf (buf_addr h) bs))).
  assert (Hp1 : proc_wf p1).
  { apply (proc_wf_set_heap _ h); [apply proc_wf_set_sp; [done|unfold STACK_SIZE; lia]|done..]. }
  exists p1. eexists. eexists. split; [by apply (store_heap_eq p off v h bs)|].
  split; [apply push_val_eq; [done|simpl; unfold STACK_SIZE; lia]|]. split.
  - apply (load_heap_eq _ off v (mkbuf (buf_addr h) bs)); [|simpl; lia| |done|done|done|done].
    + apply proc_wf_set_sp; [by apply (proc_wf_set_stack p1)|simpl; unfold STACK_SIZE; lia].
    + simpl. rewrite Z.add_simpl_r. apply list_lookup_insert_eq. lia.
  - simpl. split; [lia|]. rewrite Z.add_simpl_r. apply list_lookup_insert_eq.
    rewrite length_insert. lia.
Qed.

(** The heap bound wraps.  At an offset of INT_MAX - 2 and above the
    test [offset + 3 >= heap_size] is false (the sum is negative), and
    LOAD_HEAP and STORE_HEAP access memory 2 GiB past the start of the heap. *)
Theorem heap_bound_wraps p off v h :
  proc_wf p -> heap p = Some h -> len (buf_bytes h) <= off -> 2147483645 <= off ->
  (1 <= sp p -> stack p !! Z.to_nat (sp p - 1) = Some off -> handle_load_heap p = Fault OutOfBounds) /\
  (operands p off v -> handle_store_heap p = Fault OutOfBounds).
Proof.
  intros Hp Hh Hl Hoff. pose proof (wf_heap_size _ Hp). unfold HEAP_SIZE in *.
  assert (Hchk : i32_ok off -> heap_out_of_bounds p off = false).
  { unfold i32_ok. intros Ho. unfold heap_out_of_bounds. apply orb_false_iff.
    split; [apply Z.ltb_ge; lia|]. apply Z.leb_gt. rewrite (i32_id (heap_size p)) by lia.
    unfold i32, wraps. change (2 ^ (32 - 1)) with 2147483648. change (2 ^ 32) with 4294967296.
    replace (off + 3 + 2147483648) with (off + 3 - 2147483648 + 1 * 4294967296) by lia.
    rewrite Z.mod_add by lia. rewrite Z.mod_small by lia. lia. }
  split.
  - intros Hs Ho. unfold handle_load_heap. destruct (Z.ltb_spec (sp p) 1); [lia|].
    rewrite (pop_val_eq p off Hp) by (done || lia). cbn [mbind outcome_bind].
    change (heap_out_of_bounds _ off) with (heap_out_of_bounds p off).
    rewrite Hchk by exact (Forall_lookup_1 _ _ _ _ (wf_stack _ Hp) Ho). simpl. rewrite Hh.
    unfold le32_read. by rewrite (aget_out_of_bounds _ off) by lia.
  - intros Hops. destruct (operands_i32 _ _ _ Hp Hops) as [Hi _]. destruct Hops as [Hd Ho Hv].
    unfold handle_store_heap. destruct (Z.ltb_spec (sp p) 2); [lia|].
    rewrite (pop_val_eq p v Hp) by (done || lia). cbn [mbind outcome_bind].
    pose proof (wf_sp _ Hp).
    rewrite (pop_val_eq (set_sp p (sp p - 1)) off);
      [|apply proc_wf_set_sp; [done|lia]|simpl; lia
       |simpl; by replace (sp p - 1 - 1) with (sp p - 2) by lia].
    cbn [mbind outcome_bind]. change (heap_out_of_bounds _ off) with (heap_out_of_bounds p off).
    rewrite Hchk by done. simpl. rewrite Hh. unfold le32_write, aset.
    destruct (Z.ltb_spec off (len (buf_bytes h))); [lia|]. by rewrite andb_false_r.
Qed.

(** ** Locals and call frames *)

(** The big-endian operand at address [a] of the code. *)
Definition operand_at p (a : Z) : option Z :=
  match code_at p a, code_at p (a + 1), code_at p (a + 2), code_at p (a + 3) with
  | Some b0, Some b1, Some b2, Some b3 => Some (b0 * 2 ^ 24 + b1 * 2 ^ 16 + b2 * 2 ^ 8 + b3)
  | _, _, _, _ => None
  end.

Lemma lor_shift_add a b n : 0 <= n -> 0 <= b < 2 ^ n -> Z.lor (Z.shiftl a n) b = a * 2 ^ n + b.
Proof.
  intros Hn Hb. pose proof (Z.add_lor_land (Z.shiftl a n) b) as E. revert E.
  assert (Z.land (Z.shiftl a n) b = 0) as ->.
  { apply Z.bits_inj'. intros m Hm. rewrite Z.land_spec, Z.bits_0.
    destruct (Z.lt_ge_cases m n).
    - by rewrite Z.shiftl_spec_low by lia.
    - rewrite <- (Z.mod_small b (2 ^ n)) by lia.
      rewrite Z.mod_pow2_bits_high by lia. by rewrite andb_false_r. }
  rewrite Z.shiftl_mul_pow2 by lia. lia.
Qed.

Lemma be32_value b0 b1 b2 b3 :
  byte_ok b0 -> byte_ok b1 -> byte_ok b2 -> byte_ok b3 ->
  u32 (Z.lor (Z.lor (Z.lor (Z.shiftl b0 24) (Z.shiftl b1 16)) (Z.shiftl b2 8)) b3)
  = b0 * 2 ^ 24 + b1 * 2 ^ 16 + b2 * 2 ^ 8 + b3.
Proof.
  unfold byte_ok. intros H0 H1 H2 H3.
  assert (Z.shiftl b0 24 = Z.shiftl (b0 * 2 ^ 8) 16) as ->
    by (rewrite !Z.shiftl_mul_pow2 by lia; lia).
  rewrite <- Z.shiftl_lor.
  assert (Z.lor (b0 * 2 ^ 8) b1 = b0 * 2 ^ 8 + b1) as ->.
  { rewrite <- (Z.shiftl_mul_pow2 b0 8) at 1 by lia. apply lor_shift_add; lia. }
  assert (Z.shiftl (b0 * 2 ^ 8 + b1) 16 = Z.shiftl ((b0 * 2 ^ 8 + b1) * 2 ^ 8) 8) as ->
    by (rewrite !Z.shiftl_mul_pow2 by lia; lia).
  rewrite <- Z.shiftl_lor.
  assert (Z.lor ((b0 * 2 ^ 8 + b1) * 2 ^ 8) b2 = (b0 * 2 ^ 8 + b1) * 2 ^ 8 + b2) as ->.
  { rewrite <- (Z.shiftl_mul_pow2 (b0 * 2 ^ 8 + b1) 8) at 1 by lia. apply lor_shift_add; lia. }
  rewrite lor_shift_add by lia. rewrite u32_id; lia.
Qed.

Lemma fetch_code p a b :
  0 <= a < 4294967296 -> code_at p a = Some b -> fetch p a = Ret b.
Proof.
  intros Ha. unfold code_at, fetch. destruct (bytecode p) as [c|]; [|done]. intros Hb.
  rewrite u32_id by lia. apply aget_lookup; [lia|done].
Qed.

Lemma code_byte p a b : proc_wf p -> code_at p a = Some b -> byte_ok b.
Proof.
  intros Hp. unfold code_at. destruct (bytecode p) as [c|] eqn:Hc; [|done]. intros Hb.
  eapply Forall_lookup_1; [apply (wf_bytecode _ Hp _ Hc)|exact Hb].
Qed.

Lemma fetch32_eq p v :
  proc_wf p -> ip p + 3 < psize p -> operand_at p (ip p) = Some v ->
  fetch32 p = Ret (set_ip p (ip p + 4), v).
Proof.
  intros Hp Hi. pose proof (wf_ip _ Hp). pose proof (wf_size _ Hp). unfold operand_at, fetch32.
  destruct (code_at p (ip p)) as [b0|] eqn:E0; [|done].
  destruct (code_at p (ip p + 1)) as [b1|] eqn:E1; [|done].
  destruct (code_at p (ip p + 2)) as [b2|] eqn:E2; [|done].
  destruct (code_at p (ip p + 3)) as [b3|] eqn:E3; [|done]. intros [= <-].
  rewrite (fetch_code p (ip p) b0), (fetch_code p (ip p + 1) b1), (fetch_code p (ip p + 2) b2),
    (fetch_code p (ip p + 3) b3) by (done || lia).
  cbn [mbind outcome_bind].
  rewrite be32_value by (by eapply code_byte). by rewrite u32_id by lia.
Qed.

(** Call and return.  CALL of an address inside the code pushes the
    address of the next instruction and jumps; RET with that cell on top
    restores the instruction pointer and the stack pointer exactly.  CALL of an
    address in the signature or past the end of the code stops the process. *)
Theorem call_ret p addr :
  proc_wf p -> ip p + 4 < psize p -> 4 <= ip p -> sp p < STACK_SIZE - 1 ->
  operand_at p (ip p) = Some addr ->
  (if (4 <=? addr) && (addr <? psize p) then
     exists p1, handle_call p = Ret (p1, true) /\ ip p1 = addr /\ sp p1 = sp p + 1 /\
       handle_ret p1 = Ret (set_sp (set_ip p1 (ip p + 4)) (sp p), true) /\
       take (Z.to_nat (sp p)) (stack p1) = take (Z.to_nat (sp p)) (stack p)
   else exists p1, handle_call p = Ret (p1, false) /\ active p1 = false /\ exit_code p1 = -1).
Proof.
  intros Hp Hi H4 Hs Ha. pose proof (wf_ip _ Hp). pose proof (wf_size _ Hp).
  pose proof (wf_sp _ Hp) as Hsp. pose proof (wf_stack_len _ Hp) as Hsl.
  unfold handle_call. rewrite has_operand32_spec by (done || lia).
  destruct (Z.ltb_spec (ip p + 3) (psize p)); [|lia].
  rewrite (fetch32_eq p addr Hp) by (done || lia). cbn [mbind outcome_bind sp set_ip].
  destruct (Z.ltb_spec (sp p) (STACK_SIZE - 1)); [|lia].
  assert (Hw : proc_wf (set_ip p (ip p + 4))) by (apply proc_wf_set_ip; [done|lia]).
  rewrite push_val_eq by (done || (simpl; lia)).
  cbn [mbind outcome_bind ip set_ip sp stack]. rewrite i32_id by lia.
  unfold valid_target. cbn [psize set_sp set_stack set_ip].
  destruct ((4 <=? addr) && (addr <? psize p)); [|by eexists].
  eexists. split; [reflexivity|]. split; [done|]. split; [done|].
  unfold STACK_SIZE, len in *. split.
  - unfold handle_ret. cbn [sp set_sp set_ip set_stack].
    destruct (Z.ltb_spec 0 (sp p + 1)); [|lia].
    unfold pop_val. cbn [sp set_sp set_ip set_stack stack].
    rewrite Z.add_simpl_r, u16_id by lia.
    rewrite (aget_lookup _ (sp p) (ip p + 4)) by (try lia; apply list_lookup_insert_eq; lia).
    cbn [mbind outcome_bind]. rewrite u32_id by lia. unfold valid_target. cbn [psize set_sp set_ip set_stack].
    destruct (Z.leb_spec 4 (ip p + 4)), (Z.ltb_spec (ip p + 4) (psize p)); try lia. done.
  - simpl. by rewrite take_insert_ge by lia.
Qed.

Lemma push_zeros_eq n : forall p,
  proc_wf p -> sp p + Z.of_nat n <= STACK_SIZE ->
  exists st, push_zeros n p = Ret (set_sp (set_stack p st) (sp p + Z.of_nat n)) /\
    length st = length (stack p) /\
    take (Z.to_nat (sp p)) st = take (Z.to_nat (sp p)) (stack p) /\
    forall i, sp p <= i < sp p + Z.of_nat n -> st !! Z.to_nat i = Some 0.
Proof.
  induction n as [|n IH]; intros p Hp Hn; simpl push_zeros; pose proof (wf_sp _ Hp).
  { exists (stack p). rewrite Z.add_0_r. split_and!; [by destruct p|done|done|lia]. }
  pose proof (wf_stack_len _ Hp) as Hl.
  rewrite push_val_eq by (done || lia). cbn [mbind outcome_bind].
  set (p1 := set_sp (set_stack p _) _).
  assert (Hp1 : proc_wf p1).
  { apply proc_wf_set_sp; [apply (proc_wf_set_stack p); [done|apply i32_ok_0]|lia]. }
  destruct (IH p1 Hp1) as (st & -> & Hlen & Htake & Hz); [simpl; lia|].
  unfold p1 in *. simpl in *. rewrite length_insert in Hlen. unfold STACK_SIZE, len in *.
  replace (Z.to_nat (sp p + 1)) with (S (Z.to_nat (sp p))) in Htake by lia.
  exists st. split_and!; [|done| |].
  - unfold set_sp, set_stack. simpl. do 2 f_equal. lia.
  - apply (f_equal (take (Z.to_nat (sp p)))) in Htake. rewrite !take_take in Htake.
    rewrite !Nat.min_l in Htake by lia. by rewrite Htake, take_insert_ge by lia.
  - intros i Hi. destruct (decide (i = sp p)) as [->|Hne]; [|apply Hz; lia].
    apply (f_equal (lookup (Z.to_nat (sp p)))) in Htake.
    rewrite !lookup_take_lt, list_lookup_insert_eq in Htake by lia. done.
Qed.

(** The frame pointer and the zeroed locals that ENTER n sets up. *)
Lemma enter_eq p n :
  proc_wf p -> mapped p -> ip p < psize p -> code_at p (ip p) = Some n ->
  sp p + 1 + n <= STACK_SIZE ->
  exists st, handle_enter p =
      Ret (set_sp (set_stack (set_fp (set_ip p (ip p + 1)) (sp p)) st) (sp p + 1 + n), true) /\
    length st = length (stack p) /\
    take (Z.to_nat (sp p)) st = take (Z.to_nat (sp p)) (stack p) /\
    st !! Z.to_nat (sp p) = Some (fp p) /\
    forall i, sp p < i <= sp p + n -> st !! Z.to_nat i = Some 0.
Proof.
  intros Hp Hm Hi Hn Hs. pose proof (wf_sp _ Hp) as Hsp. pose proof (wf_stack_len _ Hp) as Hl.
  pose proof (wf_ip _ Hp). pose proof (wf_size _ Hp).
  assert (Hb : byte_ok n) by by eapply code_byte. unfold byte_ok in Hb.
  unfold handle_enter. destruct (Z.ltb_spec (ip p) (psize p)); [|lia].
  destruct (fetch8_value p Hp Hm Hi) as (b & Hb' & _ & ->). cbn [mbind outcome_bind sp set_ip].
  assert (b = n) as -> by congruence.
  destruct (Z.leb_spec (sp p + 1 + n) STACK_SIZE); [|lia].
  assert (Hw : proc_wf (set_ip p (ip p + 1))) by (apply proc_wf_set_ip; [done|lia]).
  rewrite push_val_eq by (done || (simpl; lia)). cbn [mbind outcome_bind sp set_ip set_sp].
  rewrite Z.add_simpl_r. set (p2 := set_fp _ (sp p)).
  assert (Hp2 : proc_wf p2).
  { apply proc_wf_set_fp; [|unfold i32_ok, STACK_SIZE in *; lia]. apply proc_wf_set_sp; [|simpl; lia].
    apply (proc_wf_set_stack (set_ip p (ip p + 1))); [done|apply (wf_fp _ Hp)]. }
  destruct (push_zeros_eq (Z.to_nat n) p2 Hp2) as (st & -> & Hlen & Htake & Hz); [simpl; lia|].
  unfold p2 in *. simpl in *. rewrite length_insert in Hlen. unfold STACK_SIZE, len in *.
  replace (Z.to_nat (sp p + 1)) with (S (Z.to_nat (sp p))) in Htake by lia.
  exists st. split_and!; [|done| | |].
  - unfold continue. do 2 f_equal. unfold set_sp, set_stack, set_fp, set_ip. simpl. f_equal; lia.
  - apply (f_equal (take (Z.to_nat (sp p)))) in Htake. rewrite !take_take in Htake.
    rewrite !Nat.min_l in Htake by lia. by rewrite Htake, take_insert_ge by lia.
  - apply (f_equal (lookup (Z.to_nat (sp p)))) in Htake.
    by rewrite !lookup_take_lt, list_lookup_insert_eq in Htake by lia.
  - intros i Hr. apply Hz. lia.
Qed.

(** Call frames.  ENTER n saves the frame pointer, sets it to the frame
    and clears n locals; LEAVE then restores the stack pointer, the frame
    pointer and every cell below the frame, so that frames nest. *)
Theorem enter_leave p n :
  proc_wf p -> mapped p -> ip p < psize p -> code_at p (ip p) = Some n ->
  sp p + 1 + n <= STACK_SIZE ->
  exists p1 p2, handle_enter p = Ret (p1, true) /\ fp p1 = sp p /\ sp p1 = sp p + 1 + n /\
    (forall i, sp p < i <= sp p + n -> stack p1 !! Z.to_nat i = Some 0) /\
    handle_leave p1 = Ret (p2, true) /\ sp p2 = sp p /\ fp p2 = fp p /\
    take (Z.to_nat (sp p)) (stack p2) = take (Z.to_nat (sp p)) (stack p).
Proof.
  intros Hp Hm Hi Hn Hs.
  destruct (enter_eq p n Hp Hm Hi Hn Hs) as (st & He & Hlen & Htake & Hfp & Hz).
  assert (Hb : byte_ok n) by by eapply code_byte. unfold byte_ok in Hb.
  pose proof (wf_sp _ Hp) as Hsp. unfold STACK_SIZE in *.
  eexists. exists (set_fp (set_sp (set_stack (set_fp (set_ip p (ip p + 1)) (sp p)) st) (sp p)) (fp p)).
  split; [exact He|]. split; [done|]. split; [done|]. split; [done|]. split; [|done].
  unfold handle_leave. cbn [fp sp stack set_sp set_stack set_fp set_ip].
  destruct (Z.ltb_spec (sp p) 0); [lia|]. unfold STACK_SIZE.
  destruct (Z.leb_spec 1024 (sp p)); [lia|]. cbn [orb].
  destruct (Z.ltb_spec (sp p + 1 + n) (sp p + 1)); [lia|].
  rewrite (aget_lookup _ (sp p) (fp p)) by (done || lia). cbn [mbind outcome_bind].
  by rewrite u16_id by lia.
Qed.

(** ** Capabilities *)

(** Granting.  caps_add_capability succeeds exactly when a slot is free;
    the process then holds the capability, everything it held before and
    nothing else, and holding it already adds no second slot. *)
Theorem caps_add_grants p cap :
  proc_wf p -> 0 <= cap < 65536 ->
  runs_to (caps_add_capability p cap) (fun '(p', ok) =>
    proc_wf p' /\ (ok = true <-> caps_count p < MAX_CAPS) /\
    (ok = true -> caps_has_capability p' cap = Ret true /\
       forall c, c <> cap -> cap <> CAP_ALL -> (grants p' c <-> grants p c)) /\
    (ok = false -> p' = p) /\ (NoDup (cap_list p) -> NoDup (cap_list p'))).
Proof.
  intros Hp Hc. pose proof (wf_caps_count _ Hp) as Hn.
  eapply runs_to_mono; [apply runs_to_and|].
  { by apply caps_add_capability_spec. }
  { instantiate (1 := fun '(_, ok) => ok = true <-> caps_count p < MAX_CAPS).
    unfold caps_add_capability. destruct (Z.leb_spec MAX_CAPS (caps_count p)); [simpl; split; [done|lia]|].
    rewrite (caps_has_capability_spec _ _ Hp). simpl. case_bool_decide; [done|].
    rewrite aset_in_bounds; [done|]. rewrite (wf_caps_len _ Hp). lia. }
  intros [p' ok] [[Hw Hl] Hok]. rewrite (u16_id cap) in Hl by lia.
  split; [done|]. split; [done|]. destruct ok.
  - assert (Hg : forall c, c ∈ cap_list p' <-> c ∈ cap_list p \/ (c = cap /\ ~ grants p cap)).
    { intros c. rewrite Hl. case_decide; rewrite ?app_nil_r; set_solver. }
    split_and!; [|done|].
    + intros _. split.
      * rewrite (caps_has_capability_spec _ _ Hw). f_equal. apply bool_decide_eq_true.
        destruct (decide (grants p cap)) as [[?|?]|?]; unfold grants; rewrite !Hg; tauto.
      * intros c Hne Hall. unfold grants. rewrite !Hg. naive_solver.
    + intros Hnd. rewrite Hl. case_decide as Hd; [by rewrite app_nil_r|].
      apply NoDup_app. split_and!; [done| |apply NoDup_singleton].
      intros x Hx Hx'%list_elem_of_singleton. subst. apply Hd. by right.
  - destruct Hl as [-> _]. done.
Qed.

Lemma remove_first_elem x y l : NoDup l -> y ∈ remove_first x l <-> y ∈ l /\ y <> x.
Proof.
  induction l as [|z l IH]; simpl; [set_solver|]. rewrite NoDup_cons. intros [Hz Hl].
  destruct (Z.eqb_spec z x) as [->|Hne]; rewrite ?elem_of_cons, ?IH by done; set_solver.
Qed.

(** Revoking.  caps_remove_capability reports whether the capability was
    in a slot; afterwards a process without duplicate slots that does not hold
    CAP_ALL is refused that capability and keeps all the others. *)
Theorem caps_remove_revokes p cap :
  proc_wf p -> NoDup (cap_list p) -> CAP_ALL ∉ cap_list p ->
  runs_to (caps_remove_capability p cap) (fun '(p', ok) =>
    proc_wf p' /\ ok = bool_decide (cap ∈ cap_list p) /\
    caps_has_capability p' cap = Ret false /\
    forall c, c <> cap -> (grants p' c <-> grants p c)).
Proof.
  intros Hp Hnd Hall. eapply runs_to_mono; [by apply caps_remove_capability_spec|].
  intros [p' [|]] [Hw Hl].
  - destruct Hl as [Hin Hl].
    assert (Hg : forall c, c ∈ cap_list p' <-> c ∈ cap_list p /\ c <> cap)
      by (intros c; rewrite Hl; by apply remove_first_elem).
    split_and!; [done|by rewrite bool_decide_eq_true_2| |].
    + rewrite (caps_has_capability_spec _ _ Hw). f_equal. apply bool_decide_eq_false.
      unfold grants. rewrite !Hg. tauto.
    + intros c Hne. unfold grants. rewrite !Hg. tauto.
  - destruct Hl as [-> Hin]. split_and!; [done|by rewrite bool_decide_eq_false_2| |done].
    rewrite (caps_has_capability_spec _ _ Hp). f_equal. apply bool_decide_eq_false.
    unfold grants. tauto.
Qed.

End Local.

(** ** Witnesses *)

Definition alu_proc : nvm_process := demo_proc 0 [0x10] [7; -3] [].

Lemma alu_proc_wf : proc_wf alu_proc.
Proof. by apply demo_proc_wf. Qed.

Lemma alu_correct_witness :
  handle_sub alu_proc = Ret (result alu_proc 10, true) /\
  handle_div alu_proc = Ret (result alu_proc (-2), true).
Proof.
  destruct (alu_correct alu_proc 7 (-3) alu_proc_wf) as (_ & Hs & _ & _ & _ & _ & _ & Hd).
  - by constructor.
  - split; [exact Hs|]. apply Hd; [lia|intros [_ ?]; lia].
Defined.

Lemma division_edges_witness :
  handle_div (demo_proc 0 [0x13] [INT32_MIN; -1] []) = Fault DivideError.
Proof.
  apply (division_edges (demo_proc 0 [0x13] [INT32_MIN; -1] []) INT32_MIN (-1));
    [by apply demo_proc_wf|by constructor|reflexivity|reflexivity].
Defined.

Lemma heap_store_load_witness :
  exists p1 p2 p3, handle_store_heap (demo_proc 0 [0x47] [12; -5] []) = Ret (p1, true) /\
    push_val p1 12 = Ret p2 /\ handle_load_heap p2 = Ret (p3, true) /\ sp p3 = 2 - 1 /\
    stack p3 !! Z.to_nat (2 - 2) = Some (-5).
Proof.
  apply (heap_store_load (demo_proc 0 [0x47] [12; -5] []) 12 (-5));
    [by apply demo_proc_wf|split_and!; eauto; done|by constructor|lia|simpl; lia].
Defined.

Lemma heap_bound_wraps_witness :
  handle_load_heap (demo_proc 0 [0x46] [2147483645] []) = Fault OutOfBounds.
Proof.
  apply (heap_bound_wraps (demo_proc 0 [0x46] [2147483645] []) 2147483645 0
           (mkbuf 131072 (replicate 16 0)));
    [by apply demo_proc_wf|reflexivity|vm_compute; discriminate|lia|vm_compute; discriminate
    |reflexivity].
Defined.

(** NOP padding, then CALL 6. *)
Definition call_proc : nvm_process :=
  set_ip (demo_proc 0 [0x4E; 0x56; 0x4D; 0x30; 0x33; 0; 0; 0; 6; 0] [] []) 5.

Lemma call_ret_witness :
  exists p1, handle_call call_proc = Ret (p1, true) /\ ip p1 = 6 /\ sp p1 = 0 + 1 /\
    handle_ret p1 = Ret (set_sp (set_ip p1 (5 + 4)) 0, true) /\
    take (Z.to_nat 0) (stack p1) = take (Z.to_nat 0) (stack call_proc).
Proof.
  apply (call_ret call_proc 6);
    [apply proc_wf_set_ip; [by apply demo_proc_wf|lia]|vm_compute; reflexivity
    |vm_compute; discriminate|vm_compute; reflexivity|reflexivity].
Defined.

Lemma enter_leave_witness :
  exists p1 p2, handle_enter (demo_proc 0 [3; 0] [9] []) = Ret (p1, true) /\ fp p1 = 1 /\
    sp p1 = 1 + 1 + 3 /\ (forall i, 1 < i <= 1 + 3 -> stack p1 !! Z.to_nat i = Some 0) /\
    handle_leave p1 = Ret (p2, true) /\ sp p2 = 1 /\ fp p2 = -1 /\
    take (Z.to_nat 1) (stack p2) = take (Z.to_nat 1) (stack (demo_proc 0 [3; 0] [9] [])).
Proof.
  apply (enter_leave (demo_proc 0 [3; 0] [9] []) 3);
    [by apply demo_proc_wf|split_and!; eauto; done|vm_compute; reflexivity|reflexivity
    |vm_compute; discriminate].
Defined.

Lemma caps_add_grants_witness :
  runs_to (caps_add_capability (demo_proc 0 [] [] [1; 2]) CAP_DRV_ACCESS) (fun '(p', ok) =>
    ok = true -> caps_has_capability p' CAP_DRV_ACCESS = Ret true).
Proof.
  eapply runs_to_mono.
  - apply (caps_add_grants (demo_proc 0 [] [] [1; 2]) CAP_DRV_ACCESS);
      [by apply demo_proc_wf|unfold CAP_DRV_ACCESS; lia].
  - intros [p' ok] (_ & _ & H & _) Hok. by apply H.
Defined.

Lemma caps_remove_revokes_witness :
  runs_to (caps_remove_capability (demo_proc 0 [] [] [1; 2; 6]) 2) (fun '(p', ok) =>
    ok = true /\ caps_has_capability p' 2 = Ret false).
Proof.
  eapply runs_to_mono.
  - apply (caps_remove_revokes (demo_proc 0 [] [] [1; 2; 6]) 2); [by apply demo_proc_wf|..];
      apply (bool_decide_unpack _); vm_compute; exact I.
  - intros [p' ok] (_ & -> & H & _). split; [reflexivity|exact H].
Defined.
