(* ===== verification/NvmSpawn.v ===== *)
(** * Creating NVM processes

    [nvm_create_process], [nvm_init] and SYS_SPAWN: the state a new process
    starts in, the effect of every failure, and what SYS_SPAWN does to the
    capabilities of parent and child. *)

From S2P Require Import Prelude NvmProcess NvmInstr NvmSafety NvmKernel NvmMachine.

Section Spawn.
Context {W : Type} `{KS : KernelServices W} {KO : ServicesOk W}.
Implicit Types (k : kstate W) (p q : nvm_process) (i j : Z) (w : W).

(** ** Well-formedness of a new process *)

Lemma zero_fill_ok b n :
  0 <= n -> n <= len (buf_bytes b) -> Forall byte_ok (buf_bytes b) ->
  runs_to (zero_fill b n) (fun b' => buf_addr b' = buf_addr b /\ buffer_ok n b' /\
    forall i, 0 <= i < n -> buf_bytes b' !! Z.to_nat i = Some 0).
Proof.
  intros H0 Hn Hb. unfold zero_fill. destruct (Z.leb_spec n (len (buf_bytes b))); [|lia].
  split_and!; [done|split|].
  - unfold len in *. simpl. rewrite length_app, length_replicate, length_drop. lia.
  - apply Forall_app_2; [apply Forall_replicate; unfold byte_ok; lia|by apply Forall_drop].
  - intros i Hi. simpl. rewrite lookup_app_l by (rewrite length_replicate; lia).
    apply lookup_replicate_2. lia.
Qed.

(** The state in which a new process starts. *)
Record fresh_proc (code : buffer) (size : Z) (caps : list Z) (i : Z) p : Prop := {
  fr_wf : proc_wf p;
  fr_mapped : mapped p;
  fr_active : active p = true;
  fr_blocked : blocked p = false;
  fr_code : bytecode p = Some code;
  fr_entry : ip p = 4;
  fr_size : psize p = size;
  fr_pid : pid p = i;
  fr_frame : sp p = 0 /\ fp p = -1;
  fr_exit : exit_code p = 0;
  fr_caps : cap_list p = caps;
  fr_locals : locals p = replicate (Z.to_nat MAX_LOCALS) 0;
  fr_heap : exists h, heap p = Some h /\ heap_size p = HEAP_SIZE /\
    forall a, 0 <= a < HEAP_SIZE -> buf_bytes h !! Z.to_nat a = Some 0
}.

Lemma fresh_proc_intro p i code size caps n cs h :
  proc_wf p -> 0 <= i < MAX_PROCESSES -> buffer_ok size code -> 0 <= size < 2147483648 ->
  0 <= n <= MAX_CAPS -> len cs = MAX_CAPS -> Forall (fun c => 0 <= c < 65536) cs ->
  take (Z.to_nat n) cs = caps ->
  buffer_ok HEAP_SIZE h -> (forall a, 0 <= a < HEAP_SIZE -> buf_bytes h !! Z.to_nat a = Some 0) ->
  fresh_proc code size caps i
    (set_locals (set_caps (set_heap_size (set_heap (claim_slot p i code size 0) (Some h)) HEAP_SIZE)
       cs n) (replicate (Z.to_nat MAX_LOCALS) 0)).
Proof.
  intros Hp Hi Hc Hsz Hn Hlc HFc Hcs Hh Hz.
  constructor; try done; [| |by exists h].
  - destruct Hp. constructor; unfold STACK_SIZE, HEAP_SIZE in *;
      cbn [ip psize stack sp locals exit_code pid fp capabilities caps_count heap heap_size
           bytecode set_locals set_caps set_heap_size set_heap claim_slot];
      unfold i32_ok; try done; try lia.
    + apply Forall_replicate. unfold i32_ok. lia.
    + by intros b [= <-].
    + by intros b [= <-].
  - split_and!; [by eexists|by eexists|done].
Qed.

(** ** nvm_create_process *)

Definition has_signature (code : buffer) : Prop :=
  exists rest, buf_bytes code = 0x4E :: 0x56 :: 0x4D :: 0x30 :: rest.

Lemma signature_ok_spec (bs : list Z) :
  4 <= len bs ->
  exists b, signature_ok bs = Ret b /\
    (b = true <-> exists rest, bs = 0x4E :: 0x56 :: 0x4D :: 0x30 :: rest).
Proof.
  intros Hl. destruct bs as [|b0 [|b1 [|b2 [|b3 rest]]]]; unfold len in Hl; simpl in Hl; try lia.
  unfold signature_ok, aget. simpl.
  destruct (Z.eqb_spec b0 0x4E); simpl; [|exists false; naive_solver].
  destruct (Z.eqb_spec b1 0x56); simpl; [|exists false; naive_solver].
  destruct (Z.eqb_spec b2 0x4D); simpl; [|exists false; naive_solver].
  exists (b3 =? 0x30). split; [done|]. rewrite Z.eqb_eq. naive_solver.
Qed.

(** The slot the search loop of [nvm_create_process] settles on. *)
Definition free_slot k : option Z := first_index (fun p => negb (active p)) (processes k).

Lemma create_process_refused code size caps n k b :
  signature_ok (buf_bytes code) = Ret b -> b = false \/ free_slot k = None ->
  nvm_create_process code size caps n k = Ret (k, -1).
Proof.
  intros Hs Hb. unfold nvm_create_process. rewrite Hs. cbn [mbind outcome_bind].
  destruct b; [|done]. destruct Hb as [?|Hf]; [done|]. unfold free_slot in Hf. by rewrite Hf.
Qed.

Lemma free_slot_proc k i :
  kwf k -> free_slot k = Some i -> exists p, proc_at k i p /\ active p = false /\ 0 <= i < MAX_PROCESSES.
Proof.
  intros Hk (Hi & p & Hp & Ha & _)%first_index_Some. exists p.
  rewrite (kwf_len _ Hk) in Hi. split_and!; [split; [lia|done]|by destruct (active p)|lia|lia].
Qed.

Lemma create_process_success code size caps n k i h w :
  kwf k -> signature_ok (buf_bytes code) = Ret true -> buffer_ok size code ->
  0 <= size < 2147483648 -> 0 <= n <= MAX_CAPS -> n <= len caps ->
  Forall (fun c => 0 <= c < 65536) caps ->
  free_slot k = Some i -> kmalloc HEAP_SIZE (world k) = (w, Some h) ->
  exists q, nvm_create_process code size caps n k =
      Ret (set_processes (set_world k (procfs_register i w)) (<[Z.to_nat i := q]> (processes k)), i) /\
    fresh_proc code size (take (Z.to_nat n) caps) i q.
Proof.
  intros Hk Hsig Hcode Hsz Hn Hnc HFc Hf Hm. unfold nvm_create_process.
  destruct (free_slot_proc k i Hk Hf) as (p & Hp & Ha & Hi). unfold free_slot in Hf.
  pose proof (proc_at_wf _ _ _ Hk Hp) as Hw.
  rewrite Hsig. cbn [mbind outcome_bind negb]. rewrite Hf, (get_proc_at _ _ _ Hp).
  cbn [mbind outcome_bind]. rewrite Hm.
  destruct (kmalloc_ok _ _ _ _ Hm) as [Hhl HhF].
  pose proof (zero_fill_ok h HEAP_SIZE ltac:(done) Hhl HhF) as Hzf.
  apply runs_to_inv in Hzf as (h' & -> & _ & Hh' & Hz). cbn [mbind outcome_bind].
  cbn [capabilities set_heap_size set_heap claim_slot].
  rewrite Z.min_l by lia. pose proof (wf_caps_len _ Hw) as Hlc.
  pose proof (caps_copy_loop_spec caps (Z.to_nat n) (capabilities p) 0 ltac:(lia)
    ltac:(lia) ltac:(lia)) as Hcp.
  apply runs_to_inv in Hcp as (cs & -> & Hlcs & Htake & HP). cbn [mbind outcome_bind].
  rewrite (put_proc_ok (set_world k w) i p _ Hp). cbn [mbind outcome_bind].
  eexists. split; [reflexivity|].
  apply (fresh_proc_intro p i code size _ n cs h');
    [done|done|done|done|done|lia| | |done|done].
  - apply HP; [done|apply (wf_caps _ Hw)].
  - rewrite Z2Nat.inj_0, Nat.add_0_l, take_0, drop_0 in Htake. done.
Qed.

(** Process creation.  With a valid signature, a free slot and memory for
    the heap, [nvm_create_process] returns the first free slot and leaves in it
    a process at address 4 with an empty stack, cleared locals, a zeroed heap
    of 128 KiB and exactly the given capabilities; every other slot and the
    message queue stay as they were and the kernel is well formed.  Without a
    valid signature or a free slot it returns -1 and changes nothing. *)
Theorem create_process_correct code size caps n k :
  kwf k -> 4 <= size < 2147483648 -> buffer_ok size code ->
  0 <= n <= MAX_CAPS -> n <= len caps -> Forall (fun c => 0 <= c < 65536) caps ->
  (~ has_signature code \/ free_slot k = None ->
     nvm_create_process code size caps n k = Ret (k, -1)) /\
  (forall i h w, has_signature code -> free_slot k = Some i ->
     kmalloc HEAP_SIZE (world k) = (w, Some h) ->
     runs_to (nvm_create_process code size caps n k) (fun '(k', r) =>
       r = i /\ kwf k' /\ message_queue k' = message_queue k /\
       (forall j q, j <> i -> proc_at k j q -> proc_at k' j q) /\
       exists p, proc_at k' i p /\ fresh_proc code size (take (Z.to_nat n) caps) i p)).
Proof.
  intros Hk Hsz Hcode Hn Hnc HFc.
  destruct (signature_ok_spec (buf_bytes code)) as (b & Hs & Hb); [destruct Hcode; lia|].
  fold (has_signature code) in Hb. split.
  - intros Hor. apply (create_process_refused _ _ _ _ _ b Hs).
    destruct b; [|by left]. right. naive_solver.
  - intros i h w Hsig Hf Hm. rewrite (proj2 Hb Hsig) in Hs.
    destruct (create_process_success code size caps n k i h w) as (q & -> & Hq); try done; [lia|].
    destruct (free_slot_proc k i Hk Hf) as (p & Hp & _).
    split_and!; [done| |done| |].
    + apply (kwf_put (set_world k _)); [by apply kwf_world|apply Hq].
    + intros j r Hne Hr. by apply (proc_at_put_ne (set_world k _) i p).
    + exists q. split; [by apply (proc_at_put_eq (set_world k _) i p)|done].
Qed.

(** Out of memory.  When the heap of a new process cannot be allocated,
    [nvm_create_process] returns -1, but the slot stays claimed: it is active
    and schedulable with a NULL heap (its size still that of the slot's
    previous owner). *)
Theorem create_process_out_of_memory code size caps n k i w :
  kwf k -> signature_ok (buf_bytes code) = Ret true -> free_slot k = Some i ->
  kmalloc HEAP_SIZE (world k) = (w, None) ->
  runs_to (nvm_create_process code size caps n k) (fun '(k', r) => r = -1 /\
    exists p0 p, proc_at k i p0 /\ proc_at k' i p /\ schedulable p = true /\
      heap p = None /\ heap_size p = heap_size p0 /\ free_slot k' <> Some i).
Proof.
  intros Hk Hsig Hf Hm. unfold nvm_create_process.
  destruct (free_slot_proc k i Hk Hf) as (p & Hp & Ha & Hi). unfold free_slot in Hf.
  rewrite Hsig. cbn [mbind outcome_bind negb]. rewrite Hf, (get_proc_at _ _ _ Hp).
  cbn [mbind outcome_bind]. rewrite Hm.
  rewrite (put_proc_ok (set_world k w) i p _ Hp). cbn [mbind outcome_bind].
  split; [done|]. exists p. eexists. split; [done|].
  split; [by apply (proc_at_put_eq (set_world k w) i p)|]. split_and!; try done.
  intros (_ & q & Hq & Hfalse & _)%first_index_Some.
  pose proof (proc_at_put_eq (set_world k w) i p (set_heap (claim_slot p i code size 0) None) Hp)
    as [_ Hq'].
  assert (q = set_heap (claim_slot p i code size 0) None) as -> by (simpl in *; congruence). done.
Qed.

(** ** SYS_SPAWN and capabilities *)

Lemma create_process_caps code size k k1 r :
  kwf k -> nvm_create_process code size [CAPS_NONE] 1 k = Ret (k1, r) -> 0 <= r ->
  exists p0 q, proc_at k r p0 /\ active p0 = false /\
    processes k1 = <[Z.to_nat r := q]> (processes k) /\
    capabilities q = <[0%nat := CAPS_NONE]> (capabilities p0) /\ caps_count q = 1.
Proof.
  intros Hk. unfold nvm_create_process.
  destruct (signature_ok _) as [b| |]; [|by intros..]. cbn [mbind outcome_bind].
  destruct b; cbn [negb]; [|intros [= <- <-]; lia].
  destruct (first_index _ _) as [i|] eqn:Hf; [|intros [= <- <-]; lia].
  destruct (free_slot_proc k i Hk Hf) as (p & Hp & Ha & Hi).
  rewrite (get_proc_at _ _ _ Hp). cbn [mbind outcome_bind].
  destruct (kmalloc HEAP_SIZE (world k)) as [w [h|]].
  - destruct (zero_fill h HEAP_SIZE) as [h'| |]; [|by intros..]. cbn [mbind outcome_bind].
    change (Z.to_nat (Z.min 1 MAX_CAPS)) with 1%nat. cbn [caps_copy_loop].
    change (aget [CAPS_NONE] 0) with (Ret CAPS_NONE). cbn [mbind outcome_bind].
    pose proof (wf_caps_len _ (proc_at_wf _ _ _ Hk Hp)) as Hl.
    rewrite aset_in_bounds by (simpl; unfold MAX_CAPS in Hl; lia). cbn [mbind outcome_bind].
    rewrite (put_proc_ok (set_world k w) i p _ Hp). cbn [mbind outcome_bind].
    intros [= <- <-] _. exists p. eexists. split; [done|]. split; [done|]. split; [done|]. done.
  - rewrite (put_proc_ok (set_world k w) i p _ Hp). cbn [mbind outcome_bind].
    intros [= <- <-]. lia.
Qed.

(** The last part of SYS_SPAWN: the capability copy and the arguments. *)
Lemma spawn_tail_caps k k1 k' i p q r :
  kwf k -> proc_at k i p -> active p = true -> pid p = i ->
  (exists p0, proc_at k r p0 /\ active p0 = false /\
    processes k1 = <[Z.to_nat r := q]> (processes k) /\
    capabilities q = <[0%nat := CAPS_NONE]> (capabilities p0) /\ caps_count q = 1) ->
  forall argv argc,
  (p ← get_proc k1 i; dest ← get_proc k1 (pid p); src ← get_proc k1 r;
   '(dest, _) ← caps_copy dest src; k ← put_proc k1 (pid p) dest;
   if len argv <? argc then Fault UninitRead else
   let args := map buf_bytes (drop 1 argv) in
   let w := procfs_set_args r args (world k) in
   w ← free_args argv (Z.to_nat argc) w;
   Ret (set_world k w, r)) = Ret (k', r) ->
  exists p' q', proc_at k' i p' /\ cap_list p' = [CAPS_NONE] /\
    proc_at k' r q' /\ cap_list q' = [CAPS_NONE].
Proof.
  intros Hk Hp Ha Hpid (p0 & Hp0 & Ha0 & Hps & Hcq & Hnq) argv argc.
  assert (Hne : i <> r) by (intros ->; rewrite (proc_at_fun _ _ _ _ Hp Hp0) in Ha; congruence).
  pose proof (wf_caps_len _ (proc_at_wf _ _ _ Hk Hp)) as Hl.
  pose proof (wf_caps_len _ (proc_at_wf _ _ _ Hk Hp0)) as Hl0.
  pose proof (proc_at_range _ _ _ Hp0) as Hr0.
  assert (Hp1 : proc_at k1 i p).
  { destruct Hp. split; [done|]. rewrite Hps, list_lookup_insert_ne by lia. done. }
  assert (Hq1 : proc_at k1 r q).
  { split; [lia|]. rewrite Hps. apply list_lookup_insert_eq. unfold len in Hr0. lia. }
  rewrite (get_proc_at _ _ _ Hp1). cbn [mbind outcome_bind]. rewrite Hpid.
  rewrite (get_proc_at _ _ _ Hp1), (get_proc_at _ _ _ Hq1). cbn [mbind outcome_bind].
  unfold caps_copy. rewrite Hnq. change (Z.to_nat 1) with 1%nat. cbn [caps_copy_loop].
  rewrite Hcq. unfold len, MAX_CAPS in Hl, Hl0.
  rewrite (aget_lookup _ 0 CAPS_NONE) by (try lia; apply list_lookup_insert_eq; lia).
  cbn [mbind outcome_bind]. rewrite aset_in_bounds by (unfold len; lia). cbn [mbind outcome_bind].
  rewrite (put_proc_ok _ _ _ _ Hp1). cbn [mbind outcome_bind].
  destruct (len argv <? argc); [by intros|].
  destruct (free_args argv (Z.to_nat argc) _) as [w| |]; [|by intros..]. cbn [mbind outcome_bind].
  intros [= <-].
  assert (Hhead : forall l : list Z, (1 <= length l)%nat -> take 1 (<[0%nat := CAPS_NONE]> l) = [CAPS_NONE]).
  { intros [|x l]; simpl; [lia|done]. }
  eexists. exists q. split; [by apply (proc_at_put_eq k1 i p)|]. split; [apply Hhead; lia|].
  split; [by apply (proc_at_put_ne k1 i p)|]. unfold cap_list. rewrite Hnq, Hcq. apply Hhead. lia.
Qed.

Lemma kwf_sp k i p v w :
  kwf k -> proc_at k i p -> 0 <= v <= STACK_SIZE ->
  kwf (set_world (set_processes k (<[Z.to_nat i := set_sp p v]> (processes k))) w).
Proof.
  intros Hk Hp Hv. apply kwf_world, kwf_put; [done|].
  apply proc_wf_set_sp; [by eapply proc_at_wf|done].
Qed.

Lemma scan_zero_range (st : list Z) n : forall pos r s,
  Z.of_nat n = pos + 1 -> scan_zero st pos n = Ret (r, s) ->
  -1 <= r <= pos /\ (s = -1 \/ 1 <= s <= pos + 1).
Proof.
  induction n as [|n IH]; intros pos r s Hn; cbn [scan_zero].
  { intros [= <- <-]. lia. }
  destruct (aget st pos) as [c| |]; [|by intros..]. cbn [mbind outcome_bind].
  destruct (c =? 0); [intros [= <- <-]; lia|]. intros H. apply IH in H; lia.
Qed.

(** The stack position the argument loop ends at. *)
Lemma collect_args_range (st : list Z) n : forall pos argv w w' argv' pos',
  -1 <= pos < STACK_SIZE -> collect_args st pos argv n w = Ret (w', argv', pos', false) ->
  -1 <= pos' < STACK_SIZE.
Proof.
  induction n as [|n IH]; intros pos argv w w' argv' pos' Hpos; cbn [collect_args].
  { intros [= _ _ <-]. lia. }
  destruct (Z.ltb_spec pos 0); [intros [= _ _ <-]; lia|].
  destruct (scan_zero st pos _) as [[r s]| |] eqn:Hsc; [|by intros..]. cbn [mbind outcome_bind].
  apply scan_zero_range in Hsc as [? ?]; [|lia].
  destruct ((s =? -1) || (pos <? s)) eqn:Hc; [by intros|].
  apply orb_false_iff in Hc as [Hc1%Z.eqb_neq Hc2%Z.ltb_ge].
  destruct (kmalloc _ w) as [w1 [b|]]; [|by intros].
  destruct (copy_cells _ _ _ _ _) as [bs| |]; [|by intros..]. cbn [mbind outcome_bind].
  apply IH. lia.
Qed.

(** SYS_SPAWN strips the caller.  When the call succeeds, the capability
    copy goes from the child to the parent: both the new process and the
    caller end up with the single capability CAPS_NONE, whatever the caller
    held. *)
Theorem spawn_strips_caller fuel k k' i p r :
  kwf k -> proc_at k i p -> active p = true -> pid p = i ->
  sys_spawn fuel i k = Ret (k', r) -> 0 <= r ->
  exists p' q', proc_at k' i p' /\ cap_list p' = [CAPS_NONE] /\
    proc_at k' r q' /\ cap_list q' = [CAPS_NONE].
Proof.
  intros Hk Hp Ha Hpid. unfold sys_spawn. rewrite (get_proc_at _ _ _ Hp). cbn [mbind outcome_bind].
  pose proof (proc_at_wf _ _ _ Hk Hp) as Hw. pose proof (wf_sp _ Hw) as Hsp.
  rewrite (caps_has_capability_spec _ _ Hw). cbn [mbind outcome_bind].
  destruct (negb _); [intros [= _ <-]; lia|].
  destruct (Z.ltb_spec (sp p) 1); [intros [= _ <-]; lia|].
  destruct (aget (stack p) (sp p - 1)) as [fd| |]; [|by intros..]. cbn [mbind outcome_bind].
  destruct (aget (stack p) (sp p - 2)) as [argc| |] eqn:Hargc; [|by intros..]. cbn [mbind outcome_bind].
  apply aget_inv in Hargc as [Hsp2 _].
  destruct (_ || _); [intros [= _ <-]; lia|]. unfold STACK_SIZE in Hsp. rewrite u16_id by lia.
  destruct (collect_args _ _ _ _ _) as [[[[w argv] pos] [|]]| |] eqn:Hcol; [..|by intros|by intros];
    cbn [mbind outcome_bind].
  { destruct (free_args _ _ _); [|by intros..]. cbn [mbind outcome_bind].
    destruct (put_proc _ _ _); [|by intros..]. intros [= _ <-]. lia. }
  apply collect_args_range in Hcol; [|cbn [sp set_sp]; unfold STACK_SIZE; lia].
  unfold STACK_SIZE in Hcol. rewrite u16_id by lia.
  rewrite (put_proc_ok _ _ _ _ Hp). cbn [mbind outcome_bind].
  set (p1 := set_sp (set_sp p _) _). set (k1 := set_processes k _).
  assert (Hk1 : forall w, kwf (set_world k1 w)).
  { intros w'. apply kwf_world, kwf_put; [done|].
    apply proc_wf_set_sp; [apply proc_wf_set_sp|]; [done|unfold STACK_SIZE; lia..]. }
  assert (Hp1 : forall w, proc_at (set_world k1 w) i p1) by (intros; by apply (proc_at_put_eq k i p)).
  destruct (kmalloc 1024 w) as [w1 [b|]].
  2: { destruct (free_args _ _ _); [|by intros..]. intros [= _ <-]. lia. }
  destruct (spawn_read _ _ _ _ _ _ _ _) as [[w2 [[code csize]|]]| |]; [| |by intros..];
    cbn [mbind outcome_bind]; [|intros [= _ <-]; lia].
  destruct (nvm_create_process _ _ _ _ _) as [[k2 pid']| |] eqn:Hcr; [|by intros..].
  cbn [mbind outcome_bind]. destruct (Z.ltb_spec pid' 0).
  { destruct (free_args _ _ _); [|by intros..]. intros [= _ <-]. lia. }
  intros Htail _. apply create_process_caps in Hcr as (p0 & q & Hcr); [|apply Hk1|done].
  assert (pid' = r) as ->.
  { revert Htail. repeat (path; repeat match goal with x : _ * _ |- _ => destruct x end; try by intros). }
  eapply (spawn_tail_caps (set_world k1 w2) k2 k' i p1 q r); eauto.
Qed.

(** A spawn without arguments, up to the point where every step succeeds. *)
Lemma spawn_no_args fuel k i p fd w1 b w2 code size w3 h r :
  kwf k -> proc_at k i p -> pid p = i -> grants p CAP_FS_READ ->
  2 <= sp p -> stack p !! Z.to_nat (sp p - 1) = Some fd -> stack p !! Z.to_nat (sp p - 2) = Some 0 ->
  kmalloc 1024 (world k) = (w1, Some b) ->
  spawn_read fuel fd b 0 1024 [] 0 w1 = Ret (w2, Some (code, size)) ->
  signature_ok (buf_bytes code) = Ret true -> buffer_ok size code -> 0 <= size < 2147483648 ->
  free_slot k = Some r -> kmalloc HEAP_SIZE w2 = (w3, Some h) ->
  exists k', sys_spawn fuel i k = Ret (k', r) /\ 0 <= r.
Proof.
  intros Hk Hp Hpid Hg Hsp Hfd Hargc Hm1 Hrd Hsig Hcode Hsz Hfree Hm2.
  pose proof (proc_at_wf _ _ _ Hk Hp) as Hw. pose proof (wf_sp _ Hw) as Hs. unfold STACK_SIZE in Hs.
  destruct (free_slot_proc k r Hk Hfree) as (p0 & Hp0 & Ha0 & Hr).
  unfold sys_spawn. rewrite (get_proc_at _ _ _ Hp). cbn [mbind outcome_bind].
  rewrite (caps_has_capability_spec _ _ Hw), bool_decide_eq_true_2 by done.
  cbn [mbind outcome_bind negb]. destruct (Z.ltb_spec (sp p) 1); [lia|].
  rewrite (aget_lookup _ (sp p - 1) fd), (aget_lookup _ (sp p - 2) 0) by (done || lia).
  cbn [mbind outcome_bind]. change ((0 <? 0) || (32 <? 0)) with false.
  change (Z.to_nat 0) with 0%nat. cbn [collect_args mbind outcome_bind sp set_sp].
  rewrite !u16_id by lia. rewrite (put_proc_ok _ _ _ _ Hp). cbn [mbind outcome_bind].
  rewrite Hm1, Hrd. cbn [mbind outcome_bind].
  set (p1 := set_sp (set_sp p _) _). set (k1 := set_world (set_processes k _) w2).
  assert (Hw1 : proc_wf p1)
    by (apply proc_wf_set_sp; [apply proc_wf_set_sp|]; [done|unfold STACK_SIZE; lia..]).
  assert (Hp1 : proc_at k1 i p1) by (by apply (proc_at_put_eq k i p)).
  rewrite (u32_id size) by lia.
  destruct (create_process_success code size [CAPS_NONE] 1 k1 r h w3) as (q & -> & Hq); try done.
  { by apply kwf_world, kwf_put. }
  { by apply Forall_singleton. }
  { unfold free_slot in *. rewrite <- Hfree. by apply (first_index_insert _ _ _ _ p (proj2 Hp)). }
  cbn [mbind outcome_bind]. destruct (Z.ltb_spec r 0); [lia|].
  assert (Hr1 : exists q0, proc_at k1 r q0).
  { destruct (lookup_lt_is_Some_2 (processes k1) (Z.to_nat r)) as [q0 Hq0].
    - simpl. rewrite length_insert. pose proof (proc_at_range _ _ _ Hp0). unfold len in *. lia.
    - exists q0. split; [lia|done]. }
  destruct Hr1 as [q0 Hq0]. set (k2 := set_processes (set_world k1 _) _).
  assert (Hq2 : proc_at k2 r q) by (by apply (proc_at_put_eq (set_world k1 (procfs_register r w3)) r q0)).
  assert (Hi2 : exists p2, proc_at k2 i p2 /\ proc_wf p2 /\ pid p2 = i).
  { destruct (decide (i = r)) as [->|Hne].
    - exists q. split; [done|]. split; apply Hq.
    - exists p1. split; [by apply (proc_at_put_ne (set_world k1 (procfs_register r w3)) r q0)|done]. }
  destruct Hi2 as (p2 & Hp2 & Hwp2 & Hpid2).
  rewrite (get_proc_at _ _ _ Hp2). cbn [mbind outcome_bind]. rewrite Hpid2.
  rewrite (get_proc_at _ _ _ Hp2), (get_proc_at _ _ _ Hq2). cbn [mbind outcome_bind].
  pose proof (caps_copy_spec p2 q Hwp2 (fr_wf _ _ _ _ _ Hq)) as Hcc.
  apply runs_to_inv in Hcc as ([d ok] & -> & _). cbn [mbind outcome_bind].
  rewrite (put_proc_ok _ _ _ _ Hp2). cbn [mbind outcome_bind].
  change (len (@nil buffer) <? 0) with false. cbn [free_args mbind outcome_bind].
  eexists. split; [reflexivity|lia].
Qed.

(** SYS_SPAWN below its operands.  The guard asks for one cell and two
    are read: with one cell on the stack the second operand is read below the
    array. *)
Theorem spawn_underflow fuel k i p :
  kwf k -> proc_at k i p -> grants p CAP_FS_READ -> sp p = 1 ->
  sys_spawn fuel i k = Fault OutOfBounds.
Proof.
  intros Hk Hp Hg Hs. unfold sys_spawn. rewrite (get_proc_at _ _ _ Hp). cbn [mbind outcome_bind].
  pose proof (proc_at_wf _ _ _ Hk Hp) as Hw.
  rewrite (caps_has_capability_spec _ _ Hw). cbn [mbind outcome_bind].
  rewrite bool_decide_eq_true_2 by done. cbn [negb]. rewrite Hs. change (1 <? 1) with false. cbn iota.
  destruct (aget_in_bounds (stack p) (1 - 1)) as (c & -> & _).
  { rewrite (wf_stack_len _ Hw). unfold STACK_SIZE. lia. }
  cbn [mbind outcome_bind]. by rewrite aget_out_of_bounds by lia.
Qed.

End Spawn.

(** ** Witnesses *)

Definition tiny_code : buffer := mkbuf 8192 [0x4E; 0x56; 0x4D; 0x30; 0x00].

Definition one_process : kstate demo_world :=
  demo_kernel [demo_proc 0 [0x50; 1] [0; 3] [CAP_FS_READ]] [] 0
    (demo_world0 [0x4E; 0x56; 0x4D; 0x30; 0x00]).

Lemma one_process_wf : kwf one_process.
Proof. demo_wf. Qed.

Lemma tiny_code_ok : buffer_ok 5 tiny_code.
Proof. split; [vm_compute; discriminate|]. apply (bool_decide_unpack _). vm_compute. exact I. Qed.

Lemma create_process_correct_witness :
  runs_to (nvm_create_process tiny_code 5 [CAP_FS_READ] 1 one_process) (fun '(k', r) =>
    r = 1 /\ kwf k' /\ message_queue k' = message_queue one_process /\
    (forall j q, j <> 1 -> proc_at one_process j q -> proc_at k' j q) /\
    exists p, proc_at k' 1 p /\ fresh_proc tiny_code 5 [CAP_FS_READ] 1 p).
Proof.
  eapply (create_process_correct tiny_code 5 [CAP_FS_READ] 1 one_process);
    [apply one_process_wf|lia|apply tiny_code_ok|vm_compute; split; discriminate
    |vm_compute; discriminate|by repeat constructor|by eexists|reflexivity|reflexivity].
Defined.

(** The same kernel with no memory left. *)
Definition no_memory : kstate demo_world :=
  set_world one_process (mkdw 1048576 1048576 [] []).

Lemma create_process_out_of_memory_witness :
  runs_to (nvm_create_process tiny_code 5 [CAP_FS_READ] 1 no_memory) (fun '(k', r) => r = -1 /\
    exists p0 p, proc_at no_memory 1 p0 /\ proc_at k' 1 p /\ schedulable p = true /\
      heap p = None /\ heap_size p = heap_size p0 /\ free_slot k' <> Some 1).
Proof.
  eapply (create_process_out_of_memory tiny_code 5 [CAP_FS_READ] 1 no_memory 1);
    [apply kwf_world, one_process_wf|reflexivity|reflexivity|reflexivity].
Defined.

Lemma spawn_runs :
  exists k' r, sys_spawn 10 0 one_process = Ret (k', r) /\ 0 <= r.
Proof.
  destruct (spawn_no_args 10 one_process 0 (demo_proc 0 [0x50; 1] [0; 3] [CAP_FS_READ]) 3
    (mkdw 5120 1048576 [0x4E; 0x56; 0x4D; 0x30; 0x00] [])
    (mkbuf 4096 (replicate (Z.to_nat 1024) 0)) (mkdw 5120 1048576 [] [])
    (mkbuf 4096 ([0x4E; 0x56; 0x4D; 0x30; 0x00] ++ replicate 1019 0)) 5
    (mkdw (5120 + HEAP_SIZE) 1048576 [] []) (mkbuf 5120 (replicate (Z.to_nat HEAP_SIZE) 0)) 1)
    as (k' & Hrun & _).
  - apply one_process_wf.
  - split; [lia|reflexivity].
  - reflexivity.
  - apply (bool_decide_unpack _). vm_compute. exact I.
  - vm_compute. discriminate.
  - reflexivity.
  - reflexivity.
  - reflexivity.
  - vm_compute. reflexivity.
  - reflexivity.
  - split; [vm_compute; discriminate|]. apply (bool_decide_unpack _). vm_compute. exact I.
  - lia.
  - reflexivity.
  - reflexivity.
  - exists k', 1. split; [exact Hrun|lia].
Qed.

Lemma spawn_strips_caller_witness :
  exists k' r, sys_spawn 10 0 one_process = Ret (k', r) /\
    exists p' q', proc_at k' 0 p' /\ cap_list p' = [CAPS_NONE] /\
      proc_at k' r q' /\ cap_list q' = [CAPS_NONE].
Proof.
  destruct spawn_runs as (k' & r & Hrun & Hr). exists k', r. split; [exact Hrun|].
  apply (spawn_strips_caller 10 one_process k' 0 (demo_proc 0 [0x50; 1] [0; 3] [CAP_FS_READ]) r);
    [apply one_process_wf|split; [lia|reflexivity]|reflexivity|reflexivity|exact Hrun|exact Hr].
Defined.

Lemma spawn_underflow_witness :
  sys_spawn 10 0 (demo_kernel [demo_proc 0 [0x50; 1] [3] [CAP_FS_READ]] [] 0 (demo_world0 []))
    = Fault OutOfBounds.
Proof.
  apply (spawn_underflow 10 _ 0 (demo_proc 0 [0x50; 1] [3] [CAP_FS_READ]));
    [demo_wf|split; [lia|reflexivity]| |reflexivity].
  apply (bool_decide_unpack _). vm_compute. exact I.
Defined.
