(* ===== verification/Buddy.v ===== *)
(** * The buddy allocator: model

    core/kernel/mem/buddy.c and include/core/kernel/mem/buddy.h.  A pointer is
    its address ([0] is NULL); the free-area bitmaps, which the code places at
    the end of the pool, are word arrays with an address.  The operations hold
    the allocator's spinlock from their first access to their last, so each is
    one step; log calls are left out, a call of panic() is a fault.  The allocator
    argument is an object, so the tests of it against NULL are left out. *)

From S2P Require Import Prelude.

Definition BUDDY_MAX_ORDER : Z := 20.
Definition BUDDY_MIN_ORDER : Z := 12.
Definition BUDDY_BLOCK_SIZE (order : Z) : Z := Z.shiftl 1 order.
Definition SIZE_MAX : Z := 2 ^ 64 - 1.

Record bitmap := mkbitmap { bm_addr : Z; bm_words : list Z }.

Record buddy_allocator := mkbuddy {
  pool_start : Z;
  pool_size : Z;
  hhdm_offset : Z;
  free_area_bitmap : list (option bitmap);   (** one per order, NULL below the minimum *)
  free_area_size : list Z;
  max_blocks : list Z
}.

Definition set_bitmaps a v := mkbuddy (pool_start a) (pool_size a) (hhdm_offset a) v (free_area_size a) (max_blocks a).
Definition set_sizes a v := mkbuddy (pool_start a) (pool_size a) (hhdm_offset a) (free_area_bitmap a) v (max_blocks a).
Definition set_pool_size a v := mkbuddy (pool_start a) v (hhdm_offset a) (free_area_bitmap a) (free_area_size a) (max_blocks a).
Definition set_max_blocks a v := mkbuddy (pool_start a) (pool_size a) (hhdm_offset a) (free_area_bitmap a) (free_area_size a) v.

(** ** Orders and addresses *)

Fixpoint minimum_order_loop (n : nat) (order block_size size : Z) : Z :=
  match n with
  | O => order
  | S n' =>
      if (block_size <? size) && (order <? BUDDY_MAX_ORDER)
      then minimum_order_loop n' (order + 1) (u64 (Z.shiftl block_size 1)) size
      else order
  end.

Definition get_minimum_order (size : Z) : Z :=
  minimum_order_loop (Z.to_nat (BUDDY_MAX_ORDER - BUDDY_MIN_ORDER)) BUDDY_MIN_ORDER
    (BUDDY_BLOCK_SIZE BUDDY_MIN_ORDER) size.

Definition get_buddy_address (block order start : Z) : Z :=
  let offset := u64 (block - start) in
  u64 (start + Z.lxor offset (BUDDY_BLOCK_SIZE order)).

Definition is_valid_block (a : buddy_allocator) (ptr order : Z) : bool :=
  if ptr =? 0 then false else
  let pool_end := u64 (pool_start a + pool_size a) in
  if (ptr <? pool_start a) || (pool_end <=? ptr) then false else
  (u64 (ptr - pool_start a)) mod BUDDY_BLOCK_SIZE order =? 0.

Definition get_block_index (ptr start order : Z) : Z :=
  u64 (ptr - start) / BUDDY_BLOCK_SIZE order.

Definition get_block_address (a : buddy_allocator) (order index : Z) : Z :=
  u64 (pool_start a + u64 (index * BUDDY_BLOCK_SIZE order)).

(** ** Bits *)

Definition is_valid_bitmap_index (bm : option bitmap) (max index : Z) : bool :=
  match bm with None => false | Some _ => index <? max end.

(** [set_bit] and [clear_bit]: an invalid index is logged and ignored. *)
Definition update_bit (f : Z -> Z -> Z) (bm : option bitmap) (index max : Z)
  : outcome (option bitmap) :=
  if negb (is_valid_bitmap_index bm max index) then Ret bm else
  match bm with
  | None => Ret None
  | Some b =>
      w ← aget (bm_words b) (index / 32);
      ws ← aset (bm_words b) (index / 32) (f w (Z.shiftl 1 (index mod 32)));
      Ret (Some (mkbitmap (bm_addr b) ws))
  end.

Definition set_bit := update_bit (fun w mask => Z.lor w mask).
Definition clear_bit := update_bit (fun w mask => Z.land w (Z.lnot mask)).

Definition test_bit (bm : option bitmap) (index max : Z) : outcome bool :=
  if negb (is_valid_bitmap_index bm max index) then Ret false else
  match bm with
  | None => Ret false
  | Some b =>
      w ← aget (bm_words b) (index / 32);
      Ret (negb (Z.land w (Z.shiftl 1 (index mod 32)) =? 0))
  end.

Fixpoint find_free_loop (bm : option bitmap) (max i : Z) (n : nat) : outcome Z :=
  match n with
  | O => Ret SIZE_MAX
  | S n' =>
      t ← test_bit bm i max;
      if negb t then Ret i else find_free_loop bm max (i + 1) n'
  end.

Definition find_first_free_bit (bm : option bitmap) (max : Z) : outcome Z :=
  find_free_loop bm max 0 (Z.to_nat max).

(** The same on the bitmap of an order of the allocator. *)
Definition on_bitmap (f : option bitmap -> Z -> Z -> outcome (option bitmap))
    (a : buddy_allocator) (order index : Z) : outcome buddy_allocator :=
  bm ← aget (free_area_bitmap a) order;
  max ← aget (max_blocks a) order;
  bm ← f bm index max;
  bms ← aset (free_area_bitmap a) order bm;
  Ret (set_bitmaps a bms).

Definition test_order (a : buddy_allocator) (order index : Z) : outcome bool :=
  bm ← aget (free_area_bitmap a) order;
  max ← aget (max_blocks a) order;
  test_bit bm index max.

(** [free_area_size[order] += d], in [size_t]. *)
Definition add_size (a : buddy_allocator) (order d : Z) : outcome buddy_allocator :=
  n ← aget (free_area_size a) order;
  ns ← aset (free_area_size a) order (u64 (n + d));
  Ret (set_sizes a ns).

(** ** Splitting and allocating *)

Definition split_block (a : buddy_allocator) (order index : Z) : outcome buddy_allocator :=
  let new_order := order - 1 in
  let left := index * 2 in
  let right := index * 2 + 1 in
  max ← aget (max_blocks a) new_order;
  if (max <=? left) || (max <=? right) then Ret a else
  a ← on_bitmap clear_bit a new_order left;
  a ← on_bitmap clear_bit a new_order right;
  add_size a new_order 2.

(** The recursion ends at order 21; [fuel] counts the orders left. *)
Fixpoint alloc_block (fuel : nat) (a : buddy_allocator) (order : Z)
  : outcome (buddy_allocator * Z) :=
  match fuel with
  | O => OutOfFuel
  | S fuel' =>
      if BUDDY_MAX_ORDER <? order then Ret (a, 0) else
      n ← aget (free_area_size a) order;
      if n =? 0 then
        '(a, larger) ← alloc_block fuel' a (order + 1);
        if larger =? 0 then Ret (a, 0) else
        let larger_index := get_block_index larger (pool_start a) (order + 1) in
        a ← split_block a (order + 1) larger_index;
        max ← aget (max_blocks a) order;
        if (max <=? larger_index * 2) && (max <=? larger_index * 2 + 1) then Ret (a, larger) else
        let left := if max <=? larger_index * 2 then larger_index * 2 + 1 else larger_index * 2 in
        a ← on_bitmap set_bit a order left;
        a ← add_size a order (-1);
        Ret (a, get_block_address a order left)
      else
        bm ← aget (free_area_bitmap a) order;
        max ← aget (max_blocks a) order;
        free_index ← find_first_free_bit bm max;
        if free_index =? SIZE_MAX then Ret (a, 0) else
        a ← on_bitmap set_bit a order free_index;
        a ← add_size a order (-1);
        Ret (a, get_block_address a order free_index)
  end.

Definition buddy_alloc (a : buddy_allocator) (size : Z) : outcome (buddy_allocator * Z) :=
  if size =? 0 then Ret (a, 0) else
  if pool_size a <? size then Ret (a, 0) else
  let target_order := get_minimum_order size in
  alloc_block (Z.to_nat (BUDDY_MAX_ORDER + 2 - target_order)) a target_order.

(** ** Freeing and merging *)

(** The merge loop: at most one iteration per order below the maximum. *)
Fixpoint merge_loop (n : nat) (a : buddy_allocator) (block order index : Z)
  : outcome buddy_allocator :=
  match n with
  | O => Ret a
  | S n' =>
      if negb (order <? BUDDY_MAX_ORDER) then Ret a else
      let buddy := get_buddy_address block order (pool_start a) in
      if negb (is_valid_block a buddy order) then Ret a else
      let buddy_index := get_block_index buddy (pool_start a) order in
      t ← test_order a order buddy_index;
      if (t : bool) then Ret a else
      t1 ← test_order a order index;
      t2 ← test_order a order buddy_index;
      if t1 || t2 then Ret a else
      a ← on_bitmap set_bit a order index;
      a ← on_bitmap set_bit a order buddy_index;
      a ← add_size a order (-2);
      let merged := if block <? buddy then block else buddy in
      let merged_index := get_block_index merged (pool_start a) (order + 1) in
      max ← aget (max_blocks a) (order + 1);
      if max <=? merged_index then Ret a else
      a ← on_bitmap clear_bit a (order + 1) merged_index;
      a ← add_size a (order + 1) 1;
      merge_loop n' a merged (order + 1) merged_index
  end.

Definition free_block (a : buddy_allocator) (ptr order : Z) : outcome buddy_allocator :=
  if negb (is_valid_block a ptr order) then Ret a else
  let index := get_block_index ptr (pool_start a) order in
  a ← on_bitmap clear_bit a order index;
  a ← add_size a order 1;
  merge_loop (Z.to_nat (BUDDY_MAX_ORDER - order)) a ptr order index.

Definition buddy_free (a : buddy_allocator) (ptr order : Z) : outcome buddy_allocator :=
  if ptr =? 0 then Ret a else
  if (order <? BUDDY_MIN_ORDER) || (BUDDY_MAX_ORDER <? order) then Ret a else
  if negb (is_valid_block a ptr order) then Ret a else
  free_block a ptr order.

(** ** Initialisation *)

Definition orders : list Z := seqZ BUDDY_MIN_ORDER (BUDDY_MAX_ORDER + 1 - BUDDY_MIN_ORDER).

(** An array of [BUDDY_MAX_ORDER + 1] cells, assigned from the minimum order
    on; the cells below keep their values. *)
Definition per_order {A} (old : list A) (f : Z -> A) : list A :=
  take (Z.to_nat BUDDY_MIN_ORDER) old ++ map f orders.

Definition bitmap_words_for (n : Z) : Z := (n + 31) / 32.

(** The address of the bitmap of [order]: the bitmaps are laid out downwards
    from the end of the pool, the largest order first. *)
Definition bitmap_address (pool_end size order : Z) : Z :=
  u64 (pool_end - sumZ (fun o => 4 * bitmap_words_for (size / BUDDY_BLOCK_SIZE o))
                    (seqZ order (BUDDY_MAX_ORDER + 1 - order))).

(** [while (max_order > MIN && max_blocks[max_order] == 0) max_order--]. *)
Fixpoint top_order_loop (n : nat) (max : list Z) (order : Z) : outcome Z :=
  match n with
  | O => Ret order
  | S n' =>
      if BUDDY_MIN_ORDER <? order then
        m ← aget max order;
        if m =? 0 then top_order_loop n' max (order - 1) else Ret order
      else Ret order
  end.

Definition buddy_init (a : buddy_allocator) (start size hhdm : Z) : outcome buddy_allocator :=
  if start =? 0 then Fault Panicked else
  if size =? 0 then Fault Panicked else
  if size <? BUDDY_BLOCK_SIZE BUDDY_MIN_ORDER then Fault Panicked else
  let size := size - size mod BUDDY_BLOCK_SIZE BUDDY_MIN_ORDER in
  let total := sumZ (fun o => 4 * bitmap_words_for (size / BUDDY_BLOCK_SIZE o)) orders in
  if negb (total <? size) then Fault Panicked else
  let size := size - total in
  let max := per_order (max_blocks a) (fun o => size / BUDDY_BLOCK_SIZE o) in
  let pool_end := u64 (start + size) in
  let bitmaps := per_order (free_area_bitmap a) (fun o =>
    Some (mkbitmap (bitmap_address pool_end size o)
            (replicate (Z.to_nat (bitmap_words_for (size / BUDDY_BLOCK_SIZE o))) 0xFFFFFFFF))) in
  let sizes := per_order (free_area_size a) (fun _ => 0) in
  if bitmap_address pool_end size BUDDY_MIN_ORDER <? start then Fault Panicked else
  max_order ← top_order_loop (Z.to_nat (BUDDY_MAX_ORDER - BUDDY_MIN_ORDER)) max BUDDY_MAX_ORDER;
  m ← aget max max_order;
  if (max_order <? BUDDY_MIN_ORDER) || (m =? 0) then Fault Panicked else
  let block_size := BUDDY_BLOCK_SIZE max_order in
  let adjusted := (size / block_size) * block_size in
  max ← (if negb (size mod block_size =? 0) then aset max max_order (adjusted / block_size)
         else Ret max);
  let size := if negb (size mod block_size =? 0) then adjusted else size in
  let a := mkbuddy start size hhdm bitmaps sizes max in
  m ← aget max max_order;
  if 0 <? m then
    a ← on_bitmap clear_bit a max_order 0;
    ns ← aset (free_area_size a) max_order 1;
    Ret (set_sizes a ns)
  else Ret a.

(** ** Statistics *)

Fixpoint free_memory_loop (a : buddy_allocator) (os : list Z) (acc : Z) : outcome Z :=
  match os with
  | [] => Ret acc
  | o :: os' =>
      n ← aget (free_area_size a) o;
      free_memory_loop a os' (u64 (acc + u64 (n * BUDDY_BLOCK_SIZE o)))
  end.

Definition buddy_get_free_memory (a : buddy_allocator) : outcome Z := free_memory_loop a orders 0.

Definition buddy_get_total_memory (a : buddy_allocator) : Z := pool_size a.
