(* ===== verification/BuddyProofs.v ===== *)
(** * The buddy allocator: invariant and correctness

    The invariant counts, for every byte of the heap, the blocks that own it:
    free blocks of any order and the live blocks handed out to callers.  The
    count is exactly one inside the block that [buddy_init] releases and zero
    outside, so blocks never overlap and no memory is lost; every operation
    preserves it. *)

From S2P Require Import Prelude Buddy.

#[global] Arguments BUDDY_MAX_ORDER : simpl never.
#[global] Arguments BUDDY_MIN_ORDER : simpl never.

Definition valid_order (o : Z) : Prop := BUDDY_MIN_ORDER <= o <= BUDDY_MAX_ORDER.

Lemma block_size_pow o : 0 <= o -> BUDDY_BLOCK_SIZE o = 2 ^ o.
Proof. intros. unfold BUDDY_BLOCK_SIZE. rewrite Z.shiftl_mul_pow2 by done. lia. Qed.

(** Facts on the powers of two of the valid orders, for [lia]. *)
Ltac order_facts o :=
  let H := fresh "Hpow" in assert (H : 4096 <= 2 ^ o <= 1048576)
    by (unfold valid_order, BUDDY_MIN_ORDER, BUDDY_MAX_ORDER in *;
        change 4096 with (2 ^ 12); change 1048576 with (2 ^ 20);
        split; apply Z.pow_le_mono_r; lia).

Lemma elem_of_orders o : o ∈ orders <-> valid_order o.
Proof.
  unfold orders, valid_order, BUDDY_MIN_ORDER, BUDDY_MAX_ORDER. rewrite elem_of_seqZ. lia.
Qed.

Lemma NoDup_orders : NoDup orders.
Proof. apply NoDup_seqZ. Qed.

(** ** Reading the allocator *)

Definition bmap (a : buddy_allocator) (o : Z) : option bitmap :=
  default None (free_area_bitmap a !! Z.to_nat o).
Definition nfree (a : buddy_allocator) (o : Z) : Z := default 0 (free_area_size a !! Z.to_nat o).
Definition maxb (a : buddy_allocator) (o : Z) : Z := default 0 (max_blocks a !! Z.to_nat o).

Definition word_bit (b : bitmap) (j : Z) : bool :=
  Z.testbit (default 0 (bm_words b !! Z.to_nat (j / 32))) (j mod 32).

(** Block [j] of order [o] is free: its bit is clear. *)
Definition free (a : buddy_allocator) (o j : Z) : bool :=
  match bmap a o with
  | Some b => (0 <=? j) && (j <? maxb a o) && negb (word_bit b j)
  | None => false
  end.

Record shape (a : buddy_allocator) : Prop := {
  sh_bitmaps : len (free_area_bitmap a) = 21;
  sh_sizes : len (free_area_size a) = 21;
  sh_maxes : len (max_blocks a) = 21;
  sh_bitmap : forall o, valid_order o ->
    exists b, bmap a o = Some b /\ maxb a o <= 32 * len (bm_words b);
  sh_max : forall o, valid_order o -> 0 <= maxb a o < 2 ^ 52;
  sh_start : 0 < pool_start a;
  sh_size : 0 <= pool_size a;
  sh_end : pool_start a + pool_size a < 2 ^ 64
}.

(** What no operation after initialisation changes. *)
Definition same_pool (a a' : buddy_allocator) : Prop :=
  pool_start a' = pool_start a /\ pool_size a' = pool_size a /\ max_blocks a' = max_blocks a.

Lemma same_pool_maxb a a' o : same_pool a a' -> maxb a' o = maxb a o.
Proof. intros (_ & _ & E). unfold maxb. by rewrite E. Qed.

Lemma same_pool_trans a b c : same_pool a b -> same_pool b c -> same_pool a c.
Proof. intros (?&?&?) (?&?&?). split_and!; congruence. Qed.

Lemma order_index {A} (l : list A) o :
  len l = 21 -> valid_order o -> 0 <= o < len l.
Proof. unfold valid_order, BUDDY_MIN_ORDER, BUDDY_MAX_ORDER. lia. Qed.

Lemma aget_default {A} (l : list A) (d : A) i :
  0 <= i < len l -> aget l i = Ret (default d (l !! Z.to_nat i)).
Proof. intros Hi. destruct (aget_in_bounds l i Hi) as (x & -> & ->). done. Qed.

Lemma default_insert {A} (l : list A) (d x : A) i j :
  0 <= i < len l -> 0 <= j ->
  default d (<[Z.to_nat i := x]> l !! Z.to_nat j) =
  if i =? j then x else default d (l !! Z.to_nat j).
Proof.
  intros Hi Hj. unfold len in Hi. destruct (Z.eqb_spec i j) as [->|Hne].
  - by rewrite list_lookup_insert_eq by lia.
  - by rewrite list_lookup_insert_ne by lia.
Qed.

(** ** Bits *)

Lemma mask_bit n k : 0 <= n -> Z.testbit (Z.shiftl 1 n) k = (k =? n).
Proof.
  intros Hn. rewrite Z.shiftl_mul_pow2, Z.mul_1_l by done.
  destruct (Z.eqb_spec k n) as [->|Hne]; [by rewrite Z.pow2_bits_true|].
  by apply Z.pow2_bits_false.
Qed.

Lemma test_mask w n : 0 <= n -> negb (Z.land w (Z.shiftl 1 n) =? 0) = Z.testbit w n.
Proof.
  intros Hn. destruct (Z.testbit w n) eqn:E.
  - apply negb_true_iff, Z.eqb_neq. intros H0.
    assert (Z.testbit (Z.land w (Z.shiftl 1 n)) n = false) by (rewrite H0; apply Z.bits_0).
    rewrite Z.land_spec, mask_bit, Z.eqb_refl, E in H by done. done.
  - apply negb_false_iff, Z.eqb_eq. apply Z.bits_inj'. intros m Hm.
    rewrite Z.land_spec, mask_bit, Z.bits_0 by done.
    destruct (Z.eqb_spec m n) as [->|]; [by rewrite E|by rewrite andb_false_r].
Qed.

(** A word update that gives bit [n] the value [v] and keeps the others. *)
Definition writes_bit (f : Z -> Z -> Z) (v : bool) : Prop :=
  forall w n m, 0 <= n -> 0 <= m ->
  Z.testbit (f w (Z.shiftl 1 n)) m = if m =? n then v else Z.testbit w m.

Lemma writes_set : writes_bit (fun w mask => Z.lor w mask) true.
Proof.
  intros w n m Hn Hm. rewrite Z.lor_spec, mask_bit by done.
  destruct (m =? n); by rewrite ?orb_true_r, ?orb_false_r.
Qed.

Lemma writes_clear : writes_bit (fun w mask => Z.land w (Z.lnot mask)) false.
Proof.
  intros w n m Hn Hm. rewrite Z.land_spec, Z.lnot_spec, mask_bit by done.
  destruct (m =? n); by rewrite ?andb_false_r, ?andb_true_r.
Qed.

Lemma index_split j j' : j / 32 = j' / 32 -> j mod 32 = j' mod 32 -> j = j'.
Proof. intros H1 H2. rewrite (Z.div_mod j 32), (Z.div_mod j' 32) by lia. lia. Qed.

Lemma update_bit_spec f v b max j :
  writes_bit f v -> 0 <= j < max -> max <= 32 * len (bm_words b) ->
  exists b', update_bit f (Some b) j max = Ret (Some b') /\
    len (bm_words b') = len (bm_words b) /\
    forall j', 0 <= j' -> word_bit b' j' = if j' =? j then v else word_bit b j'.
Proof.
  intros Hf Hj Hm. unfold update_bit. simpl. destruct (Z.ltb_spec j max); [|lia]. simpl.
  assert (Hq : 0 <= j / 32 < len (bm_words b)).
  { split; [apply Z.div_pos; lia|]. apply Z.div_lt_upper_bound; lia. }
  rewrite (aget_default _ 0 _ Hq). simpl. rewrite aset_in_bounds by done. simpl.
  eexists. split; [done|]. simpl. split; [apply len_insert|].
  intros j' Hj'. unfold word_bit. simpl.
  assert (0 <= j' / 32) by (apply Z.div_pos; lia).
  pose proof (Z.mod_pos_bound j 32 ltac:(lia)). pose proof (Z.mod_pos_bound j' 32 ltac:(lia)).
  rewrite default_insert by done. destruct (Z.eqb_spec (j / 32) (j' / 32)) as [E|E].
  - rewrite Hf by lia. rewrite <- E.
    destruct (Z.eqb_spec (j' mod 32) (j mod 32)) as [Em|Em].
    + by rewrite (proj2 (Z.eqb_eq j' j) (index_split j' j (eq_sym E) Em)).
    + destruct (Z.eqb_spec j' j) as [->|]; [done|]. done.
  - destruct (Z.eqb_spec j' j) as [->|]; [done|done].
Qed.

(** ** Effects of the bitmap operations on the allocator *)

(** [a'] is [a] with the free state of block [(o, j)] set to [v]. *)
Record flips (a a' : buddy_allocator) (o j : Z) (v : bool) : Prop := {
  fl_shape : shape a';
  fl_pool : same_pool a a';
  fl_sizes : free_area_size a' = free_area_size a;
  fl_free : forall o' j', valid_order o' ->
    free a' o' j' = if (o' =? o) && (j' =? j) then v else free a o' j'
}.

Lemma on_bitmap_spec f v a o j :
  writes_bit f v -> shape a -> valid_order o -> 0 <= j < maxb a o ->
  exists a', on_bitmap (update_bit f) a o j = Ret a' /\ flips a a' o j (negb v).
Proof.
  intros Hf Hs Ho Hj. destruct (sh_bitmap _ Hs o Ho) as (b & Hb & Hlen).
  pose proof (order_index _ o (sh_bitmaps _ Hs) Ho) as Hib.
  pose proof (order_index _ o (sh_maxes _ Hs) Ho) as Him.
  unfold on_bitmap. rewrite (aget_default _ None o Hib), (aget_default _ 0 o Him). simpl.
  fold (bmap a o). fold (maxb a o). rewrite Hb.
  destruct (update_bit_spec f v b (maxb a o) j Hf Hj Hlen) as (b' & -> & Hlen' & Hbits). simpl.
  rewrite aset_in_bounds by done. simpl. eexists. split; [done|].
  assert (Hbm : forall o', valid_order o' ->
    bmap (set_bitmaps a (<[Z.to_nat o := Some b']> (free_area_bitmap a))) o' =
    if o =? o' then Some b' else bmap a o').
  { intros o' Ho'. unfold bmap. simpl. apply default_insert; [done|].
    unfold valid_order, BUDDY_MIN_ORDER in Ho'. lia. }
  constructor.
  - destruct Hs as [Hs1 Hs2 Hs3 Hs4 Hs5 Hs6 Hs7 Hs8]. constructor; try done.
    + simpl. by rewrite len_insert.
    + intros o' Ho'. rewrite Hbm by done. change (maxb (set_bitmaps _ _) o') with (maxb a o').
      destruct (Z.eqb_spec o o') as [<-|]; [|by apply Hs4]. exists b'. split; [done|]. by rewrite Hlen'.
  - done.
  - done.
  - intros o' j' Ho'. unfold free. rewrite Hbm by done.
    change (maxb (set_bitmaps _ _) o') with (maxb a o').
    rewrite (Z.eqb_sym o' o). destruct (Z.eqb_spec o o') as [<-|]; [|done]. rewrite Hb. simpl.
    destruct (Z.leb_spec 0 j'); simpl; [|by destruct (Z.eqb_spec j' j); [lia|]].
    rewrite Hbits by done. destruct (Z.eqb_spec j' j) as [->|]; [|done].
    destruct (Z.ltb_spec j (maxb a o)); [done|lia].
Qed.

Lemma set_bit_spec a o j :
  shape a -> valid_order o -> 0 <= j < maxb a o ->
  exists a', on_bitmap set_bit a o j = Ret a' /\ flips a a' o j false.
Proof. apply (on_bitmap_spec _ true), writes_set. Qed.

Lemma clear_bit_spec a o j :
  shape a -> valid_order o -> 0 <= j < maxb a o ->
  exists a', on_bitmap clear_bit a o j = Ret a' /\ flips a a' o j true.
Proof. apply (on_bitmap_spec _ false), writes_clear. Qed.

Lemma test_bit_spec b max j :
  0 <= j < max -> max <= 32 * len (bm_words b) -> test_bit (Some b) j max = Ret (word_bit b j).
Proof.
  intros Hj Hm. unfold test_bit, word_bit. simpl. destruct (Z.ltb_spec j max); [|lia]. simpl.
  assert (Hq : 0 <= j / 32 < len (bm_words b)).
  { split; [apply Z.div_pos; lia|]. apply Z.div_lt_upper_bound; lia. }
  rewrite (aget_default _ 0 _ Hq). simpl. f_equal. apply test_mask.
  pose proof (Z.mod_pos_bound j 32). lia.
Qed.

Lemma test_order_spec a o j :
  shape a -> valid_order o -> 0 <= j < maxb a o -> test_order a o j = Ret (negb (free a o j)).
Proof.
  intros Hs Ho Hj. destruct (sh_bitmap _ Hs o Ho) as (b & Hb & Hlen).
  unfold test_order, free.
  rewrite (aget_default _ None o (order_index _ o (sh_bitmaps _ Hs) Ho)),
    (aget_default _ 0 o (order_index _ o (sh_maxes _ Hs) Ho)). simpl.
  fold (bmap a o). fold (maxb a o). rewrite Hb, test_bit_spec by done.
  destruct (Z.leb_spec 0 j), (Z.ltb_spec j (maxb a o)); try lia. simpl. by rewrite negb_involutive.
Qed.

Lemma add_size_spec a o d :
  shape a -> valid_order o ->
  exists a', add_size a o d = Ret a' /\ shape a' /\ same_pool a a' /\
    free_area_bitmap a' = free_area_bitmap a /\
    (forall o' j, free a' o' j = free a o' j) /\
    forall o', valid_order o' -> nfree a' o' = if o' =? o then u64 (nfree a o + d) else nfree a o'.
Proof.
  intros Hs Ho. pose proof (order_index _ o (sh_sizes _ Hs) Ho) as Hi. unfold add_size.
  rewrite (aget_default _ 0 o Hi). simpl. rewrite aset_in_bounds by done. simpl.
  eexists. split; [done|]. split.
  { destruct Hs as [Hs1 Hs2 Hs3 Hs4 Hs5 Hs6 Hs7 Hs8]. constructor; try done. simpl. by rewrite len_insert. }
  split; [done|]. split; [done|]. split; [done|]. intros o' Ho'. unfold nfree at 1. simpl.
  rewrite default_insert; [|done|unfold valid_order, BUDDY_MIN_ORDER in Ho'; lia].
  by rewrite (Z.eqb_sym o' o).
Qed.

(** ** Ownership *)

(** Byte [x] of the pool lies in block [j] of order [o]. *)
Definition covers (o j x : Z) : Z := Z.b2z (x / 2 ^ o =? j).

(** The free and live blocks that own byte [x]. *)
Definition owners (a : buddy_allocator) (L : list (Z * Z)) (x : Z) : Z :=
  sumZ (fun o => Z.b2z (free a o (x / 2 ^ o))) orders + sumZ (fun '(o, j) => covers o j x) L.

Definition count (a : buddy_allocator) (o : Z) : Z :=
  sumZ (fun j => Z.b2z (free a o j)) (seqZ 0 (maxb a o)).

Lemma b2z_range b : 0 <= Z.b2z b <= 1.
Proof. by destruct b. Qed.

Lemma count_range a o : 0 <= maxb a o -> 0 <= count a o <= maxb a o.
Proof.
  intros Hm. unfold count. split; [apply sumZ_nonneg; intros; apply b2z_range|].
  assert (forall n k, sumZ (fun j => Z.b2z (free a o j)) (seqZ k (Z.of_nat n)) <= Z.of_nat n) as H.
  { induction n as [|n IH]; intros k; [done|]. rewrite seqZ_cons by lia.
    replace (Z.pred (Z.of_nat (S n))) with (Z.of_nat n) by lia. rewrite sumZ_cons.
    specialize (IH (Z.succ k)). pose proof (b2z_range (free a o k)). lia. }
  specialize (H (Z.to_nat (maxb a o)) 0). rewrite Z2Nat.id in H by done. done.
Qed.

Lemma free_range a o j : free a o j = true -> 0 <= j < maxb a o.
Proof.
  unfold free. destruct (bmap a o); [|done].
  intros [[?%Z.leb_le ?%Z.ltb_lt]%andb_prop _]%andb_prop. lia.
Qed.

Lemma flips_owners a a' o j v L x :
  flips a a' o j v -> valid_order o ->
  owners a' L x = owners a L x + (Z.b2z v - Z.b2z (free a o j)) * covers o j x.
Proof.
  intros Hf Ho. unfold owners, covers.
  rewrite (sumZ_point (fun o => Z.b2z (free a o (x / 2 ^ o))) _ orders o NoDup_orders).
  - rewrite (fl_free _ _ _ _ _ Hf) by done. rewrite Z.eqb_refl. simpl.
    destruct (Z.eqb_spec (x / 2 ^ o) j) as [->|]; simpl; lia.
  - by apply elem_of_orders.
  - intros o' Ho'%elem_of_orders Hne. rewrite (fl_free _ _ _ _ _ Hf) by done.
    by rewrite (proj2 (Z.eqb_neq o' o) Hne).
Qed.

Lemma flips_count a a' o j v o' :
  flips a a' o j v -> valid_order o' -> 0 <= j < maxb a o ->
  count a' o' = count a o' + (if o' =? o then Z.b2z v - Z.b2z (free a o j) else 0).
Proof.
  intros Hf Ho' Hj. unfold count. rewrite (same_pool_maxb _ _ o' (fl_pool _ _ _ _ _ Hf)).
  destruct (Z.eqb_spec o' o) as [->|Hne].
  - rewrite (sumZ_point (fun j => Z.b2z (free a o j)) _ (seqZ 0 (maxb a o)) j (NoDup_seqZ _ _)).
    + rewrite (fl_free _ _ _ _ _ Hf) by done. by rewrite !Z.eqb_refl.
    + apply elem_of_seqZ. lia.
    + intros j' _ Hne. rewrite (fl_free _ _ _ _ _ Hf) by done.
      by rewrite Z.eqb_refl, (proj2 (Z.eqb_neq j' j) Hne).
  - rewrite Z.add_0_r. apply sumZ_ext. intros j' _. rewrite (fl_free _ _ _ _ _ Hf) by done.
    by rewrite (proj2 (Z.eqb_neq o' o) Hne).
Qed.

(** ** The invariant *)

(** [M] is the order of the block that initialisation released, [L] the list
    of the live blocks (order and index). *)
Record binv (M : Z) (a : buddy_allocator) (L : list (Z * Z)) : Prop := {
  bi_shape : shape a;
  bi_top : valid_order M;
  bi_owners : forall x, 0 <= x -> owners a L x = Z.b2z (x <? 2 ^ M);
  bi_counts : forall o, valid_order o -> nfree a o = count a o;
  bi_live : Forall (fun b => valid_order b.1 /\ 0 <= b.2) L;
  bi_fits : 2 ^ M <= pool_size a;
  bi_whole : M < BUDDY_MAX_ORDER -> pool_size a = 2 ^ M;
  bi_room : forall o, valid_order o -> o <= M -> 2 ^ (M - o) <= maxb a o
}.

Lemma block_of j n x : j * n <= x < (j + 1) * n -> x / n = j.
Proof. intros Hx. symmetry. apply Z.div_unique with (x - j * n); nia. Qed.

Lemma covers_self o j x : j * 2 ^ o <= x < (j + 1) * 2 ^ o -> covers o j x = 1.
Proof.
  intros Hx. unfold covers. by rewrite (block_of j _ x Hx), Z.eqb_refl.
Qed.

Lemma free_owns a L o j x :
  valid_order o -> free a o j = true -> j * 2 ^ o <= x < (j + 1) * 2 ^ o -> 1 <= owners a L x.
Proof.
  intros Ho Hf Hx. unfold owners.
  assert (0 <= sumZ (fun '(o, j) => covers o j x) L)
    by (apply sumZ_nonneg; intros [? ?] _; apply b2z_range).
  pose proof (sumZ_elem_le (fun o => Z.b2z (free a o (x / 2 ^ o))) orders o
    (fun _ _ => proj1 (b2z_range _)) (proj2 (elem_of_orders o) Ho)) as H1. cbv beta in H1.
  pose proof (block_of j _ x Hx) as E.
  rewrite E, Hf in H1. cbn [Z.b2z] in H1. lia.
Qed.

(** Two free blocks of different orders do not meet. *)
Lemma free_disjoint a L M o j o' j' x :
  binv M a L -> valid_order o -> valid_order o' -> o <> o' -> 0 <= x ->
  free a o j = true -> free a o' j' = true -> x / 2 ^ o = j -> x / 2 ^ o' = j' -> False.
Proof.
  intros Hi Ho Ho' Hne Hx Hf Hf' E E'. pose proof (bi_owners _ _ _ Hi x Hx) as Hown.
  unfold owners in Hown.
  assert (0 <= sumZ (fun '(o, j) => covers o j x) L)
    by (apply sumZ_nonneg; intros [? ?] _; apply b2z_range).
  pose proof (sumZ_two_le (fun o => Z.b2z (free a o (x / 2 ^ o))) orders o o' NoDup_orders
    (fun _ _ => proj1 (b2z_range _)) (proj2 (elem_of_orders o) Ho)
    (proj2 (elem_of_orders o') Ho') Hne) as H2. cbv beta in H2.
  rewrite E, E', Hf, Hf' in H2. cbn [Z.b2z] in H2. pose proof (b2z_range (x <? 2 ^ M)). lia.
Qed.

(** A block that owns bytes lies inside the released block. *)
Lemma inside_top M a L o j :
  binv M a L -> valid_order o -> 0 <= j ->
  (forall x, j * 2 ^ o <= x < (j + 1) * 2 ^ o -> 1 <= owners a L x) ->
  o <= M /\ (j + 1) * 2 ^ o <= 2 ^ M /\ j < 2 ^ (M - o).
Proof.
  intros Hi Ho Hj Hown. order_facts o. pose proof (bi_top _ _ _ Hi) as HM. order_facts M.
  assert (Hle : (j + 1) * 2 ^ o <= 2 ^ M).
  { pose proof (Hown ((j + 1) * 2 ^ o - 1) ltac:(nia)) as H1.
    rewrite (bi_owners _ _ _ Hi) in H1 by nia.
    destruct (Z.ltb_spec ((j + 1) * 2 ^ o - 1) (2 ^ M)); simpl in H1; lia. }
  assert (HoM : o <= M).
  { apply Z.nlt_ge. intros Hlt. assert (2 ^ M < 2 ^ o); [|nia].
    apply Z.pow_lt_mono_r; unfold valid_order, BUDDY_MIN_ORDER in *; lia. }
  split_and!; [done|done|]. unfold valid_order, BUDDY_MIN_ORDER in *.
  assert (2 ^ M = 2 ^ (M - o) * 2 ^ o) as E by (rewrite <- Z.pow_add_r by lia; f_equal; lia).
  nia.
Qed.

Lemma live_owns a L o j x :
  (o, j) ∈ L -> j * 2 ^ o <= x < (j + 1) * 2 ^ o -> 1 <= owners a L x.
Proof.
  intros HL Hx. unfold owners.
  assert (0 <= sumZ (fun o => Z.b2z (free a o (x / 2 ^ o))) orders)
    by (apply sumZ_nonneg; intros; apply b2z_range).
  enough (1 <= sumZ (fun '(o, j) => covers o j x) L) by lia.
  rewrite <- (covers_self o j x Hx).
  apply (sumZ_elem_le (fun '(o, j) => covers o j x) L (o, j)); [|done].
  intros [? ?] _. apply b2z_range.
Qed.

(** A live block is not free. *)
Lemma live_not_free M a L o j :
  binv M a ((o, j) :: L) -> valid_order o -> 0 <= j -> free a o j = false.
Proof.
  intros Hi Ho Hj. destruct (free a o j) eqn:Hf; [|done]. exfalso. order_facts o.
  pose proof (bi_owners _ _ _ Hi (j * 2 ^ o) ltac:(nia)) as H1.
  unfold owners in H1. rewrite sumZ_cons, (covers_self o j) in H1 by nia.
  pose proof (free_owns a L o j (j * 2 ^ o) Ho Hf ltac:(nia)) as H2. unfold owners in H2.
  pose proof (b2z_range (j * 2 ^ o <? 2 ^ M)). lia.
Qed.

Lemma live_in_range M a L o j :
  binv M a L -> (o, j) ∈ L -> valid_order o /\ o <= M /\ 0 <= j < maxb a o /\ (j + 1) * 2 ^ o <= 2 ^ M.
Proof.
  intros Hi HL. destruct (proj1 (Forall_forall _ _) (bi_live _ _ _ Hi) _ HL) as [Ho Hj]. simpl in *.
  destruct (inside_top M a L o j Hi Ho Hj) as (HoM & Hle & Hlt).
  { intros x Hx. by apply (live_owns a L o j). }
  pose proof (bi_room _ _ _ Hi o Ho HoM). split_and!; try done; lia.
Qed.

Lemma free_in_range M a L o j :
  binv M a L -> valid_order o -> free a o j = true -> o <= M /\ (j + 1) * 2 ^ o <= 2 ^ M.
Proof.
  intros Hi Ho Hf. pose proof (free_range _ _ _ Hf).
  destruct (inside_top M a L o j Hi Ho ltac:(lia)) as (? & ? & _); [|done].
  intros x Hx. by apply (free_owns a L o j).
Qed.

(** ** Steps that preserve the invariant *)

Lemma binv_step M a L a' L' :
  binv M a L -> shape a' -> same_pool a a' ->
  (forall x, 0 <= x -> owners a' L' x = owners a L x) ->
  (forall o, valid_order o -> nfree a' o = count a' o) ->
  Forall (fun b => valid_order b.1 /\ 0 <= b.2) L' -> binv M a' L'.
Proof.
  intros Hi Hs Hp Ho Hc HL. pose proof Hp as (_ & Ep & _). constructor; try done.
  - apply Hi.
  - intros x Hx. rewrite Ho by done. by apply Hi.
  - rewrite Ep. apply Hi.
  - rewrite Ep. apply Hi.
  - intros o Hvo HoM. rewrite (same_pool_maxb _ _ _ Hp). by apply Hi.
Qed.

(** A counted flip: a bit operation followed by the adjustment of its
    counter. *)
Lemma flip_and_count a a1 o j v d :
  flips a a1 o j v -> valid_order o -> 0 <= j < maxb a o ->
  exists a2, add_size a1 o d = Ret a2 /\ shape a2 /\ same_pool a a2 /\
    (forall o' j', free a2 o' j' = free a1 o' j') /\
    (forall o', nfree a1 o' = nfree a o') /\
    forall o', valid_order o' -> nfree a2 o' = if o' =? o then u64 (nfree a o + d) else nfree a o'.
Proof.
  intros Hf Ho Hj.
  destruct (add_size_spec a1 o d (fl_shape _ _ _ _ _ Hf) Ho) as (a2 & Ha2 & Hs2 & Hp2 & _ & Hfr & Hn).
  assert (Hn1 : forall o', nfree a1 o' = nfree a o')
    by (intros o'; unfold nfree; by rewrite (fl_sizes _ _ _ _ _ Hf)).
  exists a2. split_and!; try done; [eapply same_pool_trans; [apply Hf|done]..|].
  intros o' Ho'. rewrite Hn by done. by rewrite !Hn1.
Qed.

Lemma owners_ext a a' L x :
  (forall o j, free a' o j = free a o j) -> owners a' L x = owners a L x.
Proof. intros H. unfold owners. f_equal. apply sumZ_ext. intros o _. by rewrite H. Qed.

Lemma count_ext a a' o :
  (forall o j, free a' o j = free a o j) -> same_pool a a' -> count a' o = count a o.
Proof.
  intros H Hp. unfold count. rewrite (same_pool_maxb _ _ _ Hp). apply sumZ_ext. intros j _. by rewrite H.
Qed.

Lemma u64_count a o d :
  shape a -> valid_order o -> 0 <= count a o + d <= maxb a o -> u64 (count a o + d) = count a o + d.
Proof. intros Hs Ho H. pose proof (sh_max _ Hs o Ho). apply u64_id. lia. Qed.

(** The counters agree with the bitmaps. *)
Definition counted (a : buddy_allocator) : Prop :=
  shape a /\ forall o, valid_order o -> nfree a o = count a o.

Lemma binv_counted M a L : binv M a L -> counted a.
Proof. intros Hi. split; apply Hi. Qed.

(** The common part: flip block [(o, j)] to [v] and count it. *)
Lemma flip_step a o j v d a1 :
  counted a -> valid_order o -> 0 <= j < maxb a o -> flips a a1 o j v ->
  d = Z.b2z v - Z.b2z (free a o j) ->
  exists a2, add_size a1 o d = Ret a2 /\ counted a2 /\ same_pool a a2 /\
    (forall o' j', valid_order o' -> free a2 o' j' = if (o' =? o) && (j' =? j) then v else free a o' j') /\
    (forall L' x, owners a2 L' x = owners a L' x + d * covers o j x).
Proof.
  intros [Hsh Hcnt] Ho Hj Hf Hd.
  destruct (flip_and_count a a1 o j v d Hf Ho Hj) as (a2 & Ha2 & Hs2 & Hp2 & Hfr & Hn1 & Hn2).
  assert (Hp12 : same_pool a1 a2).
  { destruct (fl_pool _ _ _ _ _ Hf) as (?&?&?), Hp2 as (?&?&?). split_and!; congruence. }
  assert (Hc : forall o', valid_order o' -> count a2 o' = count a o' + if o' =? o then d else 0).
  { intros o' Ho'. rewrite (count_ext _ _ o' Hfr Hp12), (flips_count _ _ _ _ _ o' Hf Ho' Hj). by rewrite Hd. }
  exists a2. split; [done|]. split; [split; [done|]|split; [done|split]].
  2: { intros o' j' Ho'. rewrite Hfr. by apply (fl_free _ _ _ _ _ Hf). }
  2: { intros L' x. rewrite (owners_ext _ _ _ _ Hfr), (flips_owners _ _ _ _ _ L' x Hf Ho). by rewrite Hd. }
  - intros o' Ho'. rewrite Hn2, (Hc o' Ho') by done. rewrite !Hcnt by done.
    destruct (Z.eqb_spec o' o) as [->|]; [|lia].
    apply u64_count; [done|done|].
    pose proof (count_range a2 o) as Hr. rewrite (same_pool_maxb _ _ _ Hp2) in Hr.
    rewrite (Hc o Ho), Z.eqb_refl in Hr. apply Hr. lia.
Qed.

(** Taking a free block. *)
Lemma take_step M a L o j :
  binv M a L -> valid_order o -> free a o j = true ->
  exists a1 a2, on_bitmap set_bit a o j = Ret a1 /\ add_size a1 o (-1) = Ret a2 /\
    binv M a2 ((o, j) :: L) /\ same_pool a a2.
Proof.
  intros Hi Ho Hf. pose proof (free_range _ _ _ Hf) as Hj.
  destruct (set_bit_spec a o j (bi_shape _ _ _ Hi) Ho Hj) as (a1 & H1 & Hfl).
  destruct (flip_step a o j false (-1) a1 (binv_counted _ _ _ Hi) Ho Hj Hfl)
    as (a2 & H2 & [Hs Hc] & Hp & _ & Hown).
  { by rewrite Hf. }
  exists a1, a2. split_and!; [done|done| |apply Hp..].
  apply (binv_step M a L); try done.
  - intros x Hx. unfold owners. rewrite sumZ_cons.
    specialize (Hown L x). unfold owners in Hown. lia.
  - constructor; [split; [done|simpl; lia]|apply Hi].
Qed.

(** Giving a live block back. *)
Lemma give_step M a L o j :
  binv M a ((o, j) :: L) ->
  exists a1 a2, on_bitmap clear_bit a o j = Ret a1 /\ add_size a1 o 1 = Ret a2 /\
    binv M a2 L /\ same_pool a a2 /\ free a2 o j = true.
Proof.
  intros Hi. destruct (live_in_range M a _ o j Hi) as (Ho & HoM & Hj & _); [left|].
  pose proof (live_not_free M a L o j Hi Ho ltac:(lia)) as Hf.
  destruct (clear_bit_spec a o j (bi_shape _ _ _ Hi) Ho Hj) as (a1 & H1 & Hfl).
  destruct (flip_step a o j true 1 a1 (binv_counted _ _ _ Hi) Ho Hj Hfl)
    as (a2 & H2 & [Hs Hc] & Hp & Hfr & Hown).
  { by rewrite Hf. }
  exists a1, a2. split; [done|]. split; [done|]. split; [|split; [done|]].
  - apply (binv_step M a ((o, j) :: L)); try done.
    + intros x Hx. rewrite Hown. unfold owners. rewrite sumZ_cons. lia.
    + pose proof (bi_live _ _ _ Hi) as HL. by inversion HL.
  - rewrite Hfr by done. by rewrite !Z.eqb_refl.
Qed.

(** ** Halves *)

Lemma covers_halves o i x : 0 <= o -> 0 <= x -> covers (o + 1) i x = covers o (i * 2) x + covers o (i * 2 + 1) x.
Proof.
  intros Ho Hx. unfold covers. rewrite Z.pow_add_r, <- Z.div_div by lia. change (2 ^ 1) with 2.
  pose proof (Z.div_mod (x / 2 ^ o) 2 ltac:(lia)). pose proof (Z.mod_pos_bound (x / 2 ^ o) 2 ltac:(lia)).
  destruct (Z.eqb_spec (x / 2 ^ o / 2) i), (Z.eqb_spec (x / 2 ^ o) (i * 2)),
    (Z.eqb_spec (x / 2 ^ o) (i * 2 + 1)); simpl; lia.
Qed.

(** Two flips of one order, counted together. *)
Lemma flip2_step a o j j' v d a1 a2 :
  counted a -> valid_order o -> 0 <= j < maxb a o -> 0 <= j' < maxb a o -> j <> j' ->
  free a o j = negb v -> free a o j' = negb v ->
  flips a a1 o j v -> flips a1 a2 o j' v -> d = Z.b2z v - Z.b2z (negb v) ->
  exists a3, add_size a2 o (2 * d) = Ret a3 /\ counted a3 /\ same_pool a a3 /\
    (forall o' i, valid_order o' -> free a3 o' i =
       if (o' =? o) && ((i =? j) || (i =? j')) then v else free a o' i) /\
    (forall L x, owners a3 L x = owners a L x + d * (covers o j x + covers o j' x)).
Proof.
  intros [Hsh Hcnt] Ho Hj Hj' Hne Hf Hf' H1 H2 Hd.
  assert (Hmax1 : maxb a1 o = maxb a o) by apply (same_pool_maxb _ _ _ (fl_pool _ _ _ _ _ H1)).
  destruct (flip_and_count a1 a2 o j' v (2 * d) H2 Ho ltac:(lia))
    as (a3 & Ha3 & Hs3 & Hp3 & Hfr & _ & Hn3).
  assert (Hf1 : free a1 o j' = negb v).
  { rewrite (fl_free _ _ _ _ _ H1), Z.eqb_refl by done. simpl.
    by rewrite (proj2 (Z.eqb_neq j' j) (not_eq_sym Hne)). }
  assert (Hp : same_pool a a3) by (eapply same_pool_trans; [apply H1|done]).
  assert (Hp23 : same_pool a2 a3).
  { destruct (fl_pool _ _ _ _ _ H2) as (?&?&?), Hp3 as (?&?&?). split_and!; congruence. }
  assert (Hc : forall o', valid_order o' -> count a3 o' = count a o' + if o' =? o then 2 * d else 0).
  { intros o' Ho'. rewrite (count_ext _ _ o' Hfr Hp23), (flips_count _ _ _ _ _ o' H2 Ho' ltac:(lia)),
      (flips_count _ _ _ _ _ o' H1 Ho' Hj), Hf, Hf1. destruct (o' =? o); lia. }
  exists a3. split; [done|]. split; [split; [done|]|split; [done|split]].
  2: { intros o' i Ho'. rewrite Hfr, (fl_free _ _ _ _ _ H2), (fl_free _ _ _ _ _ H1) by done.
       destruct (o' =? o), (i =? j), (i =? j'); done. }
  2: { intros L x. rewrite (owners_ext _ _ _ _ Hfr), (flips_owners _ _ _ _ _ L x H2 Ho),
         (flips_owners _ _ _ _ _ L x H1 Ho), Hf, Hf1. lia. }
  intros o' Ho'. rewrite Hn3, (Hc o' Ho') by done.
  assert (Hn1 : forall o', nfree a1 o' = nfree a o')
    by (intros o''; unfold nfree; by rewrite (fl_sizes _ _ _ _ _ H1)).
  rewrite !Hn1, !Hcnt by done. destruct (Z.eqb_spec o' o) as [->|]; [|lia].
  apply u64_count; [done|done|].
  pose proof (count_range a3 o) as Hr. rewrite (same_pool_maxb _ _ _ Hp) in Hr.
  rewrite (Hc o Ho), Z.eqb_refl in Hr. apply Hr. lia.
Qed.

(** Splitting a live block of order [o + 1] into two free ones. *)
Lemma split_step M a L o i :
  binv M a ((o + 1, i) :: L) -> valid_order o ->
  exists a', split_block a (o + 1) i = Ret a' /\ binv M a' L /\ same_pool a a' /\
    free a' o (i * 2) = true /\ free a' o (i * 2 + 1) = true /\ i * 2 + 1 < maxb a o.
Proof.
  intros Hi Ho. destruct (live_in_range M a _ (o + 1) i Hi) as (Ho1 & HoM & Hir & Hle); [left|].
  order_facts o. assert (E : 2 ^ (o + 1) = 2 * 2 ^ o)
    by (rewrite Z.pow_add_r; unfold valid_order, BUDDY_MIN_ORDER in *; lia).
  assert (Hroom : i * 2 + 1 < maxb a o).
  { pose proof (bi_room _ _ _ Hi o Ho ltac:(lia)) as Hr.
    assert (2 ^ M = 2 ^ (M - o) * 2 ^ o) as EM
      by (rewrite <- Z.pow_add_r; unfold valid_order, BUDDY_MIN_ORDER in *; [f_equal|..]; lia).
    nia. }
  assert (Hnf : forall k, k = i * 2 \/ k = i * 2 + 1 -> free a o k = false).
  { intros k Hk. destruct (free a o k) eqn:Hf; [|done]. exfalso.
    pose proof (bi_owners _ _ _ Hi (k * 2 ^ o) ltac:(nia)) as H1. unfold owners in H1.
    rewrite sumZ_cons, (covers_self (o + 1) i) in H1 by nia.
    pose proof (free_owns a L o k (k * 2 ^ o) Ho Hf ltac:(nia)) as H2. unfold owners in H2.
    pose proof (b2z_range (k * 2 ^ o <? 2 ^ M)). lia. }
  pose proof (bi_shape _ _ _ Hi) as Hs.
  unfold split_block. rewrite Z.add_simpl_r.
  rewrite (aget_default _ 0 o (order_index _ o (sh_maxes _ Hs) Ho)). cbn [mbind outcome_bind].
  fold (maxb a o). destruct (Z.leb_spec (maxb a o) (i * 2)); [lia|].
  destruct (Z.leb_spec (maxb a o) (i * 2 + 1)); [lia|]. cbn [orb].
  destruct (clear_bit_spec a o (i * 2) Hs Ho ltac:(lia)) as (a1 & -> & Hl1). cbn [mbind outcome_bind].
  destruct (clear_bit_spec a1 o (i * 2 + 1) (fl_shape _ _ _ _ _ Hl1) Ho) as (a2 & -> & Hl2).
  { rewrite (same_pool_maxb _ _ _ (fl_pool _ _ _ _ _ Hl1)). lia. }
  cbn [mbind outcome_bind].
  destruct (flip2_step a o (i * 2) (i * 2 + 1) true 1 a1 a2) as (a3 & Ha3 & [Hs3 Hc3] & Hp3 & Hfr & Hown);
    try done; try lia; [by apply binv_counted in Hi|apply Hnf; lia..|].
  change (2 * 1) with 2 in Ha3. exists a3. split; [done|].
  split; [|split; [done|rewrite !Hfr, !Z.eqb_refl, ?orb_true_r by done; done]].
  apply (binv_step M a ((o + 1, i) :: L)); try done.
  - intros x Hx. rewrite Hown. unfold owners. rewrite sumZ_cons, covers_halves; [lia| |done].
    unfold valid_order, BUDDY_MIN_ORDER in Ho. lia.
  - pose proof (bi_live _ _ _ Hi) as HL. by inversion HL.
Qed.

(** ** Addresses *)

Definition addr (a : buddy_allocator) (o j : Z) : Z := pool_start a + j * 2 ^ o.

Lemma valid_order_nonneg o : valid_order o -> 0 <= o.
Proof. unfold valid_order, BUDDY_MIN_ORDER. lia. Qed.

(** A block inside the released block has the address one expects. *)
Lemma addr_bounds M a L o j :
  binv M a L -> valid_order o -> 0 <= j -> (j + 1) * 2 ^ o <= 2 ^ M ->
  0 < addr a o j /\ addr a o j + 2 ^ o <= pool_start a + pool_size a /\
  addr a o j < 2 ^ 64 /\ 0 <= j * 2 ^ o < 2 ^ 64.
Proof.
  intros Hi Ho Hj Hle. order_facts o. pose proof (bi_fits _ _ _ Hi).
  destruct (bi_shape _ _ _ Hi) as [_ _ _ _ _ Hst _ Hend]. unfold addr. split_and!; nia.
Qed.

Lemma get_block_address_eq M a L o j :
  binv M a L -> valid_order o -> 0 <= j -> (j + 1) * 2 ^ o <= 2 ^ M ->
  get_block_address a o j = addr a o j.
Proof.
  intros Hi Ho Hj Hle. destruct (addr_bounds M a L o j Hi Ho Hj Hle) as (H1 & H2 & H3 & H4).
  unfold get_block_address. rewrite block_size_pow by by apply valid_order_nonneg.
  rewrite (u64_id (j * 2 ^ o)) by done. unfold addr in *. by rewrite u64_id by lia.
Qed.

Lemma get_block_index_eq M a L o j o' :
  binv M a L -> valid_order o -> valid_order o' -> 0 <= j -> (j + 1) * 2 ^ o <= 2 ^ M ->
  get_block_index (addr a o j) (pool_start a) o' = j * 2 ^ o / 2 ^ o'.
Proof.
  intros Hi Ho Ho' Hj Hle. destruct (addr_bounds M a L o j Hi Ho Hj Hle) as (H1 & H2 & H3 & H4).
  unfold get_block_index. rewrite block_size_pow by by apply valid_order_nonneg.
  unfold addr in *. replace (pool_start a + j * 2 ^ o - pool_start a) with (j * 2 ^ o) by lia.
  by rewrite u64_id by done.
Qed.

Lemma pow_pos o : 0 <= o -> 0 < 2 ^ o.
Proof. intros. apply Z.pow_pos_nonneg; lia. Qed.

(** ** alloc_block *)

Lemma find_free_loop_spec a o b n : forall i,
  bmap a o = Some b -> maxb a o <= 32 * len (bm_words b) -> 0 <= i -> i + Z.of_nat n = maxb a o ->
  runs_to (find_free_loop (Some b) (maxb a o) i n) (fun r =>
    free a o r = true \/
    (r = SIZE_MAX /\ forall j, i <= j < maxb a o -> free a o j = false)).
Proof.
  induction n as [|n IH]; intros i Hb Hl Hi Hn; cbn [find_free_loop].
  { right. split; [done|]. lia. }
  rewrite test_bit_spec by lia. cbn [mbind outcome_bind].
  assert (Hf : free a o i = negb (word_bit b i)).
  { unfold free. rewrite Hb. destruct (Z.leb_spec 0 i), (Z.ltb_spec i (maxb a o)); try lia. done. }
  destruct (word_bit b i) eqn:Hw; cbn [negb] in *; [|by left].
  eapply runs_to_mono; [apply IH; [done|done|lia|lia]|].
  intros r [Hr|[-> Hr]]; [by left|]. right. split; [done|].
  intros j Hj. destruct (decide (j = i)) as [->|]; [done|]. apply Hr. lia.
Qed.

Lemma count_zero a o : (forall j, 0 <= j < maxb a o -> free a o j = false) -> count a o = 0.
Proof.
  intros H. unfold count. rewrite (sumZ_ext _ (fun _ => 0)).
  - induction (seqZ 0 (maxb a o)) as [|x l IH]; [done|]. by rewrite sumZ_cons, IH.
  - intros j Hj%elem_of_seqZ. rewrite H by lia. done.
Qed.

Lemma count_zero_inv a o j : count a o = 0 -> free a o j = false.
Proof.
  intros H. destruct (free a o j) eqn:Hf; [|done]. pose proof (free_range _ _ _ Hf) as Hj.
  assert (1 <= count a o); [|lia]. unfold count.
  change 1 with (Z.b2z true). rewrite <- Hf at 1.
  apply (sumZ_elem_le (fun j => Z.b2z (free a o j))); [intros; apply b2z_range|].
  apply elem_of_seqZ. lia.
Qed.

(** What a (possibly failed) allocation of a block of order [o] does. *)
Definition alloc_result (M : Z) (a : buddy_allocator) (L : list (Z * Z)) (o : Z)
    (a' : buddy_allocator) (r : Z) : Prop :=
  (r = 0 /\ a' = a /\ forall o' j, valid_order o' -> o <= o' -> free a o' j = false) \/
  (exists j, r = addr a o j /\ r <> 0 /\ same_pool a a' /\ binv M a' ((o, j) :: L)).

(** The end of both branches: take block [j] of the state [b] reached. *)
Lemma take_finish M a b L o j :
  binv M b L -> same_pool a b -> valid_order o -> free b o j = true ->
  runs_to (c ← on_bitmap set_bit b o j; c ← add_size c o (-1); Ret (c, get_block_address c o j))
    (fun '(a', r) => alloc_result M a L o a' r).
Proof.
  intros Hi Hp Ho Hf. pose proof (free_range _ _ _ Hf).
  destruct (take_step M b L o j Hi Ho Hf) as (b1 & b2 & -> & Hb2 & Hi2 & Hp2).
  cbn [mbind outcome_bind]. rewrite Hb2. cbn [mbind outcome_bind].
  destruct (live_in_range M b2 _ o j Hi2) as (_ & _ & Hr2 & Hle2); [left|].
  rewrite (get_block_address_eq M b2 _ o j Hi2) by (done || lia).
  destruct (addr_bounds M b2 _ o j Hi2 Ho ltac:(lia) Hle2) as (Hpos & _).
  assert (Hpa : same_pool a b2) by by eapply same_pool_trans.
  right. exists j. pose proof Hpa as (Es & _). unfold addr in *. rewrite Es in *.
  split; [done|]. split; [lia|]. by split.
Qed.

Lemma alloc_block_ok M L fuel : forall a o,
  binv M a L -> BUDDY_MIN_ORDER <= o <= BUDDY_MAX_ORDER + 1 ->
  BUDDY_MAX_ORDER + 2 - o <= Z.of_nat fuel ->
  runs_to (alloc_block fuel a o) (fun '(a', r) => alloc_result M a L o a' r).
Proof.
  induction fuel as [|fuel IH]; intros a o Hi Ho Hfuel; [lia|]. cbn [alloc_block].
  destruct (Z.ltb_spec BUDDY_MAX_ORDER o) as [Hbig|Hsmall].
  { left. split_and!; [done|done|]. unfold valid_order. lia. }
  assert (Hvo : valid_order o) by (unfold valid_order; lia).
  pose proof (bi_shape _ _ _ Hi) as Hs.
  rewrite (aget_default _ 0 o (order_index _ o (sh_sizes _ Hs) Hvo)). cbn [mbind outcome_bind].
  fold (nfree a o). rewrite (bi_counts _ _ _ Hi o Hvo). destruct (Z.eqb_spec (count a o) 0) as [Hz|Hnz].
  - eapply runs_to_bind; [apply (IH a (o + 1) Hi); lia|]. intros [a1 r1] Hres.
    destruct Hres as [(-> & -> & Hnone)|(i & -> & Hnn & Hp1 & Hi1)].
    + left. split_and!; [done|done|]. intros o' j Ho' Hle.
      destruct (decide (o' = o)) as [->|]; [by apply count_zero_inv|]. apply Hnone; [done|lia].
    + destruct (Z.eqb_spec (addr a (o + 1) i) 0); [done|].
      destruct (live_in_range M a1 _ (o + 1) i Hi1) as (Hvo1 & HoM & Hir & Hle); [left|].
      pose proof Hp1 as (Est & _).
      assert (addr a (o + 1) i = addr a1 (o + 1) i) as -> by (unfold addr; by rewrite Est).
      rewrite (get_block_index_eq M a1 _ (o + 1) i (o + 1) Hi1) by (done || lia).
      pose proof (pow_pos (o + 1) ltac:(unfold valid_order, BUDDY_MIN_ORDER in *; lia)).
      rewrite Z.div_mul by lia.
      destruct (split_step M a1 L o i Hi1 Hvo) as (a2 & -> & Hi2 & Hp2 & Hf1 & Hf2 & Hmax).
      cbn [mbind outcome_bind].
      rewrite (aget_default _ 0 o (order_index _ o (sh_maxes _ (bi_shape _ _ _ Hi2)) Hvo)).
      cbn [mbind outcome_bind]. fold (maxb a2 o). rewrite (same_pool_maxb _ _ _ Hp2).
      destruct (Z.leb_spec (maxb a1 o) (i * 2)); [lia|].
      apply take_finish; [done|by eapply same_pool_trans|done|done].
  - destruct (sh_bitmap _ Hs o Hvo) as (b & Hb & Hlen).
    rewrite (aget_default _ None o (order_index _ o (sh_bitmaps _ Hs) Hvo)),
      (aget_default _ 0 o (order_index _ o (sh_maxes _ Hs) Hvo)). cbn [mbind outcome_bind].
    fold (bmap a o). fold (maxb a o). rewrite Hb. pose proof (sh_max _ Hs o Hvo).
    eapply runs_to_bind; [apply (find_free_loop_spec a o b); [done|done|lia|lia]|].
    intros j [Hf|[-> Hnone]]; [|exfalso; apply Hnz, count_zero; apply Hnone].
    pose proof (free_range _ _ _ Hf) as Hj.
    destruct (Z.eqb_spec j SIZE_MAX); [unfold SIZE_MAX in *; lia|].
    by apply take_finish.
Qed.

(** ** Merging *)

Lemma buddy_of i : 0 <= i -> Z.lxor i 1 = if Z.even i then i + 1 else i - 1.
Proof.
  intros Hi. pose proof (Z.div_mod i 2 ltac:(lia)) as E.
  rewrite Zmod_even in E. destruct (Z.even i) eqn:He.
  - rewrite <- Z.add_nocarry_lxor; [done|]. apply Z.bits_inj'. intros n Hn. rewrite Z.land_spec, Z.bits_0.
    destruct (decide (n = 0)) as [->|].
    + rewrite Z.bit0_odd, <- Z.negb_even, He. done.
    + change 1 with (2 ^ 0). rewrite Z.pow2_bits_false by lia. by rewrite andb_false_r.
  - assert (Hodd : i = Z.lxor (i - 1) 1).
    { rewrite <- Z.add_nocarry_lxor; [lia|]. apply Z.bits_inj'. intros n Hn. rewrite Z.land_spec, Z.bits_0.
      destruct (decide (n = 0)) as [->|].
      - rewrite Z.bit0_odd, <- Z.negb_even, Z.even_sub, He. done.
      - change 1 with (2 ^ 0). rewrite Z.pow2_bits_false by lia. by rewrite andb_false_r. }
    rewrite Hodd at 1. rewrite Z.lxor_assoc, Z.lxor_nilpotent. apply Z.lxor_0_r.
Qed.

Lemma buddy_facts i : 0 <= i ->
  0 <= Z.lxor i 1 /\ Z.lxor i 1 <> i /\ Z.lxor i 1 / 2 = i / 2 /\
  Z.min i (Z.lxor i 1) = i / 2 * 2 /\ Z.max i (Z.lxor i 1) = i / 2 * 2 + 1.
Proof.
  intros Hi. rewrite buddy_of by done. pose proof (Z.div_mod i 2 ltac:(lia)) as E.
  rewrite Zmod_even in E. destruct (Z.even i) eqn:He.
  - assert ((i + 1) / 2 = i / 2) by (symmetry; apply Z.div_unique with 1; lia). lia.
  - assert ((i - 1) / 2 = i / 2) by (symmetry; apply Z.div_unique with 0; lia).
    assert (0 <= i / 2) by (apply Z.div_pos; lia). lia.
Qed.

Lemma buddy_address_eq M a L o i :
  binv M a L -> valid_order o -> 0 <= i -> (i + 1) * 2 ^ o <= 2 ^ M -> o < BUDDY_MAX_ORDER ->
  get_buddy_address (addr a o i) o (pool_start a) = addr a o (Z.lxor i 1).
Proof.
  intros Hi Ho Hi0 Hle Hmax. destruct (addr_bounds M a L o i Hi Ho Hi0 Hle) as (H1 & H2 & H3 & H4).
  pose proof (valid_order_nonneg o Ho). order_facts o.
  unfold get_buddy_address, addr in *.
  replace (pool_start a + i * 2 ^ o - pool_start a) with (i * 2 ^ o) by lia.
  rewrite (u64_id (i * 2 ^ o)), block_size_pow by (done || lia).
  assert (Z.lxor (i * 2 ^ o) (2 ^ o) = Z.lxor i 1 * 2 ^ o) as ->.
  { rewrite <- (Z.mul_1_l (2 ^ o)) at 2. rewrite <- !Z.shiftl_mul_pow2 by done.
    by rewrite <- Z.shiftl_lxor. }
  destruct (buddy_facts i Hi0) as (Hb0 & _ & _ & Hmin & Hmx).
  apply u64_id. pose proof (bi_fits _ _ _ Hi). pose proof (bi_top _ _ _ Hi) as HM.
  destruct (bi_shape _ _ _ Hi) as [_ _ _ _ _ Hst _ Hend].
  assert ((i / 2 * 2 + 2) * 2 ^ o <= 2 ^ M + 2 ^ o) by nia. split; [nia|].
  destruct (decide (o = M)) as [->|Hne].
  - pose proof (bi_whole _ _ _ Hi Hmax). nia.
  - assert (HoM : o < M).
    { apply Z.le_neq. split; [|done]. apply Z.nlt_ge. intros Hlt.
      assert (2 ^ M < 2 ^ o); [|nia]. apply Z.pow_lt_mono_r; lia. }
    assert (2 ^ M = 2 ^ (M - (o + 1)) * (2 * 2 ^ o)) as E.
    { rewrite <- (Z.pow_succ_r 2 o), <- Z.pow_add_r by lia. f_equal. lia. }
    assert (i / 2 * 2 + 2 <= 2 ^ (M - (o + 1)) * 2) by nia. nia.
Qed.

Lemma buddy_inside M o i :
  valid_order o -> valid_order M -> o < M -> 0 <= i -> (i + 1) * 2 ^ o <= 2 ^ M ->
  (Z.lxor i 1 + 1) * 2 ^ o <= 2 ^ M /\ (i / 2 + 1) * 2 ^ (o + 1) <= 2 ^ M.
Proof.
  intros Ho HM HoM Hi Hle. order_facts o. pose proof (valid_order_nonneg o Ho).
  destruct (buddy_facts i Hi) as (Hb0 & _ & _ & Hmin & Hmx).
  assert (2 ^ M = 2 ^ (M - (o + 1)) * (2 * 2 ^ o)) as E.
  { rewrite <- (Z.pow_succ_r 2 o), <- Z.pow_add_r by lia. f_equal. lia. }
  rewrite Z.pow_add_r by lia. change (2 ^ 1) with 2.
  assert (i / 2 + 1 <= 2 ^ (M - (o + 1))) by nia. split; nia.
Qed.

Lemma is_valid_block_eq M a L o j :
  binv M a L -> valid_order o -> 0 <= j -> (j + 1) * 2 ^ o <= 2 ^ M ->
  is_valid_block a (addr a o j) o = true.
Proof.
  intros Hi Ho Hj Hle. destruct (addr_bounds M a L o j Hi Ho Hj Hle) as (H1 & H2 & H3 & H4).
  order_facts o. destruct (bi_shape _ _ _ Hi) as [_ _ _ _ _ Hst Hsz Hend].
  unfold is_valid_block. destruct (Z.eqb_spec (addr a o j) 0); [lia|].
  rewrite (u64_id (pool_start a + pool_size a)) by lia.
  destruct (Z.ltb_spec (addr a o j) (pool_start a)); [unfold addr in *; nia|].
  destruct (Z.leb_spec (pool_start a + pool_size a) (addr a o j)); [lia|]. cbn [orb].
  unfold addr in *. replace (pool_start a + j * 2 ^ o - pool_start a) with (j * 2 ^ o) by lia.
  rewrite u64_id, block_size_pow by (done || by apply valid_order_nonneg).
  rewrite Z.mod_mul by lia. done.
Qed.

(** One iteration that merges. *)
Lemma merge_step M a L o i :
  binv M a L -> valid_order o -> o < M -> free a o i = true -> free a o (Z.lxor i 1) = true ->
  exists a1 a2 a3 a4 a5, on_bitmap set_bit a o i = Ret a1 /\
    on_bitmap set_bit a1 o (Z.lxor i 1) = Ret a2 /\ add_size a2 o (-2) = Ret a3 /\
    on_bitmap clear_bit a3 (o + 1) (i / 2) = Ret a4 /\ add_size a4 (o + 1) 1 = Ret a5 /\
    same_pool a a3 /\ same_pool a a5 /\ binv M a5 L /\ free a5 (o + 1) (i / 2) = true /\
    i / 2 < maxb a (o + 1).
Proof.
  intros Hi Ho HoM Hf Hfb. pose proof (free_range _ _ _ Hf) as Hr. pose proof (free_range _ _ _ Hfb) as Hrb.
  destruct (buddy_facts i ltac:(lia)) as (Hb0 & Hne & _ & Hmin & Hmx).
  destruct (free_in_range M a L o i Hi Ho Hf) as [_ Hle]. pose proof (bi_top _ _ _ Hi) as HM.
  destruct (buddy_inside M o i Ho HM HoM ltac:(lia) Hle) as [_ Hle1].
  pose proof (valid_order_nonneg o Ho). order_facts o.
  assert (Ho1 : valid_order (o + 1)) by (unfold valid_order in *; lia).
  assert (Hm0 : 0 <= i / 2) by (apply Z.div_pos; lia).
  assert (Hroom : i / 2 < maxb a (o + 1)).
  { pose proof (bi_room _ _ _ Hi (o + 1) Ho1 ltac:(lia)). order_facts (o + 1).
    assert (2 ^ M = 2 ^ (M - (o + 1)) * 2 ^ (o + 1)) as E by (rewrite <- Z.pow_add_r by lia; f_equal; lia).
    nia. }
  assert (Hnf : free a (o + 1) (i / 2) = false).
  { destruct (free a (o + 1) (i / 2)) eqn:Hf1; [|done]. exfalso.
    apply (free_disjoint a L M o i (o + 1) (i / 2) (i * 2 ^ o)); try done; [lia|nia|..].
    - by rewrite Z.div_mul by lia.
    - rewrite Z.pow_add_r, <- Z.div_div, Z.div_mul by lia. done. }
  destruct (set_bit_spec a o i (bi_shape _ _ _ Hi) Ho Hr) as (a1 & Ha1 & Hl1).
  destruct (set_bit_spec a1 o (Z.lxor i 1) (fl_shape _ _ _ _ _ Hl1) Ho) as (a2 & Ha2 & Hl2).
  { by rewrite (same_pool_maxb _ _ _ (fl_pool _ _ _ _ _ Hl1)). }
  destruct (flip2_step a o i (Z.lxor i 1) false (-1) a1 a2) as (a3 & Ha3 & Hc3 & Hp3 & Hfr3 & Hown3);
    try done; [by apply binv_counted in Hi|].
  assert (Hm3 : maxb a3 (o + 1) = maxb a (o + 1)) by by apply same_pool_maxb.
  destruct (clear_bit_spec a3 (o + 1) (i / 2) (proj1 Hc3) Ho1 ltac:(lia)) as (a4 & Ha4 & Hl4).
  assert (Hf3 : free a3 (o + 1) (i / 2) = false).
  { rewrite Hfr3 by done. rewrite (proj2 (Z.eqb_neq (o + 1) o)) by lia. done. }
  destruct (flip_step a3 (o + 1) (i / 2) true 1 a4) as (a5 & Ha5 & [Hs5 Hc5] & Hp5 & Hfr5 & Hown5);
    try done; [lia|by rewrite Hf3|].
  assert (Hp : same_pool a a5) by by eapply same_pool_trans.
  exists a1, a2, a3, a4, a5. do 7 (split; [done|]). split; [|split; [|done]].
  - apply (binv_step M a L); try done; [|apply Hi].
    intros x Hx. rewrite Hown5, Hown3, covers_halves by (done || lia).
    destruct (Z.le_ge_cases i (Z.lxor i 1)).
    + rewrite Z.min_l in Hmin by lia. rewrite Z.max_r in Hmx by lia. rewrite <- Hmx, <- Hmin. lia.
    + rewrite Z.min_r in Hmin by lia. rewrite Z.max_l in Hmx by lia. rewrite <- Hmx, <- Hmin. lia.
  - rewrite Hfr5 by done. by rewrite !Z.eqb_refl.
Qed.

Lemma merged_address a o i :
  valid_order o -> 0 <= i ->
  (if addr a o i <? addr a o (Z.lxor i 1) then addr a o i else addr a o (Z.lxor i 1))
  = addr a (o + 1) (i / 2).
Proof.
  intros Ho Hi. order_facts o. pose proof (valid_order_nonneg o Ho).
  destruct (buddy_facts i Hi) as (_ & Hne & _ & Hmin & Hmx).
  unfold addr. rewrite Z.pow_add_r by lia. change (2 ^ 1) with 2.
  destruct (Z.ltb_spec (pool_start a + i * 2 ^ o) (pool_start a + Z.lxor i 1 * 2 ^ o)).
  - assert (i < Z.lxor i 1) by nia. rewrite Z.min_l in Hmin by lia. rewrite Hmin at 1. lia.
  - assert (Z.lxor i 1 < i) by nia. rewrite Z.min_r in Hmin by lia. rewrite Hmin. lia.
Qed.

(** At the order of the released block the buddy is past the pool. *)
Lemma buddy_outside M a L i :
  binv M a L -> 0 <= i -> (i + 1) * 2 ^ M <= 2 ^ M -> M < BUDDY_MAX_ORDER ->
  is_valid_block a (addr a M (Z.lxor i 1)) M = false.
Proof.
  intros Hi Hi0 Hle HM. pose proof (bi_top _ _ _ Hi) as HvM. order_facts M.
  assert (i = 0) as -> by nia. change (Z.lxor 0 1) with 1.
  destruct (bi_shape _ _ _ Hi) as [_ _ _ _ _ Hst Hsz Hend]. pose proof (bi_whole _ _ _ Hi HM) as Hw.
  unfold is_valid_block, addr. rewrite Z.mul_1_l.
  destruct (pool_start a + 2 ^ M =? 0); [done|].
  rewrite (u64_id (pool_start a + pool_size a)) by lia.
  destruct (Z.leb_spec (pool_start a + pool_size a) (pool_start a + 2 ^ M)); [|lia].
  by rewrite orb_true_r.
Qed.

Lemma merge_loop_ok M L n : forall a o i,
  binv M a L -> valid_order o -> free a o i = true ->
  runs_to (merge_loop n a (addr a o i) o i) (fun a' => binv M a' L /\ same_pool a a').
Proof.
  induction n as [|n IH]; intros a o i Hi Ho Hf; cbn [merge_loop]; [done|].
  destruct (Z.ltb_spec o BUDDY_MAX_ORDER) as [Hmax|]; cbn [negb]; [|done].
  pose proof (free_range _ _ _ Hf) as Hr. destruct (free_in_range M a L o i Hi Ho Hf) as [HoM Hle].
  rewrite (buddy_address_eq M a L o i) by (done || lia).
  destruct (decide (o = M)) as [->|Hne].
  { rewrite (buddy_outside M a L i) by (done || lia). done. }
  destruct (buddy_inside M o i Ho (bi_top _ _ _ Hi) ltac:(lia) ltac:(lia) Hle) as [Hbin Hmin].
  destruct (buddy_facts i ltac:(lia)) as (Hb0 & _).
  rewrite (is_valid_block_eq M a L o (Z.lxor i 1)) by done. cbn [negb].
  rewrite (get_block_index_eq M a L o (Z.lxor i 1) o) by done.
  pose proof (pow_pos o (valid_order_nonneg o Ho)). rewrite Z.div_mul by lia.
  assert (Hbr : 0 <= Z.lxor i 1 < maxb a o).
  { pose proof (bi_room _ _ _ Hi o Ho HoM) as Hroom. split; [done|].
    assert (2 ^ M = 2 ^ (M - o) * 2 ^ o) as E
      by (rewrite <- Z.pow_add_r by (pose proof (valid_order_nonneg o Ho); lia); f_equal; lia).
    nia. }
  rewrite !test_order_spec by (done || apply Hi). cbn [mbind outcome_bind].
  destruct (free a o (Z.lxor i 1)) eqn:Hfb; cbn [negb]; [|done].
  rewrite Hf. cbn [mbind outcome_bind negb orb].
  destruct (merge_step M a L o i Hi Ho ltac:(lia) Hf Hfb)
    as (a1 & a2 & a3 & a4 & a5 & -> & H2 & H3 & H4 & H5 & Hp3 & Hp5 & Hi5 & Hf5 & Hm).
  cbn [mbind outcome_bind]. rewrite H2. cbn [mbind outcome_bind]. rewrite H3. cbn [mbind outcome_bind].
  rewrite merged_address by (done || lia).
  assert (Ho1 : valid_order (o + 1)) by (unfold valid_order in *; lia).
  assert (Hm0 : 0 <= i / 2) by (apply Z.div_pos; lia).
  destruct Hp3 as (Es3 & Ez3 & Em3). destruct Hp5 as (Es5 & Ez5 & Em5).
  rewrite Es3, (get_block_index_eq M a L (o + 1) (i / 2) (o + 1) Hi Ho1 Ho1 Hm0 Hmin).
  pose proof (pow_pos (o + 1) (valid_order_nonneg _ Ho1)). rewrite Z.div_mul by lia.
  rewrite Em3, (aget_default _ 0 (o + 1) (order_index _ _ (sh_maxes _ (bi_shape _ _ _ Hi)) Ho1)).
  cbn [mbind outcome_bind]. fold (maxb a (o + 1)).
  destruct (Z.leb_spec (maxb a (o + 1)) (i / 2)); [lia|].
  rewrite H4. cbn [mbind outcome_bind]. rewrite H5. cbn [mbind outcome_bind].
  assert (addr a (o + 1) (i / 2) = addr a5 (o + 1) (i / 2)) as -> by (unfold addr; by rewrite Es5).
  eapply runs_to_mono; [by apply IH|]. intros a' [Hi' Hp']. split; [done|].
  eapply same_pool_trans; [|exact Hp']. done.
Qed.

(** ** Freeing and allocating *)

Lemma live_perm M a L L' : binv M a L -> L ≡ₚ L' -> binv M a L'.
Proof.
  intros Hi HL.
  destruct Hi. constructor; try done.
  - intros x Hx. unfold owners in *. rewrite <- (sumZ_perm _ _ _ HL). auto.
  - by rewrite <- HL.
Qed.

Lemma buddy_free_ok M a L o j :
  binv M a ((o, j) :: L) ->
  runs_to (buddy_free a (addr a o j) o) (fun a' => binv M a' L /\ same_pool a a').
Proof.
  intros Hi. destruct (live_in_range M a _ o j Hi) as (Ho & HoM & Hr & Hle); [left|].
  destruct (addr_bounds M a _ o j Hi Ho ltac:(lia) Hle) as (Hpos & _).
  pose proof (is_valid_block_eq M a _ o j Hi Ho ltac:(lia) Hle) as Hv.
  unfold buddy_free. destruct (Z.eqb_spec (addr a o j) 0); [lia|].
  unfold valid_order in Ho. destruct (Z.ltb_spec o BUDDY_MIN_ORDER); [lia|].
  destruct (Z.ltb_spec BUDDY_MAX_ORDER o); [lia|]. cbn [orb]. rewrite Hv. cbn [negb].
  unfold free_block. rewrite Hv. cbn [negb].
  rewrite (get_block_index_eq M a _ o j o Hi) by (done || lia).
  pose proof (pow_pos o (valid_order_nonneg o Ho)). rewrite Z.div_mul by lia.
  destruct (give_step M a L o j Hi) as (a1 & a2 & -> & H2 & Hi2 & Hp2 & Hf2).
  cbn [mbind outcome_bind]. rewrite H2. cbn [mbind outcome_bind].
  pose proof Hp2 as (Es & _).
  assert (addr a o j = addr a2 o j) as -> by (unfold addr; by rewrite Es).
  eapply runs_to_mono; [by apply merge_loop_ok|]. intros a' [Hi' Hp']. split; [done|].
  by eapply same_pool_trans.
Qed.

Lemma minimum_order_loop_ok n : forall o size,
  valid_order o -> Z.of_nat n = BUDDY_MAX_ORDER - o ->
  o <= minimum_order_loop n o (2 ^ o) size <= BUDDY_MAX_ORDER /\
  (size <= 2 ^ BUDDY_MAX_ORDER -> size <= 2 ^ minimum_order_loop n o (2 ^ o) size) /\
  (minimum_order_loop n o (2 ^ o) size = o \/ 2 ^ (minimum_order_loop n o (2 ^ o) size - 1) < size).
Proof.
  induction n as [|n IH]; intros o size Ho Hn; cbn [minimum_order_loop].
  { unfold valid_order in Ho. replace o with BUDDY_MAX_ORDER by lia. split_and!; [lia|lia|done|by left]. }
  unfold valid_order in Ho. destruct (Z.ltb_spec (2 ^ o) size), (Z.ltb_spec o BUDDY_MAX_ORDER);
    cbn [andb]; try (split_and!; [lia|lia|lia|by left]).
  assert (Ho1 : valid_order (o + 1)) by (unfold valid_order; lia). order_facts (o + 1).
  assert (u64 (Z.shiftl (2 ^ o) 1) = 2 ^ (o + 1)) as ->.
  { rewrite Z.shiftl_mul_pow2, Z.pow_add_r in * by (unfold BUDDY_MIN_ORDER in *; lia).
    apply u64_id. lia. }
  destruct (IH (o + 1) size Ho1 ltac:(lia)) as (Hm1 & Hm2 & Hm3). split_and!; [lia|lia|done|].
  right. destruct Hm3 as [->|Hm3]; [by rewrite Z.add_simpl_r|done].
Qed.

Lemma get_minimum_order_ok size :
  valid_order (get_minimum_order size) /\
  (size <= 2 ^ BUDDY_MAX_ORDER -> size <= 2 ^ get_minimum_order size).
Proof.
  unfold get_minimum_order. rewrite block_size_pow by done.
  destruct (minimum_order_loop_ok (Z.to_nat (BUDDY_MAX_ORDER - BUDDY_MIN_ORDER)) BUDDY_MIN_ORDER size)
    as (H1 & H2 & _); [done|done|]. unfold valid_order. split; [lia|done].
Qed.

(** The address ranges of two blocks of the pool. *)
Definition disjoint_blocks (a : buddy_allocator) (b1 b2 : Z * Z) : Prop :=
  addr a b1.1 b1.2 + 2 ^ b1.1 <= addr a b2.1 b2.2 \/ addr a b2.1 b2.2 + 2 ^ b2.1 <= addr a b1.1 b1.2.

(** Live blocks do not overlap. *)
Lemma live_disjoint M a L b1 b2 :
  binv M a (b1 :: L) -> b2 ∈ L -> disjoint_blocks a b1 b2.
Proof.
  intros Hi Hb2. destruct b1 as [o1 j1], b2 as [o2 j2].
  destruct (live_in_range M a _ o1 j1 Hi) as (Ho1 & _ & Hr1 & _); [left|].
  destruct (live_in_range M a _ o2 j2 Hi) as (Ho2 & _ & Hr2 & _); [by right|].
  order_facts o1. order_facts o2. unfold disjoint_blocks, addr. simpl.
  destruct (Z.le_gt_cases (j1 * 2 ^ o1 + 2 ^ o1) (j2 * 2 ^ o2)) as [|Hlt1]; [left; lia|].
  destruct (Z.le_gt_cases (j2 * 2 ^ o2 + 2 ^ o2) (j1 * 2 ^ o1)) as [|Hlt2]; [right; lia|]. exfalso.
  set (x := Z.max (j1 * 2 ^ o1) (j2 * 2 ^ o2)).
  pose proof (bi_owners _ _ _ Hi x ltac:(nia)) as H1.
  pose proof (live_owns a L o2 j2 x Hb2 ltac:(nia)) as H2. unfold owners in *.
  rewrite sumZ_cons, (covers_self o1 j1 x) in H1 by nia.
  pose proof (b2z_range (x <? 2 ^ M)). lia.
Qed.
