(* ===== verification/BuddyTheorems.v ===== *)
(** * The buddy allocator: initialisation, accounting and theorems *)

From S2P Require Import Prelude Buddy BuddyProofs.

(** ** Accounting: no memory is lost *)

(** Summing over bytes a function of their block. *)
Lemma sum_by_blocks (f : Z -> Z) (n : Z) (k : nat) :
  0 < n -> sumZ (fun x => f (x / n)) (seqZ 0 (n * Z.of_nat k)) = n * sumZ f (seqZ 0 (Z.of_nat k)).
Proof.
  intros Hn. induction k as [|k IH]; [rewrite Z.mul_0_r; unfold sumZ; simpl; lia|].
  replace (n * Z.of_nat (S k)) with (n * Z.of_nat k + n) by lia.
  rewrite (seqZ_app 0 (n * Z.of_nat k) n), sumZ_app, IH by nia.
  replace (Z.of_nat (S k)) with (Z.of_nat k + 1) by lia.
  rewrite (seqZ_app 0 (Z.of_nat k) 1), sumZ_app by lia. rewrite !Z.add_0_l.
  rewrite (sumZ_ext _ (fun _ => f (Z.of_nat k)) (seqZ (n * Z.of_nat k) n)).
  - rewrite sumZ_const, len_seqZ by lia. change (seqZ (Z.of_nat k) 1) with [Z.of_nat k].
    rewrite sumZ_cons. unfold sumZ at 3. simpl. lia.
  - intros x Hx%elem_of_seqZ. f_equal. apply block_of. lia.
Qed.

Lemma sum_blocks_pow (f : Z -> Z) M o :
  0 <= o <= M -> sumZ (fun x => f (x / 2 ^ o)) (seqZ 0 (2 ^ M)) = 2 ^ o * sumZ f (seqZ 0 (2 ^ (M - o))).
Proof.
  intros Ho. pose proof (pow_pos o ltac:(lia)). pose proof (pow_pos (M - o) ltac:(lia)).
  replace (2 ^ M) with (2 ^ o * Z.of_nat (Z.to_nat (2 ^ (M - o)))).
  - rewrite sum_by_blocks by done. by rewrite Z2Nat.id by lia.
  - rewrite Z2Nat.id, <- Z.pow_add_r by lia. f_equal. lia.
Qed.

(** The bytes of the free blocks of one order. *)
Lemma free_bytes M a L o :
  binv M a L -> valid_order o ->
  sumZ (fun x => Z.b2z (free a o (x / 2 ^ o))) (seqZ 0 (2 ^ M)) = 2 ^ o * count a o.
Proof.
  intros Hi Ho. destruct (Z.le_gt_cases o M) as [HoM|HoM].
  - rewrite (sum_blocks_pow (fun j => Z.b2z (free a o j)) M o)
      by (pose proof (valid_order_nonneg o Ho); lia).
    f_equal. unfold count. pose proof (bi_room _ _ _ Hi o Ho HoM) as Hroom.
    replace (maxb a o) with (2 ^ (M - o) + (maxb a o - 2 ^ (M - o))) by lia.
    pose proof (pow_pos (M - o) ltac:(lia)).
    rewrite (seqZ_app 0 (2 ^ (M - o))), sumZ_app by lia. rewrite Z.add_0_l.
    rewrite (sumZ_ext _ (fun _ => 0) (seqZ (2 ^ (M - o)) _)); [rewrite sumZ_const; lia|].
    intros j Hj%elem_of_seqZ. destruct (free a o j) eqn:Hf; [|done]. exfalso.
    destruct (inside_top M a L o j Hi Ho ltac:(lia)) as (_ & _ & Hlt); [|lia].
    intros x Hx. by apply (free_owns a L o j).
  - rewrite (sumZ_ext _ (fun _ => 0)), sumZ_const, count_zero; [lia|..].
    + intros j _. destruct (free a o j) eqn:Hf; [|done].
      destruct (free_in_range M a L o j Hi Ho Hf). lia.
    + intros x _. destruct (free a o _) eqn:Hf; [|done].
      destruct (free_in_range M a L o _ Hi Ho Hf). lia.
Qed.

Lemma live_bytes M a L o j :
  binv M a L -> (o, j) ∈ L -> sumZ (covers o j) (seqZ 0 (2 ^ M)) = 2 ^ o.
Proof.
  intros Hi HL. destruct (live_in_range M a L o j Hi HL) as (Ho & HoM & Hr & Hle).
  pose proof (valid_order_nonneg o Ho). pose proof (pow_pos o ltac:(done)).
  unfold covers. rewrite (sum_blocks_pow (fun i => Z.b2z (i =? j)) M o) by lia.
  rewrite (sumZ_point (fun _ => 0) _ _ j (NoDup_seqZ _ _)), sumZ_const, Z.eqb_refl; [simpl; lia|..].
  - apply elem_of_seqZ. split; [lia|]. rewrite Z.add_0_l.
    assert (2 ^ M = 2 ^ (M - o) * 2 ^ o) by (rewrite <- Z.pow_add_r by lia; f_equal; lia). nia.
  - intros i _ Hne. by rewrite (proj2 (Z.eqb_neq i j) Hne).
Qed.

Definition live_total (L : list (Z * Z)) : Z := sumZ (fun b => 2 ^ b.1) L.

Lemma conservation M a L :
  binv M a L -> sumZ (fun o => nfree a o * 2 ^ o) orders + live_total L = 2 ^ M.
Proof.
  intros Hi. pose proof (bi_top _ _ _ Hi) as HM. pose proof (pow_pos M (valid_order_nonneg M HM)).
  assert (Htot : sumZ (owners a L) (seqZ 0 (2 ^ M)) = 2 ^ M).
  { rewrite (sumZ_ext _ (fun _ => 1)); [rewrite sumZ_const, len_seqZ by lia; lia|].
    intros x Hx%elem_of_seqZ. rewrite (bi_owners _ _ _ Hi) by lia.
    destruct (Z.ltb_spec x (2 ^ M)); [done|lia]. }
  rewrite <- Htot. unfold owners. rewrite sumZ_plus. f_equal.
  - rewrite sumZ_swap. apply sumZ_ext. intros o Ho%elem_of_orders.
    rewrite (bi_counts _ _ _ Hi o Ho), (free_bytes M a L o Hi Ho). lia.
  - rewrite sumZ_swap. unfold live_total. apply sumZ_ext. intros [o j] HL. simpl.
    symmetry. by apply (live_bytes M a L).
Qed.

Lemma free_memory_loop_ok a os : forall acc,
  shape a -> (forall o, o ∈ os -> valid_order o) -> (forall o, o ∈ os -> 0 <= nfree a o) -> 0 <= acc ->
  acc + sumZ (fun o => nfree a o * 2 ^ o) os < 2 ^ 64 ->
  free_memory_loop a os acc = Ret (acc + sumZ (fun o => nfree a o * 2 ^ o) os).
Proof.
  induction os as [|o os IH]; intros acc Hs Hv Hn Hacc Hlt; cbn [free_memory_loop].
  { f_equal. unfold sumZ. simpl. lia. }
  rewrite sumZ_cons in Hlt. pose proof (Hv o ltac:(left)) as Ho. pose proof (Hn o ltac:(left)) as Hno.
  pose proof (pow_pos o (valid_order_nonneg o Ho)).
  assert (0 <= sumZ (fun o => nfree a o * 2 ^ o) os).
  { apply sumZ_nonneg. intros o' Ho'. pose proof (Hn o' ltac:(by right)).
    pose proof (pow_pos o' (valid_order_nonneg o' (Hv o' ltac:(by right)))). nia. }
  rewrite (aget_default _ 0 o (order_index _ o (sh_sizes _ Hs) Ho)). cbn [mbind outcome_bind].
  fold (nfree a o). rewrite block_size_pow by by apply valid_order_nonneg.
  rewrite (u64_id (nfree a o * 2 ^ o)) by nia. rewrite u64_id by nia.
  rewrite IH; [|done|intros; apply Hv; by right|intros; apply Hn; by right|nia|lia].
  rewrite sumZ_cons. f_equal. lia.
Qed.

(** ** Initialisation *)

Lemma per_order_len {A} (old : list A) f : len old = 21 -> len (per_order old f) = 21.
Proof.
  intros Hl. unfold per_order, len in *. rewrite length_app, length_take, length_map.
  unfold BUDDY_MIN_ORDER. rewrite Nat.min_l by lia. done.
Qed.

Lemma per_order_lookup {A} (old : list A) (f : Z -> A) o :
  len old = 21 -> valid_order o -> per_order old f !! Z.to_nat o = Some (f o).
Proof.
  intros Hl Ho. unfold per_order, valid_order, BUDDY_MIN_ORDER, BUDDY_MAX_ORDER, len in *.
  rewrite lookup_app_r by (rewrite length_take; lia).
  rewrite length_take, Nat.min_l by lia.
  change (map f orders) with (f <$> orders). rewrite list_lookup_fmap.
  unfold orders, BUDDY_MIN_ORDER, BUDDY_MAX_ORDER.
  assert (seqZ 12 (20 + 1 - 12) !! (Z.to_nat o - Z.to_nat 12)%nat = Some o) as ->; [|done].
  apply lookup_seqZ. lia.
Qed.

(** The largest order with a block. *)
Lemma top_order_loop_ok (max : list Z) n : forall o,
  len max = 21 -> valid_order o -> Z.of_nat n = o - BUDDY_MIN_ORDER ->
  runs_to (top_order_loop n max o) (fun M => valid_order M /\ M <= o /\
    (forall o', M < o' <= o -> max !! Z.to_nat o' = Some 0) /\
    (M = BUDDY_MIN_ORDER \/ max !! Z.to_nat M <> Some 0)).
Proof.
  induction n as [|n IH]; intros o Hl Ho Hn; cbn [top_order_loop].
  { split_and!; [unfold valid_order in *; lia..|lia|left; lia]. }
  unfold valid_order in Ho. destruct (Z.ltb_spec BUDDY_MIN_ORDER o); [|lia].
  destruct (aget_in_bounds max o) as (m & -> & Hm); [unfold BUDDY_MIN_ORDER, BUDDY_MAX_ORDER in *; lia|].
  cbn [mbind outcome_bind]. destruct (Z.eqb_spec m 0) as [->|Hne].
  - eapply runs_to_mono; [apply IH; unfold valid_order; lia|].
    intros M (HvM & HM & Hz & Hor). split_and!; [apply HvM..|lia| |done].
    intros o' Ho'. destruct (decide (o' = o)) as [->|]; [done|]. apply Hz. lia.
  - split_and!; [unfold valid_order; lia..|lia|right; congruence].
Qed.

Lemma words_bound n : 0 <= n -> n <= 32 * bitmap_words_for n < n + 32.
Proof.
  intros Hn. unfold bitmap_words_for. pose proof (Z.div_mod (n + 31) 32 ltac:(lia)).
  pose proof (Z.mod_pos_bound (n + 31) 32 ltac:(lia)). lia.
Qed.

(** The bytes the bitmaps take. *)
Definition bitmap_bytes (size : Z) : Z :=
  sumZ (fun o => 4 * bitmap_words_for (size / BUDDY_BLOCK_SIZE o)) orders.

Lemma bitmap_bytes_bound size : 0 <= size -> 0 <= bitmap_bytes size <= size / 16384 + 45.
Proof.
  intros Hs. unfold bitmap_bytes.
  assert (Hb : forall k, 0 < k ->
    0 <= 4 * bitmap_words_for (size / k) /\ 8 * (4 * bitmap_words_for (size / k)) <= size / k + 31).
  { intros k Hk. assert (0 <= size / k) by (apply Z.div_pos; lia).
    pose proof (words_bound (size / k) ltac:(done)). lia. }
  change orders with [12; 13; 14; 15; 16; 17; 18; 19; 20]. unfold sumZ. cbn [foldr].
  change (BUDDY_BLOCK_SIZE 12) with 4096. change (BUDDY_BLOCK_SIZE 13) with 8192.
  change (BUDDY_BLOCK_SIZE 14) with 16384. change (BUDDY_BLOCK_SIZE 15) with 32768.
  change (BUDDY_BLOCK_SIZE 16) with 65536. change (BUDDY_BLOCK_SIZE 17) with 131072.
  change (BUDDY_BLOCK_SIZE 18) with 262144. change (BUDDY_BLOCK_SIZE 19) with 524288.
  change (BUDDY_BLOCK_SIZE 20) with 1048576.
  pose proof (Hb 4096 ltac:(lia)). pose proof (Hb 8192 ltac:(lia)). pose proof (Hb 16384 ltac:(lia)).
  pose proof (Hb 32768 ltac:(lia)). pose proof (Hb 65536 ltac:(lia)). pose proof (Hb 131072 ltac:(lia)).
  pose proof (Hb 262144 ltac:(lia)). pose proof (Hb 524288 ltac:(lia)). pose proof (Hb 1048576 ltac:(lia)).
  clear Hb. Z.div_mod_to_equations. lia.
Qed.

Lemma orders_split o : valid_order o -> orders = seqZ 12 (o - 12) ++ seqZ o (21 - o).
Proof.
  unfold valid_order, orders, BUDDY_MIN_ORDER, BUDDY_MAX_ORDER. intros Ho.
  replace (20 + 1 - 12) with ((o - 12) + (21 - o)) by lia. rewrite seqZ_app by lia.
  by replace (12 + (o - 12)) with o by lia.
Qed.

Lemma words_nonneg size o : 0 <= size -> 0 <= o -> 0 <= 4 * bitmap_words_for (size / BUDDY_BLOCK_SIZE o).
Proof.
  intros Hs Ho. rewrite block_size_pow by done. pose proof (pow_pos o Ho).
  pose proof (words_bound (size / 2 ^ o) ltac:(apply Z.div_pos; lia)).
  assert (0 <= size / 2 ^ o) by (apply Z.div_pos; lia). lia.
Qed.

(** Every bitmap lies in the last [bitmap_bytes size] bytes of the pool. *)
Lemma bitmap_address_bounds pool_end size o :
  0 <= size -> valid_order o -> bitmap_bytes size <= pool_end < 2 ^ 64 ->
  pool_end - bitmap_bytes size <= bitmap_address pool_end size o /\
  bitmap_address pool_end size o + 4 * bitmap_words_for (size / BUDDY_BLOCK_SIZE o) <= pool_end.
Proof.
  intros Hs Ho Hend. unfold bitmap_address.
  set (tail := sumZ _ (seqZ o _)).
  assert (Htail : tail = 4 * bitmap_words_for (size / BUDDY_BLOCK_SIZE o) +
    sumZ (fun o => 4 * bitmap_words_for (size / BUDDY_BLOCK_SIZE o)) (seqZ (Z.succ o) (Z.pred (21 - o)))).
  { unfold tail, BUDDY_MAX_ORDER. change (20 + 1 - o) with (21 - o).
    rewrite seqZ_cons by (unfold valid_order, BUDDY_MAX_ORDER in Ho; lia). by rewrite sumZ_cons. }
  assert (Hle : tail <= bitmap_bytes size).
  { unfold bitmap_bytes. rewrite (orders_split o Ho), sumZ_app.
    unfold tail. change (BUDDY_MAX_ORDER + 1 - o) with (21 - o).
    assert (0 <= sumZ (fun o => 4 * bitmap_words_for (size / BUDDY_BLOCK_SIZE o)) (seqZ 12 (o - 12))); [|lia].
    apply sumZ_nonneg. intros o' Ho'%elem_of_seqZ. apply words_nonneg; lia. }
  pose proof (words_nonneg size o Hs (valid_order_nonneg o Ho)).
  assert (0 <= sumZ (fun o => 4 * bitmap_words_for (size / BUDDY_BLOCK_SIZE o))
                 (seqZ (Z.succ o) (Z.pred (21 - o)))).
  { apply sumZ_nonneg. intros o' Ho'%elem_of_seqZ. apply words_nonneg; [done|].
    pose proof (valid_order_nonneg o Ho). lia. }
  rewrite u64_id by lia. lia.
Qed.

(** The allocator between the layout of the bitmaps and the release of the
    first block: every block is taken. *)
Record blank_ok (size : Z) (a : buddy_allocator) : Prop := {
  bl_shape : shape a;
  bl_free : forall o j, valid_order o -> free a o j = false;
  bl_max : forall o, valid_order o -> maxb a o = size / 2 ^ o;
  bl_sizes : forall o, valid_order o -> nfree a o = 0
}.

Lemma full_word_bit m : 0 <= m < 32 -> Z.testbit 0xFFFFFFFF m = true.
Proof. intros Hm. change 0xFFFFFFFF with (Z.ones 32). by apply Z.ones_spec_low. Qed.

Lemma blank_intro a start psize size hhdm bitmaps sizes max (addr_of : Z -> Z) :
  len bitmaps = 21 -> len sizes = 21 -> len max = 21 ->
  (forall o, valid_order o -> bitmaps !! Z.to_nat o = Some (Some (mkbitmap (addr_of o)
     (replicate (Z.to_nat (bitmap_words_for (size / 2 ^ o))) 0xFFFFFFFF)))) ->
  (forall o, valid_order o -> sizes !! Z.to_nat o = Some 0) ->
  (forall o, valid_order o -> max !! Z.to_nat o = Some (size / 2 ^ o)) ->
  0 <= size < 2 ^ 64 -> 0 < start -> 0 <= psize -> start + psize < 2 ^ 64 ->
  a = mkbuddy start psize hhdm bitmaps sizes max -> blank_ok size a.
Proof.
  intros Hb Hs Hm Hbm Hsz Hmx Hsize Hst Hps Hend ->.
  assert (Hmax : forall o, valid_order o -> maxb (mkbuddy start psize hhdm bitmaps sizes max) o = size / 2 ^ o)
    by (intros o Ho; unfold maxb; simpl; by rewrite Hmx).
  assert (Hq : forall o, valid_order o -> 0 <= size / 2 ^ o < 2 ^ 52).
  { intros o Ho. order_facts o. split; [apply Z.div_pos; lia|]. apply Z.div_lt_upper_bound; nia. }
  assert (Hbmap : forall o, valid_order o -> bmap (mkbuddy start psize hhdm bitmaps sizes max) o =
    Some (mkbitmap (addr_of o) (replicate (Z.to_nat (bitmap_words_for (size / 2 ^ o))) 0xFFFFFFFF)))
    by (intros o Ho; unfold bmap; simpl; by rewrite Hbm).
  constructor.
  - constructor; try done.
    + intros o Ho. rewrite Hbmap, Hmax by done. eexists. split; [done|]. simpl. unfold len.
      rewrite length_replicate. pose proof (words_bound (size / 2 ^ o) ltac:(apply Hq; done)).
      pose proof (Hq o Ho). lia.
    + intros o Ho. rewrite Hmax by done. by apply Hq.
  - intros o j Ho. unfold free. rewrite Hbmap, Hmax by done.
    destruct (Z.leb_spec 0 j), (Z.ltb_spec j (size / 2 ^ o)); try done. cbn [andb].
    apply negb_false_iff. unfold word_bit. cbn [bm_words].
    pose proof (words_bound (size / 2 ^ o) ltac:(lia)).
    rewrite lookup_replicate_2.
    + apply full_word_bit. apply Z.mod_pos_bound. lia.
    + apply Z2Nat.inj_lt; [apply Z.div_pos; lia|lia|]. apply Z.div_lt_upper_bound; lia.
  - done.
  - intros o Ho. unfold nfree. simpl. by rewrite Hsz.
Qed.

(** Releasing block 0 of the top order establishes the invariant. *)
Lemma release_top M size a a1 ns :
  blank_ok size a -> valid_order M -> 2 ^ M <= size -> 2 ^ M <= pool_size a ->
  (M < BUDDY_MAX_ORDER -> pool_size a = 2 ^ M) ->
  flips a a1 M 0 true -> ns = <[Z.to_nat M := 1]> (free_area_size a1) ->
  binv M (set_sizes a1 ns) [].
Proof.
  intros [Hs Hf Hmx Hsz] HM HMs Hfit Hwhole Hfl ->.
  assert (Hmax : forall o, maxb (set_sizes a1 (<[Z.to_nat M := 1]> (free_area_size a1))) o = maxb a o).
  { intros o. change (maxb a1 o = maxb a o). apply same_pool_maxb, Hfl. }
  destruct (fl_shape _ _ _ _ _ Hfl) as [Hs1 Hs2 Hs3 Hs4 Hs5 Hs6 Hs7 Hs8].
  pose proof (pow_pos M (valid_order_nonneg M HM)).
  assert (Hroom : forall o, valid_order o -> o <= M -> 2 ^ (M - o) <= maxb a o).
  { intros o Ho HoM. rewrite Hmx by done. pose proof (valid_order_nonneg o Ho).
    rewrite <- (Z.div_mul (2 ^ (M - o)) (2 ^ o)) by (pose proof (pow_pos o ltac:(done)); lia).
    apply Z.div_le_mono; [by apply pow_pos|]. rewrite <- Z.pow_add_r by lia.
    by replace (M - o + o) with M by lia. }
  assert (H0 : 0 <= 0 < maxb a M).
  { pose proof (Hroom M HM ltac:(lia)) as Hr. rewrite Z.sub_diag in Hr. lia. }
  destruct (fl_pool _ _ _ _ _ Hfl) as (Es & Ez & Em).
  constructor; try done.
  - constructor; try done. cbn [free_area_size set_sizes]. by rewrite len_insert.
  - intros x Hx. change (owners a1 [] x = Z.b2z (x <? 2 ^ M)).
    rewrite (flips_owners _ _ _ _ _ [] x Hfl HM), Hf by done.
    assert (owners a [] x = 0) as ->.
    { unfold owners. rewrite (sumZ_ext _ (fun _ => 0)); [by rewrite sumZ_const|].
      intros o Ho%elem_of_orders. by rewrite Hf. }
    unfold covers. destruct (Z.ltb_spec x (2 ^ M)).
    + by rewrite Z.div_small by lia.
    + destruct (Z.eqb_spec (x / 2 ^ M) 0) as [E|]; [|done].
      apply Z.div_small_iff in E; lia.
  - intros o Ho. change (count (set_sizes a1 _) o) with (count a1 o).
    rewrite (flips_count _ _ _ _ _ o Hfl Ho H0), Hf by done.
    rewrite (count_zero a o) by (intros; by apply Hf).
    unfold nfree. cbn [free_area_size set_sizes].
    rewrite default_insert; [|by apply (order_index _ M Hs2 HM)|by apply valid_order_nonneg].
    rewrite (Z.eqb_sym o M). destruct (Z.eqb_spec M o); [done|].
    rewrite (fl_sizes _ _ _ _ _ Hfl). by apply Hsz.
  - by rewrite <- Ez in Hfit.
  - intros HMM. cbn [pool_size set_sizes]. rewrite Ez. by apply Hwhole.
  - intros o Ho HoM. rewrite Hmax. by apply Hroom.
Qed.

(** The arithmetic of the layout: [p0] is the size rounded down to pages. *)
Lemma layout_arith p0 M :
  8192 <= p0 -> p0 mod 4096 = 0 -> valid_order M ->
  2 ^ M <= p0 - bitmap_bytes p0 -> 0 < bitmap_bytes p0 ->
  (M < BUDDY_MAX_ORDER -> p0 - bitmap_bytes p0 < 2 ^ (M + 1)) ->
  2 ^ M + bitmap_bytes (p0 - bitmap_bytes p0) <= p0 - bitmap_bytes p0.
Proof.
  intros Hp Hmod HM Hfit Hpos Hlt.
  pose proof (bitmap_bytes_bound p0 ltac:(lia)) as [_ Hb0].
  assert (H0 : 0 <= p0 - bitmap_bytes p0) by (pose proof (pow_pos M (valid_order_nonneg M HM)); lia).
  pose proof (bitmap_bytes_bound (p0 - bitmap_bytes p0) H0) as [_ Hb1].
  assert (H4096 : exists q, 2 ^ M = 4096 * q).
  { exists (2 ^ (M - 12)). change 4096 with (2 ^ 12). rewrite <- Z.pow_add_r;
      unfold valid_order, BUDDY_MIN_ORDER in HM; [f_equal|..]; lia. }
  destruct H4096 as [q Hq]. pose proof (Z.div_mod p0 4096 ltac:(lia)) as Hdm. rewrite Hmod in Hdm.
  assert (Hge : 2 ^ M + 4096 <= p0) by nia.
  assert (Hmono : (p0 - bitmap_bytes p0) / 16384 <= p0 / 16384) by (apply Z.div_le_mono; lia).
  order_facts M. pose proof (Z.div_mod p0 16384 ltac:(lia)). pose proof (Z.mod_pos_bound p0 16384 ltac:(lia)).
  destruct (Z.eq_dec M BUDDY_MAX_ORDER) as [->|Hne].
  - change (2 ^ BUDDY_MAX_ORDER) with 1048576 in *. lia.
  - assert (HM' : M < BUDDY_MAX_ORDER) by (unfold valid_order in HM; lia). specialize (Hlt HM').
    assert (2 ^ (M + 1) <= 1048576).
    { change 1048576 with (2 ^ 20). apply Z.pow_le_mono_r; unfold BUDDY_MAX_ORDER in *; lia. }
    lia.
Qed.

Lemma bitmap_bytes_pos p0 : 4096 <= p0 -> 0 < bitmap_bytes p0.
Proof.
  intros Hp. unfold bitmap_bytes. change orders with (12 :: seqZ 13 8). rewrite sumZ_cons.
  change (BUDDY_BLOCK_SIZE 12) with 4096.
  assert (0 <= sumZ (fun o => 4 * bitmap_words_for (p0 / BUDDY_BLOCK_SIZE o)) (seqZ 13 8)).
  { apply sumZ_nonneg. intros o Ho%elem_of_seqZ. apply words_nonneg; lia. }
  assert (1 <= p0 / 4096) by (apply Z.div_le_lower_bound; lia).
  pose proof (words_bound (p0 / 4096) ltac:(lia)). lia.
Qed.

Lemma page_round size :
  8192 <= size -> 8192 <= size - size mod 4096 <= size /\ (size - size mod 4096) mod 4096 = 0.
Proof.
  intros Hs. pose proof (Z.div_mod size 4096 ltac:(lia)). pose proof (Z.mod_pos_bound size 4096 ltac:(lia)).
  assert (2 <= size / 4096) by (apply Z.div_le_lower_bound; lia).
  split; [lia|]. replace (size - size mod 4096) with (size / 4096 * 4096) by lia. apply Z.mod_mul. lia.
Qed.

(** The order [top_order_loop] finds in the table of a pool of [size] bytes. *)
Lemma top_order_ok (max : list Z) size :
  len max = 21 -> (forall o, valid_order o -> max !! Z.to_nat o = Some (size / 2 ^ o)) ->
  4096 <= size ->
  runs_to (top_order_loop (Z.to_nat (BUDDY_MAX_ORDER - BUDDY_MIN_ORDER)) max BUDDY_MAX_ORDER)
    (fun M => valid_order M /\ 2 ^ M <= size /\ (M < BUDDY_MAX_ORDER -> size < 2 ^ (M + 1))).
Proof.
  intros Hl Hmx Hs. eapply runs_to_mono; [by apply top_order_loop_ok|].
  intros M (HM & HMle & Hz & Hor). split; [done|]. pose proof (pow_pos M (valid_order_nonneg M HM)). split.
  - destruct Hor as [->|Hne]; [done|]. apply Z.nlt_ge. intros Hlt. apply Hne.
    rewrite Hmx by done. by rewrite Z.div_small by lia.
  - intros HMM. assert (Ho1 : valid_order (M + 1)) by (unfold valid_order in *; lia).
    pose proof (Hz (M + 1) ltac:(lia)) as H0. rewrite Hmx in H0 by done. injection H0 as H0.
    apply Z.div_small_iff in H0; [lia|]. pose proof (pow_pos (M + 1) (valid_order_nonneg _ Ho1)). lia.
Qed.

(** The final pool size and top entry of the table. *)
Lemma adjust_ok size M :
  valid_order M -> 2 ^ M <= size -> (M < BUDDY_MAX_ORDER -> size < 2 ^ (M + 1)) ->
  let b := 2 ^ M in
  let final := if negb (size mod b =? 0) then size / b * b else size in
  b <= final <= size /\ (M < BUDDY_MAX_ORDER -> final = b) /\ size / b * b / b = size / b.
Proof.
  intros HM Hle Hlt b final. assert (Hb : 0 < b) by apply (pow_pos M (valid_order_nonneg M HM)).
  assert (1 <= size / b) by (apply Z.div_le_lower_bound; subst b; lia).
  pose proof (Z.div_mod size b ltac:(lia)). pose proof (Z.mod_pos_bound size b ltac:(lia)).
  split_and!; [| | |by rewrite Z.div_mul by lia].
  - unfold final. destruct (negb _); nia.
  - unfold final. destruct (negb _); nia.
  - intros HMM. specialize (Hlt HMM). rewrite Z.pow_add_r in Hlt by (pose proof (valid_order_nonneg M HM); lia).
    fold b in Hlt. assert (size / b = 1) as E by (apply block_of; lia).
    unfold final. rewrite E. destruct (Z.eqb_spec (size mod b) 0); cbn [negb]; lia.
Qed.

(** Where a bitmap is and how long it is. *)
Definition bitmap_extent (a : buddy_allocator) (o : Z) : option (Z * Z) :=
  option_map (fun b => (bm_addr b, len (bm_words b))) (bmap a o).

Lemma update_bit_extent f bm j max bm' :
  update_bit f bm j max = Ret bm' ->
  option_map (fun b => (bm_addr b, len (bm_words b))) bm' =
  option_map (fun b => (bm_addr b, len (bm_words b))) bm.
Proof.
  unfold update_bit. destruct (negb _); [by intros [= <-]|]. destruct bm as [b|]; [|by intros [= <-]].
  destruct (aget _ _) as [w| |]; [|by intros..]. cbn [mbind outcome_bind].
  destruct (aset _ _ _) as [ws| |] eqn:Hw; [|by intros..]. cbn [mbind outcome_bind].
  intros [= <-]. apply aset_inv in Hw as [_ ->]. simpl. by rewrite len_insert.
Qed.

Lemma on_bitmap_extent f a o j a' o' :
  shape a -> valid_order o -> valid_order o' ->
  on_bitmap (update_bit f) a o j = Ret a' -> bitmap_extent a' o' = bitmap_extent a o'.
Proof.
  intros Hs Ho Ho'. pose proof (order_index _ o (sh_bitmaps _ Hs) Ho) as Hio. unfold on_bitmap.
  rewrite (aget_default _ None o Hio). cbn [mbind outcome_bind].
  destruct (aget (max_blocks a) o) as [m| |]; [|by intros..]. cbn [mbind outcome_bind].
  destruct (update_bit _ _ _ _) as [bm'| |] eqn:Hu; [|by intros..]. cbn [mbind outcome_bind].
  apply update_bit_extent in Hu. rewrite aset_in_bounds by done. cbn [mbind outcome_bind].
  intros [= <-]. unfold bitmap_extent, bmap. cbn [free_area_bitmap set_bitmaps].
  rewrite default_insert by (done || by apply valid_order_nonneg).
  destruct (Z.eqb_spec o o') as [<-|]; [|done]. exact Hu.
Qed.

Lemma init_release p1 M a0 :
  blank_ok p1 a0 -> valid_order M -> 2 ^ M <= p1 -> 2 ^ M <= pool_size a0 ->
  (M < BUDDY_MAX_ORDER -> pool_size a0 = 2 ^ M) ->
  runs_to (a ← on_bitmap clear_bit a0 M 0; ns ← aset (free_area_size a) M 1; Ret (set_sizes a ns))
    (fun a' => binv M a' [] /\ same_pool a0 a' /\
       forall o, valid_order o -> bitmap_extent a' o = bitmap_extent a0 o).
Proof.
  intros Hb HM HMle Hfit Hwhole. pose proof (pow_pos M (valid_order_nonneg M HM)).
  destruct (clear_bit_spec a0 M 0 (bl_shape _ _ Hb) HM) as (a1 & Ha1 & Hfl).
  { rewrite (bl_max _ _ Hb) by done. assert (1 <= p1 / 2 ^ M) by (apply Z.div_le_lower_bound; lia). lia. }
  rewrite Ha1. cbn [mbind outcome_bind].
  rewrite aset_in_bounds by (apply order_index; [apply (sh_sizes _ (fl_shape _ _ _ _ _ Hfl))|done]).
  cbn [mbind outcome_bind]. split; [by eapply (release_top M p1 a0 a1)|]. split; [apply Hfl|].
  intros o Ho. change (bitmap_extent (set_sizes a1 _) o) with (bitmap_extent a1 o).
  by apply (on_bitmap_extent _ a0 M 0 a1 o (bl_shape _ _ Hb) HM Ho Ha1).
Qed.

(** The tables [buddy_init] fills for a reduced pool of [p1] bytes. *)
Lemma init_tables a start p1 hhdm final :
  len (free_area_bitmap a) = 21 -> len (free_area_size a) = 21 -> len (max_blocks a) = 21 ->
  0 <= p1 < 2 ^ 64 -> 0 < start -> 0 <= final -> start + final < 2 ^ 64 ->
  let a0 := mkbuddy start final hhdm
    (per_order (free_area_bitmap a) (fun o =>
       Some (mkbitmap (bitmap_address (start + p1) p1 o)
         (replicate (Z.to_nat (bitmap_words_for (p1 / BUDDY_BLOCK_SIZE o))) 0xFFFFFFFF))))
    (per_order (free_area_size a) (fun _ => 0))
    (per_order (max_blocks a) (fun o => p1 / BUDDY_BLOCK_SIZE o)) in
  blank_ok p1 a0 /\
  forall o, valid_order o -> exists n, bitmap_extent a0 o = Some (bitmap_address (start + p1) p1 o, n) /\
    4 * n = 4 * bitmap_words_for (p1 / BUDDY_BLOCK_SIZE o).
Proof.
  intros Hlb Hls Hlm Hp Hst Hf Hend a0. split.
  - apply (blank_intro a0 start final p1 hhdm (free_area_bitmap a0) (free_area_size a0) (max_blocks a0)
      (bitmap_address (start + p1) p1)); [by apply per_order_len..| | | |done|done|done|done|reflexivity];
      intros o Ho; unfold a0; cbn [free_area_bitmap free_area_size max_blocks];
      rewrite per_order_lookup by done;
      rewrite ?block_size_pow by (by apply valid_order_nonneg); done.
  - intros o Ho. unfold bitmap_extent, bmap, a0. cbn [free_area_bitmap].
    rewrite per_order_lookup by done. cbn [option_map bm_addr bm_words default from_option id].
    eexists. split; [done|]. unfold len. rewrite length_replicate.
    pose proof (words_nonneg p1 o ltac:(lia) (valid_order_nonneg o Ho)). lia.
Qed.

Lemma buddy_init_ok a start size hhdm :
  len (free_area_bitmap a) = 21 -> len (free_area_size a) = 21 -> len (max_blocks a) = 21 ->
  0 < start -> 8192 <= size -> start + size < 2 ^ 64 ->
  runs_to (buddy_init a start size hhdm) (fun a' => exists M,
    binv M a' [] /\ pool_start a' = start /\ pool_size a' <= size /\
    forall o, valid_order o -> exists addr n, bitmap_extent a' o = Some (addr, n) /\
      start + 2 ^ M <= addr /\ addr + 4 * n <= start + size).
Proof.
  intros Hlb Hls Hlm Hst Hsz Hend. unfold buddy_init.
  destruct (Z.eqb_spec start 0); [lia|]. destruct (Z.eqb_spec size 0); [lia|].
  change (BUDDY_BLOCK_SIZE BUDDY_MIN_ORDER) with 4096. destruct (Z.ltb_spec size 4096); [lia|].
  destruct (page_round size Hsz) as [Hp0 Hmod]. set (p0 := size - size mod 4096) in *.
  fold (bitmap_bytes p0). pose proof (bitmap_bytes_bound p0 ltac:(lia)) as Hbb.
  pose proof (bitmap_bytes_pos p0 ltac:(lia)) as Hbp.
  assert (Hdiv : p0 / 16384 * 16384 <= p0) by (pose proof (Z.mul_div_le p0 16384); lia).
  destruct (Z.ltb_spec (bitmap_bytes p0) p0); [|lia]. cbn [negb].
  set (p1 := p0 - bitmap_bytes p0). assert (Hp1 : 4096 <= p1 < size) by (unfold p1; lia).
  rewrite (u64_id (start + p1)) by lia.
  set (max := per_order (max_blocks a) _). set (bitmaps := per_order (free_area_bitmap a) _).
  set (sizes := per_order (free_area_size a) _).
  assert (Hmx : forall o, valid_order o -> max !! Z.to_nat o = Some (p1 / 2 ^ o)).
  { intros o Ho. unfold max. rewrite per_order_lookup by done.
    by rewrite block_size_pow by by apply valid_order_nonneg. }
  assert (Hlmax : len max = 21) by by apply (per_order_len (max_blocks a)).
  assert (Hb1 : bitmap_bytes p1 <= p1 / 16384 + 45) by (apply bitmap_bytes_bound; lia).
  pose proof (Z.mul_div_le p1 16384 ltac:(lia)) as Hd1.
  assert (Hbnds := fun o Ho => bitmap_address_bounds (start + p1) p1 o ltac:(lia) Ho ltac:(lia)).
  destruct (Z.ltb_spec (bitmap_address (start + p1) p1 BUDDY_MIN_ORDER) start).
  { pose proof (Hbnds BUDDY_MIN_ORDER ltac:(done)). lia. }
  pose proof (top_order_ok max p1 Hlmax Hmx ltac:(lia)) as Htop.
  apply runs_to_inv in Htop as (M & -> & HM & HMle & HMlt). cbn [mbind outcome_bind].
  rewrite (aget_lookup max M _ (valid_order_nonneg M HM) (Hmx M HM)). cbn [mbind outcome_bind].
  destruct (Z.ltb_spec M BUDDY_MIN_ORDER); [unfold valid_order in HM; lia|]. cbn [orb].
  pose proof (pow_pos M (valid_order_nonneg M HM)) as HpM.
  assert (Hone : 1 <= p1 / 2 ^ M) by (apply Z.div_le_lower_bound; lia).
  destruct (Z.eqb_spec (p1 / 2 ^ M) 0); [lia|].
  rewrite (block_size_pow M) by by apply valid_order_nonneg.
  destruct (adjust_ok p1 M HM HMle HMlt) as (Hfin & Hwhole & Hsame).
  set (final := if negb (p1 mod 2 ^ M =? 0) then p1 / 2 ^ M * 2 ^ M else p1) in *.
  assert (Hmax2 : (if negb (p1 mod 2 ^ M =? 0) then aset max M (p1 / 2 ^ M * 2 ^ M / 2 ^ M) else Ret max) = Ret max).
  { destruct (negb _); [|done]. rewrite Hsame, aset_in_bounds by by apply order_index.
    by rewrite list_insert_id by by apply Hmx. }
  rewrite Hmax2. cbn [mbind outcome_bind].
  rewrite (aget_lookup max M _ (valid_order_nonneg M HM) (Hmx M HM)). cbn [mbind outcome_bind].
  destruct (Z.ltb_spec 0 (p1 / 2 ^ M)); [|lia].
  destruct (init_tables a start p1 hhdm final) as [Hblank Hext]; try done; try lia.
  eapply runs_to_mono; [apply (init_release p1 M _ Hblank); [done|done|apply Hfin|exact Hwhole]|].
  intros a' (Hi & (Es & Ez & _) & Hex). exists M. split; [done|]. split; [exact Es|].
  split; [rewrite Ez; cbn [pool_size]; lia|]. intros o Ho. rewrite Hex by done.
  destruct (Hext o Ho) as (n' & -> & Hn'). eexists _, _. split; [done|].
  destruct (Hbnds o Ho) as [Hlo Hhi].
  pose proof (layout_arith p0 M ltac:(lia) Hmod HM HMle Hbp HMlt) as Hlay. fold p1 in Hlay. lia.
Qed.

(** Initialisation.  A pool of at least two pages is accepted: the
    allocator satisfies its invariant with no live block, so exactly one block
    of 2^M bytes at the start of the pool is free, and no bitmap overlaps that
    block or leaves the pool. *)
Theorem buddy_init_correct a start size hhdm :
  len (free_area_bitmap a) = 21 -> len (free_area_size a) = 21 -> len (max_blocks a) = 21 ->
  0 < start -> 8192 <= size -> start + size < 2 ^ 64 ->
  runs_to (buddy_init a start size hhdm) (fun a' => exists M,
    binv M a' [] /\ pool_start a' = start /\ pool_size a' <= size /\
    forall o, valid_order o -> exists addr n, bitmap_extent a' o = Some (addr, n) /\
      start + 2 ^ M <= addr /\ addr + 4 * n <= start + size).
Proof. apply buddy_init_ok. Qed.

(** ** Allocation and release *)

Lemma disjoint_same_pool a a' b1 b2 :
  pool_start a' = pool_start a -> disjoint_blocks a' b1 b2 -> disjoint_blocks a b1 b2.
Proof. intros E. unfold disjoint_blocks, addr. by rewrite E. Qed.

Lemma buddy_alloc_ok M a L size :
  binv M a L ->
  runs_to (buddy_alloc a size) (fun '(a', r) =>
    (r = 0 /\ a' = a /\ (size = 0 \/ pool_size a < size \/
       forall o j, valid_order o -> get_minimum_order size <= o -> free a o j = false)) \/
    alloc_result M a L (get_minimum_order size) a' r).
Proof.
  intros Hi. unfold buddy_alloc. destruct (Z.eqb_spec size 0); [left; by auto|].
  destruct (Z.ltb_spec (pool_size a) size); [left; by auto|].
  destruct (get_minimum_order_ok size) as [[Hmin Hmax] _].
  eapply runs_to_mono; [apply alloc_block_ok; [done|lia|lia]|]. intros [a' r] Hres. by right.
Qed.

(** Allocation.  [buddy_alloc] terminates; it returns NULL only when the
    size is 0 or larger than the pool or no block of the needed order or above
    is free, and then nothing has changed; otherwise the block returned is
    large enough (up to the 1 MiB maximum), inside the pool, disjoint from
    every live block, and the invariant holds with it added. *)
Theorem buddy_alloc_correct M a L size :
  binv M a L ->
  runs_to (buddy_alloc a size) (fun '(a', r) =>
    (r = 0 /\ a' = a /\ (size = 0 \/ pool_size a < size \/
       forall o j, valid_order o -> get_minimum_order size <= o -> free a o j = false)) \/
    (exists j, r = addr a (get_minimum_order size) j /\
       binv M a' ((get_minimum_order size, j) :: L) /\
       pool_start a < r + 1 /\ r + 2 ^ get_minimum_order size <= pool_start a + pool_size a /\
       (size <= 2 ^ BUDDY_MAX_ORDER -> size <= 2 ^ get_minimum_order size) /\
       Forall (disjoint_blocks a (get_minimum_order size, j)) L)).
Proof.
  intros Hi. eapply runs_to_mono; [by apply buddy_alloc_ok|].
  intros [a' r] [H|[(-> & -> & Hnone)|(j & -> & Hr & (Es & Ez & _) & Hi')]]; [by left|left; auto|right].
  destruct (get_minimum_order_ok size) as [Ho Hsz].
  destruct (live_in_range M a' _ (get_minimum_order size) j Hi') as (_ & _ & Hj & Hle); [left|].
  destruct (addr_bounds M a' _ _ j Hi' Ho ltac:(lia) Hle) as (_ & Hend & _).
  unfold addr in Hend. rewrite Es, Ez in Hend. pose proof (pow_pos _ (valid_order_nonneg _ Ho)).
  exists j. split; [done|]. split; [done|]. unfold addr. split_and!; [nia|lia|done|].
  apply Forall_forall. intros b Hb. apply (disjoint_same_pool a a' _ _ Es).
  by apply (live_disjoint M a' L).
Qed.

(** Release.  Freeing a live block with its order terminates and leaves
    the invariant with that block removed: its memory belongs to free blocks
    again (merged with its buddies where possible) and no other live block is
    affected. *)
Theorem buddy_free_correct M a L1 o j L2 :
  binv M a (L1 ++ (o, j) :: L2) ->
  runs_to (buddy_free a (addr a o j) o) (fun a' => binv M a' (L1 ++ L2) /\ same_pool a a').
Proof.
  intros Hi. apply (buddy_free_ok M a (L1 ++ L2) o j).
  apply (live_perm M a _ _ Hi). by rewrite Permutation_middle.
Qed.

(** ** Clients *)

Lemma addr_inj a o j j' : valid_order o -> addr a o j = addr a o j' -> j = j'.
Proof. unfold addr. intros Ho E. pose proof (pow_pos o (valid_order_nonneg o Ho)). nia. Qed.

Lemma free_memory_ok M a L : binv M a L -> buddy_get_free_memory a = Ret (2 ^ M - live_total L).
Proof.
  intros Hi. pose proof (conservation M a L Hi) as Hc. pose proof (bi_top _ _ _ Hi) as HM. order_facts M.
  assert (Hn : forall o, o ∈ orders -> 0 <= nfree a o).
  { intros o Ho%elem_of_orders. rewrite (bi_counts _ _ _ Hi o Ho).
    apply count_range. apply (sh_max _ (bi_shape _ _ _ Hi) o Ho). }
  assert (0 <= live_total L).
  { apply sumZ_nonneg. intros [o j] HL. destruct (live_in_range M a L o j Hi HL) as (Ho & _).
    pose proof (pow_pos o (valid_order_nonneg o Ho)). simpl. lia. }
  unfold buddy_get_free_memory.
  rewrite free_memory_loop_ok;
    [f_equal; lia|apply Hi|intros o; apply elem_of_orders|done|lia|lia].
Qed.

(** The live blocks are pairwise disjoint and inside the pool. *)
Definition pairwise_disjoint (a : buddy_allocator) (L : list (Z * Z)) : Prop :=
  forall i j b1 b2, L !! i = Some b1 -> L !! j = Some b2 -> i <> j -> disjoint_blocks a b1 b2.

Definition in_pool (a : buddy_allocator) (b : Z * Z) : Prop :=
  pool_start a <= addr a b.1 b.2 /\ addr a b.1 b.2 + 2 ^ b.1 <= pool_start a + pool_size a.

Lemma live_pairwise M a L : binv M a L -> pairwise_disjoint a L.
Proof.
  intros Hi i j b1 b2 H1 H2 Hne. pose proof (delete_Permutation L i b1 H1) as Hperm.
  apply (live_disjoint M a (delete i L)); [by apply (live_perm M a L)|].
  apply list_elem_of_lookup. destruct (Nat.lt_ge_cases j i).
  - exists j. by rewrite list_lookup_delete_lt.
  - exists (j - 1)%nat. rewrite list_lookup_delete_ge by lia.
    by replace (S (j - 1)) with j by lia.
Qed.

Lemma live_in_pool M a L : binv M a L -> Forall (in_pool a) L.
Proof.
  intros Hi. apply Forall_forall. intros [o j] HL.
  destruct (live_in_range M a L o j Hi HL) as (Ho & _ & Hj & Hle).
  destruct (addr_bounds M a L o j Hi Ho ltac:(lia) Hle) as (_ & Hend & _).
  pose proof (pow_pos o (valid_order_nonneg o Ho)). unfold in_pool, addr in *. simpl. split; nia.
Qed.

(** A request of a client: a block for [size] bytes, or the release of the [i]-th of
    the blocks that it holds. *)
Inductive request := Alloc (size : Z) | Release (i : nat).

(** What the client knows of a block: its address, its order and what it asked for. *)
Record held := mkheld { h_addr : Z; h_order : Z; h_size : Z }.

Definition client_do (r : request) (s : buddy_allocator * list held) : outcome (buddy_allocator * list held) :=
  let '(a, H) := s in
  match r with
  | Alloc size =>
      '(a, p) ← buddy_alloc a size;
      Ret (a, if p =? 0 then H else mkheld p (get_minimum_order size) size :: H)
  | Release i =>
      match H !! i with
      | Some b => a ← buddy_free a (h_addr b) (h_order b); Ret (a, delete i H)
      | None => Ret (a, H)
      end
  end.

Fixpoint client_run (rs : list request) (s : buddy_allocator * list held) : outcome (buddy_allocator * list held) :=
  match rs with [] => Ret s | r :: rs' => s ← client_do r s; client_run rs' s end.

(** The blocks of the client are the live blocks of the allocator. *)
Definition client_inv (M start size : Z) (s : buddy_allocator * list held) : Prop :=
  exists L, binv M s.1 L /\ pool_start s.1 = start /\ pool_size s.1 = size /\
    Forall2 (fun b l => h_order b = l.1 /\ h_addr b = addr s.1 l.1 l.2 /\ (h_size b <= 2 ^ BUDDY_MAX_ORDER -> h_size b <= 2 ^ l.1)) s.2 L.

Lemma client_do_ok M start size r s : client_inv M start size s -> runs_to (client_do r s) (client_inv M start size).
Proof.
  destruct s as [a H]. intros (L & Hi & Es & Ez & HF). cbn [fst snd] in *. destruct r as [n|i]; cbn [client_do].
  - eapply runs_to_bind; [by apply (buddy_alloc_ok M a L n)|]. intros [a' p] Hres.
    assert (p = 0 /\ a' = a \/ alloc_result M a L (get_minimum_order n) a' p) as [[-> ->]|Hr] by tauto; [by exists L|].
    destruct Hr as [(-> & -> & _)|(j & -> & Hne & (Es' & Ez' & _) & Hi')]; [by exists L|].
    rewrite (proj2 (Z.eqb_neq _ 0) Hne). exists ((get_minimum_order n, j) :: L). cbn [fst snd].
    split_and!; [done|congruence|congruence|]. constructor.
    + cbn [h_order h_addr h_size fst snd]. split_and!; [done|unfold addr; by rewrite Es'|apply get_minimum_order_ok].
    + eapply Forall2_impl; [exact HF|]. intros b l (? & ? & ?). split_and!; [done|unfold addr in *; by rewrite Es'|done].
  - destruct (H !! i) as [b|] eqn:Eb; [|by exists L].
    destruct (Forall2_lookup_l _ _ _ _ _ HF Eb) as ([o j] & El & Eo & Ea & _). cbn [fst snd] in *. rewrite Eo, Ea.
    eapply runs_to_bind.
    { apply (buddy_free_ok M a (delete i L) o j). apply (live_perm M a _ _ Hi). by apply delete_Permutation. }
    intros a' [Hi' (Es' & Ez' & _)]. exists (delete i L). cbn [fst snd]. split_and!; [done|congruence|congruence|].
    eapply Forall2_impl; [by apply Forall2_delete|]. intros b' l (? & ? & ?). split_and!; [done|unfold addr in *; by rewrite Es'|done].
Qed.

Lemma client_run_ok M start size rs : forall s, client_inv M start size s -> runs_to (client_run rs s) (client_inv M start size).
Proof.
  induction rs as [|r rs IH]; intros s Hs; cbn [client_run]; [done|]. eapply runs_to_bind; [by apply client_do_ok|]. apply IH.
Qed.

(** Two blocks do not overlap. *)
Definition apart (b1 b2 : held) : Prop :=
  h_addr b1 + 2 ^ h_order b1 <= h_addr b2 \/ h_addr b2 + 2 ^ h_order b2 <= h_addr b1.

(** C3. Memory safety and accounting for every client.  After the initialisation of a
    pool of at least two pages, every sequence of allocations, of any sizes, and
    releases of held blocks runs to its end without a fault, and then the blocks that
    the client holds are large enough (for requests of up to 1 MiB), aligned to their
    size within the pool, inside the pool and pairwise disjoint, and the free memory
    that the allocator reports plus the memory handed out is the size of the one block
    that it manages. *)
Theorem buddy_client_safe a start size hhdm :
  len (free_area_bitmap a) = 21 -> len (free_area_size a) = 21 -> len (max_blocks a) = 21 ->
  0 < start -> 8192 <= size -> start + size < 2 ^ 64 ->
  runs_to (buddy_init a start size hhdm) (fun a0 => exists M, forall rs,
    runs_to (client_run rs (a0, [])) (fun '(a, H) =>
      (forall i b, H !! i = Some b ->
         (h_size b <= 2 ^ BUDDY_MAX_ORDER -> h_size b <= 2 ^ h_order b) /\ (h_addr b - start) mod 2 ^ h_order b = 0 /\
         start <= h_addr b /\ h_addr b + 2 ^ h_order b <= start + size) /\
      (forall i j b1 b2, H !! i = Some b1 -> H !! j = Some b2 -> i <> j -> apart b1 b2) /\
      buddy_get_free_memory a = Ret (2 ^ M - sumZ (fun b => 2 ^ h_order b) H))).
Proof.
  intros Hb Hs Hm Hst Hsz Hend. eapply runs_to_mono; [by apply buddy_init_ok|]. intros a0 (M & Hi & Es & Ez & _). exists M. intros rs.
  eapply runs_to_mono; [apply (client_run_ok M start (pool_size a0) rs (a0, [])); by exists []|]. intros [a' H] (L & Hi' & Es' & Ez' & HF).
  cbn [fst snd] in *. split_and!.
  - intros i b Hib. destruct (Forall2_lookup_l _ _ _ _ _ HF Hib) as ([o j] & Hl & -> & -> & Hsize). cbn [fst snd] in *.
    pose proof (live_in_pool M a' L Hi') as Hp. destruct (Forall_lookup_1 _ _ _ _ Hp Hl) as [Hlo Hhi]. cbn [fst snd] in *.
    unfold addr in *. split_and!; [done| |lia|lia]. replace (pool_start a' + j * 2 ^ o - start) with (j * 2 ^ o) by lia. apply Z.mod_mul.
    destruct (live_in_range M a' L o j Hi' ltac:(by eapply list_elem_of_lookup_2)) as (Ho & _). pose proof (pow_pos o (valid_order_nonneg o Ho)). lia.
  - intros i j b1 b2 H1 H2 Hne. destruct (Forall2_lookup_l _ _ _ _ _ HF H1) as (l1 & Hl1 & E1 & A1 & _).
    destruct (Forall2_lookup_l _ _ _ _ _ HF H2) as (l2 & Hl2 & E2 & A2 & _).
    unfold apart. rewrite E1, E2, A1, A2. by apply (live_pairwise M a' L Hi' i j).
  - rewrite (free_memory_ok M a' L Hi'). do 2 f_equal. unfold live_total. clear -HF.
    induction HF as [|b l H L (Eo & _) _ IH]; [done|]. rewrite !sumZ_cons, Eo. by rewrite IH.
Qed.

(** ** Witnesses *)

Definition unset_allocator : buddy_allocator :=
  mkbuddy 0 0 0 (replicate 21 None) (replicate 21 0) (replicate 21 0).

(** A pool of four pages at address 4096. *)
Definition demo_pool : buddy_allocator :=
  match buddy_init unset_allocator 4096 16384 0 with Ret a => a | _ => unset_allocator end.

Lemma demo_pool_inv : exists M, binv M demo_pool [].
Proof.
  pose proof (buddy_init_ok unset_allocator 4096 16384 0 eq_refl eq_refl eq_refl
    ltac:(lia) ltac:(lia) ltac:(lia)) as H.
  unfold demo_pool. destruct (buddy_init unset_allocator 4096 16384 0); [|done..].
  destruct H as (M & Hi & _). by exists M.
Qed.

Lemma demo_alloc : exists a', buddy_alloc demo_pool 5000 = Ret (a', 4096) /\
  exists M, binv M a' [(13, 0)].
Proof.
  destruct demo_pool_inv as [M HM]. pose proof (buddy_alloc_ok M demo_pool [] 5000 HM) as H.
  destruct (buddy_alloc demo_pool 5000) as [[a' r]| |] eqn:E; [|destruct H..].
  assert (r = 4096) as -> by (vm_compute in E; congruence). exists a'. split; [done|]. exists M.
  destruct H as [(H & _)|[(H & _)|(j & H & _ & _ & Hi)]]; [discriminate H|discriminate H|].
  change (get_minimum_order 5000) with 13 in *. change (pool_start demo_pool) with 4096 in *.
  unfold addr in H. change (pool_start demo_pool) with 4096 in H.
  assert (j = 0) as -> by lia. done.
Qed.

Lemma buddy_init_correct_witness :
  runs_to (buddy_init unset_allocator 4096 16384 0) (fun a' => exists M,
    binv M a' [] /\ pool_start a' = 4096 /\ pool_size a' <= 16384 /\
    forall o, valid_order o -> exists addr n, bitmap_extent a' o = Some (addr, n) /\
      4096 + 2 ^ M <= addr /\ addr + 4 * n <= 4096 + 16384).
Proof.
  apply (buddy_init_correct unset_allocator 4096 16384 0);
    [reflexivity|reflexivity|reflexivity|lia|lia|lia].
Defined.

Lemma buddy_alloc_correct_witness :
  runs_to (buddy_alloc demo_pool 5000) (fun '(a', r) => r = 0 \/ exists j, r = addr demo_pool 13 j).
Proof.
  destruct demo_pool_inv as [M HM]. eapply runs_to_mono.
  - apply (buddy_alloc_correct M demo_pool [] 5000 HM).
  - intros [a' r] [(-> & _)|(j & -> & _)]; [by left|right]. by exists j.
Defined.

Lemma buddy_free_correct_witness :
  exists M a', runs_to (buddy_free a' (addr a' 13 0) 13) (fun a'' => binv M a'' [] /\ same_pool a' a'').
Proof.
  destruct demo_alloc as (a' & _ & M & Hi). exists M, a'.
  apply (buddy_free_correct M a' [] 13 0 []). exact Hi.
Defined.

Lemma buddy_client_safe_witness :
  exists a0 M a H, buddy_init unset_allocator 4096 65536 0 = Ret a0 /\
    client_run [Alloc 5000; Alloc 4096; Alloc 1; Release 1; Alloc 0; Alloc 4000] (a0, []) = Ret (a, H) /\
    H = [mkheld 12288 12 4000; mkheld 16384 12 1; mkheld 4096 13 5000] /\ buddy_get_free_memory a = Ret (2 ^ M - sumZ (fun b => 2 ^ h_order b) H).
Proof.
  pose proof (buddy_client_safe unset_allocator 4096 65536 0 eq_refl eq_refl eq_refl ltac:(lia) ltac:(lia) ltac:(lia)) as Hs.
  destruct (buddy_init unset_allocator 4096 65536 0) as [a0| |] eqn:E0; [|done..]. destruct Hs as [M Hs].
  specialize (Hs [Alloc 5000; Alloc 4096; Alloc 1; Release 1; Alloc 0; Alloc 4000]).
  destruct (client_run _ (a0, [])) as [[a H]| |] eqn:E; [|done..]. destruct Hs as (_ & _ & Hf).
  exists a0, M, a, H. split; [reflexivity|]. split; [exact E|]. split; [|exact Hf].
  vm_compute in E0. injection E0 as <-. vm_compute in E. injection E as _ <-. reflexivity.
Defined.
