(* ===== verification/CpuPool.v ===== *)
(** * The per-CPU page pool

    core/kernel/mem/cpu_pool.c: for each processor a small stack of free blocks
    of each of three orders in front of the buddy allocator.  The static array
    and the allocator that slab_get_buddy() returns are the state [pools].  Each
    operation is one step: the stacks belong to the processor it runs on and
    every access to the shared allocator is inside its lock; the interleaving
    of the refill and flush loops with allocator calls of other processors is
    not modelled. *)

From stdpp Require Import relations.
From S2P Require Import Prelude Buddy BuddyProofs BuddyTheorems.

(** ** Model *)

Definition CPU_POOL_MAX_CPUS : Z := 64.
Definition CPU_POOL_ORDERS : Z := 3.
Definition CPU_POOL_CACHE_SIZE : Z := 16.

Definition pool_orders : list Z := [12; 13; 14].

Record cpu_order_pool := mkop { op_blocks : list Z; op_count : Z }.
Record cpu_pool := mkpool { p_orders : list cpu_order_pool; initialized : Z }.
Record pools := mkpools { cpu_pools : list cpu_pool; the_buddy : buddy_allocator }.

Definition set_buddy s b := mkpools (cpu_pools s) b.

Definition order_idx (order : Z) : Z :=
  default (-1) (first_index (fun o => o =? order) pool_orders).

(** Writing back through the pointer [op = &cpu_pools[cpu].orders[idx]]. *)
Definition store (s : pools) (cpu idx : Z) (op : cpu_order_pool) : outcome pools :=
  p ← aget (cpu_pools s) cpu;
  os ← aset (p_orders p) idx op;
  ps ← aset (cpu_pools s) cpu (mkpool os (initialized p));
  Ret (mkpools ps (the_buddy s)).

Definition cpu_pool_init (s : pools) (cpu : Z) : outcome pools :=
  if CPU_POOL_MAX_CPUS <=? cpu then Ret s else
  p ← aget (cpu_pools s) cpu;
  ps ← aset (cpu_pools s) cpu (mkpool (map (fun op => mkop (op_blocks op) 0) (p_orders p)) 1);
  Ret (mkpools ps (the_buddy s)).

(** [op->blocks[--op->count]] and [op->blocks[op->count++] = p]. *)
Definition pop_block (op : cpu_order_pool) : outcome (cpu_order_pool * Z) :=
  let c := u32 (op_count op - 1) in
  b ← aget (op_blocks op) c;
  Ret (mkop (op_blocks op) c, b).

Definition push_block (op : cpu_order_pool) (p : Z) : outcome cpu_order_pool :=
  bs ← aset (op_blocks op) (op_count op) p;
  Ret (mkop bs (u32 (op_count op + 1))).

(** The refill loop, [n] iterations left. *)
Fixpoint refill_loop (n : nat) (b : buddy_allocator) (op : cpu_order_pool) (bsize : Z)
  : outcome (buddy_allocator * cpu_order_pool) :=
  match n with
  | O => Ret (b, op)
  | S n' =>
      if negb (op_count op <? CPU_POOL_CACHE_SIZE) then Ret (b, op) else
      '(b, r) ← buddy_alloc b bsize;
      if r =? 0 then Ret (b, op) else
      op ← push_block op r;
      refill_loop n' b op bsize
  end.

Definition from_buddy (s : pools) (bsize : Z) : outcome (pools * Z) :=
  '(b, r) ← buddy_alloc (the_buddy s) bsize; Ret (set_buddy s b, r).

Definition cpu_pool_alloc (s : pools) (cpu order : Z) : outcome (pools * Z) :=
  let bsize := u64 (Z.shiftl 1 order) in
  if CPU_POOL_MAX_CPUS <=? cpu then from_buddy s bsize else
  p ← aget (cpu_pools s) cpu;
  if initialized p =? 0 then from_buddy s bsize else
  let idx := order_idx order in
  if idx <? 0 then from_buddy s bsize else
  op ← aget (p_orders p) idx;
  if 0 <? op_count op then
    '(op, r) ← pop_block op; s ← store s cpu idx op; Ret (s, r)
  else
    '(b, op) ← refill_loop (Z.to_nat (CPU_POOL_CACHE_SIZE / 2)) (the_buddy s) op bsize;
    if 0 <? op_count op then
      '(op, r) ← pop_block op; s ← store (set_buddy s b) cpu idx op; Ret (s, r)
    else
      s ← store (set_buddy s b) cpu idx op; from_buddy s bsize.

(** The flush loop of a full stack, [n] iterations left. *)
Fixpoint flush_loop (n : nat) (b : buddy_allocator) (op : cpu_order_pool) (order : Z)
  : outcome (buddy_allocator * cpu_order_pool) :=
  match n with
  | O => Ret (b, op)
  | S n' =>
      '(op, p) ← pop_block op;
      b ← buddy_free b p order;
      flush_loop n' b op order
  end.

Definition to_buddy (s : pools) (ptr order : Z) : outcome pools :=
  b ← buddy_free (the_buddy s) ptr order; Ret (set_buddy s b).

Definition cpu_pool_free (s : pools) (cpu ptr order : Z) : outcome pools :=
  if ptr =? 0 then Ret s else
  if CPU_POOL_MAX_CPUS <=? cpu then to_buddy s ptr order else
  p ← aget (cpu_pools s) cpu;
  if initialized p =? 0 then to_buddy s ptr order else
  let idx := order_idx order in
  if idx <? 0 then to_buddy s ptr order else
  op ← aget (p_orders p) idx;
  if op_count op <? CPU_POOL_CACHE_SIZE then
    op ← push_block op ptr; store s cpu idx op
  else
    let flush := Z.min (CPU_POOL_CACHE_SIZE / 2) (op_count op) in
    '(b, op) ← flush_loop (Z.to_nat flush) (the_buddy s) op order;
    op ← push_block op ptr; store (set_buddy s b) cpu idx op.

(** ** Invariant *)

Section with_start.
Context (st : Z).   (** the start of the pool *)

(** The blocks on a stack, as blocks of the buddy allocator. *)
Definition order_blocks (o : Z) (op : cpu_order_pool) : list (Z * Z) :=
  map (fun p => (o, (p - st) / 2 ^ o)) (take (Z.to_nat (op_count op)) (op_blocks op)).

Record stack_wf (o : Z) (op : cpu_order_pool) : Prop := {
  sw_len : len (op_blocks op) = CPU_POOL_CACHE_SIZE;
  sw_count : 0 <= op_count op <= CPU_POOL_CACHE_SIZE;
  sw_aligned : Forall (fun p => (p - st) mod 2 ^ o = 0) (take (Z.to_nat (op_count op)) (op_blocks op))
}.

Record pool_wf (p : cpu_pool) : Prop := {
  pw_stacks : Forall2 stack_wf pool_orders (p_orders p);
  pw_fresh : initialized p = 0 -> Forall (fun op => op_count op = 0) (p_orders p)
}.

Definition pool_blocks (p : cpu_pool) : list (Z * Z) :=
  concat (zip_with order_blocks pool_orders (p_orders p)).

End with_start.

(** The blocks on all stacks. *)
Definition cached (s : pools) : list (Z * Z) :=
  concat (map (pool_blocks (pool_start (the_buddy s))) (cpu_pools s)).

(** The blocks on the stacks and the blocks [L] the clients hold are together
    the live blocks of the buddy allocator. *)
Record pool_inv (M : Z) (s : pools) (L : list (Z * Z)) : Prop := {
  pi_len : len (cpu_pools s) = CPU_POOL_MAX_CPUS;
  pi_wf : Forall (pool_wf (pool_start (the_buddy s))) (cpu_pools s);
  pi_buddy : binv M (the_buddy s) (cached s ++ L)
}.

(** ** One stack inside the state *)

Lemma concat_map_slot {A B} (f : A -> list B) (l : list A) i x y :
  l !! i = Some x ->
  concat (map f l) ≡ₚ f x ++ concat (map f (delete i l)) /\
  concat (map f (<[i := y]> l)) ≡ₚ f y ++ concat (map f (delete i l)).
Proof.
  revert i. induction l as [|z l IH]; intros [|i] Hi; simplify_eq/=; [done|].
  destruct (IH i Hi) as [H1 H2]. split; [rewrite H1|rewrite H2]; apply Permutation_app_swap_app.
Qed.

Lemma pool_blocks_slot st p idx o op op' fl :
  Forall2 (stack_wf st) pool_orders (p_orders p) ->
  pool_orders !! idx = Some o -> p_orders p !! idx = Some op ->
  exists R, pool_blocks st p ≡ₚ order_blocks st o op ++ R /\
    pool_blocks st (mkpool (<[idx := op']> (p_orders p)) fl) ≡ₚ order_blocks st o op' ++ R.
Proof.
  intros Hwf Ho Hop. unfold pool_blocks. cbn [p_orders].
  destruct (p_orders p) as [|a [|b [|c [|]]]];
    repeat match goal with H : Forall2 _ _ _ |- _ => inversion H; subst; clear H end.
  destruct idx as [|[|[|idx]]]; simplify_eq/=; rewrite ?app_nil_r.
  - by exists (order_blocks st 13 b ++ order_blocks st 14 c).
  - exists (order_blocks st 12 a ++ order_blocks st 14 c).
    split; apply Permutation_app_swap_app.
  - exists (order_blocks st 12 a ++ order_blocks st 13 b).
    rewrite !(assoc_L (++) (order_blocks st 12 a)). split; apply Permutation_app_comm.
Qed.

(** What a stack of an initialised pool may rely on, and what has to hold for
    its new contents. *)
Lemma slot M s L cpu p idx o op :
  let st := pool_start (the_buddy s) in
  pool_inv M s L -> 0 <= cpu -> cpu_pools s !! Z.to_nat cpu = Some p -> initialized p <> 0 ->
  0 <= idx -> pool_orders !! Z.to_nat idx = Some o -> p_orders p !! Z.to_nat idx = Some op ->
  stack_wf st o op /\ exists R, binv M (the_buddy s) (order_blocks st o op ++ R ++ L) /\
    forall b' op' L', pool_start b' = st -> stack_wf st o op' ->
      binv M b' (order_blocks st o op' ++ R ++ L') ->
      runs_to (store (set_buddy s b') cpu idx op') (fun s' => pool_inv M s' L' /\ the_buddy s' = b').
Proof.
  intros st [Hlen Hwf Hb] Hc Hp Hini Hi Ho Hop.
  pose proof (Forall_lookup_1 _ _ _ _ Hwf Hp) as [Hst _]. fold st in Hst.
  split; [by eapply Forall2_lookup_lr|].
  destruct (pool_blocks_slot st p (Z.to_nat idx) o op op 0 Hst Ho Hop) as (R1 & HR1 & _).
  destruct (concat_map_slot (pool_blocks st) (cpu_pools s) (Z.to_nat cpu) p p Hp) as [HR2 _].
  exists (R1 ++ concat (map (pool_blocks st) (delete (Z.to_nat cpu) (cpu_pools s)))).
  split.
  { apply (live_perm M _ _ _ Hb). unfold cached. fold st. by rewrite HR2, HR1, <- !app_assoc. }
  intros b' op' L' Est Hop' Hb'. unfold store. cbn [cpu_pools set_buddy].
  rewrite (aget_lookup _ _ _ Hc Hp). cbn [mbind outcome_bind].
  assert (0 <= idx < len (p_orders p)) by (apply lookup_lt_Some in Hop; unfold len; lia).
  assert (0 <= cpu < len (cpu_pools s)) by (apply lookup_lt_Some in Hp; unfold len; lia).
  rewrite !aset_in_bounds by done. cbn [mbind outcome_bind]. rewrite aset_in_bounds by done.
  cbn [mbind outcome_bind runs_to]. split; [|done]. constructor; cbn [cpu_pools the_buddy set_buddy].
  - by rewrite len_insert.
  - rewrite Est. apply Forall_insert; [done|]. constructor; cbn [p_orders initialized]; [|done].
    rewrite <- (list_insert_id _ _ _ Ho). by apply Forall2_insert.
  - apply (live_perm M _ _ _ Hb'). unfold cached. cbn [cpu_pools the_buddy set_buddy]. rewrite Est.
    destruct (pool_blocks_slot st p (Z.to_nat idx) o op op' (initialized p) Hst Ho Hop) as (R3 & HR3 & HR4).
    destruct (concat_map_slot (pool_blocks st) (cpu_pools s) (Z.to_nat cpu) p
      (mkpool (<[Z.to_nat idx:=op']> (p_orders p)) (initialized p)) Hp) as [_ ->].
    rewrite HR4, <- !app_assoc. apply Permutation_app_head.
    rewrite HR1 in HR3. apply Permutation_app_inv_l in HR3. by rewrite HR3.
Qed.

(** ** Pushing and popping *)

Lemma pop_block_ok st o op :
  stack_wf st o op -> 0 < op_count op -> 0 <= o ->
  runs_to (pop_block op) (fun '(op', p) => stack_wf st o op' /\ op_count op' = op_count op - 1 /\
    exists j, p = st + j * 2 ^ o /\ order_blocks st o op ≡ₚ (o, j) :: order_blocks st o op').
Proof.
  intros [Hl Hc Ha] Hpos Ho. pose proof (pow_pos o Ho). unfold pop_block, CPU_POOL_CACHE_SIZE in *. rewrite u32_id by lia.
  destruct (aget_in_bounds (op_blocks op) (op_count op - 1)) as (b & -> & Hb); [lia|].
  cbn [mbind outcome_bind runs_to op_count]. unfold order_blocks. cbn [op_blocks op_count].
  assert (E : take (Z.to_nat (op_count op)) (op_blocks op) =
    take (Z.to_nat (op_count op - 1)) (op_blocks op) ++ [b]).
  { replace (Z.to_nat (op_count op)) with (S (Z.to_nat (op_count op - 1))) by lia. by apply take_S_r. }
  rewrite E in Ha |- *. apply Forall_app in Ha as [Ha1 Ha2]. apply Forall_inv in Ha2. cbv beta in Ha2.
  split_and!; [by constructor; cbn [op_blocks op_count]; unfold CPU_POOL_CACHE_SIZE; [|lia|]|done|].
  exists ((b - st) / 2 ^ o). split; [|rewrite map_app; symmetry; apply Permutation_cons_append].
  pose proof (Z.div_mod (b - st) (2 ^ o) ltac:(lia)) as Hdm. rewrite Ha2 in Hdm. lia.
Qed.

Lemma push_block_ok st o op j :
  stack_wf st o op -> op_count op < CPU_POOL_CACHE_SIZE -> 0 <= o ->
  runs_to (push_block op (st + j * 2 ^ o)) (fun op' => stack_wf st o op' /\ op_count op' = op_count op + 1 /\
    order_blocks st o op' ≡ₚ (o, j) :: order_blocks st o op).
Proof.
  intros [Hl Hc Ha] Hlt Ho. pose proof (pow_pos o Ho) as Hpo. unfold push_block, CPU_POOL_CACHE_SIZE in *.
  rewrite aset_in_bounds by lia. cbn [mbind outcome_bind runs_to op_count]. rewrite u32_id by lia.
  set (p := st + j * 2 ^ o). set (n := Z.to_nat (op_count op)).
  assert (E : take (Z.to_nat (op_count op + 1)) (<[n := p]> (op_blocks op)) = take n (op_blocks op) ++ [p]).
  { replace (Z.to_nat (op_count op + 1)) with (S n) by (unfold n; lia). unfold len in Hl.
    rewrite (take_S_r _ _ p) by (apply list_lookup_insert_eq; unfold n; lia).
    by rewrite take_insert_ge by lia. }
  split_and!; [|done|].
  - constructor; cbn [op_blocks op_count]; unfold CPU_POOL_CACHE_SIZE; [by rewrite len_insert|lia|].
    rewrite E. apply Forall_app. split; [done|]. apply Forall_singleton.
    unfold p. replace (st + j * 2 ^ o - st) with (j * 2 ^ o) by lia. apply Z.mod_mul. lia.
  - unfold order_blocks. cbn [op_blocks op_count]. rewrite E, map_app. cbn [map].
    replace ((p - st) / 2 ^ o) with j; [symmetry; apply Permutation_cons_append|].
    unfold p. replace (st + j * 2 ^ o - st) with (j * 2 ^ o) by lia. symmetry. apply Z.div_mul. lia.
Qed.

(** A power of two asks for exactly its order. *)
Lemma minimum_order_pow o : valid_order o -> get_minimum_order (2 ^ o) = o.
Proof.
  intros Ho%elem_of_orders. unfold orders in Ho.
  repeat (apply elem_of_cons in Ho as [->|Ho]; [reflexivity|]). by apply elem_of_nil in Ho.
Qed.

Lemma bsize_pow o : valid_order o -> u64 (Z.shiftl 1 o) = 2 ^ o.
Proof.
  intros Ho. order_facts o. rewrite Z.shiftl_1_l. apply u64_id. lia.
Qed.

(** No block of order [o] or above is free. *)
Definition exhausted (a : buddy_allocator) (o : Z) : Prop :=
  forall o' j, valid_order o' -> o <= o' -> free a o' j = false.

Lemma buddy_alloc_order M a L o :
  binv M a L -> valid_order o ->
  runs_to (buddy_alloc a (2 ^ o)) (fun '(a', r) =>
    (r = 0 /\ a' = a /\ exhausted a o) \/
    (exists j, r = addr a o j /\ r <> 0 /\ same_pool a a' /\ binv M a' ((o, j) :: L))).
Proof.
  intros Hi Ho. eapply runs_to_mono; [by apply buddy_alloc_ok|]. intros [a' r].
  rewrite minimum_order_pow by done. intros [(-> & -> & Hnone)|Hres]; [left|exact Hres].
  split_and!; [done|done|]. order_facts o. destruct Hnone as [?|[Hbig|?]]; [lia| |done].
  intros o' j Ho' Hle. destruct (free a o' j) eqn:Hf; [|done].
  destruct (free_in_range M a L o' j Hi Ho' Hf) as [HoM _]. pose proof (bi_fits _ _ _ Hi).
  pose proof (Z.pow_le_mono_r 2 o M ltac:(lia) ltac:(lia)). lia.
Qed.

(** ** The loops *)

Lemma refill_loop_ok M R L o n : forall b op,
  stack_wf (pool_start b) o op -> valid_order o ->
  binv M b (order_blocks (pool_start b) o op ++ R ++ L) ->
  runs_to (refill_loop n b op (2 ^ o)) (fun '(b', op') =>
    same_pool b b' /\ stack_wf (pool_start b) o op' /\ op_count op <= op_count op' /\
    binv M b' (order_blocks (pool_start b) o op' ++ R ++ L) /\
    (op_count op' = 0 -> n = O \/ exhausted b' o)).
Proof.
  induction n as [|n IH]; intros b op Hwf Ho Hi; cbn [refill_loop].
  { split_and!; [done..|lia|done|by left]. }
  destruct (Z.ltb_spec (op_count op) CPU_POOL_CACHE_SIZE) as [Hlt|Hge]; cbn [negb].
  2:{ split_and!; [done..|lia|done|]. unfold CPU_POOL_CACHE_SIZE in Hge. lia. }
  eapply runs_to_bind; [by apply buddy_alloc_order|].
  intros [b1 r] [(-> & -> & Hex)|(j & -> & Hnz & Hsame & Hi1)].
  { cbn. split_and!; [done..|lia|done|by right]. }
  rewrite (proj2 (Z.eqb_neq _ 0) Hnz). unfold addr.
  eapply runs_to_bind; [apply push_block_ok; [done|done|by apply valid_order_nonneg]|].
  intros op1 (Hwf1 & Hc1 & Hperm). pose proof Hsame as (Est & _).
  eapply runs_to_mono; [apply (IH b1 op1); [by rewrite Est|done|]|].
  { rewrite Est. apply (live_perm M _ _ _ Hi1). by rewrite Hperm. }
  intros [b2 op2]. rewrite Est. intros (Hs2 & Hwf2 & Hc2 & Hi2 & _).
  split_and!; [apply (same_pool_trans _ _ _ Hsame Hs2)..|done|lia|done|].
  pose proof (sw_count _ _ _ Hwf). lia.
Qed.

Lemma flush_loop_ok M R L o n : forall b op,
  stack_wf (pool_start b) o op -> valid_order o -> Z.of_nat n <= op_count op ->
  binv M b (order_blocks (pool_start b) o op ++ R ++ L) ->
  runs_to (flush_loop n b op o) (fun '(b', op') =>
    same_pool b b' /\ stack_wf (pool_start b) o op' /\ op_count op' = op_count op - Z.of_nat n /\
    binv M b' (order_blocks (pool_start b) o op' ++ R ++ L)).
Proof.
  induction n as [|n IH]; intros b op Hwf Ho Hn Hi; cbn [flush_loop].
  { split_and!; [done..|lia|done]. }
  eapply runs_to_bind; [apply (pop_block_ok (pool_start b) o); [done|lia|by apply valid_order_nonneg]|].
  intros [op1 p] (Hwf1 & Hc1 & j & -> & Hperm).
  change (pool_start b + j * 2 ^ o) with (addr b o j).
  eapply runs_to_bind.
  { apply (buddy_free_ok M b (order_blocks (pool_start b) o op1 ++ R ++ L)).
    apply (live_perm M _ _ _ Hi). by rewrite Hperm. }
  intros b1 (Hi1 & Hsame). pose proof Hsame as (Est & _).
  eapply runs_to_mono; [apply (IH b1 op1); [by rewrite Est|done|lia|by rewrite Est]|].
  intros [b2 op2]. rewrite Est. intros (Hs2 & Hwf2 & Hc2 & Hi2).
  split_and!; [apply (same_pool_trans _ _ _ Hsame Hs2)..|done|lia|done].
Qed.

(** ** The operations *)

Lemma order_idx_cases order :
  order_idx order < 0 \/ 0 <= order_idx order /\ pool_orders !! Z.to_nat (order_idx order) = Some order.
Proof.
  unfold order_idx. destruct (first_index _ _) as [i|] eqn:E; simpl; [right|by left].
  apply first_index_Some in E as (Hi & x & Hx & Heq & _). split; [lia|].
  apply Z.eqb_eq in Heq. by subst.
Qed.

Lemma buddy_step M s L b' L' :
  pool_inv M s L -> pool_start b' = pool_start (the_buddy s) -> binv M b' (cached s ++ L') ->
  pool_inv M (set_buddy s b') L'.
Proof.
  intros [Hl Hw _] E Hb. constructor; cbn [set_buddy cpu_pools the_buddy]; [done|by rewrite E|].
  unfold cached in *. cbn [set_buddy cpu_pools the_buddy]. by rewrite E.
Qed.

(** The outcome of an allocation of order [o]. *)
Definition pool_alloc_result (M : Z) (s : pools) (L : list (Z * Z)) (o : Z) (s' : pools) (r : Z) : Prop :=
  pool_start (the_buddy s') = pool_start (the_buddy s) /\
  ((r = 0 /\ pool_inv M s' L /\ exhausted (the_buddy s') o) \/
   (exists j, r = addr (the_buddy s) o j /\ r <> 0 /\ pool_inv M s' ((o, j) :: L))).

Lemma from_buddy_ok M s L o :
  pool_inv M s L -> valid_order o ->
  runs_to (from_buddy s (2 ^ o)) (fun '(s', r) => pool_alloc_result M s L o s' r).
Proof.
  intros Hp Ho. eapply runs_to_bind; [by apply (buddy_alloc_order M _ _ o (pi_buddy _ _ _ Hp))|].
  intros [b r] Hres. cbn [mbind outcome_bind runs_to]. split.
  - destruct Hres as [(_ & -> & _)|(j & _ & _ & (E & _) & _)]; [done|exact E].
  - destruct Hres as [(-> & -> & Hex)|(j & -> & Hnz & (E & _) & Hi)]; [left|right].
    + split_and!; [done|apply (buddy_step M s L); [done|done|apply Hp]|done].
    + exists j. split_and!; [done|done|]. apply (buddy_step M s L); [done|done|].
      apply (live_perm M _ _ _ Hi). by rewrite Permutation_middle.
Qed.

(** A block popped from a stack is one the client now holds. *)
Lemma pop_store_ok M s R L cpu idx o b op :
  let st := pool_start (the_buddy s) in
  stack_wf st o op -> 0 < op_count op -> valid_order o -> pool_start b = st ->
  binv M b (order_blocks st o op ++ R ++ L) ->
  (forall b' op' L', pool_start b' = st -> stack_wf st o op' ->
      binv M b' (order_blocks st o op' ++ R ++ L') ->
      runs_to (store (set_buddy s b') cpu idx op') (fun s' => pool_inv M s' L' /\ the_buddy s' = b')) ->
  runs_to ('(op, r) ← pop_block op; s ← store (set_buddy s b) cpu idx op; Ret (s, r))
    (fun '(s', r) => pool_alloc_result M s L o s' r).
Proof.
  intros st Hwf Hpos Ho Est Hi Hstore.
  eapply runs_to_bind; [by apply (pop_block_ok st o op Hwf Hpos), valid_order_nonneg|].
  intros [op1 p] (Hwf1 & _ & j & -> & Hperm).
  assert (Hb : binv M b ((o, j) :: order_blocks st o op1 ++ R ++ L))
    by (apply (live_perm M _ _ _ Hi); by rewrite Hperm).
  eapply runs_to_bind; [apply (Hstore b op1 ((o, j) :: L)); [done|done|]|].
  { apply (live_perm M _ _ _ Hb). rewrite !(assoc_L (++)). by rewrite Permutation_middle. }
  intros s' [Hinv Eb]. cbn [mbind outcome_bind runs_to]. split; [by rewrite Eb|]. right. exists j.
  destruct (live_in_range M b _ o j Hb) as (_ & _ & Hj & Hle); [left|].
  destruct (addr_bounds M b _ o j Hb Ho ltac:(lia) Hle) as (Hnz & _).
  unfold addr in *. rewrite Est in Hnz. fold st. split_and!; [done|lia|done].
Qed.

Lemma cpu_pool_alloc_ok M s L cpu o :
  pool_inv M s L -> 0 <= cpu -> valid_order o ->
  runs_to (cpu_pool_alloc s cpu o) (fun '(s', r) => pool_alloc_result M s L o s' r).
Proof.
  intros Hp Hc Ho. unfold cpu_pool_alloc. cbv zeta. rewrite bsize_pow by done.
  pose proof (from_buddy_ok M s L o Hp Ho) as Hfb.
  destruct (Z.leb_spec CPU_POOL_MAX_CPUS cpu) as [|Hlt]; [exact Hfb|].
  destruct (aget_in_bounds (cpu_pools s) cpu) as (p & -> & Hlp); [rewrite (pi_len _ _ _ Hp); lia|].
  cbn [mbind outcome_bind]. destruct (Z.eqb_spec (initialized p) 0) as [|Hini]; [exact Hfb|].
  destruct (order_idx_cases o) as [Hneg|[Hidx Hord]]; [by rewrite (proj2 (Z.ltb_lt _ _) Hneg)|].
  rewrite (proj2 (Z.ltb_ge _ _) Hidx). set (idx := order_idx o) in *.
  pose proof (Forall_lookup_1 _ _ _ _ (pi_wf _ _ _ Hp) Hlp) as [Hst _].
  destruct (Forall2_lookup_l _ _ _ _ _ Hst Hord) as (op & Hop & _).
  rewrite (aget_lookup _ _ _ Hidx Hop). cbn [mbind outcome_bind].
  destruct (slot M s L cpu p idx o op Hp Hc Hlp Hini Hidx Hord Hop) as (Hwf & R & Hi & Hstore).
  destruct (Z.ltb_spec 0 (op_count op)) as [Hpos|Hzero].
  { replace s with (set_buddy s (the_buddy s)) at 1 by by destruct s. by apply (pop_store_ok M s R L). }
  eapply runs_to_bind; [by apply (refill_loop_ok M R L o _ (the_buddy s) op)|].
  intros [b1 op1] ((Est & _) & Hwf1 & _ & Hi1 & Hex).
  destruct (Z.ltb_spec 0 (op_count op1)) as [Hpos1|Hzero1]; [by apply (pop_store_ok M s R L)|].
  eapply runs_to_bind; [by apply (Hstore b1 op1 L)|]. intros s1 [Hp1 Eb1].
  eapply runs_to_mono; [by apply (from_buddy_ok M s1 L o)|]. intros [s2 r].
  unfold pool_alloc_result, addr. by rewrite Eb1, Est.
Qed.

Lemma to_buddy_ok M s L o j :
  pool_inv M s ((o, j) :: L) -> valid_order o ->
  runs_to (to_buddy s (addr (the_buddy s) o j) o) (fun s' =>
    pool_inv M s' L /\ pool_start (the_buddy s') = pool_start (the_buddy s)).
Proof.
  intros Hp Ho. eapply runs_to_bind.
  { apply (buddy_free_ok M _ (cached s ++ L)). apply (live_perm M _ _ _ (pi_buddy _ _ _ Hp)).
    by rewrite Permutation_middle. }
  intros b (Hi & E & _). split; [|exact E]. by apply (buddy_step M s ((o, j) :: L)).
Qed.

Lemma cpu_pool_free_ok M s L cpu o j :
  pool_inv M s ((o, j) :: L) -> 0 <= cpu ->
  runs_to (cpu_pool_free s cpu (addr (the_buddy s) o j) o) (fun s' =>
    pool_inv M s' L /\ pool_start (the_buddy s') = pool_start (the_buddy s)).
Proof.
  intros Hp Hc.
  destruct (live_in_range M _ _ o j (pi_buddy _ _ _ Hp)) as (Ho & _ & Hj & Hle); [apply elem_of_app; right; left|].
  destruct (addr_bounds M _ _ o j (pi_buddy _ _ _ Hp) Ho ltac:(lia) Hle) as (Hnz & _).
  unfold cpu_pool_free. rewrite (proj2 (Z.eqb_neq (addr _ o j) 0)) by lia.
  pose proof (to_buddy_ok M s L o j Hp Ho) as Htb.
  destruct (Z.leb_spec CPU_POOL_MAX_CPUS cpu) as [|Hlt]; [exact Htb|].
  destruct (aget_in_bounds (cpu_pools s) cpu) as (p & -> & Hlp); [rewrite (pi_len _ _ _ Hp); lia|].
  cbn [mbind outcome_bind]. destruct (Z.eqb_spec (initialized p) 0) as [|Hini]; [exact Htb|]. cbv zeta.
  destruct (order_idx_cases o) as [Hneg|[Hidx Hord]]; [by rewrite (proj2 (Z.ltb_lt _ _) Hneg)|].
  rewrite (proj2 (Z.ltb_ge _ _) Hidx). set (idx := order_idx o) in *.
  pose proof (Forall_lookup_1 _ _ _ _ (pi_wf _ _ _ Hp) Hlp) as [Hst _].
  destruct (Forall2_lookup_l _ _ _ _ _ Hst Hord) as (op & Hop & _).
  rewrite (aget_lookup _ _ _ Hidx Hop). cbn [mbind outcome_bind].
  destruct (slot M s _ cpu p idx o op Hp Hc Hlp Hini Hidx Hord Hop) as (Hwf & R & Hi & Hstore).
  pose proof (sw_count _ _ _ Hwf) as Hcnt.
  assert (Hpush : forall b op1, pool_start b = pool_start (the_buddy s) ->
    stack_wf (pool_start (the_buddy s)) o op1 -> op_count op1 < CPU_POOL_CACHE_SIZE ->
    binv M b (order_blocks (pool_start (the_buddy s)) o op1 ++ R ++ (o, j) :: L) ->
    runs_to (op ← push_block op1 (addr (the_buddy s) o j); store (set_buddy s b) cpu idx op) (fun s' =>
      pool_inv M s' L /\ pool_start (the_buddy s') = pool_start (the_buddy s))).
  { intros b op1 Est Hwf1 Hlt1 Hi1.
    eapply runs_to_bind; [apply (push_block_ok _ o op1 j Hwf1 Hlt1), valid_order_nonneg, Ho|].
    intros op2 (Hwf2 & _ & Hperm). eapply runs_to_mono; [apply (Hstore b op2 L Est Hwf2)|].
    - apply (live_perm M _ _ _ Hi1). rewrite Hperm, !(assoc_L (++)). by rewrite <- Permutation_middle.
    - intros s' [? ->]. done. }
  destruct (Z.ltb_spec (op_count op) CPU_POOL_CACHE_SIZE) as [Hroom|Hfull].
  { replace s with (set_buddy s (the_buddy s)) at 2 by by destruct s. by apply Hpush. }
  unfold CPU_POOL_CACHE_SIZE in *. replace (op_count op) with 16 by lia.
  change (Z.to_nat (Z.min (16 / 2) 16)) with 8%nat.
  eapply runs_to_bind; [apply (flush_loop_ok M R ((o, j) :: L) o 8 (the_buddy s) op); [done|done|lia|done]|].
  intros [b1 op1] ((Est & _) & Hwf1 & Hc1 & Hi1). apply Hpush; [done|done|lia|done].
Qed.

(** ** Initialisation *)

(** The zeroed static array. *)
Definition fresh_pools (b : buddy_allocator) : pools :=
  mkpools (replicate 64 (mkpool (replicate 3 (mkop (replicate 16 0) 0)) 0)) b.

Lemma fresh_pools_ok M b : binv M b [] -> pool_inv M (fresh_pools b) [].
Proof.
  intros Hi. constructor; [done| |exact Hi].
  apply Forall_replicate. constructor; [|intros _; by repeat constructor].
  repeat constructor; done.
Qed.

Lemma empty_stacks st os : Forall (fun op => op_count op = 0) os ->
  concat (zip_with (order_blocks st) pool_orders os) = [].
Proof.
  assert (He : forall o op, op_count op = 0 -> order_blocks st o op = [])
    by (intros o op E; unfold order_blocks; by rewrite E).
  generalize pool_orders. intros l H. revert l.
  induction H as [|op os Hop _ IH]; intros [|o l]; try done. simpl. by rewrite He, IH.
Qed.

Lemma cpu_pool_init_ok M s L cpu p :
  pool_inv M s L -> 0 <= cpu -> cpu_pools s !! Z.to_nat cpu = Some p -> initialized p = 0 ->
  runs_to (cpu_pool_init s cpu) (fun s' => pool_inv M s' L /\ the_buddy s' = the_buddy s).
Proof.
  intros [Hl Hw Hb] Hc Hp Hini. pose proof (lookup_lt_Some _ _ _ Hp). unfold cpu_pool_init.
  destruct (Z.leb_spec CPU_POOL_MAX_CPUS cpu); [done|].
  rewrite (aget_lookup _ _ _ Hc Hp). cbn [mbind outcome_bind]. rewrite aset_in_bounds by lia.
  cbn [mbind outcome_bind runs_to]. split; [|done].
  destruct (Forall_lookup_1 _ _ _ _ Hw Hp) as [Hst Hfr]. specialize (Hfr Hini).
  constructor; cbn [cpu_pools the_buddy]; [by rewrite len_insert| |].
  - apply Forall_insert; [done|]. constructor; cbn [p_orders initialized]; [|done].
    apply Forall2_fmap_r. eapply Forall2_impl; [exact Hst|]. intros o op [? ? ?]. constructor; [done|done|].
    apply Forall_nil_2.
  - apply (live_perm M _ _ _ Hb). apply Permutation_app_tail. unfold cached. cbn [cpu_pools the_buddy].
    destruct (concat_map_slot (pool_blocks (pool_start (the_buddy s))) (cpu_pools s) (Z.to_nat cpu) p
      (mkpool (map (fun op => mkop (op_blocks op) 0) (p_orders p)) 1) Hp) as [-> ->].
    apply Permutation_app_tail. unfold pool_blocks. cbn [p_orders].
    rewrite !empty_stacks; [done|by apply Forall_fmap, Forall_true|done].
Qed.

(** ** Theorems *)

(** Allocation from the per-CPU pool.  For any processor number and any
    order the buddy allocator has, [cpu_pool_alloc] finishes without a fault;
    it returns NULL only when the buddy allocator has no free block of that
    order or above; otherwise it returns a block of exactly that order that
    overlaps no block a client holds and no block left on a stack, and the
    invariant holds with the block handed over to the client. *)
Theorem cpu_pool_alloc_correct M s L cpu o :
  pool_inv M s L -> 0 <= cpu -> valid_order o ->
  runs_to (cpu_pool_alloc s cpu o) (fun '(s', r) =>
    (r = 0 /\ pool_inv M s' L /\ exhausted (the_buddy s') o) \/
    (exists j, r = addr (the_buddy s) o j /\ r <> 0 /\ pool_inv M s' ((o, j) :: L) /\
       Forall (disjoint_blocks (the_buddy s) (o, j)) (cached s' ++ L))).
Proof.
  intros Hp Hc Ho. eapply runs_to_mono; [by apply (cpu_pool_alloc_ok M s L cpu o)|].
  intros [s' r] [Est [Hnull|(j & -> & Hnz & Hp')]]; [by left|right]. exists j. split_and!; [done..|].
  apply Forall_forall. intros b Hb. apply (disjoint_same_pool _ (the_buddy s') _ _ Est).
  apply (live_disjoint M _ (cached s' ++ L)); [|done].
  apply (live_perm M _ _ _ (pi_buddy _ _ _ Hp')). by rewrite Permutation_middle.
Qed.

(** The processors as clients: each starts its pool once and frees, on any
    processor, only blocks that were handed out. *)
Inductive pool_step : pools * list (Z * Z) -> pools * list (Z * Z) -> Prop :=
| step_pool_init s L cpu p s' :
    0 <= cpu -> cpu_pools s !! Z.to_nat cpu = Some p -> initialized p = 0 ->
    cpu_pool_init s cpu = Ret s' -> pool_step (s, L) (s', L)
| step_pool_alloc s L cpu o s' j :
    0 <= cpu -> valid_order o -> cpu_pool_alloc s cpu o = Ret (s', addr (the_buddy s) o j) ->
    addr (the_buddy s) o j <> 0 -> pool_step (s, L) (s', (o, j) :: L)
| step_pool_null s L cpu o s' :
    0 <= cpu -> valid_order o -> cpu_pool_alloc s cpu o = Ret (s', 0) -> pool_step (s, L) (s', L)
| step_pool_free s L1 o j L2 cpu s' :
    0 <= cpu -> cpu_pool_free s cpu (addr (the_buddy s) o j) o = Ret s' ->
    pool_step (s, L1 ++ (o, j) :: L2) (s', L1 ++ L2).

Lemma pool_inv_perm M s L L' : pool_inv M s L -> L ≡ₚ L' -> pool_inv M s L'.
Proof. intros [Hl Hw Hb] H. constructor; [done|done|]. apply (live_perm M _ _ _ Hb). by rewrite H. Qed.

Lemma pool_step_inv M s L s' L' : pool_inv M s L -> pool_step (s, L) (s', L') -> pool_inv M s' L'.
Proof.
  intros Hp Hstep. inversion Hstep as [? ? cpu p ? Hc Hlp Hini Hrun|? ? cpu o ? j Hc Ho Hrun Hnz|
    ? ? cpu o ? Hc Ho Hrun|? L1 o j L2 cpu ? Hc Hrun]; subst.
  - pose proof (cpu_pool_init_ok M s L' cpu p Hp Hc Hlp Hini) as H. rewrite Hrun in H. apply H.
  - pose proof (cpu_pool_alloc_ok M s L cpu o Hp Hc Ho) as H. rewrite Hrun in H.
    destruct H as [_ [(E & _)|(j' & E & _ & H)]]; [done|]. by apply addr_inj in E as ->.
  - pose proof (cpu_pool_alloc_ok M s L' cpu o Hp Hc Ho) as H. rewrite Hrun in H.
    destruct H as [_ [(_ & H & _)|(j' & E & E' & _)]]; [exact H|congruence].
  - pose proof (cpu_pool_free_ok M s (L1 ++ L2) cpu o j) as H. rewrite Hrun in H. apply H; [|done].
    apply (pool_inv_perm M s _ _ Hp). by rewrite Permutation_middle.
Qed.

Lemma pool_reach_inv M x y : rtc pool_step x y -> pool_inv M x.1 x.2 -> pool_inv M y.1 y.2.
Proof.
  induction 1 as [|[s1 L1] [s2 L2] y Hst _ IH]; [done|]. intros H. apply IH. by eapply pool_step_inv.
Qed.

(** Safety of the per-CPU pool for every client.  Starting from the zeroed
    pools over a fresh buddy allocator, along any sequence of initialisations,
    allocations and releases on any processors, a release possibly on another
    processor than its allocation: the blocks held by clients and those kept
    on the stacks are pairwise disjoint and inside the pool, free memory plus
    the blocks held and kept is the whole of the managed block, and every
    further allocation, and release of a held block, finishes without a
    fault. *)
Theorem cpu_pool_client_safe M b s L :
  binv M b [] -> rtc pool_step (fresh_pools b, []) (s, L) ->
  let a := the_buddy s in
  pairwise_disjoint a (cached s ++ L) /\ Forall (in_pool a) (cached s ++ L) /\
  buddy_get_free_memory a = Ret (2 ^ M - live_total (cached s) - live_total L) /\
  (forall cpu o, 0 <= cpu -> valid_order o -> exists s' r, cpu_pool_alloc s cpu o = Ret (s', r)) /\
  (forall cpu o j, 0 <= cpu -> (o, j) ∈ L -> exists s', cpu_pool_free s cpu (addr a o j) o = Ret s').
Proof.
  intros Hb Hrtc a. pose proof (pool_reach_inv M _ _ Hrtc (fresh_pools_ok M b Hb)) as Hp. simpl in Hp.
  pose proof (pi_buddy _ _ _ Hp) as Hi. fold a in Hi. split_and!.
  - by apply (live_pairwise M).
  - by apply (live_in_pool M).
  - rewrite (free_memory_ok M a _ Hi). unfold live_total. rewrite sumZ_app. f_equal. lia.
  - intros cpu o Hc Ho. pose proof (cpu_pool_alloc_ok M s L cpu o Hp Hc Ho) as H.
    apply runs_to_inv in H as ([s' r] & -> & _). eauto.
  - intros cpu o j Hc Hin. apply list_elem_of_split in Hin as (L1 & L2 & ->).
    assert (Hp' : pool_inv M s ((o, j) :: L1 ++ L2))
      by (apply (pool_inv_perm M s _ _ Hp); by rewrite Permutation_middle).
    pose proof (cpu_pool_free_ok M s (L1 ++ L2) cpu o j Hp' Hc) as H.
    unfold a. apply runs_to_inv in H as (s' & -> & _). eauto.
Qed.

(** ** Witnesses *)

(** Processor 0 starts its pool over four pages and allocates one. *)
Definition demo_pools : pools :=
  match cpu_pool_init (fresh_pools demo_pool) 0 with Ret s => s | _ => fresh_pools demo_pool end.

Lemma demo_step : pool_step (fresh_pools demo_pool, []) (demo_pools, []).
Proof. eapply (step_pool_init _ [] 0); [lia|reflexivity|reflexivity|vm_compute; reflexivity]. Qed.

Lemma cpu_pool_alloc_correct_witness :
  exists M s', pool_inv M demo_pools [] /\ cpu_pool_alloc demo_pools 0 12 = Ret (s', 8192) /\
    Forall (disjoint_blocks (the_buddy demo_pools) (12, 1)) (cached s').
Proof.
  destruct demo_pool_inv as [M HM]. exists M.
  assert (Hp : pool_inv M demo_pools [])
    by exact (pool_step_inv M _ _ _ _ (fresh_pools_ok M _ HM) demo_step).
  pose proof (cpu_pool_alloc_correct M demo_pools [] 0 12 Hp ltac:(lia)
    ltac:(unfold valid_order, BUDDY_MIN_ORDER, BUDDY_MAX_ORDER; lia)) as H.
  destruct (cpu_pool_alloc demo_pools 0 12) as [[s' r]| |] eqn:E; [|destruct H..].
  assert (r = 8192) as -> by (vm_compute in E; congruence). exists s'. split; [exact Hp|]. split; [done|].
  destruct H as [(H & _)|(j & H & _ & _ & Hd)]; [discriminate H|].
  assert (j = 1) as -> by (unfold addr in H; change (pool_start (the_buddy demo_pools)) with 4096 in H; lia).
  by rewrite app_nil_r in Hd.
Defined.

Lemma cpu_pool_client_safe_witness :
  exists M, rtc pool_step (fresh_pools demo_pool, []) (demo_pools, []) /\
    buddy_get_free_memory (the_buddy demo_pools) = Ret (2 ^ M).
Proof.
  destruct demo_pool_inv as [M HM]. exists M.
  assert (Hr : rtc pool_step (fresh_pools demo_pool, []) (demo_pools, [])) by exact (rtc_once _ _ demo_step).
  split; [exact Hr|].
  destruct (cpu_pool_client_safe M demo_pool demo_pools [] HM Hr) as (_ & _ & H & _).
  change (live_total (cached demo_pools)) with 0 in H. change (live_total []) with 0 in H.
  by rewrite !Z.sub_0_r in H.
Defined.
