(* ===== verification/WorkQueue.v ===== *)
(** * Work queues

    core/arch/work_queue.c: a ring of 256 work items per processor.  Processors take
    steps in any order.  What the code does under the lock of a queue is one step
    ([Processor.spinlock_mutex]); wq_run takes one item per step and gives the lock back
    before it calls the function of the item; wq_submit_any looks at the queues
    without a lock, one memory access per step, and then submits.  A work function is a
    tree of calls ([work]), a parameter of the model: it may submit work, count it, run
    queues, and decide by anything else the kernel computes.  The number of processors is
    fixed, their states may change at any time.

    [work_queue_refines]: in every interleaving the rings are one bounded queue per
    processor, and each accepted item is taken once and in order; [submit_any_alone]: an
    undisturbed wq_submit_any takes the shortest queue; [submit_any_race]: a disturbed one
    may not; [wq_run_drains]: wq_run empties a queue. *)

From S2P Require Import Prelude Ring.

Definition MAX_CPUS : Z := 64.
Definition WQ_MAX_ITEMS : Z := 256.
Definition CPU_STATE_ONLINE : Z := 2.
Definition UINT32_MAX : Z := 4294967295.

Record work_item := mkwork { fn : Z; arg : Z }.

Record cpu_work_queue := mkqueue {
  items : list work_item;
  head : Z;
  tail : Z;
}.

(** cpu_wqs, cpu_count and the states of cpus. *)
Record smp := mksmp {
  cpu_wqs : list cpu_work_queue;
  cpu_count : Z;
  cpu_states : list Z;
}.

Definition set_wqs (s : smp) qs := mksmp qs (cpu_count s) (cpu_states s).
Definition set_states (s : smp) sts := mksmp (cpu_wqs s) (cpu_count s) sts.

Definition wq_init (s : smp) : smp :=
  set_wqs s (map (fun wq => mkqueue (items wq) 0 0) (cpu_wqs s)).

(** Under the lock of the queue: the item is stored unless the queue is full. *)
Definition wq_submit (cpu_id f a : Z) (s : smp) : outcome (Z * smp) :=
  if cpu_count s <=? cpu_id then Ret (-1, s)
  else if f =? 0 then Ret (-1, s)
  else
    wq ← aget (cpu_wqs s) cpu_id;
    let next := u32 (tail wq + 1) mod WQ_MAX_ITEMS in
    if next =? head wq then Ret (-1, s)
    else
      its ← aset (items wq) (tail wq) (mkwork f a);
      qs ← aset (cpu_wqs s) cpu_id (mkqueue its (head wq) next);
      Ret (0, set_wqs s qs).

(** The locked part of the loop of wq_run: the oldest item, unless there is none. *)
Definition wq_take (cpu_id : Z) (s : smp) : outcome (option work_item * smp) :=
  wq ← aget (cpu_wqs s) cpu_id;
  if head wq =? tail wq then Ret (None, s)
  else
    item ← aget (items wq) (head wq);
    qs ← aset (cpu_wqs s) cpu_id (mkqueue (items wq) (u32 (head wq + 1) mod WQ_MAX_ITEMS) (tail wq));
    Ret (Some item, set_wqs s qs).

(** The number of items between two indices. *)
Definition distance (tail head : Z) : Z := u32 (tail - head + WQ_MAX_ITEMS) mod WQ_MAX_ITEMS.

Definition pending_of (wq : cpu_work_queue) : Z := distance (tail wq) (head wq).

Definition wq_pending (cpu_id : Z) (s : smp) : outcome Z :=
  if MAX_CPUS <=? cpu_id then Ret 0
  else wq ← aget (cpu_wqs s) cpu_id; Ret (pending_of wq).

(** ** Processors *)

(** Code that uses the queues: the end; the four calls; and any other computation of the
    kernel, with its result. *)
Inductive work :=
| Done
| Submit (cpu_id f a : Z) (k : Z -> work)
| SubmitAny (f a : Z) (k : Z -> work)
| Pending (cpu_id : Z) (k : Z -> work)
| Run (cpu_id : Z) (k : work)
| Other (k : Z -> work).

Fixpoint seq (p q : work) : work :=
  match p with
  | Done => q
  | Submit c f a k => Submit c f a (fun r => seq (k r) q)
  | SubmitAny f a k => SubmitAny f a (fun r => seq (k r) q)
  | Pending c k => Pending c (fun r => seq (k r) q)
  | Run c k => Run c (seq k q)
  | Other k => Other (fun r => seq (k r) q)
  end.

(** The code behind a function pointer, with its argument. *)
Class WorkFns := call_fn : Z -> Z -> work.

(** In the loop of wq_submit_any: before the test of a processor, before its indices are
    read, and with one of them read (the tail or the head: C leaves the order open). *)
Inductive scan_at := Test | Load | Half (is_tail : bool) (v : Z).

(** A processor: at a call, or in the loop of wq_submit_any. *)
Inductive thread :=
| At (p : work)
| Scanning (i best_cpu min_items : Z) (ph : scan_at) (f a : Z) (k : Z -> work).

(** What a step does to the queues. *)
Inductive label :=
| Quiet
| Submitted (cpu_id f a r : Z)
| Took (cpu_id : Z) (it : work_item)
| Empty (cpu_id : Z)
| Counted (cpu_id n : Z).

Section Steps.
Context {F : WorkFns}.

(** One step in the loop of wq_submit_any; [z] chooses the index that is read first. *)
Definition scan_step (z i best_cpu min_items : Z) (ph : scan_at) (f a : Z) (k : Z -> work) (s : smp) : outcome thread :=
  match ph with
  | Test =>
      if negb (i <? cpu_count s) then
        Ret (At (if best_cpu =? UINT32_MAX then k (-1) else Submit best_cpu f a k))
      else
        state ← aget (cpu_states s) i;
        Ret (if negb (state =? CPU_STATE_ONLINE) then Scanning (u32 (i + 1)) best_cpu min_items Test f a k
             else Scanning i best_cpu min_items Load f a k)
  | Load =>
      wq ← aget (cpu_wqs s) i;
      Ret (Scanning i best_cpu min_items (if Z.odd z then Half true (tail wq) else Half false (head wq)) f a k)
  | Half is_tail v =>
      wq ← aget (cpu_wqs s) i;
      let pending := if is_tail then distance v (head wq) else distance (tail wq) v in
      Ret (if pending <? min_items then Scanning (u32 (i + 1)) i pending Test f a k
           else Scanning (u32 (i + 1)) best_cpu min_items Test f a k)
  end.

(** One step of a processor; [z] is the result of another computation. *)
Definition step (z : Z) (t : thread) (s : smp) : outcome (label * thread * smp) :=
  match t with
  | At Done => Ret (Quiet, At Done, s)
  | At (Submit c f a k) =>
      '(r, s) ← wq_submit (u32 c) f a s; Ret (Submitted (u32 c) f a r, At (k r), s)
  | At (SubmitAny f a k) => Ret (Quiet, Scanning 0 UINT32_MAX (WQ_MAX_ITEMS + 1) Test f a k, s)
  | At (Pending c k) => n ← wq_pending (u32 c) s; Ret (Counted (u32 c) n, At (k n), s)
  | At (Run c k) =>
      if MAX_CPUS <=? u32 c then Ret (Quiet, At k, s)
      else
        '(it, s) ← wq_take (u32 c) s;
        match it with
        | None => Ret (Empty (u32 c), At k, s)
        | Some it => Ret (Took (u32 c) it, At (seq (call_fn (fn it) (arg it)) (Run c k)), s)
        end
  | At (Other k) => Ret (Quiet, At (k z), s)
  | Scanning i b m ph f a k => t ← scan_step z i b m ph f a k s; Ret (Quiet, t, s)
  end.

(** A processor takes a step, or the state of one changes. *)
Inductive move := Step (t : nat) (z : Z) | SetState (i : nat) (v : Z).

Definition machine : Type := list thread * smp.

Definition do_move (mv : move) (m : machine) : outcome (label * machine) :=
  let '(ts, s) := m in
  match mv with
  | Step t z =>
      match ts !! t with
      | None => Ret (Quiet, m)
      | Some p => '(l, p, s) ← step z p s; Ret (l, (<[t := p]> ts, s))
      end
  | SetState i v => Ret (Quiet, (ts, set_states s (<[i := v]> (cpu_states s))))
  end.

Fixpoint moves (mvs : list move) (m : machine) : outcome (list label * machine) :=
  match mvs with
  | [] => Ret ([], m)
  | mv :: mvs => '(l, m) ← do_move mv m; '(ls, m) ← moves mvs m; Ret (l :: ls, m)
  end.
End Steps.

(** ** The specification: one queue of at most 255 items per processor *)

Module Spec.
Abbreviation queues := (list (list work_item)).

Section Spec.
Context (count : Z).       (** the number of processors *)

Definition submit (cpu_id f a : Z) (q : queues) : Z * queues :=
  match q !! Z.to_nat cpu_id with
  | Some l =>
      if (cpu_id <? count) && negb (f =? 0) && (len l <? 255)
      then (0, <[Z.to_nat cpu_id := l ++ [mkwork f a]]> q) else (-1, q)
  | None => (-1, q)
  end.

Definition pending (cpu_id : Z) (q : queues) : Z :=
  match q !! Z.to_nat cpu_id with Some l => len l | None => 0 end.

(** What a step may do to the queues. *)
Definition allowed (l : label) (q q' : queues) : Prop :=
  match l with
  | Quiet => q' = q
  | Submitted c f a r => submit c f a q = (r, q')
  | Took c it => exists rest, q !! Z.to_nat c = Some (it :: rest) /\ q' = <[Z.to_nat c := rest]> q
  | Empty c => q !! Z.to_nat c = Some [] /\ q' = q
  | Counted c n => n = pending c q /\ q' = q
  end.

Inductive behaves : list label -> queues -> queues -> Prop :=
| behaves_nil q : behaves [] q q
| behaves_cons l ls q q1 q2 : allowed l q q1 -> behaves ls q1 q2 -> behaves (l :: ls) q q2.

(** The items that the queue of a processor accepted, and those that were taken from
    it. *)
Definition accepted (c : nat) (ls : list label) : list work_item :=
  omap (fun l => match l with Submitted c' f a r => if (Z.to_nat c' =? c)%nat && (r =? 0) then Some (mkwork f a) else None | _ => None end) ls.
Definition taken (c : nat) (ls : list label) : list work_item :=
  omap (fun l => match l with Took c' it => if (Z.to_nat c' =? c)%nat then Some it else None | _ => None end) ls.

(** The first online processor whose queue is shortest. *)
Fixpoint shortest (l : list (bool * list work_item)) (i : Z) (best : option (Z * Z)) : option (Z * Z) :=
  match l with
  | [] => best
  | (on, q) :: l' =>
      shortest l' (i + 1)
        (if on then match best with
                    | Some (_, m) => if len q <? m then Some (i, len q) else best
                    | None => Some (i, len q)
                    end
         else best)
  end.

Definition submit_any (online : list bool) (f a : Z) (q : queues) : Z * queues :=
  match shortest (take (Z.to_nat count) (zip online q)) 0 None with
  | Some (c, _) => submit c f a q
  | None => (-1, q)
  end.
End Spec.
End Spec.

(** ** Refinement *)

Record wq_ok (wq : cpu_work_queue) : Prop := {
  wq_size : len (items wq) = 256;
  wq_ring : ring_ok (items wq) (head wq) (tail wq);
}.

Definition contents (wq : cpu_work_queue) : list work_item := ring_contents (items wq) (head wq) (tail wq).

(** The state [s] of the code represents the queues [q]. *)
Record refines (s : smp) (q : Spec.queues) : Prop := {
  rf_count : 0 <= cpu_count s <= 64;
  rf_len : len (cpu_wqs s) = 64;
  rf_states : len (cpu_states s) = 64;
  rf_ok : Forall wq_ok (cpu_wqs s);
  rf_queues : q = contents <$> cpu_wqs s;
}.

Lemma pending_len wq : wq_ok wq -> pending_of wq = len (contents wq).
Proof.
  intros [Hl [Hh Ht]]. unfold contents, pending_of, distance, WQ_MAX_ITEMS. rewrite ring_len by (split; done).
  rewrite Hl in *. rewrite mod_gap, u32_id by lia.
  destruct (Z.leb_spec (head wq) (tail wq)).
  - replace (tail wq - head wq + 256) with (tail wq - head wq + 1 * 256) by lia.
    rewrite Z.mod_add by lia. apply Z.mod_small. lia.
  - apply Z.mod_small. lia.
Qed.

Lemma contents_lt wq : wq_ok wq -> 0 <= len (contents wq) <= 255.
Proof.
  intros [Hl Hr]. unfold contents. rewrite ring_len, Hl by done.
  pose proof (Z.mod_pos_bound (tail wq - head wq) 256). lia.
Qed.

Lemma next_index wq i : wq_ok wq -> 0 <= i < 256 -> u32 (i + 1) mod WQ_MAX_ITEMS = (i + 1) mod len (items wq).
Proof. intros [-> _] Hi. rewrite u32_id by lia. done. Qed.

Section Refinement.
Implicit Types (s : smp) (q : Spec.queues).

Lemma refines_queue s q c :
  refines s q -> 0 <= c < 64 ->
  exists wq, aget (cpu_wqs s) c = Ret wq /\ wq_ok wq /\
  cpu_wqs s !! Z.to_nat c = Some wq /\ q !! Z.to_nat c = Some (contents wq).
Proof.
  intros R Hc. destruct (aget_in_bounds (cpu_wqs s) c) as (wq & E & Hl); [by rewrite (rf_len _ _ R)|].
  exists wq. split_and!; [done| |done|].
  - eapply Forall_lookup_1; [apply (rf_ok _ _ R)|done].
  - rewrite (rf_queues _ _ R). by rewrite list_lookup_fmap, Hl.
Qed.

Lemma refines_beyond s q c : refines s q -> 64 <= c -> q !! Z.to_nat c = None.
Proof.
  intros R Hc. rewrite (rf_queues _ _ R). apply lookup_ge_None_2. rewrite length_fmap.
  pose proof (rf_len _ _ R). unfold len in *. lia.
Qed.

Lemma refines_set s q c wq' :
  refines s q -> 0 <= c < 64 -> wq_ok wq' ->
  exists qs, aset (cpu_wqs s) c wq' = Ret qs /\
  refines (set_wqs s qs) (<[Z.to_nat c := contents wq']> q).
Proof.
  intros [H1 H2 H3 H4 H6] Hc Hok. eexists. split; [apply aset_in_bounds; lia|].
  split; cbn; try done.
  - by rewrite len_insert.
  - by apply Forall_insert.
  - subst q. by rewrite list_fmap_insert.
Qed.

Lemma wq_submit_ok s q c f a :
  refines s q -> 0 <= c ->
  runs_to (wq_submit c f a s) (fun '(r, s') =>
    let '(r', q') := Spec.submit (cpu_count s) c f a q in r = r' /\ refines s' q' /\ cpu_count s' = cpu_count s).
Proof.
  intros R Hc. unfold wq_submit, Spec.submit.
  destruct (Z.leb_spec (cpu_count s) c) as [Hge|Hlt].
  { destruct (q !! Z.to_nat c); [|done]. rewrite (proj2 (Z.ltb_ge c (cpu_count s))) by done. done. }
  pose proof (rf_count _ _ R).
  destruct (refines_queue s q c R) as (wq & -> & Hok & Hwq & ->); [lia|].
  rewrite (proj2 (Z.ltb_lt c (cpu_count s))) by done.
  destruct (f =? 0); [done|]. cbn [mbind outcome_bind negb andb].
  destruct (wq_ring _ Hok) as [Hh Ht]. pose proof (wq_size _ Hok) as Hsz. rewrite Hsz in *.
  rewrite (next_index wq) by done.
  pose proof (ring_full _ _ _ (wq_ring _ Hok)) as Hfull. rewrite Hsz in *. fold (contents wq) in Hfull.
  pose proof (contents_lt wq Hok).
  destruct (Z.eqb_spec ((tail wq + 1) mod 256) (head wq)) as [E|E].
  { rewrite (proj2 (Z.ltb_ge (len (contents wq)) 255)) by (apply Hfull in E; lia). done. }
  rewrite (proj2 (Z.ltb_lt (len (contents wq)) 255)).
  2:{ enough (len (contents wq) <> 255) by lia. intros X. apply E, Hfull. lia. }
  rewrite aset_in_bounds by lia. cbn [mbind outcome_bind].
  assert (contents wq ++ [mkwork f a] = contents (mkqueue (<[Z.to_nat (tail wq) := mkwork f a]> (items wq)) (head wq) ((tail wq + 1) mod 256))) as ->.
  { unfold contents. cbn. rewrite <- Hsz. symmetry. apply ring_push; [apply Hok|]. by rewrite Hsz. }
  destruct (refines_set s q c (mkqueue (<[Z.to_nat (tail wq) := mkwork f a]> (items wq)) (head wq) ((tail wq + 1) mod 256)) R)
    as (qs & -> & R'); [lia| |done].
  split; cbn; [by rewrite len_insert|]. split; rewrite len_insert, Hsz; [done|]. apply Z.mod_pos_bound. lia.
Qed.

Lemma wq_pending_ok s q c :
  refines s q -> 0 <= c -> wq_pending c s = Ret (Spec.pending c q).
Proof.
  intros R Hc. unfold wq_pending, Spec.pending, MAX_CPUS. destruct (Z.leb_spec 64 c) as [Hge|Hlt].
  - by rewrite (refines_beyond _ _ _ R Hge).
  - destruct (refines_queue s q c R) as (wq & -> & Hok & _ & ->); [lia|]. cbn. by rewrite pending_len.
Qed.

Lemma wq_take_ok s q c : refines s q -> 0 <= c < 64 ->
  runs_to (wq_take c s) (fun '(it, s') =>
    cpu_count s' = cpu_count s /\ cpu_states s' = cpu_states s /\
    match it with
    | None => s' = s /\ q !! Z.to_nat c = Some []
    | Some it => exists rest, q !! Z.to_nat c = Some (it :: rest) /\ refines s' (<[Z.to_nat c := rest]> q)
    end).
Proof.
  intros R Hc. unfold wq_take. destruct (refines_queue s q c R Hc) as (wq & -> & Hok & Hwq & ->). cbn [mbind outcome_bind].
  pose proof (ring_empty _ _ _ (wq_ring _ Hok)) as Hemp. fold (contents wq) in Hemp.
  destruct (Z.eqb_spec (head wq) (tail wq)) as [E|E]; [by rewrite (proj1 Hemp E)|].
  destruct (ring_pop _ _ _ (wq_ring _ Hok) E) as (item & Hi & Hpop). fold (contents wq) in Hpop. rewrite Hpop.
  destruct (wq_ring _ Hok) as [Hh Ht]. pose proof (wq_size _ Hok) as Hsz.
  rewrite (aget_lookup (items wq) (head wq) item) by (done || lia). cbn [mbind outcome_bind].
  rewrite (next_index wq) by (done || lia).
  destruct (refines_set s q c (mkqueue (items wq) ((head wq + 1) mod len (items wq)) (tail wq)) R Hc) as (qs & -> & R').
  { split; cbn; [done|]. split; [apply Z.mod_pos_bound; lia|done]. }
  cbn [mbind outcome_bind runs_to]. split; [done|]. split; [done|]. eexists. by split.
Qed.

(** Where a processor in the loop of wq_submit_any may be. *)
Definition thread_ok (count : Z) (t : thread) : Prop :=
  match t with
  | At _ => True
  | Scanning i best_cpu _ ph _ _ _ =>
      0 <= i <= 64 /\ (ph = Test \/ i < count) /\ (best_cpu = UINT32_MAX \/ 0 <= best_cpu < 64)
  end.

Lemma scan_step_ok z i b m ph f a k s q : refines s q -> thread_ok (cpu_count s) (Scanning i b m ph f a k) ->
  runs_to (scan_step z i b m ph f a k s) (thread_ok (cpu_count s)).
Proof.
  intros R (Hi & Hph & Hb). pose proof (rf_count _ _ R) as Hc. destruct ph as [| |is_tail v]; cbn [scan_step].
  - destruct (Z.ltb_spec i (cpu_count s)); cbn [negb]; [|done].
    destruct (aget_in_bounds (cpu_states s) i) as (st & -> & _); [rewrite (rf_states _ _ R); lia|]. cbn [mbind outcome_bind runs_to].
    destruct (st =? CPU_STATE_ONLINE); cbn [negb thread_ok]; [auto|]. rewrite u32_id by lia. split_and!; [lia|lia|by left|done].
  - destruct Hph as [?|Hph]; [done|]. destruct (refines_queue s q i R) as (wq & -> & _); [lia|]. cbn [mbind outcome_bind runs_to thread_ok]. auto.
  - destruct Hph as [?|Hph]; [done|]. destruct (refines_queue s q i R) as (wq & -> & _); [lia|]. cbn [mbind outcome_bind runs_to].
    destruct (_ <? m); cbn [thread_ok]; rewrite u32_id by lia; split_and!; try lia; by left.
Qed.

Context {F : WorkFns}.

Lemma step_ok z t s q : refines s q -> thread_ok (cpu_count s) t ->
  runs_to (step z t s) (fun '(l, t', s') =>
    cpu_count s' = cpu_count s /\ thread_ok (cpu_count s) t' /\
    exists q', Spec.allowed (cpu_count s) l q q' /\ refines s' q').
Proof.
  intros R Ht. destruct t as [[|c f a k|f a k|c k|c k|k]|i b m ph f a k]; cbn [step].
  - split; [done|]. split; [done|]. by exists q.
  - eapply runs_to_bind; [apply wq_submit_ok; [exact R|apply u32_range]|]. intros [r s'].
    destruct (Spec.submit _ _ _ _ _) as [r' q'] eqn:E. intros (-> & R' & Hc). cbn [runs_to]. split; [done|]. split; [done|]. by exists q'.
  - split; [done|]. split; [cbn; split_and!; [lia|lia|by left|by left]|]. by exists q.
  - rewrite (wq_pending_ok s q) by (done || apply u32_range). cbn [mbind outcome_bind runs_to]. split; [done|]. split; [done|]. by exists q.
  - pose proof (u32_range c) as Hr. unfold MAX_CPUS. destruct (Z.leb_spec 64 (u32 c)); [split; [done|]; split; [done|]; by exists q|].
    eapply runs_to_bind; [apply (wq_take_ok s q); [done|lia]|]. intros [[it|] s']; cbn [runs_to].
    + intros (Hc & _ & rest & Hq & R'). split; [done|]. split; [done|]. eexists. split; [by exists rest|done].
    + intros (Hc & _ & -> & Hq). split; [done|]. split; [done|]. by exists q.
  - split; [done|]. split; [done|]. by exists q.
  - eapply runs_to_bind; [by eapply scan_step_ok|]. intros t' Ht'. cbn [runs_to]. split; [done|]. split; [done|]. by exists q.
Qed.

Lemma set_states_ok s q i v : refines s q -> refines (set_states s (<[i := v]> (cpu_states s))) q.
Proof. intros [H1 H2 H3 H4 H5]. split; cbn; try done. unfold len in *. by rewrite length_insert. Qed.

Lemma do_move_ok mv ts s q : refines s q -> Forall (thread_ok (cpu_count s)) ts ->
  runs_to (do_move mv (ts, s)) (fun '(l, (ts', s')) =>
    cpu_count s' = cpu_count s /\ Forall (thread_ok (cpu_count s)) ts' /\
    exists q', Spec.allowed (cpu_count s) l q q' /\ refines s' q').
Proof.
  intros R Ht. destruct mv as [t z|i v]; cbn [do_move].
  - destruct (ts !! t) as [p|] eqn:E; [|split; [done|]; split; [done|]; by exists q].
    eapply runs_to_bind; [apply (step_ok z p s q); [done|by eapply Forall_lookup_1]|]. intros [[l p'] s'] (Hc & Hp & Hq).
    cbn [runs_to]. split; [done|]. split; [by apply Forall_insert|done].
  - split; [done|]. split; [done|]. exists q. split; [done|by apply set_states_ok].
Qed.

Lemma moves_ok mvs : forall ts s q, refines s q -> Forall (thread_ok (cpu_count s)) ts ->
  runs_to (moves mvs (ts, s)) (fun '(ls, (ts', s')) =>
    exists q', Spec.behaves (cpu_count s) ls q q' /\ refines s' q').
Proof.
  induction mvs as [|mv mvs IH]; intros ts s q R Ht; cbn [moves]; [exists q; split; [constructor|done]|].
  eapply runs_to_bind; [by apply do_move_ok|]. intros [l [ts1 s1]] (Hc & Ht1 & q1 & Hl & R1).
  eapply runs_to_bind; [apply (IH ts1 s1 q1 R1); by rewrite Hc|]. intros [ls [ts2 s2]] (q2 & Hb & R2). cbn [runs_to].
  exists q2. split; [|done]. rewrite Hc in Hb. by econstructor.
Qed.

(** The history of a queue: what was in it and what it accepted is what was taken from
    it, in this order, and what is in it. *)
Lemma allowed_history count l q q' c x : Spec.allowed count l q q' -> q !! c = Some x ->
  exists x', q' !! c = Some x' /\ x ++ Spec.accepted c [l] = Spec.taken c [l] ++ x'.
Proof.
  intros Ha Hx. unfold Spec.accepted, Spec.taken. destruct l as [|c1 f a r|c1 it|c1|c1 n]; cbn [Spec.allowed] in Ha; cbn [omap list_omap].
  all: try (assert (q' = q) as -> by (done || by destruct Ha); exists x; by rewrite app_nil_r).
  - unfold Spec.submit in Ha. destruct (q !! Z.to_nat c1) as [l1|] eqn:E1; [destruct (_ && _)|]; injection Ha as <- <-; cbn [Z.eqb].
    2,3: exists x; by rewrite andb_false_r, app_nil_r. rewrite andb_true_r.
    destruct (Nat.eqb_spec (Z.to_nat c1) c) as [<-|Hne].
    + exists (l1 ++ [mkwork f a]). split; [apply list_lookup_insert_eq; by eapply lookup_lt_Some|]. by rewrite Hx in E1; injection E1 as <-.
    + exists x. split; [by rewrite list_lookup_insert_ne|by rewrite app_nil_r].
  - destruct Ha as (rest & E1 & ->). destruct (Nat.eqb_spec (Z.to_nat c1) c) as [<-|Hne].
    + exists rest. split; [apply list_lookup_insert_eq; by eapply lookup_lt_Some|]. rewrite Hx in E1. injection E1 as ->. by rewrite app_nil_r.
    + exists x. split; [by rewrite list_lookup_insert_ne|by rewrite app_nil_r].
Qed.

Lemma history count ls q q' c : Spec.behaves count ls q q' -> forall x, q !! c = Some x ->
  exists x', q' !! c = Some x' /\ x ++ Spec.accepted c ls = Spec.taken c ls ++ x'.
Proof.
  induction 1 as [q|l ls q q1 q2 Hl _ IH]; intros x Hx; [exists x; by rewrite app_nil_r|].
  destruct (allowed_history _ _ _ _ _ _ Hl Hx) as (x1 & H1 & E1). destruct (IH x1 H1) as (x2 & H2 & E2). exists x2. split; [done|].
  unfold Spec.accepted, Spec.taken in *. change (l :: ls) with ([l] ++ ls). rewrite !omap_app, app_assoc, E1, <- !app_assoc. f_equal. exact E2.
Qed.

(** *** The loop of wq_submit_any, undisturbed *)

(** The pair of variables of the scan that stand for the best processor so far. *)
Definition best_vars (best : option (Z * Z)) : Z * Z :=
  match best with Some (c, m) => (c, m) | None => (UINT32_MAX, WQ_MAX_ITEMS + 1) end.

#[local] Abbreviation online s := ((fun st => st =? CPU_STATE_ONLINE) <$> cpu_states s).

(** Steps of the only processor. *)
Lemma moves_app mvs1 : forall mvs2 m,
  moves (mvs1 ++ mvs2) m = ('(ls1, m) ← moves mvs1 m; '(ls2, m) ← moves mvs2 m; Ret (ls1 ++ ls2, m)).
Proof.
  induction mvs1 as [|mv mvs1 IH]; intros mvs2 m; cbn [app moves mbind outcome_bind].
  { by destruct (moves mvs2 m) as [[ls m']| |]. }
  destruct (do_move mv m) as [[l m1]| |]; cbn [mbind outcome_bind]; [|done..]. rewrite IH.
  destruct (moves mvs1 m1) as [[ls1 m2]| |]; cbn [mbind outcome_bind]; [|done..].
  by destruct (moves mvs2 m2) as [[ls2 m3]| |].
Qed.

Lemma scan_alone s q n f a k : forall i best,
  refines s q -> 0 <= i -> i + Z.of_nat n = cpu_count s ->
  exists len, forall zs, length zs = len -> moves (map (Step 0) zs) ([Scanning i (best_vars best).1 (best_vars best).2 Test f a k], s) =
    Ret (map (fun _ => Quiet) zs, ([Scanning (cpu_count s) (best_vars (Spec.shortest (take n (drop (Z.to_nat i) (zip (online s) q))) i best)).1
                          (best_vars (Spec.shortest (take n (drop (Z.to_nat i) (zip (online s) q))) i best)).2 Test f a k], s)).
Proof.
  induction n as [|n IH]; intros i best R Hi Hn.
  { exists 0%nat. intros zs ->%nil_length_inv. replace (cpu_count s) with i by lia. done. }
  pose proof (rf_count _ _ R) as Hc. destruct (refines_queue s q i R) as (wq & E & Hok & _ & Hq); [lia|].
  destruct (aget_in_bounds (cpu_states s) i) as (st & Est & Hst); [rewrite (rf_states _ _ R); lia|].
  assert (zip (online s) q !! Z.to_nat i = Some (st =? CPU_STATE_ONLINE, contents wq)) as Hz.
  { apply lookup_zip_Some. split; [|done]. by rewrite list_lookup_fmap, Hst. }
  rewrite (drop_S _ _ _ Hz). cbn [take Spec.shortest]. replace (S (Z.to_nat i)) with (Z.to_nat (i + 1)) by lia.
  destruct (st =? CPU_STATE_ONLINE) eqn:Eon.
  - set (best' := match best with Some (_, m) => if len (contents wq) <? m then Some (i, len (contents wq)) else best | None => _ end).
    destruct (IH (i + 1) best' R ltac:(lia) ltac:(lia)) as [n1 Hm].
    exists (S (S (S n1))). intros [|z1 [|z2 [|z3 zs]]] [= El]. cbn [map moves do_move lookup list_lookup step scan_step].
    rewrite (proj2 (Z.ltb_lt _ _)) by lia. cbn [negb]. rewrite Est. cbn [mbind outcome_bind]. rewrite Eon. cbn [negb list_insert insert].
    cbn [moves do_move lookup list_lookup step scan_step]. rewrite E. cbn [mbind outcome_bind]. cbn [insert list_insert lookup list_lookup step do_move].
    assert (scan_step z3 i (best_vars best).1 (best_vars best).2 (if Z.odd z2 then Half true (tail wq) else Half false (head wq)) f a k s =
      Ret (if pending_of wq <? (best_vars best).2 then Scanning (u32 (i + 1)) i (pending_of wq) Test f a k
           else Scanning (u32 (i + 1)) (best_vars best).1 (best_vars best).2 Test f a k)) as ->
      by (destruct (Z.odd z2); cbn [scan_step]; rewrite E; done).
    cbn [mbind outcome_bind]. rewrite (pending_len wq Hok), u32_id by lia. pose proof (contents_lt wq Hok).
    match goal with |- context [if ?b then Scanning _ _ _ _ _ _ _ else _] =>
      assert ((if b then Scanning (i + 1) i (len (contents wq)) Test f a k else Scanning (i + 1) (best_vars best).1 (best_vars best).2 Test f a k)
        = Scanning (i + 1) (best_vars best').1 (best_vars best').2 Test f a k) as -> end.
    { unfold best'. destruct best as [[c m]|]; cbn [best_vars fst snd]; [by destruct (_ <? m)|].
      by rewrite (proj2 (Z.ltb_lt _ (WQ_MAX_ITEMS + 1))) by (unfold WQ_MAX_ITEMS; lia). }
    cbn [insert list_insert]. rewrite (Hm zs El). done.
  - destruct (IH (i + 1) best R ltac:(lia) ltac:(lia)) as [m Hm]. exists (S m). intros [|z1 zs] [= El].
    cbn [map moves do_move lookup list_lookup step scan_step]. rewrite (proj2 (Z.ltb_lt _ _)) by lia. cbn [negb]. rewrite Est. cbn [mbind outcome_bind].
    rewrite Eon. cbn [negb insert list_insert]. rewrite u32_id by lia. rewrite (Hm zs El). done.
Qed.

Lemma shortest_bound l : forall i best c m,
  Spec.shortest l i best = Some (c, m) -> best = Some (c, m) \/ i <= c < i + len l.
Proof.
  induction l as [|[on q] l IH]; intros i best c m E; [by left|].
  apply IH in E as [E|E]; [|right; unfold len in *; simpl length; lia].
  assert (i <= i < i + len ((on, q) :: l)) by (unfold len; simpl length; lia).
  destruct on; [|by left]. destruct best as [[c0 m0]|]; [destruct (_ <? _); [|by left]|]; right; by simplify_eq.
Qed.

End Refinement.

(** The tables have their size in the code, and the boot code has found at most
    as many processors as fit. *)
Record tables_ok (s : smp) : Prop := {
  tb_count : 0 <= cpu_count s <= 64;
  tb_len : len (cpu_wqs s) = 64;
  tb_states : len (cpu_states s) = 64;
  tb_items : Forall (fun wq => len (items wq) = 256) (cpu_wqs s);
}.

Lemma wq_init_ok s :
  tables_ok s ->
  refines (wq_init s) (replicate 64 []).
Proof.
  intros [H1 H2 H3 H4]. split; cbn [wq_init set_wqs cpu_wqs cpu_count cpu_states]; try done.
  - unfold len in *. by rewrite length_map.
  - apply Forall_map. eapply Forall_impl; [done|]. intros wq Hwq. split; cbn; [done|]. split; rewrite Hwq; lia.
  - unfold len in H2. clear H3. assert (length (cpu_wqs s) = 64%nat) as Hl by lia. clear H2. revert Hl.
    generalize 64%nat. induction H4 as [|wq l Hwq _ IH]; intros n Hn; subst n; [done|].
    cbn [length replicate map]. rewrite fmap_cons, (IH _ eq_refl). f_equal.
Qed.

Section Theorems.
Context {F : WorkFns}.

(** C30. The work queues are one first-in first-out queue of at most 255 items per
    processor, for any work functions and in every interleaving.  After wq_init, with any
    number of processors that submit work, count it and run queues, where each locked
    section, each item that wq_run takes and each access of the unlocked loop of
    wq_submit_any is a step of its own, and whose states may change meanwhile, no step
    faults, every call returns what the queues of the specification give at that moment
    (wq_submit is refused exactly for a bad processor, a null function or 255 waiting
    items), and at the end the rings represent these queues.  For every processor the
    accepted items are the items taken from its queue, each once and in the order of
    acceptance, followed by those that wait.  The number of processors is at most 64 and
    does not change. *)
Theorem work_queue_refines (mvs : list move) (ps : list work) (s : smp) :
  tables_ok s ->
  runs_to (moves mvs (At <$> ps, wq_init s)) (fun '(ls, (_, s')) => exists q,
    Spec.behaves (cpu_count s) ls (replicate 64 []) q /\ refines s' q /\
    forall c, (c < 64)%nat -> exists waiting, q !! c = Some waiting /\ len waiting <= 255 /\
      Spec.accepted c ls = Spec.taken c ls ++ waiting).
Proof.
  intros Ht. eapply runs_to_mono; [apply (moves_ok mvs (At <$> ps) _ _ (wq_init_ok s Ht)); apply Forall_fmap; by apply Forall_true|].
  intros [ls [ts' s']] (q & Hb & R). exists q. split; [done|]. split; [done|]. intros c Hc.
  destruct (history _ _ _ _ c Hb [] ltac:(by apply lookup_replicate_2)) as (x & Hx & E). exists x. split; [done|]. split; [|exact E].
  rewrite (rf_queues _ _ R), list_lookup_fmap in Hx. destruct (cpu_wqs s' !! c) as [wq|] eqn:Ew; [|done]. injection Hx as <-.
  pose proof (Forall_lookup_1 _ _ _ _ (rf_ok _ _ R) Ew) as Hok. apply contents_lt in Hok. lia.
Qed.

(** C31. A wq_submit_any that no other processor disturbs puts its item into the shortest
    queue of an online processor, the first of them, and returns -1 only when there is no
    such processor, the function is null, or all their queues are full. *)
Theorem submit_any_alone (f a : Z) (k : Z -> work) (s : smp) (q : Spec.queues) :
  refines s q ->
  exists n, forall zs, length zs = n -> runs_to (moves (map (Step 0) zs) ([At (SubmitAny f a k)], s)) (fun '(_, (ts, s')) => exists r q',
    Spec.submit_any (cpu_count s) ((fun st => st =? CPU_STATE_ONLINE) <$> cpu_states s) f a q = (r, q') /\
    ts = [At (k r)] /\ refines s' q').
Proof.
  intros R. pose proof (rf_count _ _ R) as Hc.
  destruct (scan_alone s q (Z.to_nat (cpu_count s)) f a k 0 None R ltac:(lia) ltac:(lia)) as [n Hm].
  cbn [best_vars fst snd] in Hm. change (drop (Z.to_nat 0) ?l) with l in Hm. unfold Spec.submit_any.
  destruct (Spec.shortest (take _ (zip _ _)) 0 None) as [[c m]|] eqn:Es; cbn [best_vars fst snd] in Hm.
  - apply shortest_bound in Es as [|[H1 H2]]; [done|]. assert (c < 64) by (unfold len in H2; rewrite length_take in H2; lia).
    exists (S (n + 2)). intros [|z zs] [= El]. cbn [map moves do_move lookup list_lookup step mbind outcome_bind insert list_insert].
    rewrite <- (take_drop n zs), map_app, moves_app, (Hm (take n zs)) by (rewrite length_take; lia).
    assert (length (drop n zs) = 2%nat) as El2 by (rewrite length_drop; lia). destruct (drop n zs) as [|z1 [|z2 [|? ?]]]; try done. cbn [map]. cbn [mbind outcome_bind moves do_move lookup list_lookup step scan_step].
    rewrite Z.ltb_irrefl. cbn [negb mbind outcome_bind]. destruct (Z.eqb_spec c UINT32_MAX); [unfold UINT32_MAX in *; lia|].
    cbn [insert list_insert lookup list_lookup step do_move]. rewrite u32_id by lia.
    pose proof (wq_submit_ok s q c f a R ltac:(lia)) as Hs. destruct (wq_submit c f a s) as [[r s1]| |]; [|done..].
    cbn [runs_to mbind outcome_bind insert list_insert] in *. destruct (Spec.submit _ _ _ _ _) as [r' q']. destruct Hs as (-> & R' & _). by exists r', q'.
  - exists (S (n + 1)). intros [|z zs] [= El]. cbn [map moves do_move lookup list_lookup step mbind outcome_bind insert list_insert].
    rewrite <- (take_drop n zs), map_app, moves_app, (Hm (take n zs)) by (rewrite length_take; lia).
    assert (length (drop n zs) = 1%nat) as El2 by (rewrite length_drop; lia). destruct (drop n zs) as [|z1 [|? ?]]; try done. cbn [map]. cbn [mbind outcome_bind moves do_move lookup list_lookup step scan_step].
    rewrite Z.ltb_irrefl. cbn [negb mbind outcome_bind]. rewrite Z.eqb_refl. cbn [insert list_insert runs_to]. by exists (-1), q.
Qed.

(** When the work functions use no queue, wq_run executes all items of a queue that no
    other processor touches, oldest first, and leaves it empty. *)
Theorem wq_run_drains (s : smp) (q : Spec.queues) (c : Z) (l : list work_item) :
  (forall f a, call_fn f a = Done) -> refines s q -> 0 <= c < 64 -> q !! Z.to_nat c = Some l ->
  runs_to (moves (replicate (S (length l)) (Step 0 0)) ([At (Run c Done)], s)) (fun '(ls, (ts, s')) =>
    ls = map (Took c) l ++ [Empty c] /\ ts = [At Done] /\ refines s' (<[Z.to_nat c := []]> q)).
Proof.
  intros Hfn R Hc Hl. assert (u32 c = c) as Eu by (apply u32_id; lia). revert s q R Hl. induction l as [|it l IH]; intros s q R Hl.
  all: change (replicate (S ?n) (Step 0 0)) with (Step 0 0 :: replicate n (Step 0 0)); cbn [moves do_move lookup list_lookup step]; rewrite Eu; unfold MAX_CPUS;
    rewrite (proj2 (Z.leb_gt 64 c)) by lia; pose proof (wq_take_ok s q c R Hc) as Ht; destruct (wq_take c s) as [[o s1]| |]; [|done..];
    cbn [runs_to mbind outcome_bind] in *; destruct Ht as (_ & _ & Ht); destruct o as [it'|].
  - destruct Ht as (rest & E & _). by rewrite Hl in E.
  - destruct Ht as [-> _]. cbn. split; [done|]. split; [done|]. by rewrite list_insert_id.
  - destruct Ht as (rest & E & R1). rewrite Hl in E. injection E as <- <-. cbn [runs_to mbind outcome_bind insert list_insert].
    rewrite Hfn. cbn [seq length].
    assert ((<[Z.to_nat c := l]> q) !! Z.to_nat c = Some l) as Hl1 by (apply list_lookup_insert_eq; by eapply lookup_lt_Some).
    specialize (IH s1 _ R1 Hl1). destruct (moves _ _) as [[ls [ts s2]]| |]; [|done..]. cbn [runs_to mbind outcome_bind] in *.
    destruct IH as (-> & -> & R2). split; [done|]. split; [done|]. by rewrite list_insert_insert_eq in R2.
  - destruct Ht as [_ E]. by rewrite Hl in E.
Qed.
End Theorems.

(** Two processors; work function 1 submits its argument to whoever is idle. *)
Module Demo.
Definition start : smp :=
  mksmp (replicate 64 (mkqueue (replicate 256 (mkwork 0 0)) 7 9)) 2 (2 :: 2 :: replicate 62 0).

#[local] Instance demo_fns : WorkFns := fun f a => if f =? 1 then SubmitAny 2 a (fun _ => Done) else Done.

(** The first submits two items to itself and one to a processor that does not exist,
    and runs them; the second looks for an idle processor meanwhile. *)
Definition code : list work :=
  [Submit 0 1 40 (fun _ => Submit 0 2 41 (fun _ => Submit 2 2 42 (fun _ => Run 0 Done))); SubmitAny 2 43 (fun _ => Run 1 Done)].

Definition script : list move :=
  [Step 0 0; Step 1 0; Step 1 0; Step 1 0; Step 0 0; Step 1 1; Step 0 0; Step 1 0; Step 1 0; Step 1 1; Step 0 0; Step 1 0; Step 1 0] ++
  replicate 12 (Step 0 0) ++ [SetState 1 0] ++ replicate 4 (Step 1 0).

Lemma start_ok : tables_ok start.
Proof.
  split; [cbn; lia|done|done|]. apply Forall_forall. intros wq [-> _]%elem_of_replicate. done.
Qed.

Lemma work_queue_refines_witness :
  tables_ok start /\
  runs_to (moves script (At <$> code, wq_init start)) (fun '(ls, (_, s')) => exists q,
    Spec.behaves 2 ls (replicate 64 []) q /\ refines s' q /\
    forall c, (c < 64)%nat -> exists waiting, q !! c = Some waiting /\ len waiting <= 255 /\
      Spec.accepted c ls = Spec.taken c ls ++ waiting).
Proof.
  split; [exact start_ok|]. exact (work_queue_refines script code start start_ok).
Defined.

Definition visible (ls : list label) : list label := omap (fun l => match l with Quiet => None | l => Some l end) ls.

Example script_labels :
  runs_to (moves script (At <$> code, wq_init start)) (fun '(ls, _) => visible ls =
    [Submitted 0 1 40 0; Submitted 0 2 41 0; Submitted 2 2 42 (-1); Took 0 (mkwork 1 40); Submitted 1 2 43 0; Submitted 0 2 40 0;
     Took 0 (mkwork 2 41); Took 0 (mkwork 2 40); Empty 0; Took 1 (mkwork 2 43); Empty 1]).
Proof. vm_compute. reflexivity. Qed.

Lemma submit_any_alone_witness :
  exists n, runs_to (moves (map (Step 0) (replicate n 0)) ([At (SubmitAny 2 9 (fun _ => Done))], wq_init start)) (fun '(_, (ts, s')) => exists r q',
    (r, q') = (0, <[0%nat := [mkwork 2 9]]> (replicate 64 [])) /\ ts = [At Done] /\ refines s' q').
Proof.
  destruct (submit_any_alone 2 9 (fun _ => Done) (wq_init start) (replicate 64 []) (wq_init_ok start start_ok)) as [n H].
  exists n. eapply runs_to_mono; [exact (H (replicate n 0) (length_replicate n 0))|]. intros [ls [ts s']] (r & q' & E & Hts & R). exists r, q'. split; [|by split]. rewrite <- E. vm_compute. reflexivity.
Defined.

(** Two processors that look at the same time choose the same queue: with one place left
    and one in another queue, one of them is refused. *)
Definition crowded : smp :=
  mksmp (replicate 64 (mkqueue (replicate 256 (mkwork 2 0)) 0 254)) 2 (2 :: 2 :: replicate 62 0).

Example submit_any_race :
  runs_to (moves (concat (replicate 9 [Step 0 0; Step 1 0])) (replicate 2 (At (SubmitAny 2 7 (fun _ => Done))), crowded))
    (fun '(ls, (_, s)) => visible ls = [Submitted 0 2 7 0; Submitted 0 2 7 (-1)] /\ wq_pending 1 s = Ret 254).
Proof. vm_compute. split; reflexivity. Qed.
End Demo.
