(* ===== verification/Rtc.v ===== *)
(** * The real-time clock

    core/arch/rtc.c: time and date in the CMOS clock, as fields and as seconds
    since 1970.  The two ports of the clock are the class [CmosPorts]; [CmosOk]
    states what the data sheet says of a clock that is read and written between
    two ticks.  Log output of rtc_init is left out.

    [rtc_unix_roundtrip]: a Unix time that is set is read back, for dates until
    the end of 2099; [rtc_time_registers]: what is read back in general, which
    loses centuries from 2100 on.  [rtc_weekday_shifted] and [rtc_pm_misread]
    are about the day of the week and the 12-hour mode. *)

From S2P Require Import Prelude.
From stdpp Require Import strings.

#[local] Open Scope Z_scope.

Definition RTC_PORT_DATA : Z := 0x71.
Definition RTC_PORT_CMD : Z := 0x70.
Definition RTC_SECONDS : Z := 0x00.
Definition RTC_MINUTES : Z := 0x02.
Definition RTC_HOURS : Z := 0x04.
Definition RTC_WEEKDAY : Z := 0x06.
Definition RTC_DAY : Z := 0x07.
Definition RTC_MONTH : Z := 0x08.
Definition RTC_YEAR : Z := 0x09.
Definition RTC_CENTURY : Z := 0x32.
Definition RTC_STATUS_A : Z := 0x0A.
Definition RTC_STATUS_B : Z := 0x0B.
Definition RTC_STATUS_C : Z := 0x0C.
Definition RTC_UIP : Z := 128.
Definition RTC_24H : Z := 2.
Definition RTC_BINARY : Z := 4.
Definition RTC_PIE : Z := 64.

Record rtc_time := mktime {
  year : Z;     (** uint16_t, the others uint8_t *)
  month : Z;
  day : Z;
  hour : Z;
  minute : Z;
  second : Z;
  weekday : Z;
}.

#[global] Instance rtc_time_eq_dec : EqDecision rtc_time.
Proof. solve_decision. Defined.

(** ** Ports *)

Class CmosPorts (C : Type) := {
  outb : Z -> Z -> C -> C;      (** port, value *)
  inb : Z -> C -> Z * C;
}.

Section Clock.
Context {C : Type} {P : CmosPorts C}.
Implicit Types c : C.

Definition read_register (reg : Z) c : Z * C := inb RTC_PORT_DATA (outb RTC_PORT_CMD reg c).
Definition write_register (reg value : Z) c : C :=
  outb RTC_PORT_DATA value (outb RTC_PORT_CMD reg c).

Definition bcd_to_binary (bcd : Z) : Z := u8 (Z.shiftr bcd 4 * 10 + Z.land bcd 0x0F).
Definition binary_to_bcd (binary : Z) : Z := u8 (Z.lor (Z.shiftl (binary / 10) 4) (binary mod 10)).

Fixpoint wait_loop (timeout : nat) c : C :=
  let '(a, c) := read_register RTC_STATUS_A c in
  if Z.land a RTC_UIP =? 0 then c
  else match timeout with O => c | S t => wait_loop t c end.

Definition wait_ready c : C := wait_loop (Z.to_nat 100000) c.

Definition rtc_init c : C :=
  let '(status_b, c) := read_register RTC_STATUS_B c in
  let status_b := Z.lor status_b RTC_24H in
  let status_b := u8 (Z.land status_b (Z.lnot RTC_BINARY)) in
  let c := write_register RTC_STATUS_B status_b c in
  let '(_, c) := read_register RTC_STATUS_B c in
  snd (read_register RTC_STATUS_C c).

(** The hour of a clock in 12-hour mode, from the decoded hour register. *)
Definition hour_of_12 (hour : Z) : Z :=
  let hour12 := Z.land hour 0x7F in
  let is_pm := negb (Z.land hour 0x80 =? 0) in
  if is_pm && (hour12 <? 12) then u8 (hour12 + 12)
  else if negb is_pm && (hour12 =? 12) then 0
  else hour12.

Definition century_of (century : Z) : Z :=
  if (century =? 0x20) || (century =? 0x19) then bcd_to_binary century else 20.

Definition rtc_read_time c : rtc_time * C :=
  let c := wait_ready c in
  let '(second, c) := read_register RTC_SECONDS c in
  let '(minute, c) := read_register RTC_MINUTES c in
  let '(hour, c) := read_register RTC_HOURS c in
  let '(weekday, c) := read_register RTC_WEEKDAY c in
  let '(day, c) := read_register RTC_DAY c in
  let '(month, c) := read_register RTC_MONTH c in
  let '(year, c) := read_register RTC_YEAR c in
  let '(century, c) := read_register RTC_CENTURY c in
  let hour := bcd_to_binary hour in
  let '(status_b, c) := read_register RTC_STATUS_B c in
  let hour24 := negb (Z.land status_b RTC_24H =? 0) in
  (mktime (u16 (century_of century * 100 + bcd_to_binary year)) (bcd_to_binary month)
     (bcd_to_binary day) (if hour24 then hour else hour_of_12 hour)
     (bcd_to_binary minute) (bcd_to_binary second) weekday, c).

(** ** The calendar *)

Definition month_days : list Z := [31; 28; 31; 30; 31; 30; 31; 31; 30; 31; 30; 31].

Definition leap (year : Z) : bool :=
  ((year mod 4 =? 0) && negb (year mod 100 =? 0)) || (year mod 400 =? 0).

(** The loop over the years before the current one, [n] of them. *)
Fixpoint years_loop (n : nat) (year timestamp : Z) : Z :=
  match n with
  | O => timestamp
  | S n' =>
      let timestamp := u64 (timestamp + 365) in
      years_loop n' (year + 1) (if leap year then u64 (timestamp + 1) else timestamp)
  end.

Fixpoint months_loop (n : nat) (year month timestamp : Z) : outcome Z :=
  match n with
  | O => Ret timestamp
  | S n' =>
      d ← aget month_days month;
      let timestamp := u64 (timestamp + d) in
      months_loop n' year (month + 1)
        (if (month =? 1) && leap year then u64 (timestamp + 1) else timestamp)
  end.

Definition unix_of_time (t : rtc_time) : outcome Z :=
  let timestamp := years_loop (Z.to_nat (year t - 1970)) 1970 0 in
  timestamp ← months_loop (Z.to_nat (month t - 1)) (year t) 0 timestamp;
  let timestamp := u64 (timestamp + (day t - 1)) in
  let timestamp := u64 (timestamp * 86400) in
  let timestamp := u64 (timestamp + hour t * 3600) in
  let timestamp := u64 (timestamp + minute t * 60) in
  Ret (u64 (timestamp + second t)).

Definition rtc_read_unix c : outcome (Z * C) :=
  let '(time, c) := rtc_read_time c in
  timestamp ← unix_of_time time; Ret (timestamp, c).

Definition rtc_set_time (t : rtc_time) c : C :=
  let c := wait_ready c in
  let c := write_register RTC_SECONDS (binary_to_bcd (second t)) c in
  let c := write_register RTC_MINUTES (binary_to_bcd (minute t)) c in
  let c := write_register RTC_HOURS (binary_to_bcd (hour t)) c in
  let c := write_register RTC_DAY (binary_to_bcd (day t)) c in
  let c := write_register RTC_MONTH (binary_to_bcd (month t)) c in
  let c := write_register RTC_YEAR (binary_to_bcd (year t mod 100)) c in
  let c := write_register RTC_CENTURY (binary_to_bcd (u8 (year t / 100))) c in
  write_register RTC_WEEKDAY (weekday t) c.

(** The loop that takes whole years off [days]. *)
Fixpoint take_years (n : nat) (days year : Z) : outcome (Z * Z) :=
  if days <? 365 then Ret (days, year)
  else match n with
       | O => OutOfFuel
       | S n' =>
           let days_in_year := if leap year then 366 else 365 in
           if days_in_year <=? days then take_years n' (days - days_in_year) (u16 (year + 1))
           else Ret (days, year)
       end.

(** The loop that takes whole months off [days], [n] months left. *)
Fixpoint take_months (n : nat) (days year month : Z) : outcome (Z * Z) :=
  match n with
  | O => Ret (days, month)
  | S n' =>
      d ← aget month_days month;
      let days_in_month := if (month =? 1) && leap year then 29 else d in
      if days_in_month <=? days then take_months n' (days - days_in_month) year (month + 1)
      else Ret (days, month)
  end.

Definition time_of_unix (timestamp : Z) : outcome rtc_time :=
  let days := timestamp / 86400 in
  let seconds_remain := timestamp mod 86400 in
  '(rest, year) ← take_years (Z.to_nat (days / 365)) days 1970;
  '(rest, month) ← take_months 12 rest year 0;
  Ret (mktime year (u8 (month + 1)) (u8 (rest + 1)) (seconds_remain / 3600)
         ((seconds_remain mod 3600) / 60) (seconds_remain mod 60) ((u64 (days + 4)) mod 7 + 1)).

Definition rtc_set_unix (timestamp : Z) c : outcome C :=
  t ← time_of_unix timestamp; Ret (rtc_set_time t c).

(** ** Interrupts and names *)

Definition rate_of (hz : Z) : Z :=
  if 8192 <=? hz then 1 else if 4096 <=? hz then 2 else if 2048 <=? hz then 3
  else if 1024 <=? hz then 4 else if 512 <=? hz then 5 else if 256 <=? hz then 6
  else if 128 <=? hz then 7 else if 64 <=? hz then 8 else if 32 <=? hz then 9
  else if 16 <=? hz then 10 else if 8 <=? hz then 11 else if 4 <=? hz then 12
  else if 2 <=? hz then 13 else 14.

Definition rtc_enable_periodic_interrupt (hz : Z) c : C :=
  let '(status_a, c) := read_register RTC_STATUS_A c in
  let c := write_register RTC_STATUS_A (Z.lor (Z.land status_a 0xF0) (rate_of hz)) c in
  let '(status_b, c) := read_register RTC_STATUS_B c in
  write_register RTC_STATUS_B (Z.lor status_b RTC_PIE) c.

Definition rtc_disable_periodic_interrupt c : C :=
  let '(status_b, c) := read_register RTC_STATUS_B c in
  write_register RTC_STATUS_B (u8 (Z.land status_b (Z.lnot RTC_PIE))) c.

Definition rtc_handle_interrupt c : Z * C :=
  let '(status_c, c) := read_register RTC_STATUS_C c in
  (if Z.land status_c 0x70 =? 0 then 0 else 1, c).

Definition day_names : list string :=
  ["Monday"; "Tuesday"; "Wednesday"; "Thursday"; "Friday"; "Saturday"; "Sunday"]%string.

Definition rtc_get_weekday_string (weekday : Z) : outcome string :=
  if (weekday <? 1) || (7 <? weekday) then Ret "Unknown"%string else aget day_names (weekday - 1).

Definition rtc_is_update_in_progress c : bool * C :=
  let '(a, c) := read_register RTC_STATUS_A c in (negb (Z.land a RTC_UIP =? 0), c).
End Clock.

(** ** The Gregorian calendar as arithmetic *)

(** Days from 1970-01-01 to the first of January of [y]. *)
Definition days_before_year (y : Z) : Z :=
  365 * (y - 1970) + ((y - 1) / 4 - (y - 1) / 100 + (y - 1) / 400) - 477.

(** Days of the first [m] months of a year. *)
Definition days_before_month (lp : bool) (m : Z) : Z :=
  sumZ id (take (Z.to_nat m) month_days) + (if lp && (2 <=? m) then 1 else 0).

Definition year_length (y : Z) : Z := if leap y then 366 else 365.

Definition month_length (y m : Z) : Z :=
  days_before_month (leap y) m - days_before_month (leap y) (m - 1).

Definition day_number (t : rtc_time) : Z :=
  days_before_year (year t) + days_before_month (leap (year t)) (month t - 1) + (day t - 1).

Record valid_time (t : rtc_time) : Prop := {
  vt_month : 1 <= month t <= 12;
  vt_day : 1 <= day t <= month_length (year t) (month t);
  vt_hour : 0 <= hour t < 24;
  vt_minute : 0 <= minute t < 60;
  vt_second : 0 <= second t < 60;
}.

Lemma div_pred k y : 0 < k -> y / k = (y - 1) / k + if y mod k =? 0 then 1 else 0.
Proof.
  intros Hk. pose proof (Z.div_mod y k ltac:(lia)) as E. pose proof (Z.mod_pos_bound y k Hk) as Hb.
  destruct (Z.eqb_spec (y mod k) 0) as [E0|E0].
  - rewrite <- (Z.div_unique (y - 1) k (y / k - 1) (k - 1)) by lia. lia.
  - rewrite <- (Z.div_unique (y - 1) k (y / k) (y mod k - 1)) by lia. lia.
Qed.

Lemma mod_factor k m y : 0 < k -> 0 < m -> y mod (k * m) = 0 -> y mod k = 0.
Proof.
  intros Hk Hm E. apply Z.mod_divide in E as [q ->]; [|lia].
  replace (q * (k * m)) with (q * m * k) by lia. apply Z.mod_mul. lia.
Qed.

Lemma days_before_year_succ y : days_before_year (y + 1) = days_before_year y + year_length y.
Proof.
  unfold days_before_year, year_length, leap. replace (y + 1 - 1) with y by lia.
  rewrite (div_pred 4 y), (div_pred 100 y), (div_pred 400 y) by lia.
  pose proof (mod_factor 4 25 y ltac:(lia) ltac:(lia)). pose proof (mod_factor 100 4 y ltac:(lia) ltac:(lia)).
  change (4 * 25) with 100 in *. change (100 * 4) with 400 in *.
  destruct (Z.eqb_spec (y mod 4) 0), (Z.eqb_spec (y mod 100) 0), (Z.eqb_spec (y mod 400) 0); cbn [andb orb negb]; lia.
Qed.

Lemma year_length_range y : 365 <= year_length y <= 366.
Proof. unfold year_length. destruct (leap y); lia. Qed.

Lemma days_before_year_add n : forall y, 365 * Z.of_nat n <= days_before_year (y + Z.of_nat n) - days_before_year y <= 366 * Z.of_nat n.
Proof.
  induction n as [|n IH]; intros y; [rewrite Z.add_0_r; lia|].
  specialize (IH (y + 1)). rewrite days_before_year_succ in IH. pose proof (year_length_range y).
  replace (y + Z.of_nat (S n)) with (y + 1 + Z.of_nat n) by lia. lia.
Qed.

Lemma month_step lp m :
  0 <= m < 12 ->
  exists d, aget month_days m = Ret d /\ 28 <= d <= 31 /\
  days_before_month lp (m + 1) = days_before_month lp m + (if (m =? 1) && lp then d + 1 else d) /\
  (m = 1 -> d = 28).
Proof.
  intros Hm. pose proof (by_cases 12 (fun m => match aget month_days m with
    | Ret d => (28 <=? d) && (d <=? 31) &&
        (days_before_month lp (m + 1) =? days_before_month lp m + (if (m =? 1) && lp then d + 1 else d)) &&
        (negb (m =? 1) || (d =? 28))
    | _ => false end) ltac:(destruct lp; vm_compute; reflexivity) m Hm) as H.
  cbn beta in H. destruct (aget month_days m) as [d| |]; [|done..]. exists d. apply andb_true_iff in H as [[[H1 H2]%andb_true_iff H3]%andb_true_iff H4].
  split_and!; [done|lia|lia|lia|]. intros ->. change (1 =? 1) with true in H4. cbn in H4. lia.
Qed.

Lemma take_years_ok n : forall days y,
  0 <= days < 365 * (Z.of_nat n + 1) -> 1970 <= y -> y + Z.of_nat n <= 65535 ->
  runs_to (take_years n days y) (fun '(rest, y') =>
    y <= y' <= y + Z.of_nat n /\ 0 <= rest < year_length y' /\
    days_before_year y' + rest = days_before_year y + days).
Proof.
  induction n as [|n IH]; intros days y Hd Hy Hn; cbn [take_years]; pose proof (year_length_range y);
    destruct (Z.ltb_spec days 365); [simpl; lia|lia|simpl; lia|].
  fold (year_length y). destruct (Z.leb_spec (year_length y) days); [|simpl; lia].
  rewrite u16_id by lia. eapply runs_to_mono; [apply IH; lia|].
  intros [rest y'] (H2 & H3 & H4). rewrite days_before_year_succ in H4. lia.
Qed.

Lemma take_months_ok n : forall rest y m,
  m + Z.of_nat n = 12 -> 0 <= m -> 0 <= rest ->
  days_before_month (leap y) m + rest < days_before_month (leap y) 12 ->
  runs_to (take_months n rest y m) (fun '(r, m') =>
    0 <= m' < 12 /\ 0 <= r < month_length y (m' + 1) /\
    days_before_month (leap y) m' + r = days_before_month (leap y) m + rest).
Proof.
  induction n as [|n IH]; intros rest y m Hm H0 Hr Hlt; cbn [take_months].
  { replace m with 12 in * by lia. lia. }
  destruct (month_step (leap y) m ltac:(lia)) as (d & -> & Hd & Hs & Hfeb). cbn [mbind outcome_bind].
  assert ((if (m =? 1) && leap y then 29 else d) = if (m =? 1) && leap y then d + 1 else d) as ->.
  { destruct (Z.eqb_spec m 1), (leap y); cbn; lia. }
  destruct (Z.leb_spec (if (m =? 1) && leap y then d + 1 else d) rest).
  - eapply runs_to_mono; [apply IH; [lia|lia|lia|rewrite Hs; lia]|]. intros [r m'] (H1 & H2 & H3).
    rewrite Hs in H3. lia.
  - cbn. unfold month_length. replace (m + 1 - 1) with m by lia. rewrite Hs. lia.
Qed.

Lemma years_loop_ok n : forall y ts,
  0 <= ts -> ts + 366 * Z.of_nat n < 2 ^ 64 ->
  years_loop n y ts = ts + (days_before_year (y + Z.of_nat n) - days_before_year y).
Proof.
  induction n as [|n IH]; intros y ts H0 Hn; cbn [years_loop]; [rewrite Z.add_0_r; lia|].
  change (2 ^ 64) with 18446744073709551616 in *.
  rewrite (u64_id (ts + 365)) by lia. pose proof (days_before_year_succ y) as E. unfold year_length in E.
  replace (y + Z.of_nat (S n)) with (y + 1 + Z.of_nat n) by lia.
  destruct (leap y); rewrite ?u64_id by lia; rewrite IH by (change (2 ^ 64) with 18446744073709551616; lia); lia.
Qed.

Lemma days_before_month_range lp m : 0 <= m <= 12 -> 0 <= days_before_month lp m <= 366.
Proof.
  intros Hm. pose proof (by_cases 13 (fun m => (0 <=? days_before_month lp m) && (days_before_month lp m <=? 366))
    ltac:(destruct lp; vm_compute; reflexivity) m ltac:(lia)) as H. cbn beta in H. lia.
Qed.

Lemma months_loop_ok n : forall y m ts,
  0 <= m -> m + Z.of_nat n <= 12 -> 0 <= ts -> ts + 400 * Z.of_nat n < 2 ^ 64 ->
  months_loop n y m ts = Ret (ts + (days_before_month (leap y) (m + Z.of_nat n) - days_before_month (leap y) m)).
Proof.
  induction n as [|n IH]; intros y m ts H0 Hm Hts Hn; cbn [months_loop]; [rewrite Z.add_0_r; f_equal; lia|].
  change (2 ^ 64) with 18446744073709551616 in *.
  destruct (month_step (leap y) m ltac:(lia)) as (d & -> & Hd & Hs & _). cbn [mbind outcome_bind].
  rewrite (u64_id (ts + d)) by lia.
  replace (m + Z.of_nat (S n)) with (m + 1 + Z.of_nat n) by lia.
  destruct ((m =? 1) && leap y); rewrite ?u64_id by lia;
    rewrite IH by (change (2 ^ 64) with 18446744073709551616; lia); f_equal; lia.
Qed.

(** The seconds of a valid time are counted as the calendar says. *)
Lemma unix_of_time_ok t :
  valid_time t -> 1970 <= year t < 65536 ->
  unix_of_time t = Ret (day_number t * 86400 + hour t * 3600 + minute t * 60 + second t).
Proof.
  intros [Hm Hd Hh Hmi Hs] Hy. unfold unix_of_time, day_number.
  rewrite years_loop_ok by lia. replace (1970 + Z.of_nat (Z.to_nat (year t - 1970))) with (year t) by lia.
  change (days_before_year 1970) with 0.
  pose proof (days_before_year_add (Z.to_nat (year t - 1970)) 1970) as HY.
  replace (1970 + Z.of_nat (Z.to_nat (year t - 1970))) with (year t) in HY by lia.
  change (days_before_year 1970) with 0 in HY.
  rewrite months_loop_ok by lia.
  replace (0 + Z.of_nat (Z.to_nat (month t - 1))) with (month t - 1) by lia.
  replace (days_before_month (leap (year t)) 0) with 0 by (by destruct (leap (year t))).
  cbn [mbind outcome_bind]. unfold month_length in Hd.
  pose proof (days_before_month_range (leap (year t)) (month t - 1) ltac:(lia)).
  pose proof (days_before_month_range (leap (year t)) (month t) ltac:(lia)).
  rewrite (u64_id (_ + (day t - 1))) by lia. rewrite (u64_id (_ * 86400)) by lia.
  rewrite (u64_id (_ + hour t * 3600)), (u64_id (_ + minute t * 60)), u64_id by lia. f_equal. lia.
Qed.

(** The fields of a Unix time are a valid date with that day number. *)
Lemma time_of_unix_ok ts :
  0 <= ts < 2000000000000 ->
  runs_to (time_of_unix ts) (fun t =>
    valid_time t /\ 1970 <= year t < 65536 /\ day_number t = ts / 86400 /\
    ts = day_number t * 86400 + hour t * 3600 + minute t * 60 + second t /\
    weekday t = (ts / 86400 + 4) mod 7 + 1).
Proof.
  intros Hts. unfold time_of_unix.
  assert (0 <= ts / 86400 < 23148149) as Hd by (split; [apply Z.div_pos; lia|apply Z.div_lt_upper_bound; lia]).
  assert (0 <= ts / 86400 / 365 < 63420) as Hy by (split; [apply Z.div_pos; lia|apply Z.div_lt_upper_bound; lia]).
  eapply runs_to_bind; [apply take_years_ok; [|lia..]; rewrite Z2Nat.id by lia; pose proof (Z.div_mod (ts / 86400) 365 ltac:(lia)); pose proof (Z.mod_pos_bound (ts / 86400) 365 ltac:(lia)); lia|].
  intros [rest y] (H1 & H2 & H3). change (days_before_year 1970) with 0 in H3.
  eapply runs_to_bind; [apply take_months_ok; [done|lia|lia|]|].
  { unfold year_length in H2. change 12%nat with (Z.to_nat 12).
    destruct (leap y); change (days_before_month true 12) with 366; change (days_before_month false 12) with 365;
    [change (days_before_month true 0) with 0|change (days_before_month false 0) with 0]; lia. }
  intros [r m] (H4 & H5 & H6).
  assert (days_before_month (leap y) 0 = 0) as E0 by (by destruct (leap y)). rewrite E0 in H6.
  pose proof (month_step (leap y) m H4) as (d & _ & Hdl & Hs & _).
  unfold month_length in H5. replace (m + 1 - 1) with m in H5 by lia.
  assert (month_length y (m + 1) <= 32) as Hml.
  { unfold month_length. replace (m + 1 - 1) with m by lia. destruct ((m =? 1) && leap y); lia. }
  unfold month_length in Hml. replace (m + 1 - 1) with m in Hml by lia.
  cbn [runs_to]. rewrite !u8_id, u64_id by lia.
  assert (day_number (mktime y (m + 1) (r + 1) (ts mod 86400 / 3600) (ts mod 86400 mod 3600 / 60) (ts mod 86400 mod 60) ((ts / 86400 + 4) mod 7 + 1)) = ts / 86400) as E.
  { unfold day_number. cbn. replace (m + 1 - 1) with m by lia. lia. }
  split_and!; [|cbn; lia|cbn; lia|done| |done].
  - pose proof (Z.mod_pos_bound ts 86400 ltac:(lia)).
    split; cbn [year month day hour minute second]; [lia| | | |].
    + unfold month_length. replace (m + 1 - 1) with m by lia. lia.
    + split; [apply Z.div_pos; lia|apply Z.div_lt_upper_bound; lia].
    + pose proof (Z.mod_pos_bound (ts mod 86400) 3600 ltac:(lia)).
      split; [apply Z.div_pos; lia|apply Z.div_lt_upper_bound; lia].
    + apply Z.mod_pos_bound. lia.
  - rewrite E. cbn [hour minute second].
    pose proof (Z.div_mod ts 86400 ltac:(lia)). pose proof (Z.div_mod (ts mod 86400) 3600 ltac:(lia)).
    pose proof (Z.div_mod (ts mod 86400 mod 3600) 60 ltac:(lia)).
    assert (ts mod 86400 mod 60 = ts mod 86400 mod 3600 mod 60) as ->; [|lia].
    rewrite (Z.div_mod (ts mod 86400) 3600) at 1 by lia.
    replace (3600 * (ts mod 86400 / 3600)) with ((60 * (ts mod 86400 / 3600)) * 60) by lia.
    rewrite Z.add_comm. apply Z.mod_add. lia.
Qed.

(** ** The registers of the clock *)

(** Registers that keep what is written to them, between two ticks. *)
Definition kept_registers : list Z :=
  [RTC_SECONDS; RTC_MINUTES; RTC_HOURS; RTC_WEEKDAY; RTC_DAY; RTC_MONTH; RTC_YEAR; RTC_CENTURY; RTC_STATUS_B].

Class CmosOk (C : Type) (P : CmosPorts C) := {
  reg : Z -> C -> Z;
  read_value r c : fst (read_register r c) = reg r c;
  read_keeps r r' c : r' ∈ kept_registers -> reg r' (snd (read_register r c)) = reg r' c;
  write_value r v c : r ∈ kept_registers -> 0 <= v < 256 -> reg r (write_register r v c) = v;
  write_keeps r r' v c :
    r ∈ kept_registers -> r' ∈ kept_registers -> r <> r' -> reg r' (write_register r v c) = reg r' c;
}.

Section ClockOk.
Context {C : Type} {P : CmosPorts C} {PO : CmosOk C P}.
Implicit Types (c : C) (t : rtc_time).

Lemma wait_loop_keeps n : forall c r, r ∈ kept_registers -> reg r (wait_loop n c) = reg r c.
Proof.
  induction n as [|n IH]; intros c r Hr; cbn [wait_loop];
    pose proof (read_keeps RTC_STATUS_A r c Hr) as E; destruct (read_register RTC_STATUS_A c) as [a c'];
    cbn [snd] in E; destruct (Z.land a RTC_UIP =? 0); try done. rewrite IH; done.
Qed.

Definition uses_24h c : Prop := Z.land (reg RTC_STATUS_B c) RTC_24H <> 0.

(** The time that the registers of [c] spell. *)
Definition registers_time c : rtc_time :=
  let h := bcd_to_binary (reg RTC_HOURS c) in
  mktime (u16 (century_of (reg RTC_CENTURY c) * 100 + bcd_to_binary (reg RTC_YEAR c)))
    (bcd_to_binary (reg RTC_MONTH c)) (bcd_to_binary (reg RTC_DAY c))
    (if negb (Z.land (reg RTC_STATUS_B c) RTC_24H =? 0) then h else hour_of_12 h)
    (bcd_to_binary (reg RTC_MINUTES c)) (bcd_to_binary (reg RTC_SECONDS c)) (reg RTC_WEEKDAY c).

Ltac in_kept := unfold kept_registers; repeat (first [apply list_elem_of_here | apply list_elem_of_further]).

Ltac read_next :=
  match goal with
  | |- context [read_register ?r ?c] =>
      let E1 := fresh "V" in let E2 := fresh "K" in
      pose proof (read_value r c) as E1; pose proof (fun r' => read_keeps r r' c) as E2;
      destruct (read_register r c) as [? ?]; cbn [fst snd] in E1, E2; subst
  end.

Lemma rtc_read_time_ok c : fst (rtc_read_time c) = registers_time c.
Proof.
  unfold rtc_read_time, registers_time.
  assert (forall r, r ∈ kept_registers -> reg r (wait_ready c) = reg r c) as K0 by (intros; by apply wait_loop_keeps).
  set (c0 := wait_ready c) in *. clearbody c0.
  repeat read_next. cbn [fst].
  repeat match goal with
    | K : forall r, r ∈ kept_registers -> reg r ?c1 = reg r ?c2 |- context [reg ?r ?c1] => rewrite (K r) by in_kept
    end. done.
Qed.

(** The state of the registers after the clock is set. *)
Lemma rtc_set_time_ok t c r :
  r ∈ kept_registers -> 0 <= weekday t < 256 ->
  reg r (rtc_set_time t c) =
    if r =? RTC_WEEKDAY then weekday t
    else if r =? RTC_CENTURY then binary_to_bcd (u8 (year t / 100))
    else if r =? RTC_YEAR then binary_to_bcd (year t mod 100)
    else if r =? RTC_MONTH then binary_to_bcd (month t)
    else if r =? RTC_DAY then binary_to_bcd (day t)
    else if r =? RTC_HOURS then binary_to_bcd (hour t)
    else if r =? RTC_MINUTES then binary_to_bcd (minute t)
    else if r =? RTC_SECONDS then binary_to_bcd (second t)
    else reg r c.
Proof.
  intros Hr Hw. unfold rtc_set_time.
  repeat match goal with
    | |- reg r (write_register ?r' ?v ?c') = _ =>
        destruct (Z.eqb_spec r r') as [->|]; [by apply write_value; [in_kept|first [done|apply u8_range]]|];
        rewrite write_keeps by (first [done | congruence | by in_kept])
    end. by apply wait_loop_keeps.
Qed.

Lemma bcd_roundtrip x : 0 <= x < 100 -> bcd_to_binary (binary_to_bcd x) = x.
Proof.
  intros Hx. apply Z.eqb_eq.
  exact (by_cases 100 (fun x => bcd_to_binary (binary_to_bcd x) =? x) ltac:(vm_compute; reflexivity) x Hx).
Qed.

(** What a year becomes in the registers: the century is only understood when it
    is 19 or 20. *)
Definition year_kept (y : Z) : Z := if (1900 <=? y) && (y <? 2100) then y else 2000 + y mod 100.

Lemma century_kept y :
  0 <= y < 10000 -> century_of (binary_to_bcd (u8 (y / 100))) * 100 + y mod 100 = year_kept y.
Proof.
  intros Hy. assert (0 <= y / 100 < 100) as Hq by (split; [apply Z.div_pos; lia|apply Z.div_lt_upper_bound; lia]).
  rewrite u8_id by lia. unfold year_kept. pose proof (Z.div_mod y 100 ltac:(lia)) as E.
  pose proof (Z.mod_pos_bound y 100 ltac:(lia)) as Hm.
  assert (century_of (binary_to_bcd (y / 100)) = if (19 <=? y / 100) && (y / 100 <? 21) then y / 100 else 20) as ->.
  { apply Z.eqb_eq. exact (by_cases 100 (fun q => century_of (binary_to_bcd q) =? if (19 <=? q) && (q <? 21) then q else 20)
      ltac:(vm_compute; reflexivity) (y / 100) Hq). }
  destruct (Z.leb_spec 19 (y / 100)), (Z.ltb_spec (y / 100) 21), (Z.leb_spec 1900 y), (Z.ltb_spec y 2100); cbn [andb]; lia.
Qed.

Lemma month_length_le y m : 1 <= m <= 12 -> month_length y m <= 32.
Proof.
  intros Hm. unfold month_length. destruct (month_step (leap y) (m - 1) ltac:(lia)) as (d & _ & Hd & Hs & _).
  replace (m - 1 + 1) with m in Hs by lia. rewrite Hs. destruct ((m - 1 =? 1) && leap y); lia.
Qed.

(** Setting the clock and reading it gives the same fields, except the century. *)
Theorem rtc_time_registers t c :
  valid_time t -> 0 <= year t < 10000 -> 0 <= weekday t < 256 -> uses_24h c ->
  fst (rtc_read_time (rtc_set_time t c)) =
    mktime (year_kept (year t)) (month t) (day t) (hour t) (minute t) (second t) (weekday t).
Proof.
  intros [Hm Hd Hh Hmi Hs] Hy Hw H24. pose proof (month_length_le (year t) (month t) Hm).
  rewrite rtc_read_time_ok. unfold registers_time. rewrite !rtc_set_time_ok by (done || in_kept).
  cbn [Z.eqb RTC_WEEKDAY RTC_CENTURY RTC_YEAR RTC_MONTH RTC_DAY RTC_HOURS RTC_MINUTES RTC_SECONDS RTC_STATUS_B Pos.eqb].
  unfold uses_24h in H24. destruct (Z.eqb_spec (Z.land (reg RTC_STATUS_B c) RTC_24H) 0) as [E|_]; [done|].
  cbn [negb]. pose proof (Z.mod_pos_bound (year t) 100 ltac:(lia)).
  rewrite !bcd_roundtrip, century_kept by lia. f_equal. apply u16_id. unfold year_kept.
  destruct ((1900 <=? year t) && (year t <? 2100)); lia.
Qed.
End ClockOk.

(** ** Theorems *)

(** The name of the day [days] after 1970-01-01, a Thursday. *)
Definition weekday_name (days : Z) : outcome string := aget day_names ((days + 3) mod 7).

Section Theorems.
Context {C : Type} {P : CmosPorts C} {PO : CmosOk C P}.

Lemma day_number_year t :
  valid_time t -> days_before_year (year t) <= day_number t < days_before_year (year t + 1).
Proof.
  intros [Hm Hd _ _ _]. unfold day_number, month_length in *. rewrite days_before_year_succ.
  pose proof (days_before_month_range (leap (year t)) (month t - 1) ltac:(lia)).
  assert (days_before_month (leap (year t)) (month t) <= year_length (year t)); [|lia].
  unfold year_length. apply Z.leb_le.
  refine (by_cases 13 (fun m => days_before_month (leap (year t)) m <=? if leap (year t) then 366 else 365) _ (month t) ltac:(lia)).
  destruct (leap (year t)); vm_compute; reflexivity.
Qed.

Lemma days_before_year_le y y' : y <= y' -> days_before_year y <= days_before_year y'.
Proof.
  intros H. pose proof (days_before_year_add (Z.to_nat (y' - y)) y) as E.
  replace (y + Z.of_nat (Z.to_nat (y' - y))) with y' in E by lia. lia.
Qed.

Lemma set_unix_year ts t :
  valid_time t -> 1970 <= year t -> day_number t = ts / 86400 -> ts < 4102444800 -> year t < 2100.
Proof.
  intros Hv Hy Hd Hts. destruct (Z.lt_ge_cases (year t) 2100) as [|Hge]; [done|].
  pose proof (days_before_year_le 2100 (year t) Hge) as H1. change (days_before_year 2100) with 47482 in H1.
  pose proof (day_number_year t Hv) as H2.
  assert (ts / 86400 < 47482) by (apply Z.div_lt_upper_bound; lia). lia.
Qed.

(** A clock that was set to a Unix time shows the fields of that time. *)
Lemma set_read_time ts c :
  0 <= ts < 4102444800 -> uses_24h c ->
  runs_to (rtc_set_unix ts c) (fun c' =>
    let t := fst (rtc_read_time c') in
    valid_time t /\ 1970 <= year t < 2100 /\ day_number t = ts / 86400 /\
    ts = day_number t * 86400 + hour t * 3600 + minute t * 60 + second t /\
    weekday t = (ts / 86400 + 4) mod 7 + 1).
Proof.
  intros Hts H24. unfold rtc_set_unix.
  eapply runs_to_bind; [apply time_of_unix_ok; lia|]. intros t (Hv & Hy & Hd & Ets & Hw).
  pose proof (set_unix_year ts t Hv ltac:(lia) Hd ltac:(lia)) as Hy2.
  pose proof (Z.mod_pos_bound (ts / 86400 + 4) 7 ltac:(lia)).
  cbn [runs_to]. rewrite (rtc_time_registers t c Hv ltac:(lia) ltac:(lia) H24).
  unfold year_kept. rewrite (proj2 (Z.leb_le 1900 (year t))), (proj2 (Z.ltb_lt (year t) 2100)) by lia. cbn [andb].
  replace (mktime _ _ _ _ _ _ _) with t by (by destruct t). auto with lia.
Qed.

Lemma set_read_unix ts c :
  0 <= ts < 4102444800 -> uses_24h c ->
  runs_to (rtc_set_unix ts c) (fun c' => runs_to (rtc_read_unix c') (fun '(ts', _) => ts' = ts)).
Proof.
  intros Hts H24. eapply runs_to_mono; [by apply set_read_time|]. intros c' (Hv & Hy & _ & Ets & _).
  unfold rtc_read_unix. destruct (rtc_read_time c') as [t c'']. cbn [fst] in *. rewrite unix_of_time_ok by (done || lia).
  cbn. lia.
Qed.

(** C33. A Unix time that rtc_set_unix stores in the clock is the time that
    rtc_read_unix computes from it, for every second from 1970 to the end of 2099
    (4102444800 is the first second of 2100), when the clock runs in 24-hour
    mode: the two conversions between seconds and calendar fields and the binary
    coded decimal registers lose nothing. *)
Theorem rtc_unix_roundtrip (ts : Z) (c : C) :
  0 <= ts < 4102444800 -> uses_24h c ->
  runs_to (rtc_set_unix ts c) (fun c' => runs_to (rtc_read_unix c') (fun '(ts', _) => ts' = ts)).
Proof. apply set_read_unix. Qed.

(** The day of the week that rtc_set_unix stores is read as the name of the day
    after: the code numbers the days from Sunday when it writes and from Monday
    when it prints. *)
Theorem rtc_weekday_shifted (ts : Z) (c : C) :
  0 <= ts < 4102444800 -> uses_24h c ->
  runs_to (rtc_set_unix ts c) (fun c' =>
    rtc_get_weekday_string (weekday (fst (rtc_read_time c'))) = weekday_name (ts / 86400 + 1)).
Proof.
  intros Hts H24. eapply runs_to_mono; [by apply set_read_time|]. intros c' (_ & _ & _ & _ & Hw). rewrite Hw.
  pose proof (Z.mod_pos_bound (ts / 86400 + 4) 7 ltac:(lia)) as Hb. unfold rtc_get_weekday_string, weekday_name.
  rewrite (proj2 (Z.ltb_ge _ 1)), (proj2 (Z.ltb_ge 7 _)) by lia. cbn [orb]. f_equal.
  replace (ts / 86400 + 1 + 3) with (ts / 86400 + 4) by lia. lia.
Qed.

(** rtc_init switches the clock to 24-hour mode. *)
Lemma rtc_init_24h c : uses_24h (rtc_init c).
Proof.
  assert (RTC_STATUS_B ∈ kept_registers) as Hk by (unfold kept_registers; set_solver).
  unfold rtc_init, uses_24h. destruct (read_register RTC_STATUS_B c) as [v c1]. set (w := u8 _).
  pose proof (read_keeps RTC_STATUS_B RTC_STATUS_B (write_register RTC_STATUS_B w c1) Hk) as K.
  destruct (read_register RTC_STATUS_B (write_register RTC_STATUS_B w c1)) as [v2 c2]. cbn [snd] in K.
  rewrite read_keeps, K, write_value by (done || apply u8_range). intros E.
  apply (f_equal (fun z => Z.testbit z 1)) in E. unfold w, u8, wrapu, RTC_24H, RTC_BINARY in E.
  rewrite !Z.land_spec, Z.mod_pow2_bits_low, Z.land_spec, Z.lor_spec in E by lia.
  rewrite orb_true_r in E. done.
Qed.

(** In 12-hour mode the afternoon flag, bit 7 of the hour register, is tested
    after the register was decoded as two decimal digits, which turn it into 80
    hours: an afternoon hour [h] is read as [80 + h]. *)
Theorem rtc_pm_misread (h : Z) (c : C) :
  1 <= h <= 12 -> ~ uses_24h c -> reg RTC_HOURS c = 0x80 + binary_to_bcd h ->
  hour (fst (rtc_read_time c)) = 80 + h.
Proof.
  intros Hh H12 Hr. rewrite rtc_read_time_ok. unfold registers_time. cbn [hour].
  unfold uses_24h in H12. destruct (Z.eqb_spec (Z.land (reg RTC_STATUS_B c) RTC_24H) 0) as [_|E]; [|by destruct H12].
  cbn [negb]. rewrite Hr. apply Z.eqb_eq.
  assert (forall h, 1 <= h < 13 -> (hour_of_12 (bcd_to_binary (128 + binary_to_bcd h)) =? 80 + h) = true) as H; [|by apply H; lia].
  intros k Hk. pose proof (by_cases 13 (fun h => (h =? 0) || (hour_of_12 (bcd_to_binary (128 + binary_to_bcd h)) =? 80 + h))
    ltac:(vm_compute; reflexivity) k ltac:(lia)) as H. cbn beta in H.
  destruct (Z.eqb_spec k 0); [lia|done].
Qed.
End Theorems.

(** A clock with 128 registers: the selected register and the contents. *)
Module Demo.
Definition cmos : Type := Z * list Z.

#[local] Instance cmos_ports : CmosPorts cmos := {
  outb port v c := if port =? RTC_PORT_CMD then (v mod 128, c.2)
                   else if port =? RTC_PORT_DATA then (c.1, <[Z.to_nat c.1 := v mod 256]> c.2) else c;
  inb port c := if port =? RTC_PORT_DATA then (default 0 (c.2 !! Z.to_nat c.1), c) else (255, c);
}.

Definition cmos_reg (r : Z) (c : cmos) : Z := default 0 (c.2 !! Z.to_nat (r mod 128)).

Lemma kept_small r : r ∈ kept_registers -> 0 <= r < 128.
Proof.
  intros H. unfold kept_registers in H. repeat (apply elem_of_cons in H as [->|H]; [vm_compute; split; congruence|]).
  by apply not_elem_of_nil in H.
Qed.

(** A register that the list does not reach reads as zero; the laws hold for
    lists of 128 registers. *)
Definition cmos128 : Type := { c : cmos | bool_decide (length c.2 = 128%nat) }.

Lemma out_length port v (c : cmos) : length (outb port v c).2 = length c.2.
Proof.
  cbn. destruct (port =? RTC_PORT_CMD); [done|]. destruct (port =? RTC_PORT_DATA); [|done]. cbn. apply length_insert.
Qed.

Lemma in_length port (c : cmos) : (inb port c).2 = c.
Proof. cbn. by destruct (port =? RTC_PORT_DATA). Qed.

Definition sized (c : cmos) (H : length c.2 = 128%nat) : cmos128 := exist _ c (bool_decide_pack _ H).

#[local] Instance cmos128_ports : CmosPorts cmos128 := {
  outb port v c := sized (outb port v (proj1_sig c)) (eq_trans (out_length port v (proj1_sig c)) (bool_decide_unpack _ (proj2_sig c)));
  inb port c := ((inb port (proj1_sig c)).1, c);
}.

#[local] Program Instance cmos128_ok : CmosOk cmos128 cmos128_ports := {
  reg r c := cmos_reg r (proj1_sig c);
}.
Next Obligation. intros r [[s l] H]. done. Qed.
Next Obligation. intros r r' [[s l] H] Hr'. done. Qed.
Next Obligation.
  intros r v [[s l] H] Hr Hv. pose proof (kept_small r Hr). apply bool_decide_unpack in H as Hl. cbn in Hl.
  unfold cmos_reg. cbn. rewrite Z.mod_small by lia. rewrite list_lookup_insert_eq by (rewrite Hl; lia).
  cbn. apply Z.mod_small. lia.
Qed.
Next Obligation.
  intros r r' v [[s l] H] Hr Hr' Hne. pose proof (kept_small r Hr). pose proof (kept_small r' Hr').
  unfold cmos_reg. cbn. rewrite !Z.mod_small by lia. rewrite list_lookup_insert_ne by lia. done.
Qed.

(** A clock after rtc_init: 24-hour mode, binary coded decimals. *)
Definition start : cmos128 := rtc_init (sized (0, replicate 128 0) eq_refl).

(** 2024-02-29 12:34:56. *)
Lemma rtc_unix_roundtrip_witness :
  uses_24h start /\
  runs_to (rtc_set_unix 1709210096 start) (fun c' => runs_to (rtc_read_unix c') (fun '(ts', _) => ts' = 1709210096)).
Proof.
  assert (uses_24h start) as H by (vm_compute; congruence).
  split; [exact H|]. apply (rtc_unix_roundtrip 1709210096 start); [lia|exact H].
Defined.

(** The first second of 2100 is read as the first second of 2000. *)
Lemma rtc_century_lost :
  runs_to (rtc_set_unix 4102444800 start) (fun c' => runs_to (rtc_read_unix c') (fun '(ts', _) => ts' = 946684800)).
Proof. vm_compute. reflexivity. Qed.
End Demo.
