(* ===== verification/Vfs.v ===== *)
(** * The virtual file system: model

    core/fs/vfs.c and include/core/fs/vfs.h.  The tables [files], [handles],
    [file_handles], [registered_fs] and [mounts] are lists; a pointer into a
    table is an index.  A C string is the list of its bytes without the
    terminator; copying one into a [char[n]] that is too small is a fault.
    Function pointers (device operations, file-system operation tables) are
    addresses, and what is called through them is a method of the class
    [VfsEnv]: the drivers are other components. *)

From S2P Require Import Prelude.

Definition MAX_FILES : Z := 256.
Definition MAX_HANDLES : Z := 64.
Definition MAX_FILENAME : Z := 256.
Definition MAX_FILE_SIZE : Z := 65536.
Definition MAX_FS_NAME : Z := 32.
Definition MAX_REGISTERED_FS : Z := 16.
Definition MAX_MOUNT_PATH : Z := 256.
Definition MAX_MOUNTS : Z := 32.

Definition VFS_READ : Z := 0x01.
Definition VFS_WRITE : Z := 0x02.
Definition VFS_CREAT : Z := 0x04.
(** vfs.h defines 0x10; the fallback of vfs.c (0x04) is not used. *)
Definition VFS_TRUNC : Z := 0x10.
Definition VFS_SEEK_SET : Z := 0.
Definition VFS_SEEK_CUR : Z := 1.
Definition VFS_SEEK_END : Z := 2.

Definition ENOENT : Z := 2.
Definition EIO : Z := 5.
Definition EBADF : Z := 9.
Definition ENOMEM : Z := 12.
Definition EACCES : Z := 13.
Definition EBUSY : Z := 16.
Definition EEXIST : Z := 17.
Definition ENODEV : Z := 19.
Definition ENOTDIR : Z := 20.
Definition EINVAL : Z := 22.
Definition EMFILE : Z := 24.
Definition ENOTTY : Z := 25.
Definition ENOSPC : Z := 28.

Definition SLASH : Z := 47.

Inductive vfs_file_type := VFS_TYPE_FILE | VFS_TYPE_DIR | VFS_TYPE_DEVICE.

#[global] Instance vfs_file_type_eq_dec : EqDecision vfs_file_type.
Proof. solve_decision. Defined.

(** Device operations; [None] is a NULL function pointer. *)
Record dev_ops := mkdevops {
  op_read : option Z; op_write : option Z; op_seek : option Z; op_ioctl : option Z
}.

Definition no_ops : dev_ops := mkdevops None None None None.

Record vfs_file := mkfile {
  f_name : list Z;           (** char name[MAX_FILENAME] *)
  f_data : list Z;           (** char data[MAX_FILE_SIZE] *)
  f_size : Z;                (** size_t *)
  f_used : bool;
  f_type : vfs_file_type;
  f_ops : dev_ops;
  f_dev_data : Z
}.

Record vfs_handle := mkhandle {
  h_used : bool;
  h_fd : Z;                  (** int *)
  h_file : option Z;         (** index into files *)
  h_position : Z;            (** size_t *)
  h_flags : Z;
  h_fs_private : option Z;   (** index into file_handles *)
  h_mount : option Z         (** index into mounts *)
}.

Record vfs_filesystem := mkfs {
  fs_name : list Z; fs_ops : option Z; fs_flags : Z; fs_registered : bool
}.

Record vfs_mount := mkmount {
  m_point : list Z;          (** char mount_point[MAX_MOUNT_PATH] *)
  m_device : list Z;
  m_fs : option Z;           (** index into registered_fs *)
  m_private : Z;
  m_flags : Z;
  m_mounted : bool;
  m_ref_count : Z
}.

Record vfs_file_handle := mkfh {
  fh_used : bool;
  fh_fd : Z;
  fh_mount : option Z;
  fh_path : list Z;          (** char path[MAX_FILENAME] *)
  fh_position : Z;
  fh_flags : Z;
  fh_private : Z
}.

Record vfs_stat_t := mkstat { st_mode : Z; st_size : Z; st_blksize : Z; st_mtime : Z }.
Record vfs_dirent := mkdirent { d_name : list Z; d_type : Z }.

Definition type_code (t : vfs_file_type) : Z :=
  match t with VFS_TYPE_FILE => 0 | VFS_TYPE_DIR => 1 | VFS_TYPE_DEVICE => 2 end.

(** ** What the drivers provide *)

Class VfsEnv (W : Type) := {
  (** device callbacks: result, bytes stored in the buffer, new position *)
  dev_read : Z -> vfs_file -> Z -> Z -> W -> W * (Z * list Z * Z);
  dev_write : Z -> vfs_file -> list Z -> Z -> W -> W * (Z * Z);
  dev_seek : Z -> vfs_file -> Z -> Z -> Z -> W -> W * (Z * Z);
  dev_ioctl : Z -> vfs_file -> Z -> Z -> W -> W * Z;
  (** file-system operation tables; [None] is a NULL entry *)
  op_mount : Z -> option (vfs_mount -> option (list Z) -> Z -> W -> W * (Z * Z));
  op_unmount : Z -> option (vfs_mount -> W -> W * Z);
  op_open : Z -> option (vfs_mount -> list Z -> Z -> vfs_file_handle -> W -> W * (Z * vfs_file_handle));
  op_close : Z -> option (vfs_mount -> vfs_file_handle -> W -> W * vfs_file_handle);
  op_fread : Z -> option (vfs_mount -> vfs_file_handle -> Z -> W -> W * (Z * list Z * vfs_file_handle));
  op_fwrite : Z -> option (vfs_mount -> vfs_file_handle -> list Z -> W -> W * (Z * vfs_file_handle));
  op_stat : Z -> option (vfs_mount -> list Z -> W -> W * (Z * vfs_stat_t));
  op_unlink : Z -> option (vfs_mount -> list Z -> W -> W * Z);
  op_readdir : Z -> option (vfs_mount -> list Z -> Z -> W -> W * (Z * list vfs_dirent))
}.

Record vfs (W : Type) := mkvfs {
  files : list vfs_file;
  handles : list vfs_handle;
  next_fd : Z;
  registered_fs : list vfs_filesystem;
  mounts : list vfs_mount;
  file_handles : list vfs_file_handle;
  vworld : W
}.
Arguments mkvfs {W}.
Arguments files {W}.
Arguments handles {W}.
Arguments next_fd {W}.
Arguments registered_fs {W}.
Arguments mounts {W}.
Arguments file_handles {W}.
Arguments vworld {W}.

(** ** Strings *)

(** [strcpy] into a [char[n]]. *)
Definition strcpy_into (n : Z) (s : list Z) : outcome (list Z) :=
  if len s <? n then Ret s else Fault OutOfBounds.

Definition str_eq (s t : list Z) : bool := bool_decide (s = t).

(** [strncmp(s, p, strlen(p)) == 0]. *)
Definition has_prefix (p s : list Z) : bool := bool_decide (take (length p) s = p).

(** [s[i]], reading the terminator at [strlen(s)]. *)
Definition char_at (s : list Z) (i : Z) : outcome Z :=
  if i =? len s then Ret 0 else aget s i.

Section Vfs.
Context {W : Type} `{VE : VfsEnv W}.
Implicit Types (v : vfs W) (f : vfs_file) (h : vfs_handle) (w : W).

Definition with_files v x : vfs W := mkvfs x (handles v) (next_fd v) (registered_fs v) (mounts v) (file_handles v) (vworld v).
Definition with_handles v x : vfs W := mkvfs (files v) x (next_fd v) (registered_fs v) (mounts v) (file_handles v) (vworld v).
Definition with_next_fd v x : vfs W := mkvfs (files v) (handles v) x (registered_fs v) (mounts v) (file_handles v) (vworld v).
Definition with_registered v x : vfs W := mkvfs (files v) (handles v) (next_fd v) x (mounts v) (file_handles v) (vworld v).
Definition with_mounts v x : vfs W := mkvfs (files v) (handles v) (next_fd v) (registered_fs v) x (file_handles v) (vworld v).
Definition with_fhs v x : vfs W := mkvfs (files v) (handles v) (next_fd v) (registered_fs v) (mounts v) x (vworld v).
Definition with_world v (x : W) : vfs W := mkvfs (files v) (handles v) (next_fd v) (registered_fs v) (mounts v) (file_handles v) x.

Definition set_position h x := mkhandle (h_used h) (h_fd h) (h_file h) x (h_flags h) (h_fs_private h) (h_mount h).
Definition set_fh_used (x : vfs_file_handle) b := mkfh b (fh_fd x) (fh_mount x) (fh_path x) (fh_position x) (fh_flags x) (fh_private x).
Definition set_fh_position (x : vfs_file_handle) p := mkfh (fh_used x) (fh_fd x) (fh_mount x) (fh_path x) p (fh_flags x) (fh_private x).

(** ** Searches *)

Definition find_file v (name : list Z) : option Z :=
  first_index (fun f => f_used f && str_eq (f_name f) name) (files v).

Definition get_handle v (fd : Z) : option Z :=
  first_index (fun h => h_used h && (h_fd h =? fd)) (handles v).

Definition free_handle v : option Z := first_index (fun h => negb (h_used h)) (handles v).
Definition free_file v : option Z := first_index (fun f => negb (f_used f)) (files v).
Definition free_fh v : option Z := first_index (fun x => negb (fh_used x)) (file_handles v).

(** [mnt->fs && mnt->fs->ops]: the operation table of a mount. *)
Definition mount_ops v (m : vfs_mount) : outcome (option Z) :=
  match m_fs m with
  | None => Ret None
  | Some i => fs ← aget (registered_fs v) i; Ret (fs_ops fs)
  end.

(** ** File descriptors *)

Definition reserved_fds : list Z := [1000; 1001; 1002; 1003; 1004; 1005].

Definition fd_taken v (fd : Z) : bool :=
  existsb (fun h => h_used h && (h_fd h =? fd)) (handles v).

(** The first descriptor of [i .. i+n-1] that is neither reserved nor taken. *)
Fixpoint scan_fd v (i : Z) (n : nat) : option Z :=
  match n with
  | O => None
  | S n' =>
      if existsb (Z.eqb i) reserved_fds then scan_fd v (i + 1) n'
      else if fd_taken v i then scan_fd v (i + 1) n'
      else Some i
  end.

Definition allocate_fd v : vfs W * Z :=
  match scan_fd v (next_fd v) (Z.to_nat (MAX_HANDLES + 3 - next_fd v)) with
  | Some i => (with_next_fd v (if MAX_HANDLES + 3 <=? i + 1 then 3 else i + 1), i)
  | None =>
      match scan_fd v 3 (Z.to_nat MAX_HANDLES) with
      | Some i => (with_next_fd v (i + 1), i)
      | None => (v, -1)
      end
  end.

(** ** Initialisation *)

Definition wipe_file f : outcome vfs_file :=
  data ← aset (f_data f) 0 0;
  Ret (mkfile [] data 0 false VFS_TYPE_FILE no_ops 0).

Fixpoint wipe_files (fs : list vfs_file) : outcome (list vfs_file) :=
  match fs with
  | [] => Ret []
  | f :: fs' => f ← wipe_file f; fs' ← wipe_files fs'; Ret (f :: fs')
  end.

Definition std_handle (fd flags : Z) (h : vfs_handle) : vfs_handle :=
  mkhandle true fd None 0 flags (h_fs_private h) (h_mount h).

(** [devfs_init] and [procfs_init] belong to their own components. *)
Definition vfs_init (devfs_init procfs_init : vfs W -> outcome (vfs W)) v : outcome (vfs W) :=
  fs ← wipe_files (files v);
  let hs := map (fun h => mkhandle false (-1) None 0 0 (h_fs_private h) (h_mount h)) (handles v) in
  let regs := map (fun r => mkfs [] None (fs_flags r) false) (registered_fs v) in
  let ms := map (fun m => mkmount (m_point m) (m_device m) None 0 (m_flags m) false 0) (mounts v) in
  let fhs := map (fun x => mkfh false (-1) None (fh_path x) (fh_position x) (fh_flags x) 0)
               (file_handles v) in
  h0 ← aget hs 0; hs ← aset hs 0 (std_handle 0 VFS_READ h0);
  h1 ← aget hs 1; hs ← aset hs 1 (std_handle 1 VFS_WRITE h1);
  h2 ← aget hs 2; hs ← aset hs 2 (std_handle 2 VFS_WRITE h2);
  v ← devfs_init (mkvfs fs hs (next_fd v) regs ms fhs (vworld v));
  procfs_init v.

(** ** Directories and devices in the file table *)

Definition vfs_mkdir (dirname : list Z) v : outcome (vfs W * Z) :=
  if MAX_FILENAME <=? len dirname then Ret (v, -1) else
  match find_file v dirname with
  | Some i =>
      f ← aget (files v) i;
      if decide (f_type f = VFS_TYPE_DIR) then Ret (v, i) else Ret (v, -2)
  | None =>
      match free_file v with
      | None => Ret (v, -3)
      | Some i =>
          f ← aget (files v) i;
          name ← strcpy_into MAX_FILENAME dirname;
          fs ← aset (files v) i (mkfile name (f_data f) 0 true VFS_TYPE_DIR (f_ops f) (f_dev_data f));
          Ret (with_files v fs, i)
      end
  end.

Definition vfs_pseudo_register (filename : list Z) (ops : dev_ops) (dev_data : Z) v
  : outcome (vfs W * Z) :=
  if MAX_FILENAME <=? len filename then Ret (v, -1) else
  match find_file v filename with
  | Some i =>
      f ← aget (files v) i;
      if decide (f_type f = VFS_TYPE_DIR) then Ret (v, -4) else
      fs ← aset (files v) i (mkfile (f_name f) (f_data f) (f_size f) (f_used f) (f_type f) ops dev_data);
      Ret (with_files v fs, i)
  | None =>
      match free_file v with
      | None => Ret (v, -3)
      | Some i =>
          f ← aget (files v) i;
          name ← strcpy_into MAX_FILENAME filename;
          fs ← aset (files v) i (mkfile name (f_data f) 0 true VFS_TYPE_DEVICE ops dev_data);
          Ret (with_files v fs, i)
      end
  end.

(** "/dev/stdout", "/dev/stderr", "/dev/stdin". *)
Definition DEV_STDOUT : list Z := [47; 100; 101; 118; 47; 115; 116; 100; 111; 117; 116].
Definition DEV_STDERR : list Z := [47; 100; 101; 118; 47; 115; 116; 100; 101; 114; 114].
Definition DEV_STDIN : list Z := [47; 100; 101; 118; 47; 115; 116; 100; 105; 110].

Definition device_flags (filename : list Z) : Z :=
  if str_eq filename DEV_STDOUT || str_eq filename DEV_STDERR then VFS_WRITE
  else if str_eq filename DEV_STDIN then VFS_READ
  else Z.lor VFS_READ VFS_WRITE.

Definition vfs_pseudo_register_with_fd (filename : list Z) (fixed_fd : Z) (ops : dev_ops)
    (dev_data : Z) v : outcome (vfs W * Z) :=
  if MAX_FILENAME <=? len filename then Ret (v, -1) else
  if fd_taken v fixed_fd then Ret (v, -5) else
  '(v, file_idx) ← match find_file v filename with
                   | Some i => Ret (v, i)
                   | None => vfs_pseudo_register filename ops dev_data v
                   end;
  if file_idx <? 0 then Ret (v, file_idx) else
  match free_handle v with
  | None => Ret (v, -2)
  | Some hi =>
      h ← aget (handles v) hi;
      hs ← aset (handles v) hi
             (mkhandle true fixed_fd (Some file_idx) 0 (device_flags filename)
                (h_fs_private h) (h_mount h));
      Ret (with_handles v hs, fixed_fd)
  end.

Definition vfs_link_std_fd (std_fd : Z) (dev_name : list Z) v : outcome (vfs W) :=
  match find_file v dev_name with
  | None => Ret v
  | Some i =>
      if (0 <=? std_fd) && (std_fd <? 3) then
        h ← aget (handles v) std_fd;
        hs ← aset (handles v) std_fd
               (mkhandle (h_used h) (h_fd h) (Some i) (h_position h) (h_flags h)
                  (h_fs_private h) (h_mount h));
        Ret (with_handles v hs)
      else Ret v
  end.

(** ** Mount points *)

(** The test of one entry: a prefix that ends at a component boundary. *)
Definition mount_matches (path : list Z) (m : vfs_mount) : outcome bool :=
  if negb (m_mounted m) then Ret false else
  if negb (has_prefix (m_point m) path) then Ret false else
  c ← char_at path (len (m_point m));
  Ret ((c =? SLASH) || (c =? 0) || bool_decide (m_point m = [SLASH])).

Fixpoint find_mount_loop (path : list Z) (ms : list vfs_mount) (i : Z) (best : option Z)
    (best_len : Z) : outcome (option Z * Z) :=
  match ms with
  | [] => Ret (best, best_len)
  | m :: ms' =>
      ok ← mount_matches path m;
      if (ok : bool) && (best_len <? len (m_point m))
      then find_mount_loop path ms' (i + 1) (Some i) (len (m_point m))
      else find_mount_loop path ms' (i + 1) best best_len
  end.

(** The relative path: one leading slash is dropped. *)
Definition relative_path (path : list Z) (n : Z) : list Z :=
  match drop (Z.to_nat n) path with
  | c :: rest => if c =? SLASH then rest else c :: rest
  | [] => []
  end.

Definition vfs_find_mount (path : option (list Z)) v : outcome (option (Z * list Z)) :=
  match path with
  | None => Ret None
  | Some path =>
  '(best, n) ← find_mount_loop path (mounts v) 0 None 0;
  Ret (match best with Some i => Some (i, relative_path path n) | None => None end)
  end.

(** The mount of a path together with its operation table. *)
Definition mount_of (path : list Z) v : outcome (option (Z * vfs_mount * Z * list Z)) :=
  r ← vfs_find_mount (Some path) v;
  match r with
  | None => Ret None
  | Some (i, rel) =>
      m ← aget (mounts v) i;
      ops ← mount_ops v m;
      Ret (match ops with Some o => Some (i, m, o, rel) | None => None end)
  end.

(** ** Opening and closing *)

Definition open_legacy (file_idx flags : Z) v : outcome (vfs W * Z) :=
  match free_handle v with
  | None => Ret (v, - EMFILE)
  | Some hi =>
      let '(v, fd) := allocate_fd v in
      if fd =? -1 then Ret (v, - EMFILE) else
      h ← aget (handles v) hi;
      hs ← aset (handles v) hi
             (mkhandle true fd (Some file_idx) 0 flags (h_fs_private h) (h_mount h));
      Ret (with_handles v hs, fd)
  end.

(** Steps 5 to 9 of [vfs_open], once the path is known to exist. *)
Definition open_mounted (mi : Z) (m : vfs_mount) (ops : Z) (rel : list Z) (flags : Z) v
  : outcome (vfs W * Z) :=
  match free_fh v with
  | None => Ret (v, - EMFILE)
  | Some fi =>
      let '(v, fd) := allocate_fd v in
      if fd =? -1 then Ret (v, - EMFILE) else
      x ← aget (file_handles v) fi;
      path ← strcpy_into MAX_FILENAME rel;
      let x := mkfh true fd (Some mi) path 0 flags (fh_private x) in
      let '(w, (ret, x)) := match op_open ops with
                            | Some open => open m rel flags x (vworld v)
                            | None => (vworld v, (0, x))
                            end in
      let v := with_world v w in
      if ret <? 0 then
        fhs ← aset (file_handles v) fi (set_fh_used x false);
        Ret (with_fhs v fhs, ret)
      else
      match free_handle v with
      | None =>
          let '(w, x) := match op_close ops with
                         | Some close => close m x (vworld v)
                         | None => (vworld v, x)
                         end in
          fhs ← aset (file_handles v) fi (set_fh_used x false);
          Ret (with_fhs (with_world v w) fhs, - EMFILE)
      | Some hi =>
          fhs ← aset (file_handles v) fi x;
          hs ← aset (handles v) hi (mkhandle true fd None 0 flags (Some fi) (Some mi));
          Ret (with_handles (with_fhs v fhs) hs, fd)
      end
  end.

Definition vfs_open (filename : list Z) (flags : Z) v : outcome (vfs W * Z) :=
  match find_file v filename with
  | Some i => open_legacy i flags v
  | None =>
      r ← mount_of filename v;
      match r with
      | None => Ret (v, - ENOENT)
      | Some (mi, m, ops, rel) =>
          let '(w, rc) := match op_stat ops with
                          | Some stat => let '(w, (rc, _)) := stat m rel (vworld v) in (w, rc)
                          | None => (vworld v, 0)
                          end in
          let v := with_world v w in
          if negb (rc =? 0) then Ret (v, - ENOENT) else open_mounted mi m ops rel flags v
      end
  end.

Definition vfs_close (fd : Z) v : outcome (vfs W * Z) :=
  if fd <? 3 then Ret (v, 0) else
  match get_handle v fd with
  | None => Ret (v, -1)
  | Some hi =>
      h ← aget (handles v) hi;
      v ← match h_mount h with
          | None => Ret v
          | Some mi =>
              m ← aget (mounts v) mi;
              ops ← mount_ops v m;
              match ops with
              | None => Ret v
              | Some o =>
                  match op_close o, h_fs_private h with
                  | Some close, Some fi =>
                      x ← aget (file_handles v) fi;
                      if fh_used x then
                        let '(w, x) := close m x (vworld v) in
                        fhs ← aset (file_handles v) fi (set_fh_used x false);
                        Ret (with_fhs (with_world v w) fhs)
                      else Ret v
                  | _, _ => Ret v
                  end
              end
          end;
      hs ← aset (handles v) hi (mkhandle false (-1) None (h_position h) (h_flags h) None None);
      Ret (with_handles v hs, 0)
  end.

(** ** Reading, writing and seeking *)

Definition flag_set (flags bit : Z) : bool := negb (Z.land flags bit =? 0).

(** The file behind a handle; [h_file] points into [files]. *)
Definition device_op (f : vfs_file) (op : dev_ops -> option Z) : option Z :=
  if decide (f_type f = VFS_TYPE_DEVICE) then op (f_ops f) else None.

Definition put_handle (hi : Z) h v : outcome (vfs W) :=
  hs ← aset (handles v) hi h; Ret (with_handles v hs).

Definition put_fh (fi : Z) (x : vfs_file_handle) v : outcome (vfs W) :=
  fhs ← aset (file_handles v) fi x; Ret (with_fhs v fhs).

(** The bytes stored in the caller's buffer are the second component. *)
Definition read_legacy (hi : Z) h f (count : Z) v : outcome (vfs W * (Z * list Z)) :=
  match device_op f op_read with
  | Some fn =>
      let '(w, (ret, bytes, pos)) := dev_read fn f count (i64 (h_position h)) (vworld v) in
      v ← put_handle hi (set_position h (u64 pos)) (with_world v w);
      Ret (v, (ret, bytes))
  | None =>
      if f_size f <=? h_position h then Ret (v, (0, [])) else
      let remaining := f_size f - h_position h in
      let to_read := if count <? remaining then count else remaining in
      bytes ← mem_read (f_data f) (h_position h) to_read;
      v ← put_handle hi (set_position h (u64 (h_position h + to_read))) v;
      Ret (v, (i64 to_read, bytes))
  end.

(** [handle->mount && handle->mount->fs && handle->mount->fs->ops]. *)
Definition handle_ops h v : outcome (option (vfs_mount * Z)) :=
  match h_mount h with
  | None => Ret None
  | Some mi =>
      m ← aget (mounts v) mi;
      ops ← mount_ops v m;
      Ret (match ops with Some o => Some (m, o) | None => None end)
  end.

(** [fh && fh->used]. *)
Definition handle_fh h v : outcome (option (Z * vfs_file_handle)) :=
  match h_fs_private h with
  | None => Ret None
  | Some fi =>
      x ← aget (file_handles v) fi;
      Ret (if fh_used x then Some (fi, x) else None)
  end.

(** The position after a transfer of the driver: advanced only when it moved
    something. *)
Definition advance (hi fi : Z) h (x : vfs_file_handle) (result : Z) v : outcome (vfs W) :=
  if 0 <? result then
    let pos := u64 (h_position h + result) in
    v ← put_handle hi (set_position h pos) v;
    put_fh fi (set_fh_position x (i64 pos)) v
  else put_fh fi x v.

Definition read_mounted (hi : Z) h (count : Z) v : outcome (vfs W * (Z * list Z)) :=
  mo ← handle_ops h v;
  match mo with
  | None => Ret (v, (- EIO, []))
  | Some (m, ops) =>
      fo ← handle_fh h v;
      match fo with
      | None => Ret (v, (- EBADF, []))
      | Some (fi, x) =>
          let x := set_fh_position x (i64 (h_position h)) in
          match op_fread ops with
          | None => v ← put_fh fi x v; Ret (v, (- EIO, []))
          | Some read =>
              let '(w, (result, bytes, x)) := read m x count (vworld v) in
              v ← advance hi fi h x result (with_world v w);
              Ret (v, (result, bytes))
          end
      end
  end.

Definition vfs_readfd (fd count : Z) v : outcome (vfs W * (Z * list Z)) :=
  match get_handle v fd with
  | None => Ret (v, (- EBADF, []))
  | Some hi =>
      h ← aget (handles v) hi;
      if negb (flag_set (h_flags h) VFS_READ) then Ret (v, (- EACCES, [])) else
      match h_file h with
      | Some i => f ← aget (files v) i; read_legacy hi h f count v
      | None => read_mounted hi h count v
      end
  end.

Definition write_legacy (hi i : Z) h f (buf : list Z) (count : Z) v : outcome (vfs W * Z) :=
  match device_op f op_write with
  | Some fn =>
      let '(w, (ret, pos)) := dev_write fn f (take (Z.to_nat count) buf)
                                (i64 (h_position h)) (vworld v) in
      v ← put_handle hi (set_position h (u64 pos)) (with_world v w);
      Ret (v, ret)
  | None =>
      let count := if MAX_FILE_SIZE <? u64 (h_position h + count)
                   then u64 (MAX_FILE_SIZE - h_position h) else count in
      if count =? 0 then Ret (v, - ENOSPC) else
      bytes ← mem_read buf 0 count;
      data ← mem_write (f_data f) (h_position h) bytes;
      let pos := u64 (h_position h + count) in
      let size := if f_size f <? pos then pos else f_size f in
      v ← put_handle hi (set_position h pos) v;
      fs ← aset (files v) i
             (mkfile (f_name f) data size (f_used f) (f_type f) (f_ops f) (f_dev_data f));
      Ret (with_files v fs, i64 count)
  end.

Definition write_mounted (hi : Z) h (buf : list Z) (count : Z) v : outcome (vfs W * Z) :=
  mo ← handle_ops h v;
  match mo with
  | None => Ret (v, - EIO)
  | Some (m, ops) =>
      fo ← handle_fh h v;
      match fo with
      | None => Ret (v, - EBADF)
      | Some (fi, x) =>
          let x := set_fh_position x (i64 (h_position h)) in
          match op_fwrite ops with
          | None => v ← put_fh fi x v; Ret (v, - EIO)
          | Some write =>
              let '(w, (result, x)) := write m x (take (Z.to_nat count) buf) (vworld v) in
              v ← advance hi fi h x result (with_world v w);
              Ret (v, result)
          end
      end
  end.

Definition vfs_writefd (fd : Z) (buf : list Z) (count : Z) v : outcome (vfs W * Z) :=
  match get_handle v fd with
  | None => Ret (v, - EBADF)
  | Some hi =>
      h ← aget (handles v) hi;
      if negb (flag_set (h_flags h) VFS_WRITE) then Ret (v, - EACCES) else
      if (fd =? 1) || (fd =? 2) then Ret (v, i64 count) else
      match h_file h with
      | Some i => f ← aget (files v) i; write_legacy hi i h f buf count v
      | None => write_mounted hi h buf count v
      end
  end.

(** The clamping of a new position to [0 .. size]. *)
Definition clamp_seek (size new_pos : Z) : Z :=
  let new_pos := if new_pos <? 0 then 0 else new_pos in
  if size <? u64 new_pos then size else new_pos.

Definition vfs_seek (fd offset whence : Z) v : outcome (vfs W * Z) :=
  match get_handle v fd with
  | None => Ret (v, -1)
  | Some hi =>
      h ← aget (handles v) hi;
      match h_file h with
      | None => Ret (v, -2)
      | Some i =>
          f ← aget (files v) i;
          match device_op f op_seek with
          | Some fn =>
              let '(w, (ret, pos)) := dev_seek fn f offset whence (i64 (h_position h)) (vworld v) in
              v ← put_handle hi (set_position h (u64 pos)) (with_world v w);
              Ret (v, ret)
          | None =>
              if (whence =? VFS_SEEK_SET) || (whence =? VFS_SEEK_CUR) || (whence =? VFS_SEEK_END)
              then
                let target := if whence =? VFS_SEEK_SET then offset
                              else if whence =? VFS_SEEK_CUR then i64 (h_position h + offset)
                              else i64 (f_size f + offset) in
                let new_pos := clamp_seek (f_size f) target in
                v ← put_handle hi (set_position h (u64 new_pos)) v;
                Ret (v, i64 new_pos)
              else Ret (v, -3)
          end
      end
  end.

Definition vfs_ioctl (fd request arg : Z) v : outcome (vfs W * Z) :=
  match get_handle v fd with
  | None => Ret (v, -1)
  | Some hi =>
      h ← aget (handles v) hi;
      match h_file h with
      | None => Ret (v, -2)
      | Some i =>
          f ← aget (files v) i;
          match device_op f op_ioctl with
          | Some fn => let '(w, ret) := dev_ioctl fn f request arg (vworld v) in
                       Ret (with_world v w, ret)
          | None => Ret (v, - ENOTTY)
          end
      end
  end.

(** ** Whole-file operations *)

Definition vfs_create (filename data : list Z) (size : Z) v : outcome (vfs W * Z) :=
  if MAX_FILENAME <=? len filename then Ret (v, -1) else
  if MAX_FILE_SIZE <? size then Ret (v, -2) else
  '(v, fd) ← vfs_open filename (Z.lor (Z.lor VFS_CREAT VFS_WRITE) VFS_TRUNC) v;
  if fd <? 0 then Ret (v, -3) else
  '(v, written) ← vfs_writefd fd data size v;
  '(v, _) ← vfs_close fd v;
  if negb (written =? i64 size) then Ret (v, -4) else
  Ret (v, match find_file v filename with Some i => i | None => -5 end).

(** [buffer] is the function's static array; the result is its new contents
    and the number of bytes, [None] for a NULL return. *)
Definition vfs_read (filename buffer : list Z) v : outcome (vfs W * list Z * option Z) :=
  '(v, fd) ← vfs_open filename VFS_READ v;
  if fd <? 0 then Ret (v, buffer, None) else
  '(v, (n, bytes)) ← vfs_readfd fd (MAX_FILE_SIZE - 1) v;
  buffer ← mem_write buffer 0 bytes;
  '(v, _) ← vfs_close fd v;
  if n <? 0 then Ret (v, buffer, None) else
  buffer ← aset buffer n 0;
  Ret (v, buffer, Some n).

(** ** Removing *)

Definition release_handle h : vfs_handle :=
  mkhandle false (-1) None (h_position h) (h_flags h) (h_fs_private h) (h_mount h).

Definition reset_handle h : vfs_handle :=
  mkhandle false (-1) None 0 0 (h_fs_private h) (h_mount h).

Definition uses_file (i : Z) h : bool := h_used h && bool_decide (h_file h = Some i).

(** Every used handle of file [i] goes through [g]. *)
Definition drop_handles (g : vfs_handle -> vfs_handle) (i : Z) (hs : list vfs_handle)
  : list vfs_handle := map (fun h => if uses_file i h then g h else h) hs.

Definition delete_legacy (filename : list Z) v : outcome (vfs W * Z) :=
  match find_file v filename with
  | None => Ret (v, - ENOENT)
  | Some i =>
      let hs := drop_handles release_handle i (handles v) in
      f ← aget (files v) i;
      f ← wipe_file f;
      fs ← aset (files v) i f;
      Ret (with_handles (with_files v fs) hs, 0)
  end.

Definition vfs_delete (filename : list Z) v : outcome (vfs W * Z) :=
  r ← mount_of filename v;
  match r with
  | Some (_, m, ops, rel) =>
      match op_unlink ops with
      | Some unlink => let '(w, ret) := unlink m rel (vworld v) in Ret (with_world v w, ret)
      | None => delete_legacy filename v
      end
  | None => delete_legacy filename v
  end.

(** The directory's name with a trailing slash, in a [char[MAX_FILENAME]]. *)
Definition normalized_dir (dirname : list Z) : outcome (list Z) :=
  c ← aget dirname (len dirname - 1);
  if c =? SLASH then Ret dirname
  else strcpy_into MAX_FILENAME (dirname ++ [SLASH]).

Fixpoint rmdir_loop (dir : list Z) (dir_idx : Z) (fs : list vfs_file) (i : Z)
    (hs : list vfs_handle) : outcome (list vfs_file * list vfs_handle) :=
  match fs with
  | [] => Ret ([], hs)
  | f :: fs' =>
      if f_used f && negb (i =? dir_idx) && (len dir <? len (f_name f))
         && has_prefix dir (f_name f)
      then
        let hs := drop_handles reset_handle i hs in
        f ← wipe_file f;
        '(fs', hs) ← rmdir_loop dir dir_idx fs' (i + 1) hs;
        Ret (f :: fs', hs)
      else
        '(fs', hs) ← rmdir_loop dir dir_idx fs' (i + 1) hs;
        Ret (f :: fs', hs)
  end.

Definition vfs_rmdir (dirname : list Z) v : outcome (vfs W * Z) :=
  if MAX_FILENAME <=? len dirname then Ret (v, -1) else
  match find_file v dirname with
  | None => Ret (v, - ENOENT)
  | Some i =>
      f ← aget (files v) i;
      if decide (f_type f = VFS_TYPE_DIR) then
        if str_eq dirname [SLASH] then Ret (v, - EBUSY) else
        dir ← normalized_dir dirname;
        '(fs, hs) ← rmdir_loop dir i (files v) 0 (handles v);
        let hs := drop_handles reset_handle i hs in
        f ← aget fs i;
        f ← wipe_file f;
        fs ← aset fs i f;
        Ret (with_handles (with_files v fs) hs, 0)
      else Ret (v, - ENOTDIR)
  end.

(** ** Queries *)

Definition vfs_exists (filename : list Z) v : outcome (vfs W * bool) :=
  match find_file v filename with
  | Some _ => Ret (v, true)
  | None =>
      r ← mount_of filename v;
      match r with
      | None => Ret (v, false)
      | Some (_, m, ops, rel) =>
          match op_stat ops with
          | None => Ret (v, false)
          | Some stat => let '(w, (rc, _)) := stat m rel (vworld v) in
                         Ret (with_world v w, rc =? 0)
          end
      end
  end.

Definition file_has_type (t : vfs_file_type) (path : list Z) v : outcome bool :=
  match find_file v path with
  | None => Ret false
  | Some i => f ← aget (files v) i; Ret (bool_decide (f_type f = t))
  end.

Definition vfs_is_dir (path : list Z) v : outcome bool := file_has_type VFS_TYPE_DIR path v.
Definition vfs_is_device (path : list Z) v : outcome bool := file_has_type VFS_TYPE_DEVICE path v.
Definition vfs_count v : Z := len (filter (fun f => f_used f) (files v)).

(** [VFS_S_IF... | 0755], 0666 and 0644. *)
Definition file_mode (t : vfs_file_type) : Z :=
  match t with
  | VFS_TYPE_DIR => Z.lor 0x4000 493
  | VFS_TYPE_DEVICE => Z.lor 0x2000 438
  | VFS_TYPE_FILE => Z.lor 0x8000 420
  end.

(** [stat] is the caller's structure; the result holds its new contents. *)
Definition vfs_stat (path : option (list Z)) (stat : option vfs_stat_t) v
  : outcome (vfs W * (Z * option vfs_stat_t)) :=
  match path, stat with
  | Some path, Some st =>
      let legacy :=
        match find_file v path with
        | None => Ret (v, (- ENOENT, Some st))
        | Some i =>
            f ← aget (files v) i;
            Ret (v, (0, Some (mkstat (file_mode (f_type f)) (i64 (f_size f)) 512 0)))
        end in
      r ← mount_of path v;
      match r with
      | None => legacy
      | Some (_, m, ops, rel) =>
          match op_stat ops with
          | None => legacy
          | Some op => let '(w, (rc, st)) := op m rel (vworld v) in
                       Ret (with_world v w, (rc, Some st))
          end
      end
  | _, _ => Ret (v, (- EINVAL, stat))
  end.

(** ** File-system drivers and mounts *)

Definition find_registered v (name : list Z) : option Z :=
  first_index (fun r => fs_registered r && str_eq (fs_name r) name) (registered_fs v).

Definition vfs_find_filesystem (name : option (list Z)) v : option Z :=
  match name with None => None | Some name => find_registered v name end.

Definition vfs_register_filesystem (name : option (list Z)) (ops : option Z) (flags : Z) v
  : outcome (vfs W * Z) :=
  match name, ops with
  | Some name, Some ops =>
      if MAX_FS_NAME <=? len name then Ret (v, - EINVAL) else
      match find_registered v name with
      | Some _ => Ret (v, - EEXIST)
      | None =>
          match first_index (fun r => negb (fs_registered r)) (registered_fs v) with
          | None => Ret (v, - ENOMEM)
          | Some i =>
              name ← strcpy_into MAX_FS_NAME name;
              rs ← aset (registered_fs v) i (mkfs name (Some ops) flags true);
              Ret (with_registered v rs, 0)
          end
      end
  | _, _ => Ret (v, - EINVAL)
  end.

Definition vfs_unregister_filesystem (name : option (list Z)) v : outcome (vfs W * Z) :=
  match name with
  | None => Ret (v, - EINVAL)
  | Some name =>
      match find_registered v name with
      | None => Ret (v, - ENOENT)
      | Some i =>
          if existsb (fun m => m_mounted m && bool_decide (m_fs m = Some i)) (mounts v)
          then Ret (v, - EBUSY) else
          r ← aget (registered_fs v) i;
          rs ← aset (registered_fs v) i (mkfs (fs_name r) None (fs_flags r) false);
          Ret (with_registered v rs, 0)
      end
  end.

Definition find_mount_point v (mp : list Z) : option Z :=
  first_index (fun m => m_mounted m && str_eq (m_point m) mp) (mounts v).

Definition set_mounted (m : vfs_mount) (private : Z) (b : bool) : vfs_mount :=
  mkmount (m_point m) (m_device m) (m_fs m) private (m_flags m) b (m_ref_count m).

Definition vfs_mount_fs (fs_name mount_point device : option (list Z)) (flags data : Z) v
  : outcome (vfs W * Z) :=
  match fs_name, mount_point with
  | Some fs_name, Some mount_point =>
      if MAX_MOUNT_PATH <=? len mount_point then Ret (v, - EINVAL) else
      '(v, mkdir_result) ← vfs_mkdir mount_point v;
      if (mkdir_result <? 0) && negb (mkdir_result =? - EEXIST) then Ret (v, mkdir_result) else
      match vfs_find_filesystem (Some fs_name) v with
      | None => Ret (v, - ENODEV)
      | Some ri =>
          match find_mount_point v mount_point with
          | Some _ => Ret (v, - EBUSY)
          | None =>
              match first_index (fun m => negb (m_mounted m)) (mounts v) with
              | None => Ret (v, - ENOMEM)
              | Some mi =>
                  m ← aget (mounts v) mi;
                  mp ← strcpy_into MAX_MOUNT_PATH mount_point;
                  dev ← match device with
                        | Some d => strcpy_into MAX_MOUNT_PATH d
                        | None => Ret []
                        end;
                  let m := mkmount mp dev (Some ri) 0 flags (m_mounted m) 0 in
                  ops ← mount_ops v m;
                  let '(w, (result, private)) :=
                    match ops with
                    | Some o => match op_mount o with
                                | Some mount => mount m device data (vworld v)
                                | None => (vworld v, (0, 0))
                                end
                    | None => (vworld v, (0, 0))
                    end in
                  let v := with_world v w in
                  if result <? 0 then
                    ms ← aset (mounts v) mi (set_mounted m private false);
                    Ret (with_mounts v ms, result)
                  else
                    ms ← aset (mounts v) mi (set_mounted m private true);
                    Ret (with_mounts v ms, 0)
              end
          end
      end
  | _, _ => Ret (v, - EINVAL)
  end.

Definition vfs_umount (mount_point : option (list Z)) v : outcome (vfs W * Z) :=
  match mount_point with
  | None => Ret (v, - EINVAL)
  | Some mp =>
      match find_mount_point v mp with
      | None => Ret (v, - ENOENT)
      | Some mi =>
          m ← aget (mounts v) mi;
          if 0 <? m_ref_count m then Ret (v, - EBUSY) else
          ops ← mount_ops v m;
          let '(w, result) :=
            match ops with
            | Some o => match op_unmount o with
                        | Some unmount => unmount m (vworld v)
                        | None => (vworld v, 0)
                        end
            | None => (vworld v, 0)
            end in
          let v := with_world v w in
          if result <? 0 then Ret (v, result) else
          ms ← aset (mounts v) mi
                 (mkmount (m_point m) (m_device m) None 0 (m_flags m) false (m_ref_count m));
          Ret (with_mounts v ms, 0)
      end
  end.

(** ** Listing a directory *)

Definition is_root (path : list Z) : bool := str_eq path [SLASH].

Definition slashes (s : list Z) : Z := len (filter (fun c => c = SLASH) s).

Definition put_entry (entries : list vfs_dirent) (count : Z) (name : list Z) (type : Z)
  : outcome (list vfs_dirent) :=
  name ← strcpy_into MAX_FILENAME name;
  aset entries count (mkdirent name type).

(** The name below [path] of a direct child, in the file table. *)
Definition child_name (path name : list Z) : option (list Z) :=
  if is_root path then
    if bool_decide (head name = Some SLASH) && (1 <? len name) && (slashes (drop 1 name) =? 0)
    then Some (drop 1 name) else None
  else
    if (len path <? len name) && bool_decide (name !! length path = Some SLASH)
       && has_prefix path name && (slashes (drop (S (length path)) name) =? 0)
    then Some (drop (S (length path)) name) else None.

Fixpoint readdir_files (path : list Z) (max_entries : Z) (fs : list vfs_file)
    (entries : list vfs_dirent) (count : Z) : outcome (list vfs_dirent * Z) :=
  match fs with
  | [] => Ret (entries, count)
  | f :: fs' =>
      if negb (count <? max_entries) then Ret (entries, count) else
      if negb (f_used f) then readdir_files path max_entries fs' entries count else
      match child_name path (f_name f) with
      | None => readdir_files path max_entries fs' entries count
      | Some base =>
          entries ← put_entry entries count base (type_code (f_type f));
          readdir_files path max_entries fs' entries (count + 1)
      end
  end.

(** The characters before the next slash. *)
Fixpoint until_slash (s : list Z) : list Z :=
  match s with
  | [] => []
  | c :: s' => if c =? SLASH then [] else c :: until_slash s'
  end.

(** The component of a mount point just below [path]; the copy into the
    static array stops at index [MAX_FILENAME - 1] of its loop variable. *)
Definition mount_component (path mp : list Z) : option (list Z) :=
  if is_root path then
    if bool_decide (head mp = Some SLASH) && (1 <? len mp)
    then Some (take (Z.to_nat (MAX_FILENAME - 2)) (until_slash (drop 1 mp))) else None
  else
    if (len path <? len mp) && has_prefix path mp && bool_decide (mp !! length path = Some SLASH)
    then Some (take (Z.to_nat (MAX_FILENAME - 1)) (until_slash (drop (S (length path)) mp)))
    else None.

Fixpoint readdir_mounts (path : list Z) (max_entries : Z) (ms : list vfs_mount)
    (entries : list vfs_dirent) (count : Z) : outcome (list vfs_dirent * Z) :=
  match ms with
  | [] => Ret (entries, count)
  | m :: ms' =>
      if negb (m_mounted m) then readdir_mounts path max_entries ms' entries count else
      match mount_component path (m_point m) with
      | None => readdir_mounts path max_entries ms' entries count
      | Some base =>
          if existsb (fun e => str_eq (d_name e) base) (take (Z.to_nat count) entries)
          then readdir_mounts path max_entries ms' entries count
          else if count <? i32 max_entries then
            entries ← put_entry entries count base (type_code VFS_TYPE_DIR);
            readdir_mounts path max_entries ms' entries (count + 1)
          else readdir_mounts path max_entries ms' entries count
      end
  end.

(** A trailing slash is dropped, except from "/". *)
Definition normalized_path (path : list Z) : outcome (list Z) :=
  p ← strcpy_into MAX_FILENAME path;
  Ret (if (1 <? len p) && bool_decide (last p = Some SLASH) then removelast p else p).

Fixpoint put_entries (entries : list vfs_dirent) (i : Z) (es : list vfs_dirent)
  : outcome (list vfs_dirent) :=
  match es with
  | [] => Ret entries
  | e :: es' => entries ← aset entries i e; put_entries entries (i + 1) es'
  end.

(** [entries] is the caller's array. *)
Definition vfs_readdir (path : option (list Z)) (entries : option (list vfs_dirent))
    (max_entries : Z) v : outcome (vfs W * Z * option (list vfs_dirent)) :=
  match path, entries with
  | Some path, Some es =>
      if max_entries =? 0 then Ret (v, - EINVAL, entries) else
      let legacy :=
        p ← normalized_path path;
        '(es, count) ← readdir_files p max_entries (files v) es 0;
        Ret (v, es, count) in
      r ← mount_of path v;
      '(v, es, count) ←
        match r with
        | None => legacy
        | Some (_, m, ops, rel) =>
            match op_readdir ops with
            | None => legacy
            | Some readdir =>
                let '(w, (n, stored)) := readdir m rel max_entries (vworld v) in
                es ← put_entries es 0 stored;
                Ret (with_world v w, es, if 0 <? n then n else 0)
            end
        end;
      if count <? i32 max_entries then
        '(es, count) ← readdir_mounts path max_entries (mounts v) es count;
        Ret (v, count, Some es)
      else Ret (v, count, Some es)
  | _, _ => Ret (v, - EINVAL, entries)
  end.

End Vfs.
