(* ===== verification/VfsProofs.v ===== *)
(** * The virtual file system: invariant and descriptor table

    The well-formedness invariant [vfs_wf] of the tables of vfs.c, the view of
    [handles] as a map from descriptors to open files, and for every operation
    the lemma that it runs without fault, keeps the invariant and changes the
    descriptor table as its contract says. *)

From S2P Require Import Prelude Vfs.

(** ** The descriptor table *)

Definition owns_fd (fd : Z) (h : vfs_handle) : bool := h_used h && (h_fd h =? fd).

(** The handle a descriptor names. *)
Definition find_fd (hs : list vfs_handle) (fd : Z) : option vfs_handle :=
  i ← first_index (owns_fd fd) hs; hs !! Z.to_nat i.

Definition fds_distinct (hs : list vfs_handle) : Prop :=
  forall i j h h', hs !! i = Some h -> hs !! j = Some h' ->
  h_used h = true -> h_used h' = true -> h_fd h = h_fd h' -> i = j.

Lemma owns_fd_spec fd h : owns_fd fd h = true <-> h_used h = true /\ h_fd h = fd.
Proof. unfold owns_fd. rewrite andb_true_iff, Z.eqb_eq. done. Qed.

Lemma find_fd_None hs fd :
  find_fd hs fd = None <-> forall i h, hs !! i = Some h -> h_used h = true -> h_fd h <> fd.
Proof.
  unfold find_fd. destruct (first_index (owns_fd fd) hs) as [i|] eqn:E; simpl.
  - apply first_index_Some in E as (Hi & h & Hh & Ho & _). rewrite Hh.
    apply owns_fd_spec in Ho as [Hu Hf]. split; [done|]. intros H. by destruct (H _ _ Hh Hu).
  - apply first_index_None in E. rewrite Forall_lookup in E. split; [|done]. intros _ i h Hh Hu Hf.
    specialize (E i h Hh). rewrite (proj2 (owns_fd_spec fd h)) in E; [done|by split].
Qed.

Lemma find_fd_Some hs fd h :
  fds_distinct hs ->
  find_fd hs fd = Some h <-> exists i, hs !! i = Some h /\ h_used h = true /\ h_fd h = fd.
Proof.
  intros Hd. unfold find_fd. split.
  - destruct (first_index (owns_fd fd) hs) as [i|] eqn:E; simpl; [|done].
    apply first_index_Some in E as (Hi & h' & Hh & Ho & _). rewrite Hh. intros [= <-].
    apply owns_fd_spec in Ho. naive_solver.
  - intros (i & Hh & Hu & Hf).
    destruct (first_index (owns_fd fd) hs) as [j|] eqn:E; simpl.
    + apply first_index_Some in E as (Hi & h' & Hh' & [Hu' Hf']%owns_fd_spec & _).
      rewrite Hh'. rewrite (Hd _ _ _ _ Hh Hh' Hu Hu' ltac:(congruence)) in Hh. congruence.
    + apply first_index_None in E. rewrite Forall_lookup in E. specialize (E i h Hh).
      rewrite (proj2 (owns_fd_spec fd h)) in E; [done|by split].
Qed.

(** Replacing a free slot by a used handle with a fresh descriptor. *)
Lemma fds_insert_fresh hs i h0 h :
  fds_distinct hs -> hs !! i = Some h0 -> h_used h0 = false -> h_used h = true ->
  find_fd hs (h_fd h) = None ->
  fds_distinct (<[i := h]> hs) /\
  forall fd, find_fd (<[i := h]> hs) fd = if fd =? h_fd h then Some h else find_fd hs fd.
Proof.
  intros Hd Hi Hu0 Hu Hn. rewrite find_fd_None in Hn.
  assert (Hd' : fds_distinct (<[i := h]> hs)).
  { intros a b x y Hx Hy Hux Huy Hxy.
    apply list_lookup_insert_Some in Hx as [(-> & <- & _)|[Ha Hx]];
      apply list_lookup_insert_Some in Hy as [(-> & <- & _)|[Hb Hy]]; [done|..].
    - by destruct (Hn _ _ Hy Huy).
    - by destruct (Hn _ _ Hx Hux).
    - by eapply Hd. }
  split; [done|]. intros fd. apply lookup_lt_Some in Hi as Hlt.
  destruct (Z.eqb_spec fd (h_fd h)) as [->|Hne].
  - apply find_fd_Some; [done|]. exists i. by rewrite list_lookup_insert_eq.
  - apply option_eq. intros x. rewrite !find_fd_Some by done. split; intros (j & Hj & Hux & Hf).
    + apply list_lookup_insert_Some in Hj as [(-> & <- & _)|[Ha Hj]]; [done|]. by exists j.
    + exists j. rewrite list_lookup_insert_ne; [done|]. intros ->. congruence.
Qed.

(** Updating a used handle in place. *)
Lemma fds_update hs i h0 h :
  fds_distinct hs -> hs !! i = Some h0 -> h_used h0 = true -> h_used h = true ->
  h_fd h = h_fd h0 ->
  fds_distinct (<[i := h]> hs) /\
  forall fd, find_fd (<[i := h]> hs) fd = if fd =? h_fd h0 then Some h else find_fd hs fd.
Proof.
  intros Hd Hi Hu0 Hu Hf0. apply lookup_lt_Some in Hi as Hlt.
  assert (Hd' : fds_distinct (<[i := h]> hs)).
  { intros a b x y Hx Hy Hux Huy Hxy.
    apply list_lookup_insert_Some in Hx as [(-> & <- & _)|[Ha Hx]];
      apply list_lookup_insert_Some in Hy as [(-> & <- & _)|[Hb Hy]]; [done|..].
    - by apply (Hd _ _ _ _ Hi Hy); [..|congruence].
    - by apply (Hd _ _ _ _ Hx Hi); [..|congruence].
    - by eapply Hd. }
  split; [done|]. intros fd.
  destruct (Z.eqb_spec fd (h_fd h0)) as [->|Hne].
  - apply find_fd_Some; [done|]. exists i. by rewrite list_lookup_insert_eq.
  - apply option_eq. intros x. rewrite !find_fd_Some by done. split; intros (j & Hj & Hux & Hf).
    + apply list_lookup_insert_Some in Hj as [(-> & <- & _)|[Ha Hj]]; [congruence|]. by exists j.
    + exists j. rewrite list_lookup_insert_ne; [done|]. intros ->. congruence.
Qed.

(** Releasing the handles that satisfy [p]. *)
Lemma fds_drop hs (g : vfs_handle -> vfs_handle) (p : vfs_handle -> bool) :
  fds_distinct hs -> (forall h, h_used (g h) = false) ->
  fds_distinct (map (fun h => if p h then g h else h) hs) /\
  forall fd, find_fd (map (fun h => if p h then g h else h) hs) fd
           = h ← find_fd hs fd; if p h then None else Some h.
Proof.
  intros Hd Hg. set (hs' := map _ hs).
  assert (Hl : forall j x, hs' !! j = Some x -> h_used x = true -> p x = false /\ hs !! j = Some x).
  { intros j x. unfold hs'. change (map ?f hs) with (f <$> hs). rewrite list_lookup_fmap.
    destruct (hs !! j) as [y|]; simpl; [|done]. destruct (p y) eqn:Hp; intros [= <-] Hu; [|done].
    by rewrite Hg in Hu. }
  assert (Hr : forall j x, hs !! j = Some x -> p x = false -> hs' !! j = Some x).
  { intros j x Hj Hp. unfold hs'. change (map ?f hs) with (f <$> hs).
    rewrite list_lookup_fmap, Hj. simpl. by rewrite Hp. }
  assert (Hd' : fds_distinct hs').
  { intros a b x y Hx Hy Hux Huy Hxy. apply Hl in Hx as [_ Hx]; [|done]. apply Hl in Hy as [_ Hy]; [|done].
    by eapply Hd. }
  split; [done|]. intros fd. apply option_eq. intros x. rewrite find_fd_Some by done.
  rewrite bind_Some. setoid_rewrite find_fd_Some; [|done]. split.
  - intros (j & Hj & Hu & Hf). destruct (Hl _ _ Hj Hu) as [Hp Hj']. exists x. rewrite Hp. naive_solver.
  - intros (y & (j & Hj & Hu & Hf) & Hy). destruct (p y) eqn:Hp; simplify_eq. exists j. auto.
Qed.

(** Releasing one slot. *)
Lemma fds_remove hs i h0 h :
  fds_distinct hs -> hs !! i = Some h0 -> h_used h0 = true -> h_used h = false ->
  fds_distinct (<[i := h]> hs) /\
  forall fd, find_fd (<[i := h]> hs) fd = if fd =? h_fd h0 then None else find_fd hs fd.
Proof.
  intros Hd Hi Hu0 Hu. apply lookup_lt_Some in Hi as Hlt.
  assert (Hd' : fds_distinct (<[i := h]> hs)).
  { intros a b x y Hx Hy Hux Huy Hxy.
    apply list_lookup_insert_Some in Hx as [(-> & <- & _)|[Ha Hx]]; [congruence|].
    apply list_lookup_insert_Some in Hy as [(-> & <- & _)|[Hb Hy]]; [congruence|]. by eapply Hd. }
  split; [done|]. intros fd. apply option_eq. intros x. rewrite find_fd_Some by done.
  destruct (Z.eqb_spec fd (h_fd h0)) as [->|Hne].
  - split; [|done]. intros (j & Hj & Hux & Hf).
    apply list_lookup_insert_Some in Hj as [(-> & <- & _)|[Ha Hj]]; [congruence|].
    destruct Ha. by eapply Hd.
  - rewrite find_fd_Some by done. split; intros (j & Hj & Hux & Hf).
    + apply list_lookup_insert_Some in Hj as [(-> & <- & _)|[Ha Hj]]; [congruence|]. by exists j.
    + exists j. rewrite list_lookup_insert_ne; [done|]. intros ->. congruence.
Qed.

(** A free slot that stays free is invisible. *)
Lemma fds_free hs i h0 h :
  fds_distinct hs -> hs !! i = Some h0 -> h_used h0 = false -> h_used h = false ->
  fds_distinct (<[i := h]> hs) /\ forall fd, find_fd (<[i := h]> hs) fd = find_fd hs fd.
Proof.
  intros Hd Hi Hu0 Hu. assert (Hd' : fds_distinct (<[i := h]> hs)).
  { intros a b x y Hx Hy Hux Huy Hxy.
    apply list_lookup_insert_Some in Hx as [(-> & <- & _)|[Ha Hx]]; [congruence|].
    apply list_lookup_insert_Some in Hy as [(-> & <- & _)|[Hb Hy]]; [congruence|]. by eapply Hd. }
  split; [done|]. intros fd. apply option_eq. intros x. rewrite !find_fd_Some by done.
  split; intros (j & Hj & Hux & Hf).
  - apply list_lookup_insert_Some in Hj as [(-> & <- & _)|[Ha Hj]]; [congruence|]. by exists j.
  - exists j. rewrite list_lookup_insert_ne; [done|]. intros ->. congruence.
Qed.

(** ** The invariant *)

Record file_ok (f : vfs_file) : Prop := {
  fo_data : len (f_data f) = MAX_FILE_SIZE;
  fo_size : 0 <= f_size f <= MAX_FILE_SIZE;
  fo_name : len (f_name f) < MAX_FILENAME
}.

(** What an open handle may point to: a used entry of the file table, at a
    position inside it unless a driver's own write function handles it. *)
Definition file_ref_ok (fs : list vfs_file) (h : vfs_handle) : Prop :=
  forall i, h_file h = Some i ->
  0 <= i /\ exists f, fs !! Z.to_nat i = Some f /\ f_used f = true /\
  (device_op f op_write = None -> h_position h <= MAX_FILE_SIZE).

Record handle_ok (fs : list vfs_file) (h : vfs_handle) : Prop := {
  ho_mount : forall m, h_mount h = Some m -> 0 <= m < MAX_MOUNTS;
  ho_private : forall x, h_fs_private h = Some x -> 0 <= x < MAX_HANDLES;
  ho_position : in_u 64 (h_position h);
  ho_fd : h_used h = true -> 0 <= h_fd h;
  ho_file : h_used h = true -> file_ref_ok fs h
}.

Definition names_distinct (fs : list vfs_file) : Prop :=
  forall i j f g, fs !! i = Some f -> fs !! j = Some g ->
  f_used f = true -> f_used g = true -> f_name f = f_name g -> i = j.

Record files_wf (fs : list vfs_file) : Prop := {
  fw_len : len fs = MAX_FILES;
  fw_ok : Forall file_ok fs;
  fw_names : names_distinct fs
}.

Record handles_wf (fs : list vfs_file) (hs : list vfs_handle) : Prop := {
  hw_len : len hs = MAX_HANDLES;
  hw_ok : Forall (handle_ok fs) hs;
  hw_fds : fds_distinct hs
}.

(** A mounted file system is a registered one, with its operation table, and
    nothing ever counts a reference to it. *)
Record mount_ok (rs : list vfs_filesystem) (m : vfs_mount) : Prop := {
  mo_point : len (m_point m) < MAX_MOUNT_PATH;
  mo_fs : forall i, m_fs m = Some i -> 0 <= i < MAX_REGISTERED_FS;
  mo_mounted : m_mounted m = true -> m_ref_count m = 0 /\
    exists i r, m_fs m = Some i /\ rs !! Z.to_nat i = Some r /\ fs_registered r = true
                /\ is_Some (fs_ops r)
}.

Definition points_distinct (ms : list vfs_mount) : Prop :=
  forall i j m m', ms !! i = Some m -> ms !! j = Some m' ->
  m_mounted m = true -> m_mounted m' = true -> m_point m = m_point m' -> i = j.

Record mounts_wf (rs : list vfs_filesystem) (ms : list vfs_mount) : Prop := {
  mw_len : len ms = MAX_MOUNTS;
  mw_ok : Forall (mount_ok rs) ms;
  mw_points : points_distinct ms
}.

Record regs_wf (rs : list vfs_filesystem) : Prop := {
  rw_len : len rs = MAX_REGISTERED_FS;
  rw_ops : Forall (fun r => fs_registered r = true -> is_Some (fs_ops r)) rs
}.

Record vfs_wf {W} (v : vfs W) : Prop := {
  wf_files : files_wf (files v);
  wf_handles : handles_wf (files v) (handles v);
  wf_next_fd : 3 <= next_fd v <= MAX_HANDLES + 3;
  wf_regs : regs_wf (registered_fs v);
  wf_mounts : mounts_wf (registered_fs v) (mounts v);
  wf_fhs : len (file_handles v) = MAX_HANDLES
}.

(** What the VFS relies on in its drivers: a transfer moves no more than it
    was asked to, a listing stores no more than the array holds, and a device
    without a write function keeps its positions inside the data array. *)
Class VfsEnvOk (W : Type) `{VE : VfsEnv W} : Prop := {
  dev_read_ok : forall fn f count pos w w' ret bytes pos',
    dev_read fn f count pos w = (w', (ret, bytes, pos')) -> 0 <= count ->
    ret <= count /\ len bytes <= count /\
    (op_write (f_ops f) = None -> 0 <= pos <= MAX_FILE_SIZE -> 0 <= pos' <= MAX_FILE_SIZE);
  dev_seek_ok : forall fn f offset whence pos w w' ret pos',
    dev_seek fn f offset whence pos w = (w', (ret, pos')) ->
    op_write (f_ops f) = None -> 0 <= pos <= MAX_FILE_SIZE -> 0 <= pos' <= MAX_FILE_SIZE;
  op_fread_ok : forall o read m x count w w' ret bytes x',
    op_fread o = Some read -> read m x count w = (w', (ret, bytes, x')) -> 0 <= count ->
    ret <= count /\ len bytes <= count;
  op_readdir_ok : forall o readdir m rel max w w' n stored,
    op_readdir o = Some readdir -> readdir m rel max w = (w', (n, stored)) -> 0 <= max ->
    n <= len stored /\ len stored <= max
}.

(** ** Lookups in a well-formed state *)

Section Lookups.
Context {W : Type}.
Implicit Types (v : vfs W).

Lemma find_file_Some v name i :
  find_file v name = Some i ->
  0 <= i /\ exists f, files v !! Z.to_nat i = Some f /\ f_used f = true /\ f_name f = name.
Proof.
  intros (Hi & f & Hf & [Hu Hn]%andb_true_iff & _)%first_index_Some.
  apply bool_decide_eq_true in Hn. split; [lia|]. eauto.
Qed.

Lemma find_file_None v name :
  find_file v name = None <-> forall i f, files v !! i = Some f -> f_used f = true -> f_name f <> name.
Proof.
  unfold find_file. rewrite first_index_None, Forall_lookup. split; intros H i f Hf.
  - intros Hu. specialize (H i f Hf). rewrite Hu in H. by apply bool_decide_eq_false in H.
  - destruct (f_used f) eqn:Hu; [|done]. apply bool_decide_eq_false. by eapply H.
Qed.

Lemma find_file_iff v name i :
  files_wf (files v) -> 0 <= i ->
  find_file v name = Some i <->
  exists f, files v !! Z.to_nat i = Some f /\ f_used f = true /\ f_name f = name.
Proof.
  intros Hw Hi. split; [intros H; by apply find_file_Some in H as [_ H]|].
  intros (f & Hf & Hu & Hn). destruct (find_file v name) as [j|] eqn:E.
  - apply find_file_Some in E as (Hj & g & Hg & Hug & Hng).
    f_equal. assert (Z.to_nat i = Z.to_nat j); [|lia].
    eapply (fw_names _ Hw); eauto. congruence.
  - exfalso. rewrite find_file_None in E. by eapply E.
Qed.

Lemma get_handle_find v fd :
  find_fd (handles v) fd = (i ← get_handle v fd; handles v !! Z.to_nat i).
Proof. done. Qed.

Lemma get_handle_Some v fd i :
  get_handle v fd = Some i ->
  0 <= i < len (handles v) /\
  exists h, handles v !! Z.to_nat i = Some h /\ h_used h = true /\ h_fd h = fd /\
            find_fd (handles v) fd = Some h.
Proof.
  intros E. apply first_index_Some in E as H. destruct H as (Hi & h & Hh & Ho & _).
  apply owns_fd_spec in Ho as [Hu Hf]. split; [done|]. exists h.
  rewrite get_handle_find, E. done.
Qed.

Lemma get_handle_None v fd : get_handle v fd = None <-> find_fd (handles v) fd = None.
Proof.
  rewrite get_handle_find. destruct (get_handle v fd) as [i|] eqn:E; simpl; [|done].
  apply get_handle_Some in E as (_ & h & -> & _). done.
Qed.

Lemma fd_taken_spec v fd : fd_taken v fd = true <-> find_fd (handles v) fd <> None.
Proof.
  unfold fd_taken. rewrite find_fd_None, existsb_exists. split.
  - intros (h & Hin & [Hu Hf]%andb_true_iff) H. apply Z.eqb_eq in Hf.
    apply list_elem_of_In, list_elem_of_lookup in Hin as [i Hi]. by destruct (H i h Hi Hu).
  - intros H. destruct (existsb (owns_fd fd) (handles v)) eqn:E.
    + apply existsb_exists in E as (h & ? & ?). by exists h.
    + destruct H. intros i h Hi Hu Hf. apply not_true_iff_false in E. apply E.
      apply existsb_exists. exists h. split; [by eapply list_elem_of_In, list_elem_of_lookup_2|].
      by apply owns_fd_spec.
Qed.

Lemma free_handle_Some v i :
  free_handle v = Some i ->
  0 <= i < len (handles v) /\ exists h, handles v !! Z.to_nat i = Some h /\ h_used h = false.
Proof.
  intros (Hi & h & Hh & Hu%negb_true_iff & _)%first_index_Some. eauto.
Qed.

Lemma free_file_Some v i :
  free_file v = Some i ->
  0 <= i < len (files v) /\ exists f, files v !! Z.to_nat i = Some f /\ f_used f = false.
Proof. intros (Hi & h & Hh & Hu%negb_true_iff & _)%first_index_Some. eauto. Qed.

Lemma free_fh_Some v i :
  free_fh v = Some i ->
  0 <= i < len (file_handles v) /\
  exists x, file_handles v !! Z.to_nat i = Some x /\ fh_used x = false.
Proof. intros (Hi & h & Hh & Hu%negb_true_iff & _)%first_index_Some. eauto. Qed.

(** ** Allocating a descriptor *)

Lemma scan_fd_Some v n : forall i fd,
  scan_fd v i n = Some fd -> i <= fd < i + Z.of_nat n /\ find_fd (handles v) fd = None.
Proof.
  induction n as [|n IH]; intros i fd; cbn [scan_fd]; [done|].
  destruct (existsb _ _) eqn:?; [intros H%IH; destruct H; split; [lia|done]|].
  destruct (fd_taken v i) eqn:E; [intros H%IH; destruct H; split; [lia|done]|].
  intros [= <-]. split; [lia|]. destruct (find_fd (handles v) i) eqn:F; [|done].
  apply not_true_iff_false in E. destruct E. apply fd_taken_spec. by rewrite F.
Qed.

Lemma scan_fd_None v n : forall i,
  scan_fd v i n = None -> i + Z.of_nat n <= 1000 ->
  forall fd, i <= fd < i + Z.of_nat n -> fd_taken v fd = true.
Proof.
  induction n as [|n IH]; intros i; cbn [scan_fd]; [lia|].
  assert (Hres : i < 1000 -> existsb (Z.eqb i) reserved_fds = false).
  { intros. apply not_true_iff_false. rewrite existsb_exists. intros (x & Hin & <-%Z.eqb_eq).
    simpl in Hin. lia. }
  intros H Hle fd Hfd. rewrite Hres in H by lia.
  destruct (fd_taken v i) eqn:E; [|done].
  destruct (Z.eq_dec fd i) as [->|Hne]; [done|]. apply (IH _ H); lia.
Qed.

Lemma allocate_fd_fresh v v' fd :
  3 <= next_fd v <= MAX_HANDLES + 3 -> allocate_fd v = (v', fd) -> fd <> -1 ->
  3 <= fd < MAX_HANDLES + 3 /\ find_fd (handles v) fd = None /\
  exists n, v' = with_next_fd v n /\ 3 <= n <= MAX_HANDLES + 3.
Proof.
  unfold allocate_fd, MAX_HANDLES. intros Hn.
  destruct (scan_fd v (next_fd v) _) as [i|] eqn:E.
  - apply scan_fd_Some in E as [Hi Hf]. intros [= <- <-] _. split_and!; [lia..|done|].
    eexists. split; [done|]. destruct (_ <=? _) eqn:?; lia.
  - destruct (scan_fd v 3 _) as [i|] eqn:E'; [|by intros [= <- <-]].
    apply scan_fd_Some in E' as [Hi Hf]. intros [= <- <-] _. split_and!; [lia..|done|].
    eexists. split; [done|]. lia.
Qed.
End Lookups.

(** ** Replacing one table *)

Section Tables.
Context {W : Type}.
Implicit Types (v : vfs W).

(** With a free handle there is a free descriptor: at most 63 of the 64
    descriptors 3 .. 66 can be taken. *)
Lemma allocate_fd_total v i :
  len (handles v) = MAX_HANDLES -> 3 <= next_fd v -> free_handle v = Some i ->
  snd (allocate_fd v) <> -1.
Proof.
  intros Hlen Hn Hfree. unfold allocate_fd, MAX_HANDLES in *.
  destruct (scan_fd v (next_fd v) _) as [j|] eqn:E; cbn [snd]; [apply scan_fd_Some in E; lia|].
  clear E. destruct (scan_fd v 3 _) as [j|] eqn:E; cbn [snd]; [apply scan_fd_Some in E; lia|].
  exfalso. pose proof (scan_fd_None v (Z.to_nat 64) 3 E ltac:(lia)) as Hall. clear E.
  apply free_handle_Some in Hfree as (Hi & h & Hh & Hu).
  set (k := Z.to_nat i) in *.
  assert (Hsub : seqZ 3 64 ⊆+ map h_fd (take k (handles v) ++ drop (S k) (handles v))).
  { apply NoDup_submseteq; [apply NoDup_seqZ|]. intros fd Hfd%elem_of_seqZ.
    specialize (Hall fd ltac:(lia)). apply existsb_exists in Hall as (x & Hin & [Hx Hf]%andb_true_iff).
    apply Z.eqb_eq in Hf as <-. apply list_elem_of_fmap_2. apply list_elem_of_In in Hin.
    rewrite <- (take_drop_middle _ _ _ Hh) in Hin.
    apply elem_of_app in Hin as [?|Hin]; [apply elem_of_app; by left|].
    apply elem_of_cons in Hin as [->|?]; [congruence|]. apply elem_of_app. by right. }
  apply submseteq_length in Hsub. rewrite length_seqZ, length_map, length_app, length_take, length_drop in Hsub.
  unfold len in Hlen, Hi. lia.
Qed.

Lemma wf_with_world v w : vfs_wf v -> vfs_wf (with_world v w).
Proof. intros []. by constructor. Qed.

Lemma wf_with_next_fd v n : vfs_wf v -> 3 <= n <= MAX_HANDLES + 3 -> vfs_wf (with_next_fd v n).
Proof. intros [] ?. by constructor. Qed.

Lemma wf_with_handles v hs : vfs_wf v -> handles_wf (files v) hs -> vfs_wf (with_handles v hs).
Proof. intros [] ?. by constructor. Qed.

Lemma wf_with_fhs v fhs : vfs_wf v -> len fhs = MAX_HANDLES -> vfs_wf (with_fhs v fhs).
Proof. intros [] ?. by constructor. Qed.

Lemma wf_with_files v fs :
  vfs_wf v -> files_wf fs -> handles_wf fs (handles v) -> vfs_wf (with_files v fs).
Proof. intros [] ??. by constructor. Qed.

Lemma wf_with_mounts v ms :
  vfs_wf v -> mounts_wf (registered_fs v) ms -> vfs_wf (with_mounts v ms).
Proof. intros [] ?. by constructor. Qed.

(** *** Handles *)

Lemma handles_insert fs hs i h :
  handles_wf fs hs -> handle_ok fs h -> fds_distinct (<[i := h]> hs) ->
  handles_wf fs (<[i := h]> hs).
Proof.
  intros [Hl Ho Hd] Hh Hd'. constructor; [by rewrite len_insert| |done].
  by apply Forall_insert.
Qed.

Lemma handle_lookup fs hs i h :
  handles_wf fs hs -> hs !! i = Some h -> handle_ok fs h.
Proof. intros Hw Hi. by eapply Forall_lookup_1; [apply (hw_ok _ _ Hw)|]. Qed.

(** A released handle keeps only its stale references. *)
Lemma handle_ok_free fs h h' :
  handle_ok fs h -> h_used h' = false -> h_mount h' = h_mount h \/ h_mount h' = None ->
  h_fs_private h' = h_fs_private h \/ h_fs_private h' = None ->
  h_position h' = h_position h \/ h_position h' = 0 -> handle_ok fs h'.
Proof.
  intros [] Hu Hm Hp Hpos. constructor; [destruct Hm as [->| ->]; done|destruct Hp as [->| ->]; done| |congruence..].
  destruct Hpos as [->| ->]; done.
Qed.

Lemma handle_ok_position fs h p :
  handle_ok fs h -> in_u 64 p ->
  (h_used h = true -> forall i f, h_file h = Some i -> fs !! Z.to_nat i = Some f ->
     device_op f op_write = None -> p <= MAX_FILE_SIZE) ->
  handle_ok fs (set_position h p).
Proof.
  intros [] Hp Hd. constructor; simpl; [done..|]. intros Hu i Hi.
  destruct (ho_file0 Hu i Hi) as (? & f & Hf & Huf & _). split; [done|]. exists f. eauto.
Qed.

(** *** Files *)

Lemma file_lookup fs i f : files_wf fs -> fs !! i = Some f -> file_ok f.
Proof. intros Hw Hi. by eapply Forall_lookup_1; [apply (fw_ok _ Hw)|]. Qed.

Lemma files_insert fs i f f0 :
  files_wf fs -> fs !! i = Some f0 -> file_ok f ->
  (f_used f = true -> forall j g, fs !! j = Some g -> f_used g = true -> f_name g = f_name f -> j = i) ->
  files_wf (<[i := f]> fs).
Proof.
  intros [Hl Ho Hd] H0 Hf Hn. constructor; [by rewrite len_insert|by apply Forall_insert|].
  intros a b x y Hx Hy Hux Huy Hxy.
  apply list_lookup_insert_Some in Hx as [(<- & <- & _)|[Ha Hx]];
    apply list_lookup_insert_Some in Hy as [(<- & <- & _)|[Hb Hy]]; [done|..].
  - symmetry. by eapply Hn.
  - by eapply Hn.
  - by eapply Hd.
Qed.

(** The handles still point to used files after an entry changed. *)
Lemma handles_file_insert fs hs i f f0 :
  handles_wf fs hs -> fs !! i = Some f0 ->
  (f_used f0 = true -> f_used f = true) ->
  (f_used f0 = true -> device_op f op_write = None -> device_op f0 op_write = None) ->
  handles_wf (<[i := f]> fs) hs.
Proof.
  intros [Hl Ho Hd] H0 Hu Hdev. constructor; [done| |done].
  eapply Forall_impl; [exact Ho|]. intros h []. constructor; [done..|].
  intros Huh k Hk. destruct (ho_file0 Huh k Hk) as (Hk0 & g & Hg & Hug & Hpos). split; [done|].
  destruct (decide (Z.to_nat k = i)) as [<-|Hne].
  - rewrite H0 in Hg. injection Hg as <-. exists f. apply lookup_lt_Some in H0 as ?.
    rewrite list_lookup_insert_eq by done. auto.
  - exists g. rewrite list_lookup_insert_ne by done. eauto.
Qed.
End Tables.
