(* ===== verification/VfsOps.v ===== *)
(** * The virtual file system: every operation runs and keeps the invariant

    For each function of vfs.c: from a well-formed state it finishes without
    a memory error, in a well-formed state, with the effect on the descriptor
    table and the file table that its contract states. *)

From S2P Require Import Prelude Vfs VfsProofs.

(** Projections of the updated state. *)
Ltac vproj_with t0 :=
  let t := eval cbn [files handles next_fd registered_fs mounts file_handles vworld
    with_files with_handles with_next_fd with_registered with_mounts with_fhs with_world] in t0 in
  progress change t0 with t.

Ltac vproj :=
  cbn [mbind outcome_bind];
  repeat match goal with
  | |- context [files (?g ?v ?x)] => vproj_with (files (g v x))
  | |- context [handles (?g ?v ?x)] => vproj_with (handles (g v x))
  | |- context [next_fd (?g ?v ?x)] => vproj_with (next_fd (g v x))
  | |- context [registered_fs (?g ?v ?x)] => vproj_with (registered_fs (g v x))
  | |- context [mounts (?g ?v ?x)] => vproj_with (mounts (g v x))
  | |- context [file_handles (?g ?v ?x)] => vproj_with (file_handles (g v x))
  | |- context [vworld (?g ?v ?x)] => vproj_with (vworld (g v x))
  end.

(** One array access whose lookup is a hypothesis, or whose bound [lia] sees. *)
Ltac vget :=
  match goal with
  | H : ?l !! Z.to_nat ?i = Some ?x |- context [aget ?l ?i] =>
      rewrite (aget_lookup l i x) by (done || lia); vproj
  end.

Ltac vset :=
  match goal with
  | |- context [aset ?l ?i ?x] =>
      rewrite (aset_in_bounds l i x) by (unfold len in *; rewrite ?length_insert; lia); vproj
  end.

Create HintDb vfs.
#[export] Hint Resolve wf_with_world wf_with_next_fd wf_with_handles wf_with_fhs wf_with_mounts : vfs.

Lemma strcpy_fits n s : len s < n -> strcpy_into n s = Ret s.
Proof. intros. unfold strcpy_into. by destruct (Z.ltb_spec (len s) n); [|lia]. Qed.

Section Files.
Context {W : Type}.
Implicit Types (v : vfs W).

Lemma wipe_file_ok f : file_ok f -> exists g, wipe_file f = Ret g /\ file_ok g /\ f_used g = false.
Proof.
  intros [Hd Hs Hn]. unfold wipe_file.
  rewrite aset_in_bounds by (unfold MAX_FILE_SIZE in Hd; lia). cbn [mbind outcome_bind].
  eexists. split; [done|]. split; [|done].
  constructor; cbn [f_data f_size f_name]; [by rewrite len_insert|unfold MAX_FILE_SIZE; lia|].
  unfold MAX_FILENAME, len. simpl. lia.
Qed.

(** The file table after entry [i] was set to [f]. *)
Definition files_set v v' (i : Z) (f : vfs_file) : Prop :=
  v' = with_files v (<[Z.to_nat i := f]> (files v)) /\ 0 <= i < len (files v).

(** Filling a free entry under a name no used entry has. *)
Lemma fill_entry v i f0 f :
  vfs_wf v -> files v !! Z.to_nat i = Some f0 -> f_used f0 = false ->
  find_file v (f_name f) = None -> f_used f = true -> file_ok f ->
  vfs_wf (with_files v (<[Z.to_nat i := f]> (files v))).
Proof.
  intros Hw Hi Hu Hn Huf Hok. apply wf_with_files; [done|..].
  - eapply files_insert; [apply Hw|done..|]. intros _ j g Hj Hug Hname.
    rewrite find_file_None in Hn. by destruct (Hn _ _ Hj Hug).
  - eapply handles_file_insert; [apply Hw|done|..]; congruence.
Qed.

Lemma mkdir_ok dirname v :
  vfs_wf v -> runs_to (vfs_mkdir dirname v) (fun '(v', r) =>
    vfs_wf v' /\ handles v' = handles v /\
    (v' = v \/ exists f, files_set v v' r f /\ find_file v dirname = None /\
       f_used f = true /\ f_name f = dirname /\ f_type f = VFS_TYPE_DIR)).
Proof.
  intros Hw. unfold vfs_mkdir. destruct (Z.leb_spec MAX_FILENAME (len dirname)); [simpl; auto|].
  destruct (find_file v dirname) as [i|] eqn:Ef.
  - apply find_file_Some in Ef as (Hi & f & Hf & Hu & Hn). vget.
    destruct (decide _); simpl; auto.
  - destruct (free_file v) as [i|] eqn:Ei; [|simpl; auto].
    apply free_file_Some in Ei as (Hi & f & Hf & Hu). vget.
    rewrite strcpy_fits by done. vproj. vset. cbn [runs_to].
    destruct (file_lookup _ _ _ (wf_files _ Hw) Hf) as [Hd Hs Hnm].
    split_and!; [|done|].
    + by eapply fill_entry.
    + right. eexists. split_and!; [split; done|done..].
Qed.

(** The entry of a device after its registration. *)
Lemma pseudo_register_ok filename ops dev_data v :
  vfs_wf v ->
  (forall i f, find_file v filename = Some i -> files v !! Z.to_nat i = Some f ->
     op_write ops = None -> device_op f op_write = None) ->
  runs_to (vfs_pseudo_register filename ops dev_data v) (fun '(v', r) =>
    vfs_wf v' /\ handles v' = handles v /\
    (v' = v /\ r < 0 \/ exists f, files_set v v' r f /\ f_used f = true /\ f_name f = filename
       /\ f_ops f = ops /\ f_dev_data f = dev_data)).
Proof.
  intros Hw Hpre. unfold vfs_pseudo_register.
  destruct (Z.leb_spec MAX_FILENAME (len filename)); [simpl; auto with lia|].
  destruct (find_file v filename) as [i|] eqn:Ef.
  - specialize (Hpre i). apply find_file_Some in Ef as (Hi & f & Hf & Hu & Hn). vget.
    destruct (decide (f_type f = VFS_TYPE_DIR)) as [Ht|Ht]; [simpl; auto with lia|].
    apply lookup_lt_Some in Hf as Hlt. vset. cbn [runs_to].
    destruct (file_lookup _ _ _ (wf_files _ Hw) Hf) as [Hd Hs Hnm].
    split_and!; [|done|right; eexists; split_and!; [split; [done|unfold len; lia]|done..]].
    apply wf_with_files; [done|..].
    + eapply files_insert; [apply Hw|done|by constructor|]. simpl. intros _ j g Hj Hug Hname.
      by eapply (fw_names _ (wf_files _ Hw)).
    + eapply handles_file_insert; [apply Hw|done|done|]. intros _. cbn. unfold device_op. cbn [f_type f_ops].
      destruct (decide (f_type f = VFS_TYPE_DEVICE)) eqn:E; [|done]. intros Hno.
      specialize (Hpre f eq_refl Hf Hno). unfold device_op in Hpre. by rewrite E in Hpre.
  - destruct (free_file v) as [i|] eqn:Ei; [|simpl; auto with lia].
    apply free_file_Some in Ei as (Hi & f & Hf & Hu). vget.
    rewrite strcpy_fits by done. vproj. vset. cbn [runs_to].
    destruct (file_lookup _ _ _ (wf_files _ Hw) Hf) as [Hd Hs Hnm].
    split_and!; [|done|].
    + by eapply fill_entry.
    + right. eexists. split_and!; [split; done|done..].
Qed.
End Files.

(** ** Resolving a path to a mount *)

(** [path] lies below the mount point of [m], at a component boundary. *)
Definition below (m : vfs_mount) (path rest : list Z) : Prop :=
  m_mounted m = true /\ path = m_point m ++ rest /\
  (rest = [] \/ head rest = Some SLASH \/ m_point m = [SLASH]).

Lemma has_prefix_spec p s : has_prefix p s = true <-> s = p ++ drop (length p) s.
Proof.
  unfold has_prefix. rewrite bool_decide_eq_true. split.
  - intros E. rewrite <- (take_drop (length p) s) at 1. by rewrite E.
  - intros E. by rewrite E, take_app_length.
Qed.

Lemma char_at_app p rest :
  char_at (p ++ rest) (len p) = Ret (match rest with [] => 0 | c :: _ => c end).
Proof.
  unfold char_at, len. rewrite length_app. destruct rest as [|c rest]; simpl.
  - by rewrite Nat.add_0_r, Z.eqb_refl.
  - destruct (Z.eqb_spec (Z.of_nat (length p)) (Z.of_nat (length p + S (length rest)))); [lia|].
    apply aget_lookup; [lia|]. rewrite Nat2Z.id. by apply list_lookup_middle.
Qed.

Lemma mount_matches_spec path m :
  0 ∉ path -> exists b, mount_matches path m = Ret b /\
  (b = true <-> below m path (drop (length (m_point m)) path)).
Proof.
  intros H0. unfold mount_matches, below.
  destruct (m_mounted m) eqn:Hm; simpl; [|by exists false; naive_solver].
  destruct (has_prefix (m_point m) path) eqn:Hp; simpl.
  - apply has_prefix_spec in Hp. 
    pose proof (char_at_app (m_point m) (drop (length (m_point m)) path)) as Hc.
    rewrite <- Hp in Hc. rewrite Hc. cbn [mbind outcome_bind].
    eexists. split; [done|]. rewrite !orb_true_iff, !Z.eqb_eq, bool_decide_eq_true.
    destruct (drop _ path) as [|c rest] eqn:Ed; [naive_solver|]. simpl.
    assert (c <> 0).
    { intros ->. apply H0. rewrite Hp. apply elem_of_app. right. left. }
    naive_solver.
  - exists false. split; [done|]. apply not_true_iff_false in Hp. rewrite has_prefix_spec in Hp. naive_solver.
Qed.

Lemma below_drop m path rest : below m path rest -> rest = drop (length (m_point m)) path.
Proof. intros (_ & -> & _). by rewrite drop_app_length. Qed.

(** The scan keeps the longest match seen so far. *)
Lemma find_mount_loop_spec path ms : 0 ∉ path -> forall k best n,
  exists best' n', find_mount_loop path ms k best n = Ret (best', n') /\ n <= n' /\
  (forall j m rest, ms !! j = Some m -> below m path rest -> len (m_point m) <= n') /\
  (best' = best /\ n' = n \/
   exists j m, ms !! j = Some m /\ best' = Some (k + Z.of_nat j) /\ n' = len (m_point m) /\
               below m path (drop (length (m_point m)) path)).
Proof.
  intros H0. induction ms as [|m ms IH]; intros k best n; cbn [find_mount_loop].
  { exists best, n. split_and!; [done|lia|done|by left]. }
  destruct (mount_matches_spec path m H0) as (b & -> & Hb). cbn [mbind outcome_bind].
  destruct (b && (n <? len (m_point m))) eqn:E.
  - apply andb_true_iff in E as [-> Hlt%Z.ltb_lt].
    destruct (IH (k + 1) (Some k) (len (m_point m))) as (best' & n' & -> & Hn & Hall & Hcase).
    exists best', n'. split_and!; [done|lia|..].
    + intros [|j] m' rest; simpl; [intros [= <-] _; lia|apply Hall].
    + right. destruct Hcase as [[-> ->]|(j & m' & Hj & -> & -> & Hbel)].
      * exists 0%nat, m. split_and!; [done|f_equal; lia|done|by apply Hb].
      * exists (S j), m'. split_and!; [done|f_equal; lia|done..].
  - destruct (IH (k + 1) best n) as (best' & n' & -> & Hn & Hall & Hcase).
    exists best', n'. split_and!; [done|lia|..].
    + intros [|j] m' rest; simpl; [|apply Hall]. intros [= <-] Hbel.
      apply below_drop in Hbel as Hr. rewrite Hr in Hbel. apply Hb in Hbel as ->.
      apply andb_false_iff in E as [?|E%Z.ltb_ge]; [done|lia].
    + destruct Hcase as [?|(j & m' & Hj & -> & -> & Hbel)]; [by left|right].
      exists (S j), m'. split_and!; [done|f_equal; lia|done..].
Qed.

(** No mount at all fits, or the one returned is the longest that does. *)
Lemma find_mount_ok {W} (v : vfs W) path :
  0 ∉ path -> exists r, vfs_find_mount (Some path) v = Ret r /\
  match r with
  | None => forall j m rest, mounts v !! j = Some m -> below m path rest -> m_point m = []
  | Some (i, rel) =>
      exists m rest, 0 <= i /\ mounts v !! Z.to_nat i = Some m /\ below m path rest /\
      rel = (match rest with c :: r => if c =? SLASH then r else rest | [] => [] end) /\
      forall j m' rest', mounts v !! j = Some m' -> below m' path rest' ->
      len (m_point m') <= len (m_point m)
  end.
Proof.
  intros H0. unfold vfs_find_mount.
  destruct (find_mount_loop_spec path (mounts v) H0 0 None 0) as (best & n & -> & Hn & Hall & Hcase).
  cbn [mbind outcome_bind]. eexists. split; [done|].
  destruct Hcase as [[-> ->]|(j & m & Hj & -> & -> & Hb)].
  - intros j m rest Hj Hb. specialize (Hall _ _ _ Hj Hb). unfold len in Hall.
    destruct (m_point m); simpl in *; [done|lia].
  - exists m, (drop (length (m_point m)) path). rewrite Z.add_0_l.
    split_and!; [lia|by rewrite Nat2Z.id|done| |done].
    unfold relative_path, len. rewrite Nat2Z.id. by destruct (drop _ path).
Qed.

Lemma mount_ops_ok {W} (v : vfs W) m :
  regs_wf (registered_fs v) -> mount_ok (registered_fs v) m -> exists o, mount_ops v m = Ret o.
Proof.
  intros Hr [_ Hfs _]. unfold mount_ops. destruct (m_fs m) as [i|]; [|eauto].
  specialize (Hfs i eq_refl). destruct (aget_in_bounds (registered_fs v) i) as (r & -> & _).
  - rewrite (rw_len _ Hr). done.
  - simpl. eauto.
Qed.

Lemma mount_lookup {W} (v : vfs W) i m :
  vfs_wf v -> mounts v !! i = Some m -> mount_ok (registered_fs v) m.
Proof. intros Hw Hi. by eapply Forall_lookup_1; [apply (mw_ok _ _ (wf_mounts _ Hw))|]. Qed.

Lemma mount_in_range {W} (v : vfs W) i m :
  vfs_wf v -> mounts v !! Z.to_nat i = Some m -> 0 <= i -> 0 <= i < MAX_MOUNTS.
Proof.
  intros Hw Hi%lookup_lt_Some ?. pose proof (mw_len _ _ (wf_mounts _ Hw)). unfold len in *. lia.
Qed.

Lemma mount_of_ok {W} (v : vfs W) path :
  vfs_wf v -> 0 ∉ path -> exists r, mount_of path v = Ret r /\
  match r with
  | None => True
  | Some (i, m, o, rel) => 0 <= i < MAX_MOUNTS /\ len rel <= len path
  end.
Proof.
  intros Hw H0. unfold mount_of. destruct (find_mount_ok v path H0) as ([[i rel]|] & -> & Hr); cbn [mbind outcome_bind];
    [|by exists None].
  destruct Hr as (m & rest & Hi & Hm & (_ & Hp & _) & Hrel & _). vget.
  destruct (mount_ops_ok v m (wf_regs _ Hw) (mount_lookup _ _ _ Hw Hm)) as ([o|] & ->);
    cbn [mbind outcome_bind]; [|by exists None].
  eexists. split; [done|]. split; [by eapply mount_in_range|]. subst rel.
  rewrite Hp. unfold len. rewrite length_app. destruct rest as [|c rest]; simpl; [lia|].
  destruct (c =? SLASH); simpl; lia.
Qed.

(** ** Descriptors *)

(** [hs'] is [hs] with descriptor [fd] mapped to [x]. *)
Definition fd_set (hs hs' : list vfs_handle) (fd : Z) (x : option vfs_handle) : Prop :=
  forall fd', find_fd hs' fd' = if fd' =? fd then x else find_fd hs fd'.

(** The outcome of an open: an error without effect on the table, or a fresh
    descriptor at position 0. *)
Definition opened (file : option Z) (flags : Z) (hs hs' : list vfs_handle) (r : Z) : Prop :=
  r < 0 /\ hs' = hs \/
  3 <= r < MAX_HANDLES + 3 /\ find_fd hs r = None /\
  exists h, h_used h = true /\ h_fd h = r /\ h_position h = 0 /\ h_flags h = flags /\
            h_file h = file /\ fd_set hs hs' r (Some h).

Lemma new_handle {W} (v : vfs W) hi h :
  vfs_wf v -> free_handle v = Some hi -> h_used h = true -> handle_ok (files v) h ->
  find_fd (handles v) (h_fd h) = None ->
  vfs_wf (with_handles v (<[Z.to_nat hi := h]> (handles v))) /\
  fd_set (handles v) (<[Z.to_nat hi := h]> (handles v)) (h_fd h) (Some h).
Proof.
  intros Hw Hfree Hu Hok Hn. apply free_handle_Some in Hfree as (Hi & h0 & Hh0 & Hu0).
  pose proof (wf_handles _ Hw) as Hhs.
  destruct (fds_insert_fresh _ _ _ _ (hw_fds _ _ Hhs) Hh0 Hu0 Hu Hn) as [Hd Hf].
  split; [|exact Hf]. apply wf_with_handles; [done|]. by apply handles_insert.
Qed.

Lemma pseudo_register_with_fd_ok {W} (v : vfs W) filename fixed_fd ops dev_data :
  vfs_wf v -> 0 <= fixed_fd ->
  runs_to (vfs_pseudo_register_with_fd filename fixed_fd ops dev_data v) (fun '(v', r) =>
    vfs_wf v' /\
    (r < 0 /\ handles v' = handles v \/
     r = fixed_fd /\ find_fd (handles v) fixed_fd = None /\
     exists h, h_used h = true /\ h_fd h = fixed_fd /\ fd_set (handles v) (handles v') fixed_fd (Some h))).
Proof.
  intros Hw Hfd. unfold vfs_pseudo_register_with_fd.
  destruct (_ <=? _) eqn:?; [simpl; auto with lia|].
  destruct (fd_taken v fixed_fd) eqn:Et; [simpl; auto with lia|].
  assert (Hn : find_fd (handles v) fixed_fd = None).
  { destruct (find_fd (handles v) fixed_fd) eqn:E; [|done]. apply not_true_iff_false in Et.
    destruct Et. apply fd_taken_spec. by rewrite E. }
  eapply (runs_to_bind _ _ (fun '(v1, i) => vfs_wf v1 /\ handles v1 = handles v /\
    (0 <= i -> exists f, files v1 !! Z.to_nat i = Some f /\ f_used f = true))).
  { destruct (find_file v filename) as [i|] eqn:E.
    - apply find_file_Some in E as (Hi & f & Hf & Hu & _). simpl. eauto.
    - eapply runs_to_mono; [apply pseudo_register_ok; [done|congruence]|].
      intros [v1 i] (Hw1 & Hh1 & [[-> ?]|(f & [-> Hi] & Hu & _)]); split_and!; [done..|lia|done|done|].
      intros _. exists f. vproj. rewrite list_lookup_insert_eq; [done|]. unfold len in Hi. lia. }
  intros [v1 i] (Hw1 & Hh1 & Hfile). destruct (Z.ltb_spec i 0); [simpl; auto with lia|].
  destruct (free_handle v1) as [hi|] eqn:Eh; [|simpl; auto with lia].
  apply free_handle_Some in Eh as H1. destruct H1 as (Hhi & h0 & Hh0 & Hu0). vget. vset. cbn [runs_to].
  destruct (Hfile ltac:(lia)) as (f & Hf & Hu).
  pose proof (handle_lookup _ _ _ _ (wf_handles _ Hw1) Hh0) as [].
  edestruct (new_handle v1 hi) as [Hw2 Hset]; [done|done|..].
  4: { split; [exact Hw2|]. right. split_and!; [done..|]. eexists. split_and!; [..|rewrite <- Hh1; exact Hset]; done. }
  - done.
  - constructor; [done..|]. intros _ j [= <-]. split; [done|]. by exists f.
  - simpl. by rewrite Hh1.
Qed.

(** Linking a standard stream replaces the file of its slot only. *)
Lemma link_std_fd_ok {W} (v : vfs W) std_fd dev_name :
  vfs_wf v ->
  (forall h, handles v !! Z.to_nat std_fd = Some h -> h_position h <= MAX_FILE_SIZE) ->
  runs_to (vfs_link_std_fd std_fd dev_name v) (fun v' =>
    vfs_wf v' /\ files v' = files v /\
    forall fd, is_Some (find_fd (handles v') fd) <-> is_Some (find_fd (handles v) fd)).
Proof.
  intros Hw Hpos. unfold vfs_link_std_fd.
  destruct (find_file v dev_name) as [i|] eqn:Ef; [|done].
  apply find_file_Some in Ef as (Hi & f & Hf & Hu & _).
  destruct ((0 <=? std_fd) && (std_fd <? 3)) eqn:E; [|done].
  pose proof (wf_handles _ Hw) as Hhs. pose proof (hw_len _ _ Hhs) as Hlen. unfold MAX_HANDLES in Hlen.
  destruct (aget_in_bounds (handles v) std_fd) as (h & -> & Hh); [lia|]. vproj. vset. cbn [runs_to].
  set (h' := mkhandle _ _ _ _ _ _ _). specialize (Hpos h Hh).
  destruct (handle_lookup _ _ _ _ Hhs Hh) as [].
  assert (Hok : handle_ok (files v) h').
  { constructor; [done..|]. intros _ j [= <-]. split; [done|]. by exists f. }
  destruct (h_used h) eqn:Huh.
  - destruct (fds_update _ _ _ h' (hw_fds _ _ Hhs) Hh Huh eq_refl eq_refl) as [Hd Hfind].
    split; [apply wf_with_handles; [done|by apply handles_insert]|]. split; [done|]. intros fd.
    vproj. rewrite Hfind. destruct (Z.eqb_spec fd (h_fd h)) as [->|]; [|done].
    assert (find_fd (handles v) (h_fd h) = Some h) as ->; [|done].
    apply find_fd_Some; [apply Hhs|]. by exists (Z.to_nat std_fd).
  - destruct (fds_free _ _ _ h' (hw_fds _ _ Hhs) Hh Huh eq_refl) as [Hd Hfind].
    split; [apply wf_with_handles; [done|by apply handles_insert]|]. split; [done|]. intros fd.
    vproj. by rewrite Hfind.
Qed.

Lemma open_legacy_ok {W} (v : vfs W) i f flags :
  vfs_wf v -> 0 <= i -> files v !! Z.to_nat i = Some f -> f_used f = true ->
  runs_to (open_legacy i flags v) (fun '(v', r) =>
    vfs_wf v' /\ files v' = files v /\ opened (Some i) flags (handles v) (handles v') r /\
    (is_Some (free_handle v) -> 3 <= r)).
Proof.
  intros Hw Hi Hf Hu. unfold open_legacy.
  destruct (free_handle v) as [hi|] eqn:Eh.
  2: { simpl. split_and!; [done..|left; unfold EMFILE; split; [lia|done]|by intros []]. }
  pose proof (wf_handles _ Hw) as Hhs.
  pose proof (allocate_fd_total v hi (hw_len _ _ Hhs) ltac:(apply Hw) Eh) as Hne.
  destruct (allocate_fd v) as [v1 fd] eqn:Ea. cbn [snd] in Hne.
  destruct (Z.eqb_spec fd (-1)); [done|].
  destruct (allocate_fd_fresh v v1 fd (wf_next_fd _ Hw) Ea Hne) as (Hr & Hn & nx & -> & Hnx).
  apply free_handle_Some in Eh as H1. destruct H1 as (Hhi & h0 & Hh0 & Hu0). vproj. vget. vset.
  cbn [runs_to]. destruct (handle_lookup _ _ _ _ Hhs Hh0) as [].
  edestruct (new_handle (with_next_fd v nx) hi) as [Hw2 Hset]; [by apply wf_with_next_fd|done|..].
  4: { split; [exact Hw2|]. split; [done|]. split; [|lia]. right. split_and!; [lia..|done|].
       eexists. split_and!; [..|exact Hset]; done. }
  - done.
  - constructor; simpl; [done..|lia|]. intros _ j [= <-]. split; [done|]. by exists f.
  - done.
Qed.

Section Env.
Context {W : Type} `{VE : VfsEnv W} `{!VfsEnvOk W}.
Implicit Types (v : vfs W).

Lemma open_mounted_ok v mi m ops rel flags :
  vfs_wf v -> 0 <= mi < MAX_MOUNTS -> len rel < MAX_FILENAME ->
  runs_to (open_mounted mi m ops rel flags v) (fun '(v', r) =>
    vfs_wf v' /\ files v' = files v /\ opened None flags (handles v) (handles v') r).
Proof.
  intros Hw Hmi Hrel. unfold open_mounted.
  destruct (free_fh v) as [fi|] eqn:Ef; [|simpl; split_and!; [done..|left; unfold EMFILE; split; [lia|done]]].
  apply free_fh_Some in Ef as (Hfi & x & Hx & Hux). pose proof (wf_fhs _ Hw) as Hfl.
  destruct (allocate_fd v) as [v1 fd] eqn:Ea.
  destruct (Z.eqb_spec fd (-1)) as [->|Hne].
  { simpl. assert (v1 = v) as ->; [|split_and!; [done..|left; unfold EMFILE; split; [lia|done]]].
    revert Ea. unfold allocate_fd. pose proof (wf_next_fd _ Hw).
    destruct (scan_fd v (next_fd v) _) as [?|] eqn:E; [apply scan_fd_Some in E; intros [= ? ->]; lia|].
    destruct (scan_fd v 3 _) as [?|] eqn:E'; [apply scan_fd_Some in E'; intros [= ? ->]; lia|].
    by intros [= ->]. }
  destruct (allocate_fd_fresh v v1 fd (wf_next_fd _ Hw) Ea Hne) as (Hr & Hn & nx & -> & Hnx).
  vproj. vget. rewrite strcpy_fits by done. vproj.
  set (x1 := mkfh _ _ _ _ _ _ _).
  destruct (match op_open ops with Some _ => _ | None => _ end) as [w1 [ret x2]].
  destruct (Z.ltb_spec ret 0).
  { vproj. vset. cbn [runs_to]. split_and!; [|done|by left].
    apply wf_with_fhs; [|by rewrite len_insert]. by apply wf_with_world, wf_with_next_fd. }
  change (free_handle (with_world _ _)) with (free_handle v).
  destruct (free_handle v) as [hi|] eqn:Eh.
  - vproj. vset. cbn [runs_to].
    apply free_handle_Some in Eh as H1. destruct H1 as (Hhi & h0 & Hh0 & Hu0). vset.
    set (v2 := with_fhs _ _).
    assert (Hw2 : vfs_wf v2).
    { apply wf_with_fhs; [|by rewrite len_insert]. by apply wf_with_world, wf_with_next_fd. }
    edestruct (new_handle v2 hi) as [Hw3 Hset]; [done|done|..].
    4: { split; [exact Hw3|]. split; [done|]. right. split_and!; [lia..|done|].
         eexists. split_and!; [..|exact Hset]; done. }
    + done.
    + constructor; simpl; [by intros ? [= <-]|intros ? [= <-]; lia|done|lia|done].
    + done.
  - destruct (match op_close ops with Some _ => _ | None => _ end) as [w2 x3].
    vproj. vset. cbn [runs_to]. split_and!; [|done|left; unfold EMFILE; split; [lia|done]].
    apply wf_with_fhs; [|by rewrite len_insert]. by apply wf_with_world, wf_with_world, wf_with_next_fd.
Qed.

Lemma vfs_open_ok filename flags v :
  vfs_wf v -> 0 ∉ filename -> len filename < MAX_FILENAME ->
  runs_to (vfs_open filename flags v) (fun '(v', r) =>
    vfs_wf v' /\ files v' = files v /\
    opened (find_file v filename) flags (handles v) (handles v') r /\
    (is_Some (find_file v filename) -> is_Some (free_handle v) -> 3 <= r)).
Proof.
  intros Hw H0 Hlen. unfold vfs_open.
  destruct (find_file v filename) as [i|] eqn:Ef.
  { apply find_file_Some in Ef as (Hi & f & Hf & Hu & _).
    eapply runs_to_mono; [by apply (open_legacy_ok v i f flags)|].
    intros [v' r] (? & ? & ? & ?). auto. }
  destruct (mount_of_ok v filename Hw H0) as (r & -> & Hr). cbn [mbind outcome_bind].
  assert (Hfail : forall v1, vfs_wf v1 -> files v1 = files v -> handles v1 = handles v ->
    runs_to (Ret (v1, - ENOENT)) (fun '(v', r) =>
    vfs_wf v' /\ files v' = files v /\ opened None flags (handles v) (handles v') r /\
    (is_Some (@None Z) -> is_Some (free_handle v) -> 3 <= r))).
  { intros v1 ???. split_and!; [done..|left; unfold ENOENT; split; [lia|done]|by intros []]. }
  destruct r as [[[[mi m] ops] rel]|]; [|by apply Hfail]. destruct Hr as [Hmi Hrel].
  destruct (match op_stat ops with Some _ => _ | None => _ end) as [w rc].
  destruct (rc =? 0); [|by apply Hfail; [apply wf_with_world|..]].
  eapply runs_to_mono; [apply open_mounted_ok; [by apply wf_with_world|done|lia]|].
  intros [v' r] (? & ? & ?). split_and!; [done..|by intros []].
Qed.

Lemma vfs_close_ok fd v :
  vfs_wf v -> runs_to (vfs_close fd v) (fun '(v', r) =>
    vfs_wf v' /\ files v' = files v /\
    if fd <? 3 then v' = v /\ r = 0
    else r = match find_fd (handles v) fd with Some _ => 0 | None => -1 end /\
      fd_set (handles v) (handles v') fd None).
Proof.
  intros Hw. unfold vfs_close. destruct (fd <? 3); [done|].
  destruct (get_handle v fd) as [hi|] eqn:Eg.
  2: { simpl. apply get_handle_None in Eg. rewrite Eg. split_and!; [done..|].
       intros fd'. by destruct (Z.eqb_spec fd' fd) as [->|]. }
  apply get_handle_Some in Eg as (Hhi & h & Hh & Hu & Hfd & Hfind). rewrite Hfind. vget.
  pose proof (wf_handles _ Hw) as Hhs. destruct (handle_lookup _ _ _ _ Hhs Hh) as [].
  eapply (runs_to_bind _ _ (fun v1 => vfs_wf v1 /\ files v1 = files v /\ handles v1 = handles v)).
  - destruct (h_mount h) as [mi|] eqn:Em; [|done]. specialize (ho_mount mi eq_refl).
    pose proof (mw_len _ _ (wf_mounts _ Hw)).
    destruct (aget_in_bounds (mounts v) mi) as (m & -> & Hm); [lia|]. vproj.
    destruct (mount_ops_ok v m (wf_regs _ Hw) (mount_lookup _ _ _ Hw Hm)) as ([o|] & ->); vproj; [|done].
    destruct (op_close o) as [close|]; [|done]. destruct (h_fs_private h) as [fi|]; [|done].
    specialize (ho_private fi eq_refl). pose proof (wf_fhs _ Hw).
    destruct (aget_in_bounds (file_handles v) fi) as (x & -> & Hx); [lia|]. vproj.
    destruct (fh_used x); [|done]. destruct (close m x (vworld v)) as [w x']. vset. cbn [runs_to].
    split_and!; [|done..]. apply wf_with_fhs; [by apply wf_with_world|by rewrite len_insert].
  - intros v1 (Hw1 & Hf1 & Hh1). rewrite Hh1. vset. cbn [runs_to]. subst fd.
    set (h' := mkhandle _ _ _ _ _ _ _).
    destruct (fds_remove _ _ _ h' (hw_fds _ _ Hhs) Hh Hu eq_refl) as [Hd Hset].
    split_and!; [|done..|exact Hset]. apply wf_with_handles; [done|].
    rewrite Hf1. apply handles_insert; [done| |done].
    apply (handle_ok_free _ h); [by constructor|done|by right|by right|by left].
Qed.

(** Moving the position of an open handle. *)
Lemma put_position v hi h p :
  vfs_wf v -> 0 <= hi -> handles v !! Z.to_nat hi = Some h -> h_used h = true -> in_u 64 p ->
  (forall i f, h_file h = Some i -> files v !! Z.to_nat i = Some f ->
     device_op f op_write = None -> p <= MAX_FILE_SIZE) ->
  runs_to (put_handle hi (set_position h p) v) (fun v' =>
    vfs_wf v' /\ v' = with_handles v (<[Z.to_nat hi := set_position h p]> (handles v)) /\
    fd_set (handles v) (handles v') (h_fd h) (Some (set_position h p))).
Proof.
  intros Hw Hhi Hh Hu Hp Hfile. unfold put_handle. apply lookup_lt_Some in Hh as Hlt. vset. cbn [runs_to].
  pose proof (wf_handles _ Hw) as Hhs. pose proof (handle_lookup _ _ _ _ Hhs Hh) as Hok.
  destruct (fds_update _ _ _ (set_position h p) (hw_fds _ _ Hhs) Hh Hu Hu eq_refl) as [Hd Hset].
  split_and!; [|done|exact Hset]. apply wf_with_handles; [done|]. apply handles_insert; [done| |done].
  apply handle_ok_position; [done..|]. intros _. apply Hfile.
Qed.

Lemma put_fh_ok v fi x :
  vfs_wf v -> 0 <= fi < MAX_HANDLES -> runs_to (put_fh fi x v) (fun v' =>
    vfs_wf v' /\ files v' = files v /\ handles v' = handles v).
Proof.
  intros Hw Hfi. unfold put_fh. pose proof (wf_fhs _ Hw). vset. cbn [runs_to].
  split_and!; [|done..]. apply wf_with_fhs; [done|by rewrite len_insert].
Qed.

(** A call that moved the position of descriptor [fd] and nothing else of the
    tables. *)
Definition moved (v v' : vfs W) (fd : Z) : Prop :=
  vfs_wf v' /\ files v' = files v /\
  (handles v' = handles v \/
   exists h p, find_fd (handles v) fd = Some h /\
               fd_set (handles v) (handles v') fd (Some (set_position h p))).

Lemma advance_ok v hi fi h x result :
  vfs_wf v -> 0 <= hi -> handles v !! Z.to_nat hi = Some h -> h_used h = true ->
  h_file h = None -> 0 <= fi < MAX_HANDLES ->
  runs_to (advance hi fi h x result v) (fun v' => moved v v' (h_fd h)).
Proof.
  intros Hw Hhi Hh Hu Hf Hfi. unfold advance. destruct (0 <? result).
  - eapply runs_to_bind; [apply put_position; try done; [apply u64_range|congruence]|].
    intros v1 (Hw1 & -> & Hset). eapply runs_to_mono; [by apply put_fh_ok|].
    intros v2 (Hw2 & Hf2 & Hh2). split_and!; [done..|]. right. exists h. eexists.
    split; [|rewrite Hh2; exact Hset]. apply find_fd_Some; [apply Hw|]. eauto.
  - eapply runs_to_mono; [by apply put_fh_ok|]. intros v2 (Hw2 & Hf2 & Hh2). split_and!; [done..|by left].
Qed.

Lemma handle_ops_ok v h :
  vfs_wf v -> handle_ok (files v) h -> exists mo, handle_ops h v = Ret mo.
Proof.
  intros Hw []. unfold handle_ops. destruct (h_mount h) as [mi|]; [|eauto].
  specialize (ho_mount mi eq_refl). pose proof (mw_len _ _ (wf_mounts _ Hw)).
  destruct (aget_in_bounds (mounts v) mi) as (m & -> & Hm); [lia|]. vproj.
  destruct (mount_ops_ok v m (wf_regs _ Hw) (mount_lookup _ _ _ Hw Hm)) as (o & ->). vproj. eauto.
Qed.

Lemma handle_fh_ok v h :
  vfs_wf v -> handle_ok (files v) h -> exists fo, handle_fh h v = Ret fo /\
  forall fi x, fo = Some (fi, x) -> 0 <= fi < MAX_HANDLES.
Proof.
  intros Hw []. unfold handle_fh. destruct (h_fs_private h) as [fi|]; [|by eexists].
  specialize (ho_private fi eq_refl). pose proof (wf_fhs _ Hw).
  destruct (aget_in_bounds (file_handles v) fi) as (x & -> & Hx); [lia|]. vproj. eexists. split; [done|].
  intros fi' x'. destruct (fh_used x); [|done]. by intros [= <- <-].
Qed.

Lemma moved_refl v fd : vfs_wf v -> moved v v fd.
Proof. intros. split_and!; [done..|by left]. Qed.

Lemma moved_fhs v v' fd : vfs_wf v' -> files v' = files v -> handles v' = handles v -> moved v v' fd.
Proof. intros. split_and!; [done..|by left]. Qed.

Lemma moved_set v v' h p :
  vfs_wf v' -> files v' = files v -> find_fd (handles v) (h_fd h) = Some h ->
  fd_set (handles v) (handles v') (h_fd h) (Some (set_position h p)) -> moved v v' (h_fd h).
Proof. intros. split_and!; [done..|right; eauto]. Qed.

Lemma read_mounted_ok v hi h count :
  vfs_wf v -> 0 <= hi -> handles v !! Z.to_nat hi = Some h -> h_used h = true -> h_file h = None ->
  0 <= count ->
  runs_to (read_mounted hi h count v) (fun '(v', (r, bytes)) =>
    moved v v' (h_fd h) /\ r <= count /\ len bytes <= count).
Proof.
  intros Hw Hhi Hh Hu Hf Hc. unfold read_mounted.
  pose proof (handle_lookup _ _ _ _ (wf_handles _ Hw) Hh) as Hok.
  assert (Hnil : len (@nil Z) <= count) by (unfold len; simpl; lia).
  destruct (handle_ops_ok v h Hw Hok) as ([[m ops]|] & ->); vproj.
  2: { simpl. unfold EIO. split_and!; [by apply moved_refl|lia|done]. }
  destruct (handle_fh_ok v h Hw Hok) as ([[fi x]|] & -> & Hfi); vproj.
  2: { simpl. unfold EBADF. split_and!; [by apply moved_refl|lia|done]. }
  specialize (Hfi fi x eq_refl). destruct (op_fread ops) as [read|] eqn:Er.
  - destruct (read m _ count (vworld v)) as [w [[ret bytes] x']] eqn:E.
    destruct (op_fread_ok _ _ _ _ _ _ _ _ _ _ Er E Hc) as [Hret Hb].
    eapply runs_to_bind; [by apply advance_ok; [apply wf_with_world|..]|].
    intros v1 Hm. simpl. auto.
  - eapply runs_to_bind; [by apply put_fh_ok|]. intros v1 (? & ? & ?). simpl.
    unfold EIO. split_and!; [by apply moved_fhs|lia|done].
Qed.

Lemma write_mounted_ok v hi h buf count :
  vfs_wf v -> 0 <= hi -> handles v !! Z.to_nat hi = Some h -> h_used h = true -> h_file h = None ->
  runs_to (write_mounted hi h buf count v) (fun '(v', _) => moved v v' (h_fd h)).
Proof.
  intros Hw Hhi Hh Hu Hf. unfold write_mounted.
  pose proof (handle_lookup _ _ _ _ (wf_handles _ Hw) Hh) as Hok.
  destruct (handle_ops_ok v h Hw Hok) as ([[m ops]|] & ->); vproj; [|by apply moved_refl].
  destruct (handle_fh_ok v h Hw Hok) as ([[fi x]|] & -> & Hfi); vproj; [|by apply moved_refl].
  specialize (Hfi fi x eq_refl). destruct (op_fwrite ops) as [write|].
  - destruct (write m _ _ (vworld v)) as [w [ret x']].
    by eapply runs_to_bind; [by apply advance_ok; [apply wf_with_world|..]|].
  - eapply runs_to_bind; [by apply put_fh_ok|]. intros v1 (? & ? & ?). by apply moved_fhs.
Qed.

(** The device callbacks see the position as an [off_t]. *)
Lemma device_position f op fn p p' :
  device_op f op = Some fn -> in_u 64 p -> (device_op f op_write = None -> p <= MAX_FILE_SIZE) ->
  (op_write (f_ops f) = None -> 0 <= i64 p <= MAX_FILE_SIZE -> 0 <= p' <= MAX_FILE_SIZE) ->
  device_op f op_write = None -> u64 p' <= MAX_FILE_SIZE.
Proof.
  intros Hop Hp Hle Hlaw Hno. specialize (Hle Hno). unfold device_op in *.
  destruct (decide _); [|done]. unfold in_u, MAX_FILE_SIZE in *.
  change (2 ^ 64) with 18446744073709551616 in *. rewrite i64_id in Hlaw by lia.
  specialize (Hlaw Hno ltac:(lia)). rewrite u64_id by lia. lia.
Qed.

Lemma read_legacy_ok v hi h i f count :
  vfs_wf v -> 0 <= hi -> handles v !! Z.to_nat hi = Some h -> h_used h = true ->
  h_file h = Some i -> files v !! Z.to_nat i = Some f -> in_u 64 count ->
  runs_to (read_legacy hi h f count v) (fun '(v', (r, bytes)) =>
    moved v v' (h_fd h) /\ r <= count /\ len bytes <= count).
Proof.
  intros Hw Hhi Hh Hu Hfile Hf Hc. unfold read_legacy.
  pose proof (handle_lookup _ _ _ _ (wf_handles _ Hw) Hh) as [_ _ Hpos _ Href].
  destruct (Href Hu i Hfile) as (_ & f' & Hf' & Huf & Hle). rewrite Hf in Hf'. injection Hf' as <-.
  assert (Hfind : find_fd (handles v) (h_fd h) = Some h) by (apply find_fd_Some; [apply Hw|eauto]).
  destruct (device_op f op_read) as [fn|] eqn:Ed.
  - destruct (dev_read fn f count _ (vworld v)) as [w [[ret bytes] pos]] eqn:E.
    destruct (dev_read_ok _ _ _ _ _ _ _ _ _ E ltac:(apply Hc)) as (Hret & Hb & Hp).
    eapply runs_to_bind; [apply put_position; try done; [by apply wf_with_world|apply u64_range|]|].
    + intros j g Hj. rewrite Hfile in Hj. injection Hj as <-. simpl. rewrite Hf. intros [= <-].
      by eapply device_position.
    + intros v1 (Hw1 & -> & Hset). simpl. split; [by eapply moved_set|done].
  - destruct (file_lookup _ _ _ (wf_files _ Hw) Hf) as [Hd Hs Hn].
    assert (Hnil : len (@nil Z) <= count) by (unfold len, in_u in *; simpl; lia).
    destruct (Z.leb_spec (f_size f) (h_position h)).
    { simpl. split_and!; [by apply moved_refl|apply Hc|done]. }
    set (n := if count <? _ then _ else _).
    assert (Hn' : 0 <= n <= count /\ n <= f_size f - h_position h)
      by (unfold n, in_u in *; destruct (Z.ltb_spec count (f_size f - h_position h)); lia).
    unfold in_u, MAX_FILE_SIZE in *. change (2 ^ 64) with 18446744073709551616 in *.
    destruct (mem_read_ok (f_data f) (h_position h) n) as [-> Hlen]; [lia..|]. vproj.
    eapply runs_to_bind; [apply put_position; try done; [apply u64_range|]|].
    + intros j g _ _ _. rewrite u64_id by lia. unfold MAX_FILE_SIZE. lia.
    + intros v1 (Hw1 & -> & Hset). cbn [mbind outcome_bind runs_to].
      split; [by eapply moved_set|]. rewrite i64_id by lia. lia.
Qed.

Lemma vfs_readfd_ok fd count v :
  vfs_wf v -> in_u 64 count ->
  runs_to (vfs_readfd fd count v) (fun '(v', (r, bytes)) =>
    moved v v' fd /\ r <= count /\ len bytes <= count).
Proof.
  intros Hw Hc. unfold vfs_readfd.
  assert (Herr : forall e, 0 <= e -> moved v v fd /\ - e <= count /\ len (@nil Z) <= count).
  { intros e He. unfold in_u, len in *. simpl. split_and!; [by apply moved_refl|lia..]. }
  destruct (get_handle v fd) as [hi|] eqn:Eg; [|apply Herr; unfold EBADF; lia].
  apply get_handle_Some in Eg as (Hhi & h & Hh & Hu & <- & Hfind). vget.
  destruct (negb _); [apply Herr; unfold EACCES; lia|].
  destruct (h_file h) as [i|] eqn:Ei.
  - pose proof (handle_lookup _ _ _ _ (wf_handles _ Hw) Hh) as Hok.
    destruct (ho_file _ _ Hok Hu i Ei) as (Hi & f & Hf & _). vget.
    by apply (read_legacy_ok v hi h i); [|lia|..].
  - apply read_mounted_ok; try done; [lia|apply Hc].
Qed.

(** ** Writing *)

(** The effect of a plain write of [bs] at the handle's position. *)
Definition spliced (f : vfs_file) (pos : Z) (bs : list Z) : vfs_file :=
  mkfile (f_name f)
    (take (Z.to_nat pos) (f_data f) ++ bs ++ drop (Z.to_nat pos + length bs) (f_data f))
    (Z.max (f_size f) (pos + len bs)) (f_used f) (f_type f) (f_ops f) (f_dev_data f).

Definition written v (hi i : Z) h f (bs : list Z) : vfs W :=
  with_files (with_handles v (<[Z.to_nat hi := set_position h (h_position h + len bs)]> (handles v)))
    (<[Z.to_nat i := spliced f (h_position h) bs]> (files v)).

Lemma write_legacy_plain v hi i h f buf count n :
  vfs_wf v -> 0 <= hi -> handles v !! Z.to_nat hi = Some h -> h_used h = true ->
  h_file h = Some i -> files v !! Z.to_nat i = Some f -> device_op f op_write = None ->
  0 <= count <= len buf -> count < 2 ^ 64 - MAX_FILE_SIZE ->
  n = Z.min count (MAX_FILE_SIZE - h_position h) ->
  write_legacy hi i h f buf count v =
  if n =? 0 then Ret (v, - ENOSPC) else Ret (written v hi i h f (take (Z.to_nat n) buf), n).
Proof.
  intros Hw Hhi Hh Hu Hfile Hf Hno Hc Hwrap ->. unfold write_legacy. rewrite Hno.
  pose proof (handle_lookup _ _ _ _ (wf_handles _ Hw) Hh) as [_ _ Hpos _ Href].
  destruct (Href Hu i Hfile) as (Hi & f' & Hf' & Huf & Hle). rewrite Hf in Hf'. injection Hf' as <-.
  specialize (Hle Hno). destruct (file_lookup _ _ _ (wf_files _ Hw) Hf) as [Hd Hs Hn].
  unfold in_u, MAX_FILE_SIZE in *. change (2 ^ 64) with 18446744073709551616 in *.
  rewrite (u64_id (h_position h + count)), (u64_id (65536 - h_position h)) by lia.
  assert ((if 65536 <? h_position h + count then 65536 - h_position h else count)
    = Z.min count (65536 - h_position h)) as -> by (destruct (Z.ltb_spec 65536 (h_position h + count)); lia).
  set (n := Z.min _ _). assert (0 <= n) by lia. destruct (Z.eqb_spec n 0); [done|].
  destruct (mem_read_ok buf 0 n) as [-> Hlen]; [lia..|]. vproj. rewrite drop_0 in *.
  set (bs := take (Z.to_nat n) buf) in *.
  destruct (mem_write_ok (f_data f) (h_position h) bs) as (a' & -> & Ha' & Ea'); [lia..|]. vproj.
  rewrite (u64_id (h_position h + n)) by lia. unfold put_handle.
  apply lookup_lt_Some in Hh as ?. apply lookup_lt_Some in Hf as ?. vset. vset.
  rewrite i64_id by lia. unfold written, spliced. rewrite Hlen, Ea'. do 6 f_equal.
  destruct (Z.ltb_spec (f_size f) (h_position h + n)); lia.
Qed.

Lemma spliced_ok f pos bs :
  file_ok f -> 0 <= pos -> pos + len bs <= MAX_FILE_SIZE -> file_ok (spliced f pos bs).
Proof.
  intros [Hd Hs Hn] Hp Hle. constructor; cbn [spliced f_data f_size f_name]; [|lia|done].
  unfold len in *. rewrite !length_app, length_take, length_drop. lia.
Qed.

(** Names and descriptors are the same. *)
Definition same_names v v' : Prop := forall name, find_file v' name = find_file v name.
Definition same_fds v v' : Prop :=
  forall fd, is_Some (find_fd (handles v') fd) <-> is_Some (find_fd (handles v) fd).

Lemma moved_same v v' fd : moved v v' fd -> vfs_wf v' /\ same_names v v' /\ same_fds v v'.
Proof.
  intros (Hw & Hf & Hh). split_and!; [done|..].
  - intros name. unfold find_file. by rewrite Hf.
  - intros fd'. destruct Hh as [->|(h & p & Hfd & Hset)]; [done|]. rewrite Hset.
    destruct (Z.eqb_spec fd' fd) as [->|]; [|done]. rewrite Hfd. split; eauto.
Qed.

Lemma written_ok v hi i h f bs :
  vfs_wf v -> 0 <= hi -> handles v !! Z.to_nat hi = Some h -> h_used h = true ->
  h_file h = Some i -> files v !! Z.to_nat i = Some f ->
  h_position h + len bs <= MAX_FILE_SIZE ->
  vfs_wf (written v hi i h f bs) /\ same_names v (written v hi i h f bs) /\
  fd_set (handles v) (handles (written v hi i h f bs)) (h_fd h)
    (Some (set_position h (h_position h + len bs))).
Proof.
  intros Hw Hhi Hh Hu Hfile Hf Hle.
  pose proof (handle_lookup _ _ _ _ (wf_handles _ Hw) Hh) as [_ _ Hpos _ Href].
  destruct (Href Hu i Hfile) as (Hi & f' & Hf' & Huf & _). rewrite Hf in Hf'. injection Hf' as <-.
  unfold in_u in Hpos.
  assert (Hp : runs_to (put_handle hi (set_position h (h_position h + len bs)) v) (fun v' =>
    vfs_wf v' /\ v' = with_handles v (<[Z.to_nat hi := set_position h (h_position h + len bs)]> (handles v)) /\
    fd_set (handles v) (handles v') (h_fd h) (Some (set_position h (h_position h + len bs))))).
  { apply put_position; try done. unfold in_u, MAX_FILE_SIZE, len in *. lia. }
  apply runs_to_inv in Hp as (v1 & _ & Hw1 & -> & Hset). split_and!; [|..|exact Hset].
  - apply wf_with_files; [done|..].
    + eapply files_insert; [apply Hw|done|apply spliced_ok; [by eapply file_lookup; [apply Hw|]|lia|done]|].
      intros _ j g Hj Hug Hname. by eapply (fw_names _ (wf_files _ Hw)).
    + eapply handles_file_insert; [apply Hw1|done|done|done].
  - intros name. unfold find_file, written. vproj. by eapply first_index_insert.
Qed.

Lemma vfs_writefd_ok fd buf count v :
  vfs_wf v -> 0 <= count <= len buf -> count < 2 ^ 64 - MAX_FILE_SIZE ->
  runs_to (vfs_writefd fd buf count v) (fun '(v', _) =>
    vfs_wf v' /\ same_names v v' /\ same_fds v v').
Proof.
  intros Hw Hc Hwrap. unfold vfs_writefd.
  destruct (get_handle v fd) as [hi|] eqn:Eg; [|done].
  apply get_handle_Some in Eg as (Hhi & h & Hh & Hu & <- & Hfind). vget.
  destruct (negb _); [done|]. destruct (_ || _); [done|].
  pose proof (handle_lookup _ _ _ _ (wf_handles _ Hw) Hh) as Hok.
  destruct (h_file h) as [i|] eqn:Ei.
  - destruct (ho_file _ _ Hok Hu i Ei) as (Hi & f & Hf & Huf & Hle). vget.
    destruct (device_op f op_write) as [fn|] eqn:Ed.
    + unfold write_legacy. rewrite Ed.
      destruct (dev_write fn f _ _ (vworld v)) as [w [ret pos]].
      eapply runs_to_bind; [apply put_position; try done; [by apply wf_with_world|lia|apply u64_range|]|].
      * intros j g Hj. rewrite Ei in Hj. injection Hj as <-. simpl. rewrite Hf. intros [= <-]. congruence.
      * intros v1 (Hw1 & -> & Hset). by eapply moved_same, moved_set.
    + erewrite write_legacy_plain by (done || lia). destruct (_ =? 0) eqn:E; [done|].
      specialize (Hle eq_refl). simpl.
      set (bs := take _ buf). destruct (written_ok v hi i h f bs) as (Hw1 & Hnm & Hset); try done; [lia| |].
      { unfold bs, len in *. rewrite length_take. lia. }
      split_and!; [done..|]. intros fd. rewrite Hset. destruct (Z.eqb_spec fd (h_fd h)) as [->|]; [|done].
      rewrite Hfind. split; eauto.
  - eapply runs_to_mono; [apply write_mounted_ok; try done; lia|]. intros [v' r] Hm. by eapply moved_same.
Qed.

Lemma clamp_seek_range size p : 0 <= size <= MAX_FILE_SIZE -> p < 2 ^ 64 -> 0 <= clamp_seek size p <= size.
Proof.
  unfold clamp_seek, MAX_FILE_SIZE. change (2 ^ 64) with 18446744073709551616. intros Hs Hp.
  destruct (Z.ltb_spec p 0); rewrite u64_id by lia;
    match goal with |- context [size <? ?x] => destruct (Z.ltb_spec size x) end; lia.
Qed.

Lemma vfs_seek_ok fd offset whence v :
  vfs_wf v -> in_s 64 offset ->
  runs_to (vfs_seek fd offset whence v) (fun '(v', _) => moved v v' fd).
Proof.
  intros Hw Ho. unfold vfs_seek. destruct (get_handle v fd) as [hi|] eqn:Eg; [|by apply moved_refl].
  apply get_handle_Some in Eg as (Hhi & h & Hh & Hu & <- & Hfind). vget.
  pose proof (handle_lookup _ _ _ _ (wf_handles _ Hw) Hh) as [_ _ Hpos _ Href].
  destruct (h_file h) as [i|] eqn:Ei; [|by apply moved_refl].
  destruct (Href Hu i Ei) as (Hi & f & Hf & Huf & Hle). vget.
  destruct (device_op f op_seek) as [fn|] eqn:Ed.
  - destruct (dev_seek fn f _ _ _ (vworld v)) as [w [ret pos]] eqn:E.
    eapply runs_to_bind; [apply put_position; try done; [by apply wf_with_world|lia|apply u64_range|]|].
    + intros j g Hj. rewrite Ei in Hj. injection Hj as <-. simpl. rewrite Hf. intros [= <-].
      eapply device_position; [done|done|done|]. intros. by eapply dev_seek_ok.
    + intros v1 (Hw1 & -> & Hset). by eapply moved_set.
  - destruct (_ || _); [|by apply moved_refl].
    set (target := if whence =? VFS_SEEK_SET then _ else _).
    assert (Ht : target < 2 ^ 64).
    { unfold target, in_s in *. pose proof (i64_range (h_position h + offset)).
      pose proof (i64_range (f_size f + offset)). repeat destruct (_ =? _); lia. }
    destruct (file_lookup _ _ _ (wf_files _ Hw) Hf) as [Hd Hs Hn].
    pose proof (clamp_seek_range _ _ Hs Ht) as Hcl. unfold MAX_FILE_SIZE in Hs.
    eapply runs_to_bind; [apply put_position; try done; [lia|apply u64_range|]|].
    + intros j g _ _ _. rewrite u64_id by lia. unfold MAX_FILE_SIZE. lia.
    + intros v1 (Hw1 & -> & Hset). by eapply moved_set.
Qed.

Lemma vfs_ioctl_ok fd request arg v :
  vfs_wf v -> runs_to (vfs_ioctl fd request arg v) (fun '(v', _) => moved v v' fd).
Proof.
  intros Hw. unfold vfs_ioctl. destruct (get_handle v fd) as [hi|] eqn:Eg; [|by apply moved_refl].
  apply get_handle_Some in Eg as (Hhi & h & Hh & Hu & <- & Hfind). vget.
  pose proof (handle_lookup _ _ _ _ (wf_handles _ Hw) Hh) as [_ _ Hpos _ Href].
  destruct (h_file h) as [i|] eqn:Ei; [|by apply moved_refl].
  destruct (Href Hu i Ei) as (Hi & f & Hf & Huf & Hle). vget.
  destruct (device_op f op_ioctl) as [fn|]; [|by apply moved_refl].
  destruct (dev_ioctl fn f request arg (vworld v)) as [w ret].
  apply moved_fhs; [by apply wf_with_world|done..].
Qed.
End Env.
