(* ===== verification/VfsTable.v ===== *)
(** * The virtual file system: whole files, removal, mounts and listings

    The remaining functions of vfs.c, with the same contract as in VfsOps:
    no memory error, invariant kept, and what changed. *)

From S2P Require Import Prelude Vfs VfsProofs VfsOps.

Section Env.
Context {W : Type} `{VE : VfsEnv W} `{!VfsEnvOk W}.
Implicit Types (v : vfs W).

(** ** Whole files *)

(** Opening, working on the descriptor and closing leaves the table as it was. *)
Lemma open_close_fds v v1 v2 v3 file flags r :
  opened file flags (handles v) (handles v1) r -> 0 <= r -> same_fds v1 v2 ->
  fd_set (handles v2) (handles v3) r None -> same_fds v v3.
Proof.
  intros [[? _]|(Hr & Hn & h & _ & _ & _ & _ & _ & Ho)] Hr0 Hs Hc fd; [lia|].
  rewrite Hc. specialize (Hs fd). specialize (Ho fd).
  destruct (Z.eqb_spec fd r) as [E|]; [|by rewrite Hs, Ho].
  rewrite E, Hn. split; by intros [].
Qed.

Lemma same_names_files v v' : files v' = files v -> same_names v v'.
Proof. intros E name. unfold find_file. by rewrite E. Qed.

Lemma opened_fails file flags hs hs' r : opened file flags hs hs' r -> r < 0 -> hs' = hs.
Proof. intros [[_ ?]|(? & _)] ?; [done|lia]. Qed.

Lemma opened_ge file flags hs hs' r : opened file flags hs hs' r -> 0 <= r -> 3 <= r.
Proof. intros [[? _]|(? & _)] ?; lia. Qed.

Lemma vfs_create_ok filename data size v :
  vfs_wf v -> 0 ∉ filename -> 0 <= size <= len data ->
  runs_to (vfs_create filename data size v) (fun '(v', r) =>
    vfs_wf v' /\ same_names v v' /\ same_fds v v' /\ (0 <= r -> find_file v filename = Some r)).
Proof.
  intros Hw H0 Hsz. unfold vfs_create.
  destruct (Z.leb_spec MAX_FILENAME (len filename)); [simpl; split_and!; [done..|lia]|].
  destruct (Z.ltb_spec MAX_FILE_SIZE size); [simpl; split_and!; [done..|lia]|].
  eapply runs_to_bind; [by apply vfs_open_ok|]. intros [v1 fd] (Hw1 & Hf1 & Ho & _).
  pose proof (same_names_files _ _ Hf1) as Hn1.
  destruct (Z.ltb_spec fd 0).
  { split_and!; [done..| |lia]. unfold same_fds. by rewrite (opened_fails _ _ _ _ _ Ho). }
  eapply runs_to_bind; [apply vfs_writefd_ok; [done|lia|unfold MAX_FILE_SIZE in *; lia]|].
  intros [v2 n] (Hw2 & Hn2 & Hfd2).
  eapply runs_to_bind; [by apply vfs_close_ok|]. intros [v3 r] (Hw3 & Hf3 & Hc).
  pose proof (opened_ge _ _ _ _ _ Ho ltac:(lia)).
  rewrite (proj2 (Z.ltb_ge fd 3)) in Hc by lia. destruct Hc as [_ Hc].
  assert (Hnames : same_names v v3).
  { intros name. by rewrite (same_names_files _ _ Hf3), Hn2, Hn1. }
  pose proof (open_close_fds _ _ _ _ _ _ _ Ho ltac:(lia) Hfd2 Hc) as Hfds.
  destruct (negb _); [split_and!; [done..|lia]|]. cbn [runs_to]. split_and!; [done..|].
  rewrite Hnames. destruct (find_file v filename); [done|lia].
Qed.

Lemma vfs_read_ok filename buffer v :
  vfs_wf v -> 0 ∉ filename -> len filename < MAX_FILENAME -> len buffer = MAX_FILE_SIZE ->
  runs_to (vfs_read filename buffer v) (fun '(v', buffer', n) =>
    vfs_wf v' /\ files v' = files v /\ same_fds v v' /\ len buffer' = MAX_FILE_SIZE /\
    match n with Some n => 0 <= n < MAX_FILE_SIZE | None => True end).
Proof.
  intros Hw H0 Hlen Hb. unfold vfs_read.
  eapply runs_to_bind; [by apply vfs_open_ok|]. intros [v1 fd] (Hw1 & Hf1 & Ho & _).
  destruct (Z.ltb_spec fd 0).
  { split_and!; [done..| |done|done]. unfold same_fds. by rewrite (opened_fails _ _ _ _ _ Ho). }
  eapply runs_to_bind; [by apply vfs_readfd_ok|]. intros [v2 [n bytes]] (Hm & Hn & Hl).
  pose proof Hm as (_ & Hf2 & _). apply moved_same in Hm as (Hw2 & _ & Hfd2).
  unfold MAX_FILE_SIZE in *.
  destruct (mem_write_ok buffer 0 bytes) as (b1 & -> & Hb1 & _); [lia..|]. cbn [mbind outcome_bind].
  eapply runs_to_bind; [by apply vfs_close_ok|]. intros [v3 r] (Hw3 & Hf3 & Hc).
  pose proof (opened_ge _ _ _ _ _ Ho ltac:(lia)).
  rewrite (proj2 (Z.ltb_ge fd 3)) in Hc by lia. destruct Hc as [_ Hc].
  pose proof (open_close_fds _ _ _ _ _ _ _ Ho ltac:(lia) Hfd2 Hc) as Hfds.
  destruct (Z.ltb_spec n 0); [split_and!; [done|congruence|done|congruence|done]|].
  rewrite aset_in_bounds by lia. cbn [mbind outcome_bind runs_to].
  split_and!; [done|congruence|done|rewrite len_insert; congruence|lia..].
Qed.

(** ** Removal *)

(** Handles after the used handles of entry [i] were released. *)
Lemma drop_handles_ok fs hs g i :
  handles_wf fs hs -> (forall h, h_used (g h) = false) ->
  (forall h, handle_ok fs h -> handle_ok fs (g h)) ->
  handles_wf fs (drop_handles g i hs) /\
  forall fd, find_fd (drop_handles g i hs) fd = h ← find_fd hs fd; if uses_file i h then None else Some h.
Proof.
  intros [Hl Ho Hd] Hg Hok. destruct (fds_drop hs g (uses_file i) Hd Hg) as [Hd' Hf].
  split; [|exact Hf]. constructor; [|..|exact Hd'].
  - unfold drop_handles, len in *. by rewrite length_map.
  - unfold drop_handles. apply Forall_map. eapply Forall_impl; [exact Ho|].
    intros h Hh. simpl. destruct (uses_file i h); auto.
Qed.

Lemma reset_handle_ok fs h : handle_ok fs h -> handle_ok fs (reset_handle h).
Proof. intros Hh. apply (handle_ok_free fs h); [done..|by left|by left|by right]. Qed.

Lemma release_handle_ok fs h : handle_ok fs h -> handle_ok fs (release_handle h).
Proof. intros Hh. apply (handle_ok_free fs h); [done..|by left|by left|by left]. Qed.

(** No used handle refers to entry [i], so the entry can be wiped. *)
Lemma wipe_entry_ok fs hs i f g :
  files_wf fs -> handles_wf fs hs -> 0 <= i -> fs !! Z.to_nat i = Some f -> file_ok g ->
  f_used g = false -> (forall h, h ∈ hs -> h_used h = true -> h_file h <> Some i) ->
  files_wf (<[Z.to_nat i := g]> fs) /\ handles_wf (<[Z.to_nat i := g]> fs) hs.
Proof.
  intros Hf [Hl Ho Hd] Hi Hfi Hg Hu Hno. split.
  - eapply files_insert; [done..|]. congruence.
  - constructor; [done| |done]. apply Forall_forall. intros h Hin.
    rewrite Forall_forall in Ho. destruct (Ho h Hin). constructor; [done..|].
    intros Huh j Hj. destruct (ho_file Huh j Hj) as (Hj0 & f' & Hf' & Huf & Hp). split; [done|].
    exists f'. rewrite list_lookup_insert_ne; [done|]. intros E.
    apply (Hno h Hin Huh). rewrite Hj. f_equal. lia.
Qed.

Lemma drop_handles_unused g i hs :
  (forall h, h_used (g h) = false) ->
  forall h, h ∈ drop_handles g i hs -> h_used h = true -> h_file h <> Some i.
Proof.
  intros Hg h Hin Hu. unfold drop_handles in Hin. apply list_elem_of_In, in_map_iff in Hin as (h0 & <- & _).
  destruct (uses_file i h0) eqn:E; [by rewrite Hg in Hu|]. intros Hf.
  unfold uses_file in E. rewrite Hu, Hf, bool_decide_true in E; done.
Qed.

(** The names that remain after entries were wiped: those of [gone] disappear,
    every other name resolves as before. *)
Lemma find_file_wiped v v' (gone : list Z -> bool) :
  files_wf (files v) -> files_wf (files v') ->
  (forall j f, files v !! j = Some f -> f_used f = true ->
     if gone (f_name f) then forall g, files v' !! j = Some g -> f_used g = false
     else files v' !! j = Some f) ->
  (forall j g, files v' !! j = Some g -> f_used g = true -> files v !! j = Some g) ->
  forall name, find_file v' name = if gone name then None else find_file v name.
Proof.
  intros Hw Hw' Hfwd Hbwd name. destruct (find_file v' name) as [i|] eqn:E'.
  - apply find_file_Some in E' as (Hi & g & Hg & Hu & <-). pose proof (Hbwd _ _ Hg Hu) as Hg0.
    specialize (Hfwd _ _ Hg0 Hu). destruct (gone (f_name g)).
    + specialize (Hfwd _ Hg). congruence.
    + symmetry. apply find_file_iff; [done..|]. eauto.
  - destruct (gone name) eqn:Eg; [done|]. symmetry. apply find_file_None. intros i f Hf Hu <-.
    specialize (Hfwd _ _ Hf Hu). rewrite Eg in Hfwd. rewrite find_file_None in E'. by eapply E'.
Qed.

(** What a removal does to the descriptor table. *)
Definition closed_on (gone : Z -> bool) v v' : Prop :=
  forall fd, find_fd (handles v') fd =
    h ← find_fd (handles v) fd;
    match h_file h with Some i => if gone i then None else Some h | None => Some h end.

Lemma find_fd_used hs fd h : fds_distinct hs -> find_fd hs fd = Some h -> h_used h = true.
Proof. intros Hd (i & _ & Hu & _)%find_fd_Some; done. Qed.

Lemma delete_legacy_ok filename v :
  vfs_wf v -> runs_to (delete_legacy filename v) (fun '(v', r) =>
    vfs_wf v' /\
    match find_file v filename with
    | None => v' = v /\ r = - ENOENT
    | Some i =>
        r = 0 /\ closed_on (Z.eqb i) v v' /\
        forall name, find_file v' name = if str_eq filename name then None else find_file v name
    end).
Proof.
  intros Hw. unfold delete_legacy. destruct (find_file v filename) as [i|] eqn:Ef; [|done].
  apply find_file_Some in Ef as (Hi & f & Hf & Hu & Hn). vget.
  destruct (wipe_file_ok f) as (g & -> & Hg & Hug); [by eapply file_lookup; [apply Hw|]|]. vproj.
  apply lookup_lt_Some in Hf as Hlt. vset. cbn [runs_to].
  destruct (drop_handles_ok _ _ release_handle i (wf_handles _ Hw) (fun _ => eq_refl)
    (release_handle_ok _)) as [Hhs Hfd].
  destruct (wipe_entry_ok _ _ i f g (wf_files _ Hw) Hhs Hi Hf Hg Hug) as [Hfs' Hhs'].
  { by apply drop_handles_unused. }
  set (v' := with_handles _ _).
  assert (Hw' : vfs_wf v') by (destruct Hw; by constructor).
  split; [done|]. split; [done|]. split.
  - intros fd. change (handles v') with (drop_handles release_handle i (handles v)). rewrite Hfd.
    destruct (find_fd (handles v) fd) as [h|] eqn:Eh; [|done]. simpl.
    apply find_fd_used in Eh; [|apply Hw]. unfold uses_file. rewrite Eh. simpl.
    destruct (h_file h) as [j|]; [|done]. destruct (Z.eqb_spec i j) as [->|Hne].
    + by rewrite bool_decide_true.
    + rewrite bool_decide_false; [done|congruence].
  - apply find_file_wiped; [apply Hw|done|..]; change (files v') with (<[Z.to_nat i := g]> (files v)).
    + intros j f' Hf' Hu'. unfold str_eq. case_bool_decide as En.
      * assert (j = Z.to_nat i) as -> by (eapply (fw_names _ (wf_files _ Hw)); eauto; congruence).
        intros g'. rewrite list_lookup_insert_eq by done. by intros [= <-].
      * rewrite list_lookup_insert_ne; [done|]. intros <-. congruence.
    + intros j g' [(_ & <- & _)|[_ ?]]%list_lookup_insert_Some Hu'; [congruence|done].
Qed.

Lemma vfs_delete_ok filename v :
  vfs_wf v -> 0 ∉ filename -> runs_to (vfs_delete filename v) (fun '(v', r) => vfs_wf v').
Proof.
  intros Hw H0. unfold vfs_delete.
  assert (Hl : runs_to (delete_legacy filename v) (fun '(v', r) => vfs_wf v')).
  { eapply runs_to_mono; [by apply delete_legacy_ok|]. by intros [v' r] [? _]. }
  destruct (mount_of_ok v filename Hw H0) as (r & -> & _). cbn [mbind outcome_bind].
  destruct r as [[[[i m] ops] rel]|]; [|done]. destruct (op_unlink ops) as [unlink|]; [|done].
  destruct (unlink m rel (vworld v)) as [w ret]. by apply wf_with_world.
Qed.

(** *** Directories *)

(** Entries strictly below the directory. *)
Definition doomed (dir : list Z) (dir_idx i : Z) (f : vfs_file) : bool :=
  f_used f && negb (i =? dir_idx) && (len dir <? len (f_name f)) && has_prefix dir (f_name f).

Definition hit (dir : list Z) (dir_idx k : Z) (fs : list vfs_file) (h : vfs_handle) : bool :=
  h_used h && match h_file h with
              | None => false
              | Some i => (k <=? i) && match fs !! Z.to_nat (i - k) with
                                       | Some f => doomed dir dir_idx i f
                                       | None => false
                                       end
              end.

Lemma hit_cons dir d k f fs h :
  hit dir d k (f :: fs) h = uses_file k h && doomed dir d k f || hit dir d (k + 1) fs h.
Proof.
  unfold hit, uses_file. destruct (h_used h); [|done]. destruct (h_file h) as [i|]; simpl.
  2: done.
  destruct (Z.leb_spec k i); simpl.
  - destruct (decide (i = k)) as [->|Hne].
    + rewrite bool_decide_true, Z.sub_diag by done. simpl.
      destruct (Z.leb_spec (k + 1) k); [lia|]. by rewrite orb_false_r.
    + rewrite bool_decide_false by congruence. destruct (Z.leb_spec (k + 1) i); [|lia]. simpl.
      by replace (Z.to_nat (i - k)) with (S (Z.to_nat (i - (k + 1)))) by lia.
  - rewrite bool_decide_false by (intros [= ->]; lia). destruct (Z.leb_spec (k + 1) i); [lia|done].
Qed.

(** The loop wipes the doomed entries and releases their handles. *)
Lemma rmdir_loop_ok dir d fs : Forall file_ok fs -> forall k hs,
  exists fs', rmdir_loop dir d fs k hs
    = Ret (fs', map (fun h => if hit dir d k fs h then reset_handle h else h) hs) /\
  length fs' = length fs /\
  forall j f, fs !! j = Some f -> exists g, fs' !! j = Some g /\
    if doomed dir d (k + Z.of_nat j) f then file_ok g /\ f_used g = false else g = f.
Proof.
  intros Hok. induction Hok as [|f fs Hf Hok IH]; intros k hs; cbn [rmdir_loop].
  { exists []. split_and!; [|done|done]. f_equal. f_equal. rewrite <- (map_id hs) at 1. apply map_ext.
    intros h. unfold hit. destruct (h_used h); [|done]. destruct (h_file h); [|done]. simpl. by destruct (_ <=? _). }
  fold (doomed dir d k f). destruct (doomed dir d k f) eqn:Ed.
  - destruct (wipe_file_ok f Hf) as (g & -> & Hg & Hug). cbn [mbind outcome_bind].
    destruct (IH (k + 1) (drop_handles reset_handle k hs)) as (fs' & -> & Hl & Hall). cbn [mbind outcome_bind].
    exists (g :: fs'). split_and!; [|simpl; by rewrite Hl|].
    + do 2 f_equal. unfold drop_handles. rewrite map_map. apply map_ext. intros h. rewrite hit_cons, Ed, andb_true_r.
      by destruct (uses_file k h) eqn:Eu.
    + intros [|j] f' Hj; [injection Hj as <-; rewrite Z.add_0_r, Ed; eauto|].
      rewrite Nat2Z.inj_succ. replace (k + Z.succ (Z.of_nat j)) with (k + 1 + Z.of_nat j) by lia.
      by apply Hall.
  - destruct (IH (k + 1) hs) as (fs' & -> & Hl & Hall). cbn [mbind outcome_bind].
    exists (f :: fs'). split_and!; [|simpl; by rewrite Hl|].
    + do 2 f_equal. apply map_ext. intros h. by rewrite hit_cons, Ed, andb_false_r.
    + intros [|j] f' Hj; [injection Hj as <-; rewrite Z.add_0_r, Ed; eauto|].
      rewrite Nat2Z.inj_succ. replace (k + Z.succ (Z.of_nat j)) with (k + 1 + Z.of_nat j) by lia.
      by apply Hall.
Qed.

Lemma handle_ok_unused fs fs' h : h_used h = false -> handle_ok fs h -> handle_ok fs' h.
Proof. intros Hu []. constructor; [done..|congruence|congruence]. Qed.

(** Wiping entries keeps the file table well formed. *)
Lemma files_wf_wiped fs fs' :
  files_wf fs -> length fs' = length fs ->
  (forall j g, fs' !! j = Some g -> file_ok g /\ (f_used g = true -> fs !! j = Some g)) ->
  files_wf fs'.
Proof.
  intros [Hl Ho Hn] Hlen Hall. constructor.
  - unfold len in *. by rewrite Hlen.
  - apply Forall_lookup. intros j g Hg. by apply Hall in Hg as [? _].
  - intros i j f g Hf Hg Hu Hu' E. apply Hall in Hf as [_ Hf]. apply Hall in Hg as [_ Hg]. eauto.
Qed.

Lemma normalized_dir_ok dirname :
  dirname <> [] -> len dirname < MAX_FILENAME - 1 ->
  normalized_dir dirname
  = Ret (if bool_decide (last dirname = Some SLASH) then dirname else dirname ++ [SLASH]).
Proof.
  intros Hne Hlen. unfold normalized_dir.
  destruct (exists_last Hne) as (s & c & ->). unfold len in *. rewrite length_app in *. simpl in Hlen.
  rewrite (aget_lookup _ _ c); [|simpl; lia|].
  2: { rewrite Nat2Z.inj_add, Z.add_simpl_r, Nat2Z.id. by apply list_lookup_middle. }
  cbn [mbind outcome_bind]. rewrite last_snoc. destruct (Z.eqb_spec c SLASH) as [->|].
  - by rewrite bool_decide_true.
  - rewrite bool_decide_false by congruence. apply strcpy_fits. unfold len. rewrite !length_app. simpl. lia.
Qed.

(** The names removed with a directory. *)
Definition removed (dirname dir name : list Z) : bool :=
  str_eq dirname name || (len dir <? len name) && has_prefix dir name.

Definition gone_entry (dir : list Z) (d : Z) (fs : list vfs_file) (i : Z) : bool :=
  (i =? d) || (0 <=? i) && match fs !! Z.to_nat i with Some f => doomed dir d i f | None => false end.

Lemma rmdir_handles dir d fs hs :
  drop_handles reset_handle d (map (fun h => if hit dir d 0 fs h then reset_handle h else h) hs)
  = map (fun h => if h_used h && match h_file h with Some i => gone_entry dir d fs i | None => false end
                  then reset_handle h else h) hs.
Proof.
  unfold drop_handles. rewrite map_map. apply map_ext. intros h. unfold hit, uses_file, gone_entry.
  destruct (h_used h) eqn:Hu; simpl; [|by rewrite Hu].
  destruct (h_file h) as [i|] eqn:Hf; simpl; [|by rewrite Hu, Hf].
  rewrite Z.sub_0_r. destruct (_ && match _ with Some _ => _ | None => _ end) eqn:E; simpl.
  - by rewrite orb_true_r.
  - rewrite Hu, Hf, orb_false_r. simpl. destruct (Z.eqb_spec i d) as [->|].
    + by rewrite bool_decide_true.
    + by rewrite bool_decide_false by congruence.
Qed.

(** The tables after a removal in which every used handle on a gone entry was
    released. *)
Lemma rmdir_tables dir d fs hs fs' f0 :
  files_wf fs -> handles_wf fs hs -> 0 <= d -> fs !! Z.to_nat d = Some f0 -> length fs' = length fs ->
  (forall j f, fs !! j = Some f -> exists g, fs' !! j = Some g /\
     if gone_entry dir d fs (Z.of_nat j) then file_ok g /\ f_used g = false else g = f) ->
  let hs' := map (fun h => if h_used h && match h_file h with Some i => gone_entry dir d fs i | None => false end
                           then reset_handle h else h) hs in
  files_wf fs' /\ handles_wf fs' hs' /\
  forall fd, find_fd hs' fd = h ← find_fd hs fd;
    match h_file h with Some i => if gone_entry dir d fs i then None else Some h | None => Some h end.
Proof.
  intros Hf [Hl Ho Hd] Hd0 Hfd Hlen Hall hs'.
  assert (Hback : forall j g, fs' !! j = Some g -> file_ok g /\ (f_used g = true -> fs !! j = Some g)).
  { intros j g Hg. apply lookup_lt_Some in Hg as Hlt. rewrite Hlen in Hlt.
    apply lookup_lt_is_Some_2 in Hlt as [f Hfj]. destruct (Hall j f Hfj) as (g' & Hg' & Hcase).
    rewrite Hg in Hg'. injection Hg' as <-. destruct (gone_entry _ _ _ _).
    - destruct Hcase as [? Hu]. split; [done|congruence].
    - subst g. split; [by eapply file_lookup|done]. }
  set (p := fun h => h_used h && match h_file h with Some i => gone_entry dir d fs i | None => false end).
  destruct (fds_drop hs reset_handle p Hd (fun _ => eq_refl)) as [Hd' Hfind].
  split_and!; [by eapply files_wf_wiped|..].
  - constructor; [unfold hs', len in *; by rewrite length_map| |exact Hd'].
    apply Forall_map. eapply Forall_impl; [exact Ho|]. intros h Hh. cbv beta.
    fold (p h). destruct (p h) eqn:Ep.
    { eapply handle_ok_unused; [done|]. by apply reset_handle_ok. }
    destruct (h_used h) eqn:Hu; [|by eapply handle_ok_unused].
    destruct Hh as [? ? ? ? Href]. constructor; [done..|]. intros _ i Hi.
    destruct (Href Hu i Hi) as (Hi0 & f & Hfi & Huf & Hp). split; [done|]. exists f. split; [|done].
    unfold p in Ep. rewrite Hu, Hi in Ep. simpl in Ep.
    destruct (Hall _ _ Hfi) as (g & Hg & Hcase). rewrite Z2Nat.id, Ep in Hcase by done. by subst g.
  - intros fd. etransitivity; [apply Hfind|]. destruct (find_fd hs fd) as [h|] eqn:E; [|done]. simpl.
    unfold p. rewrite (find_fd_used _ _ _ Hd E). simpl. by destruct (h_file h).
Qed.

(** By name or by entry, the same files go. *)
Lemma gone_removed v dirname dir d f j f' :
  vfs_wf v -> 0 <= d -> files v !! Z.to_nat d = Some f -> f_used f = true -> f_name f = dirname ->
  files v !! j = Some f' -> f_used f' = true ->
  gone_entry dir d (files v) (Z.of_nat j) = removed dirname dir (f_name f').
Proof.
  intros Hw Hd Hf Hu Hn Hj Hu'. unfold gone_entry, removed, doomed, str_eq.
  rewrite Nat2Z.id, Hj, Hu', (proj2 (Z.leb_le 0 (Z.of_nat j))) by lia. simpl.
  destruct (Z.eqb_spec (Z.of_nat j) d) as [E|Hne]; simpl.
  - rewrite bool_decide_true; [done|]. assert (j = Z.to_nat d) as -> by lia. congruence.
  - rewrite bool_decide_false; [done|]. intros E. apply Hne.
    assert (j = Z.to_nat d); [|lia]. by eapply (fw_names _ (wf_files _ Hw)); eauto; congruence.
Qed.

Lemma vfs_rmdir_ok dirname v :
  vfs_wf v -> dirname <> [] -> len dirname < MAX_FILENAME - 1 ->
  runs_to (vfs_rmdir dirname v) (fun '(v', r) =>
    vfs_wf v' /\
    (r < 0 /\ v' = v \/
     r = 0 /\ exists dir d, normalized_dir dirname = Ret dir /\ find_file v dirname = Some d /\
       closed_on (gone_entry dir d (files v)) v v' /\
       forall name, find_file v' name = if removed dirname dir name then None else find_file v name)).
Proof.
  intros Hw Hne Hlen. unfold vfs_rmdir.
  destruct (Z.leb_spec MAX_FILENAME (len dirname)); [lia|].
  destruct (find_file v dirname) as [d|] eqn:Ef; [|simpl; unfold ENOENT; split; [done|left; split; [lia|done]]].
  apply find_file_Some in Ef as (Hd & f & Hf & Hu & Hn). vget.
  destruct (decide _); [|simpl; unfold ENOTDIR; split; [done|left; split; [lia|done]]].
  destruct (str_eq dirname [SLASH]); [simpl; unfold EBUSY; split; [done|left; split; [lia|done]]|].
  rewrite normalized_dir_ok by done. set (dir := if bool_decide _ then _ else _). vproj.
  destruct (rmdir_loop_ok dir d (files v) (fw_ok _ (wf_files _ Hw)) 0 (handles v)) as (fs1 & -> & Hl1 & Hall).
  vproj. assert (Hd1 : fs1 !! Z.to_nat d = Some f).
  { destruct (Hall _ _ Hf) as (g & Hg & Hcase). rewrite Z.add_0_l, Z2Nat.id in Hcase by done.
    unfold doomed in Hcase. rewrite Z.eqb_refl, andb_false_r in Hcase.
    simpl in Hcase. by subst g. }
  vget. destruct (wipe_file_ok f) as (g & -> & Hg & Hug); [by eapply file_lookup; [apply Hw|]|]. vproj.
  apply lookup_lt_Some in Hd1 as Hlt. vset. cbn [runs_to]. rewrite rmdir_handles.
  set (fs2 := <[Z.to_nat d := g]> fs1).
  assert (Hall2 : forall j f, files v !! j = Some f -> exists g, fs2 !! j = Some g /\
     if gone_entry dir d (files v) (Z.of_nat j) then file_ok g /\ f_used g = false else g = f).
  { intros j f' Hj. unfold gone_entry. rewrite Nat2Z.id, Hj.
    destruct (Z.eqb_spec (Z.of_nat j) d) as [<-|Hnd]; simpl.
    - exists g. unfold fs2. rewrite Nat2Z.id, list_lookup_insert_eq by lia. done.
    - destruct (Hall _ _ Hj) as (g' & Hg' & Hcase). exists g'. unfold fs2.
      rewrite list_lookup_insert_ne by lia. rewrite Z.add_0_l in Hcase.
      by rewrite (proj2 (Z.leb_le 0 (Z.of_nat j))) by lia. }
  destruct (rmdir_tables dir d (files v) (handles v) fs2 f (wf_files _ Hw) (wf_handles _ Hw) Hd Hf)
    as (Hfs & Hhs & Hfd); [unfold fs2; by rewrite length_insert|done|].
  set (v' := with_handles _ _). assert (Hw' : vfs_wf v') by (destruct Hw; by constructor).
  split; [done|]. right. split; [done|]. exists dir, d. split_and!; [done|done|exact Hfd|].
  apply find_file_wiped; [apply Hw|done|..]; change (files v') with fs2.
  - intros j f' Hj Huf. destruct (Hall2 _ _ Hj) as (g' & Hg' & Hcase).
    rewrite <- (gone_removed v dirname dir d f j f') by done.
    destruct (gone_entry _ _ _ _); [|by subst g']. intros g1. rewrite Hg'. intros [= <-]. by destruct Hcase.
  - intros j g' Hg' Hu'. apply lookup_lt_Some in Hg' as Hlt'. unfold fs2 in Hlt'.
    rewrite length_insert, Hl1 in Hlt'. apply lookup_lt_is_Some_2 in Hlt' as [f' Hj].
    destruct (Hall2 _ _ Hj) as (g1 & Hg1 & Hcase). rewrite Hg' in Hg1. injection Hg1 as <-.
    destruct (gone_entry _ _ _ _); [destruct Hcase; congruence|by subst g'].
Qed.

(** ** Queries *)

Lemma vfs_exists_ok filename v :
  vfs_wf v -> 0 ∉ filename -> runs_to (vfs_exists filename v) (fun '(v', b) =>
    vfs_wf v' /\ files v' = files v /\ handles v' = handles v /\
    (is_Some (find_file v filename) -> b = true)).
Proof.
  intros Hw H0. unfold vfs_exists. destruct (find_file v filename) as [i|] eqn:Ef; [done|].
  destruct (mount_of_ok v filename Hw H0) as (r & -> & _). cbn [mbind outcome_bind].
  destruct r as [[[[i m] ops] rel]|]; [|by split_and!; [..|intros []]].
  destruct (op_stat ops) as [stat|]; [|by split_and!; [..|intros []]].
  destruct (stat m rel (vworld v)) as [w [rc st]]. split_and!; [by apply wf_with_world|done..|by intros []].
Qed.

Lemma vfs_stat_ok path stat v :
  vfs_wf v -> 0 ∉ default [] path -> runs_to (vfs_stat path stat v) (fun '(v', (rc, st)) =>
    vfs_wf v' /\ files v' = files v /\ handles v' = handles v).
Proof.
  intros Hw H0. unfold vfs_stat. destruct path as [path|], stat as [st|]; [|done..]. simpl in H0.
  cbv zeta.
  assert (Hl : runs_to (match find_file v path with
     | Some i => f ← aget (files v) i;
                 Ret (v, (0, Some (mkstat (file_mode (f_type f)) (i64 (f_size f)) 512 0)))
     | None => Ret (v, (- ENOENT, Some st)) end) (fun '(v', (rc, st)) =>
    vfs_wf v' /\ files v' = files v /\ handles v' = handles v)).
  { destruct (find_file v path) as [i|] eqn:Ef; [|done].
    apply find_file_Some in Ef as (Hi & f & Hf & _). vget. done. }
  destruct (mount_of_ok v path Hw H0) as (r & -> & _). cbn [mbind outcome_bind].
  destruct r as [[[[i m] ops] rel]|]; [|done]. destruct (op_stat ops) as [op|]; [|done].
  destruct (op m rel (vworld v)) as [w [rc st']]. split_and!; [by apply wf_with_world|done..].
Qed.

(** ** Drivers and mounts *)

Lemma find_registered_Some v name i :
  find_registered v name = Some i ->
  0 <= i < len (registered_fs v) /\
  exists r, registered_fs v !! Z.to_nat i = Some r /\ fs_registered r = true /\ fs_name r = name.
Proof.
  intros (Hi & r & Hr & [Hu Hn]%andb_true_iff & _)%first_index_Some.
  apply bool_decide_eq_true in Hn. split; [lia|]. eauto.
Qed.

(** Changing an entry that no mounted file system uses. *)
Lemma mounts_register rs ms i r0 r :
  mounts_wf rs ms -> rs !! i = Some r0 ->
  (forall m, m ∈ ms -> m_mounted m = true -> m_fs m <> Some (Z.of_nat i)) ->
  mounts_wf (<[i := r]> rs) ms.
Proof.
  intros [Hl Ho Hd] Hi Hno. constructor; [done| |done]. apply Forall_forall. intros m Hin.
  rewrite Forall_forall in Ho. destruct (Ho m Hin). constructor; [done..|]. intros Hm.
  destruct (mo_mounted Hm) as (Hrc & j & r' & Hj & Hr' & Hreg). split; [done|]. exists j, r'.
  split_and!; [done| |apply Hreg|apply Hreg]. rewrite list_lookup_insert_ne; [done|].
  intros E. apply (Hno m Hin Hm). rewrite Hj. f_equal. specialize (mo_fs j Hj). lia.
Qed.

Lemma vfs_register_filesystem_ok name ops flags v :
  vfs_wf v -> runs_to (vfs_register_filesystem name ops flags v) (fun '(v', r) =>
    vfs_wf v' /\ files v' = files v /\ handles v' = handles v).
Proof.
  intros Hw. unfold vfs_register_filesystem. destruct name as [name|], ops as [ops|]; [|done..].
  destruct (Z.leb_spec MAX_FS_NAME (len name)); [done|].
  destruct (find_registered v name) eqn:Ef; [done|].
  destruct (first_index _ _) as [i|] eqn:Ei; [|done].
  apply first_index_Some in Ei as (Hi & r & Hr & Hu%negb_true_iff & _).
  rewrite strcpy_fits by done. vproj. vset. cbn [runs_to]. split; [|done].
  pose proof (wf_regs _ Hw) as [Hl Ho]. destruct Hw. constructor; [done..| | |done].
  - constructor; simpl; [by rewrite len_insert|by apply Forall_insert].
  - eapply mounts_register; [done..|]. intros m Hin Hm E.
    pose proof (mw_ok _ _ wf_mounts) as Hms. rewrite Forall_forall in Hms.
    destruct (mo_mounted _ _ (Hms m Hin) Hm) as (_ & j & r' & Hj & Hr' & Hreg & _).
    rewrite E in Hj. injection Hj as <-. rewrite Nat2Z.id in Hr'. congruence.
Qed.

Lemma vfs_unregister_filesystem_ok name v :
  vfs_wf v -> runs_to (vfs_unregister_filesystem name v) (fun '(v', r) =>
    vfs_wf v' /\ files v' = files v /\ handles v' = handles v).
Proof.
  intros Hw. unfold vfs_unregister_filesystem. destruct name as [name|]; [|done].
  destruct (find_registered v name) as [i|] eqn:Ef; [|done].
  apply find_registered_Some in Ef as (Hi & r & Hr & Hreg & _).
  destruct (existsb _ _) eqn:Ee; [done|]. vget. vset. cbn [runs_to]. split; [|done].
  pose proof (wf_regs _ Hw) as [Hl Ho]. destruct Hw. constructor; [done..| | |done].
  - constructor; simpl; [by rewrite len_insert|by apply Forall_insert].
  - eapply mounts_register; [done..|]. intros m Hin Hm E. rewrite Z2Nat.id in E by lia.
    apply not_true_iff_false in Ee. apply Ee, existsb_exists. exists m.
    split; [by apply list_elem_of_In|]. rewrite Hm, E. by rewrite bool_decide_true.
Qed.

Lemma find_mount_point_Some v mp i :
  find_mount_point v mp = Some i ->
  0 <= i < len (mounts v) /\
  exists m, mounts v !! Z.to_nat i = Some m /\ m_mounted m = true /\ m_point m = mp.
Proof.
  intros (Hi & r & Hr & [Hu Hn]%andb_true_iff & _)%first_index_Some.
  apply bool_decide_eq_true in Hn. split; [lia|]. eauto.
Qed.

Lemma mounts_insert rs ms i m0 m :
  mounts_wf rs ms -> ms !! i = Some m0 -> mount_ok rs m ->
  (m_mounted m = true -> forall j m', ms !! j = Some m' -> m_mounted m' = true ->
     m_point m' = m_point m -> j = i) ->
  mounts_wf rs (<[i := m]> ms).
Proof.
  intros [Hl Ho Hd] Hi Hm Hn. constructor; [by rewrite len_insert|by apply Forall_insert|].
  intros a b x y Hx Hy Hux Huy Hxy.
  apply list_lookup_insert_Some in Hx as [(<- & <- & _)|[Ha Hx]];
    apply list_lookup_insert_Some in Hy as [(<- & <- & _)|[Hb Hy]]; [done|..].
  - symmetry. by eapply Hn.
  - by eapply Hn.
  - by eapply Hd.
Qed.

Lemma vfs_mount_fs_ok fs_name mount_point device flags data v :
  vfs_wf v -> len (default [] device) < MAX_MOUNT_PATH ->
  runs_to (vfs_mount_fs fs_name mount_point device flags data v) (fun '(v', r) =>
    vfs_wf v' /\ handles v' = handles v /\
    (r = 0 -> forall mp, mount_point = Some mp -> exists i m,
       mounts v' !! i = Some m /\ m_mounted m = true /\ m_point m = mp)).
Proof.
  intros Hw Hdev. unfold vfs_mount_fs.
  destruct fs_name as [fn|], mount_point as [mp|]; [|by simpl; split_and!..].
  destruct (Z.leb_spec MAX_MOUNT_PATH (len mp)); [by simpl; split_and!|].
  eapply runs_to_bind; [by apply mkdir_ok|]. intros [v1 mr] (Hw1 & Hh1 & _).
  destruct ((mr <? 0) && _) eqn:Em; [split_and!; [done..|]; intros ->; done|].
  destruct (vfs_find_filesystem (Some fn) v1) as [ri|] eqn:Er; [|by simpl; split_and!].
  apply find_registered_Some in Er as (Hri & r & Hr & Hreg & _).
  destruct (find_mount_point v1 mp) eqn:Ep; [by simpl; split_and!|].
  destruct (first_index _ _) as [mi|] eqn:Ei; [|by simpl; split_and!].
  apply first_index_Some in Ei as (Hmi & m0 & Hm0 & Hu%negb_true_iff & _). vget.
  rewrite strcpy_fits by done. vproj.
  eapply (runs_to_bind _ _ (fun _ => True)).
  { destruct device; simpl in *; [by rewrite strcpy_fits|done]. }
  intros dev _. unfold mount_ops. cbn [m_fs]. vget.
  destruct (match fs_ops r with Some _ => _ | None => _ end) as [w [result private]].
  pose proof (rw_ops _ (wf_regs _ Hw1)) as Hops. pose proof (rw_len _ (wf_regs _ Hw1)) as Hrl.
  rewrite Forall_lookup in Hops. specialize (Hops _ _ Hr Hreg).
  destruct (result <? 0) eqn:Eres; vproj; vset; cbn [runs_to].
  - split_and!; [|done|intros ->; done]. apply wf_with_mounts; [by apply wf_with_world|].
    eapply mounts_insert; [apply Hw1|done|constructor; simpl; [done|intros ? [= <-]; lia|done]|done].
  - split_and!; [|done|].
    + apply wf_with_mounts; [by apply wf_with_world|]. eapply mounts_insert; [apply Hw1|done|..].
      * constructor; simpl; [done|intros ? [= <-]; lia|]. intros _. split; [done|]. by exists ri, r.
      * intros _ j m' Hj Hm' E. exfalso. apply first_index_None in Ep. rewrite Forall_lookup in Ep.
        specialize (Ep _ _ Hj). rewrite Hm' in Ep. simpl in Ep. by apply bool_decide_eq_false in Ep.
    + intros _ mp' [= <-]. exists (Z.to_nat mi). eexists.
      split; [apply list_lookup_insert_eq; unfold len in *; lia|done].
Qed.

Lemma vfs_umount_ok mount_point v :
  vfs_wf v -> runs_to (vfs_umount mount_point v) (fun '(v', r) =>
    vfs_wf v' /\ files v' = files v /\ handles v' = handles v /\ file_handles v' = file_handles v /\
    (r < 0 /\ mounts v' = mounts v \/
     r = 0 /\ exists i m, mounts v !! i = Some m /\ Some (m_point m) = mount_point /\
       forall j m', mounts v' !! j = Some m' ->
         if decide (j = i) then m_mounted m' = false /\ m_fs m' = None else mounts v !! j = Some m')).
Proof.
  intros Hw. unfold vfs_umount.
  assert (Herr : forall e, 0 < e -> vfs_wf v /\ files v = files v /\ handles v = handles v /\
    file_handles v = file_handles v /\ (- e < 0 /\ mounts v = mounts v \/
     - e = 0 /\ exists i m, mounts v !! i = Some m /\ Some (m_point m) = mount_point /\
       forall j m', mounts v !! j = Some m' ->
         if decide (j = i) then m_mounted m' = false /\ m_fs m' = None else mounts v !! j = Some m')).
  { intros e He. split_and!; [done..|]. left. split; [lia|done]. }
  destruct mount_point as [mp|]; [|by apply Herr].
  destruct (find_mount_point v mp) as [mi|] eqn:Ef; [|by apply Herr].
  apply find_mount_point_Some in Ef as (Hmi & m & Hm & Hmm & <-). vget.
  pose proof (mount_lookup _ _ _ Hw Hm) as Hok. destruct (mo_mounted _ _ Hok Hmm) as [Hrc _].
  rewrite Hrc. cbn [Z.ltb Z.compare].
  destruct (mount_ops_ok v m (wf_regs _ Hw) Hok) as (o & ->). vproj.
  destruct (match o with Some _ => _ | None => _ end) as [w result].
  destruct (Z.ltb_spec result 0); [cbn [runs_to]; split_and!; [by apply wf_with_world|done..|by left]|].
  vproj. vset. cbn [runs_to]. split_and!; [|done..|].
  - apply wf_with_mounts; [by apply wf_with_world|]. eapply mounts_insert; [apply Hw|done| |done].
    destruct Hok. by constructor.
  - right. split; [done|]. exists (Z.to_nat mi), m. split_and!; [done..|].
    intros j m' [(<- & <- & _)|[Hj Hm']]%list_lookup_insert_Some; [by rewrite decide_True|].
    by rewrite decide_False.
Qed.

(** ** Listings *)

(** The directory entries of the file table below [path]. *)
Definition children (path : list Z) (fs : list vfs_file) : list vfs_dirent :=
  omap (fun f => if f_used f
                 then (fun base => mkdirent base (type_code (f_type f))) <$> child_name path (f_name f)
                 else None) fs.

(** Adds the components of the mount points that are not listed yet. *)
Fixpoint add_mounts (path : list Z) (max : Z) (ms : list vfs_mount) (acc : list vfs_dirent)
  : list vfs_dirent :=
  match ms with
  | [] => acc
  | m :: ms' =>
      add_mounts path max ms'
        (match (if m_mounted m then mount_component path (m_point m) else None) with
         | Some base => if existsb (fun e => str_eq (d_name e) base) acc || negb (len acc <? max)
                        then acc else acc ++ [mkdirent base (type_code VFS_TYPE_DIR)]
         | None => acc
         end)
  end.

Lemma len_app {A} (l k : list A) : len (l ++ k) = len l + len k.
Proof. unfold len. rewrite length_app. lia. Qed.

Lemma len_drop {A} n (l : list A) : len (drop n l) <= len l.
Proof. unfold len. rewrite length_drop. lia. Qed.

Lemma child_name_short path name base : child_name path name = Some base -> len base <= len name.
Proof. unfold child_name. repeat destruct (if _ then _ else _); repeat case_match; intros; simplify_eq; apply len_drop. Qed.

Lemma until_slash_short s : len (until_slash s) <= len s.
Proof.
  unfold len. induction s as [|c s IH]; simpl; [lia|]. destruct (c =? SLASH); simpl; lia.
Qed.

Lemma mount_component_short path mp base : mount_component path mp = Some base -> len base <= len mp.
Proof.
  unfold mount_component. repeat case_match; intros; simplify_eq;
  match goal with |- len (take ?n (until_slash (drop ?k ?l))) <= _ =>
    pose proof (until_slash_short (drop k l)); pose proof (len_drop k l);
    enough (len (take n (until_slash (drop k l))) <= len (until_slash (drop k l))) by lia;
    unfold len; rewrite length_take; lia end.
Qed.

(** Storing entry [count] behind the entries already there. *)
Lemma put_entry_ok es count acc name type :
  count = len acc -> take (length acc) es = acc -> count < len es -> len name < MAX_FILENAME ->
  exists es', put_entry es count name type = Ret es' /\ len es' = len es /\
  take (length (acc ++ [mkdirent name type])) es' = acc ++ [mkdirent name type].
Proof.
  intros -> Hacc Hlt Hn. unfold put_entry. rewrite strcpy_fits by done. cbn [mbind outcome_bind].
  unfold len in *. rewrite aset_in_bounds by (unfold len; lia). rewrite Nat2Z.id.
  eexists. split; [done|]. rewrite length_insert, length_app. split; [done|]. simpl.
  rewrite Nat.add_1_r. erewrite take_S_r by (apply list_lookup_insert_eq; lia).
  by rewrite take_insert_ge, Hacc by lia.
Qed.

Lemma readdir_files_ok path max fs : Forall file_ok fs -> forall es acc,
  take (length acc) es = acc -> len acc <= max <= len es ->
  exists es' acc', readdir_files path max fs es (len acc) = Ret (es', len acc') /\ len es' = len es /\
  take (length acc') es' = acc' /\ len acc' <= max /\
  acc' = acc ++ take (Z.to_nat (max - len acc)) (children path fs).
Proof.
  intros Hok. induction Hok as [|f fs Hf Hok IH]; intros es acc Hacc Hmax; cbn [readdir_files].
  { exists es, acc. split_and!; [done..|lia|]. unfold children. simpl. by rewrite take_nil, app_nil_r. }
  destruct (Z.ltb_spec (len acc) max); simpl.
  2: { exists es, acc. split_and!; [done..|lia|]. replace (max - len acc) with 0 by lia. by rewrite app_nil_r. }
  destruct (f_used f) eqn:Hu; simpl; [|by apply IH].
  destruct (child_name path (f_name f)) as [base|] eqn:Ec; [|by apply IH].
  apply child_name_short in Ec as Hs. pose proof (fo_name _ Hf).
  destruct (put_entry_ok es (len acc) acc base (type_code (f_type f)) eq_refl Hacc) as (es1 & -> & Hl1 & Ha1);
    [lia..|]. cbn [mbind outcome_bind].
  replace (len acc + 1) with (len (acc ++ [mkdirent base (type_code (f_type f))])) by (rewrite len_app; done).
  assert (len (acc ++ [mkdirent base (type_code (f_type f))]) = len acc + 1) as E1 by (rewrite len_app; done).
  destruct (IH es1 _ Ha1) as (es' & acc' & -> & Hl' & Ha' & Hm' & ->); [lia|].
  exists es'. eexists. split_and!; [done|congruence|done|done|].
  rewrite <- app_assoc. f_equal. rewrite E1.
  replace (Z.to_nat (max - len acc)) with (S (Z.to_nat (max - (len acc + 1)))) by lia. done.
Qed.

Lemma readdir_mounts_ok path max rs ms :
  Forall (mount_ok rs) ms -> 0 <= max < 2 ^ 31 -> forall es acc,
  take (length acc) es = acc -> len acc <= max <= len es ->
  exists es', readdir_mounts path max ms es (len acc) = Ret (es', len (add_mounts path max ms acc)) /\
  len es' = len es /\ take (length (add_mounts path max ms acc)) es' = add_mounts path max ms acc /\
  len (add_mounts path max ms acc) <= max.
Proof.
  intros Hok Hmax. induction Hok as [|m ms Hm Hok IH]; intros es acc Hacc Hle;
    cbn [readdir_mounts add_mounts]; [exists es; split_and!; [done..|lia]|].
  destruct (m_mounted m); simpl; [|by apply IH].
  destruct (mount_component path (m_point m)) as [base|] eqn:Ec; [|by apply IH].
  unfold len at 1. rewrite Nat2Z.id, Hacc.
  destruct (existsb _ acc); simpl; [by apply IH|]. rewrite i32_id by lia.
  destruct (Z.ltb_spec (len acc) max); simpl; [|by apply IH].
  apply mount_component_short in Ec as Hs. pose proof (mo_point _ _ Hm).
  destruct (put_entry_ok es (len acc) acc base 1 eq_refl Hacc) as (es1 & -> & Hl1 & Ha1);
    [lia|unfold MAX_MOUNT_PATH, MAX_FILENAME in *; lia|]. cbn [mbind outcome_bind].
  replace (len acc + 1) with (len (acc ++ [mkdirent base 1])) by (rewrite len_app; done).
  rewrite <- Hl1. apply IH; [done|]. rewrite len_app. unfold len at 2. simpl. lia.
Qed.

(** The path of entry [base] of directory [path]. *)
Definition join (path base : list Z) : list Z :=
  if is_root path then SLASH :: base else path ++ SLASH :: base.

Lemma slashes_zero s : (slashes s =? 0) = true <-> SLASH ∉ s.
Proof.
  rewrite Z.eqb_eq. unfold slashes, len. split.
  - intros E Hin. assert (Hf : SLASH ∈ filter (fun c => c = SLASH) s) by by apply list_elem_of_filter.
    destruct (filter _ s); [by apply not_elem_of_nil in Hf|]. simpl in E. lia.
  - intros Hn. destruct (filter _ s) as [|c l] eqn:E; [done|].
    assert (Hc : c ∈ filter (fun c => c = SLASH) s) by (rewrite E; left).
    apply list_elem_of_filter in Hc as [-> ?]. done.
Qed.

(** A direct child: the directory, one slash, and a name without slashes. *)
Lemma child_name_spec path name base :
  child_name path name = Some base <->
  name = join path base /\ (SLASH ∉ base) /\ (is_root path = true -> base <> []).
Proof.
  unfold child_name, join. destruct (is_root path).
  - split.
    + destruct (_ && _) eqn:E; [|done]. intros [= <-].
      apply andb_true_iff in E as [[Hh%bool_decide_eq_true Hl]%andb_true_iff Hs%slashes_zero].
      destruct name as [|c name]; [done|]. simpl in *. injection Hh as ->.
      rewrite drop_0 in *. split_and!; [done..|]. intros _ ->. unfold len in Hl. done.
    + intros (-> & Hs & Hne). assert (Hl : (1 <? len (SLASH :: base)) = true).
      { apply Z.ltb_lt. destruct base; [by destruct Hne|]. unfold len. simpl. lia. }
      rewrite Hl. simpl. by rewrite drop_0, (proj2 (slashes_zero base)).
  - split.
    + destruct (_ && _) eqn:E; [|done]. intros [= <-].
      apply andb_true_iff in E as [[[_ Hc%bool_decide_eq_true]%andb_true_iff Hp]%andb_true_iff Hs%slashes_zero].
      split_and!; [|done..]. apply has_prefix_spec in Hp. rewrite Hp at 1. f_equal.
      by rewrite (drop_S _ _ _ Hc).
    + intros (-> & Hs & _). unfold len. rewrite length_app. simpl.
      rewrite (proj2 (Z.ltb_lt _ _)) by lia. rewrite bool_decide_true by by apply list_lookup_middle.
      rewrite (proj2 (has_prefix_spec _ _)) by (by rewrite drop_app_length).
      assert (drop (S (length path)) (path ++ SLASH :: base) = base) as ->.
      { rewrite drop_app_ge by lia. by replace (S (length path) - length path)%nat with 1%nat by lia. }
      by rewrite (proj2 (slashes_zero base)).
Qed.

Lemma join_inj path a b : join path a = join path b -> a = b.
Proof.
  unfold join. destruct (is_root path); [by intros [=]|]. intros E. apply app_inv_head in E. by injection E.
Qed.

Lemma children_elem path fs base :
  base ∈ d_name <$> children path fs <->
  exists i f, fs !! i = Some f /\ f_used f = true /\ child_name path (f_name f) = Some base.
Proof.
  rewrite list_elem_of_fmap. unfold children. setoid_rewrite list_elem_of_omap. split.
  - intros (d & -> & f & Hf & Hd). apply list_elem_of_lookup in Hf as [i Hi]. exists i, f.
    destruct (f_used f); [|done]. destruct (child_name path (f_name f)); simplify_eq/=. done.
  - intros (i & f & Hi & Hu & Hc). eexists. split; [|exists f; rewrite Hu, Hc; split; [by eapply list_elem_of_lookup_2|done]].
    done.
Qed.

Lemma children_NoDup path fs : names_distinct fs -> NoDup (d_name <$> children path fs).
Proof.
  induction fs as [|f fs IH]; intros Hd; [constructor|]. unfold children. simpl. fold (children path fs).
  assert (Hd' : names_distinct fs).
  { intros i j g g' Hi Hj Hu Hu' E. enough (S i = S j) by lia. by eapply Hd. }
  destruct (f_used f) eqn:Hu; [|by apply IH].
  destruct (child_name path (f_name f)) as [base|] eqn:Ec; [|by apply IH]. cbn [fmap option_fmap option_map].
  rewrite fmap_cons. cbn [d_name]. constructor; [|by apply IH].
  fold (children path fs). change (base ∉ d_name <$> children path fs). rewrite children_elem. intros (i & g & Hi & Hug & Hg).
  apply child_name_spec in Ec as (En & _). apply child_name_spec in Hg as (En' & _).
  specialize (Hd 0%nat (S i) f g eq_refl Hi Hu Hug). rewrite En, En' in Hd. by specialize (Hd eq_refl).
Qed.

Lemma existsb_name base acc :
  existsb (fun e => str_eq (d_name e) base) acc = true <-> base ∈ d_name <$> acc.
Proof.
  rewrite existsb_exists, list_elem_of_fmap. unfold str_eq. setoid_rewrite bool_decide_eq_true.
  setoid_rewrite <- list_elem_of_In. naive_solver.
Qed.

(** With room for all of them, the mounts add exactly their components, once. *)
Lemma add_mounts_spec path max ms : forall acc,
  len acc + len ms <= max -> NoDup (d_name <$> acc) ->
  NoDup (d_name <$> add_mounts path max ms acc) /\
  forall base, base ∈ d_name <$> add_mounts path max ms acc <->
    base ∈ d_name <$> acc \/
    exists i m, ms !! i = Some m /\ m_mounted m = true /\ mount_component path (m_point m) = Some base.
Proof.
  induction ms as [|m ms IH]; intros acc Hle Hnd; cbn [add_mounts].
  { split; [done|]. intros base. split; [by left|]. by intros [?|(i & m & Hi & _)]. }
  assert (Hlm : len (m :: ms) = len ms + 1) by (unfold len; simpl; lia). rewrite Hlm in Hle.
  set (acc' := match _ with Some _ => _ | None => _ end).
  assert (Hacc' : len acc' <= len acc + 1 /\ NoDup (d_name <$> acc') /\
    forall base, base ∈ d_name <$> acc' <-> base ∈ d_name <$> acc \/
      m_mounted m = true /\ mount_component path (m_point m) = Some base).
  { subst acc'. destruct (m_mounted m); [|split_and!; [lia|done|naive_solver]].
    destruct (mount_component path (m_point m)) as [b|]; [|split_and!; [lia|done|naive_solver]].
    destruct (Z.ltb_spec (len acc) max); [|unfold len in *; lia]. rewrite orb_false_r.
    destruct (existsb _ acc) eqn:Ee.
    - apply existsb_name in Ee. split_and!; [lia|done|naive_solver].
    - apply not_true_iff_false in Ee. rewrite existsb_name in Ee. rewrite len_app, fmap_app.
      change (d_name <$> [mkdirent b (type_code VFS_TYPE_DIR)]) with [b].
      split_and!; [done| |intros base; rewrite elem_of_app, list_elem_of_singleton; naive_solver].
      apply NoDup_app. split_and!; [done| |apply NoDup_singleton].
      intros x Hx ->%list_elem_of_singleton. done. }
  destruct Hacc' as (Hl' & Hnd' & Hin'). destruct (IH acc') as [Hnd2 Hin2]; [lia|done|]. split; [done|].
  intros base. rewrite Hin2, Hin'. split.
  - intros [[?|[? ?]]|(i & m' & ?)]; [by left|right; by exists 0%nat, m|right; by exists (S i), m'].
  - intros [?|([|i] & m' & Hi & ?)]; [by left; left| |right; by exists i, m'].
    injection Hi as <-. left. by right.
Qed.

Lemma normalized_path_ok path :
  len path < MAX_FILENAME -> exists p, normalized_path path = Ret p /\
  p = if (1 <? len path) && bool_decide (last path = Some SLASH) then removelast path else path.
Proof. intros H. unfold normalized_path. rewrite strcpy_fits by done. eexists. done. Qed.

Lemma put_entries_ok stored : forall es i,
  0 <= i -> i + len stored <= len es -> exists es', put_entries es i stored = Ret es' /\ len es' = len es.
Proof.
  induction stored as [|e stored IH]; intros es i Hi Hle; cbn [put_entries]; [eauto|].
  assert (len (e :: stored) = len stored + 1) as E by (unfold len; simpl; lia). rewrite E in Hle.
  rewrite aset_in_bounds by (unfold len in *; lia). cbn [mbind outcome_bind].
  destruct (IH (<[Z.to_nat i := e]> es) (i + 1)) as (es' & -> & Hl); [lia|rewrite len_insert; lia|].
  exists es'. split; [done|]. by rewrite Hl, len_insert.
Qed.

Lemma add_mounts_full path max ms : forall acc, max <= len acc -> add_mounts path max ms acc = acc.
Proof.
  induction ms as [|m ms IH]; intros acc Hle; cbn [add_mounts]; [done|].
  replace (match _ with Some _ => _ | None => _ end) with acc; [by apply IH|].
  destruct (m_mounted m); [|done]. destruct (mount_component path (m_point m)); [|done].
  destruct (Z.ltb_spec (len acc) max); [lia|]. by rewrite orb_true_r.
Qed.

Lemma add_mounts_bound path max ms : forall acc, len acc <= max -> len (add_mounts path max ms acc) <= max.
Proof.
  induction ms as [|m ms IH]; intros acc Hle; cbn [add_mounts]; [done|]. apply IH.
  destruct (m_mounted m); [|done]. destruct (mount_component path (m_point m)); [|done].
  destruct (Z.ltb_spec (len acc) max); [|by rewrite orb_true_r]. destruct (existsb _ _); [done|].
  simpl. rewrite len_app. unfold len at 2. simpl. lia.
Qed.

(** The second half of [vfs_readdir]. *)
Lemma mount_phase path max v v' es acc :
  vfs_wf v' -> 0 < max < 2 ^ 31 -> take (length acc) es = acc -> len acc <= max <= len es ->
  exists es',
  (if len acc <? i32 max then
     '(es, count) ← readdir_mounts path max (mounts v') es (len acc); Ret (v, count, Some es)
   else Ret (v, len acc, Some es)) = Ret (v, len (add_mounts path max (mounts v') acc), Some es') /\
  len es' = len es /\
  take (length (add_mounts path max (mounts v') acc)) es' = add_mounts path max (mounts v') acc.
Proof.
  intros Hw Hmax Hacc Hle. rewrite i32_id by lia. destruct (Z.ltb_spec (len acc) max).
  - destruct (readdir_mounts_ok path max _ _ (mw_ok _ _ (wf_mounts _ Hw)) ltac:(lia) es acc Hacc Hle)
      as (es' & -> & Hl & Ht & _). cbn [mbind outcome_bind]. eauto.
  - rewrite add_mounts_full by lia. eauto.
Qed.

(** The listing of a directory that no file-system driver lists. *)
Definition listing (path p : list Z) (max : Z) v : list vfs_dirent :=
  add_mounts path max (mounts v) (take (Z.to_nat max) (children p (files v))).

Definition undriven path v : Prop :=
  exists r, mount_of path v = Ret r /\ forall i m ops rel, r = Some (i, m, ops, rel) -> op_readdir ops = None.

Lemma vfs_readdir_legacy path max v es :
  vfs_wf v -> len path < MAX_FILENAME -> 0 < max < 2 ^ 31 -> max <= len es -> undriven path v ->
  exists p es', normalized_path path = Ret p /\
  vfs_readdir (Some path) (Some es) max v = Ret (v, len (listing path p max v), Some es') /\
  len es' = len es /\ take (length (listing path p max v)) es' = listing path p max v.
Proof.
  intros Hw Hlen Hmax Hes (r & Hr & Hund). destruct (normalized_path_ok path Hlen) as (p & Hp & _).
  exists p. unfold vfs_readdir. rewrite (proj2 (Z.eqb_neq max 0)) by lia. rewrite Hr, Hp. cbn [mbind outcome_bind].
  destruct (readdir_files_ok p max (files v) (fw_ok _ (wf_files _ Hw)) es []) as (es1 & acc & Hrf & Hl1 & Ht1 & Hm1 & Eacc).
  { done. } { unfold len at 1. simpl. lia. }
  change (len []) with 0 in Hrf. rewrite Z.sub_0_r, app_nil_l in Eacc.
  destruct (mount_phase path max v v es1 acc Hw Hmax Ht1 ltac:(lia)) as (es2 & Hph & Hl2 & Ht2).
  exists es2. split; [done|]. unfold listing. rewrite <- Eacc. rewrite <- Hl1.
  split_and!; [|done..]. rewrite <- Hph.
  destruct r as [[[[i m] ops] rel]|]; [rewrite (Hund _ _ _ _ eq_refl)|]; rewrite Hrf; done.
Qed.

Lemma vfs_readdir_ok path entries max v :
  vfs_wf v -> (forall p, path = Some p -> (0 ∉ p) /\ len p < MAX_FILENAME) -> 0 <= max < 2 ^ 31 ->
  (forall es, entries = Some es -> max <= len es) ->
  runs_to (vfs_readdir path entries max v) (fun '(v', n, es') =>
    vfs_wf v' /\ files v' = files v /\ handles v' = handles v /\ n <= max).
Proof.
  intros Hw Hpath Hmax Hes. unfold vfs_readdir.
  assert (Herr : vfs_wf v /\ files v = files v /\ handles v = handles v /\ - EINVAL <= max)
    by (unfold EINVAL; split_and!; [done..|lia]).
  destruct path as [path|], entries as [es|]; [|done..].
  destruct (Hpath path eq_refl) as [H0 Hlen]. specialize (Hes es eq_refl).
  destruct (Z.eqb_spec max 0) as [|Hne]; [done|].
  destruct (mount_of_ok v path Hw H0) as (r & Er & _).
  destruct (match r with Some (_, _, ops, _) => op_readdir ops | None => None end) as [op|] eqn:Eop.
  - destruct r as [[[[i m] ops] rel]|]; [|done]. rewrite Er. cbn [mbind outcome_bind]. rewrite Eop.
    destruct (op m rel max (vworld v)) as [w [n stored]] eqn:E.
    destruct (op_readdir_ok _ _ _ _ _ _ _ _ _ Eop E ltac:(lia)) as [Hn Hst].
    destruct (put_entries_ok stored es 0) as (es1 & -> & Hl1); [lia..|]. cbn [mbind outcome_bind].
    set (count := if 0 <? n then n else 0).
    assert (Hc : 0 <= count <= max) by (unfold count, len in *; destruct (Z.ltb_spec 0 n); lia).
    set (acc := take (Z.to_nat count) es1).
    assert (Hacc : len acc = count) by (unfold acc, len in *; rewrite length_take; lia).
    rewrite <- Hacc. destruct (mount_phase path max (with_world v w) (with_world v w) es1 acc) as (es2 & -> & Hl2 & Ht2);
      [by apply wf_with_world|lia|unfold acc, len in *; rewrite length_take; f_equal; lia|lia|].
    cbn [runs_to]. split_and!; [by apply wf_with_world|done..|].
    by apply add_mounts_bound; lia.
  - destruct (vfs_readdir_legacy path max v es) as (p & es' & _ & E & _); [done|done|lia|done|..].
    { exists r. split; [done|]. intros i m ops rel ->. done. }
    unfold vfs_readdir in E. rewrite (proj2 (Z.eqb_neq max 0)) in E by done.
    match type of E with ?x = _ => match goal with |- runs_to ?y _ => change (runs_to x (fun '(v', n, es') =>
      vfs_wf v' /\ files v' = files v /\ handles v' = handles v /\ n <= max)) end end.
    rewrite E. cbn [runs_to]. split_and!; [done..|]. apply add_mounts_bound.
    unfold len. rewrite length_take. lia.
Qed.

(** ** Initialisation *)

(** The shape of the static tables, as the loader leaves them and as every
    operation keeps them. *)
Record tables_shape (v : vfs W) : Prop := {
  ts_files : len (files v) = MAX_FILES /\ Forall (fun f => len (f_data f) = MAX_FILE_SIZE) (files v);
  ts_handles : len (handles v) = MAX_HANDLES /\
    Forall (fun h => (forall m, h_mount h = Some m -> 0 <= m < MAX_MOUNTS) /\
                     (forall x, h_fs_private h = Some x -> 0 <= x < MAX_HANDLES)) (handles v);
  ts_next_fd : 3 <= next_fd v <= MAX_HANDLES + 3;
  ts_regs : len (registered_fs v) = MAX_REGISTERED_FS;
  ts_mounts : len (mounts v) = MAX_MOUNTS /\ Forall (fun m => len (m_point m) < MAX_MOUNT_PATH) (mounts v);
  ts_fhs : len (file_handles v) = MAX_HANDLES
}.

Lemma wipe_files_ok fs :
  Forall (fun f => len (f_data f) = MAX_FILE_SIZE) fs ->
  exists fs', wipe_files fs = Ret fs' /\ length fs' = length fs /\
  Forall (fun f => file_ok f /\ f_used f = false) fs'.
Proof.
  induction 1 as [|f fs Hf _ (fs' & E & Hl & Hall)]; cbn [wipe_files]; [by exists []|].
  unfold wipe_file. rewrite aset_in_bounds by (unfold MAX_FILE_SIZE in *; lia). cbn [mbind outcome_bind].
  rewrite E. cbn [mbind outcome_bind].
  eexists. split_and!; [done|simpl; by rewrite Hl|]. constructor; [|done]. split; [|done].
  constructor; cbn [f_data f_size f_name]; [by rewrite len_insert|done|done].
Qed.

(** Before [devfs_init] the standard streams are open and nothing else. *)
Lemma vfs_init_tables fs hs :
  files_wf fs -> len hs = MAX_HANDLES ->
  Forall (fun h => h_used h = false /\ handle_ok fs h) hs ->
  runs_to (h0 ← aget hs 0; hs ← aset hs 0 (std_handle 0 VFS_READ h0);
           h1 ← aget hs 1; hs ← aset hs 1 (std_handle 1 VFS_WRITE h1);
           h2 ← aget hs 2; hs ← aset hs 2 (std_handle 2 VFS_WRITE h2); Ret hs)
    (fun hs' => handles_wf fs hs' /\ forall fd, is_Some (find_fd hs' fd) <-> 0 <= fd < 3).
Proof.
  intros Hf Hlen Hall. unfold MAX_HANDLES in Hlen.
  destruct hs as [|a [|b [|c hs]]]; try (unfold len in Hlen; simpl in Hlen; lia).
  change (aget _ 0) with (Ret a). cbn [mbind outcome_bind]. rewrite aset_in_bounds by lia. cbn [mbind outcome_bind].
  change (aget _ 1) with (Ret b). cbn [mbind outcome_bind].
  rewrite aset_in_bounds by (rewrite len_insert; lia). cbn [mbind outcome_bind].
  change (aget _ 2) with (Ret c). cbn [mbind outcome_bind].
  rewrite aset_in_bounds by (rewrite !len_insert; lia). cbn [mbind outcome_bind runs_to].
  set (hs' := <[Z.to_nat 2 := _]> _).
  change hs' with (std_handle 0 VFS_READ a :: std_handle 1 VFS_WRITE b :: std_handle 2 VFS_WRITE c :: hs) in *.
  clear hs'. set (hs' := _ :: _ :: _ :: hs).
  apply Forall_cons in Hall as [[_ Ha] Hall]. apply Forall_cons in Hall as [[_ Hb] Hall].
  apply Forall_cons in Hall as [[_ Hc] Hall].
  assert (Hslot : forall i h, hs' !! i = Some h -> h_used h = true -> (i < 3)%nat /\ h_fd h = Z.of_nat i).
  { intros [|[|[|i]]] h; simpl; [intros [= <-] _; split; [lia|reflexivity]..|]. intros Hi Hu. rewrite Forall_lookup in Hall.
    destruct (Hall _ _ Hi). congruence. }
  assert (Hd : fds_distinct hs').
  { intros i j h h' Hi Hj Hu Hu' E. destruct (Hslot _ _ Hi Hu) as [_ E1].
    destruct (Hslot _ _ Hj Hu') as [_ E2]. lia. }
  split.
  - constructor; [exact Hlen| |done].
    assert (Hstd : forall fd fl h, 0 <= fd -> handle_ok fs h -> handle_ok fs (std_handle fd fl h)).
    { intros fd fl h Hfd []. constructor; [done..|]. by intros _ i. }
    repeat (constructor; [by apply Hstd|]). eapply Forall_impl; [exact Hall|]. by intros h [_ ?].
  - intros fd. split.
    + intros [h (i & Hi & Hu & <-)%find_fd_Some]; [|done]. apply Hslot in Hi; [|done]. lia.
    + intros Hfd. assert (fd = 0 \/ fd = 1 \/ fd = 2) as [->|[->| ->]] by lia;
        eexists; apply find_fd_Some; try done; [exists 0%nat|exists 1%nat|exists 2%nat]; done.
Qed.

Lemma vfs_init_ok (devfs_init procfs_init : vfs W -> outcome (vfs W)) v :
  tables_shape v ->
  (forall v, vfs_wf v -> (forall n, find_file v n = None) -> runs_to (devfs_init v) vfs_wf) ->
  (forall v, vfs_wf v -> runs_to (procfs_init v) vfs_wf) ->
  runs_to (vfs_init devfs_init procfs_init v) vfs_wf.
Proof.
  intros [[Hfl Hfd] [Hhl Hhs] Hnf Hrl [Hml Hms] Hfhl] Hdev Hproc. unfold vfs_init.
  destruct (wipe_files_ok _ Hfd) as (fs & -> & Hl & Hfs). cbn [mbind outcome_bind].
  assert (Hfw : files_wf fs).
  { constructor; [unfold len in *; congruence|eapply Forall_impl; [exact Hfs|]; by intros f []|].
    intros i j f g Hi _ Hu. rewrite Forall_lookup in Hfs. destruct (Hfs _ _ Hi). congruence. }
  set (hs := map _ (handles v)). set (rs := map _ (registered_fs v)). set (ms := map _ (mounts v)).
  set (fhs := map _ (file_handles v)).
  assert (Hi : runs_to (h0 ← aget hs 0; hs ← aset hs 0 (std_handle 0 VFS_READ h0);
           h1 ← aget hs 1; hs ← aset hs 1 (std_handle 1 VFS_WRITE h1);
           h2 ← aget hs 2; hs ← aset hs 2 (std_handle 2 VFS_WRITE h2); Ret hs)
    (fun hs' => handles_wf fs hs' /\ forall fd, is_Some (find_fd hs' fd) <-> 0 <= fd < 3)).
  { apply vfs_init_tables; [done|unfold hs, len in *; by rewrite length_map|]. unfold hs. apply Forall_map.
    eapply Forall_impl; [exact Hhs|]. intros h []. split; [done|]. by constructor. }
  clearbody hs. revert Hi.
  destruct (aget hs 0) as [h0| |]; [|done..]; cbn [mbind outcome_bind].
  destruct (aset hs 0 _) as [hs1| |]; [|done..]; cbn [mbind outcome_bind].
  destruct (aget hs1 1) as [h1| |]; [|done..]; cbn [mbind outcome_bind].
  destruct (aset hs1 1 _) as [hs2| |]; [|done..]; cbn [mbind outcome_bind].
  destruct (aget hs2 2) as [h2| |]; [|done..]; cbn [mbind outcome_bind].
  destruct (aset hs2 2 _) as [hs3| |]; [|done..]; cbn [mbind outcome_bind runs_to].
  intros [Hhw _]. eapply runs_to_bind; [apply Hdev|by intros; apply Hproc].
  2:{ intros n. unfold find_file. cbn [files]. apply first_index_None. eapply Forall_impl; [exact Hfs|].
      intros f [_ Hu]. by rewrite Hu. }
  assert (Hnone : Forall (fun r => fs_registered r = false) rs) by (apply Forall_map, Forall_true; done).
  constructor; cbn [files handles next_fd registered_fs mounts file_handles]; [done|done|done|..].
  - constructor; [unfold rs, len in *; by rewrite length_map|].
    eapply Forall_impl; [exact Hnone|]. intros r. congruence.
  - constructor; [unfold ms, len in *; by rewrite length_map|apply Forall_map; eapply Forall_impl; [exact Hms|]; by constructor|].
    intros i j m m' Him _ Hm. unfold ms in Him. change (map ?f ?l) with (f <$> l) in Him.
    rewrite list_lookup_fmap in Him. by destruct (mounts v !! i); simplify_eq/=.
  - unfold fhs, len in *. by rewrite length_map.
Qed.

End Env.
