(* ===== verification/VfsTheorems.v ===== *)
(** * The virtual file system: theorems

    The contract of vfs.c as its clients see it: memory safety over every
    sequence of calls, the descriptor table, reading back what was written,
    resolving paths to mounts, removing and listing directories; and the
    places where the code departs from it. *)

From stdpp Require Import relations.
From S2P Require Import Prelude Vfs VfsProofs VfsOps VfsTable.

(** ** A client of the VFS *)

Inductive vfs_call :=
| COpen (filename : list Z) (flags : Z)
| CClose (fd : Z)
| CRead (fd count : Z)
| CWrite (fd : Z) (buf : list Z) (count : Z)
| CSeek (fd offset whence : Z)
| CIoctl (fd request arg : Z)
| CCreate (filename data : list Z) (size : Z)
| CReadFile (filename buffer : list Z)
| CDelete (filename : list Z)
| CMkdir (dirname : list Z)
| CRmdir (dirname : list Z)
| CExists (filename : list Z)
| CStat (path : option (list Z)) (stat : option vfs_stat_t)
| CReaddir (path : option (list Z)) (entries : option (list vfs_dirent)) (max : Z)
| CPseudo (filename : list Z) (ops : dev_ops) (data : Z)
| CPseudoFd (filename : list Z) (fd : Z) (ops : dev_ops) (data : Z)
| CLinkStd (fd : Z) (dev : list Z)
| CRegister (name : option (list Z)) (ops : option Z) (flags : Z)
| CUnregister (name : option (list Z))
| CMount (fs mount_point device : option (list Z)) (flags data : Z)
| CUmount (mount_point : option (list Z)).

(** A C string that fits a [char[MAX_FILENAME]]. *)
Definition path_ok (s : list Z) : Prop := (0 ∉ s) /\ len s < MAX_FILENAME.

Section Client.
Context {W : Type} `{VE : VfsEnv W}.
Implicit Types (v : vfs W).

Definition vfs_exec (c : vfs_call) v : outcome (vfs W) :=
  match c with
  | COpen n fl => '(v, _) ← vfs_open n fl v; Ret v
  | CClose fd => '(v, _) ← vfs_close fd v; Ret v
  | CRead fd n => '(v, _) ← vfs_readfd fd n v; Ret v
  | CWrite fd b n => '(v, _) ← vfs_writefd fd b n v; Ret v
  | CSeek fd o w => '(v, _) ← vfs_seek fd o w v; Ret v
  | CIoctl fd r a => '(v, _) ← vfs_ioctl fd r a v; Ret v
  | CCreate n d s => '(v, _) ← vfs_create n d s v; Ret v
  | CReadFile n b => '(v, _, _) ← vfs_read n b v; Ret v
  | CDelete n => '(v, _) ← vfs_delete n v; Ret v
  | CMkdir n => '(v, _) ← vfs_mkdir n v; Ret v
  | CRmdir n => '(v, _) ← vfs_rmdir n v; Ret v
  | CExists n => '(v, _) ← vfs_exists n v; Ret v
  | CStat p s => '(v, _) ← vfs_stat p s v; Ret v
  | CReaddir p e m => '(v, _, _) ← vfs_readdir p e m v; Ret v
  | CPseudo n o d => '(v, _) ← vfs_pseudo_register n o d v; Ret v
  | CPseudoFd n fd o d => '(v, _) ← vfs_pseudo_register_with_fd n fd o d v; Ret v
  | CLinkStd fd n => vfs_link_std_fd fd n v
  | CRegister n o fl => '(v, _) ← vfs_register_filesystem n o fl v; Ret v
  | CUnregister n => '(v, _) ← vfs_unregister_filesystem n v; Ret v
  | CMount f m d fl x => '(v, _) ← vfs_mount_fs f m d fl x v; Ret v
  | CUmount m => '(v, _) ← vfs_umount m v; Ret v
  end.

(** What the functions require of their caller without checking it: names that
    fit the buffers they are copied to, buffers as long as announced, and
    requests that do not wrap a [size_t]. *)
Definition call_ok (c : vfs_call) v : Prop :=
  match c with
  | COpen n _ | CExists n => path_ok n
  | CRead _ n => in_u 64 n
  | CWrite _ b n => 0 <= n <= len b /\ n < 2 ^ 64 - MAX_FILE_SIZE
  | CSeek _ o _ => in_s 64 o
  | CCreate n d s => (0 ∉ n) /\ 0 <= s <= len d
  | CReadFile n b => path_ok n /\ len b = MAX_FILE_SIZE
  | CDelete n => 0 ∉ n
  | CRmdir n => n <> [] /\ len n < MAX_FILENAME - 1
  | CStat p _ => 0 ∉ default [] p
  | CReaddir p e m =>
      (forall s, p = Some s -> path_ok s) /\ 0 <= m < 2 ^ 31 /\ (forall es, e = Some es -> m <= len es)
  | CPseudo n o _ =>
      forall i f, find_file v n = Some i -> files v !! Z.to_nat i = Some f ->
      op_write o = None -> device_op f op_write = None
  | CPseudoFd _ fd _ _ => 0 <= fd
  | CLinkStd fd _ => forall h, handles v !! Z.to_nat fd = Some h -> h_position h <= MAX_FILE_SIZE
  | CMount _ _ d _ _ => len (default [] d) < MAX_MOUNT_PATH
  | CClose _ | CIoctl _ _ _ | CMkdir _ | CRegister _ _ _ | CUnregister _ | CUmount _ => True
  end.

Definition vfs_step v v' : Prop := exists c, call_ok c v /\ vfs_exec c v = Ret v'.

Context `{!VfsEnvOk W}.

Lemma exec_ok {A} (m : outcome (vfs W * A)) (Q : vfs W * A -> Prop) :
  runs_to m Q -> (forall v x, Q (v, x) -> vfs_wf v) ->
  runs_to ('(v, _) ← m; Ret v) vfs_wf.
Proof. intros H HQ. eapply runs_to_bind; [exact H|]. intros [v x] Hq. simpl. eauto. Qed.

Lemma vfs_exec_ok c v : vfs_wf v -> call_ok c v -> runs_to (vfs_exec c v) vfs_wf.
Proof.
  intros Hw Hc. destruct c; cbn [vfs_exec call_ok] in *.
  - destruct Hc. eapply exec_ok; [by apply vfs_open_ok|naive_solver].
  - eapply exec_ok; [by apply vfs_close_ok|naive_solver].
  - eapply exec_ok; [by apply vfs_readfd_ok|]. intros v' [] [Hm _]. by apply Hm.
  - destruct Hc. eapply exec_ok; [by apply vfs_writefd_ok|naive_solver].
  - eapply exec_ok; [by apply vfs_seek_ok|]. intros v' r Hm. by apply Hm.
  - eapply exec_ok; [by apply vfs_ioctl_ok|]. intros v' r Hm. by apply Hm.
  - destruct Hc. eapply exec_ok; [by apply vfs_create_ok|naive_solver].
  - destruct Hc as [[] ?]. eapply runs_to_bind; [by apply vfs_read_ok|]. intros [[v' b] n] Hr. apply Hr.
  - eapply exec_ok; [by apply vfs_delete_ok|naive_solver].
  - eapply exec_ok; [by apply mkdir_ok|naive_solver].
  - destruct Hc. eapply exec_ok; [by apply vfs_rmdir_ok|naive_solver].
  - destruct Hc. eapply exec_ok; [by apply vfs_exists_ok|naive_solver].
  - eapply exec_ok; [by apply vfs_stat_ok|]. intros v' [] H. apply H.
  - destruct Hc as (Hp & Hm & He). eapply runs_to_bind; [by apply vfs_readdir_ok|]. intros [[v' n] e] H. apply H.
  - eapply exec_ok; [by apply pseudo_register_ok|naive_solver].
  - eapply exec_ok; [by apply pseudo_register_with_fd_ok|naive_solver].
  - eapply runs_to_mono; [by apply link_std_fd_ok|]. intros v' H. apply H.
  - eapply exec_ok; [by apply vfs_register_filesystem_ok|naive_solver].
  - eapply exec_ok; [by apply vfs_unregister_filesystem_ok|naive_solver].
  - eapply exec_ok; [by apply vfs_mount_fs_ok|naive_solver].
  - eapply exec_ok; [by apply vfs_umount_ok|naive_solver].
Qed.

Lemma vfs_steps_wf v v' : vfs_wf v -> rtc vfs_step v v' -> vfs_wf v'.
Proof.
  intros Hw H. induction H as [|v v1 v2 (c & Hc & E) _ IH]; [done|]. apply IH.
  pose proof (vfs_exec_ok c v Hw Hc) as Hr. by rewrite E in Hr.
Qed.

End Client.

Section Descriptors.
Context {W : Type} `{VE : VfsEnv W} `{!VfsEnvOk W}.
Implicit Types (v : vfs W).

(** C12. vfs_open and vfs_close act on the descriptor table as on a map: an
    open either fails and leaves the table alone, or returns a descriptor of
    3 .. 66 that named nothing before, now names the opened file at position 0
    with the given flags, and leaves every other descriptor as it was; closing
    it gives back exactly the table before the open.  An entry of the file
    table cannot fail to open while one of the 64 handles is free. *)
Theorem open_close_descriptor filename flags v :
  vfs_wf v -> path_ok filename ->
  runs_to (vfs_open filename flags v) (fun '(v1, fd) =>
    vfs_wf v1 /\ files v1 = files v /\
    (fd < 0 /\ handles v1 = handles v \/
     3 <= fd < MAX_HANDLES + 3 /\ find_fd (handles v) fd = None /\
     (exists h, h_position h = 0 /\ h_flags h = flags /\ h_file h = find_file v filename /\
        forall fd', find_fd (handles v1) fd' = if fd' =? fd then Some h else find_fd (handles v) fd') /\
     runs_to (vfs_close fd v1) (fun '(v2, r) =>
       r = 0 /\ files v2 = files v /\
       forall fd', find_fd (handles v2) fd' = find_fd (handles v) fd')) /\
    (is_Some (find_file v filename) -> is_Some (free_handle v) -> 0 <= fd)).
Proof.
  intros Hw [H0 Hlen]. eapply runs_to_mono; [by apply vfs_open_ok|].
  intros [v1 fd] (Hw1 & Hf1 & Ho & Hex). split_and!; [done|done| |intros H1 H2; specialize (Hex H1 H2); lia].
  destruct Ho as [?|(Hr & Hn & h & Hu & Hfd & Hp & Hfl & Hfile & Hset)]; [by left|right].
  split_and!; [lia..|done|by exists h|].
  eapply runs_to_mono; [by apply vfs_close_ok|]. intros [v2 r] (Hw2 & Hf2 & Hc).
  rewrite (proj2 (Z.ltb_ge fd 3)) in Hc by lia. destruct Hc as [-> Hclose].
  rewrite Hset, Z.eqb_refl. split_and!; [done|congruence|].
  intros fd'. rewrite Hclose, Hset. destruct (Z.eqb_spec fd' fd) as [->|]; [|done]. by rewrite Hn.
Qed.

(** ** Reading back what was written *)

(** A descriptor open for reading and writing on an entry that no driver
    serves. *)
Definition plain_fd v (fd : Z) (hi i : Z) (h : vfs_handle) (f : vfs_file) : Prop :=
  get_handle v fd = Some hi /\ handles v !! Z.to_nat hi = Some h /\
  h_flags h = Z.lor VFS_READ VFS_WRITE /\ h_file h = Some i /\ files v !! Z.to_nat i = Some f /\
  device_op f op_read = None /\ device_op f op_write = None /\ device_op f op_seek = None /\
  fd <> 1 /\ fd <> 2.

Lemma plain_fd_slot v fd hi i h f :
  vfs_wf v -> plain_fd v fd hi i h f ->
  0 <= hi /\ 0 <= i /\ h_used h = true /\ h_fd h = fd /\ 0 <= h_position h <= MAX_FILE_SIZE.
Proof.
  intros Hw (Hg & Hh & _ & Hi & Hf & _ & Hnw & _).
  apply get_handle_Some in Hg as (Hhi & h' & Hh' & Hu & Hfd & _). rewrite Hh in Hh'. injection Hh' as <-.
  destruct (handle_lookup _ _ _ _ (wf_handles _ Hw) Hh) as [_ _ Hpos _ Href].
  destruct (Href Hu i Hi) as (Hi0 & f' & Hf' & _ & Hle). rewrite Hf in Hf'. injection Hf' as <-.
  unfold in_u in Hpos. specialize (Hle Hnw). split_and!; try done; lia.
Qed.

(** A plain write, and the descriptor after it. *)
Lemma plain_write v fd hi i h f bs :
  vfs_wf v -> plain_fd v fd hi i h f -> bs <> [] -> h_position h + len bs <= MAX_FILE_SIZE ->
  vfs_writefd fd bs (len bs) v = Ret (written v hi i h f bs, len bs) /\
  vfs_wf (written v hi i h f bs) /\
  plain_fd (written v hi i h f bs) fd hi i (set_position h (h_position h + len bs))
    (spliced f (h_position h) bs).
Proof.
  intros Hw Hp Hne Hle. destruct (plain_fd_slot _ _ _ _ _ _ Hw Hp) as (Hhi & Hi & Hu & Hfd & Hpos).
  destruct Hp as (Hg & Hh & Hfl & Hfile & Hf & Hr & Hwr & Hs & H1 & H2).
  assert (Hlen : 0 < len bs) by (destruct bs; [done|unfold len; simpl; lia]).
  destruct (written_ok v hi i h f bs Hw Hhi Hh Hu Hfile Hf Hle) as (Hw' & _ & Hset).
  apply lookup_lt_Some in Hh as Hlt. apply lookup_lt_Some in Hf as Hlt'.
  split_and!; [|done|].
  - unfold vfs_writefd. rewrite Hg. vget. rewrite Hfl. cbn [flag_set negb].
    rewrite (proj2 (Z.eqb_neq fd 1)), (proj2 (Z.eqb_neq fd 2)), Hfile by done. simpl. vget.
    unfold MAX_FILE_SIZE in *.
    rewrite (write_legacy_plain v hi i h f bs (len bs) (len bs)) by (done || unfold MAX_FILE_SIZE; lia).
    rewrite (proj2 (Z.eqb_neq (len bs) 0)) by lia. unfold len. by rewrite Nat2Z.id, firstn_all.
  - unfold plain_fd, get_handle, written. vproj. split_and!; try done.
    + rewrite <- Hg. eapply first_index_insert; [done|]. done.
    + by rewrite list_lookup_insert_eq.
    + by rewrite list_lookup_insert_eq.
Qed.

Lemma plain_seek v fd hi i h f p :
  vfs_wf v -> plain_fd v fd hi i h f -> 0 <= p <= f_size f ->
  exists v', vfs_seek fd p VFS_SEEK_SET v = Ret (v', p) /\ vfs_wf v' /\ files v' = files v /\
  plain_fd v' fd hi i (set_position h p) f.
Proof.
  intros Hw Hp Hle. destruct (plain_fd_slot _ _ _ _ _ _ Hw Hp) as (Hhi & Hi & Hu & Hfd & Hpos).
  destruct Hp as (Hg & Hh & Hfl & Hfile & Hf & Hr & Hwr & Hs & H1 & H2).
  destruct (file_lookup _ _ _ (wf_files _ Hw) Hf) as [Hd Hsz Hn].
  apply lookup_lt_Some in Hh as Hlt. unfold MAX_FILE_SIZE in *.
  pose proof (put_position v hi h p Hw Hhi Hh Hu) as Hput. unfold in_u in Hput.
  specialize (Hput ltac:(lia) ltac:(intros; unfold MAX_FILE_SIZE; lia)).
  apply runs_to_inv in Hput as (v' & Hput & Hw' & -> & Hset).
  assert (Hcl : clamp_seek (f_size f) p = p).
  { unfold clamp_seek. destruct (Z.ltb_spec p 0); [lia|]. rewrite u64_id by lia.
    destruct (Z.ltb_spec (f_size f) p); lia. }
  eexists. split; [|split; [exact Hw'|split; [done|]]].
  - unfold vfs_seek. rewrite Hg. vget. rewrite Hfile. vget. rewrite Hs. cbn [VFS_SEEK_SET Z.eqb orb].
    rewrite Hcl, u64_id by lia. rewrite Hput. cbn [mbind outcome_bind]. by rewrite i64_id by lia.
  - unfold plain_fd, get_handle. vproj. split_and!; try done.
    + rewrite <- Hg. eapply first_index_insert; [done|]. done.
    + by rewrite list_lookup_insert_eq.
Qed.

Lemma plain_read v fd hi i h f n :
  vfs_wf v -> plain_fd v fd hi i h f -> 0 < n -> h_position h + n <= f_size f ->
  exists v', vfs_readfd fd n v
  = Ret (v', (n, take (Z.to_nat n) (drop (Z.to_nat (h_position h)) (f_data f)))).
Proof.
  intros Hw Hp Hn Hle. destruct (plain_fd_slot _ _ _ _ _ _ Hw Hp) as (Hhi & Hi & Hu & Hfd & Hpos).
  destruct Hp as (Hg & Hh & Hfl & Hfile & Hf & Hr & Hwr & Hs & H1 & H2).
  destruct (file_lookup _ _ _ (wf_files _ Hw) Hf) as [Hd Hsz _].
  apply lookup_lt_Some in Hh as Hlt. unfold MAX_FILE_SIZE in *.
  unfold vfs_readfd. rewrite Hg. vget. rewrite Hfl. cbn [flag_set negb]. simpl (negb _).
  rewrite Hfile. vget. unfold read_legacy. rewrite Hr.
  destruct (Z.leb_spec (f_size f) (h_position h)); [lia|].
  assert ((if n <? f_size f - h_position h then n else f_size f - h_position h) = n) as ->
    by (destruct (Z.ltb_spec n (f_size f - h_position h)); lia).
  destruct (mem_read_ok (f_data f) (h_position h) n) as [-> _]; [lia..|]. vproj.
  unfold put_handle. vset. rewrite i64_id by lia. eauto.
Qed.

(** What is written can be read back: on a descriptor open for reading
    and writing on an entry without driver functions, writing [bs] at the
    current position stores all of it, seeking back to that position and
    reading as many bytes returns [bs]. *)
Theorem write_seek_read v fd hi i h f bs :
  vfs_wf v -> plain_fd v fd hi i h f -> bs <> [] -> h_position h + len bs <= MAX_FILE_SIZE ->
  runs_to (vfs_writefd fd bs (len bs) v) (fun '(v1, n) =>
    n = len bs /\
    runs_to (vfs_seek fd (h_position h) VFS_SEEK_SET v1) (fun '(v2, p) =>
      p = h_position h /\
      runs_to (vfs_readfd fd (len bs) v2) (fun '(v3, (r, out)) => r = len bs /\ out = bs))).
Proof.
  intros Hw Hp Hne Hle. destruct (plain_fd_slot _ _ _ _ _ _ Hw Hp) as (_ & _ & _ & _ & Hpos).
  assert (Hlen : 0 < len bs) by (destruct bs; [done|unfold len; simpl; lia]).
  destruct Hp as (Hg & Hh & Hfl & Hfile & Hf & Hrest).
  destruct (file_lookup _ _ _ (wf_files _ Hw) Hf) as [Hd Hsz _].
  destruct (plain_write v fd hi i h f bs Hw) as (-> & Hw1 & Hp1); [done..|]. split; [done|].
  destruct (plain_seek _ _ _ _ _ _ (h_position h) Hw1 Hp1) as (v2 & -> & Hw2 & _ & Hp2).
  { cbn [spliced f_size]. lia. }
  split; [done|]. destruct (plain_read v2 fd hi i _ _ (len bs) Hw2 Hp2 Hlen) as (v3 & ->).
  { cbn [set_position h_position spliced f_size]. lia. }
  split; [done|]. cbn [set_position h_position spliced f_data].
  rewrite drop_app_length' by (rewrite length_take; unfold len in *; lia).
  unfold len. by rewrite Nat2Z.id, take_app_length.
Qed.
End Descriptors.

Section Tree.
Context {W : Type} `{VE : VfsEnv W} `{!VfsEnvOk W}.
Implicit Types (v : vfs W).

(** vfs_find_mount resolves a path to the mount point that is its longest
    prefix ending at a path component (the root mount is a prefix of every
    absolute path), together with the rest of the path without its leading
    slash; it finds nothing only if no mount point (of non-empty name) is such
    a prefix. *)
Theorem find_mount_longest path v :
  0 ∉ path -> exists r, vfs_find_mount (Some path) v = Ret r /\
  match r with
  | None => forall j m rest, mounts v !! j = Some m -> below m path rest -> m_point m = []
  | Some (i, rel) =>
      exists m rest, mounts v !! Z.to_nat i = Some m /\ below m path rest /\
      (rel = rest \/ rest = SLASH :: rel) /\
      forall j m' rest', mounts v !! j = Some m' -> below m' path rest' ->
      len (m_point m') <= len (m_point m)
  end.
Proof.
  intros H0. destruct (find_mount_ok v path H0) as (r & Hr & Hcase). exists r. split; [done|].
  destruct r as [[i rel]|]; [|done]. destruct Hcase as (m & rest & _ & Hm & Hb & -> & Hmax).
  exists m, rest. split_and!; [done..| |done].
  destruct rest as [|c rest]; [by left|]. destruct (Z.eqb_spec c SLASH) as [->|]; auto.
Qed.

(** A successful vfs_rmdir removes the directory and every entry whose
    name continues it below a slash, and nothing else: exactly those names stop
    resolving, exactly the descriptors open on those entries are closed, and
    every other descriptor keeps its handle.  A failing one changes nothing. *)
Theorem rmdir_removes_subtree dirname v :
  vfs_wf v -> dirname <> [] -> len dirname < MAX_FILENAME - 1 ->
  runs_to (vfs_rmdir dirname v) (fun '(v', r) =>
    r < 0 /\ v' = v \/
    r = 0 /\
    let dir := if bool_decide (last dirname = Some SLASH) then dirname else dirname ++ [SLASH] in
    (forall name, find_file v' name =
       if str_eq dirname name || (len dir <? len name) && has_prefix dir name
       then None else find_file v name) /\
    (forall fd h, find_fd (handles v') fd = Some h <->
       find_fd (handles v) fd = Some h /\
       forall i f, h_file h = Some i -> files v !! Z.to_nat i = Some f ->
         removed dirname dir (f_name f) = false)).
Proof.
  intros Hw Hne Hlen. eapply runs_to_mono; [by apply vfs_rmdir_ok|].
  intros [v' r] (Hw' & [?|(-> & dir & d & Hdir & Hd & Hcl & Hnames)]); [by left|right].
  split; [done|]. rewrite normalized_dir_ok in Hdir by done. injection Hdir as <-. cbv zeta.
  set (dir := if bool_decide _ then _ else _) in *. split; [exact Hnames|].
  apply find_file_Some in Hd as (Hd0 & fd0 & Hfd0 & Hu0 & Hn0).
  intros fd h. rewrite Hcl, bind_Some. split.
  - intros (h' & Hh' & Hcase). destruct (h_file h') as [i|] eqn:Ei.
    + destruct (gone_entry dir d (files v) i) eqn:Eg; [done|]. injection Hcase as <-. split; [done|].
      intros j f Hj Hf. rewrite Ei in Hj. injection Hj as <-.
      apply find_fd_Some in Hh' as (k & Hk & Hu & _); [|apply Hw].
      destruct (ho_file _ _ (handle_lookup _ _ _ _ (wf_handles _ Hw) Hk) Hu i Ei) as (Hi0 & f' & Hf' & Huf & _).
      rewrite Hf in Hf'. injection Hf' as <-.
      rewrite <- (gone_removed v dirname dir d fd0 (Z.to_nat i) f), Z2Nat.id by done. done.
    + injection Hcase as <-. split; [done|]. intros j f. congruence.
  - intros [Hh Hno]. exists h. split; [done|]. destruct (h_file h) as [i|] eqn:Ei; [|done].
    apply find_fd_Some in Hh as (k & Hk & Hu & _); [|apply Hw].
    destruct (ho_file _ _ (handle_lookup _ _ _ _ (wf_handles _ Hw) Hk) Hu i Ei) as (Hi0 & f' & Hf' & Huf & _).
    specialize (Hno i f' eq_refl Hf').
    rewrite <- (gone_removed v dirname dir d fd0 (Z.to_nat i) f'), Z2Nat.id in Hno by done. by rewrite Hno.
Qed.

Lemma children_len p fs : len (children p fs) <= len fs.
Proof.
  unfold len, children, omap. induction fs as [|f fs IH]; simpl; [lia|]. case_match; simpl in *; lia.
Qed.

(** Listing a directory that no driver serves, with room for all entries,
    stores each name once: the last components of the entries of the file table
    directly below it, and the next component of every mount point below it. *)
Theorem readdir_lists_children path es max v :
  vfs_wf v -> path_ok path -> undriven path v ->
  MAX_FILES + MAX_MOUNTS <= max < 2 ^ 31 -> max <= len es ->
  let p := if (1 <? len path) && bool_decide (last path = Some SLASH) then removelast path else path in
  exists L es', vfs_readdir (Some path) (Some es) max v = Ret (v, len L, Some es') /\
  take (length L) es' = L /\ NoDup (d_name <$> L) /\
  forall base, base ∈ d_name <$> L <->
    (exists i f, files v !! i = Some f /\ f_used f = true /\
       f_name f = join p base /\ (SLASH ∉ base) /\ (is_root p = true -> base <> [])) \/
    (exists i m, mounts v !! i = Some m /\ m_mounted m = true /\
       mount_component path (m_point m) = Some base).
Proof.
  intros Hw [H0 Hlen] Hund Hmax Hes p. unfold MAX_FILES, MAX_MOUNTS in Hmax.
  destruct (vfs_readdir_legacy path max v es) as (p' & es' & Hp' & -> & _ & Ht); [done|done|lia|done|done|].
  destruct (normalized_path_ok path Hlen) as (p2 & Hp2 & E2). rewrite Hp2 in Hp'. injection Hp' as <-.
  fold p in E2. subst p2. exists (listing path p max v), es'. split_and!; [done|done|..]; unfold listing.
  all: pose proof (children_len p (files v)) as Hch; pose proof (fw_len _ (wf_files _ Hw)) as Hl;
    pose proof (mw_len _ _ (wf_mounts _ Hw)) as Hml; unfold MAX_FILES, MAX_MOUNTS in *;
    rewrite take_ge by (unfold len in *; lia);
    destruct (add_mounts_spec path max (mounts v) (children p (files v))) as [Hnd Hin];
    [lia|apply children_NoDup, (wf_files _ Hw)|].
  - done.
  - intros base. rewrite Hin, children_elem. setoid_rewrite child_name_spec. done.
Qed.

(** Despite its name and the VFS_CREAT flag it passes, vfs_create never
    creates a file: the set of names is the same after it, the descriptor
    table too, and a non-negative result is the index of an entry that existed
    under this name before the call. *)
Theorem create_never_creates filename data size v :
  vfs_wf v -> 0 ∉ filename -> 0 <= size <= len data ->
  runs_to (vfs_create filename data size v) (fun '(v', r) =>
    (forall name, find_file v' name = find_file v name) /\
    (forall fd, is_Some (find_fd (handles v') fd) <-> is_Some (find_fd (handles v) fd)) /\
    (0 <= r -> find_file v filename = Some r)).
Proof.
  intros Hw H0 Hs. eapply runs_to_mono; [by apply vfs_create_ok|]. intros [v' r] (_ & Hn & Hf & Hr). done.
Qed.

(** vfs_rmdir appends a slash to the name in a [char[256]]: for a
    directory whose name has 255 characters (which vfs_mkdir accepts) and does
    not end in a slash, the terminator is stored past the array; for the
    directory with the empty name, index -1 is read. *)
Theorem rmdir_overflows dirname v i f :
  find_file v dirname = Some i -> aget (files v) i = Ret f -> f_type f = VFS_TYPE_DIR ->
  dirname = [] \/ len dirname = MAX_FILENAME - 1 /\ last dirname <> Some SLASH ->
  vfs_rmdir dirname v = Fault OutOfBounds.
Proof.
  intros Hf Hg Ht Hcase. unfold vfs_rmdir. rewrite Hf, Hg. cbn [mbind outcome_bind].
  rewrite decide_True by done. destruct Hcase as [->|[Hlen Hlast]]; [done|].
  unfold MAX_FILENAME in *. destruct (Z.leb_spec 256 (len dirname)); [lia|].
  unfold str_eq. rewrite bool_decide_false by (intros ->; unfold len in Hlen; simpl in Hlen; lia).
  unfold normalized_dir. assert (dirname <> []) as Hne by (intros ->; unfold len in Hlen; simpl in Hlen; lia).
  destruct (exists_last Hne) as (s & c & ->). rewrite last_snoc in Hlast.
  unfold len in *. rewrite length_app in *. simpl in Hlen.
  rewrite (aget_lookup _ _ c); [|simpl; lia|].
  2: { rewrite Nat2Z.inj_add, Z.add_simpl_r, Nat2Z.id. by apply list_lookup_middle. }
  cbn [mbind outcome_bind]. destruct (Z.eqb_spec c SLASH); [congruence|].
  unfold strcpy_into, MAX_FILENAME, len. rewrite !length_app. simpl.
  destruct (Z.ltb_spec (Z.of_nat (length s + 1 + 1)) 256); [lia|done].
Qed.

(** Nothing counts the open files of a mount, so vfs_umount succeeds while
    a descriptor is open on it (if the driver does not object); closing that
    descriptor afterwards no longer finds the driver, and the slot of
    file_handles it held stays used for ever. *)
Theorem umount_leaks_handle v mp mi m o fd hi h fi x :
  vfs_wf v -> find_mount_point v mp = Some mi -> mounts v !! Z.to_nat mi = Some m ->
  mount_ops v m = Ret (Some o) -> op_unmount o = None ->
  3 <= fd -> get_handle v fd = Some hi -> handles v !! Z.to_nat hi = Some h ->
  h_mount h = Some mi -> h_fs_private h = Some fi -> file_handles v !! Z.to_nat fi = Some x ->
  fh_used x = true ->
  runs_to (vfs_umount (Some mp) v) (fun '(v1, r) =>
    r = 0 /\
    runs_to (vfs_close fd v1) (fun '(v2, r') =>
      r' = 0 /\ find_fd (handles v2) fd = None /\ file_handles v2 !! Z.to_nat fi = Some x)).
Proof.
  intros Hw Hmp Hm Ho Hu Hfd Hg Hh Hhm Hhp Hx Hux. unfold vfs_umount. rewrite Hmp.
  apply find_mount_point_Some in Hmp as (Hmi & m' & Hm' & Hmm & _). rewrite Hm in Hm'. injection Hm' as <-. vget.
  destruct (mo_mounted _ _ (mount_lookup _ _ _ Hw Hm) Hmm) as [Hrc _]. rewrite Hrc, Ho. cbn [Z.ltb Z.compare].
  vproj. rewrite Hu. cbn [Z.ltb Z.compare]. vproj. vset. cbn [runs_to]. split; [done|].
  unfold vfs_close. rewrite (proj2 (Z.ltb_ge fd 3)) by done.
  change (get_handle (with_mounts _ _) fd) with (get_handle v fd). rewrite Hg.
  apply get_handle_Some in Hg as (Hhi & h' & Hh' & Huh & Hfdh & _). rewrite Hh in Hh'. injection Hh' as <-.
  vproj. vget. rewrite Hhm. vproj.
  rewrite (aget_lookup _ mi (mkmount (m_point m) (m_device m) None 0 (m_flags m) false 0));
    [|lia|apply list_lookup_insert_eq; unfold len in Hmi; lia].
  vproj. cbn [mount_ops m_fs]. vproj. vset. cbn [runs_to]. split_and!; [done| |done].
  destruct (fds_remove (handles v) (Z.to_nat hi) h (mkhandle false (-1) None (h_position h) (h_flags h) None None))
    as [_ Hfind]; [apply Hw|done..|]. vproj. by rewrite Hfind, Hfdh, Z.eqb_refl.
Qed.
End Tree.

(** ** A concrete VFS

    One file-system driver (table 1) without an unmount function; devices that
    read nothing, swallow writes and do not seek. *)

#[local] Instance demo_env : VfsEnv unit := {|
  dev_read _ _ _ pos w := (w, (0, [], pos));
  dev_write _ _ buf pos w := (w, (len buf, pos));
  dev_seek _ _ _ _ pos w := (w, (pos, pos));
  dev_ioctl _ _ _ _ w := (w, 0);
  op_mount _ := None;
  op_unmount _ := None;
  op_open _ := None;
  op_close o := if o =? 1 then Some (fun _ x w => (w, x)) else None;
  op_fread _ := None;
  op_fwrite _ := None;
  op_stat _ := None;
  op_unlink _ := None;
  op_readdir _ := None
|}.

#[local] Instance demo_env_ok : VfsEnvOk unit.
Proof.
  constructor; simpl; intros; simplify_eq; try done.
Qed.

Definition zero_data : list Z := replicate (Z.to_nat MAX_FILE_SIZE) 0.

Lemma zero_data_len : len zero_data = MAX_FILE_SIZE.
Proof. unfold len, zero_data. by rewrite length_replicate, Z2Nat.id. Qed.

#[global] Opaque zero_data.

Definition zero_file : vfs_file :=
  mkfile [] zero_data 0 false VFS_TYPE_FILE no_ops 0.
Definition zero_handle : vfs_handle := mkhandle false (-1) None 0 0 None None.
Definition zero_fs : vfs_filesystem := mkfs [] None 0 false.
Definition zero_mount : vfs_mount := mkmount [] [] None 0 0 false 0.
Definition zero_fh : vfs_file_handle := mkfh false (-1) None [] 0 0 0.

(** The static tables before [vfs_init]. *)
Definition zero_vfs : vfs unit :=
  mkvfs (replicate 256 zero_file) (replicate 64 zero_handle) 3 (replicate 16 zero_fs)
    (replicate 32 zero_mount) (replicate 64 zero_fh) tt.

Lemma zero_shape : tables_shape zero_vfs.
Proof.
  constructor; cbn [zero_vfs files handles next_fd registered_fs mounts file_handles]; unfold len;
    rewrite ?length_replicate; [split; [done|]|split; [done|]|done|done|split; [done|]|done].
  - apply Forall_replicate. apply zero_data_len.
  - by apply Forall_replicate.
  - by apply Forall_replicate.
Qed.

(** Directories "/d" and "/d/e", a driver mounted at "/m"; descriptor 3 open on
    "/d", descriptor 4 on a file of the mount. *)
Definition demo_dir (name : list Z) : vfs_file :=
  mkfile name zero_data 0 true VFS_TYPE_DIR no_ops 0.

Definition demo_vfs : vfs unit :=
  mkvfs (demo_dir [47; 100] :: demo_dir [47; 100; 47; 101] :: replicate 254 zero_file)
    (mkhandle true 3 (Some 0) 0 3 None None :: mkhandle true 4 None 0 1 (Some 0) (Some 0)
       :: replicate 62 zero_handle)
    5
    (mkfs [120] (Some 1) 0 true :: replicate 15 zero_fs)
    (mkmount [47; 109] [] (Some 0) 0 0 true 0 :: replicate 31 zero_mount)
    (mkfh true 4 (Some 0) [102] 0 1 0 :: replicate 63 zero_fh) tt.

Lemma lookup_replicate_used {A} (p : A -> bool) (x : A) n i y :
  p x = false -> replicate n x !! i = Some y -> p y = false.
Proof. intros Hx [-> _]%lookup_replicate. done. Qed.

Lemma demo_files_wf : files_wf (files demo_vfs).
Proof.
  assert (Hd : forall n, len n < MAX_FILENAME -> file_ok (demo_dir n)).
  { intros n Hn. constructor; [apply zero_data_len|done|done]. }
  constructor.
  - unfold len. cbn [demo_vfs files length]. by rewrite length_replicate.
  - constructor; [by apply Hd|]. constructor; [by apply Hd|]. apply Forall_replicate.
    constructor; [apply zero_data_len|done|done].
  - intros [|[|i]] [|[|j]] f g; cbn [demo_vfs files lookup list_lookup]; intros Hi Hj Hu Hu' E;
      try (by apply (lookup_replicate_used f_used) in Hi; [congruence|]);
      try (by apply (lookup_replicate_used f_used) in Hj; [congruence|]);
      simplify_eq; done.
Qed.

Lemma demo_vfs_wf : vfs_wf demo_vfs.
Proof.
  constructor; [apply demo_files_wf|..|done| | |].
  - constructor.
    + unfold len. cbn [demo_vfs handles length]. by rewrite length_replicate.
    + constructor; [|constructor; [|apply Forall_replicate; by constructor]].
      * constructor; [done..|]. intros _ i [= <-]. split; [done|]. by eexists.
      * constructor; [by intros ? [= <-]|by intros ? [= <-]|done..].
    + intros [|[|i]] [|[|j]] f g; cbn [demo_vfs handles lookup list_lookup]; intros Hi Hj Hu Hu' E;
        try (by apply (lookup_replicate_used h_used) in Hi; [congruence|]);
        try (by apply (lookup_replicate_used h_used) in Hj; [congruence|]);
        simplify_eq; done.
  - constructor; [unfold len; cbn [demo_vfs registered_fs length]; by rewrite length_replicate|].
    constructor; [done|]. by apply Forall_replicate.
  - constructor.
    + unfold len. cbn [demo_vfs mounts length]. by rewrite length_replicate.
    + constructor; [|apply Forall_replicate; by constructor].
      constructor; [done|by intros ? [= <-]|]. intros _. split; [done|]. exists 0. eexists. split_and!; [done..|by eexists].
    + intros [|i] [|j] f g; cbn [demo_vfs mounts lookup list_lookup]; intros Hi Hj Hu Hu' E; [done|..];
        try (by apply (lookup_replicate_used m_mounted) in Hi; [congruence|]);
        try (by apply (lookup_replicate_used m_mounted) in Hj; [congruence|]).
  - unfold len. cbn [demo_vfs file_handles length]. by rewrite length_replicate.
Qed.

(** ** The theorems on concrete inputs *)

Ltac no_zero := apply (bool_decide_unpack _); vm_compute; exact I.

Lemma open_close_descriptor_witness :
  runs_to (vfs_open [47; 100; 47; 101] 1 demo_vfs) (fun '(v1, fd) =>
    vfs_wf v1 /\ files v1 = files demo_vfs /\
    (fd < 0 /\ handles v1 = handles demo_vfs \/
     3 <= fd < MAX_HANDLES + 3 /\ find_fd (handles demo_vfs) fd = None /\
     (exists h, h_position h = 0 /\ h_flags h = 1 /\ h_file h = find_file demo_vfs [47; 100; 47; 101] /\
        forall fd', find_fd (handles v1) fd' = if fd' =? fd then Some h else find_fd (handles demo_vfs) fd') /\
     runs_to (vfs_close fd v1) (fun '(v2, r) =>
       r = 0 /\ files v2 = files demo_vfs /\
       forall fd', find_fd (handles v2) fd' = find_fd (handles demo_vfs) fd')) /\
    (is_Some (find_file demo_vfs [47; 100; 47; 101]) -> is_Some (free_handle demo_vfs) -> 0 <= fd)).
Proof.
  apply (open_close_descriptor [47; 100; 47; 101] 1 demo_vfs demo_vfs_wf).
  split; [no_zero|done].
Defined.

Lemma write_seek_read_witness :
  runs_to (vfs_writefd 3 [1; 2; 3] 3 demo_vfs) (fun '(v1, n) =>
    n = 3 /\
    runs_to (vfs_seek 3 0 VFS_SEEK_SET v1) (fun '(v2, p) =>
      p = 0 /\ runs_to (vfs_readfd 3 3 v2) (fun '(v3, (r, out)) => r = 3 /\ out = [1; 2; 3]))).
Proof.
  apply (write_seek_read demo_vfs 3 0 0 (mkhandle true 3 (Some 0) 0 3 None None) (demo_dir [47; 100])
    [1; 2; 3] demo_vfs_wf).
  - unfold plain_fd. split_and!; try reflexivity; lia.
  - done.
  - cbn. unfold MAX_FILE_SIZE, len. simpl. lia.
Defined.

Lemma find_mount_longest_witness :
  exists r, vfs_find_mount (Some [47; 109; 47; 97]) demo_vfs = Ret r /\
  match r with
  | None => forall j m rest, mounts demo_vfs !! j = Some m -> below m [47; 109; 47; 97] rest -> m_point m = []
  | Some (i, rel) =>
      exists m rest, mounts demo_vfs !! Z.to_nat i = Some m /\ below m [47; 109; 47; 97] rest /\
      (rel = rest \/ rest = SLASH :: rel) /\
      forall j m' rest', mounts demo_vfs !! j = Some m' -> below m' [47; 109; 47; 97] rest' ->
      len (m_point m') <= len (m_point m)
  end.
Proof. apply (find_mount_longest [47; 109; 47; 97] demo_vfs). no_zero. Defined.

Lemma rmdir_removes_subtree_witness :
  runs_to (vfs_rmdir [47; 100] demo_vfs) (fun '(v', r) =>
    r < 0 /\ v' = demo_vfs \/
    r = 0 /\
    let dir := if bool_decide (last [47; 100] = Some SLASH) then [47; 100] else [47; 100] ++ [SLASH] in
    (forall name, find_file v' name =
       if str_eq [47; 100] name || (len dir <? len name) && has_prefix dir name
       then None else find_file demo_vfs name) /\
    (forall fd h, find_fd (handles v') fd = Some h <->
       find_fd (handles demo_vfs) fd = Some h /\
       forall i f, h_file h = Some i -> files demo_vfs !! Z.to_nat i = Some f ->
         removed [47; 100] dir (f_name f) = false)).
Proof. by apply (rmdir_removes_subtree [47; 100] demo_vfs demo_vfs_wf). Defined.

Lemma readdir_lists_children_witness :
  exists L es', vfs_readdir (Some [47; 100]) (Some (replicate 300 (mkdirent [] 0))) 300 demo_vfs
    = Ret (demo_vfs, len L, Some es') /\
  take (length L) es' = L /\ NoDup (d_name <$> L) /\
  forall base, base ∈ d_name <$> L <->
    (exists i f, files demo_vfs !! i = Some f /\ f_used f = true /\
       f_name f = join [47; 100] base /\ (SLASH ∉ base) /\ (is_root [47; 100] = true -> base <> [])) \/
    (exists i m, mounts demo_vfs !! i = Some m /\ m_mounted m = true /\
       mount_component [47; 100] (m_point m) = Some base).
Proof.
  apply (readdir_lists_children [47; 100] (replicate 300 (mkdirent [] 0)) 300 demo_vfs demo_vfs_wf).
  - split; [no_zero|done].
  - exists None. split; [reflexivity|done].
  - done.
  - done.
Defined.

Lemma create_never_creates_witness :
  runs_to (vfs_create [47; 120] [1; 2] 2 demo_vfs) (fun '(v', r) =>
    (forall name, find_file v' name = find_file demo_vfs name) /\
    (forall fd, is_Some (find_fd (handles v') fd) <-> is_Some (find_fd (handles demo_vfs) fd)) /\
    (0 <= r -> find_file demo_vfs [47; 120] = Some r)).
Proof. apply (create_never_creates [47; 120] [1; 2] 2 demo_vfs demo_vfs_wf); [no_zero|done]. Defined.

Definition long_name : list Z := replicate 255 97.
Definition long_vfs : vfs unit := mkvfs [demo_dir long_name] [] 3 [] [] [] tt.

Lemma rmdir_overflows_witness : vfs_rmdir long_name long_vfs = Fault OutOfBounds.
Proof.
  apply (rmdir_overflows long_name long_vfs 0 (demo_dir long_name)); [reflexivity..|].
  right. split; [reflexivity|]. by intros [=].
Defined.

Lemma umount_leaks_handle_witness :
  runs_to (vfs_umount (Some [47; 109]) demo_vfs) (fun '(v1, r) =>
    r = 0 /\
    runs_to (vfs_close 4 v1) (fun '(v2, r') =>
      r' = 0 /\ find_fd (handles v2) 4 = None /\
      file_handles v2 !! Z.to_nat 0 = Some (mkfh true 4 (Some 0) [102] 0 1 0))).
Proof.
  apply (umount_leaks_handle demo_vfs [47; 109] 0 (mkmount [47; 109] [] (Some 0) 0 0 true 0) 1 4 1
    (mkhandle true 4 None 0 1 (Some 0) (Some 0)) 0 (mkfh true 4 (Some 0) [102] 0 1 0) demo_vfs_wf);
    first [reflexivity|lia].
Defined.
