(* ===== verification/Kstd.v ===== *)
(** * The kernel C library: model

    core/kernel/kstd.c.  A [char] array is the list of its bytes (0 .. 255);
    source and destination of the string functions are different arrays, those
    of [memmove] two offsets into one.  The scanning loops carry the length of
    the array as fuel: they leave the array, a fault, before it runs out. *)

From S2P Require Import Prelude.

Definition CH_0 : Z := 48.
Definition CH_a : Z := 97.
Definition CH_MINUS : Z := 45.

(** ** Lengths and comparisons *)

Fixpoint strlen_loop (s : list Z) (i : Z) (n : nat) : outcome Z :=
  match n with
  | O => OutOfFuel
  | S n' => c ← aget s i; if c =? 0 then Ret i else strlen_loop s (i + 1) n'
  end.

Definition strlen (s : list Z) : outcome Z := strlen_loop s 0 (S (length s)).

Fixpoint strcmp_loop (s1 s2 : list Z) (i : Z) (n : nat) : outcome Z :=
  match n with
  | O => OutOfFuel
  | S n' =>
      c1 ← aget s1 i;
      if c1 =? 0 then c2 ← aget s2 i; Ret (c1 - c2) else
      c2 ← aget s2 i;
      if c1 =? c2 then strcmp_loop s1 s2 (i + 1) n' else Ret (c1 - c2)
  end.

Definition strcmp (s1 s2 : list Z) : outcome Z := strcmp_loop s1 s2 0 (S (length s1)).

(** [n] counts down as in the code. *)
Fixpoint strncmp_loop (s1 s2 : list Z) (i : Z) (n : nat) : outcome Z :=
  match n with
  | O => Ret 0
  | S n' =>
      c1 ← aget s1 i;
      c2 ← aget s2 i;
      if negb (c1 =? 0) && (c1 =? c2) then strncmp_loop s1 s2 (i + 1) n' else Ret (c1 - c2)
  end.

Definition strncmp (s1 s2 : list Z) (n : Z) : outcome Z := strncmp_loop s1 s2 0 (Z.to_nat n).

(** ** Searching *)

Fixpoint strchr_loop (s : list Z) (c : Z) (i : Z) (n : nat) : outcome (option Z) :=
  match n with
  | O => OutOfFuel
  | S n' =>
      x ← aget s i;
      if x =? 0 then Ret None else if x =? u8 c then Ret (Some i) else strchr_loop s c (i + 1) n'
  end.

Definition strchr (s : list Z) (c : Z) : outcome (option Z) := strchr_loop s c 0 (S (length s)).

(** The inner loop of [strstr]: how far needle matches at [h]. *)
Fixpoint match_at (hay needle : list Z) (h k : Z) (n : nat) : outcome Z :=
  match n with
  | O => OutOfFuel
  | S n' =>
      x ← aget hay h;
      if x =? 0 then Ret k else
      y ← aget needle k;
      if y =? 0 then Ret k else
      if x =? y then match_at hay needle (h + 1) (k + 1) n' else Ret k
  end.

Fixpoint strstr_loop (hay needle : list Z) (i : Z) (n : nat) : outcome (option Z) :=
  match n with
  | O => OutOfFuel
  | S n' =>
      x ← aget hay i;
      if x =? 0 then Ret None else
      k ← match_at hay needle i 0 (S (length hay));
      y ← aget needle k;
      if y =? 0 then Ret (Some i) else strstr_loop hay needle (i + 1) n'
  end.

Definition strstr (hay needle : list Z) : outcome (option Z) :=
  y ← aget needle 0;
  if y =? 0 then Ret (Some 0) else strstr_loop hay needle 0 (S (length hay)).

(** ** Copying strings *)

(** [while (src[i]) dest[o + i] = src[i]; dest[o + i] = 0]. *)
Fixpoint strcpy_loop (dest src : list Z) (o i : Z) (n : nat) : outcome (list Z) :=
  match n with
  | O => OutOfFuel
  | S n' =>
      c ← aget src i;
      if c =? 0 then aset dest (o + i) 0
      else dest ← aset dest (o + i) c; strcpy_loop dest src o (i + 1) n'
  end.

Definition strcpy (dest src : list Z) : outcome (list Z) :=
  strcpy_loop dest src 0 0 (S (length src)).

Definition strcat (dest src : list Z) : outcome (list Z) :=
  o ← strlen dest; strcpy_loop dest src o 0 (S (length src)).

(** [while (o + i < max_len - 1 && src[i])], in [size_t]. *)
Fixpoint strcpy_safe_loop (dest src : list Z) (o i max_len : Z) (n : nat) : outcome (list Z) :=
  match n with
  | O => OutOfFuel
  | S n' =>
      if o + i <? u64 (max_len - 1) then
        c ← aget src i;
        if c =? 0 then aset dest (o + i) 0
        else dest ← aset dest (o + i) c; strcpy_safe_loop dest src o (i + 1) max_len n'
      else aset dest (o + i) 0
  end.

Definition strcpy_safe (dest src : list Z) (max_len : Z) : outcome (list Z) :=
  strcpy_safe_loop dest src 0 0 max_len (S (length src)).

Definition strcat_safe (dest src : list Z) (max_len : Z) : outcome (list Z) :=
  o ← strlen dest; strcpy_safe_loop dest src o 0 max_len (S (length src)).

(** ** Numbers *)

Fixpoint reverse_loop (s : list Z) (start end_ : Z) (n : nat) : outcome (list Z) :=
  match n with
  | O => Ret s
  | S n' =>
      if start <? end_ then
        a ← aget s start; b ← aget s end_;
        s ← aset s start b; s ← aset s end_ a;
        reverse_loop s (start + 1) (end_ - 1) n'
      else Ret s
  end.

Definition reverse (s : list Z) (length : Z) : outcome (list Z) :=
  reverse_loop s 0 (length - 1) (Z.to_nat length).

Definition digit_char (rem : Z) : Z := u8 (if 9 <? rem then rem - 10 + CH_a else rem + CH_0).

(** C division and remainder truncate; [i] is the number of characters. *)
Fixpoint itoa_loop (num base : Z) (s : list Z) (i : Z) (n : nat) : outcome (list Z * Z) :=
  match n with
  | O => OutOfFuel
  | S n' =>
      if num =? 0 then Ret (s, i) else
      if (base =? 0) || (num =? -2147483648) && (base =? -1) then Fault DivideError else
      s ← aset s i (digit_char (Z.rem num base));
      itoa_loop (Z.quot num base) base s (i + 1) n'
  end.

(** 32 divisions suffice for any base of absolute value 2 or more. *)
Definition itoa (num : Z) (s : list Z) (base : Z) : outcome (list Z) :=
  if num =? 0 then s ← aset s 0 CH_0; aset s 1 0 else
  let is_negative := (num <? 0) && (base =? 10) in
  let num := if is_negative then i32 (- num) else num in
  '(s, i) ← itoa_loop num base s 0 33;
  '(s, i) ← (if is_negative then s ← aset s i CH_MINUS; Ret (s, i + 1) else Ret (s, i));
  s ← aset s i 0;
  reverse s i.

(** ** Memory *)

(** One assignment of [w] bytes from [s] to [d] inside the memory [m]. *)
Definition move_chunk (m : list Z) (d s w : Z) : outcome (list Z) :=
  bs ← mem_read m s w; mem_write m d bs.

(** Ascending copies of [w] bytes at offsets [p], [p + w], ... *)
Fixpoint forward (m : list Z) (d s w p : Z) (n : nat) : outcome (list Z) :=
  match n with
  | O => Ret m
  | S n' => m ← move_chunk m (d + p) (s + p) w; forward m d s w (p + w) n'
  end.

(** Descending copies of [w] bytes that end at offsets [p], [p - w], ... *)
Fixpoint backward (m : list Z) (d s w p : Z) (n : nat) : outcome (list Z) :=
  match n with
  | O => Ret m
  | S n' => m ← move_chunk m (d + p - w) (s + p - w) w; backward m d s w (p - w) n'
  end.

Definition memmove (m : list Z) (d s n : Z) : outcome (list Z) :=
  if (d =? s) || (n =? 0) then Ret m else
  if (d <? s) || (s + n <=? d) then
    if 8 <=? n then
      m ← forward m d s 8 0 (Z.to_nat (n / 8));
      forward m d s 1 (8 * (n / 8)) (Z.to_nat (n mod 8))
    else forward m d s 1 0 (Z.to_nat n)
  else
    if 8 <=? n then
      m ← backward m d s 8 n (Z.to_nat (n / 8));
      backward m d s 1 n (Z.to_nat (n mod 8))
    else backward m d s 1 n (Z.to_nat n).

Definition memcpy (m : list Z) (d s n : Z) : outcome (list Z) := forward m d s 1 0 (Z.to_nat n).

Fixpoint memset_loop (s : list Z) (c i : Z) (n : nat) : outcome (list Z) :=
  match n with
  | O => Ret s
  | S n' => s ← aset s i (u8 c); memset_loop s c (i + 1) n'
  end.

Definition memset (s : list Z) (c n : Z) : outcome (list Z) := memset_loop s c 0 (Z.to_nat n).

Fixpoint memcmp_loop (s1 s2 : list Z) (i : Z) (n : nat) : outcome Z :=
  match n with
  | O => Ret 0
  | S n' =>
      a ← aget s1 i; b ← aget s2 i;
      if a =? b then memcmp_loop s1 s2 (i + 1) n' else Ret (a - b)
  end.

Definition memcmp (s1 s2 : list Z) (n : Z) : outcome Z := memcmp_loop s1 s2 0 (Z.to_nat n).

(** ** Console output *)

(** The escape sequence for a colour, built in a [char[16]]. *)
Definition kprint_escape (color : Z) : list Z :=
  let fg := Z.land color 0x0F in
  let bg := Z.land (Z.shiftr color 4) 0x0F in
  [27; 91] ++ (if fg <? 8 then [51; CH_0 + fg] else [57; CH_0 + (fg - 8)]) ++ [59]
  ++ (if bg <? 8 then [52; CH_0 + bg] else [49; CH_0; CH_0 + (bg - 8)]) ++ [109].

(** The strings handed to [tty_puts]. *)
Definition kprint (str : list Z) (color : Z) : list (list Z) :=
  [kprint_escape color; str; [27; 91; 48; 109]].
