(* ===== verification/KstdProofs.v ===== *)
(** * The kernel C library: theorems

    The string functions against their specification on C strings (which is
    what the model of the VFS uses), decimal conversion, and memmove: correct
    except for overlapping moves towards higher addresses of a length that is
    at least 8 and no multiple of 8. *)

From S2P Require Import Prelude Vfs Kstd.

(** ** C strings *)

(** The array [a] holds the string [s]. *)
Definition cstr (a s : list Z) : Prop := (0 ∉ s) /\ exists rest, a = s ++ 0 :: rest.

Lemma cstr_lookup_char a s i c :
  cstr a s -> s !! i = Some c -> aget a (Z.of_nat i) = Ret c /\ c <> 0.
Proof.
  intros [H0 [rest ->]] Hi. split.
  - apply aget_lookup; [lia|]. rewrite Nat2Z.id. by apply lookup_app_l_Some.
  - intros ->. apply H0. by eapply list_elem_of_lookup_2.
Qed.

Lemma cstr_lookup_end a s : cstr a s -> aget a (len s) = Ret 0.
Proof.
  intros [_ [rest ->]]. apply aget_lookup; [unfold len; lia|]. unfold len. rewrite Nat2Z.id.
  by apply list_lookup_middle.
Qed.

Lemma cstr_end_at a s i : cstr a s -> i = length s -> aget a (Z.of_nat i) = Ret 0.
Proof. intros Ha ->. by apply cstr_lookup_end. Qed.

Lemma cstr_length a s : cstr a s -> (length s < length a)%nat.
Proof. intros [_ [rest ->]]. rewrite length_app. simpl. lia. Qed.

(** A string splits at every position. *)
Lemma string_at (s : list Z) (i : nat) :
  (i <= length s)%nat -> i = length s \/ exists c, s !! i = Some c /\ (i < length s)%nat.
Proof.
  intros Hi. destruct (decide (i = length s)); [by left|right].
  destruct (lookup_lt_is_Some_2 s i) as [c Hc]; [lia|]. exists c. split; [done|lia].
Qed.

Lemma strlen_loop_ok a s : cstr a s -> forall n i,
  (i <= length s)%nat -> (length s - i < n)%nat -> strlen_loop a (Z.of_nat i) n = Ret (len s).
Proof.
  intros Ha. induction n as [|n IH]; intros i Hi Hn; [lia|]. cbn [strlen_loop].
  destruct (string_at s i Hi) as [->|(c & Hc & Hlt)].
  - fold (len s). rewrite (cstr_lookup_end a s Ha). done.
  - destruct (cstr_lookup_char a s i c Ha Hc) as [-> Hne]. cbn [mbind outcome_bind].
    rewrite (proj2 (Z.eqb_neq c 0)) by done. replace (Z.of_nat i + 1) with (Z.of_nat (S i)) by lia.
    apply IH; lia.
Qed.

Lemma strlen_ok a s : cstr a s -> strlen a = Ret (len s).
Proof.
  intros Ha. pose proof (cstr_length a s Ha). apply (strlen_loop_ok a s Ha _ 0); lia.
Qed.

(** How two strings compare from a position up to which they agree: at the
    end of both, or at the first difference. *)
Lemma strcmp_loop_ok a b s t : cstr a s -> cstr b t -> forall n i,
  (i <= length s)%nat -> (i <= length t)%nat -> take i s = take i t -> (length s - i < n)%nat ->
  exists r, strcmp_loop a b (Z.of_nat i) n = Ret r /\ (r = 0 <-> s = t).
Proof.
  intros Ha Hb. induction n as [|n IH]; intros i Hi Hj Heq Hn; [lia|]. cbn [strcmp_loop].
  destruct (string_at s i Hi) as [Es|(c & Hc & Hlt)]; destruct (string_at t i Hj) as [Et|(e & He & Hlt')].
  - assert (s = t) as -> by (rewrite <- (firstn_all s), <- (firstn_all t); congruence).
    rewrite (cstr_end_at _ _ _ Ha Es). cbn [mbind outcome_bind Z.eqb].
    rewrite (cstr_end_at _ _ _ Hb Et). eexists. split; [done|]. done.
  - destruct (cstr_lookup_char b t i e Hb He) as [Eb Hne].
    rewrite (cstr_end_at _ _ _ Ha Es). cbn [mbind outcome_bind Z.eqb]. rewrite Eb. cbn [mbind outcome_bind].
    eexists. split; [done|]. split; [lia|intros ->; lia].
  - destruct (cstr_lookup_char a s i c Ha Hc) as [-> Hne]. cbn [mbind outcome_bind].
    rewrite (proj2 (Z.eqb_neq c 0)) by done. rewrite (cstr_end_at _ _ _ Hb Et). cbn [mbind outcome_bind]. rewrite (proj2 (Z.eqb_neq c 0)) by done.
    eexists. split; [done|]. split; [lia|intros ->; lia].
  - destruct (cstr_lookup_char a s i c Ha Hc) as [-> Hne]. cbn [mbind outcome_bind].
    rewrite (proj2 (Z.eqb_neq c 0)) by done. destruct (cstr_lookup_char b t i e Hb He) as [-> _].
    cbn [mbind outcome_bind]. destruct (Z.eqb_spec c e) as [->|Hd].
    + replace (Z.of_nat i + 1) with (Z.of_nat (S i)) by lia. apply IH; [lia..| |lia].
      rewrite (take_S_r s i e), (take_S_r t i e) by done. by rewrite Heq.
    + eexists. split; [done|]. split; [lia|]. intros ->. congruence.
Qed.

Lemma strncmp_loop_ok a b s t : cstr a s -> cstr b t -> forall n i,
  (i <= length s)%nat -> (i <= length t)%nat -> take i s = take i t ->
  exists r, strncmp_loop a b (Z.of_nat i) n = Ret r /\ (r = 0 <-> take (i + n) s = take (i + n) t).
Proof.
  intros Ha Hb. induction n as [|n IH]; intros i Hi Hj Heq; cbn [strncmp_loop].
  { exists 0. by rewrite Nat.add_0_r. }
  destruct (string_at s i Hi) as [Es|(c & Hc & Hlt)]; destruct (string_at t i Hj) as [Et|(e & He & Hlt')].
  - rewrite (cstr_end_at _ _ _ Ha Es), (cstr_end_at _ _ _ Hb Et). cbn [mbind outcome_bind]. eexists. split; [done|].
    split; [intros _|done]. assert (s = t) as ->; [|done].
    rewrite <- (firstn_all s), <- (firstn_all t). congruence.
  - destruct (cstr_lookup_char b t i e Hb He) as [Eb Hne].
    rewrite (cstr_end_at _ _ _ Ha Es). cbn [mbind outcome_bind]. rewrite Eb. cbn [mbind outcome_bind Z.eqb negb andb].
    eexists. split; [done|]. split; [lia|]. intros E.
    rewrite (take_ge s) in E by lia. apply (f_equal length) in E. rewrite length_take in E. lia.
  - destruct (cstr_lookup_char a s i c Ha Hc) as [-> Hne]. cbn [mbind outcome_bind].
    rewrite (cstr_end_at _ _ _ Hb Et). cbn [mbind outcome_bind].
    rewrite (proj2 (Z.eqb_neq c 0)) by done. simpl. eexists. split; [done|]. split; [lia|]. intros E.
    rewrite (take_ge t) in E by lia. apply (f_equal length) in E. rewrite length_take in E. lia.
  - destruct (cstr_lookup_char a s i c Ha Hc) as [-> Hne]. destruct (cstr_lookup_char b t i e Hb He) as [-> _].
    cbn [mbind outcome_bind]. rewrite (proj2 (Z.eqb_neq c 0)) by done. simpl.
    destruct (Z.eqb_spec c e) as [->|Hd].
    + replace (Z.of_nat i + 1) with (Z.of_nat (S i)) by lia.
      replace (i + S n)%nat with (S i + n)%nat by lia. apply IH; [lia..|].
      rewrite (take_S_r s i e), (take_S_r t i e) by done. by rewrite Heq.
    + eexists. split; [done|]. split; [lia|]. intros E. apply (f_equal (fun l => l !! i)) in E.
      rewrite !lookup_take_lt in E by lia. congruence.
Qed.

(** Copying a string into an array, and the fault when it does not fit. *)
Lemma strcpy_loop_ok src s o : cstr src s -> 0 <= o -> forall n i dest,
  (i <= length s)%nat -> (length s - i < n)%nat -> o + len s < len dest ->
  strcpy_loop dest src o (Z.of_nat i) n =
  Ret (take (Z.to_nat o + i) dest ++ drop i s ++ 0 :: drop (S (Z.to_nat o + length s)) dest).
Proof.
  intros Hs Ho. induction n as [|n IH]; intros i dest Hi Hn Hfit; [lia|]. cbn [strcpy_loop].
  unfold len in Hfit. destruct (string_at s i Hi) as [->|(c & Hc & Hlt)].
  - fold (len s). rewrite (cstr_lookup_end _ _ Hs). cbn [mbind outcome_bind Z.eqb].
    rewrite aset_in_bounds by (unfold len; lia). rewrite drop_all. cbn [app].
    replace (Z.to_nat (o + len s)) with (Z.to_nat o + length s)%nat by (unfold len; lia).
    by rewrite insert_take_drop by lia.
  - destruct (cstr_lookup_char src s i c Hs Hc) as [-> Hne]. cbn [mbind outcome_bind].
    rewrite (proj2 (Z.eqb_neq c 0)) by done. rewrite aset_in_bounds by (unfold len; lia).
    cbn [mbind outcome_bind]. replace (Z.of_nat i + 1) with (Z.of_nat (S i)) by lia.
    rewrite IH by (unfold len; rewrite ?length_insert; lia). f_equal.
    replace (Z.to_nat (o + Z.of_nat i)) with (Z.to_nat o + i)%nat by lia.
    replace (Z.to_nat o + S i)%nat with (S (Z.to_nat o + i)) by lia.
    rewrite (take_S_r _ _ c) by (apply list_lookup_insert_eq; lia).
    rewrite take_insert_ge, drop_insert_lt by lia. rewrite (drop_S s c i Hc). by rewrite <- app_assoc.
Qed.

Lemma strcpy_loop_overflow src s : cstr src s -> forall n i dest,
  (i <= length dest)%nat -> (length dest <= length s)%nat -> (length s - i < n)%nat ->
  strcpy_loop dest src 0 (Z.of_nat i) n = Fault OutOfBounds.
Proof.
  intros Hs. induction n as [|n IH]; intros i dest Hi Hle Hn; [lia|]. cbn [strcpy_loop]. rewrite Z.add_0_l.
  assert (Hout : forall c, i = length dest -> aset dest (Z.of_nat i) c = Fault OutOfBounds).
  { intros c ->. unfold aset, len. rewrite (proj2 (Z.ltb_ge _ _)) by lia. by rewrite andb_false_r. }
  destruct (string_at s i ltac:(lia)) as [->|(c & Hc & Hlt)].
  - fold (len s). rewrite (cstr_lookup_end _ _ Hs). cbn [mbind outcome_bind Z.eqb]. apply Hout. lia.
  - destruct (cstr_lookup_char src s i c Hs Hc) as [-> Hne]. cbn [mbind outcome_bind].
    rewrite (proj2 (Z.eqb_neq c 0)) by done. destruct (decide (i = length dest)) as [E|].
    + by rewrite Hout.
    + rewrite aset_in_bounds by (unfold len; lia). cbn [mbind outcome_bind].
      replace (Z.of_nat i + 1) with (Z.of_nat (S i)) by lia. apply IH; rewrite ?length_insert; lia.
Qed.

(** C40. The string functions of kstd.c are what the model of the VFS takes
    them for: on arrays that hold C strings, strlen is the length, strcmp
    returns 0 exactly on equal strings ([str_eq]), strncmp with the length of
    the second string returns 0 exactly if it is a prefix ([has_prefix]), and
    strcpy into an array of n bytes stores the string and its terminator and
    leaves the rest, or runs past the array exactly when [strcpy_into] says
    so. *)
Theorem string_functions_sound a b s t dest :
  cstr a s -> cstr b t ->
  strlen a = Ret (len s) /\
  (exists r, strcmp a b = Ret r /\ (r =? 0) = str_eq s t) /\
  (exists r, strncmp a b (len t) = Ret r /\ (r =? 0) = has_prefix t s) /\
  match strcpy_into (len dest) s with
  | Ret s' => s' = s /\ strcpy dest a = Ret (s ++ 0 :: drop (S (length s)) dest) /\
              cstr (s ++ 0 :: drop (S (length s)) dest) s
  | _ => strcpy dest a = Fault OutOfBounds
  end.
Proof.
  intros Ha Hb. pose proof (cstr_length a s Ha). split_and!.
  - by apply strlen_ok.
  - destruct (strcmp_loop_ok a b s t Ha Hb (S (length a)) 0) as (r & E & Hr); [lia..|done|lia|].
    exists r. split; [done|]. unfold str_eq. apply eq_true_iff_eq. rewrite Z.eqb_eq, bool_decide_eq_true. done.
  - destruct (strncmp_loop_ok a b s t Ha Hb (Z.to_nat (len t)) 0) as (r & E & Hr); [lia..|done|].
    exists r. split; [done|]. unfold has_prefix. apply eq_true_iff_eq. rewrite Z.eqb_eq, bool_decide_eq_true.
    rewrite Hr. unfold len. rewrite Nat2Z.id. cbn [Nat.add]. by rewrite firstn_all.
  - unfold strcpy_into. destruct (Z.ltb_spec (len s) (len dest)) as [Hfit|Hno].
    + split; [done|]. split; [|split; [apply Ha|eauto]]. unfold strcpy.
      etransitivity; [apply (strcpy_loop_ok a s 0 Ha ltac:(lia) (S (length a)) 0 dest); lia|]. done.
    + apply (strcpy_loop_overflow a s Ha (S (length a)) 0 dest); unfold len in *; lia.
Qed.

(** ** Moving memory *)

(** [m] is [m0] in which the bytes [d + a .. d + b - 1] are those that [m0] has
    at the same offsets from [s]. *)
Definition shifted (m0 m : list Z) (d s a b : Z) : Prop :=
  len m = len m0 /\
  forall j, 0 <= j < len m0 ->
  m !! Z.to_nat j = if (d + a <=? j) && (j <? d + b) then m0 !! Z.to_nat (j - d + s)
                    else m0 !! Z.to_nat j.

Lemma shifted_refl m d s a : shifted m m d s a a.
Proof.
  split; [done|]. intros j Hj. destruct (Z.leb_spec (d + a) j), (Z.ltb_spec j (d + a)); simpl; done || lia.
Qed.

(** One chunk: the bytes of the source range appear in the destination range. *)
Lemma move_chunk_ok m d s w :
  0 <= w -> 0 <= d -> d + w <= len m -> 0 <= s -> s + w <= len m ->
  exists m', move_chunk m d s w = Ret m' /\ len m' = len m /\
  forall j, 0 <= j < len m ->
  m' !! Z.to_nat j = if (d <=? j) && (j <? d + w) then m !! Z.to_nat (j - d + s) else m !! Z.to_nat j.
Proof.
  intros Hw Hd Hdl Hs Hsl. unfold move_chunk.
  destruct (mem_read_ok m s w) as [-> Hlen]; [lia..|]. cbn [mbind outcome_bind].
  set (bs := take _ _) in *.
  destruct (mem_write_ok m d bs) as (m' & -> & Hl & ->); [lia..|]. eexists. split; [done|]. split; [done|].
  intros j Hj. unfold len in *.
  destruct (Z.leb_spec d j); simpl.
  - rewrite lookup_app_r by (rewrite length_take; lia). rewrite length_take.
    destruct (Z.ltb_spec j (d + w)); simpl.
    + rewrite lookup_app_l by lia. unfold bs. rewrite lookup_take_lt by lia. rewrite lookup_drop. f_equal. lia.
    + rewrite lookup_app_r by lia. rewrite lookup_drop. f_equal. lia.
  - rewrite lookup_app_l by (rewrite length_take; lia). by rewrite lookup_take_lt by lia.
Qed.

(** A chunk at offset [p] that extends the shifted range on one side and reads
    bytes the range does not cover. *)
Lemma shifted_step m0 m d s a b p w :
  shifted m0 m d s a b -> 0 <= w -> 0 <= d + p -> d + p + w <= len m0 -> 0 <= s + p -> s + p + w <= len m0 ->
  s + p + w <= d + a \/ d + b <= s + p \/ a = b -> (a <= b /\ (p = b \/ p + w = a)) ->
  exists m', move_chunk m (d + p) (s + p) w = Ret m' /\
  shifted m0 m' d s (Z.min a p) (Z.max b (p + w)).
Proof.
  intros [Hl Hm] Hw Hd Hdl Hs Hsl Hdis [Hab Hadj].
  destruct (move_chunk_ok m (d + p) (s + p) w) as (m' & E & Hl' & Hm'); [lia..|].
  exists m'. split; [done|]. split; [congruence|]. intros j Hj. rewrite Hm' by lia.
  destruct (Z.leb_spec (d + p) j), (Z.ltb_spec j (d + p + w)); simpl;
    destruct (Z.leb_spec (d + Z.min a p) j), (Z.ltb_spec j (d + Z.max b (p + w))); simpl; try lia.
  - rewrite Hm by lia.
    assert ((d + a <=? j - (d + p) + (s + p)) && (j - (d + p) + (s + p) <? d + b) = false) as ->
      by (destruct (Z.leb_spec (d + a) (j - (d + p) + (s + p))), (Z.ltb_spec (j - (d + p) + (s + p)) (d + b));
          simpl; done || lia).
    f_equal. lia.
  - rewrite Hm by lia. destruct (Z.leb_spec (d + a) j), (Z.ltb_spec j (d + b)); simpl; done || lia.
  - rewrite Hm by lia. destruct (Z.leb_spec (d + a) j), (Z.ltb_spec j (d + b)); simpl; done || lia.
  - rewrite Hm by lia. destruct (Z.leb_spec (d + a) j), (Z.ltb_spec j (d + b)); simpl; done || lia.
  - rewrite Hm by lia. destruct (Z.leb_spec (d + a) j), (Z.ltb_spec j (d + b)); simpl; done || lia.
Qed.

Lemma forward_ok m0 d s w : 0 < w -> 0 <= d -> 0 <= s -> forall n m p,
  shifted m0 m d s 0 p -> 0 <= p -> d + p + w * Z.of_nat n <= len m0 -> s + p + w * Z.of_nat n <= len m0 ->
  d <= s \/ s + p + w * Z.of_nat n <= d ->
  exists m', forward m d s w p n = Ret m' /\ shifted m0 m' d s 0 (p + w * Z.of_nat n).
Proof.
  intros Hw Hd Hs. induction n as [|n IH]; intros m p Hm Hp Hdl Hsl Hdis; cbn [forward].
  { exists m. split; [done|]. by replace (p + w * Z.of_nat 0) with p by lia. }
  destruct (shifted_step m0 m d s 0 p p w) as (m1 & -> & Hm1); [done|lia..|]. cbn [mbind outcome_bind].
  rewrite Z.min_l, Z.max_r in Hm1 by lia.
  destruct (IH m1 (p + w) Hm1) as (m2 & -> & Hm2); [lia..|]. exists m2. split; [done|].
  by replace (p + w * Z.of_nat (S n)) with (p + w + w * Z.of_nat n) by lia.
Qed.

Lemma backward_ok m0 d s w e : 0 < w -> 0 <= s <= d -> d + e <= len m0 -> forall n m p,
  shifted m0 m d s p e -> p <= e -> w * Z.of_nat n <= p ->
  exists m', backward m d s w p n = Ret m' /\ shifted m0 m' d s (p - w * Z.of_nat n) e.
Proof.
  intros Hw Hs He. induction n as [|n IH]; intros m p Hm Hp Hn; cbn [backward].
  { exists m. split; [done|]. by replace (p - w * Z.of_nat 0) with p by lia. }
  destruct (shifted_step m0 m d s p e (p - w) w) as (m1 & E & Hm1); [done|lia..|].
  replace (d + p - w) with (d + (p - w)) by lia. replace (s + p - w) with (s + (p - w)) by lia.
  rewrite E. cbn [mbind outcome_bind]. rewrite Z.min_r, Z.max_l in Hm1 by lia.
  destruct (IH m1 (p - w) Hm1) as (m2 & -> & Hm2); [lia..|]. exists m2. split; [done|].
  by replace (p - w * Z.of_nat (S n)) with (p - w - w * Z.of_nat n) by lia.
Qed.

(** memmove moves: for ranges inside the memory, the destination range
    holds the old bytes of the source range and everything else is unchanged,
    provided the move is not an overlapping one towards higher addresses, or
    its length is below 8 or a multiple of 8. *)
Theorem memmove_correct m d s n :
  0 <= n -> 0 <= d -> 0 <= s -> d + n <= len m -> s + n <= len m ->
  d <= s \/ s + n <= d \/ n < 8 \/ n mod 8 = 0 ->
  exists m', memmove m d s n = Ret m' /\ shifted m m' d s 0 n.
Proof.
  intros Hn Hd Hs Hdl Hsl Hcase. unfold memmove.
  pose proof (Z.div_mod n 8 ltac:(lia)) as Hdm. pose proof (Z.mod_pos_bound n 8 ltac:(lia)).
  assert (0 <= n / 8) by (apply Z.div_pos; lia). pose proof (shifted_refl m d s 0) as Hz.
  destruct (Z.eqb_spec d s) as [->|Hne]; simpl.
  { exists m. split; [done|]. split; [done|]. intros j Hj. replace (j - s + s) with j by lia. by destruct (_ && _). }
  destruct (Z.eqb_spec n 0) as [->|Hn0]; simpl; [by exists m|].
  assert (Hbr : (d <? s) || (s + n <=? d) = bool_decide (d <= s \/ s + n <= d)).
  { destruct (Z.ltb_spec d s), (Z.leb_spec (s + n) d); simpl; symmetry;
      (apply bool_decide_eq_true || apply bool_decide_eq_false); lia. }
  rewrite Hbr. case_bool_decide as Hb; destruct (Z.leb_spec 8 n) as [Hge|Hlt].
  - destruct (forward_ok m d s 8 ltac:(lia) Hd Hs (Z.to_nat (n / 8)) m 0 Hz) as (m1 & -> & Hm1); [lia..|].
    cbn [mbind outcome_bind]. rewrite Z2Nat.id, Z.add_0_l in Hm1 by lia.
    destruct (forward_ok m d s 1 ltac:(lia) Hd Hs (Z.to_nat (n mod 8)) m1 (8 * (n / 8)) Hm1) as (m2 & -> & Hm2);
      [lia..|]. exists m2. split; [done|]. by replace n with (8 * (n / 8) + 1 * Z.of_nat (Z.to_nat (n mod 8))) by lia.
  - destruct (forward_ok m d s 1 ltac:(lia) Hd Hs (Z.to_nat n) m 0 Hz) as (m1 & -> & Hm1); [lia..|].
    exists m1. split; [done|]. by replace n with (0 + 1 * Z.of_nat (Z.to_nat n)) by lia.
  - pose proof (shifted_refl m d s n) as Hr.
    destruct (backward_ok m d s 8 n ltac:(lia) ltac:(lia) ltac:(lia) (Z.to_nat (n / 8)) m n Hr) as (m1 & -> & Hm1); [lia..|].
    cbn [mbind outcome_bind]. assert (n mod 8 = 0) as E by lia. rewrite E. exists m1. split; [done|].
    by replace 0 with (n - 8 * Z.of_nat (Z.to_nat (n / 8))) by lia.
  - pose proof (shifted_refl m d s n) as Hr.
    destruct (backward_ok m d s 1 n ltac:(lia) ltac:(lia) ltac:(lia) (Z.to_nat n) m n Hr) as (m1 & -> & Hm1); [lia..|].
    exists m1. split; [done|]. by replace 0 with (n - 1 * Z.of_nat (Z.to_nat n)) by lia.
Qed.

(** Descending copies touch only the range below their start. *)
Lemma backward_frame d s w : 0 < w -> forall n m p,
  0 <= s -> 0 <= d -> w * Z.of_nat n <= p -> d + p <= len m -> s + p <= len m ->
  exists m', backward m d s w p n = Ret m' /\ len m' = len m /\
  forall j, 0 <= j < d + p - w * Z.of_nat n -> m' !! Z.to_nat j = m !! Z.to_nat j.
Proof.
  intros Hw. induction n as [|n IH]; intros m p Hs Hd Hn Hdl Hsl; cbn [backward]; [by exists m|].
  destruct (move_chunk_ok m (d + p - w) (s + p - w) w) as (m1 & -> & Hl1 & Hm1); [lia..|]. cbn [mbind outcome_bind].
  destruct (IH m1 (p - w)) as (m2 & -> & Hl2 & Hm2); [lia..|]. exists m2. split_and!; [done|congruence|].
  intros j Hj. rewrite Hm2, Hm1 by lia. destruct (Z.leb_spec (d + p - w) j); [lia|]. done.
Qed.

(** The remaining case of memmove is wrong: for overlapping ranges, the
    destination above the source and a length of at least 8 that is no multiple
    of 8, the loop for the last [n mod 8] bytes starts again at the end instead
    of below the words already moved, so the first [n mod 8] bytes of the
    destination keep their old contents. *)
Theorem memmove_skips_head m d s n :
  0 <= s < d -> d < s + n -> 8 <= n -> d + n <= len m ->
  exists m', memmove m d s n = Ret m' /\
  forall j, d <= j < d + n mod 8 -> m' !! Z.to_nat j = m !! Z.to_nat j.
Proof.
  intros Hs Hov Hn Hdl. unfold memmove.
  pose proof (Z.div_mod n 8 ltac:(lia)) as Hdm. pose proof (Z.mod_pos_bound n 8 ltac:(lia)).
  assert (1 <= n / 8) by (apply Z.div_le_lower_bound; lia).
  rewrite (proj2 (Z.eqb_neq d s)), (proj2 (Z.eqb_neq n 0)), (proj2 (Z.ltb_ge d s)),
    (proj2 (Z.leb_gt (s + n) d)), (proj2 (Z.leb_le 8 n)) by lia. simpl.
  destruct (backward_frame d s 8 ltac:(lia) (Z.to_nat (n / 8)) m n) as (m1 & -> & Hl1 & Hm1); [lia..|].
  cbn [mbind outcome_bind].
  destruct (backward_frame d s 1 ltac:(lia) (Z.to_nat (n mod 8)) m1 n) as (m2 & -> & Hl2 & Hm2); [lia..|].
  exists m2. split; [done|]. intros j Hj. rewrite Hm2, Hm1 by lia. done.
Qed.

(** ** Decimal numbers *)

(** The decimal digits of a number below [10 ^ n], least significant first. *)
Fixpoint digits (n : nat) (num : Z) : list Z :=
  match n with
  | O => []
  | S n' => if num =? 0 then [] else (num mod 10 + CH_0) :: digits n' (num / 10)
  end.

(** The number a string of decimal digits denotes, most significant first. *)
Definition decimal (s : list Z) : Z := fold_left (fun acc c => acc * 10 + (c - CH_0)) s 0.

Definition decimal_signed (s : list Z) : Z :=
  match s with
  | c :: s' => if c =? CH_MINUS then - decimal s' else decimal s
  | [] => 0
  end.

Lemma digits_value n : forall num, 0 <= num < 10 ^ Z.of_nat n -> decimal (rev (digits n num)) = num.
Proof.
  induction n as [|n IH]; intros num Hn.
  { change (10 ^ Z.of_nat 0) with 1 in Hn. cbn. lia. }
  cbn [digits]. destruct (Z.eqb_spec num 0) as [->|]; [done|]. cbn [rev]. unfold decimal.
  rewrite fold_left_app. cbn [fold_left]. fold (decimal (rev (digits n (num / 10)))).
  rewrite Nat2Z.inj_succ, Z.pow_succ_r in Hn by lia.
  rewrite IH; [pose proof (Z.div_mod num 10); lia|].
  split; [apply Z.div_pos; lia|apply Z.div_lt_upper_bound; lia].
Qed.

Lemma digits_chars n num : 0 <= num -> Forall (fun c => CH_0 <= c < CH_0 + 10) (digits n num).
Proof.
  revert num. induction n as [|n IH]; intros num Hn; cbn [digits]; [constructor|].
  destruct (num =? 0); [constructor|]. constructor; [pose proof (Z.mod_pos_bound num 10); lia|].
  apply IH, Z.div_pos; lia.
Qed.

Lemma digits_length n num : (length (digits n num) <= n)%nat.
Proof.
  revert num. induction n as [|n IH]; intros num; cbn [digits]; [done|].
  specialize (IH (num / 10)). destruct (num =? 0); simpl; lia.
Qed.

Lemma digit_char_10 r : 0 <= r < 10 -> digit_char r = r + CH_0.
Proof.
  intros Hr. unfold digit_char, CH_0. destruct (Z.ltb_spec 9 r); [lia|]. apply u8_id. lia.
Qed.

Lemma itoa_loop_ok n : forall num s i,
  0 <= num < 10 ^ Z.of_nat n -> (i + length (digits n num) <= length s)%nat ->
  itoa_loop num 10 s (Z.of_nat i) (S n) =
  Ret (take i s ++ digits n num ++ drop (i + length (digits n num)) s,
       Z.of_nat (i + length (digits n num))).
Proof.
  induction n as [|n IH]; intros num s i Hn Hi.
  { change (10 ^ Z.of_nat 0) with 1 in Hn. assert (num = 0) as -> by lia.
    cbn [itoa_loop digits length app Z.eqb]. by rewrite Nat.add_0_r, take_drop. }
  cbn [digits] in *. remember (S n) as n1. cbn [itoa_loop]. subst n1.
  destruct (Z.eqb_spec num 0) as [->|Hne].
  { cbn [length app]. by rewrite Nat.add_0_r, take_drop. }
  cbn [length] in *. rewrite Nat2Z.inj_succ, Z.pow_succ_r in Hn by lia.
  rewrite (andb_false_r (num =? _)). cbn [Z.eqb orb].
  rewrite Z.rem_mod_nonneg, Z.quot_div_nonneg, digit_char_10 by (try apply Z.mod_pos_bound; lia).
  set (c := num mod 10 + CH_0). rewrite aset_in_bounds by (unfold len; lia). rewrite Nat2Z.id.
  cbn [mbind outcome_bind]. replace (Z.of_nat i + 1) with (Z.of_nat (S i)) by lia.
  rewrite IH; [|split; [apply Z.div_pos; lia|apply Z.div_lt_upper_bound; lia]|rewrite length_insert; lia].
  do 2 f_equal; [|lia].
  rewrite (take_S_r _ _ c) by (apply list_lookup_insert_eq; lia). rewrite take_insert_ge by lia.
  rewrite drop_insert_lt by lia. rewrite <- app_assoc. cbn [app].
  by replace (i + S (length (digits n (num / 10))))%nat with (S i + length (digits n (num / 10)))%nat by lia.
Qed.

Lemma insert_middle {A} (a r : list A) x y n :
  n = length a -> <[n := y]> (a ++ x :: r) = a ++ y :: r.
Proof. intros ->. induction a as [|b a IH]; simpl; [done|]. by rewrite IH. Qed.

Lemma digits_short k : forall n u, 0 <= u < 10 ^ Z.of_nat k -> (length (digits n u) <= k)%nat.
Proof.
  induction k as [|k IH]; intros [|n] u Hu; cbn [digits length]; [lia| |lia|].
  - change (10 ^ Z.of_nat 0) with 1 in Hu. by replace u with 0 by lia.
  - destruct (u =? 0); cbn [length]; [lia|]. rewrite Nat2Z.inj_succ, Z.pow_succ_r in Hu by lia.
    enough (length (digits n (u / 10)) <= k)%nat by lia. apply IH.
    split; [apply Z.div_pos; lia|apply Z.div_lt_upper_bound; lia].
Qed.

(** Reversing a middle part in place. *)
Lemma reverse_loop_ok n : forall a mid z, (length mid <= n)%nat ->
  reverse_loop (a ++ mid ++ z) (Z.of_nat (length a)) (Z.of_nat (length a) + Z.of_nat (length mid) - 1) n
  = Ret (a ++ rev mid ++ z).
Proof.
  induction n as [|n IH]; intros a mid z Hn; cbn [reverse_loop].
  { destruct mid; [done|simpl in Hn; lia]. }
  destruct mid as [|x mid]; [by rewrite (proj2 (Z.ltb_ge _ _)) by (simpl; lia)|].
  destruct mid as [|y0 mid0 _] using rev_ind.
  { by rewrite (proj2 (Z.ltb_ge _ _)) by (simpl; lia). }
  rename y0 into y. rename mid0 into mid. cbn [length] in *. rewrite length_app in *. cbn [length] in *.
  destruct (Z.ltb_spec (Z.of_nat (length a)) (Z.of_nat (length a) + Z.of_nat (S (length mid + 1)) - 1)); [|lia].
  set (e := Z.of_nat (length a) + Z.of_nat (S (length mid + 1)) - 1).
  assert (He : Z.to_nat e = length (a ++ x :: mid)) by (unfold e; rewrite length_app; simpl; lia).
  rewrite (aget_lookup _ (Z.of_nat (length a)) x); [|lia|rewrite Nat2Z.id; by apply list_lookup_middle].
  assert (El : a ++ (x :: mid ++ [y]) ++ z = (a ++ x :: mid) ++ y :: z) by (simpl; rewrite <- !app_assoc; done).
  cbn [mbind outcome_bind]. rewrite (aget_lookup _ e y); [|lia|rewrite He, El; by apply list_lookup_middle].
  cbn [mbind outcome_bind]. rewrite aset_in_bounds by (unfold len; rewrite length_app; simpl; lia).
  cbn [mbind outcome_bind]. rewrite aset_in_bounds by (rewrite len_insert; unfold len; rewrite El, !length_app in *; simpl; lia).
  cbn [mbind outcome_bind]. rewrite Nat2Z.id, He.
  assert (E2 : <[length (a ++ x :: mid) := x]> (<[length a := y]> (a ++ (x :: mid ++ [y]) ++ z))
               = (a ++ [y]) ++ mid ++ (x :: z)).
  { cbn [app]. rewrite (insert_middle a _ x y) by done. rewrite <- !app_assoc. cbn [app].
    change (a ++ y :: mid ++ y :: z) with (a ++ (y :: mid) ++ y :: z). rewrite (app_assoc a (y :: mid)).
    rewrite (insert_middle (a ++ y :: mid) z y x) by (rewrite !length_app; done). by rewrite <- app_assoc. }
  rewrite E2. replace (Z.of_nat (length a) + 1) with (Z.of_nat (length (a ++ [y]))) by (rewrite length_app; simpl; lia).
  replace (e - 1) with (Z.of_nat (length (a ++ [y])) + Z.of_nat (length mid) - 1)
    by (unfold e; rewrite length_app; simpl; lia).
  rewrite IH by lia. f_equal. cbn [rev]. rewrite rev_unit. cbn [app].
  by rewrite <- !app_assoc.
Qed.

Lemma reverse_prefix mid z : reverse (mid ++ z) (Z.of_nat (length mid)) = Ret (rev mid ++ z).
Proof.
  unfold reverse. rewrite Nat2Z.id. apply (reverse_loop_ok (length mid) [] mid z). lia.
Qed.

Lemma cstr_digits s t : Forall (fun c => c <> 0) t -> (exists rest, s = t ++ 0 :: rest) -> cstr s t.
Proof.
  intros Ht Hs. split; [|done]. intros H0. rewrite Forall_forall in Ht. by apply (Ht 0).
Qed.

(** itoa in base 10 writes the decimal representation of every [int] but
    the least one: the array holds a string of at most 11 characters that reads
    back as the number. *)
Theorem itoa_decimal num s :
  - 2 ^ 31 < num < 2 ^ 31 -> 12 <= len s ->
  exists s' t, itoa num s 10 = Ret s' /\ cstr s' t /\ decimal_signed t = num /\ len t <= 11.
Proof.
  intros Hn Hs. unfold itoa. destruct (Z.eqb_spec num 0) as [->|Hne].
  { rewrite aset_in_bounds by lia. cbn [mbind outcome_bind]. rewrite aset_in_bounds by (rewrite len_insert; lia).
    destruct s as [|a [|b s]]; [unfold len in Hs; simpl in Hs; lia..|].
    exists (CH_0 :: 0 :: s), [CH_0]. split_and!; [done| |done|done]. split; [|by exists s].
    by rewrite list_elem_of_singleton. }
  set (neg := (num <? 0) && (10 =? 10)). set (u := if neg then i32 (- num) else num).
  assert (Hu : 0 < u < 2 ^ 31 /\ (if neg then - u else u) = num).
  { unfold u, neg. destruct (Z.ltb_spec num 0); simpl; [rewrite i32_id by lia|]; lia. }
  destruct Hu as [Hu Hnum]. set (ds := digits 32 u).
  assert (Hdl : (length ds <= 10)%nat) by (apply digits_short; lia).
  unfold len in Hs.
  pose proof (itoa_loop_ok 32 u s 0 ltac:(lia) ltac:(fold ds; lia)) as Hl. fold ds in Hl. change (Z.of_nat 0) with 0 in Hl.
  rewrite Hl. cbn [mbind outcome_bind Nat.add]. rewrite take_0. cbn [app].
  assert (Hval : decimal (rev ds) = u) by (apply digits_value; lia).
  pose proof (digits_chars 32 u ltac:(lia)) as Hch. fold ds in Hch.
  destruct (drop (length ds) s) as [|a [|b rest]] eqn:Ed;
    [apply (f_equal length) in Ed; rewrite length_drop in Ed; simpl in Ed; lia..|].
  destruct neg; cbn [mbind outcome_bind].
  - rewrite aset_in_bounds by (unfold len; rewrite length_app; simpl; lia). cbn [mbind outcome_bind].
    rewrite Nat2Z.id, insert_middle by done.
    rewrite aset_in_bounds by (unfold len; rewrite length_app; simpl; lia). cbn [mbind outcome_bind].
    replace (ds ++ CH_MINUS :: b :: rest) with ((ds ++ [CH_MINUS]) ++ b :: rest) by by rewrite <- app_assoc.
    rewrite insert_middle by (rewrite length_app; simpl; lia).
    replace (Z.of_nat (length ds) + 1) with (Z.of_nat (length (ds ++ [CH_MINUS]))) by (rewrite length_app; simpl; lia).
    rewrite reverse_prefix. exists (rev (ds ++ [CH_MINUS]) ++ 0 :: rest), (rev (ds ++ [CH_MINUS])).
    split; [done|]. split_and!; [apply cstr_digits; [|eauto]|..].
    + rewrite rev_unit. constructor; [done|]. apply Forall_rev. eapply Forall_impl; [exact Hch|]. unfold CH_0. intros c; lia.
    + rewrite rev_unit. cbn [decimal_signed]. rewrite Z.eqb_refl. lia.
    + unfold len. rewrite length_rev, length_app. simpl. lia.
  - rewrite aset_in_bounds by (unfold len; rewrite length_app; simpl; lia). cbn [mbind outcome_bind].
    rewrite Nat2Z.id, insert_middle by done.
    rewrite reverse_prefix. exists (rev ds ++ 0 :: b :: rest), (rev ds).
    split; [done|]. split_and!; [apply cstr_digits; [|eauto]|..].
    + apply Forall_rev. eapply Forall_impl; [exact Hch|]. unfold CH_0. intros c; lia.
    + rewrite <- Hnum, <- Hval. unfold decimal_signed. destruct (rev ds) as [|c t] eqn:Er; [done|].
      apply Forall_rev in Hch. rewrite Er in Hch. apply Forall_cons in Hch as [Hc _].
      destruct (Z.eqb_spec c CH_MINUS) as [->|]; [unfold CH_MINUS, CH_0 in Hc; lia|done].
    + unfold len. rewrite length_rev. lia.
Qed.

(** For the least [int] the negation wraps, every remainder is negative and the
    digits are characters below '0'. *)
Lemma itoa_int_min :
  itoa (- 2 ^ 31) (replicate 12 0) 10 = Ret [45; 46; 47; 44; 41; 44; 40; 45; 42; 44; 40; 0].
Proof. vm_compute. reflexivity. Qed.

(** ** The theorems on concrete inputs *)

Lemma string_functions_sound_witness :
  strlen [47; 100; 0; 9] = Ret (len [47; 100]) /\
  (exists r, strcmp [47; 100; 0; 9] [47; 0] = Ret r /\ (r =? 0) = str_eq [47; 100] [47]) /\
  (exists r, strncmp [47; 100; 0; 9] [47; 0] (len [47]) = Ret r /\ (r =? 0) = has_prefix [47] [47; 100]) /\
  match strcpy_into (len [1; 1; 1; 1]) [47; 100] with
  | Ret s' => s' = [47; 100] /\
      strcpy [1; 1; 1; 1] [47; 100; 0; 9] = Ret ([47; 100] ++ 0 :: drop 3 [1; 1; 1; 1]) /\
      cstr ([47; 100] ++ 0 :: drop 3 [1; 1; 1; 1]) [47; 100]
  | _ => strcpy [1; 1; 1; 1] [47; 100; 0; 9] = Fault OutOfBounds
  end.
Proof.
  apply (string_functions_sound [47; 100; 0; 9] [47; 0] [47; 100] [47] [1; 1; 1; 1]).
  - split; [apply (bool_decide_unpack _); vm_compute; exact I|by exists [9]].
  - split; [apply (bool_decide_unpack _); vm_compute; exact I|by exists []].
Defined.

Lemma memmove_correct_witness :
  exists m', memmove [1; 2; 3; 4; 5] 1 0 4 = Ret m' /\ shifted [1; 2; 3; 4; 5] m' 1 0 0 4.
Proof. apply (memmove_correct [1; 2; 3; 4; 5] 1 0 4); unfold len; simpl; lia. Defined.

Lemma memmove_skips_head_witness :
  exists m', memmove [1; 2; 3; 4; 5; 6; 7; 8; 9; 10] 1 0 9 = Ret m' /\
  forall j, 1 <= j < 1 + 9 mod 8 -> m' !! Z.to_nat j = [1; 2; 3; 4; 5; 6; 7; 8; 9; 10] !! Z.to_nat j.
Proof. apply (memmove_skips_head [1; 2; 3; 4; 5; 6; 7; 8; 9; 10] 1 0 9); unfold len; simpl; lia. Defined.

Lemma itoa_decimal_witness :
  exists s' t, itoa (-105) (replicate 12 7) 10 = Ret s' /\ cstr s' t /\ decimal_signed t = -105 /\ len t <= 11.
Proof. apply (itoa_decimal (-105) (replicate 12 7)); unfold len; simpl; lia. Defined.
