(* ===== verification/Text.v ===== *)
(** * Texts in buffers

    How procfs, the timer and the shell put texts together: string literals,
    strcpy_safe and strcat_safe at a pointer into a buffer, itoa, and the piece of
    a text that a read returns.  A buffer [buf_is]: a finished part, the string at
    the pointer, its terminator, anything. *)

From stdpp Require Import strings.
From S2P Require Import Prelude Kstd KstdProofs.

(** The characters of a literal; [zlit] is the array with its terminator. *)
Definition lit (s : string) : list Z := (fun c => Z.of_N (Ascii.N_of_ascii c)) <$> String.list_ascii_of_string s.
Definition zlit (s : string) : list Z := lit s ++ [0].

(** strcpy_safe(buf + ptr, src, remaining) and strcat_safe. *)
Definition at_ptr (f : list Z -> outcome (list Z)) (buf : list Z) (ptr : Z) : outcome (list Z) :=
  if (0 <=? ptr) && (ptr <=? len buf) then
    tail ← f (drop (Z.to_nat ptr) buf); Ret (take (Z.to_nat ptr) buf ++ tail)
  else Fault OutOfBounds.

Definition strcpy_at (buf : list Z) (ptr : Z) (src : list Z) (remaining : Z) : outcome (list Z) :=
  at_ptr (fun d => strcpy_safe d src remaining) buf ptr.
Definition strcat_at (buf : list Z) (ptr : Z) (src : list Z) (remaining : Z) : outcome (list Z) :=
  at_ptr (fun d => strcat_safe d src remaining) buf ptr.

(** strcat_safe of several strings, one after the other. *)
Fixpoint strcats (buf : list Z) (ptr : Z) (srcs : list (list Z)) (remaining : Z) : outcome (list Z) :=
  match srcs with
  | [] => Ret buf
  | src :: srcs' => buf ← strcat_at buf ptr src remaining; strcats buf ptr srcs' remaining
  end.

(** The end of every read function of procfs: the part of the text in [buf] from
    [pos] on, at most [count] bytes of it.  The result, the bytes and the position. *)
Definition text_read (buf : list Z) (count pos : Z) : outcome (Z * list Z * Z) :=
  l ← strlen buf;
  if l <=? u64 pos then Ret (0, [], pos) else
  let remaining := l - pos in
  let to_copy := if remaining <? count then remaining else count in
  bytes ← mem_read buf pos to_copy;
  Ret (to_copy, bytes, pos + to_copy).

(** format_memory_size of core/kernel/mem/allocator.c.  (double)size keeps 53
    bits and rounds to even; dividing by 1024, taking the fraction and multiplying
    it by ten are then exact, so a double is the integer [v] over 1024^unit.  A
    conversion to int that does not fit gives INT_MIN, as the processor does. *)
Definition to_double (size : Z) : Z :=
  if size <? 2 ^ 53 then size
  else
    let e := 2 ^ (Z.log2 size - 52) in
    let q := size / e in
    let r := 2 * (size mod e) in
    (if (e <? r) || (r =? e) && Z.odd q then q + 1 else q) * e.

(** [while (formatted_size >= 1024 && unit_index < 3)]. *)
Fixpoint unit_loop (n : nat) (v unit_index : Z) : Z :=
  match n with
  | O => unit_index
  | S n' => if (1024 * 1024 ^ unit_index <=? v) && (unit_index <? 3) then unit_loop n' v (unit_index + 1) else unit_index
  end.

Definition to_int (x : Z) : Z := if (-2147483648 <=? x) && (x <? 2147483648) then x else -2147483648.

(** [while (n > 0)]: the digits, least significant first. *)
Fixpoint size_digits (k : nat) (n : Z) : list Z :=
  match k with O => [] | S k' => if 0 <? n then (CH_0 + n mod 10) :: size_digits k' (n / 10) else [] end.

Definition units : list (list Z) := [lit "B"; lit "KB"; lit "MB"; lit "GB"].

(** The string in the buffer of 32 bytes. *)
Definition format_memory_size (size : Z) : outcome (list Z) :=
  let v := to_double size in
  let unit_index := unit_loop 4 v 0 in
  let scale := 1024 ^ unit_index in
  let int_part := to_int (v / scale) in
  let frac_part := to_int (Z.quot ((v - int_part * scale) * 10) scale) in
  let num := if int_part =? 0 then [CH_0] else size_digits 10 int_part in
  unit ← aget units unit_index;
  Ret (rev num ++ [46; u8 (CH_0 + frac_part); 32] ++ unit).

(** ** Strings *)

Definition no_nul (s : list Z) : Prop := 0 ∉ s.

Lemma no_nul_app s t : no_nul (s ++ t) <-> no_nul s /\ no_nul t.
Proof. unfold no_nul. rewrite elem_of_app. tauto. Qed.

Lemma zlit_cstr s : no_nul (lit s) -> cstr (zlit s) (lit s).
Proof. intros H. split; [done|]. by exists []. Qed.

(** A copy of at most [max_len - 1] characters. *)
Lemma safe_loop_ok src t o max_len : cstr src t -> 0 <= o < max_len -> max_len <= 2 ^ 62 -> forall n i dest,
  max_len <= len dest -> (i <= length (take (Z.to_nat (max_len - 1 - o)) t))%nat -> (length t - i < n)%nat ->
  strcpy_safe_loop dest src o (Z.of_nat i) max_len n =
  Ret (take (Z.to_nat o + i) dest ++ drop i (take (Z.to_nat (max_len - 1 - o)) t)
       ++ 0 :: drop (S (Z.to_nat o + length (take (Z.to_nat (max_len - 1 - o)) t))) dest).
Proof.
  intros Ht Ho Hm. set (t' := take (Z.to_nat (max_len - 1 - o)) t).
  change (2 ^ 62) with 4611686018427387904 in Hm.
  assert (len t' <= max_len - 1 - o) as Hlt by (unfold t', len; rewrite length_take; lia).
  assert (length t' <= length t)%nat as Htt by (unfold t'; rewrite length_take; lia).
  induction n as [|n IH]; intros i dest Hd Hi Hn; [lia|]. cbn [strcpy_safe_loop]. rewrite u64_id by lia.
  assert (forall d, len d = len dest -> o + Z.of_nat (length t') < len d ->
    aset d (o + Z.of_nat (length t')) 0 = Ret (take (Z.to_nat o + length t') d ++ 0 :: drop (S (Z.to_nat o + length t')) d)) as Hend.
  { intros d Hld Hlt'. rewrite aset_in_bounds by lia. rewrite insert_take_drop by (unfold len in *; lia).
    by replace (Z.to_nat (o + Z.of_nat (length t'))) with (Z.to_nat o + length t')%nat by lia. }
  destruct (decide (i = length t')) as [->|Hne].
  - rewrite drop_all. cbn [app]. unfold len in *. destruct (Z.ltb_spec (o + Z.of_nat (length t')) (max_len - 1)) as [Hlt2|Hge].
    + assert (length t' = length t) as El by (unfold t' in *; rewrite length_take in *; lia).
      rewrite (cstr_end_at src t) by done. cbn [mbind outcome_bind]. rewrite Z.eqb_refl. apply Hend; [done|unfold len; lia].
    + apply Hend; [done|unfold len; lia].
  - unfold len in *. rewrite (proj2 (Z.ltb_lt _ _)) by lia.
    destruct (lookup_lt_is_Some_2 t' i) as [c Hc]; [lia|].
    assert (t !! i = Some c) as Htc by (unfold t' in Hc; rewrite lookup_take_Some in Hc; tauto).
    destruct (cstr_lookup_char src t i c Ht Htc) as [-> Hnz]. cbn [mbind outcome_bind].
    rewrite (proj2 (Z.eqb_neq _ _) Hnz). rewrite aset_in_bounds by (unfold len; lia). cbn [mbind outcome_bind].
    replace (Z.of_nat i + 1) with (Z.of_nat (S i)) by lia.
    rewrite IH; [|rewrite length_insert; lia|lia|lia].
    replace (Z.to_nat (o + Z.of_nat i)) with (Z.to_nat o + i)%nat by lia. f_equal.
    rewrite (drop_S _ _ _ Hc), drop_insert_lt by lia.
    replace (Z.to_nat o + S i)%nat with (S (Z.to_nat o + i)) by lia.
    rewrite (take_S_r _ _ c) by (apply list_lookup_insert_eq; lia).
    rewrite take_insert_ge by lia. by rewrite <- app_assoc.
Qed.

(** ** Buffers

    A buffer of [size] bytes: the text [done_] before the pointer, the string [s] at
    the pointer and its terminator. *)
Record buf_is (size : Z) (buf done_ s : list Z) : Prop := {
  bi_size : len buf = size;
  bi_small : size <= 2 ^ 62;
  bi_nul : no_nul (done_ ++ s);
  bi_text : exists rest, buf = done_ ++ s ++ 0 :: rest;
}.

Lemma buf_cstr size buf done_ s : buf_is size buf done_ s -> cstr buf (done_ ++ s).
Proof. intros [_ _ Hn [rest ->]]. split; [done|]. exists rest. by rewrite app_assoc. Qed.

(** The pointer moves to the end of the string. *)
Lemma buf_advance size buf done_ s : buf_is size buf done_ s -> buf_is size buf (done_ ++ s) [].
Proof.
  intros [Hs Hm Hn [rest ->]]. split; [done|done|by rewrite app_nil_r|]. exists rest. by rewrite <- app_assoc.
Qed.

Lemma at_ptr_ok f pre tail : at_ptr f (pre ++ tail) (len pre) = (t ← f tail; Ret (pre ++ t)).
Proof.
  unfold at_ptr, len. rewrite length_app, Nat2Z.id, take_app_length, drop_app_length.
  destruct (Z.leb_spec 0 (Z.of_nat (length pre))); [|lia]. destruct (Z.leb_spec (Z.of_nat (length pre)) (Z.of_nat (length pre + length tail))); [done|lia].
Qed.

Lemma strcpy_at_ok size buf pre rest src t :
  buf = pre ++ rest -> len buf = size -> size <= 2 ^ 62 -> no_nul pre -> cstr src t -> len pre + len t < size ->
  runs_to (strcpy_at buf (len pre) src (size - len pre)) (fun b => buf_is size b pre t).
Proof.
  intros -> Hs Hm Hp Ht Hl. unfold strcpy_at. rewrite at_ptr_ok. unfold strcpy_safe. unfold len in *.
  pose proof (cstr_length _ _ Ht) as Hlt. rewrite length_app in Hs.
  rewrite (safe_loop_ok src t 0 (size - Z.of_nat (length pre)) Ht ltac:(lia) ltac:(lia) _ 0) by (unfold len; rewrite ?length_take; lia).
  rewrite Z.sub_0_r. rewrite (take_ge t) by lia. change (Z.to_nat 0 + 0)%nat with 0%nat. rewrite take_0, drop_0. cbn [mbind outcome_bind runs_to app].
  change (Z.to_nat 0) with 0%nat. cbn [Nat.add]. split; [|done| |eexists; done].
  - unfold len. rewrite !length_app. cbn [length]. rewrite length_drop. lia.
  - apply no_nul_app. split; [done|apply Ht].
Qed.

Lemma strcat_at_ok size buf done_ s src t :
  buf_is size buf done_ s -> cstr src t -> len done_ + len s + len t < size ->
  runs_to (strcat_at buf (len done_) src (size - len done_)) (fun b => buf_is size b done_ (s ++ t)).
Proof.
  intros [Hs Hm Hn [rest ->]] Ht Hl. unfold strcat_at. rewrite at_ptr_ok. unfold strcat_safe.
  apply no_nul_app in Hn as [Hn1 Hn2].
  assert (cstr (s ++ 0 :: rest) s) as Hc by (split; [done|by exists rest]).
  rewrite (strlen_ok _ _ Hc). cbn [mbind outcome_bind]. unfold len in *.
  pose proof (cstr_length _ _ Ht) as Hlt. rewrite !length_app in Hs. cbn [length] in Hs.
  rewrite (safe_loop_ok src t (Z.of_nat (length s)) (size - Z.of_nat (length done_)) Ht ltac:(lia) ltac:(lia) _ 0)
    by (unfold len; rewrite ?length_take, ?length_app; cbn [length]; lia).
  rewrite (take_ge t) by lia. rewrite Nat2Z.id, Nat.add_0_r, take_app_length. cbn [mbind outcome_bind runs_to drop].
  split; [|done| |eexists; by rewrite <- !app_assoc].
  - unfold len. rewrite !length_app. cbn [length]. rewrite !length_drop, !length_app. cbn [length]. lia.
  - rewrite !no_nul_app. split_and!; [done|done|apply Ht].
Qed.

Lemma strcats_ok size done_ srcs ts : Forall2 cstr srcs ts -> forall buf s,
  buf_is size buf done_ s -> len done_ + len s + len (concat ts) < size ->
  runs_to (strcats buf (len done_) srcs (size - len done_)) (fun b => buf_is size b done_ (s ++ concat ts)).
Proof.
  induction 1 as [|src t srcs ts Ht _ IH]; intros buf s Hb Hl; cbn [strcats concat] in *.
  - by rewrite app_nil_r.
  - unfold len in *. rewrite length_app in Hl. eapply runs_to_bind; [apply (strcat_at_ok size buf done_ s src t Hb Ht)|].
    { unfold len. lia. }
    intros b Hb'. eapply runs_to_mono; [apply IH; [exact Hb'|rewrite length_app; lia]|]. intros b' Hb2. by rewrite app_assoc.
Qed.

(** ** Reading a text in pieces *)

Lemma text_read_ok buf t count pos :
  cstr buf t -> 0 <= pos < 2 ^ 63 -> 0 <= count ->
  text_read buf count pos =
    (let bytes := take (Z.to_nat count) (drop (Z.to_nat pos) t) in Ret (len bytes, bytes, pos + len bytes)).
Proof.
  intros Hb Hp Hc. change (2 ^ 63) with 9223372036854775808 in Hp. unfold text_read. rewrite (strlen_ok _ _ Hb). cbn [mbind outcome_bind].
  rewrite u64_id by lia. destruct (Z.leb_spec (len t) pos) as [Hge|Hlt].
  { rewrite drop_ge by (unfold len in *; lia). rewrite take_nil. cbn. by rewrite Z.add_0_r. }
  destruct Hb as [_ [rest ->]]. unfold mem_read.
  set (k := if len t - pos <? count then len t - pos else count).
  assert (0 <= k <= len t - pos /\ take (Z.to_nat count) (drop (Z.to_nat pos) t) = take (Z.to_nat k) (drop (Z.to_nat pos) t)) as [Hk Hte].
  { unfold k, len in *. destruct (Z.ltb_spec (Z.of_nat (length t) - pos) count); [|split; [lia|done]].
    split; [lia|]. by rewrite !take_ge by (rewrite length_drop; lia). }
  cbn zeta. rewrite Hte. unfold len in *. rewrite length_app. cbn [length].
  rewrite (proj2 (Z.leb_le 0 pos)), (proj2 (Z.leb_le 0 k)), (proj2 (Z.leb_le _ _)) by lia. cbn [andb mbind outcome_bind].
  rewrite (drop_app_le t) by lia. rewrite (take_app_le (drop _ t)) by (rewrite length_drop; lia).
  rewrite length_take, length_drop. by replace (Z.of_nat (Z.to_nat k `min` (length t - Z.to_nat pos))) with k by lia.
Qed.

(** Reads of [n] bytes each, one after the other from the start. *)
Fixpoint read_all (buf : list Z) (rounds : nat) (n pos : Z) : outcome (list Z) :=
  match rounds with
  | O => OutOfFuel
  | S k =>
      '(r, bytes, pos) ← text_read buf n pos;
      if r =? 0 then Ret [] else rest ← read_all buf k n pos; Ret (bytes ++ rest)
  end.

(** A client that reads until 0 is returned gets the whole text, whatever the size of
    its buffer. *)
Lemma read_all_ok buf t n : cstr buf t -> 0 < n -> len t < 2 ^ 62 -> forall rounds pos,
  0 <= pos <= len t -> len t - pos < Z.of_nat rounds -> read_all buf rounds n pos = Ret (drop (Z.to_nat pos) t).
Proof.
  intros Hb Hn Ht. change (2 ^ 62) with 4611686018427387904 in Ht.
  induction rounds as [|k IH]; intros pos Hp Hk; [lia|]. cbn [read_all].
  rewrite (text_read_ok buf t) by (done || change (2 ^ 63) with 9223372036854775808; lia). cbn [mbind outcome_bind]. cbn zeta.
  set (bytes := take (Z.to_nat n) (drop (Z.to_nat pos) t)).
  assert (len bytes = Z.min n (len t - pos)) as Hl by (unfold bytes, len; rewrite length_take, length_drop; unfold len in *; lia).
  destruct (Z.eqb_spec (len bytes) 0) as [E|E].
  { rewrite drop_ge; [done|]. unfold len in *. lia. }
  rewrite IH by lia. cbn [mbind outcome_bind]. f_equal.
  transitivity (bytes ++ drop (Z.to_nat n) (drop (Z.to_nat pos) t)); [|apply take_drop]. f_equal. rewrite drop_drop.
  destruct (Z.le_gt_cases n (len t - pos)).
  - f_equal. lia.
  - rewrite !drop_ge; [done|unfold len in *; lia..].
Qed.

(** ** Decimal numbers *)

(** The digits of a number, most significant first. *)
Definition show (n : Z) : list Z :=
  if n =? 0 then [CH_0] else if n <? 0 then CH_MINUS :: rev (digits 32 (- n)) else rev (digits 32 n).

Lemma show_chars n : - 2 ^ 31 < n < 2 ^ 31 -> no_nul (show n) /\ len (show n) <= 11.
Proof.
  intros Hn. unfold show, no_nul, len. destruct (Z.eqb_spec n 0); [split; [by rewrite list_elem_of_singleton|cbn; lia]|].
  assert (forall u, 0 <= u < 2 ^ 31 -> (0 ∉ rev (digits 32 u)) /\ (length (rev (digits 32 u)) <= 10)%nat) as Hd.
  { intros u Hu. rewrite length_rev. split; [|apply digits_short; change (2 ^ 31) with 2147483648 in Hu; lia].
    intros H0. pose proof (digits_chars 32 u ltac:(lia)) as Hc. apply Forall_rev in Hc. rewrite Forall_forall in Hc.
    specialize (Hc 0 H0). unfold CH_0 in Hc. lia. }
  destruct (Z.ltb_spec n 0); [destruct (Hd (- n)) as [H1 H2]|destruct (Hd n) as [H1 H2]]; try lia; split; cbn [length]; try lia; try done.
  rewrite elem_of_cons. intros [E|E]; done.
Qed.

(** A short number has few characters. *)
Lemma show_short n k : 0 <= n < 10 ^ Z.of_nat k -> (1 <= k)%nat -> len (show n) <= Z.of_nat k.
Proof.
  intros Hn Hk. unfold show, len. destruct (Z.eqb_spec n 0); [cbn; lia|]. destruct (Z.ltb_spec n 0); [lia|].
  rewrite length_rev. pose proof (digits_short k 32 n Hn). lia.
Qed.

(** itoa writes the number, in a buffer that is large enough for it. *)
Lemma itoa_show num s :
  - 2 ^ 31 < num < 2 ^ 31 -> len (show num) < len s ->
  runs_to (itoa num s 10) (fun s' => cstr s' (show num) /\ len s' = len s).
Proof.
  intros Hn Hs. destruct (show_chars num Hn) as [Hc Hl]. unfold itoa, show in *. destruct (Z.eqb_spec num 0) as [->|Hne].
  { unfold len in Hs. cbn [length] in Hs. rewrite aset_in_bounds by (unfold len; lia). cbn [mbind outcome_bind].
    rewrite aset_in_bounds by (rewrite len_insert; unfold len; lia). destruct s as [|a [|b s]]; [cbn [length] in Hs; lia..|].
    split; [split; [done|by exists s]|done]. }
  cbn [Z.eqb Pos.eqb]. rewrite andb_true_r.
  assert (forall u, 0 < u < 2 ^ 31 -> len (digits 32 u) < len s ->
    itoa_loop u 10 s 0 33 = Ret (digits 32 u ++ drop (length (digits 32 u)) s, Z.of_nat (length (digits 32 u)))) as Hloop.
  { intros u Hu Hlu. pose proof (itoa_loop_ok 32 u s 0 ltac:(change (2 ^ 31) with 2147483648 in Hu; lia) ltac:(unfold len in Hlu; lia)) as H.
    change (Z.of_nat 0) with 0 in H. rewrite H. by rewrite take_0. }
  destruct (Z.ltb_spec num 0).
  - rewrite i32_id by (change (2 ^ 31) with 2147483648 in Hn; lia). set (ds := digits 32 (- num)) in *. unfold len in Hs. cbn [length] in Hs. rewrite length_rev in Hs.
    rewrite Hloop by (lia || fold ds; unfold len; lia). fold ds. cbn [mbind outcome_bind].
    destruct (drop (length ds) s) as [|a [|b rest]] eqn:Ed;
      [apply (f_equal length) in Ed; rewrite length_drop in Ed; cbn [length] in Ed; lia..|].
    assert (length s = length ds + S (S (length rest)))%nat as Els.
    { apply (f_equal length) in Ed. rewrite length_drop in Ed. cbn [length] in Ed. lia. }
    rewrite aset_in_bounds by (unfold len; rewrite length_app; cbn [length]; lia). cbn [mbind outcome_bind].
    rewrite Nat2Z.id, insert_middle by done.
    rewrite aset_in_bounds by (unfold len; rewrite length_app; cbn [length]; lia). cbn [mbind outcome_bind].
    replace (ds ++ CH_MINUS :: b :: rest) with ((ds ++ [CH_MINUS]) ++ b :: rest) by by rewrite <- app_assoc.
    rewrite insert_middle by (rewrite length_app; cbn [length]; lia).
    replace (Z.of_nat (length ds) + 1) with (Z.of_nat (length (ds ++ [CH_MINUS]))) by (rewrite length_app; cbn [length]; lia).
    rewrite reverse_prefix. cbn [runs_to]. rewrite rev_unit. split.
    + split; [exact Hc|]. by exists rest.
    + unfold len. rewrite length_app. cbn [length]. rewrite length_rev. lia.
  - set (ds := digits 32 num) in *. unfold len in Hs. rewrite length_rev in Hs. rewrite Hloop by (lia || fold ds; unfold len; lia). fold ds. cbn [mbind outcome_bind].
    destruct (drop (length ds) s) as [|a rest] eqn:Ed;
      [apply (f_equal length) in Ed; rewrite length_drop in Ed; cbn [length] in Ed; lia|].
    assert (length s = length ds + S (length rest))%nat as Els.
    { apply (f_equal length) in Ed. rewrite length_drop in Ed. cbn [length] in Ed. lia. }
    rewrite aset_in_bounds by (unfold len; rewrite length_app; cbn [length]; lia). cbn [mbind outcome_bind].
    rewrite Nat2Z.id, insert_middle by done. rewrite reverse_prefix. cbn [runs_to]. split.
    + split; [exact Hc|]. by exists rest.
    + unfold len. rewrite length_app. cbn [length]. rewrite length_rev. lia.
Qed.
