(* ===== verification/Keyboard.v ===== *)
(** * The keyboard

    core/drivers/keyboard.c: scan codes to characters, a ring of 256 characters
    between the interrupt handler and the readers, hot keys, and a line editor.
    Ports, scheduler, screen and hot-key functions are the class [KbdHost].

    [typed_line]: a line that is typed on the keys is the line that is read. *)

From stdpp Require Import strings.
From S2P Require Import Prelude Ring Text.

Definition KEYBOARD_DATA_PORT : Z := 0x60.
Definition KEYBOARD_STATUS_PORT : Z := 0x64.
Definition KEYBOARD_BUFFER_SIZE : Z := 256.
Definition HOTKEY_MOD_SHIFT : Z := 1.
Definition HOTKEY_MOD_CTRL : Z := 2.
Definition HOTKEY_MOD_ALT : Z := 4.

Definition scancode_to_ascii : list Z :=
  [0; 27; 49; 50; 51; 52; 53; 54; 55; 56; 57; 48; 45; 61; 8;
   9; 113; 119; 101; 114; 116; 121; 117; 105; 111; 112; 91; 93; 10;
   0; 97; 115; 100; 102; 103; 104; 106; 107; 108; 59; 39; 96;
   0; 92; 122; 120; 99; 118; 98; 110; 109; 44; 46; 47; 0;
   42; 0; 32].

Definition scancode_to_ascii_shifted : list Z :=
  [0; 27; 33; 64; 35; 36; 37; 94; 38; 42; 40; 41; 95; 43; 8;
   9; 81; 87; 69; 82; 84; 89; 85; 73; 79; 80; 123; 125; 10;
   0; 65; 83; 68; 70; 71; 72; 74; 75; 76; 58; 34; 126;
   0; 124; 90; 88; 67; 86; 66; 78; 77; 60; 62; 63; 0;
   42; 0; 32].

Record hotkey := mkhotkey {
  hk_scancode : Z; hk_modifiers : Z; hk_callback : Z; hk_data : Z; hk_used : bool;
}.

Record kbd := mkkbd {
  keyboard_buffer : list Z;
  buffer_read_pos : Z;
  buffer_write_pos : Z;
  shift_pressed : bool;
  caps_lock : bool;
  ctrl_pressed : bool;
  alt_pressed : bool;
  hotkeys : list hotkey;
}.

Definition set_ring k b r w :=
  mkkbd b r w (shift_pressed k) (caps_lock k) (ctrl_pressed k) (alt_pressed k) (hotkeys k).
Definition set_modifiers k s cl ct a :=
  mkkbd (keyboard_buffer k) (buffer_read_pos k) (buffer_write_pos k) s cl ct a (hotkeys k).
Definition set_hotkeys k hs :=
  mkkbd (keyboard_buffer k) (buffer_read_pos k) (buffer_write_pos k) (shift_pressed k) (caps_lock k)
    (ctrl_pressed k) (alt_pressed k) hs.

Definition keyboard_buffer_push (c : Z) (k : kbd) : outcome kbd :=
  let next_pos := (buffer_write_pos k + 1) mod KEYBOARD_BUFFER_SIZE in
  if next_pos =? buffer_read_pos k then Ret k
  else
    b ← aset (keyboard_buffer k) (buffer_write_pos k) c;
    Ret (set_ring k b (buffer_read_pos k) next_pos).

Definition keyboard_buffer_pop (k : kbd) : outcome (Z * kbd) :=
  if buffer_read_pos k =? buffer_write_pos k then Ret (0, k)
  else
    c ← aget (keyboard_buffer k) (buffer_read_pos k);
    Ret (c, set_ring k (keyboard_buffer k) ((buffer_read_pos k + 1) mod KEYBOARD_BUFFER_SIZE) (buffer_write_pos k)).

(** The index of the entry, or -1. *)
Definition keyboard_register_hotkey (scancode modifiers callback data : Z) (k : kbd) : outcome (Z * kbd) :=
  match first_index (fun h => negb (hk_used h)) (hotkeys k) with
  | Some i =>
      hs ← aset (hotkeys k) i (mkhotkey scancode modifiers callback data true);
      Ret (i, set_hotkeys k hs)
  | None => Ret (-1, k)
  end.

Definition keyboard_unregister_hotkey (id : Z) (k : kbd) : outcome kbd :=
  if (0 <=? id) && (id <? 16) then
    h ← aget (hotkeys k) id;
    hs ← aset (hotkeys k) id (mkhotkey (hk_scancode h) (hk_modifiers h) (hk_callback h) (hk_data h) false);
    Ret (set_hotkeys k hs)
  else Ret k.

Definition keyboard_init (k : kbd) : kbd :=
  mkkbd (keyboard_buffer k) 0 0 false false false false
    (map (fun h => mkhotkey (hk_scancode h) (hk_modifiers h) (hk_callback h) (hk_data h) false) (hotkeys k)).

Class KbdHost (W : Type) := {
  inb : Z -> W -> Z * W;
  nvm_scheduler_tick : W -> W;
  kprint : list Z -> Z -> W -> W;
  vga_backspace : W -> W;
  hotkey_call : Z -> Z -> kbd -> W -> kbd * W;     (** a hot-key function may call the driver *)
}.

Section Keyboard.
Context {W : Type} {K : KbdHost W}.

Definition modifiers_of (k : kbd) : Z :=
  let mods := if shift_pressed k then HOTKEY_MOD_SHIFT else 0 in
  let mods := if ctrl_pressed k then Z.lor mods HOTKEY_MOD_CTRL else mods in
  if alt_pressed k then Z.lor mods HOTKEY_MOD_ALT else mods.

Definition check_hotkeys (scancode : Z) (k : kbd) (w : W) : outcome (kbd * W) :=
  match first_index (fun h => hk_used h && (hk_scancode h =? scancode) && (hk_modifiers h =? modifiers_of k)) (hotkeys k) with
  | Some i =>
      h ← aget (hotkeys k) i;
      Ret (if hk_callback h =? 0 then (k, w) else hotkey_call (hk_callback h) (hk_data h) k w)
  | None => Ret (k, w)
  end.

(** The release of a key. *)
Definition key_up (k : kbd) (scancode : Z) : kbd :=
  set_modifiers k
    (if (scancode =? 0x2A) || (scancode =? 0x36) then false else shift_pressed k)
    (caps_lock k)
    (if scancode =? 0x1D then false else ctrl_pressed k)
    (if scancode =? 0x38 then false else alt_pressed k).

(** The character of a key under the modifiers; [None] behind the tables. *)
Definition key_char (k : kbd) (scancode : Z) : outcome (option Z) :=
  if scancode <? len scancode_to_ascii then
    ascii ← (if shift_pressed k then aget scancode_to_ascii_shifted scancode
             else
               a ← aget scancode_to_ascii scancode;
               Ret (if caps_lock k && (97 <=? a) && (a <=? 122) then a - 97 + 65 else a));
    Ret (Some (if ctrl_pressed k && (97 <=? ascii) && (ascii <=? 122) then ascii - 97 + 1
               else if ctrl_pressed k && (65 <=? ascii) && (ascii <=? 90) then ascii - 65 + 1
               else ascii))
  else Ret None.

(** keyboard_handler after the byte is read from the data port. *)
Definition handle_scancode (byte : Z) (k : kbd) (w : W) : outcome (kbd * W) :=
  let scancode := i8 byte in
  if negb (Z.land scancode 0x80 =? 0) then Ret (key_up k (i8 (Z.land scancode 0x7F)), w)
  else
    '(k, w) ← check_hotkeys scancode k w;
    if (scancode =? 0x2A) || (scancode =? 0x36) then Ret (set_modifiers k true (caps_lock k) (ctrl_pressed k) (alt_pressed k), w)
    else if scancode =? 0x1D then Ret (set_modifiers k (shift_pressed k) (caps_lock k) true (alt_pressed k), w)
    else if scancode =? 0x38 then Ret (set_modifiers k (shift_pressed k) (caps_lock k) (ctrl_pressed k) true, w)
    else if scancode =? 0x3A then Ret (set_modifiers k (shift_pressed k) (negb (caps_lock k)) (ctrl_pressed k) (alt_pressed k), w)
    else
      c ← key_char k scancode;
      match c with
      | None => Ret (k, w)
      | Some c => if c =? 0 then Ret (k, w) else k ← keyboard_buffer_push c k; Ret (k, w)
      end.

Definition keyboard_handler (k : kbd) (w : W) : outcome (kbd * W) :=
  let '(b, w) := inb KEYBOARD_DATA_PORT w in handle_scancode b k w.

Definition keyboard_poll (k : kbd) (w : W) : outcome (kbd * W) :=
  let '(s, w) := inb KEYBOARD_STATUS_PORT w in
  if Z.land (i8 s) 0x01 =? 0 then Ret (k, w) else keyboard_handler k w.

Definition keyboard_has_char (k : kbd) (w : W) : outcome (bool * kbd * W) :=
  '(k, w) ← keyboard_poll k w;
  Ret (negb (buffer_read_pos k =? buffer_write_pos k), k, w).

(** Waits for a character; [n] rounds of the loop. *)
Fixpoint keyboard_getchar (n : nat) (k : kbd) (w : W) : outcome (Z * kbd * W) :=
  match n with
  | O => OutOfFuel
  | S n' =>
      '(has, k, w) ← keyboard_has_char k w;
      if has : bool then '(c, k) ← keyboard_buffer_pop k; Ret (c, k, w)
      else
        '(k, w) ← keyboard_poll k w;
        keyboard_getchar n' k (nvm_scheduler_tick w)
  end.

(** Reads at most [n - 1] characters, with [fuel] rounds of waiting for each; the
    memory at [buffer], the keyboard and the world. *)
Fixpoint getline_loop (n fuel : nat) (buffer : list Z) (pos max_length : Z) (k : kbd) (w : W) : outcome (list Z * kbd * W) :=
  match n with
  | O => OutOfFuel
  | S n' =>
      if pos <? max_length - 1 then
        '(c, k, w) ← keyboard_getchar fuel k w;
        if c =? 10 then
          buffer ← aset buffer pos 0;
          Ret (buffer, k, kprint [10] 7 w)
        else if c =? 8 then
          if 0 <? pos then getline_loop n' fuel buffer (pos - 1) max_length k (vga_backspace w)
          else getline_loop n' fuel buffer pos max_length k w
        else if (32 <=? c) && (c <=? 126) then
          buffer ← aset buffer pos c;
          getline_loop n' fuel buffer (pos + 1) max_length k (kprint [c] 15 w)
        else getline_loop n' fuel buffer pos max_length k w
      else
        buffer ← aset buffer pos 0;
        Ret (buffer, k, w)
  end.

Definition keyboard_getline (n fuel : nat) (buffer : list Z) (max_length : Z) (k : kbd) (w : W) : outcome (list Z * kbd * W) :=
  getline_loop n fuel buffer 0 max_length k w.
End Keyboard.

(** ** The buffer as a queue *)

Record kbd_ok (k : kbd) : Prop := {
  ko_size : len (keyboard_buffer k) = 256;
  ko_ring : ring_ok (keyboard_buffer k) (buffer_read_pos k) (buffer_write_pos k);
}.

Definition pending (k : kbd) : list Z :=
  ring_contents (keyboard_buffer k) (buffer_read_pos k) (buffer_write_pos k).

(** A full queue drops the character. *)
Lemma push_ok c k :
  kbd_ok k -> exists b wp,
  keyboard_buffer_push c k = Ret (set_ring k b (buffer_read_pos k) wp) /\
  kbd_ok (set_ring k b (buffer_read_pos k) wp) /\
  pending (set_ring k b (buffer_read_pos k) wp) = if len (pending k) <? 255 then pending k ++ [c] else pending k.
Proof.
  intros [Hs Hr]. unfold keyboard_buffer_push, pending, KEYBOARD_BUFFER_SIZE.
  pose proof (ring_full _ _ _ Hr) as Hf. pose proof (ring_len _ _ _ Hr) as Hl. rewrite Hs in *.
  pose proof (Z.mod_pos_bound (buffer_write_pos k - buffer_read_pos k) 256 ltac:(lia)) as Hb.
  destruct Hr as [Hh Ht]. rewrite Hs in *.
  destruct (Z.eqb_spec ((buffer_write_pos k + 1) mod 256) (buffer_read_pos k)) as [E|E].
  - exists (keyboard_buffer k), (buffer_write_pos k). cbn [set_ring keyboard_buffer buffer_read_pos buffer_write_pos].
    split_and!; [by destruct k|split; [done|split; cbn; rewrite Hs; done]|].
    rewrite (proj2 (Z.ltb_ge _ 255)); [done|]. apply Hf in E. lia.
  - rewrite aset_in_bounds by lia. cbn [mbind outcome_bind]. eexists _, _. split; [done|].
    cbn [set_ring keyboard_buffer buffer_read_pos buffer_write_pos]. split.
    + split; cbn; [by rewrite len_insert|]. split; rewrite len_insert, Hs; [done|]. apply Z.mod_pos_bound. lia.
    + rewrite (proj2 (Z.ltb_lt _ 255)).
      * rewrite <- Hs at 1. apply ring_push; [split; rewrite Hs; done|by rewrite Hs].
      * enough (len (ring_contents (keyboard_buffer k) (buffer_read_pos k) (buffer_write_pos k)) <> 255) by lia.
        intros X. apply E, Hf. lia.
Qed.

Lemma pop_ok k c cs :
  kbd_ok k -> pending k = c :: cs -> exists rp,
  keyboard_buffer_pop k = Ret (c, set_ring k (keyboard_buffer k) rp (buffer_write_pos k)) /\
  kbd_ok (set_ring k (keyboard_buffer k) rp (buffer_write_pos k)) /\
  pending (set_ring k (keyboard_buffer k) rp (buffer_write_pos k)) = cs.
Proof.
  intros [Hs Hr] Hp. unfold keyboard_buffer_pop, pending, KEYBOARD_BUFFER_SIZE in *.
  destruct (Z.eqb_spec (buffer_read_pos k) (buffer_write_pos k)) as [E|E].
  { apply (ring_empty _ _ _ Hr) in E. congruence. }
  destruct (ring_pop _ _ _ Hr E) as (x & Hx & Hpop). rewrite Hp in Hpop. injection Hpop as <- Hrest.
  destruct Hr as [Hh Ht]. rewrite (aget_lookup _ _ c) by (done || lia). cbn [mbind outcome_bind].
  eexists. split; [done|]. cbn [set_ring keyboard_buffer buffer_read_pos buffer_write_pos]. rewrite Hs in *. split; [|done].
  split; cbn; [done|]. split; rewrite Hs; [apply Z.mod_pos_bound; lia|done].
Qed.

(** ** Typing

    The keys of a US keyboard as scan code set 1 numbers them: for each row the number
    of its first key, the characters on its keys, and those with the shift key held
    down. *)
Definition us_rows : list (Z * list Z * list Z) :=
  [(0x02, lit "1234567890-=", lit "!@#$%^&*()_+");
   (0x10, lit "qwertyuiop[]", lit "QWERTYUIOP{}");
   (0x1E, lit "asdfghjkl;'`", lit "ASDFGHJKL:" ++ [34] ++ lit "~");
   (0x2B, lit "\zxcvbnm,./", lit "|ZXCVBNM<>?");
   (0x39, lit " ", lit " ");
   (0x0E, [8], [8]);
   (0x1C, [10], [10])].

(** The key of a character, and whether the shift key is needed. *)
Fixpoint us_key (rows : list (Z * list Z * list Z)) (c : Z) : option (bool * Z) :=
  match rows with
  | [] => None
  | (first, plain, shifted) :: rows' =>
      match first_index (Z.eqb c) plain, first_index (Z.eqb c) shifted with
      | Some i, _ => Some (false, first + i)
      | None, Some i => Some (true, first + i)
      | None, None => us_key rows' c
      end
  end.

(** Typing a character: its key is pressed and released, with the left shift key held
    down where it is needed. *)
Definition strokes (c : Z) : list Z :=
  match us_key us_rows c with
  | Some (false, code) => [code; 0x80 + code]
  | Some (true, code) => [0x2A; code; 0x80 + code; 0xAA]
  | None => []
  end.

Definition typable (c : Z) : Prop := c = 8 \/ c = 10 \/ 32 <= c <= 126.

(** The editor on a list of characters: the line and the characters behind it, or
    [None] when it waits for more. *)
Fixpoint edit (line cs : list Z) (room : Z) : option (list Z * list Z) :=
  if len line <? room - 1 then
    match cs with
    | [] => None
    | c :: cs =>
        if c =? 10 then Some (line, cs)
        else if c =? 8 then edit (take (length line - 1) line) cs room
        else if (32 <=? c) && (c <=? 126) then edit (line ++ [c]) cs room
        else edit line cs room
    end
  else Some (line, cs).

Lemma edit_plain s rest room : forall line,
  Forall (fun c => 32 <= c <= 126) s -> len (line ++ s) < room - 1 -> edit line (s ++ 10 :: rest) room = Some (line ++ s, rest).
Proof.
  induction s as [|c s IH]; intros line Hs Hr; cbn [app edit].
  - rewrite app_nil_r in *. by rewrite (proj2 (Z.ltb_lt _ _) Hr).
  - inversion_clear Hs. rewrite (proj2 (Z.ltb_lt _ _)) by (unfold len in *; rewrite length_app in Hr; cbn [length] in Hr; lia).
    destruct (Z.eqb_spec c 10); [lia|]. destruct (Z.eqb_spec c 8); [lia|].
    destruct (Z.leb_spec 32 c); [|lia]. destruct (Z.leb_spec c 126); [|lia]. cbn [andb].
    rewrite IH, <- app_assoc; [done|done|]. by rewrite <- app_assoc.
Qed.

Record quiet (k : kbd) : Prop := {
  qu_ok : kbd_ok k;
  qu_caps : caps_lock k = false;
  qu_ctrl : ctrl_pressed k = false;
  qu_hot : Forall (fun h => hk_used h = false) (hotkeys k);
}.

Section Typing.
Context {W : Type} {K : KbdHost W}.

Fixpoint press (codes : list Z) (k : kbd) (w : W) : outcome (kbd * W) :=
  match codes with
  | [] => Ret (k, w)
  | b :: codes => '(k, w) ← handle_scancode b k w; press codes k w
  end.

Lemma press_app a : forall b k w, press (a ++ b) k w = ('(k, w) ← press a k w; press b k w).
Proof.
  induction a as [|x a IH]; intros b k w; cbn [app press mbind outcome_bind]; [done|].
  destruct (handle_scancode x k w) as [[k1 w1]| |]; cbn [mbind outcome_bind]; auto.
Qed.

Lemma no_hotkey scancode k w : quiet k -> check_hotkeys scancode k w = Ret (k, w).
Proof.
  intros Hq. unfold check_hotkeys, first_index. rewrite (proj2 (first_index_from_None _ _ _)); [done|].
  eapply Forall_impl; [exact (qu_hot k Hq)|]. intros h ->. done.
Qed.

Definition with_shift k s := set_modifiers k s (caps_lock k) (ctrl_pressed k) (alt_pressed k).

Lemma quiet_shift k s : quiet k -> quiet (with_shift k s).
Proof. intros [[Hs Hr] ? ? ?]. split; [split|..]; done. Qed.

Definition is_key (code : Z) : bool :=
  negb ((code =? 0x2A) || (code =? 0x36) || (code =? 0x1D) || (code =? 0x38) || (code =? 0x3A)).

(** The codes of the tables are pressed as themselves and released with bit 7. *)
Lemma press_code code : 0 <= code < 58 ->
  i8 code = code /\ Z.land code 0x80 = 0 /\
  Z.land (i8 (0x80 + code)) 0x80 <> 0 /\ i8 (Z.land (i8 (0x80 + code)) 0x7F) = code.
Proof.
  intros Hc. pose proof (by_cases 58 (fun c => (i8 c =? c) && (Z.land c 0x80 =? 0) && negb (Z.land (i8 (0x80 + c)) 0x80 =? 0) &&
    (i8 (Z.land (i8 (0x80 + c)) 0x7F) =? c)) ltac:(vm_compute; reflexivity) code Hc) as H. cbn beta in H. lia.
Qed.

Lemma release code k w : 0 <= code < 58 -> is_key code = true -> handle_scancode (0x80 + code) k w = Ret (k, w).
Proof.
  intros Hc Hk. unfold handle_scancode. destruct (press_code code Hc) as (_ & _ & Hb & ->).
  rewrite (proj2 (Z.eqb_neq _ _) Hb). cbn [negb]. unfold key_up, is_key in *.
  repeat (destruct (Z.eqb _ _); [done|]). by destruct k.
Qed.

(** A key puts its character at the end of the queue. *)
Lemma key_push code c k w :
  quiet k -> 0 <= code < 58 -> is_key code = true -> c <> 0 -> len (pending k) < 255 ->
  (if shift_pressed k then scancode_to_ascii_shifted else scancode_to_ascii) !! Z.to_nat code = Some c ->
  exists k', handle_scancode code k w = Ret (k', w) /\ quiet k' /\ shift_pressed k' = shift_pressed k /\ pending k' = pending k ++ [c].
Proof.
  intros Hq Hc Hk Hne Hl Ht. unfold handle_scancode. destruct (press_code code Hc) as (-> & -> & _). cbn [Z.eqb negb].
  rewrite (no_hotkey _ _ _ Hq). cbn [mbind outcome_bind]. unfold is_key in Hk.
  repeat (destruct (Z.eqb code _); [done|]). cbn [orb].
  destruct (push_ok c k (qu_ok k Hq)) as (b & wp & Hp & Hok & Hpend).
  assert (key_char k code = Ret (Some c)) as ->.
  { unfold key_char. change (len scancode_to_ascii) with 58. rewrite (proj2 (Z.ltb_lt _ _)) by lia. rewrite (qu_caps k Hq), (qu_ctrl k Hq). cbn [andb].
    destruct (shift_pressed k); rewrite (aget_lookup _ _ c) by (done || lia); done. }
  cbn [mbind outcome_bind]. rewrite (proj2 (Z.eqb_neq _ _) Hne), Hp. cbn [mbind outcome_bind]. eexists. split; [done|].
  rewrite Hpend, (proj2 (Z.ltb_lt _ _) Hl). split; [|done]. destruct Hq. by split.
Qed.

Lemma shift_key k w : quiet k ->
  handle_scancode 0x2A k w = Ret (with_shift k true, w) /\ handle_scancode 0xAA k w = Ret (with_shift k false, w).
Proof. intros Hq. unfold handle_scancode. cbn [i8]. by rewrite (no_hotkey _ _ _ Hq). Qed.

(** The driver has the character in its table, where the layout has it. *)
Definition in_tables (c : Z) : bool :=
  match us_key us_rows c with
  | Some (shift, code) =>
      (0 <=? code) && (code <? 58) && is_key code &&
      bool_decide ((if shift then scancode_to_ascii_shifted else scancode_to_ascii) !! Z.to_nat code = Some c)
  | None => false
  end.

Lemma strokes_cases c : typable c -> c <> 0 /\ exists code, 0 <= code < 58 /\ is_key code = true /\
  ((strokes c = [code; 0x80 + code] /\ scancode_to_ascii !! Z.to_nat code = Some c) \/
   (strokes c = [0x2A; code; 0x80 + code; 0xAA] /\ scancode_to_ascii_shifted !! Z.to_nat code = Some c)).
Proof.
  intros Ht. pose proof (by_cases 127 (fun c => negb ((c =? 8) || (c =? 10) || (32 <=? c)) || in_tables c)
    ltac:(vm_compute; reflexivity) c ltac:(unfold typable in Ht; lia)) as H. cbn beta in H.
  replace (negb ((c =? 8) || (c =? 10) || (32 <=? c))) with false in H by (unfold typable in Ht; lia). cbn [orb] in H.
  split; [unfold typable in Ht; lia|]. unfold strokes, in_tables in *. destruct (us_key us_rows c) as [[[] code]|]; [..|done];
    exists code; apply andb_prop in H as [[[H1%Z.leb_le H2%Z.ltb_lt]%andb_prop H3]%andb_prop H4%bool_decide_eq_true_1]; (split; [lia|]); auto.
Qed.

Lemma type_char c k w :
  quiet k -> shift_pressed k = false -> typable c -> len (pending k) < 255 ->
  exists k', press (strokes c) k w = Ret (k', w) /\ quiet k' /\ shift_pressed k' = false /\ pending k' = pending k ++ [c].
Proof.
  intros Hq Hs Ht Hl. destruct (strokes_cases c Ht) as (Hne & code & Hc & Hk & [[-> Htab]|[-> Htab]]); cbn [press].
  - destruct (key_push code c k w Hq Hc Hk Hne Hl) as (k' & E & Hq' & Hs' & Hp); [by rewrite Hs|].
    rewrite E. cbn [mbind outcome_bind]. rewrite (release code k' w Hc Hk). exists k'. by rewrite Hs', Hs.
  - rewrite (proj1 (shift_key k w Hq)). cbn [mbind outcome_bind].
    destruct (key_push code c (with_shift k true) w (quiet_shift k true Hq) Hc Hk Hne Hl) as (k' & E & Hq' & Hs' & Hp); [done|].
    rewrite E. cbn [mbind outcome_bind]. rewrite (release code k' w Hc Hk). cbn [mbind outcome_bind].
    rewrite (proj2 (shift_key k' w Hq')). cbn [mbind outcome_bind].
    exists (with_shift k' false). split_and!; [done|by apply quiet_shift|done|exact Hp].
Qed.

Lemma type_all s : forall k w,
  quiet k -> shift_pressed k = false -> Forall typable s -> len (pending k ++ s) <= 255 ->
  exists k', press (concat (map strokes s)) k w = Ret (k', w) /\ quiet k' /\ pending k' = pending k ++ s.
Proof.
  induction s as [|c s IH]; intros k w Hq Hs Hty Hl; cbn [map concat].
  - exists k. by rewrite app_nil_r.
  - inversion_clear Hty as [|? ? Hc Hrest].
    destruct (type_char c k w Hq Hs Hc) as (k1 & E & Hq1 & Hs1 & Hp1);
      [unfold len in *; rewrite length_app in Hl; cbn [length] in Hl; lia|].
    rewrite press_app, E. cbn [mbind outcome_bind].
    destruct (IH k1 w Hq1 Hs1 Hrest) as (k' & E' & Hq' & Hp'); [by rewrite Hp1, <- app_assoc|].
    exists k'. split_and!; [done|done|]. by rewrite Hp', Hp1, <- app_assoc.
Qed.

(** ** Reading

    From here no key is pressed while the line is read. *)
Context (idle : forall w, Z.land (i8 (fst (inb KEYBOARD_STATUS_PORT w))) 0x01 = 0).

Lemma poll_idle k w : exists w', keyboard_poll k w = Ret (k, w').
Proof. unfold keyboard_poll. pose proof (idle w) as H. destruct (inb _ w) as [s w']. cbn [fst] in H. rewrite H. by exists w'. Qed.

Lemma getchar_ok n k w c cs :
  kbd_ok k -> pending k = c :: cs -> exists k' w',
  keyboard_getchar (S n) k w = Ret (c, k', w') /\ kbd_ok k' /\ pending k' = cs.
Proof.
  intros Hk Hp. cbn [keyboard_getchar]. unfold keyboard_has_char. destruct (poll_idle k w) as (w' & ->). cbn [mbind outcome_bind].
  destruct (Z.eqb_spec (buffer_read_pos k) (buffer_write_pos k)) as [E|E].
  { apply (ring_empty _ _ _ (ko_ring k Hk)) in E. unfold pending in Hp. congruence. }
  cbn [negb]. destruct (pop_ok k c cs Hk Hp) as (rp & -> & Hok & Hcs). cbn [mbind outcome_bind]. eauto.
Qed.

(** The memory starts with the line. *)
Definition holds (buffer line : list Z) : Prop := take (length line) buffer = line.

Lemma holds_put buffer line c :
  holds buffer line -> len line < len buffer ->
  holds (<[Z.to_nat (len line) := c]> buffer) (line ++ [c]).
Proof.
  unfold holds, len. intros Hh Hl. rewrite Nat2Z.id, length_app. cbn [length].
  rewrite Nat.add_1_r, (take_S_r _ _ c) by (apply list_lookup_insert_eq; lia).
  by rewrite take_insert_ge, Hh by lia.
Qed.

Lemma holds_back buffer line : holds buffer line -> holds buffer (take (length line - 1) line).
Proof.
  unfold holds. intros Hh. rewrite length_take, Nat.min_l by lia. rewrite <- Hh at 3. by rewrite take_take, Nat.min_l by lia.
Qed.

Lemma getline_edits fuel room cs : forall n line buffer k w line' rest,
  kbd_ok k -> pending k = cs -> (length cs < n)%nat -> holds buffer line -> len line < room -> room <= len buffer ->
  edit line cs room = Some (line', rest) ->
  exists b' k' w', getline_loop n (S fuel) buffer (len line) room k w = Ret (b', k', w') /\
    holds b' (line' ++ [0]) /\ len b' = len buffer /\ kbd_ok k' /\ pending k' = rest.
Proof.
  assert (forall b line, holds b line -> len line < len b -> exists b', aset b (len line) 0 = Ret b' /\ holds b' (line ++ [0]) /\ len b' = len b) as Hend.
  { intros b line Hh Hl. eexists. rewrite aset_in_bounds by (unfold len in *; lia). split_and!; [done|by apply holds_put|apply len_insert]. }
  induction cs as [|c cs IH]; intros [|n] line buffer k w line' rest Hk Hp Hn Hh Hl Hb He; cbn [length] in Hn; try lia;
    cbn [edit getline_loop] in *; destruct (len line <? room - 1) eqn:Er; try done;
    try (injection He as <- <-; destruct (Hend buffer line Hh ltac:(lia)) as (b' & -> & ? & ?); cbn [mbind outcome_bind]; by eauto 10).
  destruct (getchar_ok fuel k w c cs Hk Hp) as (k1 & w1 & -> & Hk1 & Hp1). cbn [mbind outcome_bind].
  destruct (c =? 10).
  { injection He as <- <-. destruct (Hend buffer line Hh ltac:(lia)) as (b' & -> & ? & ?). cbn [mbind outcome_bind]. eauto 10. }
  destruct (c =? 8).
  - assert (len (take (length line - 1) line) = Z.max 0 (len line - 1)) as Hlt by (unfold len; rewrite length_take; lia).
    destruct (Z.ltb_spec 0 (len line)).
    + replace (len line - 1) with (len (take (length line - 1) line)) by lia.
      eapply IH; eauto using holds_back; lia.
    + replace (take (length line - 1) line) with line in He by (destruct line; [done|unfold len in *; cbn [length] in *; lia]).
      eapply IH; eauto; lia.
  - destruct ((32 <=? c) && (c <=? 126)).
    + rewrite aset_in_bounds by (unfold len in *; lia). cbn [mbind outcome_bind].
      replace (len line + 1) with (len (line ++ [c])) by (unfold len; rewrite length_app; cbn; lia).
      destruct (IH n (line ++ [c]) (<[Z.to_nat (len line) := c]> buffer) k1 (kprint [c] 15 w1) line' rest) as (b' & k' & w' & E & ? & Hlb & ? & ?);
        eauto using holds_put; [lia|apply holds_put; [done|lia]| |by rewrite len_insert|].
      { unfold len in *. rewrite length_app. cbn. lia. }
      rewrite len_insert in Hlb. eauto 10.
    + eapply IH; eauto; lia.
Qed.

(** C34. What is typed is what is read: the key strokes of any text of at most 255
    characters (printable, line feed, backspace) on a US keyboard with scan code set 1,
    as the layout numbers the keys and with shift where it is needed, fed to the
    interrupt handler after keyboard_init, leave exactly that text in the queue,
    whatever the ring held before; keyboard_getline then returns, with no key pressed
    meanwhile, the line that the reference editor makes of it (backspace deletes, the
    line ends at the line feed or when the buffer has one byte left), NUL-terminated at
    the start of the buffer, never writes behind the buffer, and leaves the characters
    behind the line for the next reader. *)
Theorem typed_line s k w n fuel buffer room line rest :
  len (keyboard_buffer k) = 256 -> Forall typable s -> len s <= 255 ->
  0 < room <= len buffer -> (length s < n)%nat -> (0 < fuel)%nat ->
  edit [] s room = Some (line, rest) ->
  runs_to ('(k, w) ← press (concat (map strokes s)) (keyboard_init k) w; keyboard_getline n fuel buffer room k w)
    (fun '(b, k', _) => take (length line + 1) b = line ++ [0] /\ len b = len buffer /\ pending k' = rest).
Proof.
  intros Hk Hs Hl Hr Hn Hf He.
  assert (pending (keyboard_init k) = []) as Hp0.
  { unfold pending. cbn [keyboard_init keyboard_buffer buffer_read_pos buffer_write_pos].
    apply ring_empty; [split; cbn; lia|done]. }
  assert (quiet (keyboard_init k)) as Hq.
  { split; [split; [done|split; cbn; lia]|done|done|]. cbn [keyboard_init hotkeys]. by apply Forall_map, Forall_true. }
  destruct (type_all s (keyboard_init k) w Hq eq_refl Hs) as (k1 & -> & Hq1 & Hp1); [by rewrite Hp0|].
  rewrite Hp0 in Hp1. destruct fuel as [|fuel]; [lia|].
  destruct (getline_edits fuel room s n [] buffer k1 w line rest (qu_ok k1 Hq1) Hp1 Hn eq_refl ltac:(unfold len; cbn [length]; lia) ltac:(lia) He)
    as (b & k' & w' & E & Hb & Hlb & Hk' & Hrest).
  cbn [mbind outcome_bind]. unfold keyboard_getline. change (len (@nil Z)) with 0 in E. rewrite E.
  cbn [runs_to]. unfold holds in Hb. rewrite length_app in Hb. done.
Qed.
End Typing.

Module Demo.
#[local] Instance quiet_host : KbdHost unit := {
  inb _ w := (0x1C, w);
  nvm_scheduler_tick w := w;
  kprint _ _ w := w;
  vga_backspace w := w;
  hotkey_call _ _ k w := (k, w);
}.

Definition before : kbd :=
  mkkbd (replicate 256 0x41) 200 17 true true true false (replicate 16 (mkhotkey 0x10 0 1 0 true)).

(** "Lz", a backspace, "s -l", the line feed and one more character. *)
Definition text : list Z := [0x4C; 0x7A; 8; 0x73; 0x20; 0x2D; 0x6C; 10; 0x21].

Lemma typed_line_witness :
  runs_to ('(k, w) ← press (concat (map strokes text)) (keyboard_init before) tt; keyboard_getline 10 1 (replicate 16 0xFF) 16 k w)
    (fun '(b, k', _) => take 6 b = [0x4C; 0x73; 0x20; 0x2D; 0x6C; 0] /\ len b = 16 /\ pending k' = [0x21]).
Proof.
  refine (typed_line (fun _ => eq_refl) text before tt 10 1 (replicate 16 0xFF) 16 [0x4C; 0x73; 0x20; 0x2D; 0x6C] [0x21]
    eq_refl _ _ _ _ _ eq_refl); try (unfold len; cbn; lia).
  unfold text, typable. repeat constructor; lia.
Defined.
End Demo.
