(* ===== verification/Timer.v ===== *)
(** * The timer

    core/drivers/timer.c: the clock as a timer driver, the table of drivers and the
    choice among them, and the time as a text.  The function pointers of a driver are
    the constructors of one type per field; the uptime is the counter of the local APIC
    in [Processor].

    [timer_readable]: the text is the first [size - 1] characters of the time;
    [timer_select_best_min]: the selected timer has the least priority;
    [timer_tells_time]: after initialisation the timer returns, as a number and as
    a text, the time that the clock was set to. *)

From stdpp Require Import strings.
From S2P Require Import Prelude Rtc Processor Kstd KstdProofs Text.

Definition MAX_TIMERS : Z := 8.

Inductive time_fn := rtc_adapter_get_time_fn.
Inductive uptime_fn := rtc_adapter_get_uptime_fn.
Inductive epoch_fn := rtc_adapter_get_unix_epoch_fn.
Inductive readable_fn := rtc_adapter_get_readable_fn.
Inductive init_fn := rtc_adapter_init_fn.
Inductive name_fn := rtc_adapter_get_name_fn.
Inductive enable_fn := rtc_adapter_enable_interrupt_fn.
Inductive disable_fn := rtc_adapter_disable_interrupt_fn.

(** enable_interrupt and disable_interrupt are never called. *)
Record timer_driver := mkdriver {
  get_time : option time_fn;
  get_name : option name_fn;
  get_uptime : option uptime_fn;
  get_unix_epoch : option epoch_fn;
  get_readable : option readable_fn;
  drv_init : option init_fn;
  enable_interrupt : option enable_fn;
  disable_interrupt : option disable_fn;
  drv_name : option string;
}.

Record timer_entry := mkentry { te_driver : option timer_driver; te_initialized : bool; te_priority : Z }.

(** The static variables. *)
Record timer_state := mkts {
  timers : list timer_entry;
  timer_count : Z;
  active_timer : option timer_driver;
  timer_initialized : bool;
  rtc_hw_initialized : bool;
}.

Definition rtc_timer_driver : timer_driver :=
  mkdriver (Some rtc_adapter_get_time_fn) (Some rtc_adapter_get_name_fn) (Some rtc_adapter_get_uptime_fn)
    (Some rtc_adapter_get_unix_epoch_fn) (Some rtc_adapter_get_readable_fn) (Some rtc_adapter_init_fn)
    (Some rtc_adapter_enable_interrupt_fn) (Some rtc_adapter_disable_interrupt_fn) (Some "rtc"%string).

(** ** Filling a buffer *)

(** [while (s[0] && pos < size - 1) buf[pos++] = *s++]; [lim] is size - 1. *)
Fixpoint put_str (s : list Z) (lim : Z) (buf : list Z) (pos : Z) : outcome (list Z * Z) :=
  match s with
  | [] => Ret (buf, pos)
  | c :: s' => if pos <? lim then buf ← aset buf pos c; put_str s' lim buf (pos + 1) else Ret (buf, pos)
  end.

(** [if (pos < size - 1) buf[pos++] = c]. *)
Definition put_char (c : Z) (lim : Z) (buf : list Z) (pos : Z) : outcome (list Z * Z) := put_str [c] lim buf pos.

(** itoa(n, temp, 10) and the loop that copies temp. *)
Definition put_num (junk : list Z) (n : Z) (lim : Z) (buf : list Z) (pos : Z) : outcome (list Z * Z) :=
  temp ← itoa n (take 32 (junk ++ replicate 32 0)) 10;
  l ← strlen temp;
  put_str (take (Z.to_nat l) temp) lim buf pos.

(** The same with a leading zero below ten. *)
Definition put_two (junk : list Z) (n : Z) (lim : Z) (buf : list Z) (pos : Z) : outcome (list Z * Z) :=
  '(buf, pos) ← (if n <? 10 then put_char 48 lim buf pos else Ret (buf, pos));
  put_num junk n lim buf pos.

Definition months : list string :=
  ["Jan"; "Feb"; "Mar"; "Apr"; "May"; "Jun"; "Jul"; "Aug"; "Sep"; "Oct"; "Nov"; "Dec"]%string.

(** memcpy of an error message, cut at the size of the buffer. *)
Definition put_error (msg : string) (buf : list Z) (size : Z) : outcome (list Z) :=
  let n := if size <=? len (lit msg) then size - 1 else len (lit msg) in
  buf ← mem_write buf 0 (take (Z.to_nat n) (lit msg));
  aset buf n 0.

Definition put_time (junk : list Z) (time : rtc_time) (buf : list Z) (size : Z) : outcome (list Z) :=
  let lim := size - 1 in
  day_str ← rtc_get_weekday_string (weekday time);
  '(buf, pos) ← put_str (lit day_str) lim buf 0;
  '(buf, pos) ← put_char 32 lim buf pos;
  month_str ← aget months (month time - 1);
  '(buf, pos) ← put_str (lit month_str) lim buf pos;
  '(buf, pos) ← put_char 32 lim buf pos;
  '(buf, pos) ← put_num junk (day time) lim buf pos;
  '(buf, pos) ← put_char 32 lim buf pos;
  '(buf, pos) ← put_two junk (hour time) lim buf pos;
  '(buf, pos) ← put_char 58 lim buf pos;
  '(buf, pos) ← put_two junk (minute time) lim buf pos;
  '(buf, pos) ← put_char 58 lim buf pos;
  '(buf, pos) ← put_two junk (second time) lim buf pos;
  '(buf, pos) ← put_char 32 lim buf pos;
  '(buf, pos) ← put_num junk (year time) lim buf pos;
  aset buf pos 0.

Section Timer.
Context {C : Type} {P : CmosPorts C} (junk : list Z).
Implicit Types (s : timer_state) (c : C).

(** ** The clock as a driver *)

Definition rtc_adapter_get_time s c : outcome (Z * C) :=
  if negb (rtc_hw_initialized s) then Ret (0, c) else rtc_read_unix c.

Definition rtc_adapter_get_uptime (a : apic_state) : Z := if apic_available a then apic_get_uptime_ms a else 0.

Definition rtc_adapter_get_unix_epoch s c : outcome (Z * C) :=
  if negb (rtc_hw_initialized s) then Ret (0, c) else rtc_read_unix c.

(** [buf]: [None] for NULL. *)
Definition rtc_adapter_get_readable s (buf : option (list Z)) (size : Z) c : outcome (option (list Z) * C) :=
  match buf with
  | None => Ret (None, c)
  | Some buf =>
      if size <? 2 then
        buf ← (if 0 <? size then aset buf 0 0 else Ret buf); Ret (Some buf, c)
      else if negb (rtc_hw_initialized s) then
        buf ← put_error "RTC not initialized" buf size; Ret (Some buf, c)
      else
        let '(time, c) := rtc_read_time c in
        buf ← put_time junk time buf size; Ret (Some buf, c)
  end.

Definition rtc_adapter_init s c : timer_state * C :=
  (mkts (timers s) (timer_count s) (active_timer s) (timer_initialized s) true, rtc_init c).

Definition rtc_adapter_enable_interrupt (hz : Z) s c : C :=
  if rtc_hw_initialized s then rtc_enable_periodic_interrupt hz c else c.
Definition rtc_adapter_disable_interrupt s c : C :=
  if rtc_hw_initialized s then rtc_disable_periodic_interrupt c else c.
Definition rtc_adapter_get_name : string := "Real-Time Clock (CMOS)".

(** ** The table of drivers *)

Definition set_timers s ts n := mkts ts n (active_timer s) (timer_initialized s) (rtc_hw_initialized s).

Definition timer_register (driver : option timer_driver) (priority : Z) s : outcome (bool * timer_state) :=
  match driver with
  | None => Ret (false, s)
  | Some d =>
      if MAX_TIMERS <=? timer_count s then Ret (false, s) else
      ts ← aset (timers s) (timer_count s) (mkentry (Some d) false priority);
      Ret (true, set_timers s ts (timer_count s + 1))
  end.

(** The loop over the table: best_idx and best_priority. *)
Fixpoint best_loop (ts : list timer_entry) (i best_idx best_priority : Z) : Z * Z :=
  match ts with
  | [] => (best_idx, best_priority)
  | e :: ts' =>
      match te_initialized e, te_driver e with
      | true, Some d =>
          let adj := match get_uptime d with None => i32 (te_priority e + 100) | Some _ => te_priority e end in
          if adj <? best_priority then best_loop ts' (i + 1) i adj else best_loop ts' (i + 1) best_idx best_priority
      | _, _ => best_loop ts' (i + 1) best_idx best_priority
      end
  end.

Definition timer_select_best s : outcome timer_state :=
  let '(best_idx, _) := best_loop (take (Z.to_nat (timer_count s)) (timers s)) 0 (-1) 1000 in
  if 0 <=? best_idx then
    e ← aget (timers s) best_idx;
    Ret (mkts (timers s) (timer_count s) (te_driver e) (timer_initialized s) (rtc_hw_initialized s))
  else Ret s.

(** The loop that initialises the drivers, [n] of them from [i]; the names only go
    to the console. *)
Fixpoint init_drivers (n : nat) (i : Z) (any_success : bool) s c : outcome (bool * timer_state * C) :=
  match n with
  | O => Ret (any_success, s, c)
  | S n' =>
      e ← aget (timers s) i;
      match te_driver e with
      | None => Fault NullDeref
      | Some d =>
          match drv_init d with
          | Some rtc_adapter_init_fn =>
              let '(s, c) := rtc_adapter_init s c in
              ts ← aset (timers s) i (mkentry (te_driver e) true (te_priority e));
              init_drivers n' (i + 1) true (set_timers s ts (timer_count s)) c
          | None => init_drivers n' (i + 1) any_success s c
          end
      end
  end.

Definition init_timer_subsystem s c : outcome (timer_state * C) :=
  '(_, s) ← timer_register (Some rtc_timer_driver) 10 s;
  '(any_success, s, c) ← init_drivers (Z.to_nat (timer_count s)) 0 false s c;
  s ← (if any_success : bool then timer_select_best s
       else Ret (mkts (timers s) (timer_count s) None (timer_initialized s) (rtc_hw_initialized s)));
  Ret (mkts (timers s) (timer_count s) (active_timer s) true (rtc_hw_initialized s), c).

(** ** What the kernel calls *)

Definition active s : option timer_driver := if timer_initialized s then active_timer s else None.

Definition timer_get_uptime s (a : apic_state) : Z :=
  match active s with
  | Some d => match get_uptime d with Some rtc_adapter_get_uptime_fn => rtc_adapter_get_uptime a | None => 0 end
  | None => 0
  end.

Definition timer_get_time s c : outcome (Z * C) :=
  match active s with
  | Some d => match get_time d with Some rtc_adapter_get_time_fn => rtc_adapter_get_time s c | None => Ret (0, c) end
  | None => Ret (0, c)
  end.

Definition timer_get_unix_epoch s c : outcome (Z * C) :=
  match active s with
  | Some d =>
      match get_unix_epoch d with
      | Some rtc_adapter_get_unix_epoch_fn => rtc_adapter_get_unix_epoch s c
      | None => timer_get_time s c
      end
  | None => Ret (0, c)
  end.

Definition timer_get_readable s (buf : option (list Z)) (size : Z) c : outcome (option (list Z) * C) :=
  match buf with
  | None => Ret (None, c)
  | Some buf =>
      if size =? 0 then Ret (Some buf, c) else
      buf ← mem_write buf 0 (replicate (Z.to_nat size) 0);
      match active s with
      | None => buf ← put_error "Timer not initialized" buf size; Ret (Some buf, c)
      | Some d =>
          '(buf, c) ← match get_readable d with
                      | Some rtc_adapter_get_readable_fn => rtc_adapter_get_readable s (Some buf) size c
                      | None => buf ← put_error "No readable function" buf size; Ret (Some buf, c)
                      end;
          match buf with
          | None => Ret (None, c)
          | Some buf => buf ← aset buf (size - 1) 0; Ret (Some buf, c)
          end
      end
  end.

Definition timer_get_name s : string :=
  match active s with
  | None => "Timer not initialized"
  | Some d =>
      match get_name d with
      | Some rtc_adapter_get_name_fn => rtc_adapter_get_name
      | None => match drv_name d with Some n => n | None => "Unknown timer" end
      end
  end.
End Timer.

(** ** Filling a buffer: what it holds *)

(** [pos] characters of the text [t], cut at [lim], are in the buffer; the bytes
    from [lim + 1] on are those of [old]. *)
Record filled (lim : Z) (old t buf : list Z) (pos : Z) : Prop := {
  fi_len : length buf = length old;
  fi_pos : pos = Z.min lim (len t);
  fi_text : take (Z.to_nat pos) buf = take (Z.to_nat lim) t;
  fi_rest : drop (Z.to_nat lim) buf = drop (Z.to_nat lim) old;
}.

Lemma put_str_ok lim old : 0 <= lim < len old -> forall s t buf pos,
  filled lim old t buf pos -> runs_to (put_str s lim buf pos) (fun '(b, p) => filled lim old (t ++ s) b p).
Proof.
  intros Hlim. induction s as [|c s IH]; intros t buf pos Hf; cbn [put_str].
  { by rewrite app_nil_r. }
  destruct Hf as [Hl Hp Ht Hr]. replace (t ++ c :: s) with ((t ++ [c]) ++ s) by by rewrite <- app_assoc.
  unfold len in *. destruct (Z.ltb_spec pos lim) as [Hlt|Hge].
  - rewrite aset_in_bounds by (unfold len; lia). cbn [mbind outcome_bind]. apply IH. split.
    + by rewrite length_insert.
    + unfold len. rewrite length_app. cbn [length]. lia.
    + replace (Z.to_nat (pos + 1)) with (S (Z.to_nat pos)) by lia.
      rewrite (take_S_r _ _ c) by (apply list_lookup_insert_eq; lia). rewrite take_insert_ge, Ht by lia.
      by rewrite !(take_ge (_ : list Z)) by (rewrite ?length_app; cbn [length]; lia).
    + by rewrite drop_insert_lt by lia.
  - cbn [runs_to]. split; [done| |rewrite Ht|done].
    + unfold len. rewrite !length_app. cbn [length]. lia.
    + rewrite <- app_assoc, take_app_le by lia. done.
Qed.

Lemma put_num_ok junk n lim old t buf pos :
  0 <= lim < len old -> 0 <= n < 65536 -> filled lim old t buf pos ->
  runs_to (put_num junk n lim buf pos) (fun '(b, p) => filled lim old (t ++ show n) b p).
Proof.
  intros Hlim Hn Hf. unfold put_num. pose proof (show_chars n ltac:(change (2 ^ 31) with 2147483648; lia)) as [Hs Hl].
  eapply runs_to_bind; [apply itoa_show; [change (2 ^ 31) with 2147483648; lia|]|].
  { unfold len in *. rewrite length_take, length_app, length_replicate. lia. }
  intros temp [Hc _]. rewrite (strlen_ok _ _ Hc). cbn [mbind outcome_bind].
  destruct Hc as [_ [rest ->]]. unfold len. rewrite Nat2Z.id, take_app_length. by apply put_str_ok.
Qed.

(** ** The text of a time *)

Definition two (n : Z) : list Z := if n <? 10 then CH_0 :: show n else show n.
Definition name_at (names : list string) (i : Z) : list Z := lit (default ""%string (names !! Z.to_nat i)).
Definition day_name (w : Z) : list Z :=
  if (w <? 1) || (7 <? w) then lit "Unknown" else name_at day_names (w - 1).
Definition month_name (m : Z) : list Z := name_at months (m - 1).

(** "Thursday Feb 29 12:34:56 2024". *)
Definition time_text (t : rtc_time) : list Z :=
  day_name (weekday t) ++ [32] ++ month_name (month t) ++ [32] ++ show (day t) ++ [32] ++
  two (hour t) ++ [58] ++ two (minute t) ++ [58] ++ two (second t) ++ [32] ++ show (year t).

Lemma put_two_ok junk n lim old t buf pos :
  0 <= lim < len old -> 0 <= n < 65536 -> filled lim old t buf pos ->
  runs_to (put_two junk n lim buf pos) (fun '(b, p) => filled lim old (t ++ two n) b p).
Proof.
  intros Hlim Hn Hf. unfold put_two, two. destruct (n <? 10); cbn [mbind outcome_bind]; [|by apply put_num_ok].
  eapply runs_to_bind; [by apply put_str_ok|]. intros [b p] Hb. cbn beta iota.
  eapply runs_to_mono; [by apply put_num_ok|]. intros [b' p']. rewrite <- app_assoc. exact id.
Qed.

Lemma weekday_string w : exists d, rtc_get_weekday_string w = Ret d /\ lit d = day_name w.
Proof.
  unfold rtc_get_weekday_string, day_name. destruct (Z.ltb_spec w 1), (Z.ltb_spec 7 w); cbn [orb]; eauto.
  unfold aget, name_at. destruct (Z.ltb_spec (w - 1) 0); [lia|].
  destruct (lookup_lt_is_Some_2 day_names (Z.to_nat (w - 1))) as [d ->]; [cbn; lia|eauto].
Qed.

Lemma month_string m : 1 <= m <= 12 -> exists d, aget months (m - 1) = Ret d /\ lit d = month_name m.
Proof.
  intros Hm. unfold aget, month_name, name_at. destruct (Z.ltb_spec (m - 1) 0); [lia|].
  destruct (lookup_lt_is_Some_2 months (Z.to_nat (m - 1))) as [d ->]; [cbn; lia|eauto].
Qed.

Lemma lit_chars s : forallb (fun c => negb (c =? 0)) (lit s) = true -> no_nul (lit s).
Proof. intros H. unfold no_nul. rewrite forallb_forall in H. intros H0. apply list_elem_of_In in H0. by specialize (H 0 H0). Qed.

Lemma no_nul_two n : 0 <= n < 65536 -> no_nul (two n).
Proof.
  intros Hn. pose proof (show_chars n ltac:(change (2 ^ 31) with 2147483648; lia)) as [H _].
  unfold two. destruct (n <? 10); [|done]. unfold no_nul. rewrite elem_of_cons. intros [E|E]; done.
Qed.

Lemma day_name_chars w : no_nul (day_name w).
Proof.
  unfold day_name. destruct (Z.ltb_spec w 1), (Z.ltb_spec 7 w); cbn [orb]; try by apply lit_chars.
  apply lit_chars.
  pose proof (by_cases 8 (fun w => forallb (fun c => negb (c =? 0)) (name_at day_names (w - 1)))
    ltac:(vm_compute; reflexivity) w ltac:(lia)) as Hb. exact Hb.
Qed.

Lemma month_name_chars m : 1 <= m <= 12 -> no_nul (month_name m).
Proof.
  intros Hm. unfold month_name. apply lit_chars.
  pose proof (by_cases 13 (fun w => forallb (fun c => negb (c =? 0)) (name_at months (w - 1)))
    ltac:(vm_compute; reflexivity) m ltac:(lia)) as Hb. exact Hb.
Qed.

(** The fields of a time as the clock returns them, with a month that exists. *)
Record printable (t : rtc_time) : Prop := {
  pr_month : 1 <= month t <= 12;
  pr_fields : Forall (fun x => 0 <= x < 65536) [year t; day t; hour t; minute t; second t];
}.

Lemma time_text_chars t : printable t -> no_nul (time_text t).
Proof.
  intros [Hm Hf]. repeat (apply Forall_cons_1 in Hf as [? Hf]). unfold time_text. rewrite !no_nul_app.
  assert (forall c, c <> 0 -> no_nul [c]) by (intros c Hc; unfold no_nul; rewrite list_elem_of_singleton; congruence).
  split_and!; auto using day_name_chars, month_name_chars, no_nul_two;
    apply show_chars; change (2 ^ 31) with 2147483648; lia.
Qed.

(** A buffer whose text is complete. *)
Lemma filled_end lim old t buf pos :
  0 <= lim < len old -> no_nul t -> filled lim old t buf pos ->
  runs_to (aset buf pos 0) (fun b => cstr b (take (Z.to_nat lim) t) /\ length b = length old /\
    drop (S (Z.to_nat lim)) b = drop (S (Z.to_nat lim)) old).
Proof.
  intros Hlim Hn [Hl Hp Ht Hr]. unfold len in *. rewrite aset_in_bounds by (unfold len; lia). cbn [runs_to]. split_and!.
  - split; [intros H; apply Hn; apply (list_elem_of_In); apply list_elem_of_In in H; rewrite <- (take_drop (Z.to_nat lim) t); apply in_or_app; by left|].
    rewrite insert_take_drop by lia. rewrite Ht. by eexists.
  - by rewrite length_insert.
  - rewrite drop_insert_lt by lia. replace (S (Z.to_nat lim)) with (Z.to_nat lim + 1)%nat by lia. rewrite <- !drop_drop. by rewrite Hr.
Qed.

Lemma put_time_ok junk t buf size :
  printable t -> 0 < size <= len buf ->
  runs_to (put_time junk t buf size) (fun b => cstr b (take (Z.to_nat (size - 1)) (time_text t)) /\ length b = length buf /\
    drop (Z.to_nat size) b = drop (Z.to_nat size) buf).
Proof.
  intros Hp Hsize. pose proof (time_text_chars t Hp) as Hn. destruct Hp as [Hm Hf].
  repeat (apply Forall_cons_1 in Hf as [? Hf]). assert (0 <= size - 1 < len buf) as Hlim by lia.
  destruct (weekday_string (weekday t)) as (d & Ed & Hd). destruct (month_string (month t) Hm) as (mo & Em & Hmo).
  unfold put_time. rewrite Ed. cbn [mbind outcome_bind].
  assert (filled (size - 1) buf [] buf 0) as Hini by (split; [done|unfold len; cbn [length]; lia|by rewrite take_0, take_nil|done]).
  repeat (eapply runs_to_bind; [eauto using put_str_ok, put_num_ok, put_two_ok|intros [? ?] ?; cbn beta iota]; rewrite ?Em; cbn [mbind outcome_bind]).
  rewrite Hd, Hmo in *. match goal with H : filled _ _ ?x ?b ?p |- context [aset ?b ?p 0] =>
    replace x with (time_text t) in H by (unfold time_text; by rewrite <- !app_assoc) end.
  eapply runs_to_mono; [by eapply filled_end|]. replace (S (Z.to_nat (size - 1))) with (Z.to_nat size) by lia. done.
Qed.

(** What rtc_read_time returns can be printed when the month register is sane. *)
Lemma registers_printable {C} {P : CmosPorts C} (c : C) :
  1 <= month (fst (rtc_read_time c)) <= 12 -> printable (fst (rtc_read_time c)).
Proof.
  unfold rtc_read_time. repeat (match goal with |- context [read_register ?r ?c] => destruct (read_register r c) as [? ?] end).
  cbn [fst month]. intros Hm. split; [done|]. cbn [year day hour minute second].
  assert (forall x, 0 <= bcd_to_binary x < 65536) as Hb by (intros x; unfold bcd_to_binary; pose proof (u8_range (Z.shiftr x 4 * 10 + Z.land x 15)); lia).
  repeat apply Forall_cons_2; try apply Forall_nil_2; try apply Hb.
  - apply u16_range.
  - destruct (negb _); [apply Hb|]. unfold hour_of_12.
    destruct (_ && _); [match goal with |- context [u8 ?x] => pose proof (u8_range x) end; lia|].
    destruct (_ && _); [lia|]. change 127 with (Z.ones 7). rewrite Z.land_ones by lia.
    match goal with |- context [?x mod ?y] => pose proof (Z.mod_pos_bound x y ltac:(lia)) end. change (2 ^ 7) with 128 in *. lia.
Qed.

(** A terminator behind the string changes nothing. *)
Lemma cstr_set_nul b t i : cstr b t -> len t <= i < len b ->
  runs_to (aset b i 0) (fun b' => cstr b' t /\ length b' = length b /\ drop (S (Z.to_nat i)) b' = drop (S (Z.to_nat i)) b).
Proof.
  intros [Hn [rest ->]] Hi. rewrite aset_in_bounds by (unfold len in *; lia). cbn [runs_to]. unfold len in Hi.
  rewrite drop_insert_lt, length_insert by lia. split; [|done]. split; [done|].
  rewrite insert_app_r_alt by lia. destruct (Z.to_nat i - length t)%nat; cbn; eauto.
Qed.

Section Theorems.
Context {C : Type} {P : CmosPorts C} {PO : CmosOk C P} (junk : list Z).

(** The static variables at boot, and after init_timer_subsystem. *)
Definition boot : timer_state := mkts (replicate 8 (mkentry None false 0)) 0 None false false.
Definition ready : timer_state :=
  mkts (mkentry (Some rtc_timer_driver) true 10 :: replicate 7 (mkentry None false 0)) 1 (Some rtc_timer_driver) true true.

Lemma init_ready c : init_timer_subsystem boot c = Ret (ready, rtc_init c).
Proof. reflexivity. Qed.

Lemma adapter_readable c buf size :
  1 <= month (fst (rtc_read_time c)) <= 12 -> 0 < size <= len buf ->
  runs_to (rtc_adapter_get_readable junk ready (Some buf) size c) (fun '(b, _) => exists b', b = Some b' /\
    cstr b' (take (Z.to_nat (size - 1)) (time_text (fst (rtc_read_time c)))) /\ length b' = length buf /\
    drop (Z.to_nat size) b' = drop (Z.to_nat size) buf).
Proof.
  intros Hm%registers_printable Hs. cbn [rtc_adapter_get_readable]. destruct (Z.ltb_spec size 2).
  - replace size with 1 by lia. cbn [Z.ltb Z.compare]. destruct buf as [|a buf]; [unfold len in Hs; cbn [length] in Hs; lia|].
    eexists. split; [reflexivity|]. split_and!; [split; [|by eexists]; by intros ?%not_elem_of_nil|done|done].
  - cbn [rtc_hw_initialized ready negb]. destruct (rtc_read_time c) as [t c']. cbn [fst] in *.
    eapply runs_to_bind; [apply put_time_ok; [exact Hm|lia]|]. intros b Hb. cbn [runs_to]. eauto.
Qed.

(** The text of the time in a buffer of any size: cut at size - 1 characters and
    terminated, without a byte written behind it. *)
Theorem timer_readable (c : C) (buf : list Z) (size : Z) :
  1 <= month (fst (rtc_read_time c)) <= 12 -> 0 < size <= len buf ->
  runs_to (timer_get_readable junk ready (Some buf) size c) (fun '(b, _) => exists b', b = Some b' /\
    cstr b' (take (Z.to_nat (size - 1)) (time_text (fst (rtc_read_time c)))) /\
    drop (Z.to_nat size) b' = drop (Z.to_nat size) buf).
Proof.
  intros Hm Hs. cbn [timer_get_readable]. rewrite (proj2 (Z.eqb_neq size 0)) by lia.
  destruct (mem_write_ok buf 0 (replicate (Z.to_nat size) 0)) as (z & Ez & Hlz & Hz); [lia|unfold len in *; rewrite length_replicate; lia|].
  rewrite Ez. cbn [mbind outcome_bind active ready timer_initialized active_timer rtc_timer_driver get_readable].
  eapply runs_to_bind; [apply adapter_readable; [done|lia]|]. intros [b c'] (b' & -> & Hb & Hl & Hd). cbn beta iota.
  eapply runs_to_bind; [apply (cstr_set_nul b' _ (size - 1) Hb)|].
  { unfold len in *. rewrite length_take. lia. }
  intros b2 (Hc2 & Hl2 & Hd2). eexists. split; [reflexivity|]. split; [done|].
  replace (S (Z.to_nat (size - 1))) with (Z.to_nat size) in Hd2 by lia. rewrite Hd2, Hd, Hz.
  change (Z.to_nat 0) with 0%nat. rewrite take_0. cbn [app Nat.add]. rewrite length_replicate.
  rewrite drop_app_ge by (rewrite length_replicate; lia). by rewrite length_replicate, Nat.sub_diag.
Qed.

(** The day [n] after 1970-01-01, a Thursday, and the months of the calendar, by name. *)
Definition calendar_day (n : Z) : string :=
  match (n + 4) mod 7 with
  | 0 => "Sunday" | 1 => "Monday" | 2 => "Tuesday" | 3 => "Wednesday" | 4 => "Thursday" | 5 => "Friday" | _ => "Saturday"
  end%string.

Definition calendar_month (m : Z) : string :=
  match m with
  | 1 => "Jan" | 2 => "Feb" | 3 => "Mar" | 4 => "Apr" | 5 => "May" | 6 => "Jun"
  | 7 => "Jul" | 8 => "Aug" | 9 => "Sep" | 10 => "Oct" | 11 => "Nov" | _ => "Dec"
  end%string.

(** A date and a time of day behind the name of a day. *)
Definition date_text (day_of_week : string) (t : rtc_time) : list Z :=
  lit day_of_week ++ [32] ++ lit (calendar_month (month t)) ++ [32] ++ show (day t) ++ [32] ++
  two (hour t) ++ [58] ++ two (minute t) ++ [58] ++ two (second t) ++ [32] ++ show (year t).

Lemma month_name_calendar m : 1 <= m <= 12 -> month_name m = lit (calendar_month m).
Proof.
  intros Hm. pose proof (by_cases 12 (fun k => bool_decide (month_name (k + 1) = lit (calendar_month (k + 1)))) eq_refl (m - 1) ltac:(lia)) as H.
  apply bool_decide_eq_true_1 in H. by replace (m - 1 + 1) with m in H by lia.
Qed.

(** Days are numbered from Sunday when the clock is set and from Monday when the text
    is made. *)
Lemma day_name_calendar n : day_name ((n + 4) mod 7 + 1) = lit (calendar_day (n + 1)).
Proof.
  pose proof (Z.mod_pos_bound (n + 4) 7 ltac:(lia)) as Hb. unfold calendar_day.
  replace (n + 1 + 4) with (n + 4 + 1) by lia. rewrite (Z.add_mod (n + 4) 1) by lia. change (1 mod 7) with 1.
  set (k := (n + 4) mod 7) in *. clearbody k.
  assert (k = 0 \/ k = 1 \/ k = 2 \/ k = 3 \/ k = 4 \/ k = 5 \/ k = 6) as Hk by lia.
  repeat destruct Hk as [->|Hk]; try subst k; reflexivity.
Qed.

(** C24. The timer tells the time that the clock was set to.  After
    init_timer_subsystem at boot, on any clock that does not tick and from any register
    contents, a clock that is set to a Unix time before 2100 is read back by
    timer_get_unix_epoch as exactly that time, and timer_get_readable writes month, day,
    time of day and year of the date with that many seconds since 1970, behind the name of
    the day of the week that comes after the right one (the code numbers the days from
    Sunday when it sets the clock and from Monday when it prints), as a text cut at
    size - 1 characters and terminated, for every buffer and size from 1 to its length,
    without a byte written behind the buffer. *)
Theorem timer_tells_time (c : C) (ts : Z) (buf : list Z) (size : Z) :
  0 <= ts < 4102444800 -> 0 < size <= len buf ->
  runs_to (init_timer_subsystem boot c) (fun '(s, c1) =>
    runs_to (rtc_set_unix ts c1) (fun c2 =>
      runs_to (timer_get_unix_epoch s c2) (fun '(ts', _) => ts' = ts) /\
      exists t, valid_time t /\ ts = day_number t * 86400 + hour t * 3600 + minute t * 60 + second t /\
      runs_to (timer_get_readable junk s (Some buf) size c2) (fun '(b, _) => exists b', b = Some b' /\
        cstr b' (take (Z.to_nat (size - 1)) (date_text (calendar_day (ts / 86400 + 1)) t)) /\
        drop (Z.to_nat size) b' = drop (Z.to_nat size) buf))).
Proof.
  intros Hts Hs. rewrite init_ready. cbn [runs_to].
  pose proof (set_read_time ts (rtc_init c) Hts (rtc_init_24h c)) as H1.
  pose proof (set_read_unix ts (rtc_init c) Hts (rtc_init_24h c)) as H2.
  destruct (rtc_set_unix ts (rtc_init c)) as [c2| |]; [|done..]. cbn [runs_to] in *.
  split; [exact H2|]. destruct H1 as (Hv & _ & _ & Ets & Hw). exists (fst (rtc_read_time c2)).
  split; [done|]. split; [done|].
  assert (1 <= month (fst (rtc_read_time c2)) <= 12) as Hm by apply Hv.
  pose proof (timer_readable c2 buf size Hm Hs) as H3. unfold time_text in H3. rewrite Hw, day_name_calendar, (month_name_calendar _ Hm) in H3. exact H3.
Qed.

(** The month of the clock is an index that is not checked: a clock whose month
    register reads 0 makes timer_get_readable read in front of the table. *)
Theorem timer_month_unchecked (c : C) (buf : list Z) (size : Z) :
  month (fst (rtc_read_time c)) = 0 -> 2 <= size <= len buf ->
  timer_get_readable junk ready (Some buf) size c = Fault OutOfBounds.
Proof.
  intros Hm Hs. cbn [timer_get_readable]. rewrite (proj2 (Z.eqb_neq size 0)) by lia.
  destruct (mem_write_ok buf 0 (replicate (Z.to_nat size) 0)) as (z & Ez & Hlz & Hz); [lia|unfold len in *; rewrite length_replicate; lia|].
  rewrite Ez. cbn [mbind outcome_bind active ready timer_initialized active_timer rtc_timer_driver get_readable rtc_adapter_get_readable].
  rewrite (proj2 (Z.ltb_ge size 2)) by lia. cbn [rtc_hw_initialized ready negb].
  destruct (rtc_read_time c) as [t c']. cbn [fst] in Hm. unfold put_time. rewrite Hm.
  destruct (weekday_string (weekday t)) as (d & -> & _). cbn [mbind outcome_bind].
  assert (filled (size - 1) z [] z 0) as Hini by (split; [done|unfold len; cbn [length]; lia|by rewrite take_0, take_nil|done]).
  pose proof (put_str_ok (size - 1) z ltac:(lia) (lit d) [] z 0 Hini) as H1.
  destruct (put_str (lit d) (size - 1) z 0) as [[b p]| |]; [|done..]. cbn [mbind outcome_bind].
  pose proof (put_str_ok (size - 1) z ltac:(lia) [32] _ b p H1) as H2. unfold put_char.
  by destruct (put_str [32] (size - 1) b p) as [[b2 p2]| |]; [|done..].
Qed.
End Theorems.

(** ** Selecting a timer *)

(** The priority that counts, for a timer that can be selected. *)
Definition adjusted (e : timer_entry) : option Z :=
  match te_initialized e, te_driver e with
  | true, Some d => Some (match get_uptime d with None => i32 (te_priority e + 100) | Some _ => te_priority e end)
  | _, _ => None
  end.

Lemma best_loop_step e ts i bi bp :
  best_loop (e :: ts) i bi bp =
  match adjusted e with
  | Some p => if p <? bp then best_loop ts (i + 1) i p else best_loop ts (i + 1) bi bp
  | None => best_loop ts (i + 1) bi bp
  end.
Proof. cbn [best_loop]. unfold adjusted. by destruct (te_initialized e), (te_driver e). Qed.

Lemma best_loop_ok ts : forall i bi bp bi' bp', best_loop ts i bi bp = (bi', bp') ->
  bp' <= bp /\ (forall j e p, ts !! j = Some e -> adjusted e = Some p -> bp' <= p) /\
  ((bi', bp') = (bi, bp) \/
   exists j e, bi' = i + Z.of_nat j /\ ts !! j = Some e /\ adjusted e = Some bp' /\ bp' < bp).
Proof.
  induction ts as [|e ts IH]; intros i bi bp bi' bp'.
  { cbn. intros [= -> ->]. split_and!; [lia|done|by left]. }
  rewrite best_loop_step. intros E.
  assert (forall k v, best_loop ts (i + 1) k v = (bi', bp') -> v <= bp ->
    (forall p, adjusted e = Some p -> v <= p) -> (k, v) = (bi, bp) \/ k = i /\ adjusted e = Some v /\ v < bp ->
    bp' <= bp /\ (forall j e' p, (e :: ts) !! j = Some e' -> adjusted e' = Some p -> bp' <= p) /\
    ((bi', bp') = (bi, bp) \/
     exists j e', bi' = i + Z.of_nat j /\ (e :: ts) !! j = Some e' /\ adjusted e' = Some bp' /\ bp' < bp)) as Hstep.
  { intros k v Ek Hv He Hkv. destruct (IH _ _ _ _ _ Ek) as (H1 & H2 & H3). split_and!; [lia| |].
    - intros [|j] e' p Hj Hp; cbn in Hj; [injection Hj as <-; specialize (He p Hp); lia|eauto].
    - destruct H3 as [[= -> ->]|(j & e' & -> & Hj & Ha & Hlt)].
      + destruct Hkv as [Hkv|(-> & Ha & Hlt)]; [by left|]. right. exists 0%nat, e. split_and!; [lia|done|done|done].
      + right. exists (S j), e'. split_and!; [lia|done|done|]. destruct Hkv as [[= -> ->]|(_ & _ & ?)]; lia. }
  destruct (adjusted e) as [p|]; [destruct (Z.ltb_spec p bp)|]; eapply Hstep; try exact E; try lia; try (by left);
    try (intros q [= <-]; lia); try done. by right.
Qed.

(** timer_select_best activates an initialised timer whose priority is the least,
    when there is one below 1000. *)
Theorem timer_select_best_min (s : timer_state) :
  0 <= timer_count s <= len (timers s) ->
  (exists i e p, (i < Z.to_nat (timer_count s))%nat /\ timers s !! i = Some e /\ adjusted e = Some p /\ p < 1000) ->
  runs_to (timer_select_best s) (fun s' => exists i e p,
    timers s !! i = Some e /\ adjusted e = Some p /\ active_timer s' = te_driver e /\ timers s' = timers s /\
    forall j e' p', (j < Z.to_nat (timer_count s))%nat -> timers s !! j = Some e' -> adjusted e' = Some p' -> p <= p').
Proof.
  intros Hc (i & e & p & Hi & He & Hp & Hlt). unfold timer_select_best.
  destruct (best_loop _ 0 (-1) 1000) as [bi bp] eqn:E. apply best_loop_ok in E as (_ & H2 & H3).
  assert (forall j x, (j < Z.to_nat (timer_count s))%nat -> timers s !! j = Some x ->
    take (Z.to_nat (timer_count s)) (timers s) !! j = Some x) as Ht by (intros j x Hj Hx; by rewrite lookup_take_lt).
  destruct H3 as [[= -> ->]|(j & x & -> & Hj & Ha & Hb)].
  { specialize (H2 i e p (Ht _ _ Hi He) Hp). lia. }
  rewrite lookup_take_Some in Hj. destruct Hj as [Hj Hjc]. rewrite (proj2 (Z.leb_le 0 _)) by lia.
  unfold aget. rewrite (proj2 (Z.ltb_ge _ 0)) by lia. replace (Z.to_nat (0 + Z.of_nat j)) with j by lia. rewrite Hj.
  cbn [mbind outcome_bind runs_to]. exists j, x, bp. split_and!; try done. eauto.
Qed.

Module Demo.
Import Rtc.Demo.
#[local] Existing Instances cmos128_ports cmos128_ok.

Definition clock : cmos128 := sized (0, replicate 128 0) eq_refl.

(** 2024-02-29 12:34:56 in a buffer of 40 bytes, cut at 17. *)
Lemma timer_tells_time_witness :
  runs_to (init_timer_subsystem boot clock) (fun '(s, c1) =>
    runs_to (rtc_set_unix 1709210096 c1) (fun c2 =>
      runs_to (timer_get_unix_epoch s c2) (fun '(ts', _) => ts' = 1709210096) /\
      exists t, valid_time t /\ 1709210096 = day_number t * 86400 + hour t * 3600 + minute t * 60 + second t /\
      runs_to (timer_get_readable [] s (Some (replicate 40 255)) 17 c2) (fun '(b, _) => exists b', b = Some b' /\
        cstr b' (take (Z.to_nat (17 - 1)) (date_text "Friday" t)) /\
        drop (Z.to_nat 17) b' = drop (Z.to_nat 17) (replicate 40 255)))).
Proof. refine (timer_tells_time [] clock 1709210096 (replicate 40 255) 17 _ _); [lia|vm_compute; split; congruence]. Defined.

(** The day is the one after, see [rtc_weekday_shifted]. *)
Example readable_text :
  runs_to (rtc_set_unix 1709210096 (rtc_init clock)) (fun c =>
    time_text (fst (rtc_read_time c)) = lit "Friday Feb 29 12:34:56 2024").
Proof. vm_compute. reflexivity. Qed.
End Demo.
