(* ===== verification/Bytes.v ===== *)
(** * Ranges of bytes and little-endian integers

    The buffers and disk images of the file systems are lists of bytes; the
    structures the drivers overlay on them are read and written at an offset.
    [slice] and [splice] are the range that is read and the buffer after a
    range has been written; the integers are little-endian, as on x86_64. *)

From S2P Require Import Prelude.

(** ** Sizes *)

Create Rewrite HintDb sizes.

#[export] Hint Rewrite @length_app @length_take @length_drop @length_replicate @length_insert
  @length_map @length_reverse @length_seqZ @length_zip_with : sizes.

(** Closes goals on lengths. *)
Ltac size := unfold len in *; autorewrite with sizes in *; simpl length in *; lia.

Lemma list_eq_len {A} (l k : list A) :
  len l = len k -> (forall i, 0 <= i < len l -> l !! Z.to_nat i = k !! Z.to_nat i) -> l = k.
Proof.
  intros Hl H. apply list_eq. intros i. destruct (Nat.lt_ge_cases i (length l)) as [Hi|Hi].
  - specialize (H (Z.of_nat i)). rewrite Nat2Z.id in H. apply H. unfold len. lia.
  - rewrite !lookup_ge_None_2; [done|unfold len in Hl; lia|done].
Qed.

(** ** Slices *)

Section Slices.
Context {A : Type}.
Implicit Types (a b : list A) (i n pos : Z).

Definition slice a pos n : list A := take (Z.to_nat n) (drop (Z.to_nat pos) a).

Definition splice a pos b : list A :=
  take (Z.to_nat pos) a ++ b ++ drop (Z.to_nat pos + length b) a.

Lemma len_slice a pos n : 0 <= pos -> 0 <= n -> pos + n <= len a -> len (slice a pos n) = n.
Proof. intros. unfold slice. size. Qed.

Lemma len_splice a pos b : 0 <= pos -> pos + len b <= len a -> len (splice a pos b) = len a.
Proof. intros. unfold splice. size. Qed.

Lemma slice_lookup a pos n i :
  0 <= pos -> 0 <= i < n -> slice a pos n !! Z.to_nat i = a !! Z.to_nat (pos + i).
Proof.
  intros. unfold slice. rewrite lookup_take_lt by lia. rewrite lookup_drop. f_equal. lia.
Qed.

Lemma splice_lookup a pos b i :
  0 <= pos -> pos + len b <= len a -> 0 <= i ->
  splice a pos b !! Z.to_nat i =
    if (pos <=? i) && (i <? pos + len b) then b !! Z.to_nat (i - pos) else a !! Z.to_nat i.
Proof.
  intros. unfold splice, len in *.
  destruct (Z.leb_spec pos i), (Z.ltb_spec i (pos + Z.of_nat (length b))); simpl.
  - rewrite lookup_app_r by size. rewrite lookup_app_l by size. f_equal. size.
  - rewrite lookup_app_r by size. rewrite lookup_app_r by size. rewrite lookup_drop. f_equal. size.
  - rewrite lookup_app_l by size. rewrite lookup_take_lt by lia. done.
  - rewrite lookup_app_l by size. rewrite lookup_take_lt by lia. done.
Qed.

(** Reading back what was written. *)
Lemma slice_splice_eq a pos b :
  0 <= pos -> pos + len b <= len a -> slice (splice a pos b) pos (len b) = b.
Proof.
  intros. pose proof (Zle_0_nat (length b)) as Hb. fold (len b) in Hb.
  apply list_eq_len; [rewrite len_slice; rewrite ?len_splice; lia|].
  intros i Hi. rewrite len_slice in Hi; [|rewrite ?len_splice; lia..].
  rewrite slice_lookup, splice_lookup by lia.
  destruct (Z.leb_spec pos (pos + i)), (Z.ltb_spec (pos + i) (pos + len b)); try lia. simpl. f_equal. lia.
Qed.

(** A range apart from the one written is unchanged. *)
Lemma slice_splice_ne a pos b p n :
  0 <= pos -> pos + len b <= len a -> 0 <= p ->
  p + n <= pos \/ pos + len b <= p -> slice (splice a pos b) p n = slice a p n.
Proof.
  intros. apply list_eq. intros k. destruct (Z.lt_ge_cases (Z.of_nat k) n) as [Hk|Hk].
  - rewrite <- (Nat2Z.id k). rewrite !slice_lookup, splice_lookup by lia.
    destruct (Z.leb_spec pos (p + Z.of_nat k)), (Z.ltb_spec (p + Z.of_nat k) (pos + len b)); try lia; done.
  - unfold slice. rewrite !lookup_take_ge by lia. done.
Qed.

(** A range around the one written. *)
Lemma slice_splice_in a pos b p n :
  0 <= pos -> pos + len b <= len a -> 0 <= p -> p + n <= len a ->
  p <= pos -> pos + len b <= p + n -> slice (splice a pos b) p n = splice (slice a p n) (pos - p) b.
Proof.
  intros. pose proof (Zle_0_nat (length b)). unfold len in *.
  assert (Hs : len (slice a p n) = n) by (apply len_slice; size). apply list_eq_len.
  { rewrite !len_slice, len_splice; rewrite ?Hs, ?len_splice; size. }
  intros i Hi. rewrite len_slice in Hi; [|rewrite ?len_splice; size..].
  rewrite slice_lookup, !splice_lookup by (rewrite ?Hs; size). rewrite slice_lookup by lia.
  replace (pos <=? p + i) with (pos - p <=? i) by (destruct (Z.leb_spec (pos - p) i), (Z.leb_spec pos (p + i)); lia).
  replace (p + i <? pos + len b) with (i <? pos - p + len b)
    by (destruct (Z.ltb_spec i (pos - p + len b)), (Z.ltb_spec (p + i) (pos + len b)); lia).
  destruct (_ && _); [f_equal; lia|done].
Qed.

(** Reading a range, changing part of it and writing it back. *)
Lemma splice_slice_splice a p n q b :
  0 <= p -> 0 <= q -> q + len b <= n -> p + n <= len a ->
  splice a p (splice (slice a p n) q b) = splice a (p + q) b.
Proof.
  intros. pose proof (Zle_0_nat (length b)) as Hb. fold (len b) in Hb.
  assert (Hs : len (slice a p n) = n) by (apply len_slice; lia).
  assert (Hs2 : len (splice (slice a p n) q b) = n) by (rewrite len_splice; lia).
  apply list_eq_len; [rewrite !len_splice; lia|]. intros i Hi. rewrite len_splice in Hi by lia.
  rewrite (splice_lookup a (p + q) b), (splice_lookup a p) by lia. rewrite Hs2.
  destruct (Z.leb_spec p i), (Z.ltb_spec i (p + n)); cbn [andb].
  - rewrite splice_lookup by lia. rewrite slice_lookup by lia. replace (p + (i - p)) with i by lia.
    replace (i - p - q) with (i - (p + q)) by lia.
    destruct (Z.leb_spec q (i - p)), (Z.ltb_spec (i - p) (q + len b)), (Z.leb_spec (p + q) i),
      (Z.ltb_spec i (p + q + len b)); try lia; done.
  - destruct (Z.leb_spec (p + q) i), (Z.ltb_spec i (p + q + len b)); try lia; done.
  - destruct (Z.leb_spec (p + q) i), (Z.ltb_spec i (p + q + len b)); try lia; done.
  - lia.
Qed.

Lemma splice_splice_next a b1 b2 pos : 0 <= pos -> pos + len b1 + len b2 <= len a ->
  splice (splice a pos b1) (pos + len b1) b2 = splice a pos (b1 ++ b2).
Proof.
  intros Hp Hl. assert (len (b1 ++ b2) = len b1 + len b2) as Ea by (unfold len; rewrite length_app; lia).
  assert (0 <= len b1 /\ 0 <= len b2) as [? ?] by (unfold len; lia).
  apply list_eq_len; [rewrite !len_splice; rewrite ?len_splice; lia|].
  intros i Hi. rewrite !len_splice in Hi by (rewrite ?len_splice; lia).
  rewrite !splice_lookup by (rewrite ?len_splice; lia). rewrite Ea.
  destruct (Z.leb_spec (pos + len b1) i), (Z.ltb_spec i (pos + len b1 + len b2)), (Z.leb_spec pos i), (Z.ltb_spec i (pos + len b1)),
    (Z.ltb_spec i (pos + (len b1 + len b2))); cbn [andb]; try lia; try done.
  - rewrite lookup_app_r by (unfold len in *; lia). f_equal. unfold len in *. lia.
  - rewrite lookup_app_l by (unfold len in *; lia). done.
Qed.

Lemma slice_all a : slice a 0 (len a) = a.
Proof. unfold slice, len. rewrite Nat2Z.id. simpl. by apply take_ge. Qed.

Lemma splice_all a b : len b = len a -> splice a 0 b = b.
Proof. intros. unfold splice. simpl. rewrite drop_ge by size. apply app_nil_r. Qed.

Lemma slice_slice a p n q m :
  0 <= p -> 0 <= q -> 0 <= m -> q + m <= n -> slice (slice a p n) q m = slice a (p + q) m.
Proof.
  intros. unfold slice. rewrite skipn_firstn_comm, drop_drop, take_take. f_equal; [lia|]. f_equal. lia.
Qed.

Lemma slice_app_add a p n m :
  0 <= p -> 0 <= n -> 0 <= m -> slice a p (n + m) = slice a p n ++ slice a (p + n) m.
Proof.
  intros. unfold slice. rewrite !Z2Nat.inj_add by lia. rewrite <- drop_drop.
  generalize (drop (Z.to_nat p) a). intros l. revert l.
  induction (Z.to_nat n) as [|k IH]; intros [|x l]; simpl; [done|done|by rewrite take_nil|]. by rewrite IH.
Qed.

Lemma slice_Forall (P : A -> Prop) a p n : Forall P a -> Forall P (slice a p n).
Proof. intros. by apply Forall_take, Forall_drop. Qed.

Lemma splice_Forall (P : A -> Prop) a p b : Forall P a -> Forall P b -> Forall P (splice a p b).
Proof. intros. unfold splice. repeat apply Forall_app_2; auto using Forall_take, Forall_drop. Qed.
End Slices.

Lemma mem_read_slice a pos n :
  0 <= pos -> 0 <= n -> pos + n <= len a -> mem_read a pos n = Ret (slice a pos n).
Proof. intros. by apply mem_read_ok. Qed.

Lemma mem_write_splice a pos b :
  0 <= pos -> pos + len b <= len a -> mem_write a pos b = Ret (splice a pos b).
Proof. intros. destruct (mem_write_ok a pos b) as (a' & -> & _ & ->); done. Qed.

(** ** Little-endian integers *)

Fixpoint le_bytes (n : nat) (z : Z) : list Z :=
  match n with O => [] | S n' => z mod 256 :: le_bytes n' (z / 256) end.

Definition le_value (l : list Z) : Z := foldr (fun b v => b + 256 * v) 0 l.

Lemma le_bytes_length n z : length (le_bytes n z) = n.
Proof. revert z. induction n as [|n IH]; intros z; simpl; [done|by rewrite IH]. Qed.

#[export] Hint Rewrite le_bytes_length : sizes.

Lemma le_bytes_ok n z : Forall byte_ok (le_bytes n z).
Proof.
  revert z. induction n as [|n IH]; intros z; simpl; constructor; [|apply IH].
  unfold byte_ok. apply Z.mod_pos_bound. lia.
Qed.

Lemma le_value_bytes n z : le_value (le_bytes n z) = z mod 256 ^ Z.of_nat n.
Proof.
  revert z. induction n as [|n IH]; intros z; [by rewrite Z.mod_1_r|]. cbn [le_bytes le_value foldr].
  fold (le_value (le_bytes n (z / 256))). rewrite IH, Nat2Z.inj_succ, Z.pow_succ_r by lia.
  rewrite Z.rem_mul_r by (try apply Z.pow_nonzero; lia). done.
Qed.

Lemma le_value_range l : Forall byte_ok l -> 0 <= le_value l < 256 ^ len l.
Proof.
  unfold len, le_value. induction 1 as [|b l Hb _ IH]; [done|]. cbn [foldr].
  unfold byte_ok in Hb. simpl length. rewrite Nat2Z.inj_succ, Z.pow_succ_r by lia. lia.
Qed.

Lemma le_bytes_value l : Forall byte_ok l -> le_bytes (length l) (le_value l) = l.
Proof.
  induction 1 as [|b l Hb _ IH]; [done|]. cbn [length le_bytes le_value foldr]. fold (le_value l).
  unfold byte_ok in Hb. f_equal.
  - rewrite (Z.mul_comm 256), Z.mod_add, Z.mod_small by lia. done.
  - rewrite (Z.mul_comm 256), Z.div_add, Z.div_small by lia. done.
Qed.

(** The accesses of the drivers. *)
Definition get8 (buf : list Z) (off : Z) : outcome Z := aget buf off.
Definition get16 (buf : list Z) (off : Z) : outcome Z := bs ← mem_read buf off 2; Ret (le_value bs).
Definition get32 (buf : list Z) (off : Z) : outcome Z := bs ← mem_read buf off 4; Ret (le_value bs).
Definition put16 (buf : list Z) (off v : Z) : outcome (list Z) := mem_write buf off (le_bytes 2 v).
Definition put32 (buf : list Z) (off v : Z) : outcome (list Z) := mem_write buf off (le_bytes 4 v).

Lemma get16_ok buf off :
  0 <= off -> off + 2 <= len buf -> get16 buf off = Ret (le_value (slice buf off 2)).
Proof. intros. unfold get16. by rewrite mem_read_slice by lia. Qed.

Lemma get32_ok buf off :
  0 <= off -> off + 4 <= len buf -> get32 buf off = Ret (le_value (slice buf off 4)).
Proof. intros. unfold get32. by rewrite mem_read_slice by lia. Qed.

Lemma put16_ok buf off v :
  0 <= off -> off + 2 <= len buf -> put16 buf off v = Ret (splice buf off (le_bytes 2 v)).
Proof. intros. apply mem_write_splice; [done|size]. Qed.

Lemma put32_ok buf off v :
  0 <= off -> off + 4 <= len buf -> put32 buf off v = Ret (splice buf off (le_bytes 4 v)).
Proof. intros. apply mem_write_splice; [done|size]. Qed.

Lemma value32_range buf off :
  Forall byte_ok buf -> 0 <= off -> off + 4 <= len buf -> 0 <= le_value (slice buf off 4) < 2 ^ 32.
Proof.
  intros Hb H1 H2. pose proof (le_value_range (slice buf off 4) (slice_Forall _ _ _ _ Hb)) as H.
  rewrite len_slice in H by lia. exact H.
Qed.

Lemma value32_splice buf off v :
  0 <= off -> off + 4 <= len buf -> 0 <= v < 2 ^ 32 ->
  le_value (slice (splice buf off (le_bytes 4 v)) off 4) = v.
Proof.
  intros. pose proof (slice_splice_eq buf off (le_bytes 4 v) ltac:(done) ltac:(size)) as E.
  replace (len (le_bytes 4 v)) with 4 in E by size. rewrite E, le_value_bytes. by apply Z.mod_small.
Qed.
