(* ===== verification/Console.v ===== *)
(** * The console

    The terminal (core/kernel/tty.c), the serial line (core/drivers/serial.c) and the
    framebuffer (core/kernel/vge: palette.c, psf.c, fb.c, fb_render.c), with the
    panic screen (core/arch/panic.c).

    The pixels are a list of 32-bit words, the memory behind fb_addr; widths and
    heights are below 2^32, and pitch is a multiple of four, as the boot protocol
    gives them for 32 bits per pixel.  A driver of the terminal is a [Record] of
    operations on the state behind it. *)

From stdpp Require Import strings.
From S2P Require Import Prelude Rtc Vfs Kstd Bytes Text.

#[local] Open Scope Z_scope.

(** ** The terminal *)

Record tty_driver (W : Type) := mktty {
  drv_puts : option (list Z -> Z -> W -> outcome W);
  drv_clear : option (W -> outcome W);
}.
Arguments mktty {W}. Arguments drv_puts {W}. Arguments drv_clear {W}.

(** The static variables. *)
Record tty (W : Type) := mktty_state {
  current_driver : option (tty_driver W);
  escape_state : Z;
  current_param : Z;
  params : list Z;
  param_count : Z;
  current_fg : Z;
  current_bg : Z;
}.
Arguments mktty_state {W}. Arguments current_driver {W}. Arguments escape_state {W}. Arguments current_param {W}.
Arguments params {W}. Arguments param_count {W}. Arguments current_fg {W}. Arguments current_bg {W}.

Section Tty.
Context {W : Type}.
Implicit Types (t : tty W) (w : W).

Definition with_driver t d : tty W := mktty_state d (escape_state t) (current_param t) (params t) (param_count t) (current_fg t) (current_bg t).
Definition with_escape t e cp n : tty W := mktty_state (current_driver t) e cp (params t) n (current_fg t) (current_bg t).
Definition with_param t cp ps n : tty W := mktty_state (current_driver t) (escape_state t) cp ps n (current_fg t) (current_bg t).
Definition with_colors t fg bg : tty W :=
  mktty_state (current_driver t) (escape_state t) (current_param t) (params t) (param_count t) fg bg.

Definition tty_clear t w : outcome W :=
  match current_driver t with
  | Some d => match drv_clear d with Some clear => clear w | None => Ret w end
  | None => Ret w
  end.

Definition tty_register_driver (driver : option (tty_driver W)) t w : outcome (tty W * W) :=
  let t := with_driver t driver in
  w ← tty_clear t w; Ret (t, w).

(** One parameter of the sequence that sets colours. *)
Definition apply_param t (p : Z) : tty W :=
  if (30 <=? p) && (p <=? 37) then with_colors t (p - 30) (current_bg t)
  else if (40 <=? p) && (p <=? 47) then with_colors t (current_fg t) (p - 40)
  else if (90 <=? p) && (p <=? 97) then with_colors t (p - 90 + 8) (current_bg t)
  else if (100 <=? p) && (p <=? 107) then with_colors t (current_fg t) (p - 100 + 8)
  else if p =? 0 then with_colors t 7 0
  else if p =? 39 then with_colors t 7 (current_bg t)
  else if p =? 49 then with_colors t (current_fg t) 0
  else t.

Fixpoint params_loop (n : nat) (i : Z) t : outcome (tty W) :=
  match n with
  | O => Ret t
  | S n' => p ← aget (params t) i; params_loop n' (i + 1) (apply_param t p)
  end.

(** [if (param_count < 16) params[param_count++] = current_param]. *)
Definition push_param t : outcome (tty W) :=
  if param_count t <? 16 then
    ps ← aset (params t) (param_count t) (current_param t);
    Ret (with_param t (current_param t) ps (param_count t + 1))
  else Ret t.

(** One character; the product of current_param wraps as the processor does it. *)
Definition tty_char (puts : list Z -> Z -> W -> outcome W) (ch : Z) t w : outcome (tty W * W) :=
  if escape_state t =? 0 then
    if ch =? 27 then Ret (with_escape t 1 0 0, w)
    else w ← puts [ch] (Z.lor (Z.shiftl (current_bg t) 4) (current_fg t)) w; Ret (t, w)
  else if escape_state t =? 1 then
    Ret (with_escape t (if ch =? 91 then 2 else 0) (current_param t) (param_count t), w)
  else if escape_state t =? 2 then
    if (48 <=? ch) && (ch <=? 57) then
      Ret (with_param t (i32 (current_param t * 10 + (ch - 48))) (params t) (param_count t), w)
    else if ch =? 59 then
      t ← push_param t; Ret (with_param t 0 (params t) (param_count t), w)
    else if ch =? 109 then
      t ← push_param t;
      t ← params_loop (Z.to_nat (param_count t)) 0 t;
      Ret (with_escape t 0 0 0, w)
    else Ret (with_escape t 0 0 0, w)
  else Ret (t, w).

Fixpoint tty_chars (puts : list Z -> Z -> W -> outcome W) (str : list Z) t w : outcome (tty W * W) :=
  match str with
  | [] => Ret (t, w)
  | ch :: str' => '(t, w) ← tty_char puts ch t w; tty_chars puts str' t w
  end.

(** [str]: the characters before the terminator. *)
Definition tty_puts (str : list Z) t w : outcome (tty W * W) :=
  match current_driver t with
  | Some d => match drv_puts d with Some puts => tty_chars puts str t w | None => Ret (t, w) end
  | None => Ret (t, w)
  end.

Fixpoint tty_puts_all (strs : list (list Z)) t w : outcome (tty W * W) :=
  match strs with
  | [] => Ret (t, w)
  | s :: strs' => '(t, w) ← tty_puts s t w; tty_puts_all strs' t w
  end.
End Tty.

(** ** The serial line *)

Definition PORT : Z := 0x3f8.

Section Serial.
Context {C : Type} {P : CmosPorts C}.
Implicit Types c : C.

Fixpoint out_all (l : list (Z * Z)) c : C :=
  match l with [] => c | (port, v) :: l' => out_all l' (outb port v c) end.

Definition init_serial c : Z * C :=
  let c := out_all [(PORT + 1, 0x00); (PORT + 3, 0x80); (PORT + 0, 0x03); (PORT + 1, 0x00); (PORT + 3, 0x03);
                    (PORT + 2, 0xC7); (PORT + 4, 0x0B); (PORT + 4, 0x1E); (PORT + 0, 0xAE)] c in
  let '(b, c) := inb (PORT + 0) c in
  if negb (b =? 0xAE) then (1, c) else (0, outb (PORT + 4) 0x0F c).

Definition serial_received c : Z * C := let '(b, c) := inb (PORT + 5) c in (Z.land b 1, c).

Fixpoint read_serial (fuel : nat) c : outcome (Z * C) :=
  match fuel with
  | O => OutOfFuel
  | S fuel' => let '(r, c) := serial_received c in if r =? 0 then read_serial fuel' c else Ret (inb PORT c)
  end.

Definition is_transmit_empty c : Z * C := let '(b, c) := inb (PORT + 5) c in (Z.land b 0x20, c).

Fixpoint write_serial (fuel : nat) (a : Z) c : outcome C :=
  match fuel with
  | O => OutOfFuel
  | S fuel' => let '(r, c) := is_transmit_empty c in if r =? 0 then write_serial fuel' a c else Ret (outb PORT a c)
  end.

(** [fuel] rounds of waiting for each character. *)
Fixpoint serial_print (fuel : nat) (str : list Z) c : outcome C :=
  match str with [] => Ret c | a :: str' => c ← write_serial fuel a c; serial_print fuel str' c end.
End Serial.

(** ** The palette *)

Definition vga_palette : list Z :=
  [0x00000000; 0x00aa0000; 0x0000aa00; 0x00aa5500; 0x00aa0000; 0x00aa00aa; 0x00ffaa00; 0x00aaaaaa;
   0x00555555; 0x005555ff; 0x0055ff55; 0x00ffff55; 0x00ff5555; 0x00ff55ff; 0x00ffff55; 0x00ffffff].

Definition hex_digit (c : Z) : Z :=
  if (48 <=? c) && (c <=? 57) then c - 48
  else if (97 <=? c) && (c <=? 102) then c - 97 + 10
  else if (65 <=? c) && (c <=? 70) then c - 65 + 10
  else -1.

(** The loop over the six digits from [pos], [i] of them read; [None] for -1. *)
Fixpoint hex_loop (n : nat) (data : list Z) (pos color : Z) : outcome (option Z) :=
  match n with
  | O => Ret (Some color)
  | S n' =>
      c ← aget data pos;
      let d := hex_digit c in
      if d <? 0 then Ret None else hex_loop n' data (pos + 1) (u32 (Z.lor (u32 (Z.shiftl color 4)) d))
  end.

Definition parse_hex_color (data : list Z) (pos : Z) : outcome (option Z) :=
  c ← aget data pos;
  if negb (c =? 35) then Ret None else hex_loop 6 data (pos + 1) 0.

(** [len == n && strncmp(data + start, word, n) == 0]: strncmp stops at the first
    difference, so it reads no more than the word. *)
Fixpoint same_at (data : list Z) (start : Z) (word : list Z) : outcome bool :=
  match word with
  | [] => Ret true
  | w :: word' => c ← aget data start; if c =? w then same_at data (start + 1) word' else Ret false
  end.

Definition is_word (data : list Z) (start n : Z) (word : string) : outcome bool :=
  if n =? len (lit word) then same_at data start (lit word) else Ret false.

Definition color_names : list (string * Z) :=
  [("black", 0); ("blue", 1); ("green", 2); ("cyan", 3); ("red", 4); ("magenta", 5); ("yellow", 6); ("white", 7)]%string.

Fixpoint name_loop (data : list Z) (start n : Z) (names : list (string * Z)) : outcome Z :=
  match names with
  | [] => Ret (-1)
  | (w, offset) :: names' => b ← is_word data start n w; if b : bool then Ret offset else name_loop data start n names'
  end.

Definition color_name_to_offset (data : list Z) (start n : Z) : outcome Z := name_loop data start n color_names.

(** [while (i < limit && p(data[i])) i++]; at most [n] rounds. *)
Fixpoint skip_while (n : nat) (p : Z -> bool) (data : list Z) (i limit : Z) : outcome Z :=
  match n with
  | O => Ret i
  | S n' => if i <? limit then c ← aget data i; if p c then skip_while n' p data (i + 1) limit else Ret i else Ret i
  end.

Definition skip (p : Z -> bool) (data : list Z) (i limit : Z) : outcome Z := skip_while (Z.to_nat (limit - i)) p data i limit.

Definition is_blank (c : Z) : bool := (c =? 32) || (c =? 9).

(** One line, from [line_start] to [line_end]: the section and the palette after it. *)
Definition palette_line (data : list Z) (line_start line_end section_base : Z) (pal : list Z) : outcome (Z * list Z) :=
  i ← skip is_blank data line_start line_end;
  if line_end <=? i then Ret (section_base, pal) else
  c ← aget data i;
  if c =? 35 then Ret (section_base, pal) else
  if c =? 91 then
    let sec_start := i + 1 in
    i ← skip (fun c => negb (c =? 93)) data sec_start line_end;
    normal ← is_word data sec_start (i - sec_start) "palette.normal";
    if normal : bool then Ret (0, pal) else
    bright ← is_word data sec_start (i - sec_start) "palette.bright";
    Ret (if bright : bool then 8 else -1, pal)
  else if section_base <? 0 then Ret (section_base, pal) else
  let name_start := i in
  i ← skip (fun c => negb (is_blank c || (c =? 61))) data name_start line_end;
  offset ← color_name_to_offset data name_start (i - name_start);
  if offset <? 0 then Ret (section_base, pal) else
  i ← skip is_blank data i line_end;
  if line_end <=? i then Ret (section_base, pal) else
  c ← aget data i;
  if negb (c =? 61) then Ret (section_base, pal) else
  i ← skip is_blank data (i + 1) line_end;
  r ← parse_hex_color data i;
  match r with
  | Some color => pal ← aset pal (section_base + offset) color; Ret (section_base, pal)
  | None => Ret (section_base, pal)
  end.

(** The loop over the lines; [n] bounds their number. *)
Fixpoint palette_lines (n : nat) (data : list Z) (size pos section_base : Z) (pal : list Z) : outcome (list Z) :=
  if size <=? pos then Ret pal else
  match n with
  | O => OutOfFuel
  | S n' =>
      line_end ← skip (fun c => negb (c =? 10)) data pos size;
      '(section_base, pal) ← palette_line data pos line_end section_base pal;
      palette_lines n' data size (if line_end <? size then line_end + 1 else line_end) section_base pal
  end.

Definition parse_palette_conf (data : list Z) (size : Z) (pal : list Z) : outcome (list Z) :=
  palette_lines (Z.to_nat size) data size 0 (-1) pal.

Definition PALETTE_PATH : list Z := lit "/etc/palette.conf".

(** [buffer] is the static buffer of vfs_read. *)
Definition palette_init {W} {E : VfsEnv W} (v : vfs W) (buffer pal : list Z) : outcome (vfs W * list Z * list Z) :=
  '(v, b) ← vfs_exists PALETTE_PATH v;
  if negb b then Ret (v, buffer, pal) else
  '(v, buffer, n) ← vfs_read PALETTE_PATH buffer v;
  match n with
  | None => Ret (v, buffer, pal)
  | Some file_size =>
      if file_size =? 0 then Ret (v, buffer, pal) else
      pal ← parse_palette_conf buffer file_size pal; Ret (v, buffer, pal)
  end.

Definition palette_get_color (pal : list Z) (index : Z) : outcome Z := aget pal (Z.land index 0xF).

(** ** Fonts *)

Definition FONT_HEIGHT : Z := 16.
Definition PSF1_MAGIC : Z := 0x0436.
Definition PSF1_MODE512 : Z := 1.
Definition PSF2_MAGIC : Z := 0x864ab572.

Record psf2_header := mkpsf2 {
  psf2_magic : Z; psf2_headersize : Z; psf2_length : Z; psf2_charsize : Z; psf2_height : Z; psf2_width : Z;
}.

(** version and flags are not used. *)
Definition psf2_of (data : list Z) : outcome psf2_header :=
  magic ← get32 data 0; headersize ← get32 data 8; length ← get32 data 16;
  charsize ← get32 data 20; height ← get32 data 24; width ← get32 data 28;
  Ret (mkpsf2 magic headersize length charsize height width).

Definition zero_font : list (list Z) := replicate 256 (replicate 16 0).

(** font[i][row] = v. *)
Definition font_set (font : list (list Z)) (i row v : Z) : outcome (list (list Z)) :=
  g ← aget font i; g ← aset g row v; aset font i g.

(** The rows of one glyph; [stride] bytes per row, [size] bytes per glyph.  The test
    of the row is only in the loop for PSF2; for PSF1 it holds by copy_height. *)
Fixpoint glyph_copy (n : nat) (data : list Z) (start size stride i row : Z) (font : list (list Z)) : outcome (list (list Z)) :=
  match n with
  | O => Ret font
  | S n' =>
      font ← (if row * stride <? size then b ← aget data (start + row * stride); font_set font i row b else Ret font);
      glyph_copy n' data start size stride i (row + 1) font
  end.

Fixpoint glyphs_copy (n : nat) (data : list Z) (base size stride rows i : Z) (font : list (list Z)) : outcome (list (list Z)) :=
  match n with
  | O => Ret font
  | S n' =>
      font ← glyph_copy (Z.to_nat rows) data (base + u32 (i * size)) size stride i 0 font;
      glyphs_copy n' data base size stride rows (i + 1) font
  end.

(** The messages are left out.  [None] for a null pointer. *)
Definition parse_psf2 (data : list Z) (psf_size : Z) (h2 : psf2_header) : outcome (Z * option (list (list Z))) :=
  if negb (psf2_width h2 =? 8) || (psf2_height h2 <? 8) || (psf2_length h2 <? 256) then Ret (-1, None) else
  let expected_size := u64 (psf2_headersize h2 + psf2_length h2 * psf2_charsize h2) in
  if (psf_size <? expected_size) || (expected_size <? psf2_headersize h2) then Ret (-1, None) else
  if psf_size <? psf2_headersize h2 + u32 (psf2_length h2 * psf2_charsize h2) then Ret (-1, None) else
  let copy_height := if FONT_HEIGHT <? psf2_height h2 then FONT_HEIGHT else psf2_height h2 in
  let bytes_per_row := (psf2_width h2 + 7) / 8 in
  font ← glyphs_copy (Z.to_nat (Z.min 256 (psf2_length h2))) data (psf2_headersize h2) (psf2_charsize h2) bytes_per_row copy_height 0 zero_font;
  Ret (0, Some font).

Definition parse_psf1 (data : list Z) (psf_size : Z) : outcome (Z * option (list (list Z))) :=
  mode ← get8 data 2; charsize ← get8 data 3;
  let glyphs := if negb (Z.land mode PSF1_MODE512 =? 0) then 512 else 256 in
  let bitmapsz := glyphs * charsize in
  if psf_size <? 4 + bitmapsz then Ret (-1, None) else
  if (charsize <? 8) || (glyphs <? 256) then Ret (-1, None) else
  let copy_height := if FONT_HEIGHT <? charsize then FONT_HEIGHT else charsize in
  font ← glyphs_copy (Z.to_nat (Z.min 256 glyphs)) data 4 charsize 1 copy_height 0 zero_font;
  Ret (0, Some font).

(** The result, and the font that replaces the old one. *)
Definition parse_psf_to_font (data : list Z) (psf_size : Z) : outcome (Z * option (list (list Z))) :=
  if psf_size <? 4 then Ret (-1, None) else
  psf2 ← (if 32 <=? psf_size then
            h2 ← psf2_of data;
            Ret (if (psf2_magic h2 =? PSF2_MAGIC) && (32 <=? psf2_headersize h2) then Some h2 else None)
          else Ret None);
  match psf2 with
  | Some h2 => parse_psf2 data psf_size h2
  | None =>
      magic ← get16 data 0;
      if magic =? PSF1_MAGIC then parse_psf1 data psf_size else Ret (-1, None)
  end.

Definition load_font_from_vfs {W} {E : VfsEnv W} (path buffer : list Z) (font : list (list Z)) (v : vfs W) : outcome (vfs W * list Z * list (list Z) * Z) :=
  '(v, buffer, n) ← vfs_read path buffer v;
  match n with
  | None => Ret (v, buffer, font, -1)
  | Some file_size =>
      '(r, f) ← parse_psf_to_font buffer file_size;
      Ret (v, buffer, match f with Some font' => font' | None => font end, r)
  end.

Definition builtin_font : list (list Z) :=
  [
   [0x00; 0x00; 0x00; 0x00; 0x00; 0x00; 0x00; 0x00]; [0x00; 0x00; 0x00; 0x00; 0x00; 0x00; 0x00; 0x00];
   [0x00; 0x00; 0x00; 0x00; 0x00; 0x00; 0x00; 0x00]; [0x00; 0x00; 0x00; 0x00; 0x00; 0x00; 0x00; 0x00];
   [0x00; 0x00; 0x00; 0x00; 0x00; 0x00; 0x00; 0x00]; [0x00; 0x00; 0x00; 0x00; 0x00; 0x00; 0x00; 0x00];
   [0x00; 0x00; 0x00; 0x00; 0x00; 0x00; 0x00; 0x00]; [0x00; 0x00; 0x00; 0x00; 0x00; 0x00; 0x00; 0x00];
   [0x00; 0x00; 0x00; 0x00; 0x00; 0x00; 0x00; 0x00]; [0x00; 0x00; 0x00; 0x00; 0x00; 0x00; 0x00; 0x00];
   [0x00; 0x00; 0x00; 0x00; 0x00; 0x00; 0x00; 0x00]; [0x00; 0x00; 0x00; 0x00; 0x00; 0x00; 0x00; 0x00];
   [0x00; 0x00; 0x00; 0x00; 0x00; 0x00; 0x00; 0x00]; [0x00; 0x00; 0x00; 0x00; 0x00; 0x00; 0x00; 0x00];
   [0x00; 0x00; 0x00; 0x00; 0x00; 0x00; 0x00; 0x00]; [0x00; 0x00; 0x00; 0x00; 0x00; 0x00; 0x00; 0x00];
   [0x00; 0x00; 0x00; 0x00; 0x00; 0x00; 0x00; 0x00]; [0x00; 0x00; 0x00; 0x00; 0x00; 0x00; 0x00; 0x00];
   [0x00; 0x00; 0x00; 0x00; 0x00; 0x00; 0x00; 0x00]; [0x00; 0x00; 0x00; 0x00; 0x00; 0x00; 0x00; 0x00];
   [0x00; 0x00; 0x00; 0x00; 0x00; 0x00; 0x00; 0x00]; [0x00; 0x00; 0x00; 0x00; 0x00; 0x00; 0x00; 0x00];
   [0x00; 0x00; 0x00; 0x00; 0x00; 0x00; 0x00; 0x00]; [0x00; 0x00; 0x00; 0x00; 0x00; 0x00; 0x00; 0x00];
   [0x00; 0x00; 0x00; 0x00; 0x00; 0x00; 0x00; 0x00]; [0x00; 0x00; 0x00; 0x00; 0x00; 0x00; 0x00; 0x00];
   [0x00; 0x00; 0x00; 0x00; 0x00; 0x00; 0x00; 0x00]; [0x00; 0x00; 0x00; 0x00; 0x00; 0x00; 0x00; 0x00];
   [0x00; 0x00; 0x00; 0x00; 0x00; 0x00; 0x00; 0x00]; [0x00; 0x00; 0x00; 0x00; 0x00; 0x00; 0x00; 0x00];
   [0x00; 0x00; 0x00; 0x00; 0x00; 0x00; 0x00; 0x00]; [0x00; 0x00; 0x00; 0x00; 0x00; 0x00; 0x00; 0x00];
   [0x00; 0x00; 0x00; 0x00; 0x00; 0x00; 0x00; 0x00]; [0x18; 0x3C; 0x3C; 0x18; 0x18; 0x00; 0x18; 0x00];
   [0x6C; 0x6C; 0x00; 0x00; 0x00; 0x00; 0x00; 0x00]; [0x6C; 0x6C; 0xFE; 0x6C; 0xFE; 0x6C; 0x6C; 0x00];
   [0x30; 0x7C; 0xC0; 0x78; 0x0C; 0xF8; 0x30; 0x00]; [0x00; 0xC6; 0xCC; 0x18; 0x30; 0x66; 0xC6; 0x00];
   [0x38; 0x6C; 0x38; 0x76; 0xDC; 0xCC; 0x76; 0x00]; [0x60; 0x60; 0xC0; 0x00; 0x00; 0x00; 0x00; 0x00];
   [0x18; 0x30; 0x60; 0x60; 0x60; 0x30; 0x18; 0x00]; [0x60; 0x30; 0x18; 0x18; 0x18; 0x30; 0x60; 0x00];
   [0x00; 0x66; 0x3C; 0xFF; 0x3C; 0x66; 0x00; 0x00]; [0x00; 0x30; 0x30; 0xFC; 0x30; 0x30; 0x00; 0x00];
   [0x00; 0x00; 0x00; 0x00; 0x00; 0x30; 0x30; 0x60]; [0x00; 0x00; 0x00; 0xFC; 0x00; 0x00; 0x00; 0x00];
   [0x00; 0x00; 0x00; 0x00; 0x00; 0x30; 0x30; 0x00]; [0x06; 0x0C; 0x18; 0x30; 0x60; 0xC0; 0x80; 0x00];
   [0x7C; 0xC6; 0xCE; 0xDE; 0xF6; 0xE6; 0x7C; 0x00]; [0x30; 0x70; 0x30; 0x30; 0x30; 0x30; 0xFC; 0x00];
   [0x78; 0xCC; 0x0C; 0x38; 0x60; 0xCC; 0xFC; 0x00]; [0x78; 0xCC; 0x0C; 0x38; 0x0C; 0xCC; 0x78; 0x00];
   [0x1C; 0x3C; 0x6C; 0xCC; 0xFE; 0x0C; 0x1E; 0x00]; [0xFC; 0xC0; 0xF8; 0x0C; 0x0C; 0xCC; 0x78; 0x00];
   [0x38; 0x60; 0xC0; 0xF8; 0xCC; 0xCC; 0x78; 0x00]; [0xFC; 0xCC; 0x0C; 0x18; 0x30; 0x30; 0x30; 0x00];
   [0x78; 0xCC; 0xCC; 0x78; 0xCC; 0xCC; 0x78; 0x00]; [0x78; 0xCC; 0xCC; 0x7C; 0x0C; 0x18; 0x70; 0x00];
   [0x00; 0x30; 0x30; 0x00; 0x00; 0x30; 0x30; 0x00]; [0x00; 0x30; 0x30; 0x00; 0x00; 0x30; 0x30; 0x60];
   [0x18; 0x30; 0x60; 0xC0; 0x60; 0x30; 0x18; 0x00]; [0x00; 0x00; 0xFC; 0x00; 0x00; 0xFC; 0x00; 0x00];
   [0x60; 0x30; 0x18; 0x0C; 0x18; 0x30; 0x60; 0x00]; [0x78; 0xCC; 0x0C; 0x18; 0x30; 0x00; 0x30; 0x00];
   [0x7C; 0xC6; 0xDE; 0xDE; 0xDE; 0xC0; 0x78; 0x00]; [0x30; 0x78; 0xCC; 0xCC; 0xFC; 0xCC; 0xCC; 0x00];
   [0xFC; 0x66; 0x66; 0x7C; 0x66; 0x66; 0xFC; 0x00]; [0x3C; 0x66; 0xC0; 0xC0; 0xC0; 0x66; 0x3C; 0x00];
   [0xF8; 0x6C; 0x66; 0x66; 0x66; 0x6C; 0xF8; 0x00]; [0xFE; 0x62; 0x68; 0x78; 0x68; 0x62; 0xFE; 0x00];
   [0xFE; 0x62; 0x68; 0x78; 0x68; 0x60; 0xF0; 0x00]; [0x3C; 0x66; 0xC0; 0xC0; 0xCE; 0x66; 0x3E; 0x00];
   [0xCC; 0xCC; 0xCC; 0xFC; 0xCC; 0xCC; 0xCC; 0x00]; [0x78; 0x30; 0x30; 0x30; 0x30; 0x30; 0x78; 0x00];
   [0x1E; 0x0C; 0x0C; 0x0C; 0xCC; 0xCC; 0x78; 0x00]; [0xE6; 0x66; 0x6C; 0x78; 0x6C; 0x66; 0xE6; 0x00];
   [0xF0; 0x60; 0x60; 0x60; 0x62; 0x66; 0xFE; 0x00]; [0xC6; 0xEE; 0xFE; 0xFE; 0xD6; 0xC6; 0xC6; 0x00];
   [0xC6; 0xE6; 0xF6; 0xDE; 0xCE; 0xC6; 0xC6; 0x00]; [0x38; 0x6C; 0xC6; 0xC6; 0xC6; 0x6C; 0x38; 0x00];
   [0xFC; 0x66; 0x66; 0x7C; 0x60; 0x60; 0xF0; 0x00]; [0x78; 0xCC; 0xCC; 0xCC; 0xDC; 0x78; 0x1C; 0x00];
   [0xFC; 0x66; 0x66; 0x7C; 0x6C; 0x66; 0xE6; 0x00]; [0x78; 0xCC; 0xE0; 0x70; 0x1C; 0xCC; 0x78; 0x00];
   [0xFC; 0xB4; 0x30; 0x30; 0x30; 0x30; 0x78; 0x00]; [0xCC; 0xCC; 0xCC; 0xCC; 0xCC; 0xCC; 0xFC; 0x00];
   [0xCC; 0xCC; 0xCC; 0xCC; 0xCC; 0x78; 0x30; 0x00]; [0xC6; 0xC6; 0xC6; 0xD6; 0xFE; 0xEE; 0xC6; 0x00];
   [0xC6; 0xC6; 0x6C; 0x38; 0x38; 0x6C; 0xC6; 0x00]; [0xCC; 0xCC; 0xCC; 0x78; 0x30; 0x30; 0x78; 0x00];
   [0xFE; 0xC6; 0x8C; 0x18; 0x32; 0x66; 0xFE; 0x00]; [0x78; 0x60; 0x60; 0x60; 0x60; 0x60; 0x78; 0x00];
   [0xC0; 0x60; 0x30; 0x18; 0x0C; 0x06; 0x02; 0x00]; [0x78; 0x18; 0x18; 0x18; 0x18; 0x18; 0x78; 0x00];
   [0x10; 0x38; 0x6C; 0xC6; 0x00; 0x00; 0x00; 0x00]; [0x00; 0x00; 0x00; 0x00; 0x00; 0x00; 0x00; 0xFF];
   [0x30; 0x30; 0x18; 0x00; 0x00; 0x00; 0x00; 0x00]; [0x00; 0x00; 0x78; 0x0C; 0x7C; 0xCC; 0x76; 0x00];
   [0xE0; 0x60; 0x60; 0x7C; 0x66; 0x66; 0xDC; 0x00]; [0x00; 0x00; 0x78; 0xCC; 0xC0; 0xCC; 0x78; 0x00];
   [0x1C; 0x0C; 0x0C; 0x7C; 0xCC; 0xCC; 0x76; 0x00]; [0x00; 0x00; 0x78; 0xCC; 0xFC; 0xC0; 0x78; 0x00];
   [0x38; 0x6C; 0x60; 0xF0; 0x60; 0x60; 0xF0; 0x00]; [0x00; 0x00; 0x76; 0xCC; 0xCC; 0x7C; 0x0C; 0xF8];
   [0xE0; 0x60; 0x6C; 0x76; 0x66; 0x66; 0xE6; 0x00]; [0x30; 0x00; 0x70; 0x30; 0x30; 0x30; 0x78; 0x00];
   [0x0C; 0x00; 0x0C; 0x0C; 0x0C; 0xCC; 0xCC; 0x78]; [0xE0; 0x60; 0x66; 0x6C; 0x78; 0x6C; 0xE6; 0x00];
   [0x70; 0x30; 0x30; 0x30; 0x30; 0x30; 0x78; 0x00]; [0x00; 0x00; 0xCC; 0xFE; 0xFE; 0xD6; 0xC6; 0x00];
   [0x00; 0x00; 0xF8; 0xCC; 0xCC; 0xCC; 0xCC; 0x00]; [0x00; 0x00; 0x78; 0xCC; 0xCC; 0xCC; 0x78; 0x00];
   [0x00; 0x00; 0xDC; 0x66; 0x66; 0x7C; 0x60; 0xF0]; [0x00; 0x00; 0x76; 0xCC; 0xCC; 0x7C; 0x0C; 0x1E];
   [0x00; 0x00; 0xDC; 0x76; 0x66; 0x60; 0xF0; 0x00]; [0x00; 0x00; 0x7C; 0xC0; 0x78; 0x0C; 0xF8; 0x00];
   [0x10; 0x30; 0x7C; 0x30; 0x30; 0x34; 0x18; 0x00]; [0x00; 0x00; 0xCC; 0xCC; 0xCC; 0xCC; 0x76; 0x00];
   [0x00; 0x00; 0xCC; 0xCC; 0xCC; 0x78; 0x30; 0x00]; [0x00; 0x00; 0xC6; 0xD6; 0xFE; 0xFE; 0x6C; 0x00];
   [0x00; 0x00; 0xC6; 0x6C; 0x38; 0x6C; 0xC6; 0x00]; [0x00; 0x00; 0xCC; 0xCC; 0xCC; 0x7C; 0x0C; 0xF8];
   [0x00; 0x00; 0xFC; 0x98; 0x30; 0x64; 0xFC; 0x00]; [0x1C; 0x30; 0x30; 0xE0; 0x30; 0x30; 0x1C; 0x00];
   [0x18; 0x18; 0x18; 0x00; 0x18; 0x18; 0x18; 0x00]; [0xE0; 0x30; 0x30; 0x1C; 0x30; 0x30; 0xE0; 0x00];
   [0x76; 0xDC; 0x00; 0x00; 0x00; 0x00; 0x00; 0x00]; [0x00; 0x00; 0x00; 0x00; 0x00; 0x00; 0x00; 0x00]].

(** The loops that copy the built-in font, [n] glyphs from [i]. *)
Fixpoint builtin_copy (n : nat) (i : Z) (font : list (list Z)) : outcome (list (list Z)) :=
  match n with
  | O => Ret font
  | S n' =>
      g ← aget builtin_font i;
      old ← aget font i;
      font ← aset font i (g ++ drop 8 old);
      builtin_copy n' (i + 1) font
  end.

Definition FONT_PATH : list Z := lit "/usr/share/fonts/general.psf".

(** The result, system_font and system_font_height. *)
Definition init_vge_font {W} {E : VfsEnv W} (buffer : list Z) (v : vfs W) : outcome (vfs W * list Z * (Z * list (list Z) * Z)) :=
  '(v, b) ← vfs_exists FONT_PATH v;
  if negb b then
    font ← builtin_copy 256 0 zero_font; Ret (v, buffer, (-1, font, 8))
  else
    '(v, buffer, font, result) ← load_font_from_vfs FONT_PATH buffer zero_font v;
    if result =? 0 then Ret (v, buffer, (0, font, 16))
    else font ← builtin_copy 256 0 font; Ret (v, buffer, (-1, font, 8)).

(** ** The framebuffer *)

(** fb_info with the memory behind fb_addr and the font; the fields that no function
    reads (scroll_pixels, remaining_bytes and the like) are left out. *)
Record fb := mkfb {
  pixels : list Z;
  fb_width : Z;
  fb_height : Z;
  fb_pitch : Z;
  pitch_pixels : Z;
  bg_color : Z;
  fg_color : Z;
  cursor_x : Z;
  cursor_y : Z;
  char_width : Z;
  char_height : Z;
  initialized : bool;
  font_loaded : bool;
  screen_bytes : Z;
  system_font : list (list Z);
  system_font_height : Z;
  palette : list Z;
}.

Definition with_pixels (f : fb) px := mkfb px (fb_width f) (fb_height f) (fb_pitch f) (pitch_pixels f) (bg_color f)
  (fg_color f) (cursor_x f) (cursor_y f) (char_width f) (char_height f) (initialized f) (font_loaded f)
  (screen_bytes f) (system_font f) (system_font_height f) (palette f).
Definition with_cursor (f : fb) x y := mkfb (pixels f) (fb_width f) (fb_height f) (fb_pitch f) (pitch_pixels f) (bg_color f)
  (fg_color f) x y (char_width f) (char_height f) (initialized f) (font_loaded f)
  (screen_bytes f) (system_font f) (system_font_height f) (palette f).
Definition with_fb_colors (f : fb) bg fg := mkfb (pixels f) (fb_width f) (fb_height f) (fb_pitch f) (pitch_pixels f) bg
  fg (cursor_x f) (cursor_y f) (char_width f) (char_height f) (initialized f) (font_loaded f)
  (screen_bytes f) (system_font f) (system_font_height f) (palette f).
Definition with_font (f : fb) loaded font height := mkfb (pixels f) (fb_width f) (fb_height f) (fb_pitch f) (pitch_pixels f)
  (bg_color f) (fg_color f) (cursor_x f) (cursor_y f) (char_width f) (char_height f) (initialized f) loaded
  (screen_bytes f) font height (palette f).

Definition put_pixel (x y color : Z) (f : fb) : outcome fb :=
  if negb (initialized f) then Ret f else
  if (fb_width f <=? x) || (fb_height f <=? y) then Ret f else
  px ← aset (pixels f) (u64 (y * pitch_pixels f + x)) color; Ret (with_pixels f px).

(** The columns of one row of a glyph, [n] of them from [col]. *)
Fixpoint draw_cols (n : nat) (x y row_data col color : Z) (f : fb) : outcome fb :=
  match n with
  | O => Ret f
  | S n' =>
      f ← (if Z.testbit row_data (7 - col) then put_pixel (u32 (x + col)) y color f else Ret f);
      draw_cols n' x y row_data (col + 1) color f
  end.

Fixpoint draw_rows (n : nat) (x y row color : Z) (glyph : list Z) (f : fb) : outcome fb :=
  match n with
  | O => Ret f
  | S n' =>
      row_data ← aget glyph row;
      f ← draw_cols 8 x (u32 (y + row)) row_data 0 color f;
      draw_rows n' x y (row + 1) color glyph f
  end.

(** [c]: a byte; as a char it is negative from 128 on. *)
Definition draw_char_builtin (x y c color : Z) (f : fb) : outcome fb :=
  if 128 <=? c then Ret f else
  glyph ← aget builtin_font c; draw_rows 8 x y 0 color glyph f.

Definition draw_char_normal (x y c color : Z) (f : fb) : outcome fb :=
  if negb (initialized f) then Ret f else
  if 128 <=? c then Ret f else
  glyph ← aget (system_font f) c;
  let height_to_draw := if FONT_HEIGHT <? system_font_height f then FONT_HEIGHT else system_font_height f in
  draw_rows (Z.to_nat height_to_draw) x y 0 color glyph f.

(** put_pixel on [n] pixels of a row, and on [m] rows of them. *)
Fixpoint pixel_row (n : nat) (x y color : Z) (f : fb) : outcome fb :=
  match n with O => Ret f | S n' => f ← put_pixel (u32 x) y color f; pixel_row n' (x + 1) y color f end.

Fixpoint pixel_rows (m n : nat) (x y color : Z) (f : fb) : outcome fb :=
  match m with O => Ret f | S m' => f ← pixel_row n x (u32 y) color f; pixel_rows m' n x (y + 1) color f end.

Definition draw_rect (x y width height color : Z) (f : fb) : outcome fb :=
  if negb (initialized f) then Ret f else pixel_rows (Z.to_nat height) (Z.to_nat width) x y color f.

Definition clear_screen (f : fb) : outcome fb :=
  if negb (initialized f) then Ret f else
  f ← pixel_rows (Z.to_nat (fb_height f)) (Z.to_nat (fb_width f)) 0 0 (bg_color f) f;
  Ret (with_cursor f 0 0).

(** memset(p, b, 4) as a word. *)
Definition word_of_byte (b : Z) : Z := Z.lor (Z.lor b (Z.shiftl b 8)) (Z.lor (Z.shiftl b 16) (Z.shiftl b 24)).

Definition grey (c : Z) : bool :=
  (Z.land c 0xFF =? Z.land (Z.shiftr c 8) 0xFF) && (Z.land c 0xFF =? Z.land (Z.shiftr c 16) 0xFF) &&
  (Z.land c 0xFF =? Z.land (Z.shiftr c 24) 0xFF).

(** Sizes in bytes are a quarter of that in words of the pixel memory. *)
Definition newline (f : fb) : outcome fb :=
  if negb (initialized f) then Ret f else
  let f := with_cursor f 0 (u32 (cursor_y f + char_height f)) in
  if fb_height f <? u32 (cursor_y f + char_height f) then
    let bytes_to_move := u64 (screen_bytes f - u64 (char_height f * fb_pitch f)) in
    moved ← mem_read (pixels f) (u64 (char_height f * fb_pitch f) / 4) (bytes_to_move / 4);
    px ← mem_write (pixels f) 0 moved;
    let clear_pixels := u64 (char_height f * fb_width f) in
    let word := if grey (bg_color f) then word_of_byte (Z.land (bg_color f) 0xFF) else bg_color f in
    px ← mem_write px (bytes_to_move / 4) (replicate (Z.to_nat clear_pixels) word);
    Ret (with_cursor (with_pixels f px) 0 (u32 (fb_height f - char_height f)))
  else Ret f.

Definition fb_putchar (c color : Z) (f : fb) : outcome fb :=
  if negb (initialized f) then Ret f else
  if c =? 10 then newline f else
  if c =? 9 then Ret (with_cursor f (u32 (cursor_x f + u32 (char_width f * 4))) (cursor_y f)) else
  f ← (if fb_width f <? u32 (cursor_x f + char_width f) then newline f else Ret f);
  f ← (if negb (font_loaded f) then
         draw_char_builtin (cursor_x f) (u32 (cursor_y f + u32 (char_height f - 8) / 2)) c color f
       else draw_char_normal (cursor_x f) (u32 (cursor_y f + u32 (char_height f - system_font_height f) / 2)) c color f);
  Ret (with_cursor f (u32 (cursor_x f + char_width f)) (cursor_y f)).

Fixpoint putchars (str : list Z) (color : Z) (f : fb) : outcome fb :=
  match str with [] => Ret f | c :: str' => f ← fb_putchar c color f; putchars str' color f end.

Definition vgaprint (str : list Z) (color : Z) (f : fb) : outcome fb :=
  if negb (initialized f) then Ret f else
  fb_color ← palette_get_color (palette f) color; putchars str fb_color f.

Definition set_bg_color (color : Z) (f : fb) : fb := if initialized f then with_fb_colors f color (fg_color f) else f.
Definition set_fg_color (color : Z) (f : fb) : fb := if initialized f then with_fb_colors f (bg_color f) color else f.

Definition vga_backspace (f : fb) : outcome fb :=
  if negb (initialized f) then Ret f else
  if cursor_x f =? 0 then Ret f else
  let f := with_cursor f (u32 (cursor_x f - char_width f)) (cursor_y f) in
  let '(y_offset, height) :=
    if negb (font_loaded f) then (u32 (char_height f - 8) / 2, 8)
    else (u32 (char_height f - system_font_height f) / 2, u32 (system_font_height f)) in
  draw_rect (cursor_x f) (u32 (cursor_y f + y_offset)) (char_width f) height (bg_color f) f.

Definition set_cursor_pos (x y : Z) (f : fb) : fb :=
  if negb (initialized f) then f else
  let cx := u32 (x * char_width f) in
  let cy := u32 (y * char_height f) in
  with_cursor f (if fb_width f <=? cx then 0 else cx) (if fb_height f <=? cy then 0 else cy).

Definition get_screen_width_chars (f : fb) : Z := if initialized f then u32 (fb_width f / char_width f) else 0.
Definition get_screen_height_chars (f : fb) : Z := if initialized f then u32 (fb_height f / char_height f) else 0.
Definition get_cursor_pos (f : fb) : Z * Z :=
  if initialized f then (cursor_x f / char_width f, cursor_y f / char_height f) else (0, 0).
Definition get_fb_dimensions (f : fb) : Z * Z * Z := (u32 (fb_width f), u32 (fb_height f), u32 (fb_pitch f)).
Definition get_fb_pitch_pixels (f : fb) : Z := u32 (pitch_pixels f).

(** The loop of draw_line. *)
Fixpoint line_loop (fuel : nat) (x1 y1 x2 y2 dx dy sx sy err color : Z) (f : fb) : outcome fb :=
  match fuel with
  | O => OutOfFuel
  | S fuel' =>
      f ← put_pixel x1 y1 color f;
      if (x1 =? x2) && (y1 =? y2) then Ret f else
      let e2 := i32 (2 * err) in
      let '(err, x1) := if - dy <? e2 then (i32 (err - dy), u32 (x1 + sx)) else (err, x1) in
      let '(err, y1) := if e2 <? dx then (i32 (err + dx), u32 (y1 + sy)) else (err, y1) in
      line_loop fuel' x1 y1 x2 y2 dx dy sx sy err color f
  end.

Definition draw_line (fuel : nat) (x1 y1 x2 y2 color : Z) (f : fb) : outcome fb :=
  if negb (initialized f) then Ret f else
  let dx := i32 (if x1 <? x2 then x2 - x1 else x1 - x2) in
  let dy := i32 (if y1 <? y2 then y2 - y1 else y1 - y2) in
  let sx := if x1 <? x2 then 1 else -1 in
  let sy := if y1 <? y2 then 1 else -1 in
  line_loop fuel x1 y1 x2 y2 dx dy sx sy (i32 (dx - dy)) color f.

(** ** The panic screen

    A second view of the same memory, used when nothing else runs any more. *)

Record pfb := mkpfb { pfb_addr : option (list Z); pfb_width : Z; pfb_height : Z; pfb_pitch_px : Z; pfb_cur_x : Z; pfb_cur_y : Z }.

Definition panic_fb_init (addr : list Z) (w h pitch_px : Z) (p : pfb) : pfb :=
  mkpfb (Some addr) w h pitch_px (pfb_cur_x p) (pfb_cur_y p).

Definition PANIC_BG : Z := 0x0D1B2A.
Definition PANIC_FG : Z := 0xCDD6F4.
Definition PANIC_HL : Z := 0x89DCEB.
Definition PANIC_DIM : Z := 0x6C7086.

Definition with_pfb (p : pfb) px := mkpfb (Some px) (pfb_width p) (pfb_height p) (pfb_pitch_px p) (pfb_cur_x p) (pfb_cur_y p).
Definition with_pcur (p : pfb) x y := mkpfb (pfb_addr p) (pfb_width p) (pfb_height p) (pfb_pitch_px p) x y.

Definition pfb_putpixel (x y color : Z) (p : pfb) : outcome pfb :=
  match pfb_addr p with
  | None => Ret p
  | Some px =>
      if (pfb_width p <=? x) || (pfb_height p <=? y) then Ret p else
      px ← aset px (u32 (u32 (y * pfb_pitch_px p) + x)) color; Ret (with_pfb p px)
  end.

Fixpoint pfb_row (n : nat) (x y : Z) (p : pfb) : outcome pfb :=
  match n with
  | O => Ret p
  | S n' =>
      match pfb_addr p with
      | None => Fault NullDeref
      | Some px => px ← aset px (u32 (u32 (y * pfb_pitch_px p) + x)) PANIC_BG; pfb_row n' (x + 1) y (with_pfb p px)
      end
  end.

Fixpoint pfb_rows (m : nat) (y : Z) (p : pfb) : outcome pfb :=
  match m with O => Ret p | S m' => p ← pfb_row (Z.to_nat (pfb_width p)) 0 y p; pfb_rows m' (y + 1) p end.

Definition pfb_clear (p : pfb) : outcome pfb :=
  match pfb_addr p with
  | None => Ret p
  | Some _ => p ← pfb_rows (Z.to_nat (pfb_height p)) 0 p; Ret (with_pcur p 0 0)
  end.

Fixpoint pfb_cols (n : nat) (bits col fg y : Z) (p : pfb) : outcome pfb :=
  match n with
  | O => Ret p
  | S n' =>
      let color := if Z.testbit bits (7 - col) then fg else PANIC_BG in
      p ← pfb_putpixel (u32 (pfb_cur_x p + col)) y color p; pfb_cols n' bits (col + 1) fg y p
  end.

Fixpoint pfb_glyph (n : nat) (glyph : list Z) (row fg : Z) (p : pfb) : outcome pfb :=
  match n with
  | O => Ret p
  | S n' =>
      bits ← aget glyph row;
      p ← pfb_cols 8 bits 0 fg (u32 (pfb_cur_y p + row)) p;
      pfb_glyph n' glyph (row + 1) fg p
  end.

Definition pfb_putchar (c fg : Z) (p : pfb) : outcome pfb :=
  match pfb_addr p with
  | None => Ret p
  | Some _ =>
      if c =? 10 then Ret (with_pcur p 0 (u32 (pfb_cur_y p + 10))) else
      glyph ← aget builtin_font (if 128 <=? c then 63 else c);
      p ← pfb_glyph 8 glyph 0 fg p;
      let p := with_pcur p (u32 (pfb_cur_x p + 9)) (pfb_cur_y p) in
      Ret (if pfb_width p <? u32 (pfb_cur_x p + 9) then with_pcur p 0 (u32 (pfb_cur_y p + 10)) else p)
  end.

Fixpoint pfb_puts (s : list Z) (fg : Z) (p : pfb) : outcome pfb :=
  match s with [] => Ret p | c :: s' => p ← pfb_putchar c fg p; pfb_puts s' fg p end.

(** "0x" and 16 digits, the text of pfb_hex64 and serial_hex64; [n] digits left. *)
Fixpoint hex64_digits (n : nat) (v : Z) : list Z :=
  match n with
  | O => []
  | S i => let nib := Z.land (Z.shiftr v (4 * Z.of_nat i)) 0xF in
           (if nib <? 10 then 48 + nib else 97 + nib - 10) :: hex64_digits i v
  end.
Definition hex64 (v : Z) : list Z := [48; 120] ++ hex64_digits 16 v.
Definition pfb_hex64 (v fg : Z) (p : pfb) : outcome pfb := pfb_puts (hex64 v) fg p.

(** What panic and exception_halt put on the screen, as moves of the cursor and
    pieces of text. *)
Inductive screen_item := Down (dy : Z) | Words (s : string) (fg : Z) | Chars (s : list Z) (fg : Z) | Hex (v fg : Z).

Definition show_item (i : screen_item) (p : pfb) : outcome pfb :=
  match i with
  | Down dy => Ret (with_pcur p 8 (u32 (pfb_cur_y p + dy)))
  | Words s fg => pfb_puts (lit s) fg p
  | Chars s fg => pfb_puts s fg p
  | Hex v fg => pfb_hex64 v fg p
  end.

Fixpoint show_items (l : list screen_item) (p : pfb) : outcome pfb :=
  match l with [] => Ret p | i :: l' => p ← show_item i p; show_items l' p end.

Record interrupt_frame := mkframe { rip : Z; cs : Z; rflags : Z; rsp : Z; ss : Z }.
Record cpu_regs := mkregs {
  rax : Z; rbx : Z; rcx : Z; rdx : Z; rsi : Z; rdi : Z; rbp : Z;
  r8 : Z; r9 : Z; r10 : Z; r11 : Z; r12 : Z; r13 : Z; r14 : Z; r15 : Z;
}.

Definition pair_of (s : string) (v : Z) : list screen_item := [Words s PANIC_DIM; Hex v PANIC_FG].

Definition exception_screen (name : list Z) (frame : interrupt_frame) (error_code : option Z) (regs : option cpu_regs)
    (cr2 cr3 : Z) : list screen_item :=
  [Words ":( " PANIC_FG; Words "*** KERNEL PANIC ***" PANIC_HL; Down 14; Chars name PANIC_FG; Down 12;
   Words "-- CPU State --" PANIC_DIM; Down 12] ++
  pair_of "RIP    = " (rip frame) ++ pair_of "   CS     = " (cs frame) ++ [Down 10] ++
  pair_of "RFLAGS = " (rflags frame) ++ pair_of "   RSP    = " (rsp frame) ++ [Down 10] ++
  pair_of "SS     = " (ss frame) ++ pair_of "   CR2    = " cr2 ++ [Down 10] ++
  pair_of "CR3    = " cr3 ++
  match error_code with Some e => pair_of "   ERR    = " e | None => [] end ++
  match regs with
  | Some r =>
      [Down 12; Words "-- General-Purpose Registers --" PANIC_DIM; Down 12] ++
      pair_of "RAX = " (rax r) ++ pair_of "  RBX = " (rbx r) ++ pair_of "  RCX = " (rcx r) ++ [Down 10] ++
      pair_of "RDX = " (rdx r) ++ pair_of "  RSI = " (rsi r) ++ pair_of "  RDI = " (rdi r) ++ [Down 10] ++
      pair_of "RBP = " (rbp r) ++ pair_of "  R8  = " (r8 r) ++ pair_of "  R9  = " (r9 r) ++ [Down 10] ++
      pair_of "R10 = " (r10 r) ++ pair_of "  R11 = " (r11 r) ++ pair_of "  R12 = " (r12 r) ++ [Down 10] ++
      pair_of "R13 = " (r13 r) ++ pair_of "  R14 = " (r14 r) ++ pair_of "  R15 = " (r15 r)
  | None => []
  end ++
  [Down 16; Words "Please report this issue at https://github.com/novariaos/novariaos-src" PANIC_DIM; Down 12;
   Words "NovariaOS  |  System halted" PANIC_HL].

(** What exception_halt writes to the serial line. *)
Definition line_of (s : string) (v : Z) : list Z := lit s ++ hex64 v ++ [10].

Definition exception_serial (name : list Z) (frame : interrupt_frame) (error_code : option Z) (regs : option cpu_regs)
    (cr2 cr3 : Z) : list Z :=
  [10; 10] ++ lit ":( *** KERNEL PANIC ***" ++ [10] ++ name ++ [10; 10] ++
  line_of "RIP    = " (rip frame) ++ line_of "CS     = " (cs frame) ++ line_of "RFLAGS = " (rflags frame) ++
  line_of "RSP    = " (rsp frame) ++ line_of "SS     = " (ss frame) ++ line_of "CR2    = " cr2 ++ line_of "CR3    = " cr3 ++
  match error_code with Some e => line_of "ERR    = " e | None => [] end ++
  match regs with
  | Some r =>
      line_of "RAX    = " (rax r) ++ line_of "RBX    = " (rbx r) ++ line_of "RCX    = " (rcx r) ++ line_of "RDX    = " (rdx r) ++
      line_of "RSI    = " (rsi r) ++ line_of "RDI    = " (rdi r) ++ line_of "RBP    = " (rbp r) ++ line_of "R8     = " (r8 r) ++
      line_of "R9     = " (r9 r) ++ line_of "R10    = " (r10 r) ++ line_of "R11    = " (r11 r) ++ line_of "R12    = " (r12 r) ++
      line_of "R13    = " (r13 r) ++ line_of "R14    = " (r14 r) ++ line_of "R15    = " (r15 r)
  | None => []
  end ++
  [10] ++ lit "Please report this issue at https://github.com/novariaos/novariaos-src" ++ [10] ++
  lit "System halted. -- NovariaOS" ++ [10].

Section Panic.
Context {C : Type} {P : CmosPorts C}.
Implicit Types c : C.

(** Up to the loop that halts the processor. *)
Definition exception_halt (fuel : nat) (name : list Z) (frame : interrupt_frame) (error_code : option Z)
    (regs : option cpu_regs) (cr2 cr3 : Z) (p : pfb) c : outcome (pfb * C) :=
  c ← serial_print fuel (exception_serial name frame error_code regs cr2 cr3) c;
  p ← pfb_clear p;
  p ← show_items (exception_screen name frame error_code regs cr2 cr3) (with_pcur p 8 16);
  Ret (p, c).

Definition panic (fuel : nat) (message : list Z) (p : pfb) c : outcome (pfb * C) :=
  c ← serial_print fuel ([10] ++ lit "KERNEL PANIC: " ++ message ++ [10]) c;
  match pfb_addr p with
  | None => Ret (p, c)
  | Some _ =>
      p ← pfb_clear p;
      p ← show_items [Words ":( " PANIC_FG; Words "KERNEL PANIC" PANIC_HL; Down 14; Chars message PANIC_FG] (with_pcur p 8 16);
      Ret (p, c)
  end.
End Panic.

(** ** The framebuffer as the terminal *)

Definition vge_tty_driver : tty_driver fb := mktty (Some vgaprint) (Some clear_screen).

(** The first framebuffer of the boot loader: its memory, width, height and pitch. *)
Record limine_framebuffer := mklfb { l_memory : list Z; l_width : Z; l_height : Z; l_pitch : Z }.

Definition init_fb (response : option limine_framebuffer) (f : fb) (t : tty fb) (p : pfb) : outcome (fb * tty fb * pfb) :=
  match response with
  | None => Ret (f, t, p)
  | Some l =>
      let px := l_pitch l / 4 in
      let f := mkfb (l_memory l) (l_width l) (l_height l) (l_pitch l) px 0x0a0a0a 0xe6e6e6 0 0 8 16 true false
                 (u64 (l_height l * l_pitch l)) (system_font f) (system_font_height f) (palette f) in
      let p := panic_fb_init (l_memory l) (u32 (l_width l)) (u32 (l_height l)) (u32 px) p in
      '(t, f) ← tty_register_driver (Some vge_tty_driver) t f;
      f ← vgaprint (lit ":: Video subsystem initialized" ++ [10]) 7 f;
      Ret (f, t, p)
  end.

Definition fb_set_font_loaded (f : fb) : outcome fb :=
  vgaprint [] 0 (with_font f true (system_font f) (system_font_height f)).
