(* ===== verification/ConsoleProofs.v ===== *)
(** * The console: theorems

    [kprint_colors]: every character that kprint prints reaches the driver in the
    colour that was asked for; [console_safe]: no text, whatever its bytes, makes the
    terminal or the framebuffer leave its memory; [newline_scrolls]: the picture moves
    up; [draw_line_connects]: draw_line ends, after the points of a connected line;
    [psf_font]: a font file is decoded without a read outside it; [palette_safe]: the
    same for the palette; [builtin_font_overrun]: the copy of the built-in font
    leaves its table. *)

From stdpp Require Import strings.
From S2P Require Import Prelude Rtc Vfs Kstd KstdProofs Bytes Text Console.

#[local] Open Scope Z_scope.

(** ** The terminal *)

Lemma byte_split color : Z.lor (Z.shiftl (Z.land (Z.shiftr color 4) 15) 4) (Z.land color 15) = Z.land color 255.
Proof.
  change 255 with (Z.ones 8). change 15 with (Z.ones 4). apply Z.bits_inj'. intros n Hn.
  rewrite Z.lor_spec, (Z.land_spec color (Z.ones 4)), (Z.land_spec color (Z.ones 8)), !Z.testbit_ones by lia.
  destruct (Z.lt_ge_cases n 4).
  - rewrite Z.shiftl_spec_low by lia. rewrite (proj2 (Z.ltb_lt n 4)), (proj2 (Z.ltb_lt n 8)) by lia. done.
  - rewrite Z.shiftl_spec_high, Z.land_spec, Z.shiftr_spec, Z.testbit_ones by lia. replace (n - 4 + 4) with n by lia.
    rewrite (proj2 (Z.ltb_ge n 4)), (proj2 (Z.leb_le 0 n)), (proj2 (Z.leb_le 0 (n - 4))) by lia. cbn [andb].
    rewrite andb_false_r, orb_false_r. destruct (Z.ltb_spec (n - 4) 4), (Z.ltb_spec n 8); lia || done.
Qed.

Section Tty.
Context {W : Type}.
Implicit Types (t : tty W) (w : W) (puts : list Z -> Z -> W -> outcome W).

Lemma tty_chars_app puts s1 s2 t w :
  tty_chars puts (s1 ++ s2) t w = ('(t, w) ← tty_chars puts s1 t w; tty_chars puts s2 t w).
Proof.
  revert t w. induction s1 as [|c s1 IH]; intros t w; cbn [tty_chars app]; [done|].
  destruct (tty_char puts c t w) as [[t' w']| |]; cbn [mbind outcome_bind]; done.
Qed.

(** The state between two sequences. *)
Record tty_idle t : Prop := {
  ti_state : escape_state t = 0;
  ti_params : length (params t) = 16%nat;
}.

(** The state inside a sequence, with the parameters [ps] complete and [cp] begun. *)
Record tty_inside t (ps : list Z) (cp : Z) : Prop := {
  tn_state : escape_state t = 2;
  tn_cp : current_param t = cp;
  tn_count : param_count t = len ps;
  tn_params : exists rest, params t = ps ++ rest /\ length (params t) = 16%nat;
}.

Definition digit_ok (c : Z) : Prop := CH_0 <= c < CH_0 + 10.
Definition dec_from (cp : Z) (ds : list Z) : Z := fold_left (fun acc c => acc * 10 + (c - CH_0)) ds cp.

Lemma dec_from_mono ds : Forall digit_ok ds -> forall cp, 0 <= cp -> cp <= dec_from cp ds.
Proof.
  induction 1 as [|d ds Hd _ IH]; intros cp Hcp; [done|]. unfold digit_ok, CH_0 in Hd.
  unfold dec_from. cbn [fold_left]. unfold CH_0. specialize (IH (cp * 10 + (d - 48)) ltac:(lia)). unfold dec_from, CH_0 in IH. lia.
Qed.

(** The digits of a parameter. *)
Lemma tty_digits puts ds : Forall digit_ok ds -> forall t ps cp,
  tty_inside t ps cp -> 0 <= cp -> dec_from cp ds < 2 ^ 31 ->
  exists t', (forall w, tty_chars puts ds t w = Ret (t', w)) /\ current_driver t' = current_driver t /\
  current_fg t' = current_fg t /\ current_bg t' = current_bg t /\ tty_inside t' ps (dec_from cp ds).
Proof.
  induction 1 as [|d ds Hd Hds IH]; intros t ps cp Ht Hcp Hb; [by exists t|].
  destruct Ht as [H1 H2 H3 H4].
  unfold digit_ok, CH_0 in Hd. unfold dec_from in *. cbn [fold_left] in *. unfold CH_0 in Hb |- *.
  pose proof (dec_from_mono ds Hds (cp * 10 + (d - 48)) ltac:(lia)) as Hm. unfold dec_from, CH_0 in Hm.
  change (2 ^ 31) with 2147483648 in *.
  destruct (IH (with_param t (i32 (current_param t * 10 + (d - 48))) (params t) (param_count t)) ps (cp * 10 + (d - 48))) as (t' & E & Hd' & Hf & Hg & Hin).
  - split; cbn; try done. rewrite H2. apply i32_id. lia.
  - lia.
  - exact Hb.
  - exists t'. split; [|by rewrite Hd', Hf, Hg]. intros w. cbn [tty_chars]. unfold tty_char. rewrite H1. cbn [Z.eqb Pos.eqb].
    rewrite (proj2 (Z.leb_le 48 d)), (proj2 (Z.leb_le d 57)) by lia. apply E.
Qed.

Lemma push_param_ok t ps cp : tty_inside t ps cp -> len ps < 16 ->
  exists t', push_param t = Ret t' /\ current_driver t' = current_driver t /\
  current_fg t' = current_fg t /\ current_bg t' = current_bg t /\ tty_inside t' (ps ++ [cp]) cp.
Proof.
  intros [H1 H2 H3 [rest [Hp Hl]]] Hlt. unfold push_param. rewrite H3, (proj2 (Z.ltb_lt _ _)) by lia.
  unfold len in *. rewrite aset_in_bounds by (unfold len; lia). cbn [mbind outcome_bind].
  eexists. split; [done|]. split_and!; [done..|]. split; cbn; try done.
  - unfold len. rewrite length_app. cbn [length]. lia.
  - rewrite length_insert. destruct rest as [|r rest]; [rewrite Hp, app_nil_r in Hl; lia|].
    exists rest. split; [|done]. rewrite Hp, Nat2Z.id, insert_app_r_alt, Nat.sub_diag by lia. cbn. by rewrite <- app_assoc, H2.
Qed.

(** The colours that a list of parameters leaves. *)
Definition apply_all t (ps : list Z) : tty W := fold_left apply_param ps t.

Lemma apply_param_keeps t p :
  current_driver (apply_param t p) = current_driver t /\ escape_state (apply_param t p) = escape_state t /\
  params (apply_param t p) = params t /\ param_count (apply_param t p) = param_count t.
Proof. unfold apply_param. repeat case_match; done. Qed.

Lemma params_loop_ok ps : forall n i t done_ rest,
  params t = done_ ++ ps ++ rest -> i = len done_ -> n = length ps ->
  params_loop n i t = Ret (apply_all t ps).
Proof.
  induction ps as [|p ps IH]; intros n i t done_ rest Hp -> ->; cbn [length params_loop]; [done|].
  rewrite (aget_lookup (params t) (len done_) p); [|unfold len; lia|rewrite Hp; unfold len; rewrite Nat2Z.id, lookup_app_r, Nat.sub_diag by lia; done].
  cbn [mbind outcome_bind]. rewrite (IH _ _ _ (done_ ++ [p]) rest); [done| | |done].
  - destruct (apply_param_keeps t p) as (_ & _ & -> & _). rewrite Hp, <- !app_assoc. done.
  - unfold len. rewrite length_app. cbn [length]. lia.
Qed.

Lemma apply_all_keeps ps : forall t,
  current_driver (apply_all t ps) = current_driver t /\ params (apply_all t ps) = params t.
Proof.
  induction ps as [|p ps IH]; intros t; [done|]. cbn [apply_all fold_left]. destruct (IH (apply_param t p)) as [H1 H2].
  destruct (apply_param_keeps t p) as (K1 & _ & K3 & _). unfold apply_all in *. by rewrite H1, H2, K1, K3.
Qed.

(** ** Colour sequences *)

(** The digits of the parameters, separated by semicolons. *)
Fixpoint sgr_body (l : list (list Z)) : list Z :=
  match l with [] => [109] | [ds] => ds ++ [109] | ds :: l' => ds ++ [59] ++ sgr_body l' end.
Definition sgr (l : list (list Z)) : list Z := [27; 91] ++ sgr_body l.

(** What a parameter means for foreground and background. *)
Definition color_param (c : Z * Z) (p : Z) : Z * Z :=
  if (30 <=? p) && (p <=? 37) then (p - 30, c.2)
  else if (40 <=? p) && (p <=? 47) then (c.1, p - 40)
  else if (90 <=? p) && (p <=? 97) then (p - 82, c.2)
  else if (100 <=? p) && (p <=? 107) then (c.1, p - 92)
  else if p =? 0 then (7, 0)
  else if p =? 39 then (7, c.2)
  else if p =? 49 then (c.1, 0)
  else c.

Definition colors t : Z * Z := (current_fg t, current_bg t).

Lemma apply_all_colors ps : forall t, colors (apply_all t ps) = fold_left color_param ps (colors t).
Proof.
  induction ps as [|p ps IH]; intros t; [done|]. cbn [apply_all fold_left]. unfold apply_all in IH. rewrite IH. f_equal.
  unfold apply_param, color_param, colors. repeat case_match; cbn; try done; f_equal; lia.
Qed.

Lemma sgr_end puts t ps cp : tty_inside t ps cp -> len ps < 16 ->
  exists t', (forall w, tty_chars puts [109] t w = Ret (t', w)) /\ current_driver t' = current_driver t /\ tty_idle t' /\
  colors t' = fold_left color_param (ps ++ [cp]) (colors t).
Proof.
  intros Ht Hl. destruct (push_param_ok t ps cp Ht Hl) as (t1 & Ep & Hd & Hf & Hb & [H1 H2 H3 [rest [Hp Hl1]]]).
  destruct (apply_all_keeps (ps ++ [cp]) t1) as [K1 K2]. exists (with_escape (apply_all t1 (ps ++ [cp])) 0 0 0). split_and!.
  - intros w. cbn [tty_chars]. unfold tty_char. rewrite (tn_state _ _ _ Ht).
    cbn [Z.eqb Pos.eqb Z.leb Z.compare Pos.compare Pos.compare_cont andb]. rewrite Ep. cbn [mbind outcome_bind].
    rewrite (params_loop_ok (ps ++ [cp]) _ 0 t1 [] rest); [done|done|done|unfold len in H3; lia].
  - by cbn; rewrite K1.
  - split; cbn; [done|by rewrite K2].
  - change (colors (with_escape ?x 0 0 0)) with (colors x). rewrite apply_all_colors. unfold colors. by rewrite Hf, Hb.
Qed.

Lemma tty_sgr_body puts l : l <> [] -> Forall (fun ds => Forall digit_ok ds /\ decimal ds < 2 ^ 31) l -> forall t ps,
  tty_inside t ps 0 -> len ps + len l <= 16 ->
  exists t', (forall w, tty_chars puts (sgr_body l) t w = Ret (t', w)) /\ current_driver t' = current_driver t /\ tty_idle t' /\
  colors t' = fold_left color_param (ps ++ map decimal l) (colors t).
Proof.
  intros Hne Hl. induction Hl as [|ds l [Hd1 Hd2] Hl IH]; [done|]. intros t ps Ht Hlen.
  destruct (tty_digits puts ds Hd1 t ps 0 Ht ltac:(lia) Hd2) as (t1 & E1 & K1 & K2 & K3 & Hin).
  change (dec_from 0 ds) with (decimal ds) in Hin.
  assert (colors t1 = colors t) as Kc by (unfold colors; by rewrite K2, K3).
  unfold len in Hlen. cbn [length] in Hlen. destruct l as [|ds' l].
  - destruct (sgr_end puts t1 ps (decimal ds) Hin ltac:(unfold len; lia)) as (t2 & E2 & Kd & Hi & Hc).
    exists t2. rewrite Kd, K1, Hc, Kc. split_and!; try done. intros w. cbn [sgr_body]. rewrite tty_chars_app, E1. apply E2.
  - destruct (push_param_ok t1 ps (decimal ds) Hin ltac:(unfold len; lia)) as (t2 & Ep & Hd & Hf & Hb & Hin2).
    destruct (IH ltac:(done) (with_param t2 0 (params t2) (param_count t2)) (ps ++ [decimal ds])) as (t3 & E3 & Kd & Hi & Hc).
    { destruct Hin2. by split. }
    { unfold len. rewrite length_app. cbn [length]. cbn [length] in Hlen. lia. }
    exists t3. rewrite Kd, Hc. cbn [with_param current_driver]. rewrite Hd, K1. split_and!; try done.
    + intros w. change (sgr_body (ds :: ds' :: l)) with (ds ++ [59] ++ sgr_body (ds' :: l)).
      rewrite tty_chars_app, E1. cbn [mbind outcome_bind]. rewrite tty_chars_app. cbn [tty_chars]. unfold tty_char.
      rewrite (tn_state _ _ _ Hin). cbn [Z.eqb Pos.eqb Z.leb Z.compare Pos.compare Pos.compare_cont andb].
      rewrite Ep. cbn [mbind outcome_bind]. apply E3.
    + rewrite <- app_assoc. cbn [map app]. f_equal. unfold colors. cbn. by rewrite Hf, Hb, K2, K3.
Qed.

(** A sequence of up to 16 parameters sets the colours as its parameters say, in
    their order, prints nothing and leaves the terminal ready for text. *)
Lemma tty_sgr puts l t : l <> [] -> len l <= 16 -> Forall (fun ds => Forall digit_ok ds /\ decimal ds < 2 ^ 31) l ->
  tty_idle t ->
  exists t', (forall w, tty_chars puts (sgr l) t w = Ret (t', w)) /\ current_driver t' = current_driver t /\ tty_idle t' /\
  colors t' = fold_left color_param (map decimal l) (colors t).
Proof.
  intros Hne Hlen Hl [H1 H2].
  destruct (tty_sgr_body puts l Hne Hl (with_escape (with_escape t 1 0 0) 2 0 0) []) as (t' & E & Kd & Hi & Hc); [|unfold len in *; cbn [length]; lia|].
  { split; cbn; try done. by exists (params t). }
  exists t'. split_and!; [|done..]. intros w. unfold sgr. rewrite tty_chars_app. cbn [tty_chars]. unfold tty_char. rewrite H1. apply E.
Qed.

(** Text without an escape character goes to the driver, one character at a time. *)
Fixpoint print_each puts (str : list Z) (code : Z) w : outcome W :=
  match str with [] => Ret w | c :: str' => w ← puts [c] code w; print_each puts str' code w end.

Lemma tty_text puts str t w : Forall (fun c => c <> 27) str -> escape_state t = 0 ->
  tty_chars puts str t w = (w ← print_each puts str (Z.lor (Z.shiftl (current_bg t) 4) (current_fg t)) w; Ret (t, w)).
Proof.
  intros Hs H0. revert w. induction Hs as [|c str Hc _ IH]; intros w; cbn [tty_chars print_each]; [done|].
  unfold tty_char. rewrite H0. cbn [Z.eqb]. rewrite (proj2 (Z.eqb_neq c 27) Hc).
  destruct (puts [c] _ w) as [w'| |]; cbn [mbind outcome_bind]; [apply IH|done..].
Qed.

Lemma kprint_sgr color : exists l, kprint_escape color = sgr l /\ l <> [] /\ len l <= 16 /\
  Forall (fun ds => Forall digit_ok ds /\ decimal ds < 2 ^ 31) l /\
  forall c, fold_left color_param (map decimal l) c = (Z.land color 15, Z.land (Z.shiftr color 4) 15).
Proof.
  unfold kprint_escape. set (fg := Z.land color 15). set (bg := Z.land (Z.shiftr color 4) 15).
  assert (0 <= fg < 16) as Hf by (unfold fg; change 15 with (Z.ones 4); rewrite Z.land_ones by lia; apply Z.mod_pos_bound; lia).
  assert (0 <= bg < 16) as Hb by (unfold bg; change 15 with (Z.ones 4); rewrite Z.land_ones by lia; apply Z.mod_pos_bound; lia).
  clearbody fg bg. exists [if fg <? 8 then [51; CH_0 + fg] else [57; CH_0 + (fg - 8)];
    if bg <? 8 then [52; CH_0 + bg] else [49; CH_0; CH_0 + (bg - 8)]].
  split; [by destruct (fg <? 8), (bg <? 8)|]. split_and!; [done|done| |].
  - unfold digit_ok, decimal, CH_0. destruct (Z.ltb_spec fg 8), (Z.ltb_spec bg 8);
      repeat constructor; cbn [fold_left]; try lia; change (2 ^ 31) with 2147483648; lia.
  - intros c. unfold decimal, CH_0. cbn [map fold_left].
    destruct (Z.ltb_spec fg 8), (Z.ltb_spec bg 8); cbn [fold_left]; unfold color_param; repeat (case_match; cbn [fst snd]; try lia); f_equal; lia.
Qed.

Lemma tty_puts_on (d : tty_driver W) puts str t w :
  current_driver t = Some d -> drv_puts d = Some puts -> tty_puts str t w = tty_chars puts str t w.
Proof. intros Hd Hp. unfold tty_puts. by rewrite Hd, Hp. Qed.

(** C23. kprint and the terminal agree on colours.  From a terminal between two
    sequences, with any driver, kprint hands every character of a text without
    escape characters to the driver in order, each with the colour that was asked for
    (foreground in the low and background in the high four bits), prints nothing else,
    and leaves the terminal between two sequences with the default colours, so that
    the next call starts from the same state. *)
Theorem kprint_colors (d : tty_driver W) puts (t : tty W) (str : list Z) (color : Z) (w : W) :
  current_driver t = Some d -> drv_puts d = Some puts -> tty_idle t -> Forall (fun c => c <> 27) str ->
  exists t', tty_puts_all (kprint str color) t w = (w' ← print_each puts str (Z.land color 255) w; Ret (t', w')) /\
  current_driver t' = Some d /\ tty_idle t' /\ colors t' = (7, 0).
Proof.
  intros Hd Hp Hi Hs. destruct (kprint_sgr color) as (l & El & Hne & Hlen & Hl & Hc).
  unfold kprint. cbn [tty_puts_all]. rewrite (tty_puts_on d puts _ t w Hd Hp), El.
  destruct (tty_sgr puts l t Hne Hlen Hl Hi) as (t1 & -> & Kd & Hi1 & Hc1). cbn [mbind outcome_bind].
  rewrite (tty_puts_on d puts _ t1 w ltac:(congruence) Hp), (tty_text puts str t1 w Hs (ti_state _ Hi1)).
  rewrite Hc in Hc1. injection Hc1 as Hfg Hbg. rewrite Hfg, Hbg.
  replace (Z.lor (Z.shiftl (Z.land (Z.shiftr color 4) 15) 4) (Z.land color 15)) with (Z.land color 255).
  2:{ symmetry. apply byte_split. }
  destruct (tty_sgr puts [[48]] t1) as (t2 & E2 & Kd2 & Hi2 & Hc2); [done|done|repeat constructor; cbn; try done; lia|done|].
  exists t2. rewrite Kd2, Kd. split_and!; [|done|done|by rewrite Hc2].
  destruct (print_each puts str (Z.land color 255) w) as [w'| |]; [|done..]. cbn [mbind outcome_bind].
  rewrite (tty_puts_on d puts _ t1 w' ltac:(congruence) Hp). change [27; 91; 48; 109] with (sgr [[48]]). by rewrite E2.
Qed.
End Tty.

(** ** The framebuffer stays in its memory *)

Record fb_ok (f : fb) : Prop := {
  ok_init : initialized f = true;
  ok_width : 0 < fb_width f <= pitch_pixels f;
  ok_height : 16 <= fb_height f < 2 ^ 30;
  ok_pp : pitch_pixels f < 2 ^ 30;
  ok_pitch : fb_pitch f = 4 * pitch_pixels f;
  ok_bytes : screen_bytes f = fb_height f * fb_pitch f;
  ok_mem : len (pixels f) = fb_height f * pitch_pixels f;
  ok_char : char_width f = 8 /\ char_height f = 16;
  ok_cursor : 0 <= cursor_x f < 2 ^ 32 /\ 0 <= cursor_y f /\ cursor_y f + 16 <= fb_height f;
  ok_palette : length (palette f) = 16%nat;
  ok_font : length (system_font f) = 256%nat /\ Forall (fun g => length g = 16%nat) (system_font f);
  ok_fheight : 0 <= system_font_height f <= 16;
}.

(** [f'] is [f] with other pixels. *)
Definition repaint (f f' : fb) : Prop := exists px, f' = with_pixels f px /\ length px = length (pixels f).

Lemma repaint_refl f : repaint f f.
Proof. exists (pixels f). split; [by destruct f|done]. Qed.

Lemma repaint_trans f g h : repaint f g -> repaint g h -> repaint f h.
Proof. intros (px & -> & H1) (py & -> & H2). exists py. split; [done|]. cbn in H2. congruence. Qed.

Lemma repaint_ok f f' : repaint f f' -> fb_ok f -> fb_ok f'.
Proof. intros (px & -> & Hl) [H1 H2 H3 H4 H5 H6 H7 H8 H9 H10 H11 H12]. split; cbn; try done. unfold len in *. by rewrite Hl. Qed.

#[local] Hint Resolve repaint_refl : core.

Lemma pixel_index f x y : fb_ok f -> 0 <= x < fb_width f -> 0 <= y < fb_height f ->
  u64 (y * pitch_pixels f + x) = y * pitch_pixels f + x /\ 0 <= y * pitch_pixels f + x < len (pixels f).
Proof.
  intros [H1 H2 H3 H4 H5 H6 H7 H8 H9 H10 H11 H12] Hx Hy. change (2 ^ 30) with 1073741824 in *. rewrite H7.
  assert (y * pitch_pixels f + x < fb_height f * pitch_pixels f) by nia.
  split; [|split; [nia|done]]. apply u64_id. split; [nia|]. assert (fb_height f * pitch_pixels f <= 1073741824 * 1073741824) by nia. lia.
Qed.

Lemma put_pixel_ok x y color f : fb_ok f -> 0 <= x -> 0 <= y -> runs_to (put_pixel x y color f) (repaint f).
Proof.
  intros Hf Hx Hy. unfold put_pixel. rewrite (ok_init _ Hf). cbn [negb].
  destruct (Z.leb_spec (fb_width f) x), (Z.leb_spec (fb_height f) y); cbn [orb]; try exact (repaint_refl f).
  destruct (pixel_index f x y Hf) as [-> Hi]; [lia..|]. rewrite aset_in_bounds by done. cbn [mbind outcome_bind runs_to].
  eexists. split; [done|]. apply length_insert.
Qed.

(** A loop whose body repaints, repaints. *)
Lemma repaint_bind f (m : outcome fb) (k : fb -> outcome fb) :
  fb_ok f -> runs_to m (repaint f) -> (forall g, fb_ok g -> runs_to (k g) (repaint g)) ->
  runs_to (m ≫= k) (repaint f).
Proof.
  intros Hf Hm Hk. eapply runs_to_bind; [exact Hm|]. intros g Hg. cbn beta in Hg.
  eapply runs_to_mono; [apply Hk; by eapply repaint_ok|]. intros h. by apply repaint_trans.
Qed.

Lemma draw_cols_ok n : forall x y data col color f, fb_ok f -> 0 <= y -> runs_to (draw_cols n x y data col color f) (repaint f).
Proof.
  induction n as [|n IH]; intros x y data col color f Hf Hy; cbn [draw_cols]; [exact (repaint_refl f)|].
  apply repaint_bind; [done| |by intros; apply IH].
  destruct (Z.testbit data (7 - col)); [|exact (repaint_refl f)]. apply put_pixel_ok; [done|apply u32_range|done].
Qed.

Lemma draw_rows_ok n : forall x y row color glyph f, fb_ok f -> 0 <= row -> row + Z.of_nat n <= len glyph ->
  runs_to (draw_rows n x y row color glyph f) (repaint f).
Proof.
  induction n as [|n IH]; intros x y row color glyph f Hf Hr Hn; cbn [draw_rows]; [exact (repaint_refl f)|].
  destruct (aget_in_bounds glyph row ltac:(lia)) as (d & -> & _). cbn [mbind outcome_bind].
  apply repaint_bind; [done|apply draw_cols_ok; [done|apply u32_range]|]. intros g Hg. apply IH; [done|lia|lia].
Qed.

Lemma pixel_row_ok n : forall x y color f, fb_ok f -> 0 <= y -> runs_to (pixel_row n x y color f) (repaint f).
Proof.
  induction n as [|n IH]; intros x y color f Hf Hy; cbn [pixel_row]; [exact (repaint_refl f)|].
  apply repaint_bind; [done|apply put_pixel_ok; [done|apply u32_range|done]|]. intros g Hg. by apply IH.
Qed.

Lemma pixel_rows_ok m n : forall x y color f, fb_ok f -> runs_to (pixel_rows m n x y color f) (repaint f).
Proof.
  induction m as [|m IH]; intros x y color f Hf; cbn [pixel_rows]; [exact (repaint_refl f)|].
  apply repaint_bind; [done|apply pixel_row_ok; [done|apply u32_range]|]. intros g Hg. by apply IH.
Qed.

Lemma builtin_glyphs c : 0 <= c < 128 -> exists g, aget builtin_font c = Ret g /\ len g = 8.
Proof.
  intros Hc. pose proof (by_cases 128 (fun c => match aget builtin_font c with Ret g => len g =? 8 | _ => false end)
    ltac:(vm_compute; reflexivity) c Hc) as H. cbn beta in H. destruct (aget builtin_font c) as [g| |]; [|done..]. exists g. split; [done|lia].
Qed.

Lemma draw_builtin_ok x y c color f : fb_ok f -> 0 <= c -> runs_to (draw_char_builtin x y c color f) (repaint f).
Proof.
  intros Hf Hc. unfold draw_char_builtin. destruct (Z.leb_spec 128 c); [exact (repaint_refl f)|].
  destruct (builtin_glyphs c ltac:(lia)) as (g & -> & Hg). cbn [mbind outcome_bind]. apply draw_rows_ok; [done|lia|lia].
Qed.

Lemma draw_normal_ok x y c color f : fb_ok f -> 0 <= c -> runs_to (draw_char_normal x y c color f) (repaint f).
Proof.
  intros Hf Hc. unfold draw_char_normal. rewrite (ok_init _ Hf). cbn [negb]. destruct (Z.leb_spec 128 c); [exact (repaint_refl f)|].
  destruct (ok_font _ Hf) as [Hl Hg]. destruct (aget_in_bounds (system_font f) c) as (g & -> & Hgl); [unfold len; lia|].
  cbn [mbind outcome_bind]. rewrite Forall_lookup in Hg. apply Hg in Hgl. pose proof (ok_fheight _ Hf).
  apply draw_rows_ok; [done|lia|]. unfold len. rewrite Hgl. unfold FONT_HEIGHT. destruct (Z.ltb_spec 16 (system_font_height f)); lia.
Qed.

(** Cursor moves keep the invariant. *)
Lemma cursor_ok f x y : fb_ok f -> 0 <= x < 2 ^ 32 -> 0 <= y -> y + 16 <= fb_height f -> fb_ok (with_cursor f x y).
Proof. intros [H1 H2 H3 H4 H5 H6 H7 H8 H9 H10 H11 H12] Hx Hy Hy2. by split. Qed.

(** Everything but the pixels and the cursor is unchanged. *)
Definition same_screen (f f' : fb) : Prop :=
  fb_width f' = fb_width f /\ fb_height f' = fb_height f /\ pitch_pixels f' = pitch_pixels f /\ bg_color f' = bg_color f /\
  palette f' = palette f /\ system_font f' = system_font f.

(** The pixels of a screen that was scrolled by one line of text. *)
Definition scrolled (f : fb) : list Z :=
  drop (Z.to_nat (16 * pitch_pixels f)) (pixels f)
  ++ replicate (Z.to_nat (16 * fb_width f)) (if grey (bg_color f) then word_of_byte (Z.land (bg_color f) 0xFF) else bg_color f)
  ++ drop (Z.to_nat ((fb_height f - 16) * pitch_pixels f + 16 * fb_width f)) (pixels f).

Lemma length_scrolled f : fb_ok f -> length (scrolled f) = length (pixels f).
Proof.
  intros [H1 H2 H3 H4 H5 H6 H7 H8 H9 H10 H11 H12]. unfold scrolled, len in *. change (2 ^ 30) with 1073741824 in *.
  rewrite !length_app, !length_drop, length_replicate.
  assert (16 * pitch_pixels f <= fb_height f * pitch_pixels f) by nia.
  assert (16 * fb_width f <= 16 * pitch_pixels f) by lia. lia.
Qed.

Lemma newline_eq f : fb_ok f ->
  newline f = Ret (if fb_height f <? cursor_y f + 32 then with_cursor (with_pixels f (scrolled f)) 0 (fb_height f - 16)
                   else with_cursor f 0 (cursor_y f + 16)).
Proof.
  intros Hf. destruct Hf as [H1 H2 H3 H4 H5 H6 H7 [H8 H8'] H9 H10 H11 H12]. unfold newline. rewrite H1, H8'. cbn [negb].
  change (2 ^ 30) with 1073741824 in *. change (2 ^ 32) with 4294967296 in *.
  rewrite (u32_id (cursor_y f + 16)) by lia. cbn [cursor_y char_height with_cursor fb_height]. rewrite H8', (u32_id (cursor_y f + 16 + 16)) by lia.
  replace (cursor_y f + 16 + 16) with (cursor_y f + 32) by lia. destruct (Z.ltb_spec (fb_height f) (cursor_y f + 32)); [|done].
  cbn [screen_bytes fb_pitch pixels bg_color fb_width with_cursor with_pixels]. rewrite H6, H5.
  assert (0 <= fb_height f * pitch_pixels f <= 1073741824 * 1073741824) by nia.
  rewrite (u64_id (16 * (4 * pitch_pixels f))) by lia.
  assert (16 * pitch_pixels f <= fb_height f * pitch_pixels f) by nia.
  rewrite (u64_id (_ - _)) by lia. rewrite (u64_id (16 * fb_width f)) by lia.
  replace (16 * (4 * pitch_pixels f)) with (16 * pitch_pixels f * 4) by lia. rewrite Z.div_mul by lia.
  replace (fb_height f * (4 * pitch_pixels f) - 16 * pitch_pixels f * 4) with ((fb_height f - 16) * pitch_pixels f * 4) by lia.
  rewrite Z.div_mul by lia. assert (0 <= (fb_height f - 16) * pitch_pixels f) by nia.
  destruct (mem_read_ok (pixels f) (16 * pitch_pixels f) ((fb_height f - 16) * pitch_pixels f)) as [-> Hlm]; [lia..|].
  cbn [mbind outcome_bind]. rewrite take_ge in Hlm |- * by (rewrite length_drop; unfold len in *; lia). set (moved := drop _ _) in *.
  destruct (mem_write_ok (pixels f) 0 moved) as (px & -> & Hl1 & Epx); [lia..|]. cbn [mbind outcome_bind].
  match goal with |- context [replicate _ ?w] => set (word := w) end.
  destruct (mem_write_ok px ((fb_height f - 16) * pitch_pixels f) (replicate (Z.to_nat (16 * fb_width f)) word)) as (py & -> & Hl2 & Epy).
  { lia. } { unfold len at 1. rewrite length_replicate. lia. }
  cbn [mbind outcome_bind]. rewrite (u32_id (fb_height f - 16)) by lia. cut (py = scrolled f); [by intros ->|]. rewrite Epy, Epx.
  change (Z.to_nat 0) with 0%nat. rewrite take_0. cbn [app Nat.add].
  assert (length moved = Z.to_nat ((fb_height f - 16) * pitch_pixels f)) as Em by (unfold len in Hlm; lia).
  rewrite <- Em, take_app_length. unfold scrolled. fold moved. fold word. f_equal. f_equal.
  rewrite length_replicate, drop_app_ge by lia. rewrite drop_drop. f_equal. lia.
Qed.

Lemma newline_ok f : fb_ok f -> runs_to (newline f) (fun f' => fb_ok f' /\ same_screen f f' /\ cursor_x f' = 0).
Proof.
  intros Hf. rewrite newline_eq by done. pose proof (length_scrolled f Hf) as Hl.
  pose proof (ok_height _ Hf). pose proof (ok_cursor _ Hf). cbn [runs_to].
  destruct (Z.ltb_spec (fb_height f) (cursor_y f + 32)); (split; [|done]).
  - apply cursor_ok; cbn; try lia. apply (repaint_ok f); [by eexists|done].
  - apply cursor_ok; try done; lia.
Qed.

Lemma same_repaint f f' : repaint f f' -> same_screen f f' /\ cursor_x f' = cursor_x f /\ cursor_y f' = cursor_y f.
Proof. intros (px & -> & _). done. Qed.

Lemma same_screen_trans f g h : same_screen f g -> same_screen g h -> same_screen f h.
Proof. unfold same_screen. intuition congruence. Qed.

Lemma fb_putchar_ok c color f : fb_ok f -> 0 <= c -> runs_to (fb_putchar c color f) (fun f' => fb_ok f' /\ same_screen f f').
Proof.
  intros Hf Hc. unfold fb_putchar. rewrite (ok_init _ Hf). cbn [negb]. destruct (ok_cursor _ Hf) as (Hx & Hy & Hy2).
  destruct (c =? 10). { eapply runs_to_mono; [by apply newline_ok|]. naive_solver. }
  destruct (c =? 9). { cbn [runs_to]. split; [|done]. apply cursor_ok; [done|apply u32_range|done|done]. }
  eapply (runs_to_bind _ _ (fun g => fb_ok g /\ same_screen f g)).
  { destruct (fb_width f <? _); [|done]. eapply runs_to_mono; [by apply newline_ok|]. naive_solver. }
  intros g [Hg Hs]. eapply (runs_to_bind _ _ (repaint g)).
  { destruct (negb (font_loaded g)); [by apply draw_builtin_ok|by apply draw_normal_ok]. }
  intros h Hh. apply (repaint_ok _ _ Hh) in Hg as Hok. destruct (same_repaint _ _ Hh) as (Hs2 & _). cbn [runs_to].
  destruct (ok_cursor _ Hok) as (? & ? & ?). split; [apply cursor_ok; [done|apply u32_range|done|done]|].
  eapply same_screen_trans; [exact Hs|exact Hs2].
Qed.

Lemma vgaprint_ok str color f : fb_ok f -> Forall (fun c => 0 <= c) str ->
  runs_to (vgaprint str color f) (fun f' => fb_ok f' /\ same_screen f f').
Proof.
  intros Hf Hs. unfold vgaprint. rewrite (ok_init _ Hf). cbn [negb]. unfold palette_get_color.
  assert (0 <= Z.land color 15 < 16) by (change 15 with (Z.ones 4); rewrite Z.land_ones by lia; apply Z.mod_pos_bound; lia).
  destruct (aget_in_bounds (palette f) (Z.land color 15)) as (k & -> & _); [unfold len; rewrite (ok_palette _ Hf); lia|].
  cbn [mbind outcome_bind]. revert f Hf. induction Hs as [|c str Hc _ IH]; intros f Hf; cbn [putchars]; [done|].
  eapply runs_to_bind; [by apply fb_putchar_ok|]. intros g [Hg Hs]. eapply runs_to_mono; [by apply IH|].
  intros h [Hh Hs2]. split; [done|]. by eapply same_screen_trans.
Qed.

Lemma clear_screen_ok f : fb_ok f -> runs_to (clear_screen f) (fun f' => fb_ok f' /\ same_screen f f').
Proof.
  intros Hf. unfold clear_screen. rewrite (ok_init _ Hf). cbn [negb].
  eapply runs_to_bind; [by apply pixel_rows_ok|]. intros g Hg. cbn [runs_to]. destruct (same_repaint _ _ Hg) as (Hs & _).
  apply (repaint_ok _ _ Hg) in Hf. pose proof (ok_height _ Hf). split; [apply cursor_ok; [done|lia..]|done].
Qed.

Lemma vga_backspace_ok f : fb_ok f -> runs_to (vga_backspace f) (fun f' => fb_ok f' /\ same_screen f f').
Proof.
  intros Hf. unfold vga_backspace. rewrite (ok_init _ Hf). cbn [negb]. destruct (cursor_x f =? 0); [done|].
  destruct (ok_cursor _ Hf) as (_ & Hy & Hy2).
  assert (fb_ok (with_cursor f (u32 (cursor_x f - char_width f)) (cursor_y f))) as Hg by (apply cursor_ok; [done|apply u32_range|done|done]).
  set (g := with_cursor f _ _) in *. destruct (if negb (font_loaded g) then _ else _) as [yo h]. unfold draw_rect. rewrite (ok_init _ Hg). cbn [negb].
  eapply runs_to_mono; [by apply pixel_rows_ok|]. intros k Hk. split; [by eapply repaint_ok|]. by destruct (same_repaint _ _ Hk) as (Hs & _).
Qed.

(** ** Any text *)

Record tty_ok {W} (t : tty W) : Prop := {
  to_params : length (params t) = 16%nat;
  to_count : 0 <= param_count t <= 16;
}.

Lemma apply_param_ok {W} (t : tty W) p : tty_ok t -> tty_ok (apply_param t p).
Proof. intros [H1 H2]. destruct (apply_param_keeps t p) as (_ & _ & K1 & K2). split; [by rewrite K1|by rewrite K2]. Qed.

Lemma params_loop_safe {W} n : forall i (t : tty W), tty_ok t -> 0 <= i -> i + Z.of_nat n <= 16 ->
  runs_to (params_loop n i t) (fun t' => tty_ok t' /\ current_driver t' = current_driver t).
Proof.
  induction n as [|n IH]; intros i t Ht Hi Hn; cbn [params_loop]; [done|].
  destruct (aget_in_bounds (params t) i) as (p & -> & _); [unfold len; rewrite (to_params _ Ht); lia|]. cbn [mbind outcome_bind].
  eapply runs_to_mono; [apply IH; [by apply apply_param_ok|lia|lia]|]. intros t' [H1 ->]. split; [done|apply apply_param_keeps].
Qed.

Lemma push_param_safe {W} (t : tty W) : tty_ok t -> runs_to (push_param t) (fun t' => tty_ok t' /\ current_driver t' = current_driver t).
Proof.
  intros [H1 H2]. unfold push_param. destruct (Z.ltb_spec (param_count t) 16); [|done].
  rewrite aset_in_bounds by (unfold len; lia). cbn [mbind outcome_bind runs_to]. split; [|done]. split; cbn; [by rewrite length_insert|lia].
Qed.

Lemma tty_char_safe {W} (I : W -> Prop) (puts : list Z -> Z -> W -> outcome W) ch t w :
  (forall code w, I w -> runs_to (puts [ch] code w) I) -> tty_ok t -> I w ->
  runs_to (tty_char puts ch t w) (fun '(t', w') => tty_ok t' /\ I w' /\ current_driver t' = current_driver t).
Proof.
  intros Hp Ht Hw. unfold tty_char.
  assert (forall e cp n, 0 <= n <= 16 -> tty_ok (with_escape t e cp n)) as Hesc by (intros e cp n Hn; destruct Ht; by split).
  assert (forall cp, tty_ok (with_param t cp (params t) (param_count t))) as Hpar by (intros cp; destruct Ht; by split).
  pose proof (to_count _ Ht) as Hc.
  destruct (escape_state t =? 0).
  { destruct (ch =? 27); [cbn [runs_to]; split_and!; [apply Hesc; lia|done|done]|].
    eapply runs_to_bind; [by apply Hp|]. done. }
  destruct (escape_state t =? 1); [cbn [runs_to]; split_and!; [by apply Hesc|done|done]|].
  destruct (escape_state t =? 2); [|done].
  destruct ((48 <=? ch) && (ch <=? 57)); [done|].
  destruct (ch =? 59).
  { eapply runs_to_bind; [by apply push_param_safe|]. intros t1 [[H1 H2] Hd]. cbn [runs_to]. split_and!; [by split|done|done]. }
  destruct (ch =? 109); [|cbn [runs_to]; split_and!; [apply Hesc; lia|done|done]].
  eapply runs_to_bind; [by apply push_param_safe|]. intros t1 [H1 Hd]. pose proof (to_count _ H1).
  eapply runs_to_bind; [apply params_loop_safe; [done|lia|lia]|]. intros t2 [[H2 _] Hd2]. cbn [runs_to].
  split_and!; [split; cbn; [done|lia]|done|]. cbn. congruence.
Qed.

Lemma tty_puts_safe {W} (I : W -> Prop) (d : tty_driver W) puts str : drv_puts d = Some puts ->
  Forall (fun c => forall code w, I w -> runs_to (puts [c] code w) I) str -> forall t w,
  current_driver t = Some d -> tty_ok t -> I w ->
  runs_to (tty_puts str t w) (fun '(t', w') => tty_ok t' /\ I w' /\ current_driver t' = Some d).
Proof.
  intros Hd Hp t w Ht Hok Hw. rewrite (tty_puts_on d puts) by done.
  revert t w Ht Hok Hw. induction Hp as [|c str Hc _ IH]; intros t w Ht Hok Hw; cbn [tty_chars]; [done|].
  eapply runs_to_bind; [by apply (tty_char_safe I)|]. intros [t' w'] (H1 & H2 & H3). apply IH; try done. congruence.
Qed.

(** What init_fb gets from the boot loader. *)
Record framebuffer_ok (l : limine_framebuffer) : Prop := {
  lo_width : 0 < l_width l <= l_pitch l / 4;
  lo_height : 16 <= l_height l < 2 ^ 30;
  lo_pitch : l_pitch l mod 4 = 0 /\ l_pitch l / 4 < 2 ^ 30;
  lo_mem : len (l_memory l) = l_height l * (l_pitch l / 4);
}.

(** C16. The console never leaves the framebuffer.  For every framebuffer with at
    least one line of text, a pitch of at least the width and a memory that matches
    them, init_fb succeeds, and then tty_puts of any strings whatever, with any bytes,
    control characters, unfinished or malformed escape sequences and any length of
    text, runs to its end without an access outside the pixel memory, the glyphs, the
    palette or the parameter array, and keeps the cursor on a complete line of the
    screen. *)
Theorem console_safe (l : limine_framebuffer) (f : fb) (t : tty fb) (p : pfb) (strs : list (list Z)) :
  framebuffer_ok l -> length (palette f) = 16%nat -> length (system_font f) = 256%nat ->
  Forall (fun g => length g = 16%nat) (system_font f) -> 0 <= system_font_height f <= 16 ->
  tty_ok t -> Forall (Forall (fun c => 0 <= c < 256)) strs ->
  runs_to (init_fb (Some l) f t p) (fun '(f1, t1, _) =>
    runs_to (tty_puts_all strs t1 f1) (fun '(t2, f2) =>
      fb_ok f2 /\ length (pixels f2) = length (l_memory l) /\ 0 <= cursor_y f2 <= fb_height f2 - 16 /\
      fb_width f2 = l_width l /\ fb_height f2 = l_height l)).
Proof.
  intros [Hw Hh [Hp4 Hp] Hm] Hpal Hf1 Hf2 Hfh Ht Hs. cbn [init_fb].
  set (f0 := mkfb _ _ _ _ _ _ _ _ _ _ _ _ _ _ _ _ _).
  assert (l_pitch l = 4 * (l_pitch l / 4)) as Ep by (pose proof (Z.div_mod (l_pitch l) 4 ltac:(lia)); lia).
  assert (fb_ok f0) as H0.
  { split; unfold f0; cbn; try done; try lia. apply u64_id. change (2 ^ 30) with 1073741824 in *. nia. }
  pose (I g := fb_ok g /\ same_screen f0 g).
  assert (forall c code g, 0 <= c -> I g -> runs_to (vgaprint [c] code g) I) as Hput.
  { intros c code g Hc [Hg Hs1]. eapply runs_to_mono; [apply vgaprint_ok; [done|by repeat constructor]|].
    intros h [Hh1 Hs2]. split; [done|]. by eapply same_screen_trans. }
  unfold tty_register_driver. cbn [tty_clear with_driver current_driver drv_clear vge_tty_driver].
  eapply runs_to_bind; [eapply runs_to_bind; [by apply clear_screen_ok|]; intros g Hg; exact (runs_to_ret (with_driver t (Some vge_tty_driver), g) (fun x => x.1 = with_driver t (Some vge_tty_driver) /\ I x.2) (conj eq_refl Hg))|].
  intros [t1 f1] [Et Hf]. cbn [fst snd] in *. subst t1.
  eapply runs_to_bind; [apply vgaprint_ok; [apply Hf|vm_compute; repeat constructor; congruence]|].
  intros f2 [Hf3 Hs3]. cbn [runs_to].
  assert (I f2) as HI by (split; [done|]; eapply same_screen_trans; [apply Hf|done]).
  assert (forall strs t w, Forall (Forall (fun c => 0 <= c < 256)) strs -> current_driver t = Some vge_tty_driver -> tty_ok t -> I w ->
    runs_to (tty_puts_all strs t w) (fun '(_, w') => I w')) as Hall.
  { clear -Hput. induction strs as [|s strs IH]; intros t w Hs Hd Ht Hw; cbn [tty_puts_all]; [done|].
    apply Forall_cons_1 in Hs as [Hs Hss]. eapply runs_to_bind.
    { apply (tty_puts_safe I vge_tty_driver vgaprint); try done. eapply Forall_impl; [exact Hs|]. intros c Hc code w' Hw'. cbn beta in Hc. apply Hput; [lia|done]. }
    intros [t' w'] (H1 & H2 & H3). by apply IH. }
  eapply runs_to_mono; [apply Hall; try done; by destruct Ht|]. intros [t3 f3] [Hok Hs4].
  destruct (ok_cursor _ Hok) as (_ & Hy & Hy2). destruct Hs4 as (E1 & E2 & E3 & _). 
  change (fb_width f0) with (l_width l) in E1. change (fb_height f0) with (l_height l) in E2. change (pitch_pixels f0) with (l_pitch l / 4) in E3.
  split_and!; try done; try lia. pose proof (ok_mem _ Hok) as Hm3. rewrite E2, E3, <- Hm in Hm3. unfold len in Hm3. lia.
Qed.

(** ** Scrolling *)

Definition pixel (f : fb) (x y : Z) : option Z := pixels f !! Z.to_nat (y * pitch_pixels f + x).

Lemma grey_word c : 0 <= c < 2 ^ 32 -> grey c = true -> word_of_byte (Z.land c 0xFF) = c.
Proof.
  intros Hc Hg. unfold grey in Hg. apply andb_true_iff in Hg as [[H1 H2]%andb_true_iff H3].
  change 0xFF with (Z.ones 8) in *. rewrite !Z.land_ones, !Z.shiftr_div_pow2 in * by lia.
  apply Z.eqb_eq in H1, H2, H3. set (b := c mod 2 ^ 8) in *.
  assert (0 <= b < 256) as Hb by (apply Z.mod_pos_bound; lia).
  assert (word_of_byte b = b * 0x01010101) as ->.
  { apply Z.eqb_eq. exact (by_cases 256 (fun b => word_of_byte b =? b * 0x01010101) ltac:(vm_compute; reflexivity) b Hb). }
  pose proof (Z.div_mod c (2 ^ 8) ltac:(lia)) as E0. pose proof (Z.div_mod (c / 2 ^ 8) (2 ^ 8) ltac:(lia)) as E1.
  pose proof (Z.div_mod (c / 2 ^ 16) (2 ^ 8) ltac:(lia)) as E2.
  rewrite Z.div_div in E1 by lia. change (2 ^ 8 * 2 ^ 8) with (2 ^ 16) in E1.
  rewrite Z.div_div in E2 by lia. change (2 ^ 16 * 2 ^ 8) with (2 ^ 24) in E2.
  assert (0 <= c / 2 ^ 24 < 256) by (split; [apply Z.div_pos; lia|apply Z.div_lt_upper_bound; lia]).
  rewrite (Z.mod_small (c / 2 ^ 24)) in H3 by (change (2 ^ 8) with 256; lia). fold b in E0. rewrite <- H1 in E1. rewrite <- H2 in E2.
  change (2 ^ 8) with 256 in *. lia.
Qed.

(** A line feed on the last line scrolls the picture.  On a screen whose rows
    have no padding, newline moves every pixel up by the height of a line, fills the
    last line with the background colour (also when it takes the branch with memset)
    and puts the cursor at its start; on the other lines only the cursor moves. *)
Theorem newline_scrolls (f : fb) :
  fb_ok f -> pitch_pixels f = fb_width f -> 0 <= bg_color f < 2 ^ 32 ->
  runs_to (newline f) (fun f' =>
    cursor_x f' = 0 /\ cursor_y f' = Z.min (cursor_y f + 16) (fb_height f - 16) /\
    forall x y, 0 <= x < fb_width f -> 0 <= y < fb_height f ->
      pixel f' x y = if cursor_y f + 32 <=? fb_height f then pixel f x y
                     else if y <? fb_height f - 16 then pixel f x (y + 16) else Some (bg_color f)).
Proof.
  intros Hf Hpw Hbg. rewrite newline_eq by done. cbn [runs_to]. pose proof (ok_width _ Hf). pose proof (ok_height _ Hf). pose proof (ok_mem _ Hf) as Hm.
  destruct (Z.ltb_spec (fb_height f) (cursor_y f + 32)).
  2:{ split_and!; [done|cbn; lia|]. intros x y Hx Hy. by rewrite (proj2 (Z.leb_le _ _)) by lia. }
  split_and!; [done|cbn; lia|]. intros x y Hx Hy. rewrite (proj2 (Z.leb_gt _ _)) by lia.
  unfold pixel. cbn [pixels with_cursor with_pixels pitch_pixels]. unfold scrolled, len in *. rewrite Hpw in *.
  assert (length (drop (Z.to_nat (16 * fb_width f)) (pixels f)) = Z.to_nat ((fb_height f - 16) * fb_width f)) as El by (rewrite length_drop; lia).
  destruct (Z.ltb_spec y (fb_height f - 16)).
  - rewrite lookup_app_l by (rewrite El; nia). rewrite lookup_drop. f_equal. nia.
  - rewrite lookup_app_r by (rewrite El; nia). rewrite El. rewrite lookup_app_l by (rewrite length_replicate; nia).
    rewrite lookup_replicate_2 by nia. destruct (grey (bg_color f)) eqn:Eg; [by rewrite grey_word|done].
Qed.

(** ** Lines *)

Fixpoint paint (pts : list (Z * Z)) (color : Z) (f : fb) : outcome fb :=
  match pts with [] => Ret f | (x, y) :: pts' => f ← put_pixel x y color f; paint pts' color f end.

(** Two points that touch, also diagonally. *)
Definition near (a b : Z * Z) : Prop := Z.abs (b.1 - a.1) <= 1 /\ Z.abs (b.2 - a.2) <= 1.

Definition connected (pts : list (Z * Z)) : Prop :=
  forall n a b, pts !! n = Some a -> pts !! S n = Some b -> near a b.

Section Line.
Context (x1 y1 x2 y2 dx dy sx sy : Z).
Hypothesis Hx1 : 0 <= x1 < 2 ^ 29.
Hypothesis Hy1 : 0 <= y1 < 2 ^ 29.
Hypothesis Hx2 : 0 <= x2 < 2 ^ 29.
Hypothesis Hy2 : 0 <= y2 < 2 ^ 29.
Hypothesis Hdx : 0 <= dx /\ x2 = x1 + sx * dx.
Hypothesis Hdy : 0 <= dy /\ y2 = y1 + sy * dy.
Hypothesis Hsx : sx = 1 \/ sx = -1.
Hypothesis Hsy : sy = 1 \/ sy = -1.

(** After [i] steps to the side and [j] steps down. *)
Record line_inv (i j : Z) : Prop := {
  li_i : 0 <= i <= dx;
  li_j : 0 <= j <= dy;
  li_err : - Z.max dx dy <= 2 * j * dx - 2 * i * dy <= Z.max dx dy;
}.

Definition line_err (i j : Z) : Z := (j + 1) * dx - (i + 1) * dy.

(** The steps that one round takes. *)
Definition step_x (i j : Z) : bool := - dy <? 2 * line_err i j.
Definition step_y (i j : Z) : bool := 2 * line_err i j <? dx.
Definition next_i (i j : Z) : Z := if step_x i j then i + 1 else i.
Definition next_j (i j : Z) : Z := if step_y i j then j + 1 else j.

(** The steps left. *)
Definition steps_left (i j : Z) : Z := if dy <=? dx then dx - i else dy - j.

Lemma line_end i j : line_inv i j -> steps_left i j = 0 -> i = dx /\ j = dy.
Proof.
  intros [Hi Hj He]. unfold steps_left. destruct (Z.leb_spec dy dx) as [Hle|Hgt]; intros H0.
  - rewrite Z.max_l in He by lia. split; [lia|]. replace i with dx in He by lia.
    destruct (Z.eq_dec dx 0); [lia|]. nia.
  - rewrite Z.max_r in He by lia. split; [|lia]. replace j with dy in He by lia. nia.
Qed.

Lemma line_next i j : line_inv i j -> 0 < steps_left i j ->
  line_inv (next_i i j) (next_j i j) /\ steps_left (next_i i j) (next_j i j) = steps_left i j - 1.
Proof.
  intros [Hi Hj He]. unfold steps_left, next_i, next_j, step_x, step_y, line_err.
  destruct (Z.leb_spec dy dx) as [Hle|Hgt]; intros H0.
  - rewrite Z.max_l in He by lia.
    assert (- dy < 2 * ((j + 1) * dx - (i + 1) * dy)) as Hs.
    { destruct (Z.eq_dec dx dy) as [E|E]; [|nia]. rewrite <- E in *. assert (i = j) by nia. nia. }
    rewrite (proj2 (Z.ltb_lt _ _) Hs). split; [|lia].
    destruct (Z.ltb_spec (2 * ((j + 1) * dx - (i + 1) * dy)) dx); split; rewrite ?Z.max_l by lia; try lia; try nia.
  - rewrite Z.max_r in He by lia.
    assert (2 * ((j + 1) * dx - (i + 1) * dy) < dx) as Hs by nia.
    rewrite (proj2 (Z.ltb_lt _ _) Hs). split; [|lia].
    destruct (Z.ltb_spec (- dy) (2 * ((j + 1) * dx - (i + 1) * dy))); split; rewrite ?Z.max_r by lia; try lia; try nia.
Qed.

Lemma line_bounds i j : line_inv i j ->
  0 <= dx < 2 ^ 29 /\ 0 <= dy < 2 ^ 29 /\ - 2 ^ 31 <= 2 * line_err i j < 2 ^ 31 /\
  0 <= x1 + sx * i < 2 ^ 29 /\ 0 <= y1 + sy * j < 2 ^ 29.
Proof.
  intros [Hi Hj He]. change (2 ^ 29) with 536870912 in *. change (2 ^ 31) with 2147483648.
  assert (0 <= dx < 536870912) by (destruct Hsx; subst sx; lia). assert (0 <= dy < 536870912) by (destruct Hsy; subst sy; lia).
  unfold line_err. split_and!; try lia; try (destruct Hsx; subst sx; lia); destruct Hsy; subst sy; lia.
Qed.

(** One round of the loop that is not the last. *)
Lemma line_round fuel color f i j : line_inv i j -> line_inv (next_i i j) (next_j i j) -> ~ (i = dx /\ j = dy) ->
  line_loop (S fuel) (x1 + sx * i) (y1 + sy * j) x2 y2 dx dy sx sy (line_err i j) color f =
  (f ← put_pixel (x1 + sx * i) (y1 + sy * j) color f;
   line_loop fuel (x1 + sx * next_i i j) (y1 + sy * next_j i j) x2 y2 dx dy sx sy (line_err (next_i i j) (next_j i j)) color f).
Proof.
  intros Hinv Hinv' Hne. cbn [line_loop]. destruct (put_pixel _ _ color f) as [g| |]; [|done..]. cbn [mbind outcome_bind].
  pose proof (line_bounds i j Hinv) as (B1 & B2 & B3 & B4 & B5). pose proof (line_bounds _ _ Hinv') as (_ & _ & B3' & B4' & B5').
  change (2 ^ 29) with 536870912 in *. change (2 ^ 31) with 2147483648 in *.
  assert (((x1 + sx * i =? x2) && (y1 + sy * j =? y2)) = false) as ->.
  { apply not_true_iff_false. intros [E1%Z.eqb_eq E2%Z.eqb_eq]%andb_true_iff. apply Hne.
    destruct Hsx, Hsy; subst sx sy; lia. }
  rewrite (i32_id (2 * line_err i j)) by lia. unfold next_i, next_j, step_x, step_y in *.
  assert (line_err (i + 1) j = line_err i j - dy) as Ei by (unfold line_err; lia).
  assert (line_err i (j + 1) = line_err i j + dx) as Ej by (unfold line_err; lia).
  assert (line_err (i + 1) (j + 1) = line_err i j - dy + dx) as Eij by (unfold line_err; lia).
  rewrite ?Z.mul_add_distr_l, ?Z.mul_1_r, ?Z.add_assoc in *.
  destruct (- dy <? 2 * line_err i j), (2 * line_err i j <? dx); rewrite ?Ei, ?Ej, ?Eij in *;
    rewrite ?(i32_id (line_err i j - dy)), ?i32_id, ?u32_id by lia;
    rewrite ?Z.mul_add_distr_l, ?Z.mul_1_r, ?Z.add_assoc; done.
Qed.

Lemma line_loop_ok color n : forall i j fuel, line_inv i j -> steps_left i j = Z.of_nat n -> (n < fuel)%nat ->
  exists pts, (forall f, line_loop fuel (x1 + sx * i) (y1 + sy * j) x2 y2 dx dy sx sy (line_err i j) color f = paint pts color f) /\
  length pts = S n /\ head pts = Some (x1 + sx * i, y1 + sy * j) /\ last pts = Some (x2, y2) /\ connected pts.
Proof.
  induction n as [|n IH]; intros i j fuel Hinv Hn Hf; (destruct fuel as [|fuel]; [lia|]).
  - destruct (line_end i j Hinv ltac:(lia)) as [-> ->]. exists [(x2, y2)]. destruct Hdx as [_ <-], Hdy as [_ <-].
    split_and!; try done. intros f. cbn [line_loop paint]. destruct (put_pixel x2 y2 color f) as [g| |]; [|done..].
    cbn [mbind outcome_bind]. by rewrite !Z.eqb_refl.
  - destruct (line_next i j Hinv ltac:(lia)) as [Hinv' Hn'].
    destruct (IH (next_i i j) (next_j i j) fuel Hinv' ltac:(lia) ltac:(lia)) as (pts & E & Hl & Hh & Hla & Hc).
    exists ((x1 + sx * i, y1 + sy * j) :: pts). destruct pts as [|q pts]; [done|]. split_and!; [|cbn [length] in *; lia|done|done|].
    + intros f. rewrite line_round; [|done|done|].
      2:{ intros [-> ->]. unfold steps_left in Hn. destruct (dy <=? dx); lia. }
      cbn [paint]. destruct (put_pixel _ _ color f) as [g| |]; [|done..]. apply E.
    + intros [|m] a b Ha Hb; [|by apply (Hc m)]. cbn in Ha, Hb, Hh. injection Ha as <-. injection Hb as <-. injection Hh as ->.
      unfold near. cbn [fst snd]. unfold next_i, next_j. destruct Hsx, Hsy; subst sx sy; destruct (step_x i j), (step_y i j); lia.
Qed.
End Line.

(** C27. draw_line ends and draws a connected line.  For coordinates below 2^29 the
    loop of draw_line takes exactly as many rounds as the longer of the two distances
    says, plus one, and no arithmetic overflows: it paints a sequence of points that
    begins at the first and ends at the second given point, each touching the one
    before it; points outside the screen are skipped by put_pixel. *)
Theorem draw_line_connects (x1 y1 x2 y2 color : Z) (fuel : nat) :
  0 <= x1 < 2 ^ 29 -> 0 <= y1 < 2 ^ 29 -> 0 <= x2 < 2 ^ 29 -> 0 <= y2 < 2 ^ 29 ->
  (Z.to_nat (Z.max (Z.abs (x2 - x1)) (Z.abs (y2 - y1))) < fuel)%nat ->
  exists pts, (forall f, initialized f = true -> draw_line fuel x1 y1 x2 y2 color f = paint pts color f) /\
    len pts = Z.max (Z.abs (x2 - x1)) (Z.abs (y2 - y1)) + 1 /\
    head pts = Some (x1, y1) /\ last pts = Some (x2, y2) /\ connected pts.
Proof.
  intros H1 H2 H3 H4 Hf. set (dx := Z.abs (x2 - x1)) in *. set (dy := Z.abs (y2 - y1)) in *.
  set (sx := if x1 <? x2 then 1 else -1). set (sy := if y1 <? y2 then 1 else -1).
  assert (0 <= dx /\ x2 = x1 + sx * dx) as Hdx by (unfold dx, sx; destruct (Z.ltb_spec x1 x2); lia).
  assert (0 <= dy /\ y2 = y1 + sy * dy) as Hdy by (unfold dy, sy; destruct (Z.ltb_spec y1 y2); lia).
  assert (sx = 1 \/ sx = -1) as Hsx by (unfold sx; destruct (x1 <? x2); auto).
  assert (sy = 1 \/ sy = -1) as Hsy by (unfold sy; destruct (y1 <? y2); auto).
  assert (line_inv dx dy 0 0) as Hinv by (split; lia).
  assert (steps_left dx dy 0 0 = Z.max dx dy) as Hst by (unfold steps_left; destruct (Z.leb_spec dy dx); lia).
  destruct (line_loop_ok x1 y1 x2 y2 dx dy sx sy H1 H2 H3 H4 Hdx Hdy Hsx Hsy color (Z.to_nat (Z.max dx dy)) 0 0 fuel Hinv ltac:(lia) Hf) as (pts & E & Hl & Hh & Hla & Hc).
  rewrite !Z.mul_0_r, !Z.add_0_r in *. exists pts. split_and!; [|unfold len; lia|done..].
  intros f Hi. rewrite <- E. unfold draw_line. rewrite Hi. cbn [negb]. change (2 ^ 29) with 536870912 in *.
  assert (i32 (if x1 <? x2 then x2 - x1 else x1 - x2) = dx) as -> by (unfold dx; destruct (Z.ltb_spec x1 x2); rewrite i32_id; lia).
  assert (i32 (if y1 <? y2 then y2 - y1 else y1 - y2) = dy) as -> by (unfold dy; destruct (Z.ltb_spec y1 y2); rewrite i32_id; lia).
  fold sx. fold sy. unfold line_err. rewrite !Z.mul_1_l, i32_id by lia. done.
Qed.

(** ** Fonts *)

Definition font_shape (font : list (list Z)) : Prop := length font = 256%nat /\ Forall (fun g => length g = 16%nat) font.

Lemma font_set_ok font i row v : font_shape font -> 0 <= i < 256 -> 0 <= row < 16 ->
  exists g, font !! Z.to_nat i = Some g /\ length g = 16%nat /\
  font_set font i row v = Ret (<[Z.to_nat i := <[Z.to_nat row := v]> g]> font).
Proof.
  intros [Hl Hg] Hi Hr. destruct (aget_in_bounds font i) as (g & E & Hgi); [unfold len; lia|].
  rewrite Forall_lookup in Hg. pose proof (Hg _ _ Hgi) as Hg16. exists g. split_and!; [done|done|].
  unfold font_set. rewrite E. cbn [mbind outcome_bind]. rewrite aset_in_bounds by (unfold len; lia). cbn [mbind outcome_bind].
  by rewrite aset_in_bounds by (unfold len; lia).
Qed.

Lemma font_shape_insert font i g : font_shape font -> length g = 16%nat -> font_shape (<[i := g]> font).
Proof. intros [Hl Hg] H. split; [by rewrite length_insert|]. by apply Forall_insert. Qed.

(** One glyph: the rows from [row] on that the glyph has are copied. *)
Lemma glyph_copy_ok n data start size i : 0 <= start -> start + size <= len data -> 0 <= i < 256 -> forall row font g,
  font_shape font -> font !! Z.to_nat i = Some g -> 0 <= row -> row + Z.of_nat n <= 16 ->
  runs_to (glyph_copy n data start size 1 i row font) (fun font' => exists g', font' = <[Z.to_nat i := g']> font /\
    length g' = 16%nat /\
    forall k, 0 <= k < 16 -> g' !! Z.to_nat k =
      if (row <=? k) && (k <? row + Z.of_nat n) && (k <? size) then data !! Z.to_nat (start + k) else g !! Z.to_nat k).
Proof.
  intros Hs0 Hs Hi. induction n as [|n IH]; intros row font g Hf Hg Hr Hn; cbn [glyph_copy].
  { exists g. split_and!; [by rewrite list_insert_id|destruct Hf as [_ Hf]; rewrite Forall_lookup in Hf; by eapply Hf|].
    intros k Hk. destruct (Z.leb_spec row k), (Z.ltb_spec k (row + Z.of_nat 0)); try done; lia. }
  rewrite Z.mul_1_r. destruct (Z.ltb_spec row size) as [Hlt|Hge].
  - destruct (aget_in_bounds data (start + row)) as (b & -> & Hb); [lia|]. cbn [mbind outcome_bind].
    destruct (font_set_ok font i row b Hf Hi ltac:(lia)) as (g1 & Hg1 & Hl1 & ->). cbn [mbind outcome_bind].
    assert (g1 = g) as -> by congruence. destruct Hf as [Hfl Hff].
    eapply runs_to_mono; [apply (IH (row + 1) _ (<[Z.to_nat row := b]> g)); [by apply font_shape_insert; [|rewrite length_insert]|apply list_lookup_insert_eq; lia|lia|lia]|].
    intros font' (g' & -> & Hl' & Hk'). exists g'. split_and!; [by rewrite list_insert_insert_eq|done|]. intros k Hk. rewrite Hk' by done.
    destruct (Z.eq_dec k row) as [->|Hne].
    + rewrite (proj2 (Z.leb_gt (row + 1) row)), (proj2 (Z.leb_le row row)), (proj2 (Z.ltb_lt row (row + Z.of_nat (S n)))), (proj2 (Z.ltb_lt row size)) by lia.
      cbn [andb]. rewrite list_lookup_insert_eq by lia. by rewrite Hb.
    + rewrite list_lookup_insert_ne by lia. replace (row + 1 + Z.of_nat n) with (row + Z.of_nat (S n)) by lia.
      destruct (Z.leb_spec (row + 1) k), (Z.leb_spec row k); try done; lia.
  - cbn [mbind outcome_bind]. eapply runs_to_mono; [apply (IH (row + 1) font g); [done|done|lia|lia]|].
    intros font' (g' & -> & Hl' & Hk'). exists g'. split_and!; [done|done|]. intros k Hk. rewrite Hk' by done.
    destruct (Z.leb_spec (row + 1) k), (Z.leb_spec row k), (Z.ltb_spec k (row + 1 + Z.of_nat n)), (Z.ltb_spec k (row + Z.of_nat (S n))), (Z.ltb_spec k size); cbn [andb]; try done; lia.
Qed.

(** The glyphs from [i] on. *)
Lemma glyphs_copy_ok n data base size rows : 0 <= base -> 0 <= size -> 0 <= rows <= 16 -> len data < 2 ^ 32 -> forall i font,
  font_shape font -> 0 <= i -> i + Z.of_nat n <= 256 -> base + (i + Z.of_nat n) * size <= len data ->
  runs_to (glyphs_copy n data base size 1 rows i font) (fun font' => font_shape font' /\
    forall a g, 0 <= a < 256 -> font !! Z.to_nat a = Some g -> exists g', font' !! Z.to_nat a = Some g' /\
      forall k, 0 <= k < 16 -> g' !! Z.to_nat k =
        if (i <=? a) && (a <? i + Z.of_nat n) && (k <? rows) && (k <? size) then data !! Z.to_nat (base + a * size + k) else g !! Z.to_nat k).
Proof.
  intros Hb Hs Hr Hd. change (2 ^ 32) with 4294967296 in Hd.
  induction n as [|n IH]; intros i font Hf Hi Hn Hl; cbn [glyphs_copy].
  { split; [done|]. intros a g Ha Hg. exists g. split; [done|]. intros k Hk.
    destruct (Z.leb_spec i a), (Z.ltb_spec a (i + Z.of_nat 0)); try done; lia. }
  assert (0 <= i * size /\ i * size + size <= len data - base) as [Hi0 Hi1] by nia. rewrite u32_id by lia.
  destruct (aget_in_bounds font i) as (g0 & _ & Hg0); [unfold len; destruct Hf; lia|].
  eapply runs_to_bind; [apply (glyph_copy_ok _ data (base + i * size) size i ltac:(lia) ltac:(lia) ltac:(lia) 0 font g0 Hf Hg0); lia|].
  intros font1 (g1 & -> & Hl1 & Hk1).
  eapply runs_to_mono; [apply IH; [by apply font_shape_insert|lia|lia|nia]|]. intros font' [Hf' Ha']. split; [done|].
  intros a g Ha Hg. destruct (Z.eq_dec a i) as [->|Hne].
  - destruct (Ha' i g1 Ha) as (g' & Hg' & Hk'); [apply list_lookup_insert_eq; destruct Hf; lia|]. exists g'. split; [done|].
    intros k Hk. rewrite Hk', Hk1 by done. assert (g0 = g) as -> by congruence.
    rewrite (proj2 (Z.leb_gt (i + 1) i)), (proj2 (Z.leb_le i i)), (proj2 (Z.leb_le 0 k)), (proj2 (Z.ltb_lt i (i + Z.of_nat (S n)))) by lia. cbn [andb].
    rewrite ?Z.add_0_l, Z2Nat.id by lia. done.
  - destruct (Ha' a g Ha) as (g' & Hg' & Hk'); [rewrite list_lookup_insert_ne by lia; done|]. exists g'. split; [done|].
    intros k Hk. rewrite Hk' by done. replace (i + 1 + Z.of_nat n) with (i + Z.of_nat (S n)) by lia.
    destruct (Z.leb_spec (i + 1) a), (Z.leb_spec i a); try done; lia.
Qed.

Lemma zero_font_shape : font_shape zero_font.
Proof. split; [done|]. apply Forall_replicate. done. Qed.

Lemma zero_font_glyph a g : zero_font !! Z.to_nat a = Some g -> g = replicate 16 0.
Proof. intros H. apply lookup_replicate in H as [-> _]. done. Qed.

(** The font that the [rows] first rows of glyphs of [size] bytes at [base] make. *)
Definition font_from (data : list Z) (base size rows : Z) (font : list (list Z)) : Prop :=
  font_shape font /\ forall c k, 0 <= c < 256 -> 0 <= k < 16 -> exists g, font !! Z.to_nat c = Some g /\
    g !! Z.to_nat k = if (k <? rows) && (k <? size) then data !! Z.to_nat (base + c * size + k) else Some 0.

Lemma font_from_copy data base size rows :
  0 <= base -> 0 <= size -> 0 <= rows <= 16 -> len data < 2 ^ 32 -> base + 256 * size <= len data ->
  runs_to (glyphs_copy 256 data base size 1 rows 0 zero_font) (font_from data base size rows).
Proof.
  intros Hb Hs Hr Hd Hl. eapply runs_to_mono; [apply (glyphs_copy_ok 256 data base size rows Hb Hs Hr Hd 0 zero_font zero_font_shape); lia|].
  intros font [Hf Hg]. split; [done|]. intros c k Hc Hk.
  destruct (lookup_lt_is_Some_2 zero_font (Z.to_nat c)) as [z Hz]; [change (length zero_font) with 256%nat; lia|].
  destruct (Hg c z Hc Hz) as (g & Hgc & Hgk). exists g. split; [done|]. rewrite Hgk by done. apply zero_font_glyph in Hz as ->.
  rewrite (proj2 (Z.leb_le 0 c)), (proj2 (Z.ltb_lt c _)) by lia. cbn [andb].
  destruct ((k <? rows) && (k <? size)); [done|]. apply lookup_replicate_2. lia.
Qed.

Lemma get32_range data off : Forall byte_ok data -> 0 <= off -> off + 4 <= len data ->
  exists v, get32 data off = Ret v /\ 0 <= v < 2 ^ 32.
Proof.
  intros Hd Ho Hl. rewrite get32_ok by done. eexists. split; [done|].
  pose proof (le_value_range (slice data off 4)) as H. unfold slice in *.
  assert (len (take (Z.to_nat 4) (drop (Z.to_nat off) data)) = 4) as El by (unfold len in *; rewrite length_take, length_drop; lia).
  rewrite El in H. apply H. apply Forall_take, Forall_drop. done.
Qed.

Lemma psf2_of_ok data : Forall byte_ok data -> 32 <= len data ->
  exists h, psf2_of data = Ret h /\ 0 <= psf2_headersize h < 2 ^ 32 /\ 0 <= psf2_length h < 2 ^ 32 /\
  0 <= psf2_charsize h < 2 ^ 32 /\ 0 <= psf2_height h < 2 ^ 32.
Proof.
  intros Hd Hl. unfold psf2_of.
  destruct (get32_range data 0 Hd) as (v1 & -> & H1); [lia..|]. destruct (get32_range data 8 Hd) as (v2 & -> & H2); [lia..|].
  destruct (get32_range data 16 Hd) as (v3 & -> & H3); [lia..|]. destruct (get32_range data 20 Hd) as (v4 & -> & H4); [lia..|].
  destruct (get32_range data 24 Hd) as (v5 & -> & H5); [lia..|]. destruct (get32_range data 28 Hd) as (v6 & -> & H6); [lia..|].
  eexists. split; [reflexivity|]. done.
Qed.

(** What the parser promises: an error, or a font made of glyphs inside the file. *)
Definition parsed (data : list Z) (psf_size : Z) (r : Z * option (list (list Z))) : Prop :=
  r = (-1, None) \/ exists font base size rows, r = (0, Some font) /\ 0 <= base /\ 0 <= size /\ base + 256 * size <= psf_size /\
    8 <= rows <= 16 /\ font_from data base size rows font.

Lemma parse_psf2_ok data psf_size h : len data < 2 ^ 32 -> psf_size <= len data ->
  0 <= psf2_headersize h < 2 ^ 32 -> 0 <= psf2_length h < 2 ^ 32 -> 0 <= psf2_charsize h < 2 ^ 32 -> 0 <= psf2_height h ->
  runs_to (parse_psf2 data psf_size h) (parsed data psf_size).
Proof.
  intros Hd Hs H1 H2 H3 H4. unfold parse_psf2. change (2 ^ 32) with 4294967296 in *.
  destruct (Z.eqb_spec (psf2_width h) 8) as [->|]; [|by left].
  destruct (Z.ltb_spec (psf2_height h) 8); [by left|]. destruct (Z.ltb_spec (psf2_length h) 256); [by left|]. cbn [negb orb].
  assert (0 <= psf2_length h * psf2_charsize h <= 4294967295 * 4294967295) by nia. rewrite u64_id by lia.
  destruct (Z.ltb_spec psf_size (psf2_headersize h + psf2_length h * psf2_charsize h)); [by left|].
  rewrite (proj2 (Z.ltb_ge _ (psf2_headersize h))) by lia. cbn [orb]. destruct (psf_size <? _); [by left|].
  change ((8 + 7) / 8) with 1. replace (Z.to_nat (Z.min 256 (psf2_length h))) with 256%nat by lia.
  assert (256 * psf2_charsize h <= psf2_length h * psf2_charsize h) by nia.
  set (rows := if FONT_HEIGHT <? psf2_height h then FONT_HEIGHT else psf2_height h).
  assert (8 <= rows <= 16) as Hr by (unfold rows, FONT_HEIGHT; destruct (Z.ltb_spec 16 (psf2_height h)); lia).
  eapply runs_to_bind; [apply (font_from_copy data (psf2_headersize h) (psf2_charsize h) rows); try done; try lia|].
  intros font Hf. right. exists font, (psf2_headersize h), (psf2_charsize h), rows. split_and!; try done; lia.
Qed.

Lemma parse_psf1_ok data psf_size : Forall byte_ok data -> len data < 2 ^ 32 -> 4 <= psf_size <= len data ->
  runs_to (parse_psf1 data psf_size) (parsed data psf_size).
Proof.
  intros Hb Hd Hs. unfold parse_psf1, get8.
  destruct (aget_in_bounds data 2) as (mode & -> & _); [lia|]. destruct (aget_in_bounds data 3) as (cs & -> & Hcs); [lia|].
  cbn [mbind outcome_bind]. rewrite Forall_lookup in Hb. apply Hb in Hcs. unfold byte_ok in Hcs.
  set (glyphs := if negb (Z.land mode PSF1_MODE512 =? 0) then 512 else 256).
  assert (256 <= glyphs) as Hg by (unfold glyphs; destruct (negb _); lia).
  destruct (Z.ltb_spec psf_size (4 + glyphs * cs)); [by left|]. destruct (Z.ltb_spec cs 8); [by left|].
  rewrite (proj2 (Z.ltb_ge glyphs 256)) by done. cbn [orb].
  replace (Z.to_nat (Z.min 256 glyphs)) with 256%nat by lia. assert (256 * cs <= glyphs * cs) by nia.
  set (rows := if FONT_HEIGHT <? cs then FONT_HEIGHT else cs).
  assert (8 <= rows <= 16) as Hr by (unfold rows, FONT_HEIGHT; destruct (Z.ltb_spec 16 cs); lia).
  eapply runs_to_bind; [apply (font_from_copy data 4 cs rows); try done; try lia|].
  intros font Hf. right. exists font, 4, cs, rows. split_and!; try done; lia.
Qed.


(** init_vge_font copies 256 glyphs of the built-in font, which has 128: without a
    font file the kernel reads behind the table. *)
Theorem builtin_font_overrun {W} {E : VfsEnv W} (v v' : vfs W) (buffer : list Z) :
  vfs_exists FONT_PATH v = Ret (v', false) -> init_vge_font buffer v = Fault OutOfBounds.
Proof.
  intros Hv. unfold init_vge_font. rewrite Hv. cbn [mbind outcome_bind negb].
  replace (builtin_copy 256 0 zero_font) with (Fault (A := list (list Z)) OutOfBounds) by (vm_compute; reflexivity). done.
Qed.

(** ** The palette *)

Section Palette.
Context (data : list Z) (size : Z).
Hypothesis Hsize : 0 <= size < len data.
Hypothesis Hnul : data !! Z.to_nat size = Some 0.

Lemma skip_ok p i limit : 0 <= i <= limit -> limit <= size -> runs_to (skip p data i limit) (fun j => i <= j <= limit).
Proof.
  intros Hi Hl. unfold skip.
  assert (forall n i, Z.of_nat n = limit - i -> 0 <= i -> runs_to (skip_while n p data i limit) (fun j => i <= j <= limit)) as H; [|apply H; lia].
  clear i Hi. induction n as [|n IH]; intros i Hn Hi; cbn [skip_while]; [cbn [runs_to]; lia|].
  destruct (Z.ltb_spec i limit); [|cbn [runs_to]; lia]. destruct (aget_in_bounds data i) as (c & -> & _); [lia|]. cbn [mbind outcome_bind].
  destruct (p c); [|cbn [runs_to]; lia]. eapply runs_to_mono; [apply IH; lia|]. cbn beta. lia.
Qed.

Lemma hex_loop_ok n : forall pos color, 0 <= pos <= size -> 0 <= color < 2 ^ 32 ->
  runs_to (hex_loop n data pos color) (fun r => match r with Some c => 0 <= c < 2 ^ 32 | None => True end).
Proof.
  induction n as [|n IH]; intros pos color Hp Hc; cbn [hex_loop]; [done|].
  destruct (aget_in_bounds data pos) as (c & -> & Hpc); [lia|]. cbn [mbind outcome_bind].
  destruct (Z.ltb_spec (hex_digit c) 0); [done|]. destruct (Z.eq_dec pos size) as [->|Hne].
  - rewrite Hnul in Hpc. injection Hpc as <-. vm_compute in H. congruence.
  - apply IH; [lia|apply u32_range].
Qed.

Lemma parse_hex_ok pos : 0 <= pos <= size ->
  runs_to (parse_hex_color data pos) (fun r => match r with Some c => 0 <= c < 2 ^ 32 | None => True end).
Proof.
  intros Hp. unfold parse_hex_color. destruct (aget_in_bounds data pos) as (c & -> & Hpc); [lia|]. cbn [mbind outcome_bind].
  destruct (Z.eqb_spec c 35) as [->|]; [|done]. cbn [negb]. apply hex_loop_ok; [|lia].
  destruct (Z.eq_dec pos size) as [->|Hne]; [congruence|lia].
Qed.

Lemma is_word_ok start n w : 0 <= start -> start + n <= size -> exists b, is_word data start n w = Ret b.
Proof.
  intros Hs Hn. unfold is_word. destruct (Z.eqb_spec n (len (lit w))) as [->|]; [|eauto].
  revert start Hs Hn. generalize (lit w). intros word. induction word as [|c word IH]; intros start Hs Hn; cbn [same_at]; [eauto|].
  unfold len in *. cbn [length] in Hn. destruct (aget_in_bounds data start) as (d & -> & _); [unfold len; lia|]. cbn [mbind outcome_bind].
  destruct (d =? c); [apply IH; lia|eauto].
Qed.

Lemma color_name_ok start n : 0 <= start -> start + n <= size ->
  runs_to (color_name_to_offset data start n) (fun o => -1 <= o < 8).
Proof.
  intros Hs Hn. unfold color_name_to_offset.
  assert (forall names, Forall (fun e => 0 <= e.2 < 8) names -> runs_to (name_loop data start n names) (fun o => -1 <= o < 8)) as H.
  { induction 1 as [|[w o] names Ho _ IH]; cbn [name_loop]; [cbn [runs_to]; lia|]. destruct (is_word_ok start n w Hs Hn) as [b ->]. cbn [mbind outcome_bind].
    destruct b; [cbn [runs_to snd] in *; lia|done]. }
  apply H. repeat constructor; cbn; lia.
Qed.

Definition palette_ok (pal : list Z) : Prop := length pal = 16%nat /\ Forall (fun c => 0 <= c < 2 ^ 32) pal.

Lemma palette_line_ok line_start line_end base pal :
  0 <= line_start <= line_end -> line_end <= size -> base = -1 \/ base = 0 \/ base = 8 -> palette_ok pal ->
  runs_to (palette_line data line_start line_end base pal) (fun '(b, p) => (b = -1 \/ b = 0 \/ b = 8) /\ palette_ok p).
Proof.
  intros Hl He Hb Hp. unfold palette_line.
  eapply runs_to_bind; [apply skip_ok; lia|]. intros i Hi. cbn beta in Hi. destruct (Z.leb_spec line_end i); [done|].
  destruct (aget_in_bounds data i) as (c & -> & _); [lia|]. cbn [mbind outcome_bind]. destruct (c =? 35); [done|].
  destruct (c =? 91).
  { eapply runs_to_bind; [apply skip_ok; lia|]. intros j Hj. cbn beta in Hj.
    destruct (is_word_ok (i + 1) (j - (i + 1)) "palette.normal") as [b1 ->]; [lia..|]. cbn [mbind outcome_bind]. destruct b1; [cbn; auto|].
    destruct (is_word_ok (i + 1) (j - (i + 1)) "palette.bright") as [b2 ->]; [lia..|]. cbn. destruct b2; auto. }
  destruct (Z.ltb_spec base 0); [done|].
  eapply runs_to_bind; [apply skip_ok; lia|]. intros j Hj. cbn beta in Hj.
  eapply runs_to_bind; [apply color_name_ok; lia|]. intros o Ho. cbn beta in Ho. destruct (Z.ltb_spec o 0); [done|].
  eapply runs_to_bind; [apply skip_ok; lia|]. intros k Hk. cbn beta in Hk. destruct (Z.leb_spec line_end k); [done|].
  destruct (aget_in_bounds data k) as (d & -> & _); [lia|]. cbn [mbind outcome_bind]. destruct (negb (d =? 61)); [done|].
  eapply runs_to_bind; [apply skip_ok; lia|]. intros m Hm. cbn beta in Hm.
  eapply runs_to_bind; [apply parse_hex_ok; lia|]. intros [color|] Hc; [|done].
  destruct Hp as [Hp1 Hp2]. rewrite aset_in_bounds by (unfold len; lia). cbn [mbind outcome_bind runs_to]. split; [done|].
  split; [by rewrite length_insert|by apply Forall_insert].
Qed.

(** No palette file makes the parser leave it: the terminator that vfs_read puts
    behind the file stops the digits of a colour. *)
Theorem palette_safe (pal : list Z) : palette_ok pal -> runs_to (parse_palette_conf data size pal) palette_ok.
Proof.
  intros Hp. unfold parse_palette_conf.
  assert (forall n pos base pal, size - pos <= Z.of_nat n -> 0 <= pos -> base = -1 \/ base = 0 \/ base = 8 -> palette_ok pal ->
    runs_to (palette_lines n data size pos base pal) palette_ok) as H; [|apply H; [lia|lia|auto|done]].
  clear pal Hp. induction n as [|n IH]; intros pos base pal Hn H0 Hb Hp; cbn [palette_lines]; destruct (Z.leb_spec size pos); try done; [lia|].
  eapply runs_to_bind; [apply skip_ok; lia|]. intros e He. cbn beta in He.
  eapply runs_to_bind; [apply palette_line_ok; try done; lia|]. intros [b p] [Hb' Hp'].
  apply IH; try done; destruct (Z.ltb_spec e size); lia.
Qed.
End Palette.

(** ** The panic screen *)

Record pfb_ok (p : pfb) (px : list Z) : Prop := {
  po_addr : pfb_addr p = Some px;
  po_width : 0 <= pfb_width p <= pfb_pitch_px p;
  po_height : 0 <= pfb_height p;
  po_mem : len px = pfb_height p * pfb_pitch_px p;
  po_small : pfb_height p * pfb_pitch_px p < 2 ^ 32;
}.

(** The same screen with other pixels of the same number. *)
Definition pfb_kept (n : nat) (p : pfb) : Prop := exists px, pfb_ok p px /\ length px = n.

Lemma pfb_index p px x y : pfb_ok p px -> 0 <= x < pfb_width p -> 0 <= y < pfb_height p ->
  u32 (u32 (y * pfb_pitch_px p) + x) = y * pfb_pitch_px p + x /\ 0 <= y * pfb_pitch_px p + x < len px.
Proof.
  intros [H1 H2 H3 H4 H5] Hx Hy. change (2 ^ 32) with 4294967296 in *. rewrite H4.
  assert (y * pfb_pitch_px p + x < pfb_height p * pfb_pitch_px p) by nia. assert (0 <= y * pfb_pitch_px p) by nia.
  rewrite !u32_id by (rewrite ?u32_id by lia; lia). lia.
Qed.

Lemma pfb_set n p px x y color : pfb_ok p px -> length px = n -> 0 <= x < pfb_width p -> 0 <= y < pfb_height p ->
  exists px', aset px (u32 (u32 (y * pfb_pitch_px p) + x)) color = Ret px' /\ pfb_ok (with_pfb p px') px' /\ length px' = n.
Proof.
  intros Hp Hn Hx Hy. destruct (pfb_index p px x y Hp Hx Hy) as [-> Hi]. rewrite aset_in_bounds by done.
  eexists. split; [done|]. split; [|by rewrite length_insert]. destruct Hp as [H1 H2 H3 H4 H5]. split; cbn; try done.
  unfold len in *. by rewrite length_insert.
Qed.

Lemma pfb_putpixel_ok n x y color p : pfb_kept n p -> 0 <= x -> 0 <= y -> runs_to (pfb_putpixel x y color p) (pfb_kept n).
Proof.
  intros (px & Hp & Hn) Hx Hy. unfold pfb_putpixel. rewrite (po_addr _ _ Hp).
  destruct (Z.leb_spec (pfb_width p) x), (Z.leb_spec (pfb_height p) y); cbn [orb]; try (by exists px).
  destruct (pfb_set n p px x y color Hp Hn) as (px' & -> & Hp' & Hn'); [lia..|]. cbn [mbind outcome_bind runs_to]. by exists px'.
Qed.

Lemma pfb_cols_ok n k : forall bits col fg y p, pfb_kept n p -> 0 <= y -> runs_to (pfb_cols k bits col fg y p) (pfb_kept n).
Proof.
  induction k as [|k IH]; intros bits col fg y p Hp Hy; cbn [pfb_cols]; [done|].
  eapply runs_to_bind; [apply pfb_putpixel_ok; [done|apply u32_range|done]|]. intros p' Hp'. by apply IH.
Qed.

Lemma pfb_glyph_ok n k : forall glyph row fg p, pfb_kept n p -> 0 <= row -> row + Z.of_nat k <= len glyph ->
  runs_to (pfb_glyph k glyph row fg p) (pfb_kept n).
Proof.
  induction k as [|k IH]; intros glyph row fg p Hp Hr Hk; cbn [pfb_glyph]; [done|].
  destruct (aget_in_bounds glyph row) as (b & -> & _); [lia|]. cbn [mbind outcome_bind].
  eapply runs_to_bind; [apply pfb_cols_ok; [done|apply u32_range]|]. intros p' Hp'. apply IH; [done|lia|lia].
Qed.

Lemma pcur_kept n p x y : pfb_kept n p -> pfb_kept n (with_pcur p x y).
Proof. intros (px & [H1 H2 H3 H4 H5] & Hn). exists px. by split. Qed.

Lemma pfb_putchar_ok n c fg p : pfb_kept n p -> 0 <= c -> runs_to (pfb_putchar c fg p) (pfb_kept n).
Proof.
  intros Hp Hc. unfold pfb_putchar. destruct (pfb_addr p) eqn:Ea; [|done]. destruct (c =? 10); [by apply pcur_kept|].
  destruct (builtin_glyphs (if 128 <=? c then 63 else c)) as (g & -> & Hg); [destruct (Z.leb_spec 128 c); lia|]. cbn [mbind outcome_bind].
  eapply runs_to_bind; [apply pfb_glyph_ok; [done|lia|lia]|]. intros p' Hp'. cbn [runs_to].
  destruct (_ <? _); [by do 2 apply pcur_kept|by apply pcur_kept].
Qed.

Lemma pfb_puts_ok n s fg : Forall (fun c => 0 <= c) s -> forall p, pfb_kept n p -> runs_to (pfb_puts s fg p) (pfb_kept n).
Proof.
  induction 1 as [|c s Hc _ IH]; intros p Hp; cbn [pfb_puts]; [done|].
  eapply runs_to_bind; [by apply pfb_putchar_ok|]. intros p' Hp'. by apply IH.
Qed.

Lemma pfb_row_ok n k : forall x y p, pfb_kept n p -> 0 <= x -> x + Z.of_nat k <= pfb_width p -> 0 <= y < pfb_height p ->
  runs_to (pfb_row k x y p) (fun p' => pfb_kept n p' /\ pfb_width p' = pfb_width p /\ pfb_height p' = pfb_height p).
Proof.
  induction k as [|k IH]; intros x y p Hp Hx Hk Hy; cbn [pfb_row]; [done|]. destruct Hp as (px & Hp & Hn). rewrite (po_addr _ _ Hp).
  destruct (pfb_set n p px x y PANIC_BG Hp Hn) as (px' & -> & Hp' & Hn'); [lia..|]. cbn [mbind outcome_bind].
  apply (IH (x + 1) y (with_pfb p px')); [by exists px'|lia|cbn; lia|done].
Qed.

Lemma pfb_clear_ok n p : pfb_kept n p -> runs_to (pfb_clear p) (pfb_kept n).
Proof.
  intros Hp. unfold pfb_clear. destruct (pfb_addr p) eqn:Ea; [|done].
  assert (0 <= pfb_width p /\ 0 <= pfb_height p) as [Hw Hh] by (destruct Hp as (px & [] & _); lia).
  assert (forall m y q, pfb_kept n q -> pfb_width q = pfb_width p -> pfb_height q = pfb_height p -> 0 <= y -> y + Z.of_nat m <= pfb_height p ->
    runs_to (pfb_rows m y q) (pfb_kept n)) as H.
  { induction m as [|m IH]; intros y q Hq Ew Eh Hy Hm; cbn [pfb_rows]; [done|].
    eapply runs_to_bind; [apply (pfb_row_ok n); [done|lia|lia|lia]|]. intros q' (Hq' & Ew' & Eh'). apply IH; [done|congruence|congruence|lia|lia]. }
  eapply runs_to_bind; [apply H; try done; lia|]. intros q Hq. by apply pcur_kept.
Qed.

Lemma lit_nonneg s : Forall (fun c => 0 <= c) (lit s).
Proof. unfold lit. apply Forall_fmap, Forall_true. intros c. cbn. lia. Qed.

Lemma hex64_nonneg v : Forall (fun c => 0 <= c) (hex64 v).
Proof.
  unfold hex64. apply Forall_app. split; [by repeat constructor|]. generalize 16%nat. intros n. induction n as [|n IH]; cbn [hex64_digits]; constructor; [|done].
  assert (0 <= Z.land (Z.shiftr v (4 * Z.of_nat n)) 15) by (change 15 with (Z.ones 4); rewrite Z.land_ones by lia; apply Z.mod_pos_bound; lia).
  destruct (_ <? 10); lia.
Qed.

Definition item_ok (i : screen_item) : Prop := match i with Chars s _ => Forall (fun c => 0 <= c) s | _ => True end.

Lemma show_items_ok n l : Forall item_ok l -> forall p, pfb_kept n p -> runs_to (show_items l p) (pfb_kept n).
Proof.
  induction 1 as [|i l Hi _ IH]; intros p Hp; cbn [show_items]; [done|]. eapply (runs_to_bind _ _ (pfb_kept n)); [|intros; by apply IH].
  destruct i as [dy|s fg|s fg|v fg]; cbn [show_item]; [by apply pcur_kept|apply pfb_puts_ok; [apply lit_nonneg|done]|by apply pfb_puts_ok|apply pfb_puts_ok; [apply hex64_nonneg|done]].
Qed.

Lemma serial_print_ok {C} {P : CmosPorts C} fuel s : (forall c, fst (is_transmit_empty c) <> 0) -> (0 < fuel)%nat ->
  forall c, exists c', serial_print fuel s c = Ret c'.
Proof.
  intros Hr Hf. destruct fuel as [|fuel]; [lia|]. induction s as [|a s IH]; intros c; cbn [serial_print]; [eauto|]. cbn [write_serial].
  specialize (Hr c). destruct (is_transmit_empty c) as [r c1]. cbn [fst] in Hr. rewrite (proj2 (Z.eqb_neq r 0) Hr). cbn [mbind outcome_bind]. apply IH.
Qed.

Lemma exception_items name frame err regs cr2 cr3 : Forall (fun c => 0 <= c) name ->
  Forall item_ok (exception_screen name frame err regs cr2 cr3).
Proof.
  intros Hn. unfold exception_screen, pair_of. destruct err, regs; cbn [app]; repeat (apply Forall_cons_2; [done || exact Hn|]); apply Forall_nil_2.
Qed.

(** The report of an exception is written to the serial line and the screen without
    an access outside the framebuffer, wherever the text ends. *)
Theorem exception_halt_safe {C} {P : CmosPorts C} fuel name frame err regs cr2 cr3 (p : pfb) (px : list Z) (c : C) :
  (forall c, fst (is_transmit_empty c) <> 0) -> (0 < fuel)%nat -> pfb_ok p px -> Forall (fun c => 0 <= c) name ->
  runs_to (exception_halt fuel name frame err regs cr2 cr3 p c) (fun '(p', _) => pfb_kept (length px) p').
Proof.
  intros Hr Hf Hp Hn. unfold exception_halt.
  destruct (serial_print_ok fuel (exception_serial name frame err regs cr2 cr3) Hr Hf c) as [c' ->]. cbn [mbind outcome_bind].
  eapply runs_to_bind; [apply (pfb_clear_ok (length px)); by exists px|]. intros q Hq.
  eapply runs_to_bind; [apply (show_items_ok (length px)); [by apply exception_items|by apply pcur_kept]|]. done.
Qed.

Module Demo.
(** A driver that keeps what it is given. *)
Definition log_puts (s : list Z) (code : Z) (w : list (list Z * Z)) : outcome (list (list Z * Z)) := Ret (w ++ [(s, code)]).
Definition log_driver : tty_driver (list (list Z * Z)) := mktty (Some log_puts) None.
Definition log_tty : tty (list (list Z * Z)) := mktty_state (Some log_driver) 0 0 (replicate 16 0) 0 7 0.

Lemma kprint_colors_witness :
  exists t', tty_puts_all (kprint (lit "hi") 0x4A) log_tty [] = (w' ← print_each log_puts (lit "hi") (Z.land 0x4A 255) []; Ret (t', w')) /\
  current_driver t' = Some log_driver /\ tty_idle t' /\ colors t' = (7, 0).
Proof.
  refine (kprint_colors log_driver log_puts log_tty (lit "hi") 0x4A [] eq_refl eq_refl _ _); [by split|].
  vm_compute. repeat constructor; congruence.
Defined.

(** A screen of one line and two columns of text. *)
Definition small : limine_framebuffer := mklfb (replicate 256 0) 16 16 64.
Definition off : fb := mkfb [] 0 0 0 0 0 0 0 0 0 0 false false 0 zero_font 8 vga_palette.
Definition fresh_tty : tty fb := mktty_state None 0 0 (replicate 16 0) 0 7 0.
Definition no_panic : pfb := mkpfb None 0 0 0 0 0.
Definition noise : list (list Z) := [lit "ab"; [27; 91; 51; 50; 59; 57; 57]; [109; 200; 27]; [9; 10; 255]].

Lemma console_safe_witness :
  runs_to (init_fb (Some small) off fresh_tty no_panic) (fun '(f1, t1, _) =>
    runs_to (tty_puts_all noise t1 f1) (fun '(t2, f2) =>
      fb_ok f2 /\ length (pixels f2) = length (l_memory small) /\ 0 <= cursor_y f2 <= fb_height f2 - 16 /\
      fb_width f2 = l_width small /\ fb_height f2 = l_height small)).
Proof.
  refine (console_safe small off fresh_tty no_panic noise _ eq_refl eq_refl _ _ _ _).
  - split; vm_compute; try split; congruence.
  - apply Forall_replicate. reflexivity.
  - vm_compute. split; congruence.
  - split; vm_compute; try split; congruence.
  - vm_compute. repeat constructor; congruence.
Defined.

Definition lines : fb := mkfb (replicate 256 1 ++ replicate 256 2) 16 32 64 16 0x0a0a0a 0 8 16 8 16 true false 2048 zero_font 8 vga_palette.

Lemma newline_scrolls_witness :
  runs_to (newline lines) (fun f' =>
    cursor_x f' = 0 /\ cursor_y f' = Z.min (cursor_y lines + 16) (fb_height lines - 16) /\
    forall x y, 0 <= x < fb_width lines -> 0 <= y < fb_height lines ->
      pixel f' x y = if cursor_y lines + 32 <=? fb_height lines then pixel lines x y
                     else if y <? fb_height lines - 16 then pixel lines x (y + 16) else Some (bg_color lines)).
Proof.
  refine (newline_scrolls lines _ eq_refl _); [|vm_compute; split; congruence].
  split; try (vm_compute; repeat split; congruence). split; [reflexivity|]. apply Forall_replicate. reflexivity.
Defined.

(** With padding behind the rows the pixels that newline clears are not the last line:
    the picture of the old line stays at its end. *)
Definition padded : fb := mkfb (replicate 512 2) 8 32 64 16 0x0a0a0a 0 0 16 8 16 true false 2048 zero_font 8 vga_palette.

Example newline_padding : runs_to (newline padded) (fun f' => pixel f' 0 31 = Some 2 /\ pixel f' 0 16 = Some 0x0a0a0a).
Proof. vm_compute. split; reflexivity. Qed.

Lemma draw_line_connects_witness :
  exists pts, (forall f, initialized f = true -> draw_line 8 1 5 7 2 255 f = paint pts 255 f) /\
    len pts = Z.max (Z.abs (7 - 1)) (Z.abs (2 - 5)) + 1 /\
    head pts = Some (1, 5) /\ last pts = Some (7, 2) /\ connected pts.
Proof. refine (draw_line_connects 1 5 7 2 255 8 _ _ _ _ _); vm_compute; first [lia | split; congruence]. Defined.

(** A PSF1 file of 256 glyphs of 8 bytes. *)
Definition psf1 : list Z := [0x36; 0x04; 0; 8] ++ replicate 2048 0x18.


Example psf1_loads : runs_to (parse_psf_to_font psf1 (len psf1)) (fun '(r, _) => r = 0).
Proof. vm_compute. reflexivity. Qed.

(** The bytes of a palette file, with the terminator of vfs_read. *)
Definition conf : list Z :=
  lit "[palette.bright]" ++ [10] ++ lit "# comment" ++ [10] ++ lit " red = #A0b1C2" ++ [10] ++ lit "blue=#12" ++ [10; 0].

Example palette_demo : parse_palette_conf conf (len conf - 1) vga_palette = Ret (<[12%nat := 0xA0B1C2]> vga_palette).
Proof. vm_compute. reflexivity. Qed.
End Demo.
