(* ===== verification/Log.v ===== *)
(** * The system log

    lib/log.h: log_format_basic puts a message together in an array of 256 bytes, sends
    it to the serial line and appends it to the log, an array of 4000 bytes that is
    written to a file after every message.

    The variable arguments are the slots of eight bytes in which the processor passes
    them: an integer of up to 64 bits or a pointer to a string.  An argument that is
    not there, or a number where a string is expected, is a fault.

    [log_message_text]: the message is the text that the format describes;
    [log_session]: over any session the log of each C file is the first 3999 characters of
    its messages; [log_string_overruns]: the length of a string argument is not checked;
    [log_number_overruns], [log_hex_negative]: numbers near the end of the array,
    and numbers above 2^31 in base 16. *)

From stdpp Require Import strings.
From S2P Require Import Prelude Rtc Vfs VfsProofs VfsOps VfsTable VfsTheorems Kstd KstdProofs Bytes Text Console.

#[local] Open Scope Z_scope.

Definition LOG_LEVEL_FATAL : Z := 0.
Definition LOG_LEVEL_ERROR : Z := 1.
Definition LOG_LEVEL_WARN : Z := 2.
Definition LOG_LEVEL_INFO : Z := 3.
Definition LOG_LEVEL_DEBUG : Z := 4.
Definition LOG_LEVEL_TRACE : Z := 5.
Definition CURRENT_LOG_LEVEL : Z := LOG_LEVEL_TRACE.
Definition MAX_LOG_SIZE : Z := 4000.

(** Characters. *)
Definition CH_PERCENT : Z := 37.
Definition CH_A : Z := 65.
Definition CH_c : Z := 99.
Definition CH_d : Z := 100.
Definition CH_p : Z := 112.
Definition CH_s : Z := 115.
Definition CH_u : Z := 117.
Definition CH_x : Z := 120.
Definition CH_z : Z := 122.

(** ** Arguments *)

Inductive va := VWord (z : Z) | VStr (s : list Z).

(** [va_arg(args, int)], [unsigned int], [size_t] or [void*]: the slot; and a string. *)
Definition va_word (args : list va) : outcome (Z * list va) :=
  match args with VWord z :: args' => Ret (z, args') | _ => Fault UninitRead end.
Definition va_str (args : list va) : outcome (list Z * list va) :=
  match args with VStr s :: args' => Ret (s, args') | _ => Fault UninitRead end.

(** ** Messages *)

(** [buffer[buf_pos++] = c]. *)
Definition put (c : Z) (b : list Z * Z) : outcome (list Z * Z) :=
  let '(buffer, buf_pos) := b in buffer ← aset buffer buf_pos c; Ret (buffer, buf_pos + 1).

(** [while ( *n ) buffer[buf_pos++] = *n++], from the array [src] at [i]. *)
Fixpoint put_loop (n : nat) (src : list Z) (i : Z) (b : list Z * Z) : outcome (list Z * Z) :=
  match n with
  | O => OutOfFuel
  | S n' => c ← aget src i; if c =? 0 then Ret b else b ← put c b; put_loop n' src (i + 1) b
  end.

Definition put_all (src : list Z) (b : list Z * Z) : outcome (list Z * Z) := put_loop (S (length src)) src 0 b.

(** [n] times the same character. *)
Fixpoint put_times (n : nat) (c : Z) (b : list Z * Z) : outcome (list Z * Z) :=
  match n with O => Ret b | S n' => b ← put c b; put_times n' c b end.

(** The loop of utoa_hex: [i] characters have been written. *)
Fixpoint utoa_loop (n : nat) (num : Z) (str : list Z) (i : Z) : outcome (list Z * Z) :=
  match n with
  | O => OutOfFuel
  | S n' =>
      if num =? 0 then Ret (str, i) else
      let rem := num mod 16 in
      str ← aset str i (if 9 <? rem then rem - 10 + CH_A else rem + CH_0);
      utoa_loop n' (num / 16) str (i + 1)
  end.

Definition utoa_hex (num : Z) (str : list Z) : outcome (list Z) :=
  if num =? 0 then str ← aset str 0 CH_0; aset str 1 0 else
  '(str, i) ← utoa_loop 17 num str 0;
  str ← aset str i 0;
  reverse str i.

(** The digits of [hex] at the end of eight zeros: the array of "%08x". *)
Fixpoint pad_loop (n : nat) (hex : list Z) (i start : Z) (temp : list Z) : outcome (list Z) :=
  match n with
  | O => Ret temp
  | S n' => c ← aget hex i; temp ← aset temp (start + i) c; pad_loop n' hex (i + 1) start temp
  end.

Definition hex8 (value : Z) (temp_buf hex_buf : list Z) : outcome (list Z) :=
  let temp_buf := replicate 8 CH_0 ++ 0 :: drop 9 temp_buf in
  hex_buf ← itoa (i32 value) hex_buf 16;
  l ← strlen hex_buf;
  pad_loop (Z.to_nat l) hex_buf 0 (8 - l) temp_buf.

(** One round of the loop at [fmt]: the characters used, the arguments left, the
    buffer.  [temp] stands for the arrays temp_buf and hex_buf of 32 bytes: every
    conversion writes all the characters that are read after it, so what an earlier
    directive left there is never seen, and the theorems hold for any contents. *)
Definition log_step (temp fmt : list Z) (p : Z) (args : list va) (b : list Z * Z) : outcome (Z * list va * (list Z * Z)) :=
  c ← aget fmt p;
  let plain := b ← put c b; Ret (1, args, b) in
  if negb (c =? CH_PERCENT) then plain else
  c1 ← aget fmt (p + 1);
  if c1 =? CH_d then
    '(z, args) ← va_word args; t ← itoa (i32 z) temp 10; b ← put_all t b; Ret (2, args, b)
  else if c1 =? CH_u then
    '(z, args) ← va_word args; t ← itoa (i32 z) temp 10; b ← put_all t b; Ret (2, args, b)
  else
  z_u ← (if c1 =? CH_z then c2 ← aget fmt (p + 2); Ret (c2 =? CH_u) else Ret false);
  if (z_u : bool) then
    '(z, args) ← va_word args; t ← itoa (i32 z) temp 10; b ← put_all t b; Ret (3, args, b)
  else if c1 =? CH_x then
    '(z, args) ← va_word args; t ← itoa (i32 z) temp 16; b ← put_all t b; Ret (2, args, b)
  else
  is_08x ← (if c1 =? CH_0 then
              c2 ← aget fmt (p + 2);
              if c2 =? CH_0 + 8 then c3 ← aget fmt (p + 3); Ret (c3 =? CH_x) else Ret false
            else Ret false);
  if (is_08x : bool) then
    '(z, args) ← va_word args; t ← hex8 z temp temp; b ← put_all t b; Ret (4, args, b)
  else if c1 =? CH_s then
    '(s, args) ← va_str args; b ← put_all s b; Ret (2, args, b)
  else if c1 =? CH_c then
    '(z, args) ← va_word args; b ← put (u8 z) b; Ret (2, args, b)
  else if c1 =? CH_p then
    '(z, args) ← va_word args;
    b ← put CH_0 b; b ← put CH_x b;
    t ← utoa_hex (u64 z) temp;
    l ← strlen t;
    b ← put_times (Z.to_nat (8 - l)) CH_0 b;
    b ← put_all t b; Ret (2, args, b)
  else if c1 =? CH_PERCENT then b ← put CH_PERCENT b; Ret (2, args, b)
  else plain.

Fixpoint log_loop (n : nat) (temp fmt : list Z) (p : Z) (args : list va) (b : list Z * Z) : outcome (list Z * Z) :=
  match n with
  | O => OutOfFuel
  | S n' =>
      c ← aget fmt p;
      if (c =? 0) || negb (snd b <? 250) then Ret b else
      '(k, args, b) ← log_step temp fmt p args b;
      log_loop n' temp fmt (p + k) args b
  end.

(** The level in brackets. *)
Definition log_prefix (level : list Z) (b : list Z * Z) : outcome (list Z * Z) :=
  b ← put 91 b; b ← put_all level b; b ← put 93 b; put 32 b.

(** The array when it is printed; [buffer] and [temp] are what the stack contains. *)
Definition log_message (buffer temp level fmt : list Z) (args : list va) : outcome (list Z) :=
  b ← log_prefix level (buffer, 0);
  '(buffer, buf_pos) ← log_loop (S (length fmt)) temp fmt 0 args b;
  aset buffer buf_pos 0.

(** The characters before the terminator. *)
Fixpoint upto_nul (s : list Z) : list Z := match s with [] => [] | c :: s' => if c =? 0 then [] else c :: upto_nul s' end.

(** ** The log *)

Record syslog := mklog { log_buffer : list Z; log_size : Z }.

Definition log_file : list Z := lit "/var/log/system.log".

(** [while (message[i] != '\0' && log_size < MAX_LOG_SIZE - 1)]. *)
Fixpoint append_loop (n : nat) (message : list Z) (i : Z) (s : syslog) : outcome syslog :=
  match n with
  | O => OutOfFuel
  | S n' =>
      c ← aget message i;
      if negb (c =? 0) && (log_size s <? MAX_LOG_SIZE - 1) then
        b ← aset (log_buffer s) (log_size s) c;
        append_loop n' message (i + 1) (mklog b (log_size s + 1))
      else Ret s
  end.

Section Syslog.
Context {W C : Type} {E : VfsEnv W} {P : CmosPorts C}.

Definition syslog_print (message : list Z) (s : syslog) (v : vfs W) : outcome (syslog * vfs W) :=
  s ← append_loop (S (length message)) message 0 s;
  b ← aset (log_buffer s) (log_size s) 0;
  '(v, _) ← vfs_create log_file b (log_size s) v;
  Ret (mklog b (log_size s), v).

Definition init_msg : list Z := lit "=== NovariaOS System Log ===" ++ [10].

Definition syslog_init (s : syslog) (v : vfs W) : outcome (syslog * vfs W) :=
  b ← aset (log_buffer s) 0 0;
  syslog_print (init_msg ++ [0]) (mklog b 0) v.

(** [fuel] bounds the wait for each character of the serial line. *)
Definition log_format_basic (fuel : nat) (buffer temp level fmt : list Z) (args : list va) (s : syslog) (v : vfs W) (c : C)
  : outcome (syslog * vfs W * C) :=
  buffer ← log_message buffer temp level fmt args;
  c ← serial_print fuel (upto_nul buffer) c;
  '(s, v) ← syslog_print buffer s v;
  Ret (s, v, c).

(** LOG_FATAL to LOG_TRACE. *)
Definition level_name (l : Z) : list Z :=
  if l =? LOG_LEVEL_FATAL then zlit "FATAL" else if l =? LOG_LEVEL_ERROR then zlit "ERROR" else if l =? LOG_LEVEL_WARN then zlit "WARN"
  else if l =? LOG_LEVEL_INFO then zlit "INFO" else if l =? LOG_LEVEL_DEBUG then zlit "DEBUG" else zlit "TRACE".

Definition LOG (fuel : nat) (buffer temp : list Z) (l : Z) (fmt : list Z) (args : list va) (s : syslog) (v : vfs W) (c : C) :=
  if l <=? CURRENT_LOG_LEVEL then log_format_basic fuel buffer temp (level_name l) fmt args s v c else Ret (s, v, c).
End Syslog.

(** ** What a format means *)

Inductive directive := DText (c : Z) | DInt | DUnsigned | DSize | DHex | DHex8 | DStr | DChar | DPtr | DPercent.

(** The directive at the start of a format and the number of its characters. *)
Definition parse_one (f : list Z) : directive * nat :=
  let at_ i := default 0 (f !! i) in
  if negb (at_ 0%nat =? CH_PERCENT) then (DText (at_ 0%nat), 1%nat)
  else if at_ 1%nat =? CH_d then (DInt, 2%nat)
  else if at_ 1%nat =? CH_u then (DUnsigned, 2%nat)
  else if (at_ 1%nat =? CH_z) && (at_ 2%nat =? CH_u) then (DSize, 3%nat)
  else if at_ 1%nat =? CH_x then (DHex, 2%nat)
  else if (at_ 1%nat =? CH_0) && (at_ 2%nat =? CH_0 + 8) && (at_ 3%nat =? CH_x) then (DHex8, 4%nat)
  else if at_ 1%nat =? CH_s then (DStr, 2%nat)
  else if at_ 1%nat =? CH_c then (DChar, 2%nat)
  else if at_ 1%nat =? CH_p then (DPtr, 2%nat)
  else if at_ 1%nat =? CH_PERCENT then (DPercent, 2%nat)
  else (DText CH_PERCENT, 1%nat).

(** Digits in base 16, least significant first, and their characters. *)
Fixpoint hex_digits (n : nat) (num : Z) : list Z :=
  match n with O => [] | S n' => if num =? 0 then [] else num mod 16 :: hex_digits n' (num / 16) end.
Definition lower (r : Z) : Z := if 9 <? r then r - 10 + CH_a else r + CH_0.
Definition upper (r : Z) : Z := if 9 <? r then r - 10 + CH_A else r + CH_0.
Definition show_hex (dig : Z -> Z) (num : Z) : list Z := if num =? 0 then [CH_0] else rev (map dig (hex_digits 16 num)).
Definition zeros (n : Z) (t : list Z) : list Z := replicate (Z.to_nat (n - len t)) CH_0 ++ t.

(** The numbers of all directives but %p go through int.  In base 10 the least int has no
    opposite, and in base 16 negative numbers have no sign: the remainders of the division
    are negative there, and a digit [d] is the character [d] places before the zero. *)
Definition mirror (r : Z) : Z := CH_0 - r.
Definition INT_MIN : Z := -2147483648.
Definition dec_int (z : Z) : list Z := if z =? INT_MIN then lit "-./,),(-*,(" else show z.
Definition hex_int (z : Z) : list Z := if z <? 0 then show_hex mirror (- z) else show_hex lower z.

(** The text of a directive and the arguments left; [None] when its argument is
    missing or not of its kind, or a character is zero. *)
Definition text_of (d : directive) (args : list va) : option (list Z * list va) :=
  match d, args with
  | DText c, _ => Some ([c], args)
  | DPercent, _ => Some ([CH_PERCENT], args)
  | DInt, VWord z :: r | DUnsigned, VWord z :: r | DSize, VWord z :: r => Some (dec_int (i32 z), r)
  | DHex, VWord z :: r => Some (hex_int (i32 z), r)
  | DHex8, VWord z :: r => Some (zeros 8 (hex_int (i32 z)), r)
  | DStr, VStr s :: r => if existsb (Z.eqb 0) s then Some (upto_nul s, r) else None
  | DChar, VWord z :: r => if u8 z =? 0 then None else Some ([u8 z], r)
  | DPtr, VWord z :: r => Some ([CH_0; CH_x] ++ zeros 8 (show_hex upper (u64 z)), r)
  | _, _ => None
  end.

(** The text of a format; [n] bounds its directives. *)
Fixpoint render (n : nat) (f : list Z) (args : list va) : option (list Z) :=
  match n, f with
  | O, _ => None
  | _, [] => Some []
  | S n', _ =>
      let '(d, k) := parse_one f in
      match text_of d args with
      | Some (t, args) => match render n' (drop k f) args with Some u => Some (t ++ u) | None => None end
      | None => None
      end
  end.

(** ** Numbers *)

Lemma hex_value n : forall num, 0 <= num < 16 ^ Z.of_nat n -> foldr (fun d a => d + 16 * a) 0 (hex_digits n num) = num.
Proof.
  induction n as [|n IH]; intros num Hn; [change (16 ^ Z.of_nat 0) with 1 in Hn; cbn; lia|].
  cbn [hex_digits]. destruct (Z.eqb_spec num 0) as [->|]; [done|]. cbn [foldr]. rewrite Nat2Z.inj_succ, Z.pow_succ_r in Hn by lia.
  rewrite IH by (split; [apply Z.div_pos; lia|apply Z.div_lt_upper_bound; lia]). pose proof (Z.div_mod num 16). lia.
Qed.

Lemma hex_digits_range n : forall num, 0 <= num -> Forall (fun d => 0 <= d < 16) (hex_digits n num).
Proof.
  induction n as [|n IH]; intros num Hn; cbn [hex_digits]; [constructor|]. destruct (num =? 0); [constructor|].
  constructor; [apply Z.mod_pos_bound; lia|]. apply IH, Z.div_pos; lia.
Qed.

Lemma hex_digits_length n k : forall num, 0 <= num < 16 ^ Z.of_nat k -> (length (hex_digits n num) <= k)%nat.
Proof.
  revert k. induction n as [|n IH]; intros k num Hn; cbn [hex_digits]; [cbn; lia|]. destruct (Z.eqb_spec num 0); [cbn; lia|].
  destruct k as [|k]; [change (16 ^ Z.of_nat 0) with 1 in Hn; lia|]. rewrite Nat2Z.inj_succ, Z.pow_succ_r in Hn by lia. cbn [length].
  specialize (IH k (num / 16) ltac:(split; [apply Z.div_pos; lia|apply Z.div_lt_upper_bound; lia])). lia.
Qed.

Lemma hex_digits_more n m : forall num, 0 <= num < 16 ^ Z.of_nat n -> hex_digits (n + m) num = hex_digits n num.
Proof.
  induction n as [|n IH]; intros num Hn; [change (16 ^ Z.of_nat 0) with 1 in Hn; assert (num = 0) as -> by lia; by destruct m|].
  cbn [Nat.add hex_digits]. destruct (num =? 0); [done|]. f_equal. rewrite Nat2Z.inj_succ, Z.pow_succ_r in Hn by lia.
  apply IH. split; [apply Z.div_pos; lia|apply Z.div_lt_upper_bound; lia].
Qed.

Lemma lower_digit r : 0 <= r < 16 -> digit_char r = lower r.
Proof. intros Hr. unfold digit_char, lower, CH_a, CH_0. destruct (Z.ltb_spec 9 r); apply u8_id; lia. Qed.

(** A loop that stores one digit per round. *)
Lemma fill_ok (dig : Z -> Z) (L : nat -> Z -> list Z -> Z -> outcome (list Z * Z)) :
  (forall n num s i, 0 <= num ->
    L (S n) num s i = if num =? 0 then Ret (s, i) else s ← aset s i (dig (num mod 16)); L n (num / 16) s (i + 1)) ->
  forall n num s i, 0 <= num < 16 ^ Z.of_nat n -> (i + length (hex_digits n num) <= length s)%nat ->
  L (S n) num s (Z.of_nat i) =
  Ret (take i s ++ map dig (hex_digits n num) ++ drop (i + length (hex_digits n num)) s, Z.of_nat (i + length (hex_digits n num))).
Proof.
  intros HL. induction n as [|n IH]; intros num s i Hn Hi.
  { change (16 ^ Z.of_nat 0) with 1 in Hn. rewrite HL by lia. assert (num = 0) as -> by lia.
    cbn [hex_digits length map app Z.eqb]. by rewrite Nat.add_0_r, take_drop. }
  rewrite HL by lia. cbn [hex_digits] in *. destruct (Z.eqb_spec num 0) as [->|Hne].
  { cbn [length map app]. by rewrite Nat.add_0_r, take_drop. }
  cbn [length map] in *. rewrite Nat2Z.inj_succ, Z.pow_succ_r in Hn by lia.
  set (c := dig (num mod 16)). rewrite aset_in_bounds by (unfold len; lia). rewrite Nat2Z.id.
  cbn [mbind outcome_bind]. replace (Z.of_nat i + 1) with (Z.of_nat (S i)) by lia.
  rewrite IH; [|split; [apply Z.div_pos; lia|apply Z.div_lt_upper_bound; lia]|rewrite length_insert; lia].
  do 2 f_equal; [|lia]. rewrite (take_S_r _ _ c) by (apply list_lookup_insert_eq; lia). rewrite take_insert_ge by lia.
  rewrite drop_insert_lt by lia. rewrite <- app_assoc. cbn [app]. do 3 f_equal. f_equal. lia.
Qed.

Lemma fill_from_start (dig : Z -> Z) (L : nat -> Z -> list Z -> Z -> outcome (list Z * Z)) n num s :
  (forall n num s i, 0 <= num ->
    L (S n) num s i = if num =? 0 then Ret (s, i) else s ← aset s i (dig (num mod 16)); L n (num / 16) s (i + 1)) ->
  0 <= num < 16 ^ Z.of_nat n -> (length (hex_digits n num) <= length s)%nat ->
  L (S n) num s 0 = Ret (map dig (hex_digits n num) ++ drop (length (hex_digits n num)) s, Z.of_nat (length (hex_digits n num))).
Proof. intros HL Hn Hs. apply (fill_ok dig L HL n num s 0%nat Hn Hs). Qed.

Definition letter_ok (dig : Z -> Z) : Prop := forall r, 0 <= r < 16 -> 0 < dig r < 128.

Lemma show_hex_ok dig num k : letter_ok dig -> 0 <= num < 16 ^ Z.of_nat k -> (1 <= k)%nat ->
  no_nul (show_hex dig num) /\ len (show_hex dig num) <= Z.of_nat k.
Proof.
  intros Hd Hn Hk. unfold show_hex, no_nul, len. destruct (Z.eqb_spec num 0); [split; [by rewrite list_elem_of_singleton|cbn; lia]|].
  rewrite length_rev, length_map. split; [|pose proof (hex_digits_length 16 k num Hn); lia].
  intros H0. apply list_elem_of_In, in_rev, in_map_iff in H0 as (r & E & Hr). apply list_elem_of_In in Hr.
  pose proof (hex_digits_range 16 num ltac:(lia)) as HF. rewrite Forall_forall in HF. specialize (Hd r (HF r Hr)). lia.
Qed.

(** The end of both conversions. *)
Lemma digits_done dig num s : letter_ok dig -> 0 < num -> len (map dig (hex_digits 16 num)) < len s ->
  runs_to ('(s, i) ← Ret (map dig (hex_digits 16 num) ++ drop (length (hex_digits 16 num)) s, Z.of_nat (length (hex_digits 16 num)));
           s ← aset s i 0; reverse s i)
    (fun s' => len s' = len s /\ exists rest, s' = show_hex dig num ++ 0 :: rest).
Proof.
  intros Hd Hn Hl. cbn [mbind outcome_bind]. set (ds := map dig (hex_digits 16 num)) in *. unfold len in Hl.
  replace (length (hex_digits 16 num)) with (length ds) by (unfold ds; by rewrite length_map).
  destruct (drop (length ds) s) as [|a rest] eqn:Ed; [apply (f_equal length) in Ed; rewrite length_drop in Ed; cbn [length] in Ed; lia|].
  assert (length s = length ds + S (length rest))%nat as Els by (apply (f_equal length) in Ed; rewrite length_drop in Ed; cbn [length] in Ed; lia).
  rewrite aset_in_bounds by (unfold len; rewrite length_app; cbn [length]; lia). cbn [mbind outcome_bind].
  rewrite Nat2Z.id, insert_middle by done. rewrite reverse_prefix. cbn [runs_to]. unfold show_hex. destruct (Z.eqb_spec num 0); [lia|].
  split; [unfold len; rewrite length_app, length_rev; cbn [length]; lia|]. by exists rest.
Qed.

Lemma zero_done s : 2 <= len s -> runs_to (s ← aset s 0 CH_0; aset s 1 0) (fun s' => len s' = len s /\ exists rest, s' = [CH_0] ++ 0 :: rest).
Proof.
  intros Hs. rewrite aset_in_bounds by lia. cbn [mbind outcome_bind]. rewrite aset_in_bounds by (rewrite len_insert; lia).
  unfold len in Hs. destruct s as [|a [|b s]]; [cbn [length] in Hs; lia..|]. split; [done|]. by exists s.
Qed.

Lemma lower_ok : letter_ok lower.
Proof. intros r Hr. unfold lower, CH_a, CH_0. destruct (Z.ltb_spec 9 r); lia. Qed.
Lemma upper_ok : letter_ok upper.
Proof. intros r Hr. unfold upper, CH_A, CH_0. destruct (Z.ltb_spec 9 r); lia. Qed.

Lemma mirror_ok : letter_ok mirror.
Proof. intros r Hr. unfold mirror, CH_0. lia. Qed.

Lemma mirror_digit r : 0 <= r < 16 -> digit_char (- r) = mirror r.
Proof. intros Hr. unfold digit_char, mirror, CH_0. destruct (Z.ltb_spec 9 (- r)); [lia|]. rewrite u8_id; lia. Qed.

(** The conversion of itoa in base 16, for a loop [L] over the absolute value. *)
Lemma itoa_hex_by dig (L : nat -> Z -> list Z -> Z -> outcome (list Z * Z)) num s : letter_ok dig ->
  (forall n num s i, 0 <= num ->
    L (S n) num s i = if num =? 0 then Ret (s, i) else s ← aset s i (dig (num mod 16)); L n (num / 16) s (i + 1)) ->
  0 < num < 16 ^ Z.of_nat 8 -> 32 <= len s ->
  runs_to ('(s, i) ← L 33%nat num s 0; s ← aset s i 0; reverse s i)
    (fun s' => len s' = len s /\ exists rest, s' = show_hex dig num ++ 0 :: rest).
Proof.
  intros Hd HL H8 Hs. assert (0 <= num < 16 ^ Z.of_nat 8) as H8' by lia. unfold len in Hs. pose proof (hex_digits_length 8 8 num H8') as Hl.
  rewrite (fill_from_start dig L 32 num s HL).
  2:{ change (16 ^ Z.of_nat 32) with 340282366920938463463374607431768211456. change (16 ^ Z.of_nat 8) with 4294967296 in H8. lia. }
  2:{ rewrite (hex_digits_more 8 24 num H8' : hex_digits 32 num = _). lia. }
  rewrite (hex_digits_more 8 24 num H8' : hex_digits 32 num = _), <- (hex_digits_more 8 8 num H8' : hex_digits 16 num = _).
  apply (digits_done dig num s); [done|lia|]. unfold len in *. rewrite length_map, (hex_digits_more 8 8 num H8' : hex_digits 16 num = _). lia.
Qed.

Lemma itoa_loop_16 num s i n : num <> 0 -> itoa_loop num 16 s i (S n) = s ← aset s i (digit_char (Z.rem num 16)); itoa_loop (Z.quot num 16) 16 s (i + 1) n.
Proof. intros Hn. cbn [itoa_loop]. destruct (Z.eqb_spec num 0); [done|]. rewrite andb_false_r. done. Qed.

Lemma hex_int_ok num : - 2 ^ 31 <= num < 2 ^ 31 -> no_nul (hex_int num) /\ len (hex_int num) <= 8.
Proof.
  intros Hn. change (2 ^ 31) with 2147483648 in Hn. unfold hex_int.
  destruct (Z.ltb_spec num 0); [apply (show_hex_ok mirror _ 8 mirror_ok)|apply (show_hex_ok lower _ 8 lower_ok)]; try lia;
    change (16 ^ Z.of_nat 8) with 4294967296; lia.
Qed.

Lemma itoa_hex num s : - 2 ^ 31 <= num < 2 ^ 31 -> 32 <= len s ->
  runs_to (itoa num s 16) (fun s' => len s' = len s /\ cstr s' (hex_int num)).
Proof.
  intros Hn Hs. destruct (hex_int_ok num Hn) as [Hz _]. change (2 ^ 31) with 2147483648 in Hn.
  eapply runs_to_mono with (P := fun s' => len s' = len s /\ exists rest, s' = hex_int num ++ 0 :: rest); [|intros s' [? ?]; by split].
  unfold itoa, hex_int. destruct (Z.eqb_spec num 0) as [->|Hne]; [apply zero_done; lia|].
  replace ((num <? 0) && (16 =? 10)) with false by (by rewrite andb_comm). cbv zeta. cbv iota. cbn [mbind outcome_bind].
  destruct (Z.ltb_spec num 0) as [Hneg|Hpos].
  - pose proof (itoa_hex_by mirror (fun n num s i => itoa_loop (- num) 16 s i n) (- num) s mirror_ok) as H. cbv beta in H.
    rewrite Z.opp_involutive in H. apply H; [|change (16 ^ Z.of_nat 8) with 4294967296; lia|done]. clear H. intros n m t i Hm.
    destruct (Z.eqb_spec m 0) as [->|Hm0]; [done|]. rewrite itoa_loop_16 by lia. rewrite Z.rem_opp_l, Z.quot_opp_l by lia.
    rewrite Z.rem_mod_nonneg, Z.quot_div_nonneg, mirror_digit by (lia || apply Z.mod_pos_bound; lia). done.
  - apply (itoa_hex_by lower (fun n num s i => itoa_loop num 16 s i n)); [apply lower_ok| |change (16 ^ Z.of_nat 8) with 4294967296; lia|done].
    intros n m t i Hm. destruct (Z.eqb_spec m 0) as [->|Hm0]; [done|]. rewrite itoa_loop_16 by lia.
    rewrite Z.rem_mod_nonneg, Z.quot_div_nonneg, lower_digit by (lia || apply Z.mod_pos_bound; lia). done.
Qed.

Lemma utoa_hex_ok num s : 0 <= num < 2 ^ 64 -> 32 <= len s ->
  runs_to (utoa_hex num s) (fun s' => len s' = len s /\ cstr s' (show_hex upper num)).
Proof.
  intros Hn Hs. assert (0 <= num < 16 ^ Z.of_nat 16) as H16 by exact Hn.
  destruct (show_hex_ok upper num 16 upper_ok H16 ltac:(lia)) as [Hz _].
  eapply runs_to_mono with (P := fun s' => len s' = len s /\ exists rest, s' = show_hex upper num ++ 0 :: rest); [|intros s' [? ?]; by split].
  unfold utoa_hex. destruct (Z.eqb_spec num 0) as [->|Hne]; [apply zero_done; lia|].
  pose proof (hex_digits_length 16 16 num H16) as Hl. unfold len in Hs.
  rewrite (fill_from_start upper utoa_loop 16 num s ltac:(done) H16 ltac:(lia)).
  apply (digits_done upper num s); [apply upper_ok|lia|unfold len; rewrite length_map; lia].
Qed.

Lemma aget_app_mid (a r : list Z) c i : i = len a -> aget (a ++ c :: r) i = Ret c.
Proof. intros ->. apply aget_lookup; [unfold len; lia|]. unfold len. by rewrite Nat2Z.id, list_lookup_middle. Qed.

Lemma aset_app_mid (a r : list Z) c x i : i = len a -> aset (a ++ c :: r) i x = Ret (a ++ x :: r).
Proof.
  intros ->. rewrite aset_in_bounds by (unfold len; rewrite length_app; cbn [length]; lia). unfold len. by rewrite Nat2Z.id, insert_middle.
Qed.

(** ** Eight digits *)

Lemma pad_loop_ok r tl pre h2 : forall h1 mid, length mid = length h2 ->
  pad_loop (length h2) (h1 ++ h2 ++ 0 :: r) (len h1) (len pre) (pre ++ h1 ++ mid ++ tl) = Ret (pre ++ h1 ++ h2 ++ tl).
Proof.
  induction h2 as [|c h2 IH]; intros h1 mid Hm; [by destruct mid|]. destruct mid as [|m mid]; [done|]. cbn [length pad_loop app].
  rewrite aget_app_mid by done. cbn [mbind outcome_bind].
  replace (pre ++ h1 ++ m :: mid ++ tl) with ((pre ++ h1) ++ m :: mid ++ tl) by by rewrite app_assoc.
  rewrite aset_app_mid by (rewrite len_app; lia). cbn [mbind outcome_bind].
  replace (h1 ++ c :: h2 ++ 0 :: r) with ((h1 ++ [c]) ++ h2 ++ 0 :: r) by by rewrite <- app_assoc.
  replace ((pre ++ h1) ++ c :: mid ++ tl) with (pre ++ (h1 ++ [c]) ++ mid ++ tl) by (rewrite <- !app_assoc; done).
  replace (len h1 + 1) with (len (h1 ++ [c])) by (rewrite len_app; unfold len; cbn [length]; lia).
  cbn [length] in Hm. rewrite IH by lia. by rewrite <- !app_assoc.
Qed.

Lemma zeros_ok n t : 0 <= n -> no_nul t -> no_nul (zeros n t) /\ len (zeros n t) = Z.max n (len t).
Proof.
  intros Hn Ht. unfold zeros. split.
  - apply no_nul_app. split; [|done]. intros [E _]%elem_of_replicate. discriminate E.
  - rewrite len_app. unfold len at 1. rewrite length_replicate. unfold len. lia.
Qed.

Lemma hex8_ok z temp : len temp = 32 ->
  runs_to (hex8 z temp temp) (fun s' => cstr s' (zeros 8 (hex_int (i32 z)))).
Proof.
  intros Ht. pose proof (i32_range z) as Hu. unfold hex8.
  eapply runs_to_bind; [apply itoa_hex; change (2 ^ 31) with 2147483648; lia|]. intros hex [_ Hc].
  rewrite (strlen_ok _ _ Hc). cbn [mbind outcome_bind]. set (t := hex_int (i32 z)) in *.
  destruct (hex_int_ok (i32 z) ltac:(change (2 ^ 31) with 2147483648; lia)) as [Hn Hl]. fold t in Hn, Hl. destruct Hc as [_ [r ->]].
  set (k := Z.to_nat (8 - len t)). assert (8 - len t = len (replicate k CH_0)) as Ek by (unfold len; rewrite length_replicate; unfold len in *; lia).
  assert (replicate 8 CH_0 ++ 0 :: drop 9 temp = replicate k CH_0 ++ [] ++ replicate (length t) CH_0 ++ 0 :: drop 9 temp) as ->.
  { cbn [app]. rewrite app_assoc, <- replicate_add. do 2 f_equal. unfold k, len in *. lia. }
  replace (Z.to_nat (len t)) with (length t) by (unfold len; lia). rewrite Ek.
  pose proof (pad_loop_ok r (0 :: drop 9 temp) (replicate k CH_0) t [] (replicate (length t) CH_0) ltac:(apply length_replicate)) as H.
  cbn [app] in H |- *. change (len (@nil Z)) with 0 in H. rewrite H. cbn [runs_to]. split; [by apply zeros_ok|]. exists (drop 9 temp). unfold zeros. fold k. by rewrite <- app_assoc.
Qed.

(** ** The array *)

(** The text [t] has been written into an array of 256 bytes. *)
Definition holds (b : list Z * Z) (t : list Z) : Prop := snd b = len t /\ len (fst b) = 256 /\ exists rest, fst b = t ++ rest.

Lemma put_char_ok c b t : holds b t -> len t < 256 -> runs_to (put c b) (fun b' => holds b' (t ++ [c])).
Proof.
  intros (Ep & El & rest & Er) Ht. destruct b as [buf pos]. cbn [fst snd] in *. subst. unfold put. rewrite len_app in El.
  destruct rest as [|x rest]; [unfold len in *; cbn [length] in El; lia|]. rewrite aset_app_mid by done. cbn [mbind outcome_bind runs_to].
  split; [cbn [snd]; by rewrite len_app|]. cbn [fst]. split; [rewrite !len_app in *; unfold len in *; cbn [length] in *; lia|].
  exists rest. by rewrite <- app_assoc.
Qed.

Lemma put_loop_ok r u2 : forall u1 n b t, no_nul u2 -> holds b t -> len t + len u2 <= 256 -> (length u2 < n)%nat ->
  runs_to (put_loop n (u1 ++ u2 ++ 0 :: r) (len u1) b) (fun b' => holds b' (t ++ u2)).
Proof.
  induction u2 as [|c u2 IH]; intros u1 [|n] b t Hz Hb Hl Hn; try lia; cbn [put_loop app].
  - rewrite aget_app_mid by done. cbn [mbind outcome_bind Z.eqb runs_to]. by rewrite app_nil_r.
  - rewrite aget_app_mid by done. cbn [mbind outcome_bind]. unfold no_nul in Hz. rewrite not_elem_of_cons in Hz. destruct Hz as [Hc Hz].
    destruct (Z.eqb_spec c 0); [by subst|]. assert (len (c :: u2) = 1 + len u2) as E by (unfold len; cbn [length]; lia).
    assert (0 <= len u2) by (unfold len; lia). cbn [length] in Hn.
    eapply runs_to_bind; [apply (put_char_ok c b t Hb); lia|]. intros b' Hb'.
    replace (u1 ++ c :: u2 ++ 0 :: r) with ((u1 ++ [c]) ++ u2 ++ 0 :: r) by by rewrite <- app_assoc.
    replace (len u1 + 1) with (len (u1 ++ [c])) by (by rewrite len_app).
    eapply runs_to_mono; [apply (IH (u1 ++ [c]) n b' (t ++ [c])); [done|done|rewrite len_app; unfold len in *; cbn [length]; lia|lia]|].
    intros b2 Hb2. by rewrite <- app_assoc in Hb2.
Qed.

Lemma put_all_ok src u b t : cstr src u -> holds b t -> len t + len u <= 256 -> runs_to (put_all src b) (fun b' => holds b' (t ++ u)).
Proof.
  intros [Hz [r ->]] Hb Hl. apply (put_loop_ok r u []); [done|done|done|]. rewrite length_app. cbn [length]. lia.
Qed.

Lemma put_times_ok n c : forall b t, holds b t -> len t + Z.of_nat n <= 256 -> runs_to (put_times n c b) (fun b' => holds b' (t ++ replicate n c)).
Proof.
  induction n as [|n IH]; intros b t Hb Hl; cbn [put_times replicate]; [cbn [runs_to]; by rewrite app_nil_r|].
  eapply runs_to_bind; [apply (put_char_ok c b t Hb); lia|]. intros b' Hb'.
  eapply runs_to_mono; [apply (IH b' (t ++ [c]) Hb'); rewrite len_app; unfold len in *; cbn [length]; lia|]. intros b2 Hb2. by rewrite <- app_assoc in Hb2.
Qed.

(** ** One directive *)

Lemma fmt_at pre r tl i p : (i <= length r)%nat -> p = len pre + Z.of_nat i -> aget (pre ++ r ++ 0 :: tl) p = Ret (default 0 (r !! i)).
Proof.
  intros Hi ->. apply aget_lookup; [unfold len; lia|]. unfold len. replace (Z.to_nat _) with (length pre + i)%nat by lia.
  rewrite lookup_app_r by lia. replace (length pre + i - length pre)%nat with i by lia.
  destruct (decide (i = length r)) as [->|Hne].
  - rewrite lookup_app_r, Nat.sub_diag by lia. by rewrite (lookup_ge_None_2 r) by lia.
  - rewrite lookup_app_l by lia. by destruct (lookup_lt_is_Some_2 r i ltac:(lia)) as [c ->].
Qed.

Lemma char_there (r : list Z) i c : default 0 (r !! i) = c -> c <> 0 -> (i < length r)%nat.
Proof. intros E Hc. destruct (r !! i) eqn:Ei; [by apply lookup_lt_Some in Ei|]. cbn in E. congruence. Qed.

Lemma upto_nul_cstr s : existsb (Z.eqb 0) s = true -> cstr s (upto_nul s).
Proof.
  induction s as [|c s IH]; [done|]. cbn [existsb upto_nul]. destruct (Z.eqb_spec c 0) as [->|Hc].
  - intros _. split; [apply not_elem_of_nil|by exists s].
  - destruct (Z.eqb_spec 0 c); [congruence|]. cbn [orb]. intros H. destruct (IH H) as [Hz [rest E]]. split; [rewrite not_elem_of_cons; by split|].
    exists rest. cbn [app]. by f_equal.
Qed.

Lemma itoa_least temp : len temp = 32 -> runs_to (itoa INT_MIN temp 10) (fun s' => cstr s' (dec_int INT_MIN)).
Proof.
  intros Ht. assert (length temp = 32%nat) as Hl by (unfold len in Ht; lia). clear Ht. do 32 (destruct temp as [|? temp]; [discriminate Hl|]). destruct temp; [|discriminate Hl].
  match goal with |- runs_to ?m _ => let r := eval vm_compute in m in replace m with r by (vm_compute; reflexivity) end.
  cbn [runs_to]. split; [apply (bool_decide_unpack _); by vm_compute|]. eexists. change (dec_int INT_MIN) with (lit "-./,),(-*,("). reflexivity.
Qed.

Lemma show_i32 z temp : len temp = 32 -> runs_to (itoa (i32 z) temp 10) (fun s' => cstr s' (dec_int (i32 z))).
Proof.
  intros Ht. pose proof (i32_range z) as Hr. destruct (Z.eq_dec (i32 z) INT_MIN) as [->|Hz]; [by apply itoa_least|].
  unfold dec_int. destruct (Z.eqb_spec (i32 z) INT_MIN); [done|]. unfold INT_MIN in Hz. assert (- 2 ^ 31 < i32 z < 2 ^ 31) as Hn by (change (2 ^ 31) with 2147483648; lia).
  destruct (show_chars _ Hn) as [_ Hl]. eapply runs_to_mono; [apply itoa_show; [done|lia]|]. by intros s' [? _].
Qed.

(** A directive that converts its argument into [temp]. *)
Lemma converted (m : outcome (list Z)) u b t (k : Z) (args : list va) : runs_to m (fun s' => cstr s' u) -> holds b t -> len t + len u <= 256 ->
  runs_to (s ← m; b ← put_all s b; Ret (k, args, b)) (fun '(k', args', b') => k' = k /\ args' = args /\ holds b' (t ++ u)).
Proof.
  intros Hm Hb Hl. eapply runs_to_bind; [exact Hm|]. intros s Hs. eapply runs_to_bind; [by apply (put_all_ok s u b t)|]. intros b' Hb'. done.
Qed.

Lemma pointer_ok z temp b t (k : Z) (args : list va) : len temp = 32 -> holds b t ->
  len t + len ([CH_0; CH_x] ++ zeros 8 (show_hex upper (u64 z))) <= 256 ->
  runs_to (b ← put CH_0 b; b ← put CH_x b; s ← utoa_hex (u64 z) temp; l ← strlen s;
           b ← put_times (Z.to_nat (8 - l)) CH_0 b; b ← put_all s b; Ret (k, args, b))
    (fun '(k', args', b') => k' = k /\ args' = args /\ holds b' (t ++ [CH_0; CH_x] ++ zeros 8 (show_hex upper (u64 z)))).
Proof.
  intros Ht Hb Hl. pose proof (u64_range z) as Hu. set (h := show_hex upper (u64 z)) in *.
  assert (len ([CH_0; CH_x] ++ zeros 8 h) = 2 + (Z.of_nat (Z.to_nat (8 - len h)) + len h)) as El.
  { unfold zeros. rewrite !len_app. unfold len at 2. rewrite length_replicate. done. }
  rewrite El in Hl. clear El. assert (0 <= len h) by (unfold len; lia).
  eapply runs_to_bind; [apply (put_char_ok CH_0 b t Hb); lia|]. intros b1 Hb1.
  eapply runs_to_bind; [apply (put_char_ok CH_x b1 _ Hb1); rewrite len_app; unfold len in *; cbn [length]; lia|]. intros b2 Hb2.
  eapply runs_to_bind; [apply (utoa_hex_ok (u64 z) temp Hu); lia|]. intros s [_ Hs]. fold h in Hs.
  rewrite (strlen_ok _ _ Hs). cbn [mbind outcome_bind].
  eapply runs_to_bind; [apply (put_times_ok _ CH_0 b2 _ Hb2); rewrite !len_app; unfold len in *; cbn [length]; lia|]. intros b3 Hb3.
  eapply runs_to_bind; [apply (put_all_ok s h b3 _ Hs Hb3); rewrite !len_app; unfold len in *; rewrite length_replicate; cbn [length]; lia|]. intros b4 Hb4.
  cbn [runs_to]. split; [done|]. split; [done|]. unfold zeros. by rewrite <- !app_assoc in Hb4.
Qed.

(** What log_step does for a directive of [k] characters. *)
Definition run_directive (temp : list Z) (d : directive) (k : Z) (args : list va) (b : list Z * Z) : outcome (Z * list va * (list Z * Z)) :=
  match d with
  | DText c => b ← put c b; Ret (k, args, b)
  | DPercent => b ← put CH_PERCENT b; Ret (k, args, b)
  | DInt | DUnsigned | DSize => '(z, args) ← va_word args; t ← itoa (i32 z) temp 10; b ← put_all t b; Ret (k, args, b)
  | DHex => '(z, args) ← va_word args; t ← itoa (i32 z) temp 16; b ← put_all t b; Ret (k, args, b)
  | DHex8 => '(z, args) ← va_word args; t ← hex8 z temp temp; b ← put_all t b; Ret (k, args, b)
  | DStr => '(s, args) ← va_str args; b ← put_all s b; Ret (k, args, b)
  | DChar => '(z, args) ← va_word args; b ← put (u8 z) b; Ret (k, args, b)
  | DPtr =>
      '(z, args) ← va_word args;
      b ← put CH_0 b; b ← put CH_x b; t ← utoa_hex (u64 z) temp; l ← strlen t;
      b ← put_times (Z.to_nat (8 - l)) CH_0 b; b ← put_all t b; Ret (k, args, b)
  end.

(** A directive that has been recognized by its last character. *)
Ltac recognized Hp H E := injection Hp as <- <-; split; [apply H; rewrite E; done|done].

Lemma log_step_parse temp pre r tl args b d k : r <> [] -> parse_one r = (d, k) ->
  (k <= length r)%nat /\ log_step temp (pre ++ r ++ 0 :: tl) (len pre) args b = run_directive temp d (Z.of_nat k) args b.
Proof.
  intros Hr Hp. assert (1 <= length r)%nat as H1 by (destruct r; [done|cbn; lia]). unfold log_step. unfold parse_one in Hp.
  rewrite (fmt_at pre r tl 0 (len pre)) by lia. set (c0 := default 0 (r !! 0%nat)) in *. cbn [mbind outcome_bind].
  destruct (Z.eqb_spec c0 CH_PERCENT) as [Ec0|]; cbn [negb] in *; [|by injection Hp as <- <-].
  rewrite (fmt_at pre r tl 1 (len pre + 1)) by lia. set (c1 := default 0 (r !! 1%nat)) in *. cbn [mbind outcome_bind].
  assert (c1 <> 0 -> (2 <= length r)%nat) as H2 by (intros Hc; pose proof (char_there r 1 c1 eq_refl Hc); lia).
  destruct (Z.eqb_spec c1 CH_d) as [E|_]; [recognized Hp H2 E|]. destruct (Z.eqb_spec c1 CH_u) as [E|_]; [recognized Hp H2 E|].
  set (c2 := default 0 (r !! 2%nat)) in *.
  assert (c2 <> 0 -> (3 <= length r)%nat) as H3 by (intros Hc; pose proof (char_there r 2 c2 eq_refl Hc); lia).
  assert (c1 <> 0 -> aget (pre ++ r ++ 0 :: tl) (len pre + 2) = Ret c2) as G2 by (intros Hc; apply fmt_at; [by apply H2|done]).
  replace (if c1 =? CH_z then c2 ← aget (pre ++ r ++ 0 :: tl) (len pre + 2); Ret (c2 =? CH_u) else Ret false) with (Ret ((c1 =? CH_z) && (c2 =? CH_u))).
  2:{ destruct (Z.eqb_spec c1 CH_z) as [E|]; [by rewrite G2 by (by rewrite E)|done]. }
  cbn [mbind outcome_bind]. destruct ((c1 =? CH_z) && (c2 =? CH_u)) eqn:Ez.
  { apply andb_true_iff in Ez as [_ Ez]. apply Z.eqb_eq in Ez. recognized Hp H3 Ez. }
  destruct (Z.eqb_spec c1 CH_x) as [E|_]; [recognized Hp H2 E|]. set (c3 := default 0 (r !! 3%nat)) in *.
  match goal with |- context [mbind ?f (if c1 =? CH_0 then ?X else Ret false)] =>
    assert ((if c1 =? CH_0 then X else Ret false) = Ret ((c1 =? CH_0) && (c2 =? CH_0 + 8) && (c3 =? CH_x))) as -> end.
  { destruct (Z.eqb_spec c1 CH_0) as [E|]; [|done]. rewrite G2 by (by rewrite E). cbn [andb mbind outcome_bind].
    destruct (Z.eqb_spec c2 (CH_0 + 8)) as [E'|]; [|done]. by rewrite (fmt_at pre r tl 3 (len pre + 3)) by (done || apply H3; by rewrite E'). }
  cbn [mbind outcome_bind]. destruct ((c1 =? CH_0) && (c2 =? CH_0 + 8) && (c3 =? CH_x)) eqn:E8.
  { apply andb_true_iff in E8 as [_ E8]. apply Z.eqb_eq in E8. injection Hp as <- <-.
    split; [pose proof (char_there r 3 c3 eq_refl ltac:(by rewrite E8)); lia|done]. }
  destruct (Z.eqb_spec c1 CH_s) as [E|_]; [recognized Hp H2 E|]. destruct (Z.eqb_spec c1 CH_c) as [E|_]; [recognized Hp H2 E|].
  destruct (Z.eqb_spec c1 CH_p) as [E|_]; [recognized Hp H2 E|]. destruct (Z.eqb_spec c1 CH_PERCENT) as [E|_]; [recognized Hp H2 E|].
  injection Hp as <- <-. split; [done|]. by rewrite Ec0.
Qed.

(** The next argument is a number. *)
Ltac word_arg z args Hd := destruct args as [|[z|?] args]; [done| |done]; cbn [text_of] in Hd; cbn [va_word mbind outcome_bind].

Lemma one_char c b t (k : Z) (args : list va) : holds b t -> len t + len [c] <= 256 ->
  runs_to (b ← put c b; Ret (k, args, b)) (fun '(k', args', b') => k' = k /\ args' = args /\ holds b' (t ++ [c])).
Proof. intros Hb Hl. eapply runs_to_bind; [apply (put_char_ok c b t Hb); change (len [c]) with 1 in Hl; lia|]. done. Qed.

Lemma directive_ok temp d k args b t u args' : len temp = 32 -> text_of d args = Some (u, args') -> holds b t -> len t + len u <= 256 ->
  runs_to (run_directive temp d k args b) (fun '(k', args'', b') => k' = k /\ args'' = args' /\ holds b' (t ++ u)).
Proof.
  intros Ht Hd Hb Hl. destruct d; cbn [run_directive].
  - injection Hd as <- <-. by apply one_char.
  - word_arg z args Hd. injection Hd as <- <-. by apply converted; [apply show_i32|..].
  - word_arg z args Hd. injection Hd as <- <-. by apply converted; [apply show_i32|..].
  - word_arg z args Hd. injection Hd as <- <-. by apply converted; [apply show_i32|..].
  - word_arg z args Hd. injection Hd as <- <-. pose proof (i32_range z). apply converted; [|done|done].
    eapply runs_to_mono; [apply itoa_hex; change (2 ^ 31) with 2147483648; lia|]. by intros s' [_ ?].
  - word_arg z args Hd. injection Hd as <- <-. by apply converted; [apply hex8_ok|..].
  - destruct args as [|[z|s] args]; [done|done|]. cbn [text_of] in Hd. destruct (existsb (Z.eqb 0) s) eqn:Ex; [|done]. injection Hd as <- <-.
    apply (converted (Ret s)); [by apply upto_nul_cstr|done|done].
  - word_arg z args Hd. destruct (Z.eqb_spec (u8 z) 0); [done|]. injection Hd as <- <-. by apply one_char.
  - word_arg z args Hd. injection Hd as <- <-. by apply pointer_ok.
  - injection Hd as <- <-. by apply one_char.
Qed.

Lemma log_step_ok temp pre r tl args b t d k u args' : len temp = 32 -> r <> [] ->
  parse_one r = (d, k) -> text_of d args = Some (u, args') -> holds b t -> len t + len u <= 256 ->
  (k <= length r)%nat /\
  runs_to (log_step temp (pre ++ r ++ 0 :: tl) (len pre) args b) (fun '(k', args'', b') => k' = Z.of_nat k /\ args'' = args' /\ holds b' (t ++ u)).
Proof.
  intros Ht Hr Hp Hd Hb Hl. destruct (log_step_parse temp pre r tl args b d k Hr Hp) as [Hk ->]. split; [done|]. by apply directive_ok.
Qed.

(** ** Messages *)

Lemma parse_one_nonzero r d k : parse_one r = (d, k) -> (1 <= k)%nat.
Proof. unfold parse_one. repeat case_match; intros [= <- <-]; lia. Qed.

Lemma log_loop_ok temp f tl n : len temp = 32 -> no_nul f -> forall pre r fuel args b t u, f = pre ++ r -> render n r args = Some u ->
  holds b t -> len t + len u <= 250 -> (length r < fuel)%nat ->
  runs_to (log_loop fuel temp (pre ++ r ++ 0 :: tl) (len pre) args b) (fun b' => holds b' (t ++ u)).
Proof.
  intros Ht Hf. induction n as [|n IH]; intros pre r fuel args b t u Ef Hu Hb Hl Hfu; [done|]. destruct fuel as [|fuel]; [lia|]. cbn [log_loop].
  rewrite (fmt_at pre r tl 0 (len pre)) by lia. cbn [mbind outcome_bind]. cbn [render] in Hu.
  destruct r as [|c r']; [injection Hu as <-; cbn [lookup list_lookup default Z.eqb orb runs_to]; by rewrite app_nil_r|].
  set (r := c :: r') in *. assert (c <> 0) as Hc.
  { intros ->. apply Hf. subst f. apply elem_of_app. right. apply elem_of_cons. by left. }
  change (default 0 (r !! 0%nat)) with c. destruct (Z.eqb_spec c 0); [done|]. cbn [orb].
  destruct (parse_one r) as [d k] eqn:Ep. destruct (text_of d args) as [[u1 args1]|] eqn:Ed; [|done].
  destruct (render n (drop k r) args1) as [u2|] eqn:Er; [|done]. injection Hu as <-. rewrite len_app in Hl.
  assert (0 <= len u1 /\ 0 <= len u2) as [? ?] by (unfold len; lia).
  pose proof Hb as (Eb & _). rewrite Eb. destruct (Z.ltb_spec (len t) 250) as [Hlt|Hge]; cbn [negb].
  - destruct (log_step_ok temp pre r tl args b t d k u1 args1 Ht ltac:(done) Ep Ed Hb ltac:(lia)) as [Hk Hs].
    eapply runs_to_bind; [exact Hs|]. intros [[k' args2] b'] (-> & -> & Hb').
    pose proof (parse_one_nonzero r d k Ep).
    replace (len pre + Z.of_nat k) with (len (pre ++ take k r)) by (rewrite len_app; unfold len; rewrite length_take; lia).
    replace (pre ++ r ++ 0 :: tl) with ((pre ++ take k r) ++ drop k r ++ 0 :: tl) by (rewrite <- app_assoc; f_equal; by rewrite app_assoc, take_drop).
    eapply runs_to_mono; [apply (IH (pre ++ take k r) (drop k r) fuel args1 b' (t ++ u1) u2)|].
    + by rewrite <- app_assoc, take_drop.
    + done.
    + done.
    + rewrite len_app. lia.
    + rewrite length_drop. lia.
    + intros b2 Hb2. by rewrite <- app_assoc in Hb2.
  - assert (u1 = [] /\ u2 = []) as [-> ->] by (unfold len in *; split; apply nil_length_inv; lia). cbn [runs_to app]. by rewrite app_nil_r.
Qed.

(** The text of a message. *)
Definition message_text (level f : list Z) (args : list va) : option (list Z) :=
  match render (S (length f)) f args with Some u => Some ([91] ++ level ++ [93; 32] ++ u) | None => None end.

Lemma log_prefix_ok buffer level lv : len buffer = 256 -> cstr level lv -> len lv <= 250 ->
  runs_to (log_prefix level (buffer, 0)) (fun b => holds b ([91] ++ lv ++ [93; 32])).
Proof.
  intros Hb Hlv Hl. unfold log_prefix.
  eapply runs_to_bind; [apply (put_char_ok 91 (buffer, 0) []); [split; [done|]; split; [done|]; by exists buffer|done]|]. intros b1 Hb1.
  eapply runs_to_bind; [apply (put_all_ok level lv b1 _ Hlv Hb1); unfold len in *; rewrite ?length_app; cbn [length]; lia|]. intros b2 Hb2.
  eapply runs_to_bind; [apply (put_char_ok 93 b2 _ Hb2); unfold len in *; rewrite ?length_app; cbn [length]; lia|]. intros b3 Hb3.
  eapply runs_to_mono; [apply (put_char_ok 32 b3 _ Hb3); unfold len in *; rewrite ?length_app; cbn [length]; lia|]. intros b4 Hb4.
  cbn [app] in *. by rewrite <- !app_assoc in Hb4.
Qed.

Lemma log_message_ok buffer temp level lv fmt f args text :
  len buffer = 256 -> len temp = 32 -> cstr level lv -> cstr fmt f -> message_text lv f args = Some text -> len text <= 250 ->
  runs_to (log_message buffer temp level fmt args) (fun buf => len buf = 256 /\ exists rest, buf = text ++ 0 :: rest).
Proof.
  intros Hb Ht Hlv [Hf [tl ->]] Hm Hl. unfold message_text in Hm. destruct (render _ f args) as [u|] eqn:Eu; [|done]. injection Hm as <-.
  assert (3 + len lv + len u <= 250) as Hl' by (unfold len in *; cbn [length app] in Hl; rewrite length_app in Hl; cbn [length] in Hl; lia).
  clear Hl. assert (0 <= len lv /\ 0 <= len u) as [? ?] by (unfold len; lia). unfold log_message.
  eapply runs_to_bind; [apply (log_prefix_ok buffer level lv Hb Hlv); lia|]. intros b4 Hb4. set (t4 := [91] ++ lv ++ [93; 32]) in *.
  assert (len t4 = 3 + len lv) as El4 by (unfold t4, len; cbn [length app]; rewrite length_app; cbn [length]; lia).
  eapply runs_to_bind; [apply (log_loop_ok temp f tl (S (length f)) Ht Hf [] f _ args b4 t4 u); [done|done|done|lia|rewrite length_app; cbn [length]; lia]|].
  intros [buf pos] (Ep & El & rest & Er). cbn [fst snd] in *. subst. rewrite !len_app in El.
  destruct rest as [|x rest]; [unfold len in *; cbn [length] in El; lia|]. rewrite aset_app_mid by done. cbn [runs_to].
  split; [rewrite !len_app in *; unfold len in *; cbn [length] in *; lia|]. exists rest. unfold t4. cbn [app]. rewrite <- !app_assoc. done.
Qed.

(** C29. Messages.  When the directives of a format find arguments of their kind (numbers,
    terminated strings, characters other than zero) and the text has at most 250
    characters, the array contains the level in brackets and the text of the format,
    with a terminator, whatever the stack contained: strings, characters, pointers in
    base 16, and the other numbers after a conversion to int.  So %u and %zu print a
    number from 2^31 on as a negative one, %x and %08x then print each digit as the
    character that lies before the zero as far as the digit behind it ([mirror]), and
    the least int is printed as "-./,),(-*,(". *)
Theorem log_message_text buffer temp level lv fmt f args text :
  len buffer = 256 -> len temp = 32 -> cstr level lv -> cstr fmt f -> message_text lv f args = Some text -> len text <= 250 ->
  exists buf rest, log_message buffer temp level fmt args = Ret buf /\ buf = text ++ 0 :: rest /\ len buf = 256.
Proof.
  intros H1 H2 H3 H4 H5 H6. pose proof (log_message_ok _ _ _ _ _ _ _ _ H1 H2 H3 H4 H5 H6) as H.
  apply runs_to_inv in H as (buf & E & Hl & rest & Er). by exists buf, rest.
Qed.

(** ** Sessions *)

(** The log contains [t]. *)
Definition log_holds (s : syslog) (t : list Z) : Prop :=
  len (log_buffer s) = MAX_LOG_SIZE /\ log_size s = len t /\ len t < MAX_LOG_SIZE /\ exists rest, log_buffer s = t ++ rest.

Lemma append_loop_ok r m2 : forall m1 n s t, no_nul m2 -> log_holds s t -> (length m2 < n)%nat ->
  runs_to (append_loop n (m1 ++ m2 ++ 0 :: r) (len m1) s) (fun s' => log_holds s' (t ++ take (Z.to_nat (MAX_LOG_SIZE - 1 - len t)) m2)).
Proof.
  unfold MAX_LOG_SIZE. induction m2 as [|c m2 IH]; intros m1 [|n] s t Hz Hs Hn; try lia; cbn [append_loop app].
  - rewrite aget_app_mid by done. cbn [mbind outcome_bind Z.eqb negb andb runs_to]. by rewrite take_nil, app_nil_r.
  - rewrite aget_app_mid by done. cbn [mbind outcome_bind]. unfold no_nul in Hz. rewrite not_elem_of_cons in Hz. destruct Hz as [Hc Hz].
    destruct (Z.eqb_spec c 0); [by subst|]. cbn [negb andb]. pose proof Hs as (El & Es & Ht & rest & Er). unfold MAX_LOG_SIZE in *. rewrite Es, Er.
    destruct (Z.ltb_spec (len t) (4000 - 1)) as [Hlt|Hge].
    + rewrite Er in El. rewrite len_app in El. destruct rest as [|x rest]; [unfold len in *; cbn [length] in El; lia|].
      rewrite aset_app_mid by done. cbn [mbind outcome_bind]. cbn [length] in Hn.
      replace (m1 ++ c :: m2 ++ 0 :: r) with ((m1 ++ [c]) ++ m2 ++ 0 :: r) by by rewrite <- app_assoc.
      replace (len m1 + 1) with (len (m1 ++ [c])) by (by rewrite len_app).
      eapply runs_to_mono; [apply (IH (m1 ++ [c]) n (mklog (t ++ c :: rest) (len t + 1)) (t ++ [c])); [done| |lia]|].
      { unfold log_holds, MAX_LOG_SIZE. cbn [log_buffer log_size]. rewrite !len_app. change (len [c]) with 1.
        split; [unfold len in *; cbn [length] in *; lia|]. split; [done|]. split; [lia|]. exists rest. by rewrite <- app_assoc. }
      intros s' Hs'. rewrite len_app in Hs'. change (len [c]) with 1 in Hs'. rewrite <- app_assoc in Hs'. cbn [app] in Hs'.
      replace (Z.to_nat (4000 - 1 - len t)) with (S (Z.to_nat (4000 - 1 - (len t + 1)))) by lia. done.
    + cbn [runs_to]. replace (Z.to_nat (4000 - 1 - len t)) with 0%nat by lia. by rewrite take_0, app_nil_r.
Qed.

Section Session.
Context {W C : Type} {E : VfsEnv W} {P : CmosPorts C}.
Implicit Types (v : vfs W) (c : C).

(** The log with its terminator. *)
Definition log_is (s : syslog) (t : list Z) : Prop := log_holds s t /\ exists rest, log_buffer s = t ++ 0 :: rest.

(** Appending keeps the first 3999 characters. *)
Definition kept (t : list Z) : list Z := take (Z.to_nat (MAX_LOG_SIZE - 1)) t.

Lemma kept_app t m : kept (kept t ++ m) = kept (t ++ m).
Proof. unfold kept. rewrite !take_app, take_take, Nat.min_id, length_take. f_equal. f_equal. lia. Qed.

Lemma kept_short t : len (kept t) < MAX_LOG_SIZE.
Proof. unfold kept, len, MAX_LOG_SIZE. rewrite length_take. lia. Qed.

Lemma log_file_ok : 0 ∉ log_file.
Proof. apply (bool_decide_unpack _). by vm_compute. Qed.
Lemma init_msg_ok : no_nul init_msg.
Proof. apply (bool_decide_unpack _). by vm_compute. Qed.

Lemma syslog_print_ok message m s t v : cstr message m -> log_holds s t -> vfs_wf v ->
  runs_to (syslog_print message s v) (fun '(s', v') => log_is s' (kept (t ++ m)) /\ vfs_wf v' /\ same_names v v').
Proof.
  intros [Hz [r ->]] Hs Hv. unfold syslog_print.
  eapply runs_to_bind; [apply (append_loop_ok r m [] _ s t Hz Hs); rewrite length_app; cbn [length]; lia|]. intros s' Hs'.
  assert (t ++ take (Z.to_nat (MAX_LOG_SIZE - 1 - len t)) m = kept (t ++ m)) as Ek.
  { destruct Hs as (_ & _ & Ht & _). unfold kept. rewrite take_app. unfold len, MAX_LOG_SIZE in *. rewrite (take_ge t) by lia. f_equal. f_equal. lia. }
  rewrite Ek in Hs'. destruct Hs' as (El & Es & Ht & rest & Er). rewrite Es, Er in *. rewrite len_app in El.
  destruct rest as [|x rest]; [unfold len in *; cbn [length] in El; lia|]. rewrite aset_app_mid by done. cbn [mbind outcome_bind].
  set (k := kept (t ++ m)) in *. assert (0 <= len k <= len (k ++ 0 :: rest)) as Hk by (rewrite len_app; unfold len; lia).
  eapply runs_to_bind; [apply (vfs_create_ok log_file _ _ v Hv log_file_ok Hk)|]. intros [v' q] (Hv' & Hn & _). cbn [runs_to].
  split; [|by split]. split; [|by exists rest]. unfold log_holds. cbn [log_buffer log_size]. rewrite len_app.
  split; [unfold len in *; cbn [length] in *; lia|]. split; [done|]. split; [done|]. by eexists.
Qed.

(** A call of one of the macros: level, format and arguments, and what the stack
    contains. *)
Record log_call := mkcall { lc_level : Z; lc_fmt : list Z; lc_args : list va; lc_buffer : list Z; lc_temp : list Z }.

Definition call_text (k : log_call) : option (list Z) := message_text (upto_nul (level_name (lc_level k))) (upto_nul (lc_fmt k)) (lc_args k).

Definition call_ok (k : log_call) : Prop :=
  0 <= lc_level k <= LOG_LEVEL_TRACE /\ existsb (Z.eqb 0) (lc_fmt k) = true /\ len (lc_buffer k) = 256 /\ len (lc_temp k) = 32 /\
  exists text, call_text k = Some text /\ no_nul text /\ len text <= 250.

(** log.h defines the log as static: each C file that includes it has its own, at start
    zero.  A C file calls syslog_init or one of the macros; file system and serial line
    are shared. *)
Inductive log_event := Init | Message (k : log_call).

Definition boot_log : syslog := mklog (replicate (Z.to_nat MAX_LOG_SIZE) 0) 0.

Definition log_step_of (fuel : nat) (e : log_event) (s : syslog) v c : outcome (syslog * vfs W * C) :=
  match e with
  | Init => '(s, v) ← syslog_init s v; Ret (s, v, c)
  | Message k => LOG fuel (lc_buffer k) (lc_temp k) (lc_level k) (lc_fmt k) (lc_args k) s v c
  end.

(** [logs] has the log of each C file. *)
Fixpoint session (fuel : nat) (es : list (nat * log_event)) (logs : list syslog) v c : outcome (list syslog * vfs W * C) :=
  match es with
  | [] => Ret (logs, v, c)
  | (file, e) :: es' =>
      s ← aget logs (Z.of_nat file);
      '(s, v, c) ← log_step_of fuel e s v c;
      logs ← aset logs (Z.of_nat file) s;
      session fuel es' logs v c
  end.

Definition event_ok (e : log_event) : Prop := match e with Init => True | Message k => call_ok k end.

(** The text of one C file: syslog_init starts it with the heading, messages are
    appended. *)
Definition text_after (t : list Z) (e : log_event) : list Z :=
  match e with Init => init_msg | Message k => t ++ default [] (call_text k) end.

Definition file_text (file : nat) (es : list (nat * log_event)) : list Z :=
  foldl (fun t '(f, e) => if (f =? file)%nat then text_after t e else t) [] es.

(** The serial line takes every character within [fuel] polls. *)
Definition serial_ready (fuel : nat) : Prop := forall str c, runs_to (serial_print fuel str c) (fun _ => True).

Lemma upto_nul_text t rest : no_nul t -> upto_nul (t ++ 0 :: rest) = t.
Proof.
  induction t as [|x t IH]; [done|]. unfold no_nul. rewrite not_elem_of_cons. intros [Hx Ht]. cbn [app upto_nul].
  destruct (Z.eqb_spec x 0); [by subst|]. by rewrite IH.
Qed.

Lemma log_step_of_ok fuel e s v c t : serial_ready fuel -> event_ok e -> log_is s (kept t) -> vfs_wf v ->
  runs_to (log_step_of fuel e s v c) (fun '(s', v', _) => log_is s' (kept (text_after t e)) /\ vfs_wf v' /\ same_names v v').
Proof.
  intros Hser Hk Hs Hv. destruct e as [|k]; cbn [log_step_of text_after].
  { unfold syslog_init. pose proof Hs as ((Hlen & _) & _). rewrite aset_in_bounds by (unfold MAX_LOG_SIZE in *; lia). cbn [mbind outcome_bind].
    pose proof (syslog_print_ok (init_msg ++ [0]) init_msg (mklog (<[Z.to_nat 0:=0]> (log_buffer s)) 0) [] v) as Hp.
    assert (cstr (init_msg ++ [0]) init_msg) as Hc by (split; [exact init_msg_ok|by exists []]).
    specialize (Hp Hc ltac:(split; [cbn [log_buffer]; by rewrite len_insert|]; split; [done|]; split; [done|]; by eexists) Hv).
    eapply runs_to_bind; [exact Hp|]. intros [s1 v1] H1. exact H1. }
  destruct Hk as (Hl & Hf & Hb & Ht & text & Et & Hz & Hlen). unfold LOG. destruct (Z.leb_spec (lc_level k) CURRENT_LOG_LEVEL); [|unfold CURRENT_LOG_LEVEL in *; lia].
  unfold log_format_basic.
  assert (cstr (level_name (lc_level k)) (upto_nul (level_name (lc_level k)))) as Hlv.
  { apply upto_nul_cstr. unfold level_name. repeat case_match; done. }
  pose proof (log_message_ok _ _ _ _ _ _ _ _ Hb Ht Hlv (upto_nul_cstr _ Hf) Et Hlen) as Hm.
  apply runs_to_inv in Hm as (buf & Em & _ & rest & Er). rewrite Em. cbn [mbind outcome_bind].
  specialize (Hser (upto_nul buf) c). apply runs_to_inv in Hser as (c' & Ec & _). rewrite Ec. cbn [mbind outcome_bind].
  pose proof (syslog_print_ok buf text s (kept t) v (conj Hz (ex_intro _ rest Er)) (proj1 Hs) Hv) as Hp.
  apply runs_to_inv in Hp as ([s' v'] & Ep & Hs' & Hv' & Hn). rewrite Ep. cbn [mbind outcome_bind runs_to]. rewrite kept_app in Hs'.
  rewrite Et. done.
Qed.

Lemma session_ok fuel n : serial_ready fuel -> forall es logs v c (T : nat -> list Z), length logs = n ->
  Forall (fun '(file, e) => (file < n)%nat /\ event_ok e) es ->
  (forall file s, logs !! file = Some s -> log_is s (kept (T file))) -> vfs_wf v ->
  runs_to (session fuel es logs v c) (fun '(logs', v', _) =>
    length logs' = n /\ vfs_wf v' /\ same_names v v' /\
    forall file s, logs' !! file = Some s ->
      log_is s (kept (foldl (fun t '(f, e) => if (f =? file)%nat then text_after t e else t) (T file) es))).
Proof.
  intros Hser. induction es as [|[f e] es IH]; intros logs v c T Hn Hes Hlogs Hv; cbn [session]; [done|].
  apply Forall_cons in Hes as [[Hf He] Hes]. destruct (aget_in_bounds logs (Z.of_nat f)) as (s & -> & Hs); [unfold len; lia|]. rewrite Nat2Z.id in Hs.
  cbn [mbind outcome_bind]. eapply runs_to_bind; [apply (log_step_of_ok fuel e s v c (T f) Hser He (Hlogs f s Hs) Hv)|].
  intros [[s1 v1] c1] (Hs1 & Hv1 & Hn1). rewrite aset_in_bounds by (unfold len; lia). rewrite Nat2Z.id. cbn [mbind outcome_bind].
  eapply runs_to_mono; [apply (IH (<[f := s1]> logs) v1 c1 (fun file => if (f =? file)%nat then text_after (T file) e else T file))|].
  - by rewrite length_insert.
  - done.
  - intros file s' Hs'. destruct (Nat.eqb_spec f file) as [->|Hne].
    + rewrite list_lookup_insert_eq in Hs' by lia. by injection Hs' as <-.
    + rewrite list_lookup_insert_ne in Hs' by done. by apply Hlogs.
  - done.
  - intros [[logs2 v2] c2] (H1 & H2 & H3 & H4). split; [done|]. split; [done|]. split; [intros name; by rewrite H3, Hn1|]. exact H4.
Qed.

(** C28. The log.  lib/log.h gives every C file a log of its own.  Over any session in which
    C files call syslog_init and the macros, with messages of at most 250 characters
    whose arguments are of the kinds that their formats ask for, with any stack and any
    consistent file system, and with a serial line that takes its characters, no call
    faults, and the log of each C file contains the first 3999 characters of the messages
    of that file alone, terminated, with its size; the heading is only in the log of a
    file that calls syslog_init, which discards what the file logged before.  The file
    system keeps its invariant and its set of names: no log file is created in it. *)
Theorem log_session fuel n es v c :
  serial_ready fuel -> vfs_wf v -> Forall (fun '(file, e) => (file < n)%nat /\ event_ok e) es ->
  runs_to (session fuel es (replicate n boot_log) v c) (fun '(logs, v', _) =>
    (forall file, (file < n)%nat -> exists s, logs !! file = Some s /\
       let t := take 3999 (file_text file es) in
       len (log_buffer s) = MAX_LOG_SIZE /\ log_size s = len t /\ exists rest, log_buffer s = t ++ 0 :: rest) /\
    vfs_wf v' /\ forall name, find_file v' name = find_file v name).
Proof.
  intros Hser Hv Hes. eapply runs_to_mono; [apply (session_ok fuel n Hser es (replicate n boot_log) v c (fun _ => [])); [apply length_replicate|done| |done]|].
  - intros file s [-> _]%lookup_replicate. split; [|by exists (replicate 3999 0)]. split; [done|]. split; [done|]. split; [done|]. by eexists.
  - intros [[logs v2] c2] (Hl & Hv2 & Hn2 & Hlogs). split; [|by split]. intros file Hf.
    destruct (lookup_lt_is_Some_2 logs file ltac:(lia)) as [s Hs]. exists s. split; [done|].
    destruct (Hlogs file s Hs) as ((H1 & H2 & _) & H3). done.
Qed.
End Session.

(** ** What is not checked *)

Lemma put_loop_overrun r u2 : forall u1 n b t, no_nul u2 -> holds b t -> 256 < len t + len u2 -> (length u2 < n)%nat ->
  put_loop n (u1 ++ u2 ++ 0 :: r) (len u1) b = Fault OutOfBounds.
Proof.
  induction u2 as [|c u2 IH]; intros u1 [|n] b t Hz Hb Hl Hn; try lia; cbn [put_loop app].
  - destruct Hb as (_ & El & rest & Er). rewrite Er, len_app in El. unfold len in *. cbn [length] in Hl. lia.
  - rewrite aget_app_mid by done. cbn [mbind outcome_bind]. unfold no_nul in Hz. rewrite not_elem_of_cons in Hz. destruct Hz as [Hc Hz].
    destruct (Z.eqb_spec c 0); [by subst|]. assert (len (c :: u2) = 1 + len u2) as E by (unfold len; cbn [length]; lia). cbn [length] in Hn.
    destruct (Z.lt_ge_cases (len t) 256) as [Hlt|Hge].
    + pose proof (put_char_ok c b t Hb Hlt) as H. apply runs_to_inv in H as (b' & -> & Hb'). cbn [mbind outcome_bind].
      replace (u1 ++ c :: u2 ++ 0 :: r) with ((u1 ++ [c]) ++ u2 ++ 0 :: r) by by rewrite <- app_assoc.
      replace (len u1 + 1) with (len (u1 ++ [c])) by (by rewrite len_app).
      apply (IH (u1 ++ [c]) n b' (t ++ [c])); [done|done|rewrite len_app; unfold len in *; cbn [length]; lia|lia].
    + destruct b as [buf pos]. destruct Hb as (Ep & El & _). cbn [fst snd] in *. unfold put, aset. subst pos.
      destruct (Z.ltb_spec (len t) 0); [lia|]. unfold len in El, Hge |- *.
      destruct (Z.ltb_spec (Z.of_nat (length t)) (Z.of_nat (length buf))); [lia|]. by rewrite andb_false_r || done.
Qed.

(** The length of a string argument is not checked: one that fills the array with
    the level is stored behind its end. *)
Theorem log_string_overruns buffer temp level lv more s u args :
  len buffer = 256 -> cstr level lv -> len lv < 200 -> cstr s u -> 256 <= 3 + len lv + len u ->
  log_message buffer temp level (CH_PERCENT :: CH_s :: more) (VStr s :: args) = Fault OutOfBounds.
Proof.
  intros Hb Hlv Hll [Hu [r ->]] Hl. unfold log_message. assert (0 <= len lv) by (unfold len; lia).
  pose proof (log_prefix_ok buffer level lv Hb Hlv ltac:(lia)) as H4. apply runs_to_inv in H4 as (b4 & -> & Hb4). cbn [mbind outcome_bind].
  set (t4 := [91] ++ lv ++ [93; 32]) in *.
  assert (len t4 = 3 + len lv) as El4 by (unfold t4, len; cbn [length app]; rewrite length_app; cbn [length]; lia).
  cbn [length log_loop]. pose proof Hb4 as (Ep & _). rewrite Ep. destruct (Z.ltb_spec (len t4) 250); [|lia].
  assert (aget (CH_PERCENT :: CH_s :: more) 0 = Ret CH_PERCENT) as E0 by done. rewrite E0. cbn [mbind outcome_bind]. change (CH_PERCENT =? 0) with false. cbn [orb negb].
  unfold log_step. rewrite E0. change (aget (CH_PERCENT :: CH_s :: more) (0 + 1)) with (Ret CH_s). cbn [mbind outcome_bind].
  change (CH_PERCENT =? CH_PERCENT) with true. change (CH_s =? CH_d) with false. change (CH_s =? CH_u) with false. change (CH_s =? CH_z) with false.
  change (CH_s =? CH_x) with false. change (CH_s =? CH_0) with false. change (CH_s =? CH_s) with true. cbn [negb mbind outcome_bind va_str].
  unfold put_all. assert (length u < S (length (u ++ 0%Z :: r)))%nat as Hlu by (rewrite length_app; cbn [length]; lia).
  destruct (Z.eq_dec (len t4 + len u) 256) as [E|Hne].
  - pose proof (put_loop_ok r u [] _ b4 t4 Hu Hb4 ltac:(lia) Hlu) as Hp. cbn [app] in Hp. change (len (@nil Z)) with 0 in Hp.
    apply runs_to_inv in Hp as ([buf pos] & -> & Ep' & El' & _). cbn [mbind outcome_bind fst snd] in *. rewrite len_app, E in Ep'. subst pos.
    destruct more as [|x more]; [done|]. change (aget (CH_PERCENT :: CH_s :: x :: more) (0 + 2)) with (Ret x). cbn [length log_loop mbind outcome_bind snd].
    change (256 <? 250) with false. rewrite orb_true_r. cbn [mbind outcome_bind]. unfold aset. rewrite El'. done.
  - pose proof (put_loop_overrun r u [] _ b4 t4 Hu Hb4 ltac:(lia) Hlu) as Hp. cbn [app] in Hp. change (len (@nil Z)) with 0 in Hp. by rewrite Hp.
Qed.

(** So is that of a number near the end: the test is made before each directive. *)
Example log_number_overruns :
  log_message (replicate 256 0) (replicate 32 0) (zlit "WARN") (replicate 242 97 ++ zlit "%d") [VWord 2147483647] = Fault OutOfBounds.
Proof. by vm_compute. Qed.

(** A number above 2^31 is negative for itoa, which then prints what lies below the
    digits. *)
Example log_hex_negative :
  exists buf, log_message (replicate 256 0) (replicate 32 0) (zlit "INFO") (zlit "%x %u") [VWord 0xFFFFFFFE; VWord 0xFFFFFFFE] = Ret buf /\
    upto_nul buf = lit "[INFO] . -2".
Proof. eexists. split; by vm_compute. Qed.

(** ** A session *)
Module Demo.
Definition ready_ports : CmosPorts (list Z) := {| outb p x c := if p =? 0x3f8 then c ++ [x] else c; inb p c := (0x20, c) |}.

Lemma ready_serial : serial_ready (P:=ready_ports) 1.
Proof.
  intros str. induction str as [|a str IH]; intros c; [done|]. cbn [serial_print write_serial]. unfold is_transmit_empty. cbn [inb ready_ports mbind outcome_bind].
  change (Z.land 32 32 =? 0) with false. cbn [mbind outcome_bind]. apply IH.
Qed.

Definition junk : list Z := replicate 256 7.
Definition message : log_call :=
  mkcall LOG_LEVEL_INFO (lit "disk %s: %d of %u blocks at %p, %08x%%" ++ [10; 0]) [VStr (zlit "hda"); VWord (-5); VWord 4096; VWord 0xFFFF800000001000; VWord 0xBEEF]
    junk (replicate 32 7).

Lemma log_message_text_witness :
  exists buf rest, log_message junk (replicate 32 7) (zlit "INFO") (zlit "%s has %d") [VStr (zlit "hda"); VWord 12] = Ret buf /\
    buf = lit "[INFO] hda has 12" ++ 0 :: rest /\ len buf = 256.
Proof.
  refine (log_message_text junk (replicate 32 7) (zlit "INFO") (lit "INFO") (zlit "%s has %d") (lit "%s has %d") [VStr (zlit "hda"); VWord 12] _ _ _ _ _ _ _);
    [done|done|apply zlit_cstr, (bool_decide_unpack _); by vm_compute|apply zlit_cstr, (bool_decide_unpack _); by vm_compute|by vm_compute|by vm_compute].
Defined.

Lemma log_string_overruns_witness :
  log_message junk (replicate 32 7) (zlit "INFO") (zlit "%s") [VStr (replicate 249 97 ++ [0])] = Fault OutOfBounds.
Proof.
  refine (log_string_overruns junk (replicate 32 7) (zlit "INFO") (lit "INFO") [0] (replicate 249 97 ++ [0]) (replicate 249 97) [] _ _ _ _ _);
    [done|apply zlit_cstr, (bool_decide_unpack _); by vm_compute|done| |done].
  split; [apply (bool_decide_unpack _); by vm_compute|by exists []].
Defined.

(** Two files: the first starts the log and logs a message, the second logs before and
    after. *)
Definition short : log_call := mkcall LOG_LEVEL_WARN (zlit "%x") [VWord 0xFFFFFFFE] junk (replicate 32 7).
Definition events : list (nat * log_event) :=
  [(1%nat, Message short); (0%nat, Init); (0%nat, Message message); (1%nat, Message short)].

Lemma short_ok : call_ok short.
Proof.
  split; [done|]. split; [by vm_compute|]. split; [done|]. split; [done|]. eexists. split; [by vm_compute|].
  split; [apply (bool_decide_unpack _); by vm_compute|by vm_compute].
Qed.

Lemma message_call_ok : call_ok message.
Proof.
  split; [done|]. split; [by vm_compute|]. split; [done|]. split; [done|]. eexists. split; [by vm_compute|].
  split; [apply (bool_decide_unpack _); by vm_compute|by vm_compute].
Qed.

Lemma events_ok : Forall (fun '(file, e) => (file < 2)%nat /\ event_ok e) events.
Proof.
  unfold events. rewrite !Forall_cons, Forall_nil. cbn [event_ok].
  split_and!; (lia || exact short_ok || exact message_call_ok || exact I).
Qed.

Lemma log_session_witness :
  exists logs v c, session (E:=demo_env) (P:=ready_ports) 1 events (replicate 2 boot_log) demo_vfs [] = Ret (logs, v, c) /\
    (exists s rest, logs !! 0%nat = Some s /\
       log_buffer s = (init_msg ++ lit "[INFO] disk hda: -5 of 4096 blocks at 0xFFFF800000001000, 0000beef%" ++ [10]) ++ 0 :: rest) /\
    (exists s rest, logs !! 1%nat = Some s /\ log_buffer s = lit "[WARN] .[WARN] ." ++ 0 :: rest) /\
    forall name, find_file v name = find_file demo_vfs name.
Proof.
  pose proof (log_session (E:=demo_env) (P:=ready_ports) 1 2 events demo_vfs [] ready_serial demo_vfs_wf events_ok) as H.
  apply (proj1 (runs_to_inv _ _)) in H. destruct H as ([[logs v] c] & E & H). destruct H as (Hl & _ & Hn).
  exists logs, v, c. split; [exact E|]. destruct (Hl 0%nat ltac:(lia)) as (s0 & E0 & _ & _ & r0 & H0). destruct (Hl 1%nat ltac:(lia)) as (s1 & E1 & _ & _ & r1 & H1).
  split; [exists s0, r0; split; [exact E0|]; rewrite H0; f_equal|]. split; [exists s1, r1; split; [exact E1|]; rewrite H1; f_equal|]. exact Hn.
Defined.
End Demo.
