(* ===== verification/Shell.v ===== *)
(** * The shell

    core/kernel/shell.c: the line editor, the splitting of a line into words, the
    built-in commands, the paths they build and the start of programs.

    C strings are the lists of their characters, as in [Vfs]; local arrays of
    characters are modelled by their sizes: a copy that does not fit is a fault.
    cmd_buf and temp, whose strings are cut by terminators written into them, are
    arrays.  Processes, memory, keyboard and screen are the class [ShellKernel];
    printed texts are the list [sh_out]. *)

From stdpp Require Import strings.
From S2P Require Import Prelude Vfs Kstd KstdProofs Text.

#[local] Open Scope Z_scope.

Definition MAX_COMMAND_LENGTH : Z := 256.
Definition MAX_PATH_LENGTH : Z := 256.

(** What the shell calls besides the file system, on the state behind it. *)
Class ShellKernel (W : Type) := {
  sk_scheduler_tick : W -> W;                          (** nvm_scheduler_tick *)
  sk_getchar : W -> Z * W;                             (** keyboard_getchar *)
  sk_kmalloc : Z -> W -> option Z * W;
  sk_kfree : Z -> W -> W;
  sk_create_process : list Z -> Z -> W -> Z * W;       (** nvm_create_process with all rights *)
  sk_set_args : Z -> list (list Z) -> W -> W;          (** procfs_set_args *)
  sk_memory_leaks : W -> W;                            (** check_memory_leaks *)
  sk_memory_test : W -> W;                             (** memory_test *)
  sk_clear : W -> W;                                   (** tty_clear *)
  sk_backspace : W -> W;                               (** vga_backspace *)
}.

(** The static variables, the file system and what was printed with which colour. *)
Record shell (W : Type) := mkshell {
  cwd : list Z;
  should_delay_prompt : bool;
  delay_ticks : Z;
  cmd_buf : list Z;                 (** static char[256] of parse_command *)
  vfs_buffer : list Z;              (** the static buffer of vfs_read *)
  sh_vfs : vfs W;
  sh_out : list (list Z * Z);
}.
Arguments mkshell {W}. Arguments cwd {W}. Arguments should_delay_prompt {W}. Arguments delay_ticks {W}. Arguments cmd_buf {W}.
Arguments vfs_buffer {W}. Arguments sh_vfs {W}. Arguments sh_out {W}.

(** ** Splitting a line *)

Fixpoint skip_char (n : nat) (k : Z) (buf : list Z) (p : Z) : outcome Z :=
  match n with
  | O => OutOfFuel
  | S n' => c ← aget buf p; if c =? k then skip_char n' k buf (p + 1) else Ret p
  end.

(** [while ( *p && *p != ' ') p++]. *)
Fixpoint word_end (n : nat) (buf : list Z) (p : Z) : outcome Z :=
  match n with
  | O => OutOfFuel
  | S n' => c ← aget buf p; if negb (c =? 0) && negb (c =? 32) then word_end n' buf (p + 1) else Ret p
  end.

(** argv as offsets into cmd_buf. *)
Fixpoint parse_loop (n : nat) (buf : list Z) (p : Z) (argv : list Z) (max_args : Z) : outcome (list Z * list Z) :=
  match n with
  | O => OutOfFuel
  | S n' =>
      c ← aget buf p;
      if (c =? 0) || (max_args <=? len argv) then Ret (buf, argv) else
      p ← skip_char 257 32 buf p;
      c ← aget buf p;
      if c =? 0 then Ret (buf, argv) else
      let argv := argv ++ [p] in
      p ← word_end 257 buf p;
      c ← aget buf p;
      if negb (c =? 0) then buf ← aset buf p 0; parse_loop n' buf (p + 1) argv max_args
      else parse_loop n' buf p argv max_args
  end.

(** The loop that copies the command into cmd_buf. *)
Definition copy_command (command buf : list Z) : outcome (list Z) :=
  buf ← mem_write buf 0 (take 255 command); aset buf (len (take 255 command)) 0.

Definition parse_command (command : list Z) (max_args : Z) (buf : list Z) : outcome (list Z * list Z) :=
  buf ← copy_command command buf; parse_loop 257 buf 0 [] max_args.

(** The string at an offset. *)
Fixpoint upto_nul (s : list Z) : outcome (list Z) :=
  match s with
  | [] => Fault OutOfBounds
  | c :: s' => if c =? 0 then Ret [] else r ← upto_nul s'; Ret (c :: r)
  end.
Definition string_at (buf : list Z) (off : Z) : outcome (list Z) := upto_nul (drop (Z.to_nat off) buf).

Fixpoint strings_at (buf : list Z) (offs : list Z) : outcome (list (list Z)) :=
  match offs with
  | [] => Ret []
  | o :: offs' => s ← string_at buf o; r ← strings_at buf offs'; Ret (s :: r)
  end.

(** ** Paths *)

(** temp before its terminator, with temp_idx its length. *)
Definition path_text (cwd input_path : list Z) : list Z :=
  match input_path with
  | 47 :: _ => take 255 input_path
  | _ =>
      let t := take 255 cwd in
      let t := match last t with Some c => if negb (c =? 47) then t ++ [47] else t | None => t end in
      t ++ take (255 - length t) input_path
  end.

(** [while (i < temp_idx && p(temp[i])) i++]. *)
Fixpoint scan (n : nat) (p : Z -> bool) (temp : list Z) (temp_idx i : Z) : outcome Z :=
  match n with
  | O => OutOfFuel
  | S n' => if i <? temp_idx then c ← aget temp i; if p c then scan n' p temp temp_idx (i + 1) else Ret i else Ret i
  end.

Definition is_slash (c : Z) : bool := c =? 47.

Fixpoint norm_loop (n : nat) (temp : list Z) (temp_idx i : Z) (parts : list Z) : outcome (list Z * list Z) :=
  match n with
  | O => OutOfFuel
  | S n' =>
      if temp_idx <=? i then Ret (temp, parts) else
      i ← scan 257 is_slash temp temp_idx i;
      if temp_idx <=? i then Ret (temp, parts) else
      let start := i in
      i ← scan 257 (fun c => negb (is_slash c)) temp temp_idx i;
      c0 ← aget temp start; c1 ← aget temp (start + 1);
      if (i - start =? 1) && (c0 =? 46) then norm_loop n' temp temp_idx i parts
      else if (i - start =? 2) && (c0 =? 46) && (c1 =? 46) then
        norm_loop n' temp temp_idx (i + 1) (removelast parts)
      else if (0 <? i - start) && (len parts <? 32) then
        temp ← aset temp i 0;
        norm_loop n' temp temp_idx (i + 1) (parts ++ [start])
      else norm_loop n' temp temp_idx (i + 1) parts
  end.

(** The loop that writes the parts, [output] so far. *)
Fixpoint emit (output : list Z) (parts : list (list Z)) : list Z :=
  match parts with
  | [] => output
  | part :: parts' =>
      let output := output ++ take (255 - length output) part in
      let output := match parts' with [] => output | _ => if (length output <? 255)%nat then output ++ [47] else output end in
      emit output parts'
  end.

Definition normalize_path (cwd input_path : list Z) : outcome (list Z) :=
  let text := path_text cwd input_path in
  temp ← (if len text <? MAX_PATH_LENGTH then Ret (text ++ [0]) else Fault OutOfBounds);
  '(temp, parts) ← norm_loop 257 temp (len text) 0 [];
  names ← strings_at temp parts;
  Ret (match names with [] => [47] | _ => emit [47] names end).

(** The path that a command opens: absolute, or behind the working directory
    ([strcpy], [strcat] into full_path). *)
Definition join_path (cwd path : list Z) : outcome (list Z) :=
  p ← strcpy_into MAX_PATH_LENGTH cwd;
  match last p with
  | None => Fault OutOfBounds
  | Some c =>
      p ← (if negb (c =? 47) then strcpy_into MAX_PATH_LENGTH (p ++ [47]) else Ret p);
      strcpy_into MAX_PATH_LENGTH (p ++ path)
  end.

Definition full_path (cwd path : list Z) : outcome (list Z) :=
  match path with 47 :: _ => strcpy_into MAX_PATH_LENGTH path | _ => join_path cwd path end.

Fixpoint skip_leading (s : list Z) : list Z :=
  match s with 32 :: s' => skip_leading s' | _ => s end.

(** Number of slashes in a name. *)
Definition no_slash (s : list Z) : bool := forallb (fun c => negb (c =? 47)) s.

Section Shell.
Context {W : Type} {VE : VfsEnv W} {SK : ShellKernel W}.
Implicit Types (s : shell W) (w : W).

Definition with_vfs s v : shell W := mkshell (cwd s) (should_delay_prompt s) (delay_ticks s) (cmd_buf s) (vfs_buffer s) v (sh_out s).
Definition with_cwd s c : shell W := mkshell c (should_delay_prompt s) (delay_ticks s) (cmd_buf s) (vfs_buffer s) (sh_vfs s) (sh_out s).
Definition with_delay s b t : shell W := mkshell (cwd s) b t (cmd_buf s) (vfs_buffer s) (sh_vfs s) (sh_out s).
Definition with_cmd_buf s b : shell W := mkshell (cwd s) (should_delay_prompt s) (delay_ticks s) b (vfs_buffer s) (sh_vfs s) (sh_out s).
Definition with_buffer s b v : shell W := mkshell (cwd s) (should_delay_prompt s) (delay_ticks s) (cmd_buf s) b v (sh_out s).

(** The world behind the file system. *)
Definition on_world (f : W -> W) s : shell W := with_vfs s (with_world (sh_vfs s) (f (vworld (sh_vfs s)))).

Definition kput (str : list Z) (color : Z) s : shell W :=
  mkshell (cwd s) (should_delay_prompt s) (delay_ticks s) (cmd_buf s) (vfs_buffer s) (sh_vfs s) (sh_out s ++ [(str, color)]).
Definition kputs (l : list (list Z * Z)) s : shell W := fold_left (fun s e => kput e.1 e.2 s) l s.
Definition line (t : string) : list Z := lit t ++ [10].

(** Each byte as a string of its own; that of a zero is empty. *)
Definition kput_bytes (bytes : list Z) s : shell W := kputs (map (fun b => (if b =? 0 then [] else [b], 15)) bytes) s.

(** itoa(-rc, errbuf, 10) with 12 bytes. *)
Definition error_text (rc : Z) : outcome (list Z) := e ← itoa (i32 (- rc)) (replicate 12 0) 10; string_at e 0.

Definition cmd_help s : shell W :=
  kputs (map (fun t => (t, 7)) [line "Built-in commands:"; line "  help               - Show this help message";
    line "  pwd                - Print working directory"; line "  ls                 - List directory contents";
    line "  cat                - Display file contents"; line "  cd                 - Change directory";
    line "  echo [text] [> file] - Print text or write to file"; line "  mount <fs> <dev> <mntpoint> - Mount filesystem";
    line "  umount <mntpoint>  - Unmount filesystem"; [10]]) s.

Definition cmd_mount (argv : list (list Z)) s : outcome (shell W) :=
  match argv with
  | _ :: fstype :: device :: _ =>
      let mntpoint := lit "/mnt/" ++ take 58 device in
      '(v, _) ← vfs_mkdir mntpoint (sh_vfs s);
      '(v, rc) ← vfs_mount_fs (Some fstype) (Some mntpoint) (Some device) 0 0 v;
      let s := with_vfs s v in
      if rc =? 0 then
        Ret (kputs [(lit "Mounted ", 7); (device, 15); (lit " (", 7); (fstype, 15); (lit ") at ", 7); (mntpoint, 11); ([10], 7)] s)
      else e ← error_text rc; Ret (kputs [(lit "mount: failed (", 7); (e, 12); (line ")", 7)] s)
  | _ => Ret (kputs [(line "Usage: mount <fstype> <device>", 7); (line "  e.g. mount ext2 hda", 7);
                     (line "  mounts to /mnt/<device> automatically", 7)] s)
  end.

Definition cmd_umount (argv : list (list Z)) s : outcome (shell W) :=
  match argv with
  | _ :: mp :: _ =>
      '(v, rc) ← vfs_umount (Some mp) (sh_vfs s);
      let s := with_vfs s v in
      if rc =? 0 then Ret (kputs [(lit "Unmounted ", 7); (mp, 11); ([10], 7)] s)
      else e ← error_text rc; Ret (kputs [(lit "umount: failed (", 7); (e, 12); (line ")", 7)] s)
  | _ => Ret (kput (line "Usage: umount <mountpoint>") 7 s)
  end.

(** The loop of cmd_cat over the pieces of 256 bytes. *)
Fixpoint cat_loop (fuel : nat) (read : vfs_mount -> vfs_file_handle -> Z -> W -> W * (Z * list Z * vfs_file_handle))
    (m : vfs_mount) (h : vfs_file_handle) s : outcome (vfs_file_handle * shell W) :=
  match fuel with
  | O => OutOfFuel
  | S fuel' =>
      let '(w, (n, bytes, h)) := read m h 256 (vworld (sh_vfs s)) in
      let s := with_vfs s (with_world (sh_vfs s) w) in
      if 0 <? n then
        b ← mem_read (take 256 (bytes ++ replicate 256 0)) 0 n;
        cat_loop fuel' read m h (kput_bytes b s)
      else Ret (h, s)
  end.

(** The handle of cmd_cat and cmd_echo. *)
Definition fresh_handle (flags : Z) : vfs_file_handle := mkfh false 0 None [] 0 flags 0.

(** The branch of cmd_cat for a mounted file system; [None] when it falls through to
    vfs_read. *)
Definition cat_mounted (fuel : nat) (path : list Z) s : outcome (option (shell W) * shell W) :=
  r ← mount_of path (sh_vfs s);
  match r with
  | None => Ret (None, s)
  | Some (_, m, ops, rel) =>
      let '(rc, st, s) := match op_stat ops with
                          | Some stat => let '(w, (rc, st)) := stat m rel (vworld (sh_vfs s)) in (rc, st_mode st, with_vfs s (with_world (sh_vfs s) w))
                          | None => (-1, 0, s)
                          end in
      if (rc =? 0) && negb (Z.land st 0xF000 =? 0x4000) then
        let '(rc, h, s) := match op_open ops with
                           | Some open => let '(w, (rc, h)) := open m rel VFS_READ (fresh_handle VFS_READ) (vworld (sh_vfs s)) in
                                          (rc, h, with_vfs s (with_world (sh_vfs s) w))
                           | None => (-1, fresh_handle VFS_READ, s)
                           end in
        if rc =? 0 then
          match op_fread ops with
          | None => Fault NullDeref
          | Some read =>
              '(h, s) ← cat_loop fuel read m h s;
              let s := match op_close ops with
                       | Some close => let '(w, _) := close m h (vworld (sh_vfs s)) in with_vfs s (with_world (sh_vfs s) w)
                       | None => s
                       end in
              Ret (Some (kput [10] 7 s), s)
          end
        else Ret (None, s)
      else Ret (None, s)
  end.

Definition cmd_cat (fuel : nat) (args : list Z) s : outcome (shell W) :=
  let path := skip_leading args in
  match path with
  | [] => Ret (kput (line "cat: Usage: cat <filename>") 7 s)
  | _ =>
      p ← full_path (cwd s) path;
      '(r, s) ← cat_mounted fuel p s;
      match r with
      | Some s => Ret s
      | None =>
          '(v, buf, n) ← vfs_read p (vfs_buffer s) (sh_vfs s);
          let s := with_buffer s buf v in
          match n with
          | None => Ret (kputs [(lit "cat: ", 7); (p, 7); (line ": No such file or directory", 7)] s)
          | Some size => b ← mem_read buf 0 size; Ret (kput [10] 7 (kput_bytes b s))
          end
      end
  end.

(** The name of an entry, with its colour. *)
Definition show_name (name : list Z) (is_dir : bool) : list (list Z * Z) :=
  if is_dir then [(name, 9); ([47], 9); (lit "    ", 7)] else [(name, 15); (lit "    ", 7)].

Fixpoint ls_entries (n : nat) (i : Z) (es : list vfs_dirent) s : outcome (shell W) :=
  match n with
  | O => Ret s
  | S n' =>
      e ← aget es i;
      ls_entries n' (i + 1) es (kputs (show_name (d_name e) (d_type e =? type_code VFS_TYPE_DIR)) s)
  end.

(** What ls shows of a file of the table, in the directory [dir]. *)
Definition ls_name (dir name : list Z) : option (list Z) :=
  if str_eq dir [47] then
    match name with
    | c :: rest => if (c =? 47) && negb (str_eq rest []) && no_slash rest then Some rest else None
    | [] => None
    end
  else if has_prefix dir name then
    match drop (length dir) name with
    | c :: rest => if (c =? 47) && no_slash rest then Some rest else None
    | [] => None
    end
  else None.

Fixpoint ls_files (fs : list vfs_file) (dir : list Z) s : shell W :=
  match fs with
  | [] => s
  | f :: fs' =>
      let s := if f_used f then
                 match ls_name dir (f_name f) with
                 | Some name => kputs (show_name name (bool_decide (f_type f = VFS_TYPE_DIR))) s
                 | None => s
                 end
               else s in
      ls_files fs' dir s
  end.

(** A slash at the end is removed. *)
Definition strip_slash (p : list Z) : list Z :=
  match last p with Some 47 => if (1 <? length p)%nat then removelast p else p | _ => p end.

Definition cmd_ls (args : list Z) s : outcome (shell W) :=
  let path := skip_leading args in
  p ← match path with [] => strcpy_into MAX_PATH_LENGTH (cwd s) | _ => full_path (cwd s) path end;
  let p := strip_slash p in
  let '(entries, w) := sk_kmalloc (32 * 260) (vworld (sh_vfs s)) in
  let s := with_vfs s (with_world (sh_vfs s) w) in
  match entries with
  | None => Ret (kput (line "ls: out of memory") 7 s)
  | Some a =>
      '(v, n, es) ← vfs_readdir (Some p) (Some (replicate 32 (mkdirent [] 0))) 32 (sh_vfs s);
      let s := with_vfs s v in
      if 0 <? n then
        s ← ls_entries (Z.to_nat n) 0 (default [] es) s;
        Ret (kput [10] 7 (on_world (sk_kfree a) s))
      else
        let s := on_world (sk_kfree a) s in
        Ret (kput [10] 7 (ls_files (files (sh_vfs s)) p s))
  end.

(** ** echo *)

(** text[tlen++] = c. *)
Definition push_char (text : list Z) (c : Z) : outcome (list Z) :=
  if len text <? MAX_COMMAND_LENGTH then Ret (text ++ [c]) else Fault OutOfBounds.

(** The words before the redirection; [first] for the word without a space before it. *)
Fixpoint echo_words (words : list (list Z)) (first : bool) (text : list Z) : outcome (list Z) :=
  match words with
  | [] => Ret text
  | w :: words' =>
      text ← (if first then Ret text else push_char text 32);
      echo_words words' false (text ++ take (Z.to_nat (MAX_COMMAND_LENGTH - 2 - len text)) w)
  end.

Definition VFS_APPEND : Z := 0x08.

(** The arguments up to ">" or ">>": the words, the file if there is one, and whether
    to append. *)
Fixpoint find_redirect (args : list (list Z)) : list (list Z) * option (list Z) * bool :=
  match args with
  | [] => ([], None, false)
  | a :: args' =>
      if str_eq a [62] || str_eq a [62; 62] then ([], head args', str_eq a [62; 62])
      else let '(ws, f, app) := find_redirect args' in (a :: ws, f, app)
  end.

(** The mount of a path for echo: the mount, the name of its file system and the
    operations, if there are any. *)
Definition echo_open (flags : Z) (m : vfs_mount) (fsname : list Z) (ops : Z) (rel text : list Z) s : outcome (shell W) :=
  match op_open ops, op_fwrite ops, op_close ops with
  | Some open, Some write, Some close =>
      let '(w, (rc, h)) := open m rel flags (fresh_handle flags) (vworld (sh_vfs s)) in
      let s := with_vfs s (with_world (sh_vfs s) w) in
      if negb (rc =? 0) then
        e ← error_text rc;
        Ret (kputs [(lit "echo: open failed (", 7); (e, 12); (lit ") fs=", 7); (fsname, 15); (lit " path=", 7); (rel, 15); ([10], 7)] s)
      else
        let '(w, (_, h)) := write m h text (vworld (sh_vfs s)) in
        let '(w, _) := close m h w in
        Ret (with_vfs s (with_world (sh_vfs s) w))
  | None, _, _ => Ret (kput (line "echo: filesystem has no write support") 7 s)
  | _, _, _ => Ret (kput (line "echo: no writable filesystem at path") 7 s)
  end.

Definition cmd_echo (argv : list (list Z)) s : outcome (shell W) :=
  let '(ws, redirect_file, append) := find_redirect (tail argv) in
  text ← echo_words ws true [];
  text ← push_char text 10;
  (* the terminator *)
  _ ← push_char text 0;
  match redirect_file with
  | None => Ret (kput text 15 s)
  | Some file =>
      p ← match file with
          | 47 :: _ => Ret (take 255 file)
          | _ => join_path (take 255 (cwd s)) file
          end;
      r ← vfs_find_mount (Some p) (sh_vfs s);
      match r with
      | None => Ret (kput (line "echo: no mount found for path") 7 s)
      | Some (i, rel) =>
          m ← aget (mounts (sh_vfs s)) i;
          match m_fs m with
          | None => Fault NullDeref
          | Some fi =>
              fs ← aget (registered_fs (sh_vfs s)) fi;
              match fs_ops fs with
              | None => Fault NullDeref
              | Some ops =>
                  echo_open (Z.lor (Z.lor VFS_WRITE VFS_CREAT) (if append then VFS_APPEND else VFS_TRUNC)) m (fs_name fs) ops rel text s
              end
          end
      end
  end.

(** ** cd *)

(** normalized_path of directory_exists, 64 bytes; a path of 64 characters is cut, and
    then equal to no name. *)
Definition short_path (path : list Z) : list Z := take 64 (take 63 path ++ [0] ++ replicate 64 0).

(** Whether a directory of the table has the path as its name or above it. *)
Definition dir_matches (path : list Z) (f : vfs_file) : bool :=
  f_used f && bool_decide (f_type f = VFS_TYPE_DIR) && has_prefix path (f_name f) &&
  (str_eq path [47] ||
   match drop (length path) (f_name f) with [] => true | c :: _ => c =? 47 end).

Definition directory_exists (path : list Z) s : outcome (bool * shell W) :=
  '(v, (rc, st)) ← vfs_stat (Some path) (Some (mkstat 0 0 0 0)) (sh_vfs s);
  let s := with_vfs s v in
  let is_dir := match st with Some st => negb (Z.land (st_mode st) 0x4000 =? 0) | None => false end in
  if (rc =? 0) && is_dir then Ret (true, s) else
  c ← (if 1 <? len path then aget (short_path path) (len path - 1) else Ret 0);
  let path := if c =? 47 then removelast path else path in
  Ret (existsb (dir_matches path) (if len path <? 64 then take 128 (files (sh_vfs s)) else []), s).

Definition shell_set_cwd (path : option (list Z)) s : outcome (shell W) :=
  match path with
  | None | Some [] => Ret (with_cwd s [47])
  | Some path =>
      p ← normalize_path (cwd s) path;
      '(b, s) ← directory_exists p s;
      if negb b then Ret (kputs [(lit "cd: ", 7); (p, 7); (line ": No such directory", 7)] s)
      else c ← strcpy_into MAX_PATH_LENGTH p; Ret (with_cwd s c)
  end.

Definition shell_get_cwd s : list Z := cwd s.

(** ** Commands *)

(** bin_path, 64 bytes: the loop copies 58 characters at most, the extension goes
    behind the full length. *)
Definition bin_path (name : list Z) : outcome (list Z) :=
  if len name + 9 <? 64 then Ret (lit "/bin/" ++ name ++ lit ".bin") else Fault OutOfBounds.

Definition run_program (argv : list (list Z)) (name : list Z) s : outcome (shell W) :=
  p ← bin_path name;
  '(v, b) ← vfs_exists p (sh_vfs s);
  let s := with_vfs s v in
  if negb b then Ret (kputs [(name, 7); (line ": command not found", 7)] s) else
  '(v, buf, n) ← vfs_read p (vfs_buffer s) (sh_vfs s);
  let s := with_buffer s buf v in
  match n with
  | Some size =>
      if size =? 0 then Ret (kput (line "Error: Failed to read program file") 12 s) else
      let s := with_delay s true 50 in
      let '(bytecode, w) := sk_kmalloc size (vworld (sh_vfs s)) in
      let s := with_vfs s (with_world (sh_vfs s) w) in
      match bytecode with
      | None => Ret (kput (line "Error: Memory allocation failed") 12 s)
      | Some a =>
          code ← mem_read buf 0 size;
          let '(pid, w) := sk_create_process code size (vworld (sh_vfs s)) in
          let s := with_vfs s (with_world (sh_vfs s) w) in
          if pid <? 0 then Ret (kput (line "Error: Failed to create process") 12 (on_world (sk_kfree a) s))
          else Ret (on_world (sk_set_args pid (tail argv)) s)
      end
  | None => Ret (kput (line "Error: Failed to read program file") 12 s)
  end.

Definition execute_command (fuel : nat) (command : list Z) s : outcome (shell W) :=
  let command := skip_leading command in
  match command with
  | [] => Ret s
  | _ =>
      '(buf, offs) ← parse_command command 16 (cmd_buf s);
      let s := with_cmd_buf s buf in
      argv ← strings_at buf offs;
      match argv with
      | [] => Ret s
      | name :: args =>
          let named (t : string) := str_eq name (lit t) in
          if named "help" then Ret (cmd_help s)
          else if named "#" then Ret s
          else if named "memleak" then Ret (on_world sk_memory_leaks s)
          else if named "memtest" then Ret (on_world sk_memory_test s)
          else if named "clear" then Ret (on_world sk_clear s)
          else if named "pwd" then Ret (kputs [(cwd s, 11); ([10], 7)] s)
          else if named "ls" then cmd_ls (match args with a :: _ => a | [] => [] end) s
          else if named "cat" then
            match args with a :: _ => cmd_cat fuel a s | [] => Ret (kput (line "cat: Usage: cat <filename>") 7 s) end
          else if named "cd" then
            match args with a :: _ => shell_set_cwd (Some a) s | [] => Fault UninitRead end
          else if named "echo" then cmd_echo argv s
          else if named "mount" then cmd_mount argv s
          else if named "umount" then cmd_umount argv s
          else run_program argv name s
      end
  end.

(** ** The line editor *)

Definition shell_init s : outcome (shell W) :=
  match cwd s with
  | [] => Ret (kput (lit "Type 'help' for available commands." ++ [10; 10]) 7 (with_delay (with_cwd s [47]) false 0))
  | _ :: rest => Ret (kput (lit "Type 'help' for available commands." ++ [10; 10]) 7 (with_delay (with_cwd s (47 :: rest)) false 0))
  end.

(** The variables of shell_run: the characters typed so far and needs_prompt. *)
Record editor := mked { typed : list Z; needs_prompt : bool }.

Definition prompt s : shell W :=
  kputs [(lit "[host:", 7); (cwd s, 2); (lit "] ", 7); (lit "# ", 2)] s.

(** The handling of one character. *)
Definition shell_key (fuel : nat) (c : Z) (e : editor) s : outcome (editor * shell W) :=
  if c =? 0 then Ret (e, s)
  else if c =? 10 then
    s ← execute_command fuel (typed e) (kput [10] 7 s); Ret (mked [] true, s)
  else if c =? 8 then
    match typed e with
    | [] => Ret (e, s)
    | _ => Ret (mked (removelast (typed e)) (needs_prompt e), on_world sk_backspace s)
    end
  else if (32 <=? c) && (c <=? 126) then
    if len (typed e) <? MAX_COMMAND_LENGTH - 1 then Ret (mked (typed e ++ [c]) (needs_prompt e), kput [c] 15 s)
    else Ret (e, s)
  else Ret (e, s).

(** One round of the loop of shell_run. *)
Definition shell_round (fuel : nat) (e : editor) s : outcome (editor * shell W) :=
  let s := on_world sk_scheduler_tick s in
  let wait := needs_prompt e && should_delay_prompt s && (0 <? delay_ticks s) in
  if wait then Ret (e, with_delay s true (delay_ticks s - 1)) else
  let '(e, s) := if needs_prompt e then
                   (mked (typed e) false, prompt (if should_delay_prompt s then with_delay s false (delay_ticks s) else s))
                 else (e, s) in
  let '(c, w) := sk_getchar (vworld (sh_vfs s)) in
  shell_key fuel c e (with_vfs s (with_world (sh_vfs s) w)).
End Shell.

(** * The shell: theorems

    [parse_command_words]: a line is cut into its words; [normalize_path_canonical]:
    cd computes the canonical path; [shell_edits_line]: what is typed, corrected and
    entered is what is executed; [echo_prints_words]; [cd_to_directory]: the
    working directory stays canonical; [long_name_overruns], [cd_without_argument] and
    [long_directory_overruns] are about the arrays. *)

#[local] Open Scope Z_scope.

(** ** Words *)

(** The pieces of a text between separators [k], [cur] the one that has begun. *)
Fixpoint pieces_from (k : Z) (cur s : list Z) : list (list Z) :=
  match s with
  | [] => match cur with [] => [] | _ => [cur] end
  | c :: s' =>
      if c =? k then match cur with [] => pieces_from k [] s' | _ => cur :: pieces_from k [] s' end
      else pieces_from k (cur ++ [c]) s'
  end.
Definition pieces (k : Z) (s : list Z) : list (list Z) := pieces_from k [] s.
Definition words : list Z -> list (list Z) := pieces 32.

Section Pieces.
Context (k : Z).

Lemma pieces_seps n s : pieces k (replicate n k ++ s) = pieces k s.
Proof. induction n as [|n IH]; [done|]. unfold pieces. cbn. rewrite Z.eqb_refl. exact IH. Qed.

Definition without (w : list Z) : Prop := Forall (fun c => c <> k) w.

Lemma pieces_from_piece w : without w -> forall cur s, pieces_from k cur (w ++ s) = pieces_from k (cur ++ w) s.
Proof.
  induction 1 as [|c w Hc _ IH]; intros cur s; [by rewrite app_nil_r|]. cbn [app pieces_from].
  rewrite (proj2 (Z.eqb_neq c k) Hc), IH. by rewrite <- app_assoc.
Qed.

Lemma pieces_piece w s : without w -> w <> [] -> pieces k (w ++ k :: s) = w :: pieces k s.
Proof. intros Hw Hn. unfold pieces. rewrite pieces_from_piece by done. cbn. rewrite Z.eqb_refl. by destruct w. Qed.

Lemma pieces_last w : without w -> w <> [] -> pieces k w = [w].
Proof. intros Hw Hn. unfold pieces. rewrite <- (app_nil_r w) at 1. rewrite pieces_from_piece by done. cbn. by destruct w. Qed.

Lemma pieces_app w r : without w -> w <> [] -> r = [] \/ (exists r', r = k :: r') -> pieces k (w ++ r) = w :: pieces k r.
Proof.
  intros Hw Hn [->|[r' ->]]; [rewrite app_nil_r; by apply pieces_last|]. rewrite pieces_piece by done.
  by rewrite <- (pieces_seps 1 r').
Qed.

Lemma split_seps s : exists n r, s = replicate n k ++ r /\ head r <> Some k.
Proof.
  induction s as [|c s (n & r & -> & Hr)]; [by exists 0%nat, []|]. destruct (Z.eq_dec c k) as [->|Hc].
  - by exists (S n), r.
  - exists 0%nat, (c :: replicate n k ++ r). split; [done|]. cbn. congruence.
Qed.

Lemma split_piece s : exists w r, s = w ++ r /\ without w /\ (r = [] \/ exists r', r = k :: r').
Proof.
  induction s as [|c s (w & r & -> & Hw & Hr)]; [exists [], []; split_and!; [done|constructor|by left]|].
  destruct (Z.eq_dec c k) as [->|Hc].
  - exists [], (k :: w ++ r). split_and!; [done|constructor|right; eauto].
  - exists (c :: w), r. split_and!; [done|by constructor|done].
Qed.
End Pieces.

Lemma aget_middle (pre : list Z) c tl i : i = len pre -> aget (pre ++ c :: tl) i = Ret c.
Proof. intros ->. apply aget_lookup; [unfold len; lia|]. unfold len. by rewrite Nat2Z.id, list_lookup_middle. Qed.

Lemma skip_char_ok k : forall n pre c tl i, i = len pre -> c <> 32 -> (k < n)%nat ->
  skip_char n 32 (pre ++ replicate k 32 ++ c :: tl) i = Ret (i + Z.of_nat k).
Proof.
  induction k as [|k IH]; intros n pre c tl i Hi Hc Hn; (destruct n as [|n]; [lia|]); cbn [skip_char replicate app].
  - rewrite (aget_middle pre c tl i Hi). cbn [mbind outcome_bind]. rewrite (proj2 (Z.eqb_neq c 32) Hc). f_equal. lia.
  - rewrite (aget_middle pre 32 (replicate k 32 ++ c :: tl) i Hi). cbn [mbind outcome_bind Z.eqb Pos.eqb].
    replace (pre ++ 32 :: replicate k 32 ++ c :: tl) with ((pre ++ [32]) ++ replicate k 32 ++ c :: tl) by by rewrite <- app_assoc.
    rewrite (IH n (pre ++ [32]) c tl) by (try done; unfold len in *; rewrite ?length_app; cbn [length]; lia). f_equal. lia.
Qed.

Lemma word_end_ok w : without 32 w -> no_nul w -> forall n pre c tl i, i = len pre -> c = 0 \/ c = 32 -> (length w < n)%nat ->
  word_end n (pre ++ w ++ c :: tl) i = Ret (i + len w).
Proof.
  induction 1 as [|d w Hd _ IH]; intros Hz n pre c tl i Hi Hc Hn; (destruct n as [|n]; [cbn [length] in Hn; lia|]); cbn [word_end app].
  - rewrite (aget_middle pre c tl i Hi). cbn [mbind outcome_bind]. unfold len. cbn [length].
    destruct Hc as [->| ->]; cbn; f_equal; lia.
  - rewrite (aget_middle pre d (w ++ c :: tl) i Hi). cbn [mbind outcome_bind]. unfold no_nul in Hz. rewrite elem_of_cons in Hz.
    rewrite (proj2 (Z.eqb_neq d 32) Hd), (proj2 (Z.eqb_neq d 0)) by (intros ->; tauto). cbn [negb andb].
    replace (pre ++ d :: w ++ c :: tl) with ((pre ++ [d]) ++ w ++ c :: tl) by by rewrite <- app_assoc.
    cbn [length] in Hn. rewrite (IH ltac:(unfold no_nul; tauto) n (pre ++ [d]) c tl) by (try done; unfold len in *; rewrite ?length_app; cbn [length]; lia).
    f_equal. unfold len. cbn [length]. lia.
Qed.

Lemma upto_nul_ok w tl : no_nul w -> upto_nul (w ++ 0 :: tl) = Ret w.
Proof.
  induction w as [|c w IH]; intros H; [done|]. unfold no_nul in *. rewrite elem_of_cons in H. cbn [app upto_nul].
  rewrite (proj2 (Z.eqb_neq c 0)) by (intros ->; tauto). by rewrite IH by tauto.
Qed.

Lemma string_at_ok pre w tl i : i = len pre -> no_nul w -> string_at (pre ++ w ++ 0 :: tl) i = Ret w.
Proof. intros -> Hw. unfold string_at, len. rewrite Nat2Z.id, drop_app_length. by apply upto_nul_ok. Qed.

Lemma strings_at_app buf o1 o2 : strings_at buf (o1 ++ o2) = (a ← strings_at buf o1; b ← strings_at buf o2; Ret (a ++ b)).
Proof.
  induction o1 as [|o o1 IH]; cbn [strings_at app].
  - by destruct (strings_at buf o2).
  - rewrite IH. destruct (string_at buf o); [|done..]. cbn [mbind outcome_bind]. destruct (strings_at buf o1); [|done..]. cbn [mbind outcome_bind].
    by destruct (strings_at buf o2).
Qed.

(** The loop of parse_command on the text [rest], with [ws] found. *)
Lemma command_loop_ok n : forall pre rest junk offs ws,
  no_nul rest -> (length rest < 256)%nat -> (length rest + 1 < n)%nat -> (length ws <= 16)%nat -> length offs = length ws ->
  (forall tl, strings_at (pre ++ tl) offs = Ret ws) ->
  runs_to (parse_loop n (pre ++ rest ++ 0 :: junk) (len pre) offs 16) (fun '(buf, offs') =>
    length buf = length (pre ++ rest ++ 0 :: junk) /\ strings_at buf offs' = Ret (take 16 (ws ++ words rest))).
Proof.
  induction n as [|n IH]; intros pre rest junk offs ws Hz Hl Hn Hw Ho Hs; [lia|]. cbn [parse_loop].
  assert (exists c tl, rest ++ 0 :: junk = c :: tl /\ (c = 0 <-> rest = [])) as (c & tl & Ec & Hc).
  { destruct rest as [|c rest]; [by exists 0, junk|]. exists c, (rest ++ 0 :: junk). split; [done|]. split; [|done]. intros ->. by destruct Hz; left. }
  rewrite Ec, (aget_middle pre c tl) by done. cbn [mbind outcome_bind].
  destruct (Z.eqb_spec c 0) as [E0|E0].
  { apply Hc in E0. subst rest. cbn [orb runs_to]. rewrite <- Ec. change (words []) with (@nil (list Z)). rewrite app_nil_r, take_ge by done. split; [done|apply Hs]. }
  destruct (Z.leb_spec 16 (len offs)) as [Hge|Hlt].
  { cbn [orb runs_to]. rewrite take_app_ge by lia.
    split; [done|]. rewrite Hs. f_equal. replace (16 - length ws)%nat with 0%nat by (unfold len in Hge; lia). by rewrite take_0, app_nil_r. }
  cbn [orb]. rewrite <- Ec. clear c tl Ec Hc E0. destruct (split_seps 32 rest) as (k & r & -> & Hr). rewrite <- app_assoc. rewrite length_app, length_replicate in Hl, Hn.
  apply no_nul_app in Hz as [_ Hz]. unfold words. rewrite (pieces_seps 32). unfold len in Hlt.
  assert (forall tl, strings_at ((pre ++ replicate k 32) ++ tl) offs = Ret ws) as Hs2 by (intros t2; rewrite <- app_assoc; apply Hs).
  assert (len pre + Z.of_nat k = len (pre ++ replicate k 32)) as Ep by (unfold len; rewrite length_app, length_replicate; lia).
  destruct (split_piece 32 r) as (w & r' & Ew & Hw32 & Hr'). destruct w as [|d w].
  { destruct Hr' as [->|(r'' & ->)]; [|subst r; by destruct Hr]. subst r. cbn [app].
    rewrite (skip_char_ok k 257 pre 0 junk) by (done || lia). cbn [mbind outcome_bind].
    rewrite (app_assoc pre), Ep, (aget_middle _ 0 junk) by done. cbn [mbind outcome_bind Z.eqb runs_to].
    change (pieces 32 []) with (@nil (list Z)). rewrite app_nil_r, take_ge by done. split; [done|apply Hs2]. }
  subst r. apply no_nul_app in Hz as [Hz1 Hz2]. assert (d <> 0) as Hd0 by (intros ->; by destruct Hz1; left).
  assert (d <> 32) as Hd32 by (by apply Forall_cons_1 in Hw32 as [? _]).
  cbn [app]. rewrite (skip_char_ok k 257 pre d) by (done || lia). cbn [mbind outcome_bind].
  rewrite (app_assoc pre), Ep. set (pre2 := pre ++ replicate k 32) in *. rewrite (aget_middle pre2 d) by done. cbn [mbind outcome_bind].
  rewrite (proj2 (Z.eqb_neq d 0) Hd0). rewrite <- (app_assoc w r'). rewrite length_app in Hl, Hn.
  change (d :: w ++ r' ++ 0 :: junk) with ((d :: w) ++ r' ++ 0 :: junk). change (d :: w ++ r') with ((d :: w) ++ r'). set (w' := d :: w) in *.
  assert (forall tl, strings_at ((pre2 ++ w' ++ [0]) ++ tl) (offs ++ [len pre2]) = Ret (ws ++ [w'])) as Hs3.
  { intros t2. rewrite strings_at_app. rewrite <- !app_assoc. rewrite Hs2. cbn [mbind outcome_bind strings_at app].
    by rewrite (string_at_ok pre2 w') by done. }
  destruct Hr' as [->|(r'' & ->)].
  - cbn [app]. rewrite (word_end_ok w' Hw32 Hz1 257 pre2 0 junk) by (auto || lia). cbn [mbind outcome_bind].
    rewrite (app_assoc pre2). assert (len pre2 + len w' = len (pre2 ++ w')) as Ep2 by (unfold len; rewrite length_app; lia).
    rewrite Ep2, (aget_middle (pre2 ++ w') 0 junk) by done. cbn [mbind outcome_bind Z.eqb negb].
    destruct n as [|n]; [cbn [length] in Hn; lia|]. cbn [parse_loop]. rewrite (aget_middle (pre2 ++ w') 0 junk) by done. cbn [mbind outcome_bind Z.eqb orb runs_to].
    rewrite app_nil_r. rewrite (pieces_last 32) by done. split; [by rewrite <- !app_assoc|].
    replace ((pre2 ++ w') ++ 0 :: junk) with ((pre2 ++ w' ++ [0]) ++ junk) by by rewrite <- !app_assoc. rewrite Hs3. f_equal.
    rewrite take_ge; [done|]. rewrite length_app. cbn [length]. lia.
  - cbn [app]. rewrite (word_end_ok w' Hw32 Hz1 257 pre2 32 (r'' ++ 0 :: junk)) by (auto || lia). cbn [mbind outcome_bind].
    rewrite (app_assoc pre2). assert (len pre2 + len w' = len (pre2 ++ w')) as Ep2 by (unfold len; rewrite length_app; lia).
    rewrite Ep2, (aget_middle (pre2 ++ w') 32) by done. cbn [mbind outcome_bind Z.eqb negb].
    rewrite aset_in_bounds by (unfold len; rewrite !length_app; cbn [length]; lia). cbn [mbind outcome_bind].
    unfold len at 1. rewrite Nat2Z.id, insert_app_r_alt, Nat.sub_diag by done. cbn [insert list_insert].
    replace ((pre2 ++ w') ++ 0 :: r'' ++ 0 :: junk) with ((pre2 ++ w' ++ [0]) ++ r'' ++ 0 :: junk) by by rewrite <- !app_assoc.
    assert (len (pre2 ++ w') + 1 = len (pre2 ++ w' ++ [0])) as Ep3 by (unfold len; rewrite !length_app; cbn [length]; lia). rewrite Ep3.
    cbn [length] in Hl, Hn. unfold no_nul in Hz2. rewrite elem_of_cons in Hz2.
    eapply runs_to_mono; [apply (IH (pre2 ++ w' ++ [0]) r'' junk (offs ++ [len pre2]) (ws ++ [w'])); [unfold no_nul; tauto|lia|lia|rewrite length_app; cbn [length]; lia|rewrite !length_app; cbn [length]; lia|exact Hs3]|].
    intros [buf offs'] [Hbl Hbs]. unfold words in Hbs. rewrite (pieces_piece 32) by done. rewrite <- app_assoc in Hbs. split; [|done].
    rewrite Hbl. rewrite !length_app. cbn [length]. rewrite !length_app. cbn [length]. lia.
Qed.

Lemma parse_command_ok (command buf : list Z) :
  no_nul command -> length buf = 256%nat ->
  runs_to (parse_command command 16 buf) (fun '(buf', offs) =>
    length buf' = 256%nat /\ strings_at buf' offs = Ret (take 16 (words (take 255 command)))).
Proof.
  intros Hz Hb. unfold parse_command, copy_command. set (text := take 255 command).
  assert (length text <= 255)%nat as Hl by (unfold text; rewrite length_take; lia).
  assert (no_nul text) as Ht by (unfold text; rewrite <- (take_drop 255 command) in Hz; by apply no_nul_app in Hz as [? _]).
  destruct (mem_write_ok buf 0 text) as (b1 & -> & Hl1 & E1); [lia|unfold len; lia|]. cbn [mbind outcome_bind].
  change (Z.to_nat 0) with 0%nat in E1. rewrite take_0 in E1. cbn [app Nat.add] in E1. unfold len in Hl1.
  rewrite aset_in_bounds by (unfold len; lia). cbn [mbind outcome_bind]. unfold len. rewrite Nat2Z.id.
  rewrite insert_take_drop by lia. rewrite E1, take_app_length.
  set (junk := drop _ _). eapply runs_to_mono; [apply (command_loop_ok 257 [] text junk [] []); [done|lia|lia|cbn; lia|done|done]|].
  intros [buf' offs] [Hbl Hbs]. split; [|done]. rewrite Hbl. cbn [app]. unfold junk.
  rewrite length_app. cbn [length]. rewrite length_drop, length_app, length_drop. lia.
Qed.

(** C22. A command line is cut into its words.  For every command, parse_command
    leaves in cmd_buf the words of its first 255 characters, separated by any number
    of spaces, each terminated, and returns pointers to the first sixteen of them in
    order; it never leaves cmd_buf.  The words are those of the reference definition
    [words]. *)
Theorem parse_command_words (command buf : list Z) :
  no_nul command -> length buf = 256%nat ->
  runs_to (parse_command command 16 buf) (fun '(buf', offs) =>
    length buf' = 256%nat /\ strings_at buf' offs = Ret (take 16 (words (take 255 command)))).
Proof. apply parse_command_ok. Qed.

(** ** Paths *)

(** The parts of a path after "." and ".." are resolved; a path has 32 parts at most. *)
Fixpoint resolve (acc cs : list (list Z)) : list (list Z) :=
  match cs with
  | [] => acc
  | c :: cs' =>
      if str_eq c [46] then resolve acc cs'
      else if str_eq c [46; 46] then resolve (removelast acc) cs'
      else if (length acc <? 32)%nat then resolve (acc ++ [c]) cs'
      else resolve acc cs'
  end.

Lemma scan_ok p w : Forall (fun c => p c = true) w -> forall n pre rest ti i,
  i = len pre -> (length w < n)%nat -> (ti = i + len w \/ i + len w < ti /\ exists c tl, rest = c :: tl /\ p c = false) ->
  scan n p (pre ++ w ++ rest) ti i = Ret (i + len w).
Proof.
  induction 1 as [|c w Hc _ IH]; intros n pre rest ti i Hi Hn Hend; (destruct n as [|n]; [cbn [length] in Hn; lia|]); cbn [scan app].
  - unfold len in Hend |- *. cbn [length] in Hend |- *. rewrite Z.add_0_r in *.
    destruct Hend as [->|[Hlt (d & tl & -> & Hd)]]; [rewrite Z.ltb_irrefl; done|].
    rewrite (proj2 (Z.ltb_lt i ti)) by lia. rewrite (aget_middle pre d tl) by done. cbn [mbind outcome_bind]. by rewrite Hd.
  - unfold len in Hend. cbn [length] in Hend, Hn. rewrite (proj2 (Z.ltb_lt i ti)) by lia.
    rewrite (aget_middle pre c (w ++ rest)) by done. cbn [mbind outcome_bind]. rewrite Hc.
    replace (pre ++ c :: w ++ rest) with ((pre ++ [c]) ++ w ++ rest) by by rewrite <- app_assoc.
    rewrite (IH n (pre ++ [c]) rest ti (i + 1)); [unfold len; cbn [length]; f_equal; lia| |lia|].
    + unfold len in *. rewrite length_app. cbn [length]. lia.
    + unfold len. destruct Hend as [->|[Hlt He]]; [left; lia|right; split; [lia|done]].
Qed.

Lemma strings_at_removelast buf offs ws : strings_at buf offs = Ret ws -> strings_at buf (removelast offs) = Ret (removelast ws).
Proof.
  destruct offs as [|o offs _] using rev_ind; [by intros [= <-]|]. rewrite removelast_last, strings_at_app.
  destruct (strings_at buf offs) as [ws1| |]; [|done..]. cbn [mbind outcome_bind strings_at].
  destruct (string_at buf o) as [w| |]; [|done..]. cbn [mbind outcome_bind]. intros [= <-]. by rewrite removelast_last.
Qed.

Lemma strings_at_length buf offs : forall ws, strings_at buf offs = Ret ws -> length ws = length offs.
Proof.
  induction offs as [|o offs IH]; intros ws; cbn [strings_at]; [by intros [= <-]|].
  destruct (string_at buf o) as [w| |]; [|done..]. cbn [mbind outcome_bind]. destruct (strings_at buf offs) as [ws1| |]; [|done..].
  cbn [mbind outcome_bind]. intros [= <-]. cbn [length]. by rewrite (IH ws1).
Qed.

Lemma norm_end n temp ti i parts : ti <= i -> norm_loop (S n) temp ti i parts = Ret (temp, parts).
Proof. intros H. cbn [norm_loop]. by rewrite (proj2 (Z.leb_le ti i) H). Qed.

(** The tests for "." and "..". *)
Lemma dot_tests pre w rest i start : start = len pre -> i = start + len w -> w <> [] -> rest <> [] ->
  exists c0 c1, aget (pre ++ w ++ rest) start = Ret c0 /\ aget (pre ++ w ++ rest) (start + 1) = Ret c1 /\
  ((i - start =? 1) && (c0 =? 46) = str_eq w [46]) /\ ((i - start =? 2) && (c0 =? 46) && (c1 =? 46) = str_eq w [46; 46]).
Proof.
  intros -> -> Hne Hrest. destruct rest as [|c tl]; [done|]. clear Hrest.
  destruct w as [|a w]; [done|]. exists a. unfold str_eq.
  assert (forall b t, pre ++ (a :: b :: t) = (pre ++ [a]) ++ b :: t) as Es by (intros; by rewrite <- app_assoc).
  assert (len pre + 1 = len (pre ++ [a])) as E1 by (unfold len; rewrite length_app; cbn [length]; lia).
  destruct w as [|b w].
  - exists c. cbn [app]. rewrite (aget_middle pre a) by done. rewrite Es, E1, (aget_middle (pre ++ [a]) c) by done. split_and!; [done|done| |].
    + unfold len. cbn [length]. replace (Z.of_nat (length pre) + Z.of_nat 1 - Z.of_nat (length pre) =? 1) with true by (symmetry; apply Z.eqb_eq; lia).
      cbn [andb]. destruct (Z.eqb_spec a 46) as [->|]; case_bool_decide; try done; congruence.
    + unfold len. cbn [length]. replace (Z.of_nat (length pre) + Z.of_nat 1 - Z.of_nat (length pre) =? 2) with false by (symmetry; apply Z.eqb_neq; lia).
      cbn [andb]. by case_bool_decide.
  - exists b. cbn [app]. rewrite (aget_middle pre a) by done. rewrite Es, E1, (aget_middle (pre ++ [a]) b) by done. split_and!; [done|done| |].
    + unfold len. cbn [length]. replace (Z.of_nat (length pre) + Z.of_nat (S (S (length w))) - Z.of_nat (length pre) =? 1) with false by (symmetry; apply Z.eqb_neq; lia).
      cbn [andb]. by case_bool_decide.
    + unfold len. cbn [length]. destruct w as [|d w].
      * replace (Z.of_nat (length pre) + Z.of_nat (S (S (@length Z []))) - Z.of_nat (length pre) =? 2) with true by (symmetry; apply Z.eqb_eq; cbn [length]; lia).
        cbn [andb]. destruct (Z.eqb_spec a 46) as [->|], (Z.eqb_spec b 46) as [->|]; case_bool_decide; try done; congruence.
      * replace (Z.of_nat (length pre) + Z.of_nat (S (S (length (d :: w)))) - Z.of_nat (length pre) =? 2) with false by (symmetry; apply Z.eqb_neq; cbn [length]; lia).
        cbn [andb]. by case_bool_decide.
Qed.

(** What follows a part: nothing, or a slash. *)
Definition part_end (r : list Z) : Prop := r = [] \/ exists r', r = 47 :: r'.

(** One round of the loop, on a part [w] behind [k] slashes; [q] ends at the part. *)
Lemma norm_round n pre k w r parts q ti : without 47 w -> w <> [] -> part_end r ->
  q = pre ++ replicate k 47 ++ w -> ti = len q + len r -> (k < 257)%nat -> (length w < 257)%nat ->
  norm_loop (S n) (q ++ r ++ [0]) ti (len pre) parts =
    if str_eq w [46] then norm_loop n (q ++ r ++ [0]) ti (len q) parts
    else if str_eq w [46; 46] then norm_loop n (q ++ r ++ [0]) ti (len q + 1) (removelast parts)
    else if len parts <? 32 then
      norm_loop n (q ++ <[0%nat := 0]> (r ++ [0])) ti (len q + 1) (parts ++ [len (pre ++ replicate k 47)])
    else norm_loop n (q ++ r ++ [0]) ti (len q + 1) parts.
Proof.
  intros Hw Hw0 Hr -> -> Hk Hwl. set (sl := replicate k 47). assert (length sl = k) as Hsl by apply length_replicate.
  assert (length w <> 0%nat) as Hw1 by (by destruct w).
  set (pre2 := pre ++ sl). assert (len pre + len sl = len pre2) as Ep by (unfold pre2, len; rewrite length_app; lia).
  replace (pre ++ sl ++ w) with (pre2 ++ w) by (unfold pre2; by rewrite <- app_assoc).
  assert (len (pre2 ++ w) = len pre2 + len w) as Eq by (unfold len; rewrite length_app; lia). rewrite Eq.
  cbn [norm_loop]. rewrite (proj2 (Z.leb_gt _ (len pre))) by (unfold len in *; lia).
  assert ((pre2 ++ w) ++ r ++ [0] = pre ++ sl ++ w ++ r ++ [0]) as E1 by (unfold pre2; by rewrite <- !app_assoc).
  assert ((pre2 ++ w) ++ r ++ [0] = pre2 ++ w ++ r ++ [0]) as E2 by (by rewrite <- !app_assoc).
  rewrite E1. rewrite (scan_ok is_slash sl) with (pre := pre); [|by apply Forall_replicate|done|lia|].
  2:{ right. split; [unfold len in *; lia|]. destruct w as [|c w]; [done|]. exists c, (w ++ r ++ [0]). split; [done|].
      apply Forall_cons_1 in Hw as [Hc _]. by apply Z.eqb_neq. }
  rewrite <- E1, Ep, E2. cbn [mbind outcome_bind]. rewrite (proj2 (Z.leb_gt _ (len pre2))) by (unfold len in *; lia).
  rewrite (scan_ok (fun c => negb (is_slash c)) w) with (pre := pre2); [| |done|lia|].
  2:{ eapply Forall_impl; [exact Hw|]. intros c Hc. unfold is_slash. by rewrite (proj2 (Z.eqb_neq c 47) Hc). }
  2:{ destruct Hr as [->|[r' ->]]; [left; unfold len; cbn [length]; lia|right]. split; [unfold len; cbn [length]; lia|]. by exists 47, (r' ++ [0]). }
  cbn [mbind outcome_bind].
  destruct (dot_tests pre2 w (r ++ [0]) (len pre2 + len w) (len pre2) eq_refl eq_refl Hw0 ltac:(by destruct r)) as (c0 & c1 & T0 & T1 & T2 & T3).
  rewrite T0. cbn [mbind outcome_bind]. rewrite T1. cbn [mbind outcome_bind]. rewrite T2, T3.
  rewrite (proj2 (Z.ltb_lt 0 _)) by (unfold len; lia). cbn [andb]. destruct (str_eq w [46]); [done|]. destruct (str_eq w [46; 46]); [done|].
  destruct (len parts <? 32); [|done]. rewrite aset_in_bounds by (unfold len; rewrite !length_app; cbn [length]; lia). cbn [mbind outcome_bind].
  rewrite <- E2, <- Eq. unfold len at 1. rewrite Nat2Z.id, insert_app_r_alt, Nat.sub_diag by done. done.
Qed.

Lemma norm_loop_ok n : forall pre rest parts acc,
  no_nul rest -> (length rest < 256)%nat -> (length rest + 1 < n)%nat -> (forall tl, strings_at (pre ++ tl) parts = Ret acc) ->
  runs_to (norm_loop n (pre ++ rest ++ [0]) (len pre + len rest) (len pre) parts) (fun '(temp, parts') =>
    strings_at temp parts' = Ret (resolve acc (pieces 47 rest))).
Proof.
  induction n as [|n IH]; intros pre rest parts acc Hz Hl Hn Hs; [lia|].
  destruct (split_seps 47 rest) as (k & r & -> & Hr). destruct (split_piece 47 r) as (w & r' & -> & Hw & Hr').
  rewrite (pieces_seps 47). destruct (decide (w = [])) as [->|Hw0].
  { destruct Hr' as [->|[r'' ->]]; [|by destruct Hr]. cbn [app] in *. rewrite app_nil_r in *. cbn [norm_loop].
    rewrite length_replicate in Hl. set (sl := replicate k 47) in *. assert (length sl = k) as Hsl by apply length_replicate.
    destruct (_ <=? _); [apply Hs|]. rewrite (scan_ok is_slash sl) with (pre := pre); [|by apply Forall_replicate|done|lia|by left].
    cbn [mbind outcome_bind]. rewrite Z.leb_refl. apply Hs. }
  set (q := pre ++ replicate k 47 ++ w).
  assert (pre ++ (replicate k 47 ++ w ++ r') ++ [0] = q ++ r' ++ [0]) as -> by (unfold q; by rewrite <- !app_assoc).
  assert (len pre + len (replicate k 47 ++ w ++ r') = len q + len r') as -> by (unfold q, len; rewrite !length_app; lia).
  rewrite !length_app, length_replicate in Hl, Hn. apply no_nul_app in Hz as [_ Hz]. apply no_nul_app in Hz as [Hzw Hzr].
  rewrite (norm_round n pre k w r' parts q) by (done || lia). rewrite (pieces_app 47) by done. cbn [resolve].
  assert (length w <> 0%nat) as Hwl by (by destruct w).
  assert (forall tl, strings_at (q ++ tl) parts = Ret acc) as Hq by (intros tl; unfold q; rewrite <- app_assoc; apply Hs).
  destruct (str_eq w [46]); [apply IH; [done|lia|lia|done]|].
  assert (forall c parts2 acc2, (forall tl, strings_at (q ++ c :: tl) parts2 = Ret acc2) -> (r' = [] -> c = 0) ->
    runs_to (norm_loop n (q ++ <[0%nat := c]> (r' ++ [0])) (len q + len r') (len q + 1) parts2)
      (fun '(temp, parts') => strings_at temp parts' = Ret (resolve acc2 (pieces 47 r')))) as Hpass.
  { intros c parts2 acc2 H2 Hc. destruct Hr' as [->|[r'' ->]].
    - destruct n as [|n]; [lia|]. rewrite norm_end by (unfold len; cbn [length]; lia). rewrite (Hc eq_refl) in *. exact (H2 []).
    - cbn [app insert list_insert]. cbn [length] in Hl, Hn. change (47 :: r'') with (replicate 1 47 ++ r'') at 2. rewrite (pieces_seps 47).
      replace (q ++ c :: r'' ++ [0]) with ((q ++ [c]) ++ r'' ++ [0]) by (by rewrite <- !app_assoc).
      replace (len q + 1) with (len (q ++ [c])) by (unfold len; rewrite !length_app; cbn [length]; lia).
      replace (len q + len (47 :: r'')) with (len (q ++ [c]) + len r'') by (unfold len; rewrite !length_app; cbn [length]; lia).
      unfold no_nul in Hzr. rewrite elem_of_cons in Hzr. apply IH; [unfold no_nul; tauto|lia|lia|]. intros tl. rewrite <- app_assoc. apply H2. }
  (* the loop passes the slash or the end without a change *)
  assert (forall parts2 acc2, (forall tl, strings_at (q ++ tl) parts2 = Ret acc2) ->
    runs_to (norm_loop n (q ++ r' ++ [0]) (len q + len r') (len q + 1) parts2)
      (fun '(temp, parts') => strings_at temp parts' = Ret (resolve acc2 (pieces 47 r')))) as Hskip.
  { intros parts2 acc2 H2. destruct Hr' as [->|[r'' ->]]; [by apply (Hpass 0)|by apply (Hpass 47)]. }
  destruct (str_eq w [46; 46]); [apply Hskip; intros tl; by apply strings_at_removelast|].
  assert (length parts = length acc) as Hpa by (by rewrite (strings_at_length _ _ _ (Hs []))).
  destruct (Z.ltb_spec (len parts) 32) as [Hp|Hp]; unfold len in Hp.
  - rewrite (proj2 (Nat.ltb_lt (length acc) 32)) by lia. apply Hpass; [|done]. intros tl.
    rewrite strings_at_app, Hq. cbn [mbind outcome_bind strings_at]. unfold q. rewrite app_assoc, <- (app_assoc _ w).
    by rewrite (string_at_ok (pre ++ replicate k 47) w tl).
  - rewrite (proj2 (Nat.ltb_ge (length acc) 32)) by lia. by apply Hskip.
Qed.

Lemma norm_start n text : no_nul text -> (length text < 256)%nat -> (length text + 1 < n)%nat ->
  runs_to (norm_loop n (text ++ [0]) (len text) 0 []) (fun '(temp, parts) => strings_at temp parts = Ret (resolve [] (pieces 47 text))).
Proof. intros Hz Hl Hn. exact (norm_loop_ok n [] text [] [] Hz Hl Hn (fun _ => eq_refl)). Qed.

(** The path with the given parts. *)
Definition path_of (l : list (list Z)) : list Z := match l with [] => [47] | _ => concat (map (cons 47) l) end.

Lemma emit_ok l : forall out, l <> [] -> emit out l = out ++ take (255 - length out) (tail (path_of l)).
Proof.
  induction l as [|part l IH]; intros out Hne; [done|]. cbn [emit]. destruct l as [|part2 l].
  { cbn. by rewrite app_nil_r. }
  destruct (Nat.ltb_spec (length (out ++ take (255 - length out) part)) 255) as [Hlt|Hge].
  - rewrite IH by done. assert (length part < 255 - length out)%nat as Hp by (rewrite length_app, length_take in Hlt; lia).
    rewrite (take_ge part) by lia. rewrite <- !app_assoc. f_equal.
    change (tail (path_of (part :: part2 :: l))) with (part ++ path_of (part2 :: l)).
    rewrite take_app_ge by lia. f_equal. rewrite !length_app. cbn [length].
    replace (255 - length out - length part)%nat with (S (255 - (length out + (length part + 1)))) by lia. done.
  - rewrite IH by done. rewrite length_app, length_take in Hge.
    replace (255 - length (out ++ take (255 - length out) part))%nat with 0%nat by (rewrite length_app, length_take; lia).
    rewrite take_0, app_nil_r. f_equal. change (tail (path_of (part :: part2 :: l))) with (part ++ path_of (part2 :: l)).
    rewrite take_app_le by lia. done.
Qed.

(** The path of [input], relative to [cwd]. *)
Definition absolute (cwd input : list Z) : list Z :=
  match input with 47 :: _ => input | _ => cwd ++ (if bool_decide (last cwd = Some 47) then [] else [47]) ++ input end.

Definition name_ok (p : list Z) : Prop := p <> [] /\ without 47 p /\ p <> [46] /\ p <> [46; 46].

Lemma pieces_ok s : Forall (fun p => p <> [] /\ without 47 p) (pieces 47 s).
Proof.
  assert (forall s cur, without 47 cur -> Forall (fun p => p <> [] /\ without 47 p) (pieces_from 47 cur s)) as H; [|apply H; constructor].
  induction s0 as [|c s0 IH]; intros cur Hc; cbn [pieces_from].
  - destruct cur; [constructor|]. constructor; [done|constructor].
  - destruct (Z.eqb_spec c 47) as [->|Hne]; [destruct cur; [by apply IH; constructor|constructor; [done|apply IH; constructor]]|].
    apply IH. apply Forall_app. split; [done|]. by repeat constructor.
Qed.

Lemma Forall_removelast {A} (P : A -> Prop) l : Forall P l -> Forall P (removelast l).
Proof. destruct l as [|x l _] using rev_ind; [done|]. rewrite removelast_last. intros H. by apply Forall_app in H as [? _]. Qed.

Lemma resolve_ok cs : Forall (fun p => p <> [] /\ without 47 p) cs -> forall acc,
  Forall name_ok acc -> (length acc <= 32)%nat -> Forall name_ok (resolve acc cs) /\ (length (resolve acc cs) <= 32)%nat.
Proof.
  induction 1 as [|c cs [Hc0 Hc] _ IH]; intros acc Ha Hl; cbn [resolve]; [done|]. unfold str_eq.
  case_bool_decide as H1; [by apply IH|]. case_bool_decide as H2.
  { apply IH; [by apply Forall_removelast|]. destruct acc as [|x acc _] using rev_ind; [cbn; lia|].
    rewrite removelast_last. rewrite length_app in Hl. lia. }
  destruct (Nat.ltb_spec (length acc) 32); [|by apply IH]. apply IH; [|rewrite length_app; cbn [length]; lia].
  apply Forall_app. split; [done|]. constructor; [|constructor]. by split_and!.
Qed.

(** Canonical parts are resolved to themselves. *)
Lemma resolve_id cs : Forall name_ok cs -> forall acc, (length acc + length cs <= 32)%nat -> resolve acc cs = acc ++ cs.
Proof.
  induction 1 as [|c cs (_ & _ & H1 & H2) _ IH]; intros acc Hl; cbn [resolve]; [by rewrite app_nil_r|]. unfold str_eq. cbn [length] in Hl.
  rewrite !bool_decide_eq_false_2 by done. rewrite (proj2 (Nat.ltb_lt _ _)) by lia. rewrite IH by (rewrite length_app; cbn [length]; lia). by rewrite <- app_assoc.
Qed.

Lemma pieces_path l : Forall name_ok l -> pieces 47 (path_of l) = l.
Proof.
  intros Hl. destruct l as [|p l]; [done|]. unfold path_of. set (m := p :: l) in *. clearbody m.
  induction Hl as [|q m (Hq & Hw & _) _ IH]; [done|]. cbn [map concat].
  change ((47 :: q) ++ concat (map (cons 47) m)) with (replicate 1 47 ++ q ++ concat (map (cons 47) m)). rewrite (pieces_seps 47).
  rewrite (pieces_app 47), IH; try done. destruct m; [by left|right]. cbn. eauto.
Qed.

Lemma no_nul_Forall s : no_nul s <-> Forall (fun c => c <> 0) s.
Proof. unfold no_nul. rewrite Forall_forall. naive_solver. Qed.

Lemma pieces_no_nul s : no_nul s -> Forall no_nul (pieces 47 s).
Proof.
  intros Hs%no_nul_Forall.
  assert (forall cur, no_nul cur -> Forall no_nul (pieces_from 47 cur s)) as H; [|apply H; by intros ?%not_elem_of_nil].
  induction Hs as [|c s Hc _ IH]; intros cur Hcur; cbn [pieces_from].
  - destruct cur; by repeat constructor.
  - assert (no_nul []) by (by intros ?%not_elem_of_nil).
    destruct (c =? 47); [destruct cur; [by apply IH|constructor; [done|by apply IH]]|]. apply IH. apply no_nul_app. split; [done|].
    unfold no_nul. rewrite list_elem_of_singleton. congruence.
Qed.

Lemma resolve_Forall (P : list Z -> Prop) cs : Forall P cs -> forall acc, Forall P acc -> Forall P (resolve acc cs).
Proof.
  induction 1 as [|c cs Hc _ IH]; intros acc Ha; cbn [resolve]; [done|]. destruct (str_eq c [46]); [by apply IH|].
  destruct (str_eq c [46; 46]); [by apply IH, Forall_removelast|]. destruct (_ <? 32)%nat; [|by apply IH]. apply IH, Forall_app. by repeat constructor.
Qed.

Lemma path_no_nul l : Forall no_nul l -> no_nul (path_of l).
Proof.
  intros Hl. assert (no_nul (concat (map (cons 47) l))) as H.
  { induction Hl as [|p l Hp _ IH]; cbn [map concat]; [by intros ?%not_elem_of_nil|]. apply no_nul_app. split; [|done].
    unfold no_nul in *. rewrite elem_of_cons. intros [E|E]; [done|tauto]. }
  destruct l; [|done]. unfold no_nul. cbn. rewrite list_elem_of_singleton. done.
Qed.

(** The length of a path made of parts. *)
Definition parts_len (l : list (list Z)) : nat := length (concat (map (cons 47) l)).

Lemma parts_len_app l m : parts_len (l ++ m) = (parts_len l + parts_len m)%nat.
Proof. unfold parts_len. by rewrite map_app, concat_app, length_app. Qed.

Lemma parts_len_cons p l : parts_len (p :: l) = (S (length p) + parts_len l)%nat.
Proof. unfold parts_len. cbn [map concat]. by rewrite length_app. Qed.

Lemma resolve_len cs : forall acc, (parts_len (resolve acc cs) <= parts_len acc + parts_len cs)%nat.
Proof.
  induction cs as [|c cs IH]; intros acc; cbn [resolve]; [lia|]. rewrite parts_len_cons.
  assert (parts_len (removelast acc) <= parts_len acc)%nat as Hr.
  { destruct acc as [|x acc _] using rev_ind; [done|]. rewrite removelast_last, parts_len_app. lia. }
  destruct (str_eq c [46]); [specialize (IH acc); lia|]. destruct (str_eq c [46; 46]); [specialize (IH (removelast acc)); lia|].
  destruct (_ <? 32)%nat; [|specialize (IH acc); lia]. specialize (IH (acc ++ [c])). rewrite parts_len_app, parts_len_cons in IH. cbn in IH. unfold parts_len in *. cbn in IH. lia.
Qed.

Lemma pieces_len s : (parts_len (pieces 47 s) <= length s + 1)%nat.
Proof.
  assert (forall s cur, (parts_len (pieces_from 47 cur s) <= length cur + length s + 1)%nat) as H; [|apply (H s [])].
  induction s0 as [|c s0 IH]; intros cur; cbn [pieces_from length].
  - destruct cur; [unfold parts_len; cbn; lia|]. rewrite parts_len_cons. unfold parts_len. cbn [map concat length]. lia.
  - destruct (Z.eqb_spec c 47).
    + destruct cur; [specialize (IH []); cbn [length] in *; lia|]. rewrite parts_len_cons. specialize (IH []). cbn [length] in *. lia.
    + specialize (IH (cur ++ [c])). rewrite length_app in IH. cbn [length] in IH. lia.
Qed.

(** The working directory: not empty, without a terminator, with room for a slash. *)
Definition cwd_ok (cwd : list Z) : Prop := cwd <> [] /\ no_nul cwd /\ (length cwd < 255)%nat.

Lemma path_text_ok cwd input : cwd_ok cwd -> (length (absolute cwd input) < 255)%nat -> path_text cwd input = absolute cwd input.
Proof.
  intros (Hne & _ & Hc) Hl. unfold path_text, absolute in *. 
  assert (forall i, (length (cwd ++ (if bool_decide (last cwd = Some 47%Z) then [] else [47%Z]) ++ i) < 255)%nat ->
    (let t := take 255 cwd in let t := match last t with Some c => if negb (c =? 47) then t ++ [47] else t | None => t end in
     t ++ take (255 - length t) i) = cwd ++ (if bool_decide (last cwd = Some 47) then [] else [47]) ++ i) as H.
  { intros i Hi. cbn zeta. rewrite take_ge by lia. destruct (last cwd) as [c|] eqn:El.
    2:{ by apply last_None in El. }
    rewrite !length_app in Hi. destruct (Z.eqb_spec c 47) as [->|Hn]; cbn [negb].
    - rewrite bool_decide_eq_true_2 in * by done. rewrite take_ge by (cbn [length] in Hi; lia). done.
    - rewrite bool_decide_eq_false_2 in * by congruence. rewrite <- app_assoc. rewrite take_ge; [done|].
      rewrite length_app. cbn [length] in *. lia. }
  destruct input as [|c input]; [apply H, Hl|].
  destruct (Z.eq_dec c 47) as [->|Hn]; [rewrite take_ge by lia; done|].
  assert (forall (X Y : list Z), (match c with 47 => X | _ => Y end) = Y) as Hm.
  { intros X Y. destruct c as [|q|q]; try done. repeat (destruct q as [q|q|]; try done). }
  rewrite Hm in Hl |- *. rewrite Hm. apply H, Hl.
Qed.

Lemma absolute_no_nul cwd input : cwd_ok cwd -> no_nul input -> no_nul (absolute cwd input).
Proof.
  intros (_ & Hc & _) Hi. assert (no_nul (cwd ++ (if bool_decide (last cwd = Some 47) then [] else [47]) ++ input)) as Hz.
  { rewrite !no_nul_app. split_and!; [done| |done]. unfold no_nul. case_bool_decide; set_solver. }
  unfold absolute. by repeat case_match.
Qed.

(** Cutting the result at 255 characters does nothing. *)
Lemma emit_path text : (length text < 255)%nat ->
  match resolve [] (pieces 47 text) with [] => [47] | p :: l => emit [47] (p :: l) end = path_of (resolve [] (pieces 47 text)).
Proof.
  intros Hl. pose proof (resolve_len (pieces 47 text) []) as H1. pose proof (pieces_len text) as H2.
  destruct (resolve [] (pieces 47 text)) as [|p l]; [done|]. rewrite emit_ok by done.
  assert (parts_len [] = 0%nat) as E0 by done. assert (length (path_of (p :: l)) = parts_len (p :: l)) as Ep by done.
  assert (exists rest, path_of (p :: l) = 47 :: rest) as [rest Er] by (eexists; reflexivity).
  rewrite Er in Ep |- *. cbn [tail length] in Ep |- *. rewrite take_ge by lia. done.
Qed.

Lemma normalize_path_eq cwd input : cwd_ok cwd -> no_nul input -> (length (absolute cwd input) < 255)%nat ->
  normalize_path cwd input = Ret (path_of (resolve [] (pieces 47 (absolute cwd input)))).
Proof.
  intros Hc Hi Hl. unfold normalize_path. rewrite path_text_ok by done.
  pose proof (absolute_no_nul cwd input Hc Hi) as Hz. set (text := absolute cwd input) in *.
  rewrite (proj2 (Z.ltb_lt _ MAX_PATH_LENGTH)) by (unfold len, MAX_PATH_LENGTH; lia).
  pose proof (norm_start 257 text Hz ltac:(lia) ltac:(lia)) as H. revert H. generalize 257%nat. intros n H.
  cbn [mbind outcome_bind].
  destruct (norm_loop n (text ++ [0]) (len text) 0 []) as [[temp parts]| |]; [|done..]. cbn [runs_to] in H.
  cbn [mbind outcome_bind]. rewrite H. cbn [mbind outcome_bind]. f_equal.
  rewrite <- (emit_path text Hl). by destruct (resolve [] (pieces 47 text)).
Qed.

(** C21. cd computes canonical paths.  For every input whose absolute form, relative
    to the working directory, has fewer than 255 characters, normalize_path returns
    the path of its parts after the empty ones and "." are dropped and ".." has removed
    the part before it (or nothing at the root), as the reference definition [resolve]
    does; no array is left.  The result starts with a slash, consists of 32 parts at
    most, none empty, "." or "..", and is a fixed point: normalising it again, from any
    working directory, gives it back. *)
Theorem normalize_path_canonical (cwd input : list Z) :
  cwd_ok cwd -> no_nul input -> (length (absolute cwd input) < 255)%nat ->
  exists parts, normalize_path cwd input = Ret (path_of parts) /\ parts = resolve [] (pieces 47 (absolute cwd input)) /\
    Forall name_ok parts /\ (length parts <= 32)%nat /\
    forall cwd2, cwd_ok cwd2 -> (length (path_of parts) < 255)%nat -> normalize_path cwd2 (path_of parts) = Ret (path_of parts).
Proof.
  intros Hc Hi Hl. exists (resolve [] (pieces 47 (absolute cwd input))).
  destruct (resolve_ok (pieces 47 (absolute cwd input)) (pieces_ok _) [] ltac:(constructor) ltac:(cbn; lia)) as [Hn H32].
  split_and!; [by apply normalize_path_eq|done|done|done|].
  assert (no_nul (path_of (resolve [] (pieces 47 (absolute cwd input))))) as Hz.
  { apply path_no_nul, resolve_Forall; [|constructor]. by apply pieces_no_nul, absolute_no_nul. }
  revert Hn H32 Hz. generalize (resolve [] (pieces 47 (absolute cwd input))). intros parts Hn H32 Hz cwd2 Hc2 Hl2.
  assert (absolute cwd2 (path_of parts) = path_of parts) as Ea by (by destruct parts).
  rewrite normalize_path_eq, Ea, pieces_path, resolve_id by (done || rewrite ?Ea; done || cbn; lia). done.
Qed.

(** ** The line editor *)

(** What a key does to the line. *)
Definition edit_key (l : list Z) (c : Z) : list Z :=
  if c =? 8 then removelast l
  else if (32 <=? c) && (c <=? 126) && (length l <? 255)%nat then l ++ [c] else l.

Definition edited (ks : list Z) : list Z := fold_left edit_key ks [].

Section Editor.
Context {W : Type} {VE : VfsEnv W} {SK : ShellKernel W}.
Implicit Types (s : shell W) (e : editor).

(** The characters that keyboard_getchar returns one after the other. *)
Fixpoint shell_keys (fuel : nat) (ks : list Z) e s : outcome (editor * shell W) :=
  match ks with [] => Ret (e, s) | c :: ks' => '(e, s) ← shell_key fuel c e s; shell_keys fuel ks' e s end.

Lemma shell_keys_app fuel ks1 ks2 : forall e s,
  shell_keys fuel (ks1 ++ ks2) e s = ('(e, s) ← shell_keys fuel ks1 e s; shell_keys fuel ks2 e s).
Proof.
  induction ks1 as [|c ks1 IH]; intros e s; cbn [shell_keys app]; [done|].
  destruct (shell_key fuel c e s) as [[e' s']| |]; [|done..]. cbn [mbind outcome_bind]. apply IH.
Qed.

(** Nothing but the screen and the world behind the file system changes. *)
Definition same_state s s' : Prop :=
  cwd s' = cwd s /\ cmd_buf s' = cmd_buf s /\ vfs_buffer s' = vfs_buffer s /\
  exists w, sh_vfs s' = with_world (sh_vfs s) w.

Lemma same_state_refl s : same_state s s.
Proof. split_and!; try done. exists (vworld (sh_vfs s)). by destruct (sh_vfs s). Qed.

Lemma same_state_trans s1 s2 s3 : same_state s1 s2 -> same_state s2 s3 -> same_state s1 s3.
Proof.
  intros (H1 & H2 & H3 & w & H4) (K1 & K2 & K3 & w' & K4). split_and!; [congruence..|]. exists w'. by rewrite K4, H4.
Qed.

Lemma kput_same str color s : same_state s (kput str color s).
Proof. destruct (same_state_refl s) as (H1 & H2 & H3 & H4). by split_and!. Qed.

Lemma shell_key_edits fuel c e s : c <> 10 -> c <> 0 -> exists s',
  shell_key fuel c e s = Ret (mked (edit_key (typed e) c) (needs_prompt e), s') /\ same_state s s'.
Proof.
  intros H10 H0. unfold shell_key, edit_key. rewrite (proj2 (Z.eqb_neq c 0) H0), (proj2 (Z.eqb_neq c 10) H10).
  assert (mked (typed e) (needs_prompt e) = e) as Ee by (by destruct e).
  destruct (c =? 8).
  { destruct (typed e) as [|x l] eqn:El; [exists s; rewrite <- El in Ee; cbn [removelast]; split; [by rewrite <- El, Ee|apply same_state_refl]|].
    eexists. split; [done|]. split_and!; try done. by eexists. }
  destruct ((32 <=? c) && (c <=? 126)); [|exists s; cbn [andb]; rewrite Ee; split; [done|apply same_state_refl]]. cbn [andb].
  unfold len, MAX_COMMAND_LENGTH. destruct (Nat.ltb_spec (length (typed e)) 255).
  - rewrite (proj2 (Z.ltb_lt _ _)) by lia. eexists. split; [done|apply kput_same].
  - rewrite (proj2 (Z.ltb_ge _ _)) by lia. exists s. rewrite Ee. split; [done|apply same_state_refl].
Qed.

Lemma edited_bounds ks : (length (edited ks) <= 255)%nat /\ Forall (fun c => 32 <= c <= 126) (edited ks).
Proof.
  unfold edited. assert (forall l, (length l <= 255)%nat /\ Forall (fun c => 32 <= c <= 126) l ->
    (length (fold_left edit_key ks l) <= 255)%nat /\ Forall (fun c => 32 <= c <= 126) (fold_left edit_key ks l)) as H; [|apply H; split; [cbn; lia|constructor]].
  induction ks as [|c ks IH]; intros l [Hl Hp]; cbn [fold_left]; [done|]. apply IH. unfold edit_key. destruct (c =? 8).
  { split; [|by apply Forall_removelast]. destruct l as [|x l _] using rev_ind; [done|]. rewrite removelast_last. rewrite length_app in Hl. lia. }
  destruct (Z.leb_spec 32 c), (Z.leb_spec c 126), (Nat.ltb_spec (length l) 255); cbn [andb]; try done.
  split; [rewrite length_app; cbn [length]; lia|]. apply Forall_app. split; [done|]. by repeat constructor.
Qed.

(** The line that is executed is the line that was typed and corrected: after any keys
    without a line feed, the line feed executes the text in which each backspace
    removed the character before it, printable characters were added while there was
    room for 255 of them and other keys did nothing; the editor is empty again. *)
Theorem shell_edits_line (fuel : nat) (ks : list Z) (np : bool) (s : shell W) :
  Forall (fun c => c <> 10 /\ c <> 0) ks -> exists s',
  shell_keys fuel (ks ++ [10]) (mked [] np) s = (s2 ← execute_command fuel (edited ks) s'; Ret (mked [] true, s2)) /\ same_state s s'.
Proof.
  intros Hk. assert (forall e s, exists s', shell_keys fuel ks e s = Ret (mked (fold_left edit_key ks (typed e)) (needs_prompt e), s') /\ same_state s s') as H.
  { clear s np. induction Hk as [|c ks [H10 H0] _ IH]; intros e s; cbn [shell_keys fold_left]; [exists s; split; [by destruct e|apply same_state_refl]|].
    destruct (shell_key_edits fuel c e s H10 H0) as (s1 & -> & Hs1). cbn [mbind outcome_bind].
    destruct (IH (mked (edit_key (typed e) c) (needs_prompt e)) s1) as (s2 & -> & Hs2). exists s2. split; [done|]. by eapply same_state_trans. }
  destruct (H (mked [] np) s) as (s1 & E & Hs). exists (kput [10] 7 s1). split; [|by eapply same_state_trans; [exact Hs|apply kput_same]].
  rewrite shell_keys_app, E. cbn [mbind outcome_bind shell_keys]. unfold shell_key. cbn [Z.eqb Pos.eqb typed]. fold (edited ks).
  destruct (execute_command fuel (edited ks) (kput [10] 7 s1)) as [s2| |]; done.
Qed.

(** ** Commands *)

Lemma skip_leading_words l : words (skip_leading l) = words l.
Proof.
  induction l as [|c l IH]; [done|]. cbn [skip_leading]. destruct (Z.eq_dec c 32) as [->|Hc].
  - rewrite IH. reflexivity.
  - destruct c as [|q|q]; try done. repeat (destruct q as [q|q|]; try done).
Qed.

Lemma skip_leading_suffix l : exists pre, l = pre ++ skip_leading l.
Proof.
  induction l as [|c l [pre IH]]; [by exists []|]. cbn [skip_leading]. destruct (Z.eq_dec c 32) as [->|Hc].
  - exists (32 :: pre). cbn. congruence.
  - exists []. destruct c as [|q|q]; try done. repeat (destruct q as [q|q|]; try done).
Qed.

(** The state in which the command runs, and its arguments. *)
Lemma execute_argv command s :
  (length (cmd_buf s) = 256)%nat -> no_nul command -> (length command <= 255)%nat -> (length (words command) <= 16)%nat ->
  exists buf offs, length buf = 256%nat /\ strings_at buf offs = Ret (words command) /\
  (skip_leading command <> [] -> parse_command (skip_leading command) 16 (cmd_buf s) = Ret (buf, offs)).
Proof.
  intros Hb Hz Hl Hw. destruct (skip_leading_suffix command) as [pre Ep].
  assert (no_nul (skip_leading command)) as Hz2 by (rewrite Ep in Hz; by apply no_nul_app in Hz as [_ ?]).
  assert (length (skip_leading command) <= 255)%nat as Hl2 by (rewrite Ep, length_app in Hl; lia).
  pose proof (parse_command_ok (skip_leading command) (cmd_buf s) Hz2 Hb) as H.
  destruct (parse_command (skip_leading command) 16 (cmd_buf s)) as [[buf offs]| |]; [|done..]. cbn [runs_to] in H.
  destruct H as [H1 H2]. rewrite (take_ge (skip_leading command)), skip_leading_words in H2 by lia. rewrite take_ge in H2 by done. by exists buf, offs.
Qed.

(** Words with a space between them. *)
Fixpoint join (ws : list (list Z)) : list Z :=
  match ws with [] => [] | [w] => w | w :: ws' => w ++ [32] ++ join ws' end.

Lemma pieces_join k (l : list Z) : (length (join (pieces k l)) <= length l)%nat.
Proof.
  assert (forall (s cur : list Z), (length (join (pieces_from k cur s)) <= length cur + length s)%nat) as H; [|apply (H l [])].
  induction s as [|c s IH]; intros cur; cbn [pieces_from].
  { destruct cur; cbn [join length]; lia. }
  destruct (c =? k).
  - destruct cur as [|d cur]; [specialize (IH []); cbn [length] in *; lia|]. specialize (IH []). cbn [length] in IH.
    cbn [join]. destruct (pieces_from k [] s) as [|w ws]; [cbn [length]; lia|]. rewrite !length_app. cbn [length] in *. lia.
  - specialize (IH (cur ++ [c])). rewrite length_app in IH. cbn [length] in *. lia.
Qed.

Lemma echo_words_ok ws : forall text (first : bool),
  (length text + (if first then 0 else match ws with [] => 0 | _ => 1 end) + length (join ws) <= 254)%nat ->
  echo_words ws first text = Ret (text ++ (if first then [] else match ws with [] => [] | _ => [32] end) ++ join ws).
Proof.
  induction ws as [|w ws IH]; intros text first Hl; cbn [echo_words]; [destruct first; by rewrite !app_nil_r|].
  assert (exists text2, (if first then Ret text else push_char text 32) = Ret text2 /\ text2 = text ++ (if first then [] else [32]) /\
    (length text2 + length (join (w :: ws)) <= 254)%nat) as (text2 & -> & -> & Hl2).
  { destruct first; [exists text; rewrite app_nil_r; split_and!; [done|done|lia]|]. unfold push_char, len, MAX_COMMAND_LENGTH.
    rewrite (proj2 (Z.ltb_lt _ _)) by lia. eexists. split_and!; [done|done|]. rewrite length_app. cbn [length]. lia. }
  cbn [mbind outcome_bind]. assert (length w <= length (join (w :: ws)))%nat as Hw by (destruct ws; cbn [join]; rewrite ?length_app; lia).
  rewrite (take_ge w) by (unfold len, MAX_COMMAND_LENGTH; lia).
  rewrite IH.
  - rewrite <- !app_assoc. do 2 f_equal. destruct ws; cbn [join app]; by rewrite ?app_nil_r.
  - rewrite !length_app in *. destruct ws; cbn [join length] in *; rewrite ?length_app in Hl2; cbn [length] in *; lia.
Qed.

Definition is_redirect (w : list Z) : bool := str_eq w [62] || str_eq w [62; 62].

Lemma no_redirect ws : Forall (fun w => is_redirect w = false) ws -> find_redirect ws = (ws, None, false).
Proof. induction 1 as [|w ws Hw _ IH]; [done|]. cbn [find_redirect]. unfold is_redirect in Hw. by rewrite Hw, IH. Qed.

(** echo prints its words.  A line of up to 255 characters and 16 words that begins
    with echo and has no redirection prints its other words with one space between
    them and a line feed, and changes nothing else; the text always fits its array. *)
Theorem echo_prints_words (fuel : nat) (command : list Z) (args : list (list Z)) (s : shell W) :
  (length (cmd_buf s) = 256)%nat -> no_nul command -> (length command <= 255)%nat -> (length (words command) <= 16)%nat ->
  words command = lit "echo" :: args -> Forall (fun w => is_redirect w = false) args ->
  exists buf, execute_command fuel command s = Ret (kput (join args ++ [10]) 15 (with_cmd_buf s buf)) /\ length buf = 256%nat.
Proof.
  intros Hb Hz Hl Hw Ew Hr. destruct (execute_argv command s Hb Hz Hl Hw) as (buf & offs & Hbl & Hs & Hp).
  assert (skip_leading command <> []) as Hne.
  { intros E. pose proof (skip_leading_words command) as E2. rewrite E, Ew in E2. done. }
  exists buf. split; [|done]. unfold execute_command. rewrite (Hp Hne). destruct (skip_leading command) as [|c0 cs]; [done|].
  cbn [mbind outcome_bind]. rewrite Hs, Ew. cbn [mbind outcome_bind].
  replace (str_eq (lit "echo") (lit "help")) with false by (by vm_compute). replace (str_eq (lit "echo") (lit "#")) with false by (by vm_compute).
  replace (str_eq (lit "echo") (lit "memleak")) with false by (by vm_compute). replace (str_eq (lit "echo") (lit "memtest")) with false by (by vm_compute).
  replace (str_eq (lit "echo") (lit "clear")) with false by (by vm_compute). replace (str_eq (lit "echo") (lit "pwd")) with false by (by vm_compute).
  replace (str_eq (lit "echo") (lit "ls")) with false by (by vm_compute). replace (str_eq (lit "echo") (lit "cat")) with false by (by vm_compute).
  replace (str_eq (lit "echo") (lit "cd")) with false by (by vm_compute). replace (str_eq (lit "echo") (lit "echo")) with true by (by vm_compute).
  unfold cmd_echo. cbn [tail]. rewrite no_redirect by done.
  pose proof (pieces_join 32 command) as Hj. fold (words command) in Hj. unfold words in Ew, Hj. rewrite Ew in Hj.
  assert (length (join args) <= 250)%nat as Hja.
  { cbn [join] in Hj. destruct args as [|a args]; [cbn; lia|]. rewrite !length_app in Hj. change (length (lit "echo")) with 4%nat in Hj. cbn [length] in Hj. lia. }
  rewrite echo_words_ok by (cbn [length]; lia). cbn [app mbind outcome_bind]. unfold push_char, MAX_COMMAND_LENGTH, len.
  rewrite (proj2 (Z.ltb_lt _ _)) by lia. cbn [mbind outcome_bind]. rewrite (proj2 (Z.ltb_lt _ _)) by (rewrite length_app; cbn [length]; lia). done.
Qed.

(** A command name of 55 characters or more writes behind bin_path. *)
Theorem long_name_overruns (argv : list (list Z)) (name : list Z) (s : shell W) :
  (55 <= length name)%nat -> run_program argv name s = Fault OutOfBounds.
Proof. intros H. unfold run_program, bin_path, len. by rewrite (proj2 (Z.ltb_ge _ _)) by lia. Qed.

(** cd without an argument uses a pointer that was never set. *)
Theorem cd_without_argument (fuel : nat) (s : shell W) :
  (length (cmd_buf s) = 256)%nat -> execute_command fuel (lit "cd") s = Fault UninitRead.
Proof.
  intros Hb. assert (no_nul (lit "cd")) as Hz by (vm_compute; set_solver).
  destruct (execute_argv (lit "cd") s Hb Hz ltac:(vm_compute; lia) ltac:(vm_compute; lia)) as (buf & offs & _ & Hs & Hp).
  unfold execute_command. rewrite Hp by done. change (skip_leading (lit "cd")) with [99; 100]. cbn [mbind outcome_bind]. rewrite Hs. reflexivity.
Qed.

(** A path of more than 64 characters that is no directory makes cd read behind
    normalized_path. *)
Theorem long_directory_overruns (path : list Z) (s : shell W) v rc st :
  vfs_stat (Some path) (Some (mkstat 0 0 0 0)) (sh_vfs s) = Ret (v, (rc, st)) -> rc <> 0 -> (64 < length path)%nat ->
  directory_exists path s = Fault OutOfBounds.
Proof.
  intros Hv Hrc Hl. unfold directory_exists. rewrite Hv. cbn [mbind outcome_bind]. rewrite (proj2 (Z.eqb_neq rc 0) Hrc). cbn [andb].
  unfold len. rewrite (proj2 (Z.ltb_lt 1 _)) by lia. rewrite aget_out_of_bounds; [done|]. unfold len, short_path.
  rewrite length_take, !length_app, length_take. cbn [length]. rewrite length_replicate. lia.
Qed.

(** cd goes to a directory of the file table: when no mount covers the canonical path
    and the table has a directory of that name, it becomes the working directory. *)
Theorem cd_to_directory (path : list Z) (s : shell W) (i : Z) (f : vfs_file) :
  path <> [] -> cwd_ok (cwd s) -> no_nul path -> (length (absolute (cwd s) path) < 255)%nat ->
  let p := path_of (resolve [] (pieces 47 (absolute (cwd s) path))) in
  mount_of p (sh_vfs s) = Ret None -> find_file (sh_vfs s) p = Some i -> aget (files (sh_vfs s)) i = Ret f -> f_type f = VFS_TYPE_DIR ->
  (length p < 256)%nat -> shell_set_cwd (Some path) s = Ret (with_cwd (with_vfs s (sh_vfs s)) p).
Proof.
  intros Hne Hc Hz Hl p Hm Hf Hg Ht Hp. unfold shell_set_cwd. destruct path as [|c path]; [done|].
  rewrite normalize_path_eq by done. fold p. cbn [mbind outcome_bind]. unfold directory_exists, vfs_stat. rewrite Hm. cbn [mbind outcome_bind].
  rewrite Hf, Hg. cbn [mbind outcome_bind]. rewrite Ht. cbn [Z.eqb andb negb st_mode mbind outcome_bind].
  unfold strcpy_into, len, MAX_PATH_LENGTH. rewrite (proj2 (Z.ltb_lt _ _)) by lia. done.
Qed.
End Editor.

Module Demo.
Lemma parse_command_words_witness :
  runs_to (parse_command (lit "  ls   /bin ") 16 (replicate 256 7)) (fun '(buf', offs) =>
    length buf' = 256%nat /\ strings_at buf' offs = Ret (take 16 (words (take 255 (lit "  ls   /bin "))))).
Proof.
  refine (parse_command_words (lit "  ls   /bin ") (replicate 256 7) _ eq_refl).
  apply no_nul_Forall. vm_compute. repeat constructor; congruence.
Defined.

Example words_demo : words (lit "  ls   /bin ") = [lit "ls"; lit "/bin"].
Proof. vm_compute. reflexivity. Qed.

Lemma normalize_path_canonical_witness :
  exists parts, normalize_path (lit "/usr/share") (lit "../lib//./x/..") = Ret (path_of parts) /\
    parts = resolve [] (pieces 47 (absolute (lit "/usr/share") (lit "../lib//./x/.."))) /\
    Forall name_ok parts /\ (length parts <= 32)%nat /\
    forall cwd2, cwd_ok cwd2 -> (length (path_of parts) < 255)%nat -> normalize_path cwd2 (path_of parts) = Ret (path_of parts).
Proof.
  refine (normalize_path_canonical (lit "/usr/share") (lit "../lib//./x/..") _ _ _).
  - split_and!; [vm_compute; congruence|apply no_nul_Forall; vm_compute; repeat constructor; congruence|vm_compute; lia].
  - apply no_nul_Forall. vm_compute. repeat constructor; congruence.
  - vm_compute. lia.
Defined.

Example normalize_demo : normalize_path (lit "/usr/share") (lit "../lib//./x/..") = Ret (lit "/usr/lib").
Proof. vm_compute. reflexivity. Qed.

(** A working directory of 255 characters leaves no room for the slash behind it. *)
Example long_cwd_overruns : normalize_path (47 :: replicate 254 97) (lit "x") = Fault OutOfBounds.
Proof. vm_compute. reflexivity. Qed.

Example edited_demo : edited (lit "lss" ++ [8] ++ lit " /x" ++ [8; 200; 8]) = lit "ls ".
Proof. vm_compute. reflexivity. Qed.
End Demo.
