(* ===== verification/BlockDev.v ===== *)
(** * Block devices and the world of a disk file system

    core/fs/block.c (the registry of block devices) and core/drivers/ramdisk.c,
    and the interface between the disk file systems and the kernel: the class
    [FsWorld] has the calls a driver makes (find_block_device, the read_blocks
    and write_blocks operations of its device, kmalloc and kfree), [FsWorldOk]
    what it relies on in them, [Reliable] that they succeed.  Drivers are
    written in the monad [io]: the world is passed along, and a bind stops at a
    nonzero return code, as [if (rc != 0) return rc] does. *)

From S2P Require Import Prelude Vfs Bytes.

(** ** Constants of the disk file systems *)

Definition EISDIR : Z := 21.
Definition EROFS : Z := 30.
Definition VFS_APPEND : Z := 0x08.
Definition VFS_S_IFREG : Z := 0x8000.
Definition VFS_S_IFDIR : Z := 0x4000.

(** [x / y] and [x % y] on unsigned operands. *)
Definition udiv (x y : Z) : outcome Z := if y =? 0 then Fault DivideError else Ret (x / y).
Definition umod (x y : Z) : outcome Z := if y =? 0 then Fault DivideError else Ret (x mod y).

(** ** The registry *)

Definition MAX_BLOCK_DEVICES : Z := 16.

Record block_device := mkbdev {
  bd_name : list Z;          (** char name[32] *)
  bd_block_size : Z;
  bd_total_blocks : Z;
  bd_ops : Z;                (** the operations, by address *)
  bd_private : Z;
  bd_used : bool
}.

Definition no_device : block_device := mkbdev [] 0 0 0 0 false.

Definition block_init : list block_device := replicate (Z.to_nat MAX_BLOCK_DEVICES) no_device.

(** [strcpy_safe] into a [char[n]]. *)
Definition strcpy_safe_into (n : Z) (s : list Z) : list Z := take (Z.to_nat (n - 1)) s.

Definition register_block_device (devs : list block_device) (name : list Z)
    (block_size total_blocks ops private : Z) : outcome (list block_device * Z) :=
  match first_index (fun d => negb (bd_used d)) devs with
  | None => Ret (devs, - ENOMEM)
  | Some i =>
      devs ← aset devs i (mkbdev (strcpy_safe_into 32 name) block_size total_blocks ops private true);
      Ret (devs, 0)
  end.

Definition find_block_device (devs : list block_device) (name : list Z) : option Z :=
  first_index (fun d => bd_used d && str_eq (bd_name d) name) devs.

Lemma register_then_find devs name bs tb ops pr devs' :
  len name < 32 -> find_block_device devs name = None ->
  register_block_device devs name bs tb ops pr = Ret (devs', 0) ->
  exists i, find_block_device devs' name = Some i /\
    devs' !! Z.to_nat i = Some (mkbdev name bs tb ops pr true).
Proof.
  intros Hn Hnone. unfold register_block_device.
  destruct (first_index _ devs) as [i|] eqn:Hi; [|intros [= _ Hc]; by unfold ENOMEM in Hc].
  apply first_index_Some in Hi as (Hr & x & Hx & Hu & _).
  assert (Hs : strcpy_safe_into 32 name = name) by (unfold strcpy_safe_into; apply take_ge; size).
  rewrite aset_in_bounds, Hs by lia. cbn [mbind outcome_bind]. intros [= <-]. exists i.
  set (y := mkbdev name bs tb ops pr true).
  assert (Hy : (bd_used y && str_eq (bd_name y) name) = true) by (unfold str_eq; simpl; by rewrite bool_decide_true).
  split; [|apply list_lookup_insert_eq; unfold len in Hr; lia].
  unfold find_block_device in *.
  rewrite <- (take_drop_middle _ _ _ Hx) in Hnone |- *.
  assert (Hl : length (take (Z.to_nat i) devs) = Z.to_nat i) by (unfold len in Hr; size).
  rewrite insert_app_r_alt, Hl, Nat.sub_diag by lia. simpl.
  rewrite first_index_app; [f_equal; unfold len; rewrite Hl; lia| |exact Hy].
  apply first_index_None in Hnone. by apply Forall_app in Hnone as [H _].
Qed.

(** ** The RAM disk *)

Definition RAMDISK_BLOCK_SIZE : Z := 512.

(** The result and the bytes stored in the buffer. *)
Definition ramdisk_read_blocks (img : list Z) (lba count : Z) : outcome (Z * list Z) :=
  let offset := u64 (lba * RAMDISK_BLOCK_SIZE) in
  let bytes := u64 (count * RAMDISK_BLOCK_SIZE) in
  if len img <? u64 (offset + bytes) then Ret (- EINVAL, []) else
  bs ← mem_read img offset bytes;
  Ret (0, bs).

(** The result and the image; [buf] is the buffer from its first byte on. *)
Definition ramdisk_write_blocks (img : list Z) (lba count : Z) (buf : list Z) : outcome (list Z * Z) :=
  let offset := u64 (lba * RAMDISK_BLOCK_SIZE) in
  let bytes := u64 (count * RAMDISK_BLOCK_SIZE) in
  if len img <? u64 (offset + bytes) then Ret (img, - EINVAL) else
  bs ← mem_read buf 0 bytes;
  img ← mem_write img offset bs;
  Ret (img, 0).

(** [alloc]: what kmalloc returned for the description of the disk; 512-byte
    blocks, and the operations above. *)
Definition RAMDISK_OPS : Z := 1.

Definition ramdisk_register (devs : list block_device) (name : list Z) (size : Z) (alloc : option Z)
  : outcome (list block_device) :=
  match alloc with
  | None => Ret devs
  | Some rd =>
      '(devs, _) ← register_block_device devs name RAMDISK_BLOCK_SIZE (size / RAMDISK_BLOCK_SIZE) RAMDISK_OPS rd;
      Ret devs
  end.

(** ** The interface *)

Class FsWorld (W : Type) := {
  w_find : list Z -> W -> option Z;
  w_block_size : Z -> W -> Z;
  w_read : Z -> Z -> Z -> W -> W * (Z * list Z);
  w_write : Z -> Z -> Z -> list Z -> W -> W * Z;
  w_kmalloc : Z -> W -> W * option (Z * list Z);   (** address and contents *)
  w_kfree : Z -> W -> W
}.

(** What holds of the devices and of the allocator whether or not a call
    fails, for the block numbers the drivers use (32-bit numbers of FAT sectors
    and of ext2 blocks of at most 2^22 sectors, so below 2^54): a read delivers
    the bytes of the device and changes nothing, a write that reports success has
    stored its bytes, memory has the size asked for and is not the device. *)
Class FsWorldOk (W : Type) `{FsWorld W} := {
  image : Z -> W -> list Z;
  image_bytes d w : Forall byte_ok (image d w);
  block_size_pos d w : 0 < w_block_size d w;
  read_law d lba n w w' rc bs :
    w_read d lba n w = (w', (rc, bs)) -> 0 <= lba < 2 ^ 54 -> 0 <= n < 2 ^ 32 ->
    image d w' = image d w /\ w_block_size d w' = w_block_size d w /\
    (rc = 0 -> (lba + n) * w_block_size d w <= len (image d w) /\
               bs = slice (image d w) (lba * w_block_size d w) (n * w_block_size d w));
  write_law d lba n buf w w' rc :
    w_write d lba n buf w = (w', rc) -> 0 <= lba < 2 ^ 54 -> 0 <= n < 2 ^ 32 ->
    len buf = n * w_block_size d w -> Forall byte_ok buf ->
    len (image d w') = len (image d w) /\ w_block_size d w' = w_block_size d w /\
    (rc = 0 -> (lba + n) * w_block_size d w <= len (image d w) /\
               image d w' = splice (image d w) (lba * w_block_size d w) buf);
  kmalloc_law d n w w' r :
    w_kmalloc n w = (w', r) ->
    image d w' = image d w /\ w_block_size d w' = w_block_size d w /\
    (forall p bs, r = Some (p, bs) -> len bs = n /\ Forall byte_ok bs);
  kfree_law d p w :
    image d (w_kfree p w) = image d w /\ w_block_size d (w_kfree p w) = w_block_size d w
}.

(** If [rel] holds, the devices have no I/O errors and memory is never short:
    a theorem about a reliable world takes [rel] true, one about any world
    takes it false. *)
Class Reliable (W : Type) `{FsWorldOk W} (rel : Prop) := {
  read_succeeds d lba n w :
    rel -> 0 <= lba < 2 ^ 54 -> 0 <= n < 2 ^ 32 -> (lba + n) * w_block_size d w <= len (image d w) ->
    (w_read d lba n w).2.1 = 0;
  write_succeeds d lba n buf w :
    rel -> 0 <= lba < 2 ^ 54 -> 0 <= n < 2 ^ 32 -> (lba + n) * w_block_size d w <= len (image d w) ->
    len buf = n * w_block_size d w ->
    (w_write d lba n buf w).2 = 0;
  kmalloc_succeeds n w : rel -> 0 <= n -> is_Some (w_kmalloc n w).2
}.

#[export] Instance unreliable (W : Type) `{FsWorldOk W} : Reliable W False.
Proof. constructor; intros; done. Defined.

(** ** Return codes *)

Inductive rc (A : Type) :=
| Ok (a : A)
| Err (e : Z).
Arguments Ok {A} _.
Arguments Err {A} _.

Definition io (W A : Type) : Type := W -> outcome (W * rc A).

Section Io.
Context {W : Type} `{FW : FsWorld W}.
Implicit Types (A B : Type).

Definition ok {A} (a : A) : io W A := fun w => Ret (w, Ok a).
Definition err {A} (e : Z) : io W A := fun w => Ret (w, Err e).

(** [rc = m; if (rc != 0) return rc; k]. *)
Definition bind {A B} (m : io W A) (k : A -> io W B) : io W B := fun w =>
  '(w, r) ← m w;
  match r with Ok a => k a w | Err e => Ret (w, Err e) end.

(** A step without effect on the world. *)
Definition lift {A} (m : outcome A) : io W A := fun w => a ← m; Ret (w, Ok a).

(** The return code as a value: [int rc = m]. *)
Definition attempt {A} (m : io W A) : io W (rc A) := fun w => '(w, r) ← m w; Ret (w, Ok r).

(** [buf = kmalloc(size); if (!buf) return e; ... kfree(buf); return r], with
    the release on every path out of the body. *)
Definition with_buffer {A} (size e : Z) (body : list Z -> io W A) : io W A := fun w =>
  match w_kmalloc size w with
  | (w, None) => Ret (w, Err e)
  | (w, Some (p, buf)) => '(w, r) ← body buf w; Ret (w_kfree p w, r)
  end.

(** An object that is kept: [kmalloc(size)], released only when the rest fails. *)
Definition with_object {A} (size e : Z) (body : Z -> io W A) : io W A := fun w =>
  match w_kmalloc size w with
  | (w, None) => Ret (w, Err e)
  | (w, Some (p, _)) =>
      '(w, r) ← body p w;
      Ret (match r with Ok _ => w | Err _ => w_kfree p w end, r)
  end.

(** read_blocks into a buffer: more bytes than the buffer has run past it. *)
Definition read_blocks (d lba n : Z) (buf : list Z) : io W (list Z) := fun w =>
  let '(w, (rc, bs)) := w_read d lba n w in
  if negb (rc =? 0) then Ret (w, Err rc) else
  buf ← mem_write buf 0 bs;
  Ret (w, Ok buf).

(** write_blocks from a buffer. *)
Definition write_blocks (d lba n : Z) (buf : list Z) : io W unit := fun w =>
  bs ← mem_read buf 0 (n * w_block_size d w);
  let '(w, rc) := w_write d lba n bs w in
  Ret (w, if rc =? 0 then Ok tt else Err rc).
End Io.

Declare Scope io_scope.
Delimit Scope io_scope with io.
Notation "x ⇐ m ; k" := (bind m (fun x => k))
  (at level 20, m at level 100, k at level 200, only parsing) : io_scope.
Notation "' x ⇐ m ; k" := (bind m (fun x : _ => k))
  (at level 20, x pattern, m at level 100, k at level 200, only parsing) : io_scope.
Notation "m ;; k" := (bind m (fun _ => k))
  (at level 100, k at level 200, only parsing) : io_scope.

(** * A machine with a RAM disk

    The interface of BlockDev.v discharged by core/drivers/ramdisk.c: a world
    with a registry of block devices, the memory of the disk and an allocator
    that always has memory (of unspecified contents).  The driver's bound check
    is exact for block numbers below 2^54, so the world is reliable. *)

Record ram_world := mkram { rw_devs : list block_device; rw_disk : list Z; rw_heap : Z }.

Definition ram_image (w : ram_world) : list Z := map u8 (rw_disk w).

Definition ram_read (lba n : Z) (w : ram_world) : Z * list Z :=
  match ramdisk_read_blocks (ram_image w) lba n with Ret r => r | _ => (- EIO, []) end.

Definition ram_write (lba n : Z) (buf : list Z) (w : ram_world) : ram_world * Z :=
  match ramdisk_write_blocks (ram_image w) lba n buf with
  | Ret (img, rc) => (mkram (rw_devs w) img (rw_heap w), rc)
  | _ => (w, - EIO)
  end.

(** Fresh memory holds 0xCC bytes. *)
Definition ram_kmalloc (n : Z) (w : ram_world) : ram_world * option (Z * list Z) :=
  if n <? 0 then (w, None)
  else (mkram (rw_devs w) (rw_disk w) (rw_heap w + 1), Some (rw_heap w + 1, replicate (Z.to_nat n) 0xCC)).

#[export] Instance ram_fsworld : FsWorld ram_world := {
  w_find name w := find_block_device (rw_devs w) name;
  w_block_size _ _ := RAMDISK_BLOCK_SIZE;
  w_read _ lba n w := (w, ram_read lba n w);
  w_write _ := ram_write;
  w_kmalloc := ram_kmalloc;
  w_kfree _ w := w
}.

Section Laws.
Context (w : ram_world).

Lemma ram_image_bytes : Forall byte_ok (ram_image w).
Proof.
  unfold ram_image. apply Forall_fmap. apply Forall_true. intros x. unfold byte_ok. apply u8_range.
Qed.

Lemma map_u8_bytes l : Forall byte_ok l -> map u8 l = l.
Proof. induction 1 as [|x l Hx _ IH]; simpl; [done|]. rewrite IH, u8_id; [done|]. exact Hx. Qed.

(** Such block numbers do not overflow the byte offsets. *)
Lemma ram_offsets lba n :
  0 <= lba < 2 ^ 54 -> 0 <= n < 2 ^ 32 ->
  u64 (lba * RAMDISK_BLOCK_SIZE) = lba * RAMDISK_BLOCK_SIZE /\
  u64 (n * RAMDISK_BLOCK_SIZE) = n * RAMDISK_BLOCK_SIZE /\
  u64 (u64 (lba * RAMDISK_BLOCK_SIZE) + u64 (n * RAMDISK_BLOCK_SIZE)) = (lba + n) * RAMDISK_BLOCK_SIZE.
Proof. unfold RAMDISK_BLOCK_SIZE. intros. rewrite !u64_id by (rewrite ?u64_id; lia). lia. Qed.

(** The driver reads within the image, and only then. *)
Lemma ram_read_spec lba n :
  0 <= lba < 2 ^ 54 -> 0 <= n < 2 ^ 32 ->
  ram_read lba n w =
    if len (ram_image w) <? (lba + n) * RAMDISK_BLOCK_SIZE then (- EINVAL, [])
    else (0, slice (ram_image w) (lba * RAMDISK_BLOCK_SIZE) (n * RAMDISK_BLOCK_SIZE)).
Proof.
  intros Hl Hn. destruct (ram_offsets lba n Hl Hn) as (E1 & E2 & E3). unfold ram_read, ramdisk_read_blocks.
  rewrite E3, E1, E2. destruct (Z.ltb_spec (len (ram_image w)) ((lba + n) * RAMDISK_BLOCK_SIZE)); [done|].
  rewrite mem_read_slice by (unfold RAMDISK_BLOCK_SIZE in *; lia). done.
Qed.

Lemma ram_write_spec lba n buf :
  0 <= lba < 2 ^ 54 -> 0 <= n < 2 ^ 32 -> len buf = n * RAMDISK_BLOCK_SIZE ->
  ram_write lba n buf w =
    if len (ram_image w) <? (lba + n) * RAMDISK_BLOCK_SIZE then (mkram (rw_devs w) (ram_image w) (rw_heap w), - EINVAL)
    else (mkram (rw_devs w) (splice (ram_image w) (lba * RAMDISK_BLOCK_SIZE) buf) (rw_heap w), 0).
Proof.
  intros Hl Hn Hb. destruct (ram_offsets lba n Hl Hn) as (E1 & E2 & E3). unfold ram_write, ramdisk_write_blocks.
  rewrite E3, E1, E2. destruct (Z.ltb_spec (len (ram_image w)) ((lba + n) * RAMDISK_BLOCK_SIZE)); [done|].
  rewrite mem_read_slice by (unfold RAMDISK_BLOCK_SIZE in *; lia). cbn [mbind outcome_bind].
  rewrite <- Hb, slice_all, mem_write_splice by (unfold RAMDISK_BLOCK_SIZE in *; lia). done.
Qed.
End Laws.

#[export] Instance ram_fsworld_ok : FsWorldOk ram_world.
Proof.
  refine {| image := fun _ w => ram_image w |}.
  - intros d w. apply ram_image_bytes.
  - done.
  - intros d lba n w w' rc bs. simpl. intros [= <- Er] Hl Hn. rewrite ram_read_spec in Er by done.
    split; [done|]. split; [done|]. intros ->.
    destruct (Z.ltb_spec (len (ram_image w)) ((lba + n) * RAMDISK_BLOCK_SIZE)); [by injection Er|].
    by injection Er as <-.
  - intros d lba n buf w w' rc. simpl. intros Ew Hl Hn Hb Hby. rewrite ram_write_spec in Ew by done.
    destruct (Z.ltb_spec (len (ram_image w)) ((lba + n) * RAMDISK_BLOCK_SIZE)) as [Hlt|Hge]; injection Ew as <- <-.
    + split; [unfold ram_image at 1; simpl; unfold len; by rewrite length_map|]. split; [done|]. done.
    + assert (Es : ram_image (mkram (rw_devs w) (splice (ram_image w) (lba * RAMDISK_BLOCK_SIZE) buf) (rw_heap w)) =
        splice (ram_image w) (lba * RAMDISK_BLOCK_SIZE) buf).
      { apply map_u8_bytes, splice_Forall; [apply ram_image_bytes|done]. }
      rewrite Es. split; [apply len_splice; unfold RAMDISK_BLOCK_SIZE in *; lia|]. split; [done|]. by intros _.
  - intros d n w w' r. simpl. unfold ram_kmalloc. destruct (Z.ltb_spec n 0); intros [= <- <-]; [done|].
    split; [done|]. split; [done|]. intros p bs [= <- <-]. split; [size|]. apply Forall_replicate. unfold byte_ok. lia.
  - done.
Defined.

#[export] Instance ram_reliable : Reliable ram_world True.
Proof.
  constructor.
  - intros d lba n w _ Hl Hn Hfit. simpl in *. rewrite ram_read_spec by done.
    destruct (Z.ltb_spec (len (ram_image w)) ((lba + n) * RAMDISK_BLOCK_SIZE)); [lia|done].
  - intros d lba n buf w _ Hl Hn Hfit Hb. simpl in *. rewrite ram_write_spec by done.
    destruct (Z.ltb_spec (len (ram_image w)) ((lba + n) * RAMDISK_BLOCK_SIZE)); [lia|done].
  - intros n w _ Hn. simpl. unfold ram_kmalloc. destruct (Z.ltb_spec n 0); [lia|]. by eexists.
Defined.
