(* ===== verification/Ide.v ===== *)
(** * IDE disks and the CD-ROM

    core/drivers/ide.c: programmed input and output of ATA disks on two channels, and
    core/drivers/cdrom.c: an image in memory as a read-only device.  The ports are the
    classes [CmosPorts] and [WordPorts].  What the ATA standard says of a channel is the
    class [AtaOk]: a state of registers, phase and contents behind the ports, that every
    access changes as documented; a device is busy for any number of polls and may
    report an error at any command or sector.  That it is busy for fewer polls than the
    driver waits ([patient]) is a hypothesis of the theorems.

    [ide_read_sectors]: a read of any length delivers the bytes of the disk or an error;
    [ide_write_sectors]: on a disk without errors that tolerates the FLUSH CACHE the driver
    writes while it is busy, a write of any length stores its bytes and nothing else,
    and a read returns them; [ide_identify_size]: the size of
    a disk; [ide_write_error_lost]: an error of the last sector is reported as success;
    [cdrom_blocks]: what the CD-ROM returns. *)

From stdpp Require Import strings.
From S2P Require Import Prelude Rtc Vfs Bytes BlockDev Kstd Text.

#[local] Open Scope Z_scope.

Definition ATA_REG_DATA : Z := 0.
Definition ATA_REG_SECCOUNT : Z := 2.
Definition ATA_REG_LBA_LO : Z := 3.
Definition ATA_REG_LBA_MID : Z := 4.
Definition ATA_REG_LBA_HI : Z := 5.
Definition ATA_REG_DRIVE : Z := 6.
Definition ATA_REG_STATUS : Z := 7.
Definition ATA_REG_CMD : Z := 7.
Definition ATA_SR_BSY : Z := 0x80.
Definition ATA_SR_DRQ : Z := 0x08.
Definition ATA_SR_ERR : Z := 0x01.
Definition ATA_CMD_IDENTIFY : Z := 0xEC.
Definition ATA_CMD_READ_PIO : Z := 0x20.
Definition ATA_CMD_WRITE_PIO : Z := 0x30.
Definition ATA_CMD_FLUSH : Z := 0xE7.
Definition ATA_IDENT_LBA28_SECTORS : Z := 60.
Definition ATA_PRIMARY_BASE : Z := 0x1F0.
Definition ATA_PRIMARY_CTRL : Z := 0x3F6.
Definition ATA_SECONDARY_BASE : Z := 0x170.
Definition ATA_SECONDARY_CTRL : Z := 0x376.
Definition IDE_SECTOR_SIZE : Z := 512.
Definition IDE_MAX_DRIVES : Z := 4.
Definition IDE_OPS : Z := 2.                   (** the address of the operations *)

Record ide_drive := mkdrive { dr_base : Z; dr_ctrl : Z; dr_slave : Z; dr_sectors : Z }.

Class WordPorts (C : Type) := {
  outw : Z -> Z -> C -> C;
  inw : Z -> C -> Z * C;
}.

Section Ide.
Context {C : Type} {P : CmosPorts C} {Q : WordPorts C}.
Implicit Types (c : C) (d : ide_drive).

(** ** Waiting *)

(** At most [n] polls until BSY is clear: the result and the machine. *)
Fixpoint poll_ready (n : nat) (base : Z) c : Z * C :=
  match n with
  | O => (-1, c)
  | S n' =>
      let '(status, c) := inb (base + ATA_REG_STATUS) c in
      if Z.land status ATA_SR_BSY =? 0 then (0, c) else poll_ready n' base c
  end.

Definition ide_wait_ready (base : Z) c : Z * C := poll_ready (Z.to_nat 100000) base c.

Fixpoint poll_drq (n : nat) (base : Z) c : Z * C :=
  match n with
  | O => (-1, c)
  | S n' =>
      let '(status, c) := inb (base + ATA_REG_STATUS) c in
      if negb (Z.land status ATA_SR_ERR =? 0) then (-1, c)
      else if negb (Z.land status ATA_SR_DRQ =? 0) then (0, c)
      else poll_drq n' base c
  end.

(** The first loop is left without a result when the disk stays busy. *)
Definition ide_wait_drq (base : Z) c : Z * C :=
  let '(_, c) := poll_ready (Z.to_nat 100000) base c in poll_drq (Z.to_nat 100000) base c.

Definition ide_io_delay (ctrl : Z) c : C :=
  let '(_, c) := inb ctrl c in let '(_, c) := inb ctrl c in
  let '(_, c) := inb ctrl c in let '(_, c) := inb ctrl c in c.

(** ** Sectors *)

(** [out[w] = inw(base + ATA_REG_DATA)], [n] times: the bytes stored. *)
Fixpoint in_words (n : nat) (base : Z) c : list Z * C :=
  match n with
  | O => ([], c)
  | S n' =>
      let '(w, c) := inw (base + ATA_REG_DATA) c in
      let '(bs, c) := in_words n' base c in (le_bytes 2 w ++ bs, c)
  end.

(** [outw(base + ATA_REG_DATA, src[w])], [n] times; a buffer that ends too early is
    overrun. *)
Fixpoint out_words (n : nat) (base : Z) (src : list Z) c : outcome (list Z * C) :=
  match n with
  | O => Ret (src, c)
  | S n' =>
      match src with
      | b0 :: b1 :: src' => out_words n' base src' (outw (base + ATA_REG_DATA) (le_value [b0; b1]) c)
      | _ => Fault OutOfBounds
      end
  end.

(** ** Identification *)

Definition ide_identify d c : Z * ide_drive * C :=
  let base := dr_base d in
  let c := outb (base + ATA_REG_DRIVE) (u8 (Z.lor 0xA0 (Z.shiftl (dr_slave d) 4))) c in
  let c := outb (base + ATA_REG_SECCOUNT) 0 c in
  let c := outb (base + ATA_REG_LBA_LO) 0 c in
  let c := outb (base + ATA_REG_LBA_MID) 0 c in
  let c := outb (base + ATA_REG_LBA_HI) 0 c in
  let c := outb (base + ATA_REG_CMD) ATA_CMD_IDENTIFY c in
  let '(status, c) := inb (base + ATA_REG_STATUS) c in
  if status =? 0 then (0, d, c) else
  let '(r, c) := ide_wait_ready base c in
  if r <? 0 then (0, d, c) else
  let '(mid, c) := inb (base + ATA_REG_LBA_MID) c in
  if negb (mid =? 0) then (0, d, c) else
  let '(hi, c) := inb (base + ATA_REG_LBA_HI) c in
  if negb (hi =? 0) then (0, d, c) else
  let '(r, c) := ide_wait_drq base c in
  if r <? 0 then (0, d, c) else
  let '(buf, c) := in_words 256 base c in
  let word i := le_value (slice buf (2 * i) 2) in
  let sectors := Z.lor (word ATA_IDENT_LBA28_SECTORS) (Z.shiftl (word (ATA_IDENT_LBA28_SECTORS + 1)) 16) in
  (if 0 <? sectors then 1 else 0, mkdrive (dr_base d) (dr_ctrl d) (dr_slave d) sectors, c).

(** ** Reading *)

(** The registers of a command for [n] sectors. *)
Definition ide_command d (lba n cmd : Z) c : C :=
  let base := dr_base d in
  let c := outb (base + ATA_REG_DRIVE) (u8 (Z.lor (Z.lor 0xE0 (Z.shiftl (dr_slave d) 4)) (Z.land (Z.shiftr lba 24) 0x0F))) c in
  let c := ide_io_delay (dr_ctrl d) c in
  let c := outb (base + ATA_REG_SECCOUNT) (u8 n) c in
  let c := outb (base + ATA_REG_LBA_LO) (u8 lba) c in
  let c := outb (base + ATA_REG_LBA_MID) (u8 (Z.shiftr lba 8)) c in
  let c := outb (base + ATA_REG_LBA_HI) (u8 (Z.shiftr lba 16)) c in
  let c := outb (base + ATA_REG_CMD) cmd c in
  ide_io_delay (dr_ctrl d) c.

(** The sectors of one command: the result, the bytes stored, the machine. *)
Fixpoint read_sectors (n : nat) (base : Z) c : Z * list Z * C :=
  match n with
  | O => (0, [], c)
  | S n' =>
      let '(r, c) := ide_wait_drq base c in
      if r <? 0 then (- EIO, [], c) else
      let '(bs, c) := in_words 256 base c in
      let '(r, rest, c) := read_sectors n' base c in (r, bs ++ rest, c)
  end.

Fixpoint ide_read_loop (fuel : nat) d (lba count : Z) c : outcome (Z * list Z * C) :=
  match fuel with
  | O => OutOfFuel
  | S fuel' =>
      if negb (0 <? count) then Ret (0, [], c) else
      let n := if 255 <? count then 255 else count in
      let '(r, c) := ide_wait_ready (dr_base d) c in
      if r <? 0 then Ret (- EIO, [], c) else
      let c := ide_command d lba n ATA_CMD_READ_PIO c in
      let '(r, bs, c) := read_sectors (Z.to_nat n) (dr_base d) c in
      if negb (r =? 0) then Ret (r, bs, c) else
      '(r, rest, c) ← ide_read_loop fuel' d (u64 (lba + n)) (count - n) c;
      Ret (r, bs ++ rest, c)
  end.

(** The result, the bytes stored in the buffer, and the machine. *)
Definition ide_read_blocks d (lba count : Z) c : outcome (Z * list Z * C) :=
  if dr_sectors d <? u64 (lba + count) then Ret (- EINVAL, [], c)
  else ide_read_loop (S (Z.to_nat count)) d lba count c.

(** ** Writing *)

(** The sectors of one command: the result and the rest of the buffer. *)
Fixpoint write_sectors (n : nat) (base : Z) (src : list Z) c : outcome (Z * list Z * C) :=
  match n with
  | O => Ret (0, src, c)
  | S n' =>
      let '(r, c) := ide_wait_drq base c in
      if r <? 0 then Ret (- EIO, src, c) else
      '(src, c) ← out_words 256 base src c;
      write_sectors n' base src c
  end.

Fixpoint ide_write_loop (fuel : nat) d (lba count : Z) (src : list Z) c : outcome (Z * C) :=
  match fuel with
  | O => OutOfFuel
  | S fuel' =>
      if negb (0 <? count) then Ret (0, c) else
      let n := if 255 <? count then 255 else count in
      let '(r, c) := ide_wait_ready (dr_base d) c in
      if r <? 0 then Ret (- EIO, c) else
      let c := ide_command d lba n ATA_CMD_WRITE_PIO c in
      '(r, src, c) ← write_sectors (Z.to_nat n) (dr_base d) src c;
      if negb (r =? 0) then Ret (r, c) else
      let c := outb (dr_base d + ATA_REG_CMD) ATA_CMD_FLUSH c in
      let '(r, c) := ide_wait_ready (dr_base d) c in
      if r <? 0 then Ret (- EIO, c) else
      ide_write_loop fuel' d (u64 (lba + n)) (count - n) src c
  end.

Definition ide_write_blocks d (lba count : Z) (buf : list Z) c : outcome (Z * C) :=
  if dr_sectors d <? u64 (lba + count) then Ret (- EINVAL, c)
  else ide_write_loop (S (Z.to_nat count)) d lba count buf c.

(** ** Registration *)

Definition configs : list (Z * Z * Z * string) :=
  [(ATA_PRIMARY_BASE, ATA_PRIMARY_CTRL, 0, "hda"); (ATA_PRIMARY_BASE, ATA_PRIMARY_CTRL, 1, "hdb");
   (ATA_SECONDARY_BASE, ATA_SECONDARY_CTRL, 0, "hdc"); (ATA_SECONDARY_BASE, ATA_SECONDARY_CTRL, 1, "hdd")]%string.

(** [kmalloc]: what the allocator returns for a size; the descriptions of the drives
    with their addresses. *)
Fixpoint ide_init_loop (cfgs : list (Z * Z * Z * string)) (kmalloc : Z -> C -> option Z * C) (devs : list block_device)
    (drives : list (Z * ide_drive)) c : outcome (list block_device * list (Z * ide_drive) * C) :=
  match cfgs with
  | [] => Ret (devs, drives, c)
  | (base, ctrl, slave, name) :: cfgs' =>
      let '(found, d, c) := ide_identify (mkdrive base ctrl slave 0) c in
      if found =? 0 then ide_init_loop cfgs' kmalloc devs drives c else
      match kmalloc 12 c with
      | (None, c) => ide_init_loop cfgs' kmalloc devs drives c
      | (Some a, c) =>
          '(devs, _) ← register_block_device devs (lit name) IDE_SECTOR_SIZE (dr_sectors d) IDE_OPS a;
          ide_init_loop cfgs' kmalloc devs (drives ++ [(a, d)]) c
      end
  end.

Definition ide_init kmalloc (devs : list block_device) c : outcome (list block_device * list (Z * ide_drive) * C) :=
  ide_init_loop configs kmalloc devs [] c.
End Ide.

(** ** The CD-ROM *)

Definition CDROM_BLOCK_SIZE : Z := 2048.
Definition CDROM_OPS : Z := 3.

(** iso_memory and iso_size; the image has the bytes that are there. *)
Record cdrom := mkcd { iso_memory : option (list Z); iso_size : Z }.

(** The result and the bytes stored in the buffer; [dev] is not NULL. *)
Definition cdrom_read_blocks_impl (s : cdrom) (lba count : Z) : outcome (Z * list Z) :=
  match iso_memory s with
  | None => Ret (- ENODEV, [])
  | Some img =>
      let offset := u64 (lba * CDROM_BLOCK_SIZE) in
      let bytes_to_read := u64 (count * CDROM_BLOCK_SIZE) in
      if iso_size s <? u64 (offset + bytes_to_read) then Ret (- EINVAL, [])
      else bs ← mem_read img offset bytes_to_read; Ret (0, bs)
  end.

Definition cdrom_write_blocks_impl : Z := - EROFS.

Definition cdrom_init (s : cdrom) (devs : list block_device) : outcome (bool * list block_device) :=
  match iso_memory s with
  | Some _ =>
      if 0 <? iso_size s then
        '(devs, _) ← register_block_device devs (lit "cdrom0") CDROM_BLOCK_SIZE (iso_size s / CDROM_BLOCK_SIZE) CDROM_OPS 0;
        Ret (true, devs)
      else Ret (true, devs)
  | None => Ret (true, devs)
  end.

Definition cdrom_set_iso_data (data : option (list Z)) (size : Z) (s : cdrom) : cdrom := mkcd data size.

(** ** What the standard says of a channel *)

(** No command; a command that failed; bytes for the host to read; the sectors [lba]
    and [n - 1] more of a drive to write, the first received up to [bs]. *)
Inductive ata_phase :=
| Ready
| Failed
| DataIn (bs : list Z)
| DataOut (slave : bool) (lba n : Z) (bs : list Z).

(** The registers that the two drives of a channel share, the phase, the number of
    polls for which the selected one stays busy, and the contents of both. *)
Record ata := mkata {
  at_dev : Z; at_count : Z; at_lo : Z; at_mid : Z; at_hi : Z;
  at_phase : ata_phase; at_busy : nat; at_disk : bool -> list Z; at_ident : bool -> list Z;
}.

Definition with_busy (s : ata) (b : nat) : ata :=
  mkata (at_dev s) (at_count s) (at_lo s) (at_mid s) (at_hi s) (at_phase s) b (at_disk s) (at_ident s).

Definition with_reg (r v : Z) (s : ata) : ata :=
  mkata (if r =? ATA_REG_DRIVE then v else at_dev s) (if r =? ATA_REG_SECCOUNT then v else at_count s)
    (if r =? ATA_REG_LBA_LO then v else at_lo s) (if r =? ATA_REG_LBA_MID then v else at_mid s)
    (if r =? ATA_REG_LBA_HI then v else at_hi s) (at_phase s) (at_busy s) (at_disk s) (at_ident s).

Definition at_slave (s : ata) : bool := Z.testbit (at_dev s) 4.
Definition at_lba (s : ata) : Z := Z.land (at_dev s) 15 * 2 ^ 24 + at_hi s * 2 ^ 16 + at_mid s * 2 ^ 8 + at_lo s.

(** A sector count of 0 means 256. *)
Definition at_n (s : ata) : Z := if at_count s =? 0 then 256 else at_count s.

(** No transfer is going on. *)
Definition at_rest (s : ata) : Prop := at_phase s = Ready \/ at_phase s = Failed.

Definition same_media (s s' : ata) : Prop := forall b, at_disk s' b = at_disk s b /\ at_ident s' b = at_ident s b.

Definition transferring (p : ata_phase) : Prop := match p with DataIn _ | DataOut _ _ _ _ => True | _ => False end.

Definition after_in (bs : list Z) : ata_phase := match bs with [] => Ready | _ => DataIn bs end.
Definition after_out (slave : bool) (lba n : Z) : ata_phase := if n =? 1 then Ready else DataOut slave (lba + 1) (n - 1) [].

(** One channel; with [faulty] any command and any sector may fail. *)
Class AtaOk {C : Type} `{CmosPorts C} `{WordPorts C} (base ctrl : Z) (faulty : Prop) := {
  ata_of : C -> ata;
  ata_bytes c b : Forall byte_ok (at_disk (ata_of c) b);
  ata_ident c b : Forall byte_ok (at_ident (ata_of c) b) /\ len (at_ident (ata_of c) b) = 512;
  status_law c :
    let s := ata_of c in let st := fst (inb (base + ATA_REG_STATUS) c) in
    ata_of (snd (inb (base + ATA_REG_STATUS) c)) = with_busy s (pred (at_busy s)) /\
    (Z.land st ATA_SR_BSY = 0 <-> at_busy s = O) /\
    (at_busy s = O -> (Z.land st ATA_SR_ERR = 0 <-> at_phase s <> Failed) /\
                      (Z.land st ATA_SR_DRQ <> 0 <-> transferring (at_phase s)));
  alternate_law c : exists b, (b <= at_busy (ata_of c))%nat /\ ata_of (snd (inb ctrl c)) = with_busy (ata_of c) b;
  register_law r v c :
    ATA_REG_SECCOUNT <= r <= ATA_REG_DRIVE -> 0 <= v < 256 -> at_busy (ata_of c) = O -> at_rest (ata_of c) ->
    ata_of (outb (base + r) v c) = with_reg r v (ata_of c);
  register_read_law c :
    at_busy (ata_of c) = O ->
    inb (base + ATA_REG_LBA_MID) c = (at_mid (ata_of c), snd (inb (base + ATA_REG_LBA_MID) c)) /\
    ata_of (snd (inb (base + ATA_REG_LBA_MID) c)) = ata_of c /\
    inb (base + ATA_REG_LBA_HI) c = (at_hi (ata_of c), snd (inb (base + ATA_REG_LBA_HI) c)) /\
    ata_of (snd (inb (base + ATA_REG_LBA_HI) c)) = ata_of c;
  read_law c :
    let s := ata_of c in let s' := ata_of (outb (base + ATA_REG_CMD) ATA_CMD_READ_PIO c) in
    at_busy s = O -> at_rest s -> Z.testbit (at_dev s) 6 = true ->
    (at_lba s + at_n s) * 512 <= len (at_disk s (at_slave s)) ->
    same_media s s' /\
    (at_phase s' = DataIn (slice (at_disk s (at_slave s)) (at_lba s * 512) (at_n s * 512)) \/ faulty /\ at_phase s' = Failed);
  identify_law c :
    let s := ata_of c in let s' := ata_of (outb (base + ATA_REG_CMD) ATA_CMD_IDENTIFY c) in
    at_busy s = O -> at_rest s ->
    same_media s s' /\ at_mid s' = at_mid s /\ at_hi s' = at_hi s /\
    (at_phase s' = DataIn (at_ident s (at_slave s)) \/ faulty /\ at_phase s' = Failed);
  data_in_law b0 b1 bs c :
    let s := ata_of c in let s' := ata_of (snd (inw (base + ATA_REG_DATA) c)) in
    at_busy s = O -> at_phase s = DataIn (b0 :: b1 :: bs) ->
    fst (inw (base + ATA_REG_DATA) c) = le_value [b0; b1] /\ same_media s s' /\
    (len bs mod 512 <> 0 -> at_busy s' = O /\ at_phase s' = after_in bs) /\
    (at_phase s' = after_in bs \/ faulty /\ at_phase s' = Failed);
  write_law c :
    let s := ata_of c in let s' := ata_of (outb (base + ATA_REG_CMD) ATA_CMD_WRITE_PIO c) in
    ~ faulty -> at_busy s = O -> at_rest s -> Z.testbit (at_dev s) 6 = true ->
    (at_lba s + at_n s) * 512 <= len (at_disk s (at_slave s)) ->
    same_media s s' /\ at_phase s' = DataOut (at_slave s) (at_lba s) (at_n s) [];
  data_out_law w slave lba n bs c :
    let s := ata_of c in let s' := ata_of (outw (base + ATA_REG_DATA) w c) in
    ~ faulty -> at_busy s = O -> at_phase s = DataOut slave lba n bs -> 0 <= w < 65536 -> len bs < 512 ->
    (len bs + 2 < 512 -> same_media s s' /\ at_busy s' = O /\ at_phase s' = DataOut slave lba n (bs ++ le_bytes 2 w)) /\
    (len bs + 2 = 512 ->
       (forall b, at_disk s' b = if Bool.eqb b slave then splice (at_disk s b) (lba * 512) (bs ++ le_bytes 2 w) else at_disk s b) /\
       (forall b, at_ident s' b = at_ident s b) /\ at_phase s' = after_out slave lba n);
  flush_law c :
    let s := ata_of c in let s' := ata_of (outb (base + ATA_REG_CMD) ATA_CMD_FLUSH c) in
    ~ faulty -> at_busy s = O -> at_phase s = Ready -> same_media s s' /\ at_phase s' = Ready;
}.

Section Channel.
Context {C : Type} {P : CmosPorts C} {Q : WordPorts C} (base ctrl : Z) {faulty : Prop} {A : AtaOk base ctrl faulty}.
Implicit Types (c : C) (s : ata).

#[local] Abbreviation st c := (ata_of (base:=base) (ctrl:=ctrl) (faulty:=faulty) c).

Lemma same_media_refl s : same_media s s.
Proof. done. Qed.
Lemma same_media_trans s1 s2 s3 : same_media s1 s2 -> same_media s2 s3 -> same_media s1 s3.
Proof. intros H1 H2 b. specialize (H1 b); specialize (H2 b). intuition congruence. Qed.
Lemma same_media_busy s b : same_media s (with_busy s b).
Proof. done. Qed.
#[local] Hint Resolve same_media_refl same_media_trans same_media_busy : core.

Lemma with_busy_twice s b b' : with_busy (with_busy s b) b' = with_busy s b'.
Proof. done. Qed.
Lemma with_busy_id s : with_busy s (at_busy s) = s.
Proof. by destruct s. Qed.

(** The drives of the channel are never busy for as long as the driver polls.  The
    standard gives no such bound; a drive that is slower than this is read before it has
    data, because [ide_wait_drq] looks at DRQ while BSY is set. *)
Definition patient : Prop := forall c, Z.of_nat (at_busy (st c)) < 100000.

(** A FLUSH CACHE that is written while the drive is still busy with the last sector, as
    ide_write_blocks does, is ignored or kept for later.  The standard leaves it open. *)
Definition flush_anytime : Prop :=
  forall c, let s := st c in let s' := st (outb (base + ATA_REG_CMD) ATA_CMD_FLUSH c) in
    ~ faulty -> at_busy s <> O -> at_phase s = Ready -> same_media s s' /\ at_phase s' = Ready.

Section Patient.
Hypothesis Hpat : patient.

(** Waiting for BSY ends with a drive that is not busy and otherwise unchanged. *)
Lemma poll_ready_ok n c : (at_busy (st c) < n)%nat ->
  exists c', poll_ready n base c = (0, c') /\ st c' = with_busy (st c) 0.
Proof.
  revert c. induction n as [|n IH]; intros c Hn; [lia|]. cbn [poll_ready].
  pose proof (status_law (AtaOk:=A) c) as (Es & Eb & _). destruct (inb (base + ATA_REG_STATUS) c) as [v c1]. cbn [fst snd] in *.
  destruct (Z.eqb_spec (Z.land v ATA_SR_BSY) 0) as [E|E].
  - apply Eb in E. exists c1. split; [done|]. by rewrite Es, E.
  - assert (at_busy (st c) <> O) by tauto. destruct (IH c1) as (c' & Hp & E'); [rewrite Es; cbn; lia|].
    exists c'. split; [done|]. by rewrite E', Es, with_busy_twice.
Qed.

Lemma wait_ready_ok c : exists c', ide_wait_ready base c = (0, c') /\ st c' = with_busy (st c) 0.
Proof. apply poll_ready_ok. pose proof (Hpat c). lia. Qed.

Lemma poll_drq_ok n c : at_busy (st c) = O ->
  (transferring (at_phase (st c)) -> exists c', poll_drq (S n) base c = (0, c') /\ st c' = st c) /\
  (at_phase (st c) = Failed -> exists c', poll_drq (S n) base c = (-1, c') /\ st c' = st c).
Proof.
  intros Hb. pose proof (status_law (AtaOk:=A) c) as (Es & _ & Eo). destruct (Eo Hb) as [He Hd]. cbn [poll_drq].
  rewrite Hb in Es. cbn [pred] in Es. assert (with_busy (st c) 0 = st c) as E0 by (rewrite <- Hb at 1; apply with_busy_id).
  rewrite E0 in Es. destruct (inb (base + ATA_REG_STATUS) c) as [v c1]. cbn [fst snd] in *. split; intros Hp.
  - exists c1. split; [|done]. rewrite (proj2 He) by (intros E; by rewrite E in Hp). cbn [Z.eqb negb].
    apply Hd in Hp. by destruct (Z.eqb_spec (Z.land v ATA_SR_DRQ) 0).
  - exists c1. split; [|done]. destruct (Z.eqb_spec (Z.land v ATA_SR_ERR) 0) as [E|]; [|done]. by apply He in E.
Qed.

Lemma wait_drq_ok c :
  (transferring (at_phase (st c)) -> exists c', ide_wait_drq base c = (0, c') /\ st c' = with_busy (st c) 0) /\
  (at_phase (st c) = Failed -> exists c', ide_wait_drq base c = (-1, c') /\ st c' = with_busy (st c) 0).
Proof.
  unfold ide_wait_drq. destruct (wait_ready_ok c) as (c1 & E1 & S1). unfold ide_wait_ready in E1. rewrite E1.
  destruct (Z.to_nat 100000) as [|n] eqn:En; [lia|]. destruct (poll_drq_ok n c1) as [H1 H2]; [by rewrite S1|].
  rewrite S1 in H1, H2. split; [intros Hp; apply H1|intros Hp; apply H2]; exact Hp.
Qed.

Lemma delay_ok c : exists b, (b <= at_busy (st c))%nat /\ st (ide_io_delay ctrl c) = with_busy (st c) b.
Proof.
  unfold ide_io_delay.
  pose proof (alternate_law (AtaOk:=A) c) as (b1 & L1 & E1). destruct (inb ctrl c) as [v1 c1]. cbn [snd] in E1.
  pose proof (alternate_law (AtaOk:=A) c1) as (b2 & L2 & E2). destruct (inb ctrl c1) as [v2 c2]. cbn [snd] in E2.
  pose proof (alternate_law (AtaOk:=A) c2) as (b3 & L3 & E3). destruct (inb ctrl c2) as [v3 c3]. cbn [snd] in E3.
  pose proof (alternate_law (AtaOk:=A) c3) as (b4 & L4 & E4). destruct (inb ctrl c3) as [v4 c4]. cbn [snd] in E4.
  rewrite E1 in *. rewrite E2 in *. rewrite E3 in *. cbn [at_busy with_busy] in *. exists b4. split; [lia|]. by rewrite E4.
Qed.

(** ** Commands *)

(** The device register that the driver writes. *)
Lemma device_byte q sl : 0 <= q < 16 -> sl = 0 \/ sl = 1 ->
  let v := u8 (Z.lor (Z.lor 0xE0 (Z.shiftl sl 4)) (Z.land q 0x0F)) in
  0 <= v < 256 /\ Z.land v 15 = q /\ Z.testbit v 6 = true /\ Z.testbit v 4 = (sl =? 1).
Proof.
  intros Hq Hs. assert (q ∈ [0; 1; 2; 3; 4; 5; 6; 7; 8; 9; 10; 11; 12; 13; 14; 15]) as Hin.
  { assert (q = 0 \/ q = 1 \/ q = 2 \/ q = 3 \/ q = 4 \/ q = 5 \/ q = 6 \/ q = 7 \/ q = 8 \/ q = 9 \/ q = 10 \/
      q = 11 \/ q = 12 \/ q = 13 \/ q = 14 \/ q = 15) by lia. rewrite !elem_of_cons. tauto. }
  clear Hq. repeat (apply elem_of_cons in Hin as [->|Hin]); [..|by apply elem_of_nil in Hin];
    destruct Hs as [->| ->]; vm_compute; (split; [split; congruence|done]).
Qed.

Lemma lba_split lba : 0 <= lba < 2 ^ 28 ->
  lba = lba / 2 ^ 24 * 2 ^ 24 + lba / 2 ^ 16 mod 256 * 2 ^ 16 + lba / 2 ^ 8 mod 256 * 2 ^ 8 + lba mod 256.
Proof.
  intros H. change (2 ^ 28) with 268435456 in H. change (2 ^ 24) with 16777216. change (2 ^ 16) with 65536. change (2 ^ 8) with 256.
  Z.to_euclidean_division_equations. lia.
Qed.

Definition drive_ok (d : ide_drive) : Prop := dr_base d = base /\ dr_ctrl d = ctrl /\ (dr_slave d = 0 \/ dr_slave d = 1).

(** The registers, just before the command is written. *)
Lemma command_regs d lba n c : drive_ok d -> 0 <= lba < 2 ^ 28 -> 0 < n < 256 -> at_rest (st c) -> at_busy (st c) = O ->
  exists c', (forall cmd, ide_command d lba n cmd c = ide_io_delay ctrl (outb (base + ATA_REG_CMD) cmd c')) /\
    same_media (st c) (st c') /\ at_rest (st c') /\ at_busy (st c') = O /\
    at_lba (st c') = lba /\ at_n (st c') = n /\ Z.testbit (at_dev (st c')) 6 = true /\ at_slave (st c') = (dr_slave d =? 1).
Proof.
  intros (Eb & Ec & Hs) Hl Hn Hr Hz. unfold ide_command. rewrite Eb, Ec.
  assert (0 <= lba / 2 ^ 24 < 16) as Hq by (change (2 ^ 28) with (2 ^ 24 * 16) in Hl; split; [apply Z.div_pos; lia|apply Z.div_lt_upper_bound; lia]).
  destruct (device_byte (lba / 2 ^ 24) (dr_slave d) Hq Hs) as (Hv & Hland & H6 & H4).
  rewrite !Z.shiftr_div_pow2 by lia. set (v := u8 _) in *.
  pose proof (register_law (AtaOk:=A) ATA_REG_DRIVE v c ltac:(done) Hv Hz Hr) as S1.
  set (c1 := outb _ v c) in *. destruct (delay_ok c1) as (b & Lb & S2). rewrite S1 in S2, Lb. cbn [at_busy with_reg] in Lb. rewrite Hz in Lb.
  assert (b = O) as -> by lia. set (c2 := ide_io_delay ctrl c1) in *.
  assert (forall k r x, st k = with_busy (st k) 0 -> at_rest (st k) -> ATA_REG_SECCOUNT <= r <= ATA_REG_DRIVE ->
    st (outb (base + r) (u8 x) k) = with_reg r (u8 x) (st k)) as Hreg.
  { intros k r x E0 Hk Hx. apply register_law; [done|apply u8_range|by rewrite E0|done]. }
  pose proof (Hreg c2 ATA_REG_SECCOUNT n ltac:(by rewrite S2) ltac:(by rewrite S2) ltac:(done)) as S3. set (c3 := outb _ _ c2) in *. rewrite S2 in S3.
  pose proof (Hreg c3 ATA_REG_LBA_LO lba ltac:(by rewrite S3) ltac:(by rewrite S3) ltac:(done)) as S4. set (c4 := outb _ _ c3) in *. rewrite S3 in S4.
  pose proof (Hreg c4 ATA_REG_LBA_MID (lba / 2 ^ 8) ltac:(by rewrite S4) ltac:(by rewrite S4) ltac:(done)) as S5. set (c5 := outb _ _ c4) in *. rewrite S4 in S5.
  pose proof (Hreg c5 ATA_REG_LBA_HI (lba / 2 ^ 16) ltac:(by rewrite S5) ltac:(by rewrite S5) ltac:(done)) as S6. set (c6 := outb _ _ c5) in *. rewrite S5 in S6.
  exists c6. split; [done|]. rewrite S6. split; [done|]. split; [exact Hr|]. split; [done|].
  unfold at_lba, at_n, at_slave. cbn. fold v. rewrite Hland. split.
  - unfold u8, wrapu. symmetry. by apply lba_split.
  - rewrite u8_id by lia. split; [by destruct (Z.eqb_spec n 0); [lia|]|]. by split.
Qed.
(** ** Reading *)

Lemma le_bytes_pair b0 b1 : byte_ok b0 -> byte_ok b1 -> le_bytes 2 (le_value [b0; b1]) = [b0; b1].
Proof. intros. apply (le_bytes_value [b0; b1]). rewrite !Forall_cons. by split_and!. Qed.

Lemma in_words_ok m n : forall c bs, at_busy (st c) = O -> at_phase (st c) = DataIn bs -> Forall byte_ok bs ->
  (0 < n <= 256)%nat -> len bs = 2 * Z.of_nat n + 512 * m -> 0 <= m ->
  exists c', in_words n base c = (take (2 * n) bs, c') /\ same_media (st c) (st c') /\
    (at_phase (st c') = after_in (drop (2 * n) bs) \/ faulty /\ at_phase (st c') = Failed).
Proof.
  induction n as [|n IH]; intros c bs Hb Hp Hby Hn Hl Hm; [lia|].
  destruct bs as [|b0 [|b1 bs]]; [unfold len in Hl; cbn in Hl; lia..|].
  assert (len bs = 2 * Z.of_nat n + 512 * m) as Hl' by (unfold len in *; cbn [length] in Hl; lia).
  apply Forall_cons in Hby as [H0 Hby]. apply Forall_cons in Hby as [H1 Hby].
  pose proof (data_in_law (AtaOk:=A) b0 b1 bs c Hb Hp) as (Ew & Hsm & Hin & Hend). cbn [in_words].
  destruct (inw (base + ATA_REG_DATA) c) as [w c1]. cbn [fst snd] in *. subst w. rewrite le_bytes_pair by done.
  replace (2 * S n)%nat with (S (S (2 * n))) by lia. cbn [take drop].
  destruct (decide (n = O)) as [->|Hne].
  - cbn [in_words]. exists c1. split; [by rewrite app_nil_r|]. split; [done|]. exact Hend.
  - assert (len bs mod 512 <> 0) as Hmod.
    { rewrite Hl', (Z.mul_comm 512 m), Z.mod_add by lia. rewrite Z.mod_small by lia. lia. }
    destruct (Hin Hmod) as [Hb1 Hp1].
    assert (after_in bs = DataIn bs) as Ea by (destruct bs; [unfold len in Hl'; cbn in Hl'; lia|done]). rewrite Ea in Hp1.
    destruct (IH c1 bs Hb1 Hp1 Hby ltac:(lia) Hl' Hm) as (c' & Ei & Hs' & He). rewrite Ei. exists c'.
    split; [done|]. split; [by eapply same_media_trans|]. exact He.
Qed.

(** The sectors of one command, from when it has been written. *)
Lemma read_sectors_ok k : forall c bs, (at_phase (st c) = after_in bs \/ faulty /\ at_phase (st c) = Failed) ->
  Forall byte_ok bs -> len bs = 512 * Z.of_nat k ->
  exists r out c', read_sectors k base c = (r, out, c') /\ same_media (st c) (st c') /\ at_rest (st c') /\
    ((r = 0 /\ out = bs) \/ (faulty /\ r = - EIO)).
Proof.
  induction k as [|k IH]; intros c bs Hp Hby Hl.
  - destruct bs; [|unfold len in Hl; cbn in Hl; lia]. cbn [read_sectors]. exists 0, [], c. split; [done|]. split; [done|].
    split; [|by left]. destruct Hp as [Hp|[_ Hp]]; [by left|by right].
  - cbn [read_sectors]. destruct (wait_drq_ok c) as [Hd Hf]. destruct Hp as [Hp|[Hfa Hp]].
    + assert (after_in bs = DataIn bs) as Ea by (destruct bs; [unfold len in Hl; cbn in Hl; lia|done]). rewrite Ea in Hp.
      destruct Hd as (c1 & Ew & S1); [by rewrite Hp|]. rewrite Ew. cbn [Z.ltb Z.compare].
      destruct (in_words_ok (Z.of_nat k) 256 c1 bs) as (c2 & Ei & Hs2 & Hp2); [by rewrite S1|by rewrite S1|done|lia|lia|lia|].
      rewrite S1 in Hs2. rewrite Ei.
      destruct (IH c2 (drop 512 bs) Hp2) as (r & out & c3 & Er & Hs3 & Hr3 & Ho).
      { by apply Forall_drop. } { unfold len in *. rewrite length_drop. lia. }
      change (2 * 256)%nat with 512%nat. rewrite Er. exists r, (take 512 bs ++ out), c3. split; [done|].
      split; [eapply same_media_trans; [exact Hs2|exact Hs3]|]. split; [done|].
      destruct Ho as [[-> ->]|Ho]; [left; split; [done|apply take_drop]|by right].
    + destruct (Hf Hp) as (c1 & Ew & S1). rewrite Ew. cbn [Z.ltb Z.compare]. exists (- EIO), [], c1.
      split; [done|]. rewrite S1. split; [done|]. split; [by right|]. by right.
Qed.

(** The bytes of the drive. *)
Definition disk_of (d : ide_drive) c : list Z := at_disk (st c) (dr_slave d =? 1).

Lemma disk_of_same d c c' : same_media (st c) (st c') -> disk_of d c' = disk_of d c.
Proof. intros H. apply H. Qed.

Lemma ide_read_loop_ok d : drive_ok d -> forall fuel lba count c, at_rest (st c) -> count < Z.of_nat fuel -> 0 <= lba -> 0 <= count ->
  lba + count <= 2 ^ 28 -> (lba + count) * 512 <= len (disk_of d c) ->
  runs_to (ide_read_loop fuel d lba count c) (fun '(r, out, c') =>
    same_media (st c) (st c') /\ at_rest (st c') /\
    ((r = 0 /\ out = slice (disk_of d c) (lba * 512) (count * 512)) \/ (faulty /\ r = - EIO))).
Proof.
  intros Hd. induction fuel as [|fuel IH]; intros lba count c Hr Hf Hl Hc Hlim Hfit; [lia|]. cbn [ide_read_loop].
  destruct (Z.ltb_spec 0 count) as [Hpos|Hz]; cbn [negb].
  2:{ assert (count = 0) as -> by lia. split; [done|]. split; [done|]. left. split; [done|]. unfold slice. by rewrite Z.mul_0_l. }
  set (n := if 255 <? count then 255 else count).
  assert (0 < n <= 255 /\ n <= count) as [Hn Hnc] by (unfold n; destruct (Z.ltb_spec 255 count); lia). clearbody n.
  destruct Hd as (Eb & Ec & Hs). destruct (wait_ready_ok c) as (c1 & Ew & S1). rewrite Eb, Ew. cbn [Z.ltb Z.compare].
  change (2 ^ 28) with 268435456 in *.
  destruct (command_regs d lba n c1) as (c2 & Ecmd & Hm2 & Hr2 & Hb2 & El & En & E6 & Esl); [by split|change (2 ^ 28) with 268435456; lia|lia|by rewrite S1|by rewrite S1|].
  rewrite S1 in Hm2. assert (same_media (st c) (st c2)) as Hm2' by exact Hm2.
  assert (at_disk (st c2) (at_slave (st c2)) = disk_of d c) as Edisk by (rewrite Esl; apply Hm2').
  pose proof (read_law (AtaOk:=A) c2 Hb2 Hr2 E6) as Hread. rewrite Edisk, El, En in Hread.
  destruct (Hread ltac:(lia)) as [Hm3 Hp3]. clear Hread. rewrite Ecmd. set (c3 := outb _ _ c2) in *.
  destruct (delay_ok c3) as (b & _ & S4). set (c4 := ide_io_delay ctrl c3) in *.
  destruct (read_sectors_ok (Z.to_nat n) c4 (slice (disk_of d c) (lba * 512) (n * 512))) as (r & out & c5 & Er & Hm5 & Hr5 & Ho).
  { rewrite S4. cbn [at_phase with_busy]. destruct Hp3 as [->|[Hfa ->]]; [left|by right].
    destruct (slice _ _ _) eqn:E; [|done]. assert (len (slice (disk_of d c) (lba * 512) (n * 512)) = n * 512) by (apply len_slice; lia).
    rewrite E in H. unfold len in H; cbn in H; lia. }
  { apply slice_Forall. apply ata_bytes. } { rewrite len_slice by lia. lia. }
  rewrite Er. assert (same_media (st c) (st c5)) as Hm5' by (rewrite S4 in Hm5; eauto using same_media_trans).
  destruct Ho as [[-> ->]|[Hfa ->]]; [|cbn; split; [done|]; split; [done|]; by right]. cbn [Z.eqb negb].
  rewrite (u64_id (lba + n)) by lia. pose proof (disk_of_same d _ _ Hm5') as Ed5.
  eapply runs_to_bind; [apply IH; [done|lia|lia|lia|lia|rewrite Ed5; lia]|]. intros [[r out] c6] (Hm6 & Hr6 & Ho).
  cbn [runs_to]. split; [by eapply same_media_trans|]. split; [done|]. destruct Ho as [[-> ->]|Ho]; [|by right]. left. split; [done|].
  rewrite Ed5. replace ((lba + n) * 512) with (lba * 512 + n * 512) by lia.
  rewrite <- slice_app_add by lia. f_equal. lia.
Qed.

(** ** Writing *)

Lemma out_words_ok sl lba n k : ~ faulty -> forall c bs src, at_busy (st c) = O -> at_phase (st c) = DataOut sl lba n bs ->
  Forall byte_ok src -> (0 < k)%nat -> len bs + 2 * Z.of_nat k = 512 -> (2 * k <= length src)%nat ->
  exists c', out_words k base src c = Ret (drop (2 * k) src, c') /\
    (forall b, at_disk (st c') b = if Bool.eqb b sl then splice (at_disk (st c) b) (lba * 512) (bs ++ take (2 * k) src) else at_disk (st c) b) /\
    (forall b, at_ident (st c') b = at_ident (st c) b) /\ at_phase (st c') = after_out sl lba n.
Proof.
  intros Hf. induction k as [|k IH]; intros c bs src Hb Hp Hby Hk Hl Hs; [lia|].
  destruct src as [|b0 [|b1 src]]; [cbn in Hs; lia..|]. apply Forall_cons in Hby as [H0 Hby]. apply Forall_cons in Hby as [H1 Hby].
  cbn [out_words]. assert (0 <= le_value [b0; b1] < 65536) as Hw.
  { apply (le_value_range [b0; b1]). rewrite !Forall_cons. by split_and!. }
  pose proof (data_out_law (AtaOk:=A) (le_value [b0; b1]) sl lba n bs c Hf Hb Hp Hw ltac:(lia)) as [Hmore Hlast].
  rewrite le_bytes_pair in Hmore, Hlast by done. set (c1 := outw _ _ c) in *.
  replace (2 * S k)%nat with (S (S (2 * k))) by lia. cbn [take drop]. cbn [length] in Hs.
  destruct (decide (k = O)) as [->|Hne].
  - cbn [out_words]. exists c1. split; [done|]. apply Hlast. lia.
  - destruct (Hmore ltac:(lia)) as (Hm1 & Hb1 & Hp1).
    destruct (IH c1 (bs ++ [b0; b1]) src Hb1 Hp1 Hby ltac:(lia)) as (c' & Ei & Hd & Hi & Hp'); [unfold len in *; rewrite length_app; cbn; lia|lia|].
    exists c'. split; [done|]. split; [|split; [|done]]; intros b.
    + rewrite Hd, <- app_assoc, (proj1 (Hm1 b)). done.
    + rewrite Hi. apply Hm1.
Qed.

(** The state after the [k] sectors from [lba] on have been stored. *)
Definition stored (sl : bool) (lba : Z) (data : list Z) (s s' : ata) : Prop :=
  (forall b, at_disk s' b = if Bool.eqb b sl then splice (at_disk s b) (lba * 512) data else at_disk s b) /\
  (forall b, at_ident s' b = at_ident s b).

Lemma stored_nil sl lba s s' : same_media s s' -> stored sl lba [] s s'.
Proof.
  intros H. split; intros b; [|apply H]. destruct (H b) as [-> _]. destruct (Bool.eqb b sl); [|done].
  unfold splice. by rewrite app_nil_l, Nat.add_0_r, take_drop.
Qed.

Lemma stored_app sl lba d1 d2 s1 s2 s3 : 0 <= lba -> len d1 mod 512 = 0 -> lba * 512 + len d1 + len d2 <= len (at_disk s1 sl) ->
  stored sl lba d1 s1 s2 -> stored sl (lba + len d1 / 512) d2 s2 s3 -> stored sl lba (d1 ++ d2) s1 s3.
Proof.
  intros Hl Hm Hfit [H1 H1'] [H2 H2']. split; intros b; [|by rewrite H2', H1'].
  rewrite H2, H1. destruct (Bool.eqb_spec b sl) as [->|]; [|done].
  replace ((lba + len d1 / 512) * 512) with (lba * 512 + len d1); [apply splice_splice_next; lia|].
  pose proof (Z.div_mod (len d1) 512 ltac:(lia)). lia.
Qed.

Lemma stored_same sl lba d s1 s2 s3 : stored sl lba d s1 s2 -> same_media s2 s3 -> stored sl lba d s1 s3.
Proof. intros [H1 H2] H. split; intros b; destruct (H b) as [Ed Ei]; [rewrite Ed|rewrite Ei]; done. Qed.
Lemma same_stored sl lba d s1 s2 s3 : same_media s1 s2 -> stored sl lba d s2 s3 -> stored sl lba d s1 s3.
Proof. intros H [H1 H2]. split; intros b; destruct (H b) as [Ed Ei]; [rewrite H1, Ed|rewrite H2, Ei]; done. Qed.

Lemma write_sector_ok sl lba n k c src : ~ faulty -> at_phase (st c) = DataOut sl lba n [] -> Forall byte_ok src -> (512 <= length src)%nat ->
  exists c', write_sectors (S k) base src c = write_sectors k base (drop 512 src) c' /\
    stored sl lba (take 512 src) (st c) (st c') /\ at_phase (st c') = after_out sl lba n.
Proof.
  intros Hf Hp Hby Hs. destruct (wait_drq_ok c) as [Hd _]. destruct Hd as (c1 & Ew & S1); [by rewrite Hp|].
  destruct (out_words_ok sl lba n 256 Hf c1 [] src) as (c2 & Eo & Hd2 & Hi2 & Hp2);
    [by rewrite S1|rewrite S1; exact Hp|done|lia|done|lia|]. rewrite S1 in Hd2, Hi2.
  exists c2. cbn [write_sectors]. rewrite Ew. cbn [Z.ltb Z.compare]. rewrite Eo. split; [done|]. split; [|done]. by split.
Qed.

Lemma write_sectors_ok sl k : ~ faulty -> forall lba c src, at_phase (st c) = DataOut sl lba (Z.of_nat (S k)) [] -> 0 <= lba ->
  Forall byte_ok src -> (512 * S k <= length src)%nat -> (lba + Z.of_nat (S k)) * 512 <= len (at_disk (st c) sl) ->
  exists c', write_sectors (S k) base src c = Ret (0, drop (512 * S k) src, c') /\
    stored sl lba (take (512 * S k) src) (st c) (st c') /\ at_phase (st c') = Ready.
Proof.
  intros Hf. induction k as [|k IH]; intros lba c src Hp Hl Hby Hs Hfit.
  all: edestruct (write_sector_ok sl lba) as (c2 & Ew & Hst & Hp2); [exact Hf|exact Hp|exact Hby|lia|]; rewrite Ew.
  - cbn [write_sectors]. exists c2. replace (512 * 1)%nat with 512%nat by lia. split; [done|]. split; [done|]. exact Hp2.
  - assert (len (take 512 src) = 512) as Elen by (unfold len; rewrite length_take; lia).
    assert (after_out sl lba (Z.of_nat (S (S k))) = DataOut sl (lba + 1) (Z.of_nat (S k)) []) as Ea.
    { unfold after_out. destruct (Z.eqb_spec (Z.of_nat (S (S k))) 1); [lia|]. f_equal. lia. }
    rewrite Ea in Hp2. pose proof (proj1 Hst sl) as Edisk. rewrite Bool.eqb_reflx in Edisk.
    destruct (IH (lba + 1) c2 (drop 512 src) Hp2) as (c3 & Er & Hst3 & Hp3).
    { lia. } { by apply Forall_drop. } { rewrite length_drop. lia. } { rewrite Edisk, len_splice by lia. lia. }
    exists c3. rewrite Er, drop_drop. split; [repeat f_equal; lia|]. split; [|done].
    replace (512 * S (S k))%nat with (512 + 512 * S k)%nat by lia. rewrite <- take_take_drop.
    eapply stored_app; [done| | |exact Hst|]; rewrite Elen; [done| |exact Hst3].
    unfold len in *. rewrite length_take, length_drop. lia.
Qed.

Lemma ide_write_loop_ok d : flush_anytime -> ~ faulty -> drive_ok d -> forall fuel lba count src c, at_rest (st c) -> count < Z.of_nat fuel -> 0 <= lba -> 0 <= count ->
  lba + count <= 2 ^ 28 -> (lba + count) * 512 <= len (disk_of d c) -> Forall byte_ok src -> count * 512 <= len src ->
  runs_to (ide_write_loop fuel d lba count src c) (fun '(r, c') =>
    r = 0 /\ at_rest (st c') /\ stored (dr_slave d =? 1) lba (slice src 0 (count * 512)) (st c) (st c')).
Proof.
  intros Hany Hf Hd. induction fuel as [|fuel IH]; intros lba count src c Hr Hfu Hl Hc Hlim Hfit Hby Hsrc; [lia|]. cbn [ide_write_loop].
  destruct (Z.ltb_spec 0 count) as [Hpos|Hz]; cbn [negb].
  2:{ assert (count = 0) as -> by lia. split; [done|]. split; [done|]. by apply stored_nil. }
  set (n := if 255 <? count then 255 else count).
  assert (0 < n <= 255 /\ n <= count) as [Hn Hnc] by (unfold n; destruct (Z.ltb_spec 255 count); lia). clearbody n.
  pose proof Hd as (Eb & Ec & Hs). destruct (wait_ready_ok c) as (c1 & Ew & S1). rewrite Eb, Ew. cbn [Z.ltb Z.compare].
  change (2 ^ 28) with 268435456 in *.
  destruct (command_regs d lba n c1) as (c2 & Ecmd & Hm2 & Hr2 & Hb2 & El & En & E6 & Esl); [done|change (2 ^ 28) with 268435456; lia|lia|by rewrite S1|by rewrite S1|].
  rewrite S1 in Hm2. assert (same_media (st c) (st c2)) as Hm2' by exact Hm2.
  assert (at_disk (st c2) (at_slave (st c2)) = disk_of d c) as Edisk by (rewrite Esl; apply Hm2').
  pose proof (write_law (AtaOk:=A) c2 Hf Hb2 Hr2 E6) as Hwr. rewrite Edisk, El, En, Esl in Hwr.
  destruct (Hwr ltac:(lia)) as [Hm3 Hp3]. clear Hwr. rewrite Ecmd. set (c3 := outb _ _ c2) in *.
  destruct (delay_ok c3) as (b & _ & S4). set (c4 := ide_io_delay ctrl c3) in *.
  assert (same_media (st c) (st c4)) as Hm4 by (rewrite S4; eapply same_media_trans; [exact Hm2'|exact Hm3]).
  destruct (Z.to_nat n) as [|k] eqn:Ek; [lia|].
  destruct (write_sectors_ok (dr_slave d =? 1) k Hf lba c4 src) as (c5 & Er & Hst5 & Hp5).
  { rewrite S4. cbn [at_phase with_busy]. rewrite Hp3. f_equal. lia. } { done. } { done. } { unfold len in Hsrc. lia. }
  { destruct (Hm4 (dr_slave d =? 1)) as [-> _]. fold (disk_of d c). lia. }
  rewrite Er. cbn [mbind outcome_bind Z.eqb negb].
  set (c6 := outb _ _ c5) in *. assert (same_media (st c5) (st c6) /\ at_phase (st c6) = Ready) as [Hm6 Hp6].
  { destruct (Nat.eq_dec (at_busy (st c5)) O); [by apply (flush_law (AtaOk:=A))|by apply Hany]. }
  destruct (wait_ready_ok c6) as (c7 & Ew7 & S7). rewrite Ew7. cbn [Z.ltb Z.compare]. rewrite (u64_id (lba + n)) by lia.
  assert (512 * S k = Z.to_nat (n * 512))%nat as Ek' by lia. rewrite Ek' in *.
  assert (stored (dr_slave d =? 1) lba (slice src 0 (n * 512)) (st c) (st c7)) as Hst7.
  { rewrite S7. eapply stored_same; [eapply same_stored; [exact Hm4|exact Hst5]|exact Hm6]. }
  assert (len (slice src 0 (n * 512)) = n * 512) as Elen by (apply len_slice; lia).
  pose proof (proj1 Hst7 (dr_slave d =? 1)) as Ed7. rewrite Bool.eqb_reflx in Ed7. fold (disk_of d c7) (disk_of d c) in Ed7.
  assert (len (disk_of d c7) = len (disk_of d c)) as El7 by (rewrite Ed7; apply len_splice; lia).
  eapply runs_to_mono; [apply IH; [rewrite S7; by left|lia|lia|lia|lia|rewrite El7; lia|by apply Forall_drop|unfold len in *; rewrite length_drop; lia]|].
  intros [r c8] (-> & Hr8 & Hst8). split; [done|]. split; [done|].
  replace (slice src 0 (count * 512)) with (slice src 0 (n * 512) ++ slice (drop (Z.to_nat (n * 512)) src) 0 ((count - n) * 512)).
  - eapply stored_app; [done|rewrite Elen; apply Z.mod_mul; lia| |exact Hst7|].
    + rewrite Elen, len_slice; [fold (disk_of d c); lia|lia|lia|unfold len in *; rewrite length_drop; lia].
    + rewrite Elen, Z.div_mul by lia. exact Hst8.
  - replace (count * 512) with (n * 512 + (count - n) * 512) by lia. by rewrite slice_app_add by lia.
Qed.

(** ** Identification *)

Lemma lor_words lo hi : 0 <= lo < 65536 -> 0 <= hi -> Z.lor lo (Z.shiftl hi 16) = lo + 65536 * hi.
Proof.
  intros Hl Hh. assert (Z.land lo (Z.shiftl hi 16) = 0) as E.
  { apply Z.bits_inj'. intros i Hi. rewrite Z.land_spec, Z.bits_0. destruct (Z.ltb_spec i 16).
    - rewrite (Z.shiftl_spec_low hi) by lia. apply andb_false_r.
    - replace lo with (lo mod 2 ^ 16) by (apply Z.mod_small; change (2 ^ 16) with 65536; lia). by rewrite Z.mod_pow2_bits_high by lia. }
  rewrite <- (Z.lxor_lor _ _ E), <- Z.add_nocarry_lxor by exact E. rewrite Z.shiftl_mul_pow2 by lia. change (2 ^ 16) with 65536. lia.
Qed.

Lemma le_value_app l k : le_value (l ++ k) = le_value l + 256 ^ len l * le_value k.
Proof.
  induction l as [|b l IH]; [cbn [app]; unfold len; cbn [length le_value foldr Z.of_nat]; lia|]. cbn [app]. change (le_value (b :: l ++ k)) with (b + 256 * le_value (l ++ k)).
  change (le_value (b :: l)) with (b + 256 * le_value l). rewrite IH.
  replace (len (b :: l)) with (Z.succ (len l)) by (unfold len; cbn [length]; lia). rewrite Z.pow_succ_r by (unfold len; lia). lia.
Qed.

(** The size of a drive is the double word at word 60 of its identification. *)
Definition ident_sectors (d : ide_drive) c : Z := le_value (slice (at_ident (st c) (dr_slave d =? 1)) 120 4).

Lemma status_nonzero c : transferring (at_phase (st c)) -> fst (inb (base + ATA_REG_STATUS) c) <> 0.
Proof.
  intros Ht E. pose proof (status_law (AtaOk:=A) c) as (_ & Hb & Ho). rewrite E in Hb, Ho.
  assert (at_busy (st c) = O) as H0 by (by apply Hb). by apply (proj2 (Ho H0)) in Ht.
Qed.

Theorem ide_identify_size d c : ~ faulty -> drive_ok d -> at_rest (st c) -> at_busy (st c) = O ->
  exists c', ide_identify d c = (if 0 <? ident_sectors d c then 1 else 0, mkdrive base ctrl (dr_slave d) (ident_sectors d c), c') /\
    same_media (st c) (st c') /\ at_rest (st c').
Proof.
  intros Hf (Eb & Ec & Hs) Hr Hz. unfold ide_identify. rewrite Eb, Ec. set (v := u8 _).
  assert (Z.testbit v 4 = (dr_slave d =? 1)) as H4 by (unfold v; destruct Hs as [-> | ->]; done).
  assert (forall k r x, st k = with_busy (st k) 0 -> at_rest (st k) -> ATA_REG_SECCOUNT <= r <= ATA_REG_DRIVE -> 0 <= x < 256 ->
    st (outb (base + r) x k) = with_reg r x (st k)) as Hreg.
  { intros k r x E0 Hk Hx Hx'. apply register_law; [done|done|by rewrite E0|done]. }
  assert (st c = with_busy (st c) 0) as E0 by (by rewrite <- Hz at 1; rewrite with_busy_id).
  pose proof (Hreg c ATA_REG_DRIVE v E0 Hr ltac:(done) ltac:(apply u8_range)) as S1. set (c1 := outb _ v c) in *. rewrite E0 in S1.
  pose proof (Hreg c1 ATA_REG_SECCOUNT 0 ltac:(by rewrite S1) ltac:(by rewrite S1) ltac:(done) ltac:(lia)) as S2. set (c2 := outb _ 0 c1) in *. rewrite S1 in S2.
  pose proof (Hreg c2 ATA_REG_LBA_LO 0 ltac:(by rewrite S2) ltac:(by rewrite S2) ltac:(done) ltac:(lia)) as S3. set (c3 := outb _ 0 c2) in *. rewrite S2 in S3.
  pose proof (Hreg c3 ATA_REG_LBA_MID 0 ltac:(by rewrite S3) ltac:(by rewrite S3) ltac:(done) ltac:(lia)) as S4. set (c4 := outb _ 0 c3) in *. rewrite S3 in S4.
  pose proof (Hreg c4 ATA_REG_LBA_HI 0 ltac:(by rewrite S4) ltac:(by rewrite S4) ltac:(done) ltac:(lia)) as S5. set (c5 := outb _ 0 c4) in *. rewrite S4 in S5.
  destruct (identify_law (AtaOk:=A) c5) as (Hm6 & Emid & Ehi & [Hp6|[Hfa _]]); [by rewrite S5|by rewrite S5|..|done].
  set (c6 := outb _ _ c5) in *. rewrite S5 in Hm6, Emid, Ehi, Hp6. cbn in Emid, Ehi. change (at_slave _) with (Z.testbit v 4) in Hp6. rewrite H4 in Hp6. change (at_ident (with_reg _ _ _)) with (at_ident (st c)) in Hp6.
  set (id := at_ident (st c) (dr_slave d =? 1)) in *. assert (same_media (st c) (st c6)) as Hm6' by exact Hm6.
  destruct (ata_ident (AtaOk:=A) c (dr_slave d =? 1)) as [Hby Hlen]. fold id in Hby, Hlen.
  pose proof (status_nonzero c6) as Hnz. pose proof (status_law (AtaOk:=A) c6) as (S7 & _ & _). rewrite Hp6 in Hnz.
  destruct (inb (base + ATA_REG_STATUS) c6) as [status c7]. cbn [fst snd] in *.
  destruct (Z.eqb_spec status 0) as [E|_]; [by destruct (Hnz I)|].
  destruct (wait_ready_ok c7) as (c8 & E8 & S8). rewrite E8. cbn [Z.ltb Z.compare]. rewrite S7, with_busy_twice in S8.
  destruct (register_read_law (AtaOk:=A) c8) as (Em & Sm & _); [by rewrite S8|]. rewrite Em.
  set (c9 := snd _) in *. rewrite S8. cbn [at_mid with_busy]. rewrite Emid. cbn [Z.eqb negb].
  destruct (register_read_law (AtaOk:=A) c9) as (_ & _ & Eh & Sh); [by rewrite Sm, S8|]. rewrite Eh.
  set (c10 := snd (inb (base + ATA_REG_LBA_HI) c9)) in *. rewrite Sm, S8. cbn [at_hi with_busy]. rewrite Ehi. cbn [Z.eqb negb].
  rewrite Sm, S8 in Sh. destruct (wait_drq_ok c10) as [Hd _]. destruct Hd as (c11 & E11 & S11); [by rewrite Sh; cbn; rewrite Hp6|].
  rewrite E11. cbn [Z.ltb Z.compare]. rewrite Sh, with_busy_twice in S11.
  destruct (in_words_ok 0 256 c11 id) as (c12 & E12 & Hm12 & Hp12); [by rewrite S11|by rewrite S11|done|lia|lia|lia|].
  rewrite E12. change (2 * 256)%nat with 512%nat in *. assert (take 512 id = id) as Et by (apply take_ge; unfold len in Hlen; lia). rewrite Et.
  assert (drop 512 id = []) as Edr by (apply drop_ge; unfold len in Hlen; lia). rewrite Edr in Hp12.
  assert (Z.lor (le_value (slice id (2 * 60) 2)) (Z.shiftl (le_value (slice id (2 * (60 + 1)) 2)) 16) = ident_sectors d c) as Es.
  { unfold ident_sectors. fold id. change 4 with (2 + 2). rewrite slice_app_add, le_value_app, len_slice by lia.
    pose proof (le_value_range (slice id 120 2) ltac:(by apply slice_Forall)) as R1. rewrite len_slice in R1 by lia.
    pose proof (le_value_range (slice id 122 2) ltac:(by apply slice_Forall)) as R2.
    change (2 * 60) with 120. change (2 * (60 + 1)) with 122. change (120 + 2) with 122. change (256 ^ 2) with 65536 in *. apply lor_words; lia. }
  unfold ATA_IDENT_LBA28_SECTORS. rewrite Es. exists c12. split; [done|]. rewrite S11 in Hm12.
  split; [eapply same_media_trans; [exact Hm6'|exact Hm12]|]. destruct Hp12 as [E|[_ E]]; [by left|by right].
Qed.

End Patient.

(** ** The theorems *)


(** Writing an IDE disk that reports no errors, is never busy for 100000 polls on end
    and tolerates a FLUSH CACHE while it is busy.  A write of any number of sectors
    within the disk returns 0 and ends at rest; afterwards the drive has the bytes of
    the buffer at these sectors and its old bytes elsewhere, the other drive of
    the channel is unchanged, and reading the sectors gives the bytes back. *)
Theorem ide_write_sectors d lba count buf c :
  patient -> flush_anytime -> ~ faulty -> drive_ok d -> at_rest (st c) -> 0 <= lba -> 0 <= count -> lba + count <= dr_sectors d ->
  dr_sectors d <= 2 ^ 28 -> dr_sectors d * 512 <= len (disk_of d c) -> Forall byte_ok buf -> len buf = count * 512 ->
  runs_to (ide_write_blocks d lba count buf c) (fun '(r, c') =>
    r = 0 /\ at_rest (st c') /\
    (forall b, at_disk (st c') b = if Bool.eqb b (dr_slave d =? 1) then splice (at_disk (st c) b) (lba * 512) buf else at_disk (st c) b) /\
    runs_to (ide_read_blocks d lba count c') (fun '(r, out, _) => r = 0 /\ out = buf)).
Proof.
  intros Hpat Hany Hf Hd Hr Hl Hc Hlc Hs Hfit Hby Hb. unfold ide_write_blocks. change (2 ^ 28) with 268435456 in Hs. rewrite u64_id by lia.
  destruct (Z.ltb_spec (dr_sectors d) (lba + count)) as [Hlt|Hge]; [lia|].
  eapply runs_to_mono; [apply ide_write_loop_ok; [done|done|done|done|done|lia|done|done|change (2 ^ 28) with 268435456; lia|lia|done|lia]|].
  intros [r c'] (-> & Hr' & [Hst _]). rewrite <- Hb, slice_all in Hst. split; [done|]. split; [done|]. split; [done|].
  assert (disk_of d c' = splice (disk_of d c) (lba * 512) buf) as Ed.
  { unfold disk_of. rewrite Hst. by rewrite Bool.eqb_reflx. }
  unfold ide_read_blocks. rewrite u64_id by lia. destruct (Z.ltb_spec (dr_sectors d) (lba + count)) as [Hlt|_]; [lia|].
  eapply runs_to_mono; [apply ide_read_loop_ok; [done|done|done|lia|done|done|change (2 ^ 28) with 268435456; lia|]|].
  - rewrite Ed, len_splice by lia. lia.
  - intros [[r out] c2] (_ & _ & [[-> ->]|[Hfa _]]); [|done]. split; [done|]. rewrite Ed, <- Hb. apply slice_splice_eq; lia.
Qed.
End Channel.

(** The CD-ROM returns the blocks of its image that are complete, and refuses others. *)
Theorem cdrom_blocks img lba count : 0 <= lba < 2 ^ 52 -> 0 <= count < 2 ^ 32 ->
  cdrom_read_blocks_impl (mkcd (Some img) (len img)) lba count =
  Ret (if len img <? (lba + count) * 2048 then (- EINVAL, []) else (0, slice img (lba * 2048) (count * 2048))).
Proof.
  intros Hl Hc. change (2 ^ 52) with 4503599627370496 in Hl. change (2 ^ 32) with 4294967296 in Hc.
  unfold cdrom_read_blocks_impl, CDROM_BLOCK_SIZE. cbn [iso_memory iso_size]. rewrite !u64_id by (rewrite ?u64_id; lia).
  replace (lba * 2048 + count * 2048) with ((lba + count) * 2048) by lia.
  destruct (Z.ltb_spec (len img) ((lba + count) * 2048)); [done|]. by rewrite mem_read_slice by lia.
Qed.

(** ** A channel *)

Module Demo.

(** Every command and every sector keeps it busy for one poll. *)
Record mach := mkmach {
  m_dev : Z; m_count : Z; m_lo : Z; m_mid : Z; m_hi : Z; m_phase : ata_phase; m_busy : bool; m_disk : bool -> list Z;
}.

Definition BASE : Z := ATA_PRIMARY_BASE.
Definition CTRL : Z := ATA_PRIMARY_CTRL.

(** Eight sectors. *)
Definition ident : list Z := splice (replicate 512 0) 120 (le_bytes 4 8).

Definition bytes_of (p : ata_phase) : ata_phase :=
  match p with
  | DataIn bs => DataIn (map u8 bs)
  | DataOut sl lba n bs => DataOut sl lba n (map u8 bs)
  | p => p
  end.

Definition view (m : mach) : ata :=
  mkata (m_dev m) (m_count m) (m_lo m) (m_mid m) (m_hi m) (bytes_of (m_phase m)) (if m_busy m then 1%nat else O)
    (fun b => map u8 (m_disk m b)) (fun _ => ident).

Definition set_phase (m : mach) p b : mach := mkmach (m_dev m) (m_count m) (m_lo m) (m_mid m) (m_hi m) p b (m_disk m).
Definition set_reg (r v : Z) (m : mach) : mach :=
  mkmach (if r =? ATA_REG_DRIVE then v else m_dev m) (if r =? ATA_REG_SECCOUNT then v else m_count m)
    (if r =? ATA_REG_LBA_LO then v else m_lo m) (if r =? ATA_REG_LBA_MID then v else m_mid m)
    (if r =? ATA_REG_LBA_HI then v else m_hi m) (m_phase m) (m_busy m) (m_disk m).

Definition command (v : Z) (m : mach) : mach :=
  let s := view m in let sl := at_slave s in
  if v =? ATA_CMD_READ_PIO then set_phase m (DataIn (slice (m_disk m sl) (at_lba s * 512) (at_n s * 512))) true
  else if v =? ATA_CMD_WRITE_PIO then set_phase m (DataOut sl (at_lba s) (at_n s) []) true
  else if v =? ATA_CMD_IDENTIFY then set_phase m (DataIn ident) true
  else if v =? ATA_CMD_FLUSH then set_phase m (m_phase m) true
  else m.

Definition status (m : mach) : Z :=
  if m_busy m then 0x80 else match m_phase m with Failed => 0x51 | Ready => 0x50 | _ => 0x58 end.

Definition m_inb (port : Z) (m : mach) : Z * mach :=
  if port =? BASE + ATA_REG_STATUS then (status m, set_phase m (m_phase m) false)
  else if port =? BASE + ATA_REG_LBA_MID then (m_mid m, m)
  else if port =? BASE + ATA_REG_LBA_HI then (m_hi m, m)
  else (status m, m).

#[export] Instance mach_ports : CmosPorts mach := {
  outb port v m := if port =? BASE + ATA_REG_CMD then command v m else set_reg (port - BASE) v m;
  inb := m_inb;
}.

Definition m_inw (m : mach) : Z * mach :=
  match m_phase m with
  | DataIn (b0 :: b1 :: bs) => (le_value [u8 b0; u8 b1], set_phase m (after_in bs) (len bs mod 512 =? 0))
  | _ => (0xFFFF, m)
  end.

(** [bad]: a disk that fails to store the last sector of a command. *)
Definition m_outw (bad : bool) (w : Z) (m : mach) : mach :=
  match m_phase m with
  | DataOut sl lba n bs =>
      let bs := bs ++ le_bytes 2 w in
      if len bs <? 512 then set_phase m (DataOut sl lba n bs) false
      else if bad && (n =? 1) then set_phase m Failed true
      else mkmach (m_dev m) (m_count m) (m_lo m) (m_mid m) (m_hi m) (after_out sl lba n) true
             (fun b => if Bool.eqb b sl then splice (m_disk m b) (lba * 512) bs else m_disk m b)
  | _ => m
  end.

#[export] Instance mach_words : WordPorts mach := { outw _ w m := m_outw false w m; inw _ m := m_inw m }.

Lemma map_slice (l : list Z) p n : map u8 (slice l p n) = slice (map u8 l) p n.
Proof. unfold slice. by rewrite skipn_map, firstn_map. Qed.
Lemma map_splice (l k : list Z) p : map u8 (splice l p k) = splice (map u8 l) p (map u8 k).
Proof. unfold splice. by rewrite !map_app, firstn_map, skipn_map, length_map. Qed.
Lemma view_len (l : list Z) : len (map u8 l) = len l.
Proof. unfold len. by rewrite length_map. Qed.
Lemma bytes_of_in bs : after_in (map u8 bs) = bytes_of (after_in bs).
Proof. by destruct bs. Qed.
Lemma map_u8_le n w : map u8 (le_bytes n w) = le_bytes n w.
Proof.
  apply list_eq. intros i. rewrite list_lookup_fmap. destruct (le_bytes n w !! i) as [x|] eqn:E; [|done]. cbn. f_equal.
  apply u8_id. pose proof (le_bytes_ok n w) as H. eapply Forall_lookup_1 in H; [|exact E]. exact H.
Qed.

#[export] Instance mach_ata : AtaOk BASE CTRL False.
Proof.
  refine {| ata_of := view |}.
  - intros m b. cbn. apply Forall_fmap, Forall_true. intros x. apply u8_range.
  - intros m b. split; [|done]. apply splice_Forall; [apply Forall_replicate; unfold byte_ok; lia|apply le_bytes_ok].
  - intros m. cbn [inb mach_ports]. change (m_inb (BASE + ATA_REG_STATUS) m) with (status m, set_phase m (m_phase m) false).
    unfold status. cbn [fst snd]. destruct m as [dev n lo mid hi p [] disk]; destruct p; cbn; (split; [done|]); (split; [by split|]); try done; intros _; (split; [by split|by split]).
  - intros m. change (inb CTRL m) with (status m, m). exists (if m_busy m then 1%nat else O). split; [done|]. by destruct m as [? ? ? ? ? ? []].
  - intros r v m Hr Hv Hb Hrest. unfold ATA_REG_SECCOUNT, ATA_REG_DRIVE in Hr. cbn [outb mach_ports].
    destruct (Z.eqb_spec (BASE + r) (BASE + ATA_REG_CMD)) as [E|_]; [unfold ATA_REG_CMD in E; lia|].
    by replace (BASE + r - BASE) with r by lia.
  - intros m Hb. done.
  - intros m. cbv zeta. intros Hb Hr H6 Hfit. split; [done|]. left. set (sl := at_slave (view m)). set (l := at_lba (view m)). set (n := at_n (view m)).
    change (DataIn (map u8 (slice (m_disk m sl) (l * 512) (n * 512))) = DataIn (slice (map u8 (m_disk m sl)) (l * 512) (n * 512))). by rewrite map_slice.
  - intros m. cbv zeta. intros Hb Hr. split; [done|]. split; [done|]. split; [done|]. by left.
  - intros b0 b1 bs m. cbv zeta. intros Hb Hp. cbn [inw mach_words]. unfold m_inw. cbn in Hp.
    destruct (m_phase m) as [| |l|]; try discriminate. destruct l as [|x0 [|x1 l]]; try discriminate. injection Hp as <- <- <-. cbn [fst snd].
    split; [done|]. split; [done|]. rewrite view_len, bytes_of_in. split; [|by left].
    intros Hm. cbn. destruct (Z.eqb_spec (len l mod 512) 0); [done|]. done.
  - intros m. cbv zeta. intros _ Hb Hr H6 Hfit. done.
  - intros w sl lba n bs m. cbv zeta. intros _ Hb Hp Hw Hl. cbn [outw mach_words]. unfold m_outw. cbn in Hp.
    destruct (m_phase m) as [| | |sl' lba' n' l]; try discriminate. injection Hp as -> -> -> <-. rewrite view_len in *.
    assert (len (l ++ le_bytes 2 w) = len l + 2) as El by (unfold len; rewrite length_app, le_bytes_length; lia). rewrite El.
    destruct (Z.ltb_spec (len l + 2) 512) as [Hlt|Hge]; (split; [intros H; try lia|intros H; try lia]).
    + split; [done|]. split; [done|]. change (DataOut sl lba n (map u8 (l ++ le_bytes 2 w)) = DataOut sl lba n (map u8 l ++ le_bytes 2 w)).
      by rewrite map_app, map_u8_le.
    + split; [|split; [done|]]; [|cbn; unfold after_out; by destruct (n =? 1)].
      intros b. change (map u8 (if Bool.eqb b sl then splice (m_disk m b) (lba * 512) (l ++ le_bytes 2 w) else m_disk m b) =
        if Bool.eqb b sl then splice (map u8 (m_disk m b)) (lba * 512) (map u8 l ++ le_bytes 2 w) else map u8 (m_disk m b)).
      destruct (Bool.eqb b sl); [|done]. by rewrite map_splice, map_app, map_u8_le.
  - intros m. cbv zeta. intros _ _ Hp. cbn in Hp. destruct (m_phase m) eqn:E; try discriminate. split; [done|]. cbn. by rewrite E.
Defined.

(** A disk of eight sectors, master of the first channel. *)
Definition disk0 : list Z := map (fun i => (Z.of_nat i / 512 + 1) mod 256) (seq 0 4096).
Definition m0 : mach := mkmach 0 0 0 0 0 Ready false (fun b => if b then [] else disk0).
Definition d0 : ide_drive := mkdrive BASE CTRL 0 8.

Lemma mach_patient : patient BASE CTRL.
Proof. intros m. cbn. destruct (m_busy m); lia. Qed.

Lemma mach_flush : flush_anytime BASE CTRL (faulty:=False).
Proof. intros m. cbv zeta. intros _ _ Hp. cbn in Hp. destruct (m_phase m) eqn:E; try discriminate. split; [done|]. cbn. by rewrite E. Qed.


Definition data0 : list Z := replicate 1024 0xAB.

Lemma ide_write_sectors_witness :
  runs_to (ide_write_blocks d0 6 2 data0 m0) (fun '(r, m) => r = 0 /\ map u8 (m_disk m false) = splice disk0 3072 data0).
Proof.
  eapply runs_to_mono; [refine (ide_write_sectors BASE CTRL d0 6 2 data0 m0 mach_patient mach_flush _ _ _ _ _ _ _ _ _ _)|].
  - by intros [].
  - by repeat split; left.
  - by left.
  - lia.
  - lia.
  - done.
  - done.
  - by vm_compute.
  - apply Forall_replicate. unfold byte_ok. lia.
  - by vm_compute.
  - intros [r m] (Hr & _ & H & _). split; [done|]. change (at_disk (view m) false = splice disk0 3072 data0). etransitivity; [exact (H false)|]. by vm_compute.
Defined.

(** A disk that cannot store the last sector says so in its status, and ide_write_blocks,
    which only waits for it, returns 0. *)
Example ide_write_error_lost :
  let m' := match ide_write_blocks (Q := {| outw _ w m := m_outw true w m; inw _ m := m_inw m |}) d0 6 2 data0 m0 with
            | Ret (r, m) => (r, m_phase m, m_disk m false) | _ => (-1, Ready, []) end in
  m' = (0, Failed, splice disk0 3072 (replicate 512 0xAB)).
Proof. by vm_compute. Qed.

(** Both drives of the first channel are found and registered. *)
Example ide_init_registers :
  match ide_init (fun _ m => (Some 4096, m)) block_init (set_phase m0 Ready false) with
  | Ret (devs, drives, _) => find_block_device devs (lit "hda") = Some 0 /\ (drives.*2) !! 0%nat = Some d0
  | _ => False
  end.
Proof. by vm_compute. Qed.
End Demo.
