(* ===== verification/Nvme.v ===== *)
(** * NVMe disks

    core/drivers/nvme.c: the search on the PCI bus, resetting and enabling the
    controller, the admin and the I/O queue pair, namespaces as block devices, and
    reading and writing in commands of at most 256 blocks with lists of pages.
    Registers, memory that a controller reads and writes, ports and allocator are the
    class [DmaHost]; a queue pair is a record, so that the two submit functions,
    which differ in their queue only, are one definition.  What the NVMe
    specification says of a controller is the class [NvmeOk].

    [nvme_read_refines] and [nvme_write_read_back]: transfers of any length, around the
    ends of the queues any number of times, move exactly the blocks that were asked for
    or report an error; [nvme_unaligned]: buffers that are refused;
    [prp_list_overruns]: blocks of 16 KiB and more. *)

From stdpp Require Import strings.
From S2P Require Import Prelude Vfs Bytes BlockDev Kstd Text.

#[local] Open Scope Z_scope.

Definition PCI_CONFIG_ADDR : Z := 0xCF8.
Definition PCI_CONFIG_DATA : Z := 0xCFC.
Definition PCI_CLASS_NVME : Z := 0x010802.
Definition NVME_ADMIN_QUEUE_SIZE : Z := 64.
Definition NVME_IO_QUEUE_SIZE : Z := 256.
Definition NVME_CC_ENABLE : Z := 1.
Definition NVME_CC_CSS_NVM : Z := 0.
Definition NVME_CC_MPS_SHIFT : Z := 7.
Definition NVME_CC_AMS_RR : Z := 0.
Definition NVME_CC_SHN_NONE : Z := 0.
Definition NVME_CC_IOSQES : Z := Z.shiftl 6 16.
Definition NVME_CC_IOCQES : Z := Z.shiftl 4 20.
Definition NVME_CSTS_RDY : Z := 1.
Definition NVME_CAP_DSTRD_SHIFT : Z := 32.
Definition NVME_CAP_DSTRD_MASK : Z := Z.shiftl 0xF 32.
Definition NVME_ADMIN_IDENTIFY : Z := 6.
Definition NVME_ADMIN_CREATE_SQ : Z := 1.
Definition NVME_ADMIN_CREATE_CQ : Z := 5.
Definition NVME_CMD_READ : Z := 2.
Definition NVME_CMD_WRITE : Z := 1.
Definition NVME_QUEUE_PHYS_CONTIG : Z := 1.
Definition NVME_IDENTIFY_CNS_NAMESPACE : Z := 0.
Definition NVME_IDENTIFY_CNS_NS_LIST : Z := 2.
Definition NVME_MAX_NAMESPACES : Z := 16.
Definition NVME_OPS : Z := 4.                  (** the address of the operations *)

(** Offsets in nvme_controller_regs_t. *)
Definition R_CAP : Z := 0.
Definition R_CC : Z := 20.
Definition R_CSTS : Z := 28.
Definition R_AQA : Z := 36.
Definition R_ASQ : Z := 40.
Definition R_ACQ : Z := 48.
Definition R_DOORBELLS : Z := 4096.

(** nvme_command_t; reserved, mptr and cdw13 to cdw15 stay zero. *)
Record nvme_command := mkcmd { cdw0 : Z; nsid : Z; prp1 : Z; prp2 : Z; cdw10 : Z; cdw11 : Z; cdw12 : Z }.

Definition cmd_bytes (c : nvme_command) : list Z :=
  le_bytes 4 (cdw0 c) ++ le_bytes 4 (nsid c) ++ replicate 16 0 ++ le_bytes 8 (prp1 c) ++ le_bytes 8 (prp2 c) ++
  le_bytes 4 (cdw10 c) ++ le_bytes 4 (cdw11 c) ++ le_bytes 4 (cdw12 c) ++ replicate 12 0.

Definition CQE_STATUS : Z := 14.               (** offset of status in nvme_completion_t *)

(** A pair of queues: the number for the doorbells, the size, the two arrays, the tail
    of the one and the head and the phase of the other. *)
Record queue := mkq { q_id : Z; q_size : Z; q_sq : Z; q_cq : Z; q_tail : Z; q_head : Z; q_phase : Z }.

(** The static variables; 0 is NULL. *)
Record nvme := mknvme {
  nvme_regs : Z; n_admin : queue; n_io : queue; command_id : Z; prp_list_buf : Z;
}.

Definition nvme_boot : nvme := mknvme 0 (mkq 0 NVME_ADMIN_QUEUE_SIZE 0 0 0 0 1) (mkq 1 NVME_IO_QUEUE_SIZE 0 0 0 0 1) 0 0.

Definition with_admin (s : nvme) q : nvme := mknvme (nvme_regs s) q (n_io s) (command_id s) (prp_list_buf s).
Definition with_io (s : nvme) q : nvme := mknvme (nvme_regs s) (n_admin s) q (command_id s) (prp_list_buf s).

Record nvme_namespace := mkns { ns_nsid : Z; ns_block_count : Z; ns_block_size : Z }.

(** A machine with a controller that works in its memory. *)
Class DmaHost (W : Type) := {
  dma_load : Z -> Z -> W -> list Z * W;         (** address, number of bytes *)
  dma_store : Z -> list Z -> W -> W;
  mmio_read32 : Z -> W -> Z * W;               (** offset in the registers *)
  mmio_read64 : Z -> W -> Z * W;
  mmio_write32 : Z -> Z -> W -> W;
  mmio_write64 : Z -> Z -> W -> W;
  port_outl : Z -> Z -> W -> W;
  port_inl : Z -> W -> Z * W;
  dma_kmalloc : Z -> W -> option Z * W;
  dma_kfree : Z -> W -> W;
  hhdm_offset : Z;                             (** get_hhdm_offset() *)
}.

Section Nvme.
Context {W : Type} {N : DmaHost W}.
Implicit Types (w : W) (s : nvme) (q : queue).

Definition VIRT_TO_PHYS (addr : Z) : Z := u64 (addr - hhdm_offset).

(** ** The PCI bus *)

Definition pci_read (bus slot func offset : Z) w : Z * W :=
  let addr := Z.lor (Z.lor (Z.lor (Z.lor (Z.shiftl 1 31) (Z.shiftl bus 16)) (Z.shiftl slot 11)) (Z.shiftl func 8)) (Z.land offset 0xFC) in
  port_inl PCI_CONFIG_DATA (port_outl PCI_CONFIG_ADDR addr w).

(** Slots from [slot] on, [n] of them. *)
Fixpoint find_bar_loop (n : nat) (slot : Z) w : Z * W :=
  match n with
  | O => (0, w)
  | S n' =>
      let '(id, w) := pci_read 0 slot 0 0x00 w in
      if id =? 0xFFFFFFFF then find_bar_loop n' (slot + 1) w else
      let '(class_rev, w) := pci_read 0 slot 0 0x08 w in
      if Z.shiftr class_rev 8 =? PCI_CLASS_NVME then
        let '(bar0_lo, w) := pci_read 0 slot 0 0x10 w in
        let '(bar0_hi, w) := pci_read 0 slot 0 0x14 w in
        (Z.lor (Z.shiftl bar0_hi 32) (Z.land bar0_lo 0xFFFFFFF0), w)
      else find_bar_loop n' (slot + 1) w
  end.

Definition nvme_find_bar w : Z * W := find_bar_loop 32 0 w.

(** ** Queues *)

Definition nvme_write_doorbell (queue_id value : Z) (is_sq : bool) w : W :=
  let '(cap, w) := mmio_read64 R_CAP w in
  let dstrd := Z.shiftr (Z.land cap NVME_CAP_DSTRD_MASK) NVME_CAP_DSTRD_SHIFT in
  let offset := u32 (queue_id * 2 * Z.shiftl 1 dstrd) in
  let offset := if is_sq then offset else u32 (offset + Z.shiftl 1 dstrd) in
  mmio_write32 (R_DOORBELLS + 4 * offset) value w.

Fixpoint wait_state (n : nat) (ready_state : bool) w : Z * W :=
  match n with
  | O => (-1, w)
  | S n' =>
      let '(csts, w) := mmio_read32 R_CSTS w in
      if Bool.eqb (negb (Z.land csts NVME_CSTS_RDY =? 0)) ready_state then (0, w) else wait_state n' ready_state w
  end.

Definition nvme_wait_ready (ready_state : bool) (timeout_ms : Z) w : Z * W :=
  wait_state (Z.to_nat (u32 (timeout_ms * 100))) ready_state w.

(** At most [n] polls for the completion at the head. *)
Fixpoint wait_completion (n : nat) q w : Z * queue * W :=
  match n with
  | O => (-1, q, w)
  | S n' =>
      let '(bs, w) := dma_load (q_cq q + 16 * q_head q + CQE_STATUS) 2 w in
      let status := le_value bs in
      if Z.land status 1 =? q_phase q then
        let status_code := Z.land (Z.shiftr status 1) 0x7FFF in
        let head := (q_head q + 1) mod q_size q in
        let phase := if head =? 0 then (if q_phase q =? 0 then 1 else 0) else q_phase q in
        let w := nvme_write_doorbell (q_id q) head false w in
        (if negb (status_code =? 0) then -1 else 0, mkq (q_id q) (q_size q) (q_sq q) (q_cq q) (q_tail q) head phase, w)
      else wait_completion n' q w
  end.

(** nvme_submit_admin_command and nvme_submit_and_wait, for their queue. *)
Definition nvme_submit (cmd : nvme_command) q w : Z * queue * W :=
  let w := dma_store (q_sq q + 64 * q_tail q) (cmd_bytes cmd) w in
  let tail := (q_tail q + 1) mod q_size q in
  let w := nvme_write_doorbell (q_id q) tail true w in
  wait_completion (Z.to_nat 10000) (mkq (q_id q) (q_size q) (q_sq q) (q_cq q) tail (q_head q) (q_phase q)) w.

Definition nvme_submit_admin_command (cmd : nvme_command) s w : Z * nvme * W :=
  let '(r, q, w) := nvme_submit cmd (n_admin s) w in (r, with_admin s q, w).

Definition nvme_submit_and_wait (cmd : nvme_command) s w : Z * nvme * W :=
  let '(r, q, w) := nvme_submit cmd (n_io s) w in (r, with_io s q, w).

(** ** Admin commands *)

Definition nvme_identify_active_namespaces (data : Z) s w : Z * nvme * W :=
  nvme_submit_admin_command (mkcmd NVME_ADMIN_IDENTIFY 0 (VIRT_TO_PHYS data) 0 NVME_IDENTIFY_CNS_NS_LIST 0 0) s w.

Definition nvme_identify_namespace (ns_id data : Z) s w : Z * nvme * W :=
  nvme_submit_admin_command (mkcmd NVME_ADMIN_IDENTIFY ns_id (VIRT_TO_PHYS data) 0 NVME_IDENTIFY_CNS_NAMESPACE 0 0) s w.

Definition nvme_create_io_completion_queue (qid size buffer : Z) s w : Z * nvme * W :=
  nvme_submit_admin_command (mkcmd NVME_ADMIN_CREATE_CQ 0 (VIRT_TO_PHYS buffer) 0
    (Z.lor (Z.shiftl (size - 1) 16) qid) NVME_QUEUE_PHYS_CONTIG 0) s w.

Definition nvme_create_io_submission_queue (qid cqid size buffer : Z) s w : Z * nvme * W :=
  nvme_submit_admin_command (mkcmd NVME_ADMIN_CREATE_SQ 0 (VIRT_TO_PHYS buffer) 0
    (Z.lor (Z.shiftl (size - 1) 16) qid) (Z.lor (Z.shiftl cqid 16) NVME_QUEUE_PHYS_CONTIG) 0) s w.

Definition nvme_reset_controller w : Z * W :=
  let '(cc, w) := mmio_read32 R_CC w in
  let w := mmio_write32 R_CC (Z.land cc 0xFFFFFFFE) w in
  let '(r, w) := nvme_wait_ready false 5000 w in
  if r <? 0 then (-1, w) else (0, w).

Definition nvme_enable_controller w : Z * W :=
  let page_shift := 12 in
  let cc := Z.lor (Z.lor (Z.lor (Z.lor (Z.lor (Z.lor NVME_CC_ENABLE NVME_CC_CSS_NVM) (Z.shiftl (page_shift - 12) NVME_CC_MPS_SHIFT))
                         NVME_CC_AMS_RR) NVME_CC_SHN_NONE) NVME_CC_IOSQES) NVME_CC_IOCQES in
  let w := mmio_write32 R_CC cc w in
  let '(r, w) := nvme_wait_ready true 5000 w in
  if r <? 0 then (-1, w) else (0, w).

Definition alloc_page_aligned (size : Z) w : option Z * W :=
  match dma_kmalloc (size + 4096) w with
  | (None, w) => (None, w)
  | (Some raw, w) => (Some (Z.land (raw + 4095) (Z.lnot 4095)), w)
  end.

(** Both allocations are made before the test. *)
Definition nvme_setup_admin_queues s w : Z * nvme * W :=
  let '(sq, w) := alloc_page_aligned (NVME_ADMIN_QUEUE_SIZE * 64) w in
  let '(cq, w) := alloc_page_aligned (NVME_ADMIN_QUEUE_SIZE * 16) w in
  let q := n_admin s in
  let s := with_admin s (mkq (q_id q) (q_size q) (default 0 sq) (default 0 cq) (q_tail q) (q_head q) (q_phase q)) in
  match sq, cq with
  | Some sq, Some cq =>
      let w := dma_store sq (replicate (Z.to_nat (NVME_ADMIN_QUEUE_SIZE * 64)) 0) w in
      let w := dma_store cq (replicate (Z.to_nat (NVME_ADMIN_QUEUE_SIZE * 16)) 0) w in
      let w := mmio_write32 R_AQA (Z.lor (Z.shiftl (NVME_ADMIN_QUEUE_SIZE - 1) 16) (NVME_ADMIN_QUEUE_SIZE - 1)) w in
      let w := mmio_write64 R_ASQ (VIRT_TO_PHYS sq) w in
      let w := mmio_write64 R_ACQ (VIRT_TO_PHYS cq) w in
      (0, s, w)
  | _, _ => (-1, s, w)
  end.

Definition nvme_setup_io_queues s w : Z * nvme * W :=
  let '(sq, w) := alloc_page_aligned (NVME_IO_QUEUE_SIZE * 64) w in
  let '(cq, w) := alloc_page_aligned (NVME_IO_QUEUE_SIZE * 16) w in
  let q := n_io s in
  let s := with_io s (mkq (q_id q) (q_size q) (default 0 sq) (default 0 cq) (q_tail q) (q_head q) (q_phase q)) in
  match sq, cq with
  | Some sq, Some cq =>
      let w := dma_store sq (replicate (Z.to_nat (NVME_IO_QUEUE_SIZE * 64)) 0) w in
      let w := dma_store cq (replicate (Z.to_nat (NVME_IO_QUEUE_SIZE * 16)) 0) w in
      let '(r, s, w) := nvme_create_io_completion_queue 1 NVME_IO_QUEUE_SIZE cq s w in
      if r <? 0 then (-1, s, w) else
      let '(r, s, w) := nvme_create_io_submission_queue 1 1 NVME_IO_QUEUE_SIZE sq s w in
      if r <? 0 then (-1, s, w) else
      let '(prp, w) := alloc_page_aligned 4096 w in
      let s := mknvme (nvme_regs s) (n_admin s) (n_io s) (command_id s) (default 0 prp) in
      match prp with None => (-1, s, w) | Some _ => (0, s, w) end
  | _, _ => (-1, s, w)
  end.

(** ** Reading and writing *)

(** [prp_list_buf[i - 1] = buf_phys + i * 4096] for [n] values of [i]; the list has one page. *)
Fixpoint prp_loop (n : nat) (i buf_phys list_buf : Z) w : outcome W :=
  match n with
  | O => Ret w
  | S n' =>
      if i <=? 512 then
        prp_loop n' (i + 1) buf_phys list_buf (dma_store (list_buf + 8 * (i - 1)) (le_bytes 8 (u64 (buf_phys + i * 4096))) w)
      else Fault OutOfBounds
  end.

Definition nvme_setup_prp (cmd : nvme_command) (buf_phys count block_size : Z) s w : outcome (nvme_command * W) :=
  let total_bytes := u64 (count * block_size) in
  let pages := u64 (total_bytes + 4095) / 4096 in
  let with_prp p := mkcmd (cdw0 cmd) (nsid cmd) buf_phys p (cdw10 cmd) (cdw11 cmd) (cdw12 cmd) in
  if pages <=? 1 then Ret (with_prp 0, w)
  else if pages =? 2 then Ret (with_prp (u64 (buf_phys + 4096)), w)
  else
    w ← prp_loop (Z.to_nat (pages - 1)) 1 buf_phys (prp_list_buf s) w;
    Ret (with_prp (VIRT_TO_PHYS (prp_list_buf s)), w).

(** One command for [n] blocks: the body of the loops of nvme_read_blocks and
    nvme_write_blocks, which differ in the opcode. *)
Definition rw_command (opcode : Z) (ns : nvme_namespace) (lba n buf : Z) s w : outcome (Z * nvme * W) :=
  let cmd := mkcmd (Z.lor opcode (Z.shiftl (command_id s) 16)) (ns_nsid ns) 0 0
               (Z.land lba 0xFFFFFFFF) (u32 (Z.shiftr lba 32)) (Z.land (n - 1) 0xFFFF) in
  let s := mknvme (nvme_regs s) (n_admin s) (n_io s) (u16 (command_id s + 1)) (prp_list_buf s) in
  '(cmd, w) ← nvme_setup_prp cmd (VIRT_TO_PHYS buf) n (ns_block_size ns) s w;
  Ret (nvme_submit_and_wait cmd s w).

Fixpoint nvme_rw_loop (fuel : nat) (opcode : Z) (ns : nvme_namespace) (lba count buf : Z) s w : outcome (Z * nvme * W) :=
  match fuel with
  | O => OutOfFuel
  | S fuel' =>
      if negb (0 <? count) then Ret (0, s, w) else
      let blocks_this_cmd := if 256 <? count then 256 else count in
      '(r, s, w) ← rw_command opcode ns lba blocks_this_cmd buf s w;
      if r <? 0 then Ret (-1, s, w) else
      nvme_rw_loop fuel' opcode ns (u64 (lba + blocks_this_cmd)) (count - blocks_this_cmd)
        (u64 (buf + blocks_this_cmd * ns_block_size ns)) s w
  end.

Definition nvme_rw (opcode : Z) (ns : nvme_namespace) (lba count buf : Z) s w : outcome (Z * nvme * W) :=
  if ns_block_count ns <? u64 (lba + count) then Ret (-1, s, w)
  else if negb (Z.land buf 0xFFF =? 0) then Ret (-1, s, w)
  else nvme_rw_loop (S (Z.to_nat count)) opcode ns lba count buf s w.

Definition nvme_read_blocks := nvme_rw NVME_CMD_READ.
Definition nvme_write_blocks := nvme_rw NVME_CMD_WRITE.

(** ** Initialisation *)

Definition nvme_name (id : Z) : outcome (list Z) :=
  nsid_str ← itoa (i32 id) (replicate 12 0) 10;
  l ← strlen nsid_str;
  strcpy_into 32 (lit "nvme0n" ++ take (Z.to_nat l) nsid_str).

(** The namespaces of the list from entry [i] on, [n] entries: the registry, the
    descriptions with their addresses, the state.  A shift by 32 and more is undefined
    in C; the instruction uses five bits of the count. *)
Fixpoint namespaces_loop (n : nat) (i ns_list ns_data : Z) (devs : list block_device) (nss : list (Z * nvme_namespace)) s w
  : outcome (list block_device * list (Z * nvme_namespace) * nvme * W) :=
  match n with
  | O => Ret (devs, nss, s, w)
  | S n' =>
      let '(bs, w) := dma_load (ns_list + 4 * i) 4 w in
      let id := le_value bs in
      if id =? 0 then Ret (devs, nss, s, w) else
      let w := dma_store ns_data (replicate 4096 0) w in
      let '(r, s, w) := nvme_identify_namespace id ns_data s w in
      if r <? 0 then namespaces_loop n' (i + 1) ns_list ns_data devs nss s w else
      let '(bs, w) := dma_load ns_data 8 w in
      let nsze := le_value bs in
      if nsze =? 0 then namespaces_loop n' (i + 1) ns_list ns_data devs nss s w else
      let '(bs, w) := dma_load (ns_data + 26) 1 w in
      let flbas := Z.land (le_value bs) 0x0F in
      let '(bs, w) := dma_load (ns_data + (128 + flbas * 4 + 2)) 1 w in
      let lbads := le_value bs in
      let block_size := if lbads =? 0 then 512 else u32 (Z.shiftl 1 (lbads mod 32)) in
      match dma_kmalloc 24 w with
      | (None, w) => namespaces_loop n' (i + 1) ns_list ns_data devs nss s w
      | (Some a, w) =>
          name ← nvme_name id;
          '(devs, _) ← register_block_device devs name block_size nsze NVME_OPS a;
          namespaces_loop n' (i + 1) ns_list ns_data devs (nss ++ [(a, mkns id nsze block_size)]) s w
      end
  end.

Definition nvme_init (devs : list block_device) s w : outcome (list block_device * list (Z * nvme_namespace) * nvme * W) :=
  let '(bar, w) := nvme_find_bar w in
  if bar =? 0 then Ret (devs, [], s, w) else
  let s := mknvme (u64 (bar + hhdm_offset)) (n_admin s) (n_io s) (command_id s) (prp_list_buf s) in
  let '(cap, w) := mmio_read64 R_CAP w in
  if (cap =? 0xFFFFFFFFFFFFFFFF) || (cap =? 0) then Ret (devs, [], s, w) else
  let '(r, w) := nvme_reset_controller w in
  if r <? 0 then Ret (devs, [], s, w) else
  let '(r, s, w) := nvme_setup_admin_queues s w in
  if r <? 0 then Ret (devs, [], s, w) else
  let '(r, w) := nvme_enable_controller w in
  if r <? 0 then Ret (devs, [], s, w) else
  match alloc_page_aligned 4096 w with
  | (None, w) => Ret (devs, [], s, w)
  | (Some ns_list, w) =>
      let w := dma_store ns_list (replicate 4096 0) w in
      let '(r, s, w) := nvme_identify_active_namespaces ns_list s w in
      if r <? 0 then Ret (devs, [], s, w) else
      let '(r, s, w) := nvme_setup_io_queues s w in
      if r <? 0 then Ret (devs, [], s, w) else
      match alloc_page_aligned 4096 w with
      | (None, w) => Ret (devs, [], s, w)
      | (Some ns_data, w) => namespaces_loop (Z.to_nat NVME_MAX_NAMESPACES) 0 ns_list ns_data devs [] s w
      end
  end.
End Nvme.

(** ** What the specification says of a controller *)

(** Memory by address. *)
Definition mread (m : Z -> Z) (a n : Z) : list Z := map (fun i => m (a + Z.of_nat i)) (seq 0 (Z.to_nat n)).
Definition mwrite (m : Z -> Z) (a : Z) (bs : list Z) : Z -> Z :=
  fun x => if (a <=? x) && (x <? a + len bs) then default 0 (bs !! Z.to_nat (x - a)) else m x.

Definition inside (a n x : Z) : Prop := a <= x < a + n.
Definition apart (a n b k : Z) : Prop := a + n <= b \/ b + k <= a.

(** An I/O command as the controller reads it. *)
Record io_cmd := mkio { io_op : Z; io_nsid : Z; io_prp1 : Z; io_prp2 : Z; io_lba : Z; io_n : Z }.

Definition field (bs : list Z) (off n : Z) : Z := le_value (slice bs off n).

Definition parse (bs : list Z) : io_cmd :=
  mkio (Z.land (field bs 0 4) 0xFF) (field bs 4 4) (field bs 24 8) (field bs 32 8)
    (field bs 40 4 + 2 ^ 32 * field bs 44 4) (Z.land (field bs 48 4) 0xFFFF + 1).

(** The I/O queue pair of a controller: where the queues are, the next command to
    fetch, the next completion to post and its phase tag, the command that is being
    executed with the number of polls it takes, and the namespaces. *)
Record ctl := mkctl {
  c_sq : Z; c_cq : Z; c_sq_head : Z; c_cq_tail : Z; c_tag : Z;
  c_pending : option (list Z * nat); c_disk : Z -> list Z; c_bs : Z -> Z;
}.

Definition with_pending (c : ctl) (head : Z) p : ctl :=
  mkctl (c_sq c) (c_cq c) head (c_cq_tail c) (c_tag c) p (c_disk c) (c_bs c).

(** A completion has been posted: the phase tag changes at the end of the queue. *)
Definition posted (c : ctl) (disk : Z -> list Z) : ctl :=
  let tail := (c_cq_tail c + 1) mod NVME_IO_QUEUE_SIZE in
  mkctl (c_sq c) (c_cq c) (c_sq_head c) tail (if tail =? 0 then 1 - c_tag c else c_tag c) None disk (c_bs c).

Section Contract.
Context {W : Type} {N : DmaHost W}.

(** The pages of a transfer of [total] bytes are one range of memory: the second page
    is prp2, more are in the list behind prp2. *)
Definition contiguous (m : Z -> Z) (c : io_cmd) (total : Z) : Prop :=
  let pages := (total + 4095) / 4096 in
  io_prp1 c mod 4096 = 0 /\ (pages = 2 -> io_prp2 c = io_prp1 c + 4096) /\
  (2 < pages -> pages <= 513 /\ io_prp2 c mod 4096 = 0 /\
    forall i, 1 <= i < pages -> le_value (mread m (io_prp2 c + hhdm_offset + 8 * (i - 1)) 8) = io_prp1 c + i * 4096).

(** The range of memory, and the number of bytes, of a command. *)
Definition io_base (c : io_cmd) : Z := io_prp1 c + hhdm_offset.
Definition io_total (c : io_cmd) (bs : Z) : Z := io_n c * bs.

Definition valid (m : Z -> Z) (k : ctl) (c : io_cmd) : Prop :=
  let total := io_total c (c_bs k (io_nsid c)) in
  (io_op c = NVME_CMD_READ \/ io_op c = NVME_CMD_WRITE) /\
  (0 <= io_lba c /\ 0 < io_n c /\ 0 < c_bs k (io_nsid c) /\ (io_lba c + io_n c) * c_bs k (io_nsid c) <= len (c_disk k (io_nsid c))) /\
  contiguous m c total /\ apart (io_base c) total (c_cq k) (16 * NVME_IO_QUEUE_SIZE) /\
  0 <= c_cq_tail k < NVME_IO_QUEUE_SIZE /\ (c_tag k = 0 \/ c_tag k = 1).

(** What the controller may do to the memory while it executes a command. *)
Definition untouched (m m' : Z -> Z) (k : ctl) (c : io_cmd) : Prop :=
  forall x, (io_op c = NVME_CMD_READ -> ~ inside (io_base c) (io_total c (c_bs k (io_nsid c))) x) -> m' x = m x.

(** The effect of a finished command, [sc] its status code. *)
Definition finished (faulty : Prop) (m m' : Z -> Z) (k : ctl) (c : io_cmd) (disk : Z -> list Z) (sc : Z) : Prop :=
  let bs := c_bs k (io_nsid c) in
  let total := io_total c bs in
  let entry := c_cq k + 16 * c_cq_tail k in
  0 <= sc < 32768 /\ (sc = 0 \/ faulty) /\
  le_value (mread m' (entry + CQE_STATUS) 2) = c_tag k + 2 * sc /\
  (forall x, ~ inside entry 16 x -> (io_op c = NVME_CMD_READ -> ~ inside (io_base c) total x) -> m' x = m x) /\
  (io_op c = NVME_CMD_READ -> disk = c_disk k /\
     (sc = 0 -> mread m' (io_base c) total = slice (c_disk k (io_nsid c)) (io_lba c * bs) total)) /\
  (io_op c = NVME_CMD_WRITE -> (forall n, len (disk n) = len (c_disk k n)) /\
     (sc = 0 -> forall n, disk n = if n =? io_nsid c then splice (c_disk k n) (io_lba c * bs) (mread m (io_base c) total) else c_disk k n)).
End Contract.

(** A controller whose I/O queues are set up; with [faulty] commands may fail.  A command
    takes any number of polls: nothing says that it is completed before the driver gives
    up. *)
Class NvmeOk {W : Type} `{DmaHost W} (faulty : Prop) := {
  nv_mem : W -> Z -> Z;
  nv_ctl : W -> ctl;
  nv_dstrd : Z;
  nv_dstrd_range : 0 <= nv_dstrd < 16;
  cap_law w : exists v w', mmio_read64 R_CAP w = (v, w') /\ nv_mem w' = nv_mem w /\ nv_ctl w' = nv_ctl w /\
    Z.shiftr (Z.land v NVME_CAP_DSTRD_MASK) NVME_CAP_DSTRD_SHIFT = nv_dstrd;
  sq_doorbell_law w v :
    let c := nv_ctl w in let w' := mmio_write32 (R_DOORBELLS + 4 * (2 * 2 ^ nv_dstrd)) v w in
    c_pending c = None -> v = (c_sq_head c + 1) mod NVME_IO_QUEUE_SIZE ->
    nv_mem w' = nv_mem w /\
    exists k, nv_ctl w' = with_pending c v (Some (mread (nv_mem w) (c_sq c + 64 * c_sq_head c) 64, k));
  cq_doorbell_law w v :
    let w' := mmio_write32 (R_DOORBELLS + 4 * (3 * 2 ^ nv_dstrd)) v w in
    c_pending (nv_ctl w) = None -> nv_mem w' = nv_mem w /\ nv_ctl w' = nv_ctl w;
  store_law w a bs :
    c_pending (nv_ctl w) = None -> Forall byte_ok bs ->
    nv_mem (dma_store a bs w) = mwrite (nv_mem w) a bs /\ nv_ctl (dma_store a bs w) = nv_ctl w;
  load_wait_law w a n cmd k :
    c_pending (nv_ctl w) = Some (cmd, S k) -> valid (nv_mem w) (nv_ctl w) (parse cmd) ->
    exists w', dma_load a n w = (mread (nv_mem w') a n, w') /\ untouched (nv_mem w) (nv_mem w') (nv_ctl w) (parse cmd) /\
      nv_ctl w' = with_pending (nv_ctl w) (c_sq_head (nv_ctl w)) (Some (cmd, k));
  load_done_law w a n cmd :
    c_pending (nv_ctl w) = Some (cmd, O) -> valid (nv_mem w) (nv_ctl w) (parse cmd) ->
    exists w' disk sc, dma_load a n w = (mread (nv_mem w') a n, w') /\
      finished faulty (nv_mem w) (nv_mem w') (nv_ctl w) (parse cmd) disk sc /\ nv_ctl w' = posted (nv_ctl w) disk;
}.

(** ** Memory *)

Lemma mread_length m a n : length (mread m a n) = Z.to_nat n.
Proof. unfold mread. by rewrite length_map, length_seq. Qed.

Lemma mread_len m a n : 0 <= n -> len (mread m a n) = n.
Proof. intros. unfold len. rewrite mread_length. lia. Qed.

Lemma mread_lookup m a n i : 0 <= i < n -> mread m a n !! Z.to_nat i = Some (m (a + i)).
Proof.
  intros Hi. unfold mread. rewrite list_lookup_fmap, lookup_seq_lt by lia. cbn. do 2 f_equal. lia.
Qed.

Lemma mread_ext m m' a n : (forall x, inside a n x -> m' x = m x) -> mread m' a n = mread m a n.
Proof.
  intros H. unfold mread. apply map_ext_in. intros i Hi%in_seq. apply H. unfold inside. lia.
Qed.

Lemma mread_app m a n k : 0 <= n -> 0 <= k -> mread m a (n + k) = mread m a n ++ mread m (a + n) k.
Proof.
  intros Hn Hk. unfold mread. rewrite Z2Nat.inj_add, seq_app, map_app by lia. f_equal. cbn [Nat.add].
  rewrite <- (Nat.add_0_r (Z.to_nat n)) at 1. rewrite <- fmap_add_seq. rewrite map_map. apply map_ext. intros i. f_equal. lia.
Qed.

Lemma mread_write m a bs : mread (mwrite m a bs) a (len bs) = bs.
Proof.
  apply list_eq_len; [rewrite mread_len; unfold len; lia|]. intros i Hi. rewrite mread_len in Hi by (unfold len; lia).
  rewrite mread_lookup by done. unfold mwrite. destruct (Z.leb_spec a (a + i)), (Z.ltb_spec (a + i) (a + len bs)); try lia. cbn [andb].
  replace (a + i - a) with i by lia. destruct (bs !! Z.to_nat i) eqn:E; [done|]. apply lookup_ge_None in E. unfold len in Hi. lia.
Qed.

Lemma mwrite_out m a bs x : ~ inside a (len bs) x -> mwrite m a bs x = m x.
Proof.
  intros H. unfold mwrite, inside in *. destruct (Z.leb_spec a x), (Z.ltb_spec x (a + len bs)); cbn [andb]; lia || done.
Qed.

Lemma apart_outside a n b k x : apart a n b k -> inside b k x -> ~ inside a n x.
Proof. unfold apart, inside. lia. Qed.

(** ** Transfers

    What a transfer of [total] bytes between [buf] and the position [pos] of the
    disk [id] did, out of the disks [d]: the memory outside of the buffer of a read and
    of what the driver shares with the controller ([shared]) is as it was; a read
    delivers the bytes of the disk, a write stores those of the buffer. *)
Section Moved.
Context (faulty : Prop) (shared : Z -> Prop) (rd : bool) (id : Z).

Definition moved (pos total buf : Z) (m m' : Z -> Z) (d d' : Z -> list Z) (r : Z) : Prop :=
  (r = 0 \/ (faulty /\ r = -1)) /\
  (forall x, ~ shared x -> (rd = true -> ~ inside buf total x) -> m' x = m x) /\
  (rd = true -> d' = d /\ (r = 0 -> mread m' buf total = slice (d id) pos total)) /\
  (rd = false -> (forall n, len (d' n) = len (d n)) /\
     (r = 0 -> forall n, d' n = if n =? id then splice (d n) pos (mread m buf total) else d n)).

Lemma moved_len pos total buf m m' d d' r n : moved pos total buf m m' d d' r -> len (d' n) = len (d n).
Proof. intros (_ & _ & R & Wr). destruct rd; [by destruct (R eq_refl) as [-> _]|by destruct (Wr eq_refl) as [-> _]]. Qed.

Lemma moved_nil pos buf m d : moved pos 0 buf m m d d 0.
Proof.
  split; [by left|]. split; [done|]. split; [done|]. intros _. split; [done|]. intros _ n.
  change (mread m buf 0) with (@nil Z). destruct (n =? id); [|done]. unfold splice. by rewrite app_nil_l, Nat.add_0_r, take_drop.
Qed.

Lemma moved_failed pos t total buf m m' d d' r : r <> 0 -> t <= total ->
  moved pos t buf m m' d d' r -> moved pos total buf m m' d d' (-1).
Proof.
  intros Hr Ht (H1 & H2 & H3 & H4). split; [right; split; [tauto|done]|]. split; [|split].
  - intros x Hp Hx. apply H2; [done|]. intros E. specialize (Hx E). unfold inside in *. lia.
  - intros E. split; [by apply H3|done].
  - intros E. split; [by apply H4|done].
Qed.

Lemma moved_app pos t1 t2 buf m1 m2 m3 d1 d2 d3 r : 0 <= pos -> 0 <= t1 -> 0 <= t2 -> pos + t1 + t2 <= len (d1 id) ->
  (forall x, shared x -> ~ inside buf (t1 + t2) x) ->
  moved pos t1 buf m1 m2 d1 d2 0 -> moved (pos + t1) t2 (buf + t1) m2 m3 d2 d3 r -> moved pos (t1 + t2) buf m1 m3 d1 d3 r.
Proof.
  intros Hp H1 H2 Hfit Hpriv (_ & F1 & R1 & W1) (A2 & F2 & R2 & W2). split; [done|]. split; [|split].
  - intros x Hx Hd. rewrite F2, F1; [done|done| |done|]; intros E; specialize (Hd E); unfold inside in *; lia.
  - intros E. destruct (R1 E) as [-> D1]. destruct (R2 E) as [-> D2]. split; [done|]. intros Er.
    rewrite mread_app, slice_app_add by lia. rewrite (D2 Er), <- (D1 eq_refl). f_equal. apply mread_ext.
    intros x Hx. apply F2; [intros Hq; apply (Hpriv x Hq)|intros _]; unfold inside in *; lia.
  - intros E. destruct (W1 E) as [L1 D1]. destruct (W2 E) as [L2 D2]. split; [intros n; by rewrite L2|]. intros Er n.
    rewrite (D2 Er), (D1 eq_refl). destruct (Z.eqb_spec n id) as [->|]; [|done].
    rewrite (mread_ext m1 m2).
    + rewrite mread_app by lia. rewrite <- splice_splice_next; rewrite ?mread_len by lia; [done|done|lia].
    + intros x Hx. apply F1; [intros Hq; apply (Hpriv x Hq); unfold inside in *; lia|]. intros E'. rewrite E in E'. discriminate.
Qed.
End Moved.

Lemma moved_why (F G : Prop) P rd id pos total buf m m' d d' r : (r = -1 -> F -> G) ->
  moved F P rd id pos total buf m m' d d' r -> moved G P rd id pos total buf m m' d d' r.
Proof. intros HF (H1 & H2). split; [|done]. destruct H1 as [->|[H ->]]; [by left|right; auto]. Qed.

Lemma moved_ext faulty (P Q : Z -> Prop) rd id pos total buf m m' d d' r : (forall x, P x -> Q x) ->
  moved faulty P rd id pos total buf m m' d d' r -> moved faulty Q rd id pos total buf m m' d d' r.
Proof. intros HP (H1 & H2 & H3). split; [done|]. split; [|done]. intros x Hx. apply H2. intros Hp. by apply Hx, HP. Qed.

(** ** One command *)

Definition cmd_ok (c : nvme_command) : Prop :=
  0 <= cdw0 c < 2 ^ 32 /\ 0 <= nsid c < 2 ^ 32 /\ 0 <= prp1 c < 2 ^ 64 /\ 0 <= prp2 c < 2 ^ 64 /\
  0 <= cdw10 c < 2 ^ 32 /\ 0 <= cdw11 c < 2 ^ 32 /\ 0 <= cdw12 c < 2 ^ 32.

Lemma field_value c off n k x : slice (cmd_bytes c) off n = le_bytes k x -> 0 <= x < 256 ^ Z.of_nat k -> field (cmd_bytes c) off n = x.
Proof. intros E Hx. unfold field. rewrite E, le_value_bytes. by apply Z.mod_small. Qed.

Lemma parse_cmd c : cmd_ok c ->
  parse (cmd_bytes c) = mkio (Z.land (cdw0 c) 0xFF) (nsid c) (prp1 c) (prp2 c) (cdw10 c + 2 ^ 32 * cdw11 c) (Z.land (cdw12 c) 0xFFFF + 1).
Proof.
  intros (H0 & H1 & H2 & H3 & H4 & H5 & H6). unfold parse.
  rewrite (field_value c 0 4 4 (cdw0 c)), (field_value c 4 4 4 (nsid c)), (field_value c 24 8 8 (prp1 c)), (field_value c 32 8 8 (prp2 c)),
    (field_value c 40 4 4 (cdw10 c)), (field_value c 44 4 4 (cdw11 c)), (field_value c 48 4 4 (cdw12 c)); done.
Qed.

Lemma cmd_bytes_ok c : Forall byte_ok (cmd_bytes c) /\ len (cmd_bytes c) = 64.
Proof.
  split; [|done]. unfold cmd_bytes. rewrite !Forall_app. split_and!; try apply le_bytes_ok; apply Forall_replicate; unfold byte_ok; lia.
Qed.

(** A completion that a poll finds: the tag and the status code. *)
Lemma status_word tag sc : tag = 0 \/ tag = 1 -> 0 <= sc < 32768 ->
  Z.land (tag + 2 * sc) 1 = tag /\ Z.land (Z.shiftr (tag + 2 * sc) 1) 0x7FFF = sc.
Proof.
  intros Ht Hs. change 1 with (Z.ones 1) at 1. change 0x7FFF with (Z.ones 15). rewrite !Z.land_ones by lia.
  rewrite Z.shiftr_div_pow2 by lia. change (2 ^ 1) with 2. change (2 ^ 15) with 32768.
  destruct Ht as [->| ->]; Z.to_euclidean_division_equations; lia.
Qed.

Section Frames.
Context {W : Type} {N : DmaHost W}.

Lemma contiguous_ext m m' c total :
  (2 < (total + 4095) / 4096 -> forall x, inside (io_prp2 c + hhdm_offset) 4096 x -> m' x = m x) ->
  contiguous m c total -> contiguous m' c total.
Proof.
  intros He (H1 & H2 & H3). split; [done|]. split; [done|]. intros Hp. destruct (H3 Hp) as (Hle & Ha & Hi).
  split; [done|]. split; [done|]. intros i Hr. rewrite <- Hi by done. f_equal. apply mread_ext.
  intros x Hx. apply He; [done|]. unfold inside in *. lia.
Qed.

(** The phase tags: entries before the tail carry the current one, the others the old. *)
Definition tags (m : Z -> Z) (k : ctl) : Prop :=
  forall i, 0 <= i < NVME_IO_QUEUE_SIZE ->
    Z.land (le_value (mread m (c_cq k + 16 * i + CQE_STATUS) 2)) 1 = if i <? c_cq_tail k then c_tag k else 1 - c_tag k.

Lemma tags_ext m m' k : (forall x, inside (c_cq k) (16 * NVME_IO_QUEUE_SIZE) x -> m' x = m x) -> tags m k -> tags m' k.
Proof.
  intros He H i Hi. rewrite <- H by done. do 2 f_equal. apply mread_ext. intros x Hx. apply He.
  unfold inside, NVME_IO_QUEUE_SIZE, CQE_STATUS in *. lia.
Qed.

Lemma tags_posted faulty m m' k c disk sc : tags m k -> valid m k c -> 0 <= c_cq_tail k < 256 -> c_tag k = 0 \/ c_tag k = 1 ->
  finished faulty m m' k c disk sc -> tags m' (posted k disk).
Proof.
  intros Ht (_ & _ & _ & Ha & _) Hr Hg (Hsc & _ & Hst & Hfr & _) i Hi. cbn [posted c_cq c_cq_tail c_tag].
  assert (Z.land (le_value (mread m' (c_cq k + 16 * i + CQE_STATUS) 2)) 1 = if i <=? c_cq_tail k then c_tag k else 1 - c_tag k) as ->.
  { destruct (Z.eq_dec i (c_cq_tail k)) as [->|Hne].
    - rewrite Hst, Z.leb_refl. by apply (status_word _ sc).
    - specialize (Ht i Hi). rewrite (mread_ext m m').
      + rewrite Ht. destruct (Z.ltb_spec i (c_cq_tail k)), (Z.leb_spec i (c_cq_tail k)); lia || done.
      + intros x Hx. apply Hfr.
        * unfold inside, CQE_STATUS in *. lia.
        * intros _. eapply apart_outside; [exact Ha|]. unfold inside, NVME_IO_QUEUE_SIZE, CQE_STATUS in *. lia. }
  unfold NVME_IO_QUEUE_SIZE in *. destruct (Z.eq_dec (c_cq_tail k) 255) as [E|Hne].
  - rewrite E. change ((255 + 1) mod 256) with 0. cbn [Z.eqb]. destruct (Z.leb_spec i 255), (Z.ltb_spec i 0); lia.
  - rewrite Z.mod_small by lia. destruct (Z.eqb_spec (c_cq_tail k + 1) 0), (Z.leb_spec i (c_cq_tail k)), (Z.ltb_spec i (c_cq_tail k + 1)); lia.
Qed.

(** What happened during the polls is part of the command. *)
Lemma finished_untouched faulty m0 m m' k c disk sc :
  untouched m0 m k c -> io_op c = NVME_CMD_READ \/ io_op c = NVME_CMD_WRITE -> finished faulty m m' k c disk sc -> finished faulty m0 m' k c disk sc.
Proof.
  intros Hu Hop (Hsc & Hf & Hst & Hfr & Hrd & Hwr). split; [done|]. split; [done|]. split; [done|]. split; [|split; [done|]].
  - intros x Hx Hd. rewrite Hfr by done. by apply Hu.
  - intros Ew. destruct (Hwr Ew) as [Hl Hd]. split; [done|]. intros E n. rewrite Hd by done.
    rewrite (mread_ext m0 m); [done|]. intros x _. apply Hu. by rewrite Ew.
Qed.
End Frames.

Section Driver.
Context {W : Type} {N : DmaHost W} {faulty : Prop} {K : NvmeOk faulty}.
Implicit Types (w : W) (s : nvme) (q : queue).

#[local] Abbreviation mem w := (nv_mem (faulty:=faulty) w).
#[local] Abbreviation ct w := (nv_ctl (faulty:=faulty) w).

Lemma doorbell_ok w is_sq v :
  exists w1, nvme_write_doorbell 1 v is_sq w = mmio_write32 (R_DOORBELLS + 4 * ((if is_sq : bool then 2 else 3) * 2 ^ nv_dstrd)) v w1 /\
    mem w1 = mem w /\ ct w1 = ct w.
Proof.
  unfold nvme_write_doorbell. destruct (cap_law (NvmeOk:=K) w) as (x & w1 & E & Em & Ec & Ed). rewrite E, Ed.
  pose proof (nv_dstrd_range (NvmeOk:=K)) as Hd. exists w1. split; [|done].
  assert (0 < 2 ^ nv_dstrd <= 2 ^ 15) as Hp by (split; [apply Z.pow_pos_nonneg; lia|apply Z.pow_le_mono_r; lia]).
  change (2 ^ 15) with 32768 in Hp. rewrite !Z.shiftl_mul_pow2 by lia. rewrite (u32_id (1 * 2 * _)) by lia.
  destruct is_sq; [do 2 f_equal; lia|]. rewrite u32_id by lia. do 2 f_equal. lia.
Qed.

(** A command that the controller holds, with [k] polls to wait. *)
Definition waiting q w (c : io_cmd) (k : nat) : Prop :=
  let t := ct w in let total := io_total c (c_bs t (io_nsid c)) in
  q_id q = 1 /\ q_size q = NVME_IO_QUEUE_SIZE /\ q_cq q = c_cq t /\ q_head q = c_cq_tail t /\ q_phase q = c_tag t /\
  0 <= c_cq_tail t < 256 /\ (c_tag t = 0 \/ c_tag t = 1) /\
  (exists bs, c_pending t = Some (bs, k) /\ parse bs = c) /\ valid (mem w) t c /\ tags (mem w) t /\
  (2 < (total + 4095) / 4096 -> apart (io_base c) total (io_prp2 c + hhdm_offset) 4096).

(** The queue after a completion has been taken. *)
Definition advanced q : queue :=
  let head := (q_head q + 1) mod NVME_IO_QUEUE_SIZE in
  mkq (q_id q) (q_size q) (q_sq q) (q_cq q) (q_tail q) head (if head =? 0 then 1 - q_phase q else q_phase q).

Definition result (sc : Z) : Z := if negb (sc =? 0) then -1 else 0.

Lemma waiting_poll q w w' c k : waiting q w c (S k) -> untouched (mem w) (mem w') (ct w) c ->
  (forall bs, c_pending (ct w) = Some (bs, S k) -> ct w' = with_pending (ct w) (c_sq_head (ct w)) (Some (bs, k))) -> waiting q w' c k.
Proof.
  intros (H1 & H2 & H3 & H4 & H5 & H6 & H7 & (bs & Hp & Eb) & Hv & Ht & Ha) Hu Hc. specialize (Hc bs Hp).
  destruct Hv as (Hop & Hfit & Hcon & Hap & Hcqt & Htag).
  unfold waiting. rewrite Hc. unfold with_pending. cbn [c_cq c_cq_tail c_tag c_pending c_bs c_disk c_sq c_sq_head].
  split_and!; try done; try lia.
  - by exists bs.
  - refine (conj Hop (conj Hfit (conj _ (conj Hap (conj Hcqt Htag))))). eapply contiguous_ext; [|exact Hcon]. intros Hpg x Hx. apply Hu. intros _. eapply apart_outside; [by apply Ha|done].
  - eapply (tags_ext (mem w)); [|exact Ht]. intros x Hx. apply Hu. intros _. eapply apart_outside; [exact Hap|done].
Qed.

(** Before that the entry at the head has the tag of the last round. *)
Lemma poll_old_tag q w w1 c k bs : waiting q w c (S k) -> waiting q w1 c k -> ct w1 = with_pending (ct w) (c_sq_head (ct w)) (Some (bs, k)) ->
  (Z.land (le_value (mread (mem w1) (q_cq q + 16 * q_head q + CQE_STATUS) 2)) 1 =? q_phase q) = false.
Proof.
  intros (_ & _ & H3 & H4 & H5 & H6 & H7 & _) (_ & _ & _ & _ & _ & _ & _ & _ & _ & Ht1 & _) Hc1.
  specialize (Ht1 (q_head q)). rewrite Hc1 in Ht1. cbn [with_pending c_cq c_cq_tail c_tag] in Ht1.
  rewrite H3, H4 in *. rewrite Ht1, Z.ltb_irrefl, H5 by (unfold NVME_IO_QUEUE_SIZE; lia). apply Z.eqb_neq. lia.
Qed.

Lemma wait_completion_ok k : forall n q w c, (k < n)%nat -> waiting q w c k ->
  exists q' w' disk sc, wait_completion n q w = (result sc, q', w') /\ q' = advanced q /\
    finished faulty (mem w) (mem w') (ct w) c disk sc /\ ct w' = posted (ct w) disk.
Proof.
  induction k as [|k IH]; intros [|n] q w c Hk Hw; try lia;
    pose proof Hw as (H1 & H2 & H3 & H4 & H5 & H6 & H7 & (bs & Hp & Eb) & Hv & Ht & Ha); cbn [wait_completion].
  - destruct (load_done_law (NvmeOk:=K) w (q_cq q + 16 * q_head q + CQE_STATUS) 2 bs Hp) as (w1 & disk & sc & El & Hf & Hc1);
      [by rewrite Eb|]. rewrite El. rewrite Eb in Hf. pose proof Hf as (Hsc & _ & Hst & _). rewrite H3, H4, Hst.
    destruct (status_word (c_tag (ct w)) sc H7 Hsc) as [E1 E2]. rewrite E1, E2, H5, Z.eqb_refl.
    rewrite H1, H2. destruct (doorbell_ok w1 false ((c_cq_tail (ct w) + 1) mod NVME_IO_QUEUE_SIZE)) as (w2 & Ed & Em2 & Ec2). rewrite Ed.
    destruct (cq_doorbell_law (NvmeOk:=K) w2 ((c_cq_tail (ct w) + 1) mod NVME_IO_QUEUE_SIZE)) as [Em3 Ec3]; [by rewrite Ec2, Hc1|].
    eexists _, _, disk, sc. split; [done|]. split.
    { unfold advanced. rewrite H1, H2, H4, H5. f_equal; [done|]. destruct (_ =? 0); [|done]. by destruct H7 as [->| ->]. }
    rewrite Em3, Em2, Ec3, Ec2. by split.
  - destruct (load_wait_law (NvmeOk:=K) w (q_cq q + 16 * q_head q + CQE_STATUS) 2 bs k Hp) as (w1 & El & Hu & Hc1); [by rewrite Eb|].
    rewrite El. rewrite Eb in Hu. assert (waiting q w1 c k) as Hw1.
    { eapply waiting_poll; [exact Hw|exact Hu|]. intros bs' Hp'. rewrite Hp in Hp'. by injection Hp' as <-. }
    rewrite (poll_old_tag q w w1 c k bs) by done.
    destruct (IH n q w1 c ltac:(lia) Hw1) as (q' & w' & disk & sc & Er & Eq & Hf & Hc). exists q', w', disk, sc.
    split; [done|]. split; [done|]. rewrite Hc1 in Hf, Hc. split; [|exact Hc].
    eapply finished_untouched; [exact Hu|apply Hv|exact Hf].
Qed.

(** Too few polls: the driver gives up, and the controller still has the command. *)
Lemma wait_completion_late n : forall k q w c, (n <= k)%nat -> waiting q w c k ->
  exists w' bs, wait_completion n q w = (-1, q, w') /\ untouched (mem w) (mem w') (ct w) c /\
    ct w' = with_pending (ct w) (c_sq_head (ct w)) (Some (bs, (k - n)%nat)).
Proof.
  induction n as [|n IH]; intros k q w c Hk Hw; pose proof Hw as (H1 & H2 & H3 & H4 & H5 & H6 & H7 & (bs & Hp & Eb) & Hv & Ht & Ha); cbn [wait_completion].
  { exists w, bs. split; [done|]. split; [by intros x|]. rewrite Nat.sub_0_r, <- Hp. by destruct (ct w). }
  destruct k as [|k]; [lia|].
  destruct (load_wait_law (NvmeOk:=K) w (q_cq q + 16 * q_head q + CQE_STATUS) 2 bs k Hp) as (w1 & El & Hu & Hc1); [by rewrite Eb|].
  rewrite El. rewrite Eb in Hu. assert (waiting q w1 c k) as Hw1.
  { eapply waiting_poll; [exact Hw|exact Hu|]. intros bs' Hp'. rewrite Hp in Hp'. by injection Hp' as <-. }
  rewrite (poll_old_tag q w w1 c k bs) by done.
  destruct (IH k q w1 c ltac:(lia) Hw1) as (w' & bs' & Er & Hu' & Hc'). exists w', bs'. split; [done|]. rewrite Hc1 in Hu', Hc'. split; [|exact Hc'].
  intros x Hx. rewrite (Hu' x Hx). by apply Hu.
Qed.

(** A controller that completes every command before the driver gives up. *)
Definition prompt : Prop :=
  forall w v cmd k, c_pending (ct w) = None ->
    c_pending (ct (mmio_write32 (R_DOORBELLS + 4 * (2 * 2 ^ nv_dstrd)) v w)) = Some (cmd, k) -> Z.of_nat k < 10000.

(** The controller still has a command that the driver has given up. *)
Definition late w : Prop := c_pending (ct w) <> None /\ ~ prompt.

(** The driver and the controller agree on the queues. *)
Definition ring q w : Prop :=
  let c := ct w in
  q_id q = 1 /\ q_size q = NVME_IO_QUEUE_SIZE /\ q_sq q = c_sq c /\ q_cq q = c_cq c /\
  q_tail q = c_sq_head c /\ q_head q = c_cq_tail c /\ q_phase q = c_tag c /\
  0 <= c_sq_head c < 256 /\ 0 <= c_cq_tail c < 256 /\ (c_tag c = 0 \/ c_tag c = 1) /\ c_pending c = None /\
  apart (c_sq c) (64 * 256) (c_cq c) (16 * 256) /\ tags (mem w) c.

(** Data and list of a command lie apart from each other and from the submission
    queue (that the data lie apart from the completion queue is in [valid]). *)
Definition placed q (c : io_cmd) (total : Z) : Prop :=
  apart (io_base c) total (q_sq q) (64 * 256) /\
  (2 < (total + 4095) / 4096 ->
     apart (io_prp2 c + hhdm_offset) 4096 (q_sq q) (64 * 256) /\ apart (io_base c) total (io_prp2 c + hhdm_offset) 4096).

(** One command: the queues, the machine, the memory when it was started, the result;
    and, if it is completed, the disk after it and its status code. *)
Lemma nvme_submit_ok cmd q w : ring q w -> cmd_ok cmd ->
  let c := parse (cmd_bytes cmd) in
  valid (mem w) (ct w) c -> placed q c (io_total c (c_bs (ct w) (io_nsid c))) ->
  exists q' w' m r, nvme_submit cmd q w = (r, q', w') /\
    q_sq q' = q_sq q /\ q_cq q' = q_cq q /\ c_bs (ct w') = c_bs (ct w) /\
    (forall x, ~ inside (q_sq q) (64 * 256) x -> m x = mem w x) /\
    ((exists sc, r = result sc /\ ring q' w' /\ finished faulty m (mem w') (ct w) c (c_disk (ct w')) sc) \/
     (r = -1 /\ late w' /\ c_disk (ct w') = c_disk (ct w) /\ untouched m (mem w') (ct w) c)).
Proof.
  intros (R1 & R2 & R3 & R4 & R5 & R6 & R7 & R8 & R9 & R10 & R11 & R12 & R13) Hc c (Hop & Hfit & Hcon & Hcq & Hcqt & Htag) (Hp1 & Hp2).
  unfold nvme_submit. destruct (cmd_bytes_ok cmd) as [Hby Hlen].
  destruct (store_law (NvmeOk:=K) w (q_sq q + 64 * q_tail q) (cmd_bytes cmd) R11 Hby) as [Em1 Ec1]. set (w1 := dma_store _ _ w) in *.
  rewrite R1, R2. destruct (doorbell_ok w1 true ((q_tail q + 1) mod NVME_IO_QUEUE_SIZE)) as (w2 & Ed & Em2 & Ec2). rewrite Ed.
  destruct (sq_doorbell_law (NvmeOk:=K) w2 ((q_tail q + 1) mod NVME_IO_QUEUE_SIZE)) as (Em3 & k & Ec3);
    [by rewrite Ec2, Ec1|by rewrite Ec2, Ec1, R5|]. set (w3 := mmio_write32 _ _ w2) in *. rewrite Em2 in Em3, Ec3. rewrite Ec2, Ec1 in Ec3.
  assert (mread (mem w1) (c_sq (ct w) + 64 * c_sq_head (ct w)) 64 = cmd_bytes cmd) as Eread.
  { rewrite Em1, <- R3, <- R5, <- Hlen. apply mread_write. } rewrite Eread in Ec3.
  assert (forall x, ~ inside (q_sq q) (64 * 256) x -> mem w3 x = mem w x) as Hout.
  { intros x Hx. rewrite Em3, Em1. apply mwrite_out. rewrite Hlen. unfold inside in *. lia. }
  assert (forall x, inside (c_cq (ct w)) (16 * NVME_IO_QUEUE_SIZE) x -> mem w3 x = mem w x) as Hcqm.
  { intros x Hx. apply Hout. rewrite R3. unfold apart, inside, NVME_IO_QUEUE_SIZE in *. lia. }
  assert (valid (mem w3) (ct w) c) as Hv3.
  { refine (conj Hop (conj Hfit (conj _ (conj Hcq (conj Hcqt Htag))))). eapply contiguous_ext; [|exact Hcon]. intros Hpg x Hx. apply Hout.
    destruct (Hp2 Hpg) as [Ha _]. unfold apart, inside in *. lia. }
  assert (tags (mem w3) (ct w)) as Ht3 by (eapply tags_ext; [exact Hcqm|done]).
  set (q1 := mkq 1 NVME_IO_QUEUE_SIZE (q_sq q) (q_cq q) ((q_tail q + 1) mod NVME_IO_QUEUE_SIZE) (q_head q) (q_phase q)).
  assert (waiting q1 w3 c k) as Hwait.
  { unfold waiting, q1. rewrite Ec3. unfold with_pending. cbn [c_cq c_cq_tail c_tag c_pending c_bs c_disk q_id q_size q_cq q_head q_phase].
    split_and!; try done; try lia. { by exists (cmd_bytes cmd). } intros Hpg. by apply Hp2. }
  destruct (Nat.lt_ge_cases k (Z.to_nat 10000)) as [Hk|Hk].
  2:{ destruct (wait_completion_late _ _ _ _ _ Hk Hwait) as (w' & bs & Er & Hu & Ec4). rewrite Er. exists q1, w', (mem w3), (-1).
      rewrite Ec3 in Hu, Ec4. split; [done|]. split; [done|]. split; [done|]. rewrite Ec4. split; [done|]. split; [done|]. right.
      split; [done|]. split; [|by split]. split; [by rewrite Ec4|]. intros Hq.
      assert (Z.of_nat k < 10000) as Hlt; [|lia]. apply (Hq w2 ((q_tail q + 1) mod NVME_IO_QUEUE_SIZE) (cmd_bytes cmd)); [by rewrite Ec2, Ec1|].
      fold w3. by rewrite Ec3. }
  destruct (wait_completion_ok k _ q1 w3 c Hk Hwait) as (q' & w' & disk & sc & Er & Eq & Hf & Ec4).
  rewrite Er. exists q', w', (mem w3), (result sc). split; [done|]. rewrite Ec3 in Hf, Ec4.
  assert (ct w' = posted (with_pending (ct w) ((q_tail q + 1) mod NVME_IO_QUEUE_SIZE) None) disk) as Ec5 by exact Ec4.
  assert (finished faulty (mem w3) (mem w') (ct w) c disk sc) as Hf' by exact Hf.
  subst q'. split; [done|]. split; [done|]. split; [by rewrite Ec5|]. split; [done|]. left. exists sc. split; [done|].
  split; [|by rewrite Ec5]. pose proof (tags_posted _ _ _ _ _ _ _ Ht3 Hv3 R9 R10 Hf') as Ht4.
  assert (forall x, 0 <= x < 256 -> 0 <= (x + 1) mod NVME_IO_QUEUE_SIZE < 256) as Hmod by (intros; apply Z.mod_pos_bound; done).
  unfold ring, advanced, q1. rewrite Ec5. unfold posted, with_pending.
  cbn [q_id q_size q_sq q_cq q_tail q_head q_phase c_sq c_cq c_sq_head c_cq_tail c_tag c_pending]. rewrite R6, R7, R5.
  split_and!; try done; try (apply Hmod; lia).
  destruct (_ =? 0); lia.
Qed.

(** ** Lists of pages *)

Lemma prp_loop_ok phys lb n : forall i w, c_pending (ct w) = None -> 1 <= i -> i + Z.of_nat n <= 513 ->
  0 <= phys -> phys + (i + Z.of_nat n) * 4096 < 2 ^ 64 ->
  exists w', prp_loop n i phys lb w = Ret w' /\ ct w' = ct w /\
    (forall x, ~ inside (lb + 8 * (i - 1)) (8 * Z.of_nat n) x -> mem w' x = mem w x) /\
    forall j, i <= j < i + Z.of_nat n -> le_value (mread (mem w') (lb + 8 * (j - 1)) 8) = phys + j * 4096.
Proof.
  induction n as [|n IH]; intros i w Hp Hi Hn Hph Hlim.
  { exists w. split_and!; try done. intros j Hj. lia. }
  cbn [prp_loop]. destruct (Z.leb_spec i 512); [|lia].
  change (2 ^ 64) with 18446744073709551616 in *.
  destruct (store_law (NvmeOk:=K) w (lb + 8 * (i - 1)) (le_bytes 8 (u64 (phys + i * 4096))) Hp) as [Em Ec]; [apply le_bytes_ok|].
  set (w1 := dma_store _ _ w) in *.
  destruct (IH (i + 1) w1) as (w' & Er & Ec' & Ho & Hj); [by rewrite Ec|lia|lia|lia|lia|].
  exists w'. split; [done|]. split; [by rewrite Ec', Ec|]. split.
  - intros x Hx. rewrite Ho by (unfold inside in *; lia). rewrite Em. apply mwrite_out.
    change (len (le_bytes 8 _)) with 8. unfold inside in *. lia.
  - intros j Hr. destruct (Z.eq_dec j i) as [->|Hne]; [|apply Hj; lia].
    rewrite (mread_ext (mem w1)) by (intros x Hx; apply Ho; unfold inside in *; lia).
    rewrite Em. change 8 with (len (le_bytes 8 (u64 (phys + i * 4096)))) at 2. rewrite mread_write, le_value_bytes.
    rewrite u64_id by lia. apply Z.mod_small. change (256 ^ Z.of_nat 8) with 18446744073709551616. lia.
Qed.

(** The physical address of a page, and where its list is. *)
Definition page_address (a : Z) : Prop := hhdm_offset <= a < 2 ^ 64 /\ a mod 4096 = 0.

Lemma phys_page a : 0 <= hhdm_offset -> hhdm_offset mod 4096 = 0 -> page_address a ->
  VIRT_TO_PHYS a = a - hhdm_offset /\ (a - hhdm_offset) mod 4096 = 0.
Proof.
  intros H0 Hh ((Hl & Hu) & Ha). change (2 ^ 64) with 18446744073709551616 in *. unfold VIRT_TO_PHYS. rewrite u64_id by lia.
  split; [done|]. rewrite Zminus_mod, Ha, Hh. done.
Qed.

Lemma nvme_setup_prp_ok cmd buf n bs s w : c_pending (ct w) = None -> 0 <= hhdm_offset -> hhdm_offset mod 4096 = 0 ->
  page_address buf -> page_address (prp_list_buf s) -> 0 < n <= 256 -> 0 < bs <= 8192 -> buf + n * bs + 4096 <= 2 ^ 64 ->
  exists p2 w', nvme_setup_prp cmd (VIRT_TO_PHYS buf) n bs s w =
      Ret (mkcmd (cdw0 cmd) (nsid cmd) (buf - hhdm_offset) p2 (cdw10 cmd) (cdw11 cmd) (cdw12 cmd), w') /\
    ct w' = ct w /\ (forall x, ~ inside (prp_list_buf s) 4096 x -> mem w' x = mem w x) /\ 0 <= p2 < 2 ^ 64 /\
    (2 < (n * bs + 4095) / 4096 -> p2 + hhdm_offset = prp_list_buf s) /\
    forall op id lba k, contiguous (mem w') (mkio op id (buf - hhdm_offset) p2 lba k) (n * bs).
Proof.
  intros Hp H0 Hh Hb Hl Hn Hs Hlim. destruct (phys_page buf H0 Hh Hb) as [Eb Ab]. destruct (phys_page _ H0 Hh Hl) as [El Al].
  destruct Hb as [Hb _]. destruct Hl as [Hl _]. change (2 ^ 64) with 18446744073709551616 in *.
  assert (0 < n * bs <= 256 * 8192) as Ht by (split; [apply Z.mul_pos_pos; lia|apply Z.mul_le_mono_nonneg; lia]).
  unfold nvme_setup_prp. rewrite Eb, El. cbv zeta. rewrite (u64_id (n * bs)), (u64_id (n * bs + 4095)) by lia.
  set (total := n * bs) in *. set (pages := (total + 4095) / 4096).
  assert (pages * 4096 <= total + 4095 < (pages + 1) * 4096) as Hpg
    by (unfold pages; Z.to_euclidean_division_equations; lia).
  unfold contiguous. cbn [io_prp1 io_prp2]. fold pages.
  destruct (Z.leb_spec pages 1) as [H1|H1]; [|destruct (Z.eqb_spec pages 2) as [H2|H2]].
  - exists 0, w. split_and!; try done; try lia.
  - rewrite u64_id by lia. exists (buf - hhdm_offset + 4096), w. split_and!; try done; try lia.
  - destruct (prp_loop_ok (buf - hhdm_offset) (prp_list_buf s) (Z.to_nat (pages - 1)) 1 w Hp) as (w' & Er & Ec & Ho & Hj);
      [lia|lia|lia|change (2 ^ 64) with 18446744073709551616; lia|].
    rewrite Er. cbn [mbind outcome_bind]. exists (prp_list_buf s - hhdm_offset), w'. split; [done|]. split; [done|].
    split; [intros x Hx; apply Ho; unfold inside in *; lia|]. split; [lia|]. split; [lia|].
    intros _ _ _ _. split; [done|]. split; [lia|]. intros _. split; [lia|]. split; [done|]. intros i Hi.
    replace (prp_list_buf s - hhdm_offset + hhdm_offset) with (prp_list_buf s) by lia. apply Hj. lia.
Qed.

(** ** Any number of commands *)

(** The memory that the driver shares with the controller besides the buffer. *)
Definition private s (x : Z) : Prop :=
  inside (q_sq (n_io s)) (64 * 256) x \/ inside (q_cq (n_io s)) (16 * 256) x \/ inside (prp_list_buf s) 4096 x.

Definition same_places s s' : Prop :=
  q_sq (n_io s') = q_sq (n_io s) /\ q_cq (n_io s') = q_cq (n_io s) /\ prp_list_buf s' = prp_list_buf s.

(** The driver is ready for a transfer. *)
Definition io_ready s w : Prop :=
  ring (n_io s) w /\ 0 <= hhdm_offset /\ hhdm_offset mod 4096 = 0 /\ page_address (prp_list_buf s) /\ 0 <= command_id s < 65536 /\
  apart (prp_list_buf s) 4096 (q_sq (n_io s)) (64 * 256) /\ apart (prp_list_buf s) 4096 (q_cq (n_io s)) (16 * 256).

(** A buffer of [total] bytes for a transfer. *)
Definition buffer_ok s (buf total : Z) : Prop :=
  page_address buf /\ buf + total + 4096 <= 2 ^ 64 /\ apart buf total (q_sq (n_io s)) (64 * 256) /\
  apart buf total (q_cq (n_io s)) (16 * 256) /\ apart buf total (prp_list_buf s) 4096.

Lemma cdw0_ok op id : op = NVME_CMD_READ \/ op = NVME_CMD_WRITE -> 0 <= id < 65536 ->
  0 <= Z.lor op (Z.shiftl id 16) < 2 ^ 32 /\ Z.land (Z.lor op (Z.shiftl id 16)) 0xFF = op.
Proof.
  intros Hop Hid. assert (0 <= op < 256) as Ho by (destruct Hop as [->| ->]; done).
  assert (Z.lor op (Z.shiftl id 16) = op + id * 65536) as ->.
  { rewrite Z.shiftl_mul_pow2 by lia. change 65536 with (2 ^ 16). symmetry.
    rewrite <- Z.shiftl_mul_pow2 by lia. rewrite Z.add_nocarry_lxor; [apply Z.lxor_lor|]; apply Z.bits_inj'; intros i Hi;
      rewrite Z.land_spec, Z.bits_0; (destruct (Z.ltb_spec i 16); [by rewrite (Z.shiftl_spec_low id) by lia; apply andb_false_r|]);
      replace op with (op mod 2 ^ 16) by (apply Z.mod_small; lia); by rewrite Z.mod_pow2_bits_high by lia. }
  change (2 ^ 32) with 4294967296. split; [lia|]. change 0xFF with (Z.ones 8). rewrite Z.land_ones by lia. change (2 ^ 8) with 256.
  Z.to_euclidean_division_equations. lia.
Qed.

Lemma lba_ok lba : 0 <= lba < 2 ^ 64 ->
  0 <= Z.land lba 0xFFFFFFFF < 2 ^ 32 /\ 0 <= u32 (Z.shiftr lba 32) < 2 ^ 32 /\ Z.land lba 0xFFFFFFFF + 2 ^ 32 * u32 (Z.shiftr lba 32) = lba.
Proof.
  intros Hl. change 0xFFFFFFFF with (Z.ones 32). rewrite Z.land_ones, Z.shiftr_div_pow2 by lia.
  change (2 ^ 64) with 18446744073709551616 in Hl. change (2 ^ 32) with 4294967296.
  rewrite u32_id by (Z.to_euclidean_division_equations; lia). Z.to_euclidean_division_equations. lia.
Qed.

Lemma count_ok n : 0 < n <= 256 -> 0 <= Z.land (n - 1) 0xFFFF < 2 ^ 32 /\ Z.land (Z.land (n - 1) 0xFFFF) 0xFFFF + 1 = n.
Proof.
  intros Hn. change 0xFFFF with (Z.ones 16). rewrite !Z.land_ones by lia. change (2 ^ 16) with 65536. change (2 ^ 32) with 4294967296.
  Z.to_euclidean_division_equations. lia.
Qed.

Section Namespace.
Context (op : Z) (ns : nvme_namespace).
#[local] Abbreviation id := (ns_nsid ns).
#[local] Abbreviation bs := (ns_block_size ns).
Hypothesis op_ok : op = NVME_CMD_READ \/ op = NVME_CMD_WRITE.
Hypothesis id_ok : 0 <= id < 2 ^ 32.
Hypothesis bs_ok : 0 < bs <= 8192.

Lemma rw_command_ok lba n buf s w : io_ready s w -> buffer_ok s buf (n * bs) -> c_bs (ct w) id = bs ->
  0 <= lba -> 0 < n <= 256 -> lba + n < 2 ^ 64 -> (lba + n) * bs <= len (c_disk (ct w) id) ->
  runs_to (rw_command op ns lba n buf s w) (fun '(r, s', w') =>
    (io_ready s' w' \/ (r = -1 /\ late w')) /\ same_places s s' /\ c_bs (ct w') = c_bs (ct w) /\
    moved (faulty \/ late w') (private s) (op =? NVME_CMD_READ) id (lba * bs) (n * bs) buf (mem w) (mem w') (c_disk (ct w)) (c_disk (ct w')) r).
Proof.
  intros (Hr & H0 & Hh & Hl & Hid & Ha1 & Ha2) (Hb & Hlim & Hb1 & Hb2 & Hb3) Ebs Hlba Hn Hlim2 Hfit. unfold rw_command.
  pose proof Hr as (_ & _ & Esq & Ecq & _ & _ & _ & _ & _ & _ & Hpend & _).
  set (s1 := mknvme _ _ _ _ _). set (cmd := mkcmd _ _ 0 0 _ _ _).
  destruct (nvme_setup_prp_ok cmd buf n bs s1 w Hpend H0 Hh Hb Hl Hn bs_ok Hlim) as (p2 & w1 & Ep & Ec1 & Ho1 & Hp2 & Hlist & Hcon).
  rewrite Ep. cbn [mbind outcome_bind]. change (prp_list_buf s1) with (prp_list_buf s) in *. change (n_io s1) with (n_io s) in *.
  unfold cmd in *. cbn [cdw0 nsid cdw10 cdw11 cdw12] in *. clear cmd Ep.
  destruct (cdw0_ok op (command_id s) op_ok Hid) as [Hc0 Eop].
  destruct (lba_ok lba) as (Hc10 & Hc11 & Elba); [lia|]. destruct (count_ok n Hn) as [Hc12 En].
  set (cmd := mkcmd _ _ _ _ _ _ _). destruct Hb as [Hb Ab]. change (2 ^ 64) with 18446744073709551616 in *.
  assert (cmd_ok cmd) as Hcmd by (unfold cmd_ok, cmd; cbn [cdw0 nsid prp1 prp2 cdw10 cdw11 cdw12]; change (2 ^ 64) with 18446744073709551616; split_and!; lia).
  pose proof (parse_cmd cmd Hcmd) as Epar. unfold cmd in Epar at 2 3 4 5 6 7 8. cbn [cdw0 nsid prp1 prp2 cdw10 cdw11 cdw12] in Epar.
  rewrite Eop, Elba, En in Epar.
  assert (io_base (mkio op id (buf - hhdm_offset) p2 lba n) = buf) as Ebase by (unfold io_base; cbn [io_prp1]; lia).
  assert (forall x, inside (q_cq (n_io s)) (16 * NVME_IO_QUEUE_SIZE) x -> mem w1 x = mem w x) as Hcq1.
  { intros x Hx. apply Ho1. unfold apart, inside, NVME_IO_QUEUE_SIZE in *. lia. }
  assert (ring (n_io s) w1) as Hr1.
  { destruct Hr as (? & ? & ? & ? & ? & ? & ? & ? & ? & ? & ? & ? & Ht). unfold ring. rewrite Ec1. split_and!; try done; try lia.
    eapply tags_ext; [|exact Ht]. rewrite <- Ecq. exact Hcq1. }
  destruct (nvme_submit_ok cmd (n_io s) w1 Hr1 Hcmd) as (q' & w' & m & r & Es & Eq1 & Eq2 & Ebs' & Hm & Hcase).
  { rewrite Epar, Ec1. unfold valid. cbn [io_op io_nsid io_lba io_n]. unfold io_total. cbn [io_n]. rewrite Ebs, Ebase.
    destruct Hr as (_ & _ & _ & _ & _ & _ & _ & _ & ? & ? & _). rewrite <- Ecq.
    split; [done|]. split; [lia|]. split; [apply Hcon|]. by split. }
  { rewrite Epar, Ec1. cbn [io_nsid]. unfold io_total. cbn [io_n]. rewrite Ebs. unfold placed. rewrite Ebase. cbn [io_prp2].
    split; [done|]. intros Hpg. by rewrite Hlist. }
  unfold nvme_submit_and_wait. change (n_io s1) with (n_io s). rewrite Es. cbn [runs_to]. rewrite Epar, Ec1 in *.
  split; [|split; [done|split; [done|]]].
  { destruct Hcase as [(sc & -> & Hr' & _)|(-> & Hl' & _)]; [left|by right].
    unfold io_ready. cbn [with_io n_io prp_list_buf command_id s1]. rewrite Eq1, Eq2. split_and!; try done; apply u16_range. }
  destruct Hcase as [(sc & -> & _ & Hf)|(-> & Hl' & Edk & Hu)].
  2:{ split; [by right; split; [right|]|]. rewrite Edk. split; [|by split]. intros x Hx Hd. unfold private in Hx. rewrite Z.eqb_eq in Hd.
      unfold untouched, io_total in Hu. cbn [io_op io_nsid io_n] in Hu. rewrite Ebs, Ebase in Hu. rewrite (Hu x Hd), Hm by tauto. apply Ho1. tauto. }
  { destruct Hf as (Hsc & Hfa & Hst & Hfr & Hrd & Hwr). cbn [io_op io_nsid io_lba] in *. unfold io_total in *. cbn [io_n] in *.
    rewrite Ebs, Ebase in *. unfold moved, result. split; [|split; [|split]].
    + destruct (Z.eqb_spec sc 0) as [->|]; [by left|right]. destruct Hfa; [done|by split; [left|]].
    + intros x Hx Hd. unfold private in Hx. rewrite Z.eqb_eq in Hd. rewrite Hfr; [|rewrite <- Ecq; destruct Hr as (_ & _ & _ & _ & _ & _ & _ & _ & Ht & _); unfold inside in *; lia|done].
      rewrite Hm by tauto. apply Ho1. tauto.
    + intros E%Z.eqb_eq. destruct (Hrd E) as [Edk Hd]. split; [done|]. intros Er. apply Hd. by destruct (Z.eqb_spec sc 0).
    + intros E%Z.eqb_neq. destruct (Hwr ltac:(by destruct op_ok)) as [Hln Hd]. split; [done|]. intros Er k. rewrite Hd by (by destruct (Z.eqb_spec sc 0)).
      rewrite (mread_ext (mem w) m); [done|]. intros x Hx. rewrite Hm, Ho1; [done| |]; unfold apart, inside in *; lia. }
Qed.

Lemma private_same s s' x : same_places s s' -> private s' x <-> private s x.
Proof. intros (E1 & E2 & E3). unfold private. by rewrite E1, E2, E3. Qed.

Lemma nvme_rw_loop_ok fuel : bs mod 16 = 0 -> forall lba count buf s w, io_ready s w -> buffer_ok s buf (count * bs) -> c_bs (ct w) id = bs ->
  0 <= lba -> 0 <= count < Z.of_nat fuel -> lba + count < 2 ^ 64 -> (lba + count) * bs <= len (c_disk (ct w) id) ->
  runs_to (nvme_rw_loop fuel op ns lba count buf s w) (fun '(r, s', w') =>
    (io_ready s' w' \/ (r = -1 /\ late w')) /\ same_places s s' /\ c_bs (ct w') = c_bs (ct w) /\
    moved (faulty \/ late w') (private s) (op =? NVME_CMD_READ) id (lba * bs) (count * bs) buf (mem w) (mem w') (c_disk (ct w)) (c_disk (ct w')) r).
Proof.
  intros H16. induction fuel as [|fuel IH]; intros lba count buf s w Hr Hb Ebs Hl Hc Hlim Hfit; [lia|]. cbn [nvme_rw_loop].
  destruct (Z.ltb_spec 0 count) as [Hpos|Hz]; cbn [negb].
  2:{ assert (count = 0) as -> by lia. cbn [runs_to]. split; [by left|]. split; [done|]. split; [done|]. apply moved_nil. }
  set (n := if 256 <? count then 256 else count).
  assert (0 < n <= 256 /\ n <= count /\ (n = 256 \/ n = count)) as (Hn & Hnc & Hlast) by (unfold n; destruct (Z.ltb_spec 256 count); lia). clearbody n.
  assert (count * bs = n * bs + (count - n) * bs) as Esum by lia.
  assert (0 <= n * bs) as Hn0 by (apply Z.mul_nonneg_nonneg; lia).
  assert (0 <= (count - n) * bs) as Hr0 by (apply Z.mul_nonneg_nonneg; lia).
  pose proof Hb as (((Hb1 & Hb1') & Hb2) & Hb3 & Hb4 & Hb5 & Hb6).
  eapply runs_to_bind; [apply (rw_command_ok lba n buf s w); try done; try lia|].
  { split; [done|]. unfold apart in *. split_and!; lia. }
  intros [[r s1] w1] (Hr1 & Hs1 & Ebs1 & Hm1). destruct (Z.ltb_spec r 0) as [Hneg|Hok].
  { cbn [runs_to]. split; [tauto|]. split; [done|]. split; [done|]. eapply moved_failed; [|apply Z.le_trans with (count * bs); [|done]|exact Hm1]; lia. }
  assert (r = 0) as -> by (destruct Hm1 as ([?|[_ ?]] & _); lia). destruct Hr1 as [Hr1|[? _]]; [|lia].
  assert (len (c_disk (ct w1) id) = len (c_disk (ct w) id)) as Elen.
  { by eapply moved_len. }
  change (2 ^ 64) with 18446744073709551616 in *. pose proof Hr as (_ & H0 & _).
  rewrite (u64_id (lba + n)), (u64_id (buf + n * bs)) by lia. destruct Hs1 as (E1 & E2 & E3).
  destruct (Z.eq_dec n count) as [Ec|Hne].
  - subst n. replace (count - count) with 0 by lia. destruct fuel as [|fuel]; [lia|]. cbn [nvme_rw_loop]. cbn [Z.ltb Z.compare negb runs_to].
    split; [by left|]. split; [by split_and!|]. done.
  - assert ((buf + n * bs) mod 4096 = 0) as Hal.
    { assert (n = 256) as -> by lia. replace bs with (16 * (bs / 16)) by (pose proof (Z.div_mod bs 16); lia).
      replace (buf + 256 * (16 * (bs / 16))) with (buf + bs / 16 * 4096) by lia. by rewrite Z.mod_add by lia. }
    eapply runs_to_mono; [apply IH; try done; try lia|].
    + unfold buffer_ok, page_address. rewrite E1, E2, E3. change (2 ^ 64) with 18446744073709551616. unfold apart in *. split_and!; lia.
    + by rewrite Ebs1.
    + intros [[r s2] w2] (Hr2 & Hs2 & Ebs2 & Hm2). split; [done|]. destruct Hs2 as (E4 & E5 & E6).
      split; [unfold same_places; by rewrite E4, E5, E6|]. split; [by rewrite Ebs2|]. rewrite Esum.
      eapply moved_app; [lia|lia|lia| | |eapply moved_why; [|exact Hm1]; done|].
      * rewrite <- Z.add_assoc, <- Esum. lia.
      * intros x Hx. unfold private, apart, inside in *. lia.
      * eapply moved_ext; [intros x; apply private_same; by split_and!|]. by replace (lba * bs + n * bs) with ((lba + n) * bs) by lia.
Qed.
End Namespace.

(** ** Theorems *)

(** The namespace that a block device of the driver stands for. *)
Definition namespace_ok (ns : nvme_namespace) w : Prop :=
  0 <= ns_nsid ns < 2 ^ 32 /\ 512 <= ns_block_size ns <= 8192 /\ ns_block_size ns mod 16 = 0 /\
  c_bs (ct w) (ns_nsid ns) = ns_block_size ns /\ ns_block_count ns * ns_block_size ns <= len (c_disk (ct w) (ns_nsid ns)).

Lemma nvme_rw_ok op ns lba count buf s w : op = NVME_CMD_READ \/ op = NVME_CMD_WRITE ->
  io_ready s w -> namespace_ok ns w -> 0 <= lba -> 0 <= count -> lba + count < 2 ^ 64 ->
  buffer_ok s buf (count * ns_block_size ns) ->
  runs_to (nvme_rw op ns lba count buf s w) (fun '(r, s', w') =>
    if ns_block_count ns <? lba + count then r = -1 /\ s' = s /\ w' = w else
    (io_ready s' w' \/ (r = -1 /\ late w')) /\ same_places s s' /\ namespace_ok ns w' /\
    moved (faulty \/ late w') (private s) (op =? NVME_CMD_READ) (ns_nsid ns) (lba * ns_block_size ns) (count * ns_block_size ns) buf (mem w) (mem w') (c_disk (ct w)) (c_disk (ct w')) r).
Proof.
  intros Hop Hr (Hid & Hbs & H16 & Ebs & Hlen) Hl Hc Hlim Hb. unfold nvme_rw. rewrite u64_id by lia.
  destruct (Z.ltb_spec (ns_block_count ns) (lba + count)) as [|Hin]; [done|].
  assert (Z.land buf 0xFFF = 0) as ->.
  { change 0xFFF with (Z.ones 12). rewrite Z.land_ones by lia. destruct Hb as ((_ & Hb) & _). exact Hb. }
  cbn [Z.eqb negb]. eapply runs_to_mono; [apply nvme_rw_loop_ok; try done; try lia|].
  { eapply Z.le_trans; [|exact Hlen]. apply Z.mul_le_mono_nonneg_r; lia. }
  intros [[r s'] w'] (Hr' & Hs & Ebs' & Hm). split; [done|]. split; [done|]. split; [|done].
  unfold namespace_ok. rewrite Ebs'. split_and!; try done; try lia.
  by rewrite (moved_len _ _ _ _ _ _ _ _ _ _ _ _ _ Hm).
Qed.

(** The bytes of [count] blocks of a namespace. *)
Definition ns_blocks (ns : nvme_namespace) (lba count : Z) w : list Z :=
  slice (c_disk (ct w) (ns_nsid ns)) (lba * ns_block_size ns) (count * ns_block_size ns).


(** C19. Writing an NVMe disk, with the I/O queues set up, to a namespace with blocks of
    512 to 8192 bytes, from a page-aligned buffer apart from the queues and the list of
    pages.  nvme_write_blocks ends; if it returns 0 it has stored exactly the
    bytes of the buffer in the blocks of its namespace, and changed no other byte of any
    namespace and not the buffer, and reading the blocks into any second such buffer ends
    and, if it returns 0, has delivered these bytes.  Both return 0 on a controller whose
    commands do not fail and are completed in fewer than 10000 polls. *)
Theorem nvme_write_read_back ns lba count buf buf' s w :
  io_ready s w -> namespace_ok ns w -> 0 <= lba -> 0 <= count -> lba + count <= ns_block_count ns < 2 ^ 64 ->
  buffer_ok s buf (count * ns_block_size ns) -> buffer_ok s buf' (count * ns_block_size ns) ->
  runs_to (nvme_write_blocks ns lba count buf s w) (fun '(r1, s1, w1) =>
    (~ faulty -> prompt -> r1 = 0) /\
    (r1 = 0 ->
      (forall id, c_disk (ct w1) id =
        if id =? ns_nsid ns then splice (c_disk (ct w) id) (lba * ns_block_size ns) (mread (mem w) buf (count * ns_block_size ns))
        else c_disk (ct w) id) /\
      mread (mem w1) buf (count * ns_block_size ns) = mread (mem w) buf (count * ns_block_size ns) /\
      runs_to (nvme_read_blocks ns lba count buf' s1 w1) (fun '(r2, s2, w2) =>
        (~ faulty -> prompt -> r2 = 0) /\
        (r2 = 0 -> mread (mem w2) buf' (count * ns_block_size ns) = mread (mem w) buf (count * ns_block_size ns))))).
Proof.
  intros Hr Hn Hl Hc [Hin Hlim] Hb Hb'. set (total := count * ns_block_size ns) in *.
  pose proof Hn as (_ & Hbs & _ & _ & Hlen). assert (0 <= total) as Ht by (apply Z.mul_nonneg_nonneg; lia).
  assert (0 <= lba * ns_block_size ns) as Hp by (apply Z.mul_nonneg_nonneg; lia).
  assert (lba * ns_block_size ns + total <= len (c_disk (ct w) (ns_nsid ns))) as Hfit.
  { unfold total. rewrite <- Z.mul_add_distr_r. etrans; [|exact Hlen]. apply Z.mul_le_mono_nonneg_r; lia. }
  assert (lba + count < 2 ^ 64) as Hlim2 by lia.
  assert (forall r w', r = 0 \/ (faulty \/ late w') /\ r = -1 -> ~ faulty -> prompt -> r = 0) as Hgood by (unfold late; tauto).
  eapply runs_to_mono; [exact (nvme_rw_ok NVME_CMD_WRITE ns lba count buf s w ltac:(by right) Hr Hn Hl Hc Hlim2 Hb)|]. fold total.
  intros [[r1 s1] w1]. destruct (Z.ltb_spec (ns_block_count ns) (lba + count)); [lia|].
  intros (Hr1 & (P1 & P2 & P3) & Hn1 & Ho1 & Hf1 & _ & Hd1). split; [by eapply Hgood|]. intros ->.
  destruct Hr1 as [Hr1|[? _]]; [|lia]. destruct (Hd1 eq_refl) as [_ Ed1]. specialize (Ed1 eq_refl). split; [done|].
  split; [apply mread_ext; intros x Hx; apply Hf1; [|done]; destruct Hb as (_ & _ & A1 & A2 & A3); unfold private, apart, inside in *; lia|].
  assert (buffer_ok s1 buf' total) as Hb1 by (unfold buffer_ok; by rewrite P1, P2, P3).
  eapply runs_to_mono; [exact (nvme_rw_ok NVME_CMD_READ ns lba count buf' s1 w1 ltac:(by left) Hr1 Hn1 Hl Hc Hlim2 Hb1)|]. fold total.
  intros [[r2 s2] w2]. destruct (Z.ltb_spec (ns_block_count ns) (lba + count)); [lia|].
  intros (_ & _ & _ & Ho2 & _ & Hd2 & _). split; [by eapply Hgood|]. intros ->. destruct (Hd2 eq_refl) as [_ Ed2].
  rewrite (Ed2 eq_refl), Ed1, Z.eqb_refl. rewrite <- (mread_len (mem w) buf total Ht) at 2. apply slice_splice_eq; [done|].
  by rewrite mread_len.
Qed.
End Driver.

(** ** What is refused, and what is not *)

Section Limits.
Context {W : Type} {N : DmaHost W}.

(** A buffer that is not on a page boundary is refused; kmalloc, from which the file
    systems take their buffers, returns no such address: its header is there. *)
Lemma nvme_unaligned op ns lba count buf (s : nvme) (w : W) : buf mod 4096 <> 0 -> nvme_rw op ns lba count buf s w = Ret (-1, s, w).
Proof.
  intros Hb. unfold nvme_rw. destruct (_ <? _); [done|]. change 0xFFF with (Z.ones 12). rewrite Z.land_ones by lia.
  change (2 ^ 12) with 4096. by destruct (Z.eqb_spec (buf mod 4096) 0).
Qed.

Lemma prp_loop_overrun phys lb n : forall i (w : W), 1 <= i <= 513 -> 513 < i + Z.of_nat n -> prp_loop n i phys lb w = Fault OutOfBounds.
Proof.
  induction n as [|n IH]; intros i w Hi Hn; [lia|]. cbn [prp_loop]. destruct (Z.leb_spec i 512); [apply IH; lia|done].
Qed.

(** With blocks of 16 KiB and more a command of 256 blocks has more pages than the page
    of the list has entries. *)
Theorem prp_list_overruns op ns lba count buf (s : nvme) (w : W) :
  16384 <= ns_block_size ns < 2 ^ 32 -> 0 <= lba -> 256 <= count -> lba + count <= ns_block_count ns < 2 ^ 64 -> buf mod 4096 = 0 ->
  nvme_rw op ns lba count buf s w = Fault OutOfBounds.
Proof.
  intros Hs Hl Hc Hin Hb. unfold nvme_rw. change (2 ^ 32) with 4294967296 in *. change (2 ^ 64) with 18446744073709551616 in *.
  rewrite u64_id by lia. destruct (Z.ltb_spec (ns_block_count ns) (lba + count)); [lia|].
  change 0xFFF with (Z.ones 12). rewrite Z.land_ones by lia. change (2 ^ 12) with 4096. rewrite Hb. cbn [Z.eqb negb].
  cbn [nvme_rw_loop]. destruct (Z.ltb_spec 0 count); [|lia]. cbn [negb].
  replace (if 256 <? count then 256 else count) with 256 by (destruct (Z.ltb_spec 256 count); lia).
  unfold rw_command, nvme_setup_prp. rewrite (u64_id (256 * _)), (u64_id (256 * _ + 4095)) by lia.
  assert (1024 <= (256 * ns_block_size ns + 4095) / 4096) as Hp by (apply Z.div_le_lower_bound; lia).
  destruct (Z.leb_spec ((256 * ns_block_size ns + 4095) / 4096) 1); [lia|]. destruct (Z.eqb_spec ((256 * ns_block_size ns + 4095) / 4096) 2); [lia|].
  by rewrite prp_loop_overrun by lia.
Qed.
End Limits.

(** ** A controller

    Three polls per command; one namespace, number 1, of eight blocks of 512 bytes. *)
Module Demo.
Record world := mkworld { w_mem : Z -> Z; w_ctl : ctl }.

(** The command is executed and its completion posted. *)
Definition execute (cmd : list Z) (hhdm : Z) (w : world) : world :=
  let c := parse cmd in let k := w_ctl w in
  let bs := c_bs k (io_nsid c) in
  let base := io_prp1 c + hhdm in
  let pos := io_lba c * bs in
  let m := if io_op c =? NVME_CMD_READ then mwrite (w_mem w) base (slice (c_disk k (io_nsid c)) pos (io_n c * bs)) else w_mem w in
  let disk id := if (io_op c =? NVME_CMD_WRITE) && (id =? io_nsid c) then splice (c_disk k id) pos (mread (w_mem w) base (io_n c * bs)) else c_disk k id in
  mkworld (mwrite m (c_cq k + 16 * c_cq_tail k + CQE_STATUS) (le_bytes 2 (c_tag k)))
    (posted k (if io_op c =? NVME_CMD_READ then c_disk k else disk)).

Definition hhdm : Z := 0xFFFF800000000000.

Definition load (a n : Z) (w : world) : list Z * world :=
  match c_pending (w_ctl w) with
  | Some (cmd, S k) => (mread (w_mem w) a n, mkworld (w_mem w) (with_pending (w_ctl w) (c_sq_head (w_ctl w)) (Some (cmd, k))))
  | Some (cmd, O) => let w' := execute cmd hhdm w in (mread (w_mem w') a n, w')
  | None => (mread (w_mem w) a n, w)
  end.

Definition ring_sq (v : Z) (w : world) : world :=
  let k := w_ctl w in mkworld (w_mem w) (with_pending k v (Some (mread (w_mem w) (c_sq k + 64 * c_sq_head k) 64, 2%nat))).

#[export] Instance demo_controller : DmaHost world := {
  dma_load := load;
  dma_store a bs w := mkworld (mwrite (w_mem w) a bs) (w_ctl w);
  mmio_read32 _ w := (0, w);
  mmio_read64 _ w := (0, w);
  mmio_write32 r v w := if r =? R_DOORBELLS + 8 then ring_sq v w else w;
  mmio_write64 _ _ w := w;
  port_outl _ _ w := w;
  port_inl _ w := (0xFFFFFFFF, w);
  dma_kmalloc _ w := (None, w);
  dma_kfree _ w := w;
  hhdm_offset := hhdm;
}.

Lemma execute_finished cmd w : valid (w_mem w) (w_ctl w) (parse cmd) ->
  let w' := execute cmd hhdm w in
  exists disk, finished False (w_mem w) (w_mem w') (w_ctl w) (parse cmd) disk 0 /\ w_ctl w' = posted (w_ctl w) disk.
Proof.
  intros (Hop & (Hl & Hn & Hbs & Hfit) & _ & Ha & Ht & Hg). cbv zeta. eexists. split; [|done].
  unfold execute. cbn [w_mem]. set (c := parse cmd) in *. set (k := w_ctl w) in *. set (bs := c_bs k (io_nsid c)) in *.
  change (io_prp1 c + hhdm) with (io_base c). unfold io_total, NVME_IO_QUEUE_SIZE in *. fold bs. set (total := io_n c * bs) in *.
  assert (0 < total) as H0 by (apply Z.mul_pos_pos; lia). assert (0 <= io_lba c * bs) as Hp by (apply Z.mul_nonneg_nonneg; lia).
  assert (io_lba c * bs + total <= len (c_disk k (io_nsid c))) as Hfit' by (unfold total; lia).
  assert (len (slice (c_disk k (io_nsid c)) (io_lba c * bs) total) = total) as Es by (apply len_slice; lia).
  split; [lia|]. split; [by left|]. split; [|split; [|split]].
  - change 2 with (len (le_bytes 2 (c_tag k))) at 1. rewrite mread_write, le_value_bytes. rewrite Z.mod_small; [lia|].
    change (256 ^ Z.of_nat 2) with 65536. lia.
  - intros x Hx Hd. rewrite mwrite_out by (change (len (le_bytes 2 _)) with 2; unfold inside, CQE_STATUS in *; lia).
    destruct (Z.eqb_spec (io_op c) NVME_CMD_READ) as [E|]; [|done]. apply mwrite_out. rewrite Es. unfold total. by apply Hd.
  - intros E. rewrite E. cbn [Z.eqb Pos.eqb]. change (NVME_CMD_READ =? NVME_CMD_READ) with true. cbv iota. split; [done|]. intros _.
    pose proof (mread_write (w_mem w) (io_base c) (slice (c_disk k (io_nsid c)) (io_lba c * bs) total)) as Hw. rewrite Es in Hw.
    etransitivity; [|exact Hw]. apply mread_ext. intros x Hx. change (io_total c _) with total in Hx. apply mwrite_out.
    change (len (le_bytes 2 _)) with 2. unfold inside, apart, CQE_STATUS in *. lia.
  - intros E. rewrite E. change (NVME_CMD_WRITE =? NVME_CMD_READ) with false. change (NVME_CMD_WRITE =? NVME_CMD_WRITE) with true. cbn [andb].
    split; [|done]. intros n. destruct (Z.eqb_spec n (io_nsid c)) as [->|]; [|done]. apply len_splice; [done|]. rewrite mread_len by lia. done.
Qed.

#[export, refine] Instance demo_controller_ok : NvmeOk False := {
  nv_mem := w_mem;
  nv_ctl := w_ctl;
  nv_dstrd := 0;
}.
Proof.
  - lia.
  - intros w. by exists 0, w.
  - cbv zeta. intros w v Hp ->. split; [done|]. by exists 2%nat.
  - cbv zeta. intros w v Hp. done.
  - intros w a bs Hp Hb. done.
  - intros w a n cmd k Hp Hv. cbn [dma_load demo_controller]. unfold load. rewrite Hp. exists (mkworld (w_mem w) (with_pending (w_ctl w) (c_sq_head (w_ctl w)) (Some (cmd, k)))). done.
  - intros w a n cmd Hp Hv. cbn [dma_load demo_controller]. unfold load. rewrite Hp. cbv zeta.
    destruct (execute_finished cmd w Hv) as (disk & Hf & Ec). exists (execute cmd hhdm w), disk, 0. done.
Defined.

(** The driver after nvme_init, the disk with a byte per block that counts them. *)
Definition place (i : Z) : Z := hhdm + 65536 * i.
Definition disk1 : list Z := concat (map (fun i => replicate 512 (Z.of_nat i)) (seq 0 8)).
Definition w0 : world :=
  mkworld (fun x => if x <? place 4 then 0 else 7)
    (mkctl (place 1) (place 2) 0 0 1 None (fun id => if id =? 1 then disk1 else []) (fun _ => 512)).
Definition s0 : nvme :=
  mknvme (hhdm + 0xFEBF0000) (mkq 0 64 0 0 0 0 1) (mkq 1 256 (place 1) (place 2) 0 0 1) 0 (place 3).
Definition ns1 : nvme_namespace := mkns 1 8 512.

Lemma place_page i : 0 <= i < 1000 -> page_address (place i).
Proof.
  intros Hi. unfold page_address, place. cbn [hhdm_offset demo_controller]. split; [unfold hhdm; change (2 ^ 64) with 18446744073709551616; lia|].
  replace (65536 * i) with (16 * i * 4096) by lia. rewrite Z.mod_add by lia. reflexivity.
Qed.

Lemma s0_tags : tags (w_mem w0) (w_ctl w0).
Proof.
  intros i Hi. unfold mread, CQE_STATUS, NVME_IO_QUEUE_SIZE, place in *. change (seq 0 (Z.to_nat 2)) with [0; 1]%nat.
  cbn [map w0 w_mem w_ctl c_cq c_cq_tail c_tag]. unfold place.
  destruct (Z.ltb_spec (hhdm + 65536 * 2 + 16 * i + 14 + Z.of_nat 0) (hhdm + 65536 * 4)); [|lia].
  destruct (Z.ltb_spec (hhdm + 65536 * 2 + 16 * i + 14 + Z.of_nat 1) (hhdm + 65536 * 4)); [|lia].
  destruct (Z.ltb_spec i 0); [lia|reflexivity].
Qed.

Lemma s0_ready : io_ready (faulty:=False) s0 w0.
Proof.
  split; [|split; [discriminate|split; [reflexivity|split; [apply place_page; lia|split; [cbn; lia|]]]]].
  - repeat (split; [reflexivity|]). do 2 (split; [cbn; lia|]). split; [by right|]. split; [reflexivity|].
    split; [cbn [nv_ctl demo_controller_ok w0 w_ctl c_sq c_cq]; unfold apart, place; lia|exact s0_tags].
  - cbn [s0 n_io q_sq q_cq prp_list_buf]. unfold apart, place. lia.
Qed.

Lemma ns1_ok : namespace_ok (faulty:=False) ns1 w0.
Proof. split; [cbn; lia|]. split; [cbn; lia|]. split; [reflexivity|]. split; [reflexivity|]. vm_compute. discriminate. Qed.

Lemma buffer_demo i total : 4 <= i < 1000 -> 0 <= total <= 65536 -> buffer_ok s0 (place i) total.
Proof.
  intros Hi Ht. split; [apply place_page; lia|]. split; [unfold place, hhdm; change (2 ^ 64) with 18446744073709551616; lia|].
  cbn [s0 n_io q_sq q_cq prp_list_buf]. unfold apart, place. lia.
Qed.

Lemma demo_prompt : prompt (faulty:=False).
Proof.
  intros w v cmd k Hnone. cbn [mmio_write32 demo_controller nv_ctl demo_controller_ok nv_dstrd]. change (2 * 2 ^ 0) with 2.
  rewrite Z.eqb_refl. cbn. by intros [= _ <-].
Qed.


(** A block of sevens is written and read back. *)
Lemma nvme_write_read_back_witness :
  exists s1 w1 s2 w2, nvme_write_blocks ns1 3 1 (place 4) s0 w0 = Ret (0, s1, w1) /\
    nvme_read_blocks ns1 3 1 (place 5) s1 w1 = Ret (0, s2, w2) /\ mread (nv_mem (faulty:=False) w2) (place 5) 512 = replicate 512 7.
Proof.
  pose proof (nvme_write_read_back (faulty:=False) ns1 3 1 (place 4) (place 5) s0 w0 s0_ready ns1_ok ltac:(lia) ltac:(lia) ltac:(done)
    (buffer_demo 4 512 ltac:(lia) ltac:(lia)) (buffer_demo 5 512 ltac:(lia) ltac:(lia))) as H.
  apply runs_to_inv in H as ([[r1 s1] w1] & E1 & H1 & H). specialize (H1 ltac:(tauto) demo_prompt). subst r1.
  destruct (H eq_refl) as (_ & _ & H'). apply runs_to_inv in H' as ([[r2 s2] w2] & E2 & H2 & Hd).
  specialize (H2 ltac:(tauto) demo_prompt). subst r2. specialize (Hd eq_refl).
  exists s1, w1, s2, w2. split; [exact E1|]. split; [exact E2|]. change (1 * ns_block_size ns1) with 512 in Hd. rewrite Hd. vm_compute. reflexivity.
Defined.
End Demo.
