(* ===== verification/Ahci.v ===== *)
(** * AHCI disks

    core/drivers/ahci.c: the search on the PCI buses, setting up the ports of the
    controller, identification of the disks, and reading and writing in commands of at
    most 128 sectors.  The machine is the class [DmaHost] of [Nvme]; registers are
    offsets from abar, ports the offsets of their registers.  Command headers and
    tables are bytes in memory, bit-fields of them are changed in place.  What the
    AHCI specification says of a port is the class [AhciOk].

    [ahci_read_refines] and [ahci_write_read_back]: transfers of any length move exactly
    the sectors that were asked for or report an error; [ahci_list_from_kmalloc] and
    [ahci_rebase_no_memory]: where the command list of a port lies. *)

From stdpp Require Import strings.
From S2P Require Import Prelude Vfs Bytes BlockDev Kstd Text Nvme.

#[local] Open Scope Z_scope.

Definition AHCI_MAX_PORTS : Z := 32.
Definition AHCI_SECTOR_SIZE : Z := 512.
Definition AHCI_CMD_SLOTS : Z := 32.
Definition AHCI_MAX_DEVICES : Z := 8.
Definition AHCI_SIG_ATAPI : Z := 0xEB140101.
Definition AHCI_SIG_SEMB : Z := 0xC33C0101.
Definition AHCI_SIG_PM : Z := 0x96690101.
Definition AHCI_DEV_NULL : Z := 0.
Definition AHCI_DEV_SATA : Z := 1.
Definition AHCI_DEV_SATAPI : Z := 2.
Definition AHCI_DEV_SEMB : Z := 3.
Definition AHCI_DEV_PM : Z := 4.
Definition HBA_PORT_IPM_ACTIVE : Z := 1.
Definition HBA_PORT_DET_PRESENT : Z := 3.
Definition HBA_PxCMD_ST : Z := 0x0001.
Definition HBA_PxCMD_FRE : Z := 0x0010.
Definition HBA_PxCMD_FR : Z := 0x4000.
Definition HBA_PxCMD_CR : Z := 0x8000.
Definition HBA_PxIS_TFES : Z := Z.shiftl 1 30.
Definition HBA_GHC_AE : Z := Z.shiftl 1 31.
Definition ATA_CMD_READ_DMA_EX : Z := 0x25.
Definition ATA_CMD_WRITE_DMA_EX : Z := 0x35.
Definition AHCI_CMD_IDENTIFY : Z := 0xEC.
Definition FIS_TYPE_REG_H2D : Z := 0x27.
Definition PCI_CLASS_STORAGE : Z := 0x01.
Definition PCI_SUBCLASS_AHCI : Z := 0x06.
Definition AHCI_OPS : Z := 5.                  (** the address of the operations *)

(** Offsets in hba_mem_t and hba_port_t. *)
Definition HBA_GHC : Z := 4.
Definition HBA_PI : Z := 12.
Definition HBA_VS : Z := 16.
Definition hba_ports (i : Z) : Z := 0x100 + 0x80 * i.
Definition P_CLB : Z := 0.
Definition P_CLBU : Z := 4.
Definition P_FB : Z := 8.
Definition P_FBU : Z := 12.
Definition P_IS : Z := 16.
Definition P_CMD : Z := 24.
Definition P_SIG : Z := 36.
Definition P_SSTS : Z := 40.
Definition P_SERR : Z := 48.
Definition P_SACT : Z := 52.
Definition P_CI : Z := 56.

(** ahci_port_t. *)
Record ahci_port := mkport {
  p_port : Z; p_cmd_list : Z; p_fis_base : Z; p_cmd_tbl : list Z; p_sector_count : Z; p_port_num : Z;
}.

Definition no_port : ahci_port := mkport 0 0 0 (replicate (Z.to_nat AHCI_CMD_SLOTS) 0) 0 0.

(** The static variables. *)
Record ahci := mkahci { abar : Z; ahci_devices : list ahci_port; ahci_device_count : Z }.

Definition ahci_boot : ahci := mkahci 0 (replicate (Z.to_nat AHCI_MAX_DEVICES) no_port) 0.

(** fis_reg_h2d_t, all other fields zero: pmport and c share a byte. *)
Definition fis_bytes (command device lba count : Z) : list Z :=
  [FIS_TYPE_REG_H2D; 0x80; command; 0; u8 lba; u8 (Z.shiftr lba 8); u8 (Z.shiftr lba 16); device;
   u8 (Z.shiftr lba 24); u8 (Z.shiftr lba 32); u8 (Z.shiftr lba 40); 0; u8 count; u8 (Z.shiftr count 8); 0; 0; 0; 0; 0; 0].

Section Ahci.
Context {W : Type} {N : DmaHost W}.
Implicit Types (w : W) (d : ahci_port).

(** ** The PCI bus *)

Definition pci_write32 (bus slot func offset val : Z) w : W :=
  let addr := Z.lor (Z.lor (Z.lor (Z.lor (Z.shiftl 1 31) (Z.shiftl bus 16)) (Z.shiftl slot 11)) (Z.shiftl func 8)) (Z.land offset 0xFC) in
  port_outl PCI_CONFIG_DATA val (port_outl PCI_CONFIG_ADDR addr w).

(** The functions from [func] on, [n] of them: the address when the controller was found. *)
Fixpoint find_func (n : nat) (bus slot func : Z) w : option Z * W :=
  match n with
  | O => (None, w)
  | S n' =>
      let '(id, w) := pci_read bus slot func 0x00 w in
      if (id =? 0xFFFFFFFF) || (id =? 0) then find_func n' bus slot (func + 1) w else
      let '(class_reg, w) := pci_read bus slot func 0x08 w in
      let class_code := Z.land (Z.shiftr class_reg 24) 0xFF in
      let subclass := Z.land (Z.shiftr class_reg 16) 0xFF in
      if (class_code =? PCI_CLASS_STORAGE) && (subclass =? PCI_SUBCLASS_AHCI) then
        let '(bar5, w) := pci_read bus slot func 0x24 w in
        let '(cmd, w) := pci_read bus slot func 0x04 w in
        let cmd := Z.lor cmd (Z.lor (Z.shiftl 1 1) (Z.shiftl 1 2)) in
        let w := pci_write32 bus slot func 0x04 cmd w in
        (Some (Z.land bar5 0xFFFFF000), w)
      else if func =? 0 then
        let '(hdr, w) := pci_read bus slot func 0x0C w in
        if Z.land (Z.shiftr hdr 16) 0x80 =? 0 then (None, w) else find_func n' bus slot (func + 1) w
      else find_func n' bus slot (func + 1) w
  end.

Fixpoint find_device (n : nat) (bus slot : Z) w : option Z * W :=
  match n with
  | O => (None, w)
  | S n' =>
      match find_func 8 bus slot 0 w with
      | (Some bar, w) => (Some bar, w)
      | (None, w) => find_device n' bus (slot + 1) w
      end
  end.

Fixpoint find_bus (n : nat) (bus : Z) w : option Z * W :=
  match n with
  | O => (None, w)
  | S n' =>
      match find_device 32 bus 0 w with
      | (Some bar, w) => (Some bar, w)
      | (None, w) => find_bus n' (bus + 1) w
      end
  end.

Definition pci_find_ahci w : Z * W := let '(bar, w) := find_bus 256 0 w in (default 0 bar, w).

(** ** Ports *)

Definition ahci_port_type (port : Z) w : Z * W :=
  let '(ssts, w) := mmio_read32 (port + P_SSTS) w in
  let ipm := Z.land (Z.shiftr ssts 8) 0x0F in
  let det := Z.land ssts 0x0F in
  if negb (det =? HBA_PORT_DET_PRESENT) || negb (ipm =? HBA_PORT_IPM_ACTIVE) then (AHCI_DEV_NULL, w) else
  let '(sig, w) := mmio_read32 (port + P_SIG) w in
  (if sig =? AHCI_SIG_ATAPI then AHCI_DEV_SATAPI
   else if sig =? AHCI_SIG_SEMB then AHCI_DEV_SEMB
   else if sig =? AHCI_SIG_PM then AHCI_DEV_PM
   else AHCI_DEV_SATA, w).

(** At most [n] polls until the bits of [mask] are clear. *)
Fixpoint poll_cmd (n : nat) (mask port : Z) w : W :=
  match n with
  | O => w
  | S n' => let '(c, w) := mmio_read32 (port + P_CMD) w in if Z.land c mask =? 0 then w else poll_cmd n' mask port w
  end.

Definition ahci_stop_cmd (port : Z) w : W :=
  let '(cmd, w) := mmio_read32 (port + P_CMD) w in
  let cmd := Z.ldiff (Z.ldiff cmd HBA_PxCMD_ST) HBA_PxCMD_FRE in
  let w := mmio_write32 (port + P_CMD) cmd w in
  poll_cmd (Z.to_nat 500000) (Z.lor HBA_PxCMD_FR HBA_PxCMD_CR) port w.

Definition ahci_start_cmd (port : Z) w : W :=
  let w := poll_cmd (Z.to_nat 500000) HBA_PxCMD_CR port w in
  let '(cmd, w) := mmio_read32 (port + P_CMD) w in
  mmio_write32 (port + P_CMD) (Z.lor (Z.lor cmd HBA_PxCMD_FRE) HBA_PxCMD_ST) w.

Fixpoint free_slot_loop (n : nat) (i slots : Z) : Z :=
  match n with
  | O => -1
  | S n' => if Z.land slots (Z.shiftl 1 i) =? 0 then i else free_slot_loop n' (i + 1) slots
  end.

Definition ahci_find_free_slot (port : Z) w : Z * W :=
  let '(sact, w) := mmio_read32 (port + P_SACT) w in
  let '(ci, w) := mmio_read32 (port + P_CI) w in
  (free_slot_loop (Z.to_nat AHCI_CMD_SLOTS) 0 (Z.lor sact ci), w).

(** [memset(p, 0, n)]: [p] may be NULL. *)
Definition clear (p : option Z) (n : Z) w : outcome (Z * W) :=
  match p with None => Fault NullDeref | Some p => Ret (p, dma_store p (replicate (Z.to_nat n) 0) w) end.

(** The command tables of the slots from [i] on. *)
Fixpoint alloc_tables (n : nat) (i hdr : Z) w : outcome (list Z * W) :=
  match n with
  | O => Ret ([], w)
  | S n' =>
      let w := dma_store (hdr + 32 * i + 2) (le_bytes 2 8) w in
      let '(p, w) := dma_kmalloc (256 + 8 * 16) w in
      '(tbl, w) ← clear p (256 + 8 * 16) w;
      let tbl_phys := VIRT_TO_PHYS tbl in
      let w := dma_store (hdr + 32 * i + 8) (le_bytes 4 (u32 tbl_phys)) w in
      let w := dma_store (hdr + 32 * i + 12) (le_bytes 4 (u32 (Z.shiftr tbl_phys 32))) w in
      '(tbls, w) ← alloc_tables n' (i + 1) hdr w;
      Ret (tbl :: tbls, w)
  end.

Definition ahci_port_rebase d w : outcome (ahci_port * W) :=
  let port := p_port d in
  let w := ahci_stop_cmd port w in
  let '(p, w) := dma_kmalloc 1024 w in
  '(cmd_base, w) ← clear p 1024 w;
  let cmd_phys := VIRT_TO_PHYS cmd_base in
  let w := mmio_write32 (port + P_CLB) (u32 cmd_phys) w in
  let w := mmio_write32 (port + P_CLBU) (u32 (Z.shiftr cmd_phys 32)) w in
  let '(p, w) := dma_kmalloc 256 w in
  '(fis, w) ← clear p 256 w;
  let fis_phys := VIRT_TO_PHYS fis in
  let w := mmio_write32 (port + P_FB) (u32 fis_phys) w in
  let w := mmio_write32 (port + P_FBU) (u32 (Z.shiftr fis_phys 32)) w in
  '(tbls, w) ← alloc_tables (Z.to_nat AHCI_CMD_SLOTS) 0 cmd_base w;
  let w := mmio_write32 (port + P_SERR) 0xFFFFFFFF w in
  let w := mmio_write32 (port + P_IS) 0xFFFFFFFF w in
  let w := ahci_start_cmd port w in
  Ret (mkport port cmd_base fis tbls (p_sector_count d) (p_port_num d), w).

(** ** Commands *)

(** At most [n] polls until the bit of the slot is clear. *)
Fixpoint issue_loop (n : nat) (port slot : Z) w : Z * W :=
  match n with
  | O => (-1, w)
  | S n' =>
      let '(ci, w) := mmio_read32 (port + P_CI) w in
      if Z.land ci (Z.shiftl 1 slot) =? 0 then (0, w) else
      let '(pis, w) := mmio_read32 (port + P_IS) w in
      if negb (Z.land pis HBA_PxIS_TFES =? 0) then (-1, w) else issue_loop n' port slot w
  end.

Definition ahci_issue_cmd d (slot : Z) w : Z * W :=
  let w := mmio_write32 (p_port d + P_CI) (Z.shiftl 1 slot) w in
  issue_loop (Z.to_nat 1000000) (p_port d) slot w.

(** A bit-field: the bits of [mask] in the integer of [n] bytes at [a] become [v]. *)
Definition set_bits (n : nat) (a mask v : Z) w : W :=
  let '(bs, w) := dma_load a (Z.of_nat n) w in
  dma_store a (le_bytes n (Z.lor (Z.ldiff (le_value bs) mask) v)) w.

(** hdr->cfl, hdr->w and hdr->c. *)
Definition set_cfl (hdr : Z) w : W := set_bits 1 hdr 0x1F (20 / 4) w.
Definition set_w (hdr : Z) (write : bool) w : W := set_bits 1 hdr 0x40 (if write then 0x40 else 0) w.
Definition set_c (hdr : Z) w : W := set_bits 1 (hdr + 1) 0x04 0x04 w.
Definition set_prdtl (hdr v : Z) w : W := dma_store (hdr + 2) (le_bytes 2 v) w.

(** tbl->prdt_entry[i]: the segment of [n] bytes at [phys]; [last] its flag i. *)
Definition set_prdt (tbl i phys n : Z) (last : bool) w : W :=
  let e := tbl + 128 + 16 * i in
  let w := dma_store e (le_bytes 4 (u32 phys)) w in
  let w := dma_store (e + 4) (le_bytes 4 (u32 (Z.shiftr phys 32))) w in
  let w := set_bits 4 (e + 12) 0x3FFFFF (Z.land (u32 (n - 1)) 0x3FFFFF) w in
  set_bits 4 (e + 12) 0x80000000 (if last then 0x80000000 else 0) w.

(** The table for a slot; there are [AHCI_CMD_SLOTS] of them. *)
Definition tbl_of d (slot : Z) : outcome Z := aget (p_cmd_tbl d) slot.

(** 0 or -1, and the sector count. *)
Definition ahci_identify d w : outcome (Z * ahci_port * W) :=
  let port := p_port d in
  let w := mmio_write32 (port + P_IS) 0xFFFFFFFF w in
  let '(slot, w) := ahci_find_free_slot port w in
  if slot <? 0 then Ret (-1, d, w) else
  let hdr := p_cmd_list d + 32 * slot in
  let w := set_cfl hdr w in
  let w := set_w hdr false w in
  let w := set_prdtl hdr 1 w in
  tbl ← tbl_of d slot;
  let w := dma_store tbl (replicate 144 0) w in
  match dma_kmalloc 512 w with
  | (None, w) => Ret (-1, d, w)
  | (Some ident_buf, w) =>
      let w := dma_store ident_buf (replicate 512 0) w in
      let w := set_prdt tbl 0 (VIRT_TO_PHYS ident_buf) 512 true w in
      let w := dma_store tbl (fis_bytes AHCI_CMD_IDENTIFY 0 0 0) w in
      let '(r, w) := ahci_issue_cmd d slot w in
      if r <? 0 then Ret (-1, d, dma_kfree ident_buf w) else
      let '(bs, w) := dma_load (ident_buf + 200) 8 w in
      let sectors := le_value bs in
      let '(sectors, w) := if sectors =? 0 then let '(bs, w) := dma_load (ident_buf + 120) 4 w in (le_value bs, w) else (sectors, w) in
      Ret (0, mkport port (p_cmd_list d) (p_fis_base d) (p_cmd_tbl d) sectors (p_port_num d), dma_kfree ident_buf w)
  end.

(** ** Reading and writing *)

(** The segments of a command from the entry [i] on; a table has room for 16. *)
Fixpoint prdt_loop (fuel : nat) (tbl i p bytes_left : Z) w : outcome (Z * W) :=
  match fuel with
  | O => OutOfFuel
  | S fuel' =>
      if negb (0 <? bytes_left) then Ret (i, w) else
      if 16 <=? i then Fault OutOfBounds else
      let seg := if 0x400000 <? bytes_left then 0x400000 else bytes_left in
      let w := set_prdt tbl i (VIRT_TO_PHYS p) seg (bytes_left - seg =? 0) w in
      prdt_loop fuel' tbl (i + 1) (u64 (p + seg)) (bytes_left - seg) w
  end.

(** One command for [chunk] sectors: the body of the loop. *)
Definition ahci_chunk (write : bool) d (lba chunk ptr : Z) w : outcome (Z * W) :=
  let port := p_port d in
  let w := mmio_write32 (port + P_IS) 0xFFFFFFFF w in
  let '(slot, w) := ahci_find_free_slot port w in
  if slot <? 0 then Ret (-1, w) else
  let hdr := p_cmd_list d + 32 * slot in
  let w := set_cfl hdr w in
  let w := set_w hdr write w in
  let w := set_c hdr w in
  let w := set_prdtl hdr 0 w in
  tbl ← tbl_of d slot;
  let bytes_left := chunk * AHCI_SECTOR_SIZE in
  '(prdt_idx, w) ← prdt_loop (S (Z.to_nat bytes_left)) tbl 0 ptr bytes_left w;
  let w := set_prdtl hdr (u16 prdt_idx) w in
  let w := dma_store tbl (fis_bytes (if write then ATA_CMD_WRITE_DMA_EX else ATA_CMD_READ_DMA_EX) (Z.shiftl 1 6) lba chunk) w in
  let '(r, w) := ahci_issue_cmd d slot w in
  Ret (if r <? 0 then -1 else 0, w).

Fixpoint ahci_rw_loop (fuel : nat) (write : bool) d (lba count ptr : Z) w : outcome (Z * W) :=
  match fuel with
  | O => OutOfFuel
  | S fuel' =>
      if negb (0 <? count) then Ret (0, w) else
      let chunk := if 128 <? count then 128 else count in
      '(r, w) ← ahci_chunk write d lba chunk ptr w;
      if r <? 0 then Ret (-1, w) else
      ahci_rw_loop fuel' write d (u64 (lba + chunk)) (count - chunk) (u64 (ptr + chunk * AHCI_SECTOR_SIZE)) w
  end.

Definition ahci_rw d (lba count buf : Z) (write : bool) w : outcome (Z * W) :=
  ahci_rw_loop (S (Z.to_nat count)) write d lba count buf w.

Definition ahci_read_blocks d (lba count buf : Z) w : outcome (Z * W) :=
  if p_sector_count d <? u64 (lba + count) then Ret (-1, w) else ahci_rw d lba count buf false w.

Definition ahci_write_blocks d (lba count buf : Z) w : outcome (Z * W) :=
  if p_sector_count d <? u64 (lba + count) then Ret (-1, w) else ahci_rw d lba count buf true w.

(** ** Initialisation *)

(** The ports from [i] on, [n] of them, with the registry; the private data of a block
    device is the index of its port in ahci_devices. *)
Fixpoint ports_loop (n : nat) (i pi dev_idx : Z) (ds : list ahci_port) (devs : list block_device) w
  : outcome (Z * list ahci_port * list block_device * W) :=
  match n with
  | O => Ret (dev_idx, ds, devs, w)
  | S n' =>
      if negb (dev_idx <? AHCI_MAX_DEVICES) then Ret (dev_idx, ds, devs, w) else
      if Z.land pi (Z.shiftl 1 i) =? 0 then ports_loop n' (i + 1) pi dev_idx ds devs w else
      let port := hba_ports i in
      let '(type, w) := ahci_port_type port w in
      if negb (type =? AHCI_DEV_SATA) then ports_loop n' (i + 1) pi dev_idx ds devs w else
      ap ← aget ds dev_idx;
      '(ap, w) ← ahci_port_rebase (mkport port (p_cmd_list ap) (p_fis_base ap) (p_cmd_tbl ap) (p_sector_count ap) i) w;
      '(r, ap, w) ← ahci_identify ap w;
      ds ← aset ds dev_idx ap;
      if r <? 0 then ports_loop n' (i + 1) pi dev_idx ds devs w else
      '(devs, _) ← register_block_device devs (lit "sd" ++ [97 + dev_idx]) AHCI_SECTOR_SIZE (p_sector_count ap) AHCI_OPS dev_idx;
      ports_loop n' (i + 1) pi (dev_idx + 1) ds devs w
  end.

Definition ahci_init (s : ahci) (devs : list block_device) w : outcome (ahci * list block_device * W) :=
  let '(bar5, w) := pci_find_ahci w in
  if bar5 =? 0 then Ret (s, devs, w) else
  let abar := u64 (bar5 + hhdm_offset) in
  let '(ghc, w) := mmio_read32 HBA_GHC w in
  let w := mmio_write32 HBA_GHC (Z.lor ghc HBA_GHC_AE) w in
  let '(_, w) := mmio_read32 HBA_VS w in
  let '(pi, w) := mmio_read32 HBA_PI w in
  '(dev_idx, ds, devs, w) ← ports_loop (Z.to_nat AHCI_MAX_PORTS) 0 pi 0 (ahci_devices s) devs w;
  Ret (mkahci abar ds dev_idx, devs, w).
End Ahci.

(** ** What the specification says of a port *)

(** A command as the controller fetches it: the header, the frame for the disk, and the
    first segment of the data. *)
Record hcmd := mkhc { hc_cfl : Z; hc_w : bool; hc_prdtl : Z; hc_ctba : Z; hc_fis : list Z; hc_dba : Z; hc_dbc : Z }.

Definition word32 (m : Z -> Z) (a : Z) : Z := le_value (mread m a 4).
Definition word64 (m : Z -> Z) (a : Z) : Z := word32 m a + 2 ^ 32 * word32 m (a + 4).

(** The command in [slot] of the list at [clb]; [base] is where physical memory is seen. *)
Definition fetch (base : Z) (m : Z -> Z) (clb slot : Z) : hcmd :=
  let h := clb + 32 * slot in
  let flags := le_value (mread m h 1) in
  let ctba := word64 m (h + 8) in
  let t := ctba + base in
  mkhc (Z.land flags 31) (Z.testbit flags 6) (le_value (mread m (h + 2) 2)) ctba (mread m t 20)
    (word64 m (t + 128)) (Z.land (word32 m (t + 140)) 0x3FFFFF + 1).

Definition fis_at (c : hcmd) (i : nat) : Z := default 0 (hc_fis c !! i).
Definition hc_lba (c : hcmd) : Z :=
  fis_at c 4 + 2 ^ 8 * fis_at c 5 + 2 ^ 16 * fis_at c 6 + 2 ^ 24 * fis_at c 8 + 2 ^ 32 * fis_at c 9 + 2 ^ 40 * fis_at c 10.
Definition hc_n (c : hcmd) : Z := fis_at c 12 + 2 ^ 8 * fis_at c 13.

(** No command; a command with the polls it takes; a command that failed, after which
    the port has stopped. *)
Inductive hba_phase :=
| Idle
| Busy (c : hcmd) (slot : Z) (k : nat)
| Stopped (slot : Z).

(** A port: where the kernel sees the command list and the received frames, and the
    disks behind all ports. *)
Record hba := mkhba { h_clb : Z; h_fb : Z; h_phase : hba_phase; h_disk : Z -> list Z }.

Definition with_phase (k : hba) (p : hba_phase) : hba := mkhba (h_clb k) (h_fb k) p (h_disk k).

(** What the controller writes besides the data: the byte count of the header, and
    received frames. *)
Definition posted_at (k : hba) (slot x : Z) : Prop := inside (h_clb k + 32 * slot + 4) 4 x \/ inside (h_fb k) 256 x.

Section Contract.
Context {W : Type} {N : DmaHost W}.

Definition hc_base (c : hcmd) : Z := hc_dba c + hhdm_offset.

(** A command that reads or writes sectors of the disk [id], in one segment. *)
Definition well_formed (id : Z) (k : hba) (c : hcmd) (slot : Z) : Prop :=
  0 <= slot < 32 /\ (h_clb k - hhdm_offset) mod 1024 = 0 /\ (h_fb k - hhdm_offset) mod 256 = 0 /\
  hc_cfl c = 5 /\ hc_prdtl c = 1 /\ hc_ctba c mod 128 = 0 /\
  fis_at c 0 = FIS_TYPE_REG_H2D /\ Z.testbit (fis_at c 1) 7 = true /\ Z.testbit (fis_at c 7) 6 = true /\
  fis_at c 2 = (if hc_w c then ATA_CMD_WRITE_DMA_EX else ATA_CMD_READ_DMA_EX) /\
  hc_dba c mod 2 = 0 /\ hc_dbc c = 512 * hc_n c /\
  0 <= hc_lba c /\ 0 < hc_n c /\ (hc_lba c + hc_n c) * 512 <= len (h_disk k id) /\
  (forall x, posted_at k slot x -> ~ inside (hc_base c) (hc_dbc c) x).

(** The state of the registers CI and IS. *)
Definition register_of (r : Z) (p : hba_phase) (v : Z) : Prop :=
  (r = P_CI -> match p with Idle => v = 0 | Busy _ s _ | Stopped s => 0 <= s -> Z.testbit v s = true end) /\
  (r = P_IS -> match p with Stopped _ => Z.testbit v 30 = true | _ => Z.testbit v 30 = false end).

(** Memory during a command. *)
Definition in_progress (k : hba) (c : hcmd) (slot : Z) (m m' : Z -> Z) : Prop :=
  forall x, ~ posted_at k slot x -> (hc_w c = false -> ~ inside (hc_base c) (hc_dbc c) x) -> m' x = m x.
End Contract.

(** A port that is running; with [faulty] commands may fail. *)
Class AhciOk {W : Type} `{DmaHost W} (port id : Z) (faulty : Prop) := {
  hb_mem : W -> Z -> Z;
  hb_st : W -> hba;
  hb_store_law w a bs : h_phase (hb_st w) = Idle -> Forall byte_ok bs ->
    hb_mem (dma_store a bs w) = mwrite (hb_mem w) a bs /\ hb_st (dma_store a bs w) = hb_st w;
  hb_load_law w a n : h_phase (hb_st w) = Idle ->
    exists w', dma_load a n w = (mread (hb_mem w) a n, w') /\ hb_mem w' = hb_mem w /\ hb_st w' = hb_st w;
  sact_law w : h_phase (hb_st w) = Idle ->
    exists w', mmio_read32 (port + P_SACT) w = (0, w') /\ hb_mem w' = hb_mem w /\ hb_st w' = hb_st w;
  is_write_law w : h_phase (hb_st w) = Idle ->
    let w' := mmio_write32 (port + P_IS) 0xFFFFFFFF w in hb_mem w' = hb_mem w /\ hb_st w' = hb_st w;
  issue_law w slot :
    let c := fetch hhdm_offset (hb_mem w) (h_clb (hb_st w)) slot in
    let w' := mmio_write32 (port + P_CI) (Z.shiftl 1 slot) w in
    h_phase (hb_st w) = Idle -> well_formed id (hb_st w) c slot ->
    hb_mem w' = hb_mem w /\ exists k, hb_st w' = with_phase (hb_st w) (Busy c slot k);
  quiet_law w r : r = P_CI \/ r = P_IS -> match h_phase (hb_st w) with Busy _ _ _ => False | _ => True end ->
    exists v w', mmio_read32 (port + r) w = (v, w') /\ hb_mem w' = hb_mem w /\ hb_st w' = hb_st w /\ register_of r (h_phase (hb_st w)) v;
  busy_law w r c slot k : r = P_CI \/ r = P_IS -> h_phase (hb_st w) = Busy c slot (S k) -> well_formed id (hb_st w) c slot ->
    exists v w', mmio_read32 (port + r) w = (v, w') /\ in_progress (hb_st w) c slot (hb_mem w) (hb_mem w') /\
      hb_st w' = with_phase (hb_st w) (Busy c slot k) /\ register_of r (Busy c slot k) v;
  done_law w r c slot : r = P_CI \/ r = P_IS -> h_phase (hb_st w) = Busy c slot O -> well_formed id (hb_st w) c slot ->
    exists v w' res disk, mmio_read32 (port + r) w = (v, w') /\
      hb_st w' = mkhba (h_clb (hb_st w)) (h_fb (hb_st w)) (if res =? 0 then Idle else Stopped slot) disk /\
      moved faulty (posted_at (hb_st w) slot) (negb (hc_w c)) id (hc_lba c * 512) (hc_dbc c) (hc_base c) (hb_mem w) (hb_mem w') (h_disk (hb_st w)) disk res /\
      register_of r (h_phase (hb_st w')) v;
}.

(** ** Bit-fields *)

Lemma field_bits a mask v i : 0 <= i ->
  Z.testbit (Z.lor (Z.ldiff a mask) v) i = (Z.testbit a i && negb (Z.testbit mask i)) || Z.testbit v i.
Proof. intros Hi. by rewrite Z.lor_spec, Z.ldiff_spec. Qed.

Lemma ones_bits k i : 0 <= k -> 0 <= i -> Z.testbit (Z.ones k) i = (i <? k).
Proof. intros Hk Hi. destruct (Z.ltb_spec i k); [apply Z.ones_spec_low; lia|apply Z.ones_spec_high; lia]. Qed.

Lemma small_bits v k i : 0 <= v < 2 ^ k -> 0 <= k <= i -> Z.testbit v i = false.
Proof. intros Hv Hi. replace v with (v mod 2 ^ k) by (by apply Z.mod_small). apply Z.mod_pow2_bits_high. lia. Qed.

(** The field that is written. *)
Lemma set_field a v k : 0 <= k -> 0 <= v < 2 ^ k -> Z.land (Z.lor (Z.ldiff a (Z.ones k)) v) (Z.ones k) = v.
Proof.
  intros Hk Hv. apply Z.bits_inj'. intros i Hi. rewrite Z.land_spec, field_bits, ones_bits by lia.
  destruct (Z.ltb_spec i k); [by rewrite andb_false_r, andb_true_r|]. rewrite andb_false_r. symmetry. apply (small_bits v k); lia.
Qed.

(** A field below the bit [j] that is written. *)
Lemma keep_field a k j (b : bool) : 0 <= k <= j ->
  Z.land (Z.lor (Z.ldiff a (2 ^ j)) (if b then 2 ^ j else 0)) (Z.ones k) = Z.land a (Z.ones k).
Proof.
  intros Hk. apply Z.bits_inj'. intros i Hi. rewrite !Z.land_spec, field_bits, ones_bits by lia. destruct (Z.ltb_spec i k); [|by rewrite !andb_false_r].
  rewrite Z.pow2_bits_false by lia. destruct b; rewrite ?Z.pow2_bits_false, ?Z.bits_0 by lia; by rewrite andb_true_r, orb_false_r.
Qed.

Lemma bit_is_set a j (b : bool) : 0 <= j -> Z.testbit (Z.lor (Z.ldiff a (2 ^ j)) (if b then 2 ^ j else 0)) j = b.
Proof. intros Hj. rewrite field_bits, Z.pow2_bits_true by lia. destruct b; rewrite ?Z.pow2_bits_true, ?Z.bits_0 by lia; by destruct (Z.testbit a j). Qed.

Lemma land_mod a k n : 0 <= k <= n -> Z.land (a mod 2 ^ n) (Z.ones k) = Z.land a (Z.ones k).
Proof.
  intros Hk. apply Z.bits_inj'. intros i Hi. rewrite !Z.land_spec, ones_bits by lia. destruct (Z.ltb_spec i k); [|by rewrite !andb_false_r].
  by rewrite Z.mod_pow2_bits_low by lia.
Qed.

Lemma split64 x : 0 <= x < 2 ^ 64 -> u32 x + 2 ^ 32 * u32 (Z.shiftr x 32) = x.
Proof.
  intros Hx. rewrite Z.shiftr_div_pow2 by lia. unfold u32, wrapu. change (2 ^ 64) with 18446744073709551616 in Hx. change (2 ^ 32) with 4294967296.
  Z.to_euclidean_division_equations. lia.
Qed.

Lemma byte_at_shift x i : 0 <= i -> u8 (Z.shiftr x i) = x / 2 ^ i mod 256.
Proof. intros Hi. by rewrite Z.shiftr_div_pow2. Qed.

(** The frame of a command gives back its sectors. *)
Lemma fis_fields c command lba n : hc_fis c = fis_bytes command (Z.shiftl 1 6) lba n -> 0 <= lba < 2 ^ 48 -> 0 <= n < 65536 ->
  hc_lba c = lba /\ hc_n c = n /\ fis_at c 0 = FIS_TYPE_REG_H2D /\ Z.testbit (fis_at c 1) 7 = true /\ Z.testbit (fis_at c 7) 6 = true /\
  fis_at c 2 = command.
Proof.
  intros E Hl Hn. unfold hc_lba, hc_n, fis_at. rewrite E. unfold fis_bytes. cbn [lookup list_lookup default]. unfold id.
  split; [|split; [|done]].
  - rewrite !byte_at_shift by lia. unfold u8, wrapu. change (2 ^ 48) with 281474976710656 in Hl. change (2 ^ 8) with 256.
    assert (forall k, 0 <= k -> lba / 2 ^ (k + 8) = lba / 2 ^ k / 256) as Hd by (intros k Hk; by rewrite Z.pow_add_r, Z.div_div by lia).
    rewrite (Hd 32 : _ -> lba / 2 ^ 40 = _), (Hd 24 : _ -> lba / 2 ^ 32 = _), (Hd 16 : _ -> lba / 2 ^ 24 = _), (Hd 8 : _ -> lba / 2 ^ 16 = _) by lia.
    change (lba / 2 ^ 8) with (lba / 256).
    set (q1 := lba / 256). set (q2 := q1 / 256). set (q3 := q2 / 256). set (q4 := q3 / 256). set (q5 := q4 / 256).
    assert (lba = 256 * q1 + lba mod 256 /\ q1 = 256 * q2 + q1 mod 256 /\ q2 = 256 * q3 + q2 mod 256 /\ q3 = 256 * q4 + q3 mod 256 /\
      q4 = 256 * q5 + q4 mod 256) as Hq by (split_and!; apply Z.div_mod; lia).
    assert (0 <= q5 < 256) as Hq5 by (unfold q5, q4, q3, q2, q1; Z.to_euclidean_division_equations; lia).
    rewrite (Z.mod_small q5) by lia. change (2 ^ 16) with 65536. change (2 ^ 24) with 16777216. change (2 ^ 32) with 4294967296.
    change (2 ^ 40) with 1099511627776. lia.
  - rewrite byte_at_shift by lia. unfold u8, wrapu. change (2 ^ 8) with 256. Z.to_euclidean_division_equations. lia.
Qed.

Lemma mread_mwrite_out m a bs b n : apart a (len bs) b n -> mread (mwrite m a bs) b n = mread m b n.
Proof. intros Ha. apply mread_ext. intros x Hx. apply mwrite_out. unfold apart, inside in *. lia. Qed.

Section Driver.
Context {W : Type} {N : DmaHost W} {port id : Z} {faulty : Prop} {K : AhciOk port id faulty}.
Implicit Types (w : W) (d : ahci_port).

#[local] Abbreviation mem w := (hb_mem (port:=port) (id:=id) (faulty:=faulty) w).
#[local] Abbreviation st w := (hb_st (port:=port) (id:=id) (faulty:=faulty) w).
#[local] Abbreviation idle w := (h_phase (st w) = Idle).

Lemma set_bits_ok n a mask v w : idle w ->
  mem (set_bits n a mask v w) = mwrite (mem w) a (le_bytes n (Z.lor (Z.ldiff (le_value (mread (mem w) a (Z.of_nat n))) mask) v)) /\
  st (set_bits n a mask v w) = st w.
Proof.
  intros Hi. unfold set_bits. destruct (hb_load_law (AhciOk:=K) w a (Z.of_nat n) Hi) as (w1 & E & Em & Es). rewrite E.
  destruct (hb_store_law (AhciOk:=K) w1 a (le_bytes n (Z.lor (Z.ldiff (le_value (mread (mem w) a (Z.of_nat n))) mask) v))) as [Em2 Es2];
    [by rewrite Es|apply le_bytes_ok|]. by rewrite Em2, Es2, Em, Es.
Qed.

(** While no command runs the first slot is free. *)
Lemma free_slot_ok w : idle w -> exists w', ahci_find_free_slot port w = (0, w') /\ mem w' = mem w /\ st w' = st w.
Proof.
  intros Hi. unfold ahci_find_free_slot. destruct (sact_law (AhciOk:=K) w Hi) as (w1 & E1 & Em1 & Es1). rewrite E1.
  destruct (quiet_law (AhciOk:=K) w1 P_CI) as (v & w2 & E2 & Em2 & Es2 & Hv); [by left|by rewrite Es1, Hi|]. rewrite E2.
  rewrite Es1, Hi in Hv. destruct Hv as [Hv _]. rewrite (Hv eq_refl). exists w2. by rewrite Em2, Es2, Em1, Es1.
Qed.

Lemma land_bit v s : 0 <= s -> Z.land v (Z.shiftl 1 s) = 0 <-> Z.testbit v s = false.
Proof.
  intros Hs. rewrite Z.shiftl_1_l. split.
  - intros E. assert (Z.testbit (Z.land v (2 ^ s)) s = false) as Hb by (by rewrite E, Z.bits_0).
    rewrite Z.land_spec, Z.pow2_bits_true, andb_true_r in Hb by lia. done.
  - intros E. apply Z.bits_inj'. intros i Hi. rewrite Z.land_spec, Z.bits_0. destruct (Z.eq_dec i s) as [->|Hne]; [by rewrite E|].
    by rewrite Z.pow2_bits_false, andb_false_r by lia.
Qed.

Lemma land_bit_true v s : 0 <= s -> Z.testbit v s = true -> (Z.land v (Z.shiftl 1 s) =? 0) = false.
Proof. intros Hs E. apply Z.eqb_neq. rewrite land_bit by done. by rewrite E. Qed.

Lemma land_bit_false v s : 0 <= s -> Z.testbit v s = false -> (Z.land v (Z.shiftl 1 s) =? 0) = true.
Proof. intros Hs E. apply Z.eqb_eq. by rewrite land_bit. Qed.

(** How a command ends. *)
Definition ended (k : hba) (c : hcmd) (slot : Z) (m : Z -> Z) (r : Z) w : Prop :=
  exists disk, st w = mkhba (h_clb k) (h_fb k) (if r =? 0 then Idle else Stopped slot) disk /\
    moved faulty (posted_at k slot) (negb (hc_w c)) id (hc_lba c * 512) (hc_dbc c) (hc_base c) m (mem w) (h_disk k) disk r.

Lemma ended_before k c slot m0 m r w : (forall x, posted_at k slot x -> ~ inside (hc_base c) (hc_dbc c) x) ->
  in_progress k c slot m0 m -> ended k c slot m r w -> ended k c slot m0 r w.
Proof.
  intros Hap Hp (disk & Es & H1 & H2 & H3 & H4). exists disk. split; [done|]. split; [done|]. split; [|split; [done|]].
  - intros x Hx Hd. rewrite H2 by done. apply Hp; [done|]. intros E. apply Hd. by rewrite E.
  - intros E. destruct (H4 E) as [Hl Hd]. split; [done|]. intros Er n. rewrite Hd by done. rewrite (mread_ext m0 m); [done|].
    intros x Hx. apply Hp; [intros Hq; by apply (Hap x)|]. destruct (hc_w c); [done|discriminate].
Qed.

(** One access to a register while a command runs. *)
Lemma poll_ok w r c slot k : r = P_CI \/ r = P_IS -> h_phase (st w) = Busy c slot k -> well_formed id (st w) c slot ->
  exists v w', mmio_read32 (port + r) w = (v, w') /\ register_of r (h_phase (st w')) v /\
    ((exists k', k = S k' /\ st w' = with_phase (st w) (Busy c slot k') /\ in_progress (st w) c slot (mem w) (mem w')) \/
     (exists res, ended (st w) c slot (mem w) res w')).
Proof.
  intros Hr Hb Hv. destruct k as [|k].
  - destruct (done_law (AhciOk:=K) w r c slot Hr Hb Hv) as (v & w' & res & disk & E & Es & Hm & Hreg). exists v, w'.
    split; [done|]. split; [done|]. right. exists res, disk. by split.
  - destruct (busy_law (AhciOk:=K) w r c slot k Hr Hb Hv) as (v & w' & E & Hp & Es & Hreg). exists v, w'.
    split; [done|]. split; [by rewrite Es|]. left. by exists k.
Qed.

Lemma ended_result k c slot m r w : ended k c slot m r w ->
  (r = 0 /\ h_phase (st w) = Idle) \/ (faulty /\ r = -1 /\ h_phase (st w) = Stopped slot).
Proof. intros (disk & Es & [->|[Hf ->]] & _); rewrite Es; [by left|by right]. Qed.

Lemma issue_loop_ok n : forall k w c slot, h_phase (st w) = Busy c slot k -> well_formed id (st w) c slot -> (k < n)%nat ->
  exists r w', issue_loop n port slot w = (r, w') /\ ended (st w) c slot (mem w) r w'.
Proof.
  induction n as [|n IH]; intros k w c slot Hb Hv Hk; [lia|]. cbn [issue_loop].
  pose proof Hv as (Hs & _). assert (forall x, posted_at (st w) slot x -> ~ inside (hc_base c) (hc_dbc c) x) as Hap by apply Hv.
  destruct (poll_ok w P_CI c slot k ltac:(by left) Hb Hv) as (v & w1 & E1 & [Hci _] & Hnext). rewrite E1. specialize (Hci eq_refl).
  destruct Hnext as [(k1 & -> & Es1 & Hp1)|(res & He)].
  - rewrite Es1 in Hci. cbn [h_phase with_phase] in Hci. rewrite land_bit_true by (lia || apply Hci; lia).
    assert (h_phase (st w1) = Busy c slot k1) as Hb1 by (by rewrite Es1).
    assert (well_formed id (st w1) c slot) as Hv1 by (by rewrite Es1).
    destruct (poll_ok w1 P_IS c slot k1 ltac:(by right) Hb1 Hv1) as (v2 & w2 & E2 & [_ His] & Hnext). rewrite E2. specialize (His eq_refl).
    destruct Hnext as [(k2 & -> & Es2 & Hp2)|(res & He)].
    + rewrite Es2 in His. cbn [h_phase with_phase] in His. unfold HBA_PxIS_TFES. rewrite land_bit_false by (done || lia). cbn [negb].
      destruct (IH k2 w2 c slot) as (r & w' & Er & He); [by rewrite Es2|by rewrite Es2, Es1|lia|]. exists r, w'. split; [done|].
      rewrite Es2, Es1 in He. rewrite Es1 in Hp2. eapply ended_before; [exact Hap|exact Hp1|]. eapply ended_before; [exact Hap|exact Hp2|exact He].
    + rewrite Es1 in He. assert (ended (st w) c slot (mem w) res w2) as He' by (eapply ended_before; [exact Hap|exact Hp1|exact He]).
      destruct (ended_result _ _ _ _ _ _ He') as [[-> Hph]|(Hf & -> & Hph)]; rewrite Hph in His.
      * unfold HBA_PxIS_TFES. rewrite land_bit_false by (done || lia). cbn [negb]. destruct n as [|n]; [lia|]. cbn [issue_loop].
        destruct (quiet_law (AhciOk:=K) w2 P_CI) as (v3 & w3 & E3 & Em3 & Es3 & Hv3); [by left|by rewrite Hph|]. rewrite E3.
        rewrite Hph in Hv3. destruct Hv3 as [Hv3 _]. rewrite (Hv3 eq_refl), Z.land_0_l. cbn [Z.eqb]. exists 0, w3. split; [done|].
        unfold ended. by rewrite Em3, Es3.
      * unfold HBA_PxIS_TFES. rewrite land_bit_true by (done || lia). cbn [negb]. by exists (-1), w2.
  - destruct (ended_result _ _ _ _ _ _ He) as [[-> Hph]|(Hf & -> & Hph)]; rewrite Hph in Hci.
    + rewrite Hci, Z.land_0_l. cbn [Z.eqb]. by exists 0, w1.
    + rewrite land_bit_true by (lia || apply Hci; lia).
      destruct (quiet_law (AhciOk:=K) w1 P_IS) as (v2 & w2 & E2 & Em2 & Es2 & Hv2); [by right|by rewrite Hph|]. rewrite E2.
      rewrite Hph in Hv2. destruct Hv2 as [_ Hv2]. unfold HBA_PxIS_TFES. rewrite land_bit_true by (lia || by apply Hv2). cbn [negb].
      exists (-1), w2. split; [done|]. unfold ended. by rewrite Em2, Es2.
Qed.

(** ** One command *)

(** Nothing but the memory in a range has changed. *)
Definition within (a n : Z) w w' : Prop := st w' = st w /\ forall x, ~ inside a n x -> mem w' x = mem w x.

Lemma within_trans a n b k c l w1 w2 w3 : within a n w1 w2 -> within b k w2 w3 -> c <= a -> c <= b -> a + n <= c + l -> b + k <= c + l -> within c l w1 w3.
Proof.
  intros [E1 H1] [E2 H2] ? ? ? ?. split; [by rewrite E2|]. intros x Hx. rewrite H2, H1; [done|..]; unfold inside in *; lia.
Qed.

Lemma within_read a n w w' b k : within a n w w' -> apart a n b k -> mread (mem w') b k = mread (mem w) b k.
Proof. intros [_ H] Ha. apply mread_ext. intros x Hx. apply H. unfold apart, inside in *. lia. Qed.

Lemma dma_store_ok a bs w : idle w -> Forall byte_ok bs -> within a (len bs) w (dma_store a bs w) /\ mread (mem (dma_store a bs w)) a (len bs) = bs.
Proof.
  intros Hi Hb. destruct (hb_store_law (AhciOk:=K) w a bs Hi Hb) as [Em Es]. split; [split; [done|]|]; rewrite Em; [|apply mread_write].
  intros x Hx. by apply mwrite_out.
Qed.

Lemma store_value n a v w : idle w -> 0 <= v < 256 ^ Z.of_nat n ->
  within a (Z.of_nat n) w (dma_store a (le_bytes n v) w) /\ le_value (mread (mem (dma_store a (le_bytes n v) w)) a (Z.of_nat n)) = v.
Proof.
  intros Hi Hv. destruct (dma_store_ok a (le_bytes n v) w Hi (le_bytes_ok n v)) as [H1 H2].
  assert (len (le_bytes n v) = Z.of_nat n) as E by (unfold len; by rewrite le_bytes_length). rewrite E in H1, H2. split; [done|].
  rewrite H2, le_value_bytes. by apply Z.mod_small.
Qed.

Lemma set_bits_value n a mask v w : idle w -> within a (Z.of_nat n) w (set_bits n a mask v w) /\
  le_value (mread (mem (set_bits n a mask v w)) a (Z.of_nat n)) = Z.lor (Z.ldiff (le_value (mread (mem w) a (Z.of_nat n))) mask) v mod 256 ^ Z.of_nat n.
Proof.
  intros Hi. destruct (set_bits_ok n a mask v w Hi) as [Em Es]. set (x := Z.lor _ _) in *.
  assert (len (le_bytes n x) = Z.of_nat n) as E by (unfold len; by rewrite le_bytes_length).
  split; [split; [done|]|]; rewrite Em.
  - intros y Hy. apply mwrite_out. by rewrite E.
  - rewrite <- E at 1. by rewrite mread_write, le_value_bytes.
Qed.

Lemma idle_within a n w w' : within a n w w' -> idle w -> idle w'.
Proof. intros [-> _]. done. Qed.

(** The first two bytes of a header. *)
Lemma flags_ok hdr write w : idle w ->
  let w' := set_c hdr (set_w hdr write (set_cfl hdr w)) in
  within hdr 2 w w' /\ Z.land (le_value (mread (mem w') hdr 1)) 31 = 5 /\ Z.testbit (le_value (mread (mem w') hdr 1)) 6 = write.
Proof.
  intros Hi w'. unfold w', set_c, set_w, set_cfl. destruct (set_bits_value 1 hdr 0x1F (20 / 4) w Hi) as [H1 E1]. set (w1 := set_bits 1 hdr 31 _ w) in *.
  assert (idle w1) as Hi1 by (by eapply idle_within).
  destruct (set_bits_value 1 hdr 0x40 (if write then 0x40 else 0) w1 Hi1) as [H2 E2]. set (w2 := set_bits 1 hdr 64 _ w1) in *.
  assert (idle w2) as Hi2 by (by eapply idle_within).
  destruct (set_bits_value 1 (hdr + 1) 0x04 0x04 w2 Hi2) as [H3 _]. set (w3 := set_bits 1 (hdr + 1) 4 4 w2) in *.
  change (Z.of_nat 1) with 1 in *. change (256 ^ 1) with (2 ^ 8) in *.
  split; [|split].
  - eapply (within_trans hdr 1 (hdr + 1) 1); [eapply (within_trans hdr 1 hdr 1 hdr 1); [exact H1|exact H2|lia..]|exact H3|lia..].
  - rewrite (within_read _ _ _ _ _ _ H3) by (unfold apart; lia). rewrite E2. change 31 with (Z.ones 5). rewrite land_mod by lia.
    change (Z.land (Z.lor (Z.ldiff (le_value (mread (mem w1) hdr 1)) (2 ^ 6)) (if write then 2 ^ 6 else 0)) (Z.ones 5) = 5).
    rewrite keep_field, E1, land_mod by lia. change 31 with (Z.ones 5). by apply set_field.
  - rewrite (within_read _ _ _ _ _ _ H3) by (unfold apart; lia). rewrite E2, Z.mod_pow2_bits_low by lia. by apply (bit_is_set _ 6).
Qed.

(** A segment in the table. *)
Lemma set_prdt_ok tbl phys n w : idle w -> 0 <= phys < 2 ^ 64 -> 0 < n <= 2 ^ 22 ->
  let w' := set_prdt tbl 0 phys n true w in
  within (tbl + 128) 16 w w' /\ word64 (mem w') (tbl + 128) = phys /\ Z.land (word32 (mem w') (tbl + 140)) 0x3FFFFF + 1 = n.
Proof.
  intros Hi Hp Hn w'. unfold w', set_prdt. replace (tbl + 128 + 16 * 0) with (tbl + 128) by lia.
  assert (forall x, 0 <= u32 x < 256 ^ Z.of_nat 4) as Hu by (intros x; apply u32_range).
  destruct (store_value 4 (tbl + 128) (u32 phys) w Hi (Hu _)) as [H1 E1]. set (w1 := dma_store _ _ w) in *.
  assert (idle w1) as Hi1 by (by eapply idle_within).
  destruct (store_value 4 (tbl + 128 + 4) (u32 (Z.shiftr phys 32)) w1 Hi1 (Hu _)) as [H2 E2]. set (w2 := dma_store _ _ w1) in *.
  assert (idle w2) as Hi2 by (by eapply idle_within).
  destruct (set_bits_value 4 (tbl + 128 + 12) 0x3FFFFF (Z.land (u32 (n - 1)) 0x3FFFFF) w2 Hi2) as [H3 E3]. set (w3 := set_bits 4 _ _ _ w2) in *.
  assert (idle w3) as Hi3 by (by eapply idle_within).
  destruct (set_bits_value 4 (tbl + 128 + 12) 0x80000000 0x80000000 w3 Hi3) as [H4 E4]. set (w4 := set_bits 4 _ _ _ w3) in *.
  change (Z.of_nat 4) with 4 in *. change (256 ^ 4) with (2 ^ 32) in *. change (2 ^ 22) with 4194304 in *.
  assert (within (tbl + 128) 8 w w2) as H12 by (eapply within_trans; [exact H1|exact H2|lia..]).
  assert (within (tbl + 128 + 12) 4 w2 w4) as H34 by (eapply within_trans; [exact H3|exact H4|lia..]).
  split; [eapply within_trans; [exact H12|exact H34|lia..]|]. split.
  - unfold word64, word32. rewrite !(within_read _ _ _ _ _ _ H34) by (unfold apart; lia). rewrite E2.
    rewrite (within_read _ _ _ _ _ _ H2) by (unfold apart; lia). rewrite E1. by apply split64.
  - unfold word32. replace (tbl + 140) with (tbl + 128 + 12) by lia. rewrite E4. change 0x3FFFFF with (Z.ones 22). rewrite land_mod by lia.
    change 0x80000000 with (2 ^ 31). rewrite (keep_field _ 22 31 true) by lia. rewrite E3, land_mod by lia. change 0x3FFFFF with (Z.ones 22).
    rewrite set_field; [|lia|rewrite Z.land_ones by lia; apply Z.mod_pos_bound; lia].
    rewrite Z.land_ones by lia. change (2 ^ 22) with 4194304. rewrite u32_id by lia. rewrite Z.mod_small by lia. lia.
Qed.

Definition tbl0 d : Z := default 0 (p_cmd_tbl d !! 0%nat).

(** The memory that the driver shares with the port: command list, received frames and
    the table of the first slot. *)
Definition shared d (x : Z) : Prop := inside (p_cmd_list d) 1024 x \/ inside (p_fis_base d) 256 x \/ inside (tbl0 d) 384 x.

(** A port that has been set up: its list and its table lie where the specification
    wants them, and no command is running. *)
Definition port_ready d w : Prop :=
  idle w /\ p_port d = port /\ p_cmd_list d = h_clb (st w) /\ p_fis_base d = h_fb (st w) /\
  (h_clb (st w) - hhdm_offset) mod 1024 = 0 /\ (h_fb (st w) - hhdm_offset) mod 256 = 0 /\
  p_cmd_tbl d !! 0%nat = Some (tbl0 d) /\ (tbl0 d - hhdm_offset) mod 128 = 0 /\
  word64 (mem w) (h_clb (st w) + 8) = tbl0 d - hhdm_offset /\
  apart (h_clb (st w)) 1024 (tbl0 d) 384 /\ apart (h_fb (st w)) 256 (tbl0 d) 384 /\ apart (h_clb (st w)) 1024 (h_fb (st w)) 256.

Definition data_ok d (buf total : Z) : Prop :=
  0 <= hhdm_offset <= buf /\ buf + total < 2 ^ 64 /\ (buf - hhdm_offset) mod 2 = 0 /\
  apart (p_cmd_list d) 1024 buf total /\ apart (p_fis_base d) 256 buf total /\ apart (tbl0 d) 384 buf total.

(** One segment is enough for a command. *)
Lemma prdt_one tbl p n w : 0 < n <= 65536 ->
  prdt_loop (S (Z.to_nat n)) tbl 0 p n w = Ret (1, set_prdt tbl 0 (VIRT_TO_PHYS p) n true w).
Proof.
  intros Hn. cbn [prdt_loop]. destruct (Z.ltb_spec 0 n); [|lia]. cbn [negb Z.leb Z.compare]. destruct (Z.ltb_spec 0x400000 n); [lia|].
  rewrite Z.sub_diag. cbn [Z.eqb]. destruct (Z.to_nat n) as [|k] eqn:E; [lia|]. reflexivity.
Qed.

(** The memory when the command is issued. *)
Lemma prepared (write : bool) d lba n ptr w : port_ready d w -> 0 <= lba < 2 ^ 48 -> 0 < n <= 128 -> data_ok d ptr (n * 512) ->
  exists w1, ahci_chunk write d lba n ptr w = (let '(r, w') := ahci_issue_cmd d 0 w1 in Ret (if r <? 0 then -1 else 0, w')) /\
    st w1 = st w /\ (forall x, ~ shared d x -> mem w1 x = mem w x) /\ word64 (mem w1) (h_clb (st w) + 8) = tbl0 d - hhdm_offset /\
    let c := fetch hhdm_offset (mem w1) (h_clb (st w)) 0 in
    hc_cfl c = 5 /\ hc_w c = write /\ hc_prdtl c = 1 /\ hc_ctba c = tbl0 d - hhdm_offset /\
    hc_fis c = fis_bytes (if write then ATA_CMD_WRITE_DMA_EX else ATA_CMD_READ_DMA_EX) (Z.shiftl 1 6) lba n /\
    hc_dba c = ptr - hhdm_offset /\ hc_dbc c = n * 512.
Proof.
  intros (Hi & Ep & Ec & Ef & _ & _ & Et & _ & Ew & A1 & A2 & A3) Hl Hn (Hp & Hlim & _ & _). unfold ahci_chunk. rewrite Ep.
  destruct (is_write_law (AhciOk:=K) w Hi) as [Em0 Es0]. set (w0 := mmio_write32 _ _ w) in *.
  destruct (free_slot_ok w0) as (w1 & Ej & Em1 & Es1); [by rewrite Es0|]. rewrite Ej. cbn [Z.ltb Z.compare]. rewrite Em0 in Em1. rewrite Es0 in Es1.
  rewrite Ec. replace (h_clb (st w) + 32 * 0) with (h_clb (st w)) by lia. set (hdr := h_clb (st w)) in *. set (tbl := tbl0 d) in *.
  assert (idle w1) as Hi1 by (by rewrite Es1). destruct (flags_ok hdr write w1 Hi1) as (H2 & Ecfl & Ewr).
  set (w2 := set_c hdr (set_w hdr write (set_cfl hdr w1))) in *. assert (idle w2) as Hi2 by (by eapply idle_within).
  unfold set_prdtl. destruct (store_value 2 (hdr + 2) 0 w2 Hi2 ltac:(done)) as [H3 _]. set (w3 := dma_store _ _ w2) in *.
  assert (idle w3) as Hi3 by (by eapply idle_within).
  assert (tbl_of d 0 = Ret tbl) as -> by (unfold tbl_of, aget; cbn [Z.ltb Z.compare]; change (Z.to_nat 0) with 0%nat; by rewrite Et). cbn [mbind outcome_bind]. unfold AHCI_SECTOR_SIZE. rewrite prdt_one by lia. cbn [mbind outcome_bind].
  change (2 ^ 64) with 18446744073709551616 in *.
  assert (VIRT_TO_PHYS ptr = ptr - hhdm_offset) as Ev by (unfold VIRT_TO_PHYS; apply u64_id; lia). rewrite Ev.
  destruct (set_prdt_ok tbl (ptr - hhdm_offset) (n * 512) w3 Hi3) as (H4 & Edba & Edbc);
    [change (2 ^ 64) with 18446744073709551616; lia|change (2 ^ 22) with 4194304; lia|]. set (w4 := set_prdt _ _ _ _ _ w3) in *.
  assert (idle w4) as Hi4 by (by eapply idle_within). change (u16 1) with 1.
  destruct (store_value 2 (hdr + 2) 1 w4 Hi4 ltac:(done)) as [H5 E5]. set (w5 := dma_store _ _ w4) in *.
  assert (idle w5) as Hi5 by (by eapply idle_within). set (fis := fis_bytes _ _ lba n).
  assert (Forall byte_ok fis) as Hfis.
  { unfold fis, fis_bytes. repeat (apply Forall_cons; split; [first [apply u8_range|by destruct write|unfold byte_ok; vm_compute; split; congruence]|]). by apply Forall_nil. }
  destruct (dma_store_ok tbl fis w5 Hi5 Hfis) as [H6 E6]. change (len fis) with 20 in H6, E6. set (w6 := dma_store _ _ w5) in *.
  change (Z.of_nat 2) with 2 in *.
  assert (within hdr 4 w1 w3) as H13 by (eapply within_trans; [exact H2|exact H3|lia..]).
  exists w6. split; [done|]. destruct H6 as [S6 M6]. destruct H5 as [S5 M5]. destruct H4 as [S4 M4]. destruct H13 as [S3 M3].
  assert (forall b k, (b + k <= hdr + 2 \/ hdr + 4 <= b) -> (b + k <= tbl \/ tbl + 144 <= b) -> mread (mem w6) b k = mread (mem w3) b k) as R1.
  { intros b k Hb1 Hb2. apply mread_ext. intros x Hx. rewrite M6, M5, M4; [done|..]; unfold inside in *; lia. }
  assert (forall b k, (b + k <= hdr \/ hdr + 4 <= b) -> (b + k <= tbl \/ tbl + 144 <= b) -> mread (mem w6) b k = mread (mem w) b k) as R2.
  { intros b k Hb1 Hb2. rewrite R1 by lia. rewrite <- Em1. apply mread_ext. intros x Hx. apply M3. unfold inside in *. lia. }
  assert (word64 (mem w6) (hdr + 8) = tbl - hhdm_offset) as Ew6.
  { rewrite <- Ew. unfold word64, word32. unfold apart in *. rewrite !R2 by lia. done. }
  split; [by rewrite S6, S5, S4, S3, Es1|]. split.
  { intros x Hx. unfold shared in Hx. rewrite Ec in Hx. fold hdr tbl in Hx. rewrite M6, M5, M4, M3, Em1; [done|..]; unfold inside in *; lia. }
  split; [done|]. cbv zeta. unfold fetch. replace (hdr + 32 * 0) with hdr by lia. rewrite Ew6.
  replace (tbl - hhdm_offset + hhdm_offset) with tbl by lia. cbn [hc_cfl hc_w hc_prdtl hc_ctba hc_fis hc_dba hc_dbc].
  assert (mread (mem w6) hdr 1 = mread (mem w2) hdr 1) as Ehd.
  { unfold apart in *. rewrite R1 by lia. apply (within_read _ _ _ _ _ _ H3). unfold apart. lia. }
  rewrite Ehd. split; [done|]. split; [done|]. split.
  { rewrite <- E5. f_equal. apply mread_ext. intros x Hx. apply M6. unfold apart, inside in *. lia. }
  split; [done|]. split; [done|]. assert (forall b k, tbl + 128 <= b -> b + k <= tbl + 144 -> mread (mem w6) b k = mread (mem w4) b k) as R3.
  { intros b k Hb1 Hb2. apply mread_ext. intros x Hx. rewrite M6, M5; [done|..]; unfold apart, inside in *; lia. }
  unfold word64, word32 in Edba, Edbc |- *. rewrite !R3 by lia. done.
Qed.

(** A port that ends every command before the driver gives up; the specification gives
    no such bound. *)
Definition port_prompt : Prop :=
  forall w c slot s k, idle w -> h_phase (st (mmio_write32 (port + P_CI) (Z.shiftl 1 slot) w)) = Busy c s k -> Z.of_nat k < 1000000.

Section Prompt.
Hypothesis Hprompt : port_prompt.

Lemma ahci_chunk_ok write d lba n ptr w : port_ready d w -> 0 <= lba -> 0 < n <= 128 -> lba + n <= 2 ^ 48 ->
  (lba + n) * 512 <= len (h_disk (st w) id) -> data_ok d ptr (n * 512) ->
  runs_to (ahci_chunk write d lba n ptr w) (fun '(r, w') =>
    (r = 0 -> port_ready d w') /\
    moved faulty (shared d) (negb write) id (lba * 512) (n * 512) ptr (mem w) (mem w') (h_disk (st w)) (h_disk (st w')) r).
Proof.
  intros Hr Hl Hn Hlim Hfit Hd. pose proof Hr as (Hi & Ep & Ec & Ef & Ac & Af & Et & At & Ew & A1 & A2 & A3).
  pose proof Hd as (Hh & Hlim2 & Heven & D1 & D2 & D3).
  destruct (prepared write d lba n ptr w Hr ltac:(lia) Hn Hd) as (w1 & E & S1 & M1 & Ew1 & F1 & F2 & F3 & F4 & F5 & F6 & F7). rewrite E. clear E.
  set (c := fetch _ _ _ _) in *. destruct (fis_fields c _ lba n F5) as (G1 & G2 & G3 & G4 & G5 & G6); [lia|lia|].
  assert (hc_base c = ptr) as Eb by (unfold hc_base; rewrite F6; lia).
  assert (forall x, posted_at (st w) 0 x -> shared d x) as Hpost.
  { intros x. unfold posted_at, shared. rewrite Ec, Ef. unfold inside. lia. }
  assert (forall x, shared d x -> ~ inside ptr (n * 512) x) as Hsep.
  { intros x. unfold shared, inside, apart in *. lia. }
  assert (well_formed id (st w1) c 0) as Hv.
  { rewrite S1. unfold well_formed. rewrite F1, F3, F4, F6, F7, G1, G2, G3, G4, G5, G6, F2, Eb. split; [lia|]. do 11 (split; [done || lia|]). split; [done|]. split; [lia|]. split; [done|]. intros x Hx. apply Hsep. by apply Hpost. }
  unfold ahci_issue_cmd. rewrite Ep.
  destruct (issue_law (AhciOk:=K) w1 0) as (Em2 & k & Es2); [by rewrite S1|by rewrite S1 at 2|].
  pose proof (Hprompt w1 c 0 0 k) as Hk. rewrite Es2, S1 in Hk. specialize (Hk Hi eq_refl). rewrite S1 in Es2. fold c in Es2.
  set (w2 := mmio_write32 _ _ w1) in *.
  destruct (issue_loop_ok (Z.to_nat 1000000) k w2 c 0) as (r & w3 & Er & disk & Es3 & Hm); [by rewrite Es2|rewrite Es2; by rewrite S1 in Hv|lia|].
  rewrite Er. cbn [runs_to]. rewrite Es2 in Es3, Hm. cbn [with_phase h_clb h_fb h_disk] in Es3, Hm. rewrite Em2 in Hm.
  assert ((if r <? 0 then -1 else 0) = r) as -> by (destruct Hm as ([->|[_ ->]] & _); done).
  assert (moved faulty (shared d) (negb write) id (lba * 512) (n * 512) ptr (mem w) (mem w3) (h_disk (st w)) disk r) as Hmv.
  { rewrite G1, F2, F7, Eb in Hm. apply (moved_ext _ _ (shared d)) in Hm; [|exact Hpost]. destruct Hm as (H1 & H2 & H3 & H4). split; [done|]. split; [|split; [done|]].
    - intros x Hx Hdx. rewrite H2 by done. by apply M1.
    - intros Eq. destruct (H4 Eq) as [Hln Hdk]. split; [done|]. intros E0 j. rewrite Hdk by done. rewrite (mread_ext (mem w) (mem w1)); [done|].
      intros x Hx. apply M1. intros Hq. by apply (Hsep x). }
  split; [|by rewrite Es3]. intros ->. unfold port_ready. rewrite Es3. cbn [h_phase h_clb h_fb Z.eqb]. repeat (split; [done|]). split; [|done].
  rewrite <- Ew1. destruct Hm as (_ & H2 & _). assert (forall b, h_clb (st w) + 8 <= b -> b + 4 <= h_clb (st w) + 16 -> mread (mem w3) b 4 = mread (mem w1) b 4) as R.
  { intros b Hb1 Hb2. apply mread_ext. intros x Hx. apply H2.
    - intros [Hq|Hq]; unfold with_phase, posted_at, inside, apart in *; cbn [h_clb h_fb] in *; lia.
    - intros _ Hq. rewrite Eb, F7 in Hq. apply (Hsep x); [|done]. left. rewrite Ec. unfold inside in *. lia. }
  unfold word64, word32. rewrite !R by lia. done.
Qed.

(** ** Any number of commands *)

Lemma shared_apart d buf total x : data_ok d buf total -> shared d x -> ~ inside buf total x.
Proof. intros (_ & _ & _ & D1 & D2 & D3) H. unfold shared, inside, apart in *. lia. Qed.

Lemma ahci_rw_loop_ok write d fuel : forall lba count ptr w, port_ready d w -> 0 <= lba -> 0 <= count < Z.of_nat fuel -> lba + count <= 2 ^ 48 ->
  (lba + count) * 512 <= len (h_disk (st w) id) -> data_ok d ptr (count * 512) ->
  runs_to (ahci_rw_loop fuel write d lba count ptr w) (fun '(r, w') =>
    (r = 0 -> port_ready d w') /\
    moved faulty (shared d) (negb write) id (lba * 512) (count * 512) ptr (mem w) (mem w') (h_disk (st w)) (h_disk (st w')) r).
Proof.
  induction fuel as [|fuel IH]; intros lba count ptr w Hr Hl Hc Hlim Hfit Hd; [lia|]. cbn [ahci_rw_loop].
  destruct (Z.ltb_spec 0 count) as [Hpos|Hz]; cbn [negb].
  2:{ assert (count = 0) as -> by lia. cbn [runs_to]. split; [done|]. apply moved_nil. }
  set (n := if 128 <? count then 128 else count).
  assert (0 < n <= 128 /\ n <= count) as (Hn & Hnc) by (unfold n; destruct (Z.ltb_spec 128 count); lia). clearbody n.
  pose proof Hd as (Hh & Hlim2 & Heven & D1 & D2 & D3). change (2 ^ 48) with 281474976710656 in *. change (2 ^ 64) with 18446744073709551616 in *.
  eapply runs_to_bind; [apply (ahci_chunk_ok write d lba n ptr w); try done; try (change (2 ^ 48) with 281474976710656; lia); try lia|].
  { unfold data_ok. change (2 ^ 64) with 18446744073709551616. unfold apart in *. split_and!; lia. }
  intros [r w1] [Hr1 Hm1]. destruct (Z.ltb_spec r 0) as [Hneg|Hok].
  { cbn [runs_to]. split; [lia|]. eapply moved_failed; [|apply Z.le_trans with (count * 512); [|done]|exact Hm1]; lia. }
  assert (r = 0) as -> by (destruct Hm1 as ([?|[_ ?]] & _); lia). specialize (Hr1 eq_refl).
  pose proof (moved_len _ _ _ _ _ _ _ _ _ _ _ _ id Hm1) as Elen. unfold AHCI_SECTOR_SIZE.
  rewrite (u64_id (lba + n)), (u64_id (ptr + n * 512)) by lia.
  eapply runs_to_mono; [apply IH; try done; try lia|].
  { unfold data_ok. change (2 ^ 64) with 18446744073709551616. unfold apart in *. split_and!; try lia.
    replace (ptr + n * 512 - hhdm_offset) with (ptr - hhdm_offset + n * 256 * 2) by lia. by rewrite Z.mod_add by lia. }
  intros [r w2] [Hr2 Hm2]. split; [done|]. replace (count * 512) with (n * 512 + (count - n) * 512) by lia.
  eapply moved_app; [lia|lia|lia|lia| |exact Hm1|].
  - intros x Hx. replace (n * 512 + (count - n) * 512) with (count * 512) by lia. by eapply shared_apart.
  - by replace (lba * 512 + n * 512) with ((lba + n) * 512) by lia.
Qed.

(** ** Theorems *)

(** The disk behind the port has the sectors that it has reported. *)
Definition disk_ok d w : Prop := p_sector_count d <= 2 ^ 48 /\ p_sector_count d * 512 <= len (h_disk (st w) id).

Lemma ahci_rw_ok write d lba count buf w : port_ready d w -> disk_ok d w -> 0 <= lba -> 0 <= count -> lba + count <= p_sector_count d ->
  data_ok d buf (count * 512) ->
  runs_to (ahci_rw d lba count buf write w) (fun '(r, w') =>
    (r = 0 -> port_ready d w') /\ disk_ok d w' /\
    moved faulty (shared d) (negb write) id (lba * 512) (count * 512) buf (mem w) (mem w') (h_disk (st w)) (h_disk (st w')) r).
Proof.
  intros Hr [Hs Hfit] Hl Hc Hin Hd. eapply runs_to_mono; [apply ahci_rw_loop_ok; try done; lia|].
  intros [r w'] [Hr' Hm]. split; [done|]. split; [|done]. split; [done|]. by rewrite (moved_len _ _ _ _ _ _ _ _ _ _ _ _ id Hm).
Qed.

End Prompt.

(** Reading an AHCI disk.  On a port that behaves as the specification says, whose
    structures are aligned as it demands (ahci_port_rebase takes them from kmalloc as they
    are: [ahci_list_from_kmalloc]) and which ends every command in fewer than 1000000
    polls, whichever commands fail, ahci_read_blocks ends: it refuses sectors behind the end without touching anything, and otherwise, in commands
    of at most 128 sectors, either fills the buffer with exactly the bytes of the sectors
    and leaves the port ready, or reports a failed command.  The disks stay as they are,
    memory other than the buffer and the structures of the port too. *)
Theorem ahci_read_refines d lba count buf w :
  port_prompt -> port_ready d w -> disk_ok d w -> 0 <= lba -> 0 <= count -> lba + count < 2 ^ 64 -> data_ok d buf (count * 512) ->
  runs_to (ahci_read_blocks d lba count buf w) (fun '(r, w') =>
    if p_sector_count d <? lba + count then r = -1 /\ w' = w else
    h_disk (st w') = h_disk (st w) /\ (forall x, ~ shared d x -> ~ inside buf (count * 512) x -> mem w' x = mem w x) /\
    ((r = 0 /\ port_ready d w' /\ mread (mem w') buf (count * 512) = slice (h_disk (st w) id) (lba * 512) (count * 512)) \/
     (faulty /\ r = -1))).
Proof.
  intros Hprompt Hr Hk Hl Hc Hlim Hd. unfold ahci_read_blocks. change (2 ^ 64) with 18446744073709551616 in Hlim. rewrite u64_id by lia.
  destruct (Z.ltb_spec (p_sector_count d) (lba + count)) as [|Hin]; [done|].
  eapply runs_to_mono; [by apply (ahci_rw_ok Hprompt false)|]. intros [r w'] (Hr' & _ & Ho & Hf & Hrd & _). destruct (Hrd eq_refl) as [Ed Er].
  split; [done|]. split; [intros x Hs Hx; by apply Hf|]. destruct Ho as [->|Ho]; [left|by right]. split; [done|]. split; [by apply Hr'|by apply Er].
Qed.

(** Writing an AHCI disk.  On such a port whose commands do not fail, ahci_write_blocks
    stores exactly the bytes of the buffer in the sectors, changes no other byte of any
    disk and not the buffer; reading the sectors into any other buffer then delivers
    these bytes. *)
Theorem ahci_write_read_back d lba count buf buf' w :
  port_prompt -> ~ faulty -> port_ready d w -> disk_ok d w -> 0 <= lba -> 0 <= count -> lba + count <= p_sector_count d ->
  data_ok d buf (count * 512) -> data_ok d buf' (count * 512) ->
  exists w1 w2,
    ahci_write_blocks d lba count buf w = Ret (0, w1) /\
    (forall i, h_disk (st w1) i = if i =? id then splice (h_disk (st w) i) (lba * 512) (mread (mem w) buf (count * 512)) else h_disk (st w) i) /\
    mread (mem w1) buf (count * 512) = mread (mem w) buf (count * 512) /\
    ahci_read_blocks d lba count buf' w1 = Ret (0, w2) /\
    mread (mem w2) buf' (count * 512) = mread (mem w) buf (count * 512).
Proof.
  intros Hprompt Hnf Hr Hk Hl Hc Hin Hd Hd'. pose proof Hk as [Hs Hfit]. change (2 ^ 48) with 281474976710656 in Hs.
  unfold ahci_write_blocks, ahci_read_blocks. rewrite u64_id by lia. destruct (Z.ltb_spec (p_sector_count d) (lba + count)); [lia|].
  pose proof (ahci_rw_ok Hprompt true d lba count buf w Hr Hk Hl Hc Hin Hd) as H1. apply runs_to_inv in H1 as ([r1 w1] & E1 & Hr1 & Hk1 & Ho1 & Hf1 & _ & Hd1).
  destruct Ho1 as [->|[? _]]; [|done]. destruct (Hd1 eq_refl) as [_ Ed1]. specialize (Ed1 eq_refl). specialize (Hr1 eq_refl).
  pose proof (ahci_rw_ok Hprompt false d lba count buf' w1 Hr1 Hk1 Hl Hc Hin Hd') as H2. apply runs_to_inv in H2 as ([r2 w2] & E2 & _ & _ & Ho2 & _ & Hd2 & _).
  destruct Ho2 as [->|[? _]]; [|done]. destruct (Hd2 eq_refl) as [_ Ed2]. specialize (Ed2 eq_refl).
  exists w1, w2. split; [done|]. split; [done|]. split; [|split; [done|]].
  - apply mread_ext. intros x Hx. apply Hf1; [|done]. intros Hq. by apply (shared_apart d buf (count * 512) x).
  - rewrite Ed2, Ed1, Z.eqb_refl. rewrite <- (mread_len (mem w) buf (count * 512)) at 2 by lia. apply slice_splice_eq; [lia|].
    rewrite mread_len by lia. lia.
Qed.
End Driver.

(** ** Where the structures of a port lie *)

Section Limits.
Context {W : Type} {N : DmaHost W}.

(** The command list is the block that kmalloc returned, wherever it lies: the
    specification wants a multiple of 1024, and the port ignores the low bits. *)
Lemma ahci_list_from_kmalloc d d' (w w' : W) : ahci_port_rebase d w = Ret (d', w') ->
  exists w1 w2, dma_kmalloc 1024 w1 = (Some (p_cmd_list d'), w2).
Proof.
  unfold ahci_port_rebase. set (w1 := ahci_stop_cmd _ w). destruct (dma_kmalloc 1024 w1) as [[p|] w2] eqn:E; cbn [clear mbind outcome_bind]; [|done].
  destruct (dma_kmalloc 256 _) as [[q|] w3]; cbn [clear mbind outcome_bind]; [|done].
  destruct (alloc_tables _ _ _ _) as [[tbls w4]| |]; cbn [mbind outcome_bind]; [|done..]. intros [= <- _]. by exists w1, w2.
Qed.

(** Without memory the list is cleared at address 0. *)
Lemma ahci_rebase_no_memory d (w : W) : (forall w, fst (dma_kmalloc 1024 w) = None) -> ahci_port_rebase d w = Fault NullDeref.
Proof.
  intros H. unfold ahci_port_rebase. set (w1 := ahci_stop_cmd _ w). specialize (H w1). destruct (dma_kmalloc 1024 w1) as [p w2].
  cbn [fst] in H. by subst p.
Qed.
End Limits.

(** ** A port

    The first port of a controller, with a disk of eight sectors; three polls per
    command. *)
Module Demo.
Record world := mkworld { w_mem : Z -> Z; w_hba : hba }.

Definition FIRST_PORT : Z := 0x100.
Definition HHDM : Z := 0xFFFF800000000000.

Definition execute (c : hcmd) (w : world) : world :=
  let k := w_hba w in
  let base := hc_dba c + HHDM in
  let pos := hc_lba c * 512 in
  if hc_w c then
    mkworld (w_mem w) (mkhba (h_clb k) (h_fb k) Idle
      (fun i => if i =? 0 then splice (h_disk k i) pos (mread (w_mem w) base (hc_dbc c)) else h_disk k i))
  else mkworld (mwrite (w_mem w) base (slice (h_disk k 0) pos (hc_dbc c))) (mkhba (h_clb k) (h_fb k) Idle (h_disk k)).

(** A read of CI or IS: a running command makes progress. *)
Definition progress_of (w : world) : world :=
  match h_phase (w_hba w) with
  | Busy c s (S k) => mkworld (w_mem w) (with_phase (w_hba w) (Busy c s k))
  | Busy c s O => execute c w
  | _ => w
  end.

Definition ci_value (p : hba_phase) : Z := match p with Idle => 0 | Busy _ s _ | Stopped s => Z.shiftl 1 s end.
Definition is_value (p : hba_phase) : Z := match p with Stopped _ => HBA_PxIS_TFES | _ => 0 end.

Definition read32 (r : Z) (w : world) : Z * world :=
  if r =? FIRST_PORT + P_CI then let w := progress_of w in (ci_value (h_phase (w_hba w)), w)
  else if r =? FIRST_PORT + P_IS then let w := progress_of w in (is_value (h_phase (w_hba w)), w)
  else (0, w).

Definition issue (v : Z) (w : world) : world :=
  let slot := Z.log2 v in let k := w_hba w in
  mkworld (w_mem w) (with_phase k (Busy (fetch HHDM (w_mem w) (h_clb k) slot) slot 2)).

#[export] Instance demo_hba : DmaHost world := {
  dma_load a n w := (mread (w_mem w) a n, w);
  dma_store a bs w := mkworld (mwrite (w_mem w) a bs) (w_hba w);
  mmio_read32 := read32;
  mmio_read64 _ w := (0, w);
  mmio_write32 r v w := if r =? FIRST_PORT + P_CI then issue v w else w;
  mmio_write64 _ _ w := w;
  port_outl _ _ w := w;
  port_inl _ w := (0xFFFFFFFF, w);
  dma_kmalloc _ w := (None, w);
  dma_kfree _ w := w;
  hhdm_offset := HHDM;
}.

Lemma values_ok r p : r = P_CI \/ r = P_IS ->
  register_of r p (if r =? P_CI then ci_value p else is_value p).
Proof.
  assert (forall s, 0 <= s -> Z.testbit (Z.shiftl 1 s) s = true) as Hb by (intros s Hs; rewrite Z.shiftl_1_l; by apply Z.pow2_bits_true).
  intros [->| ->]; (split; intros E; try discriminate E); cbn; destruct p; cbn [ci_value is_value]; auto.
Qed.

Lemma read32_eq r w : r = P_CI \/ r = P_IS ->
  read32 (FIRST_PORT + r) w = (if r =? P_CI then ci_value (h_phase (w_hba (progress_of w))) else is_value (h_phase (w_hba (progress_of w))), progress_of w).
Proof. intros [->| ->]; reflexivity. Qed.

Lemma execute_moved c slot w : well_formed 0 (w_hba w) c slot ->
  moved False (posted_at (w_hba w) slot) (negb (hc_w c)) 0 (hc_lba c * 512) (hc_dbc c) (hc_base c) (w_mem w) (w_mem (execute c w))
    (h_disk (w_hba w)) (h_disk (w_hba (execute c w))) 0 /\
  w_hba (execute c w) = mkhba (h_clb (w_hba w)) (h_fb (w_hba w)) Idle (h_disk (w_hba (execute c w))).
Proof.
  intros (Hs & _ & _ & _ & _ & _ & _ & _ & _ & _ & _ & En & Hl & Hn & Hfit & Hap). unfold execute. change (hc_dba c + HHDM) with (hc_base c).
  destruct (hc_w c); cbn [w_mem w_hba h_disk negb]; (split; [|done]).
  - split; [by left|]. split; [done|]. split; [done|]. intros _. split; [|done]. intros n. destruct (Z.eqb_spec n 0) as [->|]; [|done].
    apply len_splice; [lia|]. rewrite mread_len by lia. lia.
  - assert (len (slice (h_disk (w_hba w) 0) (hc_lba c * 512) (hc_dbc c)) = hc_dbc c) as Es by (apply len_slice; lia).
    split; [by left|]. split; [|split; [|done]].
    + intros x Hx Hd. apply mwrite_out. rewrite Es. by apply Hd.
    + intros _. split; [done|]. intros _. pose proof (mread_write (w_mem w) (hc_base c) (slice (h_disk (w_hba w) 0) (hc_lba c * 512) (hc_dbc c))) as E.
      by rewrite Es in E.
Qed.

#[export, refine] Instance demo_hba_ok : AhciOk FIRST_PORT 0 False := { hb_mem := w_mem; hb_st := w_hba }.
Proof.
  - done.
  - intros w a n _. by exists w.
  - intros w _. by exists w.
  - done.
  - intros w slot. cbv zeta. intros Hi Hv. split; [done|]. exists 2%nat.
    change (mmio_write32 (FIRST_PORT + P_CI) (Z.shiftl 1 slot) w) with (issue (Z.shiftl 1 slot) w). unfold issue.
    rewrite Z.shiftl_1_l, Z.log2_pow2 by apply Hv. done.
  - intros w r Hr Hp. change (mmio_read32 (FIRST_PORT + r) w) with (read32 (FIRST_PORT + r) w). rewrite read32_eq by done.
    assert (progress_of w = w) as -> by (unfold progress_of; by destruct (h_phase (w_hba w))). eexists _, w. split; [done|]. split; [done|]. split; [done|].
    by apply values_ok.
  - intros w r c slot k Hr Hb Hv. change (mmio_read32 (FIRST_PORT + r) w) with (read32 (FIRST_PORT + r) w). rewrite read32_eq by done.
    unfold progress_of. rewrite Hb. eexists _, _. split; [done|]. split; [done|]. split; [done|]. by apply (values_ok r (Busy c slot k)).
  - intros w r c slot Hr Hb Hv. change (mmio_read32 (FIRST_PORT + r) w) with (read32 (FIRST_PORT + r) w). rewrite read32_eq by done.
    unfold progress_of. rewrite Hb. destruct (execute_moved c slot w Hv) as [Hm Es]. eexists _, (execute c w), 0, _. split; [done|]. split; [exact Es|].
    split; [exact Hm|]. by apply values_ok.
Defined.

(** The port after ahci_init: each byte of the disk is the number of its sector. *)
Definition place (i : Z) : Z := HHDM + 65536 * i.
Definition disk0 : list Z := concat (map (fun i => replicate 512 (Z.of_nat i)) (seq 0 8)).
Definition w0 : world :=
  mkworld (fun x => if x =? place 1 + 10 then 3 else if x <? place 4 then 0 else 7)
    (mkhba (place 1) (place 2) Idle (fun i => if i =? 0 then disk0 else [])).
Definition d0 : ahci_port := mkport FIRST_PORT (place 1) (place 2) [place 3] 8 0.

Lemma d0_ready : port_ready (id:=0) (faulty:=False) d0 w0.
Proof.
  split; [reflexivity|]. do 8 (split; [reflexivity|]). change (tbl0 d0) with (place 3).
  change (h_clb (hb_st w0)) with (place 1). change (h_fb (hb_st w0)) with (place 2). unfold apart, place. lia.
Qed.

Lemma d0_disk : disk_ok (port:=FIRST_PORT) (id:=0) (faulty:=False) d0 w0.
Proof. split; [discriminate|]. vm_compute. discriminate. Qed.

Lemma buffer_d0 i total : 4 <= i < 1000 -> 0 <= total <= 65536 -> data_ok d0 (place i) total.
Proof.
  intros Hi Ht. unfold data_ok. cbn [hhdm_offset demo_hba]. change (tbl0 d0) with (place 3). change (p_cmd_list d0) with (place 1).
  change (p_fis_base d0) with (place 2). split; [unfold place, HHDM; lia|]. split; [unfold place, HHDM; change (2 ^ 64) with 18446744073709551616; lia|].
  split; [|unfold apart, place; lia]. unfold place. replace (HHDM + 65536 * i - HHDM) with (32768 * i * 2) by lia. apply Z.mod_mul. lia.
Qed.

Lemma hba_prompt : port_prompt (port:=FIRST_PORT) (id:=0) (faulty:=False).
Proof.
  intros w c slot s k Hi. cbn [mmio_write32 demo_hba hb_st demo_hba_ok]. rewrite Z.eqb_refl. cbn. by intros [= _ _ <-].
Qed.

(** Two sectors are read. *)
Lemma ahci_read_refines_witness :
  exists w, ahci_read_blocks d0 3 2 (place 4) w0 = Ret (0, w) /\
    mread (hb_mem (port:=FIRST_PORT) (id:=0) (faulty:=False) w) (place 4) 1024 = replicate 512 3 ++ replicate 512 4.
Proof.
  pose proof (ahci_read_refines (port:=FIRST_PORT) (id:=0) (faulty:=False) d0 3 2 (place 4) w0 hba_prompt d0_ready d0_disk ltac:(lia) ltac:(lia) ltac:(done)
    (buffer_d0 4 1024 ltac:(lia) ltac:(lia))) as H.
  apply runs_to_inv in H as ([r w] & E & _ & _ & [(-> & _ & Hd)|[[] _]]). exists w. split; [exact E|]. exact Hd.
Defined.

(** A sector of sevens is written and read back. *)
Lemma ahci_write_read_back_witness :
  exists w1 w2, ahci_write_blocks d0 3 1 (place 4) w0 = Ret (0, w1) /\ ahci_read_blocks d0 3 1 (place 5) w1 = Ret (0, w2) /\
    mread (hb_mem (port:=FIRST_PORT) (id:=0) (faulty:=False) w2) (place 5) 512 = replicate 512 7.
Proof.
  destruct (ahci_write_read_back (port:=FIRST_PORT) (id:=0) (faulty:=False) d0 3 1 (place 4) (place 5) w0 hba_prompt ltac:(tauto) d0_ready d0_disk ltac:(lia) ltac:(lia) ltac:(done)
    (buffer_d0 4 512 ltac:(lia) ltac:(lia)) (buffer_d0 5 512 ltac:(lia) ltac:(lia))) as (w1 & w2 & E1 & _ & _ & E2 & Hd).
  exists w1, w2. split; [exact E1|]. split; [exact E2|]. change (1 * 512) with 512 in Hd. rewrite Hd. vm_compute. reflexivity.
Defined.
End Demo.
