(* ===== verification/Procfs.v ===== *)
(** * procfs: model

    core/fs/procfs.c: a table of 64 entries with their read functions, the argument
    lists of the processes, and the texts.  The read functions are the constructors
    of [proc_file]; a process is its index in the table of the NVM.  Text buffers
    are arrays of bytes whose contents before the call are [junk]; a string of
    the VFS is the list of its characters.  The rest of the kernel is the class
    [ProcHost].  Addresses of procfs_ops and of the read functions are arguments. *)

From stdpp Require Import strings.
From S2P Require Import Prelude NvmProcess Vfs Kstd KstdProofs Bytes BlockDev Text.

Definition MAX_PROCFS_ENTRIES : Z := 64.
Definition MAX_ARGS_PER_PROCESS : Z := 32.
Definition PROC_NAME_SIZE : Z := 128.
Definition PROCFS_PRIVATE_SIZE : Z := 24.      (** sizeof(procfs_private_t) *)
Definition PROC_S_IFREG_R : Z := Z.lor VFS_S_IFREG 292.
Definition PROC_S_IFDIR_R : Z := Z.lor VFS_S_IFDIR 365.

Inductive proc_file :=
| procfs_status_read | procfs_stack_read | procfs_bytecode_read | procfs_args_read
| procfs_cpuinfo | procfs_meminfo | procfs_pci | procfs_uptime | procfs_version | procfs_self.

#[global] Instance proc_file_eq_dec : EqDecision proc_file.
Proof. solve_decision. Defined.

Record procfs_entry := mkpe {
  pe_name : list Z;
  pe_read : option proc_file;
  pe_data : option Z;                (** the process, NULL for the system files *)
  pe_used : bool;
  pe_is_dir : bool;
}.

Record procfs_args_t := mkpa {
  pa_pid : Z;
  pa_args : list (option (Z * list Z));    (** 32 strings from kmalloc, with their addresses *)
  pa_argc : Z;
  pa_used : bool;
}.

(** The static variables; [temp_data] is dev_data of the static temp_file in
    procfs_open. *)
Record procfs := mkpf {
  procfs_entries : list procfs_entry;
  procfs_args : list procfs_args_t;
  temp_data : option Z;
  cpuinfo_buf : list Z;
  cpuinfo_initialized : bool;
}.

Definition set_entries f es := mkpf es (procfs_args f) (temp_data f) (cpuinfo_buf f) (cpuinfo_initialized f).
Definition set_args f a := mkpf (procfs_entries f) a (temp_data f) (cpuinfo_buf f) (cpuinfo_initialized f).
Definition set_temp f t := mkpf (procfs_entries f) (procfs_args f) t (cpuinfo_buf f) (cpuinfo_initialized f).
Definition set_cpuinfo f b i := mkpf (procfs_entries f) (procfs_args f) (temp_data f) b i.

(** ** The table *)

Definition named (name : list Z) (e : procfs_entry) : bool := pe_used e && str_eq (pe_name e) name.

Definition procfs_find_entry (f : procfs) (name : list Z) : option Z := first_index (named name) (procfs_entries f).

(** A full table drops the entry. *)
Definition procfs_add_entry (name : list Z) (rd : option proc_file) (data : option Z) (is_dir : bool) (f : procfs)
  : outcome procfs :=
  match first_index (fun e => negb (pe_used e)) (procfs_entries f) with
  | None => Ret f
  | Some i =>
      name ← strcpy_into PROC_NAME_SIZE name;
      es ← aset (procfs_entries f) i (mkpe name rd data true is_dir);
      Ret (set_entries f es)
  end.

Definition procfs_remove_entry (name : list Z) (f : procfs) : outcome procfs :=
  match procfs_find_entry f name with
  | None => Ret f
  | Some i =>
      e ← aget (procfs_entries f) i;
      es ← aset (procfs_entries f) i (mkpe (pe_name e) (pe_read e) (pe_data e) false (pe_is_dir e));
      Ret (set_entries f es)
  end.

(** ** The file system *)

(** The result and the private data of the mount. *)
Definition procfs_mount : Z * Z := (0, 0).
Definition procfs_unmount : Z := 0.

Definition proc_is_root (path : list Z) : bool := str_eq path [] || str_eq path [SLASH].

Definition procfs_stat (path : list Z) (f : procfs) : outcome (Z + vfs_stat_t) :=
  if proc_is_root path then Ret (inr (mkstat PROC_S_IFDIR_R 0 512 0))
  else match procfs_find_entry f path with
       | None => Ret (inl (- ENOENT))
       | Some i =>
           e ← aget (procfs_entries f) i;
           Ret (inr (mkstat (if pe_is_dir e then PROC_S_IFDIR_R else PROC_S_IFREG_R) 0 512 0))
       end.

Definition slashes (s : list Z) : Z := len (filter (eq SLASH) s).

Definition is_child (path name : list Z) : bool :=
  if proc_is_root path then slashes name =? 0
  else (len path <? len name) && has_prefix path name
       && bool_decide (name !! length path = Some SLASH) && (slashes (drop (S (length path)) name) =? 0).

(** [if (path_len > 0) { basename = entry_name + path_len; if (basename[0] == '/') basename++; }]. *)
Definition proc_basename (path name : list Z) : list Z :=
  match path with
  | [] => name
  | _ => match drop (length path) name with c :: s => if c =? SLASH then s else c :: s | [] => [] end
  end.

Fixpoint proc_readdir_loop (es : list procfs_entry) (path : list Z) (max : Z) (out : list vfs_dirent) : outcome (list vfs_dirent) :=
  match es with
  | [] => Ret out
  | e :: es' =>
      if negb (len out <? max) then Ret out
      else if pe_used e && is_child path (pe_name e) then
        d_name ← strcpy_into MAX_FILENAME (proc_basename path (pe_name e));
        proc_readdir_loop es' path max
          (out ++ [mkdirent d_name (type_code (if pe_is_dir e then VFS_TYPE_DIR else VFS_TYPE_FILE))])
      else proc_readdir_loop es' path max out
  end.

Definition procfs_readdir_impl (path : list Z) (max : Z) (f : procfs) : outcome (list vfs_dirent) :=
  proc_readdir_loop (procfs_entries f) path max [].

Record procfs_private := mkpp { pp_entry : Z; pp_pos : Z }.

(** [alloc]: the address kmalloc returned.  The private data, or an error code, and
    the state, whose temp_file is shared by all open files. *)
Definition procfs_open (path : list Z) (alloc : option Z) (f : procfs) : outcome ((Z + Z * procfs_private) * procfs) :=
  if proc_is_root path then Ret (inl (- EISDIR), f)
  else match procfs_find_entry f path with
       | None => Ret (inl (- ENOENT), f)
       | Some i =>
           e ← aget (procfs_entries f) i;
           if pe_is_dir e then Ret (inl (- ENOENT), f) else
           match alloc with
           | None => Ret (inl (- ENOMEM), f)
           | Some p => Ret (inr (p, mkpp i 0), set_temp f (pe_data e))
           end
       end.

(** The addresses that are released. *)
Definition procfs_close (private_data : option Z) : list Z := match private_data with Some p => [p] | None => [] end.

(** ** Texts of a process *)

(** An array of [n] bytes on the stack. *)
Definition fresh (junk : list Z) (n : Z) : list Z := take (Z.to_nat n) (junk ++ replicate (Z.to_nat n) 0).

(** A literal that starts with a line feed. *)
Definition nl (s : string) : list Z := 10 :: zlit s.

Definition yes_no (b : bool) : list Z := if b then zlit "yes" else zlit "no".

Definition status_text (junk : list Z) (p : nvm_process) : outcome (list Z) :=
  pid_str ← itoa (pid p) (fresh junk 16) 10;
  sp_str ← itoa (sp p) (fresh junk 16) 10;
  ip_str ← itoa (i32 (ip p)) (fresh junk 16) 10;
  size_str ← itoa (i32 (psize p)) (fresh junk 16) 10;
  exit_str ← itoa (exit_code p) (fresh junk 16) 10;
  buf ← strcpy_at (fresh junk 512) 0 (zlit "pid: ") 512;
  buf ← strcats buf 0
          [pid_str; nl "active: "; yes_no (active p); nl "blocked: "; yes_no (blocked p); nl "sp: "; sp_str;
           nl "ip: "; ip_str; nl "size: "; size_str; nl "exit_code: "; exit_str; nl "wakeup_reason: "] 512;
  pid_str ← itoa (wakeup_reason p) pid_str 10;
  buf ← strcats buf 0 [pid_str; nl "caps_count: "] 512;
  pid_str ← itoa (caps_count p) pid_str 10;
  strcats buf 0 [pid_str; nl ""] 512.

(** The loop over the stack: the buffer, the pointer and the bytes that remain. *)
Fixpoint stack_loop (n : nat) (p : nvm_process) (junk : list Z) (i : Z) (buf : list Z) (ptr remaining : Z)
  : outcome (list Z * Z * Z) :=
  match n with
  | O => Ret (buf, ptr, remaining)
  | S n' =>
      '(buf, ptr, remaining) ← (if (0 <? i) && (i mod 8 =? 0) then
                                  buf ← strcat_at buf ptr (nl "") remaining; Ret (buf, ptr + 1, u64 (remaining - 1))
                                else Ret (buf, ptr, remaining));
      v ← aget (stack p) i;
      hex_str ← itoa v (fresh junk 9) 16;
      formatted ← strcpy_at (fresh junk 11) 0 (zlit "0x") 11;
      l ← strlen hex_str;
      formatted ← strcats formatted 0 (replicate (Z.to_nat (8 - l)) (zlit "0")) 11;
      formatted ← strcats formatted 0 [hex_str; zlit " "] 11;
      buf ← strcat_at buf ptr formatted remaining;
      l ← strlen formatted;
      let ptr := ptr + l in
      let remaining := u64 (4096 - ptr) in
      if remaining <=? 20 then Ret (buf, ptr, remaining) else stack_loop n' p junk (i + 1) buf ptr remaining
  end.

Definition stack_text (junk : list Z) (p : nvm_process) : outcome (list Z) :=
  buf ← strcpy_at (fresh junk 4096) 0 (lit "Stack dump (hex):" ++ nl "") 4096;
  ptr ← strlen buf;
  '(buf, ptr, remaining) ← stack_loop (Z.to_nat (sp p)) p junk 0 buf ptr (u64 (4096 - ptr));
  strcat_at buf ptr (nl "") remaining.

(** ** The byte-code dump *)

Definition hex_chars : list Z := lit "0123456789abcdef".

Definition hex_byte (b : Z) : outcome (list Z) :=
  h ← aget hex_chars (Z.land (Z.shiftr b 4) 0x0F);
  l ← aget hex_chars (Z.land b 0x0F);
  Ret [h; l; 0].

(** One character of the right column. *)
Definition ascii_char (c : Z) : list Z := if (32 <=? c) && (c <=? 126) then [c; 0] else zlit ".".

Record dump := mkdump { du_buf : list Z; du_ptr : Z; du_rem : Z; du_ascii : list Z; du_idx : Z }.

(** The right column of a full row, and the new row. *)
Definition row_end (d : dump) : outcome dump :=
  buf ← strcat_at (du_buf d) (du_ptr d) (zlit "  |") (du_rem d);
  buf ← strcats buf (du_ptr d) (map ascii_char (take 16 (du_ascii d))) (du_rem d);
  buf ← strcat_at buf (du_ptr d) (lit "|" ++ nl "") (du_rem d);
  l ← strlen (drop (Z.to_nat (du_ptr d)) buf);
  let written := u64 (l - du_ptr d) in
  let ptr := i64 written in
  Ret (mkdump buf ptr (u64 (8192 - ptr)) (replicate 17 0) 0).

(** [while (i % 16 != 15 && i < size - 1)] of the truncated dump: [i], the buffer,
    the pointer and the remaining bytes. *)
Fixpoint pad_row (n : nat) (size i : Z) (buf : list Z) (ptr remaining : Z) : outcome (Z * list Z * Z * Z) :=
  match n with
  | O => OutOfFuel
  | S n' =>
      if negb (i mod 16 =? 15) && (i <? u64 (size - 1)) then
        buf ← strcat_at buf ptr (zlit "   ") remaining;
        pad_row n' size (i + 1) buf (ptr + 3) (u64 (remaining - 3))
      else Ret (i, buf, ptr, remaining)
  end.

(** The loop over the bytes. *)
Fixpoint dump_loop (n : nat) (code : list Z) (size i : Z) (d : dump) : outcome dump :=
  match n with
  | O => Ret d
  | S n' =>
      d ← (if (0 <? i) && (i mod 16 =? 0) then row_end d
           else if (0 <? i) && (i mod 8 =? 0) then
             buf ← strcat_at (du_buf d) (du_ptr d) (zlit " ") (du_rem d);
             Ret (mkdump buf (du_ptr d + 1) (u64 (du_rem d - 1)) (du_ascii d) (du_idx d))
           else Ret d);
      byte ← aget code i;
      hex ← hex_byte byte;
      buf ← strcats (du_buf d) (du_ptr d) [hex; zlit " "] (du_rem d);
      ascii ← aset (du_ascii d) (du_idx d) byte;
      let d := mkdump buf (du_ptr d + 3) (u64 (du_rem d - 3)) ascii (du_idx d + 1) in
      if du_rem d <=? 50 then
        d ← (if 0 <? du_idx d then
               '(_, buf, ptr, remaining) ← pad_row 17 size i (du_buf d) (du_ptr d) (du_rem d);
               buf ← strcats buf ptr (zlit "  |" :: map ascii_char (take (Z.to_nat (du_idx d)) (du_ascii d))
                                      ++ [lit "|" ++ nl ""]) remaining;
               Ret (mkdump buf ptr remaining (du_ascii d) (du_idx d))
             else Ret d);
        buf ← strcat_at (du_buf d) (du_ptr d) (nl "...[truncated]") (du_rem d);
        Ret (mkdump buf (du_ptr d) (du_rem d) (du_ascii d) (du_idx d))
      else dump_loop n' code size (i + 1) d
  end.

(** [while (ascii_idx < 16)]. *)
Fixpoint pad_last (n : nat) (buf : list Z) (ptr remaining : Z) : outcome (list Z * Z * Z) :=
  match n with
  | O => Ret (buf, ptr, remaining)
  | S n' => buf ← strcat_at buf ptr (zlit "   ") remaining; pad_last n' buf (ptr + 3) (u64 (remaining - 3))
  end.

(** The characters before the first zero. *)
Fixpoint before_nul (s : list Z) : list Z :=
  match s with [] => [] | c :: s' => if c =? 0 then [] else c :: before_nul s' end.

Definition bytecode_text (junk : list Z) (p : nvm_process) : outcome (list Z) :=
  buf ← strcpy_at (fresh junk 8192) 0 (lit "Bytecode (hex):" ++ nl "") 8192;
  ptr ← strlen buf;
  let start := mkdump buf ptr (u64 (8192 - ptr)) (replicate 17 0) 0 in
  d ← (if psize p =? 0 then Ret start
       else match bytecode p with
            | None => Fault NullDeref
            | Some b => dump_loop (Z.to_nat (psize p)) (buf_bytes b) (psize p) 0 start
            end);
  '(buf, ptr, remaining) ← (if 0 <? du_idx d then
       '(buf, ptr, remaining) ← pad_last (Z.to_nat (16 - du_idx d)) (du_buf d) (du_ptr d) (du_rem d);
       buf ← strcats buf ptr (zlit "  |" :: map ascii_char (before_nul (take 16 (du_ascii d))) ++ [lit "|" ++ nl ""]) remaining;
       Ret (buf, ptr, remaining)
     else Ret (du_buf d, du_ptr d, du_rem d));
  size_str ← itoa (i32 (psize p)) (fresh junk 16) 10;
  strcats buf ptr [nl "Bytecode size: "; size_str; lit " bytes" ++ nl ""] remaining.

(** ** Arguments *)

Definition args_of (pid : Z) (a : procfs_args_t) : bool := pa_used a && (pa_pid a =? pid).

(** The loop of procfs_args_read: pointers and sizes as in the code, in which the
    pointer moves by the length of an argument also when only a part of it was
    stored. *)
Fixpoint args_loop (n : nat) (a : procfs_args_t) (i : Z) (buf : list Z) (ptr remaining : Z) : outcome (list Z) :=
  match n with
  | O => Ret buf
  | S n' =>
      if negb (0 <? remaining) then Ret buf else
      arg ← aget (pa_args a) i;
      '(buf, ptr, remaining) ← match arg with
        | Some (_, s) => buf ← strcpy_at buf ptr (s ++ [0]) remaining; Ret (buf, ptr + len s, u64 (remaining - len s))
        | None => Ret (buf, ptr, remaining)
        end;
      if (1 <? remaining) && (i <? pa_argc a - 1) then
        buf ← aset buf ptr 10;
        buf ← aset buf (ptr + 1) 0;
        args_loop n' a (i + 1) buf (ptr + 1) (u64 (remaining - 1))
      else args_loop n' a (i + 1) buf ptr remaining
  end.

(** [None]: no arguments, the read returns 0. *)
Definition args_text (junk : list Z) (p : nvm_process) (f : procfs) : outcome (option (list Z)) :=
  match first_index (args_of (pid p)) (procfs_args f) with
  | None => Ret None
  | Some i =>
      a ← aget (procfs_args f) i;
      if pa_argc a =? 0 then Ret None else
      buf ← args_loop (Z.to_nat (pa_argc a)) a 0 (fresh junk 4096) 0 4096; Ret (Some buf)
  end.

(** ** Processor information *)

(** [while (str[0] >= '0' && str[0] <= '9')]: the value, the number of digits and the
    rest of the string. *)
Fixpoint digits_loop (s : list Z) (v n : Z) : Z * Z * list Z :=
  match s with
  | c :: s' => if (48 <=? c) && (c <=? 57) then digits_loop s' (i32 (v * 10 + (c - 48))) (n + 1) else (v, n, s)
  | [] => (v, n, [])
  end.

Fixpoint skip_blanks (s : list Z) : list Z :=
  match s with c :: s' => if (c =? 32) || (c =? 9) then skip_blanks s' else s | [] => [] end.

(** The string is given without its terminator. *)
Definition parse_frequency_mhz (s : list Z) : Z :=
  let '(integer_part, _, s) := digits_loop (skip_blanks s) 0 0 in
  let '(fractional_part, fractional_digits) :=
    match s with
    | c :: s' => if c =? 46 then let '(v, n, _) := digits_loop s' 0 0 in (v, n) else (0, 0)
    | [] => (0, 0)
    end in
  let mhz := i32 (integer_part * 1000) in
  if 0 <? fractional_digits then i32 (mhz + i32 (fractional_part * 10 ^ Z.max 0 (3 - fractional_digits))) else mhz.

(** The brand string with single spaces and no leading one; [j] counts the
    characters that are kept. *)
Fixpoint squeeze (s : list Z) (last_space : bool) (j : Z) : list Z :=
  match s with
  | [] => []
  | c :: s' =>
      if c =? 32 then
        if negb last_space && (0 <? j) then 32 :: squeeze s' true (j + 1) else squeeze s' last_space j
      else if c =? 0 then squeeze s' last_space j
      else c :: squeeze s' false (j + 1)
  end.

(** The four registers of one leaf. *)
Record cpuid_result := mkcpuid { eax : Z; ebx : Z; ecx : Z; edx : Z }.

Definition word_bytes (x : Z) : list Z := le_bytes 4 x.

Fixpoint freq_chars (s : list Z) : list Z :=
  match s with c :: s' => if (48 <=? c) && (c <=? 57) || (c =? 46) then c :: freq_chars s' else [] | [] => [] end.

Fixpoint skip_spaces (s : list Z) : list Z :=
  match s with c :: s' => if c =? 32 then skip_spaces s' else s | [] => [] end.

(** mhz_str after the model name has been examined; freq_buf has 32 bytes. *)
Definition mhz_of_name (junk : list Z) (name mhz_str : list Z) : outcome (list Z) :=
  at_sign ← strstr (name ++ [0]) (zlit "@");
  match at_sign with
  | None => Ret mhz_str
  | Some i =>
      let s := skip_spaces (drop (S (Z.to_nat i)) name) in
      match freq_chars s with
      | [] => Ret mhz_str
      | freq =>
          freq ← strcpy_into 32 freq;
          let mhz := parse_frequency_mhz freq in
          if 0 <? mhz then mhz_str ← itoa mhz mhz_str 10; strcat_at mhz_str 0 (zlit ".0") 32 else Ret mhz_str
      end
  end.

Section Cpu.
Context (cpuid : Z -> Z -> cpuid_result) (junk : list Z).

(** [strcpy_safe(buf, head, remaining)], [strcat_safe] of the other strings, and
    [buf += strlen(buf)]: the buffer and the pointer. *)
Definition cpu_line (buf : list Z) (ptr : Z) (head : list Z) (rest : list (list Z)) : outcome (list Z * Z) :=
  let remaining := u64 (2048 - ptr) in
  buf ← strcpy_at buf ptr head remaining;
  buf ← strcats buf ptr rest remaining;
  l ← strlen (drop (Z.to_nat ptr) buf);
  Ret (buf, ptr + l).

Definition itoa32 (x : Z) : outcome (list Z) := itoa (i32 x) (fresh junk 32) 10.

(** The vendor has twelve bytes; the string ends at the first zero among them. *)
Definition vendor_str : list Z :=
  let r := cpuid 0 0 in word_bytes (ebx r) ++ word_bytes (edx r) ++ word_bytes (ecx r) ++ [0].

Definition regs (r : cpuid_result) : list Z := word_bytes (eax r) ++ word_bytes (ebx r) ++ word_bytes (ecx r) ++ word_bytes (edx r).

Definition brand_str : list Z :=
  regs (cpuid 0x80000002 0) ++ regs (cpuid 0x80000003 0) ++ regs (cpuid 0x80000004 0).

(** The model name and mhz_str. *)
Definition model_name : outcome (list Z * list Z) :=
  let unknown := zlit "unknown" ++ replicate 24 0 in
  if 0x80000004 <=? eax (cpuid 0x80000000 0) then
    let name := squeeze brand_str false 0 in
    match name with
    | [] => Ret (lit "Unknown", unknown)
    | _ => mhz_str ← mhz_of_name junk name unknown; Ret (name, mhz_str)
    end
  else Ret (lit "Unknown", unknown).

Definition cpuinfo_init (buf : list Z) : outcome (list Z) :=
  '(buf, ptr) ← cpu_line buf 0 (zlit "vendor_id       : ") [vendor_str; nl ""];
  let r := cpuid 1 0 in
  family ← itoa32 (Z.land (Z.shiftr (eax r) 8) 0xF);
  '(buf, ptr) ← cpu_line buf ptr (zlit "cpu family      : ") [family; nl ""];
  let model := Z.lor (Z.shiftl (Z.land (Z.shiftr (eax r) 16) 0xF) 4) (Z.land (Z.shiftr (eax r) 4) 0xF) in
  model ← itoa32 model;
  '(buf, ptr) ← cpu_line buf ptr (zlit "model           : ") [model; nl ""];
  '(name, mhz_str) ← model_name;
  '(buf, ptr) ← cpu_line buf ptr (zlit "model name      : ") [name ++ [0]; nl ""];
  stepping ← itoa32 (Z.land (eax r) 0xF);
  '(buf, ptr) ← cpu_line buf ptr (zlit "stepping        : ") [stepping; nl ""];
  let f := cpuid 0x16 0 in
  mhz ← (if negb (eax f =? 0) && negb (ebx f =? 0) && negb (ecx f =? 0) then
           a ← itoa32 (eax f); b ← itoa (i32 (ebx f)) a 10; Ret [a; zlit "."; b]
         else
           c ← strcmp mhz_str (zlit "unknown");
           Ret (if c =? 0 then [] else [mhz_str]));
  '(buf, ptr) ← cpu_line buf ptr (zlit "cpu MHz         : ") (mhz ++ [nl ""]);
  '(buf, _) ← cpu_line buf ptr (zlit "fpu             : ") [yes_no (Z.testbit (edx r) 0); nl ""];
  Ret buf.
End Cpu.

(** ** Reading *)

Class ProcHost (H : Type) := {
  ph_processes : H -> list nvm_process;
  ph_current : H -> Z;                       (** current_process *)
  ph_total : H -> Z;                         (** get_memory_total *)
  ph_used : H -> Z;                          (** get_memory_used *)
  ph_uptime : H -> Z * H;                    (** timer_get_uptime *)
  ph_cpuid : Z -> Z -> cpuid_result;
  ph_kmalloc : Z -> H -> option Z * H;
  ph_kfree : Z -> H -> H;
}.

Section Read.
Context {H : Type} {PH : ProcHost H} (junk : list Z).

Definition meminfo_text (h : H) : outcome (list Z) :=
  let memTotal := ph_total h in
  let allocated := ph_used h in
  total ← format_memory_size memTotal;
  used ← format_memory_size allocated;
  free ← format_memory_size (u64 (memTotal - allocated));
  buf ← strcpy_at (fresh junk 512) 0 (zlit "MemTotal       : ") 512;
  strcats buf 0 [total ++ [0]; nl "MemUsed        : "; used ++ [0]; nl "MemFree        : "; free ++ [0]; nl ""] 512.

(** The string at the start of an array. *)
Definition str_of (a : list Z) : outcome (list Z) := l ← strlen a; Ret (take (Z.to_nat l) a).

(** uptime_buffer has 64 bytes. *)
Definition uptime_text (uptime_ms : Z) : outcome (list Z) :=
  let seconds := uptime_ms / 1000 in
  let centiseconds := uptime_ms mod 1000 / 10 in
  seconds_str ← itoa (i32 seconds) (fresh junk 24) 10;
  centiseconds_str ← itoa (i32 centiseconds) (fresh junk 8) 10;
  s ← str_of seconds_str;
  c ← str_of centiseconds_str;
  text ← strcpy_into 64 (s ++ [46] ++ (if centiseconds <? 10 then [48] else []) ++ c ++ [10]);
  Ret (text ++ [0]).

(** A read function called for a file with this dev_data: the result, the bytes
    stored in the buffer, the position, which is never negative. *)
Definition proc_read (file : proc_file) (dev_data : option Z) (count pos : Z) (f : procfs) (h : H)
  : outcome (Z * list Z * Z * procfs * H) :=
  let with_process (k : nvm_process -> outcome (Z * list Z * Z)) : outcome (Z * list Z * Z * procfs * H) :=
    match dev_data with
    | None => Ret (-1, [], pos, f, h)
    | Some i => p ← aget (ph_processes h) i; r ← k p; Ret (r, f, h)
    end in
  match file with
  | procfs_status_read => with_process (fun p => buf ← status_text junk p; text_read buf count pos)
  | procfs_stack_read => with_process (fun p => buf ← stack_text junk p; text_read buf count pos)
  | procfs_bytecode_read => with_process (fun p => buf ← bytecode_text junk p; text_read buf count pos)
  | procfs_args_read => with_process (fun p =>
      buf ← args_text junk p f;
      match buf with None => Ret (0, [], pos) | Some buf => text_read buf count pos end)
  | procfs_cpuinfo =>
      f ← (if cpuinfo_initialized f then Ret f
           else buf ← cpuinfo_init ph_cpuid junk (cpuinfo_buf f); Ret (set_cpuinfo f buf true));
      r ← text_read (cpuinfo_buf f) count pos; Ret (r, f, h)
  | procfs_meminfo => buf ← meminfo_text h; r ← text_read buf count pos; Ret (r, f, h)
  | procfs_pci => Ret (0, [], pos, f, h)
  | procfs_uptime =>
      let '(ms, h) := ph_uptime h in
      buf ← uptime_text ms; r ← text_read buf count pos; Ret (r, f, h)
  | procfs_version => r ← text_read (zlit "n300326") count pos; Ret (r, f, h)
  | procfs_self => pid_str ← itoa (ph_current h) (fresh junk 8) 10; r ← text_read pid_str count pos; Ret (r, f, h)
  end.

(** The file of the call is temp_file.  The result, the bytes and the private data
    afterwards. *)
Definition procfs_read (priv : option procfs_private) (count : Z) (f : procfs) (h : H)
  : outcome (Z * list Z * option procfs_private * procfs * H) :=
  match priv with
  | None => Ret (- EACCES, [], None, f, h)
  | Some x =>
      e ← aget (procfs_entries f) (pp_entry x);
      match pe_read e with
      | None => Ret (- EACCES, [], priv, f, h)
      | Some file =>
          '(n, bytes, pos, f, h) ← proc_read file (temp_data f) count (pp_pos x) f h;
          Ret (n, bytes, Some (mkpp (pp_entry x) pos), f, h)
      end
  end.

(** ** Arguments of a process *)

(** kfree of the arguments [j], ..., [n] of them. *)
Fixpoint free_args (n : nat) (a : procfs_args_t) (j : Z) (h : H) : outcome H :=
  match n with
  | O => Ret h
  | S n' =>
      arg ← aget (pa_args a) j;
      free_args n' a (j + 1) (match arg with Some (p, _) => ph_kfree p h | None => h end)
  end.

Definition procfs_clear_args (pid : Z) (f : procfs) (h : H) : outcome (procfs * H) :=
  match first_index (args_of pid) (procfs_args f) with
  | None => Ret (f, h)
  | Some i =>
      a ← aget (procfs_args f) i;
      h ← free_args (Z.to_nat (pa_argc a)) a 0 h;
      l ← aset (procfs_args f) i (mkpa (pa_pid a) (pa_args a) (pa_argc a) false);
      Ret (set_args f l, h)
  end.

(** Copies of the arguments [j], ..., [n] of them. *)
Fixpoint copy_args (n : nat) (argv : list (list Z)) (j : Z) (args : list (option (Z * list Z))) (h : H)
  : outcome (list (option (Z * list Z)) * H) :=
  match n with
  | O => Ret (args, h)
  | S n' =>
      s ← aget argv j;
      let '(p, h) := ph_kmalloc (len s + 1) h in
      args ← aset args j (match p with Some p => Some (p, s) | None => None end);
      copy_args n' argv (j + 1) args h
  end.

(** procfs_set_args starts like procfs_clear_args; argc is stored as it is. *)
Definition procfs_set_args (pid : Z) (argv : list (list Z)) (argc : Z) (f : procfs) (h : H) : outcome (procfs * H) :=
  '(f, h) ← procfs_clear_args pid f h;
  match first_index (fun a => negb (pa_used a)) (procfs_args f) with
  | None => Ret (f, h)
  | Some i =>
      a ← aget (procfs_args f) i;
      '(args, h) ← copy_args (Z.to_nat (Z.min argc MAX_ARGS_PER_PROCESS)) argv 0 (pa_args a) h;
      l ← aset (procfs_args f) i (mkpa pid args argc true);
      Ret (set_args f l, h)
  end.
End Read.

(** ** Registration *)

Definition str_proc : list Z := lit "/proc/".

(** The decimal of a process identifier. *)
Definition pid_string (pid : Z) : outcome (list Z) := a ← itoa pid (replicate 16 0) 10; str_of a.

Definition proc_files : list (string * proc_file) :=
  [("/status", procfs_status_read); ("/stack", procfs_stack_read);
   ("/bytecode", procfs_bytecode_read); ("/args", procfs_args_read)]%string.

Section Register.
Context {V : Type} {VE : VfsEnv V}.

(** The addresses of the read functions, and of the processes. *)
Context (fn_addr : proc_file -> Z) (proc_addr : Z -> Z).

Fixpoint add_files (files : list (string * proc_file)) (pid_str : list Z) (data : Z) (f : procfs) : outcome procfs :=
  match files with
  | [] => Ret f
  | (name, fn) :: files' =>
      rel ← strcpy_into 128 (pid_str ++ lit name);
      f ← procfs_add_entry rel (Some fn) (Some data) false f;
      add_files files' pid_str data f
  end.

Fixpoint register_nodes (files : list (string * proc_file)) (path : list Z) (data : Z) (v : vfs V) : outcome (vfs V) :=
  match files with
  | [] => Ret v
  | (name, fn) :: files' =>
      filepath ← strcpy_into 128 (path ++ lit name);
      '(v, _) ← vfs_pseudo_register filepath (mkdevops (Some (fn_addr fn)) None None None) (proc_addr data) v;
      register_nodes files' path data v
  end.

Definition procfs_register (pid data : Z) (f : procfs) (v : vfs V) : outcome (procfs * vfs V) :=
  pid_str ← pid_string pid;
  path ← strcpy_into 64 (str_proc ++ pid_str);
  f ← procfs_add_entry pid_str None (Some data) true f;
  f ← add_files proc_files pid_str data f;
  '(v, _) ← vfs_mkdir path v;
  v ← register_nodes proc_files path data v;
  Ret (f, v).

Fixpoint remove_files (files : list (string * proc_file)) (pid_str : list Z) (f : procfs) : outcome procfs :=
  match files with
  | [] => Ret f
  | (name, _) :: files' =>
      rel ← strcpy_into 128 (pid_str ++ lit name);
      f ← procfs_remove_entry rel f;
      remove_files files' pid_str f
  end.

Fixpoint delete_nodes (files : list (string * proc_file)) (path : list Z) (v : vfs V) : outcome (vfs V) :=
  match files with
  | [] => Ret v
  | (name, _) :: files' =>
      filepath ← strcpy_into 128 (path ++ lit name);
      '(v, _) ← vfs_delete filepath v;
      delete_nodes files' path v
  end.

Definition procfs_unregister {H : Type} {PH : ProcHost H} (pid : Z) (f : procfs) (v : vfs V) (h : H)
  : outcome (procfs * vfs V * H) :=
  pid_str ← pid_string pid;
  path ← strcpy_into 64 (str_proc ++ pid_str);
  f ← remove_files proc_files pid_str f;
  f ← procfs_remove_entry pid_str f;
  v ← delete_nodes proc_files path v;
  '(v, _) ← vfs_rmdir path v;
  '(f, h) ← procfs_clear_args pid f h;
  Ret (f, v, h).

Fixpoint add_system_files (files : list (string * proc_file)) (f : procfs) : outcome procfs :=
  match files with
  | [] => Ret f
  | (name, fn) :: files' => f ← procfs_add_entry (lit name) (Some fn) None false f; add_system_files files' f
  end.

Definition system_files : list (string * proc_file) :=
  [("cpuinfo", procfs_cpuinfo); ("meminfo", procfs_meminfo); ("pci", procfs_pci);
   ("uptime", procfs_uptime); ("version", procfs_version); ("self", procfs_self)]%string.

(** [ops]: the address of procfs_ops; 7 is VFS_FS_NODEV | VFS_FS_VIRTUAL |
    VFS_FS_READONLY. *)
Definition procfs_init (cpuid : Z -> Z -> cpuid_result) (junk : list Z) (ops : Z) (f : procfs) (v : vfs V)
  : outcome (procfs * vfs V) :=
  let f := set_entries f (map (fun e => mkpe (pe_name e) (pe_read e) (pe_data e) false (pe_is_dir e)) (procfs_entries f)) in
  let f := set_args f (map (fun a => mkpa (pa_pid a) (pa_args a) (pa_argc a) false) (procfs_args f)) in
  '(v, _) ← vfs_register_filesystem (Some (lit "procfs")) (Some ops) 7 v;
  '(v, _) ← vfs_mount_fs (Some (lit "procfs")) (Some (lit "/proc")) None 1 0 v;
  f ← add_system_files system_files f;
  buf ← cpuinfo_init cpuid junk (cpuinfo_buf f);
  Ret (set_cpuinfo f buf (cpuinfo_initialized f), v).
End Register.
