(* ===== verification/Fat32.v ===== *)
(** * The FAT32 driver: model

    core/fs/fat32.c and include/core/fs/fat32.h.  The driver works on one block
    device through the monad [io] of BlockDev.v.  A heap buffer is the list of
    its bytes, a path and a file name the list of the bytes of the C string,
    the parsed directory entry and the file handle are records.  NULL checks of
    arguments that the VFS never passes as NULL and log output are left out. *)

From S2P Require Import Prelude Bytes Vfs BlockDev.

Open Scope io_scope.

(** ** Constants *)

Definition ENOTEMPTY : Z := 39.

Definition FAT32_FREE : Z := 0.
Definition FAT32_BAD : Z := 0x0FFFFFF7.
Definition FAT32_EOC : Z := 0x0FFFFFF8.
Definition FAT32_MASK : Z := 0x0FFFFFFF.

Definition FAT_ATTR_VOLUME_ID : Z := 0x08.
Definition FAT_ATTR_DIRECTORY : Z := 0x10.
Definition FAT_ATTR_ARCHIVE : Z := 0x20.
Definition FAT_ATTR_LONG_NAME : Z := 0x0F.
Definition FAT_ATTR_LONG_NAME_MASK : Z := 0x3F.
Definition FAT_LFN_LAST : Z := 0x40.
Definition FAT_LFN_SEQ_MASK : Z := 0x1F.
Definition FAT_LFN_MAX : Z := 256.
Definition FAT_ENTRY_FREE : Z := 0xE5.
Definition FAT_ENTRY_END : Z := 0.
Definition DIR_ENTRY_SIZE : Z := 32.   (** sizeof(fat32_dir_entry_t) *)
Definition MAX_SCAN : Z := 512.
Definition ENTRY_SIZE : Z := 268.      (** sizeof(fat32_entry_t) *)
Definition FS_SIZE : Z := 40.          (** sizeof(fat32_fs_t) *)
Definition HANDLE_SIZE : Z := 20.      (** sizeof(fat32_file_handle_t) *)
Definition SPACE : Z := 32.
Definition DOT : Z := 46.

Definition fat32_is_free (x : Z) : bool := x =? FAT32_FREE.
Definition fat32_is_bad (x : Z) : bool := x =? FAT32_BAD.
Definition fat32_is_eoc (x : Z) : bool := FAT32_EOC <=? x.

(** ** Data *)

Record fat32_fs := mkfat {
  block_dev : Z;
  bytes_per_sector : Z;        (** uint16_t *)
  sectors_per_cluster : Z;     (** uint8_t *)
  bytes_per_cluster : Z;       (** uint32_t *)
  reserved_sectors : Z;        (** uint16_t *)
  num_fats : Z;                (** uint8_t *)
  fat_size : Z;                (** uint32_t *)
  root_cluster : Z;
  total_sectors : Z;
  data_start_sector : Z;
  total_clusters : Z
}.

Record fat32_entry := mkentry {
  e_name : list Z;             (** char name[FAT_LFN_MAX], as a C string *)
  e_first_cluster : Z;
  e_file_size : Z;
  e_attr : Z;
  e_is_dir : bool
}.

Record fat32_file_handle := mkfhandle {
  x_first_cluster : Z;
  x_file_size : Z;
  x_dir_cluster : Z;
  x_dir_entry_cluster : Z;
  x_dir_entry_index : Z
}.

(** The fields of an on-disk entry the driver uses. *)
Record fat32_dir_entry := mkde {
  de_name : list Z; de_ext : list Z; de_attr : Z; de_clus_hi : Z; de_clus_lo : Z; de_size : Z
}.

(** The accumulator of a long name. *)
Record lfn_state := mklfn { lfn_buf : list Z; lfn_len : Z; lfn_chk : Z; have_lfn : bool }.

(** [lfn_buf] is not initialised before the first long-name entry, and not
    read before it either. *)
Definition no_lfn : lfn_state := mklfn (replicate (Z.to_nat FAT_LFN_MAX) 0) 0 0 false.
Definition drop_lfn (l : lfn_state) : lfn_state := mklfn (lfn_buf l) 0 (lfn_chk l) false.

(** The C string an array holds. *)
Fixpoint c_string (a : list Z) : list Z :=
  match a with [] => [] | x :: a' => if x =? 0 then [] else x :: c_string a' end.

(** Registers the driver with the VFS; [ops] is the address of fat32_ops, and the
    result of the registration is ignored. *)
Definition fat32_init {V : Type} (ops : Z) (v : vfs V) : outcome (vfs V) :=
  '(v, _) ← vfs_register_filesystem (Some [102; 97; 116; 51; 50]) (Some ops) 0 v;
  Ret v.

Section Fat32.
Context {W : Type} `{FW : FsWorld W}.
Implicit Types (fs : fat32_fs).

(** ** Mounting *)

(** The address and the contents of the new [fs_private]. *)
Definition fat32_mount (device : list Z) : io W (Z * fat32_fs) := fun w =>
  match w_find device w with
  | None => Ret (w, Err (- ENODEV))
  | Some bdev =>
      with_buffer (w_block_size bdev w) (- ENOMEM) (fun boot =>
        boot ⇐ read_blocks bdev 0 1 boot;
        signature ⇐ lift (get16 boot 510);
        if negb (signature =? 0xAA55) then err (- EINVAL) else
        with_object FS_SIZE (- ENOMEM) (fun p =>
          bps ⇐ lift (get16 boot 11);
          spc ⇐ lift (get8 boot 13);
          res ⇐ lift (get16 boot 14);
          nfats ⇐ lift (get8 boot 16);
          ts16 ⇐ lift (get16 boot 19);
          ts32 ⇐ lift (get32 boot 32);
          fsz ⇐ lift (get32 boot 36);
          root ⇐ lift (get32 boot 44);
          let total := if negb (ts16 =? 0) then ts16 else ts32 in
          let data_start := u32 (res + u32 (nfats * fsz)) in
          let data_sectors := u32 (total - data_start) in
          if spc =? 0 then lift (Fault DivideError) else
          let clusters := data_sectors / spc in
          if clusters <? 65525 then err (- EINVAL) else
          ok (p, mkfat bdev bps spc (bps * spc) res nfats fsz root total data_start clusters))) w
  end.

(** [fs_private] of the mount is an address, 0 for NULL. *)
Definition fat32_unmount (fs_private : Z) : io W Z := fun w =>
  if fs_private =? 0 then Ret (w, Err (-22)) else Ret (w_kfree fs_private w, Ok 0).

(** ** The file allocation table *)

Definition out_of_range fs (cluster : Z) : bool :=
  (cluster <? 2) || (u32 (total_clusters fs + 2) <=? cluster).

Definition fat32_read_fat_entry fs (cluster : Z) : io W Z :=
  if out_of_range fs cluster then err (- EINVAL) else
  let fat_offset := u32 (cluster * 4) in
  q ⇐ lift (udiv fat_offset (bytes_per_sector fs));
  offset_in_sector ⇐ lift (umod fat_offset (bytes_per_sector fs));
  let fat_sector := u32 (reserved_sectors fs + q) in
  with_buffer (bytes_per_sector fs) (- ENOMEM) (fun sector_buf =>
    sector_buf ⇐ read_blocks (block_dev fs) fat_sector 1 sector_buf;
    raw ⇐ lift (get32 sector_buf offset_in_sector);
    ok (Z.land raw FAT32_MASK)).

(** The copies of the table from number [i] on. *)
Fixpoint write_fats (n : nat) fs (i sector_in_fat offset value : Z) (buf : list Z) : io W unit :=
  match n with
  | O => ok tt
  | S n' =>
      let fat_sector := u32 (reserved_sectors fs + u32 (i * fat_size fs) + sector_in_fat) in
      buf ⇐ read_blocks (block_dev fs) fat_sector 1 buf;
      old_raw ⇐ lift (get32 buf offset);
      let new_raw := Z.lor (Z.land old_raw (Z.lxor 0xFFFFFFFF FAT32_MASK)) (Z.land value FAT32_MASK) in
      buf ⇐ lift (put32 buf offset new_raw);
      write_blocks (block_dev fs) fat_sector 1 buf;;
      write_fats n' fs (i + 1) sector_in_fat offset value buf
  end.

Definition fat32_write_fat_entry fs (cluster value : Z) : io W unit :=
  if out_of_range fs cluster then err (- EINVAL) else
  let fat_offset := u32 (cluster * 4) in
  sector_in_fat ⇐ lift (udiv fat_offset (bytes_per_sector fs));
  offset_in_sector ⇐ lift (umod fat_offset (bytes_per_sector fs));
  with_buffer (bytes_per_sector fs) (- ENOMEM)
    (write_fats (Z.to_nat (num_fats fs)) fs 0 sector_in_fat offset_in_sector value).

(** The clusters from [cluster] on, at most [n]. *)
Fixpoint chain_loop (n : nat) fs (cluster : Z) : io W (list Z) :=
  match n with
  | O => ok []
  | S n' =>
      if (cluster <? 2) || fat32_is_bad cluster || fat32_is_eoc cluster then ok [] else
      next ⇐ fat32_read_fat_entry fs cluster;
      rest ⇐ chain_loop n' fs next;
      ok (cluster :: rest)
  end.

Definition fat32_get_cluster_chain fs (start max_len : Z) : io W (list Z) :=
  if max_len =? 0 then err (- EINVAL) else chain_loop (Z.to_nat max_len) fs start.

Fixpoint alloc_loop (n : nat) fs (c : Z) : io W Z :=
  match n with
  | O => err (- ENOSPC)
  | S n' =>
      entry ⇐ fat32_read_fat_entry fs c;
      if fat32_is_free entry then
        fat32_write_fat_entry fs c FAT32_EOC;;
        ok c
      else alloc_loop n' fs (c + 1)
  end.

(** [for (c = 2; c < total_clusters + 2; c++)], in [uint32_t]. *)
Definition fat32_alloc_cluster fs : io W Z :=
  alloc_loop (Z.to_nat (u32 (total_clusters fs + 2) - 2)) fs 2.

Definition fat32_extend_chain fs (last_cluster : Z) : io W Z :=
  new_cluster ⇐ fat32_alloc_cluster fs;
  r ⇐ attempt (fat32_write_fat_entry fs last_cluster new_cluster);
  match r with
  | Ok _ => ok new_cluster
  | Err e => attempt (fat32_write_fat_entry fs new_cluster FAT32_FREE);; err e
  end.

(** The loop has no bound of its own: [n] is the number of iterations the
    model allows. *)
Fixpoint free_loop (n : nat) fs (cluster : Z) : io W unit :=
  if (2 <=? cluster) && negb (fat32_is_free cluster) && negb (fat32_is_bad cluster) then
    match n with
    | O => fun _ => OutOfFuel
    | S n' =>
        next ⇐ fat32_read_fat_entry fs cluster;
        fat32_write_fat_entry fs cluster FAT32_FREE;;
        if fat32_is_eoc next then ok tt else free_loop n' fs next
    end
  else ok tt.

(** Every iteration frees a cluster that was not free, or is the last but one. *)
Definition fat32_free_chain fs (start : Z) : io W unit :=
  free_loop (Z.to_nat (total_clusters fs) + 2) fs start.

(** ** Clusters *)

Definition fat32_cluster_to_sector fs (cluster : Z) : Z :=
  u32 (data_start_sector fs + u32 (u32 (cluster - 2) * sectors_per_cluster fs)).

Definition fat32_read_cluster fs (cluster : Z) (buf : list Z) : io W (list Z) :=
  if out_of_range fs cluster then err (- EINVAL) else
  read_blocks (block_dev fs) (fat32_cluster_to_sector fs cluster) (sectors_per_cluster fs) buf.

Definition fat32_write_cluster fs (cluster : Z) (buf : list Z) : io W unit :=
  if out_of_range fs cluster then err (- EINVAL) else
  write_blocks (block_dev fs) (fat32_cluster_to_sector fs cluster) (sectors_per_cluster fs) buf.

(** ** Names *)

Fixpoint strip_spaces_rev (l : list Z) : list Z :=
  match l with x :: l' => if x =? SPACE then strip_spaces_rev l' else l | [] => [] end.

(** Without trailing spaces. *)
Definition strip_spaces (l : list Z) : list Z := reverse (strip_spaces_rev (reverse l)).

(** The characters stored in [out[out_size]] before the terminator. *)
Definition fat32_parse_83_name (raw_name raw_ext : list Z) (out_size : Z) : list Z :=
  let base := take (Z.to_nat (out_size - 1)) (strip_spaces raw_name) in
  let ext := strip_spaces raw_ext in
  if negb (len ext =? 0) && (len base <? out_size - 1)
  then take (Z.to_nat (out_size - 1)) (base ++ DOT :: ext)
  else base.

Definition fat32_lfn_checksum (name83 : list Z) : Z :=
  foldl (fun sum c => u8 ((if negb (Z.land sum 1 =? 0) then 0x80 else 0) + Z.shiftr sum 1 + c)) 0 name83.

(** The characters up to a terminator or filler. *)
Fixpoint lfn_chars (l : list Z) : list Z :=
  match l with
  | [] => []
  | ch :: l' =>
      if (ch =? 0) || (ch =? 0xFFFF) then []
      else (if ch <? 0x80 then ch else 63) :: lfn_chars l'
  end.

(** [n] 16-bit characters from offset [off]. *)
Fixpoint get16s (buf : list Z) (off : Z) (n : nat) : outcome (list Z) :=
  match n with
  | O => Ret []
  | S n' => x ← get16 buf off; xs ← get16s buf (off + 2) n'; Ret (x :: xs)
  end.

(** [base]: the offset of the entry in the buffer. *)
Definition fat32_lfn_extract (buf : list Z) (base : Z) : outcome (list Z) :=
  n1 ← get16s buf (base + 1) 5;
  n2 ← get16s buf (base + 14) 6;
  n3 ← get16s buf (base + 28) 2;
  Ret (lfn_chars (n1 ++ n2 ++ n3)).

Definition read_dir_entry (buf : list Z) (base : Z) : outcome fat32_dir_entry :=
  name ← mem_read buf base 8;
  ext ← mem_read buf (base + 8) 3;
  attr ← get8 buf (base + 11);
  hi ← get16 buf (base + 20);
  lo ← get16 buf (base + 26);
  size ← get32 buf (base + 28);
  Ret (mkde name ext attr hi lo size).

(** [for k: if (pos + k < FAT_LFN_MAX - 1) lfn_buf[pos + k] = chunk[k]]. *)
Fixpoint place_chars (b : list Z) (pos : Z) (chunk : list Z) : outcome (list Z) :=
  match chunk with
  | [] => Ret b
  | c :: chunk' =>
      b ← (if pos <? FAT_LFN_MAX - 1 then aset b pos c else Ret b);
      place_chars b (pos + 1) chunk'
  end.

(** A long-name entry at offset [base]; the same code in fat32_read_dir and in
    fat32_open_locate_dir_entry. *)
Definition lfn_step (l : lfn_state) (buf : list Z) (base : Z) : outcome lfn_state :=
  order ← get8 buf base;
  checksum ← get8 buf (base + 13);
  let seq := Z.land order FAT_LFN_SEQ_MASK in
  if (seq =? 0) || (20 <? seq) then Ret (drop_lfn l) else
  let l := if negb (Z.land order FAT_LFN_LAST =? 0)
           then mklfn (replicate (Z.to_nat FAT_LFN_MAX) 0) 0 checksum true else l in
  if negb (have_lfn l) || negb (checksum =? lfn_chk l) then Ret (drop_lfn l) else
  chunk ← fat32_lfn_extract buf base;
  let pos := (seq - 1) * 13 in
  b ← place_chars (lfn_buf l) pos chunk;
  let new_end := Z.min (pos + len chunk) (FAT_LFN_MAX - 1) in
  Ret (mklfn b (if lfn_len l <? new_end then new_end else lfn_len l) (lfn_chk l) (have_lfn l)).

(** The accumulated long name, if it belongs to the entry: [lfn_buf] with a
    terminator at [lfn_len]. *)
Definition long_name (l : lfn_state) (de : fat32_dir_entry) : outcome (option (list Z)) :=
  if have_lfn l && (0 <? lfn_len l) && (fat32_lfn_checksum (de_name de ++ de_ext de) =? lfn_chk l)
  then b ← aset (lfn_buf l) (lfn_len l) 0; Ret (Some (c_string b))
  else Ret None.

Definition first_cluster_of (de : fat32_dir_entry) : Z := Z.lor (Z.shiftl (de_clus_hi de) 16) (de_clus_lo de).

(** ** Reading a directory *)

(** What the loop over the entries of a cluster leaves: whether it jumped to
    [done], the accumulator and the entries found. *)
Fixpoint scan_entries (n : nat) (i : Z) (buf : list Z) (max_entries : Z) (l : lfn_state)
    (out : list fat32_entry) : outcome (bool * lfn_state * list fat32_entry) :=
  match n with
  | O => Ret (false, l, out)
  | S n' =>
      let base := i * DIR_ENTRY_SIZE in
      de ← read_dir_entry buf base;
      first ← get8 buf base;
      if first =? FAT_ENTRY_END then Ret (true, l, out) else
      if first =? FAT_ENTRY_FREE then scan_entries n' (i + 1) buf max_entries (drop_lfn l) out else
      if Z.land (de_attr de) FAT_ATTR_LONG_NAME_MASK =? FAT_ATTR_LONG_NAME then
        l ← lfn_step l buf base; scan_entries n' (i + 1) buf max_entries l out else
      if negb (Z.land (de_attr de) FAT_ATTR_VOLUME_ID =? 0) then
        scan_entries n' (i + 1) buf max_entries (drop_lfn l) out else
      if max_entries <=? len out then Ret (true, l, out) else
      long ← long_name l de;
      let name := match long with
                  | Some s => s
                  | None => c_string (fat32_parse_83_name (de_name de) (de_ext de) FAT_LFN_MAX)
                  end in
      let e := mkentry name (first_cluster_of de) (de_size de) (de_attr de)
                 (negb (Z.land (de_attr de) FAT_ATTR_DIRECTORY =? 0)) in
      scan_entries n' (i + 1) buf max_entries (drop_lfn l) (out ++ [e])
  end.

Definition in_chain (cluster : Z) : bool :=
  (2 <=? cluster) && negb (fat32_is_eoc cluster) && negb (fat32_is_bad cluster).

Definition entries_per_cluster fs : nat := Z.to_nat (bytes_per_cluster fs / DIR_ENTRY_SIZE).

(** [n] is [max_iterations]. *)
Fixpoint read_dir_loop (n : nat) fs (cluster max_entries : Z) (buf : list Z) (l : lfn_state)
    (out : list fat32_entry) : io W (list fat32_entry) :=
  match n with
  | O => ok out
  | S n' =>
      if negb (in_chain cluster) then ok out else
      buf ⇐ fat32_read_cluster fs cluster buf;
      '(stop, l, out) ⇐ lift (scan_entries (entries_per_cluster fs) 0 buf max_entries l out);
      if (stop : bool) then ok out else
      next ⇐ fat32_read_fat_entry fs cluster;
      read_dir_loop n' fs next max_entries buf l out
  end.

Definition fat32_read_dir fs (dir_cluster max_entries : Z) : io W (list fat32_entry) :=
  if max_entries =? 0 then err (- EINVAL) else
  with_buffer (bytes_per_cluster fs) (- ENOMEM) (fun buf =>
    read_dir_loop (Z.to_nat (total_clusters fs)) fs dir_cluster max_entries buf no_lfn []).

(** ** Lookup *)

Definition to_lower (c : Z) : Z := if (65 <=? c) && (c <=? 90) then c + 32 else c.

(** The comparison loop: equal up to the case of ASCII letters. *)
Fixpoint names_match (a b : list Z) : bool :=
  match a, b with
  | [], [] => true
  | x :: a', y :: b' => (to_lower x =? to_lower y) && names_match a' b'
  | _, _ => false
  end.

Definition fat32_lookup fs (dir_cluster : Z) (name : list Z) : io W fat32_entry :=
  with_buffer (MAX_SCAN * ENTRY_SIZE) (- ENOMEM) (fun _ =>
    entries ⇐ fat32_read_dir fs dir_cluster MAX_SCAN;
    match List.find (fun e => names_match (e_name e) name) entries with
    | Some e => ok e
    | None => err (- ENOENT)
    end).

(** ** Paths *)

Fixpoint skip_slashes (p : list Z) : list Z :=
  match p with c :: p' => if c =? SLASH then skip_slashes p' else p | [] => [] end.

(** At most [n] characters before a slash, and what follows them. *)
Fixpoint next_component (n : nat) (p : list Z) : list Z * list Z :=
  match n, p with
  | S n', c :: p' =>
      if c =? SLASH then ([], p) else let '(x, r) := next_component n' p' in (c :: x, r)
  | _, _ => ([], p)
  end.

(** Each iteration consumes a character: [n] is the length of the path. *)
Fixpoint resolve_loop (n : nat) fs (cur : Z) (path : list Z) (out : fat32_entry) : io W fat32_entry :=
  match path, n with
  | [], _ => ok out
  | _, O => fun _ => OutOfFuel
  | _, S n' =>
      let '(component, path) := next_component (Z.to_nat (MAX_FILENAME - 1)) path in
      let path := skip_slashes path in
      entry ⇐ fat32_lookup fs cur component;
      if negb (len path =? 0) && negb (e_is_dir entry) then err (- ENOTDIR) else
      if negb (len path =? 0) && (e_first_cluster entry =? 0) then err (- EINVAL) else
      resolve_loop n' fs (e_first_cluster entry) path entry
  end.

Definition root_entry fs : fat32_entry := mkentry [SLASH] (root_cluster fs) 0 FAT_ATTR_DIRECTORY true.

Definition fat32_resolve_path fs (path : list Z) : io W fat32_entry :=
  let path := skip_slashes path in
  resolve_loop (length path) fs (root_cluster fs) path (root_entry fs).

(** The last slash: what precedes it and what follows. *)
Fixpoint split_last_slash (p : list Z) : option (list Z * list Z) :=
  match p with
  | [] => None
  | c :: p' =>
      match split_last_slash p' with
      | Some (d, f) => Some (c :: d, f)
      | None => if c =? SLASH then Some ([], p') else None
      end
  end.

(** The components of [dir]; [component] is a [char[MAX_FILENAME]] that the
    copying loop does not check. *)
Fixpoint parent_loop (n : nat) fs (cluster : Z) (dir : list Z) : io W Z :=
  match dir, n with
  | [], _ => ok cluster
  | _, O => fun _ => OutOfFuel
  | _, S n' =>
      let '(component, rest) := next_component (length dir) dir in
      if MAX_FILENAME <=? len component then lift (Fault OutOfBounds) else
      e ⇐ fat32_lookup fs cluster component;
      parent_loop n' fs (e_first_cluster e) (skip_slashes rest)
  end.

Definition entry_matches (l : lfn_state) (de : fat32_dir_entry) (component : list Z) : outcome bool :=
  long ← long_name l de;
  Ret (match long with Some s => names_match s component | None => false end
       || names_match (c_string (fat32_parse_83_name (de_name de) (de_ext de) MAX_FILENAME)) component).

(** The loop over the entries of a cluster: found at an index, the end of the
    directory, or nothing here. *)
Inductive scan_result := Found (i : Z) | EndOfDir | NextCluster (l : lfn_state).

Fixpoint locate_entries (n : nat) (i : Z) (buf component : list Z) (l : lfn_state) : outcome scan_result :=
  match n with
  | O => Ret (NextCluster l)
  | S n' =>
      let base := i * DIR_ENTRY_SIZE in
      de ← read_dir_entry buf base;
      first ← get8 buf base;
      if first =? FAT_ENTRY_END then Ret EndOfDir else
      if first =? FAT_ENTRY_FREE then locate_entries n' (i + 1) buf component (drop_lfn l) else
      if Z.land (de_attr de) FAT_ATTR_LONG_NAME_MASK =? FAT_ATTR_LONG_NAME then
        l ← lfn_step l buf base; locate_entries n' (i + 1) buf component l else
      if negb (Z.land (de_attr de) FAT_ATTR_VOLUME_ID =? 0) then
        locate_entries n' (i + 1) buf component (drop_lfn l) else
      m ← entry_matches l de component;
      if (m : bool) then Ret (Found i) else locate_entries n' (i + 1) buf component (drop_lfn l)
  end.

Fixpoint locate_loop (n : nat) fs (cluster : Z) (component buf : list Z) (l : lfn_state) : io W (Z * Z) :=
  match n with
  | O => err (- ENOENT)
  | S n' =>
      if negb (in_chain cluster) then err (- ENOENT) else
      buf ⇐ fat32_read_cluster fs cluster buf;
      r ⇐ lift (locate_entries (entries_per_cluster fs) 0 buf component l);
      match r with
      | Found i => ok (cluster, i)
      | EndOfDir => err (- ENOENT)
      | NextCluster l =>
          next ⇐ fat32_read_fat_entry fs cluster;
          locate_loop n' fs next component buf l
      end
  end.

(** The cluster of the directory, and cluster and index of the entry. *)
Definition fat32_open_locate_dir_entry fs (path : list Z) : io W (Z * Z * Z) :=
  let path := skip_slashes path in
  '(parent, component) ⇐
    match split_last_slash path with
    | Some (dir, fname) =>
        parent ⇐ parent_loop (length dir) fs (root_cluster fs) dir;
        ok (parent, take (Z.to_nat (MAX_FILENAME - 1)) fname)
    | None => ok (root_cluster fs, take (Z.to_nat (MAX_FILENAME - 1)) path)
    end;
  with_buffer (bytes_per_cluster fs) (- ENOMEM) (fun buf =>
    '(c, i) ⇐ locate_loop (Z.to_nat (total_clusters fs)) fs parent component buf no_lfn;
    ok (parent, c, i)).

Definition fat32_update_dir_size fs (entry_cluster entry_index new_size : Z) : io W unit :=
  with_buffer (bytes_per_cluster fs) (- ENOMEM) (fun buf =>
    buf ⇐ fat32_read_cluster fs entry_cluster buf;
    buf ⇐ lift (put32 buf (entry_index * DIR_ENTRY_SIZE + 28) new_size);
    fat32_write_cluster fs entry_cluster buf).

Definition fat32_resolve_parent_cluster fs (path : list Z) : io W (Z * list Z) :=
  let path := skip_slashes path in
  match split_last_slash path with
  | None => ok (root_cluster fs, path)
  | Some (dir, fname) =>
      if MAX_FILENAME <=? len dir then err (- EINVAL) else
      parent ⇐ fat32_resolve_path fs dir;
      if negb (e_is_dir parent) then err (- ENOTDIR) else
      ok (e_first_cluster parent, fname)
  end.

(** ** Creating entries *)

Definition to_upper (c : Z) : Z := if (97 <=? c) && (c <=? 122) then c - 32 else c.

(** The last dot: what precedes it and what follows. *)
Fixpoint split_last_dot (s : list Z) : option (list Z * list Z) :=
  match s with
  | [] => None
  | c :: s' =>
      match split_last_dot s' with
      | Some (b, e) => Some (c :: b, e)
      | None => if c =? DOT then Some ([], s') else None
      end
  end.

Definition pad (n : nat) (s : list Z) : list Z := s ++ replicate (n - length s) SPACE.

Definition fat32_name_to_83 (name : list Z) : rc (list Z * list Z) :=
  let '(base, ext) := match split_last_dot name with Some (b, e) => (b, e) | None => (name, []) end in
  if (len base =? 0) || (8 <? len base) then Err (- EINVAL) else
  if 3 <? len ext then Err (- EINVAL) else
  Ok (pad 8 (map to_upper base), pad 3 (map to_upper ext)).

Definition of_rc {A} (r : rc A) : io W A := match r with Ok a => ok a | Err e => err e end.

(** A zeroed entry with a name, an extension and an attribute. *)
Definition new_entry (name ext : list Z) (attr : Z) : list Z :=
  name ++ ext ++ attr :: replicate 20 0.

(** The first slot of a cluster that is free or past the end. *)
Fixpoint find_slot (n : nat) (i : Z) (buf : list Z) : outcome (option Z) :=
  match n with
  | O => Ret None
  | S n' =>
      first ← get8 buf (i * DIR_ENTRY_SIZE);
      if (first =? FAT_ENTRY_END) || (first =? FAT_ENTRY_FREE) then Ret (Some i)
      else find_slot n' (i + 1) buf
  end.

(** Either the entry has been written, or the last cluster of the directory. *)
Fixpoint create_loop (n : nat) fs (cluster last : Z) (entry buf : list Z)
  : io W (Z * Z + Z * list Z) :=
  match n with
  | O => ok (inr (last, buf))
  | S n' =>
      if negb (in_chain cluster) then ok (inr (last, buf)) else
      buf ⇐ fat32_read_cluster fs cluster buf;
      slot ⇐ lift (find_slot (entries_per_cluster fs) 0 buf);
      match slot with
      | Some i =>
          buf ⇐ lift (mem_write buf (i * DIR_ENTRY_SIZE) entry);
          fat32_write_cluster fs cluster buf;;
          ok (inl (cluster, i))
      | None =>
          next ⇐ fat32_read_fat_entry fs cluster;
          create_loop n' fs next cluster entry buf
      end
  end.

Definition fat32_create_file_entry fs (dir_cluster : Z) (filename : list Z) : io W (Z * Z) :=
  '(name83, ext83) ⇐ of_rc (fat32_name_to_83 filename);
  let entry := new_entry name83 ext83 FAT_ATTR_ARCHIVE in
  with_buffer (bytes_per_cluster fs) (- ENOMEM) (fun buf =>
    r ⇐ create_loop (Z.to_nat (u32 (total_clusters fs + 1))) fs dir_cluster dir_cluster entry buf;
    match r with
    | inl place => ok place
    | inr (last, buf) =>
        new_cluster ⇐ fat32_extend_chain fs last;
        let buf := replicate (Z.to_nat (bytes_per_cluster fs)) 0 in
        buf ⇐ lift (mem_write buf 0 entry);
        rw ⇐ attempt (fat32_write_cluster fs new_cluster buf);
        match rw with
        | Ok _ => ok (new_cluster, 0)
        | Err e => attempt (fat32_write_fat_entry fs new_cluster FAT32_FREE);; err e
        end
    end).

(** ** Files *)

Definition fat32_trunc_file fs (fh : fat32_file_handle) : io W fat32_file_handle :=
  (if negb (x_first_cluster fh =? 0) then fat32_free_chain fs (x_first_cluster fh) else ok tt);;
  with_buffer (bytes_per_cluster fs) (- ENOMEM) (fun buf =>
    buf ⇐ fat32_read_cluster fs (x_dir_entry_cluster fh) buf;
    let base := x_dir_entry_index fh * DIR_ENTRY_SIZE in
    buf ⇐ lift (put16 buf (base + 20) 0);
    buf ⇐ lift (put16 buf (base + 26) 0);
    buf ⇐ lift (put32 buf (base + 28) 0);
    fat32_write_cluster fs (x_dir_entry_cluster fh) buf;;
    ok (mkfhandle 0 0 (x_dir_cluster fh) (x_dir_entry_cluster fh) (x_dir_entry_index fh))).

(** The address of the handle, its contents and the position. *)
Definition fat32_vfs_open fs (path : list Z) (flags : Z) : io W (Z * fat32_file_handle * Z) :=
  r ⇐ attempt (fat32_resolve_path fs path);
  match r with
  | Err e =>
      if (e =? - ENOENT) && negb (Z.land flags VFS_CREAT =? 0) then
        '(parent, filename) ⇐ fat32_resolve_parent_cluster fs path;
        '(ec, ei) ⇐ fat32_create_file_entry fs parent filename;
        with_object HANDLE_SIZE (- ENOMEM) (fun p => ok (p, mkfhandle 0 0 parent ec ei, 0))
      else err e
  | Ok entry =>
      if e_is_dir entry then err (- EINVAL) else
      with_object HANDLE_SIZE (- ENOMEM) (fun p =>
        '(dc, ec, ei) ⇐ fat32_open_locate_dir_entry fs path;
        let fh := mkfhandle (e_first_cluster entry) (e_file_size entry) dc ec ei in
        fh ⇐ (if negb (Z.land flags VFS_TRUNC =? 0) then fat32_trunc_file fs fh else ok fh);
        ok (p, fh, if negb (Z.land flags VFS_APPEND =? 0) then x_file_size fh else 0))
  end.

(** [private_data] of the handle, 0 for NULL. *)
Definition fat32_vfs_close (private_data : Z) : io W Z := fun w =>
  Ret (if private_data =? 0 then w else w_kfree private_data w, Ok 0).

(** [n] steps along the chain. *)
Fixpoint seek_clusters (n : nat) fs (cluster : Z) : io W Z :=
  match n with
  | O => ok cluster
  | S n' =>
      if fat32_is_eoc cluster || fat32_is_bad cluster then err (- EIO) else
      next ⇐ fat32_read_fat_entry fs cluster;
      seek_clusters n' fs next
  end.

(** [want] bytes left to copy; [out] are the bytes copied. *)
Fixpoint read_loop (n : nat) fs (cluster offset want : Z) (buf out : list Z) : io W (list Z) :=
  if want <=? 0 then ok out else
  match n with
  | O => fun _ => OutOfFuel
  | S n' =>
      if fat32_is_eoc cluster || fat32_is_bad cluster then ok out else
      buf ⇐ fat32_read_cluster fs cluster buf;
      let avail := u32 (bytes_per_cluster fs - offset) in
      let amount := if want <? avail then want else avail in
      bs ⇐ lift (mem_read buf offset amount);
      next ⇐ fat32_read_fat_entry fs cluster;
      read_loop n' fs next 0 (want - amount) buf (out ++ bs)
  end.

(** The bytes read and the new position. *)
Definition fat32_vfs_read fs (handle : option fat32_file_handle) (position count : Z)
  : io W (list Z * Z) :=
  if count =? 0 then ok ([], position) else
  match handle with
  | None => err (- EBADF)
  | Some fh =>
      if (position <? 0) || (x_file_size fh <=? u32 position) then ok ([], position) else
      let remaining := u32 (x_file_size fh - u32 position) in
      let count := if remaining <? count then remaining else count in
      with_buffer (bytes_per_cluster fs) (- ENOMEM) (fun buf =>
        cluster_idx ⇐ lift (udiv (u32 position) (bytes_per_cluster fs));
        offset ⇐ lift (umod (u32 position) (bytes_per_cluster fs));
        cluster ⇐ seek_clusters (Z.to_nat cluster_idx) fs (x_first_cluster fh);
        out ⇐ read_loop (Z.to_nat count) fs cluster offset count buf [];
        ok (out, i64 (position + len out)))
  end.

(** Extends the chain by a zeroed cluster. *)
Definition append_cluster fs (cluster : Z) : io W (Z * list Z) :=
  new_cluster ⇐ fat32_extend_chain fs cluster;
  let buf := replicate (Z.to_nat (bytes_per_cluster fs)) 0 in
  fat32_write_cluster fs new_cluster buf;;
  ok (new_cluster, buf).

(** The two walks of a write to the cluster with index [n]. *)
Fixpoint append_clusters (n : nat) fs (cluster : Z) (buf : list Z) : io W (Z * list Z) :=
  match n with
  | O => ok (cluster, buf)
  | S n' => '(c, buf) ⇐ append_cluster fs cluster; append_clusters n' fs c buf
  end.

Fixpoint walk_clusters (n : nat) fs (cluster : Z) (buf : list Z) : io W (Z * list Z) :=
  match n with
  | O => ok (cluster, buf)
  | S n' =>
      next ⇐ fat32_read_fat_entry fs cluster;
      if fat32_is_eoc next then
        '(c, buf) ⇐ append_cluster fs cluster; walk_clusters n' fs c buf
      else if fat32_is_bad next then err (- EIO)
      else walk_clusters n' fs next buf
  end.

(** The first cluster of an empty file, recorded in its directory entry; the
    result of recording it is ignored. *)
Definition record_first_cluster fs (fh : fat32_file_handle) (cluster : Z) : io W unit :=
  with_buffer (bytes_per_cluster fs) (- ENOMEM) (fun dbuf =>
    dbuf ⇐ fat32_read_cluster fs (x_dir_entry_cluster fh) dbuf;
    let base := x_dir_entry_index fh * DIR_ENTRY_SIZE in
    dbuf ⇐ lift (put16 dbuf (base + 20) (u16 (Z.shiftr cluster 16)));
    dbuf ⇐ lift (put16 dbuf (base + 26) (u16 (Z.land cluster 0xFFFF)));
    fat32_write_cluster fs (x_dir_entry_cluster fh) dbuf).

Definition first_cluster_for_write fs : io W (Z * list Z) :=
  cluster ⇐ fat32_alloc_cluster fs;
  let buf := replicate (Z.to_nat (bytes_per_cluster fs)) 0 in
  r ⇐ attempt (fat32_write_cluster fs cluster buf);
  match r with
  | Ok _ => ok (cluster, buf)
  | Err e => attempt (fat32_write_fat_entry fs cluster FAT32_FREE);; err e
  end.

Definition set_first_cluster (fh : fat32_file_handle) (c : Z) : fat32_file_handle :=
  mkfhandle c (x_file_size fh) (x_dir_cluster fh) (x_dir_entry_cluster fh) (x_dir_entry_index fh).
Definition set_file_size (fh : fat32_file_handle) (n : Z) : fat32_file_handle :=
  mkfhandle (x_first_cluster fh) n (x_dir_cluster fh) (x_dir_entry_cluster fh) (x_dir_entry_index fh).

(** How the write loop ends: the code behind it runs with the bytes written, or
    the function returns at once. *)
Inductive write_end := WriteDone (written : Z) | WriteReturn (r : Z).

Definition partial (written e : Z) : write_end := WriteReturn (if 0 <? written then written else e).

Fixpoint write_loop (n : nat) fs (cluster offset written : Z) (src buf : list Z) : io W write_end :=
  if len src <=? written then ok (WriteDone written) else
  match n with
  | O => fun _ => OutOfFuel
  | S n' =>
      if fat32_is_eoc cluster || (cluster <? 2) then ok (WriteDone written) else
      r ⇐ attempt (fat32_read_cluster fs cluster buf);
      match r with
      | Err e => ok (partial written e)
      | Ok buf =>
          let avail := u32 (bytes_per_cluster fs - offset) in
          let want := len src - written in
          let amount := if want <? avail then want else avail in
          bs ⇐ lift (mem_read src written amount);
          buf ⇐ lift (mem_write buf offset bs);
          r ⇐ attempt (fat32_write_cluster fs cluster buf);
          match r with
          | Err e => ok (partial written e)
          | Ok _ =>
              let written := written + amount in
              if negb (written <? len src) then write_loop n' fs cluster 0 written src buf else
              r ⇐ attempt (fat32_read_fat_entry fs cluster);
              match r with
              | Err _ => ok (WriteReturn written)
              | Ok next =>
                  if fat32_is_eoc next then
                    r ⇐ attempt (append_cluster fs cluster);
                    match r with
                    | Err e => ok (partial written e)
                    | Ok (c, buf) => write_loop n' fs c 0 written src buf
                    end
                  else if fat32_is_bad next || (next <? 2) then ok (WriteDone written)
                  else write_loop n' fs next 0 written src buf
              end
          end
      end
  end.

(** The part of fat32_vfs_write that has the cluster buffer: the handle, which
    may have its first cluster now, and the end of the loop. *)
Definition write_clusters fs (fh : fat32_file_handle) (pos : Z) (src buf : list Z)
  : io W (fat32_file_handle * write_end) :=
  cluster_idx ⇐ lift (udiv pos (bytes_per_cluster fs));
  offset ⇐ lift (umod pos (bytes_per_cluster fs));
  let finish := fun fh (r : rc (Z * list Z)) =>
    match r with
    | Err e => ok (fh, WriteReturn e)
    | Ok (cluster, buf) =>
        e ⇐ write_loop (S (length src)) fs cluster offset 0 src buf;
        ok (fh, e)
    end in
  if x_first_cluster fh =? 0 then
    r ⇐ attempt (first_cluster_for_write fs);
    match r with
    | Err e => ok (fh, WriteReturn e)
    | Ok (cluster, buf) =>
        let fh := set_first_cluster fh cluster in
        attempt (record_first_cluster fs fh cluster);;
        r ⇐ attempt (append_clusters (Z.to_nat cluster_idx) fs cluster buf);
        finish fh r
    end
  else
    r ⇐ attempt (walk_clusters (Z.to_nat cluster_idx) fs (x_first_cluster fh) buf);
    finish fh r.

(** The handle, the new position and the return value. *)
Definition fat32_vfs_write fs (handle : option fat32_file_handle) (position : Z) (src : list Z)
  : io W (option fat32_file_handle * Z * Z) :=
  if len src =? 0 then ok (handle, position, 0) else
  match handle with
  | None => ok (None, position, - EBADF)
  | Some fh =>
      if position <? 0 then ok (handle, position, - EINVAL) else
      r ⇐ attempt (with_buffer (bytes_per_cluster fs) (- ENOMEM)
                     (write_clusters fs fh (u32 position) src));
      match r with
      | Err e => ok (handle, position, e)
      | Ok (fh, WriteReturn v) => ok (Some fh, position, v)
      | Ok (fh, WriteDone written) =>
          let position := i64 (position + written) in
          if x_file_size fh <? u32 position then
            let fh := set_file_size fh (u32 position) in
            attempt (fat32_update_dir_size fs (x_dir_entry_cluster fh) (x_dir_entry_index fh) (x_file_size fh));;
            ok (Some fh, position, written)
          else ok (Some fh, position, written)
      end
  end.

(** The new position, which is also the result. *)
Definition fat32_vfs_seek (handle : option fat32_file_handle) (position offset whence : Z) : rc Z :=
  match handle with
  | None => Err (- EBADF)
  | Some fh =>
      let clamp := fun p => Ok (if p <? 0 then 0 else p) in
      if whence =? VFS_SEEK_SET then clamp offset
      else if whence =? VFS_SEEK_CUR then clamp (i64 (position + offset))
      else if whence =? VFS_SEEK_END then clamp (i64 (x_file_size fh + offset))
      else Err (- EINVAL)
  end.

(** ** Directories *)

Definition is_dot_name (n : list Z) : bool := str_eq n [DOT] || str_eq n [DOT; DOT].

Definition fat32_vfs_readdir fs (path : list Z) (max_entries : Z) : io W (list vfs_dirent) :=
  dir ⇐ fat32_resolve_path fs path;
  if negb (e_is_dir dir) then err (- ENOTDIR) else
  with_buffer (MAX_SCAN * ENTRY_SIZE) (- ENOMEM) (fun _ =>
    entries ⇐ fat32_read_dir fs (e_first_cluster dir) MAX_SCAN;
    ok (take (Z.to_nat max_entries)
          (map (fun e => mkdirent (strcpy_safe_into MAX_FILENAME (e_name e))
                           (type_code (if e_is_dir e then VFS_TYPE_DIR else VFS_TYPE_FILE)))
             (filter (fun e => is_dot_name (e_name e) = false) entries)))).

Definition fat32_vfs_stat fs (path : list Z) : io W vfs_stat_t :=
  entry ⇐ fat32_resolve_path fs path;
  ok (if e_is_dir entry then mkstat VFS_S_IFDIR 0 (bytes_per_cluster fs) 0
      else mkstat VFS_S_IFREG (e_file_size entry) (bytes_per_cluster fs) 0).

(** An entry that points to a cluster. *)
Definition dot_entry (name : list Z) (cluster : Z) : list Z :=
  splice (splice (new_entry (pad 8 name) (pad 3 []) FAT_ATTR_DIRECTORY)
    20 (le_bytes 2 (u16 (Z.shiftr cluster 16)))) 26 (le_bytes 2 (u16 (Z.land cluster 0xFFFF))).

(** [r = m; if (r != 0) { undo; return r; }]. *)
Definition or_undo {A} (m : io W A) (undo : io W unit) : io W A :=
  r ⇐ attempt m;
  match r with Ok a => ok a | Err e => attempt undo;; err e end.

Definition fat32_vfs_mkdir fs (path : list Z) : io W Z :=
  existing ⇐ attempt (fat32_resolve_path fs path);
  match existing with
  | Ok _ => err (- EEXIST)
  | Err _ =>
      '(parent, dirname) ⇐ fat32_resolve_parent_cluster fs path;
      _ ⇐ of_rc (fat32_name_to_83 dirname);
      dir_cluster ⇐ fat32_alloc_cluster fs;
      or_undo
        (with_buffer (bytes_per_cluster fs) (- ENOMEM) (fun buf =>
           let buf := replicate (Z.to_nat (bytes_per_cluster fs)) 0 in
           buf ⇐ lift (mem_write buf 0 (dot_entry [DOT] dir_cluster));
           let up := if parent =? root_cluster fs then 0 else parent in
           buf ⇐ lift (mem_write buf DIR_ENTRY_SIZE (dot_entry [DOT; DOT] up));
           fat32_write_cluster fs dir_cluster buf))
        (fat32_write_fat_entry fs dir_cluster FAT32_FREE);;
      or_undo
        ('(ec, ei) ⇐ fat32_create_file_entry fs parent dirname;
         with_buffer (bytes_per_cluster fs) (- ENOMEM) (fun buf =>
           buf ⇐ fat32_read_cluster fs ec buf;
           let base := ei * DIR_ENTRY_SIZE in
           buf ⇐ lift (aset buf (base + 11) FAT_ATTR_DIRECTORY);
           buf ⇐ lift (put16 buf (base + 20) (u16 (Z.shiftr dir_cluster 16)));
           buf ⇐ lift (put16 buf (base + 26) (u16 (Z.land dir_cluster 0xFFFF)));
           buf ⇐ lift (put32 buf (base + 28) 0);
           fat32_write_cluster fs ec buf))
        (fat32_free_chain fs dir_cluster);;
      ok 0
  end.

(** The entry with an 8.3 name, a directory or not: its index, the end of the
    directory, or nothing here. *)
Fixpoint match_entries (n : nat) (i : Z) (buf name83 ext83 : list Z) (want_dir : bool)
  : outcome scan_result :=
  match n with
  | O => Ret (NextCluster no_lfn)
  | S n' =>
      let base := i * DIR_ENTRY_SIZE in
      de ← read_dir_entry buf base;
      first ← get8 buf base;
      if first =? FAT_ENTRY_END then Ret EndOfDir else
      if first =? FAT_ENTRY_FREE then match_entries n' (i + 1) buf name83 ext83 want_dir else
      if Z.land (de_attr de) FAT_ATTR_LONG_NAME_MASK =? FAT_ATTR_LONG_NAME
      then match_entries n' (i + 1) buf name83 ext83 want_dir else
      if negb (eqb (negb (Z.land (de_attr de) FAT_ATTR_DIRECTORY =? 0)) want_dir)
      then match_entries n' (i + 1) buf name83 ext83 want_dir else
      if str_eq (de_name de) name83 && str_eq (de_ext de) ext83 then Ret (Found i)
      else match_entries n' (i + 1) buf name83 ext83 want_dir
  end.

(** Marks the entry deleted. *)
Fixpoint delete_loop (n : nat) fs (cluster : Z) (name83 ext83 : list Z) (want_dir : bool) (buf : list Z)
  : io W unit :=
  match n with
  | O => err (- ENOENT)
  | S n' =>
      if negb (in_chain cluster) then err (- ENOENT) else
      buf ⇐ fat32_read_cluster fs cluster buf;
      r ⇐ lift (match_entries (entries_per_cluster fs) 0 buf name83 ext83 want_dir);
      match r with
      | Found i =>
          buf ⇐ lift (aset buf (i * DIR_ENTRY_SIZE) FAT_ENTRY_FREE);
          fat32_write_cluster fs cluster buf
      | EndOfDir => err (- ENOENT)
      | NextCluster _ =>
          next ⇐ fat32_read_fat_entry fs cluster;
          delete_loop n' fs next name83 ext83 want_dir buf
      end
  end.

(** The common end of fat32_vfs_rmdir and fat32_vfs_unlink. *)
Definition delete_entry fs (path : list Z) (first_cluster : Z) (want_dir : bool) : io W Z :=
  '(parent, name) ⇐ fat32_resolve_parent_cluster fs path;
  '(name83, ext83) ⇐ of_rc (fat32_name_to_83 name);
  with_buffer (bytes_per_cluster fs) (- ENOMEM) (fun buf =>
    delete_loop (Z.to_nat (u32 (total_clusters fs + 1))) fs parent name83 ext83 want_dir buf);;
  (if 2 <=? first_cluster then fat32_free_chain fs first_cluster else ok tt);;
  ok 0.

Definition fat32_vfs_rmdir fs (path : list Z) : io W Z :=
  entry ⇐ fat32_resolve_path fs path;
  if negb (e_is_dir entry) then err (- ENOTDIR) else
  with_buffer (MAX_SCAN * ENTRY_SIZE) (- ENOMEM) (fun _ =>
    entries ⇐ fat32_read_dir fs (e_first_cluster entry) MAX_SCAN;
    if forallb (fun e => is_dot_name (e_name e)) entries then ok tt else err (- ENOTEMPTY));;
  delete_entry fs path (e_first_cluster entry) true.

Definition fat32_vfs_unlink fs (path : list Z) : io W Z :=
  entry ⇐ fat32_resolve_path fs path;
  if e_is_dir entry then err (- EISDIR) else
  delete_entry fs path (e_first_cluster entry) false.
End Fat32.
