(* ===== verification/IoLogic.v ===== *)
(** * Reasoning about disk drivers

    [triple d bs img m Q E]: run from any world in which device [d] has blocks
    of [bs] bytes and the image [img], the driver code [m] finishes without a
    fault, in an image and a value that satisfy [Q], or in an image and an error
    code that satisfy [E].  The rest of the world does not appear: the rules
    below follow from the laws of [FsWorldOk] once and for all. *)

From S2P Require Import Prelude Bytes Vfs BlockDev.

Section Triples.
Context {W : Type} `{OK : FsWorldOk W}.
Context (rel : Prop) {RL : Reliable W rel}.
Context (d bs : Z).
Implicit Types (img : list Z).

Definition triple {A} img (m : io W A) (Q : list Z -> A -> Prop) (E : list Z -> Z -> Prop) : Prop :=
  forall w, image d w = img -> w_block_size d w = bs ->
  runs_to (m w) (fun '(w', r) => w_block_size d w' = bs /\
    match r with Ok a => Q (image d w') a | Err e => E (image d w') e end).

Lemma t_ok {A} img (a : A) Q E : Q img a -> triple img (ok a) Q E.
Proof. intros HQ w <- Hb. done. Qed.

Lemma t_err {A} img e (Q : list Z -> A -> Prop) E : E img e -> triple img (err e) Q E.
Proof. intros HQ w <- Hb. done. Qed.

Lemma t_lift {A} img (m : outcome A) a Q E : m = Ret a -> Q img a -> triple img (lift m) Q E.
Proof. intros -> HQ w <- Hb. done. Qed.

Lemma t_bind {A B} img (m : io W A) (k : A -> io W B) Q1 Q E :
  triple img m Q1 E -> (forall img' a, Q1 img' a -> triple img' (k a) Q E) -> triple img (bind m k) Q E.
Proof.
  intros Hm Hk w Hi Hb. unfold bind. eapply runs_to_bind; [by apply Hm|].
  intros [w' [a|e]] [Hb' Hpo]; [by apply (Hk _ _ Hpo)|done].
Qed.

(** The step without effect, without an intermediate assertion. *)
Lemma t_bind_lift {A B} img (m : outcome A) a (k : A -> io W B) Q E :
  m = Ret a -> triple img (k a) Q E -> triple img (bind (lift m) k) Q E.
Proof. intros Hm Hk. eapply t_bind; [by apply (t_lift _ _ a (fun i x => i = img /\ x = a))|]. by intros ? ? [-> ->]. Qed.

Lemma t_attempt {A} img (m : io W A) Q E :
  triple img m (fun i a => Q i (Ok a)) (fun i e => Q i (Err e)) -> triple img (attempt m) Q E.
Proof.
  intros Hm w Hi Hb. eapply runs_to_bind; [by apply Hm|]. intros [w' [a|e]] [Hb' Hpo]; done.
Qed.

(** [rc = m] and what follows on either outcome. *)
Lemma t_bind_attempt {A B} img (m : io W A) (k : rc A -> io W B) Q1 E1 Q E :
  triple img m Q1 E1 -> (forall i a, Q1 i a -> triple i (k (Ok a)) Q E) ->
  (forall i e, E1 i e -> triple i (k (Err e)) Q E) -> triple img (bind (attempt m) k) Q E.
Proof.
  intros Hm Hok Herr.
  apply (t_bind _ _ _ (fun i r => match r with Ok a => Q1 i a | Err e => E1 i e end)); [by apply t_attempt|].
  intros i [a|e]; auto.
Qed.

Lemma t_mono {A} img (m : io W A) (Q Q' : list Z -> A -> Prop) (E E' : list Z -> Z -> Prop) :
  triple img m Q E -> (forall i a, Q i a -> Q' i a) -> (forall i e, E i e -> E' i e) -> triple img m Q' E'.
Proof.
  intros Hm HQ HE w Hi Hb. eapply runs_to_mono; [by apply Hm|].
  intros [w' [a|e]] [Hb' Hpo]; auto.
Qed.

(** The image is a list of bytes. *)
Lemma t_bytes {A} img (m : io W A) Q E :
  (Forall byte_ok img -> triple img m Q E) -> triple img m Q E.
Proof. intros Hm w Hi Hb. apply Hm; [|done..]. rewrite <- Hi. apply image_bytes. Qed.

Lemma t_block_pos {A} img (m : io W A) Q E : (0 < bs -> triple img m Q E) -> triple img m Q E.
Proof. intros Hm w Hi Hb. apply Hm; [|done..]. rewrite <- Hb. apply block_size_pos. Qed.

Lemma t_with_buffer {A} img n e (body : list Z -> io W A) Q E :
  0 <= n ->
  (forall buf, len buf = n -> Forall byte_ok buf -> triple img (body buf) Q E) ->
  (~ rel -> E img e) -> triple img (with_buffer n e body) Q E.
Proof.
  intros Hn Hbody HE w Hi Hb. unfold with_buffer.
  pose proof (kmalloc_succeeds n w) as Hs. destruct (w_kmalloc n w) as [w1 r] eqn:Ek.
  destruct (kmalloc_law d n w w1 r Ek) as (Hi1 & Hb1 & Hr). destruct r as [[p buf]|].
  - destruct (Hr p buf eq_refl) as [Hl Hby].
    eapply runs_to_bind; [apply (Hbody buf Hl Hby); congruence|].
    intros [w2 r] [Hb2 H2]. destruct (kfree_law d p w2) as [Ei Eb].
    cbn [runs_to]. rewrite Ei, Eb. done.
  - cbn [runs_to]. split; [congruence|]. rewrite Hi1, Hi. apply HE. intros Hrel.
    destruct (Hs Hrel Hn) as [x Hx]. done.
Qed.

Lemma t_with_object {A} img n e (body : Z -> io W A) Q E :
  0 <= n -> (forall p, triple img (body p) Q E) -> (~ rel -> E img e) ->
  triple img (with_object n e body) Q E.
Proof.
  intros Hn Hbody HE w Hi Hb. unfold with_object.
  pose proof (kmalloc_succeeds n w) as Hs. destruct (w_kmalloc n w) as [w1 r] eqn:Ek.
  destruct (kmalloc_law d n w w1 r Ek) as (Hi1 & Hb1 & Hr). destruct r as [[p buf]|].
  - eapply runs_to_bind; [apply (Hbody p); congruence|].
    intros [w2 [a|e']] [Hb2 H2]; [done|]. destruct (kfree_law d p w2) as [Ei Eb].
    cbn [runs_to]. rewrite Ei, Eb. done.
  - cbn [runs_to]. split; [congruence|]. rewrite Hi1, Hi. apply HE. intros Hrel.
    destruct (Hs Hrel Hn) as [x Hx]. done.
Qed.

(** A read of whole blocks into a buffer that has room for them. *)
Lemma t_read_into img lba n buf Q E :
  0 <= lba < 2 ^ 54 -> 0 <= n < 2 ^ 32 -> n * bs <= len buf ->
  ((lba + n) * bs <= len img -> Q img (splice buf 0 (slice img (lba * bs) (n * bs)))) ->
  (forall e, (rel -> len img < (lba + n) * bs) -> E img e) ->
  triple img (read_blocks d lba n buf) Q E.
Proof.
  intros Hlba Hn Hbuf HQ HE w Hi Hb. unfold read_blocks.
  pose proof (read_succeeds d lba n w) as Hs. destruct (w_read d lba n w) as [w1 [rc bytes]] eqn:Er.
  destruct (read_law d lba n w w1 rc bytes Er Hlba Hn) as (Hi1 & Hb1 & Hok). cbn [snd fst] in Hs.
  rewrite Hi, Hb in *. pose proof (block_size_pos d w) as Hpos. rewrite Hb in Hpos.
  destruct (Z.eqb_spec rc 0) as [->|Hne]; cbn [negb].
  - destruct (Hok eq_refl) as [Hr ->].
    assert (Hlen : len (slice img (lba * bs) (n * bs)) = n * bs) by (apply len_slice; nia).
    rewrite mem_write_splice by (rewrite ?Hlen; lia). cbn [mbind outcome_bind runs_to]. rewrite Hi1. auto.
  - cbn [runs_to]. rewrite Hi1. split; [done|]. apply HE. intros Hrel.
    destruct (Z.le_gt_cases ((lba + n) * bs) (len img)) as [Hle|]; [|done].
    by specialize (Hs Hrel Hlba Hn Hle).
Qed.

(** A read of whole blocks into a buffer of that size. *)
Lemma t_read_blocks img lba n buf Q E :
  0 <= lba < 2 ^ 54 -> 0 <= n < 2 ^ 32 -> len buf = n * bs ->
  ((lba + n) * bs <= len img -> Q img (slice img (lba * bs) (n * bs))) ->
  (forall e, (rel -> len img < (lba + n) * bs) -> E img e) ->
  triple img (read_blocks d lba n buf) Q E.
Proof.
  intros Hlba Hn Hbuf HQ HE. apply t_block_pos. intros Hpos. apply t_read_into; [done|done|lia| |done].
  intros Hr. rewrite splice_all; [by apply HQ|]. rewrite len_slice; nia.
Qed.

(** A write of whole blocks; after an error the image is unknown. *)
Lemma t_write_blocks img lba n buf Q E :
  0 <= lba < 2 ^ 54 -> 0 <= n < 2 ^ 32 -> len buf = n * bs -> Forall byte_ok buf ->
  ((lba + n) * bs <= len img -> Q (splice img (lba * bs) buf) tt) ->
  (forall img' e, len img' = len img -> (rel -> len img < (lba + n) * bs) -> E img' e) ->
  triple img (write_blocks d lba n buf) Q E.
Proof.
  intros Hlba Hn Hbuf Hby HQ HE w Hi Hb. unfold write_blocks.
  pose proof (block_size_pos d w) as Hpos. rewrite Hb in Hpos |- *.
  rewrite mem_read_slice by nia. cbn [mbind outcome_bind].
  rewrite <- Hbuf, slice_all.
  pose proof (write_succeeds d lba n buf w) as Hs. destruct (w_write d lba n buf w) as [w1 rc] eqn:Ew.
  destruct (write_law d lba n buf w w1 rc Ew Hlba Hn ltac:(by rewrite Hb) Hby) as (Hl1 & Hb1 & Hok).
  cbn [snd] in Hs. rewrite Hi, Hb in *. cbn [runs_to]. split; [congruence|].
  destruct (Z.eqb_spec rc 0) as [->|Hne].
  - destruct (Hok eq_refl) as [Hr ->]. auto.
  - apply HE; [done|]. intros Hrel.
    destruct (Z.le_gt_cases ((lba + n) * bs) (len img)) as [Hle|]; [|done].
    by specialize (Hs Hrel Hlba Hn Hle Hbuf).
Qed.

Lemma t_or {A} img (c : bool) (m1 m2 : io W A) Q E :
  (c = true -> triple img m1 Q E) -> (c = false -> triple img m2 Q E) ->
  triple img (if c then m1 else m2) Q E.
Proof. destruct c; auto. Qed.
End Triples.

Arguments triple {W _ _} d bs {A} img m Q E.
