(* ===== verification/BlockDevVfs.v ===== *)
(** * Block devices as files

    core/fs/block_dev_vfs.c: the device nodes of the block devices.  A node
    reads any range of bytes, block by block.  [bdev_read_range]: it returns the
    bytes of the device; a node is read-only in effect, whatever its driver. *)

From S2P Require Import Prelude Bytes Vfs BlockDev IoLogic.

Open Scope io_scope.

Section Node.
Context {W : Type} `{FW : FsWorld W}.

(** One block: allocation, read, copy, release.  The inner result is the one of
    the driver. *)
Definition bdev_block (d block_size lba offset_in_block count : Z) (room : Z -> Z) : io W (rc (list Z)) :=
  with_buffer block_size (- ENOMEM) (fun buf =>
    r ⇐ attempt (read_blocks d lba 1 buf);
    match r with
    | Err e => ok (Err e)
    | Ok buf =>
        let n := u64 (block_size - offset_in_block) in
        let n := if count <? n then count else n in
        bs ⇐ lift (mem_read buf offset_in_block (room n));
        ok (Ok bs)
    end).

(** The loop of bdev_read: the bytes stored so far and the position.  Every
    iteration that goes on has copied a byte, so one unit of fuel per byte and
    one for the last test are enough. *)
Fixpoint bdev_read_loop (n : nat) (d : Z) (dev : block_device) (current_pos count : Z) (out : list Z)
  : io W (list Z * Z) :=
  match n with
  | O => lift OutOfFuel
  | S n' =>
      if negb (0 <? count) then ok (out, current_pos) else
      if bd_block_size dev =? 0 then lift (Fault DivideError) else
      let lba := u64 (Z.quot current_pos (bd_block_size dev)) in
      let offset_in_block := u64 (Z.rem current_pos (bd_block_size dev)) in
      if bd_total_blocks dev <=? lba then ok (out, current_pos) else
      let total := u64 (bd_total_blocks dev * bd_block_size dev) in
      let room := fun k => if total <? u64 (current_pos + k) then u64 (total - current_pos) else k in
      r ⇐ bdev_block d (bd_block_size dev) lba offset_in_block count room;
      match r with
      | Err e => if 0 <? len out then ok (out, current_pos) else err e
      | Ok bs =>
          let pos := i64 (current_pos + len bs) in
          if (len bs =? 0) && (0 <? count - len bs) then ok (out ++ bs, pos)
          else bdev_read_loop n' d dev pos (count - len bs) (out ++ bs)
      end
  end.

(** [dev]: the device of the node and its address, [None] when the file or its
    dev_data is NULL.  The bytes stored in the buffer, whose number is the
    result, and the new position. *)
Definition bdev_read (dev : option (Z * block_device)) (count pos : Z) : io W (list Z * Z) :=
  match dev with
  | None => err (- EINVAL)
  | Some (d, dev) =>
      if i64 (bd_total_blocks dev * bd_block_size dev) <=? pos then ok ([], pos)
      else bdev_read_loop (S (Z.to_nat count)) d dev pos count []
  end.

(** The driver is asked to write no blocks from NULL. *)
Definition bdev_write (dev : option (Z * block_device)) : io W Z :=
  match dev with
  | None => err (- EINVAL)
  | Some (d, _) => fun w => let '(w, rc) := w_write d 0 0 [] w in Ret (w, Ok rc)
  end.
End Node.

(** ** Registration *)

(** The addresses of bdev_read and bdev_write; "/dev/". *)
Definition BDEV_OPS : dev_ops := mkdevops (Some 1) (Some 2) None None.
Definition DEV_PREFIX : list Z := [47; 100; 101; 118; 47].

Section Registration.
Context {V : Type}.

(** devfs_register_device is the one of devfs; device [i] is at the address
    [addr i]. *)
Fixpoint block_dev_vfs_loop (devfs_register_device : list Z -> Z -> vfs V -> outcome (vfs V)) (addr : Z -> Z)
    (devs : list block_device) (i : Z) (v : vfs V) : outcome (vfs V) :=
  match devs with
  | [] => Ret v
  | dev :: devs' =>
      v ← (if bd_used dev then
             path ← strcpy_into MAX_FILENAME (DEV_PREFIX ++ bd_name dev);
             '(v, _) ← vfs_pseudo_register path BDEV_OPS (addr i) v;
             devfs_register_device (bd_name dev) (addr i) v
           else Ret v);
      block_dev_vfs_loop devfs_register_device addr devs' (i + 1) v
  end.

Definition block_dev_vfs_init devfs_register_device addr (devs : list block_device) (v : vfs V) : outcome (vfs V) :=
  block_dev_vfs_loop devfs_register_device addr devs 0 v.
End Registration.

(** ** Reading *)

Section Theorems.
Context {W : Type} `{OK : FsWorldOk W} {RL : Reliable W True}.

(** The node describes device [d], and the device has the blocks it claims. *)
Record node_ok (d : Z) (dev : block_device) (img : list Z) (bs : Z) : Prop := {
  no_bs : bd_block_size dev = bs;
  no_total : len img = bd_total_blocks dev * bs;
  no_small : 0 < bs < 2 ^ 32 /\ 0 <= bd_total_blocks dev < 2 ^ 54 /\ len img < 2 ^ 62;
}.

Lemma bdev_block_ok d dev img bs lba off count room :
  node_ok d dev img bs -> 0 <= lba < bd_total_blocks dev -> 0 <= off < bs -> 0 < count < 2 ^ 64 ->
  (forall k, 0 <= k <= bs - off -> room k = k) ->
  let n := Z.min count (bs - off) in
  triple d bs img (bdev_block d bs lba off count room)
    (fun i r => i = img /\ r = Ok (slice img (lba * bs + off) n)) (fun _ _ => False).
Proof.
  intros [Hbs Htot (Hb & Ht & Hs)] Hlba Hoff Hcount Hroom n. unfold bdev_block.
  apply (t_with_buffer True); [lia| |by intros []]. intros buf Hbuf _.
  eapply t_bind_attempt.
  - apply (t_read_into True) with (Q := fun i b => i = img /\ b = slice img (lba * bs) bs) (E := fun _ _ => False);
      [lia|lia|lia| |].
    + intros Hfit. split; [done|]. rewrite Z.mul_1_l. apply splice_all. rewrite len_slice; nia.
    + intros e He. specialize (He I). nia.
  - intros i b [-> ->]. rewrite u64_id by lia.
    assert ((if count <? bs - off then count else bs - off) = n) as -> by (unfold n; destruct (Z.ltb_spec count (bs - off)); lia).
    rewrite Hroom by (unfold n; lia). eapply t_bind_lift; [|by apply t_ok].
    assert (len (slice img (lba * bs) bs) = bs) as Hl by (apply len_slice; nia).
    rewrite mem_read_slice by (unfold n; lia). f_equal. rewrite slice_slice by (unfold n; lia). done.
  - done.
Qed.

Lemma bdev_read_loop_ok d dev img bs : node_ok d dev img bs -> forall n pos count out,
  0 <= pos <= len img -> 0 <= count < Z.of_nat n -> count < 2 ^ 64 ->
  let m := Z.min count (len img - pos) in
  triple d bs img (bdev_read_loop n d dev pos count out)
    (fun i '(bytes, p) => i = img /\ bytes = out ++ slice img pos m /\ p = pos + m) (fun _ _ => False).
Proof.
  intros HN n. pose proof HN as [Hbs Htot (Hb & Ht & Hs)]. change (2 ^ 62) with 4611686018427387904 in Hs.
  induction n as [|n IH]; intros pos count out Hpos Hcount Hc64 m; [lia|]. cbn [bdev_read_loop].
  destruct (Z.ltb_spec 0 count) as [Hc|Hc]; cbn [negb].
  2:{ apply t_ok. replace m with 0 by (unfold m; lia). unfold slice. simpl. rewrite app_nil_r, Z.add_0_r. done. }
  rewrite Hbs. rewrite (proj2 (Z.eqb_neq bs 0)) by lia.
  rewrite Z.quot_div_nonneg, Z.rem_mod_nonneg by lia.
  pose proof (Z.div_mod pos bs ltac:(lia)) as E. pose proof (Z.mod_pos_bound pos bs ltac:(lia)) as Hm.
  assert (0 <= pos / bs) as Hq by (apply Z.div_pos; lia).
  rewrite (u64_id (pos / bs)), (u64_id (pos mod bs)) by nia.
  destruct (Z.leb_spec (bd_total_blocks dev) (pos / bs)) as [Hend|Hin].
  { assert (pos = len img) as -> by nia. apply t_ok. replace m with 0 by (unfold m; lia).
    unfold slice. simpl. rewrite app_nil_r, Z.add_0_r. done. }
  rewrite <- Htot, (u64_id (len img)) by (unfold len in *; lia).
  assert (pos + (bs - pos mod bs) <= len img) as Hroom by nia.
  eapply t_bind.
  { apply (bdev_block_ok d dev img bs); [done|lia|lia|lia|]. intros k Hk. rewrite u64_id by lia.
    rewrite (proj2 (Z.ltb_ge (len img) (pos + k))) by lia. done. }
  intros i r [-> ->]. replace (pos / bs * bs + pos mod bs) with pos by lia.
  set (k := Z.min count (bs - pos mod bs)).
  assert (0 < k <= count /\ pos + k <= len img) as (Hk & Hk2) by (unfold k; lia).
  rewrite len_slice by lia. rewrite i64_id by lia. rewrite (proj2 (Z.eqb_neq k 0)) by lia. cbn [andb].
  eapply t_mono; [apply IH; lia| |done]. intros i [bytes p] (-> & -> & ->).
  rewrite <- app_assoc, <- slice_app_add by lia. unfold m.
  split_and!; [done|do 2 f_equal; lia|lia].
Qed.

(** Reading a block device through its node gives the bytes of the device:
    for every position and count, aligned to blocks or not, bdev_read returns
    exactly the bytes from the position up to the count or the end of the device,
    advances the position by their number and leaves the device as it is, when
    the driver and the allocator do not fail. *)
Theorem bdev_read_range d dev (w : W) count pos :
  node_ok d dev (image d w) (w_block_size d w) -> 0 <= pos < 2 ^ 62 -> 0 <= count < 2 ^ 64 ->
  let m := Z.max 0 (Z.min count (len (image d w) - pos)) in
  runs_to (bdev_read (Some (d, dev)) count pos w) (fun '(w', r) =>
    image d w' = image d w /\ r = Ok (slice (image d w) pos m, pos + m)).
Proof.
  intros HN Hpos Hcount m. pose proof HN as [Hbs Htot (Hb & Ht & Hs)].
  change (2 ^ 62) with 4611686018427387904 in *. unfold bdev_read. rewrite Hbs, <- Htot.
  rewrite i64_id by (unfold len in *; lia). destruct (Z.leb_spec (len (image d w)) pos) as [Hge|Hlt].
  - cbn. replace m with 0 by (unfold m; lia). by rewrite Z.add_0_r.
  - pose proof (bdev_read_loop_ok d dev _ _ HN (S (Z.to_nat count)) pos count [] ltac:(lia) ltac:(lia) ltac:(lia) w eq_refl eq_refl) as HL.
    eapply runs_to_mono; [exact HL|]. intros [w' [[bytes p]|e]] [_ H']; [|done].
    destruct H' as (Hi & -> & ->). split; [done|]. cbn [app].
    replace (Z.min count (len (image d w) - pos)) with m by (unfold m; lia). done.
Qed.
End Theorems.

(** Nine bytes across the boundary of two blocks of a RAM disk. *)
Module Demo.
Definition disk : list Z := map (fun i => i mod 256) (seqZ 0 1536).
Definition world : ram_world := mkram [mkbdev [100] 512 3 1 0 true] disk 100.
Definition dev : block_device := mkbdev [100] 512 3 1 0 true.

Lemma bdev_read_range_witness :
  runs_to (bdev_read (Some (0, dev)) 9 507 world) (fun '(w', r) =>
    image 0 w' = image 0 world /\ r = Ok ([251; 252; 253; 254; 255; 0; 1; 2; 3], 516)).
Proof.
  assert (node_ok 0 dev (image 0 world) (w_block_size 0 world)) as HN
    by (split; [reflexivity|vm_compute; reflexivity|vm_compute; split_and!; congruence]).
  refine (runs_to_mono _ _ _ (bdev_read_range 0 dev world 9 507 HN ltac:(lia) ltac:(lia)) _).
  intros [w' r] [Hi ->]. split; [exact Hi|]. vm_compute. reflexivity.
Defined.
End Demo.
