(* ===== verification/Iso9660.v ===== *)
(** * The ISO 9660 driver: model

    core/fs/iso9660.c and include/core/fs/iso9660.h.  The image lies in memory:
    a pointer into it is an offset, a load outside of it faults.  The packed
    structures are read at their offsets.  kmalloc and kfree are those of the
    class [FsWorld]; a mount or file object is a record next to its address.
    NULL checks of arguments that the VFS never passes as NULL are left out. *)

From S2P Require Import Prelude Bytes Vfs BlockDev.

Open Scope io_scope.

Definition ENAMETOOLONG : Z := 36.          (** of the host errno.h *)
Definition ISO_FLAG_DIRECTORY : Z := 0x02.
Definition PVD_SIZE : Z := 2048.            (** sizeof(iso9660_pvd_t) *)
Definition ISO_ENTRY_SIZE : Z := 33.        (** sizeof(iso9660_dir_entry_t) *)
Definition ISO_MOUNT_SIZE : Z := 2072.      (** sizeof(iso9660_mount_t) *)
Definition ISO_FILE_SIZE : Z := 24.         (** sizeof(iso9660_file_t) *)
Definition CD001 : list Z := [67; 68; 48; 48; 49].
Definition ISO_SLASH : Z := 47.
Definition ISO_SEMICOLON : Z := 59.
Definition ISO_DOT : Z := 46.

(** The static variables. *)
Record iso_globals := mkglobals {
  iso_data : option (list Z);
  iso_data_size : Z;
  initialized : bool;
}.

Record iso9660_mount_data := mkisomount {
  im_data : list Z;
  im_size : Z;
  im_block_size : Z;              (** uint16_t *)
  im_pvd : option (list Z);       (** [None]: not initialised *)
  im_ref_count : Z;
}.

Record iso9660_file := mkisofile {
  if_extent : Z;                  (** all uint32_t *)
  if_size : Z;
  if_position : Z;
  if_flags : Z;
}.

(** ** Blocks *)

(** The offset of a block: the comparison is 64 bits wide, the offset 32. *)
Definition iso_read_block (fs : iso9660_mount_data) (lba : Z) : option Z :=
  if im_size fs <=? lba * im_block_size fs then None
  else Some (u32 (lba * im_block_size fs)).

(** ** Fields *)

(** iso9660_pvd_t at offset [off]. *)
Definition pvd_type (d : list Z) (off : Z) : outcome Z := get8 d off.
Definition pvd_logical_block_size (d : list Z) (off : Z) : outcome Z := get16 d (off + 128).
Definition PVD_ROOT : Z := 156.             (** offset of root_directory_entry *)

(** iso9660_dir_entry_t at offset [off]. *)
Definition e_length (d : list Z) (off : Z) : outcome Z := get8 d off.
Definition e_extent (d : list Z) (off : Z) : outcome Z := get32 d (off + 2).
Definition e_size (d : list Z) (off : Z) : outcome Z := get32 d (off + 10).
Definition e_flags (d : list Z) (off : Z) : outcome Z := get8 d (off + 25).
Definition e_name_len (d : list Z) (off : Z) : outcome Z := get8 d (off + 32).

(** ** Names *)

(** The string in a char array: its bytes before the first NUL. *)
Fixpoint cstring (s : list Z) : list Z :=
  match s with [] => [] | c :: s' => if c =? 0 then [] else c :: cstring s' end.

(** The copy loop of normalize_filename: [n] characters left, at offset [off]. *)
Fixpoint normalize_loop (n : nat) (d : list Z) (off : Z) : outcome (list Z) :=
  match n with
  | O => Ret []
  | S n' =>
      c ← get8 d off;
      if c =? ISO_SEMICOLON then Ret []
      else s ← normalize_loop n' d (off + 1); Ret (c :: s)
  end.

Definition strip_dot (s : list Z) : list Z :=
  if bool_decide (last s = Some ISO_DOT) then take (length s - 1) s else s.

(** The string in [out] afterwards. *)
Definition normalize_filename (d : list Z) (iso_name iso_len out_size : Z) : outcome (list Z) :=
  s ← normalize_loop (Z.to_nat (Z.min iso_len (out_size - 1))) d iso_name;
  Ret (cstring (strip_dot s)).

Definition lower (c : Z) : Z := if (65 <=? c) && (c <=? 90) then c + 32 else c.
Definition to_lowercase (s : list Z) : list Z := map lower s.

(** [name_len == 1 && (entry_name[0] == 0 || entry_name[0] == 1)]: the entries
    of the directory itself and of its parent. *)
Definition is_special (d : list Z) (entry name_len : Z) : outcome bool :=
  if negb (name_len =? 1) then Ret false
  else c ← get8 d (entry + ISO_ENTRY_SIZE); Ret ((c =? 0) || (c =? 1)).

(** ** Searching a directory *)

(** [base] is the offset of the directory in the image.  Every entry has a
    length of at least one, and an offset behind the image faults, so the bytes
    of the image and one more are enough fuel. *)
Fixpoint find_entry_loop (n : nat) (d : list Z) (base offset dir_size : Z) (name : list Z) : outcome (option Z) :=
  match n with
  | O => OutOfFuel
  | S n' =>
      if offset <? dir_size then
        let entry := base + offset in
        length ← e_length d entry;
        if length =? 0 then Ret None else
        name_len ← e_name_len d entry;
        special ← is_special d entry name_len;
        if special : bool then find_entry_loop n' d base (offset + length) dir_size name else
        normalized ← normalize_filename d (entry + ISO_ENTRY_SIZE) name_len 256;
        name_lower ← strcpy_into 256 name;
        if str_eq (to_lowercase normalized) (to_lowercase name_lower) then Ret (Some entry)
        else find_entry_loop n' d base (offset + length) dir_size name
      else Ret None
  end.

(** The offset of the entry in the image. *)
Definition find_entry_in_dir (fs : iso9660_mount_data) (dir_extent dir_size : Z) (name : list Z)
  : outcome (option Z) :=
  match iso_read_block fs dir_extent with
  | None => Ret None
  | Some base => find_entry_loop (S (length (im_data fs))) (im_data fs) base 0 dir_size name
  end.

(** ** Mounting *)

(** [type == 1 && strncmp(identifier, "CD001", 5) == 0]; strncmp stops at the
    first difference. *)
Fixpoint same_chars (d : list Z) (off : Z) (s : list Z) : outcome bool :=
  match s with
  | [] => Ret true
  | c :: s' => x ← get8 d off; if x =? c then same_chars d (off + 1) s' else Ret false
  end.

Definition is_pvd (d : list Z) (off : Z) : outcome bool :=
  t ← pvd_type d off;
  if t =? 1 then same_chars d (off + 1) CD001 else Ret false.

(** The loop over blocks [i], [i + 1], ..., [n] of them. *)
Fixpoint mount_loop (n : nat) (fs : iso9660_mount_data) (i : Z) : outcome iso9660_mount_data :=
  match n with
  | O => Ret fs
  | S n' =>
      match iso_read_block fs i with
      | None => mount_loop n' fs (i + 1)
      | Some block =>
          found ← is_pvd (im_data fs) block;
          if found : bool then
            pvd ← mem_read (im_data fs) block PVD_SIZE;
            bs ← pvd_logical_block_size (im_data fs) block;
            Ret (mkisomount (im_data fs) (im_size fs) bs (Some pvd) (im_ref_count fs))
          else mount_loop n' fs (i + 1)
      end
  end.

Section Iso.
Context {W : Type} `{FW : FsWorld W}.

(** [device]: [None] for NULL.  The address and contents of the mount data. *)
Definition iso9660_mount (g : iso_globals) (device : option (list Z)) : io W (Z * iso9660_mount_data) :=
  match device with
  | None => err (- EINVAL)
  | Some _ =>
      match iso_data g with
      | None => err (- ENODEV)
      | Some data =>
          if negb (initialized g) then err (- ENODEV) else
          with_object ISO_MOUNT_SIZE (- ENOMEM) (fun p =>
            fs ⇐ lift (mount_loop 16 (mkisomount data (iso_data_size g) 2048 None 1) 16);
            ok (p, fs))
      end
  end.

(** The mount data after the call, unless they are released. *)
Definition iso9660_unmount (fs_private : option (Z * iso9660_mount_data)) : io W (option iso9660_mount_data) :=
  match fs_private with
  | None => err (- EINVAL)
  | Some (p, fs) => fun w =>
      let rc := i32 (im_ref_count fs - 1) in
      if rc <=? 0 then Ret (w_kfree p w, Ok None)
      else Ret (w, Ok (Some (mkisomount (im_data fs) (im_size fs) (im_block_size fs) (im_pvd fs) rc)))
  end.

(** ** Paths *)

(** [if (path[0] == '/') path++]. *)
Definition skip_root (path : list Z) : list Z :=
  match path with c :: p => if c =? ISO_SLASH then p else path | [] => [] end.

(** The characters before the first slash, and the rest from the slash on. *)
Fixpoint iso_component (p : list Z) : list Z * list Z :=
  match p with
  | [] => ([], [])
  | c :: p' => if c =? ISO_SLASH then ([], p) else let '(a, b) := iso_component p' in (c :: a, b)
  end.

(** Extent and size of the root directory. *)
Definition iso_root_entry (fs : iso9660_mount_data) : outcome (Z * Z) :=
  match im_pvd fs with
  | None => Fault UninitRead
  | Some pvd =>
      extent ← e_extent pvd PVD_ROOT;
      size ← e_size pvd PVD_ROOT;
      Ret (extent, size)
  end.

(** The component loop of open and readdir: the extent and size that the path
    leads to, or an error code.  Each component but the last consumes its slash,
    so the characters and one more are enough fuel. *)
Fixpoint iso_walk (n : nat) (fs : iso9660_mount_data) (extent size : Z) (token : list Z) : outcome (rc (Z * Z)) :=
  match n with
  | O => OutOfFuel
  | S n' =>
      match token with
      | [] => Ret (Ok (extent, size))
      | _ =>
          let '(component, rest) := iso_component token in
          if 256 <=? len component then Ret (Err (- ENAMETOOLONG)) else
          entry ← find_entry_in_dir fs extent size component;
          match entry with
          | None => Ret (Err (- ENOENT))
          | Some e =>
              extent ← e_extent (im_data fs) e;
              size ← e_size (im_data fs) e;
              iso_walk n' fs extent size (skip_root rest)
          end
      end
  end.

(** ** Files *)

(** The address and contents of the file object, and the path that is stored in
    the handle. *)
Definition iso9660_open (fs : option iso9660_mount_data) (path : list Z) (flags : Z)
  : io W (Z * iso9660_file * list Z) :=
  if negb (Z.land flags VFS_WRITE =? 0) then err (- EROFS) else
  match fs with
  | None => err (- EINVAL)
  | Some fs =>
      '(extent, size) ⇐ lift (iso_root_entry fs);
      let path := skip_root path in
      r ⇐ lift (match path with
                | [] => Ret (Ok (extent, size))
                | _ => copy ← strcpy_into 256 path; iso_walk (S (length copy)) fs extent size copy
                end);
      match r with
      | Err e => err e
      | Ok (extent, size) =>
          with_object ISO_FILE_SIZE (- ENOMEM) (fun p =>
            stored ⇐ lift (strcpy_into MAX_FILENAME path);
            ok (p, mkisofile extent size 0 (u32 flags), stored))
      end
  end.

Definition iso9660_close (private_data : option Z) : io W unit :=
  match private_data with
  | None => err (- EINVAL)
  | Some p => fun w => Ret (w_kfree p w, Ok tt)
  end.
End Iso.

Definition set_if_position (f : iso9660_file) (p : Z) := mkisofile (if_extent f) (if_size f) p (if_flags f).

(** The block loop of iso9660_read: the bytes so far and the position. *)
Fixpoint iso_read_loop (n : nat) (fs : iso9660_mount_data) (block offset to_read position : Z) (out : list Z)
  : outcome (list Z * Z) :=
  match n with
  | O => OutOfFuel
  | S n' =>
      if 0 <? to_read then
        match iso_read_block fs block with
        | None => Ret (out, position)
        | Some data =>
            let chunk := u64 (im_block_size fs - offset) in
            let chunk := if to_read <? chunk then to_read else chunk in
            bs ← mem_read (im_data fs) (data + offset) chunk;
            iso_read_loop n' fs (u32 (block + 1)) 0 (to_read - chunk) (u32 (position + chunk)) (out ++ bs)
        end
      else Ret (out, position)
  end.

(** The result, the bytes stored in the buffer and the file afterwards; the
    position of the VFS handle becomes that of the file when the result is not
    an error. *)
Definition iso9660_read (fs : iso9660_mount_data) (file : option iso9660_file) (count : Z)
  : outcome (Z * list Z * option iso9660_file) :=
  match file with
  | None => Ret (- EINVAL, [], None)
  | Some f =>
      if if_size f <=? if_position f then Ret (0, [], file) else
      let remaining := if_size f - if_position f in
      let to_read := if count <? remaining then count else remaining in
      q ← udiv (if_position f) (im_block_size fs);
      let block := u32 (if_extent f + q) in
      offset ← umod (if_position f) (im_block_size fs);
      match iso_read_block fs block with
      | None => Ret (- EIO, [], file)
      | Some data =>
          if offset + to_read <=? im_block_size fs then
            bs ← mem_read (im_data fs) (data + offset) to_read;
            Ret (to_read, bs, Some (set_if_position f (u32 (if_position f + to_read))))
          else
            '(bs, position) ← iso_read_loop (S (Z.to_nat to_read)) fs block offset to_read (if_position f) [];
            Ret (len bs, bs, Some (set_if_position f position))
      end
  end.

Definition iso9660_write : Z := - EROFS.

(** The new position, which is also the result. *)
Definition iso9660_seek (file : option iso9660_file) (offset whence : Z) : rc iso9660_file :=
  match file with
  | None => Err (- EINVAL)
  | Some f =>
      let finish := fun new_pos =>
        let new_pos := if new_pos <? 0 then 0 else new_pos in
        let new_pos := if if_size f <? new_pos then if_size f else new_pos in
        Ok (set_if_position f new_pos) in
      if whence =? VFS_SEEK_SET then finish offset
      else if whence =? VFS_SEEK_CUR then finish (i64 (if_position f + offset))
      else if whence =? VFS_SEEK_END then finish (i64 (if_size f + offset))
      else Err (- EINVAL)
  end.

(** ** Status and listing *)

(** The component loop of stat: it answers at the component that the path ends
    with. *)
Fixpoint stat_walk (n : nat) (fs : iso9660_mount_data) (extent size : Z) (token : list Z) : outcome (rc vfs_stat_t) :=
  match n with
  | O => OutOfFuel
  | S n' =>
      match token with
      | [] => Ret (Err (- ENOENT))
      | _ =>
          let '(component, rest) := iso_component token in
          if 256 <=? len component then Ret (Err (- ENAMETOOLONG)) else
          entry ← find_entry_in_dir fs extent size component;
          match entry with
          | None => Ret (Err (- ENOENT))
          | Some e =>
              extent ← e_extent (im_data fs) e;
              size ← e_size (im_data fs) e;
              match rest with
              | [] =>
                  flags ← e_flags (im_data fs) e;
                  Ret (Ok (mkstat (if Z.land flags ISO_FLAG_DIRECTORY =? 0 then Z.lor VFS_S_IFREG 292
                                   else Z.lor VFS_S_IFDIR 365) size (im_block_size fs) 0))
              | _ => stat_walk n' fs extent size (skip_root rest)
              end
          end
      end
  end.

Definition iso9660_stat (fs : option iso9660_mount_data) (path : list Z) : outcome (rc vfs_stat_t) :=
  match fs with
  | None => Ret (Err (- EINVAL))
  | Some fs =>
      '(extent, size) ← iso_root_entry fs;
      match skip_root path with
      | [] => Ret (Ok (mkstat (Z.lor VFS_S_IFDIR 365) size (im_block_size fs) 0))
      | path => copy ← strcpy_into 256 path; stat_walk (S (length copy)) fs extent size copy
      end
  end.

(** The entries of a directory, added to [out]. *)
Fixpoint list_loop (n : nat) (d : list Z) (base offset dir_size max_entries : Z) (out : list vfs_dirent)
  : outcome (list vfs_dirent) :=
  match n with
  | O => OutOfFuel
  | S n' =>
      if (offset <? dir_size) && (len out <? max_entries) then
        let entry := base + offset in
        length ← e_length d entry;
        if length =? 0 then Ret out else
        name_len ← e_name_len d entry;
        special ← is_special d entry name_len;
        if special : bool then list_loop n' d base (offset + length) dir_size max_entries out else
        normalized ← normalize_filename d (entry + ISO_ENTRY_SIZE) name_len 256;
        d_name ← strcpy_into MAX_FILENAME (to_lowercase normalized);
        flags ← e_flags d entry;
        let d_type := type_code (if Z.land flags ISO_FLAG_DIRECTORY =? 0 then VFS_TYPE_FILE else VFS_TYPE_DIR) in
        list_loop n' d base (offset + length) dir_size max_entries (out ++ [mkdirent d_name d_type])
      else Ret out
  end.

Definition iso9660_readdir (fs : option iso9660_mount_data) (path : list Z) (max_entries : Z)
  : outcome (rc (list vfs_dirent)) :=
  if max_entries =? 0 then Ret (Err (- EINVAL)) else
  match fs with
  | None => Ret (Err (- EINVAL))
  | Some fs =>
      st ← iso9660_stat (Some fs) path;
      match st with
      | Err e => Ret (Err e)
      | Ok st =>
          if Z.land (st_mode st) VFS_S_IFDIR =? 0 then Ret (Err (- ENOTDIR)) else
          '(extent, size) ← iso_root_entry fs;
          r ← (if negb (str_eq path []) && negb (str_eq path [ISO_SLASH]) then
                 copy ← strcpy_into 256 path; iso_walk (S (length copy)) fs extent size (skip_root copy)
               else Ret (Ok (extent, size)));
          match r with
          | Err e => Ret (Err e)
          | Ok (extent, size) =>
              match iso_read_block fs extent with
              | None => Ret (Err (- EIO))
              | Some base =>
                  entries ← list_loop (S (length (im_data fs))) (im_data fs) base 0 size (i32 max_entries) [];
                  Ret (Ok entries)
              end
          end
      end
  end.

(** ** Initialisation *)

(** The loop that looks for a primary volume descriptor. *)
Fixpoint init_loop (n : nat) (d : list Z) (size i : Z) : outcome bool :=
  match n with
  | O => Ret false
  | S n' =>
      if size <=? i * 2048 then Ret false else
      found ← is_pvd d (i * 2048);
      if found : bool then Ret true else init_loop n' d size (i + 1)
  end.

(** "iso9660" and "iso0". *)
Definition FS_NAME : list Z := [105; 115; 111; 57; 54; 54; 48].
Definition ISO_DEVICE : list Z := [105; 115; 111; 48].

Section Init.
Context {V : Type} `{VE : VfsEnv V}.

(** [ops]: the address of iso9660_ops. *)
Definition iso9660_init (ops : Z) (iso_start : list Z) (iso_size : Z) (g : iso_globals) (v : vfs V)
  : outcome (iso_globals * vfs V) :=
  found ← init_loop 16 iso_start iso_size 16;
  let g := mkglobals (Some iso_start) iso_size (initialized g || found) in
  if initialized g then
    '(v, _) ← vfs_register_filesystem (Some FS_NAME) (Some ops) 0 v; Ret (g, v)
  else Ret (g, v).

Definition iso9660_is_initialized (g : iso_globals) : bool := initialized g.

Definition iso9660_mount_to_vfs (mount_point : list Z) (g : iso_globals) (v : vfs V) : outcome (vfs V * Z) :=
  if negb (initialized g) then Ret (v, - ENODEV)
  else match iso_data g with
       | None => Ret (v, - ENODEV)
       | Some _ => vfs_mount_fs (Some FS_NAME) (Some mount_point) (Some ISO_DEVICE) 0 0 v
       end.
End Init.
