(* ===== verification/Iso9660Proofs.v ===== *)
(** * The ISO 9660 driver: an image as a tree

    Directory records as byte strings, directories as lists of records, and the
    image as a tree of names with the bytes of the files at its leaves
    ([represents]).  The loops of the driver compute the corresponding functions
    of the tree. *)

From S2P Require Import Prelude Vfs Bytes BlockDev Iso9660.

#[local] Set Warnings "-register-all".

(** ** Directory records *)

Definition rbyte (r : list Z) (k : Z) : Z := default 0 (r !! Z.to_nat k).

Definition rec_name_len (r : list Z) : Z := rbyte r 32.
Definition rec_extent (r : list Z) : Z := le_value (slice r 2 4).
Definition rec_size (r : list Z) : Z := le_value (slice r 10 4).
Definition rec_is_dir (r : list Z) : bool := negb (Z.land (rbyte r 25) ISO_FLAG_DIRECTORY =? 0).

Record rec_ok (r : list Z) : Prop := {
  ro_bytes : Forall byte_ok r;
  ro_length : rbyte r 0 = len r;
  ro_name : ISO_ENTRY_SIZE + rec_name_len r <= len r;
}.

(** "." and ".." are the names of one byte 0 and 1. *)
Definition rec_special (r : list Z) : bool :=
  (rec_name_len r =? 1) && ((rbyte r 33 =? 0) || (rbyte r 33 =? 1)).

(** The characters before a version number. *)
Fixpoint before_semicolon (s : list Z) : list Z :=
  match s with [] => [] | c :: s' => if c =? ISO_SEMICOLON then [] else c :: before_semicolon s' end.

(** The name the driver gives to a record. *)
Definition rec_name (r : list Z) : list Z :=
  to_lowercase (cstring (strip_dot (before_semicolon (slice r ISO_ENTRY_SIZE (rec_name_len r))))).

Fixpoint visible (rs : list (list Z)) : list (list Z) :=
  match rs with [] => [] | r :: rs' => if rec_special r then visible rs' else r :: visible rs' end.

(** The directory at offset [base] with [size] bytes has the records [rs], and
    then ends or has a zero byte. *)
Record dir_at (d : list Z) (base size : Z) (rs : list (list Z)) : Prop := {
  da_base : 0 <= base;
  da_recs : Forall rec_ok rs;
  da_fits : base + len (concat rs) <= len d;
  da_bytes : slice d base (len (concat rs)) = concat rs;
  da_end : size = len (concat rs) \/
           len (concat rs) < size /\ d !! Z.to_nat (base + len (concat rs)) = Some 0;
}.

Lemma rec_len_pos r : rec_ok r -> 33 <= len r < 256.
Proof.
  intros [Hb Hl Hn]. unfold ISO_ENTRY_SIZE in Hn.
  assert (forall k, 0 <= rbyte r k < 256) as H.
  { intros k. unfold rbyte. destruct (r !! Z.to_nat k) eqn:E; [|simpl; lia].
    eapply Forall_lookup_1 in Hb; [|exact E]. exact Hb. }
  pose proof (H 0). pose proof (H 32). unfold rec_name_len in Hn. lia.
Qed.

(** A record inside of the image. *)
Definition rec_at (d : list Z) (off : Z) (r : list Z) : Prop :=
  0 <= off /\ off + len r <= len d /\ slice d off (len r) = r.

Section RecAt.
Context (d : list Z) (off : Z) (r : list Z) (Hat : rec_at d off r) (Hok : rec_ok r).

Lemma rec_get8 k : 0 <= k < len r -> get8 d (off + k) = Ret (rbyte r k).
Proof.
  destruct Hat as (H0 & H1 & H2). intros Hk. unfold get8, rbyte.
  assert (d !! Z.to_nat (off + k) = r !! Z.to_nat k) as E.
  { rewrite <- H2 at 1. rewrite slice_lookup by lia. done. }
  destruct (lookup_lt_is_Some_2 r (Z.to_nat k)) as [x Hx]; [unfold len in Hk; lia|].
  rewrite Hx. apply aget_lookup; [lia|]. by rewrite E.
Qed.

Lemma rec_get32 k : 0 <= k -> k + 4 <= len r -> get32 d (off + k) = Ret (le_value (slice r k 4)).
Proof.
  destruct Hat as (H0 & H1 & H2). intros. rewrite get32_ok by lia. do 2 f_equal.
  rewrite <- H2. by rewrite slice_slice by lia.
Qed.

Lemma rec_fields :
  e_length d off = Ret (len r) /\ e_name_len d off = Ret (rec_name_len r) /\
  e_extent d off = Ret (rec_extent r) /\ e_size d off = Ret (rec_size r) /\
  e_flags d off = Ret (rbyte r 25).
Proof.
  pose proof (rec_len_pos r Hok). unfold e_length, e_name_len, e_extent, e_size, e_flags.
  rewrite <- (ro_length r Hok). split_and!.
  - rewrite <- (Z.add_0_r off) at 1. apply rec_get8. lia.
  - apply rec_get8. lia.
  - apply rec_get32; lia.
  - apply rec_get32; lia.
  - apply rec_get8. lia.
Qed.

Lemma rec_name_range : 0 <= rec_name_len r < 256.
Proof.
  unfold rec_name_len, rbyte. destruct (r !! Z.to_nat 32) eqn:E; [|simpl; lia].
  destruct Hok as [Hb _ _]. eapply Forall_lookup_1 in Hb; [|exact E]. exact Hb.
Qed.

Lemma rec_special_ok : is_special d off (rec_name_len r) = Ret (rec_special r).
Proof.
  unfold is_special, rec_special. destruct (Z.eqb_spec (rec_name_len r) 1) as [E|E]; [|done].
  cbn [negb]. unfold ISO_ENTRY_SIZE. rewrite rec_get8; [done|]. pose proof (ro_name r Hok) as Hn.
  unfold ISO_ENTRY_SIZE in Hn. lia.
Qed.

Lemma normalize_loop_ok n : forall o,
  0 <= o -> o + Z.of_nat n <= len d -> normalize_loop n d o = Ret (before_semicolon (slice d o (Z.of_nat n))).
Proof.
  induction n as [|n IH]; intros o H0 Hn; [done|]. cbn [normalize_loop].
  destruct (aget_in_bounds d o) as (c & E & Hc); [lia|]. unfold get8. rewrite E. cbn [mbind outcome_bind].
  assert (slice d o (Z.of_nat (S n)) = c :: slice d (o + 1) (Z.of_nat n)) as ->.
  { unfold slice. rewrite (drop_S _ _ _ Hc). rewrite !Nat2Z.id. cbn [take]. by replace (Z.to_nat (o + 1)) with (S (Z.to_nat o)) by lia. }
  cbn [before_semicolon]. destruct (c =? ISO_SEMICOLON); [done|]. rewrite IH by lia. done.
Qed.

Lemma rec_normalize :
  normalize_filename d (off + ISO_ENTRY_SIZE) (rec_name_len r) 256 =
    Ret (cstring (strip_dot (before_semicolon (slice r ISO_ENTRY_SIZE (rec_name_len r))))).
Proof.
  pose proof rec_name_range. pose proof (ro_name r Hok) as Hn. destruct Hat as (H0 & H1 & H2).
  unfold normalize_filename. rewrite Z.min_l by lia. unfold ISO_ENTRY_SIZE in *.
  rewrite normalize_loop_ok by lia. cbn [mbind outcome_bind]. rewrite Z2Nat.id by lia.
  set (k := rec_name_len r) in *. clearbody k. clear Hok Hat. rewrite <- H2. by rewrite slice_slice by lia.
Qed.
End RecAt.

(** ** Searching *)

(** The offset of the first visible record with this name, from [off] on. *)
Fixpoint find_rec (rs : list (list Z)) (off : Z) (name : list Z) : option (Z * list Z) :=
  match rs with
  | [] => None
  | r :: rs' =>
      if negb (rec_special r) && str_eq (rec_name r) (to_lowercase name) then Some (off, r)
      else find_rec rs' (off + len r) name
  end.

(** The part of a directory that is left: [rs] at offset [offset] of [base]. *)
Lemma dir_at_cons d base size r rs :
  dir_at d base size (r :: rs) -> rec_at d base r /\ rec_ok r /\ dir_at d (base + len r) (size - len r) rs.
Proof.
  intros [H0 H1 H2 H3 H4]. apply Forall_cons in H1 as [Hr H1]. cbn [concat] in *.
  pose proof (rec_len_pos r Hr).
  assert (len (r ++ concat rs) = len r + len (concat rs)) as E by size. rewrite E in *.
  assert (0 <= len (concat rs)) by (unfold len; lia).
  rewrite slice_app_add in H3 by lia.
  apply app_inj_1 in H3 as [Ha Hb]; [|apply Nat2Z.inj, (len_slice d base (len r)); lia].
  split_and!; [split_and!; [lia|lia|done]|done|]. split; [lia|done|lia|done|].
  destruct H4 as [H4|[H4 H7]]; [left; lia|right]. split; [lia|]. by rewrite <- Z.add_assoc.
Qed.

Lemma find_entry_loop_ok d name rs : forall n base0 offset size,
  (length rs < n)%nat -> len name < 256 ->
  dir_at d (base0 + offset) (size - offset) rs ->
  find_entry_loop n d base0 offset size name = Ret (fst <$> find_rec rs (base0 + offset) name).
Proof.
  induction rs as [|r rs IH]; intros n base0 offset size Hn Hname Hd; (destruct n as [|n]; [simpl in Hn; lia|]);
    cbn [find_entry_loop find_rec].
  - destruct Hd as [H0 _ H2 _ [H4|[H4 H5]]]; cbn [concat] in *.
    + rewrite (proj2 (Z.ltb_ge offset size)); [done|]. unfold len in H4. simpl in H4. lia.
    + change (len (@nil Z)) with 0 in *. rewrite (proj2 (Z.ltb_lt offset size)) by lia.
      rewrite Z.add_0_r in H5. unfold e_length, get8. rewrite (aget_lookup _ _ 0) by done. done.
  - apply dir_at_cons in Hd as (Hat & Hr & Hd). pose proof (rec_len_pos r Hr).
    assert (offset < size).
    { destruct Hd as [_ _ _ _ He]. pose proof (Zle_0_nat (length (concat rs))). fold (len (concat rs)) in *. lia. }
    rewrite (proj2 (Z.ltb_lt offset size)) by done.
    destruct (rec_fields d _ r Hat Hr) as (-> & -> & _). cbn [mbind outcome_bind].
    rewrite (proj2 (Z.eqb_neq (len r) 0)) by lia. rewrite (rec_special_ok d _ r Hat Hr). cbn [mbind outcome_bind].
    assert (find_entry_loop n d base0 (offset + len r) size name = Ret (fst <$> find_rec rs (base0 + offset + len r) name)) as E.
    { rewrite <- Z.add_assoc. apply IH; [simpl in Hn; lia|done|].
      replace (base0 + (offset + len r)) with (base0 + offset + len r) by lia.
      replace (size - (offset + len r)) with (size - offset - len r) by lia. done. }
    destruct (rec_special r); cbn [negb andb]; [exact E|].
    rewrite (rec_normalize d _ r Hat Hr). cbn [mbind outcome_bind]. unfold strcpy_into.
    rewrite (proj2 (Z.ltb_lt (len name) 256)) by done. cbn [mbind outcome_bind]. fold (rec_name r).
    destruct (str_eq (rec_name r) (to_lowercase name)); [done|exact E].
Qed.

(** ** Listing *)

Definition rec_dirent (r : list Z) : vfs_dirent :=
  mkdirent (rec_name r) (type_code (if rec_is_dir r then VFS_TYPE_DIR else VFS_TYPE_FILE)).

Lemma cstring_len s : len (cstring s) <= len s.
Proof. induction s as [|c s IH]; [done|]. cbn. destruct (c =? 0); unfold len in *; simpl length; lia. Qed.

Lemma strip_dot_len s : len (strip_dot s) <= len s.
Proof. unfold strip_dot. destruct (bool_decide _); [|done]. unfold len. rewrite length_take. lia. Qed.

Lemma before_semicolon_len s : len (before_semicolon s) <= len s.
Proof. induction s as [|c s IH]; [done|]. cbn. destruct (c =? ISO_SEMICOLON); unfold len in *; simpl length; lia. Qed.

Lemma rec_name_len_lt r : rec_ok r -> len (rec_name r) < 256.
Proof.
  intros Hr. unfold rec_name, to_lowercase. unfold len at 1. rewrite length_map. fold (len (cstring (strip_dot (before_semicolon (slice r ISO_ENTRY_SIZE (rec_name_len r)))))).
  pose proof (rec_len_pos r Hr). pose proof (ro_name r Hr) as Hn. unfold ISO_ENTRY_SIZE in *.
  pose proof (cstring_len (strip_dot (before_semicolon (slice r 33 (rec_name_len r))))).
  pose proof (strip_dot_len (before_semicolon (slice r 33 (rec_name_len r)))).
  pose proof (before_semicolon_len (slice r 33 (rec_name_len r))).
  assert (len (slice r 33 (rec_name_len r)) <= len r); [|lia].
  unfold slice, len. rewrite length_take, length_drop. lia.
Qed.

Lemma list_loop_ok d max rs : forall n base0 offset size out,
  (length rs < n)%nat -> dir_at d (base0 + offset) (size - offset) rs -> len out <= max ->
  list_loop n d base0 offset size max out =
    Ret (take (Z.to_nat max) (out ++ map rec_dirent (visible rs))).
Proof.
  induction rs as [|r rs IH]; intros n base0 offset size out Hn Hd Hout; (destruct n as [|n]; [simpl in Hn; lia|]);
    cbn [list_loop].
  - rewrite app_nil_r, take_ge by (unfold len in Hout; lia).
    destruct Hd as [H0 _ H2 _ [H4|[H4 H5]]]; cbn [concat] in *; change (len (@nil Z)) with 0 in *.
    + by rewrite (proj2 (Z.ltb_ge offset size)) by lia.
    + rewrite (proj2 (Z.ltb_lt offset size)) by lia. cbn [andb]. destruct (len out <? max); [|done].
      rewrite Z.add_0_r in H5. unfold e_length, get8. rewrite (aget_lookup _ _ 0) by done. done.
  - apply dir_at_cons in Hd as (Hat & Hr & Hd). pose proof (rec_len_pos r Hr).
    assert (offset < size).
    { destruct Hd as [_ _ _ _ He]. pose proof (Zle_0_nat (length (concat rs))). fold (len (concat rs)) in *. lia. }
    rewrite (proj2 (Z.ltb_lt offset size)) by done. cbn [andb].
    destruct (Z.ltb_spec (len out) max) as [Hlt|Hge].
    2:{ rewrite take_app_le, take_ge by (unfold len in *; lia). done. }
    destruct (rec_fields d _ r Hat Hr) as (-> & -> & _ & _ & ->). cbn [mbind outcome_bind].
    rewrite (proj2 (Z.eqb_neq (len r) 0)) by lia. rewrite (rec_special_ok d _ r Hat Hr). cbn [mbind outcome_bind].
    assert (dir_at d (base0 + (offset + len r)) (size - (offset + len r)) rs) as Hd'.
    { by replace (base0 + (offset + len r)) with (base0 + offset + len r) by lia;
      replace (size - (offset + len r)) with (size - offset - len r) by lia. }
    cbn [visible]. destruct (rec_special r).
    { apply IH; [simpl in Hn; lia|done|lia]. }
    rewrite (rec_normalize d _ r Hat Hr). cbn [mbind outcome_bind]. unfold strcpy_into. fold (rec_name r).
    unfold MAX_FILENAME. rewrite (proj2 (Z.ltb_lt _ 256)) by (by apply rec_name_len_lt). cbn [mbind outcome_bind].
    rewrite IH; [|simpl in Hn; lia|done|size].
    cbn [map]. rewrite <- app_assoc. unfold rec_dirent at 2, rec_is_dir. cbn [app].
    by destruct (Z.land (rbyte r 25) ISO_FLAG_DIRECTORY =? 0).
Qed.

(** ** The tree *)

Inductive tree :=
| File (contents : list Z)
| Dir (names : list (list Z)) (children : list tree).

Definition tree_is_dir (t : tree) : bool := match t with File _ => false | Dir _ _ => true end.

(** The directory at offset [base] with [size] bytes has the records [rs] and nothing
    behind them but zeros: no record is hidden behind a gap. *)
Definition whole_dir (d : list Z) (base size : Z) (rs : list (list Z)) : Prop :=
  dir_at d base size rs /\ forall k, len (concat rs) <= k < size -> d !! Z.to_nat (base + k) = Some 0.

(** The image [d] with blocks of [bs] bytes has the tree at an extent. *)
Inductive represents (d : list Z) (bs : Z) : Z -> Z -> tree -> Prop :=
| rep_file extent size contents :
    0 <= extent -> 0 <= size < 2 ^ 32 -> extent * bs + size <= len d ->
    (0 < size -> extent * bs < len d) ->
    contents = slice d (extent * bs) size ->
    represents d bs extent size (File contents)
| rep_dir extent size rs ts :
    0 <= extent -> extent * bs < len d ->
    whole_dir d (extent * bs) size rs ->
    Forall2 (fun r t => rec_is_dir r = tree_is_dir t) (visible rs) ts ->
    Forall2 (fun r t => represents d bs (rec_extent r) (rec_size r) t) (visible rs) ts ->
    represents d bs extent size (Dir (map rec_name (visible rs)) ts).

(** Following a path, which may end in a node, at a name that is missing in a
    directory, or at a file with further names behind it. *)
Inductive lookup_result := Found (t : tree) | Missing | ThroughFile.

Fixpoint find_child (name : list Z) (names : list (list Z)) (ts : list tree) : option tree :=
  match names, ts with
  | n :: names', t :: ts' => if str_eq n (to_lowercase name) then Some t else find_child name names' ts'
  | _, _ => None
  end.

Fixpoint tree_lookup (path : list (list Z)) (t : tree) : lookup_result :=
  match path with
  | [] => Found t
  | name :: path' =>
      match t with
      | File _ => ThroughFile
      | Dir names ts =>
          match find_child name names ts with
          | Some t' => tree_lookup path' t'
          | None => Missing
          end
      end
  end.

(** What the driver finds for a name is what the tree has. *)
Lemma find_rec_tree d bs rs ts name : forall off,
  Forall2 (fun r t => rec_is_dir r = tree_is_dir t) (visible rs) ts ->
  Forall2 (fun r t => represents d bs (rec_extent r) (rec_size r) t) (visible rs) ts ->
  match find_rec rs off name with
  | Some (_, r) => exists t, find_child name (map rec_name (visible rs)) ts = Some t /\
                     rec_is_dir r = tree_is_dir t /\ represents d bs (rec_extent r) (rec_size r) t
  | None => find_child name (map rec_name (visible rs)) ts = None
  end.
Proof.
  revert ts. induction rs as [|r rs IH]; intros ts off H1 H2; [done|]. cbn [find_rec].
  cbn [visible] in *. destruct (rec_special r); cbn [negb andb] in *; [by apply IH|].
  apply Forall2_cons_inv_l in H1 as (t & ts' & Ht & H1 & ->). apply Forall2_cons in H2 as [Hr H2].
  cbn [map find_child]. destruct (str_eq (rec_name r) (to_lowercase name)); [eauto|by apply IH].
Qed.

Lemma find_rec_at d name rs : forall base size,
  dir_at d base size rs ->
  match find_rec rs base name with Some (off, r) => rec_at d off r /\ rec_ok r | None => True end.
Proof.
  induction rs as [|r rs IH]; intros base size Hd; [done|]. apply dir_at_cons in Hd as (Hat & Hr & Hd).
  cbn [find_rec]. destruct (negb (rec_special r) && str_eq (rec_name r) (to_lowercase name)); [done|].
  by apply (IH _ (size - len r)).
Qed.

Lemma records_fit d base size rs : dir_at d base size rs -> (length rs < S (length d))%nat.
Proof.
  intros [H0 H1 H2 _ _]. enough (len rs <= len (concat rs)) by (unfold len in *; lia).
  clear H2. induction H1 as [|r rs Hr _ IH]; [done|]. pose proof (rec_len_pos r Hr). cbn [concat].
  unfold len in *. rewrite length_app. simpl length. lia.
Qed.

(** ** A mounted volume *)

Record volume (fs : iso9660_mount_data) (root_extent root_size : Z) (t : tree) : Prop := {
  vo_size : im_size fs = len (im_data fs);
  vo_small : len (im_data fs) < 2 ^ 32;
  vo_bytes : Forall byte_ok (im_data fs);
  vo_bs : 0 < im_block_size fs < 65536;
  vo_root : iso_root_entry fs = Ret (root_extent, root_size);
  vo_tree : represents (im_data fs) (im_block_size fs) root_extent root_size t;
  vo_dir : tree_is_dir t = true;
}.

Section Volume.
Context (fs : iso9660_mount_data) (Hsize : im_size fs = len (im_data fs)) (Hsmall : len (im_data fs) < 2 ^ 32)
        (Hbs : 0 < im_block_size fs < 65536).
Abbreviation d := (im_data fs).
Abbreviation bs := (im_block_size fs).

Lemma read_block_ok lba : 0 <= lba -> lba * bs < len d -> iso_read_block fs lba = Some (lba * bs).
Proof.
  intros H0 H. unfold iso_read_block. rewrite Hsize. rewrite (proj2 (Z.leb_gt (len d) (lba * bs))) by done.
  rewrite u32_id by nia. done.
Qed.

(** One step of a path. *)
Lemma find_entry_tree extent size names ts name :
  represents d bs extent size (Dir names ts) -> len name < 256 ->
  match find_child name names ts with
  | None => find_entry_in_dir fs extent size name = Ret None
  | Some t => exists e r, find_entry_in_dir fs extent size name = Ret (Some e) /\ rec_at d e r /\ rec_ok r /\
                rec_is_dir r = tree_is_dir t /\ represents d bs (rec_extent r) (rec_size r) t
  end.
Proof.
  intros Hrep Hname. inversion Hrep as [|? ? rs ? H0 Hlt [Hd _] Hdirs Hts Heq]; subst. unfold find_entry_in_dir.
  rewrite read_block_ok by done.
  rewrite (find_entry_loop_ok d name rs _ (extent * bs) 0 size); [|by eapply records_fit|done|by rewrite Z.add_0_r, Z.sub_0_r].
  rewrite Z.add_0_r. pose proof (find_rec_tree d bs rs ts name (extent * bs) Hdirs Hts) as H.
  pose proof (find_rec_at d name rs _ _ Hd) as Hat.
  destruct (find_rec rs (extent * bs) name) as [[e r]|]; [|by rewrite H].
  destruct H as (t & -> & Hdir & Hrep'). exists e, r. destruct Hat. split_and!; done.
Qed.

(** ** Paths *)

Definition name_ok (s : list Z) : Prop := s <> [] /\ Forall (fun c => c <> ISO_SLASH) s.

Fixpoint join (path : list (list Z)) : list Z :=
  match path with
  | [] => []
  | [s] => s
  | s :: path' => s ++ ISO_SLASH :: join path'
  end.

Lemma component_join s path :
  name_ok s -> Forall name_ok path ->
  iso_component (join (s :: path)) = (s, match path with [] => [] | _ => ISO_SLASH :: join path end).
Proof.
  intros [_ Hs] Hp.
  assert (forall rest, rest = [] \/ (exists r, rest = ISO_SLASH :: r) -> iso_component (s ++ rest) = (s, rest)) as H.
  { intros rest Hrest. induction Hs as [|c s Hc Hs IH]; cbn [app iso_component].
    - destruct Hrest as [->|[r ->]]; done.
    - rewrite (proj2 (Z.eqb_neq c ISO_SLASH)) by done. by rewrite IH. }
  destruct path as [|s' path]; cbn [join].
  - rewrite <- (app_nil_r s) at 1. apply H. by left.
  - apply H. right. eauto.
Qed.

Lemma skip_root_join path : Forall name_ok path ->
  skip_root (match path with [] => [] | _ => ISO_SLASH :: join path end) = join path.
Proof. by destruct path. Qed.

Lemma join_nonempty s path : name_ok s -> exists c p, join (s :: path) = c :: p /\ c <> ISO_SLASH.
Proof.
  intros [Hne Hs]. destruct s as [|c s]; [done|]. apply Forall_cons in Hs as [Hc _].
  destruct path; cbn [join app]; eauto.
Qed.

Lemma join_len s path : len s <= len (join (s :: path)) /\ (path <> [] -> len (join path) < len (join (s :: path))).
Proof. destruct path as [|s' path]; cbn [join]; [done|]. unfold len. rewrite length_app. simpl length. split; lia. Qed.

Lemma walk_ok path : forall n extent size t,
  Forall name_ok path -> len (join path) < 256 -> (length path < n)%nat ->
  represents d bs extent size t ->
  match tree_lookup path t with
  | Found t' => exists extent' size', iso_walk n fs extent size (join path) = Ret (Ok (extent', size')) /\
                  represents d bs extent' size' t'
  | Missing => iso_walk n fs extent size (join path) = Ret (Err (- ENOENT))
  | ThroughFile => True
  end.
Proof.
  induction path as [|s path IH]; intros n extent size t Hp Hlen Hn Hrep; (destruct n as [|n]; [simpl in Hn; lia|]).
  { cbn. eauto. }
  apply Forall_cons in Hp as [Hs Hp]. cbn [tree_lookup]. destruct t as [|names ts]; [done|].
  pose proof (join_len s path) as [Hl1 Hl2].
  destruct (join_nonempty s path Hs) as (c & p & Ej & _).
  assert (iso_walk (S n) fs extent size (join (s :: path)) =
    (let '(component, rest) := iso_component (join (s :: path)) in
     if 256 <=? len component then Ret (Err (- ENAMETOOLONG)) else
     entry ← find_entry_in_dir fs extent size component;
     match entry with
     | None => Ret (Err (- ENOENT))
     | Some e => extent ← e_extent d e; size ← e_size d e; iso_walk n fs extent size (skip_root rest)
     end)) as -> by (rewrite Ej; done).
  rewrite component_join by done. rewrite (proj2 (Z.leb_gt 256 (len s))) by lia.
  pose proof (find_entry_tree extent size names ts s Hrep ltac:(lia)) as H.
  destruct (find_child s names ts) as [t'|]; [|by rewrite H].
  destruct H as (e & r & -> & Hat & Hr & _ & Hrep'). cbn [mbind outcome_bind].
  destruct (rec_fields d e r Hat Hr) as (_ & _ & -> & -> & _). cbn [mbind outcome_bind].
  rewrite skip_root_join by done. apply IH; [done| |simpl in Hn; lia|done].
  destruct path; [done|]. specialize (Hl2 ltac:(done)). lia.
Qed.

(** ** Reading *)

Lemma read_loop_ok n : forall block offset to_read position out A,
  0 <= to_read < Z.of_nat n -> 0 <= position -> position + to_read < 2 ^ 32 ->
  0 <= A -> A + to_read <= len d -> 0 <= offset < bs ->
  (0 < to_read -> 0 <= block /\ A = block * bs + offset) ->
  iso_read_loop n fs block offset to_read position out = Ret (out ++ slice d A to_read, position + to_read).
Proof.
  induction n as [|n IH]; intros block offset to_read position out A Hn Hp Hp' HA Hfit Hoff Hblock; [lia|].
  cbn [iso_read_loop]. destruct (Z.ltb_spec 0 to_read) as [Hpos|Hz].
  2:{ replace to_read with 0 by lia. unfold slice. simpl. by rewrite app_nil_r, Z.add_0_r. }
  destruct (Hblock Hpos) as [Hb ->]. rewrite read_block_ok by nia.
  rewrite (u64_id (bs - offset)) by lia.
  set (chunk := if to_read <? bs - offset then to_read else bs - offset).
  assert (0 < chunk <= to_read /\ chunk <= bs - offset /\ (to_read - chunk > 0 -> chunk = bs - offset)) as (Hc & Hc2 & Hc3)
    by (unfold chunk; destruct (Z.ltb_spec to_read (bs - offset)); lia).
  rewrite mem_read_slice by lia. cbn [mbind outcome_bind]. rewrite (u32_id (position + chunk)) by lia.
  rewrite (IH _ _ _ _ _ (block * bs + offset + chunk)); [|lia..|].
  - rewrite <- app_assoc, <- slice_app_add by lia. f_equal. f_equal; [do 2 f_equal; lia|lia].
  - intros Hrest. rewrite (Hc3 ltac:(lia)). rewrite u32_id by nia. split; [lia|nia].
Qed.

Lemma iso9660_read_ok extent size contents pos flags count :
  represents d bs extent size (File contents) -> 0 <= pos -> 0 <= count ->
  let n := Z.max 0 (Z.min count (size - pos)) in
  iso9660_read fs (Some (mkisofile extent size pos flags)) count =
    Ret (n, slice contents pos n, Some (mkisofile extent size (pos + n) flags)).
Proof.
  intros Hrep Hpos Hcount n. inversion Hrep as [? ? ? H0 Hs Hfit _ ->|]; subst. unfold iso9660_read.
  cbn [if_size if_position if_extent set_if_position if_flags].
  destruct (Z.leb_spec size pos) as [Hge|Hlt].
  { replace n with 0 by (unfold n; lia). by rewrite Z.add_0_r. }
  assert ((if count <? size - pos then count else size - pos) = n) as ->
    by (unfold n; destruct (Z.ltb_spec count (size - pos)); lia).
  assert (0 <= n <= size - pos) as Hn by (unfold n; lia). clearbody n.
  unfold udiv, umod. rewrite (proj2 (Z.eqb_neq bs 0)) by lia. cbn [mbind outcome_bind].
  pose proof (Z.div_mod pos bs ltac:(lia)) as E. pose proof (Z.mod_pos_bound pos bs ltac:(lia)) as Hm.
  assert (0 <= pos / bs) by (apply Z.div_pos; lia).
  change (2 ^ 32) with 4294967296 in *.
  rewrite (u32_id (extent + pos / bs)) by nia.
  rewrite read_block_ok by nia. cbn [mbind outcome_bind].
  assert ((extent + pos / bs) * bs + pos mod bs = extent * bs + pos) as EA by lia.
  assert (slice (slice d (extent * bs) size) pos n = slice d (extent * bs + pos) n) as -> by (apply slice_slice; nia).
  destruct (Z.leb_spec (pos mod bs + n) bs).
  - rewrite EA, mem_read_slice by nia. cbn [mbind outcome_bind]. by rewrite u32_id by lia.
  - rewrite (read_loop_ok _ _ _ _ _ _ (extent * bs + pos)); [|try nia..].
    + cbn [mbind outcome_bind app]. rewrite len_slice by nia. done.
Qed.

(** ** Status and listing *)

Definition tree_stat (size : Z) (t : tree) : vfs_stat_t :=
  mkstat (if tree_is_dir t then Z.lor VFS_S_IFDIR 365 else Z.lor VFS_S_IFREG 292) size bs 0.

Lemma stat_walk_ok path : forall n extent size t,
  path <> [] -> Forall name_ok path -> len (join path) < 256 -> (length path < n)%nat ->
  represents d bs extent size t ->
  match tree_lookup path t with
  | Found t' => exists extent' size', stat_walk n fs extent size (join path) = Ret (Ok (tree_stat size' t')) /\
                  represents d bs extent' size' t'
  | Missing => stat_walk n fs extent size (join path) = Ret (Err (- ENOENT))
  | ThroughFile => True
  end.
Proof.
  induction path as [|s path IH]; intros n extent size t Hne Hp Hlen Hn Hrep; [done|].
  destruct n as [|n]; [simpl in Hn; lia|].
  apply Forall_cons in Hp as [Hs Hp]. cbn [tree_lookup]. destruct t as [|names ts]; [done|].
  pose proof (join_len s path) as [Hl1 Hl2].
  destruct (join_nonempty s path Hs) as (c & p & Ej & _).
  cbn [stat_walk]. rewrite Ej. cbn beta iota. rewrite <- Ej.
  rewrite component_join by done. rewrite (proj2 (Z.leb_gt 256 (len s))) by lia.
  pose proof (find_entry_tree extent size names ts s Hrep ltac:(lia)) as H.
  destruct (find_child s names ts) as [t'|]; [|by rewrite H].
  destruct H as (e & r & -> & Hat & Hr & Hdir & Hrep'). cbn [mbind outcome_bind].
  destruct (rec_fields d e r Hat Hr) as (_ & _ & -> & -> & ->). cbn [mbind outcome_bind].
  destruct path as [|s' path].
  - cbn [tree_lookup]. exists (rec_extent r), (rec_size r). split; [|done]. unfold tree_stat. rewrite <- Hdir.
    unfold rec_is_dir. by destruct (Z.land (rbyte r 25) ISO_FLAG_DIRECTORY =? 0).
  - cbn [skip_root]. rewrite Z.eqb_refl. apply IH; [done|done| |simpl in Hn |- *; lia|done].
    specialize (Hl2 ltac:(done)). lia.
Qed.

Lemma listing_ok extent size names ts max :
  represents d bs extent size (Dir names ts) -> 0 <= max ->
  exists base, iso_read_block fs extent = Some base /\
  list_loop (S (length d)) d base 0 size max [] =
    Ret (take (Z.to_nat max) (zip_with (fun n t => mkdirent n (type_code (if tree_is_dir t then VFS_TYPE_DIR else VFS_TYPE_FILE))) names ts)).
Proof.
  intros Hrep Hmax. inversion Hrep as [|? ? rs ? H0 Hlt [Hd _] Hdirs _ Heq]; subst.
  exists (extent * bs). split; [by apply read_block_ok|].
  rewrite (list_loop_ok d max rs); [|by eapply records_fit|by rewrite Z.add_0_r, Z.sub_0_r|done].
  cbn [app]. do 2 f_equal. clear -Hdirs. revert Hdirs. generalize (visible rs).
  intros l H. induction H as [|r t l ts Ht _ IH]; [done|]. cbn [map zip_with]. rewrite IH. f_equal.
  unfold rec_dirent. by rewrite Ht.
Qed.
End Volume.

(** * The ISO 9660 driver: theorems

    [iso_refines_tree]: an image is a tree, from the scan for the volume
    descriptor to the bytes of a file.  The other theorems are about images and
    paths outside of that: directories with padding, paths through files, a
    block size of zero. *)

#[local] Open Scope io_scope.

(** ** The volume descriptor *)

Definition pvd_at (d : list Z) (off : Z) : bool := bool_decide (slice d off 6 = 1 :: CD001).

Lemma same_chars_ok d s : forall off,
  0 <= off -> off + len s <= len d -> same_chars d off s = Ret (bool_decide (slice d off (len s) = s)).
Proof.
  induction s as [|c s IH]; intros off H0 Hfit; [done|]. cbn [same_chars].
  assert (len (c :: s) = 1 + len s) as E by size. rewrite E in *. assert (0 <= len s) by (unfold len; lia).
  destruct (aget_in_bounds d off) as (x & Ex & Hx); [lia|]. unfold get8. rewrite Ex. cbn [mbind outcome_bind].
  assert (slice d off (1 + len s) = x :: slice d (off + 1) (len s)) as ->.
  { unfold slice. rewrite (drop_S _ _ _ Hx). replace (Z.to_nat (1 + len s)) with (S (Z.to_nat (len s))) by lia.
    cbn [take]. by replace (Z.to_nat (off + 1)) with (S (Z.to_nat off)) by lia. }
  destruct (Z.eqb_spec x c) as [->|Hne].
  - rewrite IH by lia. f_equal. apply bool_decide_ext. split; [by intros ->|by intros [=]].
  - rewrite bool_decide_false; [done|]. by intros [= ? _].
Qed.

Lemma is_pvd_ok d off : 0 <= off -> off + 6 <= len d -> is_pvd d off = Ret (pvd_at d off).
Proof.
  intros H0 Hfit. unfold is_pvd, pvd_type, pvd_at.
  pose proof (same_chars_ok d (1 :: CD001) off H0 Hfit) as H. cbn [same_chars] in H.
  change (len (1 :: CD001)) with 6 in H. rewrite <- H. done.
Qed.

(** A disc image with its first volume descriptor in block [k] and the tree [t]. *)
Record iso_image (d : list Z) (k : Z) (t : tree) : Prop := {
  ii_bytes : Forall byte_ok d;
  ii_small : len d < 2 ^ 32;
  ii_block : 16 <= k < 32;
  ii_fits : k * 2048 + 2048 <= len d;
  ii_pvd : pvd_at d (k * 2048) = true;
  ii_first : forall j, 16 <= j < k -> pvd_at d (j * 2048) = false;
  ii_bs : 0 < le_value (slice d (k * 2048 + 128) 2);
  ii_tree : represents d (le_value (slice d (k * 2048 + 128) 2))
              (le_value (slice d (k * 2048 + 158) 4)) (le_value (slice d (k * 2048 + 166) 4)) t;
  ii_dir : tree_is_dir t = true;
}.

(** The mount data of an image. *)
Definition mount_of_image (d : list Z) (k : Z) : iso9660_mount_data :=
  mkisomount d (len d) (le_value (slice d (k * 2048 + 128) 2)) (Some (slice d (k * 2048) 2048)) 1.

Section Mounting.
Context (d : list Z) (k : Z) (t : tree) (I : iso_image d k t).

Lemma init_loop_ok n : forall i,
  16 <= i <= k -> k - i < Z.of_nat n -> init_loop n d (len d) i = Ret true.
Proof.
  pose proof (ii_fits _ _ _ I). induction n as [|n IH]; intros i Hi Hn; [lia|]. cbn [init_loop].
  rewrite (proj2 (Z.leb_gt (len d) (i * 2048))) by lia. rewrite is_pvd_ok by lia. cbn [mbind outcome_bind].
  destruct (Z.eq_dec i k) as [->|]; [by rewrite (ii_pvd _ _ _ I)|].
  rewrite (ii_first _ _ _ I) by lia. apply IH; lia.
Qed.

Lemma mount_loop_ok n : forall i,
  16 <= i <= k -> k - i < Z.of_nat n ->
  mount_loop n (mkisomount d (len d) 2048 None 1) i = Ret (mount_of_image d k).
Proof.
  pose proof (ii_fits _ _ _ I). pose proof (ii_small _ _ _ I). pose proof (ii_block _ _ _ I).
  induction n as [|n IH]; intros i Hi Hn; [lia|]. cbn [mount_loop].
  rewrite read_block_ok by (cbn [im_size im_data im_block_size]; lia || done). cbn [im_data im_block_size im_size im_ref_count].
  rewrite is_pvd_ok by lia. cbn [mbind outcome_bind].
  destruct (Z.eq_dec i k) as [->|]; [|rewrite (ii_first _ _ _ I) by lia; apply IH; lia].
  rewrite (ii_pvd _ _ _ I). rewrite mem_read_slice by (unfold PVD_SIZE; lia). cbn [mbind outcome_bind].
  unfold pvd_logical_block_size. rewrite get16_ok by lia. done.
Qed.

Lemma mounted_volume :
  volume (mount_of_image d k) (le_value (slice d (k * 2048 + 158) 4)) (le_value (slice d (k * 2048 + 166) 4)) t.
Proof.
  destruct I as [H1 H2 H3 H4 _ _ H6 H7 H8]. split; cbn [mount_of_image im_data im_size im_block_size]; try done.
  - pose proof (le_value_range (slice d (k * 2048 + 128) 2) (slice_Forall _ _ _ _ H1)) as H.
    rewrite len_slice in H by lia. change (256 ^ 2) with 65536 in H. lia.
  - unfold iso_root_entry. cbn [mount_of_image im_pvd]. unfold e_extent, e_size, PVD_ROOT.
    assert (len (slice d (k * 2048) 2048) = 2048) as Hl by (apply len_slice; lia).
    rewrite !get32_ok by lia. cbn [mbind outcome_bind]. rewrite !slice_slice by lia. done.
Qed.
End Mounting.

(** ** The operations on a path *)

Lemma path_fuel path : Forall name_ok path -> (length path < S (length (join path)))%nat.
Proof.
  induction 1 as [|s path [Hs _] _ IH]; [simpl; lia|].
  pose proof (join_len s path) as [H1 H2]. destruct path as [|s' p'].
  - destruct s; [done|]. unfold len in H1. simpl length in *. lia.
  - specialize (H2 ltac:(done)). unfold len in H2. change (length (s :: s' :: p')) with (S (length (s' :: p'))). lia.
Qed.

Section Serves.
Context {W : Type} `{FW : FsWorld W}.

Definition dirents (names : list (list Z)) (ts : list tree) : list vfs_dirent :=
  zip_with (fun n t => mkdirent n (type_code (if tree_is_dir t then VFS_TYPE_DIR else VFS_TYPE_FILE))) names ts.

(** The file [f] reads as the bytes [c]. *)
Definition reads_as (fs : iso9660_mount_data) (f : iso9660_file) (c : list Z) : Prop :=
  if_position f = 0 /\ if_size f = len c /\
  forall pos count, 0 <= pos -> 0 <= count ->
    let n := Z.max 0 (Z.min count (len c - pos)) in
    iso9660_read fs (Some (set_if_position f pos)) count =
      Ret (n, slice c pos n, Some (set_if_position f (pos + n))).

(** The driver answers for this path as the tree does; it does not for a path with names
    behind a file ([iso_path_through_file]). *)
Definition serves (fs : iso9660_mount_data) (t : tree) (path : list (list Z)) : Prop :=
  let p := ISO_SLASH :: join path in
  match tree_lookup path t with
  | Found (File c) =>
      (forall flags w, Z.land flags VFS_WRITE = 0 ->
         runs_to (iso9660_open (Some fs) p flags w) (fun '(_, r) =>
           r = Err (- ENOMEM) \/ exists a f, r = Ok (a, f, join path) /\ reads_as fs f c)) /\
      iso9660_stat (Some fs) p = Ret (Ok (mkstat (Z.lor VFS_S_IFREG 292) (len c) (im_block_size fs) 0)) /\
      forall max, 0 < max -> iso9660_readdir (Some fs) p max = Ret (Err (- ENOTDIR))
  | Found (Dir names ts) =>
      (exists size, iso9660_stat (Some fs) p = Ret (Ok (mkstat (Z.lor VFS_S_IFDIR 365) size (im_block_size fs) 0))) /\
      forall max, 0 < max < 2 ^ 31 ->
        iso9660_readdir (Some fs) p max = Ret (Ok (take (Z.to_nat max) (dirents names ts)))
  | Missing =>
      (forall flags w, Z.land flags VFS_WRITE = 0 ->
         iso9660_open (Some fs) p flags w = Ret (w, Err (- ENOENT))) /\
      iso9660_stat (Some fs) p = Ret (Err (- ENOENT)) /\
      forall max, 0 < max -> iso9660_readdir (Some fs) p max = Ret (Err (- ENOENT))
  | ThroughFile => False
  end.

Lemma bind_lift_ret {A B} (a : A) (f : A -> io W B) w : bind (lift (Ret a)) f w = f a w.
Proof. done. Qed.

Section Path.
Context (fs : iso9660_mount_data) (re rs : Z) (t : tree) (V : volume fs re rs t).
Context (path : list (list Z)) (Hp : Forall name_ok path) (Hlen : len (join path) < 255).

Let Hsize := vo_size _ _ _ _ V.
Let Hsmall := vo_small _ _ _ _ V.
Let Hbs := vo_bs _ _ _ _ V.

Lemma open_walk flags w :
  Z.land flags VFS_WRITE = 0 ->
  iso9660_open (Some fs) (ISO_SLASH :: join path) flags w =
    (r ⇐ lift (iso_walk (S (length (join path))) fs re rs (join path));
     match r with
     | Err e => err e
     | Ok (extent, size) =>
         with_object ISO_FILE_SIZE (- ENOMEM) (fun p => ok (p, mkisofile extent size 0 (u32 flags), join path))
     end) w.
Proof.
  intros Hf. unfold iso9660_open. rewrite Hf. cbn [Z.eqb negb].
  rewrite (vo_root _ _ _ _ V), bind_lift_ret. cbn beta iota zeta.
  change (skip_root (ISO_SLASH :: join path)) with (join path).
  assert (match join path with
          | [] => Ret (Ok (re, rs))
          | _ :: _ => copy ← strcpy_into 256 (join path); iso_walk (S (length copy)) fs re rs copy
          end = iso_walk (S (length (join path))) fs re rs (join path)) as ->.
  { destruct (join path) eqn:E; [done|]. unfold strcpy_into. rewrite <- E in *.
    rewrite (proj2 (Z.ltb_lt (len (join path)) 256)) by lia. done. }
  unfold bind, lift. destruct (iso_walk _ fs re rs (join path)) as [[[e s]|e]| |]; [|done..]. cbn [mbind outcome_bind].
  unfold with_object. destruct (w_kmalloc ISO_FILE_SIZE w) as [w' [[a b]|]]; [|done].
  unfold strcpy_into, MAX_FILENAME. rewrite (proj2 (Z.ltb_lt (len (join path)) 256)) by lia. done.
Qed.

Lemma stat_path :
  iso9660_stat (Some fs) (ISO_SLASH :: join path) =
    match path with
    | [] => Ret (Ok (mkstat (Z.lor VFS_S_IFDIR 365) rs (im_block_size fs) 0))
    | _ => stat_walk (S (length (join path))) fs re rs (join path)
    end.
Proof.
  unfold iso9660_stat. rewrite (vo_root _ _ _ _ V). cbn [mbind outcome_bind].
  change (skip_root (ISO_SLASH :: join path)) with (join path).
  destruct path as [|s path0] eqn:Epath; [done|]. rewrite <- Epath in *.
  destruct (join path) as [|c q] eqn:E.
  { exfalso. rewrite Epath in Hp, E. apply Forall_cons in Hp as [Hs _].
    destruct (join_nonempty s path0 Hs) as (c & q & E' & _). congruence. }
  rewrite <- E in *. unfold strcpy_into. rewrite (proj2 (Z.ltb_lt (len (join path)) 256)) by lia. done.
Qed.

Lemma readdir_path max st :
  0 < max -> iso9660_stat (Some fs) (ISO_SLASH :: join path) = Ret (Ok st) ->
  Z.land (st_mode st) VFS_S_IFDIR <> 0 ->
  iso9660_readdir (Some fs) (ISO_SLASH :: join path) max =
    (r ← iso_walk (S (S (length (join path)))) fs re rs (join path);
     match r with
     | Err e => Ret (Err e)
     | Ok (extent, size) =>
         match iso_read_block fs extent with
         | None => Ret (Err (- EIO))
         | Some base =>
             entries ← list_loop (S (length (im_data fs))) (im_data fs) base 0 size (i32 max) []; Ret (Ok entries)
         end
     end).
Proof.
  intros Hmax Hst Hdir. unfold iso9660_readdir. rewrite (proj2 (Z.eqb_neq max 0)) by lia. rewrite Hst.
  cbn [mbind outcome_bind]. rewrite (proj2 (Z.eqb_neq _ 0) Hdir). rewrite (vo_root _ _ _ _ V). cbn [mbind outcome_bind].
  assert ((if negb (str_eq (ISO_SLASH :: join path) []) && negb (str_eq (ISO_SLASH :: join path) [ISO_SLASH])
           then copy ← strcpy_into 256 (ISO_SLASH :: join path); iso_walk (S (length copy)) fs re rs (skip_root copy)
           else Ret (Ok (re, rs))) = iso_walk (S (S (length (join path)))) fs re rs (join path)) as ->; [|done].
  unfold str_eq at 1. rewrite bool_decide_false by done. cbn [negb andb]. unfold str_eq.
  destruct (join path) eqn:E; [by rewrite bool_decide_true|]. rewrite <- E in *.
  rewrite bool_decide_false by (rewrite E; done). cbn [negb]. unfold strcpy_into.
  rewrite (proj2 (Z.ltb_lt _ 256)); [done|]. unfold len in *. simpl length. lia.
Qed.

Lemma serves_path : tree_lookup path t <> ThroughFile -> serves fs t path.
Proof.
  intros Hthrough. unfold serves.
  pose proof (walk_ok fs Hsize Hsmall Hbs path (S (length (join path))) re rs t Hp ltac:(lia) (path_fuel path Hp) (vo_tree _ _ _ _ V)) as Hw.
  pose proof (walk_ok fs Hsize Hsmall Hbs path (S (S (length (join path)))) re rs t Hp ltac:(lia) ltac:(pose proof (path_fuel path Hp); lia) (vo_tree _ _ _ _ V)) as Hw2.
  assert (path <> [] -> _) as Hs by (intros Hne; exact (stat_walk_ok fs Hsize Hsmall Hbs path (S (length (join path))) re rs t Hne Hp ltac:(lia) (path_fuel path Hp) (vo_tree _ _ _ _ V))).
  pose proof stat_path as Hst. pose proof (vo_dir _ _ _ _ V) as Hroot.
  destruct (tree_lookup path t) as [[c|names ts]| |] eqn:El; [| | |done].
  - assert (path <> []) as Hne by (intros ->; simplify_eq/=; done).
    destruct Hw as (e & s & Hw & Hrep). destruct (Hs Hne) as (e' & s' & Hs' & Hrep').
    assert (forall e s, represents (im_data fs) (im_block_size fs) e s (File c) -> s = len c) as Hsz.
    { intros e1 s1 H. inversion H as [? ? ? H0 H1 H2 _ ->|]. symmetry. apply len_slice; nia. }
    assert (iso9660_stat (Some fs) (ISO_SLASH :: join path) = Ret (Ok (mkstat (Z.lor VFS_S_IFREG 292) (len c) (im_block_size fs) 0))) as Hstat.
    { rewrite Hst, <- (Hsz _ _ Hrep'). destruct path; [done|]. exact Hs'. }
    split_and!; [|exact Hstat|].
    + intros flags w Hf. rewrite open_walk by done. unfold bind, lift. rewrite Hw. cbn [mbind outcome_bind].
      unfold with_object. destruct (w_kmalloc ISO_FILE_SIZE w) as [w' [[a b]|]]; cbn; [|by left].
      right. eexists _, _. split; [done|]. split_and!; [done|by apply (Hsz e)|].
      intros pos count Hpos Hcount. rewrite <- (Hsz _ _ Hrep). apply iso9660_read_ok; done.
    + intros max Hmax. unfold iso9660_readdir. rewrite (proj2 (Z.eqb_neq max 0)) by lia. rewrite Hstat. done.
  - destruct Hw2 as (e & s & Hw2 & Hrep).
    assert (exists sz, iso9660_stat (Some fs) (ISO_SLASH :: join path) = Ret (Ok (mkstat (Z.lor VFS_S_IFDIR 365) sz (im_block_size fs) 0))) as [sz Hstat].
    { rewrite Hst. destruct path; [eauto|]. destruct (Hs ltac:(done)) as (e' & s' & Hs' & _). eauto. }
    split; [by exists sz|]. intros max Hmax. erewrite readdir_path; [|lia|exact Hstat|done]. rewrite Hw2. cbn [mbind outcome_bind].
    rewrite i32_id by (change (2 ^ 31) with 2147483648 in Hmax; lia).
    destruct (listing_ok fs Hsize Hsmall Hbs e s names ts max Hrep ltac:(lia)) as (base & -> & ->). done.
  - assert (path <> []) as Hne by (intros ->; simplify_eq/=).
    assert (iso9660_stat (Some fs) (ISO_SLASH :: join path) = Ret (Err (- ENOENT))) as Hstat.
    { rewrite Hst. destruct path; [done|]. by apply Hs. }
    split_and!; [|exact Hstat|].
    + intros flags w Hf. rewrite open_walk by done. unfold bind, lift. rewrite Hw. done.
    + intros max Hmax. unfold iso9660_readdir. rewrite (proj2 (Z.eqb_neq max 0)) by lia. rewrite Hstat. done.
Qed.
End Path.

End Serves.

(** ** Images and paths outside of the specification *)

(** The search stops at the first record of length zero.  ISO 9660 fills the
    rest of a block with zeros when the next record does not fit, so the entries
    in all blocks of a directory but the first are hidden. *)
Theorem iso_padding_hides fs extent size rs name :
  im_size fs = len (im_data fs) -> len (im_data fs) < 2 ^ 32 -> 0 < im_block_size fs < 65536 ->
  0 <= extent -> extent * im_block_size fs < len (im_data fs) -> len name < 256 ->
  dir_at (im_data fs) (extent * im_block_size fs) size rs -> len (concat rs) < size ->
  find_rec rs (extent * im_block_size fs) name = None ->
  find_entry_in_dir fs extent size name = Ret None.
Proof.
  intros Hs Hsm Hbs H0 Hlt Hn Hd _ Hnone. unfold find_entry_in_dir. rewrite read_block_ok by done.
  rewrite (find_entry_loop_ok _ name rs _ _ 0 size); [|by eapply records_fit|done|by rewrite Z.add_0_r, Z.sub_0_r].
  by rewrite Z.add_0_r, Hnone.
Qed.

(** A logical block size of zero is accepted and makes every read of a file that
    is not empty raise the divide error. *)
Theorem iso_block_size_zero fs f count :
  im_block_size fs = 0 -> if_position f < if_size f -> iso9660_read fs (Some f) count = Fault DivideError.
Proof.
  intros H0 Hpos. unfold iso9660_read. rewrite (proj2 (Z.leb_gt (if_size f) (if_position f))) by done.
  rewrite H0. done.
Qed.

(** ** A small disc *)

Module Demo.
#[local] Instance demo_world : FsWorld unit := {
  w_find _ _ := None;
  w_block_size _ _ := 512;
  w_read _ _ _ w := (w, (- EIO, []));
  w_write _ _ _ _ w := (w, - EIO);
  w_kmalloc n w := (w, Some (4096, replicate (Z.to_nat n) 0));
  w_kfree _ w := w;
}.

Definition record (extent size flags : Z) (name : list Z) : list Z :=
  let pad := if Z.even (len name) then [0] else [] in
  [33 + len name + len pad; 0] ++ le_bytes 4 extent ++ replicate 4 0 ++ le_bytes 4 size ++ replicate 4 0 ++
  replicate 7 0 ++ [flags; 0; 0; 1; 0; 0; 1; len name] ++ name ++ pad.

Definition block (bs : list Z) : list Z := bs ++ replicate (2048 - length bs) 0.

(** "HELLO.TXT;1", "SUB", "FAKE.;1", "A.BIN;1". *)
Definition HELLO : list Z := [72; 69; 76; 76; 79; 46; 84; 88; 84; 59; 49].
Definition SUB : list Z := [83; 85; 66].
Definition FAKE : list Z := [70; 65; 75; 69; 46; 59; 49].
Definition ABIN : list Z := [65; 46; 66; 73; 78; 59; 49].

Definition root_recs : list (list Z) :=
  [record 18 2048 2 [0]; record 18 2048 2 [1]; record 20 5 0 HELLO; record 19 2048 2 SUB; record 23 40 0 FAKE].
Definition sub_recs : list (list Z) :=
  [record 19 2048 2 [0]; record 18 2048 2 [1]; record 21 3000 0 ABIN].
Definition hello : list Z := [72; 101; 108; 108; 111].
Definition bin : list Z := map (fun i => i mod 251) (seqZ 0 3000).
Definition fake : list Z := record 20 5 0 ABIN.

Definition pvd : list Z :=
  block (1 :: CD001 ++ replicate 122 0 ++ le_bytes 2 2048 ++ replicate 26 0 ++ record 18 2048 2 [0]).

Definition disc : list Z :=
  replicate (Z.to_nat (16 * 2048)) 0 ++ pvd ++ block [] ++ block (concat root_recs) ++ block (concat sub_recs) ++
  block hello ++ bin ++ replicate 1096 0 ++ block fake.

Definition disc_tree : tree :=
  Dir [[104; 101; 108; 108; 111; 46; 116; 120; 116]; [115; 117; 98]; [102; 97; 107; 101]]
      [File hello; Dir [[97; 46; 98; 105; 110]] [File bin]; File fake].

#[local] Instance rec_ok_dec r : Decision (rec_ok r).
Proof.
  refine (cast_if (decide (Forall byte_ok r /\ rbyte r 0 = len r /\ ISO_ENTRY_SIZE + rec_name_len r <= len r)));
    [split; tauto|intros [? ? ?]; tauto].
Defined.

Lemma disc_len : len disc = 49152.
Proof. vm_compute. reflexivity. Qed.

(** A directory of the disc, checked by evaluation. *)
Lemma disc_dir base rs :
  bool_decide (0 <= base /\ Forall rec_ok rs /\ base + 2048 <= 49152 /\ len (concat rs) < 2048 /\
    slice disc base (len (concat rs)) = concat rs /\
    Forall (fun k => disc !! Z.to_nat (base + k) = Some 0) (seqZ (len (concat rs)) (2048 - len (concat rs)))) = true ->
  whole_dir disc base 2048 rs.
Proof.
  intros (H0 & H1 & H2 & H3 & H4 & H5)%bool_decide_eq_true. rewrite Forall_seqZ in H5.
  assert (forall k, len (concat rs) <= k < 2048 -> disc !! Z.to_nat (base + k) = Some 0) as Hz by (intros k Hk; apply H5; lia).
  split; [|done]. split; [done|done| |done|right; split; [done|apply Hz; lia]]. rewrite disc_len. lia.
Qed.

Lemma disc_file extent size c :
  bool_decide (0 <= extent /\ 0 < size < 2 ^ 32 /\ extent * 2048 + size <= 49152 /\ c = slice disc (extent * 2048) size) = true ->
  represents disc 2048 extent size (File c).
Proof.
  intros (H0 & H1 & H2 & H3)%bool_decide_eq_true.
  constructor; [done|lia|rewrite disc_len; lia|intros _; rewrite disc_len; lia|done].
Qed.

Lemma disc_represents : represents disc 2048 18 2048 disc_tree.
Proof.
  assert (represents disc 2048 19 2048 (Dir (map rec_name (visible sub_recs)) [File bin])) as Hsub.
  { apply rep_dir; [lia|rewrite disc_len; lia|apply disc_dir; vm_compute; reflexivity| |].
    - by repeat constructor.
    - apply Forall2_cons. split; [|constructor]. apply disc_file. vm_compute. reflexivity. }
  change disc_tree with (Dir (map rec_name (visible root_recs)) [File hello; Dir (map rec_name (visible sub_recs)) [File bin]; File fake]).
  apply rep_dir; [lia|rewrite disc_len; lia|apply disc_dir; vm_compute; reflexivity| |].
  - by repeat constructor.
  - repeat (apply Forall2_cons; split).
    + apply disc_file. vm_compute. reflexivity.
    + exact Hsub.
    + apply disc_file. vm_compute. reflexivity.
    + constructor.
Qed.

Lemma disc_image : iso_image disc 16 disc_tree.
Proof.
  split.
  - apply (bool_decide_eq_true_1 (Forall byte_ok disc)). vm_compute. reflexivity.
  - rewrite disc_len. lia.
  - lia.
  - rewrite disc_len. lia.
  - vm_compute. reflexivity.
  - lia.
  - vm_compute. reflexivity.
  - exact disc_represents.
  - reflexivity.
Qed.


Definition mounted : iso9660_mount_data := mount_of_image disc 16.

(** "/fake/a.bin", a path through a file, opens: the bytes of the file are taken
    for a directory. *)
Example iso_path_through_file :
  runs_to (iso9660_open (Some mounted) [47; 102; 97; 107; 101; 47; 97; 46; 98; 105; 110] 1 tt) (fun '(_, r) =>
    match r with Ok (_, f, _) => if_extent f = 20 /\ if_size f = 5 | Err _ => False end).
Proof. vm_compute. split; reflexivity. Qed.

(** "/sub/" opens but has no status and cannot be listed. *)
Example iso_trailing_slash :
  runs_to (iso9660_open (Some mounted) [47; 115; 117; 98; 47] 1 tt) (fun '(_, r) =>
    match r with Ok (_, f, _) => if_extent f = 19 | Err _ => False end) /\
  iso9660_stat (Some mounted) [47; 115; 117; 98; 47] = Ret (Err (- ENOENT)) /\
  iso9660_readdir (Some mounted) [47; 115; 117; 98; 47] 10 = Ret (Err (- ENOENT)).
Proof. vm_compute. split_and!; reflexivity. Qed.
End Demo.
