(* ===== verification/Fat32Proofs.v ===== *)
(** * The FAT32 driver: the table and the clusters

    The disk image seen as a table [fat img i c] (entry [c] of copy [i]) and
    cluster contents [data img c], and for every low-level operation its effect
    on them, with I/O errors where the world is not reliable. *)

From S2P Require Import Prelude Bytes Vfs BlockDev Fat32 IoLogic.

(** ** The layout of a volume *)

Record geom (fs : fat32_fs) : Prop := {
  g_bps : 512 <= bytes_per_sector fs < 2 ^ 16 /\ bytes_per_sector fs mod 32 = 0;
  g_spc : 0 < sectors_per_cluster fs;
  g_bpc : bytes_per_cluster fs = bytes_per_sector fs * sectors_per_cluster fs;
  g_bpc_max : bytes_per_cluster fs < 2 ^ 32;
  g_clusters : 0 <= total_clusters fs <= FAT32_BAD - 2;
  g_res : 0 <= reserved_sectors fs;
  g_fats : 0 < num_fats fs;
  g_fat_size : 4 * (total_clusters fs + 2) <= fat_size fs * bytes_per_sector fs;
  g_data : data_start_sector fs = reserved_sectors fs + num_fats fs * fat_size fs;
  g_end : data_start_sector fs + total_clusters fs * sectors_per_cluster fs < 2 ^ 32
}.

Definition volume_bytes (fs : fat32_fs) : Z :=
  (data_start_sector fs + total_clusters fs * sectors_per_cluster fs) * bytes_per_sector fs.

Definition valid (fs : fat32_fs) (c : Z) : Prop := 2 <= c < total_clusters fs + 2.

#[global] Instance valid_dec fs c : Decision (valid fs c).
Proof. unfold valid. apply _. Defined.

Definition fat_pos (fs : fat32_fs) (i c : Z) : Z :=
  (reserved_sectors fs + i * fat_size fs) * bytes_per_sector fs + 4 * c.

Definition data_pos (fs : fat32_fs) (c : Z) : Z :=
  (data_start_sector fs + (c - 2) * sectors_per_cluster fs) * bytes_per_sector fs.

Definition entry_at (img : list Z) (p : Z) : Z := Z.land (le_value (slice img p 4)) FAT32_MASK.
Definition fat (fs : fat32_fs) (img : list Z) (i c : Z) : Z := entry_at img (fat_pos fs i c).
Definition data (fs : fat32_fs) (img : list Z) (c : Z) : list Z := slice img (data_pos fs c) (bytes_per_cluster fs).

Section Layout.
Context (fs : fat32_fs) (G : geom fs).

Lemma fat_size_pos : 0 < fat_size fs.
Proof. destruct G as [[? _] ? ? ? ? ? ? ? ? ?]. nia. Qed.

Lemma bpc_pos : 0 < bytes_per_cluster fs.
Proof. destruct G as [[? _] ? ? ? ? ? ? ? ? ?]. nia. Qed.

Lemma bpc_big : 512 <= bytes_per_cluster fs.
Proof. destruct G as [[? _] ? ? ? ? ? ? ? ? ?]. nia. Qed.

Lemma out_of_range_valid c : out_of_range fs c = negb (bool_decide (valid fs c)).
Proof.
  unfold out_of_range, valid. destruct G as [_ _ _ _ Hc _ _ _ _ _]. unfold FAT32_BAD in Hc.
  rewrite u32_id by lia. destruct (Z.ltb_spec c 2), (Z.leb_spec (total_clusters fs + 2) c);
    cbn [orb]; case_bool_decide; try done; lia.
Qed.

Lemma valid_range c : valid fs c -> out_of_range fs c = false.
Proof. intros. rewrite out_of_range_valid. by rewrite bool_decide_true. Qed.

Lemma invalid_range c : ~ valid fs c -> out_of_range fs c = true.
Proof. intros. rewrite out_of_range_valid. by rewrite bool_decide_false. Qed.

(** Entries of the table, in any copy, do not overlap. *)
Lemma fat_pos_apart i c i' c' :
  0 <= i -> 0 <= i' -> valid fs c -> valid fs c' -> (i, c) <> (i', c') ->
  fat_pos fs i c + 4 <= fat_pos fs i' c' \/ fat_pos fs i' c' + 4 <= fat_pos fs i c.
Proof.
  intros Hi Hi' Hc Hc' Hne. unfold fat_pos, valid in *. pose proof (g_fat_size _ G) as Hsz.
  destruct (Z.lt_trichotomy i i') as [Hlt|[->|Hlt]].
  - left. enough (fat_size fs * bytes_per_sector fs <= (i' - i) * (fat_size fs * bytes_per_sector fs)) by lia. nia.
  - assert (c <> c') by congruence. lia.
  - right. enough (fat_size fs * bytes_per_sector fs <= (i - i') * (fat_size fs * bytes_per_sector fs)) by lia. nia.
Qed.

Lemma fat_pos_bounds i c :
  0 <= i < num_fats fs -> valid fs c ->
  0 <= fat_pos fs i c /\ fat_pos fs i c + 4 <= data_start_sector fs * bytes_per_sector fs.
Proof.
  intros Hi Hc. unfold fat_pos, valid in *. pose proof (g_fat_size _ G) as Hsz. pose proof (g_data _ G) as Hd.
  pose proof (g_res _ G). destruct (g_bps _ G) as [[Hb _] _]. pose proof fat_size_pos.
  split; [nia|]. rewrite Hd.
  enough (fat_size fs * bytes_per_sector fs <= (num_fats fs - i) * (fat_size fs * bytes_per_sector fs)) by lia. nia.
Qed.

Lemma data_pos_bounds c :
  valid fs c ->
  data_start_sector fs * bytes_per_sector fs <= data_pos fs c /\
  data_pos fs c + bytes_per_cluster fs <= volume_bytes fs.
Proof.
  intros Hc. unfold data_pos, volume_bytes, valid in *. rewrite (g_bpc _ G).
  destruct (g_bps _ G) as [[Hb _] _]. pose proof (g_spc _ G). split; nia.
Qed.

Lemma data_start_nonneg : 0 <= data_start_sector fs * bytes_per_sector fs.
Proof.
  pose proof (g_data _ G). pose proof (g_res _ G). pose proof fat_size_pos. pose proof (g_fats _ G).
  destruct (g_bps _ G) as [[Hb _] _]. nia.
Qed.

Lemma volume_fat : data_start_sector fs * bytes_per_sector fs <= volume_bytes fs.
Proof.
  unfold volume_bytes. destruct (g_bps _ G) as [[Hb _] _]. pose proof (g_clusters _ G). pose proof (g_spc _ G). nia.
Qed.

Lemma data_pos_apart c c' :
  valid fs c -> valid fs c' -> c <> c' ->
  data_pos fs c + bytes_per_cluster fs <= data_pos fs c' \/ data_pos fs c' + bytes_per_cluster fs <= data_pos fs c.
Proof.
  intros Hc Hc' Hne. unfold data_pos, valid in *. rewrite (g_bpc _ G).
  destruct (g_bps _ G) as [[Hb _] _]. pose proof (g_spc _ G).
  destruct (Z.lt_ge_cases c c'); [left|right]; nia.
Qed.

(** The sector that holds an entry, and the offset in it. *)
Lemma fat_sector i c :
  0 <= i < num_fats fs -> valid fs c ->
  let s := reserved_sectors fs + i * fat_size fs + u32 (c * 4) / bytes_per_sector fs in
  let o := u32 (c * 4) mod bytes_per_sector fs in
  u32 (reserved_sectors fs + u32 (i * fat_size fs) + u32 (c * 4) / bytes_per_sector fs) = s /\
  s * bytes_per_sector fs + o = fat_pos fs i c /\
  0 <= s < 2 ^ 32 /\ (s + 1) * bytes_per_sector fs <= data_start_sector fs * bytes_per_sector fs /\
  0 <= o /\ o + 4 <= bytes_per_sector fs.
Proof.
  intros Hi Hc. cbv zeta. pose proof (g_clusters _ G) as Hcl. unfold FAT32_BAD, valid in *.
  rewrite (u32_id (c * 4)) by lia. destruct (g_bps _ G) as [[Hb Hb2] H32].
  set (b := bytes_per_sector fs) in *.
  pose proof (Z.div_mod (c * 4) b ltac:(lia)) as Hdm. pose proof (Z.mod_pos_bound (c * 4) b ltac:(lia)).
  pose proof (g_fat_size _ G) as Hsz. fold b in Hsz. pose proof fat_size_pos as Hf.
  assert (Hq : 0 <= c * 4 / b < fat_size fs) by (split; [apply Z.div_pos; lia|apply Z.div_lt_upper_bound; lia]).
  pose proof (g_data _ G) as Hd. pose proof (g_end _ G) as Hend. pose proof (g_res _ G) as Hres. pose proof (g_spc _ G).
  assert (Hif : 0 <= i * fat_size fs /\ i * fat_size fs + fat_size fs <= num_fats fs * fat_size fs) by nia.
  assert (0 <= total_clusters fs * sectors_per_cluster fs) by nia.
  rewrite (u32_id (i * fat_size fs)) by lia.
  assert (Ho : (c * 4) mod b + 4 <= b).
  { pose proof (Z.div_mod b 32 ltac:(lia)) as Hb32. rewrite H32 in Hb32.
    rewrite Hb32 in *. replace (32 * (b / 32) + 0) with (4 * (8 * (b / 32))) in * by lia.
    rewrite (Z.mul_comm c 4), Z.mul_mod_distr_l in * by lia.
    pose proof (Z.mod_pos_bound c (8 * (b / 32)) ltac:(lia)). lia. }
  unfold fat_pos. fold b. split_and!; [apply u32_id; lia|nia|lia|lia|nia|lia|lia].
Qed.
End Layout.

(** ** Changes of an image *)

(** A changed range in the table, seen through the table and the clusters. *)
Section Views.
Context (fs : fat32_fs) (G : geom fs).

Lemma fat_splice img i c raw i' c' :
  fat_pos fs i c + 4 <= len img ->
  0 <= i < num_fats fs -> valid fs c -> 0 <= i' < num_fats fs -> valid fs c' -> 0 <= raw < 2 ^ 32 ->
  fat fs (splice img (fat_pos fs i c) (le_bytes 4 raw)) i' c' =
    if (i' =? i) && (c' =? c) then Z.land raw FAT32_MASK else fat fs img i' c'.
Proof.
  intros Hlen Hi Hc Hi' Hc' Hraw. unfold fat, entry_at.
  destruct (fat_pos_bounds fs G i c Hi Hc), (fat_pos_bounds fs G i' c' Hi' Hc').
  assert (Hother : (i, c) <> (i', c') ->
    slice (splice img (fat_pos fs i c) (le_bytes 4 raw)) (fat_pos fs i' c') 4 = slice img (fat_pos fs i' c') 4).
  { intros Hne. apply slice_splice_ne; try size.
    destruct (fat_pos_apart fs G i c i' c'); [lia|lia|done|done|done|size|size]. }
  destruct (Z.eqb_spec i' i) as [->|Hne]; [destruct (Z.eqb_spec c' c) as [->|Hne]|]; cbn [andb].
  - by rewrite value32_splice by lia.
  - rewrite Hother; congruence.
  - rewrite Hother; congruence.
Qed.

Lemma data_splice_fat img i c raw c' :
  fat_pos fs i c + 4 <= len img -> 0 <= i < num_fats fs -> valid fs c -> valid fs c' ->
  data fs (splice img (fat_pos fs i c) (le_bytes 4 raw)) c' = data fs img c'.
Proof.
  intros Hlen Hi Hc Hc'. unfold data. pose proof (data_start_nonneg fs G).
  destruct (fat_pos_bounds fs G i c Hi Hc), (data_pos_bounds fs G c' Hc').
  apply slice_splice_ne; size.
Qed.

Lemma data_splice_data img c buf c' :
  data_pos fs c + bytes_per_cluster fs <= len img -> valid fs c -> valid fs c' ->
  len buf = bytes_per_cluster fs ->
  data fs (splice img (data_pos fs c) buf) c' = if c' =? c then buf else data fs img c'.
Proof.
  intros Hlen Hc Hc' Hbuf. unfold data. pose proof (bpc_pos fs G). pose proof (data_start_nonneg fs G).
  destruct (data_pos_bounds fs G c Hc), (data_pos_bounds fs G c' Hc').
  destruct (Z.eqb_spec c' c) as [->|Hne].
  - rewrite <- Hbuf. apply slice_splice_eq; lia.
  - apply slice_splice_ne; [lia..|]. destruct (data_pos_apart fs G c c' Hc Hc' ltac:(done)); lia.
Qed.

Lemma fat_splice_data img c buf i' c' :
  data_pos fs c + bytes_per_cluster fs <= len img -> valid fs c -> 0 <= i' < num_fats fs -> valid fs c' ->
  len buf = bytes_per_cluster fs ->
  fat fs (splice img (data_pos fs c) buf) i' c' = fat fs img i' c'.
Proof.
  intros Hlen Hc Hi' Hc' Hbuf. unfold fat, entry_at. f_equal. f_equal.
  pose proof (data_start_nonneg fs G).
  destruct (data_pos_bounds fs G c Hc), (fat_pos_bounds fs G i' c' Hi' Hc').
  apply slice_splice_ne; lia.
Qed.

(** [img'] is [img] with [v] in entry [c] of the copies [lo .. hi-1]. *)
Record fat_set (lo hi c v : Z) (img img' : list Z) : Prop := {
  fst_len : len img' = len img;
  fst_fat : forall i' c', 0 <= i' < num_fats fs -> valid fs c' ->
    fat fs img' i' c' = if (lo <=? i') && (i' <? hi) && (c' =? c) then v else fat fs img i' c';
  fst_data : forall c', valid fs c' -> data fs img' c' = data fs img c'
}.
End Views.

(** Masking twice, and the bits that are kept. *)
Lemma land_mask_range x : 0 <= Z.land x FAT32_MASK < 2 ^ 28.
Proof.
  change FAT32_MASK with (Z.ones 28). rewrite Z.land_ones by lia. apply Z.mod_pos_bound. lia.
Qed.

Lemma new_raw_ok old v :
  0 <= old < 2 ^ 32 ->
  let raw := Z.lor (Z.land old (Z.lxor 0xFFFFFFFF FAT32_MASK)) (Z.land v FAT32_MASK) in
  0 <= raw < 2 ^ 32 /\ Z.land raw FAT32_MASK = Z.land v FAT32_MASK.
Proof.
  intros Hold raw. change (Z.lxor 0xFFFFFFFF FAT32_MASK) with (Z.shiftl (Z.ones 4) 28) in raw.
  split.
  - assert (Hr : raw mod 2 ^ 32 = raw).
    { apply Z.bits_inj'. intros n Hn. unfold raw. destruct (Z.lt_ge_cases n 32) as [Hlt|Hge].
      - by rewrite Z.mod_pow2_bits_low by lia.
      - rewrite Z.mod_pow2_bits_high by lia. rewrite Z.lor_spec, !Z.land_spec, Z.shiftl_spec by lia.
        rewrite Z.ones_spec_high by lia. change FAT32_MASK with (Z.ones 28).
        rewrite Z.ones_spec_high by lia. by rewrite !andb_false_r. }
    rewrite <- Hr. apply Z.mod_pos_bound. lia.
  - unfold raw. apply Z.bits_inj'. intros n Hn. rewrite !Z.land_spec, Z.lor_spec, !Z.land_spec, Z.shiftl_spec by lia.
    change FAT32_MASK with (Z.ones 28). destruct (Z.lt_ge_cases n 28) as [Hlt|Hge].
    + rewrite (Z.testbit_neg_r _ (n - 28)) by lia. rewrite Z.ones_spec_low by lia.
      by rewrite andb_false_r, !andb_true_r.
    + rewrite (Z.ones_spec_high 28 n) by lia. by rewrite !andb_false_r.
Qed.

(** ** The operations on the table *)

Section Ops.
Context {W : Type} `{OK : FsWorldOk W}.
Context (rel : Prop) {RL : Reliable W rel}.
Context (fs : fat32_fs) (G : geom fs).

Abbreviation T := (triple (block_dev fs) (bytes_per_sector fs)).

(** In a reliable world the device holds the volume. *)
Definition fits (img : list Z) : Prop := rel -> volume_bytes fs <= len img.

Lemma bps_nonzero : (bytes_per_sector fs =? 0) = false.
Proof. destruct (g_bps _ G) as [? _]. apply Z.eqb_neq. lia. Qed.

Lemma read_fat_entry_t img c :
  fits img -> valid fs c ->
  T img (fat32_read_fat_entry fs c) (fun img' v => img' = img /\ v = fat fs img 0 c)
    (fun img' e => img' = img /\ ~ rel).
Proof.
  intros Hfit Hc. unfold fat32_read_fat_entry. rewrite (valid_range fs G c Hc).
  pose proof (g_fats _ G). destruct (fat_sector fs G 0 c ltac:(lia) Hc) as (Es & Ep & Hs & Hend & Ho & Ho4).
  rewrite Z.mul_0_l, Z.add_0_r in Es, Ep, Hs, Hend. change (u32 0) with 0 in Es. rewrite Z.add_0_r in Es.
  apply (t_bind_lift _ _ _ _ (u32 (c * 4) / bytes_per_sector fs)); [unfold udiv; by rewrite bps_nonzero|].
  apply (t_bind_lift _ _ _ _ (u32 (c * 4) mod bytes_per_sector fs)); [unfold umod; by rewrite bps_nonzero|].
  destruct (g_bps _ G) as [? _]. rewrite Es. pose proof (volume_fat fs G).
  eapply (t_with_buffer rel); [lia| |done]. intros buf Hbuf _.
  eapply (t_bind _ _ _ _ _ (fun img' b => img' = img /\ len b = bytes_per_sector fs /\
    slice b (u32 (c * 4) mod bytes_per_sector fs) 4 = slice img (fat_pos fs 0 c) 4)).
  - eapply (t_read_blocks rel); [lia|lia|lia| |].
    + intros Hr. rewrite Z.mul_1_l. split; [done|]. split; [apply len_slice; nia|].
      rewrite slice_slice by nia. by rewrite Ep.
    + intros e Hsh. split; [done|]. intros Hr. specialize (Hsh Hr). specialize (Hfit Hr). lia.
  - intros img' b (-> & Hb & Eb).
    eapply t_bind_lift; [apply get32_ok; lia|]. apply t_ok. split; [done|]. by rewrite Eb.
Qed.

Lemma invalid_fat_entry_t img c Q (E : list Z -> Z -> Prop) :
  ~ valid fs c -> E img (- EINVAL) -> T img (fat32_read_fat_entry fs c) Q E.
Proof. intros Hc HE. unfold fat32_read_fat_entry. rewrite (invalid_range fs G c Hc). by apply t_err. Qed.

Lemma fat_set_nil c v i img : fat_set fs i i c v img img.
Proof.
  constructor; [done| |done]. intros i' c' _ _.
  by destruct (Z.leb_spec i i'), (Z.ltb_spec i' i); try lia.
Qed.

Lemma write_fats_t c v n : forall i img buf,
  fits img -> valid fs c -> 0 <= i -> i + Z.of_nat n = num_fats fs -> len buf = bytes_per_sector fs ->
  T img (write_fats n fs i (u32 (c * 4) / bytes_per_sector fs) (u32 (c * 4) mod bytes_per_sector fs) v buf)
    (fun img' _ => fat_set fs i (num_fats fs) c (Z.land v FAT32_MASK) img img')
    (fun img' _ => len img' = len img /\ ~ rel).
Proof.
  induction n as [|n IH]; intros i img buf Hfit Hc Hi Hn Hbuf; cbn [write_fats].
  { apply t_ok. replace (num_fats fs) with i by lia. apply fat_set_nil. }
  destruct (fat_sector fs G i c ltac:(lia) Hc) as (Es & Ep & Hs & Hend & Ho & Ho4). rewrite Es.
  set (s := reserved_sectors fs + i * fat_size fs + u32 (c * 4) / bytes_per_sector fs) in *.
  set (o := u32 (c * 4) mod bytes_per_sector fs) in *.
  destruct (g_bps _ G) as [Hbps _]. pose proof (volume_fat fs G).
  apply t_bytes; intros Hbytes.
  eapply (t_bind _ _ _ _ _ (fun img' b => img' = img /\ (s + 1) * bytes_per_sector fs <= len img /\
    b = slice img (s * bytes_per_sector fs) (bytes_per_sector fs))).
  { eapply (t_read_blocks rel); [lia|lia|lia| |].
    - intros Hr. rewrite Z.mul_1_l. done.
    - intros e Hsh. split; [done|]. intros Hr. specialize (Hsh Hr). specialize (Hfit Hr). lia. }
  intros img0 b (-> & Hr & ->).
  assert (Hlb : len (slice img (s * bytes_per_sector fs) (bytes_per_sector fs)) = bytes_per_sector fs)
    by (apply len_slice; lia).
  eapply t_bind_lift; [apply get32_ok; lia|]. eapply t_bind_lift; [apply put32_ok; lia|].
  rewrite slice_slice, Ep by lia.
  pose proof (value32_range img (fat_pos fs i c) Hbytes ltac:(lia) ltac:(lia)) as Hold.
  destruct (new_raw_ok _ v Hold) as [Hraw Hmask]. cbv zeta in Hraw, Hmask.
  set (raw := Z.lor _ _) in *.
  eapply (t_bind _ _ _ _ _ (fun img' _ => fat_set fs i (i + 1) c (Z.land v FAT32_MASK) img img')).
  - eapply (t_write_blocks rel); [lia|lia|rewrite len_splice; size| | |].
    + apply splice_Forall; [by apply slice_Forall|apply le_bytes_ok].
    + intros _. rewrite splice_slice_splice, Ep by (try size; lia).
      constructor; [apply len_splice; size| |].
      * intros i' c' Hi' Hc'. rewrite (fat_splice fs G) by (try done; try lia). rewrite Hmask.
        by destruct (Z.leb_spec i i'), (Z.ltb_spec i' (i + 1)), (Z.eqb_spec i' i); try lia.
      * intros c' Hc'. apply (data_splice_fat fs G); try done; lia.
    + intros img' e Hl Hsh. split; [done|]. intros Hrl. specialize (Hsh Hrl). lia.
  - intros img1 _ [Hl1 Hf1 Hd1]. eapply t_mono; [apply (IH (i + 1) img1); try lia; try done|..].
    + intros Hrl. rewrite Hl1. auto.
    + rewrite len_splice; size.
    + intros img2 _ [Hl2 Hf2 Hd2]. constructor; [congruence| |intros; by rewrite Hd2, Hd1].
      intros i' c' Hi' Hc'. rewrite Hf2, Hf1 by done.
      destruct (Z.eqb_spec c' c); [|by rewrite !andb_false_r].
      by destruct (Z.leb_spec i i'), (Z.leb_spec (i + 1) i'), (Z.ltb_spec i' (i + 1)), (Z.ltb_spec i' (num_fats fs)); try lia.
    + intros img2 e [Hl2 Hr2]. split; [congruence|done].
Qed.

(** [img'] is [img] with [v] in entry [c] of every copy. *)
Definition set_entry (c v : Z) (img img' : list Z) : Prop := fat_set fs 0 (num_fats fs) c v img img'.

Lemma write_fat_entry_t img c v :
  fits img -> valid fs c ->
  T img (fat32_write_fat_entry fs c v) (fun img' _ => set_entry c (Z.land v FAT32_MASK) img img')
    (fun img' _ => len img' = len img /\ ~ rel).
Proof.
  intros Hfit Hc. unfold fat32_write_fat_entry. rewrite (valid_range fs G c Hc).
  apply (t_bind_lift _ _ _ _ (u32 (c * 4) / bytes_per_sector fs)); [unfold udiv; by rewrite bps_nonzero|].
  apply (t_bind_lift _ _ _ _ (u32 (c * 4) mod bytes_per_sector fs)); [unfold umod; by rewrite bps_nonzero|].
  destruct (g_bps _ G) as [? _]. pose proof (g_fats _ G).
  eapply (t_with_buffer rel); [lia| |done]. intros buf Hbuf _.
  apply write_fats_t; [done|done|lia|lia|done].
Qed.

Lemma invalid_write_entry_t img c v Q (E : list Z -> Z -> Prop) :
  ~ valid fs c -> E img (- EINVAL) -> T img (fat32_write_fat_entry fs c v) Q E.
Proof. intros Hc HE. unfold fat32_write_fat_entry. rewrite (invalid_range fs G c Hc). by apply t_err. Qed.

(** Entry [c] of the first copy, the one that is read. *)
Definition next_of (img : list Z) (c : Z) : Z := fat fs img 0 c.

Lemma set_entry_next c v img img' c' :
  set_entry c v img img' -> valid fs c' -> next_of img' c' = if c' =? c then v else next_of img c'.
Proof.
  intros Hs Hc'. pose proof (g_fats _ G). unfold next_of. rewrite (fst_fat _ _ _ _ _ _ _ Hs) by (try done; lia).
  by destruct (Z.ltb_spec 0 (num_fats fs)); [|lia].
Qed.

(** ** Clusters *)

Lemma spc_small : sectors_per_cluster fs < 2 ^ 32.
Proof. destruct G as [[? _] ? ? ? ? ? ? ? ? ?]. nia. Qed.

Lemma cluster_sector c :
  valid fs c -> 0 <= fat32_cluster_to_sector fs c < 2 ^ 32 /\
  fat32_cluster_to_sector fs c * bytes_per_sector fs = data_pos fs c.
Proof.
  intros Hc. unfold fat32_cluster_to_sector, data_pos, valid in *. pose proof (g_clusters _ G) as Hcl.
  pose proof (g_end _ G) as Hend. pose proof (g_spc _ G). pose proof (data_start_nonneg fs G).
  destruct (g_bps _ G) as [? _]. unfold FAT32_BAD in Hcl.
  assert (0 <= data_start_sector fs) by nia.
  assert (0 <= (c - 2) * sectors_per_cluster fs <= total_clusters fs * sectors_per_cluster fs) by nia.
  rewrite (u32_id (c - 2)) by lia. rewrite (u32_id (_ * _)) by lia. rewrite u32_id by lia. split; [lia|done].
Qed.

Lemma read_cluster_t img c buf :
  fits img -> valid fs c -> len buf = bytes_per_cluster fs ->
  T img (fat32_read_cluster fs c buf)
    (fun img' b => img' = img /\ b = data fs img c /\ len b = bytes_per_cluster fs)
    (fun img' _ => img' = img /\ ~ rel).
Proof.
  intros Hfit Hc Hbuf. unfold fat32_read_cluster. rewrite (valid_range fs G c Hc).
  destruct (cluster_sector c Hc) as [Hs Ep]. pose proof (g_spc _ G). pose proof spc_small. pose proof (g_bpc _ G) as Hbpc.
  destruct (data_pos_bounds fs G c Hc). pose proof (bpc_pos fs G). pose proof (data_start_nonneg fs G).
  eapply (t_read_blocks rel); [lia|lia|lia| |].
  - intros Hr. rewrite Ep, Z.mul_comm, <- Hbpc. split; [done|]. split; [done|]. apply len_slice; lia.
  - intros e Hsh. split; [done|]. intros Hr. specialize (Hsh Hr). specialize (Hfit Hr). lia.
Qed.

Lemma invalid_read_cluster_t img c buf Q (E : list Z -> Z -> Prop) :
  ~ valid fs c -> E img (- EINVAL) -> T img (fat32_read_cluster fs c buf) Q E.
Proof. intros Hc HE. unfold fat32_read_cluster. rewrite (invalid_range fs G c Hc). by apply t_err. Qed.

(** [img'] is [img] with [buf] in cluster [c]. *)
Record set_data (c : Z) (buf img img' : list Z) : Prop := {
  sd_len : len img' = len img;
  sd_fat : forall i' c', 0 <= i' < num_fats fs -> valid fs c' -> fat fs img' i' c' = fat fs img i' c';
  sd_data : forall c', valid fs c' -> data fs img' c' = if c' =? c then buf else data fs img c'
}.

Lemma set_data_next c buf img img' c' :
  set_data c buf img img' -> valid fs c' -> next_of img' c' = next_of img c'.
Proof. intros Hs Hc. pose proof (g_fats _ G). apply (sd_fat _ _ _ _ Hs); [lia|done]. Qed.

Lemma write_cluster_t img c buf :
  fits img -> valid fs c -> len buf = bytes_per_cluster fs -> Forall byte_ok buf ->
  T img (fat32_write_cluster fs c buf) (fun img' _ => set_data c buf img img')
    (fun img' _ => len img' = len img /\ ~ rel).
Proof.
  intros Hfit Hc Hbuf Hby. unfold fat32_write_cluster. rewrite (valid_range fs G c Hc).
  destruct (cluster_sector c Hc) as [Hs Ep]. pose proof (g_spc _ G). pose proof spc_small. pose proof (g_bpc _ G) as Hbpc.
  destruct (data_pos_bounds fs G c Hc). pose proof (bpc_pos fs G). pose proof (data_start_nonneg fs G).
  eapply (t_write_blocks rel); [lia|lia|lia|done| |].
  - intros Hr. rewrite Ep. assert (data_pos fs c + bytes_per_cluster fs <= len img) by lia. constructor.
    + apply len_splice; lia.
    + intros i' c' Hi' Hc'. by apply (fat_splice_data fs G).
    + intros c' Hc'. by apply (data_splice_data fs G).
  - intros img' e Hl Hsh. split; [done|]. intros Hr. specialize (Hsh Hr). specialize (Hfit Hr). lia.
Qed.

Lemma invalid_write_cluster_t img c buf Q (E : list Z -> Z -> Prop) :
  ~ valid fs c -> E img (- EINVAL) -> T img (fat32_write_cluster fs c buf) Q E.
Proof. intros Hc HE. unfold fat32_write_cluster. rewrite (invalid_range fs G c Hc). by apply t_err. Qed.
End Ops.
