(* ===== verification/Fat32Chain.v ===== *)
(** * The FAT32 driver: chains of clusters

    A file is a chain of clusters linked by the table.  [chain fs img c l]: the
    clusters reached from [c] are those of [l], in this order, and the last one
    has an end-of-chain mark.  What fat32_alloc_cluster, fat32_extend_chain,
    fat32_free_chain and fat32_get_cluster_chain do to the table and to chains. *)

From S2P Require Import Prelude Bytes Vfs BlockDev Fat32 IoLogic Fat32Proofs.

(** ** Chains *)

Section Chains.
Context (fs : fat32_fs) (G : geom fs).

(** From [c] along [l] to the entry [d]. *)
Fixpoint seg (img : list Z) (c : Z) (l : list Z) (d : Z) : Prop :=
  match l with
  | [] => c = d
  | x :: l' => x = c /\ valid fs x /\ seg img (next_of fs img x) l' d
  end.

Definition chain (img : list Z) (c : Z) (l : list Z) : Prop :=
  exists d, seg img c l d /\ fat32_is_eoc d = true.

Lemma seg_app img c l k d : seg img c (l ++ k) d <-> exists e, seg img c l e /\ seg img e k d.
Proof.
  revert c. induction l as [|x l IH]; intros c; simpl.
  - split; [eauto|]. by intros (e & -> & He).
  - rewrite IH. naive_solver.
Qed.

Lemma seg_frame img img' c l d :
  (forall x, x ∈ l -> valid fs x -> next_of fs img' x = next_of fs img x) -> seg img c l d -> seg img' c l d.
Proof.
  revert c. induction l as [|x l IH]; intros c Heq; simpl; [done|]. intros (-> & Hv & Hs).
  rewrite Heq by (try done; left). split_and!; [done..|]. apply IH; [|done]. intros y Hy. apply Heq. by right.
Qed.

Lemma seg_valid img c l d : seg img c l d -> Forall (valid fs) l.
Proof. revert c. induction l as [|x l IH]; intros c; simpl; [done|]. intros (-> & Hv & Hs). constructor; eauto. Qed.

Lemma valid_not_eoc c : valid fs c -> fat32_is_eoc c = false.
Proof.
  unfold valid, fat32_is_eoc, FAT32_EOC. pose proof (g_clusters _ G). unfold FAT32_BAD in *. intros. apply Z.leb_gt. lia.
Qed.

Lemma valid_not_bad c : valid fs c -> fat32_is_bad c = false.
Proof.
  unfold valid, fat32_is_bad. pose proof (g_clusters _ G). unfold FAT32_BAD in *. intros. apply Z.eqb_neq. lia.
Qed.

(** Two ways from the same cluster to an end of chain are the same. *)
Lemma seg_unique img c l l' d d' :
  fat32_is_eoc d = true -> fat32_is_eoc d' = true -> seg img c l d -> seg img c l' d' -> l = l'.
Proof.
  intros Hd Hd'. revert c l'. induction l as [|x l IH]; intros c [|y l']; simpl; [done|..].
  - intros -> (-> & Hv & _). by rewrite (valid_not_eoc _ Hv) in Hd.
  - intros (-> & Hv & _) ->. by rewrite (valid_not_eoc _ Hv) in Hd'.
  - intros (-> & _ & Hs) (-> & _ & Hs'). f_equal. eauto.
Qed.

Lemma chain_NoDup img c l : chain img c l -> NoDup l.
Proof.
  intros (d & Hs & Hd). revert c Hs. induction l as [|x l IH]; intros c Hs; [constructor|].
  pose proof Hs as (-> & Hv & Hs'). constructor; [|eauto].
  intros Hin. apply list_elem_of_split in Hin as (k1 & k2 & ->).
  apply seg_app in Hs' as (e & _ & Hs2). pose proof Hs2 as (<- & _).
  pose proof (seg_unique _ _ _ _ _ _ Hd Hd Hs Hs2) as Heq.
  apply (f_equal length) in Heq. simpl in Heq. rewrite length_app in Heq. simpl in Heq. lia.
Qed.

Lemma seg_next_nonfree img c l d :
  (2 <= d \/ fat32_is_eoc d = true) -> seg img c l d -> Forall (fun x => next_of fs img x <> FAT32_FREE) l.
Proof.
  intros Hd. revert c. induction l as [|x l IH]; intros c; simpl; [done|]. intros (-> & Hv & Hs).
  constructor; [|eauto]. destruct l as [|y l]; simpl in Hs.
  - rewrite Hs. unfold FAT32_FREE, fat32_is_eoc, FAT32_EOC in *. lia.
  - destruct Hs as (<- & Hy & _). unfold valid, FAT32_FREE in *. lia.
Qed.

(** The clusters of a chain are in use. *)
Lemma chain_nonfree img c l x : chain img c l -> x ∈ l -> next_of fs img x <> FAT32_FREE.
Proof.
  intros (d & Hs & Hd) Hx. pose proof (seg_next_nonfree img c l d (or_intror Hd) Hs) as HF.
  rewrite Forall_forall in HF. by apply HF.
Qed.

Lemma chain_valid img c l x : chain img c l -> x ∈ l -> valid fs x.
Proof. intros (d & Hs & Hd) Hx. apply seg_valid in Hs. rewrite Forall_forall in Hs. by apply Hs. Qed.

Lemma chain_frame img img' c l :
  (forall x, x ∈ l -> valid fs x -> next_of fs img' x = next_of fs img x) -> chain img c l -> chain img' c l.
Proof. intros Heq (d & Hs & Hd). exists d. split; [by eapply seg_frame|done]. Qed.

(** Inside a chain. *)
Lemma chain_split img c l x k :
  chain img c (l ++ x :: k) ->
  seg img c l x /\ valid fs x /\ chain img (next_of fs img x) k /\
  match k with [] => fat32_is_eoc (next_of fs img x) = true | y :: _ => next_of fs img x = y end.
Proof.
  intros (d & Hs & Hd). apply seg_app in Hs as (e & H1 & (-> & Hv & H2)).
  split_and!; [done|done|by exists d|]. destruct k; simpl in H2; [by subst|]. by destruct H2 as (<- & _).
Qed.

Lemma chain_cons img c x k :
  chain img c (x :: k) ->
  x = c /\ valid fs c /\ chain img (next_of fs img c) k /\
  match k with [] => fat32_is_eoc (next_of fs img c) = true | y :: _ => next_of fs img c = y end.
Proof. intros Hch. destruct (chain_split img c [] x k Hch) as (Hs & Hrest). simpl in Hs. by subst x. Qed.
End Chains.

(** ** Allocation *)

Section Alloc.
Context {W : Type} `{OK : FsWorldOk W}.
Context (rel : Prop) {RL : Reliable W rel}.
Context (fs : fat32_fs) (G : geom fs).

Abbreviation T := (triple (block_dev fs) (bytes_per_sector fs)).
Abbreviation fits := (fits rel fs).
Abbreviation next_of := (next_of fs).
Abbreviation set_entry := (set_entry fs).

(** No cluster is free. *)
Definition full (img : list Z) : Prop := forall c, valid fs c -> next_of img c <> FAT32_FREE.

Lemma alloc_loop_t n : forall img c,
  fits img -> 2 <= c -> c + Z.of_nat n = total_clusters fs + 2 ->
  (forall c', 2 <= c' < c -> next_of img c' <> FAT32_FREE) ->
  T img (alloc_loop n fs c)
    (fun img' r => valid fs r /\ next_of img r = FAT32_FREE /\
       (forall c', 2 <= c' < r -> next_of img c' <> FAT32_FREE) /\ set_entry r FAT32_EOC img img')
    (fun img' e => len img' = len img /\ (rel -> img' = img /\ e = - ENOSPC /\ full img)).
Proof.
  induction n as [|n IH]; intros img c Hfit Hc Hn Hused; cbn [alloc_loop].
  { apply t_err. split; [done|]. intros _. split_and!; [done..|]. intros c' Hv. apply Hused. unfold valid in Hv. lia. }
  assert (Hv : valid fs c) by (unfold valid; lia).
  eapply t_bind.
  { eapply t_mono; [by apply (read_fat_entry_t rel fs G)|done|]. intros i e [-> Hr]. done. }
  intros img0 v (-> & ->). cbn beta. unfold fat32_is_free. fold (next_of img c).
  destruct (Z.eqb_spec (next_of img c) FAT32_FREE) as [Hf|Hf].
  - eapply t_bind.
    + eapply t_mono; [by apply (write_fat_entry_t rel fs G)|done|]. intros i e [Hl Hr]. done.
    + intros img1 [] Hs. by apply t_ok.
  - apply IH; [done|lia|lia|]. intros c' Hc'. destruct (Z.eq_dec c' c) as [->|]; [done|]. apply Hused. lia.
Qed.

Lemma alloc_cluster_t img :
  fits img ->
  T img (fat32_alloc_cluster fs)
    (fun img' r => valid fs r /\ next_of img r = FAT32_FREE /\
       (forall c', 2 <= c' < r -> next_of img c' <> FAT32_FREE) /\ set_entry r FAT32_EOC img img')
    (fun img' e => len img' = len img /\ (rel -> img' = img /\ e = - ENOSPC /\ full img)).
Proof.
  intros Hfit. unfold fat32_alloc_cluster. pose proof (g_clusters _ G) as Hc. unfold FAT32_BAD in Hc.
  rewrite u32_id by lia. apply alloc_loop_t; [done|lia|lia|lia].
Qed.

Lemma fits_len img img' : fits img -> len img' = len img -> fits img'.
Proof. intros Hf Hl Hr. rewrite Hl. auto. Qed.

(** Extending a chain: a free cluster [r] is marked as its end and linked. *)
Lemma extend_chain_t img last :
  fits img -> valid fs last ->
  T img (fat32_extend_chain fs last)
    (fun img' r => valid fs r /\ next_of img r = FAT32_FREE /\
       exists img1, set_entry r FAT32_EOC img img1 /\ set_entry last r img1 img')
    (fun img' e => len img' = len img /\ (rel -> img' = img /\ e = - ENOSPC /\ full img)).
Proof.
  intros Hfit Hv. unfold fat32_extend_chain. eapply t_bind; [by apply alloc_cluster_t|].
  intros img1 r (Hr & Hfree & _ & Hset). cbn beta. pose proof (fst_len _ _ _ _ _ _ _ Hset) as Hl.
  assert (Hmask : Z.land r FAT32_MASK = r).
  { unfold valid in Hr. pose proof (g_clusters _ G). unfold FAT32_BAD in *.
    change FAT32_MASK with (Z.ones 28). rewrite Z.land_ones by lia. apply Z.mod_small. lia. }
  eapply (t_bind _ _ _ _ _ (fun i x => match x with
     | Ok _ => set_entry last r img1 i | Err _ => len i = len img /\ ~ rel end)).
  - apply t_attempt. eapply t_mono; [apply (write_fat_entry_t rel fs G); [by eapply fits_len|done]|..].
    + intros i a Ha. cbn beta. by rewrite Hmask in Ha.
    + intros i e [Hl' Hr']. rewrite Hl' . done.
  - intros img2 [[]|e] Hx.
    + apply t_ok. eauto.
    + destruct Hx as [Hl2 Hr2].
      eapply (t_bind _ _ _ _ _ (fun i _ => len i = len img)).
      * apply t_attempt. eapply t_mono; [apply (write_fat_entry_t rel fs G); [by eapply fits_len|done]|..].
        -- intros i a Ha. pose proof (fst_len _ _ _ _ _ _ _ Ha). lia.
        -- intros i e' [Hl3 _]. lia.
      * intros img3 _ Hl3. apply t_err. done.
Qed.

(** ** Freeing *)

(** The clusters in use. *)
Definition in_use (img : list Z) : nat :=
  length (filter (fun c => next_of img c <> FAT32_FREE) (seqZ 2 (total_clusters fs))).

Lemma in_use_bound img : (in_use img <= Z.to_nat (total_clusters fs))%nat.
Proof. unfold in_use. etrans; [apply length_filter|]. by rewrite length_seqZ. Qed.

Lemma filter_change_one (P Q : Z -> Prop) `{!forall x, Decision (P x)} `{!forall x, Decision (Q x)} (l : list Z) c :
  NoDup l -> c ∈ l -> P c -> ~ Q c -> (forall x, x ∈ l -> x <> c -> (P x <-> Q x)) ->
  length (filter P l) = S (length (filter Q l)).
Proof.
  intros Hnd Hc HP HQ Heq. apply list_elem_of_split in Hc as (l1 & l2 & ->).
  apply NoDup_app in Hnd as (_ & Hn1 & Hn2). apply NoDup_cons in Hn2 as [Hn2 _].
  assert (Hsame : forall k : list Z, (forall x, x ∈ k -> x ∈ l1 ++ c :: l2 /\ x <> c) -> filter P k = filter Q k).
  { induction k as [|x k IHk]; intros Hk; [done|].
    assert (HPQ : P x <-> Q x) by (destruct (Hk x); [left|by apply Heq]).
    rewrite !filter_cons, IHk by (intros; apply Hk; by right).
    destruct (decide (P x)), (decide (Q x)); tauto. }
  rewrite !filter_app, !filter_cons, decide_True, decide_False by done.
  rewrite (Hsame l1), (Hsame l2).
  - rewrite !length_app. simpl. lia.
  - intros x Hx. split; [set_solver|]. by intros ->.
  - intros x Hx. split; [set_solver|]. intros ->. apply (Hn1 c Hx). set_solver.
Qed.

Lemma in_use_free img img' c :
  valid fs c -> set_entry c FAT32_FREE img img' -> next_of img c <> FAT32_FREE ->
  in_use img = S (in_use img').
Proof.
  intros Hv Hset Hne. unfold in_use. apply (filter_change_one _ _ _ c).
  - apply NoDup_seqZ.
  - apply elem_of_seqZ. unfold valid in Hv. lia.
  - done.
  - rewrite (set_entry_next fs G _ _ _ _ _ Hset Hv), Z.eqb_refl. auto.
  - intros x Hx Hxc. apply elem_of_seqZ in Hx.
    rewrite (set_entry_next fs G _ _ _ _ _ Hset) by (unfold valid; lia).
    by rewrite (proj2 (Z.eqb_neq x c) Hxc).
Qed.

(** The loop ends whatever the table holds, cycles included. *)
Lemma free_loop_safe n : forall img c,
  fits img -> (in_use img < n)%nat ->
  T img (free_loop n fs c) (fun img' _ => len img' = len img) (fun img' _ => len img' = len img).
Proof.
  induction n as [|n IH]; intros img c Hfit Hn; [lia|]. cbn [free_loop].
  apply t_or; intros Hg; [|by apply t_ok].
  destruct (decide (valid fs c)) as [Hv|Hv]; cycle 1.
  { eapply t_bind; [by apply (invalid_fat_entry_t fs G img c (fun _ _ => False))|]. done. }
  eapply t_bind.
  { eapply t_mono; [by apply (read_fat_entry_t rel fs G)|done|]. by intros i e [-> _]. }
  intros img0 v (-> & ->). cbn beta.
  eapply t_bind.
  { eapply t_mono; [by apply (write_fat_entry_t rel fs G)|done|]. by intros i e [Hl _]. }
  intros img1 [] Hset. cbn beta. pose proof (fst_len _ _ _ _ _ _ _ Hset) as Hl.
  apply t_or; intros He; [by apply t_ok|].
  destruct (Z.eq_dec (next_of img c) FAT32_FREE) as [Hz|Hnz].
  - fold (next_of img c). rewrite Hz. destruct n; apply t_ok; done.
  - eapply t_mono; [apply IH|intros i a ->; done|intros i e ->; done].
    + by eapply fits_len.
    + pose proof (in_use_free img img1 c Hv Hset Hnz). lia.
Qed.

Lemma free_chain_safe img c :
  fits img -> T img (fat32_free_chain fs c) (fun img' _ => len img' = len img) (fun img' _ => len img' = len img).
Proof. intros. apply free_loop_safe; [done|]. pose proof (in_use_bound img). lia. Qed.

(** [img'] is [img] with the clusters of [l] free in every copy of the table. *)
Record freed (l img img' : list Z) : Prop := {
  fr_len : len img' = len img;
  fr_fat : forall i c, 0 <= i < num_fats fs -> valid fs c ->
    fat fs img' i c = if bool_decide (c ∈ l) then FAT32_FREE else fat fs img i c;
  fr_data : forall c, valid fs c -> data fs img' c = data fs img c
}.

Lemma freed_cons x l img img1 img2 :
  set_entry x FAT32_FREE img img1 -> freed l img1 img2 -> freed (x :: l) img img2.
Proof.
  intros [Hl1 Hf1 Hd1] [Hl2 Hf2 Hd2]. constructor; [congruence| |intros; by rewrite Hd2, Hd1].
  intros i c Hi Hc. rewrite Hf2, Hf1 by done.
  destruct (Z.leb_spec 0 i), (Z.ltb_spec i (num_fats fs)); try lia. cbn [andb].
  destruct (Z.eqb_spec c x) as [->|Hne]; repeat case_bool_decide; try done; set_solver.
Qed.

Lemma freed_last x img img' : set_entry x FAT32_FREE img img' -> freed [x] img img'.
Proof.
  intros Hs. eapply freed_cons; [exact Hs|]. constructor; [done| |done]. intros. by rewrite bool_decide_false by set_solver.
Qed.

Lemma free_loop_t n : forall img c l,
  fits img -> chain fs img c l -> l <> [] -> (length l <= n)%nat ->
  T img (free_loop n fs c) (fun img' _ => freed l img img') (fun img' e => len img' = len img /\ ~ rel).
Proof.
  induction n as [|n IH]; intros img c [|x l] Hfit Hch Hne Hlen; try done; [simpl in Hlen; lia|].
  pose proof (chain_NoDup fs G _ _ _ Hch) as Hnd. apply NoDup_cons in Hnd as [Hx _].
  destruct (chain_cons fs img c x l Hch) as (-> & Hv & Hch' & Hnext). cbn [free_loop].
  assert (Hguard : (2 <=? c) && negb (fat32_is_free c) && negb (fat32_is_bad c) = true).
  { rewrite (valid_not_bad fs G c Hv). unfold valid, fat32_is_free, FAT32_FREE in *.
    destruct (Z.leb_spec 2 c), (Z.eqb_spec c 0); try lia; done. }
  rewrite Hguard.
  eapply t_bind; [eapply t_mono; [by apply (read_fat_entry_t rel fs G)|done|by intros i e [-> ?]]|].
  intros img0 v (-> & ->). cbn beta.
  eapply t_bind; [by apply (write_fat_entry_t rel fs G)|].
  intros img1 [] Hset. cbn beta in *. pose proof (fst_len _ _ _ _ _ _ _ Hset) as Hl. fold (next_of img c).
  destruct l as [|y l].
  - rewrite Hnext. apply t_ok. by apply freed_last.
  - assert (Hy : valid fs y) by (apply (chain_valid fs img _ _ y Hch'); left).
    rewrite Hnext, (valid_not_eoc fs G y Hy).
    eapply t_mono; [apply (IH img1 y (y :: l))|..].
    + by eapply fits_len.
    + rewrite Hnext in Hch'. eapply chain_frame; [|exact Hch']. intros z Hz Hvz.
      rewrite (set_entry_next fs G _ _ _ _ _ Hset Hvz). destruct (Z.eqb_spec z c) as [->|]; [done|done].
    + done.
    + simpl in *. lia.
    + intros i [] Hfr. by eapply freed_cons.
    + intros i e [Hl2 Hr]. split; [congruence|done].
Qed.

(** A chain has no more clusters than the volume. *)
Lemma chain_length img c l : chain fs img c l -> len l <= total_clusters fs.
Proof.
  intros Hch. pose proof (g_clusters _ G) as Hc.
  assert (Hsub : l ⊆ seqZ 2 (total_clusters fs)).
  { intros x Hx. apply elem_of_seqZ. pose proof (chain_valid fs img c l x Hch Hx) as Hv. unfold valid in Hv. lia. }
  pose proof (NoDup_submseteq l (seqZ 2 (total_clusters fs)) (chain_NoDup fs G _ _ _ Hch) Hsub) as Hs.
  apply submseteq_length in Hs. size.
Qed.

Lemma free_chain_t img c l :
  fits img -> chain fs img c l -> l <> [] ->
  T img (fat32_free_chain fs c) (fun img' _ => freed l img img') (fun img' e => len img' = len img /\ ~ rel).
Proof.
  intros Hfit Hch Hne. apply free_loop_t; [done..|]. pose proof (chain_length img c l Hch).
  unfold len in *. lia.
Qed.

(** ** Listing a chain *)

Lemma chain_loop_t n : forall img c l,
  fits img -> chain fs img c l ->
  T img (chain_loop n fs c) (fun img' r => img' = img /\ r = take n l) (fun img' e => img' = img /\ ~ rel).
Proof.
  induction n as [|n IH]; intros img c l Hfit Hch; cbn [chain_loop]; [by apply t_ok|].
  destruct l as [|x l].
  { destruct Hch as (d & <- & Hd). rewrite Hd, orb_true_r. by apply t_ok. }
  destruct (chain_cons fs img c x l Hch) as (-> & Hv & Hch' & _).
  rewrite (valid_not_bad fs G c Hv), (valid_not_eoc fs G c Hv).
  destruct (Z.ltb_spec c 2) as [Hlt|_]; [unfold valid in Hv; lia|]. cbn [orb].
  eapply t_bind; [by apply (read_fat_entry_t rel fs G)|]. intros img0 v (-> & ->). cbn beta.
  eapply t_bind; [by apply IH|]. intros img1 r (-> & ->). by apply t_ok.
Qed.
End Alloc.
