(* ===== verification/Fat32Write.v ===== *)
(** * The FAT32 driver: reading a file

    The bytes of a file are those of the clusters of its chain, one after the
    other.  fat32_vfs_read walks the chain to the cluster of the position and
    copies cluster by cluster: it returns the bytes of the file. *)

From S2P Require Import Prelude Vfs Bytes BlockDev Fat32 IoLogic Fat32Proofs Fat32Chain.

(** ** More on slices *)

Section MoreSlices.
Context {A : Type}.
Implicit Types (a b : list A).

Lemma slice_nil a p : slice a p 0 = [].
Proof. done. Qed.

Lemma slice_app_l a b p n : 0 <= p -> 0 <= n -> p + n <= len a -> slice (a ++ b) p n = slice a p n.
Proof.
  intros. unfold slice. rewrite drop_app_le by size. rewrite take_app_le by size. done.
Qed.

Lemma slice_app_r a b p n : 0 <= p -> slice (a ++ b) (len a + p) n = slice b p n.
Proof.
  intros. unfold slice. rewrite drop_app_ge by size. do 2 f_equal. size.
Qed.

(** A range that starts in [a] and goes on in [b]. *)
Lemma slice_app_across a b p n :
  0 <= p <= len a -> len a - p <= n -> slice (a ++ b) p n = slice a p (len a - p) ++ slice b 0 (n - (len a - p)).
Proof.
  intros. replace n with ((len a - p) + (n - (len a - p))) at 1 by lia. rewrite slice_app_add by lia.
  rewrite slice_app_l by lia. f_equal. replace (p + (len a - p)) with (len a + 0) by lia. by apply slice_app_r.
Qed.
End MoreSlices.

(** ** The bytes of a chain *)

Section Content.
Context (fs : fat32_fs) (G : geom fs).
Abbreviation bpc := (bytes_per_cluster fs).

Definition content (img : list Z) (l : list Z) : list Z := concat (map (data fs img) l).

(** The device holds the volume. *)
Definition whole (img : list Z) : Prop := volume_bytes fs <= len img.

Lemma len_data img c : whole img -> valid fs c -> len (data fs img c) = bpc.
Proof.
  intros Hw Hv. unfold whole in Hw. destruct (data_pos_bounds fs G c Hv). pose proof (bpc_pos fs G).
  pose proof (data_start_nonneg fs G). apply len_slice; lia.
Qed.

Lemma content_app img l k : content img (l ++ k) = content img l ++ content img k.
Proof. unfold content. by rewrite map_app, concat_app. Qed.

Lemma content_cons img c l : content img (c :: l) = data fs img c ++ content img l.
Proof. done. Qed.

Lemma len_content img l : whole img -> Forall (valid fs) l -> len (content img l) = len l * bpc.
Proof.
  intros Hw. induction 1 as [|c l Hc _ IH]; [done|]. rewrite content_cons.
  pose proof (len_data img c Hw Hc). size.
Qed.

Lemma slice_content_drop img l n p m :
  whole img -> Forall (valid fs) l -> (n <= length l)%nat -> 0 <= p ->
  slice (content img (drop n l)) p m = slice (content img l) (Z.of_nat n * bpc + p) m.
Proof.
  intros Hw Hl Hn Hp. rewrite <- (take_drop n l) at 2. rewrite content_app.
  assert (Hc : len (content img (take n l)) = Z.of_nat n * bpc).
  { rewrite len_content by (try done; by apply Forall_take). f_equal. size. }
  rewrite <- Hc. by rewrite slice_app_r.
Qed.

Lemma content_frame img img' l :
  (forall c, c ∈ l -> data fs img' c = data fs img c) -> content img' l = content img l.
Proof.
  intros Heq. unfold content. f_equal. apply map_ext_in. intros c Hc. apply Heq. by apply list_elem_of_In.
Qed.
End Content.

(** ** The driver *)

Section Read.
Context {W : Type} `{OK : FsWorldOk W}.
Context (rel : Prop) {RL : Reliable W rel}.
Context (fs : fat32_fs) (G : geom fs).

Abbreviation T := (triple (block_dev fs) (bytes_per_sector fs)).
Abbreviation bpc := (bytes_per_cluster fs).
Abbreviation content := (content fs).
Abbreviation chain := (chain fs).
Abbreviation whole := (whole fs).

Lemma whole_fits img : whole img -> fits rel fs img.
Proof. by intros Hw _. Qed.
Hint Resolve whole_fits : core.

Lemma chain_Forall img c l : chain img c l -> Forall (valid fs) l.
Proof. intros (d & Hs & _). by eapply seg_valid. Qed.

Lemma seek_clusters_t n : forall img c l,
  whole img -> chain img c l -> (n < length l)%nat ->
  T img (seek_clusters n fs c) (fun img' r => img' = img /\ chain img r (drop n l)) (fun img' e => img' = img /\ ~ rel).
Proof.
  induction n as [|n IH]; intros img c [|x l] Hw Hch Hn; simpl in Hn; try lia; cbn [seek_clusters]; [by apply t_ok|].
  destruct (chain_cons fs img c x l Hch) as (-> & Hv & Hch' & _).
  rewrite (valid_not_eoc fs G c Hv), (valid_not_bad fs G c Hv). cbn [orb].
  eapply t_bind; [apply (read_fat_entry_t rel fs G); auto|]. intros img0 v (-> & ->). cbn beta.
  apply IH; [done|done|lia].
Qed.

Lemma read_loop_t n : forall img c l off want buf out,
  whole img -> chain img c l -> 0 <= off < bpc -> 0 <= want <= Z.of_nat n ->
  off + want <= len l * bpc -> len buf = bpc ->
  T img (read_loop n fs c off want buf out)
    (fun img' r => img' = img /\ r = out ++ slice (content img l) off want) (fun img' e => img' = img /\ ~ rel).
Proof.
  induction n as [|n IH]; intros img c l off want buf out Hw Hch Hoff Hwant Hmax Hbuf; cbn [read_loop].
  { destruct (Z.leb_spec want 0); [|lia]. apply t_ok. assert (want = 0) as -> by lia.
    by rewrite slice_nil, app_nil_r. }
  destruct (Z.leb_spec want 0).
  { apply t_ok. assert (want = 0) as -> by lia. by rewrite slice_nil, app_nil_r. }
  destruct l as [|x l]; [change (len ([] : list Z)) with 0 in Hmax; lia|].
  destruct (chain_cons fs img c x l Hch) as (-> & Hv & Hch' & _).
  rewrite (valid_not_eoc fs G c Hv), (valid_not_bad fs G c Hv). cbn [orb].
  eapply t_bind; [by apply (read_cluster_t rel fs G); auto|]. intros img0 b (-> & -> & Hb). cbn beta.
  pose proof (g_bpc_max _ G) as Hmaxb. rewrite u32_id by lia.
  set (amount := if want <? bpc - off then want else bpc - off).
  assert (Ham : 0 < amount <= want /\ amount <= bpc - off /\ (amount = want \/ amount = bpc - off)).
  { unfold amount. destruct (Z.ltb_spec want (bpc - off)); lia. }
  eapply t_bind_lift; [apply mem_read_slice; lia|].
  eapply t_bind; [apply (read_fat_entry_t rel fs G); auto|]. intros img1 v (-> & ->). cbn beta.
  replace (len (c :: l)) with (len l + 1) in Hmax by size.
  assert (0 <= len l * bpc) by (unfold len; nia).
  eapply t_mono; [apply (IH img _ l 0 (want - amount)); (lia || done)| |done].
  intros i r (-> & ->). split; [done|]. rewrite <- app_assoc. f_equal.
  rewrite content_cons. destruct Ham as (Ha1 & Ha2 & [Ha|Ha]).
  - rewrite Ha, Z.sub_diag, slice_nil, app_nil_r. rewrite slice_app_l by lia. done.
  - rewrite slice_app_across by lia. rewrite Hb, Ha. done.
Qed.

(** The file of a handle: its chain, and its size within the chain. *)
Record file (img : list Z) (fh : fat32_file_handle) (l : list Z) : Prop := {
  f_chain : if x_first_cluster fh =? 0 then l = [] else l <> [] /\ chain img (x_first_cluster fh) l;
  f_size : 0 <= x_file_size fh <= len l * bpc;
  f_size32 : x_file_size fh < 2 ^ 32
}.

Definition file_bytes (img : list Z) (fh : fat32_file_handle) (l : list Z) : list Z :=
  slice (content img l) 0 (x_file_size fh).

Lemma vfs_read_t img fh l pos count :
  whole img -> file img fh l -> 0 <= pos < 2 ^ 32 -> 0 < count ->
  let got := slice (file_bytes img fh l) pos (Z.min count (x_file_size fh - pos)) in
  T img (fat32_vfs_read fs (Some fh) pos count)
    (fun img' r => img' = img /\ r = (got, pos + len got)) (fun img' e => img' = img /\ ~ rel).
Proof.
  intros Hw [Hch Hsz H32] Hpos Hcount got. unfold fat32_vfs_read.
  destruct (Z.eqb_spec count 0); [lia|]. destruct (Z.ltb_spec pos 0); [lia|].
  rewrite (u32_id pos) by lia. cbn [orb].
  destruct (Z.leb_spec (x_file_size fh) pos) as [Hle|Hlt].
  { apply t_ok. split; [done|]. unfold got, slice. rewrite (Z2Nat.nonpos (Z.min _ _)) by lia. simpl.
    f_equal. unfold len. simpl. lia. }
  destruct (Z.eqb_spec (x_first_cluster fh) 0) as [Hz|Hnz].
  { rewrite Hch in Hsz. change (len ([] : list Z)) with 0 in Hsz. lia. }
  destruct Hch as [Hne Hch]. pose proof (chain_Forall _ _ _ Hch) as Hval. pose proof (bpc_pos fs G) as Hb.
  rewrite (u32_id (x_file_size fh - pos)) by lia.
  set (m := if x_file_size fh - pos <? count then x_file_size fh - pos else count).
  assert (Hm : m = Z.min count (x_file_size fh - pos)).
  { unfold m. destruct (Z.ltb_spec (x_file_size fh - pos) count); lia. }
  eapply (t_with_buffer rel); [lia| |done]. intros buf Hbuf _.
  assert (Hudiv : udiv pos bpc = Ret (pos / bpc)) by (unfold udiv; destruct (Z.eqb_spec bpc 0); [lia|done]).
  assert (Humod : umod pos bpc = Ret (pos mod bpc)) by (unfold umod; destruct (Z.eqb_spec bpc 0); [lia|done]).
  eapply t_bind_lift; [exact Hudiv|]. eapply t_bind_lift; [exact Humod|].
  pose proof (Z.div_mod pos bpc ltac:(lia)) as Hdm. pose proof (Z.mod_pos_bound pos bpc Hb) as Hmod.
  pose proof (Z.div_pos pos bpc ltac:(lia) Hb) as Hq.
  assert (Hidx : pos / bpc < len l) by (apply Z.div_lt_upper_bound; lia).
  assert (Hidx' : (Z.to_nat (pos / bpc) < length l)%nat) by (unfold len in Hidx; lia).
  eapply t_bind; [by apply (seek_clusters_t _ img _ l)|]. intros img0 c (-> & Hc). cbn beta.
  eapply t_bind.
  - apply (read_loop_t _ img c (drop (Z.to_nat (pos / bpc)) l)); try done; [lia|].
    replace (len (drop (Z.to_nat (pos / bpc)) l)) with (len l - pos / bpc) by size. lia.
  - intros img1 r (-> & ->). cbn beta. apply t_ok. split; [done|].
    rewrite (slice_content_drop fs G) by (try done; lia). rewrite Z2Nat.id by lia.
    replace (pos / bpc * bpc + pos mod bpc) with pos by lia.
    assert (Hgot : slice (content img l) pos m = got).
    { unfold got, file_bytes. rewrite slice_slice by lia. by rewrite Hm. }
    rewrite app_nil_l, Hgot. f_equal. rewrite i64_id; [done|].
    assert (0 <= len got <= m); [|lia]. unfold got, slice. rewrite <- Hm. size.
Qed.
End Read.

(** * The FAT32 driver: growing and writing a chain

    The steps of fat32_vfs_write on a reliable device: a chain is extended by
    clusters that were free, everything outside the chain stays as it is, and
    the bytes of the chain change as if a flat array was written. *)

Definition zeros (n : Z) : list Z := replicate (Z.to_nat n) 0.

Lemma len_zeros n : 0 <= n -> len (zeros n) = n.
Proof. intros. unfold zeros. size. Qed.

Lemma zeros_add n m : 0 <= n -> 0 <= m -> zeros n ++ zeros m = zeros (n + m).
Proof. intros. unfold zeros. rewrite <- replicate_add. f_equal. lia. Qed.

Lemma zeros_bytes n : Forall byte_ok (zeros n).
Proof. apply Forall_replicate. unfold byte_ok. lia. Qed.

Lemma lookup_app_Z {A} (a b : list A) i :
  0 <= i -> (a ++ b) !! Z.to_nat i = if i <? len a then a !! Z.to_nat i else b !! Z.to_nat (i - len a).
Proof.
  intros. destruct (Z.ltb_spec i (len a)).
  - rewrite lookup_app_l by size. done.
  - rewrite lookup_app_r by size. f_equal. size.
Qed.

(** Two adjacent ranges, with the buffer extended between the two writes. *)
Lemma splice_splice_app {A} (a z b1 b2 : list A) p :
  0 <= p -> p + len b1 <= len a -> p + len b1 + len b2 <= len a + len z ->
  splice (splice a p b1 ++ z) (p + len b1) b2 = splice (a ++ z) p (b1 ++ b2).
Proof.
  intros Hp H1 H2.
  assert (Happ : forall x y : list A, len (x ++ y) = len x + len y) by (intros; size).
  assert (Hnn : forall x : list A, 0 <= len x) by (intros; unfold len; lia).
  pose proof (Hnn b1). pose proof (Hnn b2).
  assert (Hl1 : len (splice a p b1) = len a) by (apply len_splice; lia).
  apply list_eq_len; [rewrite !len_splice; rewrite ?Happ; lia|].
  intros i Hi. rewrite len_splice in Hi by (rewrite ?Happ; lia).
  rewrite !splice_lookup by (rewrite ?Happ; lia). rewrite (lookup_app_Z (splice a p b1)), (lookup_app_Z a) by lia.
  rewrite splice_lookup by lia. rewrite Happ, Hl1. replace (i - p - len b1) with (i - (p + len b1)) by lia.
  destruct (Z.leb_spec (p + len b1) i), (Z.ltb_spec i (p + len b1 + len b2)), (Z.leb_spec p i),
    (Z.ltb_spec i (p + len b1)), (Z.ltb_spec i (p + (len b1 + len b2))), (Z.ltb_spec i (len a)); cbn [andb]; try lia; try done.
  all: rewrite lookup_app_Z by lia; destruct (Z.ltb_spec (i - p) (len b1)); try lia;
    rewrite ?(ltac:(lia) : i - p - len b1 = i - (p + len b1)); done.
Qed.

(** ** What stays and what changes *)

Section Frame.
Context (fs : fat32_fs) (G : geom fs).
Abbreviation bpc := (bytes_per_cluster fs).
Abbreviation next_of := (next_of fs).

(** The copies of the table agree. *)
Definition mirrored (img : list Z) : Prop :=
  forall i c, 0 <= i < num_fats fs -> valid fs c -> fat fs img i c = fat fs img 0 c.

(** From [img] to [img'] the chain [l] becomes [l'] by clusters that were free;
    outside of [l'] the table is the same and so is the data, that of the
    clusters [ds] apart. *)
Record frame (l l' ds img img' : list Z) : Prop := {
  fm_len : len img' = len img;
  fm_new : exists new, l' = l ++ new /\ Forall (fun c => valid fs c /\ next_of img c = FAT32_FREE) new;
  fm_fat : forall i c, 0 <= i < num_fats fs -> valid fs c -> c ∉ l' -> fat fs img' i c = fat fs img i c;
  fm_data : forall c, valid fs c -> c ∉ l' -> c ∉ ds -> data fs img' c = data fs img c;
  fm_mirror : mirrored img -> mirrored img'
}.

Lemma frame_next l l' ds img img' c :
  frame l l' ds img img' -> valid fs c -> c ∉ l' -> next_of img' c = next_of img c.
Proof. intros Hf Hv Hc. pose proof (g_fats _ G). by apply (fm_fat _ _ _ _ _ Hf); [lia|..]. Qed.

Lemma frame_refl l ds img : frame l l ds img img.
Proof. constructor; try done. exists []. by rewrite app_nil_r. Qed.

Lemma frame_trans l l' l'' ds img img' img'' :
  frame l l' ds img img' -> frame l' l'' ds img' img'' ->
  (forall x, x ∈ l' -> next_of img' x <> FAT32_FREE) -> frame l l'' ds img img''.
Proof.
  intros F1 F2 Hused. destruct (fm_new _ _ _ _ _ F1) as (new & E1 & H1).
  destruct (fm_new _ _ _ _ _ F2) as (new' & E2 & H2).
  assert (Hsub : forall c, c ∉ l'' -> c ∉ l') by (intros c; rewrite E2; set_solver).
  constructor.
  - by rewrite (fm_len _ _ _ _ _ F2), (fm_len _ _ _ _ _ F1).
  - exists (new ++ new'). split; [by rewrite E2, E1, (assoc_L (++))|].
    apply Forall_app_2; [done|]. eapply Forall_impl; [exact H2|]. intros c [Hv Hc]. split; [done|].
    rewrite <- (frame_next _ _ _ _ _ _ F1 Hv); [done|]. intros Hin. by apply (Hused c).
  - intros i c Hi Hv Hc. by rewrite (fm_fat _ _ _ _ _ F2), (fm_fat _ _ _ _ _ F1) by auto.
  - intros c Hv Hc Hd. by rewrite (fm_data _ _ _ _ _ F2), (fm_data _ _ _ _ _ F1) by auto.
  - intros Hm. by apply (fm_mirror _ _ _ _ _ F2), (fm_mirror _ _ _ _ _ F1).
Qed.

Lemma frame_more l l' ds ds' img img' : ds ⊆ ds' -> frame l l' ds img img' -> frame l l' ds' img img'.
Proof. intros Hs [? ? ? Hd ?]. constructor; try done. intros c Hv Hc Hc'. apply Hd; [done|done|]. set_solver. Qed.

Lemma mirrored_set_entry c v img img' : set_entry fs c v img img' -> mirrored img -> mirrored img'.
Proof.
  intros Hs Hm i c' Hi Hv. pose proof (g_fats _ G). rewrite !(fst_fat _ _ _ _ _ _ _ Hs) by (try done; lia).
  rewrite (Hm i c' Hi Hv).
  destruct (Z.leb_spec 0 i), (Z.ltb_spec i (num_fats fs)), (Z.leb_spec 0 0), (Z.ltb_spec 0 (num_fats fs)); try lia; done.
Qed.

Lemma frame_set_data c buf l ds img img' :
  c ∈ l \/ c ∈ ds -> set_data fs c buf img img' -> frame l l ds img img'.
Proof.
  intros Hc [Hl Hf Hd]. constructor; [done|exists []; by rewrite app_nil_r|auto| |].
  - intros c' Hv Hn Hn'. rewrite Hd by done. destruct (Z.eqb_spec c' c) as [->|]; [tauto|done].
  - intros Hm i c' Hi Hv. pose proof (g_fats _ G). rewrite !Hf by (try done; lia). by apply Hm.
Qed.

(** Linking the free cluster [r] behind the last cluster [x]. *)
Lemma frame_link l x r img img1 img2 :
  valid fs r -> next_of img r = FAT32_FREE -> set_entry fs r FAT32_EOC img img1 -> set_entry fs x r img1 img2 ->
  frame (l ++ [x]) (l ++ [x; r]) [] img img2.
Proof.
  intros Hv Hfree S1 S2. constructor.
  - by rewrite (fst_len _ _ _ _ _ _ _ S2), (fst_len _ _ _ _ _ _ _ S1).
  - exists [r]. split; [by rewrite <- (assoc_L (++))|]. by apply Forall_singleton.
  - intros i c Hi Hc Hn. rewrite (fst_fat _ _ _ _ _ _ _ S2), (fst_fat _ _ _ _ _ _ _ S1) by done.
    destruct (Z.eqb_spec c x) as [->|]; [set_solver|]. destruct (Z.eqb_spec c r) as [->|]; [set_solver|].
    by rewrite !andb_false_r.
  - intros c Hc _ _. by rewrite (fst_data _ _ _ _ _ _ _ S2), (fst_data _ _ _ _ _ _ _ S1).
  - eauto using mirrored_set_entry.
Qed.

Lemma chain_link img img1 img2 first l x r :
  chain fs img first (l ++ [x]) ->
  valid fs r -> next_of img r = FAT32_FREE -> set_entry fs r FAT32_EOC img img1 -> set_entry fs x r img1 img2 ->
  chain fs img2 first (l ++ [x; r]).
Proof.
  intros Hch Hv Hfree S1 S2.
  destruct (chain_split fs img first l x [] Hch) as (Hs & Hx & _ & _).
  pose proof (chain_NoDup fs G _ _ _ Hch) as Hnd. apply NoDup_app in Hnd as (_ & Hnx & _).
  assert (Hr : r ∉ l ++ [x]) by (intros Hin; by apply (chain_nonfree fs img _ _ _ Hch Hin)).
  assert (Hnext : forall c, valid fs c -> next_of img2 c =
    if c =? x then r else if c =? r then FAT32_EOC else next_of img c).
  { intros c Hc. by rewrite (set_entry_next fs G _ _ _ _ _ S2 Hc), (set_entry_next fs G _ _ _ _ _ S1 Hc). }
  exists FAT32_EOC. split; [|done]. apply seg_app. exists x. split.
  - eapply seg_frame; [|exact Hs]. intros y Hy Hvy. rewrite Hnext by done.
    destruct (Z.eqb_spec y x) as [->|]; [exfalso; apply (Hnx x Hy); left|].
    destruct (Z.eqb_spec y r) as [->|]; [set_solver|done].
  - simpl. rewrite (Hnext x Hx), Z.eqb_refl. split_and!; [done..|]. rewrite (Hnext r Hv).
    destruct (Z.eqb_spec r x) as [->|]; [set_solver|]. by rewrite Z.eqb_refl.
Qed.

(** Writing a cluster of a chain. *)
Lemma content_set_data img img' l1 c l2 buf :
  whole fs img -> Forall (valid fs) (l1 ++ c :: l2) -> NoDup (l1 ++ c :: l2) -> len buf = bpc ->
  set_data fs c buf img img' ->
  content fs img' (l1 ++ c :: l2) = splice (content fs img (l1 ++ c :: l2)) (len l1 * bpc) buf.
Proof.
  intros Hw Hval Hnd Hbuf [_ _ Hd]. apply Forall_app in Hval as [Hv1 Hv2]. inversion_clear Hv2 as [|? ? Hc Hv3].
  apply NoDup_app in Hnd as (_ & Hn1 & Hn2). apply NoDup_cons in Hn2 as [Hn2 _].
  rewrite !content_app, !content_cons. rewrite (Hd c Hc), Z.eqb_refl.
  rewrite (content_frame fs img img' l1), (content_frame fs img img' l2).
  - pose proof (len_content fs G img l1 Hw Hv1) as E1. pose proof (len_data fs G img c Hw Hc) as E2.
    pose proof (bpc_pos fs G). unfold splice. rewrite <- E1. unfold len in *.
    rewrite Nat2Z.id, take_app_length, drop_app_add.
    by rewrite drop_app_length' by lia.
  - intros y Hy. rewrite Hd by (revert y Hy; by apply Forall_forall). destruct (Z.eqb_spec y c) as [->|]; [done|done].
  - intros y Hy. rewrite Hd by (revert y Hy; by apply Forall_forall). destruct (Z.eqb_spec y c) as [->|]; [|done].
    exfalso. apply (Hn1 c Hy). left.
Qed.

(** The chain grows by zeroed clusters. *)
Record grown (first : Z) (l l' img img' : list Z) : Prop := {
  gr_frame : frame l l' [] img img';
  gr_chain : chain fs img' first l';
  gr_content : content fs img' l' = content fs img l ++ zeros ((len l' - len l) * bpc)
}.

Lemma frame_grows l l' ds img img' : frame l l' ds img img' -> 0 <= (len l' - len l) * bpc.
Proof.
  intros F. destruct (fm_new _ _ _ _ _ F) as (new & -> & _). pose proof (bpc_pos fs G).
  assert (0 <= len new) by (unfold len; lia). unfold len in *. rewrite length_app. nia.
Qed.
End Frame.

(** ** Growing a chain *)

Section Grow.
Context {W : Type} `{OK : FsWorldOk W} {RL : Reliable W True}.
Context (fs : fat32_fs) (G : geom fs).

Abbreviation T := (triple (block_dev fs) (bytes_per_sector fs)).
Abbreviation bpc := (bytes_per_cluster fs).
Abbreviation content := (content fs).
Abbreviation chain := (chain fs).
Abbreviation whole := (whole fs).
Abbreviation frame := (frame fs).
Abbreviation grown := (grown fs).
Hint Resolve whole_fits : core.

Lemma whole_len img img' : len img' = len img -> whole img -> whole img'.
Proof. unfold Fat32Write.whole. lia. Qed.

Lemma grown_whole first l l' img img' : grown first l l' img img' -> whole img -> whole img'.
Proof. intros Hg. apply whole_len, (fm_len _ _ _ _ _ _ (gr_frame _ _ _ _ _ _ Hg)). Qed.

Lemma grown_refl first l img : chain img first l -> grown first l l img img.
Proof.
  intros Hch. constructor; [apply frame_refl|done|]. rewrite Z.sub_diag, Z.mul_0_l. by rewrite app_nil_r.
Qed.

Lemma grown_trans first l l' l'' img img' img'' :
  grown first l l' img img' -> grown first l' l'' img' img'' -> grown first l l'' img img''.
Proof.
  intros [F1 C1 E1] [F2 C2 E2]. constructor.
  - eapply (frame_trans fs G); [exact F1|exact F2|]. intros x Hx. by eapply (chain_nonfree fs).
  - done.
  - rewrite E2, E1, <- (assoc_L (++)). pose proof (frame_grows fs G _ _ _ _ _ F1).
    pose proof (frame_grows fs G _ _ _ _ _ F2). rewrite zeros_add by done. do 2 f_equal. lia.
Qed.

Lemma append_cluster_t img first l x :
  whole img -> chain img first (l ++ [x]) ->
  T img (append_cluster fs x)
    (fun img' '(r, buf) => grown first (l ++ [x]) (l ++ [x; r]) img img' /\ buf = zeros bpc)
    (fun img' e => img' = img /\ e = - ENOSPC /\ full fs img).
Proof.
  intros Hw Hch. destruct (chain_split fs img first l x [] Hch) as (_ & Hx & _ & _). unfold append_cluster.
  eapply t_bind.
  { eapply t_mono; [by apply (extend_chain_t True fs G); auto|done|]. intros i e [_ Hr]. by apply Hr. }
  intros img2 r (Hv & Hfree & img1 & S1 & S2). cbn beta.
  pose proof (frame_link fs G l x r img img1 img2 Hv Hfree S1 S2) as F1.
  pose proof (chain_link fs G img img1 img2 first l x r Hch Hv Hfree S1 S2) as C1.
  pose proof (bpc_pos fs G) as Hb. change (replicate (Z.to_nat bpc) 0) with (zeros bpc).
  pose proof (whole_len _ _ (fm_len _ _ _ _ _ _ F1) Hw) as Hw2.
  eapply t_bind.
  { eapply t_mono; [apply (write_cluster_t True fs G); eauto using zeros_bytes, len_zeros, Z.lt_le_incl|done|].
    intros i e [_ []]. done. }
  intros img3 [] D. apply t_ok. split; [|done]. constructor.
  - eapply (frame_trans fs G); [exact F1|eapply (frame_set_data fs G); [|exact D]|].
    + left. set_solver.
    + intros y Hy. by eapply (chain_nonfree fs).
  - eapply (chain_frame fs); [|exact C1]. intros y Hy Hvy. by apply (set_data_next fs G _ _ _ _ _ D).
  - change (l ++ [x; r]) with (l ++ [x] ++ [r]). rewrite (assoc_L (++)).
    rewrite (content_app fs _ (l ++ [x]) [r]). f_equal.
    + apply (content_frame fs). intros c Hc.
      pose proof (chain_valid fs img _ _ c Hch Hc) as Hvc.
      assert (c <> r).
      { intros ->. by apply (chain_nonfree fs img _ _ r Hch Hc). }
      rewrite (sd_data _ _ _ _ _ D) by done.
      rewrite (proj2 (Z.eqb_neq c r)) by done.
      by rewrite (fst_data _ _ _ _ _ _ _ S2), (fst_data _ _ _ _ _ _ _ S1) by done.
    + unfold Fat32Write.content. simpl. rewrite app_nil_r.
      rewrite (sd_data _ _ _ _ _ D) by done. rewrite Z.eqb_refl. f_equal. size.
Qed.

(** The volume ran out of clusters on the way: the chain has grown a little. *)
Definition grown_full (first : Z) (l img img' : list Z) (e : Z) : Prop :=
  exists l', grown first l l' img img' /\ e = - ENOSPC /\ full fs img'.

Lemma grown_full_trans first l l' img img' img'' e :
  grown first l l' img img' -> grown_full first l' img' img'' e -> grown_full first l img img'' e.
Proof. intros Hg (l2 & Hg2 & He & Hf). exists l2. eauto using grown_trans. Qed.

Lemma append_clusters_t n : forall img first l x buf,
  whole img -> chain img first (l ++ [x]) -> len buf = bpc ->
  T img (append_clusters n fs x buf)
    (fun img' '(r, b) => exists l', grown first (l ++ [x]) (l' ++ [r]) img img' /\
       length l' = (length l + n)%nat /\ len b = bpc)
    (grown_full first (l ++ [x]) img).
Proof.
  induction n as [|n IH]; intros img first l x buf Hw Hch Hbuf; cbn [append_clusters].
  { apply t_ok. exists l. split_and!; [by apply grown_refl|lia|done]. }
  eapply t_bind.
  { eapply t_mono; [by apply append_cluster_t|done|]. intros i e (-> & -> & Hf). exists (l ++ [x]).
    split_and!; [by apply grown_refl|done..]. }
  intros img1 [r b] [Hg ->]. pose proof (grown_whole _ _ _ _ _ Hg Hw) as Hw1. pose proof (bpc_pos fs G).
  pose proof (gr_chain _ _ _ _ _ _ Hg) as Hch1. change [x; r] with ([x] ++ [r]) in Hg, Hch1.
  rewrite (assoc_L (++)) in Hg, Hch1.
  eapply t_mono; [apply (IH img1 first (l ++ [x]) r); [done|done|apply len_zeros; lia]|..].
  - intros i [r' b'] (l' & Hg' & Hl & Hb). exists l'. split_and!; [by eapply grown_trans|size|done].
  - intros i e. by apply grown_full_trans.
Qed.

Lemma walk_clusters_t n : forall img first l1 c l2 buf,
  whole img -> chain img first (l1 ++ c :: l2) -> len buf = bpc ->
  T img (walk_clusters n fs c buf)
    (fun img' '(r, b) => exists l1' l2', grown first (l1 ++ c :: l2) (l1' ++ r :: l2') img img' /\
       length l1' = (length l1 + n)%nat /\ len b = bpc)
    (grown_full first (l1 ++ c :: l2) img).
Proof.
  induction n as [|n IH]; intros img first l1 c l2 buf Hw Hch Hbuf; cbn [walk_clusters].
  { apply t_ok. exists l1, l2. split_and!; [by apply grown_refl|lia|done]. }
  destruct (chain_split fs img first l1 c l2 Hch) as (_ & Hc & _ & Hnext). pose proof (bpc_pos fs G).
  eapply t_bind; [eapply t_mono; [by apply (read_fat_entry_t True fs G); auto|done|intros i e [_ []]; done]|].
  intros img0 v (-> & ->). cbn beta. fold (next_of fs img c).
  destruct l2 as [|y l2].
  - rewrite Hnext. eapply t_bind.
    { eapply t_mono; [by apply append_cluster_t|done|]. intros i e (-> & -> & Hf). exists (l1 ++ [c]).
      split_and!; [by apply grown_refl|done..]. }
    intros img1 [r b] [Hg ->]. pose proof (grown_whole _ _ _ _ _ Hg Hw) as Hw1.
    pose proof (gr_chain _ _ _ _ _ _ Hg) as Hch1. change [c; r] with ([c] ++ [r]) in Hg, Hch1.
    rewrite (assoc_L (++)) in Hg, Hch1.
    eapply t_mono; [apply (IH img1 first (l1 ++ [c]) r []); [done|done|apply len_zeros; lia]|..].
    + intros i [r' b'] (l1' & l2' & Hg' & Hl & Hb). exists l1', l2'. split_and!; [by eapply grown_trans|size|done].
    + intros i e. by apply grown_full_trans.
  - assert (Hy : valid fs y) by (eapply (chain_valid fs); [exact Hch|set_solver]).
    rewrite Hnext, (valid_not_eoc fs G y Hy), (valid_not_bad fs G y Hy).
    change (c :: y :: l2) with ([c] ++ y :: l2) in *. rewrite (assoc_L (++)) in *.
    eapply t_mono; [by apply (IH img first (l1 ++ [c]) y l2)|..].
    + intros i [r' b'] (l1' & l2' & Hg' & Hl & Hb). exists l1', l2'. split_and!; [done|size|done].
    + done.
Qed.
End Grow.

Lemma splice_nil {A} (a : list A) p : splice a p [] = a.
Proof. unfold splice. rewrite Nat.add_0_r, app_nil_l. apply take_drop. Qed.

(** ** Writing along a chain *)

Section WriteLoop.
Context {W : Type} `{OK : FsWorldOk W} {RL : Reliable W True}.
Context (fs : fat32_fs) (G : geom fs).

Abbreviation T := (triple (block_dev fs) (bytes_per_sector fs)).
Abbreviation bpc := (bytes_per_cluster fs).
Abbreviation content := (content fs).
Abbreviation chain := (chain fs).
Abbreviation whole := (whole fs).
Abbreviation frame := (frame fs).
Abbreviation grown := (grown fs).
Hint Resolve whole_fits : core.

(** The chain grows from [l] to [l'], and [bs] is written at byte [p] of it. *)
Record written_to (first : Z) (l l' : list Z) (p : Z) (bs img img' : list Z) : Prop := {
  wr_frame : frame l l' [] img img';
  wr_chain : chain img' first l';
  wr_bound : 0 <= p /\ p + len bs <= len l' * bpc;
  wr_content : content img' l' = splice (content img l ++ zeros ((len l' - len l) * bpc)) p bs
}.

Lemma grown_written first l l' p img img' :
  grown first l l' img img' -> 0 <= p <= len l' * bpc -> written_to first l l' p [] img img'.
Proof.
  intros [F C E] Hp. constructor; [done|done| |by rewrite splice_nil].
  change (len ([] : list Z)) with 0. lia.
Qed.

Lemma written_trans first l l1 l2 p p' bs1 bs2 img img1 img2 :
  whole img -> Forall (valid fs) l ->
  written_to first l l1 p bs1 img img1 -> p' = p + len bs1 -> written_to first l1 l2 p' bs2 img1 img2 ->
  written_to first l l2 p (bs1 ++ bs2) img img2.
Proof.
  intros Hw Hval [F1 C1 B1 E1] -> [F2 C2 B2 E2]. constructor.
  - eapply (frame_trans fs G); [exact F1|exact F2|]. intros x Hx. by eapply (chain_nonfree fs).
  - done.
  - replace (len (bs1 ++ bs2)) with (len bs1 + len bs2) by size. lia.
  - pose proof (frame_grows fs G _ _ _ _ _ F1) as G1. pose proof (frame_grows fs G _ _ _ _ _ F2) as G2.
    pose proof (len_content fs G img l Hw Hval) as Hl.
    rewrite E2, E1. set (z1 := zeros _). set (z2 := zeros _).
    assert (Hz1 : len z1 = (len l1 - len l) * bpc) by (by apply len_zeros).
    assert (Hz2 : len z2 = (len l2 - len l1) * bpc) by (by apply len_zeros).
    assert (Ha : len (content img l ++ z1) = len l1 * bpc) by (unfold len in *; rewrite length_app; lia).
    rewrite splice_splice_app by lia. rewrite <- (assoc_L (++)). do 2 f_equal.
    unfold z1, z2. rewrite zeros_add by done. f_equal. lia.
Qed.

(** One cluster: read it, change part of it, write it back. *)
Lemma written_cluster img img' first l1 c l2 off bs :
  whole img -> chain img first (l1 ++ c :: l2) -> 0 <= off -> off + len bs <= bpc ->
  set_data fs c (splice (data fs img c) off bs) img img' ->
  written_to first (l1 ++ c :: l2) (l1 ++ c :: l2) (len l1 * bpc + off) bs img img'.
Proof.
  intros Hw Hch Hoff Hend D. set (l := l1 ++ c :: l2) in *.
  assert (Hval : Forall (valid fs) l) by (destruct Hch as (d & Hs & _); by eapply seg_valid).
  assert (Hc : valid fs c) by (eapply (chain_valid fs); [exact Hch|set_solver]).
  pose proof (len_data fs G img c Hw Hc) as Hd. pose proof (len_content fs G img l Hw Hval) as Hl.
  assert (Hll : len l = len l1 + 1 + len l2) by (unfold l; size).
  assert (0 <= len l1 * bpc /\ 0 <= len l2 * bpc) by (pose proof (bpc_pos fs G); unfold len; nia).
  assert (0 <= len bs) by (unfold len; lia).
  constructor.
  - eapply (frame_set_data fs G); [|exact D]. left. unfold l. set_solver.
  - eapply (chain_frame fs); [|exact Hch]. intros y Hy Hvy. by apply (set_data_next fs G _ _ _ _ _ D).
  - lia.
  - rewrite Z.sub_diag, Z.mul_0_l, app_nil_r. unfold l.
    assert (Hb : len (splice (data fs img c) off bs) = bpc) by (rewrite len_splice; lia).
    rewrite (content_set_data fs G img img' l1 c l2 _ Hw Hval (chain_NoDup fs G _ _ _ Hch) Hb D).
    fold l. assert (Ed : data fs img c = slice (content img l) (len l1 * bpc) bpc).
    { unfold l. rewrite content_app, content_cons, <- (len_content fs G img l1 Hw) by (by apply Forall_app in Hval as [? _]).
      replace (len (content img l1)) with (len (content img l1) + 0) at 1 by lia.
      rewrite slice_app_r, slice_app_l by lia. rewrite <- Hd. by rewrite slice_all. }
    rewrite Ed. rewrite splice_slice_splice by lia. done.
Qed.

Lemma write_loop_done n c off w (src buf : list Z) :
  len src <= w -> write_loop n fs c off w src buf = ok (WriteDone w).
Proof. intros Hw. apply Z.leb_le in Hw. destruct n; cbn [write_loop]; by rewrite Hw. Qed.

(** How the loop ends: everything is written, or the volume is full. *)
Definition loop_end (src : list Z) (w : Z) (e : write_end) (img' : list Z) : Prop :=
  (e = WriteDone w /\ w = len src) \/ (e = WriteReturn w /\ 0 < w < len src /\ full fs img').

(** A cluster that is read, changed and written back inside the loop. *)
Lemma modify_cluster_t img first l1 c l2 off w amount (src buf : list Z) (fail : Z -> io W write_end)
    (k : list Z -> io W write_end) Q E :
  whole img -> chain img first (l1 ++ c :: l2) -> 0 <= off -> 0 <= w -> 0 <= amount ->
  w + amount <= len src -> off + amount <= bpc -> Forall byte_ok src -> len buf = bpc ->
  (forall img1 buf1, whole img1 -> len buf1 = bpc ->
     written_to first (l1 ++ c :: l2) (l1 ++ c :: l2) (len l1 * bpc + off) (slice src w amount) img img1 ->
     T img1 (k buf1) Q E) ->
  T img (r ⇐ attempt (fat32_read_cluster fs c buf);
         match r with
         | Err e => fail e
         | Ok buf =>
             bs ⇐ lift (mem_read src w amount);
             buf ⇐ lift (mem_write buf off bs);
             r ⇐ attempt (fat32_write_cluster fs c buf);
             match r with Err e => fail e | Ok _ => k buf end
         end)%io Q E.
Proof.
  intros Hw Hch Hoff Hw0 Ha0 Ha1 Ha2 Hby Hbuf Hk.
  destruct (chain_split fs img first l1 c l2 Hch) as (_ & Hc & _ & _). pose proof (len_data fs G img c Hw Hc) as Hd.
  eapply t_bind_attempt; [apply (read_cluster_t True fs G); auto| |intros i e [_ []]; done].
  intros img0 b (-> & -> & Hb). cbn beta match.
  eapply t_bind_lift; [apply mem_read_slice; lia|].
  assert (Hbs : len (slice src w amount) = amount) by (apply len_slice; lia).
  eapply t_bind_lift; [apply mem_write_splice; lia|].
  set (buf1 := splice (data fs img c) off (slice src w amount)).
  assert (Hb1 : len buf1 = bpc) by (unfold buf1; rewrite len_splice; lia).
  apply t_bytes. intros Himg.
  eapply t_bind_attempt; [apply (write_cluster_t True fs G); auto| |intros i e [_ []]; done].
  { apply splice_Forall; apply slice_Forall; done. }
  intros img1 [] D. cbn beta match.
  pose proof (written_cluster img img1 first l1 c l2 off (slice src w amount) Hw Hch ltac:(lia) ltac:(lia) D) as W1.
  apply Hk; [|done..]. by apply (whole_len fs _ _ (sd_len _ _ _ _ _ D)).
Qed.

(** A cluster filled to its end, and the rest written from the next one on. *)
Lemma written_next first l1 c l2 r k l' off w a w' (src img img1 img2 img3 : list Z) :
  whole img -> chain img first (l1 ++ c :: l2) -> 0 <= w -> 0 <= a -> off + a = bpc -> w + a <= w' <= len src ->
  written_to first (l1 ++ c :: l2) (l1 ++ c :: l2) (len l1 * bpc + off) (slice src w a) img img1 ->
  grown first (l1 ++ c :: l2) ((l1 ++ [c]) ++ r :: k) img1 img2 ->
  written_to first ((l1 ++ [c]) ++ r :: k) l' (len (l1 ++ [c]) * bpc + 0) (slice src (w + a) (w' - (w + a))) img2 img3 ->
  written_to first (l1 ++ c :: l2) l' (len l1 * bpc + off) (slice src w (w' - w)) img img3.
Proof.
  intros Hw Hch Hw0 Ha0 Ha Hw' W1 Hg W3. pose proof (bpc_pos fs G) as Hbpc.
  assert (Hl : len (l1 ++ [c]) * bpc = len l1 * bpc + bpc).
  { replace (len (l1 ++ [c])) with (len l1 + 1) by size. lia. }
  assert (Hl2 : len l1 * bpc + bpc <= len ((l1 ++ [c]) ++ r :: k) * bpc).
  { rewrite <- Hl. apply Z.mul_le_mono_nonneg_r; [lia|size]. }
  assert (0 <= len l1 * bpc) by (unfold len; nia).
  replace (slice src w (w' - w)) with (slice src w a ++ ([] ++ slice src (w + a) (w' - (w + a))))
    by (rewrite app_nil_l, <- slice_app_add by lia; f_equal; lia).
  assert (Hbs : len (slice src w a) = a) by (apply len_slice; lia).
  eapply written_trans; [done| |exact W1|reflexivity|].
  { destruct Hch as (d & Hs & _); by eapply seg_valid. }
  eapply written_trans; [| |apply grown_written; [exact Hg|lia]|reflexivity|].
  - eapply (whole_len fs); [exact (fm_len _ _ _ _ _ _ (wr_frame _ _ _ _ _ _ _ W1))|done].
  - destruct (wr_chain _ _ _ _ _ _ _ W1) as (d & Hs & _); by eapply seg_valid.
  - replace (_ + _ + len []) with (len (l1 ++ [c]) * bpc + 0); [exact W3|].
    change (len ([] : list Z)) with 0. lia.
Qed.

Lemma write_loop_t n : forall img first l1 c l2 off w (src buf : list Z),
  whole img -> chain img first (l1 ++ c :: l2) -> 0 <= off < bpc -> 0 <= w <= len src ->
  Forall byte_ok src -> len src - w < Z.of_nat n -> len buf = bpc ->
  T img (write_loop n fs c off w src buf)
    (fun img' e => exists l' w', w <= w' <= len src /\ loop_end src w' e img' /\
       written_to first (l1 ++ c :: l2) l' (len l1 * bpc + off) (slice src w (w' - w)) img img')
    (fun _ _ => False).
Proof.
  induction n as [|n IH]; intros img first l1 c l2 off w src buf Hw Hch Hoff Hwr Hby Hn Hbuf; [lia|].
  cbn [write_loop]. destruct (Z.leb_spec (len src) w) as [Hle|Hlt].
  { apply t_ok. exists (l1 ++ c :: l2), w. assert (w = len src) as -> by lia. split; [lia|]. split; [by left|].
    rewrite Z.sub_diag, slice_nil. apply grown_written; [by apply (grown_refl fs)|].
    replace (len (l1 ++ c :: l2)) with (len l1 + 1 + len l2) by size. unfold len in *. nia. }
  destruct (chain_split fs img first l1 c l2 Hch) as (_ & Hc & _ & _).
  rewrite (valid_not_eoc fs G c Hc). destruct (Z.ltb_spec c 2); [unfold valid in Hc; lia|]. cbn [orb].
  pose proof (g_bpc_max _ G). rewrite u32_id by lia.
  set (a := if len src - w <? bpc - off then len src - w else bpc - off).
  assert (Ha : 0 < a /\ w + a <= len src /\ off + a <= bpc /\ (w + a < len src -> off + a = bpc)).
  { unfold a. destruct (Z.ltb_spec (len src - w) (bpc - off)); lia. }
  destruct Ha as (Ha1 & Ha2 & Ha3 & Ha4). clearbody a.
  apply (modify_cluster_t _ first l1 c l2); try done; try lia. intros img1 buf1 Hw1 Hb1 W1.
  pose proof (wr_chain _ _ _ _ _ _ _ W1) as Hch1.
  destruct (chain_split fs img1 first l1 c l2 Hch1) as (_ & _ & _ & Hnext1).
  destruct (Z.ltb_spec (w + a) (len src)) as [Hmore|Hdone]; cbn [negb]; cycle 1.
  { rewrite write_loop_done by lia. apply t_ok. exists (l1 ++ c :: l2), (w + a).
    split; [lia|]. split; [left; split; [done|lia]|]. by replace (w + a - w) with a by lia. }
  specialize (Ha4 Hmore).
  eapply t_bind_attempt; [apply (read_fat_entry_t True fs G); auto| |intros i e [_ []]; done].
  intros img2 v (-> & ->). cbn beta match. fold (next_of fs img1 c). destruct l2 as [|y l2].
  - rewrite Hnext1. eapply t_bind_attempt; [by apply (append_cluster_t fs G)| |].
    + intros img2 [r b] [Hg ->]. cbn match. pose proof (grown_whole fs _ _ _ _ _ Hg Hw1) as Hw2.
      change [c; r] with ([c] ++ [r]) in Hg. rewrite (assoc_L (++)) in Hg.
      eapply t_mono; [apply (IH img2 first (l1 ++ [c]) r []); try done; try lia| |done].
      * by apply gr_chain in Hg.
      * apply len_zeros; lia.
      * intros img3 e (l' & w' & Hww & He & W3). exists l', w'. split; [lia|]. split; [done|].
        eapply (written_next _ _ _ _ r [] _ _ _ a _ _ _ img1 img2); (exact W1 || exact Hg || exact W3 || done || lia).
    + intros i e (-> & -> & Hfull). cbn match. apply t_ok. exists (l1 ++ [c]), (w + a). split; [lia|].
      unfold partial. destruct (Z.ltb_spec 0 (w + a)); [|lia].
      split; [right; split_and!; [done|lia|lia|done]|]. by replace (w + a - w) with a by lia.
  - assert (Hy : valid fs y) by (eapply (chain_valid fs); [exact Hch|set_solver]).
    rewrite Hnext1, (valid_not_eoc fs G y Hy), (valid_not_bad fs G y Hy).
    destruct (Z.ltb_spec y 2); [unfold valid in Hy; lia|]. cbn [orb].
    assert (El : l1 ++ c :: y :: l2 = (l1 ++ [c]) ++ y :: l2) by (by rewrite <- (assoc_L (++))).
    eapply t_mono; [apply (IH img1 first (l1 ++ [c]) y l2); try done; try lia; by rewrite <- El| |done].
    intros img3 e (l' & w' & Hww & He & W3). exists l', w'. split; [lia|]. split; [done|].
    eapply (written_next _ _ _ _ y l2 _ _ _ a _ _ _ img1 img1); try (exact W1 || exact W3 || done || lia).
    rewrite <- El. by apply (grown_refl fs).
Qed.
End WriteLoop.
