(* ===== verification/Fat32File.v ===== *)
(** * The FAT32 driver: writing a file

    fat32_vfs_write on a reliable device, as an operation on the file of a
    handle: its chain, its size and its directory entry stay consistent, the
    bytes change as in a flat array, and nothing else on the volume changes. *)

From S2P Require Import Prelude Vfs Bytes BlockDev Fat32 IoLogic Fat32Proofs Fat32Chain Fat32Write.

(** ** The directory entry of a handle *)

Definition de_first (d : list Z) (b : Z) : Z := le_value (slice d (b + 26) 2) + 65536 * le_value (slice d (b + 20) 2).
Definition de_bytes (d : list Z) (b : Z) : Z := le_value (slice d (b + 28) 4).

Definition entry_base (fh : fat32_file_handle) : Z := x_dir_entry_index fh * DIR_ENTRY_SIZE.

(** The entry of the handle's file is in a cluster in use outside of the file,
    and says what the handle says. *)
Record dirent (fs : fat32_fs) (img : list Z) (fh : fat32_file_handle) (l : list Z) : Prop := {
  dr_valid : valid fs (x_dir_entry_cluster fh);
  dr_used : next_of fs img (x_dir_entry_cluster fh) <> FAT32_FREE;
  dr_apart : x_dir_entry_cluster fh ∉ l;
  dr_index : 0 <= x_dir_entry_index fh /\ entry_base fh + DIR_ENTRY_SIZE <= bytes_per_cluster fs;
  dr_first : de_first (data fs img (x_dir_entry_cluster fh)) (entry_base fh) = x_first_cluster fh;
  dr_bytes : de_bytes (data fs img (x_dir_entry_cluster fh)) (entry_base fh) = x_file_size fh
}.

(** The cluster with the entry, with a new first cluster or a new size. *)
Definition put_first (d : list Z) (b c : Z) : list Z :=
  splice (splice d (b + 20) (le_bytes 2 (u16 (Z.shiftr c 16)))) (b + 26) (le_bytes 2 (u16 (Z.land c 0xFFFF))).
Definition put_bytes (d : list Z) (b n : Z) : list Z := splice d (b + 28) (le_bytes 4 n).

Lemma value16_splice (buf : list Z) off v :
  0 <= off -> off + 2 <= len buf -> 0 <= v < 2 ^ 16 -> le_value (slice (splice buf off (le_bytes 2 v)) off 2) = v.
Proof.
  intros. pose proof (slice_splice_eq buf off (le_bytes 2 v) ltac:(done) ltac:(size)) as E.
  replace (len (le_bytes 2 v)) with 2 in E by size. rewrite E, le_value_bytes. by apply Z.mod_small.
Qed.

(** A range that touches neither half of the first cluster nor the size. *)
Definition off_fields (b p n : Z) : Prop := p + n <= b + 20 \/ (b + 22 <= p /\ p + n <= b + 26) \/ b + 32 <= p.

Section PutEntry.
Context (d : list Z) (b : Z) (Hb : 0 <= b) (Hend : b + 32 <= len d).

Lemma len_put_first c : len (put_first d b c) = len d.
Proof. unfold put_first. rewrite !len_splice; try size; rewrite len_splice; size. Qed.

Lemma len_put_bytes n : len (put_bytes d b n) = len d.
Proof. unfold put_bytes. rewrite len_splice; size. Qed.

Lemma first_put_first c : 0 <= c < 2 ^ 32 -> de_first (put_first d b c) b = c.
Proof.
  intros Hc. unfold de_first, put_first.
  assert (Hl : len (splice d (b + 20) (le_bytes 2 (u16 (Z.shiftr c 16)))) = len d) by (apply len_splice; size).
  rewrite value16_splice; [|lia|lia|apply u16_range].
  rewrite slice_splice_ne by size. rewrite value16_splice; [|lia|lia|apply u16_range].
  change 0xFFFF with (Z.ones 16). rewrite Z.land_ones, Z.shiftr_div_pow2 by lia.
  pose proof (Z.div_mod c (2 ^ 16) ltac:(lia)) as E. pose proof (Z.mod_pos_bound c (2 ^ 16) ltac:(lia)).
  change (2 ^ 16) with 65536 in *.
  assert (0 <= c / 65536 < 65536) by (split; [apply Z.div_pos; lia|apply Z.div_lt_upper_bound; lia]).
  rewrite !u16_id by lia. lia.
Qed.

Lemma bytes_put_first c : de_bytes (put_first d b c) b = de_bytes d b.
Proof.
  unfold de_bytes, put_first. rewrite slice_splice_ne; try size; [|rewrite len_splice; size].
  by rewrite slice_splice_ne by size.
Qed.

Lemma bytes_put_bytes n : 0 <= n < 2 ^ 32 -> de_bytes (put_bytes d b n) b = n.
Proof. intros. unfold de_bytes, put_bytes. apply value32_splice; lia. Qed.

Lemma first_put_bytes n : de_first (put_bytes d b n) b = de_first d b.
Proof. unfold de_first, put_bytes. by rewrite !slice_splice_ne by size. Qed.

(** The bytes outside of the fields. *)
Lemma put_first_other c p n :
  0 <= p -> off_fields b p n -> slice (put_first d b c) p n = slice d p n.
Proof.
  unfold off_fields. intros. unfold put_first. rewrite slice_splice_ne; try size; [|rewrite len_splice; size].
  by rewrite slice_splice_ne by size.
Qed.

Lemma put_bytes_other n p k :
  0 <= p -> off_fields b p k -> slice (put_bytes d b n) p k = slice d p k.
Proof. unfold off_fields. intros. unfold put_bytes. by rewrite slice_splice_ne by size. Qed.
End PutEntry.

(** ** The operations on the entry *)

Section Entry.
Context {W : Type} `{OK : FsWorldOk W} {RL : Reliable W True}.
Context (fs : fat32_fs) (G : geom fs).

Abbreviation T := (triple (block_dev fs) (bytes_per_sector fs)).
Abbreviation bpc := (bytes_per_cluster fs).
Abbreviation whole := (whole fs).
Hint Resolve whole_fits : core.

(** A cluster read into a fresh buffer. *)
Lemma with_cluster_t {A} img c (body : list Z -> io W A) Q E :
  whole img -> valid fs c -> (len (data fs img c) = bpc -> Forall byte_ok img -> T img (body (data fs img c)) Q E) ->
  T img (with_buffer bpc (- ENOMEM) (fun buf => bind (fat32_read_cluster fs c buf) body)) Q E.
Proof.
  intros Hw Hc Hk. pose proof (bpc_pos fs G). apply t_bytes. intros Hby.
  eapply (t_with_buffer True); [lia| |done]. intros buf Hbuf _.
  eapply t_bind; [eapply t_mono; [apply (read_cluster_t True fs G); auto|done|intros i e [_ []]; done]|].
  intros img0 b (-> & -> & Hb). cbn beta. by apply Hk.
Qed.

Lemma rewrite_cluster_t img c d :
  whole img -> valid fs c -> len d = bpc -> Forall byte_ok d ->
  T img (fat32_write_cluster fs c d) (fun img' _ => set_data fs c d img img') (fun _ _ => False).
Proof. intros. eapply t_mono; [apply (write_cluster_t True fs G); auto|done|intros i e [_ []]; done]. Qed.

Lemma update_dir_size_t img c i n :
  whole img -> valid fs c -> 0 <= i -> i * DIR_ENTRY_SIZE + DIR_ENTRY_SIZE <= bpc ->
  T img (fat32_update_dir_size fs c i n)
    (fun img' _ => set_data fs c (put_bytes (data fs img c) (i * DIR_ENTRY_SIZE) n) img img') (fun _ _ => False).
Proof.
  intros Hw Hc Hi Hend. unfold fat32_update_dir_size, DIR_ENTRY_SIZE in *. apply with_cluster_t; [done|done|]. intros Hd Hby.
  eapply t_bind_lift; [apply put32_ok; lia|].
  apply rewrite_cluster_t; [done|done|rewrite len_put_bytes; lia|].
  apply splice_Forall; [by apply slice_Forall|apply le_bytes_ok].
Qed.

Lemma record_first_cluster_t img fh c :
  whole img -> valid fs (x_dir_entry_cluster fh) -> 0 <= x_dir_entry_index fh ->
  entry_base fh + DIR_ENTRY_SIZE <= bpc ->
  T img (record_first_cluster fs fh c)
    (fun img' _ => set_data fs (x_dir_entry_cluster fh)
       (put_first (data fs img (x_dir_entry_cluster fh)) (entry_base fh) c) img img') (fun _ _ => False).
Proof.
  intros Hw Hc Hi Hend. unfold record_first_cluster, entry_base, DIR_ENTRY_SIZE in *. apply with_cluster_t; [done|done|]. intros Hd Hby.
  eapply t_bind_lift; [apply put16_ok; lia|].
  eapply t_bind_lift; [apply put16_ok; rewrite ?len_splice; size|].
  apply rewrite_cluster_t; [done|done|rewrite len_put_first; lia|].
  apply splice_Forall; [apply splice_Forall; [by apply slice_Forall|apply le_bytes_ok]|apply le_bytes_ok].
Qed.

(** The first cluster of an empty file. *)
Lemma first_cluster_t img :
  whole img ->
  T img (first_cluster_for_write fs)
    (fun img' '(c, buf) => grown fs c [] [c] img img' /\ buf = zeros bpc)
    (fun img' e => img' = img /\ e = - ENOSPC /\ full fs img).
Proof.
  intros Hw. unfold first_cluster_for_write. pose proof (bpc_pos fs G).
  eapply t_bind.
  { eapply t_mono; [apply (alloc_cluster_t True fs G); auto|done|]. intros i e [_ Hr]. by apply Hr. }
  intros img1 c (Hc & Hfree & _ & Hset). cbn beta. change (replicate (Z.to_nat bpc) 0) with (zeros bpc).
  eapply t_bind_attempt.
  - apply (rewrite_cluster_t img1 c (zeros bpc)); [|done|apply len_zeros; lia|apply zeros_bytes].
    by apply (whole_len fs _ _ (fst_len _ _ _ _ _ _ _ Hset)).
  - intros img2 [] D. cbn match. apply t_ok. split; [|done]. constructor.
    + constructor.
      * by rewrite (sd_len _ _ _ _ _ D), (fst_len _ _ _ _ _ _ _ Hset).
      * exists [c]. split; [done|]. by apply Forall_singleton.
      * intros i c' Hi Hc' Hn. rewrite (sd_fat _ _ _ _ _ D), (fst_fat _ _ _ _ _ _ _ Hset) by done.
        destruct (Z.eqb_spec c' c) as [->|]; [set_solver|by rewrite andb_false_r].
      * intros c' Hc' Hn _. rewrite (sd_data _ _ _ _ _ D), (fst_data _ _ _ _ _ _ _ Hset) by done.
        destruct (Z.eqb_spec c' c) as [->|]; [set_solver|done].
      * intros Hm. eapply (fm_mirror _ [c] [c] [] img1 img2); [|by eapply (mirrored_set_entry fs G)].
        eapply (frame_set_data fs G); [|exact D]. left. left.
    + exists FAT32_EOC. split; [|done]. simpl. split_and!; [done..|].
      rewrite (set_data_next fs G _ _ _ _ _ D Hc), (set_entry_next fs G _ _ _ _ _ Hset Hc). by rewrite Z.eqb_refl.
    + unfold content. simpl. rewrite app_nil_r, (sd_data _ _ _ _ _ D) by done. rewrite Z.eqb_refl. f_equal. size.
  - done.
Qed.
End Entry.

(** ** Steps of a file *)

Section Steps.
Context (fs : fat32_fs) (G : geom fs).
Abbreviation bpc := (bytes_per_cluster fs).

(** From handle [fh] and chain [l] to [fh'] and [l']: the new file and its entry
    are consistent, and nothing but the chain and the entry's fields changes. *)
Record step (fh fh' : fat32_file_handle) (l l' img img' : list Z) : Prop := {
  st_file : file fs img' fh' l';
  st_dir : dirent fs img' fh' l';
  st_place : x_dir_entry_cluster fh' = x_dir_entry_cluster fh /\ x_dir_entry_index fh' = x_dir_entry_index fh;
  st_frame : frame fs l l' [x_dir_entry_cluster fh] img img';
  st_entry : forall p n, 0 <= p -> off_fields (entry_base fh) p n ->
    slice (data fs img' (x_dir_entry_cluster fh)) p n = slice (data fs img (x_dir_entry_cluster fh)) p n
}.

Lemma file_used img fh l x : file fs img fh l -> x ∈ l -> next_of fs img x <> FAT32_FREE.
Proof.
  intros [Hch _ _] Hx. destruct (Z.eqb_spec (x_first_cluster fh) 0); [subst l; set_solver|].
  destruct Hch as [_ Hch]. by eapply (chain_nonfree fs).
Qed.

Lemma step_refl fh l img : file fs img fh l -> dirent fs img fh l -> step fh fh l l img img.
Proof. intros. constructor; try done. apply frame_refl. Qed.

Lemma step_trans fh fh1 fh2 l l1 l2 img img1 img2 :
  step fh fh1 l l1 img img1 -> step fh1 fh2 l1 l2 img1 img2 -> step fh fh2 l l2 img img2.
Proof.
  intros [F1 D1 [P1 Q1] M1 E1] [F2 D2 [P2 Q2] M2 E2]. unfold entry_base in *. rewrite P1, Q1 in *. constructor; try done.
  - eapply (frame_trans fs G); [exact M1|exact M2|]. intros x Hx. by eapply file_used.
  - intros p n Hp Hpn. by rewrite E2, E1.
Qed.

(** The chain changes, outside of the directory. *)
Lemma step_chain fh l l' img img' :
  file fs img fh l -> dirent fs img fh l -> l <> [] ->
  frame fs l l' [] img img' -> chain fs img' (x_first_cluster fh) l' -> step fh fh l l' img img'.
Proof.
  intros [Hch Hsz H32] [Hv Hu Ha Hi Hf Hb] Hne M Hch'.
  destruct (fm_new _ _ _ _ _ _ M) as (new & El & Hnew).
  assert (Hout : x_dir_entry_cluster fh ∉ l').
  { rewrite El. intros [Hin|Hin]%elem_of_app; [done|]. rewrite Forall_forall in Hnew. by destruct (Hnew _ Hin). }
  assert (Hd : data fs img' (x_dir_entry_cluster fh) = data fs img (x_dir_entry_cluster fh))
    by (apply (fm_data _ _ _ _ _ _ M); [done|done|set_solver]).
  destruct (Z.eqb_spec (x_first_cluster fh) 0) as [Hz|Hz]; [done|].
  constructor; [..|by rewrite Hd].
  - constructor; [|pose proof (frame_grows fs G _ _ _ _ _ M); lia|done].
    rewrite (proj2 (Z.eqb_neq _ _) Hz). split; [|done]. subst l'. by destruct l.
  - constructor; [done| |done|done|by rewrite Hd|by rewrite Hd].
    by rewrite (frame_next fs G _ _ _ _ _ _ M).
  - done.
  - eapply frame_more; [exact G| |exact M]. set_solver.
Qed.

Lemma dirent_set fh fh' l img img' d :
  dirent fs img fh l -> x_dir_entry_cluster fh' = x_dir_entry_cluster fh ->
  x_dir_entry_index fh' = x_dir_entry_index fh -> set_data fs (x_dir_entry_cluster fh) d img img' ->
  de_first d (entry_base fh) = x_first_cluster fh' -> de_bytes d (entry_base fh) = x_file_size fh' ->
  dirent fs img' fh' l.
Proof.
  intros [Hv Hu Ha Hi Hf Hb] E1 E2 D Hf' Hb'. unfold entry_base in *.
  constructor; unfold entry_base; rewrite ?E1, ?E2; try done.
  - by rewrite (set_data_next fs G _ _ _ _ _ D).
  - by rewrite (sd_data _ _ _ _ _ D), Z.eqb_refl by done.
  - by rewrite (sd_data _ _ _ _ _ D), Z.eqb_refl by done.
Qed.

Lemma chain_set_data img img' c d first l :
  set_data fs c d img img' -> chain fs img first l -> chain fs img' first l.
Proof. intros D. apply (chain_frame fs). intros y Hy Hvy. by apply (set_data_next fs G _ _ _ _ _ D). Qed.

(** A new size, within the chain. *)
Lemma step_size fh l img img' n :
  whole fs img -> file fs img fh l -> dirent fs img fh l -> 0 <= n <= len l * bpc -> n < 2 ^ 32 ->
  set_data fs (x_dir_entry_cluster fh) (put_bytes (data fs img (x_dir_entry_cluster fh)) (entry_base fh) n) img img' ->
  step fh (set_file_size fh n) l l img img'.
Proof.
  intros Hw [Hch Hsz H32] Dr Hn Hn32 D. pose proof Dr as [Hv Hu Ha [Hi Hi'] Hf Hb].
  pose proof (len_data fs G img _ Hw Hv) as Hl. unfold DIR_ENTRY_SIZE in *.
  assert (Hbase : 0 <= entry_base fh) by (unfold entry_base, DIR_ENTRY_SIZE; lia). constructor.
  - constructor; [|done|done]. simpl. destruct (Z.eqb_spec (x_first_cluster fh) 0); [done|].
    destruct Hch. split; [done|]. by eapply chain_set_data.
  - eapply dirent_set; try done; simpl.
    + rewrite first_put_bytes by lia. done.
    + rewrite bytes_put_bytes by lia. done.
  - done.
  - eapply (frame_set_data fs G); [|exact D]. right. left.
  - intros p k Hp Hpk. rewrite (sd_data _ _ _ _ _ D), Z.eqb_refl by done. by apply put_bytes_other; [lia..|].
Qed.

(** The first cluster of an empty file. *)
Lemma step_first fh img img1 img2 c :
  whole fs img -> file fs img fh [] -> dirent fs img fh [] -> grown fs c [] [c] img img1 ->
  set_data fs (x_dir_entry_cluster fh) (put_first (data fs img1 (x_dir_entry_cluster fh)) (entry_base fh) c) img1 img2 ->
  step fh (set_first_cluster fh c) [] [c] img img2 /\ content fs img2 [c] = zeros bpc.
Proof.
  intros Hw [Hch Hsz H32] Dr Hg D. pose proof Dr as [Hv Hu Ha [Hi Hi'] Hf Hb]. unfold DIR_ENTRY_SIZE in *.
  assert (Hbase : 0 <= entry_base fh) by (unfold entry_base, DIR_ENTRY_SIZE; lia).
  destruct Hg as [M C E]. destruct (fm_new _ _ _ _ _ _ M) as (new & El & Hnew). simpl in El. subst new.
  apply Forall_singleton in Hnew as [Hc Hfree].
  assert (Hne : x_dir_entry_cluster fh <> c) by (intros <-; done).
  assert (Hd : data fs img1 (x_dir_entry_cluster fh) = data fs img (x_dir_entry_cluster fh))
    by (apply (fm_data _ _ _ _ _ _ M); [done|set_solver|set_solver]).
  rewrite Hd in D. pose proof (len_data fs G img _ Hw Hv) as Hl. pose proof (bpc_pos fs G) as Hbpc.
  assert (H28 : 0 < c < 2 ^ 32) by (pose proof (g_clusters _ G); unfold valid, FAT32_BAD in *; lia).
  split.
  - constructor.
    + constructor; simpl; [|change (len [c]) with 1; change (len ([] : list Z)) with 0 in Hsz; lia|done].
      destruct (Z.eqb_spec c 0); [lia|]. split; [done|]. by eapply chain_set_data.
    + eapply (dirent_set fh _ [c] img1); [|done|done|exact D|by rewrite first_put_first by lia|by rewrite bytes_put_first by lia].
      constructor; [done| |set_solver|done|by rewrite Hd|by rewrite Hd].
      by rewrite (frame_next fs G _ _ _ _ _ _ M) by set_solver.
    + done.
    + eapply (frame_trans fs G); [eapply frame_more; [exact G| |exact M]; set_solver|eapply (frame_set_data fs G); [|exact D]; right; left|].
      intros x Hx. by eapply (chain_nonfree fs).
    + intros p k Hp Hpk. rewrite (sd_data _ _ _ _ _ D), Z.eqb_refl by done. by apply put_first_other; [lia..|].
  - rewrite (content_frame fs img1 img2 [c]).
    + rewrite E. change (content fs img []) with ([] : list Z). rewrite app_nil_l. f_equal. size.
    + intros x ->%list_elem_of_singleton. rewrite (sd_data _ _ _ _ _ D) by done.
      by rewrite (proj2 (Z.eqb_neq _ _) (not_eq_sym Hne)).
Qed.
End Steps.

(** * The FAT32 driver: fat32_vfs_write

    The composition of the steps of Fat32File.v: the cluster of the position is
    reached (the chain grows where the position is past its end), the bytes are
    written along the chain, the size in the handle and in the directory is
    brought up to date. *)

Section VfsWrite.
Context {W : Type} `{OK : FsWorldOk W} {RL : Reliable W True}.
Context (fs : fat32_fs) (G : geom fs).

Abbreviation T := (triple (block_dev fs) (bytes_per_sector fs)).
Abbreviation bpc := (bytes_per_cluster fs).
Abbreviation whole := (whole fs).
Abbreviation content := (content fs).
Hint Resolve whole_fits : core.

(** The bytes of the chain after a write of [bs] at [pos]. *)
Definition content_written (l l' : list Z) (pos : Z) (bs img img' : list Z) : Prop :=
  content img' l' = splice (content img l ++ zeros ((len l' - len l) * bpc)) pos bs /\
  (bs <> [] -> pos + len bs <= len l' * bpc).

(** [w] bytes were written: all, or as many as the volume has room for. *)
Definition write_ends (src : list Z) (w : Z) (e : write_end) (img' : list Z) : Prop :=
  (e = WriteDone w /\ w = len src) \/
  (full fs img' /\ w < len src /\ e = WriteReturn (if 0 <? w then w else - ENOSPC)).

(** The loop from the cluster that holds the position. *)
Lemma finish_t img0 img1 first l l1 r l2 pos (fh : fat32_file_handle) (src buf : list Z) :
  whole img0 -> chain fs img0 first l -> grown fs first l (l1 ++ r :: l2) img0 img1 ->
  0 <= pos -> length l1 = Z.to_nat (pos / bpc) -> len buf = bpc -> Forall byte_ok src -> 0 < len src ->
  T img1 (bind (write_loop (S (length src)) fs r (pos mod bpc) 0 src buf) (fun e => ok (fh, e)))
    (fun img' '(fh', e) => fh' = fh /\ exists l' w, 0 < w <= len src /\ loop_end fs src w e img' /\
       written_to fs first l l' pos (slice src 0 w) img0 img')
    (fun _ _ => False).
Proof.
  intros Hw Hch Hg Hpos Hl1 Hbuf Hby Hlen. pose proof (bpc_pos fs G) as Hbpc.
  pose proof (grown_whole fs _ _ _ _ _ Hg Hw) as Hw1. pose proof (gr_chain _ _ _ _ _ _ Hg) as Hch1.
  pose proof (Z.div_mod pos bpc ltac:(lia)) as Hdm. pose proof (Z.mod_pos_bound pos bpc Hbpc) as Hmod.
  pose proof (Z.div_pos pos bpc Hpos Hbpc) as Hq.
  assert (Hp : len l1 * bpc + pos mod bpc = pos) by (unfold len; rewrite Hl1, Z2Nat.id by lia; lia).
  assert (Hp2 : pos <= len (l1 ++ r :: l2) * bpc).
  { replace (len (l1 ++ r :: l2)) with (len l1 + 1 + len l2) by size. unfold len in *. nia. }
  eapply t_bind.
  { eapply (write_loop_t fs G _ img1 first l1 r l2); try done; unfold len in *; lia. }
  intros img' e (l' & w & Hww & He & Hwr). apply t_ok. split; [done|]. exists l', w.
  split; [destruct He as [[_ ->]|[_ [? _]]]; lia|]. split; [done|].
  rewrite Hp, Z.sub_0_r in Hwr. rewrite <- (app_nil_l (slice src 0 w)).
  eapply (written_trans fs G); [done| |apply grown_written; [exact Hg|lia]| |exact Hwr].
  - destruct Hch as (d & Hs & _). by eapply seg_valid.
  - change (len ([] : list Z)) with 0. lia.
Qed.

(** What fat32_vfs_write has done when it has the cluster buffer. *)
Definition clusters_post (fh : fat32_file_handle) (l : list Z) (pos : Z) (src img img' : list Z)
    (r : fat32_file_handle * write_end) : Prop :=
  exists l' w, step fs fh r.1 l l' img img' /\ x_file_size r.1 = x_file_size fh /\ 0 <= w <= len src /\
    content_written l l' pos (slice src 0 w) img img' /\ write_ends src w r.2 img'.

Lemma loop_write_ends src w e img' : 0 < w -> loop_end fs src w e img' -> write_ends src w e img'.
Proof.
  intros Hw [[-> ->]|(-> & Hw' & Hf)]; [by left|right]. split_and!; [done|lia|].
  destruct (Z.ltb_spec 0 w); [done|lia].
Qed.

Lemma grown_full_post fh l pos src img img' e l' :
  file fs img fh l -> dirent fs img fh l -> l <> [] -> 0 < len src ->
  grown fs (x_first_cluster fh) l l' img img' -> e = - ENOSPC -> full fs img' ->
  clusters_post fh l pos src img img' (fh, WriteReturn e).
Proof.
  intros Hf Hd Hne Hlen [M C E] -> Hfull. exists l', 0. split_and!; [..|].
  - by eapply (step_chain fs G).
  - done.
  - lia.
  - lia.
  - split; [|done]. by rewrite slice_nil, splice_nil.
  - right. split_and!; [done|lia|done].
Qed.

Lemma write_clusters_old_t img fh l pos (src buf : list Z) :
  whole img -> file fs img fh l -> dirent fs img fh l -> x_first_cluster fh <> 0 ->
  0 <= pos -> len buf = bpc -> Forall byte_ok src -> 0 < len src ->
  T img (write_clusters fs fh pos src buf) (clusters_post fh l pos src img) (fun _ _ => False).
Proof.
  intros Hw Hf Hd Hnz Hpos Hbuf Hby Hlen. pose proof Hf as [Hch _ _].
  rewrite (proj2 (Z.eqb_neq _ _) Hnz) in Hch. destruct Hch as [Hne Hch]. pose proof (bpc_pos fs G) as Hbpc.
  unfold write_clusters.
  apply (t_bind_lift _ _ _ _ (pos / bpc)); [unfold udiv; by rewrite (proj2 (Z.eqb_neq _ _)) by lia|].
  apply (t_bind_lift _ _ _ _ (pos mod bpc)); [unfold umod; by rewrite (proj2 (Z.eqb_neq _ _)) by lia|].
  cbv zeta. rewrite (proj2 (Z.eqb_neq _ _) Hnz). destruct l as [|c0 l0]; [done|].
  destruct (chain_cons fs img _ c0 l0 Hch) as (Hc0 & _). rewrite <- Hc0.
  eapply t_bind_attempt; [apply (walk_clusters_t fs G _ img (x_first_cluster fh) [] c0 l0); done|..].
  - intros img1 [r b] (l1 & l2 & Hg & Hl1 & Hb). cbn match.
    eapply t_mono; [by eapply (finish_t img img1 (x_first_cluster fh))| |done].
    intros img' [fh' e] [-> (l' & w & Hww & He & [M C B E])]. exists l', w. split_and!; [| |lia|lia| |].
    + by eapply (step_chain fs G).
    + done.
    + split; [done|]. intros _. by apply B.
    + apply loop_write_ends; [lia|done].
  - intros img1 e (l' & Hg & He & Hfull). cbn match. apply t_ok. by eapply grown_full_post.
Qed.

(** The empty file: its first cluster is allocated and recorded first. *)
Lemma write_clusters_new_t img fh pos (src buf : list Z) :
  whole img -> file fs img fh [] -> dirent fs img fh [] -> x_first_cluster fh = 0 ->
  0 <= pos -> len buf = bpc -> Forall byte_ok src -> 0 < len src ->
  T img (write_clusters fs fh pos src buf) (clusters_post fh [] pos src img) (fun _ _ => False).
Proof.
  intros Hw Hf Hd Hz Hpos Hbuf Hby Hlen. pose proof (bpc_pos fs G) as Hbpc. unfold write_clusters.
  apply (t_bind_lift _ _ _ _ (pos / bpc)); [unfold udiv; by rewrite (proj2 (Z.eqb_neq _ _)) by lia|].
  apply (t_bind_lift _ _ _ _ (pos mod bpc)); [unfold umod; by rewrite (proj2 (Z.eqb_neq _ _)) by lia|].
  cbv zeta. rewrite Hz, Z.eqb_refl.
  eapply t_bind_attempt; [by apply (first_cluster_t fs G)|..]; cycle 1.
  { intros img1 e (-> & -> & Hfull). cbn match. apply t_ok. exists [], 0. split_and!; [|done|lia|lia| |].
    - by apply step_refl.
    - split; [|done]. by rewrite slice_nil, splice_nil.
    - right. split_and!; [done|lia|done]. }
  intros img1 [c b] [Hg ->]. cbn match. pose proof Hd as [Hv _ _ [Hi Hi'] _ _].
  eapply t_bind_attempt; [apply (record_first_cluster_t fs G)|..]; [by eapply (grown_whole fs)|done|done|done| |done].
  intros img2 [] D. cbn beta.
  destruct (step_first fs G fh img img1 img2 c Hw Hf Hd Hg D) as [S1 E1].
  pose proof (st_file _ _ _ _ _ _ _ S1) as Hf2. pose proof (st_dir _ _ _ _ _ _ _ S1) as Hd2.
  pose proof (whole_len fs _ _ (fm_len _ _ _ _ _ _ (st_frame _ _ _ _ _ _ _ S1)) Hw) as Hw2.
  destruct (Z.eq_dec c 0) as [->|Hc0].
  { exfalso. pose proof (f_chain _ _ _ _ Hf2) as Hx. simpl in Hx. done. }
  pose proof (f_chain _ _ _ _ Hf2) as Hch2. simpl in Hch2. rewrite (proj2 (Z.eqb_neq _ _) Hc0) in Hch2.
  destruct Hch2 as [_ Hch2].
  assert (Hcomb : forall img3 r, clusters_post (set_first_cluster fh c) [c] pos src img2 img3 r ->
    clusters_post fh [] pos src img img3 r).
  { intros img3 [fh' e] (l' & w & S2 & Hsz & Hww & [Ec Bc] & He). exists l', w.
    pose proof (frame_grows fs G _ _ _ _ _ (st_frame _ _ _ _ _ _ _ S2)) as Hgr.
    split_and!; [by eapply (step_trans fs G)|done|lia|lia| |done]. split; [|done].
    rewrite Ec, E1. change (content img []) with ([] : list Z). rewrite app_nil_l.
    change (len [c]) with 1 in *. change (len ([] : list Z)) with 0. rewrite zeros_add by lia.
    do 2 f_equal. lia. }
  eapply t_bind_attempt; [apply (append_clusters_t fs G _ img2 c [] c); [done|done|apply len_zeros; lia]|..].
  - intros img3 [r b] (l1 & Hg3 & Hl1 & Hb). cbn match.
    eapply t_mono; [by eapply (finish_t img2 img3 c)| |done].
    intros img' [fh' e] [-> (l' & w & Hww & He & [M C B E])]. apply Hcomb. exists l', w.
    split_and!; [| |lia|lia| |].
    + by eapply (step_chain fs G).
    + done.
    + split; [done|]. intros _. by apply B.
    + apply loop_write_ends; [lia|done].
  - intros img3 e (l' & Hg3 & He & Hfull). cbn match. apply t_ok. apply Hcomb. by eapply grown_full_post.
Qed.

Lemma write_clusters_t img fh l pos (src buf : list Z) :
  whole img -> file fs img fh l -> dirent fs img fh l ->
  0 <= pos -> len buf = bpc -> Forall byte_ok src -> 0 < len src ->
  T img (write_clusters fs fh pos src buf) (clusters_post fh l pos src img) (fun _ _ => False).
Proof.
  intros Hw Hf. pose proof (f_chain _ _ _ _ Hf) as Hch.
  destruct (Z.eqb_spec (x_first_cluster fh) 0) as [Hz|Hnz].
  - subst l. intros. by apply write_clusters_new_t.
  - intros. by apply write_clusters_old_t.
Qed.

(** The result of a write of [src] at [pos]: everything is written, position
    and size are new; or the volume is full, and they are as before. *)
Definition write_post (fh : fat32_file_handle) (l : list Z) (pos : Z) (src img img' : list Z)
    (r : option fat32_file_handle * Z * Z) : Prop :=
  exists fh' l' v, r.1.1 = Some fh' /\ r.2 = v /\ step fs fh fh' l l' img img' /\
    ((v = len src /\ r.1.2 = pos + len src /\ x_file_size fh' = Z.max (x_file_size fh) (pos + len src) /\
      content_written l l' pos src img img') \/
     (v < len src /\ r.1.2 = pos /\ x_file_size fh' = x_file_size fh /\ full fs img' /\
      content_written l l' pos (slice src 0 v) img img')).

Lemma vfs_write_t img fh l pos (src : list Z) :
  whole img -> file fs img fh l -> dirent fs img fh l ->
  0 <= pos -> pos + len src < 2 ^ 32 -> Forall byte_ok src -> 0 < len src ->
  T img (fat32_vfs_write fs (Some fh) pos src) (write_post fh l pos src img) (fun _ _ => False).
Proof.
  intros Hw Hf Hd Hpos Hmax Hby Hlen. pose proof (bpc_pos fs G) as Hbpc. unfold fat32_vfs_write.
  destruct (Z.eqb_spec (len src) 0); [lia|]. destruct (Z.ltb_spec pos 0); [lia|]. rewrite u32_id by lia.
  eapply (t_bind_attempt _ _ _ _ _ (clusters_post fh l pos src img) (fun _ _ => False)); [| |done].
  { eapply (t_with_buffer True); [lia| |done]. intros buf Hbuf _. by apply write_clusters_t. }
  intros img1 [fh1 e] (l1 & w & S1 & Hsz & Hww & Hcw & He). cbn [fst snd] in *.
  destruct He as [[-> ->]|(Hfull & Hwl & ->)]; cbn match; cycle 1.
  { apply t_ok. exists fh1, l1, (if 0 <? w then w else - ENOSPC). split_and!; [done..|]. right.
    destruct (Z.ltb_spec 0 w); split_and!; try done.
    - unfold ENOSPC. lia.
    - by replace w with 0 in Hcw by lia. }
  rewrite i64_id by lia. rewrite u32_id by lia.
  assert (Esrc : slice src 0 (len src) = src) by apply slice_all. rewrite Esrc in Hcw.
  assert (Hnil : src <> []) by (intros ->; by change (len ([] : list Z)) with 0 in Hlen).
  destruct (Z.ltb_spec (x_file_size fh1) (pos + len src)) as [Hlt|Hge]; cycle 1.
  { apply t_ok. exists fh1, l1, (len src). split_and!; [done..|]. left. split_and!; [done|done|lia|done]. }
  pose proof (st_file _ _ _ _ _ _ _ S1) as Hf1. pose proof (st_dir _ _ _ _ _ _ _ S1) as Hd1.
  pose proof (whole_len fs _ _ (fm_len _ _ _ _ _ _ (st_frame _ _ _ _ _ _ _ S1)) Hw) as Hw1.
  pose proof Hd1 as [Hv1 _ Ha1 [Hi1 Hi1'] _ _].
  eapply t_bind_attempt; [by apply (update_dir_size_t fs G)| |done].
  intros img2 [] D. cbn beta. apply t_ok.
  assert (S2 : step fs fh1 (set_file_size fh1 (pos + len src)) l1 l1 img1 img2).
  { apply (step_size fs G); try done. split; [lia|]. by apply Hcw. }
  exists (set_file_size fh1 (pos + len src)), l1, (len src). split_and!; [done|done|by eapply (step_trans fs G)|].
  left. split_and!; [done|done|simpl; lia|]. destruct Hcw as [Ec Bc]. split; [|done]. rewrite <- Ec.
  apply (content_frame fs). intros c Hc. rewrite (sd_data _ _ _ _ _ D).
  - rewrite (proj2 (Z.eqb_neq _ _)); [done|]. intros ->. done.
  - pose proof (f_chain _ _ _ _ Hf1) as Hch. destruct (Z.eqb_spec (x_first_cluster fh1) 0); [subst l1; set_solver|].
    destruct Hch as [_ Hch]. by eapply (chain_valid fs).
Qed.

(** The bytes of the file after a write that starts within the file. *)
Lemma file_bytes_written img img' fh fh' l l' pos (src : list Z) :
  whole img -> file fs img fh l -> 0 <= pos <= x_file_size fh -> 0 < len src ->
  x_file_size fh' = Z.max (x_file_size fh) (pos + len src) ->
  0 <= (len l' - len l) * bpc -> content_written l l' pos src img img' ->
  file_bytes fs img' fh' l' = splice (file_bytes fs img fh l) pos src.
Proof.
  intros Hw [Hch Hsz _] Hpos Hlen Hsz' Hgr [Ec Bc]. unfold file_bytes. rewrite Ec, Hsz'.
  assert (Hval : Forall (valid fs) l).
  { destruct (Z.eqb_spec (x_first_cluster fh) 0); [by subst l|]. destruct Hch as [_ (d & Hs & _)]. by eapply seg_valid. }
  pose proof (len_content fs G img l Hw Hval) as Hlc.
  assert (Hnil : src <> []) by (intros ->; by change (len ([] : list Z)) with 0 in Hlen). specialize (Bc Hnil).
  set (z := zeros _). assert (Hz : len z = (len l' - len l) * bpc) by (by apply len_zeros).
  assert (Hcz : len (content img l ++ z) = len l' * bpc) by (unfold len in *; rewrite length_app; lia).
  assert (Esz : slice (content img l ++ z) 0 (x_file_size fh) = slice (content img l) 0 (x_file_size fh))
    by (apply slice_app_l; lia).
  destruct (Z.max_spec (x_file_size fh) (pos + len src)) as [[Hlt ->]|[Hge ->]].
  - rewrite <- Esz. unfold slice, splice. change (Z.to_nat 0) with 0%nat. rewrite !drop_0, take_take. rewrite (drop_ge (take _ _)) by size.
    rewrite app_nil_r, Nat.min_l by lia. rewrite (assoc_L (++)). rewrite take_app_le by size.
    apply take_ge. size.
  - rewrite slice_splice_in by lia. by rewrite Z.sub_0_r, Esz.
Qed.

(** Reading back what was written, wherever the write started. *)
Lemma file_bytes_back img img' fh fh' l l' pos (src : list Z) :
  whole img -> whole img' -> file fs img fh l -> file fs img' fh' l' -> 0 <= pos -> 0 < len src ->
  x_file_size fh' = Z.max (x_file_size fh) (pos + len src) ->
  0 <= (len l' - len l) * bpc -> content_written l l' pos src img img' ->
  slice (file_bytes fs img' fh' l') pos (len src) = src.
Proof.
  intros Hw Hw' [Hch Hsz _] _ Hpos Hlen Hsz' Hgr [Ec Bc]. unfold file_bytes. rewrite slice_slice by lia. rewrite Z.add_0_l, Ec.
  assert (Hval : Forall (valid fs) l).
  { destruct (Z.eqb_spec (x_first_cluster fh) 0); [by subst l|]. destruct Hch as [_ (d & Hs & _)]. by eapply seg_valid. }
  pose proof (len_content fs G img l Hw Hval) as Hlc.
  assert (Hnil : src <> []) by (intros ->; by change (len ([] : list Z)) with 0 in Hlen). specialize (Bc Hnil).
  apply slice_splice_eq; [lia|]. pose proof (len_zeros _ Hgr). unfold len in *. rewrite length_app. lia.
Qed.
End VfsWrite.
