(* ===== verification/Fat32Safety.v ===== *)
(** * The FAT32 driver: no operation faults

    Whatever the device holds and whichever reads, writes and allocations fail,
    every operation of the driver finishes, without an access outside of a
    buffer, a division by zero or an endless loop.  [safe fs P m]: from any
    world, [m] ends in an error code or in a value that satisfies [P]. *)

From S2P Require Import Prelude Vfs Bytes BlockDev Fat32 IoLogic Fat32Proofs Fat32Chain Fat32File.

Create HintDb fat_safe.

Section Safe.
Context {W : Type} `{OK : FsWorldOk W}.
Context (fs : fat32_fs).

Definition safe {A} (P : A -> Prop) (m : io W A) : Prop :=
  forall img, triple (block_dev fs) (bytes_per_sector fs) img m (fun _ a => P a) (fun _ _ => True).

Lemma safe_ok {A} (P : A -> Prop) a : P a -> safe P (ok a).
Proof. intros HP img. by apply t_ok. Qed.

Lemma safe_err {A} (P : A -> Prop) e : safe P (err e).
Proof. intros img. by apply t_err. Qed.

Lemma safe_bind {A B} (P : A -> Prop) (Q : B -> Prop) m k :
  safe P m -> (forall a, P a -> safe Q (k a)) -> safe Q (bind m k).
Proof. intros Hm Hk img. eapply t_bind; [apply Hm|]. intros i a Ha. by apply Hk. Qed.

Lemma safe_lift {A} (P : A -> Prop) (m : outcome A) : runs_to m P -> safe P (lift m).
Proof. intros Hm img. apply runs_to_inv in Hm as (a & -> & Ha). by eapply t_lift. Qed.

Lemma safe_attempt {A} (P : A -> Prop) m :
  safe P m -> safe (fun r => match r with Ok a => P a | Err _ => True end) (attempt m).
Proof. intros Hm img. apply t_attempt. eapply t_mono; [apply Hm|done|done]. Qed.

Lemma safe_mono {A} (P Q : A -> Prop) m : safe P m -> (forall a, P a -> Q a) -> safe Q m.
Proof. intros Hm HPQ img. eapply t_mono; [apply Hm|auto|done]. Qed.

Lemma safe_if {A} (P : A -> Prop) (b : bool) m1 m2 :
  (b = true -> safe P m1) -> (b = false -> safe P m2) -> safe P (if b then m1 else m2).
Proof. destruct b; auto. Qed.

(** A buffer of a cluster. *)
Definition buf_ok (b : list Z) : Prop := len b = bytes_per_cluster fs /\ Forall byte_ok b.

Lemma safe_with_buffer {A} (P : A -> Prop) n e body :
  0 <= n -> (forall b, len b = n -> Forall byte_ok b -> safe P (body b)) -> safe P (with_buffer n e body).
Proof.
  intros Hn Hb img. eapply (t_with_buffer False); [done| |done]. intros buf Hl Hby. by apply Hb.
Qed.

Lemma safe_with_object {A} (P : A -> Prop) n e body :
  0 <= n -> (forall p, safe P (body p)) -> safe P (with_object n e body).
Proof. intros Hn Hb img. eapply (t_with_object False); [done| |done]. intros p. by apply Hb. Qed.

Lemma safe_of_rc {A} (P : A -> Prop) (r : rc A) :
  match r with Ok a => P a | Err _ => True end -> safe P (of_rc r).
Proof. destruct r; [apply safe_ok|intros; apply safe_err]. Qed.

(** ** The table and the clusters *)

Context (G : geom fs).

Lemma safe_cluster_buffer {A} (P : A -> Prop) e body :
  (forall b, buf_ok b -> safe P (body b)) -> safe P (with_buffer (bytes_per_cluster fs) e body).
Proof. intros Hb. pose proof (bpc_pos fs G). apply safe_with_buffer; [lia|]. intros b Hl Hby. by apply Hb. Qed.

Lemma unreliable_fits img : fits False fs img.
Proof. by intros []. Qed.
Hint Resolve unreliable_fits : core.

Definition any {A : Type} (_ : A) : Prop := True.

Lemma read_fat_entry_safe c : safe any (fat32_read_fat_entry fs c).
Proof.
  intros img. destruct (decide (valid fs c)) as [Hv|Hv].
  - eapply t_mono; [by apply (read_fat_entry_t False fs G)|done|done].
  - by apply (invalid_fat_entry_t fs G).
Qed.

Lemma write_fat_entry_safe c v : safe any (fat32_write_fat_entry fs c v).
Proof.
  intros img. destruct (decide (valid fs c)) as [Hv|Hv].
  - eapply t_mono; [by apply (write_fat_entry_t False fs G)|done|done].
  - by apply (invalid_write_entry_t fs G).
Qed.

Lemma read_cluster_safe c buf : buf_ok buf -> safe buf_ok (fat32_read_cluster fs c buf).
Proof.
  intros [Hl _] img. destruct (decide (valid fs c)) as [Hv|Hv].
  - apply t_bytes. intros Hby. eapply t_mono; [by apply (read_cluster_t False fs G)| |done].
    intros i b (-> & -> & Hb). split; [done|]. by apply slice_Forall.
  - by apply (invalid_read_cluster_t fs G).
Qed.

Lemma write_cluster_safe c buf : buf_ok buf -> safe any (fat32_write_cluster fs c buf).
Proof.
  intros [Hl Hby] img. destruct (decide (valid fs c)) as [Hv|Hv].
  - eapply t_mono; [by apply (write_cluster_t False fs G)|done|done].
  - by apply (invalid_write_cluster_t fs G).
Qed.

Lemma free_chain_any c : safe any (fat32_free_chain fs c).
Proof. intros img. eapply t_mono; [by apply (free_chain_safe False fs G)|done|done]. Qed.

Lemma alloc_cluster_safe : safe any (fat32_alloc_cluster fs).
Proof. intros img. eapply t_mono; [by apply (alloc_cluster_t False fs G)|done|done]. Qed.
End Safe.

#[export] Hint Resolve safe_ok safe_err safe_of_rc : fat_safe.
#[export] Hint Resolve read_fat_entry_safe write_fat_entry_safe read_cluster_safe write_cluster_safe
  free_chain_any alloc_cluster_safe : fat_safe.

(** Follows the code: a bind whose first part is known safe, a test, a buffer. *)
Ltac safe_step :=
  match goal with
  | |- safe _ _ (ok _) => apply safe_ok
  | |- safe _ _ (err _) => apply safe_err
  | |- safe _ _ (bind (attempt _) _) =>
      eapply safe_bind; [apply safe_attempt; solve [eauto with fat_safe]|intros [?|?] ?]
  | |- safe _ _ (bind _ _) => eapply safe_bind; [solve [eauto with fat_safe]|intros ? ?; cbn beta]
  | |- safe _ _ (if _ then _ else _) => apply safe_if; intros ?
  | |- safe _ _ (with_buffer (bytes_per_cluster _) _ _) => apply safe_cluster_buffer; [done|intros ? ?; cbn beta]
  | |- safe _ _ (with_buffer _ _ _) => apply safe_with_buffer; [done|intros ? ? ?; cbn beta]
  | |- safe _ _ (with_object _ _ _) => apply safe_with_object; [done|intros ?; cbn beta]
  | |- safe _ _ _ => solve [eauto with fat_safe]
  | |- any _ => exact I
  end.

Section SafeChains.
Context {W : Type} `{OK : FsWorldOk W} (fs : fat32_fs) (G : geom fs).
Abbreviation safe := (safe (W := W) fs).
Abbreviation buf_ok := (buf_ok fs).

Lemma extend_chain_safe c : safe any (fat32_extend_chain fs c).
Proof. unfold fat32_extend_chain. repeat safe_step. Qed.

Lemma chain_loop_safe n c : safe any (chain_loop n fs c).
Proof. revert c. induction n as [|n IH]; intros c; cbn [chain_loop]; repeat safe_step. Qed.

Lemma seek_clusters_safe n c : safe any (seek_clusters n fs c).
Proof. revert c. induction n as [|n IH]; intros c; cbn [seek_clusters]; repeat safe_step. Qed.

Lemma zero_buf_ok : buf_ok (replicate (Z.to_nat (bytes_per_cluster fs)) 0).
Proof.
  pose proof (bpc_pos fs G). split; [size|]. apply Forall_replicate. unfold byte_ok. lia.
Qed.

Lemma append_cluster_safe c : safe (fun r => buf_ok r.2) (append_cluster fs c).
Proof.
  unfold append_cluster. eapply safe_bind; [by apply extend_chain_safe|]. intros r _.
  eapply safe_bind; [apply write_cluster_safe; [done|apply zero_buf_ok]|]. intros _ _. apply safe_ok, zero_buf_ok.
Qed.

Lemma append_clusters_safe n c buf : buf_ok buf -> safe (fun r => buf_ok r.2) (append_clusters n fs c buf).
Proof.
  revert c buf. induction n as [|n IH]; intros c buf Hb; cbn [append_clusters]; [by apply safe_ok|].
  eapply safe_bind; [apply append_cluster_safe|]. intros [r b] Hb'. by apply IH.
Qed.

Lemma walk_clusters_safe n c buf : buf_ok buf -> safe (fun r => buf_ok r.2) (walk_clusters n fs c buf).
Proof.
  revert c buf. induction n as [|n IH]; intros c buf Hb; cbn [walk_clusters]; [by apply safe_ok|].
  safe_step. safe_step.
  - eapply safe_bind; [apply append_cluster_safe|]. intros [r b] Hb'. by apply IH.
  - safe_step; [safe_step|]. by apply IH.
Qed.

Lemma first_cluster_safe : safe (fun r => buf_ok r.2) (first_cluster_for_write fs).
Proof.
  unfold first_cluster_for_write. pose proof zero_buf_ok as Hz. by repeat safe_step.
Qed.

(** ** Files *)

(** The index of the directory entry is within its cluster. *)
Definition handle_ok (fh : fat32_file_handle) : Prop :=
  0 <= x_dir_entry_index fh /\ entry_base fh + DIR_ENTRY_SIZE <= bytes_per_cluster fs.

Lemma put16_safe buf off v : buf_ok buf -> 0 <= off -> off + 2 <= bytes_per_cluster fs -> runs_to (put16 buf off v) buf_ok.
Proof.
  intros [Hl Hb] Ho He. rewrite put16_ok by lia. split; [rewrite len_splice; size|].
  apply splice_Forall; [done|apply le_bytes_ok].
Qed.

Lemma put32_safe buf off v : buf_ok buf -> 0 <= off -> off + 4 <= bytes_per_cluster fs -> runs_to (put32 buf off v) buf_ok.
Proof.
  intros [Hl Hb] Ho He. rewrite put32_ok by lia. split; [rewrite len_splice; size|].
  apply splice_Forall; [done|apply le_bytes_ok].
Qed.

Lemma mem_write_safe buf off (b : list Z) :
  buf_ok buf -> Forall byte_ok b -> 0 <= off -> off + len b <= bytes_per_cluster fs -> runs_to (mem_write buf off b) buf_ok.
Proof.
  intros [Hl Hb] Hby Ho He. rewrite mem_write_splice by lia. split; [rewrite len_splice; lia|]. by apply splice_Forall.
Qed.

Lemma aset_safe buf i v :
  buf_ok buf -> byte_ok v -> 0 <= i < bytes_per_cluster fs -> runs_to (aset buf i v) buf_ok.
Proof.
  intros [Hl Hb] Hv Hi. rewrite aset_in_bounds by lia. split; [unfold len in *; by rewrite length_insert|].
  by apply Forall_insert.
Qed.

Lemma update_dir_size_safe c i n :
  0 <= i -> i * DIR_ENTRY_SIZE + DIR_ENTRY_SIZE <= bytes_per_cluster fs -> safe any (fat32_update_dir_size fs c i n).
Proof.
  intros Hi He. unfold fat32_update_dir_size, DIR_ENTRY_SIZE in *. safe_step. safe_step.
  eapply safe_bind; [apply safe_lift, put32_safe; [done|lia|lia]|]. intros b1 Hb1. by safe_step.
Qed.

Lemma record_first_cluster_safe fh c : handle_ok fh -> safe any (record_first_cluster fs fh c).
Proof.
  intros (Hi & He). unfold record_first_cluster, entry_base, DIR_ENTRY_SIZE in *. safe_step. safe_step.
  eapply safe_bind; [apply safe_lift, put16_safe; [done|lia|lia]|]. intros b1 Hb1. cbn beta.
  eapply safe_bind; [apply safe_lift, put16_safe; [done|lia|lia]|]. intros b2 Hb2. by safe_step.
Qed.

Lemma trunc_file_safe fh : handle_ok fh -> safe handle_ok (fat32_trunc_file fs fh).
Proof.
  intros (Hi & He). unfold fat32_trunc_file, entry_base, DIR_ENTRY_SIZE in *.
  eapply (safe_bind _ any); [repeat safe_step|]. intros _ _. safe_step. safe_step.
  eapply safe_bind; [apply safe_lift, put16_safe; [done|lia|lia]|]. intros b1 Hb1. cbn beta.
  eapply safe_bind; [apply safe_lift, put16_safe; [done|lia|lia]|]. intros b2 Hb2. cbn beta.
  eapply safe_bind; [apply safe_lift, put32_safe; [done|lia|lia]|]. intros b3 Hb3. cbn beta.
  repeat safe_step. unfold handle_ok, entry_base, DIR_ENTRY_SIZE. simpl. lia.
Qed.

Lemma read_loop_safe n : forall c off want buf out,
  0 <= off < bytes_per_cluster fs -> want <= Z.of_nat n -> buf_ok buf -> safe any (read_loop n fs c off want buf out).
Proof.
  induction n as [|n IH]; intros c off want buf out Ho Hw Hb; cbn [read_loop].
  { destruct (Z.leb_spec want 0); [by safe_step|lia]. }
  destruct (Z.leb_spec want 0); [by safe_step|]. safe_step; [by safe_step|].
  eapply safe_bind; [by apply read_cluster_safe|]. intros b Hb'. cbn beta. pose proof (g_bpc_max _ G).
  rewrite u32_id by lia. set (a := if want <? bytes_per_cluster fs - off then want else _).
  assert (0 < a <= want /\ off + a <= bytes_per_cluster fs).
  { unfold a. destruct (Z.ltb_spec want (bytes_per_cluster fs - off)); lia. }
  eapply (safe_bind _ any); [apply safe_lift; rewrite mem_read_slice by (destruct Hb'; lia); done|].
  intros bs _. cbn beta. safe_step. apply IH; [lia|lia|done].
Qed.

Lemma vfs_read_safe h pos count : 0 <= count -> safe any (fat32_vfs_read fs h pos count).
Proof.
  intros Hc. unfold fat32_vfs_read. safe_step; [by safe_step|]. destruct h as [fh|]; [|by safe_step].
  safe_step; [by safe_step|]. safe_step. pose proof (bpc_pos fs G).
  eapply (safe_bind _ (fun q => 0 <= q)); [apply safe_lift; unfold udiv|].
  { rewrite (proj2 (Z.eqb_neq _ _)) by lia. pose proof (u32_range pos). apply Z.div_pos; lia. }
  intros q Hq. cbn beta.
  eapply (safe_bind _ (fun o => 0 <= o < bytes_per_cluster fs)); [apply safe_lift; unfold umod|].
  { rewrite (proj2 (Z.eqb_neq _ _)) by lia. apply Z.mod_pos_bound. lia. }
  intros o Ho. cbn beta. eapply safe_bind; [by apply seek_clusters_safe|]. intros c _. cbn beta.
  eapply safe_bind; [apply read_loop_safe; [done| |done]|].
  - destruct (Z.ltb_spec (u32 (x_file_size fh - u32 pos)) count); lia || (pose proof (u32_range (x_file_size fh - u32 pos)); lia).
  - intros out _. by apply safe_ok.
Qed.

Lemma write_loop_safe n : forall c off w (src buf : list Z),
  0 <= off < bytes_per_cluster fs -> 0 <= w -> len src - w < Z.of_nat n -> Forall byte_ok src -> buf_ok buf ->
  safe any (write_loop n fs c off w src buf).
Proof.
  induction n as [|n IH]; intros c off w src buf Ho Hw Hn Hs Hb; cbn [write_loop].
  { destruct (Z.leb_spec (len src) w); [by safe_step|lia]. }
  destruct (Z.leb_spec (len src) w); [by safe_step|]. safe_step; [by safe_step|].
  safe_step; [|by safe_step]. pose proof (g_bpc_max _ G).
  rewrite u32_id by lia. set (m := if len src - w <? bytes_per_cluster fs - off then len src - w else _).
  assert (Hm : 0 < m <= len src - w /\ off + m <= bytes_per_cluster fs).
  { unfold m. destruct (Z.ltb_spec (len src - w) (bytes_per_cluster fs - off)); lia. }
  clearbody m.
  eapply (safe_bind _ (fun bs => len bs = m /\ Forall byte_ok bs)).
  { apply safe_lift. rewrite mem_read_slice by lia. split; [apply len_slice; lia|by apply slice_Forall]. }
  intros bs [Hl Hby]. cbn beta.
  eapply safe_bind; [apply safe_lift, mem_write_safe; [done|done|lia|lia]|]. intros b Hb'. cbn beta.
  safe_step; [|by safe_step]. safe_step; [apply IH; try done; lia|].
  safe_step; [|by safe_step]. safe_step.
  - eapply safe_bind; [apply safe_attempt, append_cluster_safe|]. intros [[r b2]|e] Hr; [|by safe_step].
    apply IH; try done; lia.
  - safe_step; [by safe_step|]. apply IH; try done; lia.
Qed.

Lemma write_clusters_safe fh pos (src buf : list Z) :
  handle_ok fh -> 0 <= pos -> Forall byte_ok src -> buf_ok buf ->
  safe (fun r => handle_ok r.1) (write_clusters fs fh pos src buf).
Proof.
  intros Hh Hp Hs Hb. unfold write_clusters. pose proof (bpc_pos fs G).
  eapply (safe_bind _ (fun q => 0 <= q)); [apply safe_lift; unfold udiv|].
  { rewrite (proj2 (Z.eqb_neq _ _)) by lia. apply Z.div_pos; lia. }
  intros q Hq. cbn beta.
  eapply (safe_bind _ (fun o => 0 <= o < bytes_per_cluster fs)); [apply safe_lift; unfold umod|].
  { rewrite (proj2 (Z.eqb_neq _ _)) by lia. apply Z.mod_pos_bound. lia. }
  intros o Ho. cbv zeta.
  assert (Hfin : forall fh' c b, handle_ok fh' -> buf_ok b -> safe (fun r => handle_ok r.1)
    (bind (write_loop (S (length src)) fs c o 0 src b) (fun e => ok (fh', e)))).
  { intros fh' c b Hh' Hb'. eapply safe_bind; [apply write_loop_safe; try done; unfold len; lia|].
    intros e _. by apply safe_ok. }
  safe_step.
  - eapply safe_bind; [apply safe_attempt, first_cluster_safe|]. intros [[c b]|e] Hr; [|by safe_step].
    assert (Hh' : handle_ok (set_first_cluster fh c)) by exact Hh.
    eapply safe_bind; [apply safe_attempt; by apply record_first_cluster_safe|]. intros _ _.
    eapply safe_bind; [apply safe_attempt, append_clusters_safe; done|]. intros [[c' b']|e] Hr'; [|by safe_step].
    by apply Hfin.
  - eapply safe_bind; [apply safe_attempt, walk_clusters_safe; done|]. intros [[c' b']|e] Hr'; [|by safe_step].
    by apply Hfin.
Qed.

Lemma vfs_write_safe h pos (src : list Z) :
  Forall byte_ok src -> (forall fh, h = Some fh -> handle_ok fh) ->
  safe (fun r => forall fh, r.1.1 = Some fh -> handle_ok fh) (fat32_vfs_write fs h pos src).
Proof.
  intros Hs Hh. unfold fat32_vfs_write. safe_step; [by safe_step|]. destruct h as [fh|]; [|by safe_step].
  specialize (Hh fh eq_refl). safe_step; [safe_step; by intros ? [= <-]|].
  eapply safe_bind.
  { apply safe_attempt. apply (safe_cluster_buffer _ G). intros b Hb. apply write_clusters_safe; try done. apply u32_range. }
  intros [[fh' [w|v]]|e] Hr; simpl in Hr.
  - safe_step.
    + eapply safe_bind; [apply safe_attempt, update_dir_size_safe; by destruct Hr|]. intros _ _.
      apply safe_ok. by intros ? [= <-].
    + apply safe_ok. by intros ? [= <-].
  - apply safe_ok. by intros ? [= <-].
  - apply safe_ok. by intros ? [= <-].
Qed.
End SafeChains.

#[export] Hint Resolve extend_chain_safe chain_loop_safe update_dir_size_safe trunc_file_safe : fat_safe.

(** * The FAT32 driver: directories and paths do not fault

    The rest of the safety argument: the scans of a directory cluster stay in
    the buffer and the long-name accumulator in its array, the loops over a path
    consume it, and the operations on files and directories are safe. *)

(** ** Entries *)

Definition lfn_ok (l : lfn_state) : Prop :=
  len (lfn_buf l) = FAT_LFN_MAX /\ 0 <= lfn_len l <= FAT_LFN_MAX - 1.

Lemma no_lfn_ok : lfn_ok no_lfn.
Proof. done. Qed.

Lemma drop_lfn_ok l : lfn_ok l -> lfn_ok (drop_lfn l).
Proof. intros [Hb _]. split; [done|]. unfold FAT_LFN_MAX. simpl. lia. Qed.

Lemma runs_get8 buf off : 0 <= off < len buf -> runs_to (get8 buf off) (fun _ => True).
Proof. intros. unfold get8. apply runs_to_aget; [done|]. by apply Forall_true. Qed.

Lemma runs_get16 buf off : 0 <= off -> off + 2 <= len buf -> runs_to (get16 buf off) (fun _ => True).
Proof. intros. by rewrite get16_ok. Qed.

Lemma runs_get16s n : forall buf off,
  0 <= off -> off + 2 * Z.of_nat n <= len buf -> runs_to (get16s buf off n) (fun l => length l = n).
Proof.
  induction n as [|n IH]; intros buf off Ho He; cbn [get16s]; [done|].
  rewrite get16_ok by lia. cbn [mbind outcome_bind].
  eapply runs_to_bind; [apply IH; lia|]. intros l Hl. simpl. by rewrite Hl.
Qed.

Lemma lfn_chars_length l : (length (lfn_chars l) <= length l)%nat.
Proof. induction l as [|x l IH]; simpl; [done|]. destruct (_ || _); simpl; lia. Qed.

Lemma runs_lfn_extract buf base :
  0 <= base -> base + 32 <= len buf -> runs_to (fat32_lfn_extract buf base) (fun l => len l <= 13).
Proof.
  intros Hb He. unfold fat32_lfn_extract.
  eapply runs_to_bind; [apply runs_get16s; lia|]. intros n1 H1.
  eapply runs_to_bind; [apply runs_get16s; lia|]. intros n2 H2.
  eapply runs_to_bind; [apply runs_get16s; lia|]. intros n3 H3. cbn [runs_to].
  pose proof (lfn_chars_length (n1 ++ n2 ++ n3)) as Hl. rewrite !length_app in Hl. unfold len. simpl in *. lia.
Qed.

Lemma runs_read_dir_entry buf base :
  0 <= base -> base + 32 <= len buf -> runs_to (read_dir_entry buf base) (fun _ => True).
Proof.
  intros Hb He. unfold read_dir_entry. rewrite !mem_read_slice by lia. cbn [mbind outcome_bind].
  eapply runs_to_bind; [apply runs_get8; lia|]. intros a _.
  rewrite !get16_ok, get32_ok by lia. done.
Qed.

Lemma runs_place_chars chunk : forall b pos,
  len b = FAT_LFN_MAX -> 0 <= pos -> runs_to (place_chars b pos chunk) (fun b' => len b' = FAT_LFN_MAX).
Proof.
  induction chunk as [|c chunk IH]; intros b pos Hb Hp; cbn [place_chars]; [done|].
  eapply (runs_to_bind _ _ (fun b' => len b' = FAT_LFN_MAX)).
  - destruct (Z.ltb_spec pos (FAT_LFN_MAX - 1)); [|done]. rewrite aset_in_bounds by lia. cbn [runs_to].
    unfold len in *. by rewrite length_insert.
  - intros b' Hb'. apply IH; [done|lia].
Qed.

Lemma runs_lfn_step l buf base :
  lfn_ok l -> 0 <= base -> base + 32 <= len buf -> runs_to (lfn_step l buf base) lfn_ok.
Proof.
  intros Hl Hb He. unfold lfn_step. pose proof (drop_lfn_ok l Hl) as Hd.
  eapply runs_to_bind; [apply runs_get8; lia|]. intros order _.
  eapply runs_to_bind; [apply runs_get8; lia|]. intros checksum _. cbv zeta.
  destruct (_ || _) eqn:Hseq; [done|].
  set (l1 := if negb (Z.land order FAT_LFN_LAST =? 0) then _ else l).
  assert (Hl1 : lfn_ok l1) by (unfold l1; destruct (negb _); [split; [done|unfold FAT_LFN_MAX; simpl; lia]|done]).
  clearbody l1. destruct (negb (have_lfn l1) || _); [apply drop_lfn_ok, Hl1|].
  eapply runs_to_bind; [by apply runs_lfn_extract|]. intros chunk Hch. destruct Hl1 as [Hb1 Hn1].
  assert (Hs : 1 <= Z.land order FAT_LFN_SEQ_MASK <= 20).
  { apply orb_false_iff in Hseq as [H0 H20]. apply Z.eqb_neq in H0. apply Z.ltb_ge in H20.
    assert (0 <= Z.land order FAT_LFN_SEQ_MASK); [|lia].
    apply Z.land_nonneg. right. unfold FAT_LFN_SEQ_MASK. lia. }
  eapply runs_to_bind; [apply runs_place_chars; [done|lia]|]. intros b' Hb'. cbn [runs_to].
  split; [done|]. simpl. destruct (Z.ltb_spec (lfn_len l1) (Z.min ((Z.land order FAT_LFN_SEQ_MASK - 1) * 13 + len chunk) (FAT_LFN_MAX - 1))); unfold len in *; lia.
Qed.

Lemma runs_long_name l de : lfn_ok l -> runs_to (long_name l de) (fun _ => True).
Proof.
  intros [Hb Hn]. unfold long_name. destruct (_ && _); [|done]. rewrite aset_in_bounds by (rewrite Hb; unfold FAT_LFN_MAX in *; lia).
  done.
Qed.

Lemma runs_scan_entries n : forall i buf max l out,
  lfn_ok l -> 0 <= i -> (i + Z.of_nat n) * DIR_ENTRY_SIZE <= len buf ->
  runs_to (scan_entries n i buf max l out) (fun r => lfn_ok r.1.2).
Proof.
  induction n as [|n IH]; intros i buf max l out Hl Hi Hn; cbn [scan_entries]; [done|].
  unfold DIR_ENTRY_SIZE in *. pose proof (drop_lfn_ok l Hl).
  eapply runs_to_bind; [apply runs_read_dir_entry; lia|]. intros de _.
  eapply runs_to_bind; [apply runs_get8; lia|]. intros f _.
  destruct (f =? FAT_ENTRY_END); [done|]. destruct (f =? FAT_ENTRY_FREE); [apply IH; (done || lia)|].
  destruct (Z.land (de_attr de) FAT_ATTR_LONG_NAME_MASK =? FAT_ATTR_LONG_NAME).
  { eapply runs_to_bind; [apply runs_lfn_step; (done || lia)|]. intros l' Hl'. apply IH; (done || lia). }
  destruct (negb _); [apply IH; (done || lia)|]. destruct (max <=? len out); [done|].
  eapply runs_to_bind; [by apply runs_long_name|]. intros long _. apply IH; (done || lia).
Qed.

Definition found_ok (n : Z) (r : scan_result) : Prop :=
  match r with Found i => 0 <= i < n | EndOfDir => True | NextCluster l => lfn_ok l end.

Lemma runs_locate_entries n : forall i buf c l,
  lfn_ok l -> 0 <= i -> (i + Z.of_nat n) * DIR_ENTRY_SIZE <= len buf ->
  runs_to (locate_entries n i buf c l) (found_ok (i + Z.of_nat n)).
Proof.
  induction n as [|n IH]; intros i buf c l Hl Hi Hn; cbn [locate_entries]; [done|].
  unfold DIR_ENTRY_SIZE in *. pose proof (drop_lfn_ok l Hl).
  replace (i + Z.of_nat (S n)) with (i + 1 + Z.of_nat n) by lia.
  eapply runs_to_bind; [apply runs_read_dir_entry; lia|]. intros de _.
  eapply runs_to_bind; [apply runs_get8; lia|]. intros f _.
  destruct (f =? FAT_ENTRY_END); [done|]. destruct (f =? FAT_ENTRY_FREE); [apply IH; (done || lia)|].
  destruct (Z.land (de_attr de) FAT_ATTR_LONG_NAME_MASK =? FAT_ATTR_LONG_NAME).
  { eapply runs_to_bind; [apply runs_lfn_step; (done || lia)|]. intros l' Hl'. apply IH; (done || lia). }
  destruct (negb _); [apply IH; (done || lia)|].
  eapply (runs_to_bind _ _ (fun _ => True)).
  { unfold entry_matches. eapply runs_to_bind; [by apply runs_long_name|]. done. }
  intros [|] _; [simpl; lia|]. apply IH; (done || lia).
Qed.

Lemma runs_match_entries n : forall i buf name ext dir,
  0 <= i -> (i + Z.of_nat n) * DIR_ENTRY_SIZE <= len buf ->
  runs_to (match_entries n i buf name ext dir) (found_ok (i + Z.of_nat n)).
Proof.
  induction n as [|n IH]; intros i buf name ext dir Hi Hn; cbn [match_entries]; [done|].
  unfold DIR_ENTRY_SIZE in *. replace (i + Z.of_nat (S n)) with (i + 1 + Z.of_nat n) by lia.
  eapply runs_to_bind; [apply runs_read_dir_entry; lia|]. intros de _.
  eapply runs_to_bind; [apply runs_get8; lia|]. intros f _.
  destruct (f =? FAT_ENTRY_END); [done|]. destruct (f =? FAT_ENTRY_FREE); [apply IH; lia|].
  destruct (_ =? FAT_ATTR_LONG_NAME); [apply IH; lia|]. destruct (negb _); [apply IH; lia|].
  destruct (_ && _); [simpl; lia|apply IH; lia].
Qed.

Lemma runs_find_slot n : forall i buf,
  0 <= i -> (i + Z.of_nat n) * DIR_ENTRY_SIZE <= len buf ->
  runs_to (find_slot n i buf) (fun r => forall k, r = Some k -> 0 <= k < i + Z.of_nat n).
Proof.
  induction n as [|n IH]; intros i buf Hi Hn; cbn [find_slot]; [done|]. unfold DIR_ENTRY_SIZE in *.
  eapply runs_to_bind; [apply runs_get8; lia|]. intros f _.
  destruct (_ || _); [cbn [runs_to]; intros k [= <-]; lia|].
  eapply runs_to_mono; [apply IH; lia|]. intros r Hr k Hk. specialize (Hr k Hk). lia.
Qed.

(** ** Paths *)

Definition no_slash (p : list Z) : Prop := match p with c :: _ => c <> SLASH | [] => True end.

Lemma skip_slashes_no_slash p : no_slash (skip_slashes p).
Proof. induction p as [|c p IH]; simpl; [done|]. destruct (Z.eqb_spec c SLASH); [done|]. done. Qed.

Lemma skip_slashes_suffix p : exists k, p = k ++ skip_slashes p.
Proof.
  induction p as [|c p [k IH]]; simpl; [by exists []|]. destruct (c =? SLASH); [|by exists []].
  exists (c :: k). simpl. by f_equal.
Qed.

Lemma next_component_app n p : (next_component n p).1 ++ (next_component n p).2 = p.
Proof.
  revert p. induction n as [|n IH]; intros [|c p]; simpl; try done. destruct (c =? SLASH); [done|].
  specialize (IH p). destruct (next_component n p) as [x r]. simpl in *. by rewrite IH.
Qed.

Lemma next_component_shorter n p :
  (0 < n)%nat -> p <> [] -> no_slash p -> (length (next_component n p).2 < length p)%nat.
Proof.
  destruct n as [|n]; [lia|]. destruct p as [|c p]; [done|]. intros _ _ Hc. simpl.
  rewrite (proj2 (Z.eqb_neq _ _) Hc). pose proof (next_component_app n p) as E.
  destruct (next_component n p) as [x r]. simpl in *. rewrite <- E, length_app. lia.
Qed.

Lemma skip_slashes_length p : (length (skip_slashes p) <= length p)%nat.
Proof. destruct (skip_slashes_suffix p) as [k E]. rewrite E at 2. rewrite length_app. lia. Qed.

Lemma split_last_slash_parts p d f :
  split_last_slash p = Some (d, f) -> exists c, p = d ++ c :: f.
Proof.
  revert d f. induction p as [|c p IH]; intros d f; simpl; [done|].
  destruct (split_last_slash p) as [[d' f']|].
  - intros [= <- <-]. destruct (IH d' f' eq_refl) as [x ->]. by exists x.
  - destruct (Z.eqb_spec c SLASH); [|done]. intros [= <- <-]. by exists c.
Qed.

(** A path the VFS hands to the driver: bytes, short enough for the component
    buffers. *)
Definition path_ok (p : list Z) : Prop := len p < MAX_FILENAME /\ Forall byte_ok p.

#[global] Instance path_ok_dec p : Decision (path_ok p).
Proof. unfold path_ok, byte_ok. apply _. Defined.

Lemma path_ok_app p q : path_ok (p ++ q) -> path_ok p /\ path_ok q.
Proof. intros [Hl Hb]. apply Forall_app in Hb as [? ?]. unfold len in *. rewrite length_app in Hl. split; split; (done || unfold len; lia). Qed.

Lemma path_ok_skip p : path_ok p -> path_ok (skip_slashes p).
Proof. intros Hp. destruct (skip_slashes_suffix p) as [k E]. rewrite E in Hp. by apply path_ok_app in Hp as [_ ?]. Qed.

Lemma path_ok_split p d f : path_ok p -> split_last_slash p = Some (d, f) -> path_ok d /\ path_ok f.
Proof.
  intros Hp Hs. destruct (split_last_slash_parts p d f Hs) as [c ->].
  apply path_ok_app in Hp as [Hd Hf]. split; [done|]. change (c :: f) with ([c] ++ f) in Hf. by apply path_ok_app in Hf as [_ ?].
Qed.

Section DirSafety.
Context {W : Type} `{OK : FsWorldOk W} (fs : fat32_fs) (G : geom fs).
Abbreviation safe := (safe (W := W) fs).
Abbreviation buf_ok := (buf_ok fs).

Lemma epc_bound : Z.of_nat (entries_per_cluster fs) * DIR_ENTRY_SIZE <= bytes_per_cluster fs.
Proof.
  unfold entries_per_cluster, DIR_ENTRY_SIZE. pose proof (bpc_pos fs G).
  rewrite Z2Nat.id by (apply Z.div_pos; lia). pose proof (Z.mul_div_le (bytes_per_cluster fs) 32 ltac:(lia)). lia.
Qed.

Lemma epc_index i :
  i < 0 + Z.of_nat (entries_per_cluster fs) -> i * DIR_ENTRY_SIZE + DIR_ENTRY_SIZE <= bytes_per_cluster fs.
Proof. intros Hi. pose proof epc_bound. unfold DIR_ENTRY_SIZE in *. lia. Qed.

Lemma read_dir_loop_safe n : forall c max buf l out,
  buf_ok buf -> lfn_ok l -> safe any (read_dir_loop n fs c max buf l out).
Proof.
  induction n as [|n IH]; intros c max buf l out Hb Hl; cbn [read_dir_loop]; [by safe_step|].
  safe_step; [by safe_step|]. safe_step.
  eapply safe_bind.
  { apply safe_lift, runs_scan_entries; [done|done|]. match goal with Hx : buf_ok ?b |- _ <= len ?b => destruct Hx as [-> _] end.
    apply epc_bound. }
  intros [[stop l'] out'] Hl'. simpl in Hl'. safe_step; [by safe_step|]. safe_step. by apply IH.
Qed.

Lemma read_dir_safe c max : safe any (fat32_read_dir fs c max).
Proof. unfold fat32_read_dir. safe_step; [by safe_step|]. safe_step. apply read_dir_loop_safe; [done|apply no_lfn_ok]. Qed.
Hint Resolve read_dir_safe : fat_safe.

Lemma lookup_safe c name : safe any (fat32_lookup fs c name).
Proof. unfold fat32_lookup. safe_step. safe_step. destruct (List.find _ _); by safe_step. Qed.
Hint Resolve lookup_safe : fat_safe.

Lemma resolve_loop_safe n : forall cur p out,
  (length p <= n)%nat -> no_slash p -> safe any (resolve_loop n fs cur p out).
Proof.
  induction n as [|n IH]; intros cur [|x p] out Hn Hs; cbn [resolve_loop]; try (by safe_step); [simpl in Hn; lia|].
  pose proof (next_component_shorter (Z.to_nat (MAX_FILENAME - 1)) (x :: p) ltac:(unfold MAX_FILENAME; lia) ltac:(done) Hs) as Hsh.
  destruct (next_component (Z.to_nat (MAX_FILENAME - 1)) (x :: p)) as [comp r]. simpl fst in *. simpl snd in *.
  safe_step. safe_step; [by safe_step|]. safe_step; [by safe_step|].
  apply IH; [|apply skip_slashes_no_slash]. pose proof (skip_slashes_length r). lia.
Qed.

Lemma resolve_path_safe p : safe any (fat32_resolve_path fs p).
Proof. apply resolve_loop_safe; [done|apply skip_slashes_no_slash]. Qed.
Hint Resolve resolve_path_safe : fat_safe.

Lemma parent_loop_safe n : forall c d,
  (length d <= n)%nat -> (d <> [] -> no_slash d) -> path_ok d -> safe any (parent_loop n fs c d).
Proof.
  induction n as [|n IH]; intros c [|x d] Hn Hs Hd; cbn [parent_loop]; try (by safe_step); [simpl in Hn; lia|].
  pose proof (next_component_shorter (length (x :: d)) (x :: d) ltac:(simpl; lia) ltac:(done) (Hs ltac:(done))) as Hsh.
  pose proof (next_component_app (length (x :: d)) (x :: d)) as E.
  destruct (next_component (length (x :: d)) (x :: d)) as [comp r]. simpl fst in *. simpl snd in *.
  rewrite <- E in Hd. apply path_ok_app in Hd as [Hc Hr].
  destruct (Z.leb_spec MAX_FILENAME (len comp)) as [Hlong|_]; [destruct Hc; lia|].
  safe_step. apply IH; [|intros _; apply skip_slashes_no_slash|by apply path_ok_skip].
  pose proof (skip_slashes_length r). lia.
Qed.

Lemma locate_loop_safe n : forall c comp buf l,
  buf_ok buf -> lfn_ok l ->
  safe (fun r => 0 <= r.2 /\ r.2 * DIR_ENTRY_SIZE + DIR_ENTRY_SIZE <= bytes_per_cluster fs) (locate_loop n fs c comp buf l).
Proof.
  induction n as [|n IH]; intros c comp buf l Hb Hl; cbn [locate_loop]; [by safe_step|].
  safe_step; [by safe_step|]. safe_step.
  eapply safe_bind.
  { apply safe_lift, (runs_locate_entries _ 0); [done|done|]. match goal with Hx : buf_ok ?b |- _ <= len ?b => destruct Hx as [-> _] end.
    apply epc_bound. }
  intros [i| |l'] Hr; cbn [found_ok] in Hr.
  - apply safe_ok. simpl. split; [lia|]. apply epc_index. lia.
  - by safe_step.
  - safe_step. by apply IH.
Qed.

Lemma open_locate_safe p :
  path_ok p ->
  safe (fun r => 0 <= r.2 /\ r.2 * DIR_ENTRY_SIZE + DIR_ENTRY_SIZE <= bytes_per_cluster fs) (fat32_open_locate_dir_entry fs p).
Proof.
  intros Hp. unfold fat32_open_locate_dir_entry.
  pose proof (path_ok_skip p Hp) as Hp'. pose proof (skip_slashes_no_slash p) as Hns.
  eapply (safe_bind _ any).
  - destruct (split_last_slash (skip_slashes p)) as [[d f]|] eqn:Es; [|by safe_step].
    destruct (path_ok_split _ _ _ Hp' Es) as [Hd Hf].
    eapply safe_bind; [apply parent_loop_safe; [done| |done]|intros; by safe_step].
    intros Hne. destruct (split_last_slash_parts _ _ _ Es) as [c E]. rewrite E in Hns. by destruct d.
  - intros [parent comp] _. safe_step.
    eapply safe_bind; [apply locate_loop_safe; [done|apply no_lfn_ok]|]. intros [c i] Hr. by apply safe_ok.
Qed.

(** The directory and the name are as the path. *)
Lemma resolve_parent_safe p :
  path_ok p -> safe (fun r => path_ok r.2) (fat32_resolve_parent_cluster fs p).
Proof.
  intros Hp. unfold fat32_resolve_parent_cluster. pose proof (path_ok_skip p Hp) as Hp'.
  destruct (split_last_slash (skip_slashes p)) as [[d f]|] eqn:Es; [|by apply safe_ok].
  destruct (path_ok_split _ _ _ Hp' Es) as [Hd Hf]. safe_step; [by safe_step|]. safe_step. safe_step; [by safe_step|].
  by apply safe_ok.
Qed.

(** ** Entries that are created *)

Lemma split_last_dot_parts s b e : split_last_dot s = Some (b, e) -> exists c, s = b ++ c :: e.
Proof.
  revert b e. induction s as [|c s IH]; intros b e; simpl; [done|].
  destruct (split_last_dot s) as [[b' e']|].
  - intros [= <- <-]. destruct (IH b' e' eq_refl) as [x ->]. by exists x.
  - destruct (Z.eqb_spec c DOT); [|done]. intros [= <- <-]. by exists c.
Qed.

Definition name83_ok (r : list Z * list Z) : Prop :=
  length r.1 = 8%nat /\ length r.2 = 3%nat /\ Forall byte_ok r.1 /\ Forall byte_ok r.2.

Lemma to_upper_byte c : byte_ok c -> byte_ok (to_upper c).
Proof. unfold byte_ok, to_upper. destruct (Z.leb_spec 97 c), (Z.leb_spec c 122); simpl; lia. Qed.

Lemma pad_ok n s : (length s <= n)%nat -> Forall byte_ok s -> length (pad n s) = n /\ Forall byte_ok (pad n s).
Proof.
  intros Hl Hb. unfold pad. split; [size|]. apply Forall_app_2; [done|]. apply Forall_replicate. unfold byte_ok, SPACE. lia.
Qed.

Lemma name_to_83_ok name :
  Forall byte_ok name -> match fat32_name_to_83 name with Ok r => name83_ok r | Err _ => True end.
Proof.
  intros Hn. unfold fat32_name_to_83.
  destruct (match split_last_dot name with Some (b, e) => (b, e) | None => (name, []) end) as [base ext] eqn:Es.
  assert (Hbe : Forall byte_ok base /\ Forall byte_ok ext).
  { destruct (split_last_dot name) as [[b e]|] eqn:Ed.
    - destruct (split_last_dot_parts _ _ _ Ed) as [c ->]. injection Es as <- <-. apply Forall_app in Hn as [? Hn].
      inversion Hn. done.
    - by injection Es as <- <-. }
  destruct Hbe as [Hb He].
  destruct (_ || _) eqn:H8; [done|]. apply orb_false_iff in H8 as [_ H8]. apply Z.ltb_ge in H8.
  destruct (Z.ltb_spec 3 (len ext)) as [|H3]; [done|]. unfold len in *.
  assert (Hm : forall s, Forall byte_ok s -> Forall byte_ok (map to_upper s)).
  { intros s Hs. apply Forall_fmap. eapply Forall_impl; [exact Hs|]. apply to_upper_byte. }
  destruct (pad_ok 8 (map to_upper base)) as [? ?]; [size|by apply Hm|].
  destruct (pad_ok 3 (map to_upper ext)) as [? ?]; [size|by apply Hm|]. by split_and!.
Qed.

Lemma new_entry_ok name ext attr :
  name83_ok (name, ext) -> byte_ok attr -> len (new_entry name ext attr) = 32 /\ Forall byte_ok (new_entry name ext attr).
Proof.
  intros (H1 & H2 & H3 & H4) Ha. simpl in *. unfold new_entry. split; [size|].
  apply Forall_app_2; [done|]. apply Forall_app_2; [done|]. constructor; [done|].
  apply Forall_replicate. unfold byte_ok. lia.
Qed.

Lemma create_loop_safe n : forall c last entry buf,
  len entry = 32 -> Forall byte_ok entry -> buf_ok buf ->
  safe (fun r => match r with
                 | inl p => 0 <= p.2 /\ p.2 * DIR_ENTRY_SIZE + DIR_ENTRY_SIZE <= bytes_per_cluster fs
                 | inr p => buf_ok p.2 end) (create_loop n fs c last entry buf).
Proof.
  induction n as [|n IH]; intros c last entry buf Hl He Hb; cbn [create_loop]; [by safe_step|].
  safe_step; [by safe_step|]. safe_step. rename a into buf'.
  eapply safe_bind.
  { apply safe_lift, (runs_find_slot _ 0); [done|]. match goal with Hx : buf_ok ?b |- _ <= len ?b => destruct Hx as [-> _] end.
    apply epc_bound. }
  intros [i|] Hr; cbn beta match.
  - specialize (Hr i eq_refl). pose proof (epc_index i ltac:(lia)). unfold DIR_ENTRY_SIZE in *.
    eapply safe_bind; [apply safe_lift, mem_write_safe; [done|done|lia|lia]|]. intros b Hb'. cbn beta.
    safe_step. apply safe_ok. simpl. lia.
  - safe_step. by apply IH.
Qed.

Lemma create_file_entry_safe c name :
  Forall byte_ok name ->
  safe (fun p => 0 <= p.2 /\ p.2 * DIR_ENTRY_SIZE + DIR_ENTRY_SIZE <= bytes_per_cluster fs) (fat32_create_file_entry fs c name).
Proof.
  intros Hn. unfold fat32_create_file_entry.
  eapply safe_bind; [apply safe_of_rc, name_to_83_ok, Hn|]. intros [n83 e83] H83. cbv zeta.
  destruct (new_entry_ok n83 e83 FAT_ATTR_ARCHIVE H83 ltac:(done)) as [Hl He].
  safe_step. eapply safe_bind; [by apply create_loop_safe|]. intros [place|[last buf]] Hr; [by apply safe_ok|].
  pose proof (zero_buf_ok fs G) as Hz. pose proof (bpc_big fs G). safe_step.
  eapply safe_bind; [apply safe_lift, mem_write_safe; [done|done|lia|lia]|]. intros b2 Hb2. cbn beta.
  eapply safe_bind; [by apply safe_attempt, write_cluster_safe|]. intros [?|e] _.
  - apply safe_ok. unfold DIR_ENTRY_SIZE. simpl. lia.
  - repeat safe_step.
Qed.

Lemma vfs_open_safe p flags : path_ok p -> safe (fun r => handle_ok fs r.1.2) (fat32_vfs_open fs p flags).
Proof.
  intros Hp. unfold fat32_vfs_open. safe_step.
  - safe_step; [by safe_step|]. safe_step.
    eapply safe_bind; [by apply open_locate_safe|]. intros [[dc ec] ei] Hr. simpl in Hr. cbv zeta.
    set (fh := mkfhandle _ _ _ _ _). assert (Hh : handle_ok fs fh) by exact Hr.
    eapply (safe_bind _ (handle_ok fs)); [safe_step; [by apply trunc_file_safe|by apply safe_ok]|].
    intros fh' Hh'. by apply safe_ok.
  - safe_step; [|by safe_step].
    eapply safe_bind; [by apply resolve_parent_safe|]. intros [parent name] Hn.
    eapply safe_bind; [apply create_file_entry_safe; by destruct Hn|]. intros [ec ei] Hr.
    safe_step. by apply safe_ok.
Qed.

Lemma vfs_readdir_safe p max : safe any (fat32_vfs_readdir fs p max).
Proof. unfold fat32_vfs_readdir. repeat safe_step. Qed.

Lemma vfs_stat_safe p : safe any (fat32_vfs_stat fs p).
Proof. unfold fat32_vfs_stat. repeat safe_step. Qed.

Lemma or_undo_safe {A} (P : A -> Prop) (m : io W A) u : safe P m -> safe any u -> safe P (or_undo m u).
Proof.
  intros Hm Hu. unfold or_undo. eapply safe_bind; [by apply safe_attempt|]. intros [a|e] Ha; [by apply safe_ok|].
  eapply safe_bind; [by apply safe_attempt|]. intros _ _. apply safe_err.
Qed.

Lemma dot_entry_ok name c :
  Forall byte_ok name -> (length name <= 8)%nat -> len (dot_entry name c) = 32 /\ Forall byte_ok (dot_entry name c).
Proof.
  intros Hn Hl. destruct (pad_ok 8 name Hl Hn) as [H1 H2].
  destruct (pad_ok 3 [] ltac:(simpl; lia) ltac:(constructor)) as [H3 H4].
  destruct (new_entry_ok (pad 8 name) (pad 3 []) FAT_ATTR_DIRECTORY) as [H5 H6]; [by split_and!|done|].
  unfold dot_entry. split.
  - rewrite !len_splice; try size; rewrite len_splice; size.
  - apply splice_Forall; [apply splice_Forall; [done|]|]; apply le_bytes_ok.
Qed.

Lemma vfs_mkdir_safe p : path_ok p -> safe any (fat32_vfs_mkdir fs p).
Proof.
  intros Hp. unfold fat32_vfs_mkdir. safe_step; [by safe_step|]. pose proof (bpc_big fs G).
  eapply safe_bind; [by apply resolve_parent_safe|]. intros [parent name] [_ Hn]. simpl in Hn.
  eapply safe_bind; [apply safe_of_rc, name_to_83_ok, Hn|]. intros n83 _. cbn beta. safe_step.
  eapply (safe_bind _ any).
  { apply or_undo_safe; [|by safe_step]. safe_step. pose proof (zero_buf_ok fs G) as Hz.
    destruct (dot_entry_ok [DOT] a) as [L1 B1]; [by repeat constructor|simpl; lia|].
    eapply safe_bind; [apply safe_lift, mem_write_safe; [done|done|lia|lia]|]. intros b1 Hb1. cbn beta zeta.
    destruct (dot_entry_ok [DOT; DOT] (if parent =? root_cluster fs then 0 else parent)) as [L2 B2];
      [by repeat constructor|simpl; lia|].
    eapply safe_bind; [apply safe_lift, mem_write_safe; [done|done|unfold DIR_ENTRY_SIZE; lia|unfold DIR_ENTRY_SIZE; lia]|].
    intros b2 Hb2. cbn beta. by safe_step. }
  intros _ _. eapply (safe_bind _ any); [|by intros _ _; apply safe_ok].
  apply or_undo_safe; [|by safe_step].
  eapply safe_bind; [by apply create_file_entry_safe|]. intros [ec ei] [Hi He]. simpl in Hi, He. cbn beta match.
  unfold DIR_ENTRY_SIZE in *. safe_step. safe_step.
  eapply safe_bind; [apply safe_lift, aset_safe; [done|done|lia]|]. intros b1 Hb1. cbn beta.
  eapply safe_bind; [apply safe_lift, put16_safe; [done|lia|lia]|]. intros b2 Hb2. cbn beta.
  eapply safe_bind; [apply safe_lift, put16_safe; [done|lia|lia]|]. intros b3 Hb3. cbn beta.
  eapply safe_bind; [apply safe_lift, put32_safe; [done|lia|lia]|]. intros b4 Hb4. cbn beta. by safe_step.
Qed.

Lemma delete_loop_safe n : forall c name ext dir buf, buf_ok buf -> safe any (delete_loop n fs c name ext dir buf).
Proof.
  induction n as [|n IH]; intros c name ext dir buf Hb; cbn [delete_loop]; [by safe_step|].
  safe_step; [by safe_step|]. safe_step.
  eapply safe_bind.
  { apply safe_lift, (runs_match_entries _ 0); [done|]. match goal with Hx : buf_ok ?b |- _ <= len ?b => destruct Hx as [-> _] end.
    apply epc_bound. }
  intros [i| |l'] Hr; cbn [found_ok] in Hr; [|by safe_step|safe_step; by apply IH].
  pose proof (epc_index i ltac:(lia)). unfold DIR_ENTRY_SIZE in *.
  eapply safe_bind; [apply safe_lift, aset_safe; [done|done|lia]|]. intros b1 Hb1. cbn beta. by safe_step.
Qed.

Lemma delete_entry_safe p c dir : path_ok p -> safe any (delete_entry fs p c dir).
Proof.
  intros Hp. unfold delete_entry.
  eapply safe_bind; [by apply resolve_parent_safe|]. intros [parent name] [_ Hn]. simpl in Hn.
  eapply safe_bind; [apply safe_of_rc, name_to_83_ok, Hn|]. intros [n83 e83] _. cbn beta match.
  eapply (safe_bind _ any); [safe_step; by apply delete_loop_safe|]. intros _ _.
  eapply (safe_bind _ any); [repeat safe_step|]. intros _ _. by apply safe_ok.
Qed.

Lemma vfs_rmdir_safe p : path_ok p -> safe any (fat32_vfs_rmdir fs p).
Proof.
  intros Hp. unfold fat32_vfs_rmdir. safe_step. safe_step; [by safe_step|].
  eapply (safe_bind _ any); [repeat safe_step|]. intros _ _. by apply delete_entry_safe.
Qed.

Lemma vfs_unlink_safe p : path_ok p -> safe any (fat32_vfs_unlink fs p).
Proof.
  intros Hp. unfold fat32_vfs_unlink. safe_step. safe_step; [by safe_step|]. by apply delete_entry_safe.
Qed.
End DirSafety.
