(* ===== verification/Fat32Dir.v ===== *)
(** * The FAT32 driver: short names

    fat32_name_to_83 and fat32_parse_83_name are inverse up to the case of
    letters, and the comparison of lookups ignores the case. *)

From S2P Require Import Prelude Vfs Bytes BlockDev Fat32 IoLogic Fat32Proofs Fat32Chain Fat32Write.

(** ** Padding *)

Lemma strip_rev_spaces k l : strip_spaces_rev (replicate k SPACE ++ l) = strip_spaces_rev l.
Proof. induction k as [|k IH]; simpl; [done|]. by rewrite IH. Qed.

Lemma strip_rev_head l : head l <> Some SPACE -> strip_spaces_rev l = l.
Proof. destruct l as [|x l]; simpl; [done|]. intros Hx. destruct (Z.eqb_spec x SPACE) as [->|]; done. Qed.

Lemma strip_pad n s : last s <> Some SPACE -> strip_spaces (pad n s) = s.
Proof.
  intros Hs. unfold strip_spaces, pad. rewrite reverse_app, reverse_replicate, strip_rev_spaces.
  rewrite strip_rev_head by (by rewrite head_reverse). apply reverse_involutive.
Qed.

(** ** Case *)

Lemma to_lower_upper c : to_lower (to_upper c) = to_lower c.
Proof.
  unfold to_lower, to_upper. destruct (Z.leb_spec 97 c), (Z.leb_spec c 122); simpl; try done.
  destruct (Z.leb_spec 65 (c - 32)), (Z.leb_spec (c - 32) 90), (Z.leb_spec 65 c), (Z.leb_spec c 90); simpl; lia.
Qed.

Lemma names_match_upper s : names_match (map to_upper s) s = true.
Proof. induction s as [|c s IH]; simpl; [done|]. by rewrite to_lower_upper, Z.eqb_refl, IH. Qed.

(** Two names match if they are equal up to case. *)
Lemma names_match_spec a b : names_match a b = true <-> map to_lower a = map to_lower b.
Proof.
  revert b. induction a as [|x a IH]; intros [|y b]; simpl; try (split; done).
  rewrite andb_true_iff, Z.eqb_eq, IH. split; [by intros [-> ->]|by intros [= -> ->]].
Qed.

Lemma last_map_upper s : last s <> Some SPACE -> last (map to_upper s) <> Some SPACE.
Proof.
  intros Hs. change (map to_upper s) with (to_upper <$> s). rewrite fmap_last.
  destruct (last s) as [c|]; simpl; [|done]. intros [= Hc]. apply Hs. f_equal.
  unfold to_upper, SPACE in *. destruct (Z.leb_spec 97 c), (Z.leb_spec c 122); simpl in Hc; lia.
Qed.

(** ** The round trip *)

Lemma split_last_dot_app s b e : split_last_dot s = Some (b, e) -> s = b ++ DOT :: e.
Proof.
  revert b e. induction s as [|c s IH]; intros b e; simpl; [done|].
  destruct (split_last_dot s) as [[b' e']|].
  - intros [= <- <-]. simpl. f_equal. by apply IH.
  - destruct (Z.eqb_spec c DOT) as [->|]; [|done]. by intros [= <- <-].
Qed.

(** A name whose stem and extension do not end in a space, the extension not
    empty where there is a dot. *)
Definition canonical (name : list Z) : Prop :=
  match split_last_dot name with
  | Some (b, e) => e <> [] /\ last b <> Some SPACE /\ last e <> Some SPACE
  | None => last name <> Some SPACE
  end.

Lemma name_83_roundtrip name n e :
  fat32_name_to_83 name = Ok (n, e) -> canonical name ->
  fat32_parse_83_name n e FAT_LFN_MAX = map to_upper name.
Proof.
  unfold fat32_name_to_83, canonical, FAT_LFN_MAX. intros Hn Hc.
  destruct (split_last_dot name) as [[b x]|] eqn:Es.
  - destruct Hc as (Hx & Hb & Hl). apply split_last_dot_app in Es.
    destruct (_ || _) eqn:H8; [done|]. apply orb_false_iff in H8 as [_ H8]. apply Z.ltb_ge in H8.
    destruct (Z.ltb_spec 3 (len x)) as [|H3]; [done|]. injection Hn as <- <-. unfold fat32_parse_83_name.
    rewrite !strip_pad by (by apply last_map_upper).
    rewrite (take_ge (map to_upper b)) by size.
    assert (Hlx : (len (map to_upper x) =? 0) = false) by (apply Z.eqb_neq; destruct x; [done|]; unfold len; simpl; lia).
    assert (Hlb : (len (map to_upper b) <? 256 - 1) = true) by (apply Z.ltb_lt; size).
    rewrite Hlx, Hlb. cbn [negb andb]. rewrite take_ge; [|unfold len in *; rewrite length_app; simpl; rewrite !length_map; lia]. by rewrite Es, map_app.
  - destruct (_ || _) eqn:H8; [done|]. apply orb_false_iff in H8 as [_ H8]. apply Z.ltb_ge in H8.
    simpl in Hn. injection Hn as <- <-. unfold fat32_parse_83_name.
    rewrite !strip_pad by (try done; by apply last_map_upper). simpl. apply take_ge. size.
Qed.

(** * The FAT32 driver: reading a directory

    A directory is the sequence of the 32-byte slots of its clusters.  [listing]
    is the reference: the live slots before the end mark, each with its short
    name.  fat32_read_dir, with its loops over clusters and slots and its
    long-name accumulator, computes it for directories without long names. *)

(** ** Slots *)

Definition byte_at (s : list Z) (k : Z) : Z := default 0 (s !! Z.to_nat k).

(** [n] slots of a buffer from number [i] on. *)
Definition slots_from (buf : list Z) (i : Z) (n : nat) : list (list Z) :=
  map (fun k => slice buf (k * DIR_ENTRY_SIZE) DIR_ENTRY_SIZE) (seqZ i (Z.of_nat n)).

Definition slot_attr (s : list Z) : Z := byte_at s 11.

(** The slot is not a long-name entry. *)
Definition short_slot (s : list Z) : bool :=
  negb (Z.land (slot_attr s) FAT_ATTR_LONG_NAME_MASK =? FAT_ATTR_LONG_NAME).

(** In use, and not the volume label. *)
Definition live_slot (s : list Z) : bool :=
  negb (byte_at s 0 =? FAT_ENTRY_FREE) && (Z.land (slot_attr s) FAT_ATTR_VOLUME_ID =? 0).

Definition slot_entry (s : list Z) : fat32_entry :=
  mkentry (c_string (fat32_parse_83_name (slice s 0 8) (slice s 8 3) FAT_LFN_MAX))
    (Z.lor (Z.shiftl (le_value (slice s 20 2)) 16) (le_value (slice s 26 2)))
    (le_value (slice s 28 4)) (slot_attr s) (negb (Z.land (slot_attr s) FAT_ATTR_DIRECTORY =? 0)).

(** The slots before the end mark. *)
Fixpoint before_end (ss : list (list Z)) : list (list Z) :=
  match ss with
  | [] => []
  | s :: ss' => if byte_at s 0 =? FAT_ENTRY_END then [] else s :: before_end ss'
  end.

Definition ends (ss : list (list Z)) : bool := existsb (fun s => byte_at s 0 =? FAT_ENTRY_END) ss.

Definition listing (ss : list (list Z)) : list fat32_entry :=
  map slot_entry (List.filter live_slot (before_end ss)).

Lemma before_end_app ss rs :
  before_end (ss ++ rs) = if ends ss then before_end ss else ss ++ before_end rs.
Proof.
  induction ss as [|s ss IH]; simpl; [done|]. destruct (_ =? _); simpl; [done|]. rewrite IH. by destruct (ends ss).
Qed.

Lemma before_end_all ss : ends ss = false -> before_end ss = ss.
Proof. induction ss as [|s ss IH]; simpl; [done|]. intros [-> Hs]%orb_false_iff. by rewrite IH. Qed.

Lemma listing_app_end ss rs : ends ss = true -> listing (ss ++ rs) = listing ss.
Proof. intros He. unfold listing. by rewrite before_end_app, He. Qed.

Lemma listing_app ss rs : ends ss = false -> listing (ss ++ rs) = listing ss ++ listing rs.
Proof.
  intros He. unfold listing. rewrite before_end_app, He, (before_end_all ss He), List.filter_app. apply map_app.
Qed.

(** ** Reading a slot *)

Definition slot_de (s : list Z) : fat32_dir_entry :=
  mkde (slice s 0 8) (slice s 8 3) (slot_attr s) (le_value (slice s 20 2)) (le_value (slice s 26 2)) (le_value (slice s 28 4)).

Section Slot.
Context (buf : list Z) (b : Z) (Hb : 0 <= b) (He : b + 32 <= len buf).

Lemma get8_slot k : 0 <= k < 32 -> get8 buf (b + k) = Ret (byte_at (slice buf b 32) k).
Proof.
  intros Hk. unfold get8, byte_at. rewrite slice_lookup by lia.
  destruct (lookup_lt_is_Some_2 buf (Z.to_nat (b + k))) as [x Hx]; [unfold len in *; lia|].
  rewrite Hx. apply aget_lookup; [lia|done].
Qed.

Lemma slot_slice k n : 0 <= k -> 0 <= n -> k + n <= 32 -> slice (slice buf b 32) k n = slice buf (b + k) n.
Proof. intros. by apply slice_slice. Qed.

Lemma read_dir_entry_slot : read_dir_entry buf b = Ret (slot_de (slice buf b 32)).
Proof.
  unfold read_dir_entry, slot_de. rewrite !slot_slice by lia. rewrite Z.add_0_r.
  rewrite !mem_read_slice, get8_slot, !get16_ok, get32_ok by lia. done.
Qed.
End Slot.

(** ** Scanning a cluster *)

Lemma slots_from_S buf i n :
  slots_from buf i (S n) = slice buf (i * DIR_ENTRY_SIZE) DIR_ENTRY_SIZE :: slots_from buf (i + 1) n.
Proof. unfold slots_from. rewrite seqZ_cons by lia. simpl. rewrite Z.add_1_r. do 3 f_equal. lia. Qed.

Lemma take_app_full {A} (n : nat) (l k : list A) : (n <= length l)%nat -> take n (l ++ k) = take n l.
Proof. intros. by rewrite take_app_le. Qed.

(** What the loop over the slots [ss] of a cluster does to the entries found. *)
Definition scanned (ss : list (list Z)) (max : Z) (out : list fat32_entry)
    (r : bool * lfn_state * list fat32_entry) : Prop :=
  have_lfn r.1.2 = false /\
  if r.1.1
  then forall rs, take (Z.to_nat max) (out ++ listing (ss ++ rs)) = r.2
  else r.2 = out ++ listing ss /\ len r.2 <= max /\ ends ss = false.

Lemma scan_entries_short n : forall i buf max l out,
  0 <= i -> (i + Z.of_nat n) * DIR_ENTRY_SIZE <= len buf -> have_lfn l = false -> len out <= max ->
  Forall (fun s => short_slot s = true) (slots_from buf i n) ->
  runs_to (scan_entries n i buf max l out) (scanned (slots_from buf i n) max out).
Proof.
  induction n as [|n IH]; intros i buf max l out Hi Hn Hl Hm Hs; cbn [scan_entries].
  { cbn [runs_to]. split; [done|]. cbn. rewrite app_nil_r. done. }
  rewrite slots_from_S in Hs |- *. inversion_clear Hs as [|? ? Hs1 Hs2]. unfold DIR_ENTRY_SIZE in *.
  set (s := slice buf (i * 32) 32) in *.
  rewrite read_dir_entry_slot by lia. cbn [mbind outcome_bind].
  replace (get8 buf (i * 32)) with (get8 buf (i * 32 + 0)) by (f_equal; lia). rewrite get8_slot by lia.
  fold s. cbn [mbind outcome_bind].
  assert (Hskip : forall out', len out' <= max -> (byte_at s 0 =? FAT_ENTRY_END) = false ->
    out' = out ++ listing [s] ->
    runs_to (scan_entries n (i + 1) buf max (drop_lfn l) out') (scanned (s :: slots_from buf (i + 1) n) max out)).
  { intros out' Hm' Hend ->. assert (Hes : ends [s] = false) by (simpl; by rewrite Hend).
    eapply runs_to_mono; [apply IH; (done || lia)|].
    intros [[stop l'] o] [Hl' Hr]. split; [done|]. cbn [fst snd] in *. destruct stop.
    - intros rs. change ((s :: ?x) ++ rs) with ([s] ++ (x ++ rs)).
      rewrite listing_app, app_assoc by done. apply Hr.
    - destruct Hr as (-> & Hlen & He). split_and!; [|done|by simpl; rewrite Hend].
      change (s :: slots_from buf (i + 1) n) with ([s] ++ slots_from buf (i + 1) n).
      by rewrite (listing_app [s]), app_assoc by done. }
  destruct (byte_at s 0 =? FAT_ENTRY_END) eqn:Hend.
  { cbn [runs_to]. split; [done|]. cbn [fst snd]. intros rs. unfold listing. cbn [app before_end]. rewrite Hend. simpl.
    rewrite app_nil_r. apply take_ge. unfold len in Hm. lia. }
  destruct (byte_at s 0 =? FAT_ENTRY_FREE) eqn:Hfree.
  { apply Hskip; [done|done|]. unfold listing. simpl. rewrite Hend. simpl. unfold live_slot. rewrite Hfree. simpl.
    by rewrite app_nil_r. }
  assert (Hlfn : (Z.land (de_attr (slot_de s)) FAT_ATTR_LONG_NAME_MASK =? FAT_ATTR_LONG_NAME) = false)
    by (by apply negb_true_iff).
  rewrite Hlfn. change (de_attr (slot_de s)) with (slot_attr s).
  destruct (negb (Z.land (slot_attr s) FAT_ATTR_VOLUME_ID =? 0)) eqn:Hvol.
  { apply Hskip; [done|done|]. unfold listing. simpl. rewrite Hend. simpl. unfold live_slot.
    apply negb_true_iff in Hvol. rewrite Hvol, andb_false_r. simpl. by rewrite app_nil_r. }
  assert (Hlive : listing [s] = [slot_entry s]).
  { unfold listing. simpl. rewrite Hend. simpl. unfold live_slot. rewrite Hfree. apply negb_false_iff in Hvol. by rewrite Hvol. }
  destruct (Z.leb_spec max (len out)) as [Hfull|Hroom].
  { cbn [runs_to]. split; [done|]. cbn [fst snd]. intros rs. rewrite take_app_full by (unfold len in *; lia).
    apply take_ge. unfold len in *. lia. }
  unfold long_name. rewrite Hl. cbn [andb mbind outcome_bind]. apply Hskip; [|done|by rewrite Hlive].
  unfold len in *. rewrite length_app. simpl. lia.
Qed.

(** ** Reading a directory *)

Section ReadDir.
Context {W : Type} `{OK : FsWorldOk W}.
Context (rel : Prop) {RL : Reliable W rel}.
Context (fs : fat32_fs) (G : geom fs).

Abbreviation T := (triple (block_dev fs) (bytes_per_sector fs)).
Abbreviation whole := (whole fs).
Hint Resolve whole_fits : core.

Definition cluster_slots (img : list Z) (c : Z) : list (list Z) :=
  slots_from (data fs img c) 0 (entries_per_cluster fs).

Definition dir_slots (img l : list Z) : list (list Z) := concat (map (cluster_slots img) l).

Definition short_dir (img l : list Z) : Prop := Forall (fun s => short_slot s = true) (dir_slots img l).

Lemma dir_slots_app img l k : dir_slots img (l ++ k) = dir_slots img l ++ dir_slots img k.
Proof. unfold dir_slots. by rewrite map_app, concat_app. Qed.

Lemma dir_slots_cons img c l : dir_slots img (c :: l) = cluster_slots img c ++ dir_slots img l.
Proof. done. Qed.

Lemma slots_fit : 0 + Z.of_nat (entries_per_cluster fs) * DIR_ENTRY_SIZE <= bytes_per_cluster fs.
Proof.
  unfold entries_per_cluster, DIR_ENTRY_SIZE. pose proof (bpc_pos fs G).
  rewrite Z2Nat.id by (apply Z.div_pos; lia). pose proof (Z.mul_div_le (bytes_per_cluster fs) 32 ltac:(lia)). lia.
Qed.

Lemma valid_in_chain c : valid fs c -> in_chain c = true.
Proof.
  intros Hv. unfold in_chain. rewrite (valid_not_eoc fs G c Hv), (valid_not_bad fs G c Hv).
  unfold valid in Hv. destruct (Z.leb_spec 2 c); [done|lia].
Qed.

Lemma eoc_not_in_chain c : fat32_is_eoc c = true -> in_chain c = false.
Proof. intros He. unfold in_chain. rewrite He. by rewrite andb_false_r. Qed.

Lemma read_dir_loop_t n : forall img c l max buf lf out,
  whole img -> chain fs img c l -> (length l <= n)%nat -> short_dir img l -> have_lfn lf = false ->
  len out <= max -> len buf = bytes_per_cluster fs ->
  T img (read_dir_loop n fs c max buf lf out)
    (fun img' r => img' = img /\ r = take (Z.to_nat max) (out ++ listing (dir_slots img l)))
    (fun img' e => img' = img /\ ~ rel).
Proof.
  induction n as [|n IH]; intros img c [|x l] max buf lf out Hw Hch Hn Hs Hl Hm Hb; cbn [read_dir_loop].
  1, 3: destruct Hch as (d & <- & Hd); rewrite ?(eoc_not_in_chain _ Hd); apply t_ok; split; [done|];
    cbn; rewrite app_nil_r; symmetry; apply take_ge; unfold len in *; lia.
  { simpl in Hn. lia. }
  destruct (chain_cons fs img c x l Hch) as (-> & Hv & Hch' & _). rewrite (valid_in_chain c Hv). cbn [negb].
  unfold short_dir in Hs. rewrite dir_slots_cons in *. apply Forall_app in Hs as [Hs1 Hs2].
  eapply t_bind; [by apply (read_cluster_t rel fs G); auto|]. intros img0 b (-> & -> & Hlb). cbn beta.
  pose proof slots_fit as Hfit.
  pose proof (scan_entries_short (entries_per_cluster fs) 0 (data fs img c) max lf out ltac:(lia) ltac:(lia) Hl Hm Hs1) as Hscan.
  apply runs_to_inv in Hscan as ([[stop l'] o] & Escan & Hl' & Hr). cbn [fst snd] in *.
  eapply t_bind_lift; [exact Escan|]. cbn beta match. destruct stop.
  - apply t_ok. split; [done|]. symmetry. apply Hr.
  - destruct Hr as (-> & Hlen & He). eapply t_bind; [apply (read_fat_entry_t rel fs G); auto|].
    intros img0 v (-> & ->). cbn beta. fold (next_of fs img c).
    eapply t_mono; [apply (IH img _ l); try done; simpl in Hn; lia| |done].
    intros i r (-> & ->). split; [done|]. f_equal. rewrite <- app_assoc. f_equal. symmetry. by apply listing_app.
Qed.

Lemma read_dir_t img c l max :
  whole img -> chain fs img c l -> short_dir img l -> 0 < max ->
  T img (fat32_read_dir fs c max)
    (fun img' r => img' = img /\ r = take (Z.to_nat max) (listing (dir_slots img l)))
    (fun img' e => img' = img /\ ~ rel).
Proof.
  intros Hw Hch Hs Hm. unfold fat32_read_dir. destruct (Z.eqb_spec max 0); [lia|]. pose proof (bpc_pos fs G).
  eapply (t_with_buffer rel); [lia| |done]. intros buf Hb _.
  apply (read_dir_loop_t _ img c l max _ _ []); try done; [|unfold len; simpl; lia].
  pose proof (chain_length fs G img c l Hch). unfold len in *. lia.
Qed.

(** The entry of the first slot with the name, up to case. *)
Definition find_entry (name : list Z) (es : list fat32_entry) : option fat32_entry :=
  List.find (fun e => names_match (e_name e) name) es.

Lemma lookup_t img c l name :
  whole img -> chain fs img c l -> short_dir img l ->
  T img (fat32_lookup fs c name)
    (fun img' e => img' = img /\ find_entry name (take 512 (listing (dir_slots img l))) = Some e)
    (fun img' r => img' = img /\
       (rel -> r = - ENOENT /\ find_entry name (take 512 (listing (dir_slots img l))) = None)).
Proof.
  intros Hw Hch Hs. unfold fat32_lookup. eapply (t_with_buffer rel); [done| |done]. intros buf _ _.
  eapply t_bind; [eapply t_mono; [by apply (read_dir_t img c l MAX_SCAN)|done|by intros i e [-> ?]]|].
  intros img0 es (-> & ->). cbn beta. change (Z.to_nat MAX_SCAN) with 512%nat. fold (find_entry name (take 512 (listing (dir_slots img l)))).
  destruct (find_entry name _); [by apply t_ok|by apply t_err].
Qed.
End ReadDir.
