(* ===== verification/Fat32Create.v ===== *)
(** * The FAT32 driver: creating a directory entry

    fat32_create_file_entry puts the new entry in the first slot that is free or
    past the end, or in a new cluster behind the directory, and changes nothing
    else; a lookup finds it. *)

From S2P Require Import Prelude Bytes Vfs BlockDev Fat32 IoLogic.
From S2P Require Import Fat32Proofs Fat32Chain Fat32Write Fat32Dir.

(** ** Slots that can be taken *)

Definition free_slot (s : list Z) : bool := (byte_at s 0 =? FAT_ENTRY_END) || (byte_at s 0 =? FAT_ENTRY_FREE).

Abbreviation taken := (Forall (fun s => free_slot s = false)).

Lemma taken_ends ss : taken ss -> ends ss = false.
Proof.
  induction 1 as [|s ss Hs _ IH]; simpl; [done|]. apply orb_false_iff in Hs as [-> _]. done.
Qed.

Lemma slots_from_app buf i n m :
  slots_from buf i (n + m) = slots_from buf i n ++ slots_from buf (i + Z.of_nat n) m.
Proof.
  unfold slots_from. rewrite Nat2Z.inj_add, seqZ_app by lia. by rewrite map_app.
Qed.

Lemma slots_from_length buf i n : length (slots_from buf i n) = n.
Proof. unfold slots_from. size. Qed.

Lemma find_slot_spec n : forall i buf,
  0 <= i -> (i + Z.of_nat n) * DIR_ENTRY_SIZE <= len buf ->
  runs_to (find_slot n i buf) (fun r => match r with
    | Some k => i <= k < i + Z.of_nat n /\ taken (slots_from buf i (Z.to_nat (k - i)))
    | None => taken (slots_from buf i n)
    end).
Proof.
  induction n as [|n IH]; intros i buf Hi Hn; cbn [find_slot]; [by constructor|]. unfold DIR_ENTRY_SIZE in *.
  replace (get8 buf (i * 32)) with (get8 buf (i * 32 + 0)) by (f_equal; lia). rewrite get8_slot by lia.
  cbn [mbind outcome_bind]. set (s := slice buf (i * 32) 32).
  destruct (_ || _) eqn:Hf.
  { cbn [runs_to]. split; [lia|]. rewrite Z.sub_diag. by constructor. }
  eapply runs_to_mono; [apply IH; lia|]. intros [k|].
  - intros [Hk Ht]. split; [lia|]. replace (Z.to_nat (k - i)) with (S (Z.to_nat (k - (i + 1)))) by lia.
    rewrite slots_from_S. by constructor.
  - intros Ht. rewrite slots_from_S. by constructor.
Qed.

(** A slot that is overwritten. *)
Lemma slots_from_splice_ne buf e k i n :
  0 <= k -> (k + 1) * 32 <= len buf -> len e = 32 -> 0 <= i -> i + Z.of_nat n <= k \/ k < i ->
  slots_from (splice buf (k * 32) e) i n = slots_from buf i n.
Proof.
  intros Hk Hb He Hi Hd. unfold slots_from, DIR_ENTRY_SIZE. apply map_ext_in. intros j Hj%list_elem_of_In.
  apply elem_of_seqZ in Hj. apply slice_splice_ne; lia.
Qed.

Lemma slots_from_splice buf e k n :
  0 <= k < Z.of_nat n -> Z.of_nat n * 32 <= len buf -> len e = 32 ->
  slots_from (splice buf (k * 32) e) 0 n =
    slots_from buf 0 (Z.to_nat k) ++ e :: slots_from buf (k + 1) (n - Z.to_nat k - 1).
Proof.
  intros Hk Hb He. replace n with (Z.to_nat k + S (n - Z.to_nat k - 1))%nat at 1 by lia.
  rewrite slots_from_app, slots_from_S. rewrite slots_from_splice_ne by lia. f_equal.
  rewrite Z.add_0_l, Z2Nat.id by lia. unfold DIR_ENTRY_SIZE. f_equal; [|apply slots_from_splice_ne; lia].
  rewrite <- He. apply slice_splice_eq; lia.
Qed.

Lemma slots_from_split buf k n :
  0 <= k < Z.of_nat n -> exists rest, slots_from buf 0 n = slots_from buf 0 (Z.to_nat k) ++ rest.
Proof.
  intros Hk. exists (slots_from buf k (n - Z.to_nat k)).
  replace n with (Z.to_nat k + (n - Z.to_nat k))%nat at 1 by lia. rewrite slots_from_app. do 2 f_equal. lia.
Qed.

(** ** The driver *)

Section Create.
Context {W : Type} `{OK : FsWorldOk W} {RL : Reliable W True}.
Context (fs : fat32_fs) (G : geom fs).

Abbreviation T := (triple (block_dev fs) (bytes_per_sector fs)).
Abbreviation bpc := (bytes_per_cluster fs).
Abbreviation whole := (whole fs).
Abbreviation epc := (entries_per_cluster fs).
Hint Resolve whole_fits : core.

(** The directory [l] gets the slot [e] behind slots that are taken. *)
Record created (dir : Z) (l l' e img img' : list Z) : Prop := {
  cr_frame : frame fs l l' [] img img';
  cr_chain : chain fs img' dir l';
  cr_slots : exists pre rest post, dir_slots fs img l = pre ++ rest /\ taken pre /\
    dir_slots fs img' l' = pre ++ e :: post /\
    (short_dir fs img l -> Forall (fun s => short_slot s = true) post)
}.

Lemma cluster_slots_frame img img' c :
  data fs img' c = data fs img c -> cluster_slots fs img' c = cluster_slots fs img c.
Proof. unfold cluster_slots. by intros ->. Qed.

Lemma dir_slots_frame img img' l :
  (forall c, c ∈ l -> data fs img' c = data fs img c) -> dir_slots fs img' l = dir_slots fs img l.
Proof.
  intros Heq. unfold dir_slots. f_equal. apply map_ext_in. intros c Hc. apply cluster_slots_frame, Heq.
  by apply list_elem_of_In.
Qed.

(** The entry is written in slot [k] of cluster [c] of the directory. *)
Lemma created_in dir l1 c l2 k e img img' :
  whole img -> chain fs img dir (l1 ++ c :: l2) -> len e = 32 -> 0 <= k < Z.of_nat epc ->
  taken (dir_slots fs img l1) -> taken (slots_from (data fs img c) 0 (Z.to_nat k)) ->
  set_data fs c (splice (data fs img c) (k * DIR_ENTRY_SIZE) e) img img' ->
  created dir (l1 ++ c :: l2) (l1 ++ c :: l2) e img img'.
Proof.
  intros Hw Hch He Hk Ht1 Ht2 D. pose proof (chain_NoDup fs G _ _ _ Hch) as Hnd.
  apply NoDup_app in Hnd as (_ & Hn1 & Hn2). apply NoDup_cons in Hn2 as [Hn2 _].
  assert (Hval : forall x, x ∈ l1 ++ c :: l2 -> valid fs x) by (intros x; by apply (chain_valid fs img dir)).
  assert (Hc : valid fs c) by (apply Hval; set_solver).
  pose proof (len_data fs G img c Hw Hc) as Hl. pose proof (slots_fit fs G) as Hfit. unfold DIR_ENTRY_SIZE in *.
  destruct (slots_from_split (data fs img c) k epc Hk) as [rest Erest].
  assert (Hsame : forall ls, (forall x, x ∈ ls -> x ∈ l1 ++ c :: l2 /\ x <> c) -> dir_slots fs img' ls = dir_slots fs img ls).
  { intros ls Hls. apply dir_slots_frame. intros x Hx. destruct (Hls x Hx) as [Hin Hne].
    rewrite (sd_data _ _ _ _ _ D) by auto. by rewrite (proj2 (Z.eqb_neq _ _) Hne). }
  constructor.
  - eapply (frame_set_data fs G); [|exact D]. left. set_solver.
  - eapply (chain_frame fs); [|exact Hch]. intros y Hy Hvy. by apply (set_data_next fs G _ _ _ _ _ D).
  - exists (dir_slots fs img l1 ++ slots_from (data fs img c) 0 (Z.to_nat k)), (rest ++ dir_slots fs img l2),
      (slots_from (data fs img c) (k + 1) (epc - Z.to_nat k - 1) ++ dir_slots fs img l2). split_and!.
    + rewrite dir_slots_app, dir_slots_cons. unfold cluster_slots. rewrite Erest. by rewrite <- !app_assoc.
    + by apply Forall_app_2.
    + rewrite dir_slots_app, dir_slots_cons. rewrite (Hsame l1), (Hsame l2).
      * unfold cluster_slots. rewrite (sd_data _ _ _ _ _ D), Z.eqb_refl by done.
        rewrite slots_from_splice by (try done; lia). by rewrite <- !app_assoc.
      * intros x Hx. split; [set_solver|]. by intros ->.
      * intros x Hx. split; [set_solver|]. intros ->. apply (Hn1 c Hx). left.
    + unfold short_dir. rewrite dir_slots_app, dir_slots_cons, !Forall_app. intros (_ & Hs & Hs2). split; [|done].
      unfold cluster_slots in Hs. replace epc with (Z.to_nat k + S (epc - Z.to_nat k - 1))%nat in Hs by lia.
      rewrite slots_from_app, slots_from_S in Hs. apply Forall_app in Hs as [_ Hs]. inversion Hs as [|? ? _ Hs'].
      by replace (0 + Z.of_nat (Z.to_nat k) + 1) with (k + 1) in Hs' by lia.
Qed.

(** The walk over the clusters [l2] that are left of [l1 ++ l2]. *)
Lemma create_loop_t n : forall img dir l1 c l2 lst (e buf : list Z),
  whole img -> chain fs img dir (l1 ++ l2) -> chain fs img c l2 -> (length l2 <= n)%nat ->
  len e = 32 -> Forall byte_ok e -> len buf = bpc -> taken (dir_slots fs img l1) ->
  (l2 = [] -> last l1 = Some lst) ->
  T img (create_loop n fs c lst e buf)
    (fun img' r => match r with
       | inl _ => created dir (l1 ++ l2) (l1 ++ l2) e img img'
       | inr (x, b) => img' = img /\ len b = bpc /\ taken (dir_slots fs img (l1 ++ l2)) /\ last (l1 ++ l2) = Some x
       end) (fun _ _ => False).
Proof.
  induction n as [|n IH]; intros img dir l1 c [|x l2] lst e buf Hw Hch Hc Hn He Hby Hb Ht Hlast; cbn [create_loop].
  1, 3: destruct Hc as (d & <- & Hd); rewrite ?(eoc_not_in_chain _ Hd); apply t_ok; rewrite app_nil_r; auto.
  { simpl in Hn. lia. }
  destruct (chain_cons fs img c x l2 Hc) as (-> & Hv & Hch' & _). rewrite (valid_in_chain fs G c Hv). cbn [negb].
  apply t_bytes. intros Himg.
  eapply t_bind; [eapply t_mono; [apply (read_cluster_t True fs G); auto|done|by intros i x [_ []]]|].
  intros img0 b (-> & -> & Hlb). cbn beta. pose proof (slots_fit fs G) as Hfit.
  pose proof (find_slot_spec epc 0 (data fs img c) ltac:(lia) ltac:(lia)) as Hslot.
  apply runs_to_inv in Hslot as (r & Er & Hr). eapply t_bind_lift; [exact Er|]. destruct r as [k|].
  - destruct Hr as [Hk Htk]. rewrite Z.sub_0_r in Htk. unfold DIR_ENTRY_SIZE in *.
    eapply t_bind_lift; [apply mem_write_splice; lia|].
    eapply t_bind; [eapply t_mono; [apply (write_cluster_t True fs G); auto|done|by intros i x [_ []]]|].
    + rewrite len_splice; lia.
    + apply splice_Forall; [by apply slice_Forall|done].
    + intros img1 [] D. apply t_ok. by eapply (created_in dir l1 c l2 k).
  - assert (El : l1 ++ c :: l2 = (l1 ++ [c]) ++ l2) by (by rewrite <- app_assoc).
    eapply t_bind; [eapply t_mono; [apply (read_fat_entry_t True fs G); auto|done|by intros i x [_ []]]|].
    intros img0 v (-> & ->). cbn beta. fold (next_of fs img c). rewrite El in Hch |- *.
    apply IH; try done; [simpl in Hn; lia| |by rewrite last_snoc].
    rewrite dir_slots_app. apply Forall_app_2; [done|]. rewrite dir_slots_cons, app_nil_r. done.
Qed.

Lemma zero_slots_short n i m :
  0 <= i -> Forall (fun s => short_slot s = true) (slots_from (zeros n) i m).
Proof.
  intros Hi. unfold slots_from. apply Forall_fmap, Forall_forall. intros k Hk. apply elem_of_seqZ in Hk. simpl.
  assert (Hz : slot_attr (slice (zeros n) (k * DIR_ENTRY_SIZE) DIR_ENTRY_SIZE) = 0); [|by unfold short_slot; rewrite Hz].
  unfold slot_attr, byte_at, DIR_ENTRY_SIZE. rewrite slice_lookup by lia. unfold zeros.
  destruct (replicate (Z.to_nat n) 0 !! Z.to_nat (k * 32 + 11)) as [v|] eqn:Ev; [|done].
  by apply lookup_replicate in Ev as [-> _].
Qed.

(** The directory is full: the entry is the first slot of a new cluster. *)
Lemma created_append dir l x r e img img1 img2 img3 :
  whole img -> chain fs img dir (l ++ [x]) -> len e = 32 -> taken (dir_slots fs img (l ++ [x])) ->
  valid fs r -> next_of fs img r = FAT32_FREE -> set_entry fs r FAT32_EOC img img1 -> set_entry fs x r img1 img2 ->
  set_data fs r (splice (zeros bpc) 0 e) img2 img3 -> created dir (l ++ [x]) (l ++ [x; r]) e img img3.
Proof.
  intros Hw Hch He Ht Hr Hfree S1 S2 D. pose proof (bpc_big fs G) as Hbig. pose proof (slots_fit fs G) as Hfit.
  pose proof (chain_link fs G img img1 img2 dir l x r Hch Hr Hfree S1 S2) as Hch2.
  assert (Hepc : (0 < epc)%nat).
  { unfold entries_per_cluster. assert (0 < bpc / DIR_ENTRY_SIZE) by (apply Z.div_str_pos; unfold DIR_ENTRY_SIZE; lia). lia. }
  constructor.
  - eapply (frame_trans fs G); [by eapply (frame_link fs G)|eapply (frame_set_data fs G); [|exact D]; left; set_solver|].
    intros y Hy. by eapply (chain_nonfree fs).
  - eapply (chain_frame fs); [|exact Hch2]. intros y Hy Hvy. by apply (set_data_next fs G _ _ _ _ _ D).
  - exists (dir_slots fs img (l ++ [x])), [], (slots_from (zeros bpc) 1 (epc - 1)). split_and!.
    + by rewrite app_nil_r.
    + done.
    + change (l ++ [x; r]) with (l ++ [x] ++ [r]). rewrite app_assoc, dir_slots_app. f_equal.
      * apply dir_slots_frame. intros c Hc. pose proof (chain_valid fs img _ _ c Hch Hc) as Hvc.
        rewrite (sd_data _ _ _ _ _ D), (proj2 (Z.eqb_neq c r)) by (try done; intros ->; by apply (chain_nonfree fs img _ _ r Hch Hc)).
        by rewrite (fst_data _ _ _ _ _ _ _ S2), (fst_data _ _ _ _ _ _ _ S1) by done.
      * rewrite dir_slots_cons, app_nil_r. unfold cluster_slots.
        rewrite (sd_data _ _ _ _ _ D), Z.eqb_refl by done. change 0 with (0 * 32) at 1.
        rewrite slots_from_splice by (try done; try (rewrite len_zeros by lia); unfold DIR_ENTRY_SIZE in *; lia).
        simpl. by rewrite Nat.sub_0_r.
    + intros _. apply zero_slots_short. lia.
Qed.

Lemma create_file_entry_t img dir l name n83 e83 :
  whole img -> chain fs img dir l -> l <> [] -> fat32_name_to_83 name = Ok (n83, e83) ->
  let e := new_entry n83 e83 FAT_ATTR_ARCHIVE in
  len e = 32 -> Forall byte_ok e ->
  T img (fat32_create_file_entry fs dir name)
    (fun img' _ => exists l', created dir l l' e img img')
    (fun img' r => img' = img /\ r = - ENOSPC /\ full fs img).
Proof.
  intros Hw Hch Hne Hn e He Hby. unfold fat32_create_file_entry. rewrite Hn.
  eapply (t_bind _ _ _ _ _ (fun i a => i = img /\ a = (n83, e83))); [by apply t_ok|].
  intros img0 a [-> ->]. cbn beta match zeta. fold e. pose proof (bpc_big fs G) as Hbig.
  eapply (t_with_buffer True); [lia| |done]. intros buf Hb _.
  pose proof (chain_length fs G img dir l Hch) as Hlen. pose proof (g_clusters _ G) as Hcl. unfold FAT32_BAD in Hcl.
  rewrite u32_id by lia.
  eapply t_bind.
  { eapply t_mono; [apply (create_loop_t _ img dir [] dir l); try done; unfold len in Hlen; lia|done|done]. }
  intros img1 [place|[x b]].
  - intros Hcr. apply t_ok. eauto.
  - intros (-> & Hlb & Ht & Hlast). simpl in Ht, Hlast. apply last_Some in Hlast as [l0 ->].
    assert (Hx : valid fs x) by (eapply (chain_valid fs); [exact Hch|set_solver]).
    eapply t_bind; [eapply t_mono; [apply (extend_chain_t True fs G); auto|done|by intros i r [_ Hr]; apply Hr]|].
    intros img2 r (Hr & Hfree & img1 & S1 & S2). cbn beta. change (replicate (Z.to_nat bpc) 0) with (zeros bpc).
    eapply t_bind_lift; [apply mem_write_splice; [lia|rewrite len_zeros by lia; lia]|].
    assert (Hw2 : whole img2).
    { eapply (whole_len fs); [|exact Hw]. by rewrite (fst_len _ _ _ _ _ _ _ S2), (fst_len _ _ _ _ _ _ _ S1). }
    eapply t_bind_attempt; [apply (write_cluster_t True fs G); auto| |by intros i e' [_ []]].
    + rewrite len_splice; rewrite ?len_zeros by lia; lia.
    + apply splice_Forall; [apply zeros_bytes|done].
    + intros img3 [] D. cbn match. apply t_ok. exists (l0 ++ [x; r]). by eapply created_append.
Qed.

(** ** Finding the new entry *)

Lemma find_entry_app name es fs' :
  find_entry name es = None -> find_entry name (es ++ fs') = find_entry name fs'.
Proof. unfold find_entry. induction es as [|e es IH]; simpl; [done|]. by destruct (names_match _ _). Qed.

Lemma find_entry_prefix name es fs' : find_entry name (es ++ fs') = None -> find_entry name es = None.
Proof. unfold find_entry. induction es as [|e es IH]; simpl; [done|]. by destruct (names_match _ _). Qed.

(** The slot of a new entry: in use, short, with the name in upper case. *)
Record new_slot (name e : list Z) : Prop := {
  ns_live : live_slot e = true;
  ns_not_end : (byte_at e 0 =? FAT_ENTRY_END) = false;
  ns_short : short_slot e = true;
  ns_entry : slot_entry e = mkentry (map to_upper name) 0 0 FAT_ATTR_ARCHIVE false
}.

Lemma created_found dir l l' name e img img' :
  created dir l l' e img img' -> new_slot name e ->
  find_entry name (listing (dir_slots fs img l)) = None -> len (listing (dir_slots fs img l)) < 512 ->
  find_entry name (take 512 (listing (dir_slots fs img' l'))) = Some (mkentry (map to_upper name) 0 0 FAT_ATTR_ARCHIVE false).
Proof.
  intros [_ _ (pre & rest & post & E1 & Ht & E2 & _)] [Hlive Hend _ Hentry] Hnone Hcount.
  rewrite E1 in Hnone, Hcount. rewrite listing_app in Hnone, Hcount by (by apply taken_ends).
  apply find_entry_prefix in Hnone. rewrite E2, listing_app by (by apply taken_ends).
  assert (Hl : (length (listing pre) < 512)%nat) by (unfold len in *; rewrite length_app in Hcount; lia).
  rewrite take_app_ge by lia. rewrite find_entry_app by done.
  replace (512 - length (listing pre))%nat with (S (511 - length (listing pre))) by lia.
  unfold listing at 2. cbn [before_end]. rewrite Hend. cbn [List.filter]. rewrite Hlive. cbn [map take].
  unfold find_entry. cbn [List.find]. rewrite Hentry. cbn [e_name]. by rewrite names_match_upper.
Qed.

Lemma created_short dir l l' name e img img' :
  created dir l l' e img img' -> new_slot name e -> short_dir fs img l -> short_dir fs img' l'.
Proof.
  intros [_ _ (pre & rest & post & E1 & Ht & E2 & Hpost)] [_ _ Hs _] Hshort. specialize (Hpost Hshort).
  unfold short_dir in *. rewrite E1 in Hshort. apply Forall_app in Hshort as [Hpre _]. rewrite E2.
  apply Forall_app_2; [done|]. by constructor.
Qed.
End Create.

(** ** New entries *)

Lemma list_8 {A} (l : list A) : length l = 8%nat -> exists a b c d e f g h, l = [a; b; c; d; e; f; g; h].
Proof. intros Hl. do 9 (destruct l as [|? l]; [try done|]); [eauto 10|done]. Qed.

Lemma list_3 {A} (l : list A) : length l = 3%nat -> exists a b c, l = [a; b; c].
Proof. intros Hl. do 4 (destruct l as [|? l]; [try done|]); [eauto|done]. Qed.

(** The fields of a new entry. *)
Lemma new_entry_fields n83 e83 :
  length n83 = 8%nat -> length e83 = 3%nat ->
  let e := new_entry n83 e83 FAT_ATTR_ARCHIVE in
  slot_attr e = FAT_ATTR_ARCHIVE /\ byte_at e 0 = default 0 (head n83) /\
  slot_entry e = mkentry (c_string (fat32_parse_83_name n83 e83 FAT_LFN_MAX)) 0 0 FAT_ATTR_ARCHIVE false.
Proof.
  intros H8 H3. apply list_8 in H8 as (a & b & c & d & e & f & g & h & ->).
  apply list_3 in H3 as (x & y & z & ->). done.
Qed.

Lemma c_string_nonzero s : Forall (fun c => c <> 0) s -> c_string s = s.
Proof. induction 1 as [|c s Hc _ IH]; simpl; [done|]. by rewrite (proj2 (Z.eqb_neq _ _) Hc), IH. Qed.

Lemma to_upper_nonzero c : c <> 0 -> to_upper c <> 0.
Proof. unfold to_upper. destruct (Z.leb_spec 97 c), (Z.leb_spec c 122); simpl; lia. Qed.

(** A name the driver can store: no terminator inside, and not a first
    character that marks a deleted entry. *)
Record storable (name : list Z) : Prop := {
  sn_bytes : Forall byte_ok name;
  sn_canonical : canonical name;
  sn_nonzero : Forall (fun c => c <> 0) name;
  sn_first : forall c, head name = Some c -> to_upper c <> FAT_ENTRY_FREE
}.

(** What fat32_name_to_83 returns, field by field. *)
Lemma name_to_83_shape name n83 e83 :
  fat32_name_to_83 name = Ok (n83, e83) ->
  length n83 = 8%nat /\ length e83 = 3%nat /\ exists c, head name = Some c /\ head n83 = Some (to_upper c).
Proof.
  unfold fat32_name_to_83.
  destruct (match split_last_dot name with Some (b, e) => (b, e) | None => (name, []) end) as [b x] eqn:Es.
  destruct (_ || _) eqn:H8; [done|]. apply orb_false_iff in H8 as [H0 H8]. apply Z.ltb_ge in H8. apply Z.eqb_neq in H0.
  destruct (Z.ltb_spec 3 (len x)) as [|H3]; [done|]. intros [= <- <-]. unfold pad. unfold len in *.
  split; [size|]. split; [size|]. destruct b as [|c b]; [done|]. exists c. split; [|done].
  destruct (split_last_dot name) as [[b' x']|] eqn:Ed; simplify_eq; [|done].
  apply split_last_dot_app in Ed. by rewrite Ed.
Qed.

Lemma new_entry_slot name n83 e83 :
  fat32_name_to_83 name = Ok (n83, e83) -> storable name -> new_slot name (new_entry n83 e83 FAT_ATTR_ARCHIVE).
Proof.
  intros Hn [Hby Hcan Hnz Hfirst]. destruct (name_to_83_shape _ _ _ Hn) as (H8 & H3 & c & Hc & Hhead).
  destruct (new_entry_fields n83 e83 H8 H3) as (Ha & H0 & He). rewrite Hhead in H0. simpl in H0.
  assert (Hc0 : to_upper c <> 0).
  { apply to_upper_nonzero. destruct name; [done|]. injection Hc as ->. by inversion Hnz. }
  constructor.
  - unfold live_slot. rewrite H0, Ha, (proj2 (Z.eqb_neq _ _) (Hfirst c Hc)). done.
  - rewrite H0. by apply Z.eqb_neq.
  - unfold short_slot. by rewrite Ha.
  - rewrite He, (name_83_roundtrip name) by done. f_equal. apply c_string_nonzero.
    apply Forall_fmap. eapply Forall_impl; [exact Hnz|]. apply to_upper_nonzero.
Qed.
