(* ===== verification/Fat32Theorems.v ===== *)
(** * The FAT32 driver: mounting and theorems

    What fat32_mount takes from the boot sector, when it refuses it, and that a
    boot sector whose numbers fit together gives the geometry ([geom]) the other
    theorems start from.  The driver itself checks the signature and the number
    of clusters only. *)

From S2P Require Import Prelude Vfs Bytes BlockDev Fat32 IoLogic Fat32Proofs Fat32Chain Fat32Write Fat32File Fat32Safety Fat32Dir Fat32Create.

(** ** The boot sector *)

Record bpb := mkbpb {
  p_signature : Z; p_bps : Z; p_spc : Z; p_reserved : Z; p_fats : Z; p_total : Z; p_fat_size : Z; p_root : Z
}.

Definition bpb_of (boot : list Z) : bpb :=
  let f16 := fun o => le_value (slice boot o 2) in
  let f32 := fun o => le_value (slice boot o 4) in
  let f8 := fun o => default 0 (boot !! Z.to_nat o) in
  mkbpb (f16 510) (f16 11) (f8 13) (f16 14) (f8 16) (if negb (f16 19 =? 0) then f16 19 else f32 32) (f32 36) (f32 44).

Definition p_data_start (p : bpb) : Z := u32 (p_reserved p + u32 (p_fats p * p_fat_size p)).
Definition p_clusters (p : bpb) : Z := u32 (p_total p - p_data_start p) / p_spc p.

(** The numbers fit together: the sectors are those of the device, the areas
    follow each other within the volume and the table has all the entries. *)
Record bpb_sane (block_size : Z) (p : bpb) : Prop := {
  s_bps : p_bps p = block_size;
  s_fats : 0 < p_fats p;
  s_areas : p_reserved p + p_fats p * p_fat_size p <= p_total p;
  s_table : 4 * (p_clusters p + 2) <= p_fat_size p * p_bps p;
  s_count : p_clusters p <= FAT32_BAD - 2
}.

(** The widths of the fields. *)
Record bpb_typed (p : bpb) : Prop := {
  b_bps : 0 <= p_bps p < 2 ^ 16; b_spc : 0 <= p_spc p < 2 ^ 8; b_reserved : 0 <= p_reserved p < 2 ^ 16;
  b_fats : 0 <= p_fats p < 2 ^ 8; b_total : 0 <= p_total p < 2 ^ 32; b_fat_size : 0 <= p_fat_size p < 2 ^ 32;
  b_root : 0 <= p_root p < 2 ^ 32
}.

Lemma value16_range (buf : list Z) off :
  Forall byte_ok buf -> 0 <= off -> off + 2 <= len buf -> 0 <= le_value (slice buf off 2) < 2 ^ 16.
Proof.
  intros Hb H1 H2. pose proof (le_value_range (slice buf off 2) (slice_Forall _ _ _ _ Hb)) as Hr.
  rewrite len_slice in Hr by lia. exact Hr.
Qed.

Lemma byte_range (buf : list Z) off : Forall byte_ok buf -> 0 <= default 0 (buf !! Z.to_nat off) < 2 ^ 8.
Proof.
  intros Hb. destruct (buf !! Z.to_nat off) as [x|] eqn:Hx; simpl; [|lia].
  rewrite Forall_lookup in Hb. specialize (Hb _ _ Hx). exact Hb.
Qed.

Lemma bpb_of_typed boot : Forall byte_ok boot -> 512 <= len boot -> bpb_typed (bpb_of boot).
Proof.
  intros Hb Hl. constructor; simpl; try (apply value16_range; (done || lia)); try (by apply byte_range);
    try (apply value32_range; (done || lia)).
  destruct (negb _); [pose proof (value16_range boot 19 Hb ltac:(lia) ltac:(lia)); lia|apply value32_range; (done || lia)].
Qed.

(** The file system the driver makes of it. *)
Definition fs_of (d : Z) (p : bpb) : fat32_fs :=
  mkfat d (p_bps p) (p_spc p) (p_bps p * p_spc p) (p_reserved p) (p_fats p) (p_fat_size p) (p_root p) (p_total p)
    (p_data_start p) (p_clusters p).

Lemma fs_of_geom d b p :
  bpb_typed p -> bpb_sane b p -> 512 <= b < 2 ^ 16 -> b mod 32 = 0 -> p_spc p <> 0 -> geom (fs_of d p).
Proof.
  intros [T1 T2 T3 T4 T5 T6 T7] [S1 S2 S3 S4 S5] Hb H32 Hspc.
  assert (0 <= p_fats p * p_fat_size p) by nia.
  assert (Eds : p_data_start p = p_reserved p + p_fats p * p_fat_size p)
    by (unfold p_data_start; rewrite (u32_id (_ * _)), u32_id by lia; done).
  assert (Ecl : p_clusters p = (p_total p - p_data_start p) / p_spc p)
    by (unfold p_clusters; rewrite u32_id by lia; done).
  pose proof (Z.div_pos (p_total p - p_data_start p) (p_spc p) ltac:(lia) ltac:(lia)).
  pose proof (Z.mul_div_le (p_total p - p_data_start p) (p_spc p) ltac:(lia)).
  constructor; simpl; rewrite ?S1; try done; try lia; nia.
Qed.

(** ** The operation *)

Section Mount.
Context {W : Type} `{OK : FsWorldOk W} {RL : Reliable W True}.

Lemma get8_default (buf : list Z) off : 0 <= off < len buf -> get8 buf off = Ret (default 0 (buf !! Z.to_nat off)).
Proof. intros Ho. destruct (aget_in_bounds buf off Ho) as (x & Hx & Hl). unfold get8. by rewrite Hx, Hl. Qed.

Lemma mount_t (device : list Z) w d :
  w_find device w = Some d -> 512 <= w_block_size d w -> w_block_size d w <= len (image d w) ->
  let p := bpb_of (slice (image d w) 0 (w_block_size d w)) in
  p_spc p <> 0 ->
  runs_to (fat32_mount device w) (fun '(w', r) => image d w' = image d w /\
    match r with
    | Ok (_, fs) => p_signature p = 0xAA55 /\ 65525 <= p_clusters p /\ fs = fs_of d p
    | Err e => e = - EINVAL /\ (p_signature p <> 0xAA55 \/ p_clusters p < 65525)
    end).
Proof.
  intros Hfind Hbs Hdev p Hspc. unfold fat32_mount. rewrite Hfind.
  set (b := w_block_size d w) in *. set (img := image d w) in *.
  set (Q := fun (i : list Z) (r : Z * fat32_fs) => i = img /\ p_signature p = 0xAA55 /\ 65525 <= p_clusters p /\ r.2 = fs_of d p).
  set (E := fun (i : list Z) (e : Z) => i = img /\ e = - EINVAL /\ (p_signature p <> 0xAA55 \/ p_clusters p < 65525)).
  match goal with |- runs_to (?m w) _ => assert (HT : triple d b img m Q E) end; cycle 1.
  { eapply runs_to_mono; [by apply HT|]. intros [w' [[q fs]|e]] [_ Hr]; cbn beta iota in Hr |- *.
    - destruct Hr as (-> & Hr). done.
    - destruct Hr as (-> & Hr). done. }
  eapply (t_with_buffer True); [lia| |done]. intros boot Hboot _.
  eapply (t_bind _ _ _ _ _ (fun i bt => i = img /\ bt = slice img 0 b)).
  { eapply (t_read_blocks True); [lia|lia|lia|intros Hr; by rewrite Z.mul_1_l|]. intros e Hsh. specialize (Hsh I). lia. }
  intros img0 bt (-> & ->). set (boot0 := slice img 0 b) in *.
  assert (Hl0 : len boot0 = b) by (apply len_slice; lia).
  eapply t_bind_lift; [apply get16_ok; lia|]. change (le_value (slice boot0 510 2)) with (p_signature p).
  destruct (Z.eqb_spec (p_signature p) 0xAA55) as [Hsig|Hsig]; cbn [negb]; [|apply t_err; split_and!; auto].
  eapply (t_with_object True); [done| |done]. intros q.
  eapply t_bind_lift; [apply get16_ok; lia|]. eapply t_bind_lift; [apply get8_default; lia|].
  eapply t_bind_lift; [apply get16_ok; lia|]. eapply t_bind_lift; [apply get8_default; lia|].
  eapply t_bind_lift; [apply get16_ok; lia|]. eapply t_bind_lift; [apply get32_ok; lia|].
  eapply t_bind_lift; [apply get32_ok; lia|]. eapply t_bind_lift; [apply get32_ok; lia|].
  cbv zeta. change (default 0 (boot0 !! Z.to_nat 13)) with (p_spc p).
  rewrite (proj2 (Z.eqb_neq _ _) Hspc).
  match goal with |- context [?n <? 65525] => change n with (p_clusters p) end.
  destruct (Z.ltb_spec (p_clusters p) 65525); [apply t_err; split_and!; auto|]. by apply t_ok.
Qed.
End Mount.

(** * The FAT32 driver: theorems

    The properties of core/fs/fat32.c, each for any world that satisfies the
    interface of BlockDev.v, and their instances on a small volume on a RAM
    disk: six clusters of 512 bytes, two copies of the table, a root directory
    in cluster 2 with the file A.TXT of 600 bytes in clusters 3 and 5. *)

(** ** A volume *)

Definition fs0 : fat32_fs := mkfat 0 512 1 512 1 2 1 2 9 3 6.

Lemma fs0_geom : geom fs0.
Proof. constructor; vm_compute; intuition congruence. Qed.

(** Entries 2 to 7: the root directory, A.TXT in clusters 3 and 5. *)
Definition table0 : list Z :=
  concat (map (le_bytes 4) [FAT32_EOC; FAT32_MASK; FAT32_EOC; 5; 0; FAT32_MASK; 0; 0]).

Definition text (n k : Z) : list Z := map (fun i => 65 + (i + k) mod 26) (seqZ 0 n).

Lemma text_bytes n k : Forall byte_ok (text n k).
Proof.
  apply Forall_fmap, Forall_true. intros i. unfold byte_ok. simpl.
  pose proof (Z.mod_pos_bound (i + k) 26 ltac:(lia)). lia.
Qed.

(** "A       TXT", attribute, first cluster 3, 600 bytes. *)
Definition slot0 : list Z :=
  splice (splice (new_entry (pad 8 [65]) (pad 3 [84; 88; 84]) FAT_ATTR_ARCHIVE) 26 (le_bytes 2 3)) 28 (le_bytes 4 600).

Definition img0 : list Z :=
  splice (splice (splice (splice (splice (zeros 4608) 512 table0) 1024 table0) 1536 slot0) 2048 (text 512 0)) 3072 (text 512 18).

Definition w0 : ram_world := mkram [] img0 100.
Definition fh0 : fat32_file_handle := mkfhandle 3 600 2 2 0.

Lemma img0_image : image (block_dev fs0) w0 = img0.
Proof. vm_compute. reflexivity. Qed.

Lemma img0_whole : whole fs0 img0.
Proof. vm_compute. discriminate. Qed.

Lemma chain0 : chain fs0 img0 3 [3; 5].
Proof. exists FAT32_MASK. split; [|done]. vm_compute. intuition congruence. Qed.

Lemma dir0 : chain fs0 img0 2 [2].
Proof. exists FAT32_EOC. split; [|done]. vm_compute. intuition congruence. Qed.

Lemma file0 : file fs0 img0 fh0 [3; 5].
Proof. constructor; [split; [done|apply chain0]|vm_compute; intuition congruence|vm_compute; congruence]. Qed.

Lemma dirent0 : dirent fs0 img0 fh0 [3; 5].
Proof. constructor; [vm_compute; intuition congruence|vm_compute; congruence|set_solver|vm_compute; intuition congruence|vm_compute; congruence|vm_compute; congruence]. Qed.

(** ** Sessions

    Any sequence of calls on one open file and on paths; the results of calls
    that fail are ignored, as a careless client would. *)

Inductive call :=
| COpen (path : list Z) (flags : Z) | CClose | CRead (count : Z) | CWrite (src : list Z)
| CSeek (offset whence : Z) | CReaddir (path : list Z) (max : Z) | CStat (path : list Z)
| CMkdir (path : list Z) | CRmdir (path : list Z) | CUnlink (path : list Z).

Definition call_ok (c : call) : Prop :=
  match c with
  | COpen p _ | CMkdir p | CRmdir p | CUnlink p => path_ok p
  | CRead n => 0 <= n
  | CWrite src => Forall byte_ok src
  | CClose | CSeek _ _ | CReaddir _ _ | CStat _ => True
  end.

Section Sessions.
Context {W : Type} `{FW : FsWorld W}.

(** The open file: address and contents of the handle, and the position. *)
Definition session : Type := option (Z * fat32_file_handle) * Z.

Definition ignore {A} (s : session) (m : io W A) : io W session := bind (attempt m) (fun _ => ok s).

Definition do_call (fs : fat32_fs) (s : session) (c : call) : io W session :=
  let '(h, pos) := s in
  match c with
  | COpen p flags =>
      bind (attempt (fat32_vfs_open fs p flags)) (fun r =>
      ok (match r with Ok (a, fh, pos) => (Some (a, fh), pos) | Err _ => s end))
  | CClose => bind (fat32_vfs_close (match h with Some (a, _) => a | None => 0 end)) (fun _ => ok (None, 0))
  | CRead n =>
      bind (attempt (fat32_vfs_read fs (snd <$> h) pos n)) (fun r =>
      ok (h, match r with Ok (_, pos) => pos | Err _ => pos end))
  | CWrite src =>
      bind (fat32_vfs_write fs (snd <$> h) pos src) (fun '(fh, pos, _) =>
      ok (match h, fh with Some (a, _), Some fh => Some (a, fh) | _, _ => h end, pos))
  | CSeek offset whence => ok (h, match fat32_vfs_seek (snd <$> h) pos offset whence with Ok p => p | Err _ => pos end)
  | CReaddir p n => ignore s (fat32_vfs_readdir fs p n)
  | CStat p => ignore s (fat32_vfs_stat fs p)
  | CMkdir p => ignore s (fat32_vfs_mkdir fs p)
  | CRmdir p => ignore s (fat32_vfs_rmdir fs p)
  | CUnlink p => ignore s (fat32_vfs_unlink fs p)
  end.

Fixpoint do_calls (fs : fat32_fs) (s : session) (cs : list call) : io W session :=
  match cs with [] => ok s | c :: cs' => bind (do_call fs s c) (fun s => do_calls fs s cs') end.
End Sessions.

Section SessionSafe.
Context {W : Type} `{OK : FsWorldOk W} (fs : fat32_fs) (G : geom fs).

Definition session_ok (s : session) : Prop := forall a fh, s.1 = Some (a, fh) -> handle_ok fs fh.

Lemma ignore_safe {A} (P : A -> Prop) s m : session_ok s -> safe (W := W) fs P m -> safe fs session_ok (ignore s m).
Proof. intros Hs Hm. eapply safe_bind; [by apply safe_attempt|]. intros _ _. by apply safe_ok. Qed.

Lemma vfs_close_safe a : safe (W := W) fs any (fat32_vfs_close a).
Proof.
  intros img w Hi Hb. cbn. split; [|done]. destruct (a =? 0); [done|].
  by destruct (kfree_law (block_dev fs) a w) as [_ ->].
Qed.

Lemma do_call_safe s c : session_ok s -> call_ok c -> safe (W := W) fs session_ok (do_call fs s c).
Proof.
  intros Hs Hc. destruct s as [h pos].
  assert (Hh : forall fh, snd <$> h = Some fh -> handle_ok fs fh).
  { intros fh Hfh. destruct h as [[a fh']|]; [|done]. injection Hfh as <-. by apply (Hs a). }
  destruct c; simpl in Hc; cbn [do_call].
  - eapply safe_bind; [apply safe_attempt; by apply vfs_open_safe|].
    intros [[[a fh] p]|e] Hr; apply safe_ok; [|done]. by intros ? ? [= <- <-].
  - eapply safe_bind; [apply vfs_close_safe|]. intros _ _. by apply safe_ok.
  - eapply safe_bind; [apply safe_attempt; by apply vfs_read_safe|]. intros r _. by apply safe_ok.
  - eapply safe_bind; [by apply vfs_write_safe|]. intros [[fh p] v] Hr. apply safe_ok. simpl in Hr.
    destruct h as [[a fh']|], fh as [fh|]; try done. intros ? ? [= <- <-]. by apply Hr.
  - by apply safe_ok.
  - eapply ignore_safe; [done|by apply vfs_readdir_safe].
  - eapply ignore_safe; [done|by apply vfs_stat_safe].
  - eapply ignore_safe; [done|by apply vfs_mkdir_safe].
  - eapply ignore_safe; [done|by apply vfs_rmdir_safe].
  - eapply ignore_safe; [done|by apply vfs_unlink_safe].
Qed.

End SessionSafe.


(** ** The table *)

Section Reliable.
Context {W : Type} `{OK : FsWorldOk W} {RL : Reliable W True}.
Context (fs : fat32_fs) (G : geom fs).
Abbreviation T := (triple (W := W) (block_dev fs) (bytes_per_sector fs)).

(** fat32_write_fat_entry stores the value in the entry of the cluster in
    every copy of the table and changes no other entry and no cluster;
    fat32_read_fat_entry then reads the new value there, and at any other cluster
    the value it had. *)
Theorem fat_entry_write_read img c v c' :
  whole fs img -> valid fs c -> valid fs c' -> 0 <= v < 2 ^ 28 ->
  T img (bind (fat32_write_fat_entry fs c v) (fun _ => fat32_read_fat_entry fs c'))
    (fun img' r => r = (if c' =? c then v else fat fs img 0 c') /\ len img' = len img /\
       (forall i x, 0 <= i < num_fats fs -> valid fs x ->
          fat fs img' i x = if x =? c then v else fat fs img i x) /\
       (forall x, valid fs x -> data fs img' x = data fs img x))
    (fun _ _ => False).
Proof.
  intros Hw Hc Hc' Hv. assert (Hm : Z.land v FAT32_MASK = v).
  { change FAT32_MASK with (Z.ones 28). rewrite Z.land_ones by lia. by apply Z.mod_small. }
  eapply t_bind.
  { eapply t_mono; [by apply (write_fat_entry_t True fs G); [apply whole_fits|]|done|by intros i e [_ []]]. }
  intros img1 [] Hset. cbn beta. rewrite Hm in Hset.
  assert (Hf : forall i x, 0 <= i < num_fats fs -> valid fs x -> fat fs img1 i x = if x =? c then v else fat fs img i x).
  { intros i x Hi Hx. rewrite (fst_fat _ _ _ _ _ _ _ Hset) by done.
    by destruct (Z.leb_spec 0 i), (Z.ltb_spec i (num_fats fs)); try lia. }
  eapply t_mono; [apply (read_fat_entry_t True fs G); [|done]|..|by intros i e [_ []]].
  - apply whole_fits. by apply (whole_len fs _ _ (fst_len _ _ _ _ _ _ _ Hset)).
  - intros i r (-> & ->). split_and!; [|apply Hset|done|apply Hset].
    apply Hf; [pose proof (g_fats _ G); lia|done].
Qed.

(** fat32_alloc_cluster returns the first free cluster and marks it as the
    end of a chain in every copy of the table; it fails only when no cluster is
    free, with ENOSPC and without any change. *)
Theorem alloc_cluster_first_free img :
  whole fs img ->
  T img (fat32_alloc_cluster fs)
    (fun img' c => valid fs c /\ next_of fs img c = FAT32_FREE /\
       (forall x, 2 <= x < c -> next_of fs img x <> FAT32_FREE) /\
       (forall i x, 0 <= i < num_fats fs -> valid fs x ->
          fat fs img' i x = if x =? c then FAT32_EOC else fat fs img i x) /\
       (forall x, valid fs x -> data fs img' x = data fs img x))
    (fun img' e => img' = img /\ e = - ENOSPC /\ forall x, valid fs x -> next_of fs img x <> FAT32_FREE).
Proof.
  intros Hw. eapply t_mono; [apply (alloc_cluster_t True fs G); by apply whole_fits|..].
  - intros img' c (Hc & Hfree & Hfirst & Hset). split_and!; [done..| |apply Hset].
    intros i x Hi Hx. rewrite (fst_fat _ _ _ _ _ _ _ Hset) by done.
    by destruct (Z.leb_spec 0 i), (Z.ltb_spec i (num_fats fs)); try lia.
  - intros img' e [_ Hr]. by apply Hr.
Qed.

(** fat32_free_chain on a chain frees exactly the clusters of the chain, in
    every copy of the table, and leaves the data alone. *)
Theorem free_chain_frees_chain img c l :
  whole fs img -> chain fs img c l -> l <> [] ->
  T img (fat32_free_chain fs c)
    (fun img' _ => len img' = len img /\
       (forall i x, 0 <= i < num_fats fs -> valid fs x ->
          fat fs img' i x = if bool_decide (x ∈ l) then FAT32_FREE else fat fs img i x) /\
       (forall x, valid fs x -> data fs img' x = data fs img x))
    (fun _ _ => False).
Proof.
  intros Hw Hch Hne. eapply t_mono; [apply (free_chain_t True fs G); [by apply whole_fits|done|done]|..].
  - intros img' _ [Hl Hf Hd]. done.
  - by intros img' e [_ []].
Qed.

(** ** Files *)

(** fat32_vfs_read returns the bytes of the file from the position on, as
    many as asked for and as the file has, moves the position behind them and
    changes nothing on the device. *)
Theorem read_returns_file_bytes img fh l pos count :
  whole fs img -> file fs img fh l -> 0 <= pos < 2 ^ 32 -> 0 < count ->
  let got := slice (file_bytes fs img fh l) pos (Z.min count (x_file_size fh - pos)) in
  T img (fat32_vfs_read fs (Some fh) pos count)
    (fun img' r => img' = img /\ r = (got, pos + len got)) (fun _ _ => False).
Proof.
  intros Hw Hf Hp Hc got. eapply t_mono; [by apply (vfs_read_t True fs G)|done|]. by intros i e [_ []].
Qed.


(** What fat32_vfs_write reports as written is what fat32_vfs_read returns
    at the same position with the new handle, also when the write started behind
    the end of the file. *)
Theorem write_read_back img fh l pos src :
  whole fs img -> file fs img fh l -> dirent fs img fh l ->
  0 <= pos -> pos + len src < 2 ^ 32 -> Forall byte_ok src -> 0 < len src ->
  T img (bind (fat32_vfs_write fs (Some fh) pos src) (fun '(h, _, v) =>
           if v =? len src then fat32_vfs_read fs h pos (len src) else err (- ENOSPC)))
    (fun _ r => r = (src, pos + len src)) (fun img' e => e = - ENOSPC /\ full fs img').
Proof.
  intros Hw Hf Hd Hpos Hmax Hby Hlen.
  eapply t_bind; [eapply t_mono; [by apply (vfs_write_t fs G)|done|done]|].
  intros img' [[h pos'] v] (fh' & l' & v' & Hh & Hv & [Sf Sd _ Sm _] & Hcase). simpl in *. subst h v'.
  pose proof (whole_len fs _ _ (fm_len _ _ _ _ _ _ Sm) Hw) as Hw'. pose proof (frame_grows fs G _ _ _ _ _ Sm) as Hgr.
  destruct Hcase as [(-> & -> & Hsz & Hcw)|(Hlt & _ & _ & Hfull & _)]; cycle 1.
  { rewrite (proj2 (Z.eqb_neq _ _)) by lia. by apply t_err. }
  rewrite Z.eqb_refl.
  pose proof (file_bytes_back fs G img img' fh fh' l l' pos src Hw Hw' Hf Sf Hpos Hlen Hsz Hgr Hcw) as Hback.
  eapply t_mono; [apply (vfs_read_t True fs G); [done|exact Sf|lia|done]| |by intros i e [_ []]].
  intros i r (_ & ->). rewrite (Z.min_l (len src)) by lia. by rewrite Hback.
Qed.

(** ** Directories *)

(** fat32_read_dir of a directory without long names returns the reference
    listing: the slots of its clusters in order, up to the end mark, without the
    deleted ones and the volume label, each as the entry it encodes; at most
    [max] of them. *)
Theorem read_dir_is_listing img c l max :
  whole fs img -> chain fs img c l -> short_dir fs img l -> 0 < max ->
  T img (fat32_read_dir fs c max)
    (fun img' r => img' = img /\ r = take (Z.to_nat max) (listing (dir_slots fs img l))) (fun _ _ => False).
Proof.
  intros. eapply t_mono; [by apply (read_dir_t True fs G)|done|]. by intros i e [_ []].
Qed.

(** After fat32_create_file_entry, fat32_lookup finds the name: an empty
    file with the name in upper case.  The creation fails only when the directory
    has no slot left and the volume no cluster. *)
Theorem create_then_lookup img dir l name n83 e83 :
  whole fs img -> chain fs img dir l -> l <> [] -> short_dir fs img l ->
  fat32_name_to_83 name = Ok (n83, e83) -> storable name ->
  find_entry name (listing (dir_slots fs img l)) = None -> len (listing (dir_slots fs img l)) < 512 ->
  T img (bind (fat32_create_file_entry fs dir name) (fun _ => fat32_lookup fs dir name))
    (fun img' e => e = mkentry (map to_upper name) 0 0 FAT_ATTR_ARCHIVE false)
    (fun img' e => img' = img /\ e = - ENOSPC /\ full fs img).
Proof.
  intros Hw Hch Hne Hshort Hn Hst Hnone Hcount.
  pose proof (name_to_83_ok name (sn_bytes _ Hst)) as H83. rewrite Hn in H83.
  destruct (new_entry_ok n83 e83 FAT_ATTR_ARCHIVE H83 ltac:(done)) as [He Hby].
  pose proof (new_entry_slot name n83 e83 Hn Hst) as Hslot.
  eapply t_bind; [by apply (create_file_entry_t fs G)|]. intros img' _ (l' & Hcr). cbn beta.
  pose proof (whole_len fs _ _ (fm_len _ _ _ _ _ _ (cr_frame _ _ _ _ _ _ _ Hcr)) Hw) as Hw'.
  eapply t_mono; [apply (lookup_t True fs G img' dir l' name Hw' (cr_chain _ _ _ _ _ _ _ Hcr))|..].
  - by eapply created_short.
  - intros i e (_ & Hfind). rewrite (created_found fs dir l l' name _ img img' Hcr Hslot Hnone Hcount) in Hfind.
    by injection Hfind as <-.
  - intros i e (_ & Hr). destruct (Hr I) as [_ Hfind].
    by rewrite (created_found fs dir l l' name _ img img' Hcr Hslot Hnone Hcount) in Hfind.
Qed.
End Reliable.

(** C38. On a file system with a sound geometry ([geom], which includes a positive number
    of tables) whose sectors are the blocks of the device, fat32_free_chain ends whatever
    the table holds: a chain that runs in a circle, into
    a free or bad cluster or out of the table included, and with any reads and
    writes failing. *)
Theorem free_chain_terminates {W : Type} `{OK : FsWorldOk W} (fs : fat32_fs) (G : geom fs) (c : Z) (w : W) :
  w_block_size (block_dev fs) w = bytes_per_sector fs ->
  exists w' r, fat32_free_chain fs c w = Ret (w', r).
Proof.
  intros Hb. pose proof (free_chain_any fs G c _ w eq_refl Hb) as Hr.
  apply runs_to_inv in Hr as ([w' r] & E & _). by exists w', r.
Qed.

(** A table with the circle 3, 5, 3. *)
Definition w_circle : ram_world := mkram [] (splice img0 (512 + 4 * 5) (le_bytes 4 3)) 0.

Lemma free_chain_terminates_witness : exists w' r, fat32_free_chain fs0 3 w_circle = Ret (w', r).
Proof. apply (free_chain_terminates fs0 fs0_geom). reflexivity. Defined.

(** A name that fat32_name_to_83 accepts comes back from
    fat32_parse_83_name in upper case, and lookups match it with the original. *)
Theorem short_name_roundtrip name n83 e83 :
  fat32_name_to_83 name = Ok (n83, e83) -> canonical name ->
  fat32_parse_83_name n83 e83 FAT_LFN_MAX = map to_upper name /\
  names_match (fat32_parse_83_name n83 e83 FAT_LFN_MAX) name = true.
Proof.
  intros Hn Hc. rewrite (name_83_roundtrip name n83 e83 Hn Hc). split; [done|]. apply names_match_upper.
Qed.

(** "readme.txt" does not fit, "kernel.bin" does. *)
Definition kernel_bin : list Z := [107; 101; 114; 110; 101; 108; 46; 98; 105; 110].

Lemma short_name_roundtrip_witness :
  fat32_parse_83_name (pad 8 [75; 69; 82; 78; 69; 76]) (pad 3 [66; 73; 78]) FAT_LFN_MAX = map to_upper kernel_bin /\
  names_match (fat32_parse_83_name (pad 8 [75; 69; 82; 78; 69; 76]) (pad 3 [66; 73; 78]) FAT_LFN_MAX) kernel_bin = true.
Proof. apply (short_name_roundtrip kernel_bin); [reflexivity|]. vm_compute. intuition congruence. Defined.


(** A disk "hda" with 65530 clusters, of which the boot sector is present. *)
Definition boot0 : list Z :=
  splice (splice (splice (splice (splice (splice (splice (splice (zeros 512) 11 (le_bytes 2 512)) 13 [1]) 14 (le_bytes 2 32))
    16 [2]) 32 (le_bytes 4 66586)) 36 (le_bytes 4 512)) 44 (le_bytes 4 2)) 510 (le_bytes 2 0xAA55).
Definition w_boot (boot : list Z) : ram_world := mkram [mkbdev [104; 100; 97] 512 1 RAMDISK_OPS 0 true] boot 0.


(** The boot sector of that disk has numbers that fit together, and mounting it
    succeeds; with zero sectors per cluster the driver divides by zero. *)
Lemma boot0_sane : bpb_sane 512 (bpb_of boot0).
Proof. constructor; vm_compute; congruence. Qed.

Example boot0_mounts :
  fat32_mount [104; 100; 97] (w_boot boot0) =
    Ret (mkram (rw_devs (w_boot boot0)) boot0 2, Ok (2, fs_of 0 (bpb_of boot0))).
Proof. vm_compute. reflexivity. Qed.

Example mount_divides_by_zero : fat32_mount [104; 100; 97] (w_boot (splice boot0 13 [0])) = Fault DivideError.
Proof. vm_compute. reflexivity. Qed.

(** ** Instances on the small volume *)

Abbreviation T0 := (triple (W := ram_world) (block_dev fs0) (bytes_per_sector fs0)).

(** Cluster 5 becomes the predecessor of cluster 4; entry 3 still reads 5. *)
Lemma fat_entry_write_read_witness :
  T0 img0 (bind (fat32_write_fat_entry fs0 5 4) (fun _ => fat32_read_fat_entry fs0 3))
    (fun img' r => r = (if 3 =? 5 then 4 else fat fs0 img0 0 3) /\ len img' = len img0 /\
       (forall i x, 0 <= i < num_fats fs0 -> valid fs0 x ->
          fat fs0 img' i x = if x =? 5 then 4 else fat fs0 img0 i x) /\
       (forall x, valid fs0 x -> data fs0 img' x = data fs0 img0 x))
    (fun _ _ => False).
Proof.
  apply (fat_entry_write_read fs0 fs0_geom); [apply img0_whole|vm_compute; intuition congruence|vm_compute; intuition congruence|lia].
Defined.

(** The first free cluster is 4. *)
Lemma alloc_cluster_first_free_witness :
  runs_to (fat32_alloc_cluster fs0 w0) (fun '(_, r) => match r with Ok c => next_of fs0 img0 c = FAT32_FREE | Err e => e = - ENOSPC end).
Proof.
  eapply runs_to_mono; [apply (alloc_cluster_first_free fs0 fs0_geom img0 img0_whole w0 img0_image); reflexivity|].
  intros [w' [c|e]] [_ Hr]; [apply Hr|apply Hr].
Defined.

Example alloc_is_4 : exists w', fat32_alloc_cluster fs0 w0 = Ret (w', Ok 4).
Proof. eexists. vm_compute. reflexivity. Qed.

Lemma free_chain_frees_chain_witness :
  T0 img0 (fat32_free_chain fs0 3)
    (fun img' _ => len img' = len img0 /\
       (forall i x, 0 <= i < num_fats fs0 -> valid fs0 x ->
          fat fs0 img' i x = if bool_decide (x ∈ [3; 5]) then FAT32_FREE else fat fs0 img0 i x) /\
       (forall x, valid fs0 x -> data fs0 img' x = data fs0 img0 x))
    (fun _ _ => False).
Proof. apply (free_chain_frees_chain fs0 fs0_geom); [apply img0_whole|apply chain0|discriminate]. Defined.

(** 200 bytes across the border of the two clusters. *)
Lemma read_returns_file_bytes_witness :
  T0 img0 (fat32_vfs_read fs0 (Some fh0) 450 200)
    (fun img' r => img' = img0 /\ r = (slice (file_bytes fs0 img0 fh0 [3; 5]) 450 150, 600)) (fun _ _ => False).
Proof.
  eapply t_mono; [apply (read_returns_file_bytes fs0 fs0_geom img0 fh0 [3; 5] 450 200 img0_whole file0); lia| |done].
  intros i r (-> & ->). split; [reflexivity|]. vm_compute. reflexivity.
Defined.

Lemma mirrored0 : mirrored fs0 img0.
Proof.
  intros i c Hi Hc. unfold valid in Hc. simpl in Hi, Hc.
  assert (i = 0 \/ i = 1) as [-> | ->] by lia; [done|].
  assert (c = 2 \/ c = 3 \/ c = 4 \/ c = 5 \/ c = 6 \/ c = 7) as Hcs by lia.
  destruct_or! Hcs; subst c; vm_compute; reflexivity.
Qed.


Lemma write_read_back_witness :
  T0 img0 (bind (fat32_vfs_write fs0 (Some fh0) 900 (text 100 3)) (fun '(h, _, v) =>
             if v =? len (text 100 3) then fat32_vfs_read fs0 h 900 (len (text 100 3)) else err (- ENOSPC)))
    (fun _ r => r = (text 100 3, 900 + len (text 100 3))) (fun img' e => e = - ENOSPC /\ full fs0 img').
Proof.
  assert (Hlen : len (text 100 3) = 100) by reflexivity.
  apply (write_read_back fs0 fs0_geom img0 fh0 [3; 5] 900 (text 100 3) img0_whole file0 dirent0);
    [lia|lia|apply text_bytes|lia].
Defined.

Lemma short_dir0 : short_dir fs0 img0 [2].
Proof. unfold short_dir. repeat constructor. Qed.

(** The directory lists A.TXT. *)
Lemma read_dir_is_listing_witness :
  T0 img0 (fat32_read_dir fs0 2 10)
    (fun img' r => img' = img0 /\ r = [mkentry [65; 46; 84; 88; 84] 3 600 FAT_ATTR_ARCHIVE false]) (fun _ _ => False).
Proof.
  eapply t_mono; [apply (read_dir_is_listing fs0 fs0_geom img0 2 [2] 10 img0_whole dir0 short_dir0); lia| |done].
  intros i r (-> & ->). split; [reflexivity|]. vm_compute. reflexivity.
Defined.

Lemma create_then_lookup_witness :
  T0 img0 (bind (fat32_create_file_entry fs0 2 kernel_bin) (fun _ => fat32_lookup fs0 2 kernel_bin))
    (fun img' e => e = mkentry (map to_upper kernel_bin) 0 0 FAT_ATTR_ARCHIVE false)
    (fun img' e => img' = img0 /\ e = - ENOSPC /\ full fs0 img0).
Proof.
  eapply (create_then_lookup fs0 fs0_geom img0 2 [2] kernel_bin);
    [apply img0_whole|apply dir0|discriminate|apply short_dir0|reflexivity| |vm_compute; reflexivity|vm_compute; reflexivity].
  constructor; [repeat constructor; unfold byte_ok; lia|vm_compute; intuition congruence|repeat constructor; discriminate|].
  intros c [= <-]. discriminate.
Defined.
