(* ===== verification/Memory.v ===== *)
(** * Byte-addressed memory

    The memory that the allocators manage and keep their own data in: a finite
    map from addresses to bytes.  An access outside the map is a fault, so a
    computation that returns has touched only memory that exists.  Integers are
    little-endian; a value is stored modulo the width of the cell. *)

From stdpp Require Import gmap.
From S2P Require Import Prelude Bytes.

Abbreviation mem := (gmap Z Z).

Fixpoint load_bytes (n : nat) (m : mem) (a : Z) : outcome (list Z) :=
  match n with
  | O => Ret []
  | S n' =>
      match m !! a with
      | None => Fault (if a =? 0 then NullDeref else OutOfBounds)
      | Some b => bs ← load_bytes n' m (a + 1); Ret (b :: bs)
      end
  end.

Fixpoint store_bytes (m : mem) (a : Z) (bs : list Z) : outcome mem :=
  match bs with
  | [] => Ret m
  | b :: bs' =>
      match m !! a with
      | None => Fault (if a =? 0 then NullDeref else OutOfBounds)
      | Some _ => store_bytes (<[a := b]> m) (a + 1) bs'
      end
  end.

(** An integer of [n] bytes at address [a]. *)
Definition load (n : nat) (m : mem) (a : Z) : outcome Z := bs ← load_bytes n m a; Ret (le_value bs).
Definition store (n : nat) (m : mem) (a v : Z) : outcome mem := store_bytes m a (le_bytes n v).

(** ** Reading, and what a computation may have changed *)

Definition reads (n : nat) (m : mem) (a v : Z) : Prop := load n m a = Ret v.

Definition mapped (m : mem) (a n : Z) : Prop := forall x, a <= x < a + n -> is_Some (m !! x).

(** The byte range [[a, a + n)]. *)
Definition rng (a n : Z) (x : Z) : Prop := a <= x < a + n.

(** [m'] differs from [m] at most at the addresses in [P]. *)
Definition changes (P : Z -> Prop) (m m' : mem) : Prop :=
  (forall x, is_Some (m' !! x) <-> is_Some (m !! x)) /\ (forall x, ~ P x -> m' !! x = m !! x).

Lemma changes_refl P m : changes P m m.
Proof. done. Qed.

Lemma changes_mono (P Q : Z -> Prop) m m' :
  changes P m m' -> (forall x, P x -> Q x) -> changes Q m m'.
Proof. intros [H1 H2] H. split; [done|]. intros x Hx. apply H2. auto. Qed.

Lemma changes_trans P m1 m2 m3 : changes P m1 m2 -> changes P m2 m3 -> changes P m1 m3.
Proof.
  intros [H1 H2] [H3 H4]. split; [intros x; by rewrite H3|]. intros x Hx. by rewrite H4, H2.
Qed.

Lemma changes_mapped P m m' a n : changes P m m' -> mapped m a n -> mapped m' a n.
Proof. intros [H _] Hm x Hx. apply H, Hm, Hx. Qed.

Lemma mapped_sub m a n b k : mapped m a n -> a <= b -> b + k <= a + n -> mapped m b k.
Proof. intros H ? ? x Hx. apply H. lia. Qed.

Lemma load_bytes_ext n : forall m m' a,
  (forall x, a <= x < a + Z.of_nat n -> m' !! x = m !! x) -> load_bytes n m' a = load_bytes n m a.
Proof.
  induction n as [|n IH]; intros m m' a H; [done|]. cbn [load_bytes].
  rewrite (H a) by lia. rewrite (IH m m'); [done|]. intros x Hx. apply H. lia.
Qed.

(** A cell that was not touched reads as before. *)
Lemma reads_ext n m m' a v :
  reads n m a v -> (forall x, a <= x < a + Z.of_nat n -> m' !! x = m !! x) -> reads n m' a v.
Proof. unfold reads, load. intros H Hx. by rewrite (load_bytes_ext n m m' a Hx). Qed.

Lemma reads_changes n m m' P a v :
  reads n m a v -> changes P m m' -> (forall x, a <= x < a + Z.of_nat n -> ~ P x) -> reads n m' a v.
Proof. intros H [_ Hc] HP. eapply reads_ext; [exact H|]. auto. Qed.

Lemma store_bytes_ok bs : forall m a,
  mapped m a (len bs) -> exists m', store_bytes m a bs = Ret m' /\ changes (rng a (len bs)) m m' /\
    forall i, 0 <= i < len bs -> m' !! (a + i) = bs !! Z.to_nat i.
Proof.
  induction bs as [|b bs IH]; intros m a Hm; cbn [store_bytes].
  { exists m. split_and!; [done|apply changes_refl|]. unfold len. simpl. lia. }
  assert (El : len (b :: bs) = len bs + 1) by (unfold len; simpl length; lia). rewrite El in *.
  assert (0 <= len bs) by (unfold len; lia).
  destruct (Hm a ltac:(lia)) as [v Hv]. rewrite Hv.
  destruct (IH (<[a := b]> m) (a + 1)) as (m' & -> & [Hd Hc] & Hi).
  { intros x Hx. destruct (decide (a = x)) as [->|]; [by rewrite lookup_insert_eq|].
    rewrite lookup_insert_ne by done. apply Hm. lia. }
  exists m'. split; [done|]. split; [split|].
  - intros x. rewrite Hd. destruct (decide (a = x)) as [<-|]; [|by rewrite lookup_insert_ne].
    rewrite lookup_insert_eq, Hv. split; intros _; by eexists.
  - intros x Hx. unfold rng in *. rewrite Hc by lia. apply lookup_insert_ne. lia.
  - intros i Hi'. destruct (decide (i = 0)) as [->|].
    + rewrite Hc by (unfold rng; lia). replace (a + 0) with a by lia. by rewrite lookup_insert_eq.
    + replace (a + i) with (a + 1 + (i - 1)) by lia. rewrite Hi by lia.
      by replace (Z.to_nat i) with (S (Z.to_nat (i - 1))) by lia.
Qed.

Lemma load_bytes_ok n : forall m a bs,
  length bs = n -> (forall i, 0 <= i < len bs -> m !! (a + i) = bs !! Z.to_nat i) ->
  load_bytes n m a = Ret bs.
Proof.
  induction n as [|n IH]; intros m a [|b bs] Hl Hi; simplify_eq/=; [done|].
  assert (El : len (b :: bs) = len bs + 1) by (unfold len; simpl length; lia). rewrite El in Hi.
  assert (0 <= len bs) by (unfold len; lia).
  pose proof (Hi 0 ltac:(lia)) as H0. rewrite Z.add_0_r in H0. rewrite H0. simpl.
  rewrite (IH m (a + 1) bs); [done|done|]. intros i Hi'.
  replace (a + 1 + i) with (a + (i + 1)) by lia. rewrite Hi by lia.
  by replace (Z.to_nat (i + 1)) with (S (Z.to_nat i)) by lia.
Qed.

(** Storing into existing memory returns; the cell then holds the value and
    nothing else has changed. *)
Lemma store_ok n m a v :
  mapped m a (Z.of_nat n) -> 0 <= v < 256 ^ Z.of_nat n ->
  runs_to (store n m a v) (fun m' => reads n m' a v /\ changes (rng a (Z.of_nat n)) m m').
Proof.
  intros Hm Hv. assert (El : len (le_bytes n v) = Z.of_nat n) by size. unfold store.
  destruct (store_bytes_ok (le_bytes n v) m a) as (m' & -> & Hc & Hi); [by rewrite El|].
  rewrite El in *. split; [|done]. unfold reads, load.
  rewrite (load_bytes_ok n m' a (le_bytes n v)); [|by size|by rewrite El]. cbn [mbind outcome_bind].
  by rewrite le_value_bytes, Z.mod_small.
Qed.

Lemma load_mapped n : forall m a, mapped m a (Z.of_nat n) -> exists v, load n m a = Ret v.
Proof.
  intros m a Hm. assert (exists bs, load_bytes n m a = Ret bs) as [bs E].
  { revert a Hm. induction n as [|n IH]; intros a Hm; [by exists []|]. cbn [load_bytes].
    destruct (Hm a ltac:(lia)) as [b ->].
    destruct (IH (a + 1)) as [bs ->]; [intros x Hx; apply Hm; lia|]. by eexists. }
  unfold load. rewrite E. by eexists.
Qed.

(** Steps of a proof over loads and stores. *)
Lemma runs_to_load {B} n m a v (f : Z -> outcome B) Q :
  reads n m a v -> runs_to (f v) Q -> runs_to (load n m a ≫= f) Q.
Proof. unfold reads. by intros ->. Qed.

Lemma runs_to_store {B} n m a v (f : mem -> outcome B) Q :
  mapped m a (Z.of_nat n) -> 0 <= v < 256 ^ Z.of_nat n ->
  (forall m', reads n m' a v -> changes (rng a (Z.of_nat n)) m m' -> runs_to (f m') Q) ->
  runs_to (store n m a v ≫= f) Q.
Proof. intros Hm Hv H. eapply runs_to_bind; [by apply store_ok|]. intros m' [H1 H2]. by apply H. Qed.

(** ** Zeroed memory *)

Fixpoint zero_from (n : nat) (a : Z) : mem :=
  match n with O => ∅ | S n' => <[a := 0]> (zero_from n' (a + 1)) end.

Definition zero_mem (a n : Z) : mem := zero_from (Z.to_nat n) a.

Lemma zero_mem_mapped a n : mapped (zero_mem a n) a n.
Proof.
  unfold zero_mem. assert (H : forall k b, mapped (zero_from k b) b (Z.of_nat k)).
  { intros k. induction k as [|k IH]; intros b x Hx; [lia|]. cbn [zero_from].
    destruct (decide (b = x)) as [->|]; [rewrite lookup_insert_eq; by eexists|].
    rewrite lookup_insert_ne by done. apply (IH (b + 1)). lia. }
  intros x Hx. apply (H (Z.to_nat n) a). lia.
Qed.
