(* ===== verification/Elf.v ===== *)
(** * The ELF loader

    core/kernel/elf/parser.c and the placement of a kernel module by
    core/kernel/kmodules.c.  The file is the list of its bytes, a pointer to a
    program header an offset in it; segments are written to the memory of
    Memory.v, in which an access outside of mapped memory is a fault.

    [elf_load_correct]: a well-formed file is loaded as the format says;
    [module_placed]: a module is loaded inside of the memory allocated for it;
    [elf_no_bounds]: the parser checks no offset against the size of the file. *)

From stdpp Require Import gmap.
From S2P Require Import Prelude Bytes Memory.

Definition EI_NIDENT : Z := 16.
Definition EI_CLASS : Z := 4.
Definition EI_DATA : Z := 5.
Definition ELFCLASS64 : Z := 2.
Definition ELFDATA2LSB : Z := 1.
Definition PT_LOAD : Z := 1.
Definition PF_X : Z := 1.
Definition PF_W : Z := 2.
Definition PF_R : Z := 4.
Definition PHDR_SIZE : Z := 56.              (** sizeof(elf64_phdr_t) *)
Definition UINT64_MAX : Z := 18446744073709551615.

Definition get64 (buf : list Z) (off : Z) : outcome Z := bs ← mem_read buf off 8; Ret (le_value bs).

(** elf64_header_t. *)
Definition e_entry (elf : list Z) : outcome Z := get64 elf 24.
Definition e_phoff (elf : list Z) : outcome Z := get64 elf 32.
Definition e_phentsize (elf : list Z) : outcome Z := get16 elf 54.
Definition e_phnum (elf : list Z) : outcome Z := get16 elf 56.

(** elf64_phdr_t at offset [p]. *)
Definition p_type (elf : list Z) (p : Z) : outcome Z := get32 elf p.
Definition p_flags (elf : list Z) (p : Z) : outcome Z := get32 elf (p + 4).
Definition p_offset (elf : list Z) (p : Z) : outcome Z := get64 elf (p + 8).
Definition p_vaddr (elf : list Z) (p : Z) : outcome Z := get64 elf (p + 16).
Definition p_filesz (elf : list Z) (p : Z) : outcome Z := get64 elf (p + 32).
Definition p_memsz (elf : list Z) (p : Z) : outcome Z := get64 elf (p + 40).

(** [||] of the four comparisons with the magic number. *)
Fixpoint has_magic (elf : list Z) (i : Z) (magic : list Z) : outcome bool :=
  match magic with
  | [] => Ret true
  | c :: magic' => x ← get8 elf i; if x =? c then has_magic elf (i + 1) magic' else Ret false
  end.

Definition elf_validate (data : list Z) (size : Z) : outcome bool :=
  if size <? EI_NIDENT then Ret false else
  magic ← has_magic data 0 [127; 69; 76; 70];
  if negb magic then Ret false else
  class ← get8 data EI_CLASS;
  if negb (class =? ELFCLASS64) then Ret false else
  enc ← get8 data EI_DATA;
  Ret (enc =? ELFDATA2LSB).

Definition elf_is64bit (data : list Z) : outcome bool := class ← get8 data EI_CLASS; Ret (class =? ELFCLASS64).
Definition elf_get_entry64 (data : list Z) : outcome Z := e_entry data.
Definition elf_get_phnum64 (data : list Z) : outcome Z := e_phnum data.

(** The offset of a program header; [index * e_phentsize] is an int. *)
Definition elf_get_phdr64 (data : list Z) (index : Z) : outcome (option Z) :=
  phnum ← e_phnum data;
  if phnum <=? index then Ret None else
  phoff ← e_phoff data;
  phentsize ← e_phentsize data;
  Ret (Some (u64 (phoff + i32 (index * phentsize)))).

(** The result and the memory. *)
Definition elf_load_segment (dest : Z) (elf : list Z) (phdr : Z) (m : mem) : outcome (Z * mem) :=
  type ← p_type elf phdr;
  if negb (type =? PT_LOAD) then Ret (0, m) else
  flags ← p_flags elf phdr;
  if Z.land flags PF_R =? 0 then Ret (-1, m) else
  file_size ← p_filesz elf phdr;
  mem_size ← p_memsz elf phdr;
  if mem_size <? file_size then Ret (-1, m) else
  offset ← p_offset elf phdr;
  bytes ← mem_read elf offset file_size;
  m ← store_bytes m dest bytes;
  if file_size <? mem_size then
    m ← store_bytes m (u64 (dest + file_size)) (replicate (Z.to_nat (mem_size - file_size)) 0);
    Ret (0, m)
  else Ret (0, m).

(** The loop of the two load functions; [dest_of] computes the address of a
    segment. *)
Fixpoint load_loop (n : nat) (elf : list Z) (dest_of : Z -> Z) (i : Z) (m : mem) : outcome (Z * mem) :=
  match n with
  | O => Ret (0, m)
  | S n' =>
      phdr ← elf_get_phdr64 elf i;
      match phdr with
      | None => Ret (-1, m)
      | Some p =>
          type ← p_type elf p;
          if type =? PT_LOAD then
            vaddr ← p_vaddr elf p;
            '(r, m) ← elf_load_segment (dest_of vaddr) elf p m;
            if r <? 0 then Ret (-1, m) else load_loop n' elf dest_of (i + 1) m
          else load_loop n' elf dest_of (i + 1) m
      end
  end.

Definition load_with (dest_of : Z -> Z) (elf : list Z) (elf_size : Z) (m : mem) : outcome (Z * mem) :=
  valid ← elf_validate elf elf_size;
  if negb valid then Ret (-1, m) else
  is64 ← elf_is64bit elf;
  if negb is64 then Ret (-1, m) else
  _ ← elf_get_entry64 elf;
  phnum ← elf_get_phnum64 elf;
  load_loop (Z.to_nat phnum) elf dest_of 0 m.

Definition elf_load_program (dest : Z) (elf : list Z) (elf_size : Z) (m : mem) : outcome (Z * mem) :=
  load_with (fun vaddr => u64 (dest + vaddr)) elf elf_size m.

Definition elf_load_program_relative (dest base_vaddr : Z) (elf : list Z) (elf_size : Z) (m : mem) : outcome (Z * mem) :=
  load_with (fun vaddr => u64 (dest + u64 (vaddr - base_vaddr))) elf elf_size m.

Record program_info := mkinfo {
  entry_point : Z; text_start : Z; text_size : Z; data_start : Z; data_size : Z; bss_start : Z; bss_size : Z;
}.

Fixpoint info_loop (n : nat) (elf : list Z) (i : Z) (info : program_info) : outcome program_info :=
  match n with
  | O => Ret info
  | S n' =>
      phdr ← elf_get_phdr64 elf i;
      match phdr with
      | None => info_loop n' elf (i + 1) info
      | Some p =>
          type ← p_type elf p;
          if negb (type =? PT_LOAD) then info_loop n' elf (i + 1) info else
          flags ← p_flags elf p;
          info ← (if negb (Z.land flags PF_X =? 0) then
                    vaddr ← p_vaddr elf p;
                    memsz ← p_memsz elf p;
                    Ret (mkinfo (entry_point info) vaddr memsz (data_start info) (data_size info)
                           (bss_start info) (bss_size info))
                  else if negb (Z.land flags PF_W =? 0) then
                    vaddr ← p_vaddr elf p;
                    filesz ← p_filesz elf p;
                    memsz ← p_memsz elf p;
                    Ret (mkinfo (entry_point info) (text_start info) (text_size info) vaddr filesz
                           (u64 (vaddr + filesz)) (u64 (memsz - filesz)))
                  else Ret info);
          info_loop n' elf (i + 1) info
      end
  end.

(** [None]: the result is -1. *)
Definition elf_get_program_info (elf : list Z) (elf_size : Z) : outcome (option program_info) :=
  valid ← elf_validate elf elf_size;
  if negb valid then Ret None else
  is64 ← elf_is64bit elf;
  if negb is64 then Ret None else
  entry ← elf_get_entry64 elf;
  phnum ← elf_get_phnum64 elf;
  info ← info_loop (Z.to_nat phnum) elf 0 (mkinfo entry 0 0 0 0 0 0);
  Ret (Some info).

(** ** Placing a module *)

(** The loop over the segments: the lowest and the highest address. *)
Fixpoint span_loop (n : nat) (elf : list Z) (i min_vaddr max_vaddr : Z) : outcome (Z * Z) :=
  match n with
  | O => Ret (min_vaddr, max_vaddr)
  | S n' =>
      phdr ← elf_get_phdr64 elf i;
      match phdr with
      | None => span_loop n' elf (i + 1) min_vaddr max_vaddr
      | Some p =>
          type ← p_type elf p;
          if type =? PT_LOAD then
            vaddr ← p_vaddr elf p;
            memsz ← p_memsz elf p;
            let min_vaddr := if vaddr <? min_vaddr then vaddr else min_vaddr in
            let e := u64 (vaddr + memsz) in
            let max_vaddr := if max_vaddr <? e then e else max_vaddr in
            span_loop n' elf (i + 1) min_vaddr max_vaddr
          else span_loop n' elf (i + 1) min_vaddr max_vaddr
      end
  end.

Definition page_up (x : Z) : Z := Z.land (u64 (x + 0xFFF)) (Z.lnot 0xFFF).

(** kmodule_load once the file is in memory, up to the call of the module:
    [elf] has [file_size] bytes at the address [elf_ptr].  [alloc] and [free] are
    kmalloc and kfree on the allocator state [H].  The result is the error code,
    or the address the module is loaded at and its entry point. *)
Section Module.
Context {H : Type} (alloc : Z -> H -> option Z * H) (free : Z -> H -> H).

Definition kmodule_place (elf : list Z) (file_size elf_ptr : Z) (m : mem) (h : H)
  : outcome ((Z + (Z * Z)) * mem * H) :=
  valid ← elf_validate elf file_size;
  if negb valid then Ret (inl (-6), m, free elf_ptr h) else
  info ← elf_get_program_info elf file_size;
  match info with
  | None => Ret (inl (-7), m, free elf_ptr h)
  | Some info =>
      phnum ← elf_get_phnum64 elf;
      '(min_vaddr, max_vaddr) ← span_loop (Z.to_nat phnum) elf 0 UINT64_MAX 0;
      if (min_vaddr =? UINT64_MAX) || (max_vaddr =? 0) then Ret (inl (-8), m, free elf_ptr h) else
      let total_size := page_up (u64 (max_vaddr - min_vaddr)) in
      match alloc (u64 (total_size + 0x1000)) h with
      | (None, h) => Ret (inl (-9), m, free elf_ptr h)
      | (Some p, h) =>
          let load_addr := page_up p in
          m ← store_bytes m load_addr (replicate (Z.to_nat total_size) 0);
          '(r, m) ← elf_load_program_relative load_addr min_vaddr elf file_size m;
          if r <? 0 then Ret (inl (-10), m, free load_addr (free elf_ptr h)) else
          Ret (inr (load_addr, u64 (entry_point info - min_vaddr + load_addr)), m, free elf_ptr h)
      end
  end.
End Module.

(** ** Loading a module from a file

    What kmodule_load uses of the VFS, of the heap and of the module. *)
Class ModuleHost (H : Type) := {
  mh_stat : list Z -> H -> Z * Z * H;             (** vfs_stat: result and st_size *)
  mh_open : list Z -> H -> Z * H;                 (** vfs_open with VFS_READ *)
  mh_readfd : Z -> Z -> H -> Z * list Z * H;      (** vfs_readfd: result and bytes *)
  mh_close : Z -> H -> H;
  mh_kmalloc : Z -> H -> option Z * H;
  mh_kfree : Z -> H -> H;
  mh_entry : Z -> mem -> H -> mem * H;            (** the call of the module with the kernel interface *)
}.

Section Load.
Context {H : Type} {MH : ModuleHost H}.

Definition file_exists (path : list Z) (h : H) : bool * H :=
  let '(r, _, h) := mh_stat path h in (r =? 0, h).

Definition kmodule_load (path : list Z) (m : mem) (h : H) : outcome (Z * mem * H) :=
  let '(found, h) := file_exists path h in
  if negb found then Ret (-1, m, h) else
  let '(fd, h) := mh_open path h in
  if fd <? 0 then Ret (-2, m, h) else
  let '(r, file_size, h) := mh_stat path h in
  if negb (r =? 0) then Ret (-3, m, mh_close fd h) else
  if file_size <=? 0 then Ret (-3, m, mh_close fd h) else
  match mh_kmalloc file_size h with
  | (None, h) => Ret (-4, m, mh_close fd h)
  | (Some elf_data, h) =>
      let '(bytes_read, bytes, h) := mh_readfd fd file_size h in
      let h := mh_close fd h in
      if negb (bytes_read =? file_size) then Ret (-5, m, mh_kfree elf_data h) else
      '(placed, m, h) ← kmodule_place mh_kmalloc mh_kfree bytes file_size elf_data m h;
      match placed with
      | inl code => Ret (code, m, h)
      | inr (_, entry) => let '(m, h) := mh_entry entry m h in Ret (0, m, h)
      end
  end.
End Load.

(** * The ELF loader: theorems *)

(** ** Fields of a file *)

Definition h16 (elf : list Z) (o : Z) : Z := le_value (slice elf o 2).
Definition h32 (elf : list Z) (o : Z) : Z := le_value (slice elf o 4).
Definition h64 (elf : list Z) (o : Z) : Z := le_value (slice elf o 8).

Definition phnum (elf : list Z) : Z := h16 elf 56.

(** The offset of program header [i] and its fields. *)
Definition hdr (elf : list Z) (i : Z) : Z := h64 elf 32 + i * h16 elf 54.
Definition loadable (elf : list Z) (i : Z) : bool := h32 elf (hdr elf i) =? PT_LOAD.
Definition flags (elf : list Z) (i : Z) : Z := h32 elf (hdr elf i + 4).
Definition offset (elf : list Z) (i : Z) : Z := h64 elf (hdr elf i + 8).
Definition vaddr (elf : list Z) (i : Z) : Z := h64 elf (hdr elf i + 16).
Definition filesz (elf : list Z) (i : Z) : Z := h64 elf (hdr elf i + 32).
Definition memsz (elf : list Z) (i : Z) : Z := h64 elf (hdr elf i + 40).

(** A file whose headers lie inside of it. *)
Record elf_ok (elf : list Z) : Prop := {
  eo_bytes : Forall byte_ok elf;
  eo_len : 64 <= len elf < 2 ^ 63;
  eo_valid : elf_validate elf (len elf) = Ret true;
  eo_hdrs : forall i, 0 <= i < phnum elf -> hdr elf i + PHDR_SIZE <= len elf;
  eo_int : phnum elf * h16 elf 54 < 2 ^ 31;
}.

(** A segment whose bytes lie inside of the file. *)
Record seg_ok (elf : list Z) (i : Z) : Prop := {
  so_read : Z.land (flags elf i) PF_R <> 0;
  so_size : filesz elf i <= memsz elf i;
  so_file : offset elf i + filesz elf i <= len elf;
}.

Lemma get64_ok elf o : 0 <= o -> o + 8 <= len elf -> get64 elf o = Ret (h64 elf o).
Proof. intros. unfold get64. by rewrite mem_read_slice by lia. Qed.

Lemma le_range elf o n : Forall byte_ok elf -> 0 <= o -> 0 <= n -> o + n <= len elf -> 0 <= le_value (slice elf o n) < 256 ^ n.
Proof.
  intros Hb H0 Hn Hl. pose proof (le_value_range (slice elf o n) (slice_Forall _ _ _ _ Hb)) as H.
  by rewrite len_slice in H by lia.
Qed.

Lemma validate_is64 elf size : elf_validate elf size = Ret true -> elf_is64bit elf = Ret true.
Proof.
  unfold elf_validate, elf_is64bit. destruct (size <? EI_NIDENT); [done|].
  destruct (has_magic elf 0 _) as [[]| |]; [|done..]. cbn [mbind outcome_bind negb].
  destruct (get8 elf EI_CLASS) as [c| |]; [|done..]. cbn [mbind outcome_bind]. by destruct (c =? ELFCLASS64).
Qed.

Section File.
Context (elf : list Z) (E : elf_ok elf).

Lemma phnum_range : 0 <= phnum elf < 65536.
Proof. pose proof (eo_len _ E). apply (le_range elf 56 2); [apply E|lia..]. Qed.

Lemma hdr_nonneg i : 0 <= i -> 0 <= hdr elf i.
Proof.
  intros Hi. pose proof (eo_len _ E). pose proof (le_range elf 32 8 (eo_bytes _ E) ltac:(lia) ltac:(lia) ltac:(lia)).
  pose proof (le_range elf 54 2 (eo_bytes _ E) ltac:(lia) ltac:(lia) ltac:(lia)). unfold hdr, h64, h16. nia.
Qed.

Lemma get_phdr_ok i : 0 <= i < phnum elf -> elf_get_phdr64 elf i = Ret (Some (hdr elf i)).
Proof.
  intros Hi. pose proof (eo_len _ E). pose proof (eo_hdrs _ E i Hi) as Hh. pose proof (hdr_nonneg i ltac:(lia)).
  pose proof (eo_int _ E). pose proof (le_range elf 54 2 (eo_bytes _ E) ltac:(lia) ltac:(lia) ltac:(lia)).
  unfold elf_get_phdr64, e_phnum, e_phoff, e_phentsize. rewrite !get16_ok, get64_ok by lia. cbn [mbind outcome_bind].
  fold (h16 elf 56) (h16 elf 54) in *. fold (phnum elf). rewrite (proj2 (Z.leb_gt (phnum elf) i)) by lia.
  change (2 ^ 31) with 2147483648 in *. change (2 ^ 63) with 9223372036854775808 in *.
  rewrite i32_id by nia. unfold hdr in *. rewrite u64_id by (unfold PHDR_SIZE in *; lia). done.
Qed.

Lemma hdr_fields i : 0 <= i < phnum elf ->
  p_type elf (hdr elf i) = Ret (h32 elf (hdr elf i)) /\ p_flags elf (hdr elf i) = Ret (flags elf i) /\
  p_offset elf (hdr elf i) = Ret (offset elf i) /\ p_vaddr elf (hdr elf i) = Ret (vaddr elf i) /\
  p_filesz elf (hdr elf i) = Ret (filesz elf i) /\ p_memsz elf (hdr elf i) = Ret (memsz elf i).
Proof.
  intros Hi. pose proof (eo_hdrs _ E i Hi) as Hh. pose proof (hdr_nonneg i ltac:(lia)). unfold PHDR_SIZE in Hh.
  unfold p_type, p_flags, p_offset, p_vaddr, p_filesz, p_memsz.
  rewrite !get32_ok, !get64_ok by lia. done.
Qed.

Lemma field_range i : 0 <= i < phnum elf ->
  0 <= offset elf i < 2 ^ 64 /\ 0 <= vaddr elf i < 2 ^ 64 /\ 0 <= filesz elf i < 2 ^ 64 /\ 0 <= memsz elf i < 2 ^ 64.
Proof.
  intros Hi. pose proof (eo_hdrs _ E i Hi) as Hh. pose proof (hdr_nonneg i ltac:(lia)). unfold PHDR_SIZE in Hh.
  change (2 ^ 64) with (256 ^ 8). split_and!; apply (le_range elf _ 8); try apply E; lia.
Qed.

(** ** One segment *)

(** The memory [m] has segment [i] at [d]: the bytes of the file, then zeros. *)
Definition loaded (m : mem) (d i : Z) : Prop :=
  forall k, 0 <= k < memsz elf i ->
    m !! (d + k) = if k <? filesz elf i then elf !! Z.to_nat (offset elf i + k) else Some 0.

Lemma loaded_ext m m' d i :
  loaded m d i -> (forall x, d <= x < d + memsz elf i -> m' !! x = m !! x) -> loaded m' d i.
Proof. intros Hl Hx k Hk. rewrite Hx by lia. by apply Hl. Qed.

Lemma load_segment_ok i d m :
  0 <= i < phnum elf -> loadable elf i = true -> seg_ok elf i ->
  0 <= d -> d + memsz elf i <= 2 ^ 64 -> mapped m d (memsz elf i) ->
  runs_to (elf_load_segment d elf (hdr elf i) m) (fun '(r, m') =>
    r = 0 /\ loaded m' d i /\ changes (rng d (memsz elf i)) m m').
Proof.
  intros Hi Hl [Hr Hs Hf] H0 Hd Hm. unfold elf_load_segment.
  destruct (hdr_fields i Hi) as (-> & -> & -> & _ & -> & ->). cbn [mbind outcome_bind].
  destruct (field_range i Hi) as (Ro & _ & Rf & Rm).
  unfold loadable in Hl. rewrite Hl. cbn [negb]. rewrite (proj2 (Z.eqb_neq _ 0) Hr).
  rewrite (proj2 (Z.ltb_ge (memsz elf i) (filesz elf i))) by done.
  rewrite mem_read_slice by lia. cbn [mbind outcome_bind].
  assert (len (slice elf (offset elf i) (filesz elf i)) = filesz elf i) as El by (apply len_slice; lia).
  destruct (store_bytes_ok (slice elf (offset elf i) (filesz elf i)) m d) as (m1 & -> & Hc1 & Hb1).
  { rewrite El. eapply mapped_sub; [exact Hm|lia|lia]. }
  rewrite El in *. cbn [mbind outcome_bind].
  assert (forall k, 0 <= k < filesz elf i -> m1 !! (d + k) = elf !! Z.to_nat (offset elf i + k)) as Hfile.
  { intros k Hk. rewrite Hb1 by done. apply slice_lookup; lia. }
  destruct (Z.ltb_spec (filesz elf i) (memsz elf i)) as [Hlt|Hge].
  2:{ split_and!; [done| |].
      - intros k Hk. rewrite (proj2 (Z.ltb_lt k (filesz elf i))) by lia. apply Hfile. lia.
      - eapply changes_mono; [exact Hc1|]. unfold rng. lia. }
  change (2 ^ 64) with 18446744073709551616 in *. rewrite u64_id by lia.
  set (zs := replicate (Z.to_nat (memsz elf i - filesz elf i)) 0).
  assert (len zs = memsz elf i - filesz elf i) as Ez by (unfold zs, len; rewrite length_replicate; lia).
  destruct (store_bytes_ok zs m1 (d + filesz elf i)) as (m2 & -> & Hc2 & Hb2).
  { rewrite Ez. eapply mapped_sub; [eapply changes_mapped; [exact Hc1|exact Hm]|lia|lia]. }
  rewrite Ez in *. cbn [mbind outcome_bind runs_to]. split_and!; [done| |].
  - intros k Hk. destruct (Z.ltb_spec k (filesz elf i)).
    + destruct Hc2 as [_ Hc2]. rewrite Hc2 by (unfold rng; lia). apply Hfile. lia.
    + replace (d + k) with (d + filesz elf i + (k - filesz elf i)) by lia. rewrite Hb2 by lia.
      unfold zs. rewrite lookup_replicate_2; [done|lia].
  - eapply changes_trans; [eapply changes_mono; [exact Hc1|]|eapply changes_mono; [exact Hc2|]]; unfold rng; lia.
Qed.

(** ** All segments *)

Context (dest_of : Z -> Z).

Definition place (i : Z) : Z := dest_of (vaddr elf i).

(** The segments fit into memory that exists, and do not overlap. *)
Record room (m : mem) (lo hi : Z) : Prop := {
  rm_seg : forall i, lo <= i < hi -> loadable elf i = true -> seg_ok elf i;
  rm_addr : forall i, lo <= i < hi -> loadable elf i = true -> 0 <= place i /\ place i + memsz elf i <= 2 ^ 64;
  rm_mapped : forall i, lo <= i < hi -> loadable elf i = true -> mapped m (place i) (memsz elf i);
  rm_disjoint : forall i j, lo <= i < hi -> lo <= j < hi -> i <> j -> loadable elf i = true -> loadable elf j = true ->
    place i + memsz elf i <= place j \/ place j + memsz elf j <= place i;
}.

Definition in_segments (lo hi x : Z) : Prop :=
  exists i, lo <= i < hi /\ loadable elf i = true /\ rng (place i) (memsz elf i) x.

Lemma room_next m m' P lo hi : room m lo hi -> changes P m m' -> room m' (lo + 1) hi.
Proof.
  intros [H1 H2 H3 H4] Hc. split.
  - intros i Hi. apply H1. lia.
  - intros i Hi. apply H2. lia.
  - intros i Hi Hl. eapply changes_mapped; [exact Hc|]. apply H3; [lia|done].
  - intros i j Hi Hj. apply H4; lia.
Qed.

Lemma load_loop_ok n : forall i m,
  0 <= i -> i + Z.of_nat n = phnum elf -> room m i (phnum elf) ->
  runs_to (load_loop n elf dest_of i m) (fun '(r, m') =>
    r = 0 /\ (forall j, i <= j < phnum elf -> loadable elf j = true -> loaded m' (place j) j) /\
    changes (in_segments i (phnum elf)) m m').
Proof.
  induction n as [|n IH]; intros i m H0 Hn HR; cbn [load_loop].
  { split_and!; [done| |apply changes_refl]. intros j Hj. lia. }
  assert (0 <= i < phnum elf) as Hi by lia. rewrite get_phdr_ok by done. cbn [mbind outcome_bind].
  destruct (hdr_fields i Hi) as (-> & _ & _ & -> & _ & _). cbn [mbind outcome_bind].
  assert (forall m' x, changes (in_segments (i + 1) (phnum elf)) m' x -> changes (in_segments i (phnum elf)) m' x) as Hmono.
  { intros m' x Hc. eapply changes_mono; [exact Hc|]. intros y (j & Hj & Hl & Hr). exists j. split; [lia|done]. }
  fold (loadable elf i). destruct (loadable elf i) eqn:Hl.
  - destruct HR as [R1 R2 R3 R4] eqn:Er. clear Er.
    destruct (R2 i ltac:(lia) Hl) as [A1 A2].
    eapply runs_to_bind; [apply load_segment_ok; [done|done|apply R1; [lia|done]|done|done|apply R3; [lia|done]]|].
    intros [r m1] (-> & Hld & Hc). cbn [Z.ltb]. change (0 <? 0) with false. cbn iota.
    eapply runs_to_mono; [apply IH; [lia|lia|by eapply room_next]|]. intros [r m2] (-> & Hrest & Hc2).
    split_and!; [done| |].
    + intros j Hj Hlj. destruct (decide (j = i)) as [->|]; [|apply Hrest; [lia|done]].
      eapply loaded_ext; [exact Hld|]. intros x Hx. destruct Hc2 as [_ Hc2]. apply Hc2.
      intros (k & Hk & Hlk & Hrk). unfold rng in Hrk.
      destruct (R4 i k ltac:(lia) ltac:(lia) ltac:(lia) Hl Hlk); unfold place in *; lia.
    + eapply changes_trans; [|by apply Hmono]. eapply changes_mono; [exact Hc|].
      intros x Hx. exists i. split_and!; [lia|lia|done|done].
  - eapply runs_to_mono; [apply IH; [lia|lia|eapply room_next; [exact HR|apply (changes_refl (fun _ => False))]]|].
    intros [r m2] (-> & Hrest & Hc2). split_and!; [done| |by apply Hmono].
    intros j Hj Hlj. apply Hrest; [|done]. enough (j <> i) by lia. intros ->. congruence.
Qed.

Lemma load_with_ok m :
  room m 0 (phnum elf) ->
  runs_to (load_with dest_of elf (len elf) m) (fun '(r, m') =>
    r = 0 /\ (forall j, 0 <= j < phnum elf -> loadable elf j = true -> loaded m' (place j) j) /\
    changes (in_segments 0 (phnum elf)) m m').
Proof.
  intros HR. pose proof (eo_len _ E). pose proof phnum_range. unfold load_with. rewrite (eo_valid _ E).
  rewrite (validate_is64 elf (len elf) (eo_valid _ E)).
  cbn [mbind outcome_bind negb]. unfold elf_get_entry64, e_entry, elf_get_phnum64, e_phnum.
  rewrite get64_ok, get16_ok by lia. cbn [mbind outcome_bind]. fold (h16 elf 56) (phnum elf).
  apply load_loop_ok; [lia|lia|done].
Qed.
End File.

(** ** Theorems *)

(** C37. elf_load_program loads a well-formed file: if the program headers and
    the bytes of the loadable segments lie inside of the file, and the places of
    the segments exist in memory and do not overlap, the call returns 0, each
    segment is at [dest + p_vaddr] with the bytes of the file followed by zeros
    up to p_memsz, and nothing else in memory has changed. *)
Theorem elf_load_correct elf dest m :
  elf_ok elf -> room elf (fun v => u64 (dest + v)) m 0 (phnum elf) ->
  runs_to (elf_load_program dest elf (len elf) m) (fun '(r, m') =>
    r = 0 /\
    (forall i, 0 <= i < phnum elf -> loadable elf i = true -> loaded elf m' (u64 (dest + vaddr elf i)) i) /\
    changes (in_segments elf (fun v => u64 (dest + v)) 0 (phnum elf)) m m').
Proof. intros E HR. exact (load_with_ok elf E _ m HR). Qed.

(** The parser checks no offset against the size of the file: a file of 16 bytes
    passes the validation, and loading it reads the header behind its end. *)
Theorem elf_no_bounds elf m dest :
  elf_validate elf (len elf) = Ret true -> len elf < 32 ->
  elf_load_program dest elf (len elf) m = Fault OutOfBounds.
Proof.
  intros Hv Hl. unfold elf_load_program, load_with. rewrite Hv. cbn [mbind outcome_bind negb].
  rewrite (validate_is64 _ _ Hv).
  cbn [mbind outcome_bind negb]. unfold elf_get_entry64, e_entry, get64, mem_read.
  rewrite (proj2 (Z.leb_gt (24 + 8) (len elf))) by lia. by rewrite andb_false_r.
Qed.

(** ** Modules *)

Lemma page_mask a : Z.land a (Z.lnot 0xFFF) = a / 4096 * 4096.
Proof.
  rewrite <- Z.ldiff_land. change 0xFFF with (Z.ones 12). rewrite Z.ldiff_ones_r by lia.
  by rewrite Z.shiftl_mul_pow2, Z.shiftr_div_pow2 by lia.
Qed.

Lemma page_up_ok x : 0 <= x < 2 ^ 63 -> x <= page_up x <= x + 0xFFF /\ page_up x mod 4096 = 0.
Proof.
  change (2 ^ 63) with 9223372036854775808. intros Hx. unfold page_up. rewrite u64_id, page_mask by lia.
  split; [|apply Z.mod_mul; lia]. pose proof (Z.div_mod (x + 4095) 4096 ltac:(lia)).
  pose proof (Z.mod_pos_bound (x + 4095) 4096 ltac:(lia)). lia.
Qed.

Section Modules.
Context (elf : list Z) (E : elf_ok elf).

(** The loadable segments of a module are low enough to be relocated. *)
Definition low (i : Z) : Prop := vaddr elf i + memsz elf i < 2 ^ 62.

Lemma span_loop_ok n : forall i mn mx,
  0 <= i -> i + Z.of_nat n = phnum elf -> 0 <= mn <= UINT64_MAX -> 0 <= mx < 2 ^ 62 ->
  (forall j, i <= j < phnum elf -> loadable elf j = true -> low j) ->
  runs_to (span_loop n elf i mn mx) (fun '(mn', mx') =>
    0 <= mn' <= mn /\ mx <= mx' < 2 ^ 62 /\
    (mn' < mn -> exists j, i <= j < phnum elf /\ loadable elf j = true /\ mn' = vaddr elf j) /\
    forall j, i <= j < phnum elf -> loadable elf j = true -> mn' <= vaddr elf j /\ vaddr elf j + memsz elf j <= mx').
Proof.
  change (2 ^ 62) with 4611686018427387904.
  induction n as [|n IH]; intros i mn mx H0 Hn Hmn Hmx Hlow; cbn [span_loop].
  { split_and!; try lia; intros; lia. }
  assert (0 <= i < phnum elf) as Hi by lia. rewrite get_phdr_ok by done. cbn [mbind outcome_bind].
  destruct (hdr_fields elf E i Hi) as (-> & _ & _ & -> & _ & ->). cbn [mbind outcome_bind].
  destruct (field_range elf E i Hi) as (_ & Rv & _ & Rm). fold (loadable elf i).
  destruct (loadable elf i) eqn:Hl.
  - pose proof (Hlow i ltac:(lia) Hl) as Hli. unfold low in Hli. change (2 ^ 62) with 4611686018427387904 in Hli.
    rewrite u64_id by lia.
    eapply runs_to_mono; [apply IH; [lia|lia|destruct (Z.ltb_spec (vaddr elf i) mn); lia|destruct (Z.ltb_spec mx (vaddr elf i + memsz elf i)); lia|]|].
    { intros j Hj. apply Hlow. lia. }
    intros [mn' mx'] (H1 & H2 & H3 & H4). split_and!; try lia.
    + destruct (Z.ltb_spec (vaddr elf i) mn); lia.
    + destruct (Z.ltb_spec mx (vaddr elf i + memsz elf i)); lia.
    + intros Hlt. destruct (Z.ltb_spec (vaddr elf i) mn) as [Hv|Hv].
      * destruct (Z.lt_ge_cases mn' (vaddr elf i)) as [Hc|Hc].
        -- destruct (H3 Hc) as (j & Hj & ?). exists j. split; [lia|done].
        -- exists i. split_and!; [lia|lia|done|lia].
      * destruct (H3 Hlt) as (j & Hj & ?). exists j. split; [lia|done].
    + intros j Hj Hlj. destruct (decide (j = i)) as [->|]; [|apply H4; [lia|done]].
      destruct (Z.ltb_spec (vaddr elf i) mn), (Z.ltb_spec mx (vaddr elf i + memsz elf i)); lia.
  - eapply runs_to_mono; [apply IH; [lia..|]|].
    { intros j Hj. apply Hlow. lia. }
    intros [mn' mx'] (H1 & H2 & H3 & H4). split_and!; try lia.
    + intros Hlt. destruct (H3 Hlt) as (j & Hj & ?). exists j. split; [lia|done].
    + intros j Hj Hlj. apply H4; [|done]. enough (j <> i) by lia. intros ->. congruence.
Qed.

Lemma info_loop_runs n : forall i info, 0 <= i -> i + Z.of_nat n = phnum elf ->
  runs_to (info_loop n elf i info) (fun r => entry_point r = entry_point info).
Proof.
  induction n as [|n IH]; intros i info H0 Hn; cbn [info_loop]; [done|].
  assert (0 <= i < phnum elf) as Hi by lia. rewrite get_phdr_ok by done. cbn [mbind outcome_bind].
  destruct (hdr_fields elf E i Hi) as (-> & -> & _ & -> & -> & ->). cbn [mbind outcome_bind].
  destruct (h32 elf (hdr elf i) =? PT_LOAD); cbn [negb]; [|apply IH; lia].
  destruct (Z.land (flags elf i) PF_X =? 0); cbn [negb mbind outcome_bind];
    [destruct (Z.land (flags elf i) PF_W =? 0); cbn [negb mbind outcome_bind]|];
    (eapply runs_to_mono; [apply IH; lia|]; intros r Hr; exact Hr).
Qed.

Lemma program_info_ok :
  runs_to (elf_get_program_info elf (len elf)) (fun r => exists info, r = Some info /\ entry_point info = h64 elf 24).
Proof.
  pose proof (eo_len _ E). pose proof (phnum_range elf E). unfold elf_get_program_info.
  rewrite (eo_valid _ E), (validate_is64 _ _ (eo_valid _ E)). cbn [mbind outcome_bind negb].
  unfold elf_get_entry64, e_entry, elf_get_phnum64, e_phnum. rewrite get64_ok, get16_ok by lia.
  cbn [mbind outcome_bind]. fold (h16 elf 56) (phnum elf).
  eapply runs_to_bind; [apply info_loop_runs; lia|]. intros info Hinfo. cbn. eauto.
Qed.
End Modules.

Section Placement.
Context {H : Type} (alloc : Z -> H -> option Z * H) (free : Z -> H -> H).
Context (elf : list Z) (E : elf_ok elf).

(** The loadable segments, at least one of them not empty, lie in the file and
    do not overlap. *)
Record module_ok : Prop := {
  mo_some : exists i, 0 <= i < phnum elf /\ loadable elf i = true /\ 0 < memsz elf i;
  mo_seg : forall i, 0 <= i < phnum elf -> loadable elf i = true -> seg_ok elf i /\ low elf i;
  mo_disjoint : forall i j, 0 <= i < phnum elf -> 0 <= j < phnum elf -> i <> j ->
    loadable elf i = true -> loadable elf j = true ->
    vaddr elf i + memsz elf i <= vaddr elf j \/ vaddr elf j + memsz elf j <= vaddr elf i;
}.

(** What kmalloc promises: memory of the size asked for. *)
Definition alloc_ok (m : mem) : Prop :=
  forall n h p h', 0 <= n -> alloc n h = (Some p, h') -> 0 < p /\ p + n < 2 ^ 63 /\ mapped m p n.

(** Loading the segments of a module relative to [base] at [addr]. *)
Lemma relative_room m base addr size :
  module_ok -> 0 <= base -> 0 <= addr -> addr + size < 2 ^ 63 -> mapped m addr size ->
  (forall i, 0 <= i < phnum elf -> loadable elf i = true -> base <= vaddr elf i /\ vaddr elf i + memsz elf i <= base + size) ->
  room elf (fun v => u64 (addr + u64 (v - base))) m 0 (phnum elf) /\
  forall i, 0 <= i < phnum elf -> loadable elf i = true ->
    place elf (fun v => u64 (addr + u64 (v - base))) i = addr + (vaddr elf i - base).
Proof.
  intros [_ Hseg Hdis] Hb Ha Hfit Hm Hin. change (2 ^ 63) with 9223372036854775808 in Hfit.
  assert (forall i, 0 <= i < phnum elf -> loadable elf i = true ->
    place elf (fun v => u64 (addr + u64 (v - base))) i = addr + (vaddr elf i - base)) as Hp.
  { intros i Hi Hl. destruct (Hin i Hi Hl). destruct (field_range elf E i Hi) as (_ & Rv & _ & Rm).
    unfold place. rewrite (u64_id (vaddr elf i - base)), u64_id by lia. done. }
  split; [|exact Hp]. split.
  - intros i Hi Hl. by apply Hseg.
  - intros i Hi Hl. rewrite (Hp i Hi Hl). destruct (Hin i Hi Hl). destruct (field_range elf E i Hi) as (_ & Rv & _ & Rm).
    change (2 ^ 64) with 18446744073709551616. lia.
  - intros i Hi Hl. rewrite (Hp i Hi Hl). destruct (Hin i Hi Hl). eapply mapped_sub; [exact Hm|lia|lia].
  - intros i j Hi Hj Hne Hl Hl'. rewrite (Hp i Hi Hl), (Hp j Hj Hl').
    destruct (Hdis i j Hi Hj Hne Hl Hl'); lia.
Qed.

(** kmodule_load places a well-formed module inside of the memory that kmalloc
    returned for it: the only failure is the lack of memory; otherwise the module
    is loaded at a page boundary, every segment with its bytes and its zeros at
    its distance from the lowest segment, the entry point moves along, and no
    byte outside of the allocated block has changed. *)
Theorem module_placed elf_ptr m h :
  module_ok -> alloc_ok m ->
  runs_to (kmodule_place alloc free elf (len elf) elf_ptr m h) (fun '(r, m', _) =>
    r = inl (-9) /\ m' = m \/
    exists base size p addr, (alloc size h).1 = Some p /\
      r = inr (addr, u64 (h64 elf 24 - base + addr)) /\ addr mod 4096 = 0 /\ p <= addr /\
      changes (rng p size) m m' /\
      forall i, 0 <= i < phnum elf -> loadable elf i = true ->
        base <= vaddr elf i /\ addr + (vaddr elf i - base) + memsz elf i <= p + size /\
        loaded elf m' (addr + (vaddr elf i - base)) i).
Proof.
  intros HM HA. pose proof (eo_len _ E). pose proof (phnum_range elf E). unfold kmodule_place.
  rewrite (eo_valid _ E). cbn [mbind outcome_bind negb].
  eapply runs_to_bind; [by apply program_info_ok|]. intros ? (info & -> & Hentry).
  unfold elf_get_phnum64, e_phnum. rewrite get16_ok by lia. cbn [mbind outcome_bind]. fold (h16 elf 56) (phnum elf).
  eapply runs_to_bind; [apply span_loop_ok; [done|lia|lia|unfold UINT64_MAX; lia|lia|]|].
  { intros j Hj Hl. by apply (mo_seg HM). }
  intros [mn mx] (B1 & B2 & _ & H4). destruct (mo_some HM) as (i0 & Hi0 & Hl0 & Hm0).
  destruct (H4 i0 Hi0 Hl0) as [Hv0 He0]. destruct (mo_seg HM i0 Hi0 Hl0) as [_ Hlow0].
  destruct (field_range elf E i0 Hi0) as (_ & Rv & _ & Rm). unfold low in Hlow0.
  change (2 ^ 62) with 4611686018427387904 in *.
  rewrite (proj2 (Z.eqb_neq mn UINT64_MAX)), (proj2 (Z.eqb_neq mx 0)) by (unfold UINT64_MAX; lia). cbn [orb].
  rewrite (u64_id (mx - mn)) by lia.
  destruct (page_up_ok (mx - mn)) as [Ht _]; [change (2 ^ 63) with 9223372036854775808; lia|].
  set (total := page_up (mx - mn)) in *. rewrite (u64_id (total + 0x1000)) by lia.
  destruct (alloc (total + 0x1000) h) as [[p|] h1] eqn:Ea; [|by left].
  destruct (HA (total + 0x1000) h p h1 ltac:(lia) Ea) as (Hp & Hfit & Hmap). change (2 ^ 63) with 9223372036854775808 in *.
  destruct (page_up_ok p) as [Hpu Hal]; [change (2 ^ 63) with 9223372036854775808; lia|].
  set (addr := page_up p) in *.
  assert (len (replicate (Z.to_nat total) 0) = total) as Ez by (unfold len; rewrite length_replicate; lia).
  destruct (store_bytes_ok (replicate (Z.to_nat total) 0) m addr) as (m1 & -> & Hc1 & _).
  { rewrite Ez. eapply mapped_sub; [exact Hmap|lia|lia]. }
  rewrite Ez in Hc1. cbn [mbind outcome_bind].
  destruct (relative_room m1 mn addr total HM) as [HR Hpl]; [lia|lia|change (2 ^ 63) with 9223372036854775808; lia| | |].
  { eapply changes_mapped; [exact Hc1|]. eapply mapped_sub; [exact Hmap|lia|lia]. }
  { intros i Hi Hl. destruct (H4 i Hi Hl). lia. }
  eapply runs_to_bind; [exact (load_with_ok elf E _ m1 HR)|]. intros [r m2] (-> & Hld & Hc2).
  change (0 <? 0) with false. cbn [runs_to]. right. exists mn, (total + 0x1000), p, addr.
  rewrite Ea, Hentry. split_and!; [done|done|done|lia| |].
  - eapply changes_trans; [eapply changes_mono; [exact Hc1|unfold rng; lia]|].
    eapply changes_mono; [exact Hc2|]. intros x (i & Hi & Hl & Hr). rewrite Hpl in Hr by done.
    destruct (H4 i Hi Hl). unfold rng in *. lia.
  - intros i Hi Hl. destruct (H4 i Hi Hl). split_and!; [done|lia|]. rewrite <- (Hpl i Hi Hl). by apply Hld.
Qed.
End Placement.

(** ** A small file *)

(** ** Loading from a file *)

Section Loading.
Context {H : Type} {MH : ModuleHost H} (opened : H -> Z).

(** [opened] counts the open descriptors. *)
Record counts_files : Prop := {
  cf_open : forall p h, opened (mh_open p h).2 = opened h + (if (mh_open p h).1 <? 0 then 0 else 1);
  cf_close : forall fd h, opened (mh_close fd h) = opened h - 1;
  cf_stat : forall p h, opened (mh_stat p h).2 = opened h;
  cf_read : forall fd n h, opened (mh_readfd fd n h).2 = opened h;
  cf_kmalloc : forall n h, opened (mh_kmalloc n h).2 = opened h;
  cf_kfree : forall p h, opened (mh_kfree p h) = opened h;
  cf_entry : forall e m h, opened (mh_entry e m h).2 = opened h;
}.

Lemma bind_ret_inv {A B} (o : outcome A) (f : A -> outcome B) b : o ≫= f = Ret b -> exists a, o = Ret a /\ f a = Ret b.
Proof. destruct o; cbn; try done. eauto. Qed.

Lemma place_opened elf size ptr m h r m' h' :
  counts_files -> kmodule_place mh_kmalloc mh_kfree elf size ptr m h = Ret (r, m', h') -> opened h' = opened h.
Proof.
  intros C. unfold kmodule_place. intros (valid & _ & E)%bind_ret_inv. destruct valid; cbn [negb] in E.
  2:{ injection E as _ _ <-. apply (cf_kfree C). }
  apply bind_ret_inv in E as (info & _ & E). destruct info as [info|]; [|injection E as _ _ <-; apply (cf_kfree C)].
  apply bind_ret_inv in E as (phn & _ & E). apply bind_ret_inv in E as ([mn mx] & _ & E).
  destruct (_ || _); [injection E as _ _ <-; apply (cf_kfree C)|].
  match type of E with context [mh_kmalloc ?n h] => pose proof (cf_kmalloc C n h) as Hm; destruct (mh_kmalloc n h) as [[q|] h1] end;
    cbn [snd] in Hm; [|injection E as _ _ <-; by rewrite (cf_kfree C)].
  apply bind_ret_inv in E as (m1 & _ & E). apply bind_ret_inv in E as ([r1 m2] & _ & E).
  destruct (r1 <? 0); injection E as _ _ <-; by rewrite ?(cf_kfree C).
Qed.

(** kmodule_load finishes, whatever the file system, the heap and the module answer,
    as long as a complete read delivers a well-formed module: with 0 or one of the
    error codes of the missing file, the failed open, stat, allocation or read, and with
    the file closed again on every path. *)
Theorem kmodule_load_closes path m h :
  counts_files ->
  (forall fd n h bs h', mh_readfd fd n h = (n, bs, h') -> len bs = n /\ elf_ok bs /\ module_ok bs) ->
  alloc_ok mh_kmalloc m ->
  runs_to (kmodule_load path m h) (fun '(r, _, h') => (r = 0 \/ -5 <= r <= -1 \/ r = -9) /\ opened h' = opened h).
Proof.
  intros C Hread HA. unfold kmodule_load, file_exists.
  pose proof (cf_stat C path h) as H0. destruct (mh_stat path h) as [[r0 sz0] h0]. cbn [snd] in H0.
  destruct (r0 =? 0); cbn [negb runs_to]; [|split; [lia|done]].
  pose proof (cf_open C path h0) as H1. destruct (mh_open path h0) as [fd h1]. cbn [fst snd] in H1.
  destruct (fd <? 0); cbn [runs_to]; [split; lia|].
  pose proof (cf_stat C path h1) as H2. destruct (mh_stat path h1) as [[r2 n] h2]. cbn [snd] in H2.
  pose proof (cf_close C fd h2) as Hc.
  destruct (r2 =? 0); cbn [negb runs_to]; [|split; lia]. destruct (n <=? 0); cbn [runs_to]; [split; lia|].
  pose proof (cf_kmalloc C n h2) as H3. destruct (mh_kmalloc n h2) as [[q|] h3]; cbn [snd] in H3.
  2:{ cbn [runs_to]. rewrite (cf_close C). split; lia. }
  pose proof (cf_read C fd n h3) as H4. destruct (mh_readfd fd n h3) as [[k bs] h4] eqn:Er. cbn [snd] in H4.
  pose proof (cf_close C fd h4) as Hc4.
  destruct (Z.eqb_spec k n) as [->|]; cbn [negb runs_to]; [|rewrite (cf_kfree C); split; lia].
  destruct (Hread _ _ _ _ _ Er) as (<- & Hok & Hmod).
  pose proof (module_placed mh_kmalloc mh_kfree bs Hok q m (mh_close fd h4) Hmod HA) as HP.
  destruct (kmodule_place _ _ bs (len bs) q m (mh_close fd h4)) as [[[pl m1] h5]| |] eqn:Ep; [|done..].
  apply (place_opened _ _ _ _ _ _ _ _ C) in Ep. cbn [runs_to mbind outcome_bind] in *.
  destruct HP as [[-> _]|(b & sz & p & addr & _ & -> & _)]; cbn [runs_to]; [split; lia|].
  pose proof (cf_entry C (u64 (h64 bs 24 - b + addr)) m1 h5) as H6. destruct (mh_entry _ m1 h5) as [m2 h6].
  cbn [runs_to snd] in *. split; lia.
Qed.
End Loading.

Module Demo.
(** One loadable segment of four bytes and four zeros, and a note. *)
Definition phdr (type flags off vaddr filesz memsz : Z) : list Z :=
  le_bytes 4 type ++ le_bytes 4 flags ++ le_bytes 8 off ++ le_bytes 8 vaddr ++ le_bytes 8 0 ++
  le_bytes 8 filesz ++ le_bytes 8 memsz ++ le_bytes 8 4096.

Definition file : list Z :=
  [127; 69; 76; 70; 2; 1] ++ replicate 10 0 ++ replicate 8 0 ++ le_bytes 8 0x10 ++ le_bytes 8 64 ++
  replicate 14 0 ++ le_bytes 2 56 ++ le_bytes 2 2 ++ replicate 6 0 ++
  phdr 1 5 176 0x10 4 8 ++ phdr 4 4 180 0 2 2 ++ [1; 2; 3; 4; 9; 9].

Definition memory : mem := list_to_map ((fun a => (a, 7)) <$> seqZ 4096 64).

Lemma file_hdrs i : 0 <= i < phnum file -> i = 0 \/ i = 1.
Proof. change (phnum file) with 2. lia. Qed.

Lemma file_ok : elf_ok file.
Proof.
  split.
  - apply (bool_decide_eq_true_1 (Forall byte_ok file)). vm_compute. reflexivity.
  - vm_compute. split; [congruence|reflexivity].
  - vm_compute. reflexivity.
  - intros i [->| ->]%file_hdrs; vm_compute; congruence.
  - vm_compute. reflexivity.
Qed.

Lemma memory_mapped : mapped memory 4112 8.
Proof.
  intros x Hx. assert (x ∈ seqZ 4112 8) as Hin by (apply elem_of_seqZ; lia). clear Hx. revert x Hin.
  apply Forall_forall. apply (bool_decide_eq_true_1 (Forall (fun x => is_Some (memory !! x)) (seqZ 4112 8))).
  vm_compute. reflexivity.
Qed.

Lemma file_room : room file (fun v => u64 (4096 + v)) memory 0 (phnum file).
Proof.
  split.
  - intros i [->| ->]%file_hdrs Hl; [split; vm_compute; congruence|done].
  - intros i [->| ->]%file_hdrs Hl; [split; vm_compute; congruence|done].
  - intros i [->| ->]%file_hdrs Hl; [exact memory_mapped|done].
  - intros i j [->| ->]%file_hdrs [->| ->]%file_hdrs Hne Hl Hl'; done.
Qed.

Lemma elf_load_correct_witness :
  runs_to (elf_load_program 4096 file (len file) memory) (fun '(r, m') =>
    r = 0 /\ loaded file m' 4112 0 /\ m' !! 4114 = Some 3 /\ m' !! 4117 = Some 0 /\ m' !! 4120 = Some 7).
Proof.
  refine (runs_to_mono _ _ _ (elf_load_correct file 4096 memory file_ok file_room) _).
  intros [r m'] (-> & Hl & [_ Hc]).
  assert (loaded file m' 4112 0) as H0 by (exact (Hl 0 ltac:(vm_compute; split; congruence) eq_refl)).
  assert (memsz file 0 = 8) as E8 by (vm_compute; reflexivity).
  split_and!; [reflexivity|exact H0| | |].
  - exact (H0 2 ltac:(rewrite E8; lia)).
  - exact (H0 5 ltac:(rewrite E8; lia)).
  - rewrite Hc; [vm_compute; reflexivity|].
    intros (i & Hi & Hli & Hr). destruct (file_hdrs i Hi) as [->| ->]; [|done].
    unfold rng in Hr. rewrite E8 in Hr. change (place file (fun v => u64 (4096 + v)) 0) with 4112 in Hr. lia.
Defined.
End Demo.
