(* ===== verification/Slab.v ===== *)
(** * The slab caches: model

    core/kernel/mem/slab.c and include/core/kernel/mem/slab.h.  A slab page is a
    4 KiB block of the buddy allocator: a header of 40 bytes, then objects of one
    size; a free object holds the link of the free list in its first eight
    bytes.  All of it lives in the memory ([Memory]), at the offsets that the
    x86_64 ABI gives the fields of [slab_page_t]; so the objects a client holds,
    the links and the headers share one store.  A [slab_page_t *] is an address,
    [0] is NULL.

    The global caches and the per-CPU caches have the same three fields (and
    the lock, left out), so both are the record [cache]; the source passes their
    list heads as [slab_page_t **], here the list operations return the new head.
    Every operation is one step: the global caches are used under their lock,
    the CPU caches by their processor.  [cpu] is the value that
    smp_current_cpu_id() returns to the caller. *)

From stdpp Require Import gmap.
From S2P Require Import Prelude Bytes Buddy CpuPool Memory.

Definition SLAB_SIZES_COUNT : Z := 8.
Definition obj_sizes : list Z := [8; 16; 32; 64; 128; 256; 512; 1024].
Definition SLAB_PAGE_SIZE : Z := 4096.
Definition SLAB_MAGIC : Z := 0x5AB50BEC.
Definition SLAB_MAX_CPUS : Z := 64.
Definition SLAB_CPU_NONE : Z := 0xFFFF.

(** ** The header of a page *)

Definition sizeof_slab_page : Z := 40.

Definition f_next (page : Z) : Z := page + 0.
Definition f_prev (page : Z) : Z := page + 8.
Definition f_magic (page : Z) : Z := page + 16.
Definition f_obj_size (page : Z) : Z := page + 20.
Definition f_total_count (page : Z) : Z := page + 22.
Definition f_free_count (page : Z) : Z := page + 24.
Definition f_owner_cpu (page : Z) : Z := page + 26.
Definition f_freelist (page : Z) : Z := page + 32.

Record cache := mkcache { c_obj_size : Z; c_partial : Z; c_full : Z }.
Record cpu_slab := mkcs { cs_caches : list cache; cs_initialized : Z }.

(** The static arrays of slab.c, the memory and the page allocators below. *)
Record slab_state := mkslab {
  s_mem : mem;
  s_pools : pools;
  caches : list cache;
  cpu_slabs : list cpu_slab
}.

Definition set_mem s m := mkslab m (s_pools s) (caches s) (cpu_slabs s).
Definition set_pools s p := mkslab (s_mem s) p (caches s) (cpu_slabs s).

Definition set_partial c h := mkcache (c_obj_size c) h (c_full c).
Definition set_full c h := mkcache (c_obj_size c) (c_partial c) h.

(** Writing back through [&caches[i]] and [&cpu_slabs[cpu].caches[i]]. *)
Definition put_global (s : slab_state) (i : Z) (c : cache) : outcome slab_state :=
  cs ← aset (caches s) i c;
  Ret (mkslab (s_mem s) (s_pools s) cs (cpu_slabs s)).

Definition get_cpu (s : slab_state) (cpu i : Z) : outcome cache :=
  cs ← aget (cpu_slabs s) cpu; aget (cs_caches cs) i.

Definition put_cpu (s : slab_state) (cpu i : Z) (c : cache) : outcome slab_state :=
  cs ← aget (cpu_slabs s) cpu;
  l ← aset (cs_caches cs) i c;
  css ← aset (cpu_slabs s) cpu (mkcs l (cs_initialized cs));
  Ret (mkslab (s_mem s) (s_pools s) (caches s) css).

(** ** Lists of pages *)

Definition list_remove (m : mem) (head page : Z) : outcome (mem * Z) :=
  prev ← load 8 m (f_prev page);
  '(m, head) ← (if negb (prev =? 0) then
                  next ← load 8 m (f_next page);
                  m ← store 8 m (f_next prev) next; Ret (m, head)
                else
                  next ← load 8 m (f_next page); Ret (m, next));
  next ← load 8 m (f_next page);
  m ← (if negb (next =? 0) then
         prev ← load 8 m (f_prev page); store 8 m (f_prev next) prev
       else Ret m);
  m ← store 8 m (f_next page) 0;
  m ← store 8 m (f_prev page) 0;
  Ret (m, head).

Definition list_push (m : mem) (head page : Z) : outcome (mem * Z) :=
  m ← store 8 m (f_prev page) 0;
  m ← store 8 m (f_next page) head;
  m ← (if negb (head =? 0) then store 8 m (f_prev head) page else Ret m);
  Ret (m, page).

(** ** New pages *)

(** The loop over the objects of a page; it advances by at least one byte, so
    [fuel] of one unit per byte of the page and one for the last test is
    enough.  An object size of zero would never end. *)
Fixpoint carve_loop (fuel : nat) (m : mem) (page p stop obj_size count : Z) : outcome (mem * Z) :=
  match fuel with
  | O => OutOfFuel
  | S fuel' =>
      if u64 (p + obj_size) <=? stop then
        fl ← load 8 m (f_freelist page);
        m ← store 8 m p fl;
        m ← store 8 m (f_freelist page) p;
        carve_loop fuel' m page (u64 (p + obj_size)) stop obj_size (u16 (count + 1))
      else Ret (m, count)
  end.

Definition slab_page_init (m : mem) (page obj_size owner : Z) : outcome mem :=
  m ← store 4 m (f_magic page) SLAB_MAGIC;
  m ← store 2 m (f_obj_size page) obj_size;
  m ← store 8 m (f_next page) 0;
  m ← store 8 m (f_prev page) 0;
  m ← store 8 m (f_freelist page) 0;
  m ← store 2 m (f_owner_cpu page) owner;
  '(m, count) ← carve_loop (S (Z.to_nat SLAB_PAGE_SIZE)) m page (u64 (page + sizeof_slab_page))
                  (u64 (page + SLAB_PAGE_SIZE)) obj_size 0;
  m ← store 2 m (f_total_count page) count;
  store 2 m (f_free_count page) count.

Definition alloc_raw_page (s : slab_state) (obj_size owner : Z) : outcome (slab_state * Z) :=
  '(b, raw) ← buddy_alloc (the_buddy (s_pools s)) SLAB_PAGE_SIZE;
  let s := set_pools s (set_buddy (s_pools s) b) in
  if raw =? 0 then Ret (s, 0) else
  m ← slab_page_init (s_mem s) raw obj_size owner;
  Ret (set_mem s m, raw).

Definition cache_index_for_size (obj_size : Z) : Z :=
  default (-1) (first_index (fun z => u16 z =? obj_size) obj_sizes).

(** ** Initialisation *)

Definition slab_init (s : slab_state) : outcome slab_state :=
  Ret (mkslab (s_mem s) (s_pools s)
         (map (fun z => mkcache (u16 z) 0 0) obj_sizes)
         (map (fun cs => mkcs (cs_caches cs) 0) (cpu_slabs s))).

Definition slab_cpu_init (s : slab_state) (cpu : Z) : outcome slab_state :=
  if SLAB_MAX_CPUS <=? cpu then Ret s else
  css ← aset (cpu_slabs s) cpu (mkcs (map (fun z => mkcache (u16 z) 0 0) obj_sizes) 1);
  Ret (mkslab (s_mem s) (s_pools s) (caches s) css).

(** ** Objects *)

(** The free list and the count of a page. *)
Definition pop_free (m : mem) (page : Z) : outcome (mem * Z) :=
  obj ← load 8 m (f_freelist page);
  next ← load 8 m obj;
  m ← store 8 m (f_freelist page) next;
  n ← load 2 m (f_free_count page);
  m ← store 2 m (f_free_count page) (n - 1);
  Ret (m, obj).

Definition push_free (m : mem) (page ptr : Z) : outcome mem :=
  fl ← load 8 m (f_freelist page);
  m ← store 8 m ptr fl;
  m ← store 8 m (f_freelist page) ptr;
  n ← load 2 m (f_free_count page);
  store 2 m (f_free_count page) (n + 1).

(** The common end of an allocation: take the first object of the free list of
    [page]; a page that has become full moves to the other list. *)
Definition pop_object (m : mem) (c : cache) (page : Z) : outcome (mem * cache * Z) :=
  '(m, obj) ← pop_free m page;
  n ← load 2 m (f_free_count page);
  if n =? 0 then
    '(m, h) ← list_remove m (c_partial c) page;
    let c := set_partial c h in
    '(m, h) ← list_push m (c_full c) page;
    Ret (m, set_full c h, obj)
  else Ret (m, c, obj).

(** The common body of the two functions that free. *)
Definition push_object (m : mem) (c : cache) (page ptr : Z) : outcome (mem * cache) :=
  n ← load 2 m (f_free_count page);
  m ← push_free m page ptr;
  if n =? 0 then
    '(m, h) ← list_remove m (c_full c) page;
    let c := set_full c h in
    '(m, h) ← list_push m (c_partial c) page;
    Ret (m, set_partial c h)
  else Ret (m, c).

(** A page with a free object on the partial list of the CPU cache: the one
    that is there, one of the global cache, or a new one; [0] without memory. *)
Definition cpu_refill (s : slab_state) (cpu idx : Z) : outcome (slab_state * Z) :=
  cc ← get_cpu s cpu idx;
  if negb (c_partial cc =? 0) then Ret (s, c_partial cc) else
  gc ← aget (caches s) idx;
  let page := c_partial gc in
  if negb (page =? 0) then
    '(m, h) ← list_remove (s_mem s) (c_partial gc) page;
    s ← put_global (set_mem s m) idx (set_partial gc h);
    m ← store 2 (s_mem s) (f_owner_cpu page) (u16 cpu);
    '(m, h) ← list_push m (c_partial cc) page;
    s ← put_cpu (set_mem s m) cpu idx (set_partial cc h);
    Ret (s, page)
  else
    '(s, page) ← alloc_raw_page s (c_obj_size cc) (u16 cpu);
    if page =? 0 then Ret (s, 0) else
    '(m, h) ← list_push (s_mem s) (c_partial cc) page;
    s ← put_cpu (set_mem s m) cpu idx (set_partial cc h);
    Ret (s, page).

Definition cpu_cache_alloc (s : slab_state) (cpu idx : Z) : outcome (slab_state * Z) :=
  '(s, page) ← cpu_refill s cpu idx;
  if page =? 0 then Ret (s, 0) else
  cc ← get_cpu s cpu idx;
  '(m, cc, obj) ← pop_object (s_mem s) cc page;
  s ← put_cpu (set_mem s m) cpu idx cc;
  Ret (s, obj).

Definition cpu_cache_free (s : slab_state) (cpu idx page ptr : Z) : outcome slab_state :=
  cc ← get_cpu s cpu idx;
  '(m, cc) ← push_object (s_mem s) cc page ptr;
  put_cpu (set_mem s m) cpu idx cc.

Definition global_cache_free (s : slab_state) (idx page ptr : Z) : outcome slab_state :=
  gc ← aget (caches s) idx;
  '(m, gc) ← push_object (s_mem s) gc page ptr;
  put_global (set_mem s m) idx gc.

Definition global_refill (s : slab_state) (idx : Z) : outcome (slab_state * Z) :=
  gc ← aget (caches s) idx;
  if negb (c_partial gc =? 0) then Ret (s, c_partial gc) else
  '(s, page) ← alloc_raw_page s (c_obj_size gc) SLAB_CPU_NONE;
  if page =? 0 then Ret (s, 0) else
  '(m, h) ← list_push (s_mem s) (c_partial gc) page;
  s ← put_global (set_mem s m) idx (set_partial gc h);
  Ret (s, page).

(** [cpu < SLAB_MAX_CPUS && cpu_slabs[cpu].initialized]. *)
Definition cpu_started (s : slab_state) (cpu : Z) : outcome bool :=
  if cpu <? SLAB_MAX_CPUS then
    cs ← aget (cpu_slabs s) cpu; Ret (negb (cs_initialized cs =? 0))
  else Ret false.

Definition slab_alloc (s : slab_state) (cpu size : Z) : outcome (slab_state * Z) :=
  match first_index (fun c => negb (c_obj_size c <? size)) (caches s) with
  | None => Ret (s, 0)
  | Some i =>
      started ← cpu_started s cpu;
      if (started : bool) then cpu_cache_alloc s cpu i else
      '(s, page) ← global_refill s i;
      if page =? 0 then Ret (s, 0) else
      gc ← aget (caches s) i;
      '(m, gc, obj) ← pop_object (s_mem s) gc page;
      s ← put_global (set_mem s m) i gc;
      Ret (s, obj)
  end.

(** [ptr & ~(uintptr_t)(SLAB_PAGE_SIZE - 1)]. *)
Definition page_of (ptr : Z) : Z := Z.land ptr (u64 (Z.lnot (SLAB_PAGE_SIZE - 1))).

Definition slab_free (s : slab_state) (cpu ptr : Z) : outcome slab_state :=
  if ptr =? 0 then Ret s else
  let page := page_of ptr in
  magic ← load 4 (s_mem s) (f_magic page);
  if negb (magic =? SLAB_MAGIC) then Ret s else
  obj_size ← load 2 (s_mem s) (f_obj_size page);
  let idx := cache_index_for_size obj_size in
  if idx <? 0 then Ret s else
  owner ← load 2 (s_mem s) (f_owner_cpu page);
  mine ← (if negb (owner =? SLAB_CPU_NONE) && (owner =? u16 cpu) then cpu_started s cpu else Ret false);
  if (mine : bool) then cpu_cache_free s cpu idx page ptr else
  other ← (if negb (owner =? SLAB_CPU_NONE) then cpu_started s owner else Ret false);
  if (other : bool) then
    s ← global_cache_free s idx page ptr;
    m ← store 2 (s_mem s) (f_owner_cpu page) SLAB_CPU_NONE;
    Ret (set_mem s m)
  else global_cache_free s idx page ptr.

Definition slab_owns (m : mem) (ptr : Z) : outcome bool :=
  if ptr =? 0 then Ret false else
  magic ← load 4 m (f_magic (page_of ptr));
  Ret (magic =? SLAB_MAGIC).

Definition slab_alloc_cpu (s : slab_state) (current cpu size : Z) : outcome (slab_state * Z) :=
  started ← cpu_started s cpu;
  if negb started then slab_alloc s current size else
  cs ← aget (cpu_slabs s) cpu;
  match first_index (fun c => negb (c_obj_size c <? size)) (cs_caches cs) with
  | None => Ret (s, 0)
  | Some i => cpu_cache_alloc s cpu i
  end.

Definition slab_free_cpu (s : slab_state) (current ptr : Z) : outcome slab_state := slab_free s current ptr.
