(* ===== verification/SlabProofs.v ===== *)
(** * The slab caches: lists of pages and free lists

    The doubly linked lists of pages and the free list of a page as predicates
    on the memory, and the list operations of slab.c over them. *)

From stdpp Require Import gmap.
From S2P Require Import Prelude Bytes Buddy BuddyProofs BuddyTheorems CpuPool Memory Slab.

(** ** Pages in memory *)

(** The address of a page: aligned, not NULL, and all of it exists.  (At the
    very top of the address space the end of a page would wrap around.) *)
Definition page_at (m : mem) (a : Z) : Prop :=
  0 < a /\ a mod SLAB_PAGE_SIZE = 0 /\ a + 2 * SLAB_PAGE_SIZE <= 2 ^ 64 /\ mapped m a SLAB_PAGE_SIZE.

(** Pages that do not overlap. *)
Definition pages_at (m : mem) (l : list Z) : Prop := NoDup l /\ Forall (page_at m) l.

Lemma page_at_changes P m m' a : changes P m m' -> page_at m a -> page_at m' a.
Proof. intros Hc (? & ? & ? & ?). split_and!; eauto using changes_mapped. Qed.

Lemma pages_at_changes P m m' l : changes P m m' -> pages_at m l -> pages_at m' l.
Proof. intros Hc [? H]. split; [done|]. eapply Forall_impl; eauto using page_at_changes. Qed.

Lemma aligned_apart a b :
  a mod SLAB_PAGE_SIZE = 0 -> b mod SLAB_PAGE_SIZE = 0 -> a <> b ->
  a + SLAB_PAGE_SIZE <= b \/ b + SLAB_PAGE_SIZE <= a.
Proof. unfold SLAB_PAGE_SIZE. intros. Z.div_mod_to_equations. lia. Qed.

Lemma pages_at_perm m l l' : pages_at m l -> l ≡ₚ l' -> pages_at m l'.
Proof. intros [Hn Hf] Hperm. split; by rewrite <- Hperm. Qed.

Lemma pages_at_sub m l l' : pages_at m (l ++ l') -> pages_at m l /\ pages_at m l'.
Proof. intros [(?&?&?)%NoDup_app [? ?]%Forall_app]. done. Qed.

Lemma pages_at_page m l a : pages_at m l -> a ∈ l -> page_at m a.
Proof. intros [_ H] Ha. by eapply Forall_forall in Ha. Qed.

(** The link words of the pages of a list. *)
Definition link_words (l : list Z) (x : Z) : Prop := exists a, a ∈ l /\ rng a 16 x.

(** Two lists with no page in common have no link word in common. *)
Lemma link_words_apart m l l' x :
  pages_at m (l ++ l') -> link_words l x -> link_words l' x -> False.
Proof.
  intros Hp (a & Ha & Hx) (b & Hb & Hy). unfold rng in *.
  pose proof (pages_at_page _ _ a Hp ltac:(set_solver)) as (_ & Ea & _).
  pose proof (pages_at_page _ _ b Hp ltac:(set_solver)) as (_ & Eb & _).
  destruct Hp as [(_ & Hne & _)%NoDup_app _].
  destruct (aligned_apart a b Ea Eb) as [?|?]; [intros ->; by eapply Hne|..]; unfold SLAB_PAGE_SIZE in *; lia.
Qed.

(** ** Doubly linked lists *)

(** The pages [l] in order, between [pv] before and [nx] after. *)
Fixpoint links (m : mem) (pv : Z) (l : list Z) (nx : Z) : Prop :=
  match l with
  | [] => True
  | a :: l' => reads 8 m (f_prev a) pv /\ reads 8 m (f_next a) (hd nx l') /\ links m a l' nx
  end.

Definition last_or (pv : Z) (l : list Z) : Z := default pv (last l).

Lemma last_or_snoc pv l a : last_or pv (l ++ [a]) = a.
Proof. unfold last_or. by rewrite last_snoc. Qed.

Lemma last_or_cons pv a l : last_or pv (a :: l) = last_or a l.
Proof. unfold last_or. destruct l as [|b l]; [done|]. change (last (a :: b :: l)) with (last (b :: l)).
  destruct (last (b :: l)) eqn:E; [done|]. by apply last_None in E. Qed.

Lemma links_app m pv l1 l2 nx :
  links m pv (l1 ++ l2) nx <-> links m pv l1 (hd nx l2) /\ links m (last_or pv l1) l2 nx.
Proof.
  revert pv. induction l1 as [|a l1 IH]; intros pv; cbn [links app]; [tauto|].
  rewrite IH, last_or_cons. destruct l1; simpl; tauto.
Qed.

Lemma links_ext m m' pv l nx :
  links m pv l nx -> (forall x, link_words l x -> m' !! x = m !! x) -> links m' pv l nx.
Proof.
  revert pv. induction l as [|a l IH]; intros pv; [done|]. intros (H1 & H2 & H3) Hx.
  assert (Ha : forall x, rng a 16 x -> m' !! x = m !! x) by (intros; apply Hx; exists a; split; [left|done]).
  cbn [links]. split_and!.
  - eapply reads_ext; [exact H1|]. intros x ?. apply Ha. unfold rng, f_prev in *. lia.
  - eapply reads_ext; [exact H2|]. intros x ?. apply Ha. unfold rng, f_next in *. lia.
  - apply IH; [done|]. intros x (b & ? & ?). apply Hx. exists b. split; [by right|done].
Qed.

Lemma links_changes P m m' pv l nx :
  links m pv l nx -> changes P m m' -> (forall x, P x -> link_words l x -> False) -> links m' pv l nx.
Proof. intros H [_ Hc] HP. eapply links_ext; [exact H|]. intros x Hx. apply Hc. eauto. Qed.

(** A page address fits a pointer cell. *)
Lemma page_at_word m a : page_at m a -> 0 <= a < 256 ^ Z.of_nat 8.
Proof. intros (? & ? & ? & ?). change (256 ^ Z.of_nat 8) with (2 ^ 64). unfold SLAB_PAGE_SIZE in *. lia. Qed.

Lemma hd_word m l : pages_at m l -> 0 <= hd 0 l < 256 ^ Z.of_nat 8.
Proof. intros [_ H]. destruct H; [done|]. by eapply page_at_word. Qed.

Lemma last_word m l : pages_at m l -> 0 <= last_or 0 l < 256 ^ Z.of_nat 8.
Proof.
  intros [_ H]. destruct l as [|a l _] using rev_ind; [done|]. rewrite last_or_snoc.
  apply Forall_app in H as [_ H]. inversion H; subst. by eapply page_at_word.
Qed.

Lemma page_at_field m a off n : page_at m a -> 0 <= off -> off + n <= 40 -> mapped m (a + off) n.
Proof. intros (_ & _ & _ & H) ? ?. unfold SLAB_PAGE_SIZE in H. eapply mapped_sub; [exact H|lia..]. Qed.

(** Redirecting the last page of a list, and the first. *)
Lemma relink_next m pv l nx nx' :
  links m pv l nx -> pages_at m l -> l <> [] -> 0 <= nx' < 256 ^ Z.of_nat 8 ->
  runs_to (store 8 m (f_next (last_or 0 l)) nx') (fun m' => links m' pv l nx' /\ changes (link_words l) m m').
Proof.
  intros Hl Hp Hne Hnx. destruct l as [|a l _] using rev_ind; [done|]. clear Hne. rewrite last_or_snoc.
  pose proof (pages_at_page _ _ a Hp ltac:(set_solver)) as Ha.
  eapply runs_to_mono.
  { apply store_ok; [|exact Hnx]. by apply (page_at_field m a). }
  intros m' [Hr Hc]. apply links_app in Hl as [H1 (H2 & H3 & _)]. split.
  - apply links_app. split; [|cbn [links]; split_and!; [|done|done]].
    + eapply links_changes; [exact H1|exact Hc|]. intros x Hx Hy.
      apply (link_words_apart m l [a] x Hp Hy). exists a. split; [set_solver|].
      unfold rng, f_next in *. lia.
    + eapply reads_changes; [exact H2|exact Hc|]. unfold rng, f_prev, f_next. lia.
  - eapply changes_mono; [exact Hc|]. intros x Hx. exists a. split; [set_solver|]. unfold rng, f_next in *. lia.
Qed.

Lemma relink_prev m pv pv' a l nx :
  links m pv (a :: l) nx -> pages_at m (a :: l) -> 0 <= pv' < 256 ^ Z.of_nat 8 ->
  runs_to (store 8 m (f_prev a) pv') (fun m' => links m' pv' (a :: l) nx /\ changes (link_words (a :: l)) m m').
Proof.
  intros (H1 & H2 & H3) Hp Hpv. pose proof (pages_at_page _ _ a Hp ltac:(left)) as Ha.
  eapply runs_to_mono; [apply store_ok; [by apply (page_at_field m a)|exact Hpv]|].
  intros m' [Hr Hc]. split; [cbn [links]; split_and!; [done|..]|].
  - eapply reads_changes; [exact H2|exact Hc|]. unfold rng, f_prev, f_next. lia.
  - eapply links_changes; [exact H3|exact Hc|]. intros x Hx Hy.
    apply (link_words_apart m [a] l x Hp); [|done]. exists a. split; [left|]. unfold rng, f_prev in *. lia.
  - eapply changes_mono; [exact Hc|]. intros x Hx. exists a. split; [left|]. unfold rng, f_prev in *. lia.
Qed.

Lemma link_words_sub l l' x : l ⊆ l' -> link_words l x -> link_words l' x.
Proof. intros H (a & Ha & Hx). exists a. auto. Qed.

(** [list_remove] takes any page out of its list. *)
Lemma list_remove_ok m l1 a l2 :
  links m 0 (l1 ++ a :: l2) 0 -> pages_at m (l1 ++ a :: l2) ->
  runs_to (list_remove m (hd 0 (l1 ++ a :: l2)) a) (fun '(m', h) =>
    h = hd 0 (l1 ++ l2) /\ links m' 0 (l1 ++ l2) 0 /\ changes (link_words (l1 ++ a :: l2)) m m').
Proof.
  intros Hl Hp. pose proof Hl as [H1 (Hpv & Hnx & H2)]%links_app. cbn [hd] in H1.
  pose proof (pages_at_page _ _ a Hp ltac:(set_solver)) as Ha.
  destruct (pages_at_sub _ _ _ Hp) as [Hp1 Hp2'].
  destruct (pages_at_sub _ [a] l2 Hp2') as [Hpa Hp2].
  unfold list_remove. eapply runs_to_load; [exact Hpv|].
  (* the page before, or the head *)
  eapply (runs_to_bind _ _ (fun '(m1, h) => h = hd 0 (l1 ++ l2) /\ links m1 0 l1 (hd 0 l2) /\
    changes (link_words l1) m m1)).
  { destruct (Z.eqb_spec (last_or 0 l1) 0) as [E|E]; cbn [negb].
    - eapply runs_to_load; [exact Hnx|]. destruct l1 as [|q l1 _] using rev_ind.
      + split_and!; [done..|apply changes_refl].
      + rewrite last_or_snoc in E. subst q.
        destruct (pages_at_page _ _ 0 Hp1 ltac:(set_solver)) as [? _]. lia.
    - assert (Hne : l1 <> []) by (intros ->; done). eapply runs_to_load; [exact Hnx|].
      eapply runs_to_bind; [apply (relink_next m 0 l1 a (hd 0 l2) H1 Hp1 Hne (hd_word _ _ Hp2))|].
      intros m1 [? ?]. split_and!; [by destruct l1|done|done]. }
  intros [m1 h] (-> & Hl1 & Hc1).
  assert (Hd1 : forall x, link_words l1 x -> link_words (a :: l2) x -> False)
    by (intros x; by apply (link_words_apart m)).
  assert (Hda : forall x, link_words l1 x -> rng a 16 x -> False).
  { intros x H1x H2x. apply (Hd1 x H1x). exists a. split; [left|done]. }
  eapply runs_to_load.
  { eapply reads_changes; [exact Hnx|exact Hc1|]. intros x Hx Hy. apply (Hda x Hy).
    unfold rng, f_next in *. lia. }
  assert (Hl2 : links m1 a l2 0).
  { eapply links_changes; [exact H2|exact Hc1|]. intros x Hx Hy. apply (Hd1 x Hx).
    by eapply link_words_sub; [|exact Hy]; set_solver. }
  (* the page after *)
  eapply (runs_to_bind _ _ (fun m2 => links m2 (last_or 0 l1) l2 0 /\ changes (link_words l2) m1 m2)).
  { destruct l2 as [|r l2]; cbn [hd]; [by split; [|apply changes_refl]|].
    rewrite (proj2 (Z.eqb_neq r 0)) by (destruct (pages_at_page _ _ r Hp2 ltac:(left)); lia). cbn [negb].
    eapply runs_to_load.
    { eapply reads_changes; [exact Hpv|exact Hc1|]. intros x Hx Hy. apply (Hda x Hy).
      unfold rng, f_prev in *. lia. }
    apply (relink_prev m1 a); [done|by eapply pages_at_changes|by eapply last_word]. }
  intros m2 (Hl2' & Hc2).
  pose proof (page_at_changes _ _ _ a Hc2 (page_at_changes _ _ _ a Hc1 Ha)) as Ha2.
  (* the page itself *)
  apply runs_to_store; [by apply (page_at_field m2 a 0 8); [|lia..]|done|]. intros m3 _ Hc3.
  apply runs_to_store; [apply (page_at_field m3 a 8 8); [by eapply page_at_changes|lia..]|done|].
  intros m4 _ Hc4. cbn [runs_to].
  assert (Hc : changes (rng a 16) m2 m4).
  { eapply changes_trans; (eapply changes_mono; [eassumption|]); unfold rng, f_next, f_prev; lia. }
  split; [done|]. split.
  - apply links_app. split.
    + eapply links_changes; [|exact Hc|intros x Hx Hy; by apply (Hda x)].
      eapply links_changes; [exact Hl1|exact Hc2|]. intros x Hx Hy. apply (Hd1 x Hy).
      by eapply link_words_sub; [|exact Hx]; set_solver.
    + eapply links_changes; [exact Hl2'|exact Hc|]. intros x Hx Hy.
      apply (link_words_apart m [a] l2 x Hp2'); [|done]. exists a. split; [left|done].
  - eapply changes_trans; [|eapply changes_trans].
    + eapply changes_mono; [exact Hc1|]. intros x. apply link_words_sub. set_solver.
    + eapply changes_mono; [exact Hc2|]. intros x. apply link_words_sub. set_solver.
    + eapply changes_mono; [exact Hc|]. intros x Hx. exists a. split; [set_solver|done].
Qed.

(** [list_push] puts a page in front of a list it is not in. *)
Lemma list_push_ok m a l :
  links m 0 l 0 -> pages_at m (a :: l) ->
  runs_to (list_push m (hd 0 l) a) (fun '(m', h) =>
    h = a /\ links m' 0 (a :: l) 0 /\ changes (link_words (a :: l)) m m').
Proof.
  intros Hl Hp. pose proof (pages_at_page _ _ a Hp ltac:(left)) as Ha.
  destruct (pages_at_sub _ [a] l Hp) as [_ Hpl].
  unfold list_push.
  apply runs_to_store; [by apply (page_at_field m a 8 8)|done|]. intros m1 Hr1 Hc1.
  apply runs_to_store; [|by eapply hd_word|].
  { apply (page_at_field m1 a 0 8); [by eapply page_at_changes|lia..]. }
  intros m2 Hr2 Hc2.
  assert (Hc : changes (rng a 16) m m2).
  { eapply changes_trans; (eapply changes_mono; [eassumption|]); unfold rng, f_next, f_prev; lia. }
  assert (Hd : forall x, rng a 16 x -> link_words l x -> False).
  { intros x Hx Hy. apply (link_words_apart m [a] l x Hp); [|done]. exists a. split; [left|done]. }
  assert (Hl2 : links m2 0 l 0) by (eapply links_changes; [exact Hl|exact Hc|done]).
  assert (Hp2 : pages_at m2 (a :: l)) by by eapply pages_at_changes.
  assert (Hpv2 : reads 8 m2 (f_prev a) 0)
    by (eapply reads_changes; [exact Hr1|exact Hc2|]; unfold rng, f_next, f_prev; lia).
  eapply (runs_to_bind _ _ (fun m3 => links m3 a l 0 /\ changes (link_words l) m2 m3)).
  { destruct l as [|b l]; cbn [hd]; [by split; [|apply changes_refl]|].
    rewrite (proj2 (Z.eqb_neq b 0)) by (destruct (pages_at_page _ _ b Hpl ltac:(left)); lia). cbn [negb].
    apply (relink_prev m2 0); [done|by destruct (pages_at_sub _ [a] (b :: l) Hp2)|by eapply page_at_word]. }
  intros m3 [Hl3 Hc3]. cbn [runs_to]. split; [done|]. split.
  - cbn [links]. split_and!; [| |done].
    + eapply reads_changes; [exact Hpv2|exact Hc3|]. intros x Hx Hy. apply (Hd x); [|done].
      unfold rng, f_prev in *. lia.
    + eapply reads_changes; [exact Hr2|exact Hc3|]. intros x Hx Hy. apply (Hd x); [|done].
      unfold rng, f_next in *. lia.
  - eapply changes_trans; eapply changes_mono; [exact Hc| |exact Hc3|].
    + intros x Hx. exists a. split; [left|done].
    + intros x. apply link_words_sub. set_solver.
Qed.
