(* ===== verification/SlabPages.v ===== *)
(** * The slab caches: pages and caches

    What a page and a cache of slab.c represent: a page divides its slots into
    free objects, in the order of the free list, and live objects; a cache is a
    list of pages with a free object and a list of full pages.  Taking and
    returning an object, and starting a page, over these. *)

From stdpp Require Import gmap.
From S2P Require Import Prelude Bytes Buddy BuddyProofs BuddyTheorems CpuPool Memory Slab SlabProofs.

(** ** Slots *)

Definition slot_count (sz : Z) : Z := (SLAB_PAGE_SIZE - sizeof_slab_page) / sz.

Definition slots (a sz : Z) : list Z :=
  map (fun i => a + sizeof_slab_page + i * sz) (seqZ 0 (slot_count sz)).

Definition class_size (sz : Z) : Prop := sz ∈ obj_sizes.

Lemma class_size_bounds sz : class_size sz -> 8 <= sz <= 1024 /\ 3 <= slot_count sz <= 507.
Proof.
  unfold class_size, obj_sizes. intros H.
  repeat (apply elem_of_cons in H as [->|H]; [vm_compute; repeat split; discriminate|]). by apply elem_of_nil in H.
Qed.

Lemma len_slots a sz : class_size sz -> len (slots a sz) = slot_count sz.
Proof. intros H%class_size_bounds. unfold slots, len. rewrite length_map, length_seqZ. lia. Qed.

Lemma elem_of_slots a sz o :
  o ∈ slots a sz <-> exists i, 0 <= i < slot_count sz /\ o = a + sizeof_slab_page + i * sz.
Proof.
  unfold slots. rewrite list_elem_of_fmap. setoid_rewrite elem_of_seqZ.
  split; intros (i & H1 & H2); exists i; split; try done; lia.
Qed.

Lemma slot_in_page a sz o :
  class_size sz -> o ∈ slots a sz -> a + sizeof_slab_page <= o /\ o + sz <= a + SLAB_PAGE_SIZE.
Proof.
  intros Hsz (i & Hi & ->)%elem_of_slots. pose proof (class_size_bounds sz Hsz) as [Hb _].
  unfold slot_count in Hi. pose proof (Z.mul_div_le (SLAB_PAGE_SIZE - sizeof_slab_page) sz ltac:(lia)).
  split; nia.
Qed.

Lemma slots_apart a sz o o' :
  class_size sz -> o ∈ slots a sz -> o' ∈ slots a sz -> o <> o' -> o + sz <= o' \/ o' + sz <= o.
Proof.
  intros Hsz (i & Hi & ->)%elem_of_slots (j & Hj & ->)%elem_of_slots Hne.
  pose proof (class_size_bounds sz Hsz) as [Hb _]. destruct (Z.lt_trichotomy i j) as [?|[->|?]]; [nia|done|nia].
Qed.

Lemma NoDup_slots a sz : class_size sz -> NoDup (slots a sz).
Proof.
  intros Hsz%class_size_bounds. apply NoDup_fmap_2; [|apply NoDup_seqZ].
  intros i j E. nia.
Qed.

(** ** Pages *)

Record pg := mkpg { pg_addr : Z; pg_free : list Z; pg_live : list Z }.

Fixpoint chain (m : mem) (l : list Z) : Prop :=
  match l with [] => True | o :: l' => reads 8 m o (hd 0 l') /\ chain m l' end.

Record page_ok (m : mem) (sz ow : Z) (p : pg) : Prop := {
  po_magic : reads 4 m (f_magic (pg_addr p)) SLAB_MAGIC;
  po_size : reads 2 m (f_obj_size (pg_addr p)) sz;
  po_total : reads 2 m (f_total_count (pg_addr p)) (slot_count sz);
  po_count : reads 2 m (f_free_count (pg_addr p)) (len (pg_free p));
  po_owner : reads 2 m (f_owner_cpu (pg_addr p)) ow;
  po_list : reads 8 m (f_freelist (pg_addr p)) (hd 0 (pg_free p));
  po_chain : chain m (pg_free p);
  po_slots : pg_free p ++ pg_live p ≡ₚ slots (pg_addr p) sz
}.

(** The bytes of a page that its representation depends on, links aside. *)
Definition page_words (p : pg) (x : Z) : Prop :=
  rng (pg_addr p + 16) 24 x \/ exists o, o ∈ pg_free p /\ rng o 8 x.

Lemma chain_ext m m' l :
  chain m l -> (forall o x, o ∈ l -> rng o 8 x -> m' !! x = m !! x) -> chain m' l.
Proof.
  induction l as [|o l IH]; [done|]. intros [H1 H2] Hx. split.
  - eapply reads_ext; [exact H1|]. intros x ?. apply (Hx o); [left|]. unfold rng. lia.
  - apply IH; [done|]. intros o' x Ho'. apply Hx. by right.
Qed.

Ltac fields := unfold rng, page_words, f_next, f_prev, f_magic, f_obj_size, f_total_count, f_free_count,
  f_owner_cpu, f_freelist in *.

Lemma page_ok_ext m m' sz ow p :
  page_ok m sz ow p -> (forall x, page_words p x -> m' !! x = m !! x) -> page_ok m' sz ow p.
Proof.
  intros [H1 H2 H3 H4 H5 H6 H7 H8] Hx.
  assert (Hf : forall x, rng (pg_addr p + 16) 24 x -> m' !! x = m !! x) by (intros; apply Hx; by left).
  constructor; [(eapply reads_ext; [eassumption|]; intros x ?; apply Hf; fields; lia)..| |done].
  eapply chain_ext; [done|]. intros o x Ho Hr. apply Hx. right. eauto.
Qed.

Lemma page_free_slot m sz ow p o : page_ok m sz ow p -> o ∈ pg_free p -> o ∈ slots (pg_addr p) sz.
Proof. intros H Ho. rewrite <- (po_slots _ _ _ _ H). set_solver. Qed.

Lemma page_live_slot m sz ow p o : page_ok m sz ow p -> o ∈ pg_live p -> o ∈ slots (pg_addr p) sz.
Proof. intros H Ho. rewrite <- (po_slots _ _ _ _ H). set_solver. Qed.

(** A page depends on its own bytes only. *)
Lemma page_words_in m sz ow p x :
  class_size sz -> page_ok m sz ow p -> page_words p x -> rng (pg_addr p + 16) (SLAB_PAGE_SIZE - 16) x.
Proof.
  intros Hsz Hok [Hx|(o & Ho & Hx)]; unfold SLAB_PAGE_SIZE in *; [fields; lia|].
  pose proof (slot_in_page _ sz o Hsz (page_free_slot _ _ _ _ _ Hok Ho)).
  pose proof (class_size_bounds sz Hsz). unfold SLAB_PAGE_SIZE, sizeof_slab_page in *. fields. lia.
Qed.

(** Changing the links of some pages changes none of them. *)
Lemma page_ok_links m m' sz ow p l :
  class_size sz -> page_ok m sz ow p -> changes (link_words l) m m' ->
  pg_addr p mod SLAB_PAGE_SIZE = 0 -> Forall (fun a => a mod SLAB_PAGE_SIZE = 0) l -> page_ok m' sz ow p.
Proof.
  intros Hsz Hok [_ Hc] Hp Hl. eapply page_ok_ext; [done|]. intros x Hx. apply Hc.
  intros (a & Ha & Hr). apply (page_words_in m sz ow) in Hx; [|done|done].
  eapply Forall_forall in Ha; [|exact Hl]. cbv beta in Ha. unfold rng, SLAB_PAGE_SIZE in *.
  destruct (decide (pg_addr p = a)); [lia|].
  destruct (aligned_apart (pg_addr p) a Hp Ha ltac:(done)); unfold SLAB_PAGE_SIZE in *; lia.
Qed.

(** Changing one page does not change another. *)
Lemma page_ok_other m m' sz ow p a :
  class_size sz -> page_ok m sz ow p -> changes (rng a SLAB_PAGE_SIZE) m m' ->
  pg_addr p mod SLAB_PAGE_SIZE = 0 -> a mod SLAB_PAGE_SIZE = 0 -> pg_addr p <> a -> page_ok m' sz ow p.
Proof.
  intros Hsz Hok [_ Hc] Hp Ha Hne. eapply page_ok_ext; [done|]. intros x Hx. apply Hc.
  apply (page_words_in m sz ow) in Hx; [|done|done]. unfold rng, SLAB_PAGE_SIZE in *.
  destruct (aligned_apart (pg_addr p) a Hp Ha ltac:(done)); unfold SLAB_PAGE_SIZE in *; lia.
Qed.

(** ** Caches *)

Abbreviation addrs := (map pg_addr).

Record cache_ok (m : mem) (sz ow : Z) (c : cache) (g : list pg * list pg) : Prop := {
  co_partial : c_partial c = hd 0 (addrs g.1);
  co_plinks : links m 0 (addrs g.1) 0;
  co_full : c_full c = hd 0 (addrs g.2);
  co_flinks : links m 0 (addrs g.2) 0;
  co_at : pages_at m (addrs (g.1 ++ g.2));
  co_pages : Forall (page_ok m sz ow) (g.1 ++ g.2);
  co_some : Forall (fun p => pg_free p <> []) g.1;
  co_none : Forall (fun p => pg_free p = []) g.2
}.

(** The bytes a cache depends on: headers and free objects of its pages. *)
Definition cache_words (g : list pg * list pg) (x : Z) : Prop :=
  exists p, p ∈ g.1 ++ g.2 /\ (rng (pg_addr p) 40 x \/ exists o, o ∈ pg_free p /\ rng o 8 x).

Definition headers (g : list pg * list pg) (x : Z) : Prop :=
  exists p, p ∈ g.1 ++ g.2 /\ rng (pg_addr p) 40 x.

Lemma links_words_cache l g x : l ⊆ g.1 ++ g.2 -> link_words (addrs l) x -> headers g x.
Proof.
  intros Hl (a & (p & -> & Hp)%list_elem_of_fmap & Hx). exists p. split; [auto|]. unfold rng in *. lia.
Qed.

Lemma cache_ok_ext m m' sz ow c g :
  cache_ok m sz ow c g -> (forall x, is_Some (m' !! x) <-> is_Some (m !! x)) ->
  (forall x, cache_words g x -> m' !! x = m !! x) -> cache_ok m' sz ow c g.
Proof.
  intros [H1 H2 H3 H4 H5 H6 H7 H8] Hd Hx.
  assert (Hh : forall x, headers g x -> m' !! x = m !! x).
  { intros x (p & Hp & Hr). apply Hx. exists p. split; [done|by left]. }
  constructor; [done| |done| | | |done|done].
  - eapply links_ext; [done|]. intros x Hlw. apply Hh. eapply links_words_cache; [|exact Hlw]. set_solver.
  - eapply links_ext; [done|]. intros x Hlw. apply Hh. eapply links_words_cache; [|exact Hlw]. set_solver.
  - destruct H5 as [Hn Hf]. split; [done|]. eapply Forall_impl; [exact Hf|].
    intros a (? & ? & ? & Hm). split_and!; [done..|]. intros x Hr. apply Hd, Hm, Hr.
  - apply Forall_forall. intros p Hp. eapply Forall_forall in H6; [|exact Hp].
    eapply page_ok_ext; [done|]. intros x Hw. apply Hx. exists p. split; [done|].
    destruct Hw as [?|?]; [left; fields; lia|by right].
Qed.

Lemma cache_page m sz ow c g p : cache_ok m sz ow c g -> p ∈ g.1 ++ g.2 -> page_at m (pg_addr p) /\ page_ok m sz ow p.
Proof.
  intros H Hp. split.
  - eapply pages_at_page; [apply H|]. by apply list_elem_of_fmap_2.
  - pose proof (co_pages _ _ _ _ _ H) as Hf. by eapply Forall_forall in Hf.
Qed.

Lemma pages_at_aligned m l : pages_at m l -> Forall (fun a => a mod SLAB_PAGE_SIZE = 0) l.
Proof. intros [_ H]. eapply Forall_impl; [exact H|]. by intros a (_ & ? & _). Qed.

(** The bytes of a page after its links. *)
Definition body (a : Z) : Z -> Prop := rng (a + 16) (SLAB_PAGE_SIZE - 16).

Lemma body_not_links a l x :
  a mod SLAB_PAGE_SIZE = 0 -> Forall (fun b => b mod SLAB_PAGE_SIZE = 0) l -> body a x -> link_words l x -> False.
Proof.
  intros Ha Hl Hx (b & Hb & Hr). eapply Forall_forall in Hb; [|exact Hl]. cbv beta in Hb.
  unfold body, rng in *. destruct (decide (a = b)); [lia|].
  destruct (aligned_apart a b Ha Hb ltac:(done)); unfold SLAB_PAGE_SIZE in *; lia.
Qed.

Lemma links_body m m' a pv l nx :
  links m pv l nx -> changes (body a) m m' -> a mod SLAB_PAGE_SIZE = 0 ->
  Forall (fun b => b mod SLAB_PAGE_SIZE = 0) l -> links m' pv l nx.
Proof. intros H Hc Ha Hl. eapply links_changes; [exact H|exact Hc|]. intros x. by apply body_not_links. Qed.

(** A page moves from one list to another; between the two operations its
    body may be changed. *)
Lemma move_ok m l1 a l2 k :
  links m 0 (l1 ++ a :: l2) 0 -> links m 0 k 0 -> pages_at m ((l1 ++ a :: l2) ++ k) ->
  runs_to (list_remove m (hd 0 (l1 ++ a :: l2)) a) (fun '(m1, h1) => h1 = hd 0 (l1 ++ l2) /\
    changes (link_words (l1 ++ a :: l2)) m m1 /\
    forall m1', changes (body a) m1 m1' ->
    runs_to (list_push m1' (hd 0 k) a) (fun '(m2, h2) => h2 = a /\
      links m2 0 (l1 ++ l2) 0 /\ links m2 0 (a :: k) 0 /\ changes (link_words (a :: k)) m1' m2)).
Proof.
  intros Hl Hk Hp. pose proof (pages_at_aligned _ _ Hp) as Hal.
  destruct (pages_at_sub _ _ _ Hp) as [Hpl Hpk].
  eapply runs_to_mono; [by apply list_remove_ok|]. intros [m1 h1] (-> & Hl1 & Hc1).
  split; [done|]. split; [done|]. intros m1' Hb.
  rewrite !Forall_app, Forall_cons in Hal. destruct Hal as [[Hal1 [Hala Hal2]] Halk].
  assert (Hp' : pages_at m1' ((l1 ++ l2) ++ a :: k)).
  { apply (pages_at_perm _ ((l1 ++ a :: l2) ++ k)); [by eapply pages_at_changes; [|eapply pages_at_changes]|].
    rewrite <- !app_assoc. simpl. apply Permutation_app_head, Permutation_middle. }
  assert (Hl1' : links m1' 0 (l1 ++ l2) 0) by (eapply links_body; [done..|by apply Forall_app]).
  eapply runs_to_mono; [apply list_push_ok|].
  - eapply links_body; [|exact Hb|done|done]. eapply links_changes; [exact Hk|exact Hc1|].
    intros x. by apply (link_words_apart m).
  - by apply (pages_at_sub m1' (l1 ++ l2)).
  - intros [m2 h2] (-> & Hk2 & Hc2). split_and!; [done| |done|done].
    eapply links_changes; [exact Hl1'|exact Hc2|]. intros x Hx Hy.
    by apply (link_words_apart m1' (l1 ++ l2) (a :: k) x).
Qed.

(** One page of a list of pages replaced, the bytes of the others unchanged. *)
Lemma pages_replace m m' sz ow l1 p l2 p' :
  class_size sz -> Forall (page_ok m sz ow) (l1 ++ p :: l2) -> pages_at m (addrs (l1 ++ p :: l2)) ->
  changes (rng (pg_addr p) SLAB_PAGE_SIZE) m m' -> page_ok m' sz ow p' ->
  Forall (page_ok m' sz ow) (l1 ++ p' :: l2).
Proof.
  intros Hsz Hf Hp Hc Hp'. pose proof (pages_at_aligned _ _ Hp) as Hal.
  destruct Hp as [Hn _]. rewrite map_app in Hn, Hal. cbn [map] in Hn, Hal.
  apply Forall_app in Hf as [Hf1 [_ Hf2]%Forall_cons]. apply Forall_app in Hal as [Ha1 [Hap Ha2]%Forall_cons].
  rewrite Forall_app, Forall_cons.
  apply NoDup_app in Hn as (_ & Hn1 & (Hn2 & _)%NoDup_cons). split_and!; [|done|].
  - apply Forall_forall. intros q Hq. eapply Forall_forall in Hf1; [|exact Hq].
    rewrite Forall_map in Ha1. eapply Forall_forall in Ha1; [|exact Hq].
    eapply page_ok_other; [done..|]. intros E. apply (Hn1 (pg_addr q)); [by apply list_elem_of_fmap_2|].
    rewrite E. left.
  - apply Forall_forall. intros q Hq. eapply Forall_forall in Hf2; [|exact Hq].
    rewrite Forall_map in Ha2. eapply Forall_forall in Ha2; [|exact Hq].
    eapply page_ok_other; [done..|]. intros E. apply Hn2. rewrite <- E. by apply list_elem_of_fmap_2.
Qed.

Lemma pages_links m m' sz ow ps l :
  class_size sz -> Forall (page_ok m sz ow) ps -> pages_at m (addrs ps) -> changes (link_words l) m m' ->
  Forall (fun a => a mod SLAB_PAGE_SIZE = 0) l -> Forall (page_ok m' sz ow) ps.
Proof.
  intros Hsz Hf Hp Hc Hl. apply pages_at_aligned in Hp. rewrite Forall_map in Hp.
  apply Forall_forall. intros q Hq. eapply Forall_forall in Hf; [|exact Hq].
  eapply Forall_forall in Hp; [|exact Hq]. by eapply page_ok_links.
Qed.

(** ** Taking an object *)

Lemma free_count_bound m sz ow p : class_size sz -> page_ok m sz ow p -> len (pg_free p) + len (pg_live p) = slot_count sz.
Proof.
  intros Hsz Hok. rewrite <- (len_slots (pg_addr p) sz Hsz). unfold len.
  rewrite <- (Permutation_length (po_slots _ _ _ _ Hok)), length_app. lia.
Qed.

Lemma slot_word m sz o a : class_size sz -> page_at m a -> o ∈ slots a sz -> 0 < o < 256 ^ Z.of_nat 8.
Proof.
  intros Hsz (? & _ & ? & _) Ho. pose proof (slot_in_page a sz o Hsz Ho). pose proof (class_size_bounds sz Hsz).
  change (256 ^ Z.of_nat 8) with (2 ^ 64). unfold sizeof_slab_page in *. lia.
Qed.

Lemma free_head_word m sz ow p :
  class_size sz -> page_at m (pg_addr p) -> page_ok m sz ow p -> 0 <= hd 0 (pg_free p) < 256 ^ Z.of_nat 8.
Proof.
  intros Hsz Ha Hok. destruct (pg_free p) as [|o fl] eqn:E; [done|]. cbn [hd].
  pose proof (slot_word m sz o _ Hsz Ha (page_free_slot _ _ _ _ o Hok ltac:(rewrite E; left))). lia.
Qed.

(** The page after its first free object was taken. *)
Definition pg_pop (p : pg) : pg :=
  match pg_free p with [] => p | o :: fl => mkpg (pg_addr p) fl (o :: pg_live p) end.

Definition pop_ghost (p : pg) (pp fp : list pg) : list pg * list pg :=
  match pg_free (pg_pop p) with [] => (pp, pg_pop p :: fp) | _ => (pg_pop p :: pp, fp) end.

(** The words of a page that taking an object writes. *)
Definition counters (a : Z) : Z -> Prop := rng (a + 24) 16.

Lemma counters_body a x : counters a x -> body a x.
Proof. unfold counters, body, rng, SLAB_PAGE_SIZE. lia. Qed.

Lemma counters_page a x : counters a x -> rng a SLAB_PAGE_SIZE x.
Proof. unfold counters, rng, SLAB_PAGE_SIZE. lia. Qed.

(** Splits a goal on fields that earlier stores have left alone. *)
Ltac kept H := eapply reads_changes; [|exact H|fields; lia].

Lemma free_slots_above m sz ow p o x :
  class_size sz -> page_ok m sz ow p -> o ∈ pg_free p -> rng o 8 x -> ~ rng (pg_addr p) 40 x.
Proof.
  intros Hsz Hok Ho Hx. pose proof (slot_in_page _ _ _ Hsz (page_free_slot _ _ _ _ _ Hok Ho)).
  unfold rng, sizeof_slab_page in *. lia.
Qed.

Lemma pop_free_ok m sz ow p o fl :
  class_size sz -> page_at m (pg_addr p) -> page_ok m sz ow p -> pg_free p = o :: fl ->
  runs_to (pop_free m (pg_addr p)) (fun '(m', obj) => obj = o /\ page_ok m' sz ow (pg_pop p) /\
    changes (counters (pg_addr p)) m m').
Proof.
  intros Hsz Ha Hok Ef. pose proof (free_count_bound _ _ _ _ Hsz Hok) as Hcnt.
  pose proof (class_size_bounds sz Hsz) as [_ Hsc].
  assert (Habove : forall o' x, o' ∈ o :: fl -> rng o' 8 x -> ~ rng (pg_addr p) 40 x)
    by (intros o' x; rewrite <- Ef; by apply (free_slots_above m sz ow)).
  destruct Hok as [H1 H2 H3 H4 H5 H6 H7 H8] eqn:E; clear E. rewrite Ef in *. destruct H7 as [Hnext Hch].
  assert (El : len (o :: fl) = len fl + 1) by (unfold len; simpl length; lia).
  assert (0 <= len fl /\ 0 <= len (pg_live p)) by (unfold len; lia).
  unfold pop_free. eapply runs_to_load; [exact H6|]. eapply runs_to_load; [exact Hnext|].
  apply runs_to_store; [by apply (page_at_field m _ 32 8)| |].
  { destruct fl as [|o' fl]; [done|]. cbn [hd]. pose proof (slot_word m sz o' (pg_addr p) Hsz Ha) as Hw.
    assert (o' ∈ slots (pg_addr p) sz) by (rewrite <- H8; set_solver). specialize (Hw ltac:(done)). lia. }
  intros m1 Hr1 Hc1. eapply runs_to_load; [kept Hc1; exact H4|].
  apply runs_to_store; [apply (page_at_field m1 _ 24 2); [by eapply page_at_changes|lia..]|..].
  { rewrite El. change (256 ^ Z.of_nat 2) with 65536. lia. }
  intros m2 Hr2 Hc2. cbn [runs_to].
  assert (Hc : changes (counters (pg_addr p)) m m2).
  { eapply changes_trans; (eapply changes_mono; [eassumption|]); unfold counters; fields; lia. }
  split; [done|]. split; [|done]. unfold pg_pop. rewrite Ef.
  constructor; cbn [pg_addr pg_free pg_live].
  - kept Hc2. by kept Hc1.
  - kept Hc2. by kept Hc1.
  - kept Hc2. by kept Hc1.
  - by replace (len fl) with (len (o :: fl) - 1) by lia.
  - kept Hc2. by kept Hc1.
  - by kept Hc2.
  - eapply chain_ext; [exact Hch|]. intros o' x Ho' Hx. apply Hc. intros Hy.
    apply (Habove o' x); [by right|done|]. unfold counters in *. fields. lia.
  - rewrite <- H8. symmetry. apply Permutation_middle.
Qed.

Lemma pg_pop_addr p : pg_addr (pg_pop p) = pg_addr p.
Proof. unfold pg_pop. by destruct (pg_free p). Qed.

Lemma headers_of g p x : p ∈ g.1 ++ g.2 -> rng (pg_addr p) 40 x -> headers g x.
Proof. intros. by exists p. Qed.

Lemma changes_links_headers l g m m' :
  changes (link_words (addrs l)) m m' -> l ⊆ g.1 ++ g.2 -> changes (headers g) m m'.
Proof. intros Hc Hl. eapply changes_mono; [exact Hc|]. intros x. by apply links_words_cache. Qed.

Lemma pop_object_ok m sz ow c p pp fp :
  class_size sz -> cache_ok m sz ow c (p :: pp, fp) ->
  runs_to (pop_object m c (pg_addr p)) (fun '(m', c', o) =>
    pg_free p = o :: pg_free (pg_pop p) /\ c_obj_size c' = c_obj_size c /\
    cache_ok m' sz ow c' (pop_ghost p pp fp) /\ changes (headers (p :: pp, fp)) m m').
Proof.
  intros Hsz Hco. destruct (cache_page _ _ _ _ _ p Hco ltac:(left)) as [Ha Hok].
  destruct Hco as [H1 H2 H3 H4 H5 H6 H7 H8]. cbn [fst snd] in *.
  apply Forall_cons in H7 as [Hne H7]. destruct (pg_free p) as [|o fl] eqn:Ef; [done|]. clear Hne.
  pose proof (pages_at_aligned _ _ H5) as Hal. rewrite map_app in Hal. apply Forall_app in Hal as [Halp Half].
  unfold pop_object. eapply runs_to_bind; [by eapply (pop_free_ok m sz ow p o fl)|].
  intros [m1 obj] (-> & Hok1 & Hc1).
  assert (Efl : pg_free (pg_pop p) = fl) by (unfold pg_pop; by rewrite Ef).
  assert (Hb1 : changes (body (pg_addr p)) m m1) by (eapply changes_mono; [exact Hc1|apply counters_body]).
  assert (Hp1 : changes (rng (pg_addr p) SLAB_PAGE_SIZE) m m1) by (eapply changes_mono; [exact Hc1|apply counters_page]).
  assert (Hh1 : changes (headers (p :: pp, fp)) m m1).
  { eapply changes_mono; [exact Hc1|]. intros x Hx. apply (headers_of _ p); [left|]. unfold counters, rng in *. lia. }
  assert (Hpl1 : links m1 0 (addrs (p :: pp)) 0) by (eapply links_body; [done|done|apply Ha|done]).
  assert (Hfl1 : links m1 0 (addrs fp) 0) by (eapply links_body; [done|done|apply Ha|done]).
  assert (Hat1 : pages_at m1 (addrs (p :: pp ++ fp))) by by eapply pages_at_changes.
  assert (Hpg1 : Forall (page_ok m1 sz ow) (pg_pop p :: pp ++ fp)) by by eapply (pages_replace m m1 sz ow [] p).
  pose proof (po_count _ _ _ _ Hok1) as Hcnt. rewrite pg_pop_addr, Efl in Hcnt.
  eapply runs_to_load; [exact Hcnt|]. unfold pop_ghost. rewrite Efl.
  destruct fl as [|o' fl]; cycle 1.
  { rewrite (proj2 (Z.eqb_neq _ 0)) by (unfold len; simpl length; lia). cbn [runs_to].
    split_and!; [done|done| |done].
    constructor; cbn [fst snd app map] in *; rewrite ?pg_pop_addr; [done|done|done|done|done|done| |done].
    constructor; [by rewrite Efl|done]. }
  change (len [] =? 0) with true. cbn [fst snd app map] in *. rewrite H1.
  eapply runs_to_bind.
  { apply (move_ok m1 [] (pg_addr p) (addrs pp) (addrs fp)); [done|done|]. cbn [app]. by rewrite <- map_app. }
  intros [m2 h2] (-> & Hc2 & Hpush). cbn [app] in *.
  change (c_full (set_partial c _)) with (c_full c). rewrite H3.
  eapply runs_to_bind; [apply (Hpush m2), changes_refl|]. intros [m3 h3] (-> & Hpl3 & Hfl3 & Hc3). cbn [runs_to].
  assert (Halp' : Forall (fun a => a mod SLAB_PAGE_SIZE = 0) (pg_addr p :: addrs fp)) by (by inversion Halp; constructor).
  split_and!; [done|done| |].
  - constructor; cbn [fst snd map]; rewrite ?pg_pop_addr; [done|done|done|done| | |done|by constructor].
    + eapply pages_at_changes; [exact Hc3|]. eapply pages_at_changes; [exact Hc2|].
      eapply pages_at_perm; [exact Hat1|]. rewrite !map_app. cbn [map]. rewrite pg_pop_addr. apply Permutation_middle.
    + rewrite <- Permutation_middle. eapply (pages_links m2); [done| |..|exact Hc3|done].
      * eapply (pages_links m1); [done|done|by cbn [map]; rewrite pg_pop_addr|exact Hc2|done].
      * cbn [map]. rewrite pg_pop_addr. by eapply pages_at_changes.
  - eapply changes_trans; [exact Hh1|]. eapply changes_trans.
    + apply (changes_links_headers (p :: pp) (p :: pp, fp) m1); [done|set_solver].
    + apply (changes_links_headers (p :: fp) (p :: pp, fp) m2); [done|set_solver].
Qed.

(** ** Returning an object *)

Definition pg_push (p : pg) (ptr : Z) (lv : list Z) : pg := mkpg (pg_addr p) (ptr :: pg_free p) lv.

(** What returning [ptr] to the page at [a] writes in the page. *)
Definition push_words (a ptr x : Z) : Prop := counters a x \/ rng ptr 8 x.

Lemma push_free_ok m sz ow p ptr lv :
  class_size sz -> page_at m (pg_addr p) -> page_ok m sz ow p -> pg_live p ≡ₚ ptr :: lv ->
  runs_to (push_free m (pg_addr p) ptr) (fun m' => page_ok m' sz ow (pg_push p ptr lv) /\
    changes (push_words (pg_addr p) ptr) m m' /\ forall x, push_words (pg_addr p) ptr x -> body (pg_addr p) x).
Proof.
  intros Hsz Ha Hok Elv. pose proof (free_count_bound _ _ _ _ Hsz Hok) as Hcnt.
  pose proof (class_size_bounds sz Hsz) as [Hszb Hsc].
  assert (Hptr : ptr ∈ slots (pg_addr p) sz) by (eapply page_live_slot; [done|]; rewrite Elv; left).
  pose proof (slot_in_page _ _ _ Hsz Hptr) as Hin. pose proof (slot_word m sz _ _ Hsz Ha Hptr) as Hw.
  assert (Hfree : forall o x, o ∈ pg_free p -> rng o 8 x -> ~ rng (pg_addr p) 40 x /\ ~ rng ptr 8 x).
  { intros o x Ho Hx. split; [by eapply free_slots_above|].
    assert (o <> ptr).
    { intros ->. pose proof (NoDup_slots (pg_addr p) sz Hsz) as Hnd.
      rewrite <- (po_slots _ _ _ _ Hok), Elv in Hnd. apply NoDup_app in Hnd as (_ & Hnd & _).
      apply (Hnd ptr); [done|left]. }
    pose proof (slots_apart _ _ _ _ Hsz (page_free_slot _ _ _ _ _ Hok Ho) Hptr ltac:(done)). unfold rng in *. lia. }
  pose proof (free_head_word m sz ow p Hsz Ha Hok) as Hhd.
  destruct Hok as [H1 H2 H3 H4 H5 H6 H7 H8].
  assert (El : len (ptr :: pg_free p) = len (pg_free p) + 1) by (unfold len; simpl length; lia).
  assert (0 <= len (pg_free p) /\ 0 < len (pg_live p)).
  { unfold len. rewrite (Permutation_length Elv). simpl length. lia. }
  unfold SLAB_PAGE_SIZE, sizeof_slab_page in *.
  unfold push_free. eapply runs_to_load; [exact H6|].
  apply runs_to_store; [|done|].
  { destruct Ha as (_ & _ & _ & Hm). eapply mapped_sub; [exact Hm|..]; unfold SLAB_PAGE_SIZE; lia. }
  intros m1 Hr1 Hc1.
  apply runs_to_store; [apply (page_at_field m1 _ 32 8); [by eapply page_at_changes|lia..]|lia|].
  intros m2 Hr2 Hc2. eapply runs_to_load; [kept Hc2; kept Hc1; exact H4|].
  eapply runs_to_mono.
  { apply store_ok; [apply (page_at_field m2 _ 24 2); [|lia..]|change (256 ^ Z.of_nat 2) with 65536; lia].
    by eapply page_at_changes; [|eapply page_at_changes]. }
  intros m3 [Hr3 Hc3].
  assert (Hc : changes (push_words (pg_addr p) ptr) m m3).
  { eapply changes_trans; [|eapply changes_trans]; (eapply changes_mono; [eassumption|]);
      unfold push_words, counters; fields; lia. }
  split; [|split; [done|unfold push_words, counters, body, SLAB_PAGE_SIZE, rng; lia]].
  constructor; cbn [pg_addr pg_free pg_live pg_push].
  - kept Hc3. kept Hc2. by kept Hc1.
  - kept Hc3. kept Hc2. by kept Hc1.
  - kept Hc3. kept Hc2. by kept Hc1.
  - by rewrite El.
  - kept Hc3. kept Hc2. by kept Hc1.
  - cbn [hd]. by kept Hc3.
  - split; [kept Hc3; by kept Hc2|]. eapply chain_ext; [exact H7|]. intros o x Ho Hx. apply Hc.
    destruct (Hfree o x Ho Hx) as [Hn1 Hn2]. unfold push_words, counters. fields. lia.
  - rewrite <- H8, Elv. cbn [app]. apply Permutation_middle.
Qed.

(** The page and the ghost state of its cache: [p] is a page of the full list
    if it has no free object, of the partial list otherwise. *)
Inductive push_ghost (p p' : pg) : list pg * list pg -> list pg * list pg -> Prop :=
| push_full pp f1 f2 : pg_free p = [] -> push_ghost p p' (pp, f1 ++ p :: f2) (p' :: pp, f1 ++ f2)
| push_part l1 l2 fp : pg_free p <> [] -> push_ghost p p' (l1 ++ p :: l2, fp) (l1 ++ p' :: l2, fp).

Lemma push_ghost_exists m sz ow c g p p' :
  cache_ok m sz ow c g -> p ∈ g.1 ++ g.2 -> exists g', push_ghost p p' g g'.
Proof.
  intros [_ _ _ _ _ _ H7 H8] [Hp|Hp]%elem_of_app; destruct g as [pp fp]; cbn [fst snd] in *.
  - eapply Forall_forall in H7; [|exact Hp]. apply list_elem_of_split in Hp as (l1 & l2 & ->).
    eexists. by apply push_part.
  - eapply Forall_forall in H8; [|exact Hp]. apply list_elem_of_split in Hp as (l1 & l2 & ->).
    eexists. by apply push_full.
Qed.

Lemma push_ghost_perm p p' g g' :
  push_ghost p p' g g' -> exists R, g.1 ++ g.2 ≡ₚ p :: R /\ g'.1 ++ g'.2 ≡ₚ p' :: R.
Proof.
  destruct 1 as [pp f1 f2 _|l1 l2 fp _]; cbn [fst snd].
  - exists (pp ++ f1 ++ f2). split; [|done]. by rewrite <- Permutation_middle, <- Permutation_middle.
  - exists (l1 ++ l2 ++ fp). rewrite <- !app_assoc. cbn [app]. by rewrite <- !Permutation_middle.
Qed.

(** The page alone has changed: what remains true of its cache. *)
Lemma after_push m m1 sz ow c g p p' l1 l2 :
  class_size sz -> cache_ok m sz ow c g -> g.1 ++ g.2 = l1 ++ p :: l2 -> page_at m (pg_addr p) ->
  changes (body (pg_addr p)) m m1 -> page_ok m1 sz ow p' ->
  links m1 0 (addrs g.1) 0 /\ links m1 0 (addrs g.2) 0 /\ pages_at m1 (addrs (g.1 ++ g.2)) /\
  Forall (page_ok m1 sz ow) (l1 ++ p' :: l2).
Proof.
  intros Hsz Hco E (_ & Ha & _) Hc Hok. pose proof (pages_at_aligned _ _ (co_at _ _ _ _ _ Hco)) as Hal.
  rewrite map_app in Hal. apply Forall_app in Hal as [Hal1 Hal2]. split_and!.
  - eapply links_body; [apply Hco|done..].
  - eapply links_body; [apply Hco|done..].
  - eapply pages_at_changes; [done|apply Hco].
  - apply (pages_replace m m1 sz ow l1 p); [done|..].
    + rewrite <- E. apply Hco.
    + rewrite <- E. apply Hco.
    + eapply changes_mono; [exact Hc|]. unfold body, rng, SLAB_PAGE_SIZE. lia.
    + done.
Qed.

Lemma push_object_ok m sz ow c g g' p ptr lv :
  class_size sz -> cache_ok m sz ow c g -> push_ghost p (pg_push p ptr lv) g g' -> pg_live p ≡ₚ ptr :: lv ->
  runs_to (push_object m c (pg_addr p) ptr) (fun '(m', c') =>
    c_obj_size c' = c_obj_size c /\ cache_ok m' sz ow c' g' /\
    changes (fun x => headers g x \/ rng ptr 8 x) m m').
Proof.
  intros Hsz Hco Hg Elv.
  assert (Hp : p ∈ g.1 ++ g.2) by (destruct Hg; cbn [fst snd]; set_solver).
  destruct (cache_page _ _ _ _ _ p Hco Hp) as [Ha Hok].
  unfold push_object. eapply runs_to_load; [apply Hok|].
  eapply runs_to_bind; [by apply (push_free_ok m sz ow p ptr lv)|]. intros m1 (Hok1 & Hc1 & Hbody).
  assert (Hb1 : changes (body (pg_addr p)) m m1) by by eapply changes_mono.
  assert (Hh1 : changes (fun x => headers g x \/ rng ptr 8 x) m m1).
  { eapply changes_mono; [exact Hc1|]. intros x [Hx|Hx]; [left|by right]. apply (headers_of _ p); [done|].
    unfold counters, rng in *. lia. }
  destruct Hg as [pp f1 f2 Ef|l1 l2 fp Ef].
  - rewrite Ef. change (len [] =? 0) with true. cbn [fst snd] in *.
    destruct (after_push m m1 sz ow c (pp, f1 ++ p :: f2) p (pg_push p ptr lv) (pp ++ f1) f2)
      as (Hpl1 & Hfl1 & Hat1 & Hpg1); [done|done|cbn [fst snd]; by rewrite <- app_assoc|done..|].
    destruct Hco as [H1 H2 H3 H4 H5 H6 H7 H8]. cbn [fst snd] in *.
    pose proof (pages_at_aligned _ _ H5) as Hal. rewrite map_app in Hal. apply Forall_app in Hal as [Halp Half].
    rewrite H3, map_app. cbn [map]. eapply runs_to_bind.
    { apply (move_ok m1 (addrs f1) (pg_addr p) (addrs f2) (addrs pp)).
      - by rewrite map_app in Hfl1.
      - done.
      - apply (pages_at_perm _ _ _ Hat1). rewrite !map_app. cbn [map]. apply Permutation_app_comm. }
    intros [m2 h2] (-> & Hc2 & Hpush). change (c_partial (set_full c _)) with (c_partial c). rewrite H1.
    eapply runs_to_bind; [apply (Hpush m2), changes_refl|]. intros [m3 h3] (-> & Hfl3 & Hpl3 & Hc3). cbn [runs_to].
    assert (Halp' : Forall (fun a => a mod SLAB_PAGE_SIZE = 0) (pg_addr p :: addrs pp))
      by (constructor; [apply Ha|done]).
    rewrite map_app in Half. split_and!; [done| |].
    + constructor; cbn [fst snd map pg_addr pg_push]; [done|done|by rewrite map_app|by rewrite map_app| | | |].
      * eapply pages_at_changes; [exact Hc3|]. eapply pages_at_changes; [exact Hc2|].
        apply (pages_at_perm _ _ _ Hat1). rewrite !map_app. cbn [map].
        by rewrite (app_assoc (addrs pp)), <- Permutation_middle, <- app_assoc.
      * assert (Hperm : (pg_push p ptr lv :: pp) ++ f1 ++ f2 ≡ₚ (pp ++ f1) ++ pg_push p ptr lv :: f2)
          by (rewrite <- Permutation_middle, <- app_assoc; done).
        assert (Hat1' : pages_at m1 (addrs ((pp ++ f1) ++ pg_push p ptr lv :: f2)))
          by (clear - Hat1; rewrite !map_app in *; cbn [map pg_addr pg_push] in *; by rewrite <- app_assoc).
        rewrite Hperm. eapply (pages_links m2); [done| |..|exact Hc3|done]; [|by eapply pages_at_changes].
        by eapply (pages_links m1).
      * constructor; [done|done].
      * apply Forall_app in H8 as [? [_ ?]%Forall_cons]. by apply Forall_app.
    + eapply changes_trans; [exact Hh1|]. eapply changes_trans; eapply changes_mono; [exact Hc2| |exact Hc3|].
      * intros x Hx. left. apply (links_words_cache (f1 ++ p :: f2)); [set_solver|]. by rewrite map_app.
      * intros x Hx. left. apply (links_words_cache (p :: pp)); [set_solver|done].
  - rewrite (proj2 (Z.eqb_neq _ 0)) by (destruct (pg_free p); [done|]; unfold len; simpl length; lia).
    cbn [runs_to fst snd] in *. split_and!; [done| |done].
    destruct (after_push m m1 sz ow c (l1 ++ p :: l2, fp) p (pg_push p ptr lv) l1 (l2 ++ fp))
      as (Hpl1 & Hfl1 & Hat1 & Hpg1); [done|done|cbn [fst snd]; by rewrite <- app_assoc|done..|].
    destruct Hco as [H1 H2 H3 H4 H5 H6 H7 H8]. cbn [fst snd] in *.
    assert (E : addrs (l1 ++ pg_push p ptr lv :: l2) = addrs (l1 ++ p :: l2)) by by rewrite !map_app.
    constructor; cbn [fst snd]; rewrite ?E; [done|done|done|done| | | |done].
    + by rewrite map_app, E, <- map_app.
    + by rewrite <- app_assoc.
    + apply Forall_app in H7 as [? [_ ?]%Forall_cons]. apply Forall_app. split; [done|by constructor].
Qed.

(** ** A new page *)

Definition slot_addr (a sz i : Z) : Z := a + sizeof_slab_page + i * sz.

(** The first [k] slots, the last carved first. *)
Definition carved (a sz k : Z) : list Z := reverse (map (slot_addr a sz) (seqZ 0 k)).

Lemma carved_succ a sz k : 0 <= k -> carved a sz (k + 1) = slot_addr a sz k :: carved a sz k.
Proof.
  intros Hk. unfold carved. rewrite seqZ_app by lia. rewrite map_app, reverse_app.
  change (seqZ (0 + k) 1) with [0 + k]. by rewrite Z.add_0_l.
Qed.

Lemma carved_slots a sz o k : o ∈ carved a sz k -> exists i, 0 <= i < k /\ o = slot_addr a sz i.
Proof.
  unfold carved. rewrite elem_of_reverse, list_elem_of_fmap. intros (i & -> & Hi%elem_of_seqZ).
  exists i. split; [lia|done].
Qed.

(** Everything [carve_loop] writes: the head of the free list and the objects. *)
Definition carve_words (a x : Z) : Prop := rng (a + 32) (SLAB_PAGE_SIZE - 32) x.

Lemma carve_loop_ok a sz fuel : forall m k,
  class_size sz -> page_at m a -> 0 <= k <= slot_count sz -> slot_count sz - k < Z.of_nat fuel ->
  chain m (carved a sz k) -> reads 8 m (f_freelist a) (hd 0 (carved a sz k)) ->
  runs_to (carve_loop fuel m a (slot_addr a sz k) (u64 (a + SLAB_PAGE_SIZE)) sz k) (fun '(m', n) =>
    n = slot_count sz /\ chain m' (carved a sz n) /\ reads 8 m' (f_freelist a) (hd 0 (carved a sz n)) /\
    changes (carve_words a) m m').
Proof.
  induction fuel as [|fuel IH]; intros m k Hsz Ha Hk Hf Hch Hfl; [lia|].
  pose proof (class_size_bounds sz Hsz) as [Hb Hn]. pose proof Ha as (Hpos & _ & Htop & Hm).
  pose proof (Z.mul_div_le (SLAB_PAGE_SIZE - sizeof_slab_page) sz ltac:(lia)) as Hdiv.
  pose proof (Z.mul_succ_div_gt (SLAB_PAGE_SIZE - sizeof_slab_page) sz ltac:(lia)) as Hdiv'.
  fold (slot_count sz) in Hdiv, Hdiv'. unfold SLAB_PAGE_SIZE, sizeof_slab_page in *.
  assert (Hslot : 0 < slot_addr a sz k <= a + 40 + sz * slot_count sz) by (unfold slot_addr, sizeof_slab_page; nia).
  cbn [carve_loop]. rewrite (u64_id (a + 4096)), (u64_id (slot_addr a sz k + sz)) by (change (2 ^ 64) with 18446744073709551616 in *; lia).
  destruct (Z.leb_spec (slot_addr a sz k + sz) (a + 4096)) as [Hle|Hgt].
  - assert (Hk' : k < slot_count sz) by (unfold slot_addr, sizeof_slab_page in *; nia).
    eapply runs_to_load; [exact Hfl|].
    assert (Hold : 0 <= hd 0 (carved a sz k) < 256 ^ Z.of_nat 8).
    { destruct (carved a sz k) as [|o l] eqn:E; [done|].
      destruct (carved_slots a sz o k ltac:(rewrite E; left)) as (i & Hi & ->). cbn [hd].
      change (256 ^ Z.of_nat 8) with (2 ^ 64). unfold slot_addr, sizeof_slab_page in *. nia. }
    apply runs_to_store; [eapply mapped_sub; [exact Hm|unfold slot_addr, sizeof_slab_page; nia|lia]|done|].
    intros m1 Hr1 Hc1. assert (Ha1 : page_at m1 a) by by eapply page_at_changes.
    apply runs_to_store; [by apply (page_at_field m1 _ 32 8)|change (256 ^ Z.of_nat 8) with (2 ^ 64); lia|].
    intros m2 Hr2 Hc2.
    assert (Hc : changes (carve_words a) m m2).
    { eapply changes_trans; (eapply changes_mono; [eassumption|]);
        unfold carve_words, slot_addr, sizeof_slab_page, SLAB_PAGE_SIZE; fields; nia. }
    rewrite u16_id by lia. replace (slot_addr a sz k + sz) with (slot_addr a sz (k + 1)) by (unfold slot_addr; lia).
    pose proof (IH m2 (k + 1)) as IH2. rewrite u64_id in IH2 by (change (2 ^ 64) with 18446744073709551616 in *; lia).
    eapply runs_to_mono; [apply IH2; [done|by eapply page_at_changes|lia|lia|..]|].
    + rewrite carved_succ by lia. split.
      * eapply reads_changes; [exact Hr1|exact Hc2|]. unfold slot_addr, sizeof_slab_page in *; fields; nia.
      * eapply chain_ext; [exact Hch|]. intros o x (i & Hi & ->)%carved_slots Hx.
        destruct Hc1 as [_ Hc1]. destruct Hc2 as [_ Hc2]. unfold slot_addr, sizeof_slab_page in *; fields.
        rewrite Hc2, Hc1; [done|nia|nia].
    + by rewrite carved_succ by lia.
    + intros [m' n] (-> & ? & ? & ?). split_and!; [done..|]. by eapply changes_trans.
  - assert (k = slot_count sz) as -> by (unfold slot_addr, sizeof_slab_page in *; nia).
    cbn [runs_to]. split_and!; [done..|apply changes_refl].
Qed.

Definition pg_new (a sz : Z) : pg := mkpg a (carved a sz (slot_count sz)) [].

Lemma slab_page_init_ok m a sz ow :
  class_size sz -> page_at m a -> 0 <= ow < 65536 ->
  runs_to (slab_page_init m a sz ow) (fun m' => page_ok m' sz ow (pg_new a sz) /\
    changes (rng a SLAB_PAGE_SIZE) m m').
Proof.
  intros Hsz Ha How. pose proof (class_size_bounds sz Hsz) as [Hb Hn]. unfold slab_page_init.
  apply runs_to_store; [by apply (page_at_field m _ 16 4)|done|]. intros m1 R1 C1.
  pose proof (page_at_changes _ _ _ a C1 Ha) as A1.
  apply runs_to_store; [by apply (page_at_field m1 _ 20 2)|change (256 ^ Z.of_nat 2) with 65536; lia|]. intros m2 R2 C2.
  pose proof (page_at_changes _ _ _ a C2 A1) as A2.
  apply runs_to_store; [by apply (page_at_field m2 _ 0 8)|done|]. intros m3 R3 C3.
  pose proof (page_at_changes _ _ _ a C3 A2) as A3.
  apply runs_to_store; [by apply (page_at_field m3 _ 8 8)|done|]. intros m4 R4 C4.
  pose proof (page_at_changes _ _ _ a C4 A3) as A4.
  apply runs_to_store; [by apply (page_at_field m4 _ 32 8)|done|]. intros m5 R5 C5.
  pose proof (page_at_changes _ _ _ a C5 A4) as A5.
  apply runs_to_store; [by apply (page_at_field m5 _ 26 2)|done|]. intros m6 R6 C6.
  pose proof (page_at_changes _ _ _ a C6 A5) as A6.
  eapply runs_to_bind.
  { rewrite (u64_id (a + sizeof_slab_page))
      by (unfold page_at, SLAB_PAGE_SIZE, sizeof_slab_page in *; change (2 ^ 64) with 18446744073709551616 in *; lia).
    replace (a + sizeof_slab_page) with (slot_addr a sz 0) by (unfold slot_addr; lia).
    apply carve_loop_ok; [done|done|lia|unfold SLAB_PAGE_SIZE; lia|done|]. by kept C6. }
  intros [m7 n] (-> & Hch & R7 & C7). unfold carve_words in C7.
  pose proof (page_at_changes _ _ _ a C7 A6) as A7.
  apply runs_to_store; [by apply (page_at_field m7 _ 22 2)|change (256 ^ Z.of_nat 2) with 65536; lia|]. intros m8 R8 C8.
  pose proof (page_at_changes _ _ _ a C8 A7) as A8.
  eapply runs_to_mono; [apply store_ok; [by apply (page_at_field m8 _ 24 2)|change (256 ^ Z.of_nat 2) with 65536; lia]|].
  intros m9 [R9 C9]. split.
  - constructor; cbn [pg_addr pg_free pg_live pg_new].
    + kept C9. kept C8. kept C7. kept C6. kept C5. kept C4. kept C3. by kept C2.
    + kept C9. kept C8. kept C7. kept C6. kept C5. kept C4. by kept C3.
    + by kept C9.
    + unfold carved, len. rewrite length_reverse, length_map, length_seqZ. by rewrite Z2Nat.id by lia.
    + kept C9. kept C8. by kept C7.
    + kept C9. by kept C8.
    + eapply chain_ext; [exact Hch|]. intros o x (i & Hi & ->)%carved_slots Hx.
      destruct C9 as [_ C9]. destruct C8 as [_ C8]. unfold slot_addr, sizeof_slab_page in *. fields.
      rewrite C9, C8; [done|nia|nia].
    + rewrite app_nil_r. unfold carved. by rewrite reverse_Permutation.
  - repeat (eapply changes_trans; [eapply changes_mono; [eassumption|]; unfold SLAB_PAGE_SIZE; fields; lia|]).
    apply changes_refl.
Qed.
