(* ===== verification/SlabInv.v ===== *)
(** * The slab caches: the invariant of the whole allocator

    A cache is named by its owner (a processor, or [SLAB_CPU_NONE] for the
    global caches) and its index.  [slab_inv M s G L]: every cache represents
    the pages that the ghost state [G] gives it, no page is in two caches, and
    the pages together with the blocks [L] of other clients are live blocks of
    the page allocators below. *)

From stdpp Require Import gmap functions.
From S2P Require Import Prelude Bytes Buddy BuddyProofs BuddyTheorems CpuPool Memory Slab SlabProofs SlabPages.

(** ** Names of caches *)

Abbreviation key := (Z * Z)%type.

Definition keys : list key :=
  concat (map (fun ow => map (pair ow) (seqZ 0 SLAB_SIZES_COUNT)) (SLAB_CPU_NONE :: seqZ 0 SLAB_MAX_CPUS)).

Lemma elem_of_keys k :
  k ∈ keys <-> (k.1 = SLAB_CPU_NONE \/ 0 <= k.1 < SLAB_MAX_CPUS) /\ 0 <= k.2 < SLAB_SIZES_COUNT.
Proof.
  unfold keys. rewrite list_elem_of_In, in_concat. setoid_rewrite in_map_iff. setoid_rewrite <- list_elem_of_In.
  setoid_rewrite elem_of_cons. setoid_rewrite elem_of_seqZ. destruct k as [ow i]; cbn [fst snd]. split.
  - intros (l & (ow' & <- & Ho) & (i' & E & Hi%elem_of_seqZ)%list_elem_of_fmap). simplify_eq. split; [|lia].
    destruct Ho; [by left|right; lia].
  - intros [Ho Hi]. exists (map (pair ow) (seqZ 0 SLAB_SIZES_COUNT)). split.
    + exists ow. split; [done|]. destruct Ho; [by left|right; lia].
    + apply list_elem_of_fmap_2, elem_of_seqZ. lia.
Qed.

Lemma NoDup_keys : NoDup keys.
Proof. apply (bool_decide_unpack _). vm_compute. done. Qed.

Definition sz_of (i : Z) : Z := default 0 (obj_sizes !! Z.to_nat i).

Lemma sz_of_class k : k ∈ keys -> class_size (sz_of k.2).
Proof.
  intros [_ Hi]%elem_of_keys. unfold sz_of, class_size, SLAB_SIZES_COUNT in *.
  destruct (lookup_lt_is_Some_2 obj_sizes (Z.to_nat k.2)) as [z Hz]; [simpl; lia|].
  rewrite Hz. by eapply list_elem_of_lookup_2.
Qed.

(** ** Pages of all caches *)

Abbreviation ghost := (key -> list pg * list pg).

Definition gpages (g : list pg * list pg) : list pg := g.1 ++ g.2.
Definition all_pages (G : ghost) : list pg := concat (map (fun k => gpages (G k)) keys).

Lemma elem_of_all_pages G p : p ∈ all_pages G <-> exists k, k ∈ keys /\ p ∈ gpages (G k).
Proof.
  unfold all_pages. rewrite list_elem_of_In, in_concat. setoid_rewrite in_map_iff.
  setoid_rewrite <- list_elem_of_In. split.
  - intros (l & (k & <- & Hk) & Hp). eauto.
  - intros (k & Hk & Hp). eauto.
Qed.

Lemma concat_ext_notin {A} (f f' : key -> list A) l :
  (forall k, k ∈ l -> f k = f' k) -> concat (map f l) = concat (map f' l).
Proof.
  induction l as [|k l IH]; intros H; [done|]. simpl. rewrite (H k) by left. f_equal.
  apply IH. intros k' ?. apply H. by right.
Qed.

(** Separating one cache from the others. *)
Lemma concat_keys_split {A} (f : key -> (list pg * list pg) -> list A) k G :
  k ∈ keys -> exists R, concat (map (fun k => f k (G k)) keys) ≡ₚ f k (G k) ++ R /\
    forall g, concat (map (fun k' => f k' (<[k := g]> G k')) keys) ≡ₚ f k g ++ R.
Proof.
  intros Hk. pose proof NoDup_keys as Hn. revert Hn.
  apply list_elem_of_split in Hk as (l1 & l2 & ->). intros Hn.
  apply NoDup_app in Hn as (_ & Hn1 & (Hn2 & _)%NoDup_cons).
  exists (concat (map (fun k => f k (G k)) l1) ++ concat (map (fun k => f k (G k)) l2)).
  split; [|intros g]; rewrite map_app, concat_app; cbn [map concat];
    rewrite (assoc_L (++)), (Permutation_app_comm (concat _) (f k _)), <- (assoc_L (++)); [done|].
  rewrite fn_lookup_insert. apply Permutation_app_head.
  rewrite !(concat_ext_notin (fun k' => f k' (<[k:=g]> G k')) (fun k' => f k' (G k'))); [done|..].
  - intros k' Hk'. rewrite fn_lookup_insert_ne; [done|]. intros ->. done.
  - intros k' Hk'. rewrite fn_lookup_insert_ne; [done|]. intros ->. by apply (Hn1 k'); [|left].
Qed.

(** The objects clients hold: address and size of the slot. *)
Definition live_in (sz : Z) (g : list pg * list pg) : list (Z * Z) :=
  concat (map (fun p => map (fun o => (o, sz)) (pg_live p)) (gpages g)).

Definition live_objs (G : ghost) : list (Z * Z) := concat (map (fun k => live_in (sz_of k.2) (G k)) keys).

Lemma elem_of_live_in sz g o z : (o, z) ∈ live_in sz g <-> z = sz /\ exists p, p ∈ gpages g /\ o ∈ pg_live p.
Proof.
  unfold live_in. rewrite list_elem_of_In, in_concat. setoid_rewrite in_map_iff.
  setoid_rewrite <- list_elem_of_In. split.
  - intros (l & (p & <- & Hp) & (o' & E & Ho)%list_elem_of_fmap). simplify_eq. split; [done|]. eauto.
  - intros (-> & p & Hp & Ho). eexists. split; [eauto|]. by apply (list_elem_of_fmap_2 (fun o => (o, sz))).
Qed.

Lemma elem_of_live_objs G o z :
  (o, z) ∈ live_objs G <-> exists k p, k ∈ keys /\ p ∈ gpages (G k) /\ o ∈ pg_live p /\ z = sz_of k.2.
Proof.
  unfold live_objs. rewrite list_elem_of_In, in_concat. setoid_rewrite in_map_iff.
  setoid_rewrite <- list_elem_of_In. split.
  - intros (l & (k & <- & Hk) & (-> & p & Hp & Ho)%elem_of_live_in). eauto 10.
  - intros (k & p & Hk & Hp & Ho & ->). eexists. split; [by exists k|]. apply elem_of_live_in. eauto.
Qed.

(** ** Access to a cache by its name *)

Definition cache_at (s : slab_state) (k : key) : option cache :=
  if k.1 =? SLAB_CPU_NONE then caches s !! Z.to_nat k.2
  else cs ← cpu_slabs s !! Z.to_nat k.1; cs_caches cs !! Z.to_nat k.2.

Definition put_cache (s : slab_state) (k : key) (c : cache) : outcome slab_state :=
  if k.1 =? SLAB_CPU_NONE then put_global s k.2 c else put_cpu s k.1 k.2 c.

(** The sizes of the static arrays and of the objects. *)
Record sizes_ok (s : slab_state) : Prop := {
  so_caches : map c_obj_size (caches s) = obj_sizes;
  so_cpus : len (cpu_slabs s) = SLAB_MAX_CPUS;
  so_cpu : Forall (fun cs => len (cs_caches cs) = SLAB_SIZES_COUNT /\
    (cs_initialized cs <> 0 -> map c_obj_size (cs_caches cs) = obj_sizes)) (cpu_slabs s)
}.

Lemma caches_len s : sizes_ok s -> len (caches s) = SLAB_SIZES_COUNT.
Proof.
  intros [H _ _]. apply (f_equal length) in H. rewrite length_map in H. unfold len. by rewrite H.
Qed.

Definition started (s : slab_state) (cpu : Z) : Prop :=
  exists cs, cpu_slabs s !! Z.to_nat cpu = Some cs /\ cs_initialized cs <> 0.

(** What writing back one cache changes. *)
Record puts (s s' : slab_state) (k : key) (c : cache) : Prop := {
  pu_mem : s_mem s' = s_mem s;
  pu_pools : s_pools s' = s_pools s;
  pu_same : cache_at s' k = Some c;
  pu_other : forall k', k' ∈ keys -> k' <> k -> cache_at s' k' = cache_at s k';
  pu_sizes : sizes_ok s';
  pu_started : forall cpu, started s' cpu <-> started s cpu
}.

Lemma map_insert_same {A B} (f : A -> B) (l : list A) i x y :
  l !! i = Some x -> f y = f x -> map f (<[i := y]> l) = map f l.
Proof.
  intros Hi E. change (f <$> <[i := y]> l = f <$> l). rewrite list_fmap_insert, E.
  apply list_insert_id. by rewrite list_lookup_fmap, Hi.
Qed.

Lemma put_cache_ok s k c c0 :
  k ∈ keys -> sizes_ok s -> cache_at s k = Some c0 -> c_obj_size c = c_obj_size c0 ->
  runs_to (put_cache s k c) (fun s' => puts s s' k c).
Proof.
  intros [Hk1 Hk2]%elem_of_keys Hs Hc Esz. destruct k as [ow i]. cbn [fst snd] in *.
  unfold put_cache, cache_at in *. cbn [fst snd] in *. destruct Hs as [H1 H2 H3].
  destruct (Z.eqb_spec ow SLAB_CPU_NONE) as [->|Hne].
  - pose proof (caches_len s ltac:(by constructor)) as Hl. unfold put_global.
    rewrite aset_in_bounds by lia. cbn [mbind outcome_bind runs_to].
    constructor; [done|done|..].
    + unfold cache_at. cbn [fst snd caches]. simpl (_ =? _). apply list_lookup_insert_eq. unfold len in Hl. lia.
    + intros [ow' i'] [Hk1' Hk2']%elem_of_keys Hne. cbn [fst snd] in *. unfold cache_at. cbn [fst snd caches cpu_slabs].
      destruct (Z.eqb_spec ow' SLAB_CPU_NONE) as [->|]; [|done].
      apply list_lookup_insert_ne. intros E. apply Hne. f_equal. lia.
    + constructor; cbn [caches cpu_slabs]; [|done|done]. by rewrite (map_insert_same _ _ _ c0).
    + done.
  - destruct Hk1 as [?|Hk1]; [done|].
    destruct (cpu_slabs s !! Z.to_nat ow) as [cs|] eqn:Ecs; [|done]. cbn [mbind option_bind] in Hc.
    pose proof (Forall_lookup_1 _ _ _ _ H3 Ecs) as [Hlcs Hini].
    unfold put_cpu. rewrite (aget_lookup _ _ _ (proj1 Hk1) Ecs). cbn [mbind outcome_bind].
    rewrite aset_in_bounds by lia. cbn [mbind outcome_bind]. rewrite aset_in_bounds by lia.
    cbn [mbind outcome_bind runs_to].
    assert (Hlt : (Z.to_nat ow < length (cpu_slabs s))%nat) by (unfold len in H2; lia).
    constructor; [done|done|..].
    + unfold cache_at. cbn [fst snd caches cpu_slabs]. rewrite (proj2 (Z.eqb_neq _ _) Hne).
      rewrite list_lookup_insert_eq by done. cbn [mbind option_bind cs_caches].
      apply list_lookup_insert_eq. unfold len in Hlcs. lia.
    + intros [ow' i'] [Hk1' Hk2']%elem_of_keys Hne'. cbn [fst snd] in *. unfold cache_at. cbn [fst snd caches cpu_slabs].
      destruct (Z.eqb_spec ow' SLAB_CPU_NONE) as [->|Hne2]; [done|]. destruct Hk1' as [?|Hk1']; [done|].
      destruct (decide (ow' = ow)) as [->|].
      * rewrite list_lookup_insert_eq, Ecs by done. cbn [mbind option_bind cs_caches].
        apply list_lookup_insert_ne. intros E. apply Hne'. f_equal. lia.
      * rewrite list_lookup_insert_ne by lia. done.
    + constructor; cbn [caches cpu_slabs]; [done|by rewrite len_insert|]. apply Forall_insert; [done|].
      cbn [cs_caches cs_initialized]. rewrite len_insert. split; [done|]. intros Hi.
      rewrite (map_insert_same _ _ _ c0); auto.
    + intros cpu. unfold started. cbn [cpu_slabs]. destruct (decide (Z.to_nat cpu = Z.to_nat ow)) as [E|E].
      * rewrite E, list_lookup_insert_eq, Ecs by done. cbn.
        split; intros (cs' & [= <-] & ?); eexists; done.
      * by rewrite list_lookup_insert_ne by done.
Qed.

(** ** The invariant *)

Section Invariant.
Context (M : Z).   (** the order of the block the buddy allocator manages *)

Abbreviation start s := (pool_start (the_buddy (s_pools s))).

(** A page as a block of the buddy allocator. *)
Definition page_block (st : Z) (p : pg) : Z * Z := (12, (pg_addr p - st) / SLAB_PAGE_SIZE).

(** The pool starts on a page, exists as memory, and ends before the last page
    of the address space. *)
Record pool_mem (s : slab_state) : Prop := {
  pm_align : start s mod SLAB_PAGE_SIZE = 0;
  pm_mapped : mapped (s_mem s) (start s) (2 ^ M);
  pm_top : start s + 2 ^ M + SLAB_PAGE_SIZE <= 2 ^ 64
}.

Record slab_inv (s : slab_state) (G : ghost) (L : list (Z * Z)) : Prop := {
  si_sizes : sizes_ok s;
  si_mem : pool_mem s;
  si_caches : forall k, k ∈ keys -> exists c, cache_at s k = Some c /\
    cache_ok (s_mem s) (sz_of k.2) k.1 c (G k);
  si_fresh : forall k, k ∈ keys -> k.1 <> SLAB_CPU_NONE -> ~ started s k.1 -> G k = ([], []);
  si_pool : pool_inv M (s_pools s) (map (page_block (start s)) (all_pages G) ++ L)
}.

Lemma all_pages_split k (G : ghost) : k ∈ keys -> exists R, all_pages G ≡ₚ gpages (G k) ++ R /\
  forall g, all_pages (<[k := g]> G) ≡ₚ gpages g ++ R.
Proof. apply (concat_keys_split (fun _ => gpages)). Qed.

(** Live blocks are distinct. *)
Lemma pool_nodup p B L : pool_inv M p (B ++ L) -> NoDup B.
Proof.
  intros Hp. pose proof (live_pairwise M _ _ (pi_buddy _ _ _ Hp)) as Hd. apply NoDup_alt.
  intros i j b Hi Hj. destruct (decide (i = j)) as [|Hne]; [done|]. exfalso.
  assert (Hb : b ∈ cached p ++ B ++ L) by (apply list_elem_of_lookup_2 in Hi; set_solver).
  destruct (live_in_range M _ _ b.1 b.2 (pi_buddy _ _ _ Hp)) as (Ho & _); [by destruct b|].
  pose proof (pow_pos b.1 (valid_order_nonneg _ Ho)).
  specialize (Hd (length (cached p) + i)%nat (length (cached p) + j)%nat b b).
  destruct Hd as [?|?]; [| |lia|lia|lia].
  - rewrite lookup_app_r by lia. rewrite lookup_app_l by (apply lookup_lt_Some in Hi; lia).
    by replace (length (cached p) + i - length (cached p))%nat with i by lia.
  - rewrite lookup_app_r by lia. rewrite lookup_app_l by (apply lookup_lt_Some in Hj; lia).
    by replace (length (cached p) + j - length (cached p))%nat with j by lia.
Qed.

Lemma blocks_pages st l : NoDup (map (page_block st) l) -> NoDup (addrs l).
Proof.
  intros H. apply (NoDup_fmap_1 (fun a => (12, (a - st) / SLAB_PAGE_SIZE))).
  change (NoDup (map (fun a => (12, (a - st) / SLAB_PAGE_SIZE)) (map pg_addr l))). by rewrite map_map.
Qed.

Lemma slab_pages_nodup s G L : slab_inv s G L -> NoDup (addrs (all_pages G)).
Proof. intros H. eapply blocks_pages, pool_nodup, H. Qed.

Lemma slab_page_at s G L p : slab_inv s G L -> p ∈ all_pages G -> page_at (s_mem s) (pg_addr p).
Proof.
  intros H (k & Hk & Hp)%elem_of_all_pages. destruct (si_caches _ _ _ H k Hk) as (c & _ & Hco).
  apply (cache_page _ _ _ _ _ _ Hco Hp).
Qed.

(** The bytes a cache depends on lie in its pages. *)
Lemma cache_words_pages m sz ow c g x :
  class_size sz -> cache_ok m sz ow c g -> cache_words g x ->
  exists p, p ∈ gpages g /\ rng (pg_addr p) SLAB_PAGE_SIZE x.
Proof.
  intros Hsz Hco (p & Hp & Hx). exists p. split; [done|]. destruct Hx as [Hx|Hx].
  - unfold rng, SLAB_PAGE_SIZE in *. lia.
  - destruct (cache_page _ _ _ _ _ p Hco Hp) as [_ Hok].
    pose proof (page_words_in _ _ _ _ x Hsz Hok (or_intror Hx)). unfold rng, SLAB_PAGE_SIZE in *. lia.
Qed.

(** Two pages that share a byte are the same. *)
Lemma same_page a b x :
  a mod SLAB_PAGE_SIZE = 0 -> b mod SLAB_PAGE_SIZE = 0 -> rng a SLAB_PAGE_SIZE x -> rng b SLAB_PAGE_SIZE x -> a = b.
Proof.
  intros Ha Hb H1 H2. destruct (decide (a = b)) as [|Hne]; [done|].
  destruct (aligned_apart a b Ha Hb Hne); unfold rng in *; lia.
Qed.

Lemma nodup_split_ne (l R : list pg) p q : NoDup (addrs (l ++ R)) -> p ∈ l -> q ∈ R -> pg_addr p <> pg_addr q.
Proof.
  rewrite map_app. intros (_ & H & _)%NoDup_app Hp Hq E. apply (H (pg_addr p)).
  - by apply list_elem_of_fmap_2.
  - rewrite E. by apply list_elem_of_fmap_2.
Qed.

(** One cache, the memory of its pages and the page allocator change. *)
Lemma slab_inv_update s G L m' p' s' k c g' L' P :
  slab_inv s G L -> k ∈ keys -> puts (mkslab m' p' (caches s) (cpu_slabs s)) s' k c ->
  pool_start (the_buddy p') = start s -> changes P (s_mem s) m' ->
  (forall x, P x -> exists p, p ∈ gpages (G k) ++ gpages g' /\ rng (pg_addr p) SLAB_PAGE_SIZE x) ->
  cache_ok m' (sz_of k.2) k.1 c g' ->
  pool_inv M p' (map (page_block (start s)) (all_pages (<[k := g']> G)) ++ L') ->
  (k.1 <> SLAB_CPU_NONE -> started s k.1) -> slab_inv s' (<[k := g']> G) L'.
Proof.
  intros Hi Hk [Em Ep Hsame Hother Hsz Hst] Est Hc HP Hco Hpool Hstart. cbn [s_mem s_pools] in *.
  destruct (all_pages_split k G Hk) as (R & HR & HR'). specialize (HR' g').
  pose proof (slab_pages_nodup s G L Hi) as Hn1. rewrite HR in Hn1.
  pose proof (blocks_pages _ _ (pool_nodup _ _ _ Hpool)) as Hn2. rewrite HR' in Hn2.
  assert (Hpg' : forall p, p ∈ gpages g' -> page_at m' (pg_addr p))
    by (intros p Hp; apply (cache_page _ _ _ _ _ _ Hco Hp)).
  constructor.
  - done.
  - destruct (si_mem _ _ _ Hi) as [H1 H2 H3]. constructor; rewrite ?Em, ?Ep, ?Est; [done| |done].
    by eapply changes_mapped.
  - intros k' Hk'. destruct (decide (k' = k)) as [->|Hne].
    { rewrite fn_lookup_insert, Em. eauto. }
    rewrite fn_lookup_insert_ne by done. rewrite Hother by done.
    destruct (si_caches _ _ _ Hi k' Hk') as (c' & Hc' & Hco'). exists c'. split; [exact Hc'|]. rewrite Em.
    eapply cache_ok_ext; [exact Hco'|apply Hc|]. intros x Hx. apply Hc. intros (p & Hp & Hpx)%HP.
    destruct (cache_words_pages _ _ _ _ _ x (sz_of_class k' Hk') Hco' Hx) as (q & Hq & Hqx).
    assert (Hqa : q ∈ all_pages G) by (apply elem_of_all_pages; eauto).
    pose proof (slab_page_at _ _ _ q Hi Hqa) as (_ & Eq & _).
    assert (HqR : q ∈ R).
    { assert (Hq0 : q ∈ all_pages (<[k := ([], [])]> G)).
      { apply elem_of_all_pages. exists k'. by rewrite fn_lookup_insert_ne. }
      destruct (all_pages_split k G Hk) as (R0 & HR0 & HR0'). rewrite HR0' in Hq0. cbn [gpages fst snd app] in Hq0.
      rewrite HR0 in HR. apply Permutation_app_inv_l in HR. by rewrite <- HR. }
    apply elem_of_app in Hp as [Hp|Hp].
    + apply (nodup_split_ne _ _ p q Hn1 Hp HqR). apply (same_page _ _ x); [|done..].
      by destruct (slab_page_at _ _ _ p Hi ltac:(apply elem_of_all_pages; eauto)) as (_ & ? & _).
    + apply (nodup_split_ne _ _ p q Hn2 Hp HqR). apply (same_page _ _ x); [|done..]. by destruct (Hpg' p Hp) as (_ & ? & _).
  - intros k' Hk' Hcpu Hns. rewrite Hst in Hns. destruct (decide (k' = k)) as [->|Hne].
    + destruct Hns. by apply Hstart.
    + rewrite fn_lookup_insert_ne by done. by apply (si_fresh _ _ _ Hi).
  - by rewrite Ep, Est.
Qed.
End Invariant.
