(* ===== verification/SlabOps.v ===== *)
(** * The slab caches: the operations

    Every operation of slab.c runs without a fault from a state that satisfies
    the invariant, keeps it, and has the effect on the set of live objects that
    a client expects; it writes no byte of a live object. *)

From stdpp Require Import gmap functions.
From S2P Require Import Prelude Bytes Buddy BuddyProofs BuddyTheorems CpuPool Memory Slab SlabProofs SlabPages SlabInv.

Abbreviation start s := (pool_start (the_buddy (s_pools s))).

(** The bytes of slab pages, and those of live objects. *)
Definition in_pages (G : ghost) (x : Z) : Prop := exists p, p ∈ all_pages G /\ rng (pg_addr p) SLAB_PAGE_SIZE x.
Definition in_live (G : ghost) (x : Z) : Prop := exists o z, (o, z) ∈ live_objs G /\ rng o z x.

(** Live objects after a change of one cache. *)
Lemma live_split k (G : ghost) : k ∈ keys -> exists R, live_objs G ≡ₚ live_in (sz_of k.2) (G k) ++ R /\
  forall g, live_objs (<[k := g]> G) ≡ₚ live_in (sz_of k.2) g ++ R.
Proof. apply (concat_keys_split (fun k g => live_in (sz_of k.2) g)). Qed.

Definition live_pages (sz : Z) (l : list pg) : list (Z * Z) :=
  concat (map (fun p => map (fun o => (o, sz)) (pg_live p)) l).

#[global] Instance live_pages_perm sz : Proper ((≡ₚ) ==> (≡ₚ)) (live_pages sz).
Proof.
  intros l l' H. unfold live_pages. induction H as [|p l l' _ IH|p q l|]; simpl.
  - done.
  - by rewrite IH.
  - rewrite !(assoc_L (++)). apply Permutation_app_tail, Permutation_app_comm.
  - by etrans.
Qed.

Lemma live_in_pages sz g : live_in sz g = live_pages sz (gpages g).
Proof. done. Qed.

(** A page of the cache [k] is replaced by one with more or fewer live objects. *)
Lemma live_update k (G : ghost) g' p p' R :
  k ∈ keys -> gpages (G k) ≡ₚ p :: R -> gpages g' ≡ₚ p' :: R ->
  exists Q, live_objs G ≡ₚ map (fun o => (o, sz_of k.2)) (pg_live p) ++ Q /\
    live_objs (<[k := g']> G) ≡ₚ map (fun o => (o, sz_of k.2)) (pg_live p') ++ Q.
Proof.
  intros Hk H1 H2. destruct (live_split k G Hk) as (Q & HQ & HQ').
  exists (live_pages (sz_of k.2) R ++ Q). rewrite HQ, (HQ' g'), !live_in_pages, H1, H2.
  unfold live_pages. cbn [map concat]. by rewrite <- !app_assoc.
Qed.

(** Pages without live objects come and go without a trace. *)
Lemma live_neutral k (G : ghost) g' p :
  k ∈ keys -> pg_live p = [] -> gpages g' ≡ₚ p :: gpages (G k) -> live_objs (<[k := g']> G) ≡ₚ live_objs G.
Proof.
  intros Hk Hp H. destruct (live_split k G Hk) as (Q & -> & HQ'). rewrite HQ', !live_in_pages, H.
  unfold live_pages. cbn [map concat]. by rewrite Hp.
Qed.

Lemma in_live_perm G G' x : live_objs G ≡ₚ live_objs G' -> in_live G x -> in_live G' x.
Proof. intros E (o & z & H & Hx). exists o, z. by rewrite <- E. Qed.

Section Ops.
Context (M : Z).
Implicit Types (s : slab_state) (G : ghost) (L : list (Z * Z)).

(** ** Live objects and the bytes of the allocator *)

Lemma live_object s G L o z :
  slab_inv M s G L -> (o, z) ∈ live_objs G -> exists k p, k ∈ keys /\ p ∈ gpages (G k) /\ o ∈ pg_live p /\
    z = sz_of k.2 /\ page_at (s_mem s) (pg_addr p) /\ page_ok (s_mem s) z k.1 p /\ class_size z /\
    o ∈ slots (pg_addr p) z /\ pg_addr p + sizeof_slab_page <= o /\ o + z <= pg_addr p + SLAB_PAGE_SIZE.
Proof.
  intros Hi (k & p & Hk & Hp & Ho & ->)%elem_of_live_objs. exists k, p.
  destruct (si_caches _ _ _ _ Hi k Hk) as (c & _ & Hco). pose proof (sz_of_class k Hk) as Hsz.
  destruct (cache_page _ _ _ _ _ _ Hco Hp) as [Ha Hok].
  pose proof (page_live_slot _ _ _ _ _ Hok Ho) as Hs. pose proof (slot_in_page _ _ _ Hsz Hs) as [? ?].
  split_and!; done.
Qed.

Lemma live_in_page s G L x :
  slab_inv M s G L -> in_live G x -> exists p, p ∈ all_pages G /\ rng (pg_addr p + 40) (SLAB_PAGE_SIZE - 40) x.
Proof.
  intros Hi (o & z & Ho & Hx). destruct (live_object _ _ _ _ _ Hi Ho) as (k & p & Hk & Hp & H).
  exists p. split; [apply elem_of_all_pages; eauto|]. unfold rng, sizeof_slab_page in *. lia.
Qed.

Lemma same_page_pg s G L p q x :
  slab_inv M s G L -> p ∈ all_pages G -> q ∈ all_pages G -> rng (pg_addr p) SLAB_PAGE_SIZE x ->
  rng (pg_addr q) SLAB_PAGE_SIZE x -> p = q.
Proof.
  intros Hi Hp Hq H1 H2. assert (E : pg_addr p = pg_addr q).
  { apply (same_page _ _ x); [| |done|done].
    - by destruct (slab_page_at _ _ _ _ p Hi Hp) as (_ & ? & _).
    - by destruct (slab_page_at _ _ _ _ q Hi Hq) as (_ & ? & _). }
  pose proof (slab_pages_nodup _ _ _ _ Hi) as Hn.
  apply list_elem_of_lookup in Hp as [i Hpi]. apply list_elem_of_lookup in Hq as [j Hqj].
  assert (i = j) as ->; [|congruence]. eapply NoDup_lookup; [exact Hn|..].
  - change (map pg_addr (all_pages G)) with (pg_addr <$> all_pages G). by rewrite list_lookup_fmap, Hpi.
  - change (map pg_addr (all_pages G)) with (pg_addr <$> all_pages G). by rewrite list_lookup_fmap, Hqj, E.
Qed.

(** Headers are not part of live objects. *)
Lemma headers_not_live s G L k x : slab_inv M s G L -> k ∈ keys -> headers (G k) x -> ~ in_live G x.
Proof.
  intros Hi Hk (p & Hp & Hx) Hl. destruct (live_in_page _ _ _ _ Hi Hl) as (q & Hq & Hqx).
  assert (p = q) as ->.
  { apply (same_page_pg s G L p q x Hi); [apply elem_of_all_pages; eauto|done|unfold rng, SLAB_PAGE_SIZE in *; lia..]. }
  unfold rng in *. lia.
Qed.

Lemma headers_in_pages G k x : k ∈ keys -> headers (G k) x -> in_pages G x.
Proof.
  intros Hk (p & Hp & Hx). exists p. split; [apply elem_of_all_pages; eauto|]. unfold rng, SLAB_PAGE_SIZE in *. lia.
Qed.

(** ** Frames *)

(** Writes outside the bytes that the caches depend on. *)
Lemma slab_inv_frame s G L P m' :
  slab_inv M s G L -> changes P (s_mem s) m' -> (forall x k, P x -> k ∈ keys -> ~ cache_words (G k) x) ->
  slab_inv M (set_mem s m') G L.
Proof.
  intros [H1 [H2 H3 H4] H5 H6 H7] Hc HP. constructor; [by destruct H1| | |exact H6|exact H7].
  - constructor; [done| |done]. by eapply changes_mapped.
  - intros k Hk. destruct (H5 k Hk) as (c & ? & Hco). exists c. split; [done|].
    eapply cache_ok_ext; [exact Hco|apply Hc|]. intros x Hx. apply Hc. intros Hp. by apply (HP x k).
Qed.

Lemma cache_words_in_pages s G L k x : slab_inv M s G L -> k ∈ keys -> cache_words (G k) x -> in_pages G x.
Proof.
  intros Hi Hk Hx. destruct (si_caches _ _ _ _ Hi k Hk) as (c & _ & Hco).
  destruct (cache_words_pages _ _ _ _ _ x (sz_of_class k Hk) Hco Hx) as (p & Hp & Hpx).
  exists p. split; [apply elem_of_all_pages; eauto|done].
Qed.

(** A page outside all caches. *)
Definition detached s G (a : Z) : Prop := page_at (s_mem s) a /\ a ∉ addrs (all_pages G).

Lemma detached_apart s G L a x :
  slab_inv M s G L -> detached s G a -> rng a SLAB_PAGE_SIZE x -> in_pages G x -> False.
Proof.
  intros Hi [(_ & Ha & _) Hn] Hx (p & Hp & Hpx). apply Hn. replace a with (pg_addr p).
  - by apply list_elem_of_fmap_2.
  - apply (same_page _ _ x); [|done..]. by destruct (slab_page_at _ _ _ _ p Hi Hp) as (_ & ? & _).
Qed.

Lemma write_detached s G L a m' :
  slab_inv M s G L -> detached s G a -> changes (rng a SLAB_PAGE_SIZE) (s_mem s) m' ->
  slab_inv M (set_mem s m') G L /\ detached (set_mem s m') G a.
Proof.
  intros Hi Hd Hc. split.
  - eapply slab_inv_frame; [done..|]. intros x k Hx Hk Hw.
    by eapply detached_apart, cache_words_in_pages.
  - destruct Hd as [Ha Hn]. split; [by eapply page_at_changes|done].
Qed.

(** Only the page allocators below change. *)
Lemma slab_inv_pools s G L p' L' :
  slab_inv M s G L -> pool_start (the_buddy p') = start s ->
  pool_inv M p' (map (page_block (start s)) (all_pages G) ++ L') -> slab_inv M (set_pools s p') G L'.
Proof.
  intros [H1 [H2 H3 H4] H5 H6 _] E Hp.
  constructor; [by destruct H1|constructor; cbn; by rewrite E|exact H5|exact H6|cbn [set_pools s_pools]; by rewrite E].
Qed.

(** The live block of a detached page among the blocks of other clients. *)
Lemma detached_block s G L p :
  slab_inv M s G (page_block (start s) p :: L) -> pg_addr p ∉ addrs (all_pages G).
Proof.
  intros Hi Hin. pose proof (si_pool _ _ _ _ Hi) as Hp.
  assert (Hp' : pool_inv M (s_pools s) ((page_block (start s) p :: map (page_block (start s)) (all_pages G)) ++ L)).
  { apply (pool_inv_perm M _ _ _ Hp). cbn [app]. symmetry. apply Permutation_middle. }
  apply pool_nodup in Hp'. apply NoDup_cons in Hp' as [Hnin _]. apply Hnin.
  apply list_elem_of_fmap in Hin as (q & E & Hq).
  replace (page_block (start s) p) with (page_block (start s) q); [by apply list_elem_of_fmap_2|].
  unfold page_block. by rewrite E.
Qed.

(** ** Adding a page to the partial list of a cache *)

Definition add_ghost (p : pg) (g : list pg * list pg) : list pg * list pg := (p :: g.1, g.2).

Lemma add_page s G L k c p :
  slab_inv M s G (page_block (start s) p :: L) -> k ∈ keys -> cache_at s k = Some c ->
  page_at (s_mem s) (pg_addr p) -> page_ok (s_mem s) (sz_of k.2) k.1 p -> pg_free p <> [] ->
  (k.1 <> SLAB_CPU_NONE -> started s k.1) ->
  runs_to ('(m, h) ← list_push (s_mem s) (c_partial c) (pg_addr p); put_cache (set_mem s m) k (set_partial c h))
    (fun s' => slab_inv M s' (<[k := add_ghost p (G k)]> G) L /\ start s' = start s /\
      (forall cpu, started s' cpu <-> started s cpu) /\
      changes (headers (add_ghost p (G k))) (s_mem s) (s_mem s')).
Proof.
  intros Hi Hk Hc Ha Hok Hfree Hst. pose proof (sz_of_class k Hk) as Hsz.
  pose proof (detached_block _ _ _ _ Hi) as Hdet.
  destruct (si_caches _ _ _ _ Hi k Hk) as (c' & Hc' & Hco). simplify_eq.
  destruct Hco as [H1 H2 H3 H4 H5 H6 H7 H8]. rewrite H1.
  assert (Hat : pages_at (s_mem s) (addrs (p :: gpages (G k)))).
  { destruct H5 as [Hn Hf]. split; [|by constructor]. cbn [map]. apply NoDup_cons. split; [|done].
    intros (q & E & Hq)%list_elem_of_fmap. apply Hdet. rewrite E. apply list_elem_of_fmap_2, elem_of_all_pages. eauto. }
  assert (Hal : Forall (fun a => a mod SLAB_PAGE_SIZE = 0) (addrs (p :: gpages (G k)))) by by eapply pages_at_aligned.
  unfold gpages in Hat, Hal. eapply runs_to_bind.
  { apply (list_push_ok (s_mem s) (pg_addr p) (addrs (G k).1)); [done|].
    apply (pages_at_sub _ (addrs (p :: (G k).1)) (addrs (G k).2)). by rewrite <- map_app. }
  intros [m' h] (-> & Hpl & Hcm).
  assert (Hal1 : Forall (fun a => a mod SLAB_PAGE_SIZE = 0) (pg_addr p :: addrs (G k).1)).
  { cbn [map] in Hal. rewrite map_app in Hal. apply Forall_cons in Hal as [? [? _]%Forall_app]. by constructor. }
  assert (Hco' : cache_ok m' (sz_of k.2) k.1 (set_partial c (pg_addr p)) (add_ghost p (G k))).
  { constructor; cbn [fst snd add_ghost c_partial c_full set_partial map]; [done|done|done| | | |by constructor|done].
    - eapply links_changes; [exact H4|exact Hcm|]. intros x Hx Hy.
      apply (link_words_apart (s_mem s) (pg_addr p :: addrs (G k).1) (addrs (G k).2) x); [|done..].
      by rewrite map_cons, map_app in Hat.
    - by eapply pages_at_changes.
    - eapply (pages_links (s_mem s)); [done| |exact Hat|exact Hcm|done]. by constructor. }
  assert (Hh : changes (headers (add_ghost p (G k))) (s_mem s) m').
  { apply (changes_links_headers (p :: (G k).1)); [done|]. cbn [fst snd add_ghost]. set_solver. }
  eapply runs_to_mono; [apply (put_cache_ok (set_mem s m') k _ c); [done|by destruct (si_sizes _ _ _ _ Hi)|done|done]|].
  intros s' Hput. pose proof Hput as [Em Ep _ _ _ Hst']. split_and!.
  - eapply (slab_inv_update M s G _ m' (s_pools s)); [exact Hi|done|exact Hput|done|exact Hh| |done| |done].
    + intros x (q & Hq & Hx). exists q. split; [unfold gpages; set_solver|]. unfold rng, SLAB_PAGE_SIZE in *. lia.
    + destruct (all_pages_split k G Hk) as (R & HR & HR'). apply (pool_inv_perm M _ _ _ (si_pool _ _ _ _ Hi)).
      rewrite HR, (HR' (add_ghost p (G k))). unfold gpages. cbn [add_ghost fst snd app map].
      symmetry. apply Permutation_middle.
  - by rewrite Ep.
  - done.
  - by rewrite Em.
Qed.

(** ** Taking an object from a cache with a partial page *)

Lemma pop_ghost_perm p pp fp o fl :
  pg_free p = o :: fl -> gpages (pop_ghost p pp fp) ≡ₚ mkpg (pg_addr p) fl (o :: pg_live p) :: pp ++ fp.
Proof.
  intros E. unfold pop_ghost, pg_pop, gpages. rewrite E. cbn [pg_free]. destruct fl; cbn [fst snd]; [|done].
  symmetry. apply Permutation_middle.
Qed.

Lemma blocks_ghost st k G g' R p p' :
  k ∈ keys -> gpages (G k) ≡ₚ p :: R -> gpages g' ≡ₚ p' :: R -> pg_addr p' = pg_addr p ->
  map (page_block st) (all_pages (<[k := g']> G)) ≡ₚ map (page_block st) (all_pages G).
Proof.
  intros Hk H1 H2 E. destruct (all_pages_split k G Hk) as (Q & -> & HQ). rewrite (HQ g'), H1, H2. cbn [map app].
  unfold page_block. by rewrite E.
Qed.

Lemma in_pages_replace k G g' R p p' x :
  k ∈ keys -> gpages (G k) ≡ₚ p :: R -> gpages g' ≡ₚ p' :: R -> pg_addr p' = pg_addr p ->
  in_pages (<[k := g']> G) x <-> in_pages G x.
Proof.
  intros Hk H1 H2 E. destruct (all_pages_split k G Hk) as (Q & HQ & HQ'). specialize (HQ' g').
  rewrite H1 in HQ. rewrite H2 in HQ'. unfold in_pages.
  split; intros (q & Hq & Hx); [rewrite HQ' in Hq|rewrite HQ in Hq]; apply elem_of_cons in Hq as [->|Hq].
  - exists p. rewrite <- E, HQ. by split; [left|].
  - exists q. rewrite HQ. by split; [right|].
  - exists p'. rewrite E, HQ'. by split; [left|].
  - exists q. rewrite HQ'. by split; [right|].
Qed.

(** The object [o] of size [z] is now live. *)
Definition alloc_effect s G L (z : Z) s' (o : Z) : Prop :=
  exists G', slab_inv M s' G' L /\ live_objs G' ≡ₚ (o, z) :: live_objs G /\
    changes (fun x => in_pages G' x /\ ~ in_live G x) (s_mem s) (s_mem s') /\
    (forall x, in_pages G x -> in_pages G' x).

(** What no operation changes. *)
Definition stable s s' : Prop := start s' = start s /\ forall cpu, started s' cpu <-> started s cpu.

Lemma stable_trans s1 s2 s3 : stable s1 s2 -> stable s2 s3 -> stable s1 s3.
Proof. intros [E1 H1] [E2 H2]. split; [congruence|]. intros cpu. by rewrite H2. Qed.

Lemma pop_at s G L k c p pp fp :
  slab_inv M s G L -> k ∈ keys -> cache_at s k = Some c -> G k = (p :: pp, fp) ->
  (k.1 <> SLAB_CPU_NONE -> started s k.1) ->
  runs_to ('(m, c, obj) ← pop_object (s_mem s) c (pg_addr p); s ← put_cache (set_mem s m) k c; Ret (s, obj))
    (fun '(s', o) => o <> 0 /\ stable s s' /\ alloc_effect s G L (sz_of k.2) s' o).
Proof.
  intros Hi Hk Hc Hg Hst. pose proof (sz_of_class k Hk) as Hsz.
  destruct (si_caches _ _ _ _ Hi k Hk) as (c' & Hc' & Hco). simplify_eq. rewrite Hg in Hco.
  destruct (cache_page _ _ _ _ _ p Hco ltac:(left)) as [Ha Hok].
  eapply runs_to_bind; [by eapply (pop_object_ok (s_mem s))|]. intros [[m' c'] o] (Ef & Esz & Hco' & Hh).
  eapply runs_to_bind; [apply (put_cache_ok (set_mem s m') k _ c); [done|by destruct (si_sizes _ _ _ _ Hi)|done|done]|].
  intros s' Hput. cbn [runs_to]. pose proof Hput as [Em Ep _ _ _ Hst'].
  pose proof (pop_ghost_perm p pp fp o _ Ef) as Hperm. set (p' := mkpg _ _ _) in Hperm.
  assert (Hg0 : gpages (G k) ≡ₚ p :: pp ++ fp) by by rewrite Hg.
  assert (Ho : o <> 0).
  { pose proof (slot_word _ _ _ _ Hsz Ha (page_free_slot _ _ _ _ o Hok ltac:(rewrite Ef; left))). lia. }
  split; [done|]. split; [split; [by rewrite Ep|exact Hst']|]. exists (<[k := pop_ghost p pp fp]> G). split_and!.
  - eapply (slab_inv_update M s G L m' (s_pools s)); [exact Hi|done|exact Hput|done|exact Hh| |done| |done].
    + intros x (q & Hq & Hx). exists q. split; [rewrite Hg; unfold gpages; set_solver|]. unfold rng, SLAB_PAGE_SIZE in *. lia.
    + apply (pool_inv_perm M _ _ _ (si_pool _ _ _ _ Hi)). apply Permutation_app_tail. symmetry.
      by apply (blocks_ghost _ k G _ (pp ++ fp) p p').
  - destruct (live_update k G (pop_ghost p pp fp) p p' (pp ++ fp) Hk Hg0 Hperm) as (Q & -> & ->). done.
  - rewrite Em. eapply changes_mono; [exact Hh|]. rewrite <- Hg. intros x Hx. split; [|by eapply headers_not_live].
    apply (in_pages_replace k G _ (pp ++ fp) p p'); [done..|]. by eapply headers_in_pages.
  - intros x. by apply (in_pages_replace k G _ (pp ++ fp) p p').
Qed.

(** ** A new page from the page allocator *)

Definition out_of_pages s : Prop := exhausted (the_buddy (s_pools s)) 12.

Lemma block_page_at s G L j :
  pool_mem M s -> pool_inv M (s_pools s) ((12, j) :: L) ->
  page_at (s_mem s) (addr (the_buddy (s_pools s)) 12 j) /\
  page_block (start s) (mkpg (addr (the_buddy (s_pools s)) 12 j) [] []) = (12, j).
Proof.
  intros [H1 H2 H3] Hp. pose proof (pi_buddy _ _ _ Hp) as Hb.
  destruct (live_in_range M _ _ 12 j Hb) as (Ho & _ & Hj & Hle); [apply elem_of_app; right; left|].
  pose proof (sh_start _ (bi_shape _ _ _ Hb)). unfold addr in *. change (2 ^ 12) with 4096 in *.
  unfold page_at, page_block, SLAB_PAGE_SIZE in *. split.
  - split_and!; [lia| |lia|].
    + rewrite Z.add_comm, Z.add_mod, Z.mod_mul, H1 by lia. done.
    + eapply mapped_sub; [exact H2|lia..].
  - cbn [pg_addr]. f_equal. replace (start s + j * 4096 - start s) with (j * 4096) by lia. by apply Z.div_mul.
Qed.

Lemma alloc_raw_page_ok s G L sz ow :
  slab_inv M s G L -> class_size sz -> 0 <= ow < 65536 ->
  runs_to (alloc_raw_page s sz ow) (fun '(s', a) => stable s s' /\
    caches s' = caches s /\ cpu_slabs s' = cpu_slabs s /\
    ((a = 0 /\ s_mem s' = s_mem s /\ slab_inv M s' G L /\ out_of_pages s') \/
     (a <> 0 /\ slab_inv M s' G (page_block (start s') (pg_new a sz) :: L) /\ page_at (s_mem s') a /\
      page_ok (s_mem s') sz ow (pg_new a sz) /\ changes (rng a SLAB_PAGE_SIZE) (s_mem s) (s_mem s')))).
Proof.
  intros Hi Hsz How. unfold alloc_raw_page.
  pose proof (from_buddy_ok M (s_pools s) _ 12 (si_pool _ _ _ _ Hi)) as Hfb.
  unfold from_buddy in Hfb. change (2 ^ 12) with SLAB_PAGE_SIZE in Hfb. specialize (Hfb ltac:(vm_compute; split; discriminate)).
  destruct (buddy_alloc (the_buddy (s_pools s)) SLAB_PAGE_SIZE) as [[b raw]| |]; [|done..].
  cbn [mbind outcome_bind runs_to] in *. destruct Hfb as [Est Hres]. cbn [the_buddy set_buddy] in Est.
  set (s1 := set_pools s (set_buddy (s_pools s) b)) in *.
  assert (Hst1 : stable s s1) by (split; [exact Est|done]).
  destruct Hres as [(-> & Hp & Hex)|(j & -> & Hnz & Hp)].
  { change (0 =? 0) with true. cbv iota. cbn [runs_to]. split_and!; [exact Hst1|done|done|].
    left. split_and!; [done|done| |exact Hex]. by apply (slab_inv_pools s G L). }
  rewrite (proj2 (Z.eqb_neq _ 0) Hnz). set (a := addr (the_buddy (s_pools s)) 12 j) in *.
  assert (Ea : addr (the_buddy (s_pools s1)) 12 j = a) by (unfold a, addr; cbn; by rewrite Est).
  assert (Hp1 : pool_inv M (s_pools s1) ((12, j) :: map (page_block (start s1)) (all_pages G) ++ L))
    by (cbn [s1 set_pools s_pools set_buddy the_buddy]; by rewrite Est).
  assert (Hi1' : slab_inv M s1 G ((12, j) :: L)).
  { apply (slab_inv_pools s G L); [done|exact Est|]. apply (pool_inv_perm M _ _ _ Hp). apply Permutation_middle. }
  destruct (block_page_at s1 G _ j (si_mem _ _ _ _ Hi1') Hp1) as [Hat Hblk]. rewrite Ea in *.
  assert (Hd : detached s1 G a).
  { split; [done|]. apply (detached_block s1 G L (mkpg a [] [])). by rewrite Hblk. }
  change (s_mem s) with (s_mem s1). eapply runs_to_bind; [by apply (slab_page_init_ok (s_mem s1) a sz ow)|].
  intros m' [Hok Hcm]. cbn [runs_to].
  destruct (write_detached s1 G _ a m' Hi1' Hd Hcm) as [Hi2 [Hat2 _]].
  split_and!; [exact Hst1|done|done|]. right. split_and!; [done| |exact Hat2|done|done].
  change (page_block (start (set_mem s1 m')) (pg_new a sz)) with (page_block (start s1) (mkpg a [] [])). by rewrite Hblk.
Qed.

(** ** Finding a page with a free object *)

Definition refill_post s G L (k : key) s' (page : Z) : Prop :=
  stable s s' /\
  ((page = 0 /\ slab_inv M s' G L /\ out_of_pages s' /\ s_mem s' = s_mem s) \/
   (page <> 0 /\ exists G' p pp fp, slab_inv M s' G' L /\ G' k = (p :: pp, fp) /\ page = pg_addr p /\
      live_objs G' ≡ₚ live_objs G /\ changes (fun x => in_pages G' x /\ ~ in_live G x) (s_mem s) (s_mem s') /\
      (forall x, in_pages G x -> in_pages G' x))).

Lemma put_cache_cpu s cpu i c : 0 <= cpu < SLAB_MAX_CPUS -> put_cache s (cpu, i) c = put_cpu s cpu i c.
Proof.
  intros H. unfold put_cache. cbn [fst snd]. destruct (Z.eqb_spec cpu SLAB_CPU_NONE); [|done].
  unfold SLAB_CPU_NONE, SLAB_MAX_CPUS in *. lia.
Qed.

Lemma live_add k G p : k ∈ keys ->
  live_objs (<[k := add_ghost p (G k)]> G) ≡ₚ map (fun o => (o, sz_of k.2)) (pg_live p) ++ live_objs G.
Proof.
  intros Hk. destruct (live_split k G Hk) as (Q & HQ & HQ').
  rewrite (HQ' (add_ghost p (G k))), HQ, (app_assoc (map _ _)). done.
Qed.

Lemma pages_add k G p : k ∈ keys -> all_pages (<[k := add_ghost p (G k)]> G) ≡ₚ p :: all_pages G.
Proof. intros Hk. destruct (all_pages_split k G Hk) as (R & HR & HR'). by rewrite HR', HR. Qed.

Lemma in_pages_add k G p x : k ∈ keys -> in_pages (<[k := add_ghost p (G k)]> G) x <->
  rng (pg_addr p) SLAB_PAGE_SIZE x \/ in_pages G x.
Proof.
  intros Hk. unfold in_pages. setoid_rewrite (pages_add k G p Hk). split.
  - intros (q & [->|?]%elem_of_cons & ?); [by left|right; eauto].
  - intros [?|(q & ? & ?)]; [exists p|exists q]; (split; [set_solver|done]).
Qed.

(** A page on its own is put on the partial list of [k]. *)
Lemma add_page_refill s G L k c p :
  slab_inv M s G (page_block (start s) p :: L) -> k ∈ keys -> cache_at s k = Some c ->
  page_at (s_mem s) (pg_addr p) -> page_ok (s_mem s) (sz_of k.2) k.1 p -> pg_free p <> [] ->
  (k.1 <> SLAB_CPU_NONE -> started s k.1) ->
  runs_to ('(m, h) ← list_push (s_mem s) (c_partial c) (pg_addr p);
           s ← put_cache (set_mem s m) k (set_partial c h); Ret (s, pg_addr p))
    (fun '(s', a) => a = pg_addr p /\ stable s s' /\ slab_inv M s' (<[k := add_ghost p (G k)]> G) L /\
      changes (fun x => in_pages (<[k := add_ghost p (G k)]> G) x /\ ~ in_live (<[k := add_ghost p (G k)]> G) x)
        (s_mem s) (s_mem s')).
Proof.
  intros Hi Hk Hc Ha Hok Hf Hst. pose proof (add_page s G L k c p Hi Hk Hc Ha Hok Hf Hst) as H.
  destruct (list_push (s_mem s) (c_partial c) (pg_addr p)) as [[m h]| |]; [|done..].
  cbn [mbind outcome_bind] in *. eapply runs_to_bind; [exact H|]. intros s' (Hi' & E & Hst' & Hch). cbn [runs_to].
  split; [done|]. split; [split; done|]. split; [done|]. eapply changes_mono; [exact Hch|]. intros x Hx.
  assert (Hx' : headers ((<[k := add_ghost p (G k)]> G) k) x) by by rewrite fn_lookup_insert.
  split; [by eapply headers_in_pages|by eapply headers_not_live].
Qed.

Lemma pg_new_free a sz : class_size sz -> pg_free (pg_new a sz) <> [].
Proof.
  intros Hsz%class_size_bounds E. apply (f_equal length) in E. cbn [pg_new pg_free] in E. unfold carved in E.
  rewrite length_reverse, length_map, length_seqZ in E. simpl in E. lia.
Qed.

Lemma new_page_refill s G L k c ow :
  slab_inv M s G L -> k ∈ keys -> cache_at s k = Some c -> ow = k.1 ->
  (k.1 <> SLAB_CPU_NONE -> started s k.1) ->
  runs_to ('(s, page) ← alloc_raw_page s (sz_of k.2) ow;
           if page =? 0 then Ret (s, 0) else
           '(m, h) ← list_push (s_mem s) (c_partial c) page;
           s ← put_cache (set_mem s m) k (set_partial c h); Ret (s, page))
    (fun '(s', page) => refill_post s G L k s' page).
Proof.
  intros Hi Hk Hc -> Hst. pose proof (sz_of_class k Hk) as Hsz.
  eapply runs_to_bind; [apply (alloc_raw_page_ok s G L); [done|done|]|].
  { apply elem_of_keys in Hk as [Hk _]. unfold SLAB_CPU_NONE, SLAB_MAX_CPUS in *. lia. }
  intros [s1 a] (Hst1 & Ec & Ecs & [(-> & Em & Hi1 & Hex)|(Hnz & Hi1 & Hat & Hok & Hch)]).
  { cbn. split; [done|]. by left. }
  rewrite (proj2 (Z.eqb_neq a 0) Hnz). eapply runs_to_mono.
  { apply (add_page_refill s1 G L k c (pg_new a (sz_of k.2))); [done|done| |done|done|by apply pg_new_free|].
    - unfold cache_at in *. by rewrite Ec, Ecs.
    - intros H. apply Hst1. auto. }
  intros [s2 r] (-> & Hst2 & Hi2 & Hch2). split; [by eapply stable_trans|]. right. split; [done|].
  set (G' := <[k := _]> G) in *. assert (Hlive : live_objs G' ≡ₚ live_objs G) by exact (live_add k G (pg_new a (sz_of k.2)) Hk).
  exists G', (pg_new a (sz_of k.2)), (G k).1, (G k).2.
  split; [done|]. split; [by unfold G'; rewrite fn_lookup_insert|]. split; [done|]. split; [done|].
  split; [|intros x Hx; apply (in_pages_add k G); [done|by right]].
  eapply changes_trans; eapply changes_mono; [exact Hch| |exact Hch2|].
  - intros x Hx. split; [apply (in_pages_add k G); [done|by left]|]. intros Hl.
    destruct (live_in_page s G L x Hi Hl) as (q & Hq & Hqx).
    apply (detached_apart s1 G _ a x Hi1); [|done|exists q; split; [done|unfold rng, SLAB_PAGE_SIZE in *; lia]].
    split; [done|]. apply (detached_block s1 G L (pg_new a (sz_of k.2)) Hi1).
  - intros x [? Hl]. split; [done|]. intros Hl'. apply Hl. by eapply in_live_perm.
Qed.

Lemma partial_cases m sz ow c g :
  cache_ok m sz ow c g -> (c_partial c = 0 /\ g.1 = []) \/
  (c_partial c <> 0 /\ exists p pp, g.1 = p :: pp /\ c_partial c = pg_addr p).
Proof.
  intros H. rewrite (co_partial _ _ _ _ _ H). destruct g as [[|p pp] fp]; cbn [fst map hd]; [by left|right].
  destruct (cache_page _ _ _ _ _ p H ltac:(left)) as [(? & _) _]. split; [lia|]. eauto.
Qed.

(** A cache that already has a partial page. *)
Lemma refill_here s G L k c :
  slab_inv M s G L -> k ∈ keys -> cache_at s k = Some c -> c_partial c <> 0 ->
  refill_post s G L k s (c_partial c).
Proof.
  intros Hi Hk Hc Hnz. destruct (si_caches _ _ _ _ Hi k Hk) as (c' & Hc' & Hco). simplify_eq.
  destruct (partial_cases _ _ _ _ _ Hco) as [[? _]|(_ & p & pp & E & Ep)]; [done|]. split; [done|]. right.
  split; [done|]. exists G, p, pp, (G k).2. split_and!; [done|by rewrite <- E; destruct (G k)|done|done|apply changes_refl|done].
Qed.

Lemma sizes_at s k c :
  sizes_ok s -> k ∈ keys -> cache_at s k = Some c -> (k.1 <> SLAB_CPU_NONE -> started s k.1) ->
  c_obj_size c = sz_of k.2.
Proof.
  intros [H1 H2 H3] _ Hc Hst. unfold cache_at in Hc. unfold sz_of.
  destruct (Z.eqb_spec k.1 SLAB_CPU_NONE) as [|Hne].
  - rewrite <- H1. change (map c_obj_size (caches s)) with (c_obj_size <$> caches s).
    by rewrite list_lookup_fmap, Hc.
  - destruct (Hst Hne) as (cs & Hcs & Hini). rewrite Hcs in Hc. cbn [mbind option_bind] in Hc.
    destruct (Forall_lookup_1 _ _ _ _ H3 Hcs) as [_ E]. rewrite <- (E Hini).
    change (map c_obj_size (cs_caches cs)) with (c_obj_size <$> cs_caches cs). by rewrite list_lookup_fmap, Hc.
Qed.

Lemma global_refill_ok s G L i :
  slab_inv M s G L -> (SLAB_CPU_NONE, i) ∈ keys ->
  runs_to (global_refill s i) (fun '(s', page) => refill_post s G L (SLAB_CPU_NONE, i) s' page).
Proof.
  intros Hi Hk. destruct (si_caches _ _ _ _ Hi _ Hk) as (c & Hc & _).
  pose proof Hk as [_ Hi']%elem_of_keys. cbn [snd] in Hi'.
  unfold global_refill. rewrite (aget_lookup _ i c (proj1 Hi') Hc). cbn [mbind outcome_bind].
  destruct (Z.eqb_spec (c_partial c) 0) as [E|E]; cbn [negb]; [|by apply refill_here].
  rewrite (sizes_at s _ c (si_sizes _ _ _ _ Hi) Hk Hc ltac:(done)).
  by apply (new_page_refill s G L (SLAB_CPU_NONE, i) c).
Qed.

(** Taking the first page off the partial list of a cache. *)
Lemma detach_page s G L k c p pp fp :
  slab_inv M s G L -> k ∈ keys -> cache_at s k = Some c -> G k = (p :: pp, fp) ->
  (k.1 <> SLAB_CPU_NONE -> started s k.1) ->
  runs_to ('(m, h) ← list_remove (s_mem s) (c_partial c) (pg_addr p); put_cache (set_mem s m) k (set_partial c h))
    (fun s' => slab_inv M s' (<[k := (pp, fp)]> G) (page_block (start s') p :: L) /\ stable s s' /\
      page_at (s_mem s') (pg_addr p) /\ page_ok (s_mem s') (sz_of k.2) k.1 p /\
      changes (headers (G k)) (s_mem s) (s_mem s') /\
      (forall k', k' ∈ keys -> k' <> k -> cache_at s' k' = cache_at s k')).
Proof.
  intros Hi Hk Hc Hg Hst. pose proof (sz_of_class k Hk) as Hsz.
  destruct (si_caches _ _ _ _ Hi k Hk) as (c' & Hc' & Hco). simplify_eq. rewrite Hg in Hco |- *.
  destruct (cache_page _ _ _ _ _ p Hco ltac:(left)) as [Ha Hok].
  destruct Hco as [H1 H2 H3 H4 H5 H6 H7 H8]. cbn [fst snd map app] in *. rewrite H1.
  pose proof (pages_at_aligned _ _ H5) as Hal.
  assert (H5' : pages_at (s_mem s) ((pg_addr p :: addrs pp) ++ addrs fp)) by by rewrite map_app in H5.
  destruct (pages_at_sub _ _ _ H5') as [H5p _].
  eapply runs_to_bind; [by apply (list_remove_ok (s_mem s) [] (pg_addr p) (addrs pp))|].
  intros [m' h] (-> & Hpl & Hcm). cbn [app] in *.
  assert (Hal1 : Forall (fun a => a mod SLAB_PAGE_SIZE = 0) (pg_addr p :: addrs pp)).
  { rewrite map_app in Hal. apply Forall_cons in Hal as [? [? _]%Forall_app]. by constructor. }
  assert (Hpgs : Forall (page_ok m' (sz_of k.2) k.1) (p :: pp ++ fp)) by by eapply (pages_links (s_mem s)).
  assert (Hco' : cache_ok m' (sz_of k.2) k.1 (set_partial c (hd 0 (addrs pp))) (pp, fp)).
  { constructor; cbn [fst snd c_partial c_full set_partial]; [done|done|done| | | |by inversion H7|done].
    - eapply links_changes; [exact H4|exact Hcm|]. intros x Hx Hy. by apply (link_words_apart (s_mem s) (pg_addr p :: addrs pp) (addrs fp) x H5').
    - eapply pages_at_changes; [exact Hcm|]. by apply (pages_at_sub _ [pg_addr p]).
    - by inversion Hpgs. }
  eapply runs_to_mono; [apply (put_cache_ok (set_mem s m') k _ c); [done|by destruct (si_sizes _ _ _ _ Hi)|done|done]|].
  intros s' Hput. pose proof Hput as [Em Ep _ Hoth _ Hst'].
  assert (Hh : changes (headers (p :: pp, fp)) (s_mem s) m').
  { apply (changes_links_headers (p :: pp)); [done|]. cbn [fst snd]. set_solver. }
  split_and!.
  - rewrite Ep. eapply (slab_inv_update M s G L m' (s_pools s)); [exact Hi|done|exact Hput|done|exact Hh| |done| |done].
    + intros x (q & Hq & Hx). exists q. rewrite Hg. split; [unfold gpages; set_solver|]. unfold rng, SLAB_PAGE_SIZE in *. lia.
    + destruct (all_pages_split k G Hk) as (R & HR & HR'). apply (pool_inv_perm M _ _ _ (si_pool _ _ _ _ Hi)).
      rewrite HR, (HR' (pp, fp)), Hg. unfold gpages. cbn [fst snd app map]. apply Permutation_middle.
  - split; [by rewrite Ep|exact Hst'].
  - rewrite Em. by eapply page_at_changes.
  - rewrite Em. by inversion Hpgs.
  - by rewrite Em.
  - done.
Qed.

Lemma set_owner_ok m sz ow p ow' :
  class_size sz -> page_at m (pg_addr p) -> page_ok m sz ow p -> 0 <= ow' < 65536 ->
  runs_to (store 2 m (f_owner_cpu (pg_addr p)) ow') (fun m' =>
    page_ok m' sz ow' p /\ changes (rng (pg_addr p + 26) 2) m m').
Proof.
  intros Hsz Ha Hok How. eapply runs_to_mono; [apply store_ok; [by apply (page_at_field m _ 26 2)|done]|].
  intros m' [Hr Hc]. split; [|done].
  assert (Hab : forall o x, o ∈ pg_free p -> rng o 8 x -> ~ rng (pg_addr p) 40 x) by (intros; by eapply free_slots_above).
  destruct Hok as [H1 H2 H3 H4 H5 H6 H7 H8]. constructor; [by kept Hc..|done|by kept Hc| |done].
  eapply chain_ext; [exact H7|]. intros o x Ho Hx. apply Hc. pose proof (Hab o x Ho Hx). fields. lia.
Qed.

Lemma cpu_refill_ok s G L cpu i :
  slab_inv M s G L -> (cpu, i) ∈ keys -> 0 <= cpu < SLAB_MAX_CPUS -> started s cpu ->
  runs_to (cpu_refill s cpu i) (fun '(s', page) => refill_post s G L (cpu, i) s' page).
Proof.
  intros Hi Hk Hcpu Hst. destruct (si_caches _ _ _ _ Hi _ Hk) as (c & Hc & Hco).
  pose proof Hk as [_ Hi']%elem_of_keys. cbn [fst snd] in *.
  assert (Hkg : (SLAB_CPU_NONE, i) ∈ keys) by (apply elem_of_keys; split; [by left|done]).
  destruct (si_caches _ _ _ _ Hi _ Hkg) as (gc & Hgc & Hcog).
  assert (Hne : cpu <> SLAB_CPU_NONE) by (unfold SLAB_CPU_NONE, SLAB_MAX_CPUS in *; lia).
  assert (Eget : get_cpu s cpu i = Ret c).
  { unfold get_cpu, cache_at in *. cbn [fst snd] in *. rewrite (proj2 (Z.eqb_neq _ _) Hne) in Hc.
    destruct (cpu_slabs s !! Z.to_nat cpu) as [cs|] eqn:Ecs; [|done]. cbn [mbind option_bind] in Hc.
    rewrite (aget_lookup _ cpu cs (proj1 Hcpu) Ecs). cbn [mbind outcome_bind]. by apply aget_lookup; [apply Hi'|]. }
  unfold cpu_refill. rewrite Eget. cbn [mbind outcome_bind].
  destruct (Z.eqb_spec (c_partial c) 0) as [E|E]; cbn [negb]; [|by apply refill_here].
  rewrite (aget_lookup _ i gc (proj1 Hi') Hgc). cbn [mbind outcome_bind].
  assert (Eu : u16 cpu = cpu) by (apply u16_id; unfold SLAB_MAX_CPUS in *; lia). rewrite Eu.
  destruct (partial_cases _ _ _ _ _ Hcog) as [[E0 _]|(Hnz & p & pp & Eg & Ep)].
  - rewrite E0. cbn [Z.eqb negb]. rewrite (sizes_at s _ c (si_sizes _ _ _ _ Hi) Hk Hc ltac:(done)).
    pose proof (new_page_refill s G L (cpu, i) c cpu Hi Hk Hc eq_refl ltac:(done)) as H.
    cbn [snd] in *. destruct (alloc_raw_page s (sz_of i) cpu) as [[s1 a]| |]; [|done..]. cbn [mbind outcome_bind] in *.
    destruct (a =? 0); [done|]. destruct (list_push (s_mem s1) (c_partial c) a) as [[m h]| |]; [|done..].
    cbn [mbind outcome_bind] in *. by rewrite put_cache_cpu in H.
  - rewrite (proj2 (Z.eqb_neq _ 0) Hnz), Ep. cbn [negb].
    assert (EG : G (SLAB_CPU_NONE, i) = (p :: pp, (G (SLAB_CPU_NONE, i)).2)) by (rewrite <- Eg; apply surjective_pairing).
    pose proof (detach_page s G L _ gc p pp _ Hi Hkg Hgc EG ltac:(done)) as H. rewrite Ep in H.
    destruct (list_remove (s_mem s) (pg_addr p) (pg_addr p)) as [[m h]| |]; [|done..]. cbn [mbind outcome_bind] in *.
    eapply runs_to_bind; [exact H|]. clear H. set (G1 := <[_ := _]> G).
    intros s1 (Hi1 & Hst1 & Hat1 & Hok1 & Hch1 & Hoth). cbn [fst snd] in *.
    eapply runs_to_bind; [by apply (set_owner_ok (s_mem s1) (sz_of i) SLAB_CPU_NONE p cpu (sz_of_class _ Hk) Hat1 Hok1);
      unfold SLAB_MAX_CPUS in *; lia|]. intros m2 [Hok2 Hch2].
    assert (Hdet : detached s1 G1 (pg_addr p)) by (split; [done|by apply (detached_block s1 G1 L)]).
    assert (Hch2' : changes (rng (pg_addr p) SLAB_PAGE_SIZE) (s_mem s1) m2).
    { eapply changes_mono; [exact Hch2|]. unfold rng, SLAB_PAGE_SIZE. lia. }
    destruct (write_detached s1 G1 _ (pg_addr p) m2 Hi1 Hdet Hch2') as [Hi2 [Hat2 _]].
    assert (Hne' : (cpu, i) <> (SLAB_CPU_NONE, i)) by congruence.
    assert (Hc2 : cache_at (set_mem s1 m2) (cpu, i) = Some c) by (rewrite <- Hc; by apply Hoth).
    assert (Hf : pg_free p <> []).
    { destruct Hcog as [_ _ _ _ _ _ Hsome _]. rewrite Eg in Hsome. by inversion Hsome. }
    pose proof (add_page_refill (set_mem s1 m2) G1 L (cpu, i) c p Hi2 Hk Hc2 Hat2 Hok2 Hf) as H.
    cbn [s_mem set_mem fst] in H. specialize (H ltac:(intros _; by apply Hst1)).
    destruct (list_push m2 (c_partial c) (pg_addr p)) as [[m3 h3]| |]; [|done..]. cbn [mbind outcome_bind] in *.
    rewrite put_cache_cpu in H by done. change (set_mem (set_mem s1 m2) m3) with (set_mem s1 m3) in H.
    eapply runs_to_mono; [exact H|]. clear H. set (G2 := <[(cpu, i) := _]> G1).
    intros [s3 r] (-> & Hst3 & Hi3 & Hch3).
    assert (Hlive : live_objs G2 ≡ₚ live_objs G).
    { unfold G2. rewrite (live_add (cpu, i) G1 p Hk). cbn [snd].
      destruct (live_split _ G Hkg) as (Q & HQ & HQ'). unfold G1. rewrite (HQ' (pp, _)), HQ, EG. cbn [snd].
      by rewrite (app_assoc (map _ _)). }
    assert (Hpages : all_pages G2 ≡ₚ all_pages G).
    { unfold G2. rewrite (pages_add (cpu, i) G1 p Hk).
      destruct (all_pages_split _ G Hkg) as (Q & HQ & HQ'). unfold G1. by rewrite (HQ' (pp, _)), HQ, EG. }
    assert (Hp2 : forall x, in_pages G x -> in_pages G2 x) by (intros x (q & Hq & Hx); exists q; by rewrite Hpages).
    assert (Hhd : forall x, headers (G (SLAB_CPU_NONE, i)) x -> in_pages G2 x /\ ~ in_live G x).
    { intros x Hx. split; [by apply Hp2; eapply headers_in_pages|by eapply headers_not_live]. }
    split; [eapply stable_trans; [exact Hst1|exact Hst3]|]. right. split; [by rewrite <- Ep|].
    exists G2, p, (G1 (cpu, i)).1, (G1 (cpu, i)).2.
    split; [done|]. split; [by unfold G2; rewrite fn_lookup_insert|]. split; [done|]. split; [done|]. split; [|done].
    eapply changes_trans; [|eapply changes_trans]; eapply changes_mono; [exact Hch1|exact Hhd|exact Hch2| |exact Hch3|].
    + intros x Hx. apply Hhd. exists p. rewrite EG. split; [left|]. unfold rng in *. lia.
    + intros x [? Hl]. split; [done|]. intros Hl'. apply Hl. by eapply in_live_perm.
Qed.

(** ** Allocation *)

(** The index of the smallest sufficient size. *)
Definition class_for (size : Z) : option Z := first_index (fun z => negb (z <? size)) obj_sizes.

Lemma first_index_caches size (l : list cache) :
  map c_obj_size l = obj_sizes ->
  first_index (fun c => negb (c_obj_size c <? size)) l = class_for size.
Proof.
  intros E. unfold class_for. rewrite <- E. unfold first_index. generalize 0. clear E.
  induction l as [|c l IH]; intros k; simpl; [done|]. destruct (negb _); [done|apply IH].
Qed.

Lemma class_for_bounds size i : class_for size = Some i -> 0 <= i < SLAB_SIZES_COUNT /\ size <= sz_of i.
Proof.
  unfold class_for. intros (Hi & z & Hz & Hle & _)%first_index_Some. split; [exact Hi|].
  unfold sz_of. rewrite Hz. simpl. apply negb_true_iff, Z.ltb_ge in Hle. done.
Qed.

Definition slab_alloc_post s G L (size : Z) s' (r : Z) : Prop :=
  stable s s' /\
  match class_for size with
  | None => r = 0 /\ s' = s
  | Some i => (r = 0 /\ slab_inv M s' G L /\ out_of_pages s' /\ s_mem s' = s_mem s) \/
              (r <> 0 /\ alloc_effect s G L (sz_of i) s' r)
  end.

(** A page with a free object is found, then its object is taken. *)
Lemma refill_then_pop s s1 G L k page (next : outcome (slab_state * Z)) :
  refill_post s G L k s1 page -> k ∈ keys -> (k.1 <> SLAB_CPU_NONE -> started s k.1) ->
  (page <> 0 -> exists c, cache_at s1 k = Some c /\
    next = ('(m, c, obj) ← pop_object (s_mem s1) c page; s ← put_cache (set_mem s1 m) k c; Ret (s, obj))) ->
  runs_to (if page =? 0 then Ret (s1, 0) else next) (fun '(s', r) => stable s s' /\
    ((r = 0 /\ slab_inv M s' G L /\ out_of_pages s' /\ s_mem s' = s_mem s) \/
     (r <> 0 /\ alloc_effect s G L (sz_of k.2) s' r))).
Proof.
  intros [Hst1 Hres] Hk Hst Hnext.
  destruct Hres as [(-> & ? & ? & ?)|(Hnz & G' & p & pp & fp & Hi & Hg & -> & Hl & Hch & Hpg1)].
  { cbn. split; [done|]. by left. }
  rewrite (proj2 (Z.eqb_neq _ 0) Hnz). destruct (Hnext Hnz) as (c & Hc & ->).
  eapply runs_to_mono; [apply (pop_at s1 G' L k c p pp fp); [done..|]|].
  { intros H. apply Hst1. auto. }
  intros [s2 o] (Ho & Hst2 & G2 & Hi2 & Hl2 & Hch2 & Hpg). split; [by eapply stable_trans|]. right. split; [done|].
  exists G2. split; [done|]. split; [by rewrite Hl2, Hl|]. split.
  - eapply changes_trans; eapply changes_mono; [exact Hch| |exact Hch2|].
    + intros x [? ?]. auto.
    + intros x [? Hnl]. split; [done|]. intros Hl'. apply Hnl. by eapply in_live_perm.
  - auto.
Qed.

Lemma cpu_started_ok s G L cpu :
  slab_inv M s G L -> 0 <= cpu ->
  exists b, cpu_started s cpu = Ret b /\ (b = true -> cpu < SLAB_MAX_CPUS /\ started s cpu) /\
    (cpu < SLAB_MAX_CPUS -> started s cpu -> b = true).
Proof.
  intros Hi Hc. unfold cpu_started. destruct (Z.ltb_spec cpu SLAB_MAX_CPUS) as [Hlt|Hge].
  2:{ exists false. split_and!; [done|done|lia]. }
  destruct (aget_in_bounds (cpu_slabs s) cpu) as (cs & -> & Hcs); [rewrite (so_cpus _ (si_sizes _ _ _ _ Hi)); lia|].
  cbn [mbind outcome_bind]. eexists. split; [done|]. unfold started. rewrite Hcs.
  destruct (Z.eqb_spec (cs_initialized cs) 0); cbn [negb]; split; intros; [done|naive_solver|by eauto|done].
Qed.

Lemma get_cpu_cache s cpu i :
  0 <= cpu < SLAB_MAX_CPUS -> 0 <= i -> get_cpu s cpu i = match cache_at s (cpu, i) with Some c => Ret c | None => Fault OutOfBounds end.
Proof.
  intros Hcpu Hi. unfold get_cpu, cache_at, aget. cbn [fst snd].
  destruct (Z.eqb_spec cpu SLAB_CPU_NONE); [unfold SLAB_CPU_NONE, SLAB_MAX_CPUS in *; lia|].
  destruct (Z.ltb_spec cpu 0); [lia|]. destruct (cpu_slabs s !! Z.to_nat cpu); [|done]. cbn [mbind option_bind outcome_bind].
  by destruct (Z.ltb_spec i 0); [lia|].
Qed.

Lemma cache_exists s G L k : slab_inv M s G L -> k ∈ keys -> exists c, cache_at s k = Some c.
Proof. intros Hi Hk. destruct (si_caches _ _ _ _ Hi k Hk) as (c & ? & _). eauto. Qed.

(** The state after a refill satisfies the invariant for some ghost state. *)
Lemma refill_inv s G L k s1 page : refill_post s G L k s1 page -> exists G', slab_inv M s1 G' L.
Proof. intros [_ [(_ & ? & _)|(_ & G' & p & pp & fp & ? & _)]]; eauto. Qed.

Lemma cpu_cache_alloc_ok s G L cpu i :
  slab_inv M s G L -> 0 <= cpu < SLAB_MAX_CPUS -> 0 <= i < SLAB_SIZES_COUNT -> started s cpu ->
  runs_to (cpu_cache_alloc s cpu i) (fun '(s', r) => stable s s' /\
    ((r = 0 /\ slab_inv M s' G L /\ out_of_pages s' /\ s_mem s' = s_mem s) \/
     (r <> 0 /\ alloc_effect s G L (sz_of i) s' r))).
Proof.
  intros Hi Hcpu Hidx Hst.
  assert (Hk : (cpu, i) ∈ keys) by (apply elem_of_keys; split; [by right|done]).
  unfold cpu_cache_alloc. eapply runs_to_bind; [by apply (cpu_refill_ok s G L)|].
  intros [s1 page] Hpost. destruct (refill_inv _ _ _ _ _ _ Hpost) as [G1 Hi1].
  apply (refill_then_pop s s1 G L (cpu, i) page _ Hpost Hk ltac:(done)). intros Hnz.
  destruct (cache_exists s1 G1 L _ Hi1 Hk) as [c Hc]. exists c. split; [done|].
  rewrite get_cpu_cache, Hc by lia. cbn [mbind outcome_bind].
  destruct (pop_object (s_mem s1) c page) as [[[m c'] obj]| |]; [|done..]. cbn [mbind outcome_bind].
  by rewrite put_cache_cpu.
Qed.

Lemma slab_alloc_ok s G L cpu size :
  slab_inv M s G L -> 0 <= cpu ->
  runs_to (slab_alloc s cpu size) (fun '(s', r) => slab_alloc_post s G L size s' r).
Proof.
  intros Hi Hcpu. unfold slab_alloc, slab_alloc_post.
  rewrite (first_index_caches size _ (so_caches _ (si_sizes _ _ _ _ Hi))).
  destruct (class_for size) as [i|] eqn:Ecl; [|done]. destruct (class_for_bounds _ _ Ecl) as [Hidx _].
  destruct (cpu_started_ok s G L cpu Hi Hcpu) as (b & -> & Hb & _). cbn [mbind outcome_bind].
  destruct b.
  { destruct (Hb eq_refl) as [Hlt Hst]. by apply cpu_cache_alloc_ok. }
  assert (Hk : (SLAB_CPU_NONE, i) ∈ keys) by (apply elem_of_keys; split; [by left|done]).
  eapply runs_to_bind; [by apply (global_refill_ok s G L)|].
  intros [s1 page] Hpost. destruct (refill_inv _ _ _ _ _ _ Hpost) as [G1 Hi1].
  apply (refill_then_pop s s1 G L (SLAB_CPU_NONE, i) page _ Hpost Hk ltac:(done)). intros Hnz.
  destruct (cache_exists s1 G1 L _ Hi1 Hk) as [c Hc]. exists c. split; [done|].
  by rewrite (aget_lookup _ i c (proj1 Hidx) Hc).
Qed.

Lemma slab_alloc_cpu_ok s G L current cpu size :
  slab_inv M s G L -> 0 <= current -> 0 <= cpu ->
  runs_to (slab_alloc_cpu s current cpu size) (fun '(s', r) => slab_alloc_post s G L size s' r).
Proof.
  intros Hi Hcur Hcpu. unfold slab_alloc_cpu.
  destruct (cpu_started_ok s G L cpu Hi Hcpu) as (b & -> & Hb & _). cbn [mbind outcome_bind].
  destruct b; cbn [negb]; [|by apply slab_alloc_ok].
  destruct (Hb eq_refl) as [Hlt Hst]. destruct Hst as (cs & Hcs & Hini).
  rewrite (aget_lookup _ cpu cs Hcpu Hcs). cbn [mbind outcome_bind].
  destruct (Forall_lookup_1 _ _ _ _ (so_cpu _ (si_sizes _ _ _ _ Hi)) Hcs) as [_ Hsz].
  rewrite (first_index_caches size _ (Hsz Hini)). unfold slab_alloc_post.
  destruct (class_for size) as [i|] eqn:Ecl; [|done]. destruct (class_for_bounds _ _ Ecl) as [Hidx _].
  apply cpu_cache_alloc_ok; [done|lia|done|by exists cs].
Qed.

(** ** Freeing *)

Lemma page_of_eq ptr : 0 <= ptr < 2 ^ 64 -> page_of ptr = ptr - ptr mod SLAB_PAGE_SIZE.
Proof.
  intros Hp. unfold page_of, SLAB_PAGE_SIZE.
  assert (E : ptr - ptr mod 4096 = Z.shiftl (Z.shiftr ptr 12) 12).
  { rewrite Z.shiftl_mul_pow2, Z.shiftr_div_pow2 by lia. change (2 ^ 12) with 4096.
    pose proof (Z.div_mod ptr 4096 ltac:(lia)). lia. }
  rewrite E. change (u64 (Z.lnot (4096 - 1))) with (Z.shiftl (Z.ones 52) 12).
  apply Z.bits_inj'. intros n Hn. rewrite Z.land_spec. destruct (Z.lt_ge_cases n 12).
  { rewrite !Z.shiftl_spec_low by lia. apply andb_false_r. }
  rewrite !Z.shiftl_spec, Z.shiftr_spec by lia. replace (n - 12 + 12) with n by lia.
  destruct (Z.lt_ge_cases (n - 12) 52); [rewrite Z.ones_spec_low by lia; apply andb_true_r|].
  rewrite Z.ones_spec_high, andb_false_r by lia. symmetry.
  apply Z.bits_above_log2; [lia|]. destruct (decide (ptr = 0)) as [->|]; [simpl; lia|].
  pose proof (proj1 (Z.log2_lt_pow2 ptr 64 ltac:(lia)) (proj2 Hp)). lia.
Qed.

Lemma page_of_slot m a o : page_at m a -> a <= o < a + SLAB_PAGE_SIZE -> page_of o = a.
Proof.
  intros (Hpos & Hal & Htop & _) Ho. unfold SLAB_PAGE_SIZE in *. rewrite page_of_eq by lia.
  unfold SLAB_PAGE_SIZE. rewrite <- (Z.mod_unique o 4096 (a / 4096) (o - a)); [lia|lia|].
  pose proof (Z.div_mod a 4096 ltac:(lia)). lia.
Qed.

Lemma cache_index_class i : 0 <= i < SLAB_SIZES_COUNT -> cache_index_for_size (sz_of i) = i.
Proof.
  intros Hi. unfold SLAB_SIZES_COUNT in Hi.
  assert (H : i ∈ seqZ 0 8) by (apply elem_of_seqZ; lia). change (seqZ 0 8) with [0;1;2;3;4;5;6;7] in H.
  repeat (apply elem_of_cons in H as [->|H]; [reflexivity|]). by apply elem_of_nil in H.
Qed.

(** The object [o] of size [z] is no longer live. *)
Definition free_effect s G L (z : Z) s' (o : Z) : Prop :=
  stable s s' /\ exists G', slab_inv M s' G' L /\ live_objs G ≡ₚ (o, z) :: live_objs G' /\
    changes (fun x => in_pages G' x /\ ~ in_live G' x) (s_mem s) (s_mem s') /\
    (forall x, in_pages G' x <-> in_pages G x).

Lemma push_at s G L k c p o lv :
  slab_inv M s G L -> k ∈ keys -> cache_at s k = Some c -> p ∈ gpages (G k) -> pg_live p ≡ₚ o :: lv ->
  (k.1 <> SLAB_CPU_NONE -> started s k.1) ->
  runs_to ('(m, c) ← push_object (s_mem s) c (pg_addr p) o; put_cache (set_mem s m) k c)
    (fun s' => free_effect s G L (sz_of k.2) s' o).
Proof.
  intros Hi Hk Hc Hp Hlv Hst. pose proof (sz_of_class k Hk) as Hsz.
  destruct (si_caches _ _ _ _ Hi k Hk) as (c' & Hc' & Hco). simplify_eq.
  destruct (push_ghost_exists _ _ _ _ _ p (pg_push p o lv) Hco Hp) as (g' & Hg).
  destruct (push_ghost_perm _ _ _ _ Hg) as (R & HR1 & HR2). fold (gpages (G k)) in HR1. fold (gpages g') in HR2.
  destruct (cache_page _ _ _ _ _ p Hco Hp) as [Ha Hok].
  assert (Ho : o ∈ slots (pg_addr p) (sz_of k.2)) by (eapply page_live_slot; [done|]; rewrite Hlv; left).
  pose proof (slot_in_page _ _ _ Hsz Ho) as Hin. pose proof (class_size_bounds _ Hsz) as [Hszb _].
  eapply runs_to_bind; [by eapply (push_object_ok (s_mem s))|]. intros [m' c'] (Esz & Hco' & Hh).
  eapply runs_to_mono; [apply (put_cache_ok (set_mem s m') k _ c); [done|by destruct (si_sizes _ _ _ _ Hi)|done|done]|].
  intros s' Hput. pose proof Hput as [Em Ep _ _ _ Hst'].
  assert (Hi' : slab_inv M s' (<[k := g']> G) L).
  { eapply (slab_inv_update M s G L m' (s_pools s)); [exact Hi|done|exact Hput|done|exact Hh| |done| |done].
    - intros x [(q & Hq & Hx)|Hx].
      + exists q. split; [unfold gpages; set_solver|]. unfold rng, SLAB_PAGE_SIZE in *. lia.
      + exists p. split; [set_solver|]. unfold rng, SLAB_PAGE_SIZE, sizeof_slab_page in *. lia.
    - apply (pool_inv_perm M _ _ _ (si_pool _ _ _ _ Hi)). apply Permutation_app_tail. symmetry.
      by apply (blocks_ghost _ k G _ R p (pg_push p o lv)). }
  assert (Hpg : forall x, in_pages (<[k := g']> G) x <-> in_pages G x)
    by (intros x; by apply (in_pages_replace k G _ R p (pg_push p o lv))).
  destruct (live_update k G g' p (pg_push p o lv) R Hk HR1 HR2) as (Q & HQ1 & HQ2). cbn [pg_live pg_push] in HQ2.
  assert (Hlive : live_objs G ≡ₚ (o, sz_of k.2) :: live_objs (<[k := g']> G)) by (rewrite HQ1, HQ2, Hlv; done).
  split; [split; [by rewrite Ep|exact Hst']|]. exists (<[k := g']> G). split_and!; [done|done| |done].
  rewrite Em. eapply changes_mono; [exact Hh|]. intros x Hx. rewrite Hpg. split.
  - destruct Hx as [Hx|Hx]; [by eapply headers_in_pages|]. exists p.
    split; [apply elem_of_all_pages; eauto|]. unfold rng, SLAB_PAGE_SIZE, sizeof_slab_page in *. lia.
  - intros Hl. assert (Hl0 : in_live G x).
    { destruct Hl as (o' & z & Ho' & Hx'). exists o', z. rewrite Hlive. by split; [right|]. }
    destruct Hx as [Hx|Hx]; [exact (headers_not_live s G L k x Hi Hk Hx Hl0)|].
    destruct Hl as (o' & z & Ho' & Hx').
    destruct (live_object _ _ _ _ _ Hi' Ho') as (k' & p' & Hk' & Hp' & Hlv' & -> & Ha' & Hok' & Hsz' & Hs' & Hin').
    (* the other object is in the same page, and another slot of it *)
    assert (Hpp : pg_push p o lv ∈ gpages (<[k := g']> G k)) by (rewrite fn_lookup_insert, HR2; left).
    assert (E : p' = pg_push p o lv).
    { apply (same_page_pg s' _ L p' (pg_push p o lv) x Hi'); [apply elem_of_all_pages; eauto..| |];
        cbn [pg_addr pg_push]; unfold rng, SLAB_PAGE_SIZE, sizeof_slab_page in *; lia. }
    subst p'. cbn [pg_addr pg_live pg_push] in *.
    destruct (si_caches _ _ _ _ Hi' k Hk) as (ck & _ & Hcok). destruct (cache_page _ _ _ _ _ _ Hcok Hpp) as [_ Hokp].
    assert (Esz' : sz_of k'.2 = sz_of k.2).
    { pose proof (po_size _ _ _ _ Hok') as E1. pose proof (po_size _ _ _ _ Hokp) as E2. cbn [pg_addr pg_push] in *.
      unfold reads in *. congruence. }
    rewrite Esz' in *.
    assert (Hne : o <> o').
    { intros <-. pose proof (NoDup_slots (pg_addr p) (sz_of k.2) Hsz) as Hnd.
      rewrite <- (po_slots _ _ _ _ Hok), Hlv in Hnd. apply NoDup_app in Hnd as (_ & _ & [Hnd _]%NoDup_cons). done. }
    pose proof (slots_apart _ _ _ _ Hsz Ho Hs' Hne). unfold rng in *. lia.
Qed.

(** Freeing a live object on a processor that may use its page. *)
Lemma slab_free_ok s G L cpu o z ow :
  slab_inv M s G L -> 0 <= cpu -> (o, z) ∈ live_objs G ->
  reads 2 (s_mem s) (f_owner_cpu (page_of o)) ow -> ow = SLAB_CPU_NONE \/ ow = cpu ->
  runs_to (slab_free s cpu o) (fun s' => free_effect s G L z s' o).
Proof.
  intros Hi Hcpu Ho How Hcase.
  destruct (live_object _ _ _ _ _ Hi Ho) as (k & p & Hk & Hp & Hlv & -> & Ha & Hok & Hsz & Hs & Hlo & Hhi).
  pose proof (class_size_bounds _ Hsz) as [Hszb _].
  assert (Epage : page_of o = pg_addr p).
  { apply (page_of_slot (s_mem s)); [done|]. unfold SLAB_PAGE_SIZE, sizeof_slab_page in *. lia. }
  rewrite Epage in How. assert (Eow : ow = k.1).
  { pose proof (po_owner _ _ _ _ Hok) as E. unfold reads in *. congruence. }
  subst ow. destruct Ha as (Hpos & Ha'). apply list_elem_of_split in Hlv as (l1 & l2 & Elv).
  assert (Hperm : pg_live p ≡ₚ o :: l1 ++ l2) by (rewrite Elv; symmetry; apply Permutation_middle).
  destruct (cache_exists s G L k Hi Hk) as [c Hc].
  unfold slab_free. rewrite (proj2 (Z.eqb_neq o 0)) by (unfold sizeof_slab_page in *; lia). cbv zeta. rewrite Epage.
  eapply runs_to_load; [apply Hok|]. rewrite Z.eqb_refl. cbn [negb].
  eapply runs_to_load; [apply Hok|]. pose proof Hk as [Hk1 Hk2]%elem_of_keys.
  rewrite (cache_index_class k.2 Hk2). destruct (Z.ltb_spec k.2 0); [lia|].
  eapply runs_to_load; [exact How|].
  pose proof (push_at s G L k c p o (l1 ++ l2) Hi Hk Hc Hp Hperm) as Hpush.
  destruct (Z.eqb_spec k.1 SLAB_CPU_NONE) as [E|E]; cbn [negb andb mbind outcome_bind].
  - specialize (Hpush ltac:(done)). unfold global_cache_free.
    assert (Hc' := Hc). unfold cache_at in Hc'. rewrite E in Hc'. change (SLAB_CPU_NONE =? SLAB_CPU_NONE) with true in Hc'.
    rewrite (aget_lookup _ k.2 c (proj1 Hk2) Hc'). cbn [mbind outcome_bind].
    destruct (push_object (s_mem s) c (pg_addr p) o) as [[m c']| |]; [|done..]. cbn [mbind outcome_bind] in *.
    unfold put_cache in Hpush. by rewrite E in Hpush.
  - destruct Hcase as [?|Ec]; [done|]. destruct Hk1 as [?|Hk1]; [done|].
    rewrite Ec. rewrite u16_id, Z.eqb_refl by (unfold SLAB_MAX_CPUS in *; lia).
    destruct (cpu_started_ok s G L cpu Hi Hcpu) as (b & -> & Hb1 & Hb2). cbn [mbind outcome_bind].
    assert (Hst : started s cpu).
    { destruct b; [by apply Hb1|]. exfalso. assert (Hg : G k = ([], [])).
      { apply (si_fresh _ _ _ _ Hi k Hk E). rewrite Ec. intros Hst. discriminate Hb2; [lia|done]. }
      rewrite Hg in Hp. by apply elem_of_nil in Hp. }
    rewrite (Hb2 ltac:(lia) Hst). specialize (Hpush ltac:(by rewrite Ec)). unfold cpu_cache_free.
    destruct k as [cpu' i]. cbn [fst snd] in *. subst cpu'.
    rewrite get_cpu_cache, Hc by lia. cbn [mbind outcome_bind].
    destruct (push_object (s_mem s) c (pg_addr p) o) as [[m c']| |]; [|done..]. cbn [mbind outcome_bind] in *.
    by rewrite put_cache_cpu in Hpush.
Qed.
End Ops.
