(* ===== verification/SlabTheorems.v ===== *)
(** * The slab caches: initialisation, clients and theorems *)

From stdpp Require Import gmap functions relations.
From S2P Require Import Prelude Bytes Buddy BuddyProofs BuddyTheorems CpuPool Memory Slab SlabProofs SlabPages SlabInv SlabOps.

(** ** Live objects are disjoint *)

Lemma live_addresses (G : ghost) : map fst (live_objs G) = concat (map pg_live (all_pages G)).
Proof.
  assert (Hg : forall sz g, map fst (live_in sz g) = concat (map pg_live (gpages g))).
  { intros sz g. unfold live_in. induction (gpages g) as [|p l IH]; [done|]. cbn [map concat].
    rewrite map_app, IH, map_map. f_equal. apply map_id. }
  unfold live_objs, all_pages. generalize keys. intros l.
  induction l as [|k l IH]; [done|]. cbn [map concat]. by rewrite !map_app, concat_app, Hg, IH.
Qed.

Lemma NoDup_live_pages (l : list pg) :
  NoDup (addrs l) ->
  (forall p, p ∈ l -> pg_addr p mod SLAB_PAGE_SIZE = 0 /\ NoDup (pg_live p) /\
     forall o, o ∈ pg_live p -> rng (pg_addr p) SLAB_PAGE_SIZE o) ->
  NoDup (concat (map pg_live l)).
Proof.
  induction l as [|p l IH]; intros Hn Hl; [constructor|]. cbn [map concat] in *.
  apply NoDup_cons in Hn as [Hp Hn]. destruct (Hl p ltac:(left)) as (Ha & Hnd & Hin).
  apply NoDup_app. split_and!; [done| |apply IH; [done|intros; apply Hl; by right]].
  intros o Ho (lo & Hlo & Ho')%list_elem_of_In%in_concat. apply in_map_iff in Hlo as (q & <- & Hq%list_elem_of_In).
  destruct (Hl q ltac:(by right)) as (Hqa & _ & Hqin). apply Hp.
  rewrite (same_page _ _ o Ha Hqa (Hin o Ho)); [by apply list_elem_of_fmap_2|]. apply Hqin. by apply list_elem_of_In.
Qed.

Section Live.
Context (M : Z).

Lemma NoDup_live s G L : slab_inv M s G L -> NoDup (map fst (live_objs G)).
Proof.
  intros Hi. rewrite live_addresses. apply NoDup_live_pages; [by eapply slab_pages_nodup|].
  intros p Hp. pose proof (slab_page_at _ _ _ _ p Hi Hp) as Ha.
  apply elem_of_all_pages in Hp as (k & Hk & Hp). pose proof (sz_of_class k Hk) as Hsz.
  destruct (si_caches _ _ _ _ Hi k Hk) as (c & _ & Hco). destruct (cache_page _ _ _ _ _ _ Hco Hp) as [_ Hok].
  split_and!; [apply Ha| |].
  - pose proof (NoDup_slots (pg_addr p) (sz_of k.2) Hsz) as Hn. rewrite <- (po_slots _ _ _ _ Hok) in Hn.
    by apply NoDup_app in Hn as (_ & _ & ?).
  - intros o Ho. pose proof (slot_in_page _ _ _ Hsz (page_live_slot _ _ _ _ _ Hok Ho)).
    pose proof (class_size_bounds _ Hsz). unfold rng, sizeof_slab_page in *. lia.
Qed.

Lemma live_apart s G L o z o' z' :
  slab_inv M s G L -> (o, z) ∈ live_objs G -> (o', z') ∈ live_objs G -> o <> o' -> o + z <= o' \/ o' + z' <= o.
Proof.
  intros Hi Ho Ho' Hne.
  destruct (live_object _ _ _ _ _ _ Hi Ho) as (k & p & Hk & Hp & Hlv & -> & Ha & Hok & Hsz & Hs & Hlo & Hhi).
  destruct (live_object _ _ _ _ _ _ Hi Ho') as (k' & p' & Hk' & Hp' & Hlv' & -> & Ha' & Hok' & Hsz' & Hs' & Hlo' & Hhi').
  destruct (decide (pg_addr p = pg_addr p')) as [E|E].
  - assert (Esz : sz_of k.2 = sz_of k'.2).
    { pose proof (po_size _ _ _ _ Hok) as E1. pose proof (po_size _ _ _ _ Hok') as E2. rewrite E in E1.
      unfold reads in *. congruence. }
    rewrite Esz, E in *. by apply (slots_apart (pg_addr p') (sz_of k'.2)).
  - destruct Ha as (_ & Ha & _), Ha' as (_ & Ha' & _). unfold sizeof_slab_page in *.
    destruct (aligned_apart _ _ Ha Ha' E); lia.
Qed.

(** Objects lie in the memory of the pool. *)
Lemma slab_live_in_pool s G L o z :
  slab_inv M s G L -> (o, z) ∈ live_objs G -> start s <= o /\ o + z <= start s + 2 ^ M.
Proof.
  intros Hi Ho. destruct (live_object _ _ _ _ _ _ Hi Ho) as (k & p & Hk & Hp & _ & _ & Ha & _ & _ & _ & Hlo & Hhi).
  pose proof (si_pool _ _ _ _ Hi) as Hpool. pose proof (pi_buddy _ _ _ Hpool) as Hb.
  destruct (live_in_range M _ _ 12 ((pg_addr p - start s) / SLAB_PAGE_SIZE) Hb) as (_ & _ & Hj & Hle).
  { rewrite !elem_of_app. right; left. apply (list_elem_of_fmap_2 (page_block (start s))). apply elem_of_all_pages. eauto. }
  destruct (si_mem _ _ _ _ Hi) as [Hal _ _]. destruct Ha as (_ & Ha & _).
  change (2 ^ 12) with SLAB_PAGE_SIZE in *. unfold SLAB_PAGE_SIZE, sizeof_slab_page in *.
  assert (E : pg_addr p - start s = (pg_addr p - start s) / 4096 * 4096) by (Z.div_mod_to_equations; lia). nia.
Qed.
End Live.

(** ** Initialisation *)

Definition no_pages : ghost := fun _ => ([], []).

Lemma no_pages_nil : all_pages no_pages = [].
Proof. unfold all_pages. generalize keys. intros l. by induction l as [|k l IH]. Qed.

Lemma no_live : live_objs no_pages = [].
Proof. unfold live_objs. generalize keys. intros l. by induction l as [|k l IH]. Qed.

(** The zeroed static arrays of slab.c. *)
Definition boot_slab (m : mem) (p : pools) : slab_state :=
  mkslab m p (replicate 8 (mkcache 0 0 0)) (replicate 64 (mkcs (replicate 8 (mkcache 0 0 0)) 0)).

Lemma empty_cache m sz ow z : cache_ok m sz ow (mkcache z 0 0) ([], []).
Proof. constructor; cbn; try done; try constructor; try constructor. Qed.

Lemma slab_init_ok M m p L :
  pool_inv M p L -> pool_start (the_buddy p) mod SLAB_PAGE_SIZE = 0 ->
  mapped m (pool_start (the_buddy p)) (2 ^ M) -> pool_start (the_buddy p) + 2 ^ M + SLAB_PAGE_SIZE <= 2 ^ 64 ->
  runs_to (slab_init (boot_slab m p)) (fun s => slab_inv M s no_pages L /\ s_mem s = m /\ s_pools s = p /\
    forall cpu, ~ started s cpu).
Proof.
  intros Hp Ha Hm Ht. cbn [slab_init runs_to]. split_and!; [|done|done|].
  - constructor.
    + constructor; [done|done|]. apply Forall_map, Forall_replicate. cbn. split; [done|lia].
    + by constructor.
    + intros k Hk. pose proof Hk as [Hk1 Hk2]%elem_of_keys. unfold cache_at. cbn [caches cpu_slabs].
      destruct (Z.eqb_spec k.1 SLAB_CPU_NONE) as [E|E].
      * destruct (lookup_lt_is_Some_2 obj_sizes (Z.to_nat k.2)) as [z Hz]; [unfold SLAB_SIZES_COUNT in *; simpl; lia|].
        exists (mkcache (u16 z) 0 0). split; [|apply empty_cache].
        change (map (fun z => mkcache (u16 z) 0 0) obj_sizes) with ((fun z => mkcache (u16 z) 0 0) <$> obj_sizes).
        by rewrite list_lookup_fmap, Hz.
      * destruct Hk1 as [?|Hk1]; [done|]. exists (mkcache 0 0 0). split; [|apply empty_cache].
        cbn [boot_slab cpu_slabs].
        change (map (fun cs => mkcs (cs_caches cs) 0) (replicate 64 (mkcs (replicate 8 (mkcache 0 0 0)) 0)))
          with (replicate 64 (mkcs (replicate 8 (mkcache 0 0 0)) 0)).
        unfold SLAB_MAX_CPUS, SLAB_SIZES_COUNT in *.
        rewrite lookup_replicate_2 by lia. cbn [mbind option_bind cs_caches]. apply lookup_replicate_2. lia.
    + done.
    + cbn [s_pools boot_slab]. by rewrite no_pages_nil.
  - intros cpu (cs & Hcs & Hne). cbn [boot_slab cpu_slabs] in Hcs.
    change (map (fun cs => mkcs (cs_caches cs) 0) (replicate 64 (mkcs (replicate 8 (mkcache 0 0 0)) 0)))
      with (replicate 64 (mkcs (replicate 8 (mkcache 0 0 0)) 0)) in Hcs.
    apply lookup_replicate in Hcs as [-> _]. done.
Qed.

(** Starting the caches of a processor, once. *)
Lemma slab_cpu_init_ok M s G L cpu :
  slab_inv M s G L -> 0 <= cpu -> ~ started s cpu ->
  runs_to (slab_cpu_init s cpu) (fun s' => slab_inv M s' G L /\ s_mem s' = s_mem s /\ s_pools s' = s_pools s).
Proof.
  intros Hi Hcpu Hns. unfold slab_cpu_init. destruct (Z.leb_spec SLAB_MAX_CPUS cpu) as [|Hlt]; [done|].
  destruct Hi as [[H1 H2 H3] H4 H5 H6 H7]. rewrite aset_in_bounds by lia. cbn [mbind outcome_bind runs_to].
  assert (Hn : (Z.to_nat cpu < length (cpu_slabs s))%nat) by (unfold len in H2; lia).
  split_and!; [|done|done]. constructor.
  - constructor; cbn [caches cpu_slabs]; [done|by rewrite len_insert|]. apply Forall_insert; [done|]. done.
  - by destruct H4.
  - intros k Hk. destruct (H5 k Hk) as (c & Hc & Hco). unfold cache_at in *. cbn [caches cpu_slabs].
    destruct (Z.eqb_spec k.1 SLAB_CPU_NONE) as [E|E]; [by eauto|].
    pose proof Hk as [[?|Hk1] Hk2]%elem_of_keys; [done|].
    destruct (decide (k.1 = cpu)) as [Ek|Hne].
    + rewrite Ek, list_lookup_insert_eq by done. cbn [mbind option_bind cs_caches].
      destruct (lookup_lt_is_Some_2 obj_sizes (Z.to_nat k.2)) as [z Hz]; [unfold SLAB_SIZES_COUNT in *; simpl; lia|].
      exists (mkcache (u16 z) 0 0). split.
      * change (map (fun z => mkcache (u16 z) 0 0) obj_sizes) with ((fun z => mkcache (u16 z) 0 0) <$> obj_sizes).
        by rewrite list_lookup_fmap, Hz.
      * rewrite (H6 k Hk E ltac:(by rewrite Ek)). apply empty_cache.
    + rewrite list_lookup_insert_ne by lia. eauto.
  - intros k Hk Hne Hnk. apply (H6 k Hk Hne). intros (cs & Hcs & Hini). apply Hnk. unfold started. cbn [cpu_slabs].
    destruct (decide (Z.to_nat cpu = Z.to_nat k.1)) as [E|E].
    + rewrite <- E, list_lookup_insert_eq by done. eexists. split; [done|]. done.
    + rewrite list_lookup_insert_ne by done. eauto.
  - done.
Qed.

(** ** Clients *)

(** The client holds the objects [H], each with its address and the size of
    its slot.  It allocates, frees what it holds on a processor that is allowed
    to (the page belongs to no processor or to this one), starts the caches of
    processors, and writes into its objects as it likes. *)
Inductive slab_step : slab_state * list (Z * Z) -> slab_state * list (Z * Z) -> Prop :=
| step_cpu_init s H cpu s' :
    0 <= cpu -> ~ started s cpu -> slab_cpu_init s cpu = Ret s' -> slab_step (s, H) (s', H)
| step_slab_alloc s H cpu size s' o i :
    0 <= cpu -> class_for size = Some i -> slab_alloc s cpu size = Ret (s', o) -> o <> 0 ->
    slab_step (s, H) (s', (o, sz_of i) :: H)
| step_slab_null s H cpu size s' :
    0 <= cpu -> slab_alloc s cpu size = Ret (s', 0) -> slab_step (s, H) (s', H)
| step_slab_free s H1 o z H2 cpu ow s' :
    0 <= cpu -> reads 2 (s_mem s) (f_owner_cpu (page_of o)) ow -> ow = SLAB_CPU_NONE \/ ow = cpu ->
    slab_free s cpu o = Ret s' -> slab_step (s, H1 ++ (o, z) :: H2) (s', H1 ++ H2)
| step_write s H o z m' :
    (o, z) ∈ H -> changes (rng o z) (s_mem s) m' -> slab_step (s, H) (set_mem s m', H).

(** The bytes of the objects [H] are the same. *)
Definition contents_kept (m m' : mem) (H : list (Z * Z)) : Prop :=
  forall o z x, (o, z) ∈ H -> rng o z x -> m' !! x = m !! x.

Lemma kept_by_changes (G : ghost) (P : Z -> Prop) m m' H :
  live_objs G ≡ₚ H -> changes P m m' -> (forall x, P x -> ~ in_live G x) -> contents_kept m m' H.
Proof.
  intros E [_ Hc] HP o z x Ho Hx. apply Hc. intros Hp. apply (HP x Hp). exists o, z. by rewrite E.
Qed.

Section Clients.
Context (M : Z).

Definition client_inv (s : slab_state) (H : list (Z * Z)) : Prop :=
  exists G, slab_inv M s G [] /\ live_objs G ≡ₚ H.

(** Writing into a live object leaves the allocator alone. *)
Lemma live_not_words s G L k o z x :
  slab_inv M s G L -> (o, z) ∈ live_objs G -> rng o z x -> k ∈ keys -> ~ cache_words (G k) x.
Proof.
  intros Hi Ho Hx Hk (p & Hp & Hw).
  destruct (si_caches _ _ _ _ Hi k Hk) as (c & _ & Hco). pose proof (sz_of_class k Hk) as Hsz.
  destruct (cache_page _ _ _ _ _ _ Hco Hp) as [Ha Hok]. destruct Hw as [Hw|(f & Hf & Hw)].
  - eapply (headers_not_live M s G L k x Hi Hk); [by exists p|]. by exists o, z.
  - destruct (live_object _ _ _ _ _ _ Hi Ho) as (k' & p' & Hk' & Hp' & Hlv & -> & Ha' & Hok' & Hsz' & Hs & Hlo & Hhi).
    pose proof (page_free_slot _ _ _ _ _ Hok Hf) as Hfs. pose proof (slot_in_page _ _ _ Hsz Hfs) as Hfin.
    pose proof (class_size_bounds _ Hsz) as [Hszb _]. unfold sizeof_slab_page in *.
    assert (p' = p) as ->.
    { apply (same_page_pg M s G L p' p x Hi); [apply elem_of_all_pages; eauto..| |]; unfold rng, SLAB_PAGE_SIZE in *; lia. }
    assert (Esz : sz_of k'.2 = sz_of k.2).
    { pose proof (po_size _ _ _ _ Hok) as E1. pose proof (po_size _ _ _ _ Hok') as E2. unfold reads in *. congruence. }
    rewrite Esz in *. assert (f <> o).
    { intros ->. pose proof (NoDup_slots (pg_addr p) (sz_of k.2) Hsz) as Hnd.
      rewrite <- (po_slots _ _ _ _ Hok) in Hnd. apply NoDup_app in Hnd as (_ & Hnd & _). by apply (Hnd o). }
    pose proof (slots_apart _ _ _ _ Hsz Hfs Hs ltac:(done)). unfold rng in *. lia.
Qed.

Lemma client_step_ok s H s' H' : client_inv s H -> slab_step (s, H) (s', H') -> client_inv s' H'.
Proof.
  intros (G & Hi & HG) Hstep.
  inversion Hstep as [? ? cpu ? Hc Hns Hrun|? ? cpu size ? o i Hc Hcl Hrun Hnz|? ? cpu size ? Hc Hrun|
    ? H1 o z H2 cpu ow ? Hc How Hcase Hrun|? ? o z m' Ho Hch]; subst.
  - pose proof (slab_cpu_init_ok M s G [] cpu Hi Hc Hns) as Hok. rewrite Hrun in Hok. exists G. by destruct Hok.
  - pose proof (slab_alloc_ok M s G [] cpu size Hi Hc) as Hok. rewrite Hrun in Hok. destruct Hok as [_ Hok].
    rewrite Hcl in Hok. destruct Hok as [(? & _)|(_ & G' & Hi' & Hl & _)]; [done|].
    exists G'. split; [done|]. by rewrite Hl, HG.
  - pose proof (slab_alloc_ok M s G [] cpu size Hi Hc) as Hok. rewrite Hrun in Hok. destruct Hok as [_ Hok].
    exists G. split; [|done]. destruct (class_for size); [|by destruct Hok as [_ ->]].
    by destruct Hok as [(_ & ? & _)|(? & _)].
  - assert (Ho : (o, z) ∈ live_objs G) by (rewrite HG; set_solver).
    pose proof (slab_free_ok M s G [] cpu o z ow Hi Hc Ho How Hcase) as Hok. rewrite Hrun in Hok.
    destruct Hok as (_ & G' & Hi' & Hl & _). exists G'. split; [done|].
    apply (Permutation_cons_inv (a := (o, z))). rewrite <- Hl, HG. symmetry. apply Permutation_middle.
  - exists G. split; [|done]. eapply slab_inv_frame; [exact Hi|exact Hch|].
    intros x k Hx Hk. eapply live_not_words; [exact Hi| |exact Hx|exact Hk]. by rewrite HG.
Qed.

Lemma client_reach_ok x y : rtc slab_step x y -> client_inv x.1 x.2 -> client_inv y.1 y.2.
Proof.
  induction 1 as [|[s1 H1] [s2 H2] y Hst _ IH]; [done|]. intros H. apply IH. by eapply client_step_ok.
Qed.
End Clients.

Lemma class_for_none size : class_for size = None <-> 1024 < size.
Proof.
  unfold class_for, first_index. cbn [obj_sizes first_index_from].
  repeat match goal with |- context [?a <? ?b] => destruct (Z.ltb_spec a b); cbn [negb] end; split; intros; try done; lia.
Qed.

(** Two held objects at different positions do not overlap. *)
Definition objects_disjoint (H : list (Z * Z)) : Prop :=
  forall i j o z o' z', H !! i = Some (o, z) -> H !! j = Some (o', z') -> i <> j -> o + z <= o' \/ o' + z' <= o.

Lemma client_disjoint M s H : client_inv M s H -> objects_disjoint H.
Proof.
  intros (G & Hi & HG) i j o z o' z' Hx Hy Hne.
  apply (live_apart M s G [] o z o' z' Hi); [rewrite HG; by eapply list_elem_of_lookup_2..|].
  intros ->. apply Hne. pose proof (NoDup_live M s G [] Hi) as Hn.
  assert (Hn' : NoDup (map fst H)) by by rewrite <- HG. apply (NoDup_lookup _ i j o' Hn').
  - change (map fst H) with (fst <$> H). by rewrite list_lookup_fmap, Hx.
  - change (map fst H) with (fst <$> H). by rewrite list_lookup_fmap, Hy.
Qed.

(** C9. Safety of the slab caches for every client.  After slab_init over a
    page-aligned pool, along any sequence of allocations and releases on any
    processors, of starting the caches of processors, and of arbitrary writes of
    the client into the objects it holds, a release being on a processor that
    owns the page or on any one if none does: held objects do not overlap
    and lie inside the pool; a further allocation of any size finishes without
    a fault, returns NULL only for a size above 1024 bytes or when the buddy
    allocator has no page left, and otherwise an object of the smallest
    sufficient size; a further release of a held object finishes without a
    fault; and neither changes a byte of the other objects held. *)
Theorem slab_client_safe M b m s0 s H :
  binv M b [] -> pool_start b mod SLAB_PAGE_SIZE = 0 -> mapped m (pool_start b) (2 ^ M) ->
  pool_start b + 2 ^ M + SLAB_PAGE_SIZE <= 2 ^ 64 ->
  slab_init (boot_slab m (fresh_pools b)) = Ret s0 -> rtc slab_step (s0, []) (s, H) ->
  objects_disjoint H /\
  (forall o z, (o, z) ∈ H -> start s <= o /\ o + z <= start s + 2 ^ M) /\
  (forall cpu size, 0 <= cpu -> exists s' o, slab_alloc s cpu size = Ret (s', o) /\
     contents_kept (s_mem s) (s_mem s') H /\
     ((o = 0 /\ (1024 < size \/ out_of_pages s')) \/
      exists i, class_for size = Some i /\ size <= sz_of i /\ objects_disjoint ((o, sz_of i) :: H))) /\
  (forall cpu ow H1 o z H2, 0 <= cpu -> H = H1 ++ (o, z) :: H2 ->
     reads 2 (s_mem s) (f_owner_cpu (page_of o)) ow -> ow = SLAB_CPU_NONE \/ ow = cpu ->
     exists s', slab_free s cpu o = Ret s' /\ contents_kept (s_mem s) (s_mem s') (H1 ++ H2)).
Proof.
  intros Hb Ha Hm Ht Hinit Hrtc.
  pose proof (slab_init_ok M m (fresh_pools b) [] (fresh_pools_ok M b Hb) Ha Hm Ht) as H0.
  rewrite Hinit in H0. destruct H0 as (H0 & _).
  assert (Hinv : client_inv M s H).
  { apply (client_reach_ok M _ _ Hrtc). exists no_pages. split; [exact H0|by rewrite no_live]. }
  split; [by eapply client_disjoint|]. destruct Hinv as (G & Hi & HG). split_and!.
  - intros o z Ho. apply (slab_live_in_pool M s G []); [done|by rewrite HG].
  - intros cpu size Hc. pose proof (slab_alloc_ok M s G [] cpu size Hi Hc) as Hok.
    apply runs_to_inv in Hok as ([s' o] & -> & _ & Hok). exists s', o. split; [done|].
    destruct (class_for size) as [i|] eqn:Ecl.
    + destruct Hok as [(-> & _ & Hex & Em)|(Hnz & G' & Hi' & Hl & Hch & _)].
      { split; [intros ? ? ? ? ?; by rewrite Em|]. left. by split; [|right]. }
      split; [apply (kept_by_changes G _ _ _ H HG Hch); by intros x [_ ?]|]. right. exists i.
      split_and!; [done|by apply class_for_bounds|]. apply (client_disjoint M s'). exists G'.
      split; [done|]. by rewrite Hl, HG.
    + destruct Hok as [-> ->]. split; [done|]. left. split; [done|]. left. by apply class_for_none.
  - intros cpu ow H1 o z H2 Hc -> How Hcase.
    assert (Ho : (o, z) ∈ live_objs G) by (rewrite HG; set_solver).
    pose proof (slab_free_ok M s G [] cpu o z ow Hi Hc Ho How Hcase) as Hok.
    apply runs_to_inv in Hok as (s' & -> & _ & G' & Hi' & Hl & Hch & _). exists s'. split; [done|].
    apply (kept_by_changes G' _ _ _ (H1 ++ H2)) in Hch; [done| |by intros x [_ ?]].
    apply (Permutation_cons_inv (a := (o, z))). rewrite <- Hl, HG. symmetry. apply Permutation_middle.
Qed.

(** ** Witnesses *)

(** Two pages at address 4096. *)
Definition demo_slab : slab_state :=
  match slab_init (boot_slab (zero_mem 4096 8192) (fresh_pools demo_pool)) with
  | Ret s => s
  | _ => boot_slab ∅ (fresh_pools demo_pool)
  end.

Definition demo_slab1 : slab_state :=
  match slab_alloc demo_slab 0 1000 with Ret (s, _) => s | _ => demo_slab end.

Lemma demo_slab_alloc : slab_alloc demo_slab 0 1000 = Ret (demo_slab1, 6184).
Proof.
  assert (H : match slab_alloc demo_slab 0 1000 with Ret (_, o) => o | _ => 0 end = 6184)
    by (vm_compute; reflexivity).
  unfold demo_slab1. destruct (slab_alloc demo_slab 0 1000) as [[s o]| |]; [by subst|discriminate H..].
Qed.

Lemma demo_order : exists M, binv M demo_pool [] /\ 2 ^ M = 8192.
Proof.
  destruct demo_pool_inv as [M HM]. exists M. split; [done|].
  assert (E : pool_size demo_pool = 8192) by (vm_compute; reflexivity).
  pose proof (bi_fits _ _ _ HM) as H1. rewrite E in H1. rewrite <- E. symmetry. apply (bi_whole _ _ _ HM).
  destruct (Z.lt_ge_cases M BUDDY_MAX_ORDER) as [|Hge]; [done|].
  pose proof (Z.pow_le_mono_r 2 20 M ltac:(lia) ltac:(unfold BUDDY_MAX_ORDER in Hge; lia)).
  change (2 ^ 20) with 1048576 in *. lia.
Qed.

Lemma slab_client_safe_witness :
  rtc slab_step (demo_slab, []) (demo_slab1, [(6184, 1024)]) /\
  exists s' o, slab_alloc demo_slab1 0 1000 = Ret (s', o) /\
    contents_kept (s_mem demo_slab1) (s_mem s') [(6184, 1024)].
Proof.
  assert (Hr : rtc slab_step (demo_slab, []) (demo_slab1, [(6184, 1024)])).
  { eapply rtc_l; [|apply rtc_refl]. apply (step_slab_alloc _ _ 0 1000 _ 6184 7); [lia|reflexivity| |lia].
    exact demo_slab_alloc. }
  split; [exact Hr|]. destruct demo_order as (M & HM & E).
  destruct (slab_client_safe M demo_pool (zero_mem 4096 8192) demo_slab demo_slab1 [(6184, 1024)])
    as (_ & _ & Halloc & _).
  - exact HM.
  - vm_compute. reflexivity.
  - rewrite E. change (pool_start demo_pool) with 4096. apply zero_mem_mapped.
  - rewrite E. vm_compute. discriminate.
  - reflexivity.
  - exact Hr.
  - destruct (Halloc 0 1000 ltac:(lia)) as (s' & o & H1 & H2 & _). eauto.
Defined.

(** ** Releasing on a processor that does not own the page

    The condition on releases cannot be dropped.  Processor 0 fills a page and
    two thirds of a second one, processor 1 releases an object of the first
    page: it takes the page off the global full list, where it is not, so it
    stays on the full list of processor 0 as well.  After processor 0 has
    filled its second page, processor 1 allocates twice; the second allocation
    dereferences NULL. *)

Fixpoint allocs (n : nat) (s : slab_state) (cpu size : Z) : outcome slab_state :=
  match n with O => Ret s | S n' => '(s, _) ← slab_alloc s cpu size; allocs n' s cpu size end.

Definition cross_cpu_session : outcome slab_state :=
  s ← slab_cpu_init demo_slab 0;
  s ← slab_cpu_init s 1;
  s ← allocs 5 s 0 1000;
  s ← slab_free s 1 6184;
  s ← allocs 1 s 0 1000;
  allocs 2 s 1 1000.

Lemma cross_cpu_free_faults : cross_cpu_session = Fault NullDeref.
Proof. vm_compute. reflexivity. Qed.
