(* ===== verification/Kmalloc.v ===== *)
(** * The kernel heap: model

    core/kernel/mem/allocator.c: kmalloc takes small objects from the slab
    caches, blocks of 4 and 8 KiB from the per-CPU pool and the rest from the
    buddy allocator; the blocks carry a header of 16 bytes in front of the
    pointer that is returned.  kfree finds out which it was from the memory
    itself.  The header, like the slab headers, lives in the memory that the
    clients use.  Not here: the printing functions (format_memory_size computes
    in floating point). *)

From stdpp Require Import gmap.
From stdpp Require Import gmap functions relations.
From S2P Require Import Prelude Buddy BuddyProofs BuddyTheorems CpuPool Bytes Memory Slab SlabProofs SlabPages SlabInv SlabOps SlabTheorems.

Definition ALLOC_MAGIC : Z := 0xA110C123.
Definition sizeof_alloc_info : Z := 16.

(** The fields of [alloc_info_t]. *)
Definition i_order (info : Z) : Z := info + 0.
Definition i_magic (info : Z) : Z := info + 4.
Definition i_user_size (info : Z) : Z := info + 8.

(** The allocators below and the counters of allocator.c. *)
Record kheap := mkheap {
  h_slab : slab_state;
  allocated_memory : Z;
  alloc_count : Z;
  free_count : Z
}.

Definition set_slab h s := mkheap s (allocated_memory h) (alloc_count h) (free_count h).

Definition count_alloc h size :=
  mkheap (h_slab h) (u64 (allocated_memory h + size)) (u64 (alloc_count h + 1)) (free_count h).

Definition count_free h :=
  mkheap (h_slab h) (allocated_memory h) (alloc_count h) (u64 (free_count h + 1)).

(** [if (allocated_memory >= user_size) allocated_memory -= user_size]. *)
Definition uncount h user_size :=
  mkheap (h_slab h)
    (if user_size <=? allocated_memory h then allocated_memory h - user_size else allocated_memory h)
    (alloc_count h) (free_count h).

(** ** kmalloc *)

(** Filling in the header of a block and counting it. *)
Definition hand_out (h : kheap) (block order size : Z) : outcome (kheap * option Z) :=
  m ← store 4 (s_mem (h_slab h)) (i_order block) order;
  m ← store 4 m (i_magic block) ALLOC_MAGIC;
  m ← store 8 m (i_user_size block) size;
  Ret (count_alloc (set_slab h (set_mem (h_slab h) m)) size, Some (u64 (block + sizeof_alloc_info))).

(** One source of memory after the other: [None] falls through to the next. *)
Definition try_slab (h : kheap) (cpu size : Z) : outcome (kheap * option Z) :=
  if size <=? 1024 then
    '(s, ptr) ← slab_alloc (h_slab h) cpu size;
    let h := set_slab h s in
    if negb (ptr =? 0) then Ret (count_alloc h size, Some ptr) else Ret (h, None)
  else Ret (h, None).

Definition try_pool (h : kheap) (cpu limit order size : Z) : outcome (kheap * option Z) :=
  if size <=? limit then
    '(p, block) ← cpu_pool_alloc (s_pools (h_slab h)) cpu order;
    let h := set_slab h (set_pools (h_slab h) p) in
    if negb (block =? 0) then hand_out h block order size else Ret (h, None)
  else Ret (h, None).

(** [while (block_size < total_size && order < BUDDY_MAX_ORDER)]. *)
Fixpoint order_loop (n : nat) (order block_size total_size : Z) : Z * Z :=
  match n with
  | O => (order, block_size)
  | S n' =>
      if (block_size <? total_size) && (order <? BUDDY_MAX_ORDER)
      then order_loop n' (order + 1) (u64 (Z.shiftl block_size 1)) total_size
      else (order, block_size)
  end.

Definition try_buddy (h : kheap) (size : Z) : outcome (kheap * option Z) :=
  let total_size := u64 (size + sizeof_alloc_info) in
  let '(order, block_size) := order_loop (Z.to_nat (BUDDY_MAX_ORDER - BUDDY_MIN_ORDER)) BUDDY_MIN_ORDER
                                (BUDDY_BLOCK_SIZE BUDDY_MIN_ORDER) total_size in
  '(b, block) ← buddy_alloc (the_buddy (s_pools (h_slab h))) block_size;
  let h := set_slab h (set_pools (h_slab h) (set_buddy (s_pools (h_slab h)) b)) in
  if block =? 0 then Ret (h, None) else hand_out h block order size.

Definition or_else (m : outcome (kheap * option Z)) (next : kheap -> outcome (kheap * option Z))
  : outcome (kheap * option Z) :=
  '(h, r) ← m;
  match r with Some p => Ret (h, Some p) | None => next h end.

Definition kmalloc (h : kheap) (cpu size : Z) : outcome (kheap * Z) :=
  if size =? 0 then Ret (h, 0) else
  '(h, r) ← or_else (try_slab h cpu size) (fun h =>
            or_else (try_pool h cpu 4096 12 size) (fun h =>
            or_else (try_pool h cpu 8192 13 size) (fun h =>
            try_buddy h size)));
  Ret (h, default 0 r).

(** ** kfree *)

Definition kfree (h : kheap) (cpu ptr : Z) : outcome kheap :=
  if ptr =? 0 then Ret h else
  owns ← slab_owns (s_mem (h_slab h)) ptr;
  if (owns : bool) then
    s ← slab_free (h_slab h) cpu ptr; Ret (count_free (set_slab h s))
  else
    let info := u64 (ptr - sizeof_alloc_info) in
    magic ← load 4 (s_mem (h_slab h)) (i_magic info);
    if negb (magic =? ALLOC_MAGIC) then Fault Panicked else
    order ← load 4 (s_mem (h_slab h)) (i_order info);
    if (order =? 12) || (order =? 13) then
      user_size ← load 8 (s_mem (h_slab h)) (i_user_size info);
      let h := count_free (uncount h user_size) in
      p ← cpu_pool_free (s_pools (h_slab h)) cpu info order;
      Ret (set_slab h (set_pools (h_slab h) p))
    else if (order <? BUDDY_MIN_ORDER) || (BUDDY_MAX_ORDER <? order) then Fault Panicked else
      user_size ← load 8 (s_mem (h_slab h)) (i_user_size info);
      let h := count_free (uncount h user_size) in
      b ← buddy_free (the_buddy (s_pools (h_slab h))) info order;
      Ret (set_slab h (set_pools (h_slab h) (set_buddy (s_pools (h_slab h)) b))).

(** ** Statistics *)

Definition get_memory_total (h : kheap) : Z := buddy_get_total_memory (the_buddy (s_pools (h_slab h))).
Definition get_memory_free (h : kheap) : outcome Z := buddy_get_free_memory (the_buddy (s_pools (h_slab h))).
Definition get_memory_used (h : kheap) : Z := allocated_memory h.
Definition get_memory_available (h : kheap) : outcome Z := get_memory_free h.

(** [alloc_count - free_count], what check_memory_leaks reports. *)
Definition leaked (h : kheap) : Z := u64 (alloc_count h - free_count h).

(** ** Start *)

(** An entry of the boot loader's memory map; type 0 is usable memory. *)
Record memmap_entry := mkentry { e_base : Z; e_length : Z; e_type : Z }.
Definition LIMINE_MEMMAP_USABLE : Z := 0.

(** The largest usable entry; [best] carries [max_usable_size] and [best_entry]. *)
Fixpoint best_entry (es : list memmap_entry) (max : Z) (best : option memmap_entry) : option memmap_entry :=
  match es with
  | [] => best
  | e :: es' =>
      if (e_type e =? LIMINE_MEMMAP_USABLE) && (max <? e_length e)
      then best_entry es' (e_length e) (Some e) else best_entry es' max best
  end.

(** The answers of the boot loader: the offset of the direct map and the memory
    map, if there are any. *)
Definition memory_manager_init (h : kheap) (hhdm : option Z) (memmap : option (list memmap_entry))
  : outcome kheap :=
  match hhdm with
  | None => Fault Panicked
  | Some off =>
      match memmap with
      | None => Fault Panicked
      | Some es =>
          match best_entry es 0 None with
          | None => Fault Panicked
          | Some e =>
              let s := h_slab h in
              b ← buddy_init (the_buddy (s_pools s)) (u64 (e_base e + off)) (e_length e) off;
              s ← slab_init (set_pools s (set_buddy (s_pools s) b));
              Ret (set_slab h s)
          end
      end
  end.

(** * The kernel heap: proofs and theorems

    The heap hands out regions of memory: live objects of the slab caches and
    blocks with their header.  [heap_inv M h G B]: the slab invariant holds with
    the blocks of [B] as the blocks of other clients, and every one of them has
    its header. *)

(** ** Blocks *)

Record big := mkbig { bg_order : Z; bg_index : Z; bg_size : Z }.

Definition bblock (b : big) : Z * Z := (bg_order b, bg_index b).
Definition baddr (st : Z) (b : big) : Z := st + bg_index b * 2 ^ bg_order b.

(** What the client may use of a block. *)
Definition region (st : Z) (b : big) : Z * Z :=
  (baddr st b + sizeof_alloc_info, 2 ^ bg_order b - sizeof_alloc_info).

Definition info_ok (m : mem) (st : Z) (b : big) : Prop :=
  reads 4 m (i_order (baddr st b)) (bg_order b) /\ reads 4 m (i_magic (baddr st b)) ALLOC_MAGIC /\
  reads 8 m (i_user_size (baddr st b)) (bg_size b).

Abbreviation hmem h := (s_mem (h_slab h)).
Abbreviation hstart h := (pool_start (the_buddy (s_pools (h_slab h)))).

Definition heap_inv (M : Z) (h : kheap) (G : ghost) (B : list big) : Prop :=
  slab_inv M (h_slab h) G (map bblock B) /\ Forall (info_ok (hmem h) (hstart h)) B.

Definition regions (st : Z) (G : ghost) (B : list big) : list (Z * Z) := live_objs G ++ map (region st) B.

Section Heap.
Context (M : Z).
Implicit Types (s : slab_state) (h : kheap) (G : ghost) (B : list big).

(** ** Blocks, pages and headers do not meet *)

Lemma pool_pairwise p L : pool_inv M p L -> pairwise_disjoint (the_buddy p) L.
Proof.
  intros Hp i j b1 b2 H1 H2 Hne. pose proof (live_pairwise M _ _ (pi_buddy _ _ _ Hp)) as Hd.
  apply (Hd (length (cached p) + i)%nat (length (cached p) + j)%nat); [| |lia].
  - rewrite lookup_app_r by lia. by replace (length (cached p) + i - length (cached p))%nat with i by lia.
  - rewrite lookup_app_r by lia. by replace (length (cached p) + j - length (cached p))%nat with j by lia.
Qed.

(** The first of a list of live blocks against the others. *)
Lemma pool_head p b L b' : pool_inv M p (b :: L) -> b' ∈ L -> disjoint_blocks (the_buddy p) b b'.
Proof.
  intros Hp (i & Hi)%list_elem_of_lookup. apply (pool_pairwise p (b :: L) Hp 0%nat (S i)); done.
Qed.

Lemma block_not_page s G L o j x :
  slab_inv M s G L -> (o, j) ∈ L -> in_pages G x -> rng (start s + j * 2 ^ o) (2 ^ o) x -> False.
Proof.
  intros Hi Ho (p & Hp & Hx) Hy. apply list_elem_of_split in Ho as (L1 & L2 & ->).
  assert (Hpool : pool_inv M (s_pools s) ((o, j) :: map (page_block (start s)) (all_pages G) ++ L1 ++ L2)).
  { apply (pool_inv_perm M _ _ _ (si_pool _ _ _ _ Hi)). rewrite !(app_assoc (map _ _)). symmetry. apply Permutation_middle. }
  assert (Hb : page_block (start s) p ∈ map (page_block (start s)) (all_pages G) ++ L1 ++ L2).
  { apply elem_of_app. left. by apply list_elem_of_fmap_2. }
  pose proof (pool_head _ _ _ _ Hpool Hb) as Hd. unfold disjoint_blocks, addr, page_block in Hd. cbn [fst snd] in Hd.
  destruct (slab_page_at M _ _ _ p Hi Hp) as (_ & Ha & _). destruct (si_mem _ _ _ _ Hi) as [Hal _ _].
  change (2 ^ 12) with SLAB_PAGE_SIZE in Hd. unfold SLAB_PAGE_SIZE, rng in *.
  assert (E : pg_addr p = start s + (pg_addr p - start s) / 4096 * 4096) by (Z.div_mod_to_equations; lia). lia.
Qed.

(** A block of the heap: where it lies. *)
Lemma big_bounds s G L o j :
  slab_inv M s G L -> (o, j) ∈ L ->
  valid_order o /\ 0 <= j /\ start s <= start s + j * 2 ^ o /\ start s + j * 2 ^ o + 2 ^ o <= start s + 2 ^ M /\
  4096 <= 2 ^ o /\ (start s + j * 2 ^ o) mod SLAB_PAGE_SIZE = 0 /\ 0 < start s /\ start s + 2 ^ M + 4096 <= 2 ^ 64 /\
  mapped (s_mem s) (start s + j * 2 ^ o) (2 ^ o).
Proof.
  intros Hi Ho. pose proof (pi_buddy _ _ _ (si_pool _ _ _ _ Hi)) as Hb.
  destruct (live_in_range M _ _ o j Hb) as (Hv & _ & Hj & Hle); [set_solver|].
  destruct (si_mem _ _ _ _ Hi) as [Hal Hm Ht]. pose proof (sh_start _ (bi_shape _ _ _ Hb)) as Hst.
  unfold SLAB_PAGE_SIZE in *. unfold valid_order, BUDDY_MIN_ORDER, BUDDY_MAX_ORDER in Hv.
  assert (Hp : 2 ^ o = 2 ^ (o - 12) * 4096) by (change 4096 with (2 ^ 12); rewrite <- Z.pow_add_r by lia; f_equal; lia).
  pose proof (pow_pos (o - 12) ltac:(lia)) as Hpos.
  assert (H4096 : 4096 <= 2 ^ o) by nia.
  split_and!; [unfold valid_order, BUDDY_MIN_ORDER, BUDDY_MAX_ORDER; lia|lia|nia|nia|done| |done|done|].
  - rewrite Hp, Z.mul_assoc, Z.mod_add by lia. done.
  - eapply mapped_sub; [exact Hm|nia|nia].
Qed.

(** Two blocks of the heap. *)
Lemma big_apart s G L i j b1 b2 :
  slab_inv M s G L -> L !! i = Some b1 -> L !! j = Some b2 -> i <> j ->
  start s + b1.2 * 2 ^ b1.1 + 2 ^ b1.1 <= start s + b2.2 * 2 ^ b2.1 \/
  start s + b2.2 * 2 ^ b2.1 + 2 ^ b2.1 <= start s + b1.2 * 2 ^ b1.1.
Proof.
  intros Hi H1 H2 Hne. pose proof (pool_pairwise _ _ (si_pool _ _ _ _ Hi)) as Hd.
  set (P := map (page_block (start s)) (all_pages G)) in *.
  apply (Hd (length P + i)%nat (length P + j)%nat b1 b2); [| |lia].
  - rewrite lookup_app_r by lia. by replace (length P + i - length P)%nat with i by lia.
  - rewrite lookup_app_r by lia. by replace (length P + j - length P)%nat with j by lia.
Qed.

Lemma info_ext m m' st b :
  info_ok m st b -> (forall x, rng (baddr st b) 16 x -> m' !! x = m !! x) -> info_ok m' st b.
Proof.
  intros (H1 & H2 & H3) Hx. split_and!; (eapply reads_ext; [eassumption|]); intros x ?; apply Hx;
    unfold rng, i_order, i_magic, i_user_size in *; lia.
Qed.

Lemma infos_kept s G B m' P :
  slab_inv M s G (map bblock B) -> Forall (info_ok (s_mem s) (start s)) B -> changes P (s_mem s) m' ->
  (forall b x, b ∈ B -> P x -> ~ rng (baddr (start s) b) 16 x) -> Forall (info_ok m' (start s)) B.
Proof.
  intros Hi HB [_ Hc] HP. apply Forall_forall. intros b Hb. eapply Forall_forall in HB; [|exact Hb].
  eapply info_ext; [exact HB|]. intros x Hx. apply Hc. intros Hp. by apply (HP b x).
Qed.

Lemma elem_of_bblock b B : b ∈ B -> (bg_order b, bg_index b) ∈ map bblock B.
Proof. intros Hb. by apply (list_elem_of_fmap_2 bblock). Qed.

Lemma bblock_lookup B i b : B !! i = Some b -> map bblock B !! i = Some (bblock b).
Proof. intros H. change (map bblock B) with (bblock <$> B). by rewrite list_lookup_fmap, H. Qed.

(** A region is in a slab page or in its block, after the header. *)
Lemma region_cases s G B p z :
  (p, z) ∈ regions (start s) G B ->
  (p, z) ∈ live_objs G \/ exists b, b ∈ B /\ p = baddr (start s) b + 16 /\ z = 2 ^ bg_order b - 16.
Proof.
  intros [H|(b & E & Hb)%list_elem_of_fmap]%elem_of_app; [by left|right]. exists b. unfold region in E. by simplify_eq.
Qed.

(** Writing the header of a block touches no region. *)
Lemma header_not_region s G B o j x p z :
  slab_inv M s G ((o, j) :: map bblock B) -> (p, z) ∈ regions (start s) G B ->
  rng (start s + j * 2 ^ o) 16 x -> rng p z x -> False.
Proof.
  intros Hi Hr Hx Hy. pose proof (big_bounds s G _ o j Hi ltac:(left)) as (_ & _ & _ & _ & H4 & _).
  destruct (region_cases s G B p z Hr) as [Hl|(b & Hb & -> & ->)].
  - apply (block_not_page s G _ o j x Hi ltac:(left)); [|unfold rng in *; lia].
    destruct (live_in_page M s G _ x Hi ltac:(by exists p, z)) as (q & Hq & Hqx). exists q.
    split; [done|]. unfold rng, SLAB_PAGE_SIZE in *. lia.
  - apply list_elem_of_lookup in Hb as [i Hb].
    pose proof (big_apart s G _ 0 (S i) (o, j) (bblock b) Hi eq_refl (bblock_lookup B i b Hb) ltac:(done)) as Hd.
    cbn [fst snd bblock] in Hd.
    unfold rng, baddr in *. lia.
Qed.

Lemma header_not_info s G B o j b x :
  slab_inv M s G ((o, j) :: map bblock B) -> b ∈ B ->
  rng (start s + j * 2 ^ o) (2 ^ o) x -> ~ rng (baddr (start s) b) 16 x.
Proof.
  intros Hi Hb Hx Hy. pose proof (big_bounds s G _ _ _ Hi (list_elem_of_further _ _ _ (elem_of_bblock b B Hb))) as (_ & _ & _ & _ & H4 & _).
  apply list_elem_of_lookup in Hb as [i Hb].
  pose proof (big_apart s G _ 0 (S i) (o, j) (bblock b) Hi eq_refl (bblock_lookup B i b Hb) ltac:(done)) as Hd.
  cbn [fst snd bblock] in Hd.
  unfold rng, baddr in *. lia.
Qed.

(** ** Allocation *)

(** The order kmalloc asks the buddy allocator for. *)
Definition kmalloc_order (size : Z) : Z := get_minimum_order (u64 (size + sizeof_alloc_info)).

(** The usable size of a region that kmalloc may return for a request. *)
Inductive capacity (size : Z) : Z -> Prop :=
| cap_slab i : class_for size = Some i -> capacity size (sz_of i)
| cap_page : size <= 4096 -> capacity size (2 ^ 12 - 16)
| cap_two : size <= 8192 -> capacity size (2 ^ 13 - 16)
| cap_buddy : capacity size (2 ^ kmalloc_order size - 16).

Definition same_counts h h' : Prop :=
  alloc_count h' = alloc_count h /\ free_count h' = free_count h.

(** What one source of memory does. *)
Definition source_post h G B size h' (r : option Z) : Prop :=
  hstart h' = hstart h /\ (forall cpu, started (h_slab h') cpu <-> started (h_slab h) cpu) /\
  match r with
  | None => heap_inv M h' G B /\ hmem h' = hmem h /\ same_counts h h'
  | Some p => p <> 0 /\ exists G' B' z, heap_inv M h' G' B' /\ capacity size z /\
      regions (hstart h) G' B' ≡ₚ (p, z) :: regions (hstart h) G B /\
      contents_kept (hmem h) (hmem h') (regions (hstart h) G B) /\
      alloc_count h' = u64 (alloc_count h + 1) /\ free_count h' = free_count h
  end.

Lemma try_slab_ok h G B cpu size :
  heap_inv M h G B -> 0 <= cpu ->
  runs_to (try_slab h cpu size) (fun '(h', r) => source_post h G B size h' r).
Proof.
  intros [Hi HB] Hc. unfold try_slab. destruct (Z.leb_spec size 1024) as [Hle|Hgt]; [|done].
  eapply runs_to_bind; [by apply (slab_alloc_ok M _ G _ cpu size Hi)|]. intros [s' p] [[Est Hst] Hres].
  assert (Hcl : exists i, class_for size = Some i).
  { destruct (class_for size) eqn:E; [eauto|]. apply class_for_none in E. lia. }
  destruct Hcl as [i Hcl]. rewrite Hcl in Hres.
  destruct Hres as [(-> & Hi' & _ & Em)|(Hnz & G' & Hi' & Hl & Hch & _)].
  - cbn. split; [done|]. split; [done|]. split; [|by cbn]. split; [done|]. cbn [h_slab set_slab]. by rewrite Em, Est.
  - rewrite (proj2 (Z.eqb_neq p 0) Hnz). cbn [negb runs_to]. split; [done|]. split; [done|]. split; [done|].
    exists G', B, (sz_of i). cbn [h_slab set_slab count_alloc alloc_count free_count].
    split_and!; [|by apply cap_slab|by unfold regions; rewrite Hl| |done|done].
    + split; [done|]. cbn [h_slab set_slab count_alloc]. rewrite Est. eapply infos_kept; [exact Hi|done|exact Hch|].
      intros b x Hb [Hx _] Hy. eapply (block_not_page s' G' _ _ _ x Hi' (elem_of_bblock b B Hb) Hx).
      pose proof (big_bounds s' G' _ _ _ Hi' (elem_of_bblock b B Hb)) as (_ & _ & _ & _ & H4 & _).
      rewrite Est. unfold rng, baddr in *. lia.
    + intros q z x Hq Hx. destruct Hch as [_ Hch]. apply Hch. intros [Hpg Hnl].
      destruct (region_cases _ G B q z Hq) as [Hq'|(b & Hb & -> & ->)]; [apply Hnl; by exists q, z|].
      eapply (block_not_page s' G' _ _ _ x Hi' (elem_of_bblock b B Hb) Hpg). rewrite Est. unfold rng, baddr in *. lia.
Qed.

(** The header of a fresh block [(o, j)]. *)
Lemma hand_out_ok h G B o j size :
  slab_inv M (h_slab h) G ((o, j) :: map bblock B) -> Forall (info_ok (hmem h) (hstart h)) B ->
  0 <= size < 2 ^ 64 -> capacity size (2 ^ o - 16) ->
  runs_to (hand_out h (hstart h + j * 2 ^ o) o size) (fun '(h', r) => source_post h G B size h' r /\ r <> None).
Proof.
  intros Hi HB Hsz Hcap.
  pose proof (big_bounds _ _ _ _ _ Hi ltac:(left)) as (Hv & Hj & Hlo & Hhi & H4 & Hal & Hst & Htop & Hm).
  unfold valid_order, BUDDY_MIN_ORDER, BUDDY_MAX_ORDER in Hv.
  set (a := hstart h + j * 2 ^ o) in *. unfold hand_out.
  apply runs_to_store; [eapply mapped_sub; [exact Hm|unfold i_order; lia..]|change (256 ^ Z.of_nat 4) with 4294967296; lia|].
  intros m1 R1 C1. pose proof (changes_mapped _ _ _ _ _ C1 Hm) as Hm1.
  apply runs_to_store; [eapply mapped_sub; [exact Hm1|unfold i_magic; lia..]|done|].
  intros m2 R2 C2. pose proof (changes_mapped _ _ _ _ _ C2 Hm1) as Hm2.
  apply runs_to_store; [eapply mapped_sub; [exact Hm2|unfold i_user_size; lia..]|exact Hsz|].
  intros m3 R3 C3. cbn [runs_to].
  assert (Hc : changes (rng a 16) (hmem h) m3).
  { eapply changes_trans; [|eapply changes_trans]; (eapply changes_mono; [eassumption|]);
      unfold rng, i_order, i_magic, i_user_size; lia. }
  assert (Hcb : forall b x, b ∈ B -> rng a 16 x -> ~ rng (baddr (hstart h) b) 16 x).
  { intros b x Hb Hx. eapply header_not_info; [exact Hi|done|]. unfold a, rng in *. lia. }
  rewrite u64_id by (unfold sizeof_alloc_info; change 18446744073709551616 with (2 ^ 64); lia).
  split; [|done]. split; [done|]. split; [done|]. split; [unfold sizeof_alloc_info; lia|].
  exists G, (mkbig o j size :: B), (2 ^ o - 16). cbn [h_slab set_slab set_mem count_alloc s_mem s_pools alloc_count free_count].
  split_and!; [|done| | |done|done].
  - split; cbn [h_slab set_slab set_mem count_alloc s_mem s_pools].
    + eapply slab_inv_frame; [exact Hi|exact Hc|]. intros x k Hx Hk Hw.
      apply (block_not_page _ G _ o j x Hi ltac:(left)); [by eapply cache_words_in_pages|]. fold a. unfold rng in *. lia.
    + constructor.
      * unfold info_ok, baddr. cbn [bg_order bg_index bg_size]. fold a. split_and!; [| |done].
        -- eapply reads_changes; [|exact C3|unfold rng, i_order, i_user_size; lia].
           eapply reads_changes; [exact R1|exact C2|unfold rng, i_order, i_magic; lia].
        -- eapply reads_changes; [exact R2|exact C3|unfold rng, i_magic, i_user_size; lia].
      * apply Forall_forall. intros b Hb. eapply Forall_forall in HB; [|exact Hb].
        eapply info_ext; [exact HB|]. intros x Hx. apply Hc. intros Hx'. by apply (Hcb b x).
  - unfold regions. cbn [map]. unfold region at 1, baddr. cbn [bg_order bg_index]. fold a. symmetry. apply Permutation_middle.
  - intros p z x Hp Hx. apply Hc. intros Hx'. by eapply (header_not_region (h_slab h)).
Qed.

(** A source that takes its block from the page allocators. *)
Lemma block_source h G B p' o j size :
  heap_inv M h G B -> pool_start (the_buddy p') = hstart h ->
  pool_inv M p' ((o, j) :: map (page_block (hstart h)) (all_pages G) ++ map bblock B) ->
  0 <= size < 2 ^ 64 -> capacity size (2 ^ o - 16) ->
  runs_to (hand_out (set_slab h (set_pools (h_slab h) p')) (hstart h + j * 2 ^ o) o size)
    (fun '(h', r) => source_post h G B size h' r /\ r <> None).
Proof.
  intros [Hi HB] E Hp Hsz Hcap. set (h1 := set_slab h (set_pools (h_slab h) p')).
  assert (E1 : hstart h1 = hstart h) by done.
  assert (Hi1 : slab_inv M (h_slab h1) G ((o, j) :: map bblock B)).
  { apply (slab_inv_pools M (h_slab h) G (map bblock B)); [done|done|].
    apply (pool_inv_perm M _ _ _ Hp). apply Permutation_middle. }
  pose proof (hand_out_ok h1 G B o j size Hi1) as H. rewrite E1 in H.
  eapply runs_to_mono; [apply H; [exact HB|done|done]|]. intros [h' r] [Hpost Hne]. split; [|done].
  destruct Hpost as (Hs & Hst & Hr). rewrite E1 in Hs, Hr. split; [done|]. split; [exact Hst|exact Hr].
Qed.

Lemma none_source h G B size p' :
  heap_inv M h G B -> pool_start (the_buddy p') = hstart h ->
  pool_inv M p' (map (page_block (hstart h)) (all_pages G) ++ map bblock B) ->
  source_post h G B size (set_slab h (set_pools (h_slab h) p')) None.
Proof.
  intros [Hi HB] E Hp. split; [done|]. split; [done|]. split; [|done]. split.
  - by apply (slab_inv_pools M (h_slab h) G (map bblock B)).
  - cbn [h_slab set_slab set_pools s_mem s_pools]. by rewrite E.
Qed.

Lemma try_pool_ok h G B cpu limit o size :
  heap_inv M h G B -> 0 <= cpu -> valid_order o -> 0 <= size < 2 ^ 64 ->
  (size <= limit -> capacity size (2 ^ o - 16)) ->
  runs_to (try_pool h cpu limit o size) (fun '(h', r) => source_post h G B size h' r).
Proof.
  intros Hh Hc Ho Hsz Hcap. unfold try_pool. destruct (Z.leb_spec size limit) as [Hle|]; [|by destruct Hh].
  eapply runs_to_bind; [by apply (cpu_pool_alloc_ok M _ _ cpu o (si_pool _ _ _ _ (proj1 Hh)))|].
  intros [p' r] [Est [(-> & Hp & _)|(j & -> & Hnz & Hp)]].
  - cbn [Z.eqb negb runs_to]. by apply none_source.
  - rewrite (proj2 (Z.eqb_neq _ 0) Hnz). cbn [negb].
    eapply runs_to_mono; [apply (block_source h G B p' o j size Hh Est Hp Hsz (Hcap Hle))|]. by intros [h' r] [? _].
Qed.

Lemma order_loop_eq n : forall o t, valid_order o -> Z.of_nat n = BUDDY_MAX_ORDER - o ->
  order_loop n o (2 ^ o) t = (minimum_order_loop n o (2 ^ o) t, 2 ^ minimum_order_loop n o (2 ^ o) t).
Proof.
  induction n as [|n IH]; intros o t Ho Hn; cbn [order_loop minimum_order_loop]; [done|].
  unfold valid_order in Ho. destruct ((2 ^ o <? t) && (o <? BUDDY_MAX_ORDER)) eqn:E; [|done].
  apply andb_true_iff in E as [_ E%Z.ltb_lt].
  assert (Ho1 : valid_order (o + 1)) by (unfold valid_order; lia). order_facts (o + 1).
  assert (u64 (Z.shiftl (2 ^ o) 1) = 2 ^ (o + 1)) as ->.
  { rewrite Z.shiftl_mul_pow2, Z.pow_add_r in * by (unfold BUDDY_MIN_ORDER in *; lia). apply u64_id. lia. }
  apply IH; [done|lia].
Qed.

Lemma try_buddy_ok h G B size :
  heap_inv M h G B -> 0 <= size < 2 ^ 64 ->
  runs_to (try_buddy h size) (fun '(h', r) => source_post h G B size h' r /\
    (r = None -> exhausted (the_buddy (s_pools (h_slab h'))) (kmalloc_order size))).
Proof.
  intros Hh Hsz. unfold try_buddy. cbv zeta. change (BUDDY_BLOCK_SIZE BUDDY_MIN_ORDER) with (2 ^ BUDDY_MIN_ORDER).
  rewrite order_loop_eq by done.
  change (minimum_order_loop _ _ _ (u64 (size + sizeof_alloc_info))) with (kmalloc_order size).
  set (o := kmalloc_order size).
  assert (Ho : valid_order o) by apply get_minimum_order_ok.
  pose proof (from_buddy_ok M (s_pools (h_slab h)) _ o (si_pool _ _ _ _ (proj1 Hh)) Ho) as Hfb. unfold from_buddy in Hfb.
  destruct (buddy_alloc (the_buddy (s_pools (h_slab h))) (2 ^ o)) as [[b r]| |]; [|done..].
  cbn [mbind outcome_bind runs_to] in *. destruct Hfb as [Est [(-> & Hp & Hex)|(j & -> & Hnz & Hp)]].
  - change (0 =? 0) with true. cbv iota beta. cbn [runs_to]. split; [|done]. by apply none_source.
  - rewrite (proj2 (Z.eqb_neq _ 0) Hnz).
    eapply runs_to_mono; [apply (block_source h G B (set_buddy (s_pools (h_slab h)) b) o j size Hh Est Hp Hsz (cap_buddy _))|].
    intros [h' r] [? ?]. done.
Qed.

Lemma source_trans h1 h2 h3 G B size r :
  source_post h1 G B size h2 None -> source_post h2 G B size h3 r -> source_post h1 G B size h3 r.
Proof.
  intros (E1 & S1 & Hi & Em & [Ea Ef]) (E2 & S2 & Hr). rewrite E1 in *.
  split; [congruence|]. split; [intros cpu; by rewrite S2|]. destruct r as [p|].
  - destruct Hr as (Hnz & G' & B' & z & H1 & H2 & H3 & H4 & H5 & H6). split; [done|]. exists G', B', z.
    rewrite Em, Ea, Ef in *. done.
  - destruct Hr as (H1 & H2 & [H3 H4]). split; [done|]. split; [congruence|]. split; congruence.
Qed.

(** The sources in turn. *)
Lemma or_else_ok h G B size m next (Q : kheap -> option Z -> Prop) :
  runs_to m (fun '(h', r) => source_post h G B size h' r) ->
  (forall h1, source_post h G B size h1 None ->
     runs_to (next h1) (fun '(h', r) => source_post h1 G B size h' r /\ Q h' r)) ->
  (forall h' p, Q h' (Some p)) ->
  runs_to (or_else m next) (fun '(h', r) => source_post h G B size h' r /\ Q h' r).
Proof.
  intros Hm Hn HQ. eapply runs_to_bind; [exact Hm|]. intros [h1 [p|]] H1; [by split|].
  eapply runs_to_mono; [by apply Hn|]. intros [h2 r] [H2 ?]. split; [|done]. by eapply source_trans.
Qed.

Lemma source_inv h G B size h1 : source_post h G B size h1 None -> heap_inv M h1 G B.
Proof. by intros (_ & _ & ? & _). Qed.

(** The result of kmalloc: NULL for size 0 or when the buddy allocator is
    exhausted, a new region otherwise. *)
Lemma kmalloc_ok h G B cpu size :
  heap_inv M h G B -> 0 <= cpu -> 0 < size < 2 ^ 64 ->
  runs_to (kmalloc h cpu size) (fun '(h', p) => exists r, p = default 0 r /\ source_post h G B size h' r /\
    (r = None -> exhausted (the_buddy (s_pools (h_slab h'))) (kmalloc_order size))).
Proof.
  intros Hh Hc Hsz. unfold kmalloc. rewrite (proj2 (Z.eqb_neq size 0)) by lia.
  set (Q := fun h' (r : option Z) => r = None -> exhausted (the_buddy (s_pools (h_slab h'))) (kmalloc_order size)).
  eapply (runs_to_bind _ _ (fun '(h', r) => source_post h G B size h' r /\ Q h' r)).
  - apply or_else_ok; [by apply try_slab_ok| |done]. intros h1 H1%source_inv.
    apply or_else_ok; [apply try_pool_ok; [done|done|done|lia|intros; by apply cap_page]| |done]. intros h2 H2%source_inv.
    apply or_else_ok; [apply try_pool_ok; [done|done|done|lia|intros; by apply cap_two]| |done]. intros h3 H3%source_inv.
    apply try_buddy_ok; [done|lia].
  - intros [h' r] [? ?]. cbn. by exists r.
Qed.

(** Requests for which the region is large enough: not the last 16 bytes below
    4 KiB, 8 KiB and 1 MiB, and not above. *)
Definition fits (size : Z) : Prop :=
  size <= 4080 \/ 4096 < size <= 8176 \/ 8192 < size <= 2 ^ 20 - 16.

Lemma capacity_fits size z : 0 < size -> fits size -> capacity size z -> size <= z.
Proof.
  unfold fits. change (2 ^ 20) with 1048576. intros Hpos Hf [i Hi|Hle|Hle|].
  - by apply class_for_bounds.
  - change (2 ^ 12) with 4096. lia.
  - change (2 ^ 13) with 8192. lia.
  - unfold kmalloc_order, sizeof_alloc_info. rewrite u64_id by lia.
    destruct (get_minimum_order_ok (size + 16)) as [_ H]. change (2 ^ BUDDY_MAX_ORDER) with 1048576 in H. lia.
Qed.

(** ** Release *)

(** A pointer to a slab object (one to a block is 16 above a page boundary) is released
    on the processor that its page belongs to, or on any one when the page belongs to the
    global caches. *)
Definition owner_ok (m : mem) (cpu p : Z) : Prop :=
  p mod SLAB_PAGE_SIZE <> 16 ->
  exists ow, reads 2 m (f_owner_cpu (page_of p)) ow /\ (ow = SLAB_CPU_NONE \/ ow = cpu).

Definition free_post h G B (p z : Z) h' : Prop :=
  hstart h' = hstart h /\ (forall cpu, started (h_slab h') cpu <-> started (h_slab h) cpu) /\
  exists G' B', heap_inv M h' G' B' /\ regions (hstart h) G B ≡ₚ (p, z) :: regions (hstart h) G' B' /\
    contents_kept (hmem h) (hmem h') (regions (hstart h) G' B') /\
    alloc_count h' = alloc_count h /\ free_count h' = u64 (free_count h + 1).

Lemma slab_owns_live s G L o z :
  slab_inv M s G L -> (o, z) ∈ live_objs G -> slab_owns (s_mem s) o = Ret true /\ 0 < o.
Proof.
  intros Hi Ho.
  destruct (live_object M _ _ _ _ _ Hi Ho) as (k & p & Hk & Hp & _ & -> & Ha & Hok & Hsz & _ & Hlo & Hhi).
  pose proof (class_size_bounds _ Hsz) as [Hb _]. assert (0 < o) by (destruct Ha; unfold sizeof_slab_page in *; lia).
  split; [|done]. unfold slab_owns. rewrite (proj2 (Z.eqb_neq o 0)) by lia.
  rewrite (page_of_slot (s_mem s) (pg_addr p) o Ha) by (unfold sizeof_slab_page in *; lia).
  by rewrite (po_magic _ _ _ _ Hok).
Qed.

(** Objects of the slab caches lie behind the header of their page. *)
Lemma slab_object_mod s G L o z : slab_inv M s G L -> (o, z) ∈ live_objs G -> o mod SLAB_PAGE_SIZE <> 16.
Proof.
  intros Hi Ho.
  destruct (live_object M _ _ _ _ _ Hi Ho) as (k & p & _ & _ & _ & -> & (_ & Hal & _) & _ & Hsz & _ & Hlo & Hhi).
  pose proof (class_size_bounds _ Hsz) as [Hb _]. unfold SLAB_PAGE_SIZE, sizeof_slab_page in *.
  pose proof (Z.div_mod (pg_addr p) 4096 ltac:(lia)) as E. rewrite Hal in E.
  replace o with ((o - pg_addr p) + (pg_addr p / 4096) * 4096) by lia. rewrite Z.mod_add by lia. rewrite Z.mod_small by lia. lia.
Qed.

Lemma kfree_slab_ok h G B cpu p z :
  heap_inv M h G B -> 0 <= cpu -> (p, z) ∈ live_objs G -> owner_ok (hmem h) cpu p ->
  runs_to (kfree h cpu p) (fun h' => free_post h G B p z h').
Proof.
  intros [Hi HB] Hc Hp Hown. destruct (slab_owns_live _ _ _ _ _ Hi Hp) as [Eown Hpos].
  destruct (Hown (slab_object_mod _ _ _ _ _ Hi Hp)) as (ow & How & Hcase).
  unfold kfree. rewrite (proj2 (Z.eqb_neq p 0)) by lia. rewrite Eown. cbn [mbind outcome_bind].
  eapply runs_to_bind.
  { by apply (slab_free_ok M _ G _ cpu p z ow Hi Hc Hp). }
  intros s' ([Est Hst] & G' & Hi' & Hl & Hch & Hpg). cbn [runs_to]. split; [done|]. split; [done|].
  exists G', B. cbn [h_slab set_slab count_free alloc_count free_count]. split_and!; [|by unfold regions; rewrite Hl| |done|done].
  - split; [done|]. cbn [h_slab set_slab count_free]. rewrite Est. eapply infos_kept; [exact Hi|done|exact Hch|].
    intros b x Hb [Hx _] Hy. eapply (block_not_page s' G' _ _ _ x Hi' (elem_of_bblock b B Hb) Hx).
    pose proof (big_bounds s' G' _ _ _ Hi' (elem_of_bblock b B Hb)) as (_ & _ & _ & _ & H4 & _).
    rewrite Est. unfold rng, baddr in *. lia.
  - intros q w x Hq Hx. destruct Hch as [_ Hch]. apply Hch. intros [Hxp Hnl].
    destruct (region_cases _ G' B q w Hq) as [Hq'|(b & Hb & -> & ->)]; [apply Hnl; by exists q, w|].
    eapply (block_not_page s' G' _ _ _ x Hi' (elem_of_bblock b B Hb) Hxp). rewrite Est. unfold rng, baddr in *. lia.
Qed.

(** The blocks after the release of one, whichever allocator takes it. *)
Lemma drop_block h G B b p' h' :
  heap_inv M h G (b :: B) -> pool_start (the_buddy p') = hstart h ->
  pool_inv M p' (map (page_block (hstart h)) (all_pages G) ++ map bblock B) ->
  h_slab h' = set_pools (h_slab h) p' -> alloc_count h' = alloc_count h -> free_count h' = u64 (free_count h + 1) ->
  free_post h G (b :: B) (baddr (hstart h) b + 16) (2 ^ bg_order b - 16) h'.
Proof.
  intros [Hi HB] E Hp Es Ea Ef. unfold free_post. rewrite Es. split; [done|]. split; [done|]. exists G, B. split_and!.
  - unfold heap_inv. rewrite Es. split; [by apply (slab_inv_pools M (h_slab h) G (map bblock (b :: B)))|].
    cbn [set_pools s_mem s_pools]. rewrite E. by inversion HB.
  - unfold regions. cbn [map]. symmetry. apply Permutation_middle.
  - done.
  - done.
  - done.
Qed.

Lemma kfree_block_ok h G B b cpu v :
  heap_inv M h G (b :: B) -> 0 <= cpu ->
  reads 4 (hmem h) (baddr (hstart h) b + 16) v -> v <> SLAB_MAGIC ->
  runs_to (kfree h cpu (baddr (hstart h) b + 16)) (fun h' =>
    free_post h G (b :: B) (baddr (hstart h) b + 16) (2 ^ bg_order b - 16) h').
Proof.
  intros Hh Hc Hv Hne. pose proof Hh as [Hi HB].
  pose proof (big_bounds _ _ _ (bg_order b) (bg_index b) Hi ltac:(left)) as (Ho & Hj & Hlo & Hhi & H4 & Hal & Hst & Htop & Hm).
  apply Forall_cons in HB as [(I1 & I2 & I3) HB]. unfold baddr in *.
  set (a := hstart h + bg_index b * 2 ^ bg_order b) in *.
  assert (Hat : page_at (hmem h) a).
  { split_and!; [lia|done|unfold SLAB_PAGE_SIZE; lia|]. eapply mapped_sub; [exact Hm|lia|unfold SLAB_PAGE_SIZE; lia]. }
  unfold kfree. rewrite (proj2 (Z.eqb_neq (a + 16) 0)) by lia.
  unfold slab_owns. rewrite (proj2 (Z.eqb_neq (a + 16) 0)) by lia.
  rewrite (page_of_slot (hmem h) a (a + 16) Hat) by (unfold SLAB_PAGE_SIZE; lia).
  change (f_magic a) with (a + 16). rewrite Hv. cbn [mbind outcome_bind].
  rewrite (proj2 (Z.eqb_neq _ _) Hne). unfold sizeof_alloc_info. replace (a + 16 - 16) with a by lia.
  rewrite u64_id by (change 18446744073709551616 with (2 ^ 64); lia). cbv zeta.
  eapply runs_to_load; [exact I2|]. rewrite Z.eqb_refl. cbn [negb].
  eapply runs_to_load; [exact I1|].
  assert (Hpool : pool_inv M (s_pools (h_slab h)) (bblock b :: map (page_block (hstart h)) (all_pages G) ++ map bblock B)).
  { apply (pool_inv_perm M _ _ _ (si_pool _ _ _ _ Hi)). symmetry. apply Permutation_middle. }
  destruct ((bg_order b =? 12) || (bg_order b =? 13)).
  - eapply runs_to_load; [exact I3|].
    eapply runs_to_bind; [apply (cpu_pool_free_ok M (s_pools (h_slab h)) _ cpu _ _ Hpool Hc)|].
    intros p' [Hp' Ep']. cbn [runs_to]. by apply (drop_block h G B b p').
  - unfold valid_order in Ho. destruct (Z.ltb_spec (bg_order b) BUDDY_MIN_ORDER); [lia|].
    destruct (Z.ltb_spec BUDDY_MAX_ORDER (bg_order b)); [lia|]. cbn [orb].
    eapply runs_to_load; [exact I3|].
    pose proof (to_buddy_ok M (s_pools (h_slab h)) _ _ _ Hpool ltac:(unfold valid_order; lia)) as Hf.
    unfold to_buddy in Hf. change (addr (the_buddy (s_pools (h_slab h))) (bg_order b) (bg_index b)) with a in Hf.
    change (the_buddy (s_pools (h_slab (count_free (uncount h (bg_size b)))))) with (the_buddy (s_pools (h_slab h))).
    destruct (buddy_free (the_buddy (s_pools (h_slab h))) a (bg_order b)) as [b'| |]; [|done..].
    cbn [mbind outcome_bind runs_to] in *. destruct Hf as [Hp' Ep'].
    by apply (drop_block h G B b (set_buddy (s_pools (h_slab h)) b')).
Qed.
End Heap.

(** * The kernel heap: start, clients and theorems *)

(** ** Regions do not overlap *)

Lemma disjoint_from_members (R : list (Z * Z)) :
  NoDup (map fst R) ->
  (forall o z o' z', (o, z) ∈ R -> (o', z') ∈ R -> o <> o' -> o + z <= o' \/ o' + z' <= o) -> objects_disjoint R.
Proof.
  intros Hn Hd i j o z o' z' Hx Hy Hne. apply Hd; [by eapply list_elem_of_lookup_2..|].
  intros ->. apply Hne, (NoDup_lookup _ i j o' Hn); change (map fst R) with (fst <$> R); rewrite list_lookup_fmap.
  - by rewrite Hx.
  - by rewrite Hy.
Qed.

Section Regions.
Context (M : Z).

Lemma region_bounds h G B p z :
  heap_inv M h G B -> (p, z) ∈ regions (hstart h) G B ->
  hstart h <= p /\ p + z <= hstart h + 2 ^ M /\ 0 < z /\ 0 < p.
Proof.
  intros [Hi HB] Hr. pose proof (sh_start _ (bi_shape _ _ _ (pi_buddy _ _ _ (si_pool _ _ _ _ Hi)))).
  destruct (region_cases _ _ _ _ _ Hr) as [Hl|(b & Hb & -> & ->)].
  - pose proof (slab_live_in_pool M _ _ _ _ _ Hi Hl).
    destruct (live_object M _ _ _ _ _ Hi Hl) as (k & q & _ & _ & _ & _ & _ & _ & Hsz & _).
    pose proof (class_size_bounds _ Hsz). lia.
  - pose proof (big_bounds M _ _ _ _ _ Hi (elem_of_bblock b B Hb)) as (_ & _ & ? & ? & ? & _).
    unfold baddr in *. lia.
Qed.

Lemma live_not_big h G B o z b :
  heap_inv M h G B -> (o, z) ∈ live_objs G -> b ∈ B ->
  o + z <= baddr (hstart h) b \/ baddr (hstart h) b + 2 ^ bg_order b <= o.
Proof.
  intros [Hi HB] Ho Hb.
  destruct (live_object M _ _ _ _ _ Hi Ho) as (k & p & Hk & Hp & _ & -> & Ha & _ & Hsz & _ & Hlo & Hhi).
  pose proof (class_size_bounds _ Hsz) as [Hszb _].
  pose proof (big_bounds M _ _ _ _ _ Hi (elem_of_bblock b B Hb)) as (_ & _ & _ & _ & H4 & _).
  destruct (Z.le_gt_cases (o + sz_of k.2) (baddr (hstart h) b)) as [|H1]; [by left|].
  destruct (Z.le_gt_cases (baddr (hstart h) b + 2 ^ bg_order b) o) as [|H2]; [by right|]. exfalso.
  apply (block_not_page M (h_slab h) G _ _ _ (Z.max o (baddr (hstart h) b)) Hi (elem_of_bblock b B Hb)).
  - exists p. split; [apply elem_of_all_pages; eauto|]. unfold rng, SLAB_PAGE_SIZE, sizeof_slab_page in *. lia.
  - unfold rng, baddr in *. lia.
Qed.

Lemma bigs_apart h G B i j b1 b2 :
  heap_inv M h G B -> B !! i = Some b1 -> B !! j = Some b2 -> i <> j ->
  baddr (hstart h) b1 + 2 ^ bg_order b1 <= baddr (hstart h) b2 \/
  baddr (hstart h) b2 + 2 ^ bg_order b2 <= baddr (hstart h) b1.
Proof.
  intros [Hi _] H1 H2 Hne.
  exact (big_apart M (h_slab h) G _ i j _ _ Hi (bblock_lookup B i b1 H1) (bblock_lookup B j b2 H2) Hne).
Qed.

Lemma regions_disjoint h G B : heap_inv M h G B -> objects_disjoint (regions (hstart h) G B).
Proof.
  intros Hh. pose proof Hh as [Hi HB].
  assert (H16 : forall b, b ∈ B -> 4096 <= 2 ^ bg_order b).
  { intros b Hb. by pose proof (big_bounds M _ _ _ _ _ Hi (elem_of_bblock b B Hb)) as (_ & _ & _ & _ & ? & _). }
  intros i j o z o' z' Hx Hy Hne. unfold regions in *.
  apply lookup_app_Some in Hx as [Hx|[Hxi Hx]]; apply lookup_app_Some in Hy as [Hy|[Hyi Hy]].
  - pose proof (NoDup_live M _ _ _ Hi) as Hn.
    eapply (disjoint_from_members (live_objs G) Hn); [|done..]. intros. by eapply (live_apart M).
  - change (map (region (hstart h)) B) with (region (hstart h) <$> B) in Hy. rewrite list_lookup_fmap in Hy.
    destruct (B !! _) as [b|] eqn:Eb; [|done]. cbn in Hy. unfold region, sizeof_alloc_info in Hy. simplify_eq.
    apply list_elem_of_lookup_2 in Hx, Eb. pose proof (live_not_big h G B o z b Hh Hx Eb). lia.
  - change (map (region (hstart h)) B) with (region (hstart h) <$> B) in Hx. rewrite list_lookup_fmap in Hx.
    destruct (B !! _) as [b|] eqn:Eb; [|done]. cbn in Hx. unfold region, sizeof_alloc_info in Hx. simplify_eq.
    apply list_elem_of_lookup_2 in Hy, Eb. pose proof (live_not_big h G B o' z' b Hh Hy Eb). lia.
  - change (map (region (hstart h)) B) with (region (hstart h) <$> B) in Hx, Hy. rewrite list_lookup_fmap in Hx, Hy.
    destruct (B !! (i - _)%nat) as [b|] eqn:Eb; [|done]. destruct (B !! (j - _)%nat) as [b'|] eqn:Eb'; [|done].
    cbn in Hx, Hy. unfold region, sizeof_alloc_info in Hx, Hy. simplify_eq.
    pose proof (bigs_apart h G B _ _ b b' Hh Eb Eb' ltac:(lia)).
    pose proof (H16 b ltac:(by eapply list_elem_of_lookup_2)). pose proof (H16 b' ltac:(by eapply list_elem_of_lookup_2)). lia.
Qed.
End Regions.

(** Disjointness does not depend on the order. *)
Lemma objects_disjoint_perm R R' :
  R ≡ₚ R' -> Forall (fun r => 0 < r.2) R -> objects_disjoint R -> objects_disjoint R'.
Proof.
  intros Hp Hpos Hd.
  assert (Hne : forall i j o z o' z', R !! i = Some (o, z) -> R !! j = Some (o', z') -> i <> j -> o <> o').
  { intros i j o z o' z' Hx Hy Hij <-. destruct (Hd i j o z o z' Hx Hy Hij);
      pose proof (Forall_lookup_1 _ _ _ _ Hpos Hx); pose proof (Forall_lookup_1 _ _ _ _ Hpos Hy); simpl in *; lia. }
  apply disjoint_from_members.
  - rewrite <- Hp. apply NoDup_alt. intros i j o. change (map fst R) with (fst <$> R). rewrite !list_lookup_fmap.
    destruct (R !! i) as [[o1 z1]|] eqn:E1, (R !! j) as [[o2 z2]|] eqn:E2; try done. cbn. intros [= ->] [= ->].
    destruct (decide (i = j)) as [|Hij]; [done|]. by destruct (Hne i j o z1 o z2 E1 E2 Hij).
  - intros o z o' z'. rewrite <- Hp. intros [i Hi]%list_elem_of_lookup [j Hj]%list_elem_of_lookup Ho.
    apply (Hd i j); [done..|]. intros ->. by simplify_eq.
Qed.

(** ** Start *)

(** The memory map entry that is chosen is usable, and no usable one is
    longer. *)
Lemma best_entry_ok es : forall max best e,
  best_entry es max best = Some e -> (forall e0, best = Some e0 -> e_length e0 = max) ->
  (best = Some e \/ e ∈ es /\ e_type e = LIMINE_MEMMAP_USABLE) /\ max <= e_length e /\
  forall e', e' ∈ es -> e_type e' = LIMINE_MEMMAP_USABLE -> e_length e' <= e_length e.
Proof.
  induction es as [|e1 es IH]; intros max best e; cbn [best_entry].
  { intros -> Hb. rewrite (Hb e eq_refl). split_and!; [by left|done|by intros ? ?%elem_of_nil]. }
  destruct ((e_type e1 =? LIMINE_MEMMAP_USABLE) && (max <? e_length e1)) eqn:E; intros He Hb.
  - apply andb_true_iff in E as [Et%Z.eqb_eq El%Z.ltb_lt].
    destruct (IH _ _ _ He) as (Ho & Hm & Hall); [by intros ? [= ->]|]. split_and!.
    + right. destruct Ho as [[= ->]|[? ?]]; (split; [set_solver|done]).
    + lia.
    + intros e' [->|?]%elem_of_cons Ht; [done|auto].
  - destruct (IH _ _ _ He Hb) as (Ho & Hm & Hall). split_and!; [|done|].
    + destruct Ho as [?|[? ?]]; [by left|right; split; [set_solver|done]].
    + intros e' [->|?]%elem_of_cons Ht; [|auto]. apply andb_false_iff in E as [E%Z.eqb_neq|E%Z.ltb_ge]; [done|lia].
Qed.

(** The heap before memory_manager_init: static data, zeroed. *)
Definition boot_heap (m : mem) : kheap := mkheap (boot_slab m (fresh_pools unset_allocator)) 0 0 0.

Lemma memory_manager_init_ok m off es e :
  best_entry es 0 None = Some e -> 0 < e_base e + off -> (e_base e + off) mod SLAB_PAGE_SIZE = 0 ->
  8192 <= e_length e -> e_base e + off + e_length e + SLAB_PAGE_SIZE <= 2 ^ 64 ->
  mapped m (e_base e + off) (e_length e) ->
  runs_to (memory_manager_init (boot_heap m) (Some off) (Some es)) (fun h => exists M,
    heap_inv M h no_pages [] /\ hstart h = e_base e + off /\ hmem h = m /\ 2 ^ M <= e_length e /\
    (forall cpu, ~ started (h_slab h) cpu) /\ alloc_count h = 0 /\ free_count h = 0).
Proof.
  intros He Hpos Hal Hlen Htop Hm. unfold memory_manager_init. rewrite He.
  rewrite u64_id by (change 18446744073709551616 with (2 ^ 64); unfold SLAB_PAGE_SIZE in *; lia).
  cbn [boot_heap h_slab boot_slab s_pools fresh_pools the_buddy].
  eapply runs_to_bind; [apply (buddy_init_ok unset_allocator); [done|done|done|done|done|unfold SLAB_PAGE_SIZE in *; lia]|].
  intros b (M & Hb & Est & Hsz & _). cbn [set_buddy cpu_pools set_pools s_mem caches cpu_slabs].
  pose proof (bi_fits _ _ _ Hb) as Hfit.
  eapply runs_to_bind.
  { apply (slab_init_ok M m (fresh_pools b) []); [by apply fresh_pools_ok|..]; cbn [fresh_pools the_buddy]; rewrite Est.
    - done.
    - eapply mapped_sub; [exact Hm|lia..].
    - lia. }
  intros s (Hi & Em & Ep & Hns). cbn [runs_to]. exists M. cbn [h_slab set_slab alloc_count free_count].
  rewrite Em, Ep. cbn [fresh_pools the_buddy]. split_and!; [|done|done|lia|done|done|done].
  split; [exact Hi|]. by constructor.
Qed.

(** ** Clients *)

(** The first word of a block of the heap looks like the header of a slab page:
    pointers to blocks are 16 above a page boundary, those to slab objects
    further. *)
Definition looks_like_slab (m : mem) (p : Z) : Prop := p mod SLAB_PAGE_SIZE = 16 /\ reads 4 m p SLAB_MAGIC.

(** Clients of the heap on any processors hold the allocations [H], each with
    its address and the size that was asked for.  They start the pools and the slab
    caches of processors, allocate sizes that fit, release what they hold, and write
    into it. *)
Inductive heap_step : kheap * list (Z * Z) -> kheap * list (Z * Z) -> Prop :=
| step_start h H cpu q p' :
    0 <= cpu -> cpu_pools (s_pools (h_slab h)) !! Z.to_nat cpu = Some q -> initialized q = 0 ->
    cpu_pool_init (s_pools (h_slab h)) cpu = Ret p' ->
    heap_step (h, H) (set_slab h (set_pools (h_slab h) p'), H)
| step_start_slab h H cpu s' :
    0 <= cpu -> ~ started (h_slab h) cpu -> slab_cpu_init (h_slab h) cpu = Ret s' ->
    heap_step (h, H) (set_slab h s', H)
| step_kmalloc h H cpu size h' p :
    0 <= cpu -> 0 < size -> fits size -> kmalloc h cpu size = Ret (h', p) -> p <> 0 ->
    heap_step (h, H) (h', (p, size) :: H)
| step_kmalloc_null h H cpu size h' :
    0 <= cpu -> 0 <= size < 2 ^ 64 -> kmalloc h cpu size = Ret (h', 0) -> heap_step (h, H) (h', H)
| step_kfree h H1 p size H2 cpu h' :
    0 <= cpu -> ~ looks_like_slab (hmem h) p -> owner_ok (hmem h) cpu p -> kfree h cpu p = Ret h' ->
    heap_step (h, H1 ++ (p, size) :: H2) (h', H1 ++ H2)
| step_kwrite h H p size m' :
    (p, size) ∈ H -> changes (rng p size) (hmem h) m' ->
    heap_step (h, H) (set_slab h (set_mem (h_slab h) m'), H).

(** An allocation and the region behind it. *)
Definition covered (a r : Z * Z) : Prop := a.1 = r.1 /\ 0 < a.2 <= r.2.

Section Clients.
Context (M st : Z).

Record held (h : kheap) (G : ghost) (B : list big) (R H : list (Z * Z)) : Prop := {
  he_inv : heap_inv M h G B;
  he_start : hstart h = st;
  he_regions : regions (hstart h) G B ≡ₚ R;
  he_covered : Forall2 covered H R;
  he_count : leaked h = u64 (len H)
}.

Definition heap_client_inv (h : kheap) (H : list (Z * Z)) : Prop := exists G B R, held h G B R H.

Lemma held_disjoint h G B R H : held h G B R H -> objects_disjoint H.
Proof.
  intros [Hi _ HR HC _].
  assert (HdR : objects_disjoint R).
  { eapply objects_disjoint_perm; [exact HR| |by eapply regions_disjoint].
    apply Forall_forall. intros [p z] Hp. by apply (region_bounds M _ _ _ _ _ Hi) in Hp as (_ & _ & ? & _). }
  intros i j o z o' z' Hx Hy Hne.
  destruct (Forall2_lookup_l _ _ _ _ _ HC Hx) as ([p1 z1] & H1 & [E1 L1]).
  destruct (Forall2_lookup_l _ _ _ _ _ HC Hy) as ([p2 z2] & H2 & [E2 L2]). simpl in *. subst.
  destruct (HdR i j p1 z1 p2 z2 H1 H2 Hne); lia.
Qed.

Lemma held_region h G B R H p size :
  held h G B R H -> (p, size) ∈ H -> exists z, (p, z) ∈ regions (hstart h) G B /\ 0 < size <= z.
Proof.
  intros Hh [i Hi]%list_elem_of_lookup. destruct (Forall2_lookup_l _ _ _ _ _ (he_covered _ _ _ _ _ Hh) Hi) as ([q z] & Hq & E & Hle).
  simpl in *. subst. exists z. split; [|done]. rewrite (he_regions _ _ _ _ _ Hh). by eapply list_elem_of_lookup_2.
Qed.

Lemma kept_sub h G B R H m' :
  held h G B R H -> contents_kept (hmem h) m' (regions (hstart h) G B) -> contents_kept (hmem h) m' H.
Proof.
  intros Hh Hk p size x Hp Hx. destruct (held_region h G B R H p size Hh Hp) as (z & Hz & Hle).
  apply (Hk p z x Hz). unfold rng in *. lia.
Qed.

Lemma len_cons {A} (x : A) l : len (x :: l) = len l + 1.
Proof. unfold len. simpl length. lia. Qed.

(** kmalloc of a size that fits. *)
Lemma held_kmalloc h G B R H cpu size :
  held h G B R H -> 0 <= cpu -> 0 < size < 2 ^ 64 ->
  runs_to (kmalloc h cpu size) (fun '(h', p) => contents_kept (hmem h) (hmem h') H /\
    (p = 0 -> heap_client_inv h' H /\ exhausted (the_buddy (s_pools (h_slab h'))) (kmalloc_order size)) /\
    (p <> 0 -> fits size -> heap_client_inv h' ((p, size) :: H))).
Proof.
  intros Hh Hc Hsz. pose proof Hh as [Hi Hst0 HR HC Hl].
  eapply runs_to_mono; [by apply (kmalloc_ok M h G B cpu size)|].
  intros [h' p] ([q|] & -> & (Est & Hst & Hr) & Hex); cbn [default].
  - destruct Hr as (Hnz & G' & B' & z & Hi' & Hcap & Hreg & Hk & Ea & Ef).
    split; [by eapply kept_sub|]. split; [done|]. intros _ Hf. exists G', B', ((q, z) :: R). constructor.
    + done.
    + congruence.
    + by rewrite Est, Hreg, HR.
    + constructor; [|done]. split; [done|]. simpl. split; [lia|]. apply (capacity_fits size z); [lia|done|done].
    + rewrite len_cons. unfold leaked in *. rewrite Ea, Ef. unfold u64, wrapu in *.
      rewrite Zminus_mod_idemp_l, <- (Zplus_mod_idemp_l (len H)), <- Hl, Zplus_mod_idemp_l. f_equal. lia.
  - destruct Hr as (Hi' & Em & [Ea Ef]). rewrite Em. split; [done|]. split; [|done]. intros _. split; [|by apply Hex].
    exists G, B, R. constructor; [done|congruence|by rewrite Est|done|]. unfold leaked. by rewrite Ea, Ef.
Qed.

Lemma regions_split h G B p z :
  heap_inv M h G B -> (p, z) ∈ regions (hstart h) G B ->
  (p, z) ∈ live_objs G \/ exists b B', B ≡ₚ b :: B' /\ p = baddr (hstart h) b + 16 /\ z = 2 ^ bg_order b - 16 /\
    p mod SLAB_PAGE_SIZE = 16 /\ mapped (hmem h) p 4.
Proof.
  intros [Hi _] [?|(b & Hb & -> & ->)]%region_cases; [by left|right].
  pose proof (big_bounds M _ _ _ _ _ Hi (elem_of_bblock b B Hb)) as (_ & _ & Hlo & _ & H4 & Hal & _ & _ & Hm).
  apply list_elem_of_split in Hb as (B1 & B2 & ->). exists b, (B1 ++ B2).
  split; [symmetry; apply Permutation_middle|]. split; [done|]. split; [done|]. unfold baddr in *. split.
  - rewrite Z.add_mod, Hal by (unfold SLAB_PAGE_SIZE; lia). done.
  - eapply mapped_sub; [exact Hm|lia..].
Qed.

Lemma heap_inv_perm h G B B' : heap_inv M h G B -> B ≡ₚ B' -> heap_inv M h G B'.
Proof.
  intros [Hi HB] E. split; [|by rewrite <- E]. destruct Hi as [H1 H2 H3 H4 H5]. constructor; try done.
  apply (pool_inv_perm M _ _ _ H5). by rewrite E.
Qed.

Lemma held_kfree h G B R H1 p size H2 cpu :
  held h G B R (H1 ++ (p, size) :: H2) -> 0 <= cpu -> ~ looks_like_slab (hmem h) p -> owner_ok (hmem h) cpu p ->
  runs_to (kfree h cpu p) (fun h' => contents_kept (hmem h) (hmem h') (H1 ++ H2) /\ heap_client_inv h' (H1 ++ H2)).
Proof.
  intros [Hi Hst0 HR HC Hl] Hc Hplain Hown.
  apply Forall2_app_inv_l in HC as (R1 & R2' & HC1 & HC2 & ->).
  inversion HC2 as [|? [p' z] ? R2 [Ep Hle] HC2']; subst. simpl in *. subst p'.
  assert (Hz : (p, z) ∈ regions (hstart h) G B) by (rewrite HR; set_solver).
  assert (Hfree : runs_to (kfree h cpu p) (fun h' => exists B0, B ≡ₚ B0 /\ free_post M h G B0 p z h')).
  { destruct (regions_split h G B p z Hi Hz) as [Hlv|(b & B' & EB & -> & -> & Hmod & Hmp)].
    - eapply runs_to_mono; [by apply (kfree_slab_ok M h G B cpu p z)|]. eauto.
    - destruct (load_mapped 4 (hmem h) (baddr (hstart h) b + 16) Hmp) as [v Hv].
      eapply runs_to_mono; [apply (kfree_block_ok M h G B' b cpu v); [by eapply heap_inv_perm|done|done|]|by eauto].
      intros ->. by apply Hplain. }
  eapply runs_to_mono; [exact Hfree|].
  intros h' (B0 & EB & Est & Hst & G' & B' & Hi' & Hreg & Hk & Ea & Ef).
  assert (HR' : regions (hstart h) G' B' ≡ₚ R1 ++ R2).
  { apply (Permutation_cons_inv (a := (p, z))). rewrite <- Hreg.
    assert (E0 : regions (hstart h) G B0 ≡ₚ regions (hstart h) G B) by (unfold regions; by rewrite EB).
    rewrite E0, HR. symmetry. apply Permutation_middle. }
  assert (Hheld : held h' G' B' (R1 ++ R2) (H1 ++ H2)).
  { constructor; [done|congruence|by rewrite Est|by apply Forall2_app|].
    assert (El : len (H1 ++ (p, size) :: H2) = len (H1 ++ H2) + 1)
      by (unfold len; rewrite !length_app; simpl length; lia).
    rewrite El in Hl. unfold leaked in *. rewrite Ea, Ef. unfold u64, wrapu in *.
    rewrite Zminus_mod_idemp_r. replace (alloc_count h - (free_count h + 1)) with ((alloc_count h - free_count h) - 1) by lia.
    rewrite <- Zminus_mod_idemp_l, Hl, Zminus_mod_idemp_l. f_equal. lia. }
  split; [|by exists G', B', (R1 ++ R2)].
  intros q sz x Hq Hx. destruct (held_region _ _ _ _ _ q sz Hheld Hq) as (w & Hw & Hlw). rewrite Est in Hw.
  apply (Hk q w x Hw). unfold rng in *. lia.
Qed.

Lemma held_write h G B R H p size m' :
  held h G B R H -> (p, size) ∈ H -> changes (rng p size) (hmem h) m' ->
  held (set_slab h (set_mem (h_slab h) m')) G B R H.
Proof.
  intros Hh Hp Hch. destruct (held_region _ _ _ _ _ p size Hh Hp) as (z & Hz & Hle).
  destruct Hh as [[Hi HB] Hst0 HR HC Hl].
  assert (Hrng : forall x, rng p size x -> rng p z x) by (unfold rng; lia).
  constructor; cbn [h_slab set_slab set_mem s_mem s_pools]; [|done|done|done|done]. split; cbn [h_slab set_slab set_mem s_mem s_pools].
  - eapply slab_inv_frame; [exact Hi|exact Hch|]. intros x k Hx%Hrng Hk Hw.
    destruct (region_cases _ _ _ _ _ Hz) as [Hlv|(b & Hb & -> & ->)].
    + by apply (live_not_words M (h_slab h) G _ k p z x Hi Hlv Hx Hk).
    + apply (block_not_page M (h_slab h) G _ _ _ x Hi (elem_of_bblock b B Hb)); [by eapply (cache_words_in_pages M)|].
      unfold rng, baddr in *. lia.
  - eapply (infos_kept M); [exact Hi|done|exact Hch|]. intros b x Hb Hx%Hrng Hy.
    destruct (region_cases _ _ _ _ _ Hz) as [Hlv|(b' & Hb' & -> & ->)].
    + pose proof (live_not_big M h G B p z b (conj Hi HB) Hlv Hb).
      pose proof (big_bounds M _ _ _ _ _ Hi (elem_of_bblock b B Hb)) as (_ & _ & _ & _ & H4 & _). unfold rng in *. lia.
    + apply list_elem_of_lookup in Hb as [i Hb], Hb' as [j Hb'].
      destruct (decide (i = j)) as [->|Hne]; [simplify_eq; unfold rng in *; lia|].
      pose proof (bigs_apart M h G B i j b b' (conj Hi HB) Hb Hb' Hne).
      pose proof (big_bounds M _ _ _ _ _ Hi (elem_of_bblock b B ltac:(by eapply list_elem_of_lookup_2))) as (_ & _ & _ & _ & H4 & _).
      unfold rng in *. lia.
Qed.

Lemma held_start h G B R H cpu q :
  held h G B R H -> 0 <= cpu -> cpu_pools (s_pools (h_slab h)) !! Z.to_nat cpu = Some q -> initialized q = 0 ->
  runs_to (cpu_pool_init (s_pools (h_slab h)) cpu) (fun p' => held (set_slab h (set_pools (h_slab h) p')) G B R H).
Proof.
  intros [[Hi HB] Hst0 HR HC Hl] Hc Hq Hini.
  eapply runs_to_mono; [by apply (cpu_pool_init_ok M _ _ cpu q (si_pool _ _ _ _ Hi))|]. intros p' [Hp Eb].
  constructor; cbn [h_slab set_slab set_pools s_mem s_pools]; rewrite ?Eb; [|done|done|done|done].
  split; cbn [h_slab set_slab set_pools s_mem s_pools]; [|by rewrite Eb].
  apply (slab_inv_pools M (h_slab h) G (map bblock B)); [done|by rewrite Eb|done].
Qed.

Lemma held_start_slab h G B R H cpu :
  held h G B R H -> 0 <= cpu -> ~ started (h_slab h) cpu ->
  runs_to (slab_cpu_init (h_slab h) cpu) (fun s' => held (set_slab h s') G B R H).
Proof.
  intros [[Hi HB] Hst0 HR HC Hl] Hc Hns.
  eapply runs_to_mono; [by apply (slab_cpu_init_ok M (h_slab h) G (map bblock B) cpu)|]. intros s' (Hi' & Em & Ep).
  constructor; cbn [h_slab set_slab]; rewrite ?Ep; [|done|done|done|done].
  split; cbn [h_slab set_slab]; [done|]. by rewrite Em, Ep.
Qed.

Lemma heap_step_inv h H h' H' : heap_client_inv h H -> heap_step (h, H) (h', H') -> heap_client_inv h' H'.
Proof.
  intros (G & B & R & Hh) Hstep.
  inversion Hstep as [? ? cpu q p' Hc Hq Hini Hrun|? ? cpu s' Hc Hns Hrun|? ? cpu size ? p Hc Hsz Hf Hrun Hnz|? ? cpu size ? Hc Hsz Hrun|
    ? H1 p size H2 cpu ? Hc Hpl Hown Hrun|? ? p size m' Hp Hch]; subst.
  - pose proof (held_start h G B R H' cpu q Hh Hc Hq Hini) as Hok. rewrite Hrun in Hok. by exists G, B, R.
  - pose proof (held_start_slab h G B R H' cpu Hh Hc Hns) as Hok. rewrite Hrun in Hok. by exists G, B, R.
  - assert (Hsz' : 0 < size < 2 ^ 64) by (unfold fits in Hf; change (2 ^ 20) with 1048576 in Hf; lia).
    pose proof (held_kmalloc h G B R H cpu size Hh Hc Hsz') as Hok. rewrite Hrun in Hok. by apply Hok.
  - destruct (decide (size = 0)) as [->|].
    { cbn in Hrun. simplify_eq. by exists G, B, R. }
    pose proof (held_kmalloc h G B R H' cpu size Hh Hc ltac:(lia)) as Hok. rewrite Hrun in Hok. by apply Hok.
  - pose proof (held_kfree h G B R H1 p size H2 cpu Hh Hc Hpl Hown) as Hok. rewrite Hrun in Hok. by destruct Hok.
  - exists G, B, R. by eapply held_write.
Qed.

Lemma heap_reach_inv x y : rtc heap_step x y -> heap_client_inv x.1 x.2 -> heap_client_inv y.1 y.2.
Proof.
  induction 1 as [|[h1 H1] [h2 H2] y Hst _ IH]; [done|]. intros H. apply IH. by eapply heap_step_inv.
Qed.
End Clients.

(** C8. The kernel heap implements an allocator.  From the start of the memory manager
    on a page-aligned usable memory region, along any sequence of kmalloc and kfree on
    any processors, of starting the pools and the slab caches of processors, and of
    arbitrary writes of the clients into what they hold (requested sizes being ones that
    fit their block with its header, no block being released while its first word is the
    magic number of slab pages, and no object of a slab page that belongs to a processor
    being released on another one: [kmalloc_undersized], [kfree_confused] and
    [cross_cpu_free_faults] show what happens otherwise): held allocations do not
    overlap and lie inside the chosen region of memory; a further kmalloc of any size
    finishes without a fault and returns NULL only for size 0 or when the buddy
    allocator has no block for it; kfree of a held allocation finishes without a fault;
    neither changes a byte of the other allocations; and the number of leaked
    allocations that check_memory_leaks reports is the number of those held. *)
Theorem heap_client_safe m off es e h0 h H :
  best_entry es 0 None = Some e -> 0 < e_base e + off -> (e_base e + off) mod SLAB_PAGE_SIZE = 0 ->
  8192 <= e_length e -> e_base e + off + e_length e + SLAB_PAGE_SIZE <= 2 ^ 64 ->
  mapped m (e_base e + off) (e_length e) ->
  memory_manager_init (boot_heap m) (Some off) (Some es) = Ret h0 -> rtc heap_step (h0, []) (h, H) ->
  objects_disjoint H /\
  (forall p size, (p, size) ∈ H -> 0 < p /\ e_base e + off <= p /\ p + size <= e_base e + off + e_length e) /\
  (forall cpu size, 0 <= cpu -> 0 <= size < 2 ^ 64 -> exists h' p, kmalloc h cpu size = Ret (h', p) /\
     contents_kept (hmem h) (hmem h') H /\
     (p = 0 -> size = 0 \/ exhausted (the_buddy (s_pools (h_slab h'))) (kmalloc_order size)) /\
     (p <> 0 -> fits size -> objects_disjoint ((p, size) :: H))) /\
  (forall cpu H1 p size H2, 0 <= cpu -> H = H1 ++ (p, size) :: H2 -> ~ looks_like_slab (hmem h) p -> owner_ok (hmem h) cpu p ->
     exists h', kfree h cpu p = Ret h' /\ contents_kept (hmem h) (hmem h') (H1 ++ H2)) /\
  leaked h = u64 (len H).
Proof.
  intros He Hpos Hal Hlen Htop Hm Hinit Hrtc.
  pose proof (memory_manager_init_ok m off es e He Hpos Hal Hlen Htop Hm) as H0.
  rewrite Hinit in H0. destruct H0 as (M & Hi0 & Est0 & _ & HM & Hns0 & Ea & Ef).
  assert (Hinv : heap_client_inv M (e_base e + off) h H).
  { apply (heap_reach_inv M (e_base e + off) _ _ Hrtc). exists no_pages, [], [].
    constructor; [done|done|by unfold regions; rewrite no_live|done|]. cbn [fst snd]. unfold leaked. by rewrite Ea, Ef. }
  destruct Hinv as (G & B & R & Hh). split_and!.
  - by eapply held_disjoint.
  - intros p size Hp. destruct (held_region _ _ _ _ _ _ _ _ _ Hh Hp) as (z & Hz & Hle).
    pose proof (region_bounds M _ _ _ _ _ (he_inv _ _ _ _ _ _ _ Hh) Hz) as (H1 & H2 & _ & H3).
    rewrite (he_start _ _ _ _ _ _ _ Hh) in *. lia.
  - intros cpu size Hc Hsz. destruct (decide (size = 0)) as [->|Hnz].
    { exists h, 0. split_and!; [done|done|by left|done]. }
    pose proof (held_kmalloc _ _ _ _ _ _ _ cpu size Hh Hc ltac:(lia)) as Hok.
    apply runs_to_inv in Hok as ([h' p] & -> & Hk & Hnull & Hok). exists h', p. split_and!; [done|done|..].
    + intros Hp. right. by apply Hnull.
    + intros Hp Hf. destruct (Hok Hp Hf) as (G' & B' & R' & Hh'). by eapply held_disjoint.
  - intros cpu H1 p size H2 Hc -> Hpl Hown.
    pose proof (held_kfree _ _ _ _ _ _ _ _ _ _ cpu Hh Hc Hpl Hown) as Hok.
    apply runs_to_inv in Hok as (h' & -> & Hk & _). by exists h'.
  - apply Hh.
Qed.

(** ** Witnesses *)

(** 8 KiB of usable memory after a reserved area; the allocator's bitmaps leave
    one page. *)
Definition demo_map : list memmap_entry := [mkentry 0 4096 1; mkentry 4096 8192 0].

Definition demo_heap : kheap :=
  match memory_manager_init (boot_heap (zero_mem 4096 8192)) (Some 0) (Some demo_map) with
  | Ret h => h
  | _ => boot_heap ∅
  end.

Lemma demo_heap_init :
  memory_manager_init (boot_heap (zero_mem 4096 8192)) (Some 0) (Some demo_map) = Ret demo_heap.
Proof.
  pose proof (memory_manager_init_ok (zero_mem 4096 8192) 0 demo_map (mkentry 4096 8192 0) eq_refl) as H.
  unfold demo_heap. destruct (memory_manager_init _ _ _) as [h| |]; [done|..]; destruct H; try done; try apply zero_mem_mapped.
Qed.

(** The outcome of kmalloc on the heap with its pointer computed. *)
Definition alloc_demo (size : Z) : kheap :=
  match kmalloc demo_heap 0 size with Ret (h, _) => h | _ => demo_heap end.

Lemma alloc_demo_eq size p :
  match kmalloc demo_heap 0 size with Ret (_, q) => q | _ => 0 end = p -> p <> 0 ->
  kmalloc demo_heap 0 size = Ret (alloc_demo size, p).
Proof.
  unfold alloc_demo. destruct (kmalloc demo_heap 0 size) as [[h q]| |]; [by intros ->|by intros <-..].
Qed.

Lemma kmalloc_100 : kmalloc demo_heap 0 100 = Ret (alloc_demo 100, 7976).
Proof. apply alloc_demo_eq; [vm_compute; reflexivity|lia]. Qed.

(** The slab caches of processor 0 are started before it allocates. *)
Definition started_heap : kheap :=
  match slab_cpu_init (h_slab demo_heap) 0 with Ret s => set_slab demo_heap s | _ => demo_heap end.
Definition started_100 : kheap := match kmalloc started_heap 0 100 with Ret (h, _) => h | _ => started_heap end.

Lemma started_heap_runs : match slab_cpu_init (h_slab demo_heap) 0 with Ret _ => true | _ => false end = true.
Proof. vm_compute. reflexivity. Qed.

Lemma started_heap_eq :
  slab_cpu_init (h_slab demo_heap) 0 = Ret (h_slab started_heap) /\ set_slab demo_heap (h_slab started_heap) = started_heap.
Proof.
  unfold started_heap. pose proof started_heap_runs as E. generalize dependent demo_heap. intros h E.
  destruct (slab_cpu_init (h_slab h) 0) as [s| |]; [|discriminate E..]. split; reflexivity.
Qed.

Lemma started_100_eq : kmalloc started_heap 0 100 = Ret (started_100, 7976).
Proof.
  unfold started_100. assert (match kmalloc started_heap 0 100 with Ret (_, q) => q | _ => 0 end = 7976) as E by (vm_compute; reflexivity).
  destruct (kmalloc started_heap 0 100) as [[h q]| |]; [by subst|discriminate E..].
Qed.

Lemma heap_client_safe_witness :
  rtc heap_step (demo_heap, []) (started_100, [(7976, 100)]) /\
  reads 2 (hmem started_100) (f_owner_cpu (page_of 7976)) 0 /\ leaked started_100 = 1 /\
  exists h', kfree started_100 0 7976 = Ret h'.
Proof.
  assert (Hr : rtc heap_step (demo_heap, []) (started_100, [(7976, 100)])).
  { eapply rtc_l; [apply (step_start_slab _ _ 0 (h_slab started_heap)); [lia| |apply started_heap_eq]|].
    - intros (cs & Hcs & Hini). vm_compute in Hcs. injection Hcs as <-. vm_compute in Hini. by apply Hini.
    - eapply rtc_l; [|apply rtc_refl]. apply (step_kmalloc _ _ 0 100 _ 7976); [lia|lia|unfold fits; lia| |lia].
      rewrite (proj2 started_heap_eq). exact started_100_eq. }
  split; [exact Hr|].
  assert (How : reads 2 (hmem started_100) (f_owner_cpu (page_of 7976)) 0) by (vm_compute; reflexivity).
  split; [exact How|].
  destruct (heap_client_safe (zero_mem 4096 8192) 0 demo_map (mkentry 4096 8192 0) demo_heap started_100
    [(7976, 100)]) as (_ & _ & _ & Hfree & Hl).
  - reflexivity.
  - cbn. lia.
  - reflexivity.
  - cbn. lia.
  - vm_compute. discriminate.
  - apply zero_mem_mapped.
  - exact demo_heap_init.
  - exact Hr.
  - split; [exact Hl|]. destruct (Hfree 0 [] 7976 100 [] ltac:(lia) eq_refl) as (h' & E & _).
    + intros [H _]. vm_compute in H. discriminate H.
    + intros _. exists 0. split; [exact How|by right].
    + by exists h'.
Defined.

(** ** Where the heap departs from its intent *)

(** The condition that sizes fit cannot be dropped: 4096 bytes are answered
    with a block of 4096 bytes of which the header takes 16, so the allocation
    ends 16 bytes after its block. *)
Lemma kmalloc_undersized :
  kmalloc demo_heap 0 4096 = Ret (alloc_demo 4096, 4112) /\
  reads 4 (hmem (alloc_demo 4096)) (i_order 4096) 12 /\ 4096 + 2 ^ 12 < 4112 + 4096.
Proof.
  split; [apply alloc_demo_eq; [vm_compute; reflexivity|lia]|]. split; [vm_compute; reflexivity|lia].
Qed.

(** Nor the condition on the first word: a client whose data starts with the
    magic number of slab pages cannot give its block back; kfree returns, the
    memory stays lost. *)
Definition confused_session : outcome (kheap * Z) :=
  let h := alloc_demo 3000 in
  m ← store 4 (hmem h) 4112 SLAB_MAGIC;
  h ← kfree (set_slab h (set_mem (h_slab h) m)) 0 4112;
  f ← get_memory_free h;
  Ret (h, f).

Lemma kfree_confused : match confused_session with Ret (h, f) => f = 0 /\ leaked h = 0 | _ => False end.
Proof. vm_compute. split; reflexivity. Qed.

(** The statistics never count a slab object as released. *)
Lemma used_not_decreased :
  match kfree (alloc_demo 100) 0 7976 with Ret h => get_memory_used h = 100 /\ leaked h = 0 | _ => False end.
Proof. vm_compute. split; reflexivity. Qed.
