(* ===== verification/FsBitmap.v ===== *)
(** * Allocation bitmaps

    core/fs/bitmap.c: the bitmaps in which file systems keep their free blocks
    and inodes, as arrays of bytes.  An index outside the array is a fault (the
    C code does not check).  The bitmap as a set of bits, and that the search
    and count loops compute what they say. *)

From S2P Require Import Prelude Bytes BuddyProofs BuddyTheorems.

(** ** Model *)

Definition bit_mask (off : Z) : Z := Z.shiftl 1 off.

Definition bitmap_set (bm : list Z) (bit : Z) : outcome (list Z) :=
  b ← aget bm (bit / 8);
  aset bm (bit / 8) (u8 (Z.lor b (bit_mask (bit mod 8)))).

Definition bitmap_clear (bm : list Z) (bit : Z) : outcome (list Z) :=
  b ← aget bm (bit / 8);
  aset bm (bit / 8) (u8 (Z.land b (Z.lnot (bit_mask (bit mod 8))))).

Definition bitmap_test (bm : list Z) (bit : Z) : outcome bool :=
  b ← aget bm (bit / 8);
  Ret (negb (Z.land b (bit_mask (bit mod 8)) =? 0)).

Definition num_bytes (num_bits : Z) : Z := u64 (num_bits + 7) / 8.

(** The inner loop of a search in byte [i]: [Some r] when the function returns
    [r] from inside. *)
Fixpoint find_in_byte (n : nat) (want : bool) (bm : list Z) (num_bits i j : Z) : outcome (option Z) :=
  match n with
  | O => Ret None
  | S n' =>
      let bit := i * 8 + j in
      if num_bits <=? bit then Ret (Some (-1)) else
      t ← bitmap_test bm bit;
      if Bool.eqb t want then Ret (Some (i32 bit)) else find_in_byte n' want bm num_bits i (j + 1)
  end.

(** The outer loop, [n] bytes left; bytes that consist of bits of the other
    value, [skip], are passed over. *)
Fixpoint find_loop (n : nat) (want : bool) (skip : Z) (bm : list Z) (num_bits i : Z) : outcome Z :=
  match n with
  | O => Ret (-1)
  | S n' =>
      b ← aget bm i;
      if negb (b =? skip) then
        r ← find_in_byte 8 want bm num_bits i 0;
        match r with
        | Some x => Ret x
        | None => find_loop n' want skip bm num_bits (i + 1)
        end
      else find_loop n' want skip bm num_bits (i + 1)
  end.

Definition bitmap_find_first_free (bm : list Z) (num_bits : Z) : outcome Z :=
  find_loop (Z.to_nat (num_bytes num_bits)) false 0xFF bm num_bits 0.

Definition bitmap_find_first_set (bm : list Z) (num_bits : Z) : outcome Z :=
  find_loop (Z.to_nat (num_bytes num_bits)) true 0x00 bm num_bits 0.

(** The bits of one byte that have the wanted value, below [num_bits]. *)
Fixpoint count_in_byte (n : nat) (want : bool) (byte num_bits i j count : Z) : Z :=
  match n with
  | O => count
  | S n' =>
      if num_bits <=? i * 8 + j then count else
      count_in_byte n' want byte num_bits i (j + 1)
        (if Bool.eqb (negb (Z.land byte (bit_mask j) =? 0)) want then u64 (count + 1) else count)
  end.

Fixpoint count_loop (n : nat) (want : bool) (bm : list Z) (num_bits i count : Z) : outcome Z :=
  match n with
  | O => Ret count
  | S n' =>
      b ← aget bm i;
      count_loop n' want bm num_bits (i + 1) (count_in_byte 8 want b num_bits i 0 count)
  end.

Definition bitmap_count_free (bm : list Z) (num_bits : Z) : outcome Z :=
  count_loop (Z.to_nat (num_bytes num_bits)) false bm num_bits 0 0.

Definition bitmap_count_set (bm : list Z) (num_bits : Z) : outcome Z :=
  count_loop (Z.to_nat (num_bytes num_bits)) true bm num_bits 0 0.

(** ** The bitmap as a set of bits *)

Definition bit_of (bm : list Z) (k : Z) : bool := Z.testbit (default 0 (bm !! Z.to_nat (k / 8))) (k mod 8).

Definition bytes_ok (bm : list Z) : Prop := Forall byte_ok bm.

Lemma bit_index (bm : list Z) k : 0 <= k < 8 * len bm -> 0 <= k / 8 < len bm /\ 0 <= k mod 8 < 8.
Proof. intros. Z.div_mod_to_equations. lia. Qed.

Lemma bitmap_test_ok bm k : 0 <= k < 8 * len bm -> bitmap_test bm k = Ret (bit_of bm k).
Proof.
  intros Hk. destruct (bit_index bm k Hk) as [H1 H2]. unfold bitmap_test, bit_of.
  destruct (aget_in_bounds bm (k / 8) H1) as (b & -> & ->). cbn [mbind outcome_bind from_option id].
  unfold bit_mask. by rewrite test_mask by lia.
Qed.

Lemma u8_testbit w n : 0 <= n < 8 -> Z.testbit (u8 w) n = Z.testbit w n.
Proof. intros Hn. unfold u8, wrapu. apply Z.mod_pow2_bits_low. lia. Qed.

(** Changing one bit. *)
Definition set_to (bm bm' : list Z) (k : Z) (v : bool) : Prop :=
  len bm' = len bm /\ bytes_ok bm' /\ forall j, 0 <= j -> bit_of bm' j = if j =? k then v else bit_of bm j.

Lemma update_ok (f : Z -> Z -> Z) v bm k :
  writes_bit f v -> bytes_ok bm -> 0 <= k < 8 * len bm ->
  runs_to (b ← aget bm (k / 8); aset bm (k / 8) (u8 (f b (bit_mask (k mod 8))))) (fun bm' => set_to bm bm' k v).
Proof.
  intros Hf Hb Hk. destruct (bit_index bm k Hk) as [H1 H2].
  destruct (aget_in_bounds bm (k / 8) H1) as (b & -> & Hl). cbn [mbind outcome_bind].
  rewrite aset_in_bounds by done. cbn [runs_to]. split; [apply len_insert|]. split.
  - apply Forall_insert; [done|]. unfold byte_ok. apply u8_range.
  - intros j Hj. unfold bit_of. destruct (Z.eqb_spec j k) as [->|Hne].
    + rewrite list_lookup_insert_eq by (unfold len in *; lia). cbn [from_option id].
      rewrite u8_testbit by done. unfold bit_mask. rewrite Hf by lia. by rewrite Z.eqb_refl.
    + destruct (decide (j / 8 = k / 8)) as [E|E].
      * rewrite E, list_lookup_insert_eq, Hl by (unfold len in *; lia). cbn [from_option id].
        pose proof (Z.mod_pos_bound j 8 ltac:(lia)). rewrite u8_testbit by done. unfold bit_mask. rewrite Hf by lia.
        destruct (Z.eqb_spec (j mod 8) (k mod 8)) as [E'|]; [|done]. exfalso. Z.div_mod_to_equations. lia.
      * rewrite list_lookup_insert_ne; [done|]. intros E'. apply E.
        assert (0 <= j / 8) by (apply Z.div_pos; lia). lia.
Qed.

Lemma bitmap_set_ok bm k :
  bytes_ok bm -> 0 <= k < 8 * len bm -> runs_to (bitmap_set bm k) (fun bm' => set_to bm bm' k true).
Proof. exact (update_ok (fun w mask => Z.lor w mask) true bm k writes_set). Qed.

Lemma bitmap_clear_ok bm k :
  bytes_ok bm -> 0 <= k < 8 * len bm -> runs_to (bitmap_clear bm k) (fun bm' => set_to bm bm' k false).
Proof. exact (update_ok (fun w mask => Z.land w (Z.lnot mask)) false bm k writes_clear). Qed.

(** ** Searching *)

(** No bit in [[lo, hi)] has the value [want]. *)
Definition none_of (bm : list Z) (want : bool) (lo hi : Z) : Prop :=
  forall k, lo <= k < hi -> bit_of bm k <> want.

Lemma none_of_app bm want lo mid hi : none_of bm want lo mid -> none_of bm want mid hi -> none_of bm want lo hi.
Proof. intros H1 H2 k Hk. destruct (Z.lt_ge_cases k mid); [apply H1|apply H2]; lia. Qed.

(** What a search over the bits from [lo] on returns. *)
Definition found (bm : list Z) (want : bool) (num_bits lo r : Z) : Prop :=
  (r = -1 /\ none_of bm want lo num_bits) \/
  (lo <= r < num_bits /\ bit_of bm r = want /\ none_of bm want lo r).

Lemma found_later bm want num_bits lo mid r :
  lo <= mid -> none_of bm want lo mid -> found bm want num_bits mid r -> found bm want num_bits lo r.
Proof.
  intros Hle H [[-> Hn]|(Hr & Hb & Hn)]; [left|right].
  - split; [done|]. by eapply none_of_app.
  - split_and!; [lia|lia|done|]. by eapply none_of_app.
Qed.

Section Search.
Context (want : bool) (skip : Z) (bm : list Z) (num_bits : Z).
Hypothesis Hskip : forall n, 0 <= n < 8 -> Z.testbit skip n = negb want.
Hypothesis Hroom : 0 <= num_bits <= 8 * len bm.
Hypothesis Hint : num_bits <= 2 ^ 31.

Lemma find_in_byte_ok n : forall i j, 0 <= i -> 0 <= j -> Z.of_nat n = 8 - j -> i * 8 + j <= num_bits ->
  runs_to (find_in_byte n want bm num_bits i j) (fun r =>
    match r with
    | Some x => found bm want num_bits (i * 8 + j) x
    | None => none_of bm want (i * 8 + j) (i * 8 + 8) /\ i * 8 + 8 <= num_bits
    end).
Proof.
  induction n as [|n IH]; intros i j Hi Hj Hn Hle; cbn [find_in_byte].
  { cbn [runs_to]. split; [intros k Hk; lia|lia]. }
  destruct (Z.leb_spec num_bits (i * 8 + j)) as [Hge|Hlt].
  { cbn [runs_to]. left. split; [done|]. intros k Hk. lia. }
  rewrite bitmap_test_ok by lia. cbn [mbind outcome_bind].
  destruct (Bool.eqb_spec (bit_of bm (i * 8 + j)) want) as [E|E].
  { cbn [runs_to]. rewrite i32_id by (change (2 ^ 31) with 2147483648 in Hint; lia). right.
    split_and!; [lia|lia|done|]. intros k Hk. lia. }
  assert (H1 : none_of bm want (i * 8 + j) (i * 8 + (j + 1))).
  { intros k Hk. by replace k with (i * 8 + j) by lia. }
  eapply runs_to_mono; [apply IH; lia|]. intros [x|].
  - intros Hf. eapply found_later; [|exact H1|exact Hf]. lia.
  - intros [H2 ?]. split; [|done]. by eapply none_of_app.
Qed.

Lemma skipped_byte i : 0 <= i -> bm !! Z.to_nat i = Some skip -> none_of bm want (i * 8) (i * 8 + 8).
Proof.
  intros Hi Hb k Hk. unfold bit_of. replace (k / 8) with i by (Z.div_mod_to_equations; lia). rewrite Hb.
  cbn [from_option id]. rewrite Hskip by (apply Z.mod_pos_bound; lia). by destruct want.
Qed.

Lemma find_loop_ok n : forall i, 0 <= i -> Z.of_nat n = (num_bits + 7) / 8 - i ->
  runs_to (find_loop n want skip bm num_bits i) (found bm want num_bits (i * 8)).
Proof.
  induction n as [|n IH]; intros i Hi Hn; cbn [find_loop].
  { cbn [runs_to]. left. split; [done|]. intros k Hk. Z.div_mod_to_equations. lia. }
  assert (Hlt : i * 8 < num_bits) by (Z.div_mod_to_equations; lia).
  destruct (aget_in_bounds bm i ltac:(lia)) as (b & -> & Hb). cbn [mbind outcome_bind].
  assert (Hnext : none_of bm want (i * 8) (i * 8 + 8) ->
    runs_to (find_loop n want skip bm num_bits (i + 1)) (found bm want num_bits (i * 8))).
  { intros H. eapply runs_to_mono; [apply IH; lia|]. intros r Hr.
    eapply (found_later _ _ _ _ (i * 8 + 8)); [lia|done|]. by replace ((i + 1) * 8) with (i * 8 + 8) in Hr by lia. }
  destruct (Z.eqb_spec b skip) as [->|Hne]; cbn [negb]; [by apply Hnext, skipped_byte|].
  eapply runs_to_bind; [apply find_in_byte_ok; lia|]. rewrite Z.add_0_r.
  intros [x|] Hx; [exact Hx|]. apply Hnext, Hx.
Qed.
End Search.

Lemma num_bytes_eq num_bits : 0 <= num_bits <= 2 ^ 31 -> num_bytes num_bits = (num_bits + 7) / 8.
Proof. intros H. change (2 ^ 31) with 2147483648 in H. unfold num_bytes. by rewrite u64_id by lia. Qed.

Lemma num_bytes_nat num_bits :
  0 <= num_bits <= 2 ^ 31 -> Z.of_nat (Z.to_nat (num_bytes num_bits)) = (num_bits + 7) / 8 - 0.
Proof. intros H. rewrite num_bytes_eq by done. assert (0 <= (num_bits + 7) / 8) by (apply Z.div_pos; lia). lia. Qed.

Lemma find_first_free_ok bm num_bits :
  0 <= num_bits <= 8 * len bm -> num_bits <= 2 ^ 31 ->
  runs_to (bitmap_find_first_free bm num_bits) (found bm false num_bits 0).
Proof.
  intros H1 H2. apply (find_loop_ok false 0xFF bm num_bits); [|done|done|lia|apply num_bytes_nat; lia].
  intros n Hn. change 0xFF with (Z.ones 8). by apply Z.ones_spec_low.
Qed.

Lemma find_first_set_ok bm num_bits :
  0 <= num_bits <= 8 * len bm -> num_bits <= 2 ^ 31 ->
  runs_to (bitmap_find_first_set bm num_bits) (found bm true num_bits 0).
Proof.
  intros H1 H2. apply (find_loop_ok true 0x00 bm num_bits); [|done|done|lia|apply num_bytes_nat; lia].
  intros n Hn. apply Z.bits_0.
Qed.

(** ** Counting *)

(** The number of bits in [[lo, hi)] with the value [want]. *)
Definition cnt (bm : list Z) (want : bool) (lo hi : Z) : Z :=
  sumZ (fun k => Z.b2z (Bool.eqb (bit_of bm k) want)) (seqZ lo (hi - lo)).

Lemma cnt_split bm want lo mid hi : lo <= mid <= hi -> cnt bm want lo hi = cnt bm want lo mid + cnt bm want mid hi.
Proof.
  intros H. unfold cnt. replace (hi - lo) with ((mid - lo) + (hi - mid)) by lia.
  rewrite seqZ_app by lia. rewrite sumZ_app. by replace (lo + (mid - lo)) with mid by lia.
Qed.

Lemma cnt_empty bm want lo hi : hi <= lo -> cnt bm want lo hi = 0.
Proof. intros H. unfold cnt. by rewrite seqZ_nil by lia. Qed.

Lemma cnt_one bm want k : cnt bm want k (k + 1) = Z.b2z (Bool.eqb (bit_of bm k) want).
Proof.
  unfold cnt. replace (k + 1 - k) with 1 by lia. change (seqZ k 1) with [0 + k]. rewrite sumZ_cons.
  rewrite Z.add_0_l. unfold sumZ. simpl. lia.
Qed.

Lemma cnt_complement bm lo hi : lo <= hi -> cnt bm false lo hi + cnt bm true lo hi = hi - lo.
Proof.
  intros H. unfold cnt. rewrite <- sumZ_plus. rewrite (sumZ_ext _ (fun _ => 1)).
  - rewrite sumZ_const, len_seqZ by lia. lia.
  - intros k _. by destruct (bit_of bm k).
Qed.

Lemma cnt_nonneg bm want lo hi : 0 <= cnt bm want lo hi.
Proof. apply sumZ_nonneg. intros. apply b2z_range. Qed.

Lemma cnt_bound bm want lo hi : lo <= hi -> cnt bm want lo hi <= hi - lo.
Proof.
  intros H. pose proof (cnt_complement bm lo hi H). pose proof (cnt_nonneg bm true lo hi).
  pose proof (cnt_nonneg bm false lo hi). destruct want; lia.
Qed.

Section Counting.
Context (want : bool) (bm : list Z) (num_bits : Z).
Hypothesis Hroom : 0 <= num_bits <= 8 * len bm.
Hypothesis Hsize : num_bits <= 2 ^ 31.

Lemma count_in_byte_ok b i n : forall j count,
  bm !! Z.to_nat i = Some b -> 0 <= i -> 0 <= j -> Z.of_nat n = 8 - j -> 0 <= count <= i * 8 + j ->
  count_in_byte n want b num_bits i j count = count + cnt bm want (i * 8 + j) (Z.min num_bits (i * 8 + 8)).
Proof.
  change (2 ^ 31) with 2147483648 in *.
  induction n as [|n IH]; intros j count Hb Hi Hj Hn Hc; cbn [count_in_byte].
  { rewrite cnt_empty by lia. lia. }
  destruct (Z.leb_spec num_bits (i * 8 + j)) as [Hge|Hlt]; [rewrite cnt_empty by lia; lia|].
  assert (Ebit : negb (Z.land b (bit_mask j) =? 0) = bit_of bm (i * 8 + j)).
  { unfold bit_mask, bit_of. rewrite test_mask by done.
    replace ((i * 8 + j) / 8) with i by (Z.div_mod_to_equations; lia).
    replace ((i * 8 + j) mod 8) with j by (Z.div_mod_to_equations; lia). by rewrite Hb. }
  rewrite Ebit, (cnt_split bm want (i * 8 + j) (i * 8 + j + 1)) by lia. rewrite cnt_one.
  replace (i * 8 + j + 1) with (i * 8 + (j + 1)) by lia.
  rewrite IH; [|done|done|lia|lia|].
  - destruct (Bool.eqb (bit_of bm (i * 8 + j)) want); cbn [Z.b2z]; [rewrite u64_id by lia|]; lia.
  - destruct (Bool.eqb (bit_of bm (i * 8 + j)) want); [rewrite u64_id by lia|]; lia.
Qed.

Lemma count_loop_ok n : forall i count, 0 <= i -> Z.of_nat n = (num_bits + 7) / 8 - i -> 0 <= count <= i * 8 ->
  count_loop n want bm num_bits i count = Ret (count + cnt bm want (i * 8) num_bits).
Proof.
  induction n as [|n IH]; intros i count Hi Hn Hc; cbn [count_loop].
  { rewrite cnt_empty by (Z.div_mod_to_equations; lia). f_equal. lia. }
  assert (Hlt : i * 8 < num_bits) by (Z.div_mod_to_equations; lia).
  destruct (aget_in_bounds bm i ltac:(lia)) as (b & -> & Hb). cbn [mbind outcome_bind].
  rewrite (count_in_byte_ok b i 8 0 count Hb Hi) by lia. rewrite Z.add_0_r.
  set (mid := Z.min num_bits (i * 8 + 8)).
  pose proof (cnt_nonneg bm want (i * 8) mid). pose proof (cnt_bound bm want (i * 8) mid ltac:(lia)).
  rewrite IH by lia. f_equal. rewrite (cnt_split bm want (i * 8) mid num_bits) by lia.
  destruct (Z.le_gt_cases num_bits (i * 8 + 8)).
  - unfold mid. rewrite Z.min_l by lia. rewrite (cnt_empty bm want num_bits num_bits), (cnt_empty bm want ((i + 1) * 8) num_bits) by lia. lia.
  - unfold mid. rewrite Z.min_r by lia. replace ((i + 1) * 8) with (i * 8 + 8) by lia. lia.
Qed.
End Counting.

Lemma count_free_ok bm num_bits :
  0 <= num_bits <= 8 * len bm -> num_bits <= 2 ^ 31 -> bitmap_count_free bm num_bits = Ret (cnt bm false 0 num_bits).
Proof.
  intros H1 H2. unfold bitmap_count_free.
  rewrite (count_loop_ok false bm num_bits H1 H2); [done|lia|apply num_bytes_nat; lia|lia].
Qed.

Lemma count_set_ok bm num_bits :
  0 <= num_bits <= 8 * len bm -> num_bits <= 2 ^ 31 -> bitmap_count_set bm num_bits = Ret (cnt bm true 0 num_bits).
Proof.
  intros H1 H2. unfold bitmap_count_set.
  rewrite (count_loop_ok true bm num_bits H1 H2); [done|lia|apply num_bytes_nat; lia|lia].
Qed.

(** ** One allocation *)

Lemma cnt_ext bm bm' want lo hi :
  (forall k, lo <= k < hi -> bit_of bm' k = bit_of bm k) -> cnt bm' want lo hi = cnt bm want lo hi.
Proof. intros H. apply sumZ_ext. intros k Hk%elem_of_seqZ. rewrite H by lia. done. Qed.

Lemma cnt_set_to bm bm' k n :
  set_to bm bm' k true -> bit_of bm k = false -> 0 <= k < n -> cnt bm' false 0 n = cnt bm false 0 n - 1.
Proof.
  intros (_ & _ & Hb) Hk Hr.
  rewrite !(cnt_split _ false 0 k n) by lia. rewrite !(cnt_split _ false k (k + 1) n) by lia.
  rewrite !cnt_one, (Hb k), Z.eqb_refl, Hk by lia.
  rewrite (cnt_ext bm bm' false 0 k), (cnt_ext bm bm' false (k + 1) n); [cbn; lia|..];
    intros j Hj; rewrite Hb by lia; destruct (Z.eqb_spec j k); [lia|done|lia|done].
Qed.

Lemma none_free_count bm n : 0 <= n -> none_of bm false 0 n -> cnt bm false 0 n = 0.
Proof.
  intros Hn H. unfold cnt. rewrite (sumZ_ext _ (fun _ => 0)).
  - rewrite sumZ_const. lia.
  - intros k Hk%elem_of_seqZ. specialize (H k ltac:(lia)). by destruct (bit_of bm k).
Qed.

(** Allocation from a bitmap.  On a bitmap with room for [num_bits] bits
    (at most 2^31 of them), [bitmap_find_first_free] finishes without a fault; it
    returns -1 exactly when [bitmap_count_free] is 0, and otherwise the least
    clear bit; setting that bit changes no other one, and the number of free
    bits goes down by one and that of set bits up by one. *)
Theorem bitmap_allocates bm num_bits :
  bytes_ok bm -> 0 <= num_bits <= 8 * len bm -> num_bits <= 2 ^ 31 ->
  runs_to (bitmap_find_first_free bm num_bits) (fun r => exists free,
    bitmap_count_free bm num_bits = Ret free /\ bitmap_count_set bm num_bits = Ret (num_bits - free) /\
    ((r = -1 /\ free = 0) \/
     (0 <= r < num_bits /\ 0 < free /\ none_of bm false 0 r /\
      runs_to (bitmap_set bm r) (fun bm' =>
        (forall k, 0 <= k -> bit_of bm' k = if k =? r then true else bit_of bm k) /\
        bitmap_test bm' r = Ret true /\
        bitmap_count_free bm' num_bits = Ret (free - 1) /\
        bitmap_count_set bm' num_bits = Ret (num_bits - free + 1))))).
Proof.
  intros Hb Hr Hi. eapply runs_to_mono; [by apply find_first_free_ok|]. intros r Hf.
  pose proof (cnt_complement bm 0 num_bits ltac:(lia)) as Hc. exists (cnt bm false 0 num_bits).
  rewrite count_free_ok, count_set_ok by done. split; [done|]. split; [f_equal; lia|].
  destruct Hf as [[-> Hn]|(Hrr & Hbit & Hn)]; [left; split; [done|apply none_free_count; [lia|done]]|right].
  split; [done|]. split.
  - rewrite (cnt_split _ false 0 r num_bits), (cnt_split _ false r (r + 1) num_bits), cnt_one, Hbit by lia.
    pose proof (cnt_nonneg bm false 0 r). pose proof (cnt_nonneg bm false (r + 1) num_bits). cbn [Bool.eqb Z.b2z]. lia.
  - split; [done|]. eapply runs_to_mono; [apply bitmap_set_ok; [done|lia]|]. intros bm' Hs. pose proof Hs as (Hl & Hb' & Hbits).
    pose proof (cnt_set_to bm bm' r num_bits Hs Hbit Hrr) as Hcnt.
    pose proof (cnt_complement bm' 0 num_bits ltac:(lia)) as Hc'.
    split; [done|]. split; [rewrite bitmap_test_ok by lia; by rewrite Hbits, Z.eqb_refl by lia|].
    rewrite count_free_ok, count_set_ok by lia. split; f_equal; lia.
Qed.

Lemma bitmap_allocates_witness :
  bitmap_find_first_free [0xFF; 0x05] 12 = Ret 9 /\
  runs_to (bitmap_set [0xFF; 0x05] 9) (fun bm' => bitmap_count_free bm' 12 = Ret 1).
Proof.
  split; [reflexivity|].
  pose proof (bitmap_allocates [0xFF; 0x05] 12) as H.
  destruct H as (free & Hf & _ & Hres).
  - repeat constructor; unfold byte_ok; lia.
  - vm_compute. split; discriminate.
  - vm_compute. discriminate.
  - vm_compute in Hf. injection Hf as <-. destruct Hres as [[H _]|(_ & _ & _ & H)]; [discriminate H|].
    eapply runs_to_mono; [exact H|]. intros bm' (_ & _ & E & _). exact E.
Defined.
