(* ===== verification/InodeCache.v ===== *)
(** * The inode cache

    core/fs/inode.c and include/core/fs/inode.h: 128 reference-counted slots
    that file systems share.  The static array is the state; a pointer to a slot
    is its index, NULL is [None].  The model of each function, and that the
    slots a client holds references to keep their inode. *)

From stdpp Require Import relations.
From S2P Require Import Prelude.

(** ** Model *)

Definition MAX_CACHED_INODES : Z := 128.

Record inode := mkinode {
  ino : Z;
  mode : Z;
  uid : Z;
  gid : Z;
  size : Z;
  atime : Z;
  mtime : Z;
  ctime : Z;
  nlink : Z;
  blocks : Z;
  fs_private : Z;      (** a pointer, 0 is NULL *)
  dirty : bool;
  used : bool;
  ref_count : Z
}.

(** [memset(&inode_cache[i], 0, sizeof(inode_t))] and the assignments after it. *)
Definition fresh_inode (n : Z) : inode := mkinode n 0 0 0 0 0 0 0 0 0 0 false true 1.

Definition set_ref x r :=
  mkinode (ino x) (mode x) (uid x) (gid x) (size x) (atime x) (mtime x) (ctime x) (nlink x) (blocks x)
    (fs_private x) (dirty x) (used x) r.
Definition set_dirty x d :=
  mkinode (ino x) (mode x) (uid x) (gid x) (size x) (atime x) (mtime x) (ctime x) (nlink x) (blocks x)
    (fs_private x) d (used x) (ref_count x).
(** [used = false; fs_private = NULL]. *)
Definition release_slot x :=
  mkinode (ino x) (mode x) (uid x) (gid x) (size x) (atime x) (mtime x) (ctime x) (nlink x) (blocks x)
    0 (dirty x) false (ref_count x).

Definition inode_cache_init (c : list inode) : list inode :=
  map (fun x => set_dirty (set_ref (release_slot x) 0) false) c.

Definition holds (n : Z) (x : inode) : bool := used x && (ino x =? n).

Definition inode_cache_get (c : list inode) (n : Z) : outcome (list inode * option Z) :=
  match first_index (holds n) c with
  | None => Ret (c, None)
  | Some i =>
      x ← aget c i;
      c ← aset c i (set_ref x (u32 (ref_count x + 1)));
      Ret (c, Some i)
  end.

Definition inode_cache_alloc (c : list inode) (n : Z) : outcome (list inode * option Z) :=
  '(c, existing) ← inode_cache_get c n;
  match existing with
  | Some i => Ret (c, Some i)
  | None =>
      match first_index (fun x => negb (used x)) c with
      | Some i => c ← aset c i (fresh_inode n); Ret (c, Some i)
      | None =>
          match first_index (fun x => ref_count x =? 0) c with
          | Some i => c ← aset c i (fresh_inode n); Ret (c, Some i)
          | None => Ret (c, None)
          end
      end
  end.

Definition inode_cache_put (c : list inode) (p : option Z) : outcome (list inode) :=
  match p with
  | None => Ret c
  | Some i =>
      x ← aget c i;
      if 0 <? ref_count x then aset c i (set_ref x (ref_count x - 1)) else Ret c
  end.

Definition inode_cache_sync (c : list inode) : list inode :=
  map (fun x => if used x && dirty x then set_dirty x false else x) c.

Definition inode_cache_evict (c : list inode) (n : Z) : outcome (list inode * Z) :=
  match first_index (holds n) c with
  | None => Ret (c, -1)
  | Some i =>
      x ← aget c i;
      if 0 <? ref_count x then Ret (c, -1) else
      c ← aset c i (release_slot x);
      Ret (c, 0)
  end.

(** ** References held *)

(** A reference: the slot and the inode number it was asked for. *)
Abbreviation reference := (Z * Z)%type.

(** The number of references to slot [i]. *)
Definition refs (H : list reference) (i : Z) : Z := sumZ (fun r => Z.b2z (r.1 =? i)) H.

Record cache_inv (c : list inode) (H : list reference) : Prop := {
  ci_len : len c = MAX_CACHED_INODES;
  ci_refs : forall i x, c !! Z.to_nat i = Some x -> 0 <= i -> ref_count x = refs H i;
  ci_held : forall i n, (i, n) ∈ H -> 0 <= i /\ exists x, c !! Z.to_nat i = Some x /\ used x = true /\ ino x = n;
  ci_unique : forall i j x y, c !! i = Some x -> c !! j = Some y -> used x = true -> used y = true ->
    ino x = ino y -> i = j
}.

Lemma refs_cons H r i : refs (r :: H) i = Z.b2z (r.1 =? i) + refs H i.
Proof. unfold refs. by rewrite sumZ_cons. Qed.

Lemma refs_range H i : 0 <= refs H i <= len H.
Proof.
  unfold len. induction H as [|r H IH]; [done|]. rewrite refs_cons. simpl length.
  assert (0 <= Z.b2z (r.1 =? i) <= 1) by (destruct (r.1 =? i); simpl; lia). lia.
Qed.

Lemma refs_pos H i : 0 < refs H i -> exists n, (i, n) ∈ H.
Proof.
  induction H as [|[j n] H IH]; [done|]. rewrite refs_cons. cbn [fst].
  destruct (Z.eqb_spec j i) as [->|]; [intros _; exists n; left|]. cbn [Z.b2z]. intros Hp.
  destruct IH as [n' Hn]; [lia|]. exists n'. by right.
Qed.

(** A slot without references can take any contents that keep the numbers of
    used slots distinct. *)
Lemma replace_free c H i x x' :
  cache_inv c H -> 0 <= i -> c !! Z.to_nat i = Some x -> ref_count x = 0 -> ref_count x' = 0 ->
  (used x' = true -> forall j y, j <> Z.to_nat i -> c !! j = Some y -> used y = true -> ino y <> ino x') ->
  cache_inv (<[Z.to_nat i := x']> c) H.
Proof.
  intros [Hl Hr Hh Hu] Hi Hx H0 H0' Hnew. pose proof (lookup_lt_Some _ _ _ Hx) as Hlt. constructor.
  - by rewrite len_insert.
  - intros j y Hy Hj. destruct (decide (j = i)) as [->|Hne].
    + rewrite list_lookup_insert_eq in Hy by done. simplify_eq. by rewrite H0', <- H0, (Hr i x).
    + rewrite list_lookup_insert_ne in Hy by lia. by apply Hr.
  - intros j n Hj. destruct (Hh j n Hj) as (Hj0 & y & Hy & ?). split; [done|]. exists y.
    rewrite list_lookup_insert_ne; [done|]. intros E. assert (j = i) as -> by lia.
    assert (1 <= refs H i); [|rewrite <- (Hr i x) in *; [lia|done|done]].
    clear -Hj. induction H as [|r H IH]; [by apply elem_of_nil in Hj|]. rewrite refs_cons. pose proof (refs_range H i).
    apply elem_of_cons in Hj as [<-|Hj]; [cbn [fst]; rewrite Z.eqb_refl; simpl; lia|].
    specialize (IH Hj). destruct (r.1 =? i); simpl; lia.
  - intros j k y z Hy Hz Uy Uz E. destruct (decide (j = Z.to_nat i)) as [->|Hj], (decide (k = Z.to_nat i)) as [->|Hk]; [done|..].
    + rewrite list_lookup_insert_eq in Hy by done. rewrite list_lookup_insert_ne in Hz by done. simplify_eq.
      by destruct (Hnew Uy k z Hk Hz Uz).
    + rewrite list_lookup_insert_eq in Hz by done. rewrite list_lookup_insert_ne in Hy by done. simplify_eq.
      by destruct (Hnew Uz j y Hj Hy Uy).
    + rewrite list_lookup_insert_ne in Hy, Hz by done. by apply (Hu j k y z).
Qed.

(** Changing the reference count of a slot along with the references. *)
Lemma change_refs c H H' i x x' :
  cache_inv c H -> 0 <= i -> c !! Z.to_nat i = Some x -> used x' = used x -> ino x' = ino x ->
  ref_count x' = refs H' i -> (forall j, j <> i -> refs H' j = refs H j) ->
  (forall r, r ∈ H' -> r ∈ H \/ r = (i, ino x) /\ used x = true) -> cache_inv (<[Z.to_nat i := x']> c) H'.
Proof.
  intros [Hl Hr Hh Hu] Hi Hx Eu En Er Hother Hsub. pose proof (lookup_lt_Some _ _ _ Hx) as Hlt.
  assert (Hlook : forall j y, <[Z.to_nat i := x']> c !! j = Some y -> exists y0, c !! j = Some y0 /\ used y = used y0 /\ ino y = ino y0).
  { intros j y Hy. destruct (decide (j = Z.to_nat i)) as [->|Hne].
    - rewrite list_lookup_insert_eq in Hy by done. simplify_eq. by exists x.
    - rewrite list_lookup_insert_ne in Hy by done. by exists y. }
  constructor.
  - by rewrite len_insert.
  - intros j y Hy Hj. destruct (decide (j = i)) as [->|Hne].
    + rewrite list_lookup_insert_eq in Hy by done. by simplify_eq.
    + rewrite list_lookup_insert_ne in Hy by lia. rewrite Hother by done. by apply Hr.
  - intros j n Hj. assert (Hold : 0 <= j /\ exists y, c !! Z.to_nat j = Some y /\ used y = true /\ ino y = n).
    { destruct (Hsub _ Hj) as [?|[E ?]]; [by apply Hh|]. simplify_eq. split; [done|]. by exists x. }
    destruct Hold as (Hj0 & y & Hy & Uy & Ey). split; [done|]. destruct (decide (j = i)) as [->|Hne].
    + exists x'. rewrite list_lookup_insert_eq by done. simplify_eq. by rewrite Eu, En.
    + exists y. by rewrite list_lookup_insert_ne by lia.
  - intros j k y z Hy Hz Uy Uz E. destruct (Hlook j y Hy) as (y0 & Hy0 & Ey & Ey'), (Hlook k z Hz) as (z0 & Hz0 & Ez & Ez').
    apply (Hu j k y0 z0); congruence.
Qed.

(** ** The operations *)

Definition cached (c : list inode) (n : Z) : Prop := exists x, x ∈ c /\ used x = true /\ ino x = n.

Lemma holds_spec n x : holds n x = true <-> used x = true /\ ino x = n.
Proof. unfold holds. by rewrite andb_true_iff, Z.eqb_eq. Qed.

Lemma not_found c n : first_index (holds n) c = None -> ~ cached c n.
Proof.
  intros H (x & Hx & Hu & Hn). apply first_index_from_None in H. eapply Forall_forall in H; [|exact Hx].
  assert (holds n x = true) by (by apply holds_spec). congruence.
Qed.

(** The outcome of a search: the slot and what is in it. *)
Lemma found_slot f (c : list inode) i :
  first_index f c = Some i -> 0 <= i < len c /\ exists x, aget c i = Ret x /\ c !! Z.to_nat i = Some x /\ f x = true.
Proof.
  intros (Hi & x & Hx & Hf & _)%first_index_Some. split; [done|]. exists x. split_and!; [|done|done].
  by apply aget_lookup; [lia|].
Qed.

Lemma get_ok c H n :
  cache_inv c H -> len H + 1 < 2 ^ 32 ->
  runs_to (inode_cache_get c n) (fun '(c', r) =>
    match r with
    | Some i => cache_inv c' ((i, n) :: H) /\ cached c n
    | None => c' = c /\ ~ cached c n
    end).
Proof.
  intros Hc Hb. unfold inode_cache_get. destruct (first_index (holds n) c) as [i|] eqn:E; [|split; [done|by apply not_found]].
  destruct (found_slot _ _ _ E) as (Hi & x & -> & Hx & [Hu Hn]%holds_spec). cbn [mbind outcome_bind].
  rewrite aset_in_bounds by done. cbn [mbind outcome_bind runs_to].
  pose proof (refs_range H i). rewrite (ci_refs _ _ Hc i x Hx) by lia.
  rewrite u32_id by (change (2 ^ 32) with 4294967296 in Hb; lia). split.
  - apply (change_refs c H ((i, n) :: H) i x); try done; try lia.
    + cbn [ref_count set_ref]. rewrite refs_cons. cbn [fst]. rewrite Z.eqb_refl. simpl. lia.
    + intros j Hj. rewrite refs_cons. cbn [fst]. by rewrite (proj2 (Z.eqb_neq i j)) by done.
    + intros r [->|?]%elem_of_cons; [right; by rewrite Hn|by left].
  - exists x. split; [by eapply list_elem_of_lookup_2|done].
Qed.

(** A slot without references is given to inode [n]. *)
Lemma install c H n i x :
  cache_inv c H -> ~ cached c n -> 0 <= i < len c -> c !! Z.to_nat i = Some x -> ref_count x = 0 ->
  cache_inv (<[Z.to_nat i := fresh_inode n]> c) ((i, n) :: H).
Proof.
  intros Hc Hn Hi Hx H0. pose proof (ci_refs _ _ Hc i x Hx ltac:(lia)) as Hr.
  assert (H1 : cache_inv (<[Z.to_nat i := set_ref (fresh_inode n) 0]> c) H).
  { apply (replace_free c H i x); try done; try lia. intros _ j y Hj Hy Uy E. apply Hn. exists y.
    split; [by eapply list_elem_of_lookup_2|done]. }
  rewrite <- (list_insert_insert_eq c (Z.to_nat i) (fresh_inode n) (set_ref (fresh_inode n) 0)).
  apply (change_refs _ H ((i, n) :: H) i (set_ref (fresh_inode n) 0)); try done; try lia.
  - apply list_lookup_insert_eq. unfold len in Hi. lia.
  - rewrite refs_cons. cbn [fst]. rewrite Z.eqb_refl, <- Hr, H0. done.
  - intros j Hj. rewrite refs_cons. cbn [fst]. by rewrite (proj2 (Z.eqb_neq i j)) by done.
  - intros r [->|?]%elem_of_cons; [by right|by left].
Qed.

Lemma unused_no_refs c H i x :
  cache_inv c H -> 0 <= i -> c !! Z.to_nat i = Some x -> used x = false -> ref_count x = 0.
Proof.
  intros Hc Hi Hx Hu. rewrite (ci_refs _ _ Hc i x Hx Hi). pose proof (refs_range H i).
  destruct (Z.eq_dec (refs H i) 0) as [|Hne]; [done|]. destruct (refs_pos H i ltac:(lia)) as [n Hn].
  destruct (ci_held _ _ Hc i n Hn) as (_ & y & Hy & Uy & _). congruence.
Qed.

Lemma alloc_ok c H n :
  cache_inv c H -> len H + 1 < 2 ^ 32 ->
  runs_to (inode_cache_alloc c n) (fun '(c', r) =>
    match r with
    | Some i => cache_inv c' ((i, n) :: H)
    | None => c' = c /\ ~ cached c n /\ Forall (fun x => used x = true /\ 0 < ref_count x) c
    end).
Proof.
  intros Hc Hb. unfold inode_cache_alloc. eapply runs_to_bind; [by apply get_ok|]. intros [c1 [i|]]; [by intros [? _]|].
  intros [-> Hn]. destruct (first_index (fun x => negb (used x)) c) as [i|] eqn:E1.
  { destruct (found_slot _ _ _ E1) as (Hi & x & _ & Hx & Hu%negb_true_iff).
    rewrite aset_in_bounds by done. cbn [mbind outcome_bind runs_to].
    apply (install c H n i x); try done. apply (unused_no_refs c H i x Hc ltac:(lia) Hx Hu). }
  destruct (first_index (fun x => ref_count x =? 0) c) as [i|] eqn:E2.
  { destruct (found_slot _ _ _ E2) as (Hi & x & _ & Hx & Hr%Z.eqb_eq).
    rewrite aset_in_bounds by done. cbn [mbind outcome_bind runs_to]. by apply (install c H n i x). }
  cbn [runs_to]. split_and!; [done|done|]. apply first_index_from_None in E1, E2.
  apply Forall_forall. intros x Hx. eapply Forall_forall in E1; [|exact Hx]. eapply Forall_forall in E2; [|exact Hx].
  apply negb_false_iff in E1. apply Z.eqb_neq in E2. split; [done|].
  apply list_elem_of_lookup in Hx as [i Hx]. pose proof (ci_refs _ _ Hc (Z.of_nat i) x ltac:(by rewrite Nat2Z.id) ltac:(lia)) as Hr.
  pose proof (refs_range H (Z.of_nat i)). lia.
Qed.

Lemma refs_app H1 H2 i : refs (H1 ++ H2) i = refs H1 i + refs H2 i.
Proof. apply sumZ_app. Qed.

Lemma put_ok c H1 i n H2 :
  cache_inv c (H1 ++ (i, n) :: H2) -> runs_to (inode_cache_put c (Some i)) (fun c' => cache_inv c' (H1 ++ H2)).
Proof.
  intros Hc. destruct (ci_held _ _ Hc i n ltac:(set_solver)) as (Hi & x & Hx & Hu & Hn).
  cbn [inode_cache_put]. rewrite (aget_lookup _ _ _ Hi Hx). cbn [mbind outcome_bind].
  pose proof (ci_refs _ _ Hc i x Hx Hi) as Hr. rewrite refs_app, refs_cons in Hr. cbn [fst] in Hr. rewrite Z.eqb_refl in Hr.
  pose proof (refs_range H1 i). pose proof (refs_range H2 i). simpl in Hr. destruct (Z.ltb_spec 0 (ref_count x)); [|lia].
  rewrite aset_in_bounds by (apply lookup_lt_Some in Hx; unfold len; lia). cbn [runs_to].
  apply (change_refs c (H1 ++ (i, n) :: H2) (H1 ++ H2) i x); try done.
  - cbn [ref_count set_ref]. rewrite refs_app. lia.
  - intros j Hj. rewrite !refs_app, refs_cons. cbn [fst]. by rewrite (proj2 (Z.eqb_neq i j)) by done.
  - intros r Hr'. left. set_solver.
Qed.

Lemma evict_ok c H n :
  cache_inv c H -> runs_to (inode_cache_evict c n) (fun '(c', r) => cache_inv c' H /\ (r = 0 -> ~ cached c' n) /\ (r <> 0 -> c' = c)).
Proof.
  intros Hc. unfold inode_cache_evict. destruct (first_index (holds n) c) as [i|] eqn:E; [|done].
  destruct (found_slot _ _ _ E) as (Hi & x & -> & Hx & [Hu Hn]%holds_spec). cbn [mbind outcome_bind].
  destruct (Z.ltb_spec 0 (ref_count x)); [done|]. rewrite aset_in_bounds by done. cbn [mbind outcome_bind runs_to].
  pose proof (ci_refs _ _ Hc i x Hx ltac:(lia)). pose proof (refs_range H i).
  split; [|split; [|done]].
  - apply (replace_free c H i x); try done; cbn [ref_count release_slot]; lia.
  - intros _ (y & Hy & Uy & Ey). apply list_elem_of_lookup in Hy as [j Hy].
    destruct (decide (j = Z.to_nat i)) as [->|Hne].
    + rewrite list_lookup_insert_eq in Hy by (unfold len in Hi; lia). by simplify_eq.
    + rewrite list_lookup_insert_ne in Hy by done. apply Hne. apply (ci_unique _ _ Hc j _ y x); congruence.
Qed.

(** Any change of other fields. *)
Lemma same_key_map c H (f : inode -> inode) :
  (forall x, used (f x) = used x /\ ino (f x) = ino x /\ ref_count (f x) = ref_count x) ->
  cache_inv c H -> cache_inv (map f c) H.
Proof.
  intros Hf [Hl Hr Hh Hu]. change (map f c) with (f <$> c).
  assert (Hlook : forall i y, (f <$> c) !! i = Some y -> exists x, c !! i = Some x /\ y = f x).
  { intros i y. rewrite list_lookup_fmap. destruct (c !! i) as [x|]; [|done]. intros [= <-]. eauto. }
  constructor.
  - unfold len in *. by rewrite length_fmap.
  - intros i y Hy Hi. destruct (Hlook _ _ Hy) as (x & Hx & ->). destruct (Hf x) as (_ & _ & ->). by apply Hr.
  - intros i n Hin. destruct (Hh i n Hin) as (Hi & x & Hx & Ux & Ex). split; [done|]. exists (f x).
    rewrite list_lookup_fmap, Hx. destruct (Hf x) as (-> & -> & _). done.
  - intros i j y z Hy Hz. destruct (Hlook _ _ Hy) as (x & Hx & ->), (Hlook _ _ Hz) as (x' & Hx' & ->).
    destruct (Hf x) as (-> & -> & _), (Hf x') as (-> & -> & _). by apply Hu.
Qed.

(** ** Clients *)

(** File systems that take references, give back references they hold, change
    other fields of inodes they hold, and synchronise or evict at any time. *)
Inductive cache_step : list inode * list reference -> list inode * list reference -> Prop :=
| step_get c H n c' i : len H + 1 < 2 ^ 32 -> inode_cache_get c n = Ret (c', Some i) -> cache_step (c, H) (c', (i, n) :: H)
| step_get_null c H n c' : len H + 1 < 2 ^ 32 -> inode_cache_get c n = Ret (c', None) -> cache_step (c, H) (c', H)
| step_alloc c H n c' i : len H + 1 < 2 ^ 32 -> inode_cache_alloc c n = Ret (c', Some i) -> cache_step (c, H) (c', (i, n) :: H)
| step_alloc_null c H n c' : len H + 1 < 2 ^ 32 -> inode_cache_alloc c n = Ret (c', None) -> cache_step (c, H) (c', H)
| step_put c H1 i n H2 c' : inode_cache_put c (Some i) = Ret c' -> cache_step (c, H1 ++ (i, n) :: H2) (c', H1 ++ H2)
| step_sync c H : cache_step (c, H) (inode_cache_sync c, H)
| step_evict c H n c' r : inode_cache_evict c n = Ret (c', r) -> cache_step (c, H) (c', H)
| step_edit c H i n x x' : (i, n) ∈ H -> c !! Z.to_nat i = Some x -> used x' = used x -> ino x' = ino x ->
    ref_count x' = ref_count x -> cache_step (c, H) (<[Z.to_nat i := x']> c, H).

Lemma cache_step_inv c H c' H' : cache_inv c H -> cache_step (c, H) (c', H') -> cache_inv c' H'.
Proof.
  intros Hc Hstep.
  inversion Hstep as [? ? n ? i Hb Hrun|? ? n ? Hb Hrun|? ? n ? i Hb Hrun|? ? n ? Hb Hrun|? H1 i n H2 ? Hrun|?|? ? n ? r Hrun|? ? i n x x' Hin Hx Eu En Er]; subst.
  - pose proof (get_ok c H n Hc Hb) as Hok. rewrite Hrun in Hok. apply Hok.
  - pose proof (get_ok c H' n Hc Hb) as Hok. rewrite Hrun in Hok. by destruct Hok as [-> _].
  - pose proof (alloc_ok c H n Hc Hb) as Hok. by rewrite Hrun in Hok.
  - pose proof (alloc_ok c H' n Hc Hb) as Hok. rewrite Hrun in Hok. by destruct Hok as [-> _].
  - pose proof (put_ok c H1 i n H2 Hc) as Hok. by rewrite Hrun in Hok.
  - apply same_key_map; [|done]. intros x. by destruct (used x && dirty x).
  - pose proof (evict_ok c H' n Hc) as Hok. rewrite Hrun in Hok. apply Hok.
  - destruct (ci_held _ _ Hc i n Hin) as (Hi & _). apply (change_refs c H' H' i x); try done.
    + by rewrite Er, (ci_refs _ _ Hc i x).
    + intros r Hr. by left.
Qed.

Lemma cache_reach_inv x y : rtc cache_step x y -> cache_inv x.1 x.2 -> cache_inv y.1 y.2.
Proof.
  induction 1 as [|[c1 H1] [c2 H2] y Hst _ IH]; [done|]. intros H. apply IH. by eapply cache_step_inv.
Qed.

Lemma init_inv c : len c = MAX_CACHED_INODES -> cache_inv (inode_cache_init c) [].
Proof.
  intros Hl. unfold inode_cache_init. set (f := fun x => _).
  assert (Hlook : forall i y, map f c !! i = Some y -> used y = false /\ ref_count y = 0).
  { intros i y. change (map f c) with (f <$> c). rewrite list_lookup_fmap. destruct (c !! i); [|done]. by intros [= <-]. }
  constructor.
  - unfold len in *. by rewrite length_map.
  - intros i x Hx _. by apply (Hlook _ _ Hx).
  - by intros i n ?%elem_of_nil.
  - intros i j x y Hx Hy Hu. destruct (Hlook _ _ Hx). congruence.
Qed.

(** References pin inodes.  After initialisation, along any sequence of
    look-ups, allocations, releases of held references, synchronisations,
    evictions and edits of other fields (fewer than 2^32 references at a time):
    no two slots in use have the same inode number; every held reference
    points to a slot that is in use, still has the inode number it was taken
    for, and counts the references held to it; an allocation finishes, and
    returns NULL only when the inode is not cached and every slot is in use and
    referenced; releasing a held reference finishes. *)
Theorem inode_references_pin c0 c H :
  len c0 = MAX_CACHED_INODES -> rtc cache_step (inode_cache_init c0, []) (c, H) ->
  (forall i j x y, c !! i = Some x -> c !! j = Some y -> used x = true -> used y = true -> ino x = ino y -> i = j) /\
  (forall i n, (i, n) ∈ H -> exists x, c !! Z.to_nat i = Some x /\ used x = true /\ ino x = n /\
     ref_count x = refs H i /\ 0 < ref_count x) /\
  (forall n, len H + 1 < 2 ^ 32 -> exists c' r, inode_cache_alloc c n = Ret (c', r) /\
     match r with
     | Some i => cache_inv c' ((i, n) :: H)
     | None => c' = c /\ ~ cached c n /\ Forall (fun x => used x = true /\ 0 < ref_count x) c
     end) /\
  (forall i n, (i, n) ∈ H -> exists c', inode_cache_put c (Some i) = Ret c').
Proof.
  intros Hl Hrtc. pose proof (cache_reach_inv _ _ Hrtc (init_inv c0 Hl)) as Hc. cbn [fst snd] in Hc. split_and!.
  - apply Hc.
  - intros i n Hin. destruct (ci_held _ _ Hc i n Hin) as (Hi & x & Hx & Hu & Hn). exists x.
    pose proof (ci_refs _ _ Hc i x Hx Hi) as Hr. split_and!; try done. rewrite Hr.
    apply list_elem_of_split in Hin as (H1 & H2 & ->). rewrite refs_app, refs_cons. cbn [fst]. rewrite Z.eqb_refl.
    pose proof (refs_range H1 i). pose proof (refs_range H2 i). simpl. lia.
  - intros n Hb. pose proof (alloc_ok c H n Hc Hb) as Hok. apply runs_to_inv in Hok as ([c' r] & -> & Hok). eauto.
  - intros i n Hin. apply list_elem_of_split in Hin as (H1 & H2 & ->).
    pose proof (put_ok c H1 i n H2 Hc) as Hok. apply runs_to_inv in Hok as (c' & -> & _). eauto.
Qed.

(** ** Witness *)

Definition blank_inode : inode := mkinode 0 0 0 0 0 0 0 0 0 0 0 false false 0.
Definition blank_cache : list inode := replicate 128 blank_inode.

Definition demo_cache : list inode := <[0%nat := fresh_inode 7]> (inode_cache_init blank_cache).

Lemma inode_references_pin_witness :
  rtc cache_step (inode_cache_init blank_cache, []) (demo_cache, [(0, 7)]) /\
  exists x, demo_cache !! 0%nat = Some x /\ ino x = 7 /\ ref_count x = 1.
Proof.
  assert (Hr : rtc cache_step (inode_cache_init blank_cache, []) (demo_cache, [(0, 7)])).
  { eapply rtc_l; [|apply rtc_refl]. apply (step_alloc _ _ 7); [vm_compute; reflexivity|vm_compute; reflexivity]. }
  split; [exact Hr|].
  destruct (inode_references_pin blank_cache demo_cache [(0, 7)]) as (_ & Hp & _).
  - reflexivity.
  - exact Hr.
  - destruct (Hp 0 7 ltac:(left)) as (x & Hx & _ & Hn & Href & _). exists x. split; [exact Hx|]. split; [exact Hn|].
    rewrite Href. reflexivity.
Defined.

(** ** Dirty inodes

    Eviction does not write back: in a full cache, a dirty inode without
    references is overwritten by the next allocation. *)

Definition full_cache : list inode :=
  map (fun i => if i =? 0 then set_dirty (set_ref (fresh_inode 1000) 0) true else fresh_inode (1000 + i)) (seqZ 0 128).

Lemma dirty_inode_lost :
  exists c', inode_cache_alloc full_cache 7 = Ret (c', Some 0) /\ c' !! 0%nat = Some (fresh_inode 7).
Proof. eexists. split; vm_compute; reflexivity. Qed.
