(* ===== verification/Ext2.v ===== *)
(** * The ext2 driver: model

    core/fs/ext2.c and include/core/fs/ext2.h.  The driver works on one block
    device through the monad [io] of BlockDev.v.  The packed structures that are
    copied between disk and memory (superblock, group descriptors, inodes,
    directory entries) are the lists of their bytes, their fields are read and
    written at the offsets of the structure.  [ext2_fs] is changed by
    allocation; the functions that change it return it, with the result as a
    value, also when the result is an error.  NULL checks of arguments that the
    VFS never passes as NULL and log output are left out. *)

From S2P Require Import Prelude Bytes Vfs BlockDev FsBitmap Kstd.

Open Scope io_scope.

(** ** Constants *)

Definition EXT2_MAGIC : Z := 0xEF53.
Definition EXT2_DYNAMIC_REV : Z := 1.
Definition EXT2_GOOD_OLD_FIRST_INO : Z := 11.
Definition EXT2_GOOD_OLD_INODE_SIZE : Z := 128.
Definition EXT2_S_IFMT : Z := 0xF000.
Definition EXT2_S_IFREG : Z := 0x8000.
Definition EXT2_S_IFDIR : Z := 0x4000.
Definition EXT2_FT_REG_FILE : Z := 1.
Definition EXT2_FT_DIR : Z := 2.
Definition EXT2_ROOT_INO : Z := 2.
Definition EXT2_NDIR_BLOCKS : Z := 12.
Definition EXT2_IND_BLOCK : Z := 12.
Definition EXT2_DIND_BLOCK : Z := 13.
Definition EXT2_TIND_BLOCK : Z := 14.
Definition VFS_MNT_READONLY : Z := 0x01.
Definition SB_SIZE : Z := 1024.         (** sizeof(ext2_superblock_t) *)
Definition BGD_SIZE : Z := 32.          (** sizeof(ext2_bgd_t) *)
Definition INODE_SIZE : Z := 128.       (** sizeof(ext2_inode_t) *)
Definition EXT2_FS_SIZE : Z := 1080.    (** sizeof(ext2_fs_t) *)
Definition EXT2_HANDLE_SIZE : Z := 136. (** sizeof(ext2_file_handle_t) *)

(** ** Fields of structures *)

Definition field16 (s : list Z) (off : Z) : Z := le_value (slice s off 2).
Definition field32 (s : list Z) (off : Z) : Z := le_value (slice s off 4).
Definition set_field16 (s : list Z) (off v : Z) : list Z := splice s off (le_bytes 2 v).
Definition set_field32 (s : list Z) (off v : Z) : list Z := splice s off (le_bytes 4 v).

(** ext2_superblock_t. *)
Definition s_blocks_count (sb : list Z) : Z := field32 sb 4.
Definition s_free_blocks_count (sb : list Z) : Z := field32 sb 12.
Definition s_free_inodes_count (sb : list Z) : Z := field32 sb 16.
Definition s_first_data_block (sb : list Z) : Z := field32 sb 20.
Definition s_log_block_size (sb : list Z) : Z := field32 sb 24.
Definition s_blocks_per_group (sb : list Z) : Z := field32 sb 32.
Definition s_inodes_per_group (sb : list Z) : Z := field32 sb 40.
Definition s_magic (sb : list Z) : Z := field16 sb 56.
Definition s_rev_level (sb : list Z) : Z := field32 sb 76.
Definition s_first_ino (sb : list Z) : Z := field32 sb 84.
Definition s_inode_size (sb : list Z) : Z := field16 sb 88.

(** ext2_inode_t. *)
Definition i_mode (inode : list Z) : Z := field16 inode 0.
Definition i_size (inode : list Z) : Z := field32 inode 4.
Definition i_mtime (inode : list Z) : Z := field32 inode 16.
Definition i_blocks (inode : list Z) : Z := field32 inode 28.
Definition i_block (inode : list Z) (k : Z) : Z := field32 inode (40 + 4 * k).
Definition set_i_size (inode : list Z) (v : Z) : list Z := set_field32 inode 4 v.
Definition set_i_blocks (inode : list Z) (v : Z) : list Z := set_field32 inode 28 v.
Definition set_i_block (inode : list Z) (k v : Z) : list Z := set_field32 inode (40 + 4 * k) v.

Definition EXT2_ISDIR (m : Z) : bool := Z.land m EXT2_S_IFMT =? EXT2_S_IFDIR.

Record ext2_fs := mkext2 {
  block_dev : Z;
  sb : list Z;
  block_size : Z;              (** uint32_t, as the fields below *)
  sectors_per_block : Z;
  inodes_per_group : Z;
  blocks_per_group : Z;
  num_groups : Z;
  inode_size : Z;
  first_ino : Z;
  bgdt : list Z;               (** the array of group descriptors *)
  bgdt_ptr : Z;                (** its address *)
  read_only : bool
}.

Definition set_sb fs v :=
  mkext2 (block_dev fs) v (block_size fs) (sectors_per_block fs) (inodes_per_group fs) (blocks_per_group fs)
    (num_groups fs) (inode_size fs) (first_ino fs) (bgdt fs) (bgdt_ptr fs) (read_only fs).
Definition set_bgdt fs v :=
  mkext2 (block_dev fs) (sb fs) (block_size fs) (sectors_per_block fs) (inodes_per_group fs) (blocks_per_group fs)
    (num_groups fs) (inode_size fs) (first_ino fs) v (bgdt_ptr fs) (read_only fs).

Record ext2_file_handle := mkhandle2 {
  fh_ino : Z;
  fh_inode : list Z;
  fh_file_size : Z
}.

(** [fs->bgdt[group].field], the array being of [num_groups] descriptors unless
    its size has overflowed. *)
Definition bg_block_bitmap fs (group : Z) : outcome Z := get32 (bgdt fs) (BGD_SIZE * group).
Definition bg_inode_bitmap fs (group : Z) : outcome Z := get32 (bgdt fs) (BGD_SIZE * group + 4).
Definition bg_inode_table fs (group : Z) : outcome Z := get32 (bgdt fs) (BGD_SIZE * group + 8).
Definition bg_free_blocks_count fs (group : Z) : outcome Z := get16 (bgdt fs) (BGD_SIZE * group + 12).
Definition bg_free_inodes_count fs (group : Z) : outcome Z := get16 (bgdt fs) (BGD_SIZE * group + 14).

(** Adds [dx] to the two counters of free blocks, or of free inodes, at the
    offsets [o] of the descriptor and [so] of the superblock. *)
Definition add_free fs (group o so dx : Z) : outcome ext2_fs :=
  n ← get16 (bgdt fs) (BGD_SIZE * group + o);
  b ← put16 (bgdt fs) (BGD_SIZE * group + o) (u16 (n + dx));
  let fs := set_bgdt fs b in
  Ret (set_sb fs (set_field32 (sb fs) so (u32 (field32 (sb fs) so + dx)))).

Definition add_free_blocks fs (group dx : Z) : outcome ext2_fs := add_free fs group 12 12 dx.
Definition add_free_inodes fs (group dx : Z) : outcome ext2_fs := add_free fs group 14 16 dx.

Section Ext2.
Context {W : Type} `{FW : FsWorld W}.
Implicit Types (fs : ext2_fs) (inode : list Z).

(** A failure of [m] makes the function return [d]. *)
Definition or_return {A} (d : A) (m : io W A) : io W A :=
  r ⇐ attempt m;
  match r with Ok a => ok a | Err _ => ok d end.

(** A failure of [m] makes the function return [-e] whatever the code. *)
Definition or_fail {A} (e : Z) (m : io W A) : io W A :=
  r ⇐ attempt m;
  match r with Ok a => ok a | Err _ => err (- e) end.

(** ** Blocks *)

Definition ext2_read_block fs (block : Z) (buf : list Z) : io W (list Z) :=
  read_blocks (block_dev fs) (u64 (block * sectors_per_block fs)) (sectors_per_block fs) buf.

Definition ext2_write_block fs (block : Z) (buf : list Z) : io W unit :=
  write_blocks (block_dev fs) (u64 (block * sectors_per_block fs)) (sectors_per_block fs) buf.

Definition ext2_write_superblock fs : io W unit :=
  with_buffer (block_size fs) (- ENOMEM) (fun blk =>
    let sb_block := if block_size fs =? 1024 then 1 else 0 in
    blk ⇐ or_fail EIO (ext2_read_block fs sb_block blk);
    let sb_offset := if block_size fs =? 1024 then 0 else 1024 in
    blk ⇐ lift (mem_write blk sb_offset (sb fs));
    ext2_write_block fs sb_block blk).

(** The loop of ext2_write_bgdt, [n] blocks left. *)
Fixpoint write_bgdt_loop (n : nat) fs (bgdt_block bgdt_size i : Z) : io W unit :=
  match n with
  | O => ok tt
  | S n' =>
      with_buffer (block_size fs) (- ENOMEM) (fun _ =>
        let blk := replicate (Z.to_nat (block_size fs)) 0 in
        let offset := u32 (i * block_size fs) in
        let to_copy := u32 (bgdt_size - offset) in
        let to_copy := if block_size fs <? to_copy then block_size fs else to_copy in
        bytes ⇐ lift (mem_read (bgdt fs) offset to_copy);
        blk ⇐ lift (mem_write blk 0 bytes);
        ext2_write_block fs (u32 (bgdt_block + i)) blk);;
      write_bgdt_loop n' fs bgdt_block bgdt_size (i + 1)
  end.

Definition ext2_write_bgdt fs : io W unit :=
  let bgdt_block := if block_size fs =? 1024 then 2 else 1 in
  let bgdt_size := u32 (num_groups fs * BGD_SIZE) in
  bgdt_blocks ⇐ lift (udiv (u32 (bgdt_size + block_size fs - 1)) (block_size fs));
  write_bgdt_loop (Z.to_nat bgdt_blocks) fs bgdt_block bgdt_size 0.

(** ** Inodes *)

(** The block and the offset in it of an inode. *)
Definition inode_place fs (ino : Z) : io W (Z * Z) :=
  if ino =? 0 then err (- EINVAL) else
  group ⇐ lift (udiv (ino - 1) (inodes_per_group fs));
  index ⇐ lift (umod (ino - 1) (inodes_per_group fs));
  if num_groups fs <=? group then err (- EINVAL) else
  inode_table_block ⇐ lift (bg_inode_table fs group);
  let byte_offset := u32 (index * inode_size fs) in
  block_in_table ⇐ lift (udiv byte_offset (block_size fs));
  offset_in_block ⇐ lift (umod byte_offset (block_size fs));
  ok (u32 (inode_table_block + block_in_table), offset_in_block).

Definition ext2_read_inode fs (ino : Z) : io W (list Z) :=
  '(block, off) ⇐ inode_place fs ino;
  with_buffer (block_size fs) (- ENOMEM) (fun blk =>
    blk ⇐ ext2_read_block fs block blk;
    lift (mem_read blk off INODE_SIZE)).

Definition ext2_write_inode fs (ino : Z) (inode : list Z) : io W unit :=
  '(block, off) ⇐ inode_place fs ino;
  with_buffer (block_size fs) (- ENOMEM) (fun blk =>
    blk ⇐ ext2_read_block fs block blk;
    blk ⇐ lift (mem_write blk off inode);
    ext2_write_block fs block blk).

(** ** The block map of an inode *)

Definition PTRS_PER_BLOCK fs : Z := block_size fs / 4.

Definition ext2_read_indirect fs (ind_block index : Z) : io W Z :=
  if ind_block =? 0 then ok 0 else
  or_return 0 (with_buffer (block_size fs) (- ENOMEM) (fun table =>
    table ⇐ ext2_read_block fs ind_block table;
    lift (get32 table (4 * index)))).

Definition ext2_bmap fs (inode : list Z) (lbn : Z) : io W Z :=
  let ppb := PTRS_PER_BLOCK fs in
  if lbn <? EXT2_NDIR_BLOCKS then ok (i_block inode lbn) else
  let lbn := lbn - EXT2_NDIR_BLOCKS in
  if lbn <? ppb then ext2_read_indirect fs (i_block inode EXT2_IND_BLOCK) lbn else
  let lbn := lbn - ppb in
  if lbn <? u32 (ppb * ppb) then
    q ⇐ lift (udiv lbn ppb);
    r ⇐ lift (umod lbn ppb);
    l1 ⇐ ext2_read_indirect fs (i_block inode EXT2_DIND_BLOCK) q;
    ext2_read_indirect fs l1 r
  else
  let lbn := lbn - u32 (ppb * ppb) in
  q2 ⇐ lift (udiv lbn (u32 (ppb * ppb)));
  l1 ⇐ ext2_read_indirect fs (i_block inode EXT2_TIND_BLOCK) q2;
  q1 ⇐ lift (udiv lbn ppb);
  q1 ⇐ lift (umod q1 ppb);
  l2 ⇐ ext2_read_indirect fs l1 q1;
  r ⇐ lift (umod lbn ppb);
  ext2_read_indirect fs l2 r.

(** ** Allocation of blocks *)

(** The search for a clear bit, [n] bits left. *)
Fixpoint find_clear (n : nat) (bitmap : list Z) (i : Z) : outcome (option Z) :=
  match n with
  | O => Ret None
  | S n' =>
      t ← bitmap_test bitmap i;
      if (t : bool) then find_clear n' bitmap (i + 1) else Ret (Some i)
  end.

(** Takes the first clear bit of a bitmap block; the result of the write is
    ignored.  [None] when the bitmap cannot be read or has no clear bit, an error
    when there is no buffer. *)
Definition take_bit fs (bitmap_block nbits : Z) : io W (option Z) :=
  with_buffer (block_size fs) (- ENOMEM) (fun bitmap => or_return None (
    bitmap ⇐ ext2_read_block fs bitmap_block bitmap;
    r ⇐ lift (find_clear (Z.to_nat nbits) bitmap 0);
    match r with
    | None => ok None
    | Some i =>
        bitmap ⇐ lift (bitmap_set bitmap i);
        attempt (ext2_write_block fs bitmap_block bitmap);;
        ok (Some i)
    end)).

Definition ext2_alloc_block_in_group fs (group : Z) : io W (ext2_fs * Z) :=
  n ⇐ lift (bg_free_blocks_count fs group);
  if n =? 0 then ok (fs, 0) else
  bitmap_block ⇐ lift (bg_block_bitmap fs group);
  r ⇐ or_return None (take_bit fs bitmap_block (blocks_per_group fs));
  match r with
  | None => ok (fs, 0)
  | Some i =>
      let block := u32 (s_first_data_block (sb fs) + u32 (group * blocks_per_group fs) + i) in
      fs ⇐ lift (add_free_blocks fs group (-1));
      ok (fs, block)
  end.

Fixpoint alloc_groups (n : nat) fs (g : Z) : io W (ext2_fs * Z) :=
  match n with
  | O => ok (fs, 0)
  | S n' =>
      '(fs, b) ⇐ ext2_alloc_block_in_group fs g;
      if negb (b =? 0) then ok (fs, b) else alloc_groups n' fs (g + 1)
  end.

Definition ext2_alloc_block fs : io W (ext2_fs * Z) := alloc_groups (Z.to_nat (num_groups fs)) fs 0.

(** Clears a bit of a bitmap block: whether it got as far as the counters. *)
Definition clear_bit_of fs (bitmap_block index : Z) : io W bool :=
  or_return false (with_buffer (block_size fs) (- ENOMEM) (fun bitmap =>
    bitmap ⇐ ext2_read_block fs bitmap_block bitmap;
    bitmap ⇐ lift (bitmap_clear bitmap index);
    attempt (ext2_write_block fs bitmap_block bitmap);;
    ok true)).

Definition ext2_free_block fs (block : Z) : io W ext2_fs :=
  if block <? s_first_data_block (sb fs) then ok fs else
  let rel := block - s_first_data_block (sb fs) in
  group ⇐ lift (udiv rel (blocks_per_group fs));
  index ⇐ lift (umod rel (blocks_per_group fs));
  if num_groups fs <=? group then ok fs else
  bitmap_block ⇐ lift (bg_block_bitmap fs group);
  done ⇐ clear_bit_of fs bitmap_block index;
  if (done : bool) then lift (add_free_blocks fs group 1) else ok fs.

(** ** Setting an entry of the block map *)

(** The beginning of each level: an absent table gets a block and is zeroed, a
    present one is read.  The block and the contents of the table. *)
Definition load_table fs (block : Z) (table : list Z) : io W (ext2_fs * rc (Z * list Z)) :=
  if block =? 0 then
    '(fs, b) ⇐ ext2_alloc_block fs;
    if b =? 0 then ok (fs, Err (- ENOSPC))
    else ok (fs, Ok (b, replicate (Z.to_nat (block_size fs)) 0))
  else
    r ⇐ attempt (ext2_read_block fs block table);
    match r with
    | Ok table => ok (fs, Ok (block, table))
    | Err _ => ok (fs, Err (- EIO))
    end.

(** A buffer for a function that returns the file system. *)
Definition with_table {A} fs (body : list Z -> io W (ext2_fs * rc A)) : io W (ext2_fs * rc A) :=
  r ⇐ attempt (with_buffer (block_size fs) (- ENOMEM) body);
  match r with Ok x => ok x | Err e => ok (fs, Err e) end.

(** The new value of [*ind_block_ptr], which is left alone on an error. *)
Definition ext2_set_indirect fs (ind_block index phys_block : Z) : io W (ext2_fs * rc Z) :=
  with_table fs (fun table =>
    '(fs, r) ⇐ load_table fs ind_block table;
    match r with
    | Err e => ok (fs, Err e)
    | Ok (ind_block, table) =>
        table ⇐ lift (put32 table (4 * index) phys_block);
        r ⇐ attempt (ext2_write_block fs ind_block table);
        match r with Ok _ => ok (fs, Ok ind_block) | Err e => ok (fs, Err e) end
    end).

(** [if (block != inode->i_block[k]) inode->i_block[k] = block]. *)
Definition update_i_block (inode : list Z) (k block : Z) : list Z :=
  if negb (block =? i_block inode k) then set_i_block inode k block else inode.

(** The new inode, which is left alone on an error.  The double indirect case: *)
Definition bmap_set_double fs (inode : list Z) (lbn phys : Z) : io W (ext2_fs * rc (list Z)) :=
  let ppb := PTRS_PER_BLOCK fs in
  with_table fs (fun l1_table =>
    '(fs, r) ⇐ load_table fs (i_block inode EXT2_DIND_BLOCK) l1_table;
    match r with
    | Err e => ok (fs, Err e)
    | Ok (dind_block, l1_table) =>
        l1_idx ⇐ lift (udiv lbn ppb);
        rest ⇐ lift (umod lbn ppb);
        entry ⇐ lift (get32 l1_table (4 * l1_idx));
        '(fs, r) ⇐ ext2_set_indirect fs entry rest phys;
        match r with
        | Err e => ok (fs, Err e)
        | Ok entry =>
            l1_table ⇐ lift (put32 l1_table (4 * l1_idx) entry);
            r ⇐ attempt (ext2_write_block fs dind_block l1_table);
            match r with
            | Err e => ok (fs, Err e)
            | Ok _ => ok (fs, Ok (update_i_block inode EXT2_DIND_BLOCK dind_block))
            end
        end
    end).

(** The triple indirect case, with the table of the second level in
    [bmap_set_middle]: the new value of [l1_table[l1_idx]]. *)
Definition bmap_set_middle fs (l1_entry lbn phys : Z) : io W (ext2_fs * rc Z) :=
  let ppb := PTRS_PER_BLOCK fs in
  with_table fs (fun l2_table =>
    '(fs, r) ⇐ load_table fs l1_entry l2_table;
    match r with
    | Err e => ok (fs, Err e)
    | Ok (l1_entry, l2_table) =>
        q ⇐ lift (udiv lbn ppb);
        l2_idx ⇐ lift (umod q ppb);
        rest ⇐ lift (umod lbn ppb);
        entry ⇐ lift (get32 l2_table (4 * l2_idx));
        '(fs, r) ⇐ ext2_set_indirect fs entry rest phys;
        match r with
        | Err e => ok (fs, Err e)
        | Ok entry =>
            l2_table ⇐ lift (put32 l2_table (4 * l2_idx) entry);
            r ⇐ attempt (ext2_write_block fs l1_entry l2_table);
            match r with Err e => ok (fs, Err e) | Ok _ => ok (fs, Ok l1_entry) end
        end
    end).

Definition bmap_set_triple fs (inode : list Z) (lbn phys : Z) : io W (ext2_fs * rc (list Z)) :=
  let ppb := PTRS_PER_BLOCK fs in
  with_table fs (fun l1_table =>
    '(fs, r) ⇐ load_table fs (i_block inode EXT2_TIND_BLOCK) l1_table;
    match r with
    | Err e => ok (fs, Err e)
    | Ok (tind_block, l1_table) =>
        l1_idx ⇐ lift (udiv lbn (u32 (ppb * ppb)));
        l1_entry ⇐ lift (get32 l1_table (4 * l1_idx));
        '(fs, r) ⇐ bmap_set_middle fs l1_entry lbn phys;
        match r with
        | Err e => ok (fs, Err e)
        | Ok l1_entry =>
            l1_table ⇐ lift (put32 l1_table (4 * l1_idx) l1_entry);
            r ⇐ attempt (ext2_write_block fs tind_block l1_table);
            match r with
            | Err e => ok (fs, Err e)
            | Ok _ => ok (fs, Ok (update_i_block inode EXT2_TIND_BLOCK tind_block))
            end
        end
    end).

Definition ext2_bmap_set fs (inode : list Z) (lbn phys : Z) : io W (ext2_fs * rc (list Z)) :=
  let ppb := PTRS_PER_BLOCK fs in
  if lbn <? EXT2_NDIR_BLOCKS then ok (fs, Ok (set_i_block inode lbn phys)) else
  let lbn := lbn - EXT2_NDIR_BLOCKS in
  if lbn <? ppb then
    '(fs, r) ⇐ ext2_set_indirect fs (i_block inode EXT2_IND_BLOCK) lbn phys;
    match r with
    | Err e => ok (fs, Err e)
    | Ok ind_block => ok (fs, Ok (update_i_block inode EXT2_IND_BLOCK ind_block))
    end
  else
  let lbn := lbn - ppb in
  if lbn <? u32 (ppb * ppb) then bmap_set_double fs inode lbn phys
  else bmap_set_triple fs inode (lbn - u32 (ppb * ppb)) phys.

(** ** Allocation of inodes *)

(** A group whose bitmap cannot be read is skipped, but not one without a
    buffer. *)
Fixpoint alloc_inode_groups (n : nat) fs (g : Z) : io W (ext2_fs * Z) :=
  match n with
  | O => ok (fs, 0)
  | S n' =>
      free ⇐ lift (bg_free_inodes_count fs g);
      if free =? 0 then alloc_inode_groups n' fs (g + 1) else
      bitmap_block ⇐ lift (bg_inode_bitmap fs g);
      r ⇐ attempt (take_bit fs bitmap_block (inodes_per_group fs));
      match r with
      | Err _ => ok (fs, 0)
      | Ok None => alloc_inode_groups n' fs (g + 1)
      | Ok (Some i) =>
          fs ⇐ lift (add_free_inodes fs g (-1));
          ok (fs, u32 (u32 (g * inodes_per_group fs) + i + 1))
      end
  end.

Definition ext2_alloc_inode fs : io W (ext2_fs * Z) := alloc_inode_groups (Z.to_nat (num_groups fs)) fs 0.

Definition ext2_free_inode fs (ino : Z) : io W ext2_fs :=
  if ino =? 0 then ok fs else
  group ⇐ lift (udiv (ino - 1) (inodes_per_group fs));
  index ⇐ lift (umod (ino - 1) (inodes_per_group fs));
  if num_groups fs <=? group then ok fs else
  bitmap_block ⇐ lift (bg_inode_bitmap fs group);
  done ⇐ clear_bit_of fs bitmap_block index;
  if (done : bool) then lift (add_free_inodes fs group 1) else ok fs.

(** ** Directories *)

(** The fields of the ext2_dirent_t at [off] of a block. *)
Definition de_inode (blk : list Z) (off : Z) : outcome Z := get32 blk off.
Definition de_rec_len (blk : list Z) (off : Z) : outcome Z := get16 blk (off + 4).
Definition de_name_len (blk : list Z) (off : Z) : outcome Z := get8 blk (off + 6).
Definition de_file_type (blk : list Z) (off : Z) : outcome Z := get8 blk (off + 7).

(** [de->inode != 0 && de->name_len == (uint8_t)namelen &&
    strncmp(de->name, name, namelen) == 0]; [name] without its terminator. *)
Definition dirent_matches (blk : list Z) (off : Z) (name : list Z) : outcome bool :=
  ino ← de_inode blk off;
  if ino =? 0 then Ret false else
  nl ← de_name_len blk off;
  if negb (nl =? u8 (len name)) then Ret false else
  r ← strncmp (drop (Z.to_nat (off + 8)) blk) (name ++ [0]) (len name);
  Ret (r =? 0).

(** The entries of one block up to [chunk]: the inode of the name, 0 if it is
    not there.  An entry has at least one byte, so [chunk] units are enough. *)
Fixpoint lookup_block (n : nat) (blk : list Z) (off chunk : Z) (name : list Z) : outcome Z :=
  match n with
  | O => OutOfFuel
  | S n' =>
      if off <? chunk then
        rec_len ← de_rec_len blk off;
        if rec_len =? 0 then Ret 0 else
        m ← dirent_matches blk off name;
        if (m : bool) then de_inode blk off
        else lookup_block n' blk (u32 (off + rec_len)) chunk name
      else Ret 0
  end.

(** [if (consumed + chunk > size) chunk = size - consumed]. *)
Definition chunk_of fs (consumed size : Z) : Z :=
  if size <? u32 (consumed + block_size fs) then u32 (size - consumed) else block_size fs.

(** The blocks of a directory; one unit of fuel for each and one for the last
    test are enough when the size is at most 2^32 - block_size. *)
Fixpoint lookup_loop (n : nat) fs (inode : list Z) (size lbn consumed : Z) (name blk : list Z) : io W Z :=
  match n with
  | O => lift OutOfFuel
  | S n' =>
      if consumed <? size then
        phys ⇐ ext2_bmap fs inode lbn;
        if phys =? 0 then lookup_loop n' fs inode size (u32 (lbn + 1)) (u32 (consumed + block_size fs)) name blk else
        r ⇐ attempt (ext2_read_block fs phys blk);
        match r with
        | Err _ => ok 0
        | Ok blk =>
            let chunk := chunk_of fs consumed size in
            found ⇐ lift (lookup_block (S (Z.to_nat chunk)) blk 0 chunk name);
            if negb (found =? 0) then ok found
            else lookup_loop n' fs inode size (u32 (lbn + 1)) (u32 (consumed + block_size fs)) name blk
        end
      else ok 0
  end.

(** The number of iterations of a loop over [size] bytes in blocks. *)
Definition dir_fuel fs (size : Z) : nat := S (S (Z.to_nat (size / block_size fs))).

Definition ext2_dir_lookup fs (dir_ino : Z) (name : list Z) : io W Z :=
  r ⇐ attempt (ext2_read_inode fs dir_ino);
  match r with
  | Err _ => ok 0
  | Ok inode =>
      if negb (EXT2_ISDIR (i_mode inode)) then ok 0 else
      or_return 0 (with_buffer (block_size fs) (- ENOMEM) (fun blk =>
        lookup_loop (dir_fuel fs (i_size inode)) fs inode (i_size inode) 0 0 name blk))
  end.

(** ** Paths *)

Fixpoint skip_slash (p : list Z) : list Z :=
  match p with c :: p' => if c =? SLASH then skip_slash p' else p | [] => [] end.

(** The component at the start of [p] and the rest, from its slash on. *)
Fixpoint component (p : list Z) : list Z * list Z :=
  match p with
  | [] => ([], [])
  | c :: p' => if c =? SLASH then ([], p) else let '(a, b) := component p' in (c :: a, b)
  end.

(** Each iteration consumes a character, so their number and one for the last
    test is enough fuel; [p] has one character less than the path. *)
Fixpoint resolve_components (n : nat) fs (ino : Z) (p : list Z) : io W Z :=
  match n with
  | O => lift OutOfFuel
  | S n' =>
      match skip_slash p with
      | [] => ok ino
      | p =>
          let '(name, rest) := component p in
          ino ⇐ ext2_dir_lookup fs ino name;
          if ino =? 0 then ok 0 else resolve_components n' fs ino rest
      end
  end.

Definition ext2_resolve_path fs (path : list Z) : io W Z :=
  match path with
  | c :: p =>
      if negb (c =? SLASH) then ok 0 else
      if 256 <=? len path then ok 0 else
      resolve_components (length path) fs EXT2_ROOT_INO p
  | [] => ok 0
  end.

(** [while (plen > 1 && buf[plen - 1] == '/') buf[--plen] = '\0']. *)
Fixpoint strip_slashes (n : nat) (p : list Z) : list Z :=
  match n with
  | O => p
  | S n' =>
      if (1 <? len p) && bool_decide (last p = Some SLASH)
      then strip_slashes n' (take (length p - 1) p) else p
  end.

(** [slash = buf + plen - 1; while (slash > buf && *slash != '/') slash--]. *)
Fixpoint last_slash (n : nat) (p : list Z) (i : nat) : nat :=
  match n with
  | O => i
  | S n' => match i with
            | O => O
            | S i' => if bool_decide (p !! i = Some SLASH) then i else last_slash n' p i'
            end
  end.

(** The name that is stored and the inode of the parent. *)
Definition ext2_resolve_parent fs (path : list Z) : io W (list Z * Z) :=
  if (len path =? 0) || (256 <=? len path) then ok ([], 0) else
  let buf := strip_slashes (length path) path in
  let slash := last_slash (length buf) buf (length buf - 1) in
  if (slash =? 0)%nat then ok (drop 1 buf, EXT2_ROOT_INO) else
  ino ⇐ ext2_resolve_path fs (take slash buf);
  ok (drop (S slash) buf, ino).

(** ** New and removed entries *)

Definition entry_len (namelen : Z) : Z := u16 (Z.land (8 + namelen + 3) (Z.lnot 3)).

(** Stores inode, name length, type and name. *)
Definition fill_dirent (blk : list Z) (off ino : Z) (name : list Z) (file_type : Z) : outcome (list Z) :=
  blk ← put32 blk off ino;
  blk ← aset blk (off + 6) (u8 (len name));
  blk ← aset blk (off + 7) file_type;
  mem_write blk (off + 8) name.

(** The search for room in one block: the block with the entry in it, or [None].
    An entry has at least one byte. *)
Fixpoint add_in_block (n : nat) fs (blk : list Z) (off needed ino : Z) (name : list Z) (file_type : Z)
  : outcome (option (list Z)) :=
  match n with
  | O => OutOfFuel
  | S n' =>
      if off <? block_size fs then
        rec_len ← de_rec_len blk off;
        if rec_len =? 0 then Ret None else
        old ← de_inode blk off;
        nl ← de_name_len blk off;
        let real_len := if old =? 0 then 0 else entry_len nl in
        let free_space := if old =? 0 then rec_len else u16 (rec_len - real_len) in
        if needed <=? free_space then
          '(blk, off) ← (if negb (old =? 0) then
                           blk ← put16 blk (off + 4) real_len;
                           let off := u32 (off + real_len) in
                           blk ← put16 blk (off + 4) (u16 (rec_len - real_len));
                           Ret (blk, off)
                         else Ret (blk, off));
          blk ← fill_dirent blk off ino name file_type;
          Ret (Some blk)
        else add_in_block n' fs blk (u32 (off + rec_len)) needed ino name file_type
      else Ret None
  end.

(** An empty entry over a whole zeroed block. *)
Definition empty_dir_block fs : outcome (list Z) :=
  let blk := replicate (Z.to_nat (block_size fs)) 0 in
  blk ← put32 blk 0 0;
  blk ← put16 blk 4 (u16 (block_size fs));
  blk ← aset blk 6 0;
  aset blk 7 0.

(** ext2_bmap_set with its result ignored, and the growth of the inode. *)
Definition grow_dir fs (inode : list Z) (lbn phys : Z) : io W (ext2_fs * list Z) :=
  '(fs, r) ⇐ ext2_bmap_set fs inode lbn phys;
  let inode := match r with Ok i => i | Err _ => inode end in
  let inode := set_i_size inode (u32 (i_size inode + block_size fs)) in
  let inode := set_i_blocks inode (u32 (i_blocks inode + sectors_per_block fs)) in
  ok (fs, inode).

(** The end of ext2_dir_add_entry; the results of the writes are ignored. *)
Definition store_dir fs (dir_ino : Z) (inode : list Z) (phys : Z) (blk : list Z) : io W unit :=
  attempt (ext2_write_block fs phys blk);;
  attempt (ext2_write_inode fs dir_ino inode);;
  ok tt.

(** A new last block for the entry. *)
Definition add_dir_block fs (dir_ino : Z) (inode : list Z) (lbn ino : Z) (name : list Z) (file_type : Z)
  : io W (ext2_fs * rc unit) :=
  '(fs, phys) ⇐ ext2_alloc_block fs;
  if phys =? 0 then ok (fs, Err (- ENOSPC)) else
  let blk := replicate (Z.to_nat (block_size fs)) 0 in
  blk ⇐ lift (put16 blk 4 (u16 (block_size fs)));
  blk ⇐ lift (fill_dirent blk 0 ino name file_type);
  '(fs, inode) ⇐ grow_dir fs inode lbn phys;
  store_dir fs dir_ino inode phys blk;;
  ok (fs, Ok tt).

(** One block of the directory: its number, whether it is new, and its contents;
    a hole gets a block. *)
Definition dir_block fs (inode : list Z) (lbn : Z) (blk : list Z) : io W (ext2_fs * rc (Z * bool * list Z)) :=
  phys ⇐ ext2_bmap fs inode lbn;
  if phys =? 0 then
    '(fs, phys) ⇐ ext2_alloc_block fs;
    if phys =? 0 then ok (fs, Err (- ENOSPC)) else
    blk ⇐ lift (empty_dir_block fs);
    ok (fs, Ok (phys, true, blk))
  else
    r ⇐ attempt (ext2_read_block fs phys blk);
    match r with
    | Err _ => ok (fs, Err (- EIO))
    | Ok blk => ok (fs, Ok (phys, false, blk))
    end.

Fixpoint add_entry_loop (n : nat) fs (dir_ino : Z) (inode : list Z) (size lbn consumed needed ino : Z)
    (name : list Z) (file_type : Z) (blk : list Z) : io W (ext2_fs * rc unit) :=
  match n with
  | O => lift OutOfFuel
  | S n' =>
      if consumed <? size then
        '(fs, r) ⇐ dir_block fs inode lbn blk;
        match r with
        | Err e => ok (fs, Err e)
        | Ok (phys, new_block, blk) =>
            r ⇐ lift (add_in_block (S (Z.to_nat (block_size fs))) fs blk 0 needed ino name file_type);
            match r with
            | Some blk =>
                '(fs, inode) ⇐ (if (new_block : bool) then grow_dir fs inode lbn phys else ok (fs, inode));
                store_dir fs dir_ino inode phys blk;;
                ok (fs, Ok tt)
            | None =>
                add_entry_loop n' fs dir_ino inode size (u32 (lbn + 1)) (u32 (consumed + block_size fs))
                  needed ino name file_type blk
            end
        end
      else add_dir_block fs dir_ino inode lbn ino name file_type
  end.

Definition ext2_dir_add_entry fs (dir_ino ino : Z) (name : list Z) (file_type : Z) : io W (ext2_fs * rc unit) :=
  r ⇐ attempt (ext2_read_inode fs dir_ino);
  match r with
  | Err _ => ok (fs, Err (- EIO))
  | Ok inode =>
      if negb (EXT2_ISDIR (i_mode inode)) then ok (fs, Err (- ENOTDIR)) else
      with_table fs (fun blk =>
        add_entry_loop (dir_fuel fs (i_size inode)) fs dir_ino inode (i_size inode) 0 0
          (entry_len (len name)) ino name file_type blk)
  end.

(** The removal of a name from one block; [prev] is the offset of the entry
    before, if there is one. *)
Fixpoint remove_in_block (n : nat) fs (blk : list Z) (off : Z) (prev : option Z) (name : list Z)
  : outcome (option (list Z)) :=
  match n with
  | O => OutOfFuel
  | S n' =>
      if off <? block_size fs then
        rec_len ← de_rec_len blk off;
        if rec_len =? 0 then Ret None else
        m ← dirent_matches blk off name;
        if (m : bool) then
          blk ← match prev with
                | Some q => l ← de_rec_len blk q; put16 blk (q + 4) (u16 (l + rec_len))
                | None => put32 blk off 0
                end;
          Ret (Some blk)
        else remove_in_block n' fs blk (u32 (off + rec_len)) (Some off) name
      else Ret None
  end.

Fixpoint remove_entry_loop (n : nat) fs (inode : list Z) (size lbn consumed : Z) (name blk : list Z) : io W unit :=
  match n with
  | O => lift OutOfFuel
  | S n' =>
      if consumed <? size then
        let next := remove_entry_loop n' fs inode size (u32 (lbn + 1)) (u32 (consumed + block_size fs)) name in
        phys ⇐ ext2_bmap fs inode lbn;
        if phys =? 0 then next blk else
        r ⇐ attempt (ext2_read_block fs phys blk);
        match r with
        | Err _ => next blk
        | Ok blk =>
            r ⇐ lift (remove_in_block (S (Z.to_nat (block_size fs))) fs blk 0 None name);
            match r with
            | Some blk => attempt (ext2_write_block fs phys blk);; ok tt
            | None => next blk
            end
        end
      else err (- ENOENT)
  end.

Definition ext2_dir_remove_entry fs (dir_ino : Z) (name : list Z) : io W unit :=
  inode ⇐ or_fail EIO (ext2_read_inode fs dir_ino);
  with_buffer (block_size fs) (- ENOMEM) (fun blk =>
    remove_entry_loop (dir_fuel fs (i_size inode)) fs inode (i_size inode) 0 0 name blk).

(** ** Mounting *)

(** Reads the blocks of the group descriptors, [n] left, into a buffer. *)
Fixpoint read_bgdt_loop (n : nat) fs (bgdt_block i : Z) (buf : list Z) : io W (list Z) :=
  match n with
  | O => ok buf
  | S n' =>
      part ⇐ or_fail EIO (ext2_read_block fs (u32 (bgdt_block + i)) (drop (Z.to_nat (u32 (i * block_size fs))) buf));
      read_bgdt_loop n' fs bgdt_block (i + 1) (take (Z.to_nat (u32 (i * block_size fs))) buf ++ part)
  end.

(** The file system of a superblock, before its group descriptors are read. *)
Definition fs_of_superblock (bdev : Z) (s : list Z) (flags : Z) : outcome ext2_fs :=
  let bs := u32 (Z.shiftl 1024 (s_log_block_size s mod 32)) in
  let bpg := s_blocks_per_group s in
  let dynamic := EXT2_DYNAMIC_REV <=? s_rev_level s in
  groups ← udiv (u32 (s_blocks_count s + bpg - 1)) bpg;
  Ret (mkext2 bdev s bs (bs / 512) (s_inodes_per_group s) bpg groups
         (if dynamic then s_inode_size s else EXT2_GOOD_OLD_INODE_SIZE)
         (if dynamic then s_first_ino s else EXT2_GOOD_OLD_FIRST_INO)
         [] 0 (negb (Z.land flags VFS_MNT_READONLY =? 0))).

(** The address and the contents of the new [fs_private]. *)
Definition ext2_mount (device : list Z) (flags : Z) : io W (Z * ext2_fs) := fun w =>
  match w_find device w with
  | None => Ret (w, Err (- ENODEV))
  | Some bdev =>
      with_object EXT2_FS_SIZE (- ENOMEM) (fun p =>
        s ⇐ or_fail EIO (read_blocks bdev 2 2 (replicate 1024 0));
        if negb (s_magic s =? EXT2_MAGIC) then err (- EINVAL) else
        fs ⇐ lift (fs_of_superblock bdev s flags);
        let bgdt_bytes := u32 (num_groups fs * BGD_SIZE) in
        with_object bgdt_bytes (- ENOMEM) (fun q =>
          let bgdt_block := if block_size fs =? 1024 then 2 else 1 in
          bgdt_blks ⇐ lift (udiv (u32 (bgdt_bytes + block_size fs - 1)) (block_size fs));
          with_buffer (u32 (bgdt_blks * block_size fs)) (- ENOMEM) (fun buf =>
            buf ⇐ read_bgdt_loop (Z.to_nat bgdt_blks) fs bgdt_block 0 buf;
            b ⇐ lift (mem_read buf 0 bgdt_bytes);
            ok (p, mkext2 bdev s (block_size fs) (sectors_per_block fs) (inodes_per_group fs) (blocks_per_group fs)
                     (num_groups fs) (inode_size fs) (first_ino fs) b q (read_only fs))))) w
  end.

(** [None]: [fs_private] is NULL. *)
Definition ext2_unmount (fs_private : option (Z * ext2_fs)) : io W Z :=
  match fs_private with
  | None => ok 0
  | Some (p, fs) =>
      (if read_only fs then ok tt else
         attempt (ext2_write_superblock fs);;
         attempt (ext2_write_bgdt fs);; ok tt);;
      (fun w => Ret (w_kfree p (w_kfree (bgdt_ptr fs) w), Ok 0))
  end.

(** ** Files *)

Definition new_file_inode : list Z :=
  set_field16 (set_field16 (replicate 128 0) 0 (Z.lor EXT2_S_IFREG 420)) 26 1.   (** 0644 *)

(** The creation of a file by ext2_vfs_open; the results of the first three
    writes are ignored. *)
Definition create_file fs (path : list Z) : io W (ext2_fs * rc Z) :=
  if read_only fs then ok (fs, Err (- EROFS)) else
  '(name, parent) ⇐ ext2_resolve_parent fs path;
  if parent =? 0 then ok (fs, Err (- ENOENT)) else
  '(fs, ino) ⇐ ext2_alloc_inode fs;
  if ino =? 0 then ok (fs, Err (- ENOSPC)) else
  attempt (ext2_write_inode fs ino new_file_inode);;
  attempt (ext2_write_bgdt fs);;
  attempt (ext2_write_superblock fs);;
  '(fs, r) ⇐ ext2_dir_add_entry fs parent ino name EXT2_FT_REG_FILE;
  match r with
  | Err e => fs ⇐ ext2_free_inode fs ino; ok (fs, Err e)
  | Ok _ => ok (fs, Ok ino)
  end.

(** Frees the data blocks from [lb] on, [n] left. *)
Fixpoint free_blocks_loop (n : nat) fs (inode : list Z) (lb : Z) : io W ext2_fs :=
  match n with
  | O => ok fs
  | S n' =>
      phys ⇐ ext2_bmap fs inode lb;
      fs ⇐ (if negb (phys =? 0) then ext2_free_block fs phys else ok fs);
      free_blocks_loop n' fs inode (lb + 1)
  end.

Definition truncate_file fs (ino : Z) (inode : list Z) : io W (ext2_fs * list Z) :=
  total ⇐ lift (udiv (u32 (i_size inode + block_size fs - 1)) (block_size fs));
  fs ⇐ free_blocks_loop (Z.to_nat total) fs inode 0;
  let inode := set_i_blocks (set_i_size (splice inode 40 (replicate 60 0)) 0) 0 in
  attempt (ext2_write_inode fs ino inode);;
  ok (fs, inode).

(** The address and contents of the new handle, and its position. *)
Definition ext2_vfs_open fs (path : list Z) (flags : Z) : io W (ext2_fs * rc (Z * ext2_file_handle * Z)) :=
  ino ⇐ ext2_resolve_path fs path;
  '(fs, r) ⇐ (if ino =? 0 then
                if Z.land flags VFS_CREAT =? 0 then ok (fs, Err (- ENOENT)) else create_file fs path
              else ok (fs, Ok ino));
  match r with
  | Err e => ok (fs, Err e)
  | Ok ino =>
      r ⇐ attempt (ext2_read_inode fs ino);
      match r with
      | Err _ => ok (fs, Err (- EIO))
      | Ok inode =>
          if EXT2_ISDIR (i_mode inode) then ok (fs, Err (- EISDIR)) else
          '(fs, inode) ⇐ (if negb (Z.land flags VFS_TRUNC =? 0) && negb (read_only fs)
                          then truncate_file fs ino inode else ok (fs, inode));
          r ⇐ attempt (with_object EXT2_HANDLE_SIZE (- ENOMEM) (fun p => ok p));
          match r with
          | Err e => ok (fs, Err e)
          | Ok p => ok (fs, Ok (p, mkhandle2 ino inode (i_size inode),
                                if negb (Z.land flags VFS_APPEND =? 0) then i_size inode else 0))
          end
      end
  end.

(** [private_data] is an address, 0 for NULL. *)
Definition ext2_vfs_close (private_data : Z) : io W Z := fun w =>
  Ret (if negb (private_data =? 0) then w_kfree private_data w else w, Ok 0).

(** The read loop; [out] has the bytes stored so far.  On an error the caller's
    buffer keeps them, its result is the error.  Each iteration reads a byte, so
    one unit of fuel per byte and one for the last test are enough. *)
Fixpoint read_file_loop (n : nat) fs (inode : list Z) (pos remaining : Z) (blk out : list Z) : io W (list Z * Z) :=
  match n with
  | O => lift OutOfFuel
  | S n' =>
      if 0 <? remaining then
        lbn ⇐ lift (udiv pos (block_size fs));
        boff ⇐ lift (umod pos (block_size fs));
        let can_read := if remaining <? block_size fs - boff then remaining else block_size fs - boff in
        phys ⇐ ext2_bmap fs inode lbn;
        if phys =? 0 then
          read_file_loop n' fs inode (u32 (pos + can_read)) (remaining - can_read) blk
            (out ++ replicate (Z.to_nat can_read) 0)
        else
          blk ⇐ or_fail EIO (ext2_read_block fs phys blk);
          bytes ⇐ lift (mem_read blk boff can_read);
          read_file_loop n' fs inode (u32 (pos + can_read)) (remaining - can_read) blk (out ++ bytes)
      else ok (out, pos)
  end.

(** The bytes and the new position. *)
Definition ext2_vfs_read fs (handle : option ext2_file_handle) (position count : Z) : io W (list Z * Z) :=
  match handle with
  | None => err (- EBADF)
  | Some fh =>
      let file_size := fh_file_size fh in
      if file_size <=? u32 position then ok ([], position) else
      let count := if file_size <? u64 (u32 position + count) then file_size - u32 position else count in
      if count =? 0 then ok ([], position) else
      with_buffer (block_size fs) (- ENOMEM) (fun blk =>
        read_file_loop (S (Z.to_nat count)) fs (fh_inode fh) (u32 position) count blk [])
  end.

(** One block of a write: its number and the contents of the buffer before the
    new bytes are copied into it; a hole gets a block. *)
Definition block_for_write fs (inode : list Z) (lbn boff can_write : Z) (blk : list Z)
  : io W (ext2_fs * list Z * rc (Z * list Z)) :=
  phys ⇐ ext2_bmap fs inode lbn;
  if phys =? 0 then
    '(fs, phys) ⇐ ext2_alloc_block fs;
    if phys =? 0 then ok (fs, inode, Err (- ENOSPC)) else
    '(fs, r) ⇐ ext2_bmap_set fs inode lbn phys;
    match r with
    | Err e => ok (fs, inode, Err e)
    | Ok inode => ok (fs, inode, Ok (phys, replicate (Z.to_nat (block_size fs)) 0))
    end
  else if negb (boff =? 0) || negb (can_write =? block_size fs) then
    r ⇐ attempt (ext2_read_block fs phys blk);
    match r with
    | Err _ => ok (fs, inode, Err (- EIO))
    | Ok blk => ok (fs, inode, Ok (phys, blk))
    end
  else ok (fs, inode, Ok (phys, blk)).

(** The write loop over the bytes [src] that are left: the file system and the
    inode of the handle, which keep the changes made before an error, and the
    position after the last byte. *)
Fixpoint write_file_loop (n : nat) fs (inode : list Z) (pos : Z) (src blk : list Z)
  : io W (ext2_fs * list Z * rc Z) :=
  match n with
  | O => lift OutOfFuel
  | S n' =>
      if 0 <? len src then
        lbn ⇐ lift (udiv pos (block_size fs));
        boff ⇐ lift (umod pos (block_size fs));
        let can_write := if len src <? block_size fs - boff then len src else block_size fs - boff in
        '(fs, inode, r) ⇐ block_for_write fs inode lbn boff can_write blk;
        match r with
        | Err e => ok (fs, inode, Err e)
        | Ok (phys, blk) =>
            blk ⇐ lift (mem_write blk boff (take (Z.to_nat can_write) src));
            mapped ⇐ ext2_bmap fs inode lbn;
            let is_new_block := negb (mapped =? 0) && negb (phys =? 0) in
            r ⇐ attempt (ext2_write_block fs phys blk);
            match r with
            | Err _ => ok (fs, inode, Err (- EIO))
            | Ok _ =>
                let inode := if is_new_block then set_i_blocks inode (u32 (i_blocks inode + sectors_per_block fs))
                             else inode in
                write_file_loop n' fs inode (u32 (pos + can_write)) (drop (Z.to_nat can_write) src) blk
            end
        end
      else ok (fs, inode, Ok pos)
  end.

(** The file system, the handle, the new position and the return value. *)
Definition ext2_vfs_write fs (handle : option ext2_file_handle) (position : Z) (src : list Z)
  : io W (ext2_fs * option ext2_file_handle * Z * Z) :=
  match handle with
  | None => ok (fs, None, position, - EBADF)
  | Some fh =>
      if read_only fs then ok (fs, handle, position, - EROFS) else
      if len src =? 0 then ok (fs, handle, position, 0) else
      r ⇐ attempt (with_buffer (block_size fs) (- ENOMEM) (fun blk =>
            write_file_loop (S (length src)) fs (fh_inode fh) (u32 position) src blk));
      match r with
      | Err e => ok (fs, handle, position, e)
      | Ok (fs, inode, Err e) => ok (fs, Some (mkhandle2 (fh_ino fh) inode (fh_file_size fh)), position, e)
      | Ok (fs, inode, Ok pos) =>
          let fh := if i_size inode <? pos then mkhandle2 (fh_ino fh) (set_i_size inode pos) pos
                    else mkhandle2 (fh_ino fh) inode (fh_file_size fh) in
          attempt (ext2_write_inode fs (fh_ino fh) (fh_inode fh));;
          attempt (ext2_write_bgdt fs);;
          attempt (ext2_write_superblock fs);;
          ok (fs, Some fh, pos, len src)
      end
  end.

(** The new position, which is also the result. *)
Definition ext2_vfs_seek (handle : option ext2_file_handle) (position offset whence : Z) : rc Z :=
  match handle with
  | None => Err (- EBADF)
  | Some fh =>
      let finish := fun p => if p <? 0 then Err (- EINVAL) else Ok p in
      if whence =? VFS_SEEK_SET then finish offset
      else if whence =? VFS_SEEK_CUR then finish (i64 (position + offset))
      else if whence =? VFS_SEEK_END then finish (i64 (fh_file_size fh + offset))
      else Err (- EINVAL)
  end.

(** ** Listing and status *)

(** The entries of one block, added to [out]. *)
Fixpoint readdir_block (n : nat) (blk : list Z) (off chunk max_entries : Z) (out : list vfs_dirent)
  : outcome (list vfs_dirent) :=
  match n with
  | O => OutOfFuel
  | S n' =>
      if (off <? chunk) && (len out <? max_entries) then
        rec_len ← de_rec_len blk off;
        if rec_len =? 0 then Ret out else
        if (rec_len <? 8) || negb (Z.land rec_len 3 =? 0) then Ret out else
        ino ← de_inode blk off;
        nl ← de_name_len blk off;
        out ← (if negb (ino =? 0) && (0 <? nl) then
                 let nl := if MAX_FILENAME <=? nl then MAX_FILENAME - 1 else nl in
                 name ← mem_read blk (off + 8) nl;
                 t ← de_file_type blk off;
                 Ret (out ++ [mkdirent name (type_code (if t =? EXT2_FT_DIR then VFS_TYPE_DIR else VFS_TYPE_FILE))])
               else Ret out);
        readdir_block n' blk (u32 (off + rec_len)) chunk max_entries out
      else Ret out
  end.

Fixpoint readdir_loop (n : nat) fs (inode : list Z) (size lbn consumed max_entries : Z) (blk : list Z)
    (out : list vfs_dirent) : io W (list vfs_dirent) :=
  match n with
  | O => lift OutOfFuel
  | S n' =>
      if (consumed <? size) && (len out <? max_entries) then
        phys ⇐ ext2_bmap fs inode lbn;
        if phys =? 0 then
          readdir_loop n' fs inode size (u32 (lbn + 1)) (u32 (consumed + block_size fs)) max_entries blk out
        else
        r ⇐ attempt (ext2_read_block fs phys blk);
        match r with
        | Err _ => ok out
        | Ok blk =>
            let chunk := chunk_of fs consumed size in
            out ⇐ lift (readdir_block (S (Z.to_nat chunk)) blk 0 chunk max_entries out);
            readdir_loop n' fs inode size (u32 (lbn + 1)) (u32 (consumed + block_size fs)) max_entries blk out
        end
      else ok out
  end.

Definition ext2_vfs_readdir fs (path : list Z) (max_entries : Z) : io W (list vfs_dirent) :=
  ino ⇐ ext2_resolve_path fs path;
  if ino =? 0 then err (- ENOENT) else
  inode ⇐ or_fail EIO (ext2_read_inode fs ino);
  if negb (EXT2_ISDIR (i_mode inode)) then err (- ENOTDIR) else
  let size := if 64 * 1024 * 1024 <? i_size inode then 0 else i_size inode in
  with_buffer (block_size fs) (- ENOMEM) (fun blk =>
    readdir_loop (dir_fuel fs size) fs inode size 0 0 max_entries blk []).

Definition ext2_vfs_stat fs (path : list Z) : io W vfs_stat_t :=
  ino ⇐ ext2_resolve_path fs path;
  if ino =? 0 then err (- ENOENT) else
  inode ⇐ or_fail EIO (ext2_read_inode fs ino);
  ok (mkstat (i_mode inode) (i_size inode) (block_size fs) (i_mtime inode)).
End Ext2.

(** Registers the driver with the VFS; [ops] is the address of ext2_ops, and the
    result of the registration is only logged. *)
Definition ext2_init {V : Type} (ops : Z) (v : vfs V) : outcome (vfs V) :=
  '(v, _) ← vfs_register_filesystem (Some [101; 120; 116; 50]) (Some ops) 0 v;
  Ret v.
