(* ===== verification/Ext2Proofs.v ===== *)
(** * The ext2 driver: blocks, group descriptors and bitmaps

    The image of a volume as a sequence of blocks ([eblk]), the geometry that a
    mounted file system has ([geo]), the block bitmaps as the set of used blocks
    ([used]), and what reading and writing a block, taking and clearing a bit of
    a bitmap do to them. *)

From S2P Require Import Prelude Bytes Vfs BlockDev IoLogic FsBitmap Kstd Ext2.

(** ** Fields of structures *)

Lemma field32_range s off : Forall byte_ok s -> 0 <= off -> off + 4 <= len s -> 0 <= field32 s off < 2 ^ 32.
Proof. apply value32_range. Qed.

Lemma field16_range s off : Forall byte_ok s -> 0 <= off -> off + 2 <= len s -> 0 <= field16 s off < 2 ^ 16.
Proof.
  intros Hb H1 H2. pose proof (le_value_range (slice s off 2) (slice_Forall _ _ _ _ Hb)) as H.
  rewrite len_slice in H by lia. exact H.
Qed.

Lemma set_field32_eq s off v :
  0 <= off -> off + 4 <= len s -> 0 <= v < 2 ^ 32 -> field32 (set_field32 s off v) off = v.
Proof. apply value32_splice. Qed.

Lemma set_field16_eq s off v :
  0 <= off -> off + 2 <= len s -> 0 <= v < 2 ^ 16 -> field16 (set_field16 s off v) off = v.
Proof.
  intros. unfold field16, set_field16. pose proof (slice_splice_eq s off (le_bytes 2 v) ltac:(done) ltac:(size)) as E.
  replace (len (le_bytes 2 v)) with 2 in E by size. rewrite E, le_value_bytes. by apply Z.mod_small.
Qed.

(** A field apart from the bytes that are written. *)
Lemma field32_splice_ne s pos b off :
  0 <= pos -> pos + len b <= len s -> 0 <= off -> off + 4 <= pos \/ pos + len b <= off ->
  field32 (splice s pos b) off = field32 s off.
Proof. intros. unfold field32. by rewrite slice_splice_ne. Qed.

Lemma field16_splice_ne s pos b off :
  0 <= pos -> pos + len b <= len s -> 0 <= off -> off + 2 <= pos \/ pos + len b <= off ->
  field16 (splice s pos b) off = field16 s off.
Proof. intros. unfold field16. by rewrite slice_splice_ne. Qed.

Lemma len_set_field32 s off v : 0 <= off -> off + 4 <= len s -> len (set_field32 s off v) = len s.
Proof. intros. apply len_splice; [done|size]. Qed.

Lemma len_set_field16 s off v : 0 <= off -> off + 2 <= len s -> len (set_field16 s off v) = len s.
Proof. intros. apply len_splice; [done|size]. Qed.

Lemma set_field32_bytes s off v : Forall byte_ok s -> Forall byte_ok (set_field32 s off v).
Proof. intros. apply splice_Forall; [done|apply le_bytes_ok]. Qed.

(** ** Geometry *)

(** The blocks of the metadata of group [g], and its count of free blocks. *)
Definition bbm fs g : Z := field32 (bgdt fs) (BGD_SIZE * g).
Definition ibm fs g : Z := field32 (bgdt fs) (BGD_SIZE * g + 4).
Definition itab fs g : Z := field32 (bgdt fs) (BGD_SIZE * g + 8).
Definition free_at fs g : Z := field16 (bgdt fs) (BGD_SIZE * g + 12).
Definition first_block fs : Z := s_first_data_block (sb fs).

Record geo (fs : ext2_fs) : Prop := {
  g_bs : block_size fs = 512 * sectors_per_block fs;
  g_bs_range : 1024 <= block_size fs < 65536;
  g_bpg : 0 < blocks_per_group fs <= 8 * block_size fs;
  g_bpg16 : blocks_per_group fs < 65536;
  g_ipg : 0 < inodes_per_group fs <= 8 * block_size fs;
  g_inode : 128 <= inode_size fs /\ block_size fs mod inode_size fs = 0;
  g_groups : 0 < num_groups fs /\ num_groups fs * 32 < 2 ^ 32;
  g_blocks : first_block fs + num_groups fs * blocks_per_group fs < 2 ^ 32;
  g_inodes : num_groups fs * inodes_per_group fs < 2 ^ 32;
  g_bgdt : len (bgdt fs) = BGD_SIZE * num_groups fs;
  g_bgdt_bytes : Forall byte_ok (bgdt fs);
  g_sb : len (sb fs) = SB_SIZE;
  g_sb_bytes : Forall byte_ok (sb fs)
}.

(** What allocation does not change. *)
Record same_shape (fs fs' : ext2_fs) : Prop := {
  ss_dev : block_dev fs' = block_dev fs;
  ss_bs : block_size fs' = block_size fs;
  ss_spb : sectors_per_block fs' = sectors_per_block fs;
  ss_ipg : inodes_per_group fs' = inodes_per_group fs;
  ss_bpg : blocks_per_group fs' = blocks_per_group fs;
  ss_groups : num_groups fs' = num_groups fs;
  ss_isz : inode_size fs' = inode_size fs;
  ss_ro : read_only fs' = read_only fs;
  ss_first : first_block fs' = first_block fs;
  ss_bbm : forall g, 0 <= g < num_groups fs -> bbm fs' g = bbm fs g;
  ss_ibm : forall g, 0 <= g < num_groups fs -> ibm fs' g = ibm fs g;
  ss_itab : forall g, 0 <= g < num_groups fs -> itab fs' g = itab fs g
}.

#[export] Instance same_shape_refl : Reflexive same_shape.
Proof. intros fs. by constructor. Qed.

#[export] Instance same_shape_trans : Transitive same_shape.
Proof.
  intros a b c H1 H2. constructor; intros; (etrans; [apply H2|apply H1]); try done; by rewrite (ss_groups _ _ H1).
Qed.

Section Blocks.
Context (fs : ext2_fs) (G : geo fs).
Implicit Types (img buf : list Z).

(** ** The image as blocks *)

Definition eblk img (b : Z) : list Z := slice img (b * block_size fs) (block_size fs).
Definition upd img (b : Z) buf : list Z := splice img (b * block_size fs) buf.
Definition in_range img (b : Z) : Prop := 0 <= b < 2 ^ 32 /\ (b + 1) * block_size fs <= len img.

Lemma bs_pos : 1024 <= block_size fs < 65536.
Proof. apply G. Qed.

Lemma len_eblk img b : in_range img b -> len (eblk img b) = block_size fs.
Proof. intros [H1 H2]. pose proof bs_pos. apply len_slice; nia. Qed.

Lemma eblk_bytes img b : Forall byte_ok img -> Forall byte_ok (eblk img b).
Proof. apply slice_Forall. Qed.

Lemma len_upd img b buf : in_range img b -> len buf = block_size fs -> len (upd img b buf) = len img.
Proof. intros [H1 H2] Hl. pose proof bs_pos. apply len_splice; nia. Qed.

Lemma in_range_upd img b buf c :
  in_range img b -> len buf = block_size fs -> in_range (upd img b buf) c <-> in_range img c.
Proof. intros H1 H2. unfold in_range. by rewrite len_upd. Qed.

Lemma in_range_len img img' c : len img' = len img -> in_range img c -> in_range img' c.
Proof. unfold in_range. by intros ->. Qed.

Lemma eblk_upd_eq img b buf : in_range img b -> len buf = block_size fs -> eblk (upd img b buf) b = buf.
Proof.
  intros [H1 H2] Hl. pose proof bs_pos. unfold eblk, upd. rewrite <- Hl. apply slice_splice_eq; nia.
Qed.

Lemma eblk_upd_ne img b buf c :
  in_range img b -> len buf = block_size fs -> 0 <= c -> c <> b -> eblk (upd img b buf) c = eblk img c.
Proof.
  intros [H1 H2] Hl Hc Hne. pose proof bs_pos. unfold eblk, upd. apply slice_splice_ne; nia.
Qed.

(** Two images of the same length with the same blocks in a range are equal
    there; used for single bytes. *)
Lemma eblk_lookup img b i : 0 <= b -> 0 <= i < block_size fs -> eblk img b !! Z.to_nat i = img !! Z.to_nat (b * block_size fs + i).
Proof. intros Hb Hi. pose proof bs_pos. unfold eblk. apply slice_lookup; nia. Qed.
End Blocks.

Section Io.
Context {W : Type} `{OK : FsWorldOk W} {RL : Reliable W True}.
Context (d : Z).
Implicit Types (fs : ext2_fs) (img buf : list Z).

(** Code that does not return an error. *)
Abbreviation T img m Q := (triple d 512 img m Q (fun _ _ => False)).

Lemma sector_bounds fs img b :
  geo fs -> in_range fs img b ->
  0 <= b * sectors_per_block fs < 2 ^ 54 /\ 0 <= sectors_per_block fs < 2 ^ 32 /\
  u64 (b * sectors_per_block fs) = b * sectors_per_block fs /\
  b * sectors_per_block fs * 512 = b * block_size fs /\
  (b * sectors_per_block fs + sectors_per_block fs) * 512 <= len img.
Proof.
  intros G [H1 H2]. pose proof (bs_pos fs G) as H3. pose proof (g_bs fs G) as H4.
  assert (0 <= sectors_per_block fs < 128) by lia.
  assert (0 <= b * sectors_per_block fs < 2 ^ 54) by nia.
  split_and!; try lia. rewrite u64_id; lia.
Qed.

Lemma t_read_block fs img b buf :
  geo fs -> block_dev fs = d -> in_range fs img b -> len buf = block_size fs ->
  T img (ext2_read_block fs b buf) (fun i v => i = img /\ v = eblk fs img b).
Proof.
  intros G Hd Hb Hl. destruct (sector_bounds fs img b G Hb) as (H1 & H2 & Eu & E1 & E2).
  unfold ext2_read_block. rewrite Hd, Eu. pose proof (g_bs fs G) as Hbs.
  eapply (t_read_blocks True); [lia|lia|lia| |].
  - intros _. split; [done|]. unfold eblk. by rewrite E1, (Z.mul_comm _ 512), <- Hbs.
  - intros e Hs. specialize (Hs I). lia.
Qed.

(** A block outside the device. *)
Lemma t_read_block_out fs img b buf :
  geo fs -> block_dev fs = d -> 0 <= b < 2 ^ 32 -> ~ in_range fs img b -> len buf = block_size fs ->
  triple d 512 img (ext2_read_block fs b buf) (fun _ _ => False) (fun i e => i = img).
Proof.
  intros G Hd Hb Hout Hl. pose proof (bs_pos fs G) as H3. pose proof (g_bs fs G) as H4.
  assert (0 <= sectors_per_block fs < 128) by lia. assert (0 <= b * sectors_per_block fs < 2 ^ 54) by nia.
  unfold ext2_read_block. rewrite Hd, u64_id by lia. eapply (t_read_blocks True); [lia|lia|lia| |done].
  intros Hr. apply Hout. split; [done|]. nia.
Qed.

Lemma t_write_block fs img b buf :
  geo fs -> block_dev fs = d -> in_range fs img b -> len buf = block_size fs -> Forall byte_ok buf ->
  T img (ext2_write_block fs b buf) (fun i _ => i = upd fs img b buf).
Proof.
  intros G Hd Hb Hl Hby. destruct (sector_bounds fs img b G Hb) as (H1 & H2 & Eu & E1 & E2).
  unfold ext2_write_block. rewrite Hd, Eu. pose proof (g_bs fs G) as Hbs.
  eapply (t_write_blocks True); [lia|lia|lia|done| |].
  - intros _. unfold upd. by rewrite E1.
  - intros i e _ Hs. specialize (Hs I). lia.
Qed.

(** A step that cannot fail, with its error handler. *)
Lemma t_bind_ok {A B} img (m : io W A) (k : rc A -> io W B) Q1 Q E :
  T img m Q1 -> (forall i a, Q1 i a -> triple d 512 i (k (Ok a)) Q E) -> triple d 512 img (bind (attempt m) k) Q E.
Proof. intros Hm Hk. eapply t_bind_attempt; [exact Hm|exact Hk|done]. Qed.

Lemma t_or_return {A} img x (m : io W A) Q E : T img m Q -> triple d 512 img (or_return x m) Q E.
Proof. intros Hm. unfold or_return. eapply t_bind_ok; [exact Hm|]. intros i a Ha. by apply t_ok. Qed.

Lemma t_or_fail {A} img e (m : io W A) Q E : T img m Q -> triple d 512 img (or_fail e m) Q E.
Proof. intros Hm. unfold or_fail. eapply t_bind_ok; [exact Hm|]. intros i a Ha. by apply t_ok. Qed.

Lemma t_weaken {A} img (m : io W A) Q E : T img m Q -> triple d 512 img m Q E.
Proof. intros Hm. eapply t_mono; [exact Hm|done|done]. Qed.

Lemma t_buffer {A} fs img e (body : list Z -> io W A) Q E :
  geo fs -> (forall buf, len buf = block_size fs -> Forall byte_ok buf -> triple d 512 img (body buf) Q E) ->
  triple d 512 img (with_buffer (block_size fs) e body) Q E.
Proof. intros G Hb. pose proof (bs_pos fs G). apply (t_with_buffer True); [lia|done|]. intros H1. by destruct H1. Qed.
End Io.
