(* ===== verification/Ext2Alloc.v ===== *)
(** * The ext2 driver: allocation of blocks

    The block bitmaps are the set of used blocks ([used]); [lay] says that the
    bitmap blocks are used themselves and in different places, that free blocks
    are on the device and that the counters are the numbers of clear bits.
    Allocation adds the first free block to the set, freeing takes one out. *)

From S2P Require Import Prelude Bytes Vfs BlockDev IoLogic FsBitmap Kstd Ext2 Ext2Proofs.

Section UsedBlocks.
Context (fs : ext2_fs) (G : geo fs).
Implicit Types (img : list Z).

Definition grp (b : Z) : Z := (b - first_block fs) / blocks_per_group fs.
Definition idx (b : Z) : Z := (b - first_block fs) mod blocks_per_group fs.

Definition covered (b : Z) : Prop :=
  first_block fs <= b < first_block fs + num_groups fs * blocks_per_group fs.

Definition used img (b : Z) : Prop := covered b /\ bit_of (eblk fs img (bbm fs (grp b))) (idx b) = true.

(** The block of bit [i] of group [g]. *)
Definition block_at (g i : Z) : Z := first_block fs + g * blocks_per_group fs + i.

Record lay img : Prop := {
  l_bbm g : 0 <= g < num_groups fs -> in_range fs img (bbm fs g) /\ used img (bbm fs g);
  l_inj g g' : 0 <= g < num_groups fs -> 0 <= g' < num_groups fs -> bbm fs g = bbm fs g' -> g = g';
  l_free b : covered b -> ~ used img b -> in_range fs img b /\ b <> 0;
  l_count g : 0 <= g < num_groups fs -> free_at fs g = cnt (eblk fs img (bbm fs g)) false 0 (blocks_per_group fs);
  l_total : s_free_blocks_count (sb fs) = sumZ (free_at fs) (seqZ 0 (num_groups fs))
}.

Lemma first_nonneg : 0 <= first_block fs.
Proof. apply field32_range; [apply G|lia|]. rewrite (g_sb _ G). done. Qed.

Lemma covered_parts b : covered b ->
  0 <= grp b < num_groups fs /\ 0 <= idx b < blocks_per_group fs /\ b = block_at (grp b) (idx b).
Proof.
  unfold covered, grp, idx, block_at. intros H. pose proof (g_bpg _ G). Z.div_mod_to_equations. nia.
Qed.

Lemma block_at_parts g i : 0 <= g < num_groups fs -> 0 <= i < blocks_per_group fs ->
  covered (block_at g i) /\ grp (block_at g i) = g /\ idx (block_at g i) = i.
Proof.
  unfold covered, grp, idx, block_at. intros Hg Hi. pose proof (g_bpg _ G).
  replace (first_block fs + g * blocks_per_group fs + i - first_block fs) with (i + g * blocks_per_group fs) by lia.
  rewrite Z.div_add, Z.mod_add, Z.div_small, Z.mod_small by lia. nia.
Qed.

Lemma covered_range b : covered b -> 0 <= b < 2 ^ 32.
Proof. pose proof first_nonneg. pose proof (g_blocks _ G). unfold covered. lia. Qed.

#[export] Instance used_dec img b : Decision (used img b).
Proof. unfold used, covered. apply _. Defined.
End UsedBlocks.

Section SameShape.
Context (fs fs' : ext2_fs) (G : geo fs) (S : same_shape fs fs').

Lemma shape_eblk img b : eblk fs' img b = eblk fs img b.
Proof. unfold eblk. by rewrite (ss_bs _ _ S). Qed.

Lemma shape_in_range img b : in_range fs' img b <-> in_range fs img b.
Proof. unfold in_range. by rewrite (ss_bs _ _ S). Qed.

Lemma shape_upd img b buf : upd fs' img b buf = upd fs img b buf.
Proof. unfold upd. by rewrite (ss_bs _ _ S). Qed.

Lemma shape_covered b : covered fs' b <-> covered fs b.
Proof. unfold covered. by rewrite (ss_first _ _ S), (ss_groups _ _ S), (ss_bpg _ _ S). Qed.

Lemma shape_grp b : grp fs' b = grp fs b.
Proof. unfold grp. by rewrite (ss_first _ _ S), (ss_bpg _ _ S). Qed.

Lemma shape_idx b : idx fs' b = idx fs b.
Proof. unfold idx. by rewrite (ss_first _ _ S), (ss_bpg _ _ S). Qed.

Lemma shape_used img b : used fs' img b <-> used fs img b.
Proof.
  unfold used. rewrite shape_covered, shape_grp, shape_idx, shape_eblk.
  split; intros [Hc Hb]; (split; [done|]); pose proof (covered_parts fs G b Hc) as (Hg & _);
    by rewrite (ss_bbm _ _ S) in *.
Qed.

Lemma geo_shape :
  len (bgdt fs') = len (bgdt fs) -> Forall byte_ok (bgdt fs') -> len (sb fs') = len (sb fs) -> Forall byte_ok (sb fs') ->
  geo fs'.
Proof.
  intros H1 H2 H3 H4. destruct G, S. constructor; try done; congruence.
Qed.
End SameShape.

(** ** The counters *)

Section Counters.
Context (fs : ext2_fs) (G : geo fs).

Lemma bgd_bounds g k : 0 <= g < num_groups fs -> 0 <= k <= 28 ->
  0 <= BGD_SIZE * g + k /\ BGD_SIZE * g + k + 4 <= len (bgdt fs).
Proof. intros. rewrite (g_bgdt _ G). unfold BGD_SIZE. lia. Qed.

Lemma bg_block_bitmap_ok g : 0 <= g < num_groups fs -> bg_block_bitmap fs g = Ret (bbm fs g).
Proof.
  intros Hg. pose proof (bgd_bounds g 0 Hg ltac:(lia)). unfold bg_block_bitmap, bbm, field32. apply get32_ok; lia.
Qed.

Lemma bg_inode_bitmap_ok g : 0 <= g < num_groups fs -> bg_inode_bitmap fs g = Ret (ibm fs g).
Proof. intros Hg. pose proof (bgd_bounds g 4 Hg ltac:(lia)). apply get32_ok; lia. Qed.

Lemma bg_inode_table_ok g : 0 <= g < num_groups fs -> bg_inode_table fs g = Ret (itab fs g).
Proof. intros Hg. pose proof (bgd_bounds g 8 Hg ltac:(lia)). apply get32_ok; lia. Qed.

Lemma bg_free_blocks_ok g : 0 <= g < num_groups fs -> bg_free_blocks_count fs g = Ret (free_at fs g).
Proof. intros Hg. pose proof (bgd_bounds g 12 Hg ltac:(lia)). apply get16_ok; lia. Qed.

Lemma bg_free_inodes_ok g : 0 <= g < num_groups fs ->
  bg_free_inodes_count fs g = Ret (field16 (bgdt fs) (BGD_SIZE * g + 14)).
Proof. intros Hg. pose proof (bgd_bounds g 14 Hg ltac:(lia)). apply get16_ok; lia. Qed.

Lemma bbm_range g : 0 <= g < num_groups fs -> 0 <= bbm fs g < 2 ^ 32.
Proof. intros Hg. pose proof (bgd_bounds g 0 Hg ltac:(lia)). apply field32_range; [apply G|lia|lia]. Qed.

(** One pair of counters changes, the rest of the descriptors does not. *)
Lemma add_free_ok g o so dx :
  0 <= g < num_groups fs -> (o = 12 /\ so = 12) \/ (o = 14 /\ so = 16) ->
  exists fs', add_free fs g o so dx = Ret fs' /\ same_shape fs fs' /\ geo fs' /\
    (forall g' o', 0 <= g' < num_groups fs -> o' = 12 \/ o' = 14 ->
       field16 (bgdt fs') (BGD_SIZE * g' + o') =
       if (g' =? g) && (o' =? o) then u16 (field16 (bgdt fs) (BGD_SIZE * g + o) + dx)
       else field16 (bgdt fs) (BGD_SIZE * g' + o')) /\
    (forall so', so' = 12 \/ so' = 16 ->
       field32 (sb fs') so' = if so' =? so then u32 (field32 (sb fs) so + dx) else field32 (sb fs) so').
Proof.
  intros Hg Ho. pose proof (bgd_bounds g o Hg ltac:(lia)) as Hb. pose proof (g_sb _ G) as Hsb. unfold SB_SIZE in Hsb.
  unfold add_free. rewrite get16_ok by lia. cbn [mbind outcome_bind]. rewrite put16_ok by lia. cbn [mbind outcome_bind].
  eexists. split; [done|]. fold (field16 (bgdt fs) (BGD_SIZE * g + o)).
  set (v := u16 _). set (v32 := u32 _).
  assert (Hv : 0 <= v < 2 ^ 16) by apply u16_range. assert (Hv32 : 0 <= v32 < 2 ^ 32) by apply u32_range.
  assert (Hl : len (le_bytes 2 v) = 2) by size. assert (Hl' : len (le_bytes 4 v32) = 4) by size.
  assert (Hne : forall k, 0 <= k -> k + 4 <= 12 -> forall g', 0 <= g' < num_groups fs ->
    field32 (splice (bgdt fs) (BGD_SIZE * g + o) (le_bytes 2 v)) (BGD_SIZE * g' + k) = field32 (bgdt fs) (BGD_SIZE * g' + k)).
  { intros k Hk1 Hk2 g' Hg'. apply field32_splice_ne; unfold BGD_SIZE in *; lia. }
  assert (Hs : same_shape fs (set_sb (set_bgdt fs (splice (bgdt fs) (BGD_SIZE * g + o) (le_bytes 2 v)))
    (set_field32 (sb fs) so v32))).
  { constructor; try done.
    - unfold first_block, s_first_data_block. cbn. apply field32_splice_ne; lia.
    - intros g' Hg'. unfold bbm. cbn. specialize (Hne 0 ltac:(lia) ltac:(lia) g' Hg'). by rewrite Z.add_0_r in Hne.
    - intros g' Hg'. apply Hne; lia.
    - intros g' Hg'. apply Hne; lia. }
  split; [done|]. split; [|split].
  - apply (geo_shape fs); [done|done|apply len_splice; lia| |apply len_set_field32; lia|].
    + apply splice_Forall; [apply G|apply le_bytes_ok].
    + apply set_field32_bytes, G.
  - intros g' o' Hg' Ho'. cbn [set_sb set_bgdt bgdt sb]. destruct (Z.eqb_spec g' g) as [->|Hg1]; cbn [andb].
    + destruct (Z.eqb_spec o' o) as [->|Ho1].
      * apply set_field16_eq; lia.
      * apply field16_splice_ne; unfold BGD_SIZE in *; lia.
    + apply field16_splice_ne; unfold BGD_SIZE in *; lia.
  - intros so' Hso'. cbn [set_sb set_bgdt bgdt sb]. destruct (Z.eqb_spec so' so) as [->|Hs1]; [apply set_field32_eq; lia|].
    apply field32_splice_ne; lia.
Qed.
End Counters.

(** ** Bitmap blocks *)

Lemma find_clear_ok bm n : forall i, 0 <= i -> i + Z.of_nat n <= 8 * len bm ->
  runs_to (find_clear n bm i) (fun r =>
    match r with
    | None => none_of bm false i (i + Z.of_nat n)
    | Some k => i <= k < i + Z.of_nat n /\ bit_of bm k = false /\ none_of bm false i k
    end).
Proof.
  induction n as [|n IH]; intros i Hi Hn; cbn [find_clear].
  { intros k Hk. lia. }
  rewrite bitmap_test_ok by lia. cbn [mbind outcome_bind]. destruct (bit_of bm i) eqn:E.
  - assert (H1 : none_of bm false i (i + 1)). { intros k Hk. replace k with i by lia. by rewrite E. }
    eapply runs_to_mono; [apply IH; lia|]. intros [k|].
    + intros (Hk & Hb & Hnone). split_and!; [lia|lia|done|]. by eapply none_of_app.
    + intros Hnone. eapply none_of_app; [done|]. by replace (i + Z.of_nat (S n)) with (i + 1 + Z.of_nat n) by lia.
  - cbn [runs_to]. split_and!; [lia|lia|done|]. intros k Hk. lia.
Qed.

Section BitmapIo.
Context {W : Type} `{OK : FsWorldOk W} {RL : Reliable W True}.
Context (d : Z).
Implicit Types (fs : ext2_fs) (img : list Z).

Abbreviation T img m Q := (triple d 512 img m Q (fun _ _ => False)).

(** The image after one bit of the bitmap in block [b] has been given a value. *)
Definition bit_set_to fs img img' (b i : Z) (v : bool) : Prop :=
  exists bm', set_to (eblk fs img b) bm' i v /\ img' = upd fs img b bm'.

Lemma take_bit_ok fs img b nb :
  geo fs -> block_dev fs = d -> in_range fs img b -> 0 <= nb <= 8 * block_size fs ->
  T img (take_bit fs b nb) (fun img' r =>
    match r with
    | None => img' = img /\ none_of (eblk fs img b) false 0 nb
    | Some i => 0 <= i < nb /\ bit_of (eblk fs img b) i = false /\ none_of (eblk fs img b) false 0 i /\
                bit_set_to fs img img' b i true
    end).
Proof.
  intros G Hd Hb Hnb. unfold take_bit. apply t_bytes. intros Hby. pose proof (len_eblk fs G img b Hb) as Hl.
  apply t_buffer; [done|]. intros buf Hbuf _. apply t_or_return.
  eapply t_bind; [by apply t_read_block|]. intros ? bm [-> ->].
  pose proof (find_clear_ok (eblk fs img b) (Z.to_nat nb) 0 ltac:(lia) ltac:(rewrite Hl; lia)) as Hf.
  apply runs_to_inv in Hf as (r & Er & Hr). rewrite Z2Nat.id, Z.add_0_l in Hr by lia.
  eapply t_bind_lift; [exact Er|]. destruct r as [i|].
  - destruct Hr as (Hi & Hbit & Hnone).
    pose proof (bitmap_set_ok (eblk fs img b) i (eblk_bytes fs img b Hby) ltac:(rewrite Hl; lia)) as Hs.
    apply runs_to_inv in Hs as (bm' & Es & Hs). eapply t_bind_lift; [exact Es|].
    pose proof Hs as (Hlen & Hby' & _).
    eapply t_bind_ok; [apply t_write_block; [done|done|done|lia|done]|]. intros i' _ ->. apply t_ok.
    split; [lia|]. split; [done|]. split; [done|]. by exists bm'.
  - apply t_ok. done.
Qed.

Lemma clear_bit_of_ok fs img b i :
  geo fs -> block_dev fs = d -> in_range fs img b -> 0 <= i < 8 * block_size fs ->
  T img (clear_bit_of fs b i) (fun img' r => r = true /\ bit_set_to fs img img' b i false).
Proof.
  intros G Hd Hb Hi. unfold clear_bit_of. apply t_bytes. intros Hby. pose proof (len_eblk fs G img b Hb) as Hl.
  apply t_or_return, t_buffer; [done|]. intros buf Hbuf _.
  eapply t_bind; [by apply t_read_block|]. intros ? bm [-> ->].
  pose proof (bitmap_clear_ok (eblk fs img b) i (eblk_bytes fs img b Hby) ltac:(rewrite Hl; lia)) as Hs.
  apply runs_to_inv in Hs as (bm' & Es & Hs). eapply t_bind_lift; [exact Es|].
  pose proof Hs as (Hlen & Hby' & _).
  eapply t_bind_ok; [apply t_write_block; [done|done|done|lia|done]|]. intros i' _ ->. apply t_ok.
  split; [done|]. by exists bm'.
Qed.
End BitmapIo.

(** ** One block more or less *)

(** The counters and one bit have changed: block [b] is used iff [v]. *)
Record moved (fs : ext2_fs) (img : list Z) (fs' : ext2_fs) (img' : list Z) (b : Z) (v : bool) : Prop := {
  mv_shape : same_shape fs fs';
  mv_geo : geo fs';
  mv_lay : lay fs' img';
  mv_len : len img' = len img;
  mv_used : forall c, used fs' img' c <-> if decide (c = b) then v = true else used fs img c;
  mv_frame : forall c, 0 <= c -> c <> bbm fs (grp fs b) -> eblk fs img' c = eblk fs img c;
  mv_total : s_free_blocks_count (sb fs') = s_free_blocks_count (sb fs) + (if v then -1 else 1)
}.

Arguments mv_shape {_ _ _ _ _ _} _.
Arguments mv_geo {_ _ _ _ _ _} _.
Arguments mv_lay {_ _ _ _ _ _} _.
Arguments mv_len {_ _ _ _ _ _} _.
Arguments mv_used {_ _ _ _ _ _} _.
Arguments mv_frame {_ _ _ _ _ _} _.
Arguments mv_total {_ _ _ _ _ _} _.

Lemma cnt_change bm bm' k v n :
  set_to bm bm' k v -> bit_of bm k = negb v -> 0 <= k < n ->
  cnt bm' false 0 n = cnt bm false 0 n + (if v then -1 else 1).
Proof.
  intros (_ & _ & Hs) Hb Hk. unfold cnt.
  rewrite (sumZ_point (fun k => Z.b2z (Bool.eqb (bit_of bm k) false)) _ _ k); [|apply NoDup_seqZ|apply elem_of_seqZ; lia|].
  - rewrite Hs, Z.eqb_refl, Hb by lia. by destruct v.
  - intros j Hj Hne. apply elem_of_seqZ in Hj. rewrite Hs by lia. by rewrite (proj2 (Z.eqb_neq _ _)).
Qed.

Lemma cnt_bounds bm n : 0 <= n -> 0 <= cnt bm false 0 n <= n.
Proof.
  intros Hn. pose proof (cnt_complement bm 0 n Hn). pose proof (cnt_nonneg bm false 0 n).
  pose proof (cnt_nonneg bm true 0 n). lia.
Qed.

Lemma cnt_none bm n : 0 <= n -> cnt bm false 0 n = 0 -> none_of bm false 0 n.
Proof.
  intros Hn Hz k Hk E. unfold cnt in Hz.
  pose proof (sumZ_elem_le (fun k => Z.b2z (Bool.eqb (bit_of bm k) false)) (seqZ 0 (n - 0)) k) as Hle.
  rewrite Hz, E in Hle. cbn in Hle. enough (1 <= 0) by lia. apply Hle; [|apply elem_of_seqZ; lia].
  intros j _. by destruct (Bool.eqb _ _).
Qed.

Section Change.
Context (fs : ext2_fs) (img : list Z) (b : Z) (v : bool).
Context (G : geo fs) (L : lay fs img) (Hc : covered fs b).
Hypothesis Hbit : bit_of (eblk fs img (bbm fs (grp fs b))) (idx fs b) = negb v.
(** A block that becomes free is on the device and not a bitmap. *)
Hypothesis Hfree : v = false ->
  in_range fs img b /\ b <> 0 /\ forall g, 0 <= g < num_groups fs -> b <> bbm fs g.

(** Bounds on a sum of group counters. *)
Lemma counts_bound (f : Z -> Z) :
  (forall g, 0 <= g < num_groups fs -> 0 <= f g <= blocks_per_group fs) ->
  0 <= sumZ f (seqZ 0 (num_groups fs)) < 2 ^ 32.
Proof.
  intros Hf. pose proof (g_groups _ G) as [Hg _]. pose proof (g_blocks _ G). pose proof (first_nonneg fs G).
  assert (Hle : sumZ f (seqZ 0 (num_groups fs)) <= sumZ (fun _ => blocks_per_group fs) (seqZ 0 (num_groups fs))).
  { apply sumZ_le. intros g ?%elem_of_seqZ. apply Hf. lia. }
  rewrite sumZ_const, len_seqZ in Hle by lia. split; [|lia].
  apply sumZ_nonneg. intros g ?%elem_of_seqZ. apply Hf. lia.
Qed.

Context (fs' : ext2_fs) (img' : list Z).
Hypothesis Hset : bit_set_to fs img img' (bbm fs (grp fs b)) (idx fs b) v.

Lemma change_len : len img' = len img.
Proof.
  destruct Hset as (bm' & (Hl & _) & ->). destruct (covered_parts fs G b Hc) as (Hg & _).
  destruct (l_bbm _ _ L _ Hg) as [Hr _]. rewrite (len_eblk fs G img _ Hr) in Hl. by apply len_upd.
Qed.

Lemma change_frame c : 0 <= c -> c <> bbm fs (grp fs b) -> eblk fs img' c = eblk fs img c.
Proof.
  intros H1 H2. destruct Hset as (bm' & (Hl & _) & ->). destruct (covered_parts fs G b Hc) as (Hg & _).
  destruct (l_bbm _ _ L _ Hg) as [Hr _]. rewrite (len_eblk fs G img _ Hr) in Hl. by apply eblk_upd_ne.
Qed.

(** The bitmap of every group afterwards. *)
Lemma change_bitmap g : 0 <= g < num_groups fs ->
  if decide (g = grp fs b) then set_to (eblk fs img (bbm fs g)) (eblk fs img' (bbm fs g)) (idx fs b) v
  else eblk fs img' (bbm fs g) = eblk fs img (bbm fs g).
Proof.
  intros Hg. destruct (covered_parts fs G b Hc) as (Hgb & _). destruct (decide (g = grp fs b)) as [->|Hne].
  - destruct Hset as (bm' & Hs & ->). pose proof Hs as (Hl & _).
    destruct (l_bbm _ _ L _ Hgb) as [Hr _]. rewrite (len_eblk fs G img _ Hr) in Hl. by rewrite eblk_upd_eq.
  - apply change_frame; [apply (bbm_range fs G g Hg)|]. intros E. by apply Hne, (l_inj _ _ L).
Qed.

Lemma change_used c : used fs img' c <-> if decide (c = b) then v = true else used fs img c.
Proof.
  unfold used. destruct (decide (c = b)) as [->|Hne].
  - destruct (covered_parts fs G b Hc) as (Hg & Hi & _). pose proof (change_bitmap _ Hg) as Hs.
    rewrite decide_True in Hs by done. destruct Hs as (_ & _ & Hs). rewrite Hs, Z.eqb_refl by lia. naive_solver.
  - enough (Hb : covered fs c -> bit_of (eblk fs img' (bbm fs (grp fs c))) (idx fs c) =
                                bit_of (eblk fs img (bbm fs (grp fs c))) (idx fs c)).
    { split; intros [H1 H2]; (split; [done|]); by rewrite Hb in *. }
    intros Hcc. destruct (covered_parts fs G c Hcc) as (Hg & Hi & Ec). pose proof (change_bitmap _ Hg) as Hs.
    destruct (decide (grp fs c = grp fs b)) as [Eg|]; [|by rewrite Hs]. destruct Hs as (_ & _ & Hs).
    rewrite Hs by lia. destruct (Z.eqb_spec (idx fs c) (idx fs b)) as [Ei|]; [|done]. exfalso. apply Hne.
    destruct (covered_parts fs G b Hc) as (_ & _ & Eb). by rewrite Ec, Eb, Eg, Ei.
Qed.

Lemma change_count g : 0 <= g < num_groups fs ->
  cnt (eblk fs img' (bbm fs g)) false 0 (blocks_per_group fs) =
  free_at fs g + (if decide (g = grp fs b) then if v then -1 else 1 else 0).
Proof.
  intros Hg. rewrite (l_count _ _ L g Hg). pose proof (change_bitmap g Hg) as Hs.
  destruct (decide (g = grp fs b)) as [->|]; [|rewrite Hs; lia].
  destruct (covered_parts fs G b Hc) as (_ & Hi & _). by apply (cnt_change _ _ (idx fs b)).
Qed.

Hypothesis Hadd : add_free_blocks fs (grp fs b) (if v then -1 else 1) = Ret fs'.

Lemma change_counters :
  same_shape fs fs' /\ geo fs' /\
  (forall g, 0 <= g < num_groups fs -> free_at fs' g = cnt (eblk fs img' (bbm fs g)) false 0 (blocks_per_group fs)) /\
  s_free_blocks_count (sb fs') = s_free_blocks_count (sb fs) + (if v then -1 else 1) /\
  s_free_blocks_count (sb fs') = sumZ (free_at fs') (seqZ 0 (num_groups fs)).
Proof.
  destruct (covered_parts fs G b Hc) as (Hg & Hi & _). pose proof (g_bpg _ G). pose proof (g_bpg16 _ G).
  destruct (add_free_ok fs G (grp fs b) 12 12 (if v then -1 else 1) Hg ltac:(by left)) as (f & E & HS & G' & Hcnt & Htot).
  unfold add_free_blocks in Hadd. rewrite Hadd in E. injection E as <-. split; [done|]. split; [done|].
  assert (Hf : forall g, 0 <= g < num_groups fs -> free_at fs' g = cnt (eblk fs img' (bbm fs g)) false 0 (blocks_per_group fs)).
  { intros g Hgr. rewrite change_count by done. unfold free_at at 1. rewrite Hcnt by (try done; by left).
    rewrite Z.eqb_refl, andb_true_r. destruct (Z.eqb_spec g (grp fs b)) as [->|Hne].
    - rewrite decide_True by done. fold (free_at fs (grp fs b)). apply u16_id.
      pose proof (change_count (grp fs b) Hg) as Hcc. rewrite decide_True in Hcc by done.
      pose proof (cnt_bounds (eblk fs img' (bbm fs (grp fs b))) (blocks_per_group fs) ltac:(lia)). lia.
    - rewrite decide_False by done. fold (free_at fs g). lia. }
  split; [done|].
  assert (Hsum : sumZ (free_at fs') (seqZ 0 (num_groups fs)) =
    sumZ (free_at fs) (seqZ 0 (num_groups fs)) + (if v then -1 else 1)).
  { rewrite (sumZ_point (free_at fs) _ _ (grp fs b)); [|apply NoDup_seqZ|apply elem_of_seqZ; lia|].
    - rewrite Hf, change_count, decide_True by done. lia.
    - intros g ?%elem_of_seqZ Hne. rewrite Hf, change_count, decide_False by (done || lia). lia. }
  enough (Et : s_free_blocks_count (sb fs') = s_free_blocks_count (sb fs) + (if v then -1 else 1)).
  { split; [done|]. rewrite Hsum, Et. by rewrite (l_total _ _ L). }
  unfold s_free_blocks_count at 1. rewrite Htot by (by left). rewrite Z.eqb_refl.
  change (field32 (sb fs) 12) with (s_free_blocks_count (sb fs)). rewrite (l_total _ _ L), <- Hsum. apply u32_id.
  apply counts_bound. intros g Hgr. rewrite Hf by done. apply cnt_bounds. lia.
Qed.

Lemma change_ok : moved fs img fs' img' b v.
Proof.
  destruct change_counters as (HS & G' & Hcnt & Htot & Hsum). pose proof change_len as Hlen. pose proof change_frame as Hfr.
  assert (Hu : forall c, used fs' img' c <-> if decide (c = b) then v = true else used fs img c).
  { intros c. rewrite (shape_used fs fs' G HS). apply change_used. }
  constructor; [done|done| |exact Hlen|done|exact Hfr|done].
  constructor.
  - intros g. rewrite (ss_groups _ _ HS). intros Hg. rewrite (ss_bbm _ _ HS) by done.
    destruct (l_bbm _ _ L g Hg) as [Hr Hug]. split.
    + apply (shape_in_range fs fs' HS). eapply in_range_len; [exact Hlen|done].
    + apply Hu. destruct (decide (bbm fs g = b)) as [Eb|]; [|done].
      destruct v; [done|]. destruct (Hfree eq_refl) as (_ & _ & Hnb). by destruct (Hnb g Hg).
  - intros g g'. rewrite (ss_groups _ _ HS). intros Hg Hg'. rewrite !(ss_bbm _ _ HS) by done. by apply (l_inj _ _ L).
  - intros c Hcc Hnu. rewrite (shape_covered fs fs' HS) in Hcc. rewrite Hu in Hnu.
    rewrite (shape_in_range fs fs' HS). destruct (decide (c = b)) as [->|].
    + destruct v; [done|]. destruct (Hfree eq_refl) as (Hr & Hnz & _). split; [|done].
      eapply in_range_len; [exact Hlen|done].
    + destruct (l_free _ _ L c Hcc Hnu) as [Hr Hnz]. split; [|done]. eapply in_range_len; [exact Hlen|done].
  - intros g. rewrite (ss_groups _ _ HS), (ss_bpg _ _ HS). intros Hg.
    rewrite (ss_bbm _ _ HS), (shape_eblk fs fs' HS) by done. by apply Hcnt.
  - by rewrite (ss_groups _ _ HS).
Qed.
End Change.

(** ** Allocation and freeing *)

(** The outcome of an allocation among the blocks that satisfy [P]: none of them
    is free, or the first free one is used now. *)
Definition allocated (P : Z -> Prop) fs img fs' img' (b : Z) : Prop :=
  (b = 0 /\ fs' = fs /\ img' = img /\ forall c, covered fs c -> P c -> used fs img c) \/
  (b <> 0 /\ covered fs b /\ P b /\ ~ used fs img b /\ in_range fs img b /\ moved fs img fs' img' b true /\
   forall c, covered fs c -> P c -> c < b -> used fs img c).

Section AllocIo.
Context {W : Type} `{OK : FsWorldOk W} {RL : Reliable W True}.
Context (d : Z).
Implicit Types (fs : ext2_fs) (img : list Z).

Abbreviation T img m Q := (triple d 512 img m Q (fun _ _ => False)).

Lemma full_group fs img g :
  geo fs -> 0 <= g < num_groups fs -> none_of (eblk fs img (bbm fs g)) false 0 (blocks_per_group fs) ->
  forall c, covered fs c -> grp fs c = g -> used fs img c.
Proof.
  intros G Hg Hn c Hc <-. split; [done|]. destruct (covered_parts fs G c Hc) as (_ & Hi & _).
  specialize (Hn _ Hi). by destruct (bit_of _ _).
Qed.

Lemma alloc_in_group_ok fs img g :
  geo fs -> lay fs img -> block_dev fs = d -> 0 <= g < num_groups fs ->
  T img (ext2_alloc_block_in_group fs g) (fun img' '(fs', b) => allocated (fun c => grp fs c = g) fs img fs' img' b).
Proof.
  intros G L Hd Hg. unfold ext2_alloc_block_in_group. pose proof (g_bpg _ G) as Hbpg.
  eapply t_bind_lift; [by apply bg_free_blocks_ok|]. destruct (l_bbm _ _ L g Hg) as [Hr _].
  destruct (Z.eqb_spec (free_at fs g) 0) as [E0|].
  { apply t_ok. left. split_and!; try done. apply full_group; [done|done|]. rewrite (l_count _ _ L g Hg) in E0.
    by apply cnt_none; [lia|]. }
  eapply t_bind_lift; [by apply bg_block_bitmap_ok|].
  eapply t_bind; [apply t_or_return, take_bit_ok; [done|done|done|lia]|].
  intros img' [i|].
  2: { intros [-> Hnone]. apply t_ok. left. split_and!; try done. by apply full_group. }
  intros (Hi & Hbit & Hnone & Hset). destruct (block_at_parts fs G g i Hg Hi) as (Hc & Eg & Ei).
  pose proof (covered_range fs G _ Hc) as Hrange. pose proof (first_nonneg fs G).
  replace (u32 (s_first_data_block (sb fs) + u32 (g * blocks_per_group fs) + i)) with (block_at fs g i).
  2: { unfold block_at in *. fold (first_block fs). rewrite (u32_id (g * _)), u32_id; nia. }
  destruct (add_free_ok fs G g 12 12 (-1) Hg ltac:(by left)) as (fs' & E & _).
  eapply t_bind_lift; [exact E|]. apply t_ok.
  assert (Hnu : ~ used fs img (block_at fs g i)). { intros [_ H1]. rewrite Eg, Ei in H1. congruence. }
  destruct (l_free _ _ L _ Hc Hnu) as [Hir Hnz].
  right. split_and!; [done|done|done|done|done| |].
  - apply change_ok; [done|done|done| |done| |]; rewrite ?Eg, ?Ei; done.
  - intros c Hcc Egc Hlt. split; [done|]. destruct (covered_parts fs G c Hcc) as (_ & Hic & Ec).
    rewrite Egc in Ec |- *. specialize (Hnone (idx fs c) ltac:(unfold block_at in *; lia)). by apply not_false_is_true.
Qed.

Lemma grp_mono fs b c : geo fs -> covered fs b -> covered fs c -> b < c -> grp fs b <= grp fs c.
Proof.
  intros G Hb Hc Hlt. pose proof (g_bpg _ G). unfold grp. apply Z.div_le_mono; lia.
Qed.

Lemma alloc_groups_ok n : forall fs img g,
  geo fs -> lay fs img -> block_dev fs = d -> 0 <= g -> g + Z.of_nat n = num_groups fs ->
  T img (alloc_groups n fs g) (fun img' '(fs', b) => allocated (fun c => g <= grp fs c) fs img fs' img' b).
Proof.
  induction n as [|n IH]; intros fs img g G L Hd Hg Hn; cbn [alloc_groups].
  { apply t_ok. left. split_and!; try done. intros c Hc Hgc. destruct (covered_parts fs G c Hc) as (? & _). lia. }
  eapply t_bind; [apply alloc_in_group_ok; [done|done|done|lia]|].
  intros img' [fs' b] [(-> & -> & -> & Hfull)|(Hnz & Hc & Egb & Hnu & Hr & Hmv & Hmin)].
  - rewrite Z.eqb_refl. cbn [negb]. eapply t_mono; [apply IH; [done|done|done|lia|lia]| |done].
    intros img'' [fs'' b] [(-> & -> & -> & Hf)|(Hnz & Hc & Hgb & Hnu & Hr & Hmv & Hmin)].
    + left. split_and!; try done. intros c Hc Hgc. destruct (decide (grp fs c = g)); [by apply Hfull|]. apply Hf; [done|lia].
    + right. split_and!; try done; [lia|]. intros c Hcc Hgc Hlt.
      destruct (decide (grp fs c = g)); [by apply Hfull|]. apply Hmin; [done|lia|done].
  - rewrite (proj2 (Z.eqb_neq _ _)) by done. cbn [negb]. apply t_ok. right. split_and!; try done; [lia|].
    intros c Hcc Hgc Hlt. apply Hmin; [done| |done]. pose proof (grp_mono fs c b G Hcc Hc Hlt). lia.
Qed.

(** Allocation returns the first free block of the volume, or 0 when there is
    none. *)
Lemma ext2_alloc_block_ok fs img :
  geo fs -> lay fs img -> block_dev fs = d ->
  T img (ext2_alloc_block fs) (fun img' '(fs', b) => allocated (fun _ => True) fs img fs' img' b).
Proof.
  intros G L Hd. pose proof (g_groups _ G). unfold ext2_alloc_block.
  eapply t_mono; [apply alloc_groups_ok; [done|done|done|lia|lia]| |done].
  assert (Hg : forall c, covered fs c -> 0 <= grp fs c) by (intros c Hc; apply (covered_parts fs G c Hc)).
  intros img' [fs' b] [(-> & -> & -> & Hf)|(Hnz & Hc & Hgb & Hnu & Hr & Hmv & Hmin)]; [left|right]; naive_solver.
Qed.

Lemma free_block_ok fs img b :
  geo fs -> lay fs img -> block_dev fs = d -> used fs img b -> in_range fs img b -> b <> 0 ->
  (forall g, 0 <= g < num_groups fs -> b <> bbm fs g) ->
  T img (ext2_free_block fs b) (fun img' fs' => moved fs img fs' img' b false).
Proof.
  intros G L Hd [Hc Hbit] Hr Hnz Hnb. destruct (covered_parts fs G b Hc) as (Hg & Hi & Eb).
  pose proof (g_bpg _ G) as Hbpg. unfold ext2_free_block. fold (first_block fs).
  rewrite (proj2 (Z.ltb_ge _ _)) by (unfold covered in Hc; lia).
  assert (Hz : (blocks_per_group fs =? 0) = false) by (apply Z.eqb_neq; lia).
  eapply t_bind_lift; [unfold udiv; by rewrite Hz|]. eapply t_bind_lift; [unfold umod; by rewrite Hz|].
  fold (grp fs b) (idx fs b). rewrite (proj2 (Z.leb_gt _ _)) by lia.
  eapply t_bind_lift; [by apply bg_block_bitmap_ok|]. destruct (l_bbm _ _ L _ Hg) as [Hrb _].
  eapply t_bind; [apply clear_bit_of_ok; [done|done|done|lia]|]. intros img' r [-> Hset].
  destruct (add_free_ok fs G (grp fs b) 12 12 1 Hg ltac:(by left)) as (fs' & E & _).
  eapply t_lift; [exact E|]. by apply change_ok.
Qed.
End AllocIo.
