(* ===== verification/Ext2Map.v ===== *)
(** * The ext2 driver: the block map of an inode

    An inode points to the blocks of its file directly and through up to three
    levels of pointer blocks.  [walk img b l] follows the indices [l] from block
    [b]; ext2_bmap is a walk along [path_of lbn], and ext2_bmap_set changes the
    value of one walk and of no other, provided the blocks of the tree are
    different ones.  The levels of the code are one step of the tree
    ([node_step]), applied once, twice or three times. *)

From S2P Require Import Prelude Bytes Vfs BlockDev IoLogic FsBitmap Kstd Ext2 Ext2Proofs Ext2Alloc.

#[export] Instance in_range_dec fs img b : Decision (in_range fs img b).
Proof. unfold in_range. apply _. Defined.

(** ** Walks *)

Section Walks.
Context (fs : ext2_fs) (G : geo fs).
Implicit Types (img : list Z) (l : list Z).

Definition ppb : Z := PTRS_PER_BLOCK fs.

(** Entry [i] of pointer block [b]; a missing block has only empty entries, and
    so has one outside the device, which cannot be read. *)
Definition ptr img (b i : Z) : Z :=
  if decide (b <> 0 /\ in_range fs img b) then field32 (eblk fs img b) (4 * i) else 0.

Definition walk img (b : Z) l : Z := foldl (ptr img) b l.

Definition index_ok (i : Z) : Prop := 0 <= i < ppb.

Lemma ppb_bounds : 256 <= ppb < 16384 /\ 4 * ppb = block_size fs.
Proof.
  pose proof (bs_pos fs G). pose proof (g_bs _ G) as E. unfold ppb, PTRS_PER_BLOCK. rewrite E in *.
  Z.div_mod_to_equations. lia.
Qed.

Lemma ptr_zero img i : ptr img 0 i = 0.
Proof. unfold ptr. by rewrite decide_False by naive_solver. Qed.

Lemma walk_zero img l : walk img 0 l = 0.
Proof. unfold walk. induction l as [|i l IH]; [done|]. cbn [foldl]. by rewrite ptr_zero. Qed.

Lemma walk_cons img b i l : walk img b (i :: l) = walk img (ptr img b i) l.
Proof. done. Qed.

Lemma ptr_range img b i : Forall byte_ok img -> index_ok i -> 0 <= ptr img b i < 2 ^ 32.
Proof.
  intros Hb [H1 H2]. unfold ptr. destruct (decide _) as [[Hnz Hr]|]; [|lia]. pose proof ppb_bounds.
  apply field32_range; [by apply eblk_bytes|lia|]. rewrite (len_eblk fs G) by done. lia.
Qed.

Lemma walk_range img l : Forall byte_ok img -> Forall index_ok l -> forall b, 0 <= b < 2 ^ 32 -> 0 <= walk img b l < 2 ^ 32.
Proof.
  intros Hb Hl. induction Hl as [|i l Hi Hl IH]; intros b Hbr; [done|]. rewrite walk_cons.
  by apply IH, ptr_range.
Qed.

(** [m] is a proper prefix of [l]. *)
Definition ppre (m l : list Z) : Prop := exists j r, l = m ++ j :: r.

Lemma ppre_nil i l : ppre [] (i :: l).
Proof. by exists i, l. Qed.

Lemma ppre_cons i m l : ppre m l -> ppre (i :: m) (i :: l).
Proof. intros (j & r & ->). by exists j, r. Qed.

Lemma ppre_inv m i l : ppre m (i :: l) -> m = [] \/ exists m', m = i :: m' /\ ppre m' l.
Proof.
  intros (j & r & E). destruct m as [|x m]; [by left|right]. injection E as -> ->. exists m. split; [done|]. by exists j, r.
Qed.

Lemma ppre_length m l : ppre m l -> (length m < length l)%nat.
Proof. intros (j & r & ->). rewrite length_app. cbn. lia. Qed.

Lemma ppre_Forall P m l : ppre m l -> Forall P l -> Forall P m.
Proof. intros (j & r & ->) H. by apply Forall_app in H as [? _]. Qed.

Lemma ppre_trans m n l : ppre m n -> ppre n l -> ppre m l.
Proof. intros (j & r & ->) (j' & r' & ->). exists j, (r ++ j' :: r'). by rewrite <- app_assoc. Qed.

Lemma walk_ppre_zero img b m l : ppre m l -> walk img b m = 0 -> walk img b l = 0.
Proof.
  intros (j & r & ->) E. unfold walk in *. rewrite foldl_app, E. exact (walk_zero img (j :: r)).
Qed.

(** A walk only depends on the blocks it passes. *)
Lemma walk_agree img img' l : len img' = len img -> forall b,
  (forall m, ppre m l -> walk img b m <> 0 -> in_range fs img (walk img b m) ->
     eblk fs img' (walk img b m) = eblk fs img (walk img b m)) ->
  walk img' b l = walk img b l.
Proof.
  intros Hlen. induction l as [|i l IH]; intros b Hag; [done|]. rewrite !walk_cons.
  assert (E : ptr img' b i = ptr img b i).
  { unfold ptr. destruct (decide (b <> 0 /\ in_range fs img b)) as [[Hnz Hr]|Hn].
    - rewrite decide_True by (split; [done|by eapply in_range_len]). f_equal.
      apply (Hag []); [apply ppre_nil|done|done].
    - rewrite decide_False; [done|]. intros [Hnz Hr]. apply Hn. split; [done|]. by eapply in_range_len. }
  rewrite E. apply IH. intros m Hm. apply (Hag (i :: m)). by apply ppre_cons.
Qed.

(** Entries of a pointer block that has just been written. *)
Lemma ptr_upd img b buf j :
  in_range fs img b -> b <> 0 -> len buf = block_size fs -> ptr (upd fs img b buf) b j = field32 buf (4 * j).
Proof.
  intros Hr Hnz Hl. unfold ptr. rewrite decide_True by (split; [done|by apply in_range_upd]).
  by rewrite eblk_upd_eq.
Qed.

(** ** Trees of blocks *)

Definition vpath (k : nat) l : Prop := (length l <= k)%nat /\ Forall index_ok l.

(** A block that belongs to a file: used, on the device, not a bitmap. *)
Record owned img (c : Z) : Prop := {
  ow_used : used fs img c;
  ow_range : in_range fs img c;
  ow_data : forall g, 0 <= g < num_groups fs -> c <> bbm fs g
}.

(** All blocks of the tree below [b], of [k] levels, are different and owned. *)
Record tree img (b : Z) (k : nat) : Prop := {
  tr_sep l1 l2 : vpath k l1 -> vpath k l2 -> walk img b l1 = walk img b l2 -> walk img b l1 <> 0 -> l1 = l2;
  tr_own l : vpath k l -> walk img b l <> 0 -> owned img (walk img b l)
}.

Lemma vpath_cons k i l : vpath (S k) (i :: l) <-> index_ok i /\ vpath k l.
Proof. unfold vpath. cbn [length]. rewrite Forall_cons. split; intros; (split_and?; try lia); naive_solver lia. Qed.

Lemma vpath_nil k : vpath k [].
Proof. split; [cbn; lia|constructor]. Qed.

Lemma tree_child img b k i : tree img b (S k) -> index_ok i -> tree img (ptr img b i) k.
Proof.
  intros [Hs Ho] Hi. constructor.
  - intros l1 l2 H1 H2 E Hnz. assert (E' : i :: l1 = i :: l2) by (apply Hs; [by apply vpath_cons..|done|done]). by injection E'.
  - intros l Hl Hnz. apply (Ho (i :: l)); [by apply vpath_cons|done].
Qed.

Lemma tree_empty img k : tree img 0 k.
Proof. constructor; intros; by rewrite walk_zero in *. Qed.
End Walks.

Arguments tr_sep {_ _ _ _} _.
Arguments tr_own {_ _ _ _} _.
Arguments ow_used {_ _ _} _.
Arguments ow_range {_ _ _} _.
Arguments ow_data {_ _ _} _.

(** ** Changing one walk *)

Definition not_bitmap fs (c : Z) : Prop := forall g, 0 <= g < num_groups fs -> c <> bbm fs g.

(** A pointer block of the path [l] that has been added. *)
Definition fresh_node fs img img' (b b' : Z) (l m : list Z) : Prop :=
  ppre m l /\ walk fs img b m = 0 /\ walk fs img' b' m <> 0 /\ ~ used fs img (walk fs img' b' m) /\
  owned fs img' (walk fs img' b' m).

(** The tree below [b] has become the tree below [b']: the walk along [l] leads
    to [phys], the others lead where they did, new blocks lie on the path and
    were free, and no other block has changed but bitmaps. *)
Record set_post (k : nat) fs img (b : Z) (l : list Z) (phys : Z) fs' img' (b' : Z) : Prop := {
  sp_shape : same_shape fs fs';
  sp_geo : geo fs';
  sp_lay : lay fs' img';
  sp_len : len img' = len img;
  sp_mono c : used fs img c -> used fs img' c;
  sp_walk m : vpath fs k m ->
    (m = l /\ walk fs img' b' m = phys) \/
    (m <> l /\ walk fs img' b' m = walk fs img b m) \/ fresh_node fs img img' b b' l m;
  sp_fresh m1 m2 : fresh_node fs img img' b b' l m1 -> fresh_node fs img img' b b' l m2 ->
    walk fs img' b' m1 = walk fs img' b' m2 -> m1 = m2;
  sp_frame c : 0 <= c -> not_bitmap fs c -> (forall m, ppre m l -> c <> walk fs img' b' m) ->
    eblk fs img' c = eblk fs img c;
  sp_new c : used fs img' c -> used fs img c \/ exists m, fresh_node fs img img' b b' l m /\ c = walk fs img' b' m
}.

Arguments sp_shape {_ _ _ _ _ _ _ _ _} _.
Arguments sp_geo {_ _ _ _ _ _ _ _ _} _.
Arguments sp_lay {_ _ _ _ _ _ _ _ _} _.
Arguments sp_len {_ _ _ _ _ _ _ _ _} _.
Arguments sp_mono {_ _ _ _ _ _ _ _ _} _.
Arguments sp_walk {_ _ _ _ _ _ _ _ _} _.
Arguments sp_fresh {_ _ _ _ _ _ _ _ _} _.
Arguments sp_frame {_ _ _ _ _ _ _ _ _} _.
Arguments sp_new {_ _ _ _ _ _ _ _ _} _.

(** The beginning of a level: the block [b'] of the table. *)
Record grew fs img fs' img' (b b' : Z) : Prop := {
  gr_shape : same_shape fs fs';
  gr_geo : geo fs';
  gr_lay : lay fs' img';
  gr_len : len img' = len img;
  gr_mono c : used fs img c -> used fs img' c;
  gr_new c : used fs img' c -> used fs img c \/ (c = b' /\ b = 0);
  gr_frame c : 0 <= c -> not_bitmap fs c -> eblk fs img' c = eblk fs img c;
  gr_own : owned fs img' b';
  gr_nonzero : b' <> 0;
  gr_cases : (b <> 0 /\ b' = b) \/ (b = 0 /\ ~ used fs img b')
}.

Arguments gr_shape {_ _ _ _ _ _} _.
Arguments gr_geo {_ _ _ _ _ _} _.
Arguments gr_lay {_ _ _ _ _ _} _.
Arguments gr_len {_ _ _ _ _ _} _.
Arguments gr_mono {_ _ _ _ _ _} _.
Arguments gr_new {_ _ _ _ _ _} _.
Arguments gr_frame {_ _ _ _ _ _} _.
Arguments gr_own {_ _ _ _ _ _} _.
Arguments gr_nonzero {_ _ _ _ _ _} _.
Arguments gr_cases {_ _ _ _ _ _} _.

(** Writing a block that is not a bitmap does not change which blocks are used. *)
Lemma used_upd fs img b buf c :
  geo fs -> in_range fs img b -> len buf = block_size fs -> not_bitmap fs b ->
  used fs (upd fs img b buf) c <-> used fs img c.
Proof.
  intros G Hr Hl Hn. unfold used.
  assert (E : covered fs c -> eblk fs (upd fs img b buf) (bbm fs (grp fs c)) = eblk fs img (bbm fs (grp fs c))).
  { intros Hc. destruct (covered_parts fs G c Hc) as (Hg & _).
    apply eblk_upd_ne; [done|done|done|apply (bbm_range fs G _ Hg)|by apply not_eq_sym, Hn]. }
  split; intros [Hc Hb]; (split; [done|]); by rewrite E in *.
Qed.

Lemma owned_upd fs img b buf c :
  geo fs -> in_range fs img b -> len buf = block_size fs -> not_bitmap fs b ->
  owned fs (upd fs img b buf) c <-> owned fs img c.
Proof.
  intros G Hr Hl Hn. split; intros [H1 H2 H3]; (constructor; [by apply (used_upd fs img b buf)|by apply (in_range_upd fs G img b buf)|done]).
Qed.

Lemma lay_upd fs img b buf :
  geo fs -> in_range fs img b -> len buf = block_size fs -> not_bitmap fs b -> lay fs img -> lay fs (upd fs img b buf).
Proof.
  intros G Hr Hl Hn L. assert (Hu : forall c, used fs (upd fs img b buf) c <-> used fs img c) by (intros; by apply used_upd).
  constructor.
  - intros g Hg. destruct (l_bbm _ _ L g Hg). split; [by apply in_range_upd|by apply Hu].
  - apply (l_inj _ _ L).
  - intros c Hc Hnu. rewrite Hu in Hnu. destruct (l_free _ _ L c Hc Hnu). split; [by apply in_range_upd|done].
  - intros g Hg. rewrite eblk_upd_ne; [by apply (l_count _ _ L)|done|done|done|apply (bbm_range fs G g Hg)|by apply not_eq_sym, Hn].
  - apply (l_total _ _ L).
Qed.

Section Shape.
Context (fs fs' : ext2_fs) (G : geo fs) (S : same_shape fs fs').

Lemma shape_ptr img b i : ptr fs' img b i = ptr fs img b i.
Proof.
  unfold ptr. rewrite (shape_eblk fs fs' S). pose proof (shape_in_range fs fs' S img b).
  destruct (decide (b <> 0 /\ in_range fs img b)), (decide (b <> 0 /\ in_range fs' img b)); naive_solver.
Qed.

Lemma shape_walk img l : forall b, walk fs' img b l = walk fs img b l.
Proof. induction l as [|i l IH]; intros b; [done|]. rewrite !walk_cons, shape_ptr. apply IH. Qed.

Lemma shape_not_bitmap c : not_bitmap fs' c <-> not_bitmap fs c.
Proof.
  unfold not_bitmap. rewrite (ss_groups _ _ S). split; intros H g Hg; specialize (H g Hg);
    by rewrite (ss_bbm _ _ S) in *.
Qed.

Lemma shape_owned img c : owned fs' img c <-> owned fs img c.
Proof.
  split; intros [H1 H2 H3]; constructor.
  - by apply (shape_used fs fs' G S).
  - by apply (shape_in_range fs fs' S).
  - by apply shape_not_bitmap.
  - by apply (shape_used fs fs' G S).
  - by apply (shape_in_range fs fs' S).
  - by apply shape_not_bitmap.
Qed.

Lemma shape_ppb : ppb fs' = ppb fs.
Proof. unfold ppb, PTRS_PER_BLOCK. by rewrite (ss_bs _ _ S). Qed.

Lemma shape_vpath k l : vpath fs' k l <-> vpath fs k l.
Proof. unfold vpath, index_ok. by rewrite shape_ppb. Qed.

Lemma shape_tree img b k : tree fs' img b k <-> tree fs img b k.
Proof.
  split; intros [Hs Ho]; constructor.
  - intros l1 l2. rewrite <- !shape_vpath, <- !shape_walk. apply Hs.
  - intros l. rewrite <- shape_vpath, <- shape_walk, <- shape_owned. apply Ho.
  - intros l1 l2. rewrite !shape_vpath, !shape_walk. apply Hs.
  - intros l. rewrite shape_vpath, shape_walk, shape_owned. apply Ho.
Qed.

(** A step after another that only allocated. *)
Lemma set_post_shape k img b l phys fs'' img' b' :
  set_post k fs' img b l phys fs'' img' b' -> set_post k fs img b l phys fs'' img' b'.
Proof.
  assert (Hf : forall i i' x x' p m, fresh_node fs' i i' x x' p m <-> fresh_node fs i i' x x' p m).
  { intros. unfold fresh_node. by rewrite !shape_walk, (shape_used fs fs' G S), shape_owned. }
  intros [H1 H2 H3 H4 H5 H6 H7 H8 H9]. constructor; try done.
  - by etrans.
  - intros c. rewrite <- !(shape_used fs fs' G S). apply H5.
  - intros m Hm. rewrite <- Hf, <- !shape_walk. apply H6. by apply shape_vpath.
  - intros m1 m2. rewrite <- !Hf, <- !shape_walk. apply H7.
  - intros c Hc Hn Hp. rewrite <- !(shape_eblk fs fs' S). apply H8; [done|by apply shape_not_bitmap|].
    intros m Hm. rewrite shape_walk. by apply Hp.
  - intros c Hu. rewrite <- (shape_used fs fs' G S) in Hu. destruct (H9 c Hu) as [Hc|(m & Hm & E)].
    + left. by rewrite <- (shape_used fs fs' G S).
    + right. exists m. by rewrite <- Hf, <- shape_walk.
Qed.
End Shape.

(** What a change of a walk to [phys] needs. *)
Record set_pre (k : nat) fs img (b : Z) (l : list Z) (phys : Z) : Prop := {
  pr_geo : geo fs;
  pr_lay : lay fs img;
  pr_tree : tree fs img b k;
  pr_path : vpath fs k l;
  pr_full : length l = k;
  pr_root : 0 <= b < 2 ^ 32;
  pr_range : 0 < phys < 2 ^ 32;
  pr_used : used fs img phys;
  pr_new m : vpath fs k m -> walk fs img b m <> phys
}.

Arguments pr_geo {_ _ _ _ _ _} _.
Arguments pr_lay {_ _ _ _ _ _} _.
Arguments pr_tree {_ _ _ _ _ _} _.
Arguments pr_path {_ _ _ _ _ _} _.
Arguments pr_full {_ _ _ _ _ _} _.
Arguments pr_root {_ _ _ _ _ _} _.
Arguments pr_range {_ _ _ _ _ _} _.
Arguments pr_used {_ _ _ _ _ _} _.
Arguments pr_new {_ _ _ _ _ _} _.

Section Node.
Context (k : nat) (fs : ext2_fs) (img : list Z) (b i : Z) (l : list Z) (phys : Z).
Context (P : set_pre (S k) fs img b (i :: l) phys).
Context (fs1 : ext2_fs) (img1 : list Z) (b' : Z) (Gr : grew fs img fs1 img1 b b').

Let G : geo fs := pr_geo P.
Let Tr : tree fs img b (S k) := pr_tree P.
Abbreviation c := (ptr fs img b i).

Lemma node_path : index_ok fs i /\ vpath fs k l /\ length l = k.
Proof.
  pose proof (pr_path P) as Hp. pose proof (pr_full P) as Hf. rewrite vpath_cons in Hp.
  destruct Hp as [Hi Hl]. cbn [length] in Hf. split_and!; [done|done|lia].
Qed.

(** Blocks of the old tree survive the allocation. *)
Lemma node_owned m : vpath fs (S k) m -> walk fs img b m <> 0 ->
  eblk fs img1 (walk fs img b m) = eblk fs img (walk fs img b m).
Proof.
  intros Hm Hnz. destruct (tr_own Tr m Hm Hnz) as [Hu Hr Hd]. apply (gr_frame Gr); [apply Hr|done].
Qed.

Lemma node_walk1 m : vpath fs k m -> walk fs img1 c m = walk fs img b (i :: m).
Proof.
  intros Hm. destruct node_path as (Hi & _). rewrite walk_cons. apply walk_agree; [apply (gr_len Gr)|].
  intros q Hq Hnz _. apply (node_owned (i :: q)); [|done]. apply vpath_cons. split; [done|].
  destruct Hm as [Hm1 Hm2]. pose proof (ppre_length q m Hq). split; [lia|by eapply ppre_Forall].
Qed.

Lemma child_pre : Forall byte_ok img -> set_pre k fs1 img1 c l phys.
Proof.
  intros Hby. destruct node_path as (Hi & Hl & Hlen). pose proof (gr_shape Gr) as S1. constructor.
  - apply (gr_geo Gr).
  - apply (gr_lay Gr).
  - apply (shape_tree fs fs1 G S1). constructor.
    + intros m1 m2 H1 H2 E Hnz. rewrite !node_walk1 in * by done.
      apply (tr_sep (tree_child fs img b k i Tr Hi)); [done|done|exact E|exact Hnz].
    + intros m Hm Hnz. rewrite node_walk1 in * by done.
      destruct (tr_own Tr (i :: m)) as [Hu Hr Hd]; [by apply vpath_cons|done|]. constructor; [|eapply in_range_len; [apply (gr_len Gr)|done]|done].
      by apply (gr_mono Gr).
  - by apply (shape_vpath fs fs1 S1).
  - done.
  - by apply ptr_range.
  - apply (pr_range P).
  - apply (shape_used fs fs1 G S1), (gr_mono Gr), (pr_used P).
  - intros m. rewrite (shape_vpath fs fs1 S1), (shape_walk fs fs1 S1). intros Hm. rewrite node_walk1 by done.
    apply (pr_new P). by apply vpath_cons.
Qed.

Context (fs2 : ext2_fs) (img2 : list Z) (c' : Z) (Sp : set_post k fs img1 c l phys fs2 img2 c').
Context (tab : list Z) (Htab : len tab = block_size fs).
Hypothesis Hptr : forall j, index_ok fs j -> field32 tab (4 * j) = ptr fs img b j.
Hypothesis Hc' : 0 <= c' < 2 ^ 32.

Abbreviation img3 := (upd fs img2 b' (set_field32 tab (4 * i) c')).

Lemma node_b' : in_range fs img2 b' /\ b' <> 0 /\ not_bitmap fs b' /\ len (set_field32 tab (4 * i) c') = block_size fs.
Proof.
  destruct (gr_own Gr) as [Hu Hr Hd]. destruct node_path as ([? ?] & _). pose proof (ppb_bounds fs G).
  split_and!; [eapply in_range_len; [apply (sp_len Sp)|done]|apply (gr_nonzero Gr)|done|].
  rewrite len_set_field32; lia.
Qed.

Lemma node_len : len img3 = len img.
Proof.
  destruct node_b' as (Hr & _ & _ & Hl). rewrite len_upd by done. rewrite (sp_len Sp).
  apply (gr_len Gr).
Qed.

Lemma node_ptr j : index_ok fs j -> ptr fs img3 b' j = if decide (j = i) then c' else ptr fs img b j.
Proof.
  intros Hj. destruct node_b' as (Hr & Hnz & _ & Hl). destruct node_path as (Hi & _).
  pose proof (ppb_bounds fs G). unfold index_ok in *. rewrite ptr_upd by done. destruct (decide (j = i)) as [->|Hne].
  - apply set_field32_eq; lia.
  - rewrite <- Hptr by done. apply field32_splice_ne; size.
Qed.

(** The blocks of the child are not the table. *)
Lemma node_apart m : vpath fs k m -> walk fs img2 c' m <> b'.
Proof.
  intros Hvm E. destruct node_path as (Hi & Hl & Hlen). destruct node_b' as (_ & Hnz & _).
  destruct (sp_walk Sp m Hvm) as [[_ Ew]|[[_ Ew]|(_ & _ & _ & Hnu & _)]].
  - rewrite E in Ew. destruct (gr_cases Gr) as [[Hb Eb]|[Hb Hnu]].
    + apply (pr_new P []); [apply vpath_nil|]. change (walk fs img b []) with b. congruence.
    + apply Hnu. rewrite Ew. apply (pr_used P).
  - rewrite E, node_walk1 in Ew by done. destruct (gr_cases Gr) as [[Hb Eb]|[Hb _]].
    + assert (E' : [] = i :: m); [|done]. apply (tr_sep Tr); [apply vpath_nil|by apply vpath_cons| |]; change (walk fs img b []) with b; congruence.
    + rewrite Hb, walk_zero in Ew. done.
  - rewrite E in Hnu. apply Hnu, (gr_own Gr).
Qed.

Lemma vpath_ppre m q : vpath fs k m -> ppre q m -> vpath fs k q.
Proof. intros [H1 H2] Hq. pose proof (ppre_length q m Hq). split; [lia|by eapply ppre_Forall]. Qed.

Lemma node_walk3 m : vpath fs k m -> walk fs img3 c' m = walk fs img2 c' m.
Proof.
  intros Hm. destruct node_b' as (Hr & _ & _ & Hl). apply walk_agree; [by apply len_upd|].
  intros q Hq Hnz Hrq. apply eblk_upd_ne; [done|done|done|apply Hrq|]. apply node_apart. exact (vpath_ppre _ _ Hm Hq).
Qed.

(** The other children of the node do not change. *)
Lemma node_sibling j m : index_ok fs j -> j <> i -> vpath fs k m ->
  walk fs img3 (ptr fs img b j) m = walk fs img b (j :: m).
Proof.
  intros Hj Hji Hm. destruct node_b' as (Hr & Hnz' & _ & Hl). destruct node_path as (Hi & Hlv & _).
  rewrite walk_cons. apply walk_agree; [apply node_len|].
  intros q Hq Hnz _. change (walk fs img (ptr fs img b j) q) with (walk fs img b (j :: q)) in *.
  assert (Hv : vpath fs (S k) (j :: q)) by (apply vpath_cons; split; [done|exact (vpath_ppre _ _ Hm Hq)]).
  destruct (tr_own Tr _ Hv Hnz) as [Hu Hrq Hd].
  rewrite eblk_upd_ne; [|done|done|done|apply Hrq|].
  2: { intros E. destruct (gr_cases Gr) as [[Hb Eb]|[Hb _]]; [|by rewrite Hb, walk_zero in Hnz].
       assert (E' : j :: q = []); [|done]. apply (tr_sep Tr); [done|apply vpath_nil| |done].
       change (walk fs img b []) with b. congruence. }
  rewrite (sp_frame Sp); [by apply node_owned|apply Hrq|done|].
  intros p Hp E. assert (Hvp : vpath fs k p) by exact (vpath_ppre _ _ Hlv Hp).
  destruct (sp_walk Sp p Hvp) as [[Ep _]|[[_ Ew]|(_ & _ & _ & Hnu & _)]].
  - subst p. pose proof (ppre_length l l Hp). lia.
  - rewrite Ew, node_walk1 in E by done. assert (E' : j :: q = i :: p); [|by injection E'].
    apply (tr_sep Tr); [done|by apply vpath_cons|done|done].
  - rewrite <- E in Hnu. by apply Hnu, (gr_mono Gr).
Qed.

Lemma node_fresh m : fresh_node fs img1 img2 c c' l m -> fresh_node fs img img3 b b' (i :: l) (i :: m).
Proof.
  intros (Hm & Hz & Hnz & Hnu & Ho). destruct node_path as (Hi & Hl & _).
  assert (Hv : vpath fs k m) by exact (vpath_ppre _ _ Hl Hm).
  rewrite node_walk1 in Hz by done. unfold fresh_node. rewrite (walk_cons fs img3), node_ptr, decide_True, node_walk3 by done.
  destruct node_b' as (Hr & _ & Hnb & Hlen).
  split_and!; [by apply ppre_cons|done|done|intros Hu; by apply Hnu, (gr_mono Gr)|].
  destruct Ho as [Hu Hro Hd]. constructor; [|by apply in_range_upd|done].
  by apply used_upd.
Qed.

(** The node itself is fresh if there was none. *)
Lemma node_root : b = 0 -> fresh_node fs img img3 b b' (i :: l) [].
Proof.
  intros Hb. destruct node_b' as (Hr & Hnz & Hnb & Hlen). destruct (gr_cases Gr) as [[? _]|[_ Hnu]]; [done|].
  destruct (gr_own Gr) as [Hu Hro Hd]. split_and!; [apply ppre_nil|done|done|done|].
  apply owned_upd; [done|done|done|done|]. constructor; [by apply (sp_mono Sp)|done|done].
Qed.

Lemma node_step_walk m : vpath fs (S k) m ->
  (m = i :: l /\ walk fs img3 b' m = phys) \/
  (m <> i :: l /\ walk fs img3 b' m = walk fs img b m) \/ fresh_node fs img img3 b b' (i :: l) m.
Proof.
  intros Hm. destruct m as [|j m].
  - destruct (gr_cases Gr) as [[Hb Eb]|[Hb _]]; [|right; right; by apply node_root].
    right; left. by split.
  - apply vpath_cons in Hm as [Hj Hm]. rewrite (walk_cons fs img3), node_ptr by done.
    destruct (decide (j = i)) as [->|Hne].
    + rewrite node_walk3 by done. destruct (sp_walk Sp m Hm) as [[-> E]|[[Hml E]|Hf]].
      * by left.
      * right; left. split; [congruence|]. by rewrite E, node_walk1.
      * right; right. by apply node_fresh.
    + right; left. split; [congruence|]. by apply node_sibling.
Qed.

Lemma node_fresh_inv m : fresh_node fs img img3 b b' (i :: l) m ->
  (m = [] /\ b = 0) \/ exists m', m = i :: m' /\ fresh_node fs img1 img2 c c' l m' /\
    walk fs img3 b' m = walk fs img2 c' m'.
Proof.
  intros (Hp & Hz & Hnz & Hnu & Ho). destruct node_path as (Hi & Hl & _). destruct node_b' as (Hr & _ & Hnb & Hlen).
  apply ppre_inv in Hp as [->|(m' & -> & Hp)]; [by left|right]. exists m'. split; [done|].
  assert (Hv : vpath fs k m') by exact (vpath_ppre _ _ Hl Hp).
  rewrite (walk_cons fs img3), node_ptr, decide_True, node_walk3 in * by done. split; [|done].
  apply owned_upd in Ho; [|done..]. split_and!; [done|by rewrite node_walk1|done| |done].
  intros Hu. destruct (gr_new Gr _ Hu) as [?|[E _]]; [done|]. by apply (node_apart m').
Qed.

Lemma node_step : set_post (S k) fs img b (i :: l) phys fs2 img3 b'.
Proof.
  destruct node_path as (Hi & Hl & _). destruct node_b' as (Hr & Hnz & Hnb & Hlen). constructor.
  - apply (sp_shape Sp).
  - apply (sp_geo Sp).
  - rewrite <- (shape_upd fs fs2 (sp_shape Sp)). apply lay_upd.
    + apply (sp_geo Sp).
    + by apply (shape_in_range fs fs2 (sp_shape Sp)).
    + by rewrite (ss_bs _ _ (sp_shape Sp)).
    + by apply (shape_not_bitmap fs fs2 (sp_shape Sp)).
    + apply (sp_lay Sp).
  - apply node_len.
  - intros x Hx. apply used_upd; [done..|]. by apply (sp_mono Sp), (gr_mono Gr).
  - apply node_step_walk.
  - intros m1 m2 H1 H2 E.
    destruct (node_fresh_inv m1 H1) as [[-> Hb]|(q1 & -> & F1 & E1)], (node_fresh_inv m2 H2) as [[-> Hb']|(q2 & -> & F2 & E2)].
    + done.
    + exfalso. rewrite E2 in E. apply (node_apart q2); [|by rewrite <- E]. exact (vpath_ppre _ _ Hl (proj1 F2)).
    + exfalso. rewrite E1 in E. apply (node_apart q1); [|by rewrite E]. exact (vpath_ppre _ _ Hl (proj1 F1)).
    + f_equal. apply (sp_fresh Sp); [done|done|congruence].
  - intros x Hx Hn Hp. rewrite eblk_upd_ne; [|done|done|done|done|apply (Hp []), ppre_nil].
    rewrite (sp_frame Sp); [by apply (gr_frame Gr)|done|done|]. intros m Hm.
    specialize (Hp (i :: m) (ppre_cons _ _ _ Hm)). rewrite (walk_cons fs img3), node_ptr, decide_True, node_walk3 in Hp; try done.
    exact (vpath_ppre _ _ Hl Hm).
  - intros x Hx. apply used_upd in Hx; [|done..]. destruct (sp_new Sp x Hx) as [Hx1|(m & Hm & E)].
    + destruct (gr_new Gr x Hx1) as [?|[E Hb]]; [by left|right]. exists []. split; [by apply node_root|done].
    + right. exists (i :: m). split; [by apply node_fresh|]. rewrite (walk_cons fs img3), node_ptr, decide_True, node_walk3; try done.
      exact (vpath_ppre _ _ Hl (proj1 Hm)).
Qed.
End Node.

(** ** The code of the levels *)

(** The volume is full: a change has failed after it may have taken blocks. *)
Record full_post fs img fs' img' : Prop := {
  fp_shape : same_shape fs fs';
  fp_geo : geo fs';
  fp_lay : lay fs' img';
  fp_len : len img' = len img;
  fp_mono c : used fs img c -> used fs img' c;
  fp_frame c : 0 <= c -> not_bitmap fs c -> eblk fs img' c = eblk fs img c;
  fp_full c : covered fs c -> used fs img' c
}.
Arguments fp_shape {_ _ _ _} _.
Arguments fp_geo {_ _ _ _} _.
Arguments fp_lay {_ _ _ _} _.
Arguments fp_len {_ _ _ _} _.
Arguments fp_mono {_ _ _ _} _.
Arguments fp_frame {_ _ _ _} _.
Arguments fp_full {_ _ _ _} _.

Definition set_result (k : nat) fs img (b : Z) (l : list Z) (phys : Z) img' (x : ext2_fs * rc Z) : Prop :=
  match x.2 with
  | Ok b' => set_post k fs img b l phys x.1 img' b' /\ 0 <= b' < 2 ^ 32
  | Err e => e = - ENOSPC /\ full_post fs img x.1 img'
  end.

Lemma full_after_grew fs img fs1 img1 b b' fs2 img2 :
  geo fs -> grew fs img fs1 img1 b b' -> full_post fs1 img1 fs2 img2 -> full_post fs img fs2 img2.
Proof.
  intros G Gr F. pose proof (gr_shape Gr) as S1. constructor.
  - etrans; [done|apply (fp_shape F)].
  - apply (fp_geo F).
  - apply (fp_lay F).
  - rewrite (fp_len F). apply (gr_len Gr).
  - intros c Hc. apply (shape_used fs fs1 G S1), (fp_mono F), (shape_used fs fs1 G S1), (gr_mono Gr), Hc.
  - intros c Hc Hn. rewrite <- (shape_eblk fs fs1 S1), (fp_frame F); [|done|by apply (shape_not_bitmap fs fs1 S1)].
    rewrite (shape_eblk fs fs1 S1). by apply (gr_frame Gr).
  - intros c Hc. apply (shape_used fs fs1 G S1), (fp_full F). by apply (shape_covered fs fs1 S1).
Qed.

(** No level at all: the entry itself. *)
Lemma set_post_leaf fs img b phys : set_pre 0 fs img b [] phys -> set_post 0 fs img b [] phys fs img phys.
Proof.
  intros P. assert (Hnp : forall m, ~ ppre m []) by (intros m Hm; apply ppre_length in Hm; cbn in Hm; lia).
  constructor; try done; try apply P.
  - intros m [Hm _]. destruct m; [|cbn in Hm; lia]. by left.
  - intros m1 m2 (H1 & _). by destruct (Hnp m1).
  - intros c Hc. by left.
Qed.

Section MapIo.
Context {W : Type} `{OK : FsWorldOk W} {RL : Reliable W True}.
Context (d : Z).
Implicit Types (fs : ext2_fs) (img : list Z).

Abbreviation T img m Q := (triple d 512 img m Q (fun _ _ => False)).

Lemma moved_grew fs img fs' img' b :
  geo fs -> lay fs img -> covered fs b -> ~ used fs img b -> in_range fs img b -> b <> 0 ->
  moved fs img fs' img' b true -> grew fs img fs' img' 0 b.
Proof.
  intros G L Hc Hnu Hr Hnz M. pose proof (mv_shape M) as S1.
  assert (Hu : forall c, used fs img' c <-> c = b \/ used fs img c).
  { intros c. rewrite <- (shape_used fs fs' G S1), (mv_used M).
    destruct (decide (c = b)); naive_solver. }
  assert (Hn : not_bitmap fs b). { intros g Hg ->. by destruct (l_bbm _ _ L g Hg). }
  destruct (covered_parts fs G b Hc) as (Hg & _).
  constructor; [apply (mv_shape M)|apply (mv_geo M)|apply (mv_lay M)|apply (mv_len M)|..]; try done.
  - intros c H1. apply Hu. by right.
  - intros c H1. apply Hu in H1 as [->|]; [right|left]; done.
  - intros c H1 H2. apply (mv_frame M); [done|]. by apply H2.
  - constructor; [apply Hu; by left| |done]. eapply in_range_len; [apply (mv_len M)|done].
  - right. done.
Qed.

Lemma load_table_ok fs img b buf :
  geo fs -> lay fs img -> block_dev fs = d -> 0 <= b -> (b <> 0 -> owned fs img b) -> len buf = block_size fs ->
  T img (load_table fs b buf) (fun img1 '(fs1, r) =>
    match r with
    | Ok (b', tab) => grew fs img fs1 img1 b b' /\ len tab = block_size fs /\ Forall byte_ok tab /\
        forall j, index_ok fs j -> field32 tab (4 * j) = ptr fs img b j
    | Err e => e = - ENOSPC /\ full_post fs img fs1 img1
    end).
Proof.
  intros G L Hd Hb Ho Hbuf. unfold load_table. apply t_bytes. intros Hby. pose proof (bs_pos fs G) as Hbs. destruct (Z.eqb_spec b 0) as [->|Hnz].
  - eapply t_bind; [by apply ext2_alloc_block_ok|].
    intros img1 [fs1 b'] [(-> & -> & -> & Hfull)|(Hnz & Hc & _ & Hnu & Hr & Hmv & _)].
    + rewrite Z.eqb_refl. apply t_ok. split; [done|]. constructor; try done. intros c Hc. by apply Hfull.
    + rewrite (proj2 (Z.eqb_neq _ _)) by done. apply t_ok. rewrite (ss_bs _ _ (mv_shape Hmv)).
      assert (Hl : len (replicate (Z.to_nat (block_size fs)) 0) = block_size fs) by (unfold len; rewrite length_replicate; lia).
      split; [by apply moved_grew|]. split; [done|]. split; [apply Forall_replicate; unfold byte_ok; lia|].
      intros j [Hj1 Hj2]. rewrite ptr_zero. pose proof (ppb_bounds fs G). unfold field32, slice.
      rewrite drop_replicate, take_replicate. by rewrite Nat.min_l by lia.
  - destruct (Ho Hnz) as [Hu Hr Hn]. eapply t_bind_ok; [by apply t_read_block|]. intros i tab [-> ->]. apply t_ok.
    split; [constructor; try done; naive_solver|]. split; [by apply len_eblk|].
    split; [by apply eblk_bytes|intros j Hj; unfold ptr; by rewrite decide_True].
Qed.

(** One level: the table is there or new, then [K] goes on with it. *)
Lemma level_ok {A} fs img b (K : ext2_fs -> Z -> list Z -> io W (ext2_fs * rc A)) Q :
  geo fs -> lay fs img -> block_dev fs = d -> 0 <= b -> (b <> 0 -> owned fs img b) ->
  (forall fs1 img1 b' tab, grew fs img fs1 img1 b b' -> len tab = block_size fs -> Forall byte_ok tab ->
     (forall j, index_ok fs j -> field32 tab (4 * j) = ptr fs img b j) -> T img1 (K fs1 b' tab) Q) ->
  (forall fs1 img1, full_post fs img fs1 img1 -> Q img1 (fs1, Err (- ENOSPC))) ->
  T img (with_table fs (fun buf => bind (load_table fs b buf) (fun x =>
           let (fs1, r) := x in
           match r with Ok a => let (b', tab) := a in K fs1 b' tab | Err e => ok (fs1, Err e) end))) Q.
Proof.
  intros G L Hd Hb Ho HK HE. unfold with_table. eapply t_bind_ok; [|intros i x HQ; apply t_ok; exact HQ].
  apply t_buffer; [done|]. intros buf Hbuf _. eapply t_bind; [by apply load_table_ok|].
  intros img1 [fs1 [[b' tab]|e]].
  - intros (Gr & Hl & Hby & Hptr). by apply HK.
  - intros [-> F]. apply t_ok. by apply HE.
Qed.

(** The end of a level: the entry is stored and the table is written. *)
Lemma store_table_ok {A} fs img b tab i x (v : A) Q :
  geo fs -> block_dev fs = d -> in_range fs img b -> len tab = block_size fs -> Forall byte_ok tab ->
  0 <= i < block_size fs / 4 -> Q (upd fs img b (set_field32 tab (4 * i) x)) (fs, Ok v) ->
  T img (bind (lift (put32 tab (4 * i) x)) (fun tab => bind (attempt (ext2_write_block fs b tab)) (fun r =>
           match r with Ok _ => ok (fs, Ok v) | Err e => ok (fs, Err e) end))) Q.
Proof.
  intros G Hd Hr Hl Hby Hi HQ. assert (4 * i + 4 <= block_size fs) by (Z.div_mod_to_equations; lia).
  eapply t_bind_lift; [apply put32_ok; lia|]. fold (set_field32 tab (4 * i) x).
  eapply t_bind_ok; [apply t_write_block; [done|done|done|rewrite len_set_field32; lia|by apply set_field32_bytes]|].
  intros i' _ ->. by apply t_ok.
Qed.

(** A level around a child that sets the rest of the path. *)
Section LevelStep.
Context (k : nat) (fs : ext2_fs) (img : list Z) (b i : Z) (l : list Z) (phys : Z).
Context (P : set_pre (S k) fs img b (i :: l) phys) (Hd : block_dev fs = d).
Context {A : Type} (Q : list Z -> ext2_fs * rc A -> Prop) (v : Z -> A).
Hypothesis HQ : forall fs2 img2 b', set_post (S k) fs img b (i :: l) phys fs2 img2 b' -> 0 <= b' < 2 ^ 32 ->
  Q img2 (fs2, Ok (v b')).
Hypothesis HE : forall fs2 img2, full_post fs img fs2 img2 -> Q img2 (fs2, Err (- ENOSPC)).

Lemma level_step fs1 img1 b' tab (child : io W (ext2_fs * rc Z)) :
  grew fs img fs1 img1 b b' -> len tab = block_size fs -> Forall byte_ok tab ->
  (forall j, index_ok fs j -> field32 tab (4 * j) = ptr fs img b j) ->
  T img1 child (set_result k fs1 img1 (ptr fs img b i) l phys) ->
  T img1 (bind child (fun x => let (fs2, r) := x in
            match r with
            | Ok c' => bind (lift (put32 tab (4 * i) c')) (fun tab => bind (attempt (ext2_write_block fs2 b' tab)) (fun r =>
                         match r with Ok _ => ok (fs2, Ok (v b')) | Err e => ok (fs2, Err e) end))
            | Err e => ok (fs2, Err e)
            end)) Q.
Proof.
  intros Gr Hl Hby Hptr Hchild. pose proof (pr_geo P) as G. destruct (node_path _ _ _ _ _ _ _ P) as (Hi & _).
  eapply t_bind; [exact Hchild|]. intros img2 [fs2 [c'|e]]; unfold set_result; cbn [fst snd].
  - intros [Sp Hc'].
    pose proof (set_post_shape fs fs1 G (gr_shape Gr) _ _ _ _ _ _ _ _ Sp) as Sp'.
    destruct (node_b' _ _ _ _ _ _ _ P _ _ _ Gr _ _ _ Sp' tab Hl) as (Hr & Hnz & Hnb & Hl').
    pose proof (sp_shape Sp') as S2.
    apply store_table_ok; [apply (sp_geo Sp)|by rewrite (ss_dev _ _ S2)|by apply (shape_in_range fs fs2 S2)|by rewrite (ss_bs _ _ S2)|done| |].
    + rewrite (ss_bs _ _ S2). exact Hi.
    + rewrite (shape_upd fs fs2 S2). apply HQ; [by apply (node_step k fs img b i l phys P fs1 img1)|]. destruct Hr as [Hr _]. exact Hr.
  - intros [-> F]. apply t_ok, HE. by eapply full_after_grew.
Qed.
End LevelStep.

Lemma pre_root k fs img b l phys : set_pre k fs img b l phys -> b <> 0 -> owned fs img b.
Proof. intros P Hb. apply (tr_own (pr_tree P) []); [apply vpath_nil|done]. Qed.

Lemma set_indirect_ok fs img b i phys :
  set_pre 1 fs img b [i] phys -> block_dev fs = d ->
  T img (ext2_set_indirect fs b i phys) (set_result 1 fs img b [i] phys).
Proof.
  intros P Hd. pose proof (pr_geo P) as G. destruct (node_path _ _ _ _ _ _ _ P) as (Hi & _).
  pose proof (pr_root P). apply t_bytes. intros Hby. unfold ext2_set_indirect.
  apply level_ok; [done|apply (pr_lay P)|done|exact (proj1 (pr_root P))|by apply (pre_root _ _ _ _ _ _ P)| |by split].
  intros fs1 img1 b' tab Gr Hl Htb Hptr. pose proof (gr_shape Gr) as S1. destruct (gr_own Gr) as [_ Hr _].
  apply store_table_ok; [apply (gr_geo Gr)|by rewrite (ss_dev _ _ S1)|by apply (shape_in_range fs fs1 S1)|by rewrite (ss_bs _ _ S1)|done| |].
  - rewrite (ss_bs _ _ S1). exact Hi.
  - rewrite (shape_upd fs fs1 S1). unfold set_result. cbn [fst snd]. split; [|apply Hr].
    apply (node_step 0 fs img b i [] phys P fs1 img1 b' Gr); [|done|done|pose proof (pr_range P); lia].
    apply (set_post_shape fs fs1 G S1), set_post_leaf. exact (child_pre _ _ _ _ _ _ _ P _ _ _ Gr Hby).
Qed.

Lemma divmod_ok x y : y <> 0 -> udiv x y = Ret (x / y) /\ umod x y = Ret (x mod y).
Proof. intros Hy. unfold udiv, umod. by rewrite (proj2 (Z.eqb_neq y 0)). Qed.

Lemma shape_PTRS fs fs' : same_shape fs fs' -> PTRS_PER_BLOCK fs' = PTRS_PER_BLOCK fs.
Proof. intros S1. unfold PTRS_PER_BLOCK. by rewrite (ss_bs _ _ S1). Qed.

(** The entry of the table for the next level. *)
Lemma table_entry fs img b tab i :
  geo fs -> len tab = block_size fs -> (forall j, index_ok fs j -> field32 tab (4 * j) = ptr fs img b j) ->
  index_ok fs i -> get32 tab (4 * i) = Ret (ptr fs img b i).
Proof.
  intros G Hl Hptr [H1 H2]. pose proof (ppb_bounds fs G). rewrite get32_ok by lia. f_equal. by apply Hptr.
Qed.

Lemma set_middle_ok fs img b lbn phys :
  set_pre 2 fs img b [(lbn / ppb fs) mod ppb fs; lbn mod ppb fs] phys -> block_dev fs = d ->
  T img (bmap_set_middle fs b lbn phys) (set_result 2 fs img b [(lbn / ppb fs) mod ppb fs; lbn mod ppb fs] phys).
Proof.
  intros P Hd. pose proof (pr_geo P) as G. pose proof (ppb_bounds fs G) as [Hp _]. destruct (node_path _ _ _ _ _ _ _ P) as (Hi & _).
  destruct (divmod_ok lbn (ppb fs)) as [Eq Er]; [lia|]. destruct (divmod_ok (lbn / ppb fs) (ppb fs)) as [_ Em]; [lia|].
  pose proof (pr_root P). apply t_bytes. intros Hby. unfold bmap_set_middle. fold (ppb fs).
  apply level_ok; [done|apply (pr_lay P)|done|exact (proj1 (pr_root P))|by apply (pre_root _ _ _ _ _ _ P)| |by split].
  intros fs1 img1 b' tab Gr Hl Htb Hptr. pose proof (gr_shape Gr) as S1.
  eapply t_bind_lift; [exact Eq|]. eapply t_bind_lift; [exact Em|]. eapply t_bind_lift; [exact Er|].
  eapply t_bind_lift; [by apply (table_entry fs img b)|].
  eapply (level_step 1 fs img b _ _ phys P Hd _ (fun x => x)); [done|done|exact Gr|done|done|done|].
  apply set_indirect_ok; [exact (child_pre _ _ _ _ _ _ _ P _ _ _ Gr Hby)|by rewrite (ss_dev _ _ S1)].
Qed.

(** What becomes of the inode. *)
Definition set_inode_result (k : nat) fs img (inode : list Z) (r : Z) (l : list Z) (phys : Z) img'
    (x : ext2_fs * rc (list Z)) : Prop :=
  match x.2 with
  | Ok inode' => exists b', set_post k fs img (i_block inode r) l phys x.1 img' b' /\ 0 <= b' < 2 ^ 32 /\
                            inode' = update_i_block inode r b'
  | Err e => e = - ENOSPC /\ full_post fs img x.1 img'
  end.

Lemma set_double_ok fs img inode lbn phys :
  set_pre 2 fs img (i_block inode 13) [lbn / ppb fs; lbn mod ppb fs] phys -> block_dev fs = d ->
  T img (bmap_set_double fs inode lbn phys) (set_inode_result 2 fs img inode 13 [lbn / ppb fs; lbn mod ppb fs] phys).
Proof.
  intros P Hd. pose proof (pr_geo P) as G. pose proof (ppb_bounds fs G) as [Hp _]. destruct (node_path _ _ _ _ _ _ _ P) as (Hi & _).
  destruct (divmod_ok lbn (ppb fs)) as [Eq Er]; [lia|].
  pose proof (pr_root P). apply t_bytes. intros Hby. unfold bmap_set_double. fold (ppb fs).
  apply level_ok; [done|apply (pr_lay P)|done|exact (proj1 (pr_root P))|by apply (pre_root _ _ _ _ _ _ P)| |by split].
  intros fs1 img1 b' tab Gr Hl Htb Hptr. pose proof (gr_shape Gr) as S1.
  eapply t_bind_lift; [exact Eq|]. eapply t_bind_lift; [exact Er|].
  eapply t_bind_lift; [by apply (table_entry fs img (i_block inode 13))|].
  eapply (level_step 1 fs img (i_block inode 13) _ _ phys P Hd _ (update_i_block inode 13)); [intros fs2 img2 x Hx Hr; by exists x|done|exact Gr|done|done|done|].
  apply set_indirect_ok; [exact (child_pre _ _ _ _ _ _ _ P _ _ _ Gr Hby)|by rewrite (ss_dev _ _ S1)].
Qed.

Lemma set_triple_ok fs img inode lbn phys :
  set_pre 3 fs img (i_block inode 14) [lbn / (ppb fs * ppb fs); (lbn / ppb fs) mod ppb fs; lbn mod ppb fs] phys ->
  block_dev fs = d ->
  T img (bmap_set_triple fs inode lbn phys)
    (set_inode_result 3 fs img inode 14 [lbn / (ppb fs * ppb fs); (lbn / ppb fs) mod ppb fs; lbn mod ppb fs] phys).
Proof.
  intros P Hd. pose proof (pr_geo P) as G. pose proof (ppb_bounds fs G) as [Hp _]. destruct (node_path _ _ _ _ _ _ _ P) as (Hi & _).
  assert (E2 : u32 (ppb fs * ppb fs) = ppb fs * ppb fs) by (apply u32_id; nia).
  destruct (divmod_ok lbn (ppb fs * ppb fs)) as [Eq _]; [nia|].
  pose proof (pr_root P). apply t_bytes. intros Hby. unfold bmap_set_triple. fold (ppb fs). rewrite E2.
  apply level_ok; [done|apply (pr_lay P)|done|exact (proj1 (pr_root P))|by apply (pre_root _ _ _ _ _ _ P)| |by split].
  intros fs1 img1 b' tab Gr Hl Htb Hptr. pose proof (gr_shape Gr) as S1.
  eapply t_bind_lift; [exact Eq|]. eapply t_bind_lift; [by apply (table_entry fs img (i_block inode 14))|].
  eapply (level_step 2 fs img (i_block inode 14) _ _ phys P Hd _ (update_i_block inode 14)); [intros fs2 img2 x Hx Hr; by exists x|done|exact Gr|done|done|done|].
  rewrite <- (shape_ppb fs fs1 S1). apply set_middle_ok; [|by rewrite (ss_dev _ _ S1)].
    rewrite (shape_ppb fs fs1 S1). exact (child_pre _ _ _ _ _ _ _ P _ _ _ Gr Hby).
Qed.
End MapIo.
