(* ===== verification/Ext2File.v ===== *)
(** * The ext2 driver: the blocks of a file

    The blocks of a file are the values of the paths of its inode: a root, one of
    the 15 block pointers, and indices below it.  In a well-formed file
    ([file_tree]) they are different and owned.  ext2_bmap looks a logical block
    up ([bmap_ok]) and ext2_bmap_set inserts one ([bmap_set_ok]): the file is a
    finite map from logical to physical blocks. *)

From S2P Require Import Prelude Bytes Vfs BlockDev IoLogic FsBitmap Kstd Ext2 Ext2Proofs Ext2Alloc Ext2Map.

Section Paths.
Context (fs : ext2_fs) (G : geo fs).
Implicit Types (img inode : list Z).

Abbreviation path := (Z * list Z)%type.

Definition depth (r : Z) : nat := if r <? 12 then 0 else Z.to_nat (r - 11).

Definition path_of (lbn : Z) : path :=
  let n := ppb fs in
  if lbn <? 12 then (lbn, []) else
  if lbn - 12 <? n then (12, [lbn - 12]) else
  let m := lbn - 12 - n in
  if m <? n * n then (13, [m / n; m mod n]) else
  let m := m - n * n in
  (14, [m / (n * n); (m / n) mod n; m mod n]).

(** The logical blocks that the map can hold. *)
Definition lbn_ok (lbn : Z) : Prop :=
  0 <= lbn < 12 + ppb fs + ppb fs * ppb fs + ppb fs * ppb fs * ppb fs.

Definition pvalid (p : path) : Prop := 0 <= p.1 < 15 /\ vpath fs (depth p.1) p.2.

Definition val img inode (p : path) : Z := walk fs img (i_block inode p.1) p.2.

Definition bmap_of img inode (lbn : Z) : Z := val img inode (path_of lbn).

Record file_tree img inode : Prop := {
  ft_len : len inode = INODE_SIZE;
  ft_bytes : Forall byte_ok inode;
  ft_sep p q : pvalid p -> pvalid q -> val img inode p = val img inode q -> val img inode p <> 0 -> p = q;
  ft_own p : pvalid p -> val img inode p <> 0 -> owned fs img (val img inode p)
}.

Lemma div_index x n m : 0 < n -> 0 <= x < m * n -> 0 <= x / n < m.
Proof. intros Hn Hx. split; [apply Z.div_pos; lia|]. apply Z.div_lt_upper_bound; lia. Qed.

(** The path of a logical block is complete, and determines the block. *)
Lemma path_of_ok lbn : lbn_ok lbn ->
  pvalid (path_of lbn) /\ length (path_of lbn).2 = depth (path_of lbn).1.
Proof.
  unfold lbn_ok, path_of. pose proof (ppb_bounds fs G) as [Hp _]. set (n := ppb fs) in *. intros Hl.
  assert (Hm : forall x, index_ok fs (x mod n)) by (intros x; apply Z.mod_pos_bound; lia).
  destruct (Z.ltb_spec lbn 12); [|destruct (Z.ltb_spec (lbn - 12) n); [|destruct (Z.ltb_spec (lbn - 12 - n) (n * n))]].
  - unfold pvalid, vpath, depth. cbn [fst snd length]. rewrite (proj2 (Z.ltb_lt lbn 12)) by lia. split_and!; done || lia.
  - split; [|done]. split; [done|]. split; [done|]. repeat constructor; unfold index_ok; fold n; lia.
  - split; [|done]. split; [done|]. split; [done|].
    constructor; [unfold index_ok; fold n; apply div_index; lia|]. by constructor.
  - split; [|done]. split; [done|]. split; [done|].
    constructor; [unfold index_ok; fold n; apply div_index; nia|]. constructor; [apply Hm|]. by constructor.
Qed.

Lemma path_of_inj x y : lbn_ok x -> lbn_ok y -> path_of x = path_of y -> x = y.
Proof.
  unfold lbn_ok, path_of. pose proof (ppb_bounds fs G) as [Hp _]. set (n := ppb fs) in *. intros Hx Hy.
  assert (Ediv : forall u v, u / n = v / n -> u mod n = v mod n -> u = v).
  { intros u v E1 E2. rewrite (Z.div_mod u n), (Z.div_mod v n) by lia. by rewrite E1, E2. }
  destruct (Z.ltb_spec x 12); [|destruct (Z.ltb_spec (x - 12) n); [|destruct (Z.ltb_spec (x - 12 - n) (n * n))]];
  (destruct (Z.ltb_spec y 12); [|destruct (Z.ltb_spec (y - 12) n); [|destruct (Z.ltb_spec (y - 12 - n) (n * n))]]);
    intros E; try (injection E; intros; subst; lia); try discriminate.
  - injection E as E1 E2. pose proof (Ediv _ _ E1 E2). lia.
  - injection E as E1 E2 E3. enough (x - 12 - n - n * n = y - 12 - n - n * n) by lia. apply Ediv; [|done].
    apply Ediv; [|done]. by rewrite !Z.div_div by lia.
Qed.

Lemma depth_bound r : 0 <= r < 15 -> (depth r <= 3)%nat.
Proof. intros. unfold depth. destruct (Z.ltb_spec r 12); lia. Qed.

(** ** Inodes *)

Definition inode_ok inode : Prop := len inode = INODE_SIZE /\ Forall byte_ok inode.

Lemma i_block_range inode r : inode_ok inode -> 0 <= r < 15 -> 0 <= i_block inode r < 2 ^ 32.
Proof. intros [Hl Hb] Hr. unfold INODE_SIZE in Hl. apply field32_range; [done|lia|lia]. Qed.

(** Entry [r] has become [b], nothing else has changed. *)
Record inode_set inode inode' (r b : Z) : Prop := {
  is_ok : inode_ok inode';
  is_block r' : 0 <= r' < 15 -> i_block inode' r' = if decide (r' = r) then b else i_block inode r';
  is_head : slice inode' 0 40 = slice inode 0 40
}.

Lemma set_i_block_ok inode r b :
  inode_ok inode -> 0 <= r < 15 -> 0 <= b < 2 ^ 32 -> inode_set inode (set_i_block inode r b) r b.
Proof.
  intros [Hl Hb] Hr Hbr. unfold INODE_SIZE in Hl. constructor.
  - split; [unfold set_i_block; rewrite len_set_field32; unfold INODE_SIZE; lia|by apply set_field32_bytes].
  - intros r' Hr'. unfold i_block, set_i_block. destruct (decide (r' = r)) as [->|Hne].
    + apply set_field32_eq; lia.
    + apply field32_splice_ne; size.
  - apply slice_splice_ne; size.
Qed.

Lemma update_i_block_ok inode r b :
  inode_ok inode -> 0 <= r < 15 -> 0 <= b < 2 ^ 32 -> inode_set inode (update_i_block inode r b) r b.
Proof.
  intros Hi Hr Hb. unfold update_i_block. destruct (Z.eqb_spec b (i_block inode r)) as [E|]; cbn [negb].
  - constructor; [done| |done]. intros r' _. destruct (decide (r' = r)); congruence.
  - by apply set_i_block_ok.
Qed.

Lemma file_inode_ok img inode : file_tree img inode -> inode_ok inode.
Proof. intros F. split; [apply (ft_len _ _ F)|apply (ft_bytes _ _ F)]. Qed.

(** The subtree of a root. *)
Lemma file_subtree img inode r : file_tree img inode -> 0 <= r < 15 -> tree fs img (i_block inode r) (depth r).
Proof.
  intros F Hr. constructor.
  - intros l1 l2 H1 H2 E Hnz. assert (E' : (r, l1) = (r, l2)); [|by injection E'].
    by apply (ft_sep _ _ F).
  - intros l Hl Hnz. by apply (ft_own _ _ F (r, l)).
Qed.
End Paths.

Arguments ft_sep {_ _ _} _.
Arguments ft_own {_ _ _} _.

(** ** Insertion into the map of a file *)

(** [p] is a pointer block of the file. *)
Definition pnode fs (p : Z * list Z) : Prop := pvalid fs p /\ (length p.2 < depth p.1)%nat.

(** The block map of [inode] has got [phys] at the path [q]: the other blocks of
    the file are where they were, new pointer blocks were free, and blocks that
    are not pointer blocks of the file have not changed. *)
Record map_post fs img inode (q : Z * list Z) (phys : Z) fs' img' inode' : Prop := {
  mp_shape : same_shape fs fs';
  mp_geo : geo fs';
  mp_lay : lay fs' img';
  mp_len : len img' = len img;
  mp_mono c : used fs img c -> used fs img' c;
  mp_file : file_tree fs img' inode';
  mp_head : slice inode' 0 40 = slice inode 0 40;
  mp_here : val fs img' inode' q = phys;
  mp_val p : pvalid fs p -> p <> q ->
    val fs img' inode' p = val fs img inode p \/
    (pnode fs p /\ val fs img inode p = 0 /\ ~ used fs img (val fs img' inode' p) /\ val fs img' inode' p <> 0);
  mp_frame c : 0 <= c -> used fs img c -> not_bitmap fs c -> (forall p, pnode fs p -> val fs img inode p <> 0 -> c <> val fs img inode p) ->
    eblk fs img' c = eblk fs img c;
  mp_new c : used fs img' c -> used fs img c \/ exists p, pnode fs p /\ c = val fs img' inode' p
}.
Arguments mp_shape {_ _ _ _ _ _ _ _} _.
Arguments mp_geo {_ _ _ _ _ _ _ _} _.
Arguments mp_lay {_ _ _ _ _ _ _ _} _.
Arguments mp_len {_ _ _ _ _ _ _ _} _.
Arguments mp_mono {_ _ _ _ _ _ _ _} _.
Arguments mp_file {_ _ _ _ _ _ _ _} _.
Arguments mp_head {_ _ _ _ _ _ _ _} _.
Arguments mp_here {_ _ _ _ _ _ _ _} _.
Arguments mp_val {_ _ _ _ _ _ _ _} _.
Arguments mp_frame {_ _ _ _ _ _ _ _} _.
Arguments mp_new {_ _ _ _ _ _ _ _} _.

Section Insert.
Context (fs : ext2_fs) (img inode : list Z) (r : Z) (l : list Z) (phys : Z).
Context (G : geo fs) (L : lay fs img) (F : file_tree fs img inode).
Context (Hr : 0 <= r < 15) (Hl : vpath fs (depth r) l) (Hfull : length l = depth r).
Context (Hphys : owned fs img phys) (Hnz : phys <> 0).
Hypothesis Hnew : forall p, pvalid fs p -> val fs img inode p <> phys.

Lemma insert_pre : set_pre (depth r) fs img (i_block inode r) l phys.
Proof.
  destruct Hphys as [Hu Hrg _]. destruct Hrg as [Hrg _].
  constructor; try done; [by apply file_subtree|by apply i_block_range; [apply (file_inode_ok fs img)|]|lia|].
  intros m Hm. by apply (Hnew (r, m)).
Qed.

Context (fs' : ext2_fs) (img' inode' : list Z) (b' : Z).
Context (Sp : set_post (depth r) fs img (i_block inode r) l phys fs' img' b') (Is : inode_set inode inode' r b').

(** A path of another root. *)
Lemma insert_other p : pvalid fs p -> p.1 <> r -> val fs img' inode' p = val fs img inode p.
Proof.
  intros Hp Hne. destruct p as [r1 m]. cbn [fst] in Hne. unfold val. cbn [fst snd].
  rewrite (is_block _ _ _ _ Is) by apply Hp. rewrite decide_False by done.
  apply walk_agree; [apply (sp_len Sp)|]. intros q Hq Hqz _.
  assert (Hvq : pvalid fs (r1, q)).
  { destruct Hp as [H1 [H2 H3]]. split; [done|]. cbn [fst snd] in *. pose proof (ppre_length q m Hq).
    split; [lia|by eapply ppre_Forall]. }
  destruct (ft_own F (r1, q) Hvq Hqz) as [Hu Hrg Hd]. cbn [val fst snd] in *.
  apply (sp_frame Sp); [apply Hrg|done|]. intros m2 Hm2 E.
  assert (Hv2 : vpath fs (depth r) m2).
  { destruct Hl as [H1 H2]. pose proof (ppre_length m2 l Hm2). split; [lia|by eapply ppre_Forall]. }
  destruct (sp_walk Sp m2 Hv2) as [[E2 _]|[[_ E2]|(_ & _ & _ & Hnu & _)]].
  - subst m2. pose proof (ppre_length l l Hm2). lia.
  - assert (E3 : (r1, q) = (r, m2)); [|by injection E3].
    apply (ft_sep F); [done|done| |done]. unfold val. cbn [fst snd]. congruence.
  - apply Hnu. by rewrite <- E.
Qed.

Lemma insert_val p : pvalid fs p ->
  (p = (r, l) /\ val fs img' inode' p = phys) \/
  (p <> (r, l) /\ val fs img' inode' p = val fs img inode p) \/
  (p.1 = r /\ fresh_node fs img img' (i_block inode r) b' l p.2 /\ val fs img' inode' p = walk fs img' b' p.2).
Proof.
  intros Hp. destruct (decide (p.1 = r)) as [E|Hne].
  - destruct p as [r1 m]. cbn [fst] in E. subst r1. unfold val. cbn [fst snd].
    rewrite (is_block _ _ _ _ Is), decide_True by done. destruct Hp as [_ Hm]. cbn [fst snd] in Hm.
    destruct (sp_walk Sp m Hm) as [[-> E]|[[H1 E]|Hf]]; [by left| |by right; right].
    right; left. split; [congruence|done].
  - right; left. split; [|by apply insert_other]. intros ->. done.
Qed.

(** A fresh node as a path of the file. *)
Lemma fresh_pnode m : fresh_node fs img img' (i_block inode r) b' l m ->
  pnode fs (r, m) /\ val fs img inode (r, m) = 0 /\ val fs img' inode' (r, m) = walk fs img' b' m.
Proof.
  intros (Hm & Hz & _). pose proof (ppre_length m l Hm). destruct Hl as [H1 H2]. split_and!; [|done|].
  - split; [|cbn [fst snd]; lia]. split; [done|]. cbn [fst snd]. split; [lia|by eapply ppre_Forall].
  - unfold val. cbn [fst snd]. by rewrite (is_block _ _ _ _ Is), decide_True by done.
Qed.

Lemma insert_file : file_tree fs img' inode'.
Proof.
  assert (Hold : forall p, pvalid fs p -> val fs img inode p <> 0 -> used fs img (val fs img inode p)).
  { intros p Hp Hz. apply (ft_own F p Hp Hz). }
  constructor; [apply (is_ok _ _ _ _ Is)|apply (is_ok _ _ _ _ Is)|..].
  - intros p q Hp Hq E Hz.
    destruct (insert_val p Hp) as [[-> Ep]|[[Np Ep]|(Rp & Fp & Ep)]],
             (insert_val q Hq) as [[-> Eq]|[[Nq Eq]|(Rq & Fq & Eq)]].
    + done.
    + exfalso. apply (Hnew q Hq). congruence.
    + exfalso. destruct Fq as (_ & _ & _ & Hnu & _). apply Hnu. rewrite <- Eq, <- E, Ep. apply Hphys.
    + exfalso. apply (Hnew p Hp). congruence.
    + apply (ft_sep F); [done|done|congruence|congruence].
    + exfalso. destruct Fq as (_ & _ & _ & Hnu & _). apply Hnu. rewrite <- Eq, <- E, Ep. apply Hold; [done|congruence].
    + exfalso. destruct Fp as (_ & _ & _ & Hnu & _). apply Hnu. rewrite <- Ep, E, Eq. apply Hphys.
    + exfalso. destruct Fp as (_ & _ & _ & Hnu & _). apply Hnu. rewrite <- Ep, E, Eq. apply Hold; [done|congruence].
    + destruct p as [rp mp], q as [rq mq]. cbn [fst snd] in *. subst rp rq. f_equal.
      apply (sp_fresh Sp); [done|done|congruence].
  - intros p Hp Hz. destruct (insert_val p Hp) as [[-> Ep]|[[Np Ep]|(Rp & Fp & Ep)]]; rewrite Ep in *.
    + destruct Hphys as [Hu Hrg Hd]. constructor; [by apply (sp_mono Sp)|eapply in_range_len; [apply (sp_len Sp)|done]|done].
    + destruct (ft_own F p Hp Hz) as [Hu Hrg Hd]. constructor; [by apply (sp_mono Sp)|eapply in_range_len; [apply (sp_len Sp)|done]|done].
    + by destruct Fp as (_ & _ & _ & _ & Ho).
Qed.

Lemma insert_ok : map_post fs img inode (r, l) phys fs' img' inode'.
Proof.
  constructor; [apply (sp_shape Sp)|apply (sp_geo Sp)|apply (sp_lay Sp)|apply (sp_len Sp)|apply (sp_mono Sp)|apply insert_file|apply (is_head _ _ _ _ Is)|..].
  - destruct (insert_val (r, l)) as [[_ E]|[[? _]|(_ & Fp & _)]]; [done|done|done|].
    destruct Fp as (Hp & _). cbn [snd] in Hp. pose proof (ppre_length l l Hp). lia.
  - intros p Hp Hne. destruct (insert_val p Hp) as [[? _]|[[_ E]|(Rp & Fp & E)]]; [done|by left|right].
    destruct p as [rp m]. cbn [fst snd] in *. subst rp. destruct (fresh_pnode m Fp) as (H1 & H2 & H3).
    destruct Fp as (_ & _ & Hz & Hnu & _). rewrite E. done.
  - intros c Hc Hu Hn Hp. apply (sp_frame Sp); [done|done|]. intros m Hm E.
    assert (Hv : vpath fs (depth r) m).
    { destruct Hl as [H1 H2]. pose proof (ppre_length m l Hm). split; [lia|by eapply ppre_Forall]. }
    destruct (sp_walk Sp m Hv) as [[E2 _]|[[_ E2]|(_ & _ & _ & Hnu & _)]].
    + subst m. pose proof (ppre_length l l Hm). lia.
    + assert (Hz : walk fs img' b' m <> 0).
      { intros E0. destruct (sp_walk Sp l Hl) as [[_ E1]|[[? _]|(Hp' & _)]]; [|done|by pose proof (ppre_length l l Hp'); lia].
        apply Hnz. rewrite <- E1. by apply (walk_ppre_zero fs img' b' m l). }
      apply (Hp (r, m)); [|unfold val; cbn [fst snd]; congruence..]. split; [done|]. cbn [fst snd]. pose proof (ppre_length m l Hm). lia.
    + apply Hnu. by rewrite <- E.
  - intros c Hc. destruct (sp_new Sp c Hc) as [?|(m & Hm & ->)]; [by left|right]. exists (r, m).
    destruct (fresh_pnode m Hm) as (H1 & _ & H3). by rewrite H3.
Qed.
End Insert.

(** ** The code *)

Section FileIo.
Context {W : Type} `{OK : FsWorldOk W} {RL : Reliable W True}.
Context (d : Z).
Implicit Types (fs : ext2_fs) (img inode : list Z).

Abbreviation T img m Q := (triple d 512 img m Q (fun _ _ => False)).

Lemma read_indirect_ok fs img b i :
  geo fs -> block_dev fs = d -> 0 <= b < 2 ^ 32 -> index_ok fs i ->
  T img (ext2_read_indirect fs b i) (fun img' v => img' = img /\ v = ptr fs img b i).
Proof.
  intros G Hd Hb Hi. unfold ext2_read_indirect, ptr. destruct (Z.eqb_spec b 0) as [->|Hnz].
  { rewrite decide_False by naive_solver. by apply t_ok. }
  pose proof (ppb_bounds fs G). unfold index_ok in Hi. destruct (decide (b <> 0 /\ in_range fs img b)) as [[_ Hr]|Hn].
  - apply t_or_return, t_buffer; [done|]. intros buf Hbuf _. eapply t_bind; [by apply t_read_block|].
    intros ? tab [-> ->]. eapply t_lift; [apply get32_ok; rewrite ?(len_eblk fs G) by done; lia|]. done.
  - assert (Hout : triple d 512 img (with_buffer (block_size fs) (- ENOMEM) (fun table =>
      bind (ext2_read_block fs b table) (fun table => lift (get32 table (4 * i))))) (fun _ _ => False) (fun i' _ => i' = img)).
    { apply t_buffer; [done|]. intros buf Hbuf _.
      eapply t_bind; [apply t_read_block_out; [done|done|done|naive_solver|done]|]. intros ? ? []. }
    unfold or_return. eapply t_bind_attempt; [exact Hout|by intros ? ? []|]. intros i' e ->. by apply t_ok.
Qed.

Lemma lbn_small fs lbn : geo fs -> lbn_ok fs lbn -> lbn < 2 ^ 43.
Proof. intros G. unfold lbn_ok. pose proof (ppb_bounds fs G). nia. Qed.

Lemma bmap_ok fs img inode lbn :
  geo fs -> block_dev fs = d -> inode_ok inode -> lbn_ok fs lbn ->
  T img (ext2_bmap fs inode lbn) (fun img' v => img' = img /\ v = bmap_of fs img inode lbn).
Proof.
  intros G Hd Hi Hlbn. destruct (path_of_ok fs G lbn Hlbn) as [Hv _]. revert Hv.
  unfold ext2_bmap, bmap_of, val, path_of. fold (ppb fs). pose proof (ppb_bounds fs G) as [Hp _].
  assert (E2 : u32 (ppb fs * ppb fs) = ppb fs * ppb fs) by (apply u32_id; nia). rewrite E2.
  intros Hv. apply t_bytes. intros Hby. unfold EXT2_NDIR_BLOCKS, EXT2_IND_BLOCK, EXT2_DIND_BLOCK, EXT2_TIND_BLOCK.
  assert (Hr : forall k, 0 <= k < 15 -> 0 <= i_block inode k < 2 ^ 32) by (intros; by apply i_block_range).
  destruct (lbn <? 12); [by apply t_ok|]. destruct (lbn - 12 <? ppb fs).
  { destruct Hv as [_ [_ Hv]]. apply Forall_cons in Hv as [Hv _]. apply read_indirect_ok; [done|done|by apply Hr|done]. }
  destruct (divmod_ok (lbn - 12 - ppb fs) (ppb fs)) as [Eq Er]; [lia|]. destruct (lbn - 12 - ppb fs <? ppb fs * ppb fs).
  { destruct Hv as [_ [_ Hv]]. cbn [fst snd] in Hv. apply Forall_cons in Hv as [Hv1 Hv]. apply Forall_cons in Hv as [Hv2 _].
    eapply t_bind_lift; [exact Eq|]. eapply t_bind_lift; [exact Er|].
    eapply t_bind; [apply read_indirect_ok; [done|done|by apply Hr|done]|]. intros i v [-> ->].
    apply read_indirect_ok; [done|done|by apply ptr_range|done]. }
  set (m := lbn - 12 - ppb fs - ppb fs * ppb fs) in *.
  destruct Hv as [_ [_ Hv]]. cbn [fst snd] in Hv. apply Forall_cons in Hv as [Hv1 Hv].
  apply Forall_cons in Hv as [Hv2 Hv]. apply Forall_cons in Hv as [Hv3 _].
  eapply t_bind_lift; [apply divmod_ok; nia|].
  eapply t_bind; [apply read_indirect_ok; [done|done|by apply Hr|done]|]. intros i v [-> ->].
  eapply t_bind_lift; [apply divmod_ok; lia|]. eapply t_bind_lift; [apply divmod_ok; lia|].
  eapply t_bind; [apply read_indirect_ok; [done|done|by apply ptr_range|done]|]. intros i v [-> ->].
  eapply t_bind_lift; [apply divmod_ok; lia|].
  apply read_indirect_ok; [done|done|by repeat apply ptr_range|done].
Qed.

(** The map of the file is extended, or the volume is full. *)
Definition map_result fs img inode (lbn phys : Z) img' (x : ext2_fs * rc (list Z)) : Prop :=
  match x.2 with
  | Ok inode' => map_post fs img inode (path_of fs lbn) phys x.1 img' inode'
  | Err e => e = - ENOSPC /\ full_post fs img x.1 img' /\ EXT2_NDIR_BLOCKS <= lbn
  end.

Lemma bmap_set_ok fs img inode lbn phys :
  geo fs -> lay fs img -> block_dev fs = d -> file_tree fs img inode -> lbn_ok fs lbn ->
  owned fs img phys -> phys <> 0 -> (forall p, pvalid fs p -> val fs img inode p <> phys) ->
  T img (ext2_bmap_set fs inode lbn phys) (map_result fs img inode lbn phys).
Proof.
  intros G L Hd F Hlbn Hphys Hnz Hnew. destruct (path_of_ok fs G lbn Hlbn) as [Hv Hfull].
  pose proof (file_inode_ok fs img inode F) as Hi. pose proof (ppb_bounds fs G) as [Hp _].
  assert (E2 : u32 (ppb fs * ppb fs) = ppb fs * ppb fs) by (apply u32_id; nia).
  assert (Hpr : 0 <= phys < 2 ^ 32) by (destruct Hphys as [_ [? _] _]; done).
  assert (Hins : forall r l, path_of fs lbn = (r, l) -> 0 <= r < 15 /\ vpath fs (depth r) l /\ length l = depth r).
  { intros r l E. rewrite E in *. destruct Hv. done. }
  assert (Hpre : forall r l, path_of fs lbn = (r, l) -> set_pre (depth r) fs img (i_block inode r) l phys).
  { intros r l E. destruct (Hins r l E) as (Hr & Hl & Hf). by apply insert_pre. }
  assert (Hres : forall r l img' x, path_of fs lbn = (r, l) -> 12 <= lbn ->
    set_inode_result (depth r) fs img inode r l phys img' x -> map_result fs img inode lbn phys img' x).
  { intros r l img' [fs' [inode'|e]] E HC; unfold set_inode_result, map_result; cbn [fst snd].
    2: { by intros [-> P]. }
    intros (b' & Sp & Hb' & ->). destruct (Hins r l E) as (Hr & Hl & Hf). rewrite E.
    eapply insert_ok; try done. by apply update_i_block_ok. }
  unfold ext2_bmap_set, EXT2_NDIR_BLOCKS, EXT2_IND_BLOCK. fold (ppb fs). rewrite E2.
  destruct (lbn <? 12) eqn:C1.
  { assert (Ep : path_of fs lbn = (lbn, [])) by (unfold path_of; by rewrite C1).
    destruct (Hins _ _ Ep) as (Hr & Hl & Hf). pose proof (Hpre _ _ Ep) as P. cbn [length] in Hf. rewrite <- Hf in P.
    apply t_ok. unfold map_result. cbn [fst snd]. rewrite Ep.
    eapply insert_ok; try done; [|by apply set_i_block_ok]. rewrite <- Hf. by apply set_post_leaf. }
  destruct (lbn - 12 <? ppb fs) eqn:C2.
  { assert (Ep : path_of fs lbn = (12, [lbn - 12])) by (unfold path_of; by rewrite C1, C2).
    eapply t_bind; [apply set_indirect_ok; [exact (Hpre _ _ Ep)|done]|]. intros img' [fs' [b'|e]] Hsr; apply t_ok; apply (Hres _ _ _ _ Ep (proj1 (Z.ltb_ge _ _) C1)); [|done].
    destruct Hsr as [Sp Hb']. by exists b'. }
  destruct (lbn - 12 - ppb fs <? ppb fs * ppb fs) eqn:C3.
  - assert (Ep : path_of fs lbn = (13, [(lbn - 12 - ppb fs) / ppb fs; (lbn - 12 - ppb fs) mod ppb fs]))
      by (unfold path_of; by rewrite C1, C2, C3).
    eapply t_mono; [apply set_double_ok; [exact (Hpre _ _ Ep)|done]| |done]. intros img' x. exact (Hres _ _ img' x Ep (proj1 (Z.ltb_ge _ _) C1)).
  - set (m := lbn - 12 - ppb fs - ppb fs * ppb fs).
    assert (Ep : path_of fs lbn = (14, [m / (ppb fs * ppb fs); (m / ppb fs) mod ppb fs; m mod ppb fs]))
      by (unfold path_of; by rewrite C1, C2, C3).
    eapply t_mono; [apply set_triple_ok; [exact (Hpre _ _ Ep)|done]| |done]. intros img' x. exact (Hres _ _ img' x Ep (proj1 (Z.ltb_ge _ _) C1)).
Qed.
End FileIo.
