(* ===== verification/Ext2Data.v ===== *)
(** * The ext2 driver: reading and writing files

    A file is an array of bytes: [byte_at] is the byte at a position, 0 in a hole.
    Reading returns them; writing changes the bytes of a range and no others, and
    touches no block that was in use and does not belong to the file. *)

From S2P Require Import Prelude Bytes Vfs BlockDev IoLogic FsBitmap Kstd Ext2 Ext2Proofs Ext2Alloc Ext2Map Ext2File.

Section Contents.
Context (fs : ext2_fs) (G : geo fs).
Implicit Types (img inode : list Z).

Definition byte_at img inode (i : Z) : Z :=
  let b := bmap_of fs img inode (i / block_size fs) in
  if b =? 0 then 0 else default 0 (eblk fs img b !! Z.to_nat (i mod block_size fs)).

Definition content img inode (pos n : Z) : list Z := map (byte_at img inode) (seqZ pos n).

Lemma lbn_of_pos pos : 0 <= pos < 2 ^ 32 -> lbn_ok fs (pos / block_size fs).
Proof.
  intros Hp. pose proof (bs_pos fs G). pose proof (ppb_bounds fs G) as [Hb _]. unfold lbn_ok.
  assert (0 <= pos / block_size fs < 2 ^ 22).
  { split; [apply Z.div_pos; lia|]. apply Z.div_lt_upper_bound; lia. }
  assert (2 ^ 24 <= ppb fs * ppb fs * ppb fs) by nia. nia.
Qed.

Lemma file_content_app img inode pos n m :
  0 <= n -> 0 <= m -> content img inode pos (n + m) = content img inode pos n ++ content img inode (pos + n) m.
Proof. intros. unfold content. rewrite seqZ_app by lia. by rewrite map_app. Qed.

Lemma len_file_content img inode pos n : 0 <= n -> len (content img inode pos n) = n.
Proof. intros. unfold content, len. rewrite length_map, length_seqZ. lia. Qed.

(** Within one block. *)
Lemma content_chunk img inode pos n :
  0 <= pos -> 0 <= n -> pos mod block_size fs + n <= block_size fs ->
  let b := bmap_of fs img inode (pos / block_size fs) in
  content img inode pos n =
    if b =? 0 then replicate (Z.to_nat n) 0
    else if decide (in_range fs img b) then slice (eblk fs img b) (pos mod block_size fs) n else content img inode pos n.
Proof.
  intros Hp Hn Hfit b. pose proof (bs_pos fs G) as Hbs. pose proof (Z.mod_pos_bound pos (block_size fs) ltac:(lia)) as Hm.
  assert (Hdm : forall k, 0 <= k < n -> (pos + k) / block_size fs = pos / block_size fs /\
                                        (pos + k) mod block_size fs = pos mod block_size fs + k).
  { intros k Hk. pose proof (Z.div_mod pos (block_size fs) ltac:(lia)) as E.
    replace (pos + k) with (pos mod block_size fs + k + pos / block_size fs * block_size fs) by lia.
    rewrite Z.div_add, Z.mod_add, Z.div_small, Z.mod_small by lia. lia. }
  destruct (Z.eqb_spec b 0) as [Eb|Hnz]; [|destruct (decide _) as [Hr|]; [|done]].
  - apply list_eq_len; [rewrite len_file_content by lia; unfold len; rewrite length_replicate; lia|].
    intros k Hk. rewrite len_file_content in Hk by lia. unfold content. change (map ?f ?l) with (f <$> l).
    rewrite list_lookup_fmap, lookup_seqZ_lt by lia. rewrite lookup_replicate_2 by lia. cbn. f_equal.
    unfold byte_at. rewrite Z2Nat.id by lia. rewrite (proj1 (Hdm k Hk)). fold b. by rewrite Eb.
  - pose proof (len_eblk fs G img b Hr) as Hl.
    apply list_eq_len; [rewrite len_file_content, len_slice; lia|].
    intros k Hk. rewrite len_file_content in Hk by lia. unfold content. change (map ?f ?l) with (f <$> l).
    rewrite list_lookup_fmap, lookup_seqZ_lt, slice_lookup by lia. cbn. unfold byte_at. rewrite Z2Nat.id by lia.
    destruct (Hdm k Hk) as [-> ->]. fold b. rewrite (proj2 (Z.eqb_neq b 0)) by done.
    destruct (lookup_lt_is_Some_2 (eblk fs img b) (Z.to_nat (pos mod block_size fs + k))) as [x ->]; [unfold len in Hl; lia|done].
Qed.
End Contents.

Section Reading.
Context {W : Type} `{OK : FsWorldOk W} {RL : Reliable W True}.
Context (d : Z).
Implicit Types (fs : ext2_fs) (img inode : list Z).

Abbreviation T img m Q := (triple d 512 img m Q (fun _ _ => False)).

(** Data blocks of a file are on the device. *)
Lemma bmap_owned fs img inode lbn :
  geo fs -> file_tree fs img inode -> lbn_ok fs lbn -> bmap_of fs img inode lbn <> 0 -> owned fs img (bmap_of fs img inode lbn).
Proof. intros G F Hl Hnz. apply (ft_own F); [by apply path_of_ok|done]. Qed.

Lemma read_file_loop_ok fs img inode (G : geo fs) (F : file_tree fs img inode) : block_dev fs = d ->
  forall n pos remaining blk out,
  0 <= pos -> 0 <= remaining -> pos + remaining < 2 ^ 32 -> remaining < Z.of_nat n -> len blk = block_size fs ->
  T img (read_file_loop n fs inode pos remaining blk out)
    (fun img' r => img' = img /\ r = (out ++ content fs img inode pos remaining, pos + remaining)).
Proof.
  intros Hd. pose proof (bs_pos fs G) as Hbs.
  induction n as [|n IH]; intros pos remaining blk out Hp Hrem Hmax Hn Hblk; [lia|]. cbn [read_file_loop].
  destruct (Z.ltb_spec 0 remaining) as [Hpos|Hz].
  2: { replace remaining with 0 by lia. apply t_ok. split; [done|]. by rewrite app_nil_r, Z.add_0_r. }
  pose proof (Z.mod_pos_bound pos (block_size fs) ltac:(lia)) as Hm.
  set (boff := pos mod block_size fs) in *. set (lbn := pos / block_size fs).
  eapply t_bind_lift; [apply divmod_ok; lia|]. eapply t_bind_lift; [apply divmod_ok; lia|]. fold boff lbn.
  set (k := if remaining <? block_size fs - boff then remaining else block_size fs - boff).
  assert (Hk : 0 < k <= remaining /\ boff + k <= block_size fs).
  { unfold k. destruct (Z.ltb_spec remaining (block_size fs - boff)); lia. }
  assert (Hlbn : lbn_ok fs lbn) by (apply lbn_of_pos; [done|lia]).
  assert (Hnext : forall blk' bytes, len blk' = block_size fs -> bytes = content fs img inode pos k ->
    T img (read_file_loop n fs inode (u32 (pos + k)) (remaining - k) blk' (out ++ bytes))
      (fun img' r => img' = img /\ r = (out ++ content fs img inode pos remaining, pos + remaining))).
  { intros blk' bytes Hb' ->. rewrite u32_id by lia.
    eapply t_mono; [apply IH; lia| |done]. intros i r [-> ->]. split; [done|]. f_equal; [|lia].
    rewrite <- app_assoc. f_equal. replace remaining with (k + (remaining - k)) at 2 by lia. by rewrite file_content_app by lia. }
  eapply t_bind; [by apply bmap_ok; [..|by apply (file_inode_ok fs img)|]|]. intros i phys [-> ->].
  pose proof (content_chunk fs G img inode pos k Hp ltac:(lia) ltac:(lia)) as Hc. cbn zeta in Hc.
  change (pos / block_size fs) with lbn in Hc. change (pos mod block_size fs) with boff in Hc.
  destruct (Z.eqb_spec (bmap_of fs img inode lbn) 0) as [Ez|Hnz].
  - apply Hnext; [done|]. by rewrite Hc.
  - destruct (bmap_owned fs img inode lbn G F Hlbn Hnz) as [_ Hr _]. rewrite decide_True in Hc by done.
    eapply t_bind; [by apply t_or_fail, t_read_block|]. intros i b [-> ->]. pose proof (len_eblk fs G img _ Hr) as Hl.
    eapply t_bind_lift; [apply mem_read_slice; lia|]. by apply Hnext.
Qed.
End Reading.

(** ** One block of a file is written *)

Section WriteBlock.
Context (fs : ext2_fs) (G : geo fs).
Implicit Types (img inode : list Z).

(** The values of the paths depend on the pointer blocks only. *)
Lemma val_agree img img' inode p :
  len img' = len img -> pvalid fs p ->
  (forall q, pnode fs q -> val fs img inode q <> 0 -> eblk fs img' (val fs img inode q) = eblk fs img (val fs img inode q)) ->
  val fs img' inode p = val fs img inode p.
Proof.
  intros Hlen [Hr Hv] Hag. unfold val. apply walk_agree; [done|]. intros m Hm Hnz _.
  apply (Hag (p.1, m)); [|done]. pose proof (ppre_length m _ Hm). destruct Hv as [H1 H2].
  split; [|cbn [fst snd]; lia]. split; [done|]. cbn [fst snd]. split; [lia|by eapply ppre_Forall].
Qed.

(** The block map survives changes outside the pointer blocks. *)
Lemma file_tree_agree img img' inode :
  len img' = len img -> (forall c, used fs img c -> used fs img' c) -> file_tree fs img inode ->
  (forall q, pnode fs q -> val fs img inode q <> 0 -> eblk fs img' (val fs img inode q) = eblk fs img (val fs img inode q)) ->
  file_tree fs img' inode /\ forall p, pvalid fs p -> val fs img' inode p = val fs img inode p.
Proof.
  intros Hlen Hmono F Hag.
  assert (Hv : forall p, pvalid fs p -> val fs img' inode p = val fs img inode p) by (intros; by apply val_agree).
  split; [|done]. constructor; [apply (ft_len _ _ _ F)|apply (ft_bytes _ _ _ F)|..].
  - intros p q Hp Hq. rewrite !Hv by done. by apply (ft_sep F).
  - intros p Hp. rewrite Hv by done. intros Hnz. destruct (ft_own F p Hp Hnz) as [Hu Hr Hd].
    constructor; [by apply Hmono|by eapply in_range_len|done].
Qed.

(** A data block and a pointer block of a file are different. *)
Lemma data_not_node img inode lbn q :
  file_tree fs img inode -> lbn_ok fs lbn -> pnode fs q -> bmap_of fs img inode lbn <> 0 ->
  val fs img inode q <> bmap_of fs img inode lbn.
Proof.
  intros F Hl [Hq Hqn] Hnz E. destruct (path_of_ok fs G lbn Hl) as [Hp Hfull]. unfold bmap_of in *.
  assert (E' : q = path_of fs lbn) by (apply (ft_sep F); congruence). subst q. lia.
Qed.

Lemma data_inj img inode x y :
  file_tree fs img inode -> lbn_ok fs x -> lbn_ok fs y -> bmap_of fs img inode x <> 0 ->
  bmap_of fs img inode x = bmap_of fs img inode y -> x = y.
Proof.
  intros F Hx Hy Hnz E. apply (path_of_inj fs G); [done|done|]. apply (ft_sep F); [by apply path_of_ok..|done|done].
Qed.

Lemma write_data img inode lbn buf :
  lay fs img -> file_tree fs img inode -> lbn_ok fs lbn -> bmap_of fs img inode lbn <> 0 -> len buf = block_size fs ->
  let b := bmap_of fs img inode lbn in
  let img' := upd fs img b buf in
  lay fs img' /\ len img' = len img /\ (forall c, used fs img' c <-> used fs img c) /\
  file_tree fs img' inode /\ (forall p, pvalid fs p -> val fs img' inode p = val fs img inode p) /\
  (forall i, 0 <= i < 2 ^ 32 -> byte_at fs img' inode i =
     if i / block_size fs =? lbn then default 0 (buf !! Z.to_nat (i mod block_size fs)) else byte_at fs img inode i) /\
  (forall c, 0 <= c -> c <> b -> eblk fs img' c = eblk fs img c).
Proof.
  intros L F Hl Hnz Hlen b img'. destruct (bmap_owned fs img inode lbn G F Hl Hnz) as [Hu Hr Hd]. fold b in Hu, Hr, Hd.
  pose proof (len_upd fs G img b buf Hr Hlen) as Hli.
  assert (Hus : forall c, used fs img' c <-> used fs img c) by (intros; by apply used_upd).
  assert (Hfr : forall c, 0 <= c -> c <> b -> eblk fs img' c = eblk fs img c) by (intros; by apply eblk_upd_ne).
  destruct (file_tree_agree img img' inode) as [F' Hv]; [done|by intros c; rewrite Hus|done| |].
  { intros q Hq Hqz. apply Hfr; [|by apply data_not_node]. apply (ft_own F q (proj1 Hq) Hqz). }
  split_and!; [by apply lay_upd|done|done|done|done| |done].
  intros i Hi. pose proof (lbn_of_pos fs G i Hi) as Hil. unfold byte_at, bmap_of. rewrite Hv by by apply path_of_ok.
  fold (bmap_of fs img inode (i / block_size fs)). destruct (Z.eqb_spec (i / block_size fs) lbn) as [->|Hne].
  - fold b. rewrite (proj2 (Z.eqb_neq b 0)) by done. unfold img'. by rewrite eblk_upd_eq.
  - destruct (Z.eqb_spec (bmap_of fs img inode (i / block_size fs)) 0) as [|Hz]; [done|].
    rewrite Hfr; [done| |]; [apply (bmap_owned fs img inode _ G F Hil Hz)|]. intros E. apply Hne. by apply (data_inj img inode).
Qed.

(** [i_blocks] and [i_size] are not part of the map. *)
Lemma file_tree_header img inode inode' :
  inode_ok inode' -> (forall r, 0 <= r < 15 -> i_block inode' r = i_block inode r) ->
  file_tree fs img inode -> file_tree fs img inode' /\ forall p, pvalid fs p -> val fs img inode' p = val fs img inode p.
Proof.
  intros [Hl Hb] Hi F.
  assert (Hv : forall p, pvalid fs p -> val fs img inode' p = val fs img inode p).
  { intros p [Hp _]. unfold val. by rewrite Hi. }
  split; [|done]. constructor; [done|done|..].
  - intros p q Hp Hq. rewrite !Hv by done. by apply (ft_sep F).
  - intros p Hp. rewrite Hv by done. by apply (ft_own F).
Qed.

Lemma header_field inode off v :
  inode_ok inode -> 0 <= off -> off + 4 <= 40 -> inode_ok (set_field32 inode off v) /\
  forall r, 0 <= r < 15 -> i_block (set_field32 inode off v) r = i_block inode r.
Proof.
  intros [Hl Hb] H1 H2. unfold INODE_SIZE in Hl. split.
  - split; [unfold INODE_SIZE; by rewrite len_set_field32 by lia|by apply set_field32_bytes].
  - intros r Hr. apply field32_splice_ne; size.
Qed.

Lemma byte_at_ext img img' inode inode' i :
  0 <= i < 2 ^ 32 ->
  (forall p, pvalid fs p -> val fs img' inode' p = val fs img inode p) -> (forall c, 0 <= c -> eblk fs img' c = eblk fs img c) ->
  (forall p, pvalid fs p -> 0 <= val fs img inode p) ->
  byte_at fs img' inode' i = byte_at fs img inode i.
Proof.
  intros Hi Hv He Hn. unfold byte_at, bmap_of.
  pose proof (path_of_ok fs G _ (lbn_of_pos fs G i Hi)) as [Hp _]. rewrite Hv by done.
  destruct (_ =? 0); [done|]. by rewrite He by by apply Hn.
Qed.
End WriteBlock.

Section ShapeFile.
Context (fs fs' : ext2_fs) (G : geo fs) (Sh : same_shape fs fs').

Lemma shape_pvalid p : pvalid fs' p <-> pvalid fs p.
Proof. unfold pvalid. by rewrite (shape_vpath fs fs' Sh). Qed.

Lemma shape_val img inode p : val fs' img inode p = val fs img inode p.
Proof. unfold val. apply (shape_walk fs fs' Sh). Qed.

Lemma shape_path_of lbn : path_of fs' lbn = path_of fs lbn.
Proof. unfold path_of. by rewrite (shape_ppb fs fs' Sh). Qed.

Lemma shape_lbn_ok lbn : lbn_ok fs' lbn <-> lbn_ok fs lbn.
Proof. unfold lbn_ok. by rewrite (shape_ppb fs fs' Sh). Qed.

Lemma shape_bmap_of img inode lbn : bmap_of fs' img inode lbn = bmap_of fs img inode lbn.
Proof. unfold bmap_of. by rewrite shape_path_of, shape_val. Qed.

Lemma shape_byte_at img inode i : byte_at fs' img inode i = byte_at fs img inode i.
Proof. unfold byte_at. by rewrite (ss_bs _ _ Sh), shape_bmap_of, (shape_eblk fs fs' Sh). Qed.

Lemma shape_file_tree img inode : file_tree fs' img inode <-> file_tree fs img inode.
Proof.
  split; intros [H1 H2 H3 H4]; (constructor; [done|done|..]).
  - intros p q. rewrite <- !shape_pvalid, <- !shape_val. apply H3.
  - intros p. rewrite <- shape_pvalid, <- shape_val, <- (shape_owned fs fs' G Sh). apply H4.
  - intros p q. rewrite !shape_pvalid, !shape_val. apply H3.
  - intros p. rewrite shape_pvalid, shape_val, (shape_owned fs fs' G Sh). apply H4.
Qed.

Lemma shape_pnode p : pnode fs' p <-> pnode fs p.
Proof. unfold pnode. by rewrite shape_pvalid. Qed.

Lemma map_post_shape img inode q phys fs2 img2 inode2 :
  map_post fs' img inode q phys fs2 img2 inode2 -> map_post fs img inode q phys fs2 img2 inode2.
Proof.
  intros [H1 H2 H3 H4 H5 H6 H7 H8 H9 H10 H11]. constructor; try done.
  - by etrans.
  - intros c. rewrite <- !(shape_used fs fs' G Sh). apply H5.
  - by apply shape_file_tree.
  - by rewrite <- shape_val.
  - intros p Hp Hne. rewrite <- shape_pnode, <- !shape_val, <- (shape_used fs fs' G Sh). apply H9; [by apply shape_pvalid|done].
  - intros c Hc Hu Hn Hp. rewrite <- !(shape_eblk fs fs' Sh).
    apply H10; [done|by apply (shape_used fs fs' G Sh)|by apply (shape_not_bitmap fs fs' Sh)|].
    intros p. rewrite shape_pnode, shape_val. apply Hp.
  - intros c. rewrite <- !(shape_used fs fs' G Sh). intros Hc. destruct (H11 c Hc) as [?|(p & Hp & E)]; [by left|right].
    exists p. by rewrite <- shape_pnode, <- shape_val.
Qed.
End ShapeFile.

(** ** What writing to a file keeps *)

(** The file has changed, and only the file: its blocks stay well-formed, new
    ones were free, blocks in use that are not its own and not bitmaps have not
    changed. *)
Record evolved fs img inode fs' img' inode' : Prop := {
  ev_shape : same_shape fs fs';
  ev_geo : geo fs';
  ev_lay : lay fs' img';
  ev_len : len img' = len img;
  ev_mono c : used fs img c -> used fs img' c;
  ev_file : file_tree fs img' inode';
  ev_head : slice inode' 0 28 = slice inode 0 28;
  ev_frame c : 0 <= c -> used fs img c -> not_bitmap fs c -> (forall p, pvalid fs p -> val fs img inode p <> 0 -> c <> val fs img inode p) ->
    eblk fs img' c = eblk fs img c;
  ev_old p : pvalid fs p -> val fs img' inode' p <> 0 -> used fs img (val fs img' inode' p) ->
    exists q, pvalid fs q /\ val fs img inode q = val fs img' inode' p;
  ev_keep p : pvalid fs p -> val fs img inode p <> 0 -> val fs img' inode' p = val fs img inode p
}.
Arguments ev_shape {_ _ _ _ _ _} _.
Arguments ev_geo {_ _ _ _ _ _} _.
Arguments ev_lay {_ _ _ _ _ _} _.
Arguments ev_len {_ _ _ _ _ _} _.
Arguments ev_mono {_ _ _ _ _ _} _.
Arguments ev_file {_ _ _ _ _ _} _.
Arguments ev_head {_ _ _ _ _ _} _.
Arguments ev_frame {_ _ _ _ _ _} _.
Arguments ev_old {_ _ _ _ _ _} _.
Arguments ev_keep {_ _ _ _ _ _} _.

Lemma evolved_refl fs img inode : geo fs -> lay fs img -> file_tree fs img inode -> evolved fs img inode fs img inode.
Proof. intros G L F. constructor; try done; intros p Hp _ _. by exists p. Qed.

Lemma evolved_shape fs fs1 img inode fs2 img2 inode2 :
  geo fs -> same_shape fs fs1 -> evolved fs1 img inode fs2 img2 inode2 -> evolved fs img inode fs2 img2 inode2.
Proof.
  intros G Sh [H1 H2 H3 H4 H5 H6 H7 H8 H9 H10]. constructor; try done.
  - by etrans.
  - intros c. rewrite <- !(shape_used fs fs1 G Sh). apply H5.
  - by apply (shape_file_tree fs fs1 G Sh).
  - intros c Hc Hu Hn Hp. rewrite <- !(shape_eblk fs fs1 Sh).
    apply H8; [done|by apply (shape_used fs fs1 G Sh)|by apply (shape_not_bitmap fs fs1 Sh)|].
    intros p. rewrite (shape_pvalid fs fs1 Sh), (shape_val fs fs1 Sh). apply Hp.
  - intros p. rewrite <- (shape_pvalid fs fs1 Sh), <- (shape_val fs fs1 Sh), <- (shape_used fs fs1 G Sh).
    intros Hp Hz Hu. destruct (H9 p Hp Hz Hu) as (q & Hq & E). exists q. by rewrite <- (shape_pvalid fs fs1 Sh), <- (shape_val fs fs1 Sh).
  - intros p. rewrite <- (shape_pvalid fs fs1 Sh), <- !(shape_val fs fs1 Sh). apply H10.
Qed.

Lemma evolved_trans fs img inode fs1 img1 inode1 fs2 img2 inode2 :
  geo fs -> evolved fs img inode fs1 img1 inode1 -> evolved fs img1 inode1 fs2 img2 inode2 ->
  evolved fs img inode fs2 img2 inode2.
Proof.
  intros G E1 E2. constructor.
  - apply (ev_shape E2).
  - apply (ev_geo E2).
  - apply (ev_lay E2).
  - rewrite (ev_len E2). apply (ev_len E1).
  - intros c Hc. by apply (ev_mono E2), (ev_mono E1).
  - apply (ev_file E2).
  - rewrite (ev_head E2). apply (ev_head E1).
  - intros c Hc Hu Hn Hp. rewrite (ev_frame E2); [by apply (ev_frame E1)|done|by apply (ev_mono E1)|done|].
    intros p Hpv Hz ->. destruct (ev_old E1 p Hpv Hz Hu) as (q & Hq & E). apply (Hp q); congruence.
  - intros p Hp Hz Hu. destruct (ev_old E2 p Hp Hz) as (q & Hq & E); [by apply (ev_mono E1)|].
    destruct (ev_old E1 q Hq) as (q' & Hq' & E'); [congruence|by rewrite E|]. exists q'. split; [done|congruence].
  - intros p Hp Hz. assert (E : val fs img1 inode1 p = val fs img inode p) by by apply (ev_keep E1).
    rewrite <- E. apply (ev_keep E2); congruence.
Qed.

(** New blocks belong to the file. *)
Definition no_leak fs img img' inode' : Prop :=
  forall c, used fs img' c -> used fs img c \/ exists p, pvalid fs p /\ val fs img' inode' p <> 0 /\ c = val fs img' inode' p.

(** The bytes from [pos] on have become [src]. *)
Definition bytes_set fs img inode (pos : Z) (src : list Z) img' inode' : Prop :=
  forall i, 0 <= i < 2 ^ 32 -> byte_at fs img' inode' i =
    if (pos <=? i) && (i <? pos + len src) then default 0 (src !! Z.to_nat (i - pos)) else byte_at fs img inode i.

Record wrote fs img inode (pos : Z) (src : list Z) fs' img' inode' : Prop := {
  wr_evolved : evolved fs img inode fs' img' inode';
  wr_new : no_leak fs img img' inode';
  wr_bytes : bytes_set fs img inode pos src img' inode'
}.
Arguments wr_evolved {_ _ _ _ _ _ _ _} _.
Arguments wr_new {_ _ _ _ _ _ _ _} _.
Arguments wr_bytes {_ _ _ _ _ _ _ _} _.

Lemma bytes_set_app fs img inode pos s1 s2 img1 inode1 img2 inode2 :
  0 <= pos -> bytes_set fs img inode pos s1 img1 inode1 -> bytes_set fs img1 inode1 (pos + len s1) s2 img2 inode2 ->
  bytes_set fs img inode pos (s1 ++ s2) img2 inode2.
Proof.
  intros Hp H1 H2 i Hi. rewrite (H2 i Hi), (H1 i Hi).
  assert (0 <= len s1 /\ 0 <= len s2) by (unfold len; lia).
  assert (El : len (s1 ++ s2) = len s1 + len s2) by (unfold len; rewrite length_app; lia). rewrite El.
  destruct (Z.leb_spec (pos + len s1) i), (Z.ltb_spec i (pos + len s1 + len s2)), (Z.leb_spec pos i), (Z.ltb_spec i (pos + len s1)),
    (Z.ltb_spec i (pos + (len s1 + len s2))); cbn [andb]; try lia; try done.
  - rewrite lookup_app_r by (unfold len in *; lia). do 2 f_equal. unfold len in *. lia.
  - by rewrite lookup_app_l by (unfold len in *; lia).
Qed.

Lemma wrote_trans fs img inode pos s1 s2 fs1 img1 inode1 fs2 img2 inode2 :
  geo fs -> 0 <= pos -> wrote fs img inode pos s1 fs1 img1 inode1 -> wrote fs img1 inode1 (pos + len s1) s2 fs2 img2 inode2 ->
  wrote fs img inode pos (s1 ++ s2) fs2 img2 inode2.
Proof.
  intros G Hp [E1 N1 B1] [E2 N2 B2]. constructor; [by eapply evolved_trans| |by eapply bytes_set_app].
  intros c Hc. destruct (N2 c Hc) as [Hc1|?]; [|by right]. destruct (N1 c Hc1) as [?|(p & Hpv & Hz & E)]; [by left|right].
  exists p. rewrite (ev_keep E2 p Hpv Hz). done.
Qed.
