(* ===== verification/Ext2Write.v ===== *)
(** * The ext2 driver: the write loop

    One block of a write, with the allocation of the block and of the pointer
    blocks that lead to it, and the loop over the blocks: the bytes of the file
    become the written ones, or the volume is full and a prefix of them has been
    written. *)

From S2P Require Import Prelude Bytes Vfs BlockDev IoLogic FsBitmap Kstd Ext2 Ext2Proofs Ext2Alloc Ext2Map Ext2File Ext2Data.

#[export] Instance used_dec fs img b : Decision (used fs img b).
Proof. unfold used, covered. apply _. Defined.

Definition same_bytes fs img inode img' inode' : Prop :=
  forall i, 0 <= i < 2 ^ 32 -> byte_at fs img' inode' i = byte_at fs img inode i.

(** Allocation alone leaves the file as it is. *)
Lemma quiet_file fs img inode fs' img' :
  geo fs -> file_tree fs img inode -> same_shape fs fs' -> geo fs' -> lay fs' img' -> len img' = len img ->
  (forall c, used fs img c -> used fs img' c) -> (forall c, 0 <= c -> not_bitmap fs c -> eblk fs img' c = eblk fs img c) ->
  evolved fs img inode fs' img' inode /\ (forall p, pvalid fs p -> val fs img' inode p = val fs img inode p) /\
  same_bytes fs img inode img' inode.
Proof.
  intros G F Sh G' L' Hlen Hmono Hfr.
  assert (Hown : forall p, pvalid fs p -> val fs img inode p <> 0 -> eblk fs img' (val fs img inode p) = eblk fs img (val fs img inode p)).
  { intros p Hp Hz. destruct (ft_own F p Hp Hz) as [_ [Hr _] Hd]. apply Hfr; [lia|done]. }
  destruct (file_tree_agree fs img img' inode) as [F' Hv]; [done|done|done| |].
  { intros q Hq. by apply Hown, Hq. }
  split_and!; [|done|].
  - constructor; try done; [by auto|..].
    + intros p Hp. rewrite Hv by done. by exists p.
    + intros p Hp _. by apply Hv.
  - intros i Hi. unfold byte_at, bmap_of. destruct (path_of_ok fs G _ (lbn_of_pos fs G i Hi)) as [Hp _]. rewrite Hv by done.
    destruct (Z.eqb_spec (val fs img inode (path_of fs (i / block_size fs))) 0); [done|]. by rewrite Hown.
Qed.

Lemma slice_head (s t : list Z) n m : 0 <= n <= m -> slice s 0 m = slice t 0 m -> slice s 0 n = slice t 0 n.
Proof.
  intros Hn. unfold slice. cbn [Z.to_nat drop]. intros E.
  rewrite <- (Nat.min_l (Z.to_nat n) (Z.to_nat m)), <- !take_take by lia. by rewrite E.
Qed.

(** A hole is filled with the block [phys], which was free. *)
Section Fill.
Context (fs : ext2_fs) (img inode : list Z) (lbn : Z) (G : geo fs) (L : lay fs img) (F : file_tree fs img inode).
Context (Hl : lbn_ok fs lbn) (Hhole : bmap_of fs img inode lbn = 0).
Context (fs1 : ext2_fs) (img1 : list Z) (phys : Z) (Gr : grew fs img fs1 img1 0 phys).
Context (fs2 : ext2_fs) (img2 inode2 : list Z) (M : map_post fs1 img1 inode (path_of fs lbn) phys fs2 img2 inode2).

Lemma fill_first : evolved fs img inode fs1 img1 inode /\ (forall p, pvalid fs p -> val fs img1 inode p = val fs img inode p) /\
  same_bytes fs img inode img1 inode.
Proof. apply quiet_file; [done|done|..]; destruct Gr; done. Qed.

Lemma fill_map : map_post fs img1 inode (path_of fs lbn) phys fs2 img2 inode2.
Proof. by apply (map_post_shape fs fs1 G (gr_shape Gr)). Qed.

Lemma fill_unused : ~ used fs img phys.
Proof. by destruct (gr_cases Gr) as [[? _]|[_ ?]]. Qed.

Lemma fill_val p : pvalid fs p -> p <> path_of fs lbn ->
  val fs img2 inode2 p = val fs img inode p \/
  (pnode fs p /\ val fs img inode p = 0 /\ ~ used fs img (val fs img2 inode2 p)).
Proof.
  destruct fill_first as (_ & Hv & _). intros Hp Hne.
  destruct (mp_val fill_map p Hp Hne) as [E|(H1 & H2 & H3 & _)]; rewrite Hv in * by done; [by left|right].
  split_and!; [done|done|]. intros Hu. by apply H3, (gr_mono Gr).
Qed.

Lemma fill_evolved : evolved fs img inode fs2 img2 inode2.
Proof.
  destruct fill_first as (_ & Hv & _). pose proof fill_map as M'. constructor.
  - apply (mp_shape M').
  - apply (mp_geo M').
  - apply (mp_lay M').
  - rewrite (mp_len M'). apply (gr_len Gr).
  - intros c Hc. by apply (mp_mono M'), (gr_mono Gr).
  - apply (mp_file M').
  - eapply (slice_head _ _ _ 40); [lia|apply (mp_head M')].
  - intros c Hc Hu Hn Hp. rewrite (mp_frame M'); [by apply (gr_frame Gr)|done|by apply (gr_mono Gr)|done|].
    intros p [Hpv _]. rewrite Hv by done. by apply Hp.
  - intros p Hp Hz Hu. destruct (decide (p = path_of fs lbn)) as [->|Hne].
    + exfalso. apply fill_unused. by rewrite (mp_here M') in Hu.
    + destruct (fill_val p Hp Hne) as [E|(_ & _ & Hnu)]; [by exists p|done].
  - intros p Hp Hz. destruct (decide (p = path_of fs lbn)) as [->|Hne]; [done|].
    destruct (fill_val p Hp Hne) as [E|(_ & E & _)]; done.
Qed.

Lemma fill_no_leak : no_leak fs img img2 inode2.
Proof.
  intros c Hc. destruct (decide (used fs img c)) as [|Hnu]; [by left|right].
  assert (Hcz : c <> 0). { intros ->. destruct (l_free _ _ L 0 (proj1 Hc) Hnu) as [_ ?]. done. }
  destruct (mp_new fill_map c Hc) as [H1|(p & [Hp _] & ->)].
  - destruct (gr_new Gr c H1) as [|[-> _]]; [done|]. exists (path_of fs lbn). rewrite (mp_here fill_map).
    split; [by apply path_of_ok|done].
  - by exists p.
Qed.

(** The other blocks of the file. *)
Lemma fill_block k : lbn_ok fs k -> k <> lbn ->
  bmap_of fs img2 inode2 k = bmap_of fs img inode k /\
  (bmap_of fs img inode k <> 0 -> eblk fs img2 (bmap_of fs img inode k) = eblk fs img (bmap_of fs img inode k)).
Proof.
  intros Hk Hne. destruct (path_of_ok fs G _ Hk) as [Hp Hfull].
  assert (Hpne : path_of fs k <> path_of fs lbn) by (intros E; by apply Hne, (path_of_inj fs G)).
  unfold bmap_of. destruct (fill_val _ Hp Hpne) as [->|([_ Hn] & _)]; [|lia]. split; [done|]. intros Hz.
  destruct (ft_own F _ Hp Hz) as [Hu [Hr _] Hd].
  rewrite (mp_frame fill_map); [by rewrite (gr_frame Gr) by (done || lia)|lia|by apply (gr_mono Gr)|done|].
  intros q Hq Hqz. rewrite (proj1 (proj2 fill_first) _ (proj1 Hq)) in *. apply not_eq_sym. by apply (data_not_node fs G img inode).
Qed.

Lemma fill_bytes i : 0 <= i < 2 ^ 32 -> i / block_size fs <> lbn -> byte_at fs img2 inode2 i = byte_at fs img inode i.
Proof.
  intros Hi Hne. destruct (fill_block _ (lbn_of_pos fs G i Hi) Hne) as [E1 E2]. unfold byte_at. rewrite E1.
  destruct (Z.eqb_spec (bmap_of fs img inode (i / block_size fs)) 0) as [|Hz]; [done|]. by rewrite E2.
Qed.
End Fill.

(** ** One block *)

(** The block of [lbn] exists and the buffer has the bytes of the file that the
    write leaves in it, those outside [boff], [boff + n). *)
Record ready fs img inode (lbn boff n : Z) fs' img' inode' (phys : Z) (blk : list Z) : Prop := {
  rd_evolved : evolved fs img inode fs' img' inode';
  rd_new : no_leak fs img img' inode';
  rd_here : bmap_of fs img' inode' lbn = phys;
  rd_nonzero : phys <> 0;
  rd_bytes i : 0 <= i < 2 ^ 32 -> i / block_size fs <> lbn -> byte_at fs img' inode' i = byte_at fs img inode i;
  rd_len : len blk = block_size fs;
  rd_byte_ok : Forall byte_ok blk;
  rd_buf k : 0 <= k < block_size fs -> ~ (boff <= k < boff + n) ->
    default 0 (blk !! Z.to_nat k) = byte_at fs img inode (lbn * block_size fs + k)
}.
Arguments rd_evolved {_ _ _ _ _ _ _ _ _ _ _} _.
Arguments rd_new {_ _ _ _ _ _ _ _ _ _ _} _.
Arguments rd_here {_ _ _ _ _ _ _ _ _ _ _} _.
Arguments rd_nonzero {_ _ _ _ _ _ _ _ _ _ _} _.
Arguments rd_bytes {_ _ _ _ _ _ _ _ _ _ _} _.
Arguments rd_len {_ _ _ _ _ _ _ _ _ _ _} _.
Arguments rd_byte_ok {_ _ _ _ _ _ _ _ _ _ _} _.
Arguments rd_buf {_ _ _ _ _ _ _ _ _ _ _} _.

(** No block is left for the write; the file is as it was. *)
Definition stuck fs img inode fs' img' inode' (e : Z) : Prop :=
  e = - ENOSPC /\ evolved fs img inode fs' img' inode' /\ same_bytes fs img inode img' inode' /\
  (forall c, covered fs c -> used fs img' c).

Definition ready_result fs img inode (lbn boff n : Z) img' (x : ext2_fs * list Z * rc (Z * list Z)) : Prop :=
  match x.2 with
  | Ok (phys, blk) => ready fs img inode lbn boff n x.1.1 img' x.1.2 phys blk
  | Err e => stuck fs img inode x.1.1 img' x.1.2 e
  end.

Lemma in_block fs lbn k : geo fs -> 0 <= k < block_size fs ->
  (lbn * block_size fs + k) / block_size fs = lbn /\ (lbn * block_size fs + k) mod block_size fs = k.
Proof.
  intros G Hk. rewrite Z.add_comm, Z.div_add, Z.mod_add, Z.div_small, Z.mod_small by lia. lia.
Qed.

Lemma full_stuck fs img inode fs1 img1 fs' img' :
  geo fs -> file_tree fs img inode -> evolved fs img inode fs1 img1 inode -> same_bytes fs img inode img1 inode ->
  full_post fs1 img1 fs' img' -> stuck fs img inode fs' img' inode (- ENOSPC).
Proof.
  intros G F Ev Hb P. pose proof (ev_shape Ev) as Sh.
  destruct (quiet_file fs1 img1 inode fs' img') as (Ev2 & _ & Hb2);
    [apply (ev_geo Ev)|by apply (shape_file_tree fs fs1 G Sh), (ev_file Ev)|by destruct P..|].
  split_and!; [done|by eapply evolved_trans, evolved_shape| |].
  - intros i Hi. rewrite <- (Hb i Hi), <- !(shape_byte_at fs fs1 Sh). by apply Hb2.
  - intros c Hc. apply (shape_used fs fs1 G Sh), (fp_full P). by apply (shape_covered fs fs1 Sh).
Qed.

(** The new contents of a block, and the counter. *)
Lemma data_evolved fs img inode lbn buf v :
  geo fs -> lay fs img -> file_tree fs img inode -> lbn_ok fs lbn -> bmap_of fs img inode lbn <> 0 -> len buf = block_size fs ->
  let img' := upd fs img (bmap_of fs img inode lbn) buf in
  let inode' := set_i_blocks inode v in
  evolved fs img inode fs img' inode' /\ no_leak fs img img' inode' /\
  (forall p, pvalid fs p -> val fs img' inode' p = val fs img inode p) /\
  forall i, 0 <= i < 2 ^ 32 -> byte_at fs img' inode' i =
    if i / block_size fs =? lbn then default 0 (buf !! Z.to_nat (i mod block_size fs)) else byte_at fs img inode i.
Proof.
  intros G L F Hl Hnz Hlen img' inode'.
  destruct (write_data fs G img inode lbn buf) as (L' & Hli & Hu & F' & Hv & Hby & Hfr); [done..|]. change (upd fs img (bmap_of fs img inode lbn) buf) with img' in L', Hli, Hu, F', Hv, Hby, Hfr.
  pose proof (file_inode_ok fs img inode F) as Hi.
  destruct (header_field inode 28 v Hi ltac:(lia) ltac:(lia)) as [Hi' Hib].
  destruct (file_tree_header fs img' inode inode' Hi' Hib F') as [F2 Hv2].
  assert (Hvv : forall p, pvalid fs p -> val fs img' inode' p = val fs img inode p) by (intros p Hp; by rewrite Hv2, Hv).
  split_and!.
  - constructor; try done.
    + intros c Hc. by apply Hu.
    + destruct Hi as [Hil _]. unfold INODE_SIZE in Hil. apply slice_splice_ne; size.
    + intros c Hc _ _ Hp. apply Hfr; [done|]. apply Hp; [by apply path_of_ok|done].
    + intros p Hp _ _. exists p. by rewrite Hvv.
    + intros p Hp _. by apply Hvv.
  - intros c Hc. left. by apply Hu.
  - done.
  - intros i Hir. rewrite <- Hby by done. unfold byte_at, bmap_of.
    rewrite Hv2 by by apply path_of_ok, lbn_of_pos. done.
Qed.

(** One block of a write: the bytes [s] from [pos] on. *)
Lemma ready_wrote fs img inode pos s fs1 img1 inode1 phys blk v :
  geo fs -> 0 <= pos < 2 ^ 32 -> pos mod block_size fs + len s <= block_size fs ->
  ready fs img inode (pos / block_size fs) (pos mod block_size fs) (len s) fs1 img1 inode1 phys blk ->
  wrote fs img inode pos s fs1 (upd fs1 img1 phys (splice blk (pos mod block_size fs) s)) (set_i_blocks inode1 v).
Proof.
  intros G Hp Hfit R. pose proof (bs_pos fs G) as Hbs. set (boff := pos mod block_size fs) in *. set (lbn := pos / block_size fs) in *.
  pose proof (Z.mod_pos_bound pos (block_size fs) ltac:(lia)) as Hm. fold boff in Hm.
  pose proof (rd_evolved R) as Ev. pose proof (ev_shape Ev) as Sh. pose proof (ev_geo Ev) as G1.
  assert (Hl : lbn_ok fs lbn) by by apply lbn_of_pos.
  set (buf := splice blk boff s).
  assert (Hbl : len buf = block_size fs) by (unfold buf; rewrite len_splice; rewrite ?(rd_len R); lia).
  assert (Hhere : bmap_of fs1 img1 inode1 lbn = phys) by (rewrite (shape_bmap_of fs fs1 Sh); apply (rd_here R)).
  destruct (data_evolved fs1 img1 inode1 lbn buf v) as (Ev2 & N2 & _ & B2);
    [done|apply (ev_lay Ev)|by apply (shape_file_tree fs fs1 G Sh), (ev_file Ev)|by apply (shape_lbn_ok fs fs1 Sh)
    |rewrite Hhere; apply (rd_nonzero R)|by rewrite (ss_bs _ _ Sh)|].
  rewrite Hhere in *. apply (evolved_shape fs) in Ev2; [|done|done]. constructor.
  - by eapply evolved_trans.
  - intros c Hc. apply (shape_used fs fs1 G Sh) in Hc. destruct (N2 c Hc) as [Hc1|(p & H1 & H2 & ->)].
    + apply (shape_used fs fs1 G Sh) in Hc1. destruct (rd_new R c Hc1) as [|(p & H1 & H2 & ->)]; [by left|right].
      exists p. by rewrite (ev_keep Ev2 p H1 H2).
    + right. exists p. rewrite (shape_val fs fs1 Sh) in *. by apply (shape_pvalid fs fs1 Sh) in H1.
  - intros i Hi. rewrite <- (shape_byte_at fs fs1 Sh), (B2 i Hi), (ss_bs _ _ Sh), (shape_byte_at fs fs1 Sh).
    assert (Hdm : pos = lbn * block_size fs + boff) by (pose proof (Z.div_mod pos (block_size fs) ltac:(lia)); lia).
    assert (Hdi : i = i / block_size fs * block_size fs + i mod block_size fs) by (pose proof (Z.div_mod i (block_size fs) ltac:(lia)); lia).
    pose proof (Z.mod_pos_bound i (block_size fs) ltac:(lia)) as Hmi.
    destruct (Z.eqb_spec (i / block_size fs) lbn) as [El|Hne].
    + unfold buf. rewrite splice_lookup by (rewrite ?(rd_len R); lia). rewrite El in Hdi.
      replace ((pos <=? i) && (i <? pos + len s)) with ((boff <=? i mod block_size fs) && (i mod block_size fs <? boff + len s)).
      2: { apply eq_true_iff_eq. rewrite !andb_true_iff, !Z.leb_le, !Z.ltb_lt. lia. }
      destruct (_ && _) eqn:Ec.
      * do 3 f_equal. lia.
      * rewrite (rd_buf R); [by rewrite <- Hdi|done|]. apply andb_false_iff in Ec. rewrite Z.leb_gt, Z.ltb_ge in Ec. lia.
    + rewrite (rd_bytes R) by done. destruct (_ && _) eqn:Ec; [|done].
      apply andb_true_iff in Ec. rewrite Z.leb_le, Z.ltb_lt in Ec. exfalso. apply Hne. symmetry. 
      apply (Z.div_unique_pos _ _ _ (i - lbn * block_size fs)); lia.
Qed.

Section WriteIo.
Context {W : Type} `{OK : FsWorldOk W} {RL : Reliable W True}.
Context (d : Z).
Implicit Types (fs : ext2_fs) (img inode : list Z).

Abbreviation T img m Q := (triple d 512 img m Q (fun _ _ => False)).

(** A block that exists. *)
Lemma ready_old fs img inode lbn boff n blk :
  geo fs -> lay fs img -> file_tree fs img inode -> bmap_of fs img inode lbn <> 0 ->
  len blk = block_size fs -> Forall byte_ok blk ->
  (forall k, 0 <= k < block_size fs -> ~ (boff <= k < boff + n) -> blk !! Z.to_nat k = eblk fs img (bmap_of fs img inode lbn) !! Z.to_nat k) ->
  ready fs img inode lbn boff n fs img inode (bmap_of fs img inode lbn) blk.
Proof.
  intros G L F Hz Hlen Hby Hb. constructor; try done; [by apply evolved_refl|by intros c; left|].
  intros k Hk Ho. rewrite Hb by done. unfold byte_at. destruct (in_block fs lbn k G Hk) as [-> ->].
  by rewrite (proj2 (Z.eqb_neq _ _)).
Qed.

(** A hole that gets a block. *)
Lemma ready_new fs img inode lbn boff n fs1 img1 phys fs2 img2 inode2 :
  geo fs -> lay fs img -> file_tree fs img inode -> lbn_ok fs lbn -> bmap_of fs img inode lbn = 0 ->
  grew fs img fs1 img1 0 phys -> map_post fs1 img1 inode (path_of fs lbn) phys fs2 img2 inode2 ->
  ready fs img inode lbn boff n fs2 img2 inode2 phys (replicate (Z.to_nat (block_size fs)) 0).
Proof.
  intros G L F Hl Hh Gr M. pose proof (bs_pos fs G). constructor.
  - by eapply fill_evolved.
  - by eapply fill_no_leak.
  - apply (mp_here (map_post_shape fs fs1 G (gr_shape Gr) _ _ _ _ _ _ _ M)).
  - apply (gr_nonzero Gr).
  - intros i. by eapply fill_bytes.
  - unfold len. rewrite length_replicate. lia.
  - apply Forall_replicate. unfold byte_ok. lia.
  - intros k Hk _. rewrite lookup_replicate_2 by lia. unfold byte_at. destruct (in_block fs lbn k G Hk) as [-> _].
    by rewrite Hh.
Qed.

Lemma block_for_write_ok fs img inode lbn boff n blk :
  geo fs -> lay fs img -> block_dev fs = d -> file_tree fs img inode -> lbn_ok fs lbn ->
  len blk = block_size fs -> Forall byte_ok blk -> 0 <= boff -> boff + n <= block_size fs ->
  T img (block_for_write fs inode lbn boff n blk) (ready_result fs img inode lbn boff n).
Proof.
  intros G L Hd F Hl Hlen Hby Hb1 Hb2. unfold block_for_write.
  eapply t_bind; [apply bmap_ok; [done|done|by apply (file_inode_ok fs img)|done]|]. intros i phys [-> ->].
  destruct (Z.eqb_spec (bmap_of fs img inode lbn) 0) as [Hh|Hnz].
  - eapply t_bind; [by apply ext2_alloc_block_ok|].
    intros img1 [fs1 phys] [(-> & -> & -> & Hfull)|(Hz & Hc & _ & Hnu & Hr & Mv & _)].
    { apply t_ok. unfold ready_result. cbn [fst snd]. split_and!; [done|by apply evolved_refl|done|]. intros c Hc. by apply Hfull. }
    rewrite (proj2 (Z.eqb_neq _ _)) by done.
    pose proof (moved_grew fs img fs1 img1 phys G L Hc Hnu Hr Hz Mv) as Gr. pose proof (gr_shape Gr) as Sh.
    destruct (fill_first fs img inode G F fs1 img1 phys Gr) as (Ev & Hv & Hsame).
    eapply t_bind; [apply bmap_set_ok|].
    + apply (gr_geo Gr).
    + apply (gr_lay Gr).
    + by rewrite (ss_dev _ _ Sh).
    + by apply (shape_file_tree fs fs1 G Sh), (ev_file Ev).
    + by apply (shape_lbn_ok fs fs1 Sh).
    + apply (shape_owned fs fs1 G Sh), (gr_own Gr).
    + done.
    + intros p Hp E. apply (shape_pvalid fs fs1 Sh) in Hp. rewrite (shape_val fs fs1 Sh), Hv in E by done.
      apply Hnu. rewrite <- E. apply (ft_own F); [done|congruence].
    + intros img2 [fs2 [inode2|e]]; unfold map_result; cbn [fst snd].
      * rewrite (shape_path_of fs fs1 Sh). intros M. apply t_ok. unfold ready_result. cbn [fst snd].
        assert (E : block_size fs2 = block_size fs). { rewrite (ss_bs _ _ (mp_shape M)). apply (ss_bs _ _ Sh). }
        rewrite E. by eapply ready_new.
      * intros (-> & P & _). apply t_ok. by eapply full_stuck.
  - destruct (bmap_owned fs img inode lbn G F Hl Hnz) as [_ Hr _].
    destruct (negb (boff =? 0) || negb (n =? block_size fs)) eqn:Epart.
    + eapply t_bind_ok; [by apply t_read_block|]. intros i b [-> ->]. apply t_bytes. intros Him. apply t_ok.
      apply ready_old; [done|done|done|done|by apply len_eblk|by apply eblk_bytes|done].
    + apply t_ok. apply ready_old; try done. intros k Hk Ho. exfalso. apply Ho.
      apply orb_false_iff in Epart as [E1 E2]. apply negb_false_iff, Z.eqb_eq in E1. apply negb_false_iff, Z.eqb_eq in E2. lia.
Qed.

(** ** The loop *)

(** All bytes are written; or the volume is full, and the bytes before the end
    of some block have been written. *)
Definition write_result fs img inode (pos : Z) (src : list Z) img' (x : ext2_fs * list Z * rc Z) : Prop :=
  match x.2 with
  | Ok pos' => pos' = pos + len src /\ wrote fs img inode pos src x.1.1 img' x.1.2
  | Err e => e = - ENOSPC /\ (forall c, covered fs c -> used fs img' c) /\
      exists k, 0 <= k < len src /\ evolved fs img inode x.1.1 img' x.1.2 /\
        bytes_set fs img inode pos (take (Z.to_nat k) src) img' x.1.2
  end.

Lemma bytes_set_nil fs img inode pos img' inode' : same_bytes fs img inode img' inode' -> bytes_set fs img inode pos [] img' inode'.
Proof.
  intros Hs i Hi. rewrite (Hs i Hi). destruct (_ && _) eqn:E; [|done].
  apply andb_true_iff in E. rewrite Z.leb_le, Z.ltb_lt in E. unfold len in E. cbn [length] in E. lia.
Qed.

Lemma write_result_app fs img inode pos s1 s2 fs1 img1 inode1 img' x :
  geo fs -> 0 <= pos -> 0 < len s1 -> wrote fs img inode pos s1 fs1 img1 inode1 ->
  write_result fs1 img1 inode1 (pos + len s1) s2 img' x -> write_result fs img inode pos (s1 ++ s2) img' x.
Proof.
  intros G Hp Hs1 Wr. pose proof (ev_shape (wr_evolved Wr)) as Sh. destruct x as [[fs2 inode2] [p|e]]; unfold write_result; cbn [fst snd].
  - intros [-> Wr2]. split; [unfold len; rewrite length_app; lia|]. eapply wrote_trans; [done|done|exact Wr|].
    destruct Wr2 as [Ev N B]. constructor.
    + by eapply evolved_shape.
    + intros c. rewrite <- !(shape_used fs fs1 G Sh). intros Hc. destruct (N c Hc) as [|(q & H1 & H2 & ->)]; [by left|right].
      exists q. rewrite (shape_val fs fs1 Sh) in *. by apply (shape_pvalid fs fs1 Sh) in H1.
    + intros i Hi. rewrite <- !(shape_byte_at fs fs1 Sh). by apply B.
  - intros (-> & Hfull & k & Hk & Ev & B). split_and!; [done| |].
    + intros c Hc. apply (shape_used fs fs1 G Sh), Hfull. by apply (shape_covered fs fs1 Sh).
    + exists (len s1 + k). split_and!; [unfold len in *; lia|unfold len in *; rewrite length_app; lia| |].
      * eapply evolved_trans; [done|apply (wr_evolved Wr)|]. by eapply evolved_shape.
      * replace (take (Z.to_nat (len s1 + k)) (s1 ++ s2)) with (s1 ++ take (Z.to_nat k) s2).
        2: { rewrite take_app_ge by (unfold len; lia). do 2 f_equal. unfold len. lia. }
        eapply bytes_set_app; [done|apply (wr_bytes Wr)|]. intros i Hi. rewrite <- !(shape_byte_at fs fs1 Sh). by apply B.
Qed.

Lemma write_file_loop_ok : forall n fs img inode pos src blk,
  geo fs -> lay fs img -> block_dev fs = d -> file_tree fs img inode ->
  0 <= pos -> pos + len src < 2 ^ 32 -> Forall byte_ok src -> len src < Z.of_nat n ->
  len blk = block_size fs -> Forall byte_ok blk ->
  T img (write_file_loop n fs inode pos src blk) (write_result fs img inode pos src).
Proof.
  induction n as [|n IH]; intros fs img inode pos src blk G L Hd F Hp Hmax Hsrc Hn Hblk Hby; [unfold len in *; lia|].
  cbn [write_file_loop]. pose proof (bs_pos fs G) as Hbs.
  destruct (Z.ltb_spec 0 (len src)) as [Hpos|Hz].
  2: { assert (E : src = []) by (destruct src; [done|unfold len in Hz; cbn in Hz; lia]). subst src. apply t_ok.
       unfold write_result. cbn [fst snd]. split; [unfold len; cbn; lia|]. constructor; [by apply evolved_refl|by intros c; left|].
       by apply bytes_set_nil. }
  eapply t_bind_lift; [apply divmod_ok; lia|]. eapply t_bind_lift; [apply divmod_ok; lia|].
  pose proof (Z.mod_pos_bound pos (block_size fs) ltac:(lia)) as Hm.
  set (boff := pos mod block_size fs) in *. set (lbn := pos / block_size fs).
  set (k := if len src <? block_size fs - boff then len src else block_size fs - boff).
  assert (Hk : 0 < k <= len src /\ boff + k <= block_size fs).
  { unfold k. destruct (Z.ltb_spec (len src) (block_size fs - boff)); lia. }
  set (s := take (Z.to_nat k) src). assert (Hs : len s = k) by (unfold s, len in *; rewrite length_take; lia).
  assert (Hlbn : lbn_ok fs lbn) by (apply lbn_of_pos; [done|lia]).
  eapply t_bind; [apply block_for_write_ok; (done || lia)|].
  intros img1 [[fs1 inode1] [[phys blk1]|e]]; unfold ready_result; cbn [fst snd].
  2: { intros (-> & Ev & Hb & Hfull). apply t_ok. unfold write_result. cbn [fst snd]. split_and!; [done|done|].
       exists 0. split_and!; [lia|lia|done|]. by apply bytes_set_nil. }
  intros R. pose proof (rd_evolved R) as Ev. pose proof (ev_shape Ev) as Sh. pose proof (ev_geo Ev) as G1.
  pose proof (shape_file_tree fs fs1 G Sh img1 inode1) as HF1. pose proof (proj2 HF1 (ev_file Ev)) as F1.
  eapply t_bind_lift; [apply mem_write_splice; rewrite ?Hs, ?(rd_len R); lia|].
  eapply t_bind; [apply bmap_ok; [done|by rewrite (ss_dev _ _ Sh)|by apply (file_inode_ok fs1 img1)|by apply (shape_lbn_ok fs fs1 Sh)]|].
  intros i mapped [-> ->]. rewrite (shape_bmap_of fs fs1 Sh), (rd_here R).
  rewrite (proj2 (Z.eqb_neq phys 0)) by apply (rd_nonzero R). cbn [negb andb].
  assert (Hown : owned fs1 img1 phys).
  { rewrite <- (rd_here R), <- (shape_bmap_of fs fs1 Sh). apply bmap_owned; [done|done|by apply (shape_lbn_ok fs fs1 Sh)|].
    rewrite (shape_bmap_of fs fs1 Sh), (rd_here R). apply (rd_nonzero R). }
  assert (Hbl : len (splice blk1 boff s) = block_size fs1).
  { rewrite len_splice; rewrite ?(rd_len R), ?(ss_bs _ _ Sh); lia. }
  assert (Hbb : Forall byte_ok (splice blk1 boff s)) by (apply splice_Forall; [apply (rd_byte_ok R)|by apply Forall_take]).
  eapply t_bind_ok; [apply t_write_block; [done|by rewrite (ss_dev _ _ Sh)|apply (ow_range Hown)|done|done]|].
  intros img2 [] ->. rewrite (u32_id (pos + k)) by lia.
  assert (Wr : wrote fs img inode pos s fs1 (upd fs1 img1 phys (splice blk1 boff s)) (set_i_blocks inode1 (u32 (i_blocks inode1 + sectors_per_block fs1)))).
  { apply ready_wrote; [done|lia|change (boff + len s <= block_size fs); lia|]. fold boff lbn. by rewrite Hs. }
  pose proof (wr_evolved Wr) as Ev2.
  rewrite <- (take_drop (Z.to_nat k) src) at 2. fold s.
  assert (Hd2 : len (drop (Z.to_nat k) src) = len src - k) by (unfold len in *; rewrite length_drop; lia).
  eapply t_mono; [apply IH| |done].
  - done.
  - apply (ev_lay Ev2).
  - by rewrite (ss_dev _ _ Sh).
  - apply (shape_file_tree fs fs1 G Sh), (ev_file Ev2).
  - lia.
  - lia.
  - by apply Forall_drop.
  - lia.
  - done.
  - done.
  - intros img' x Hx. eapply write_result_app; [done|done|lia|exact Wr|]. by rewrite Hs.
Qed.
End WriteIo.
