(* ===== verification/Ext2Meta.v ===== *)
(** * The ext2 driver: inodes, superblock and group descriptors on the disk

    Where the inodes are ([iblk], [ioff], [disk_inode]), and what the functions
    that write the metadata change.  [meta_ok] says that the metadata blocks are
    on the device, in use and different from each other and from the bitmaps. *)

From S2P Require Import Prelude Bytes Vfs BlockDev IoLogic FsBitmap Kstd Ext2 Ext2Proofs Ext2Alloc Ext2Map Ext2File Ext2Data Ext2Write.

Section Places.
Context (fs : ext2_fs).
Implicit Types (img : list Z) (ino c : Z).

Definition valid_ino ino : Prop := 1 <= ino <= num_groups fs * inodes_per_group fs.

Definition inode_byte ino : Z := (ino - 1) mod inodes_per_group fs * inode_size fs.
Definition iblk ino : Z := itab fs ((ino - 1) / inodes_per_group fs) + inode_byte ino / block_size fs.
Definition ioff ino : Z := inode_byte ino mod block_size fs.
Definition disk_inode img ino : list Z := slice (eblk fs img (iblk ino)) (ioff ino) INODE_SIZE.

Definition sb_block : Z := if block_size fs =? 1024 then 1 else 0.
Definition sb_offset : Z := if block_size fs =? 1024 then 0 else 1024.
Definition bgdt_block : Z := if block_size fs =? 1024 then 2 else 1.
Definition bgdt_blocks : Z := (num_groups fs * BGD_SIZE + block_size fs - 1) / block_size fs.

(** The blocks of the superblock and of the descriptors. *)
Definition sys_block c : Prop := c = sb_block \/ bgdt_block <= c < bgdt_block + bgdt_blocks.

Definition table_block c : Prop := exists ino, valid_ino ino /\ c = iblk ino.

Record meta_ok img : Prop := {
  mo_size : block_size fs = 1024 \/ 2048 <= block_size fs;
  mo_bgdt : num_groups fs * BGD_SIZE + block_size fs <= 2 ^ 32;
  mo_table : inodes_per_group fs * inode_size fs < 2 ^ 32;
  mo_sys c : sys_block c -> owned fs img c;
  mo_inode c : table_block c -> owned fs img c;
  mo_apart c : sys_block c -> table_block c -> False;
  mo_groups i j : valid_ino i -> valid_ino j -> iblk i = iblk j ->
    (i - 1) / inodes_per_group fs = (j - 1) / inodes_per_group fs
}.

(** The descriptors with the padding of their last block. *)
Definition padded : list Z := bgdt fs ++ replicate (Z.to_nat (bgdt_blocks * block_size fs - num_groups fs * BGD_SIZE)) 0.

(** The metadata in memory and on the disk agree. *)
Record synced img : Prop := {
  sy_sb : slice (eblk fs img sb_block) sb_offset SB_SIZE = sb fs;
  sy_bgdt j : 0 <= j < bgdt_blocks -> eblk fs img (bgdt_block + j) = slice padded (j * block_size fs) (block_size fs)
}.

Context (G : geo fs).

Lemma isz_bounds : 0 < inode_size fs <= block_size fs.
Proof.
  destruct (g_inode _ G) as [H1 H2]. pose proof (bs_pos fs G). split; [lia|].
  destruct (Z.le_gt_cases (inode_size fs) (block_size fs)) as [|Hgt]; [done|]. rewrite Z.mod_small in H2; lia.
Qed.

Lemma bgdt_size_bounds : 0 < bgdt_blocks /\ num_groups fs * BGD_SIZE <= bgdt_blocks * block_size fs < num_groups fs * BGD_SIZE + block_size fs.
Proof.
  pose proof (bs_pos fs G). pose proof (g_groups _ G) as [H1 H2]. unfold bgdt_blocks, BGD_SIZE in *.
  set (m := num_groups fs * 32) in *. assert (32 <= m) by (subst m; lia).
  pose proof (Z.div_mod (m + block_size fs - 1) (block_size fs) ltac:(lia)) as E.
  pose proof (Z.mod_pos_bound (m + block_size fs - 1) (block_size fs) ltac:(lia)). nia.
Qed.

(** An inode lies in one block. *)
Lemma ioff_bounds ino : 0 <= ioff ino /\ ioff ino + inode_size fs <= block_size fs /\
  exists k, ioff ino = k * inode_size fs /\ 0 <= k.
Proof.
  pose proof isz_bounds as Hz. pose proof (bs_pos fs G) as Hbs. destruct (g_inode _ G) as [_ Hd].
  apply Z.mod_divide in Hd as [q Hq]; [|lia].
  set (k := (ino - 1) mod inodes_per_group fs). assert (Eo : ioff ino = (k mod q) * inode_size fs).
  { unfold ioff, inode_byte. fold k. rewrite Hq. rewrite Z.mul_mod_distr_r by nia. done. }
  assert (0 < q) by nia. pose proof (Z.mod_pos_bound k q ltac:(lia)).
  rewrite Eo. split_and!; [nia|nia|]. exists (k mod q). split; [done|lia].
Qed.

(** Different inodes do not overlap. *)
Lemma ioff_apart img i j : meta_ok img -> valid_ino i -> valid_ino j -> iblk i = iblk j -> i <> j ->
  ioff i + INODE_SIZE <= ioff j \/ ioff j + INODE_SIZE <= ioff i.
Proof.
  intros M Hi Hj E Hne. pose proof (mo_groups _ M i j Hi Hj E) as Eg. pose proof isz_bounds as Hz. pose proof (bs_pos fs G) as Hbs.
  destruct (g_inode _ G) as [Hmin Hd]. pose proof (g_ipg _ G).
  assert (Hni : inode_byte i <> inode_byte j).
  { unfold inode_byte. intros Eb. apply Z.mul_reg_r in Eb; [|lia].
    pose proof (Z.div_mod (i - 1) (inodes_per_group fs) ltac:(lia)) as E1. rewrite Eg, Eb, <- Z.div_mod in E1; lia. }
  assert (Edv : inode_byte i / block_size fs = inode_byte j / block_size fs) by (unfold iblk in E; rewrite Eg in E; lia).
  pose proof (Z.div_mod (inode_byte i) (block_size fs) ltac:(lia)) as E1. pose proof (Z.div_mod (inode_byte j) (block_size fs) ltac:(lia)) as E2.
  destruct (ioff_bounds i) as (_ & _ & a & Ea & _), (ioff_bounds j) as (_ & _ & b & Eb & _).
  unfold INODE_SIZE. assert (Hno : ioff i <> ioff j) by (unfold ioff; rewrite Edv in E1; lia).
  rewrite Ea, Eb in *. assert (a <> b) by congruence. nia.
Qed.

Lemma disk_inode_upd img c buf ino :
  in_range fs img c -> len buf = block_size fs -> in_range fs img (iblk ino) -> iblk ino <> c ->
  disk_inode (upd fs img c buf) ino = disk_inode img ino.
Proof. intros Hr Hl Hi Hne. unfold disk_inode. rewrite eblk_upd_ne; [done|done|done|done|apply Hi|done]. Qed.
End Places.

Arguments mo_size {_ _} _.
Arguments mo_bgdt {_ _} _.
Arguments mo_table {_ _} _.
Arguments mo_sys {_ _} _.
Arguments mo_inode {_ _} _.
Arguments mo_apart {_ _} _.
Arguments mo_groups {_ _} _.

Lemma not_bitmap_owned fs img c : owned fs img c -> not_bitmap fs c.
Proof. intros [_ _ H]. exact H. Qed.

(** ** Images with the same bitmaps *)

Section Agree.
Context (fs : ext2_fs) (G : geo fs) (img img' : list Z).
Context (Hlen : len img' = len img) (Hbm : forall g, 0 <= g < num_groups fs -> eblk fs img' (bbm fs g) = eblk fs img (bbm fs g)).

Lemma used_agree c : used fs img' c <-> used fs img c.
Proof.
  unfold used. split; intros [Hc Hb]; (split; [done|]); destruct (covered_parts fs G c Hc) as (Hg & _); by rewrite Hbm in *.
Qed.

Lemma owned_agree c : owned fs img' c <-> owned fs img c.
Proof.
  split; intros [H1 H2 H3]; (constructor; [by apply used_agree|by eapply in_range_len; [|exact H2]|done]).
Qed.

Lemma lay_agree : lay fs img -> lay fs img'.
Proof.
  intros L. constructor.
  - intros g Hg. destruct (l_bbm _ _ L g Hg). split; [by eapply in_range_len|by apply used_agree].
  - apply (l_inj _ _ L).
  - intros c Hc Hnu. destruct (l_free _ _ L c Hc); [by rewrite <- used_agree|]. split; [by eapply in_range_len|done].
  - intros g Hg. rewrite Hbm by done. by apply (l_count _ _ L).
  - apply (l_total _ _ L).
Qed.

Lemma meta_agree : meta_ok fs img -> meta_ok fs img'.
Proof. intros [M1 M2 M3 M4 M5 M6 M7]. constructor; try done; intros c Hc; apply owned_agree; auto. Qed.
End Agree.

Section MetaIo.
Context {W : Type} `{OK : FsWorldOk W} {RL : Reliable W True}.
Context (d : Z).
Implicit Types (fs : ext2_fs) (img inode : list Z).

Abbreviation T img m Q := (triple d 512 img m Q (fun _ _ => False)).

Lemma inode_place_ok fs img ino :
  geo fs -> meta_ok fs img -> valid_ino fs ino ->
  T img (inode_place fs ino) (fun i x => i = img /\ x = (iblk fs ino, ioff fs ino)).
Proof.
  intros G M Hv. pose proof (g_ipg _ G) as Hipg. pose proof (bs_pos fs G). pose proof (isz_bounds fs G). unfold valid_ino in Hv.
  assert (Hg : 0 <= (ino - 1) / inodes_per_group fs < num_groups fs).
  { split; [apply Z.div_pos; lia|apply Z.div_lt_upper_bound; lia]. }
  pose proof (Z.mod_pos_bound (ino - 1) (inodes_per_group fs) ltac:(lia)) as Hm. pose proof (mo_table M) as Ht.
  assert (Hb : 0 <= inode_byte fs ino < 2 ^ 32) by (unfold inode_byte; nia).
  destruct (mo_inode M (iblk fs ino)) as [_ [Hr _] _]; [by exists ino|].
  unfold inode_place. rewrite (proj2 (Z.eqb_neq ino 0)) by lia.
  eapply t_bind_lift; [apply divmod_ok; lia|]. eapply t_bind_lift; [apply divmod_ok; lia|].
  rewrite (proj2 (Z.leb_gt _ _)) by lia. eapply t_bind_lift; [by apply bg_inode_table_ok|].
  fold (inode_byte fs ino). rewrite (u32_id (inode_byte fs ino)) by lia.
  eapply t_bind_lift; [apply divmod_ok; lia|]. eapply t_bind_lift; [apply divmod_ok; lia|].
  apply t_ok. fold (iblk fs ino). by rewrite u32_id.
Qed.

Lemma read_inode_ok fs img ino :
  geo fs -> block_dev fs = d -> meta_ok fs img -> valid_ino fs ino ->
  T img (ext2_read_inode fs ino) (fun i v => i = img /\ v = disk_inode fs img ino).
Proof.
  intros G Hd M Hv. unfold ext2_read_inode. eapply t_bind; [by apply inode_place_ok|]. intros i [b o] [-> [= -> ->]].
  assert (Ht : table_block fs (iblk fs ino)) by by exists ino.
  destruct (mo_inode M _ Ht) as [_ Hr _]. destruct (ioff_bounds fs G ino) as (H1 & H2 & _). pose proof (g_inode _ G) as [H3 _].
  apply t_buffer; [done|]. intros buf Hb _. eapply t_bind; [by apply t_read_block|]. intros i b [-> ->].
  eapply t_lift; [apply mem_read_slice; rewrite ?(len_eblk fs G) by done; unfold INODE_SIZE; lia|]. done.
Qed.

(** The image after the inode [ino] has been written. *)
Definition put_inode fs img ino inode : list Z := upd fs img (iblk fs ino) (splice (eblk fs img (iblk fs ino)) (ioff fs ino) inode).

Lemma put_inode_len fs img ino inode :
  geo fs -> in_range fs img (iblk fs ino) -> inode_ok inode ->
  ioff fs ino + len inode <= block_size fs /\ len (splice (eblk fs img (iblk fs ino)) (ioff fs ino) inode) = block_size fs.
Proof.
  intros G Hr [Hl _]. destruct (ioff_bounds fs G ino) as (H1 & H2 & _). pose proof (g_inode _ G) as [H3 _]. unfold INODE_SIZE in Hl.
  split; [lia|]. rewrite len_splice; rewrite ?(len_eblk fs G) by done; lia.
Qed.

Lemma write_inode_ok fs img ino inode :
  geo fs -> block_dev fs = d -> meta_ok fs img -> valid_ino fs ino -> inode_ok inode ->
  T img (ext2_write_inode fs ino inode) (fun i _ => i = put_inode fs img ino inode).
Proof.
  intros G Hd M Hv Hi. unfold ext2_write_inode. eapply t_bind; [by apply inode_place_ok|]. intros i [b o] [-> [= -> ->]].
  assert (Ht : table_block fs (iblk fs ino)) by by exists ino.
  destruct (mo_inode M _ Ht) as [_ Hr _]. destruct (put_inode_len fs img ino inode G Hr Hi) as [H1 H2].
  destruct (ioff_bounds fs G ino) as (H3 & _). apply t_bytes. intros Him.
  apply t_buffer; [done|]. intros buf Hb _. eapply t_bind; [by apply t_read_block|]. intros i b [-> ->].
  eapply t_bind_lift; [apply mem_write_splice; rewrite ?(len_eblk fs G) by done; lia|].
  apply t_write_block; [done|done|done|done|]. apply splice_Forall; [by apply eblk_bytes|apply Hi].
Qed.

(** The inode is there, the others are as they were. *)
Lemma put_inode_disk fs img ino inode j :
  geo fs -> meta_ok fs img -> valid_ino fs ino -> valid_ino fs j -> inode_ok inode ->
  disk_inode fs (put_inode fs img ino inode) j = if decide (j = ino) then inode else disk_inode fs img j.
Proof.
  intros G M Hv Hj Hi.
  assert (Hr : in_range fs img (iblk fs ino)) by (apply (mo_inode M); by exists ino).
  assert (Hrj : in_range fs img (iblk fs j)) by (apply (mo_inode M); by exists j).
  destruct (put_inode_len fs img ino inode G Hr Hi) as [H1 H2]. destruct (ioff_bounds fs G ino) as (H3 & _). destruct Hi as [Hil _].
  destruct (decide (j = ino)) as [->|Hne].
  - unfold disk_inode, put_inode. rewrite eblk_upd_eq by done. rewrite <- Hil.
    apply slice_splice_eq; rewrite ?(len_eblk fs G) by done; lia.
  - destruct (decide (iblk fs j = iblk fs ino)) as [E|Hb]; [|by apply disk_inode_upd].
    unfold disk_inode, put_inode. rewrite E, eblk_upd_eq by done.
    destruct (ioff_bounds fs G j) as (H4 & _). pose proof (ioff_apart fs G img j ino M Hj Hv E Hne).
    apply slice_splice_ne; rewrite ?(len_eblk fs G) by done; lia.
Qed.

(** The image after the superblock has been written. *)
Definition put_sb fs img : list Z := upd fs img (sb_block fs) (splice (eblk fs img (sb_block fs)) (sb_offset fs) (sb fs)).

Lemma sb_fits fs img : geo fs -> meta_ok fs img ->
  in_range fs img (sb_block fs) /\ 0 <= sb_offset fs /\ sb_offset fs + len (sb fs) <= block_size fs /\
  len (splice (eblk fs img (sb_block fs)) (sb_offset fs) (sb fs)) = block_size fs.
Proof.
  intros G M. pose proof (g_sb _ G) as Hl. unfold SB_SIZE in Hl. destruct (mo_sys M (sb_block fs)) as [_ Hr _]; [by left|].
  assert (0 <= sb_offset fs /\ sb_offset fs + len (sb fs) <= block_size fs).
  { unfold sb_offset. destruct (Z.eqb_spec (block_size fs) 1024), (mo_size M); lia. }
  split_and!; [done|lia|lia|]. rewrite len_splice; rewrite ?(len_eblk fs G) by done; lia.
Qed.

Lemma write_superblock_ok fs img :
  geo fs -> block_dev fs = d -> meta_ok fs img -> T img (ext2_write_superblock fs) (fun i _ => i = put_sb fs img).
Proof.
  intros G Hd M. destruct (sb_fits fs img G M) as (Hr & H1 & H2 & H3). unfold ext2_write_superblock.
  apply t_bytes. intros Him. apply t_buffer; [done|]. intros buf Hb _. fold (sb_block fs) (sb_offset fs).
  eapply t_bind; [by apply t_or_fail, t_read_block|]. intros i b [-> ->].
  eapply t_bind_lift; [apply mem_write_splice; rewrite ?(len_eblk fs G) by done; lia|].
  apply t_write_block; [done|done|done|done|]. apply splice_Forall; [by apply eblk_bytes|apply (g_sb_bytes _ G)].
Qed.

(** One block of the descriptors, as the code assembles it. *)
Lemma bgdt_chunk fs j :
  geo fs -> 0 <= j < bgdt_blocks fs ->
  let to_copy := if block_size fs <? num_groups fs * BGD_SIZE - j * block_size fs then block_size fs
                 else num_groups fs * BGD_SIZE - j * block_size fs in
  0 <= to_copy <= block_size fs /\ j * block_size fs + to_copy <= num_groups fs * BGD_SIZE /\
  splice (replicate (Z.to_nat (block_size fs)) 0) 0 (slice (bgdt fs) (j * block_size fs) to_copy) =
    slice (padded fs) (j * block_size fs) (block_size fs).
Proof.
  intros G Hj to_copy. pose proof (bs_pos fs G). pose proof (bgdt_size_bounds fs G) as [_ Hb]. pose proof (g_bgdt _ G) as Hl.
  pose proof (g_groups _ G).
  assert (Ht : 0 <= to_copy <= block_size fs /\ j * block_size fs + to_copy <= num_groups fs * BGD_SIZE).
  { unfold to_copy, BGD_SIZE in *. destruct (Z.ltb_spec (block_size fs) (num_groups fs * 32 - j * block_size fs)); nia. }
  split_and!; try lia.
  assert (Hls : len (slice (bgdt fs) (j * block_size fs) to_copy) = to_copy) by (apply len_slice; unfold BGD_SIZE in *; nia).
  assert (Hlz : len (replicate (Z.to_nat (block_size fs)) 0) = block_size fs) by (unfold len; rewrite length_replicate; lia).
  assert (Hlp : len (padded fs) = bgdt_blocks fs * block_size fs).
  { unfold padded, len in *. rewrite length_app, length_replicate. unfold BGD_SIZE in *. lia. }
  apply list_eq_len; [rewrite len_splice by lia; rewrite len_slice by nia; lia|].
  intros i Hi. rewrite len_splice in Hi by lia. rewrite splice_lookup by lia. rewrite Hls, (slice_lookup (padded fs)) by nia. unfold padded.
  replace (0 <=? i) with true by (symmetry; apply Z.leb_le; lia). cbn [andb]. rewrite Z.add_0_l, Z.sub_0_r.
  destruct (Z.ltb_spec i to_copy).
  - rewrite slice_lookup by nia. rewrite lookup_app_l; [done|]. unfold len, BGD_SIZE in *. nia.
  - assert (Hge : num_groups fs * BGD_SIZE <= j * block_size fs + i).
    { unfold to_copy in *. destruct (Z.ltb_spec (block_size fs) (num_groups fs * BGD_SIZE - j * block_size fs)); lia. }
    assert (j * block_size fs + block_size fs <= bgdt_blocks fs * block_size fs) by nia.
    rewrite lookup_app_r by (unfold len, BGD_SIZE in *; lia).
    rewrite !lookup_replicate_2; [done|..]; unfold len, BGD_SIZE in *; lia.
Qed.

Lemma write_bgdt_loop_ok fs (G : geo fs) : block_dev fs = d -> forall n i img,
  meta_ok fs img -> 0 <= i -> i + Z.of_nat n <= bgdt_blocks fs ->
  T img (write_bgdt_loop n fs (bgdt_block fs) (num_groups fs * BGD_SIZE) i) (fun img' _ =>
    len img' = len img /\
    (forall c, 0 <= c -> ~ (bgdt_block fs + i <= c < bgdt_block fs + i + Z.of_nat n) -> eblk fs img' c = eblk fs img c) /\
    (forall j, i <= j < i + Z.of_nat n -> eblk fs img' (bgdt_block fs + j) = slice (padded fs) (j * block_size fs) (block_size fs))).
Proof.
  intros Hd. pose proof (bs_pos fs G) as Hbs. pose proof (g_groups _ G) as Hg. pose proof (bgdt_size_bounds fs G) as [_ Hb].
  induction n as [|n IH]; intros i img M Hi Hn; cbn [write_bgdt_loop].
  { apply t_ok. split_and!; [done|done|]. intros; lia. }
  destruct (bgdt_chunk fs i G ltac:(lia)) as (H1 & H2 & E). cbn zeta in *.
  set (n1 := if block_size fs <? num_groups fs * BGD_SIZE - i * block_size fs then block_size fs else num_groups fs * BGD_SIZE - i * block_size fs) in *.
  pose proof (mo_sys M (bgdt_block fs + i) ltac:(right; lia)) as Ho. pose proof (ow_range Ho) as Hr.
  set (new := slice (padded fs) (i * block_size fs) (block_size fs)) in *.
  assert (Hln : len new = block_size fs) by (rewrite <- E, len_splice; unfold len; rewrite ?length_replicate, ?length_take, ?length_drop; [lia|lia|];
    unfold slice; rewrite ?length_take, ?length_drop; lia).
  assert (Hbn : Forall byte_ok new).
  { apply slice_Forall, Forall_app. split; [apply (g_bgdt_bytes _ G)|]. apply Forall_replicate. unfold byte_ok. lia. }
  eapply (t_bind _ _ _ _ _ (fun img' _ => img' = upd fs img (bgdt_block fs + i) new)).
  - apply t_buffer; [done|]. intros buf _ _. unfold BGD_SIZE in *.
    rewrite (u32_id (i * block_size fs)) by nia. rewrite (u32_id (num_groups fs * 32 - _)) by nia. fold n1.
    eapply t_bind_lift; [apply mem_read_slice; rewrite ?(g_bgdt _ G); unfold BGD_SIZE; nia|].
    eapply t_bind_lift.
    { apply mem_write_splice; [lia|]. unfold len. rewrite length_replicate. unfold slice. rewrite length_take, length_drop. lia. }
    rewrite E. rewrite u32_id by apply Hr. by apply t_write_block.
  - intros i' [] ->. eapply t_mono; [apply IH| |done].
    + destruct M as [M1 M2 M3 M4 M5 M6 M7]. pose proof (not_bitmap_owned _ _ _ Ho) as Hnb.
      constructor; [done|done|done|intros c Hc|intros c Hc|done|done]; apply owned_upd; auto.
    + lia.
    + lia.
    + intros img' u (El & Hf & Hw). split_and!.
      * by rewrite El, len_upd.
      * intros c Hc Ho'. rewrite Hf by lia. rewrite eblk_upd_ne; [done|done|done|done|done|lia].
      * intros j Hj. destruct (decide (j = i)) as [->|]; [|apply Hw; lia].
        rewrite Hf by (unfold bgdt_block; destruct (_ =? _); lia). by rewrite eblk_upd_eq.
Qed.

Lemma write_bgdt_ok fs img :
  geo fs -> block_dev fs = d -> meta_ok fs img -> T img (ext2_write_bgdt fs) (fun img' _ =>
    len img' = len img /\
    (forall c, 0 <= c -> ~ (bgdt_block fs <= c < bgdt_block fs + bgdt_blocks fs) -> eblk fs img' c = eblk fs img c) /\
    (forall j, 0 <= j < bgdt_blocks fs -> eblk fs img' (bgdt_block fs + j) = slice (padded fs) (j * block_size fs) (block_size fs))).
Proof.
  intros G Hd M. pose proof (bs_pos fs G). pose proof (g_groups _ G). pose proof (bgdt_size_bounds fs G) as [Hpos Hb].
  destruct (mo_sys M (bgdt_block fs + bgdt_blocks fs - 1) ltac:(right; lia)) as [_ [Hr _] _].
  unfold ext2_write_bgdt. fold (bgdt_block fs). rewrite (u32_id (num_groups fs * BGD_SIZE)) by (unfold BGD_SIZE; lia).
  assert (Hov : bgdt_blocks fs * block_size fs < 2 ^ 32).
  { pose proof (mo_bgdt M). lia. }
  rewrite u32_id by (pose proof (mo_bgdt M); unfold BGD_SIZE in *; lia).
  eapply t_bind_lift; [apply divmod_ok; lia|]. fold (bgdt_blocks fs).
  eapply t_mono; [apply write_bgdt_loop_ok; [done|done|done|lia|lia]| |done].
  intros img' u (Hl & Hf & Hw). rewrite Z.add_0_r, Z2Nat.id in * by lia. done.
Qed.

(** ** The metadata of a file is saved *)

(** After the inode, the descriptors and the superblock have been written. *)
Record saved fs img (ino : Z) inode img' : Prop := {
  sv_len : len img' = len img;
  sv_frame c : 0 <= c -> ~ sys_block fs c -> c <> iblk fs ino -> eblk fs img' c = eblk fs img c;
  sv_inode j : valid_ino fs j -> disk_inode fs img' j = if decide (j = ino) then inode else disk_inode fs img j;
  sv_synced : synced fs img'
}.

Lemma meta_not_bitmap fs img g : meta_ok fs img -> 0 <= g < num_groups fs -> ~ sys_block fs (bbm fs g) /\ ~ table_block fs (bbm fs g).
Proof.
  intros M Hg. split; intros Hc.
  - by apply (ow_data (mo_sys M _ Hc) g Hg).
  - by apply (ow_data (mo_inode M _ Hc) g Hg).
Qed.

Lemma save_ok {A} fs img ino inode (K : io W A) Q E :
  geo fs -> block_dev fs = d -> meta_ok fs img -> valid_ino fs ino -> inode_ok inode ->
  (forall img', saved fs img ino inode img' -> triple d 512 img' K Q E) ->
  triple d 512 img (bind (attempt (ext2_write_inode fs ino inode)) (fun _ =>
    bind (attempt (ext2_write_bgdt fs)) (fun _ => bind (attempt (ext2_write_superblock fs)) (fun _ => K)))) Q E.
Proof.
  intros G Hd M Hv Hi HK. assert (Ht : table_block fs (iblk fs ino)) by by exists ino.
  destruct (mo_inode M _ Ht) as [_ Hr _]. destruct (put_inode_len fs img ino inode G Hr Hi) as [_ Hl1].
  eapply t_bind_ok; [by apply write_inode_ok|]. intros img1 _ ->. set (img1 := put_inode fs img ino inode).
  assert (Hlen1 : len img1 = len img) by by apply len_upd.
  assert (Hf1 : forall c, 0 <= c -> c <> iblk fs ino -> eblk fs img1 c = eblk fs img c) by (intros; by apply eblk_upd_ne).
  assert (M1 : meta_ok fs img1).
  { apply (meta_agree fs G img); [done| |done]. intros g Hg. apply Hf1; [apply (bbm_range fs G g Hg)|].
    intros E0. apply (meta_not_bitmap fs img g M Hg). by rewrite E0. }
  eapply t_bind_ok; [by apply write_bgdt_ok|]. intros img2 _ (Hlen2 & Hf2 & Hw2).
  assert (M2 : meta_ok fs img2).
  { apply (meta_agree fs G img1); [done| |done]. intros g Hg. apply Hf2; [apply (bbm_range fs G g Hg)|].
    intros E0. apply (proj1 (meta_not_bitmap fs img g M Hg)). by right. }
  destruct (sb_fits fs img2 G M2) as (Hrs & Ho1 & Ho2 & Hls).
  eapply t_bind_ok; [by apply write_superblock_ok|]. intros img3 _ ->. apply HK.
  assert (Hf3 : forall c, 0 <= c -> c <> sb_block fs -> eblk fs (put_sb fs img2) c = eblk fs img2 c) by (intros; by apply eblk_upd_ne).
  assert (Hsb : ~ (bgdt_block fs <= sb_block fs < bgdt_block fs + bgdt_blocks fs)) by (unfold bgdt_block, sb_block; destruct (_ =? _); lia).
  assert (Hsys : forall c, 0 <= c -> ~ sys_block fs c -> eblk fs (put_sb fs img2) c = eblk fs img1 c).
  { intros c Hc Hs. rewrite Hf3; [apply Hf2; [done|]|done|]; intros E0; apply Hs; [by right|by left]. }
  constructor.
  - rewrite <- Hlen1, <- Hlen2. by apply len_upd.
  - intros c Hc Hs Hn. rewrite Hsys by done. by apply Hf1.
  - intros j Hj. rewrite <- (put_inode_disk fs img ino inode j G M Hv Hj Hi). unfold disk_inode at 1. rewrite Hsys; [done| |].
    + apply (mo_inode M). by exists j.
    + intros Hs. apply (mo_apart M _ Hs). by exists j.
  - constructor.
    + unfold put_sb. rewrite eblk_upd_eq by done. rewrite <- (g_sb _ G). apply slice_splice_eq; rewrite ?(len_eblk fs G) by done; lia.
    + intros j Hj. rewrite Hf3; [by apply Hw2|unfold bgdt_block; destruct (_ =? _); lia|]. intros E0. apply Hsb. lia.
Qed.
End MetaIo.
