(* ===== verification/Ext2Vfs.v ===== *)
(** * The ext2 driver: reading and writing through the VFS

    What ext2_vfs_read and ext2_vfs_write promise of an open file: the bytes of
    the file, its size, its inode on the disk, and everything else unchanged. *)

From S2P Require Import Prelude Vfs Kstd Bytes BlockDev IoLogic FsBitmap Ext2 Ext2Proofs Ext2Alloc Ext2Map Ext2File Ext2Data Ext2Write Ext2Meta.

(** ** The metadata while a file grows *)

Section ShapeMeta.
Context (fs fs' : ext2_fs) (G : geo fs) (Sh : same_shape fs fs').

Lemma shape_valid_ino ino : valid_ino fs' ino <-> valid_ino fs ino.
Proof. unfold valid_ino. by rewrite (ss_groups _ _ Sh), (ss_ipg _ _ Sh). Qed.

Lemma shape_ioff ino : ioff fs' ino = ioff fs ino.
Proof. unfold ioff, inode_byte. by rewrite (ss_bs _ _ Sh), (ss_ipg _ _ Sh), (ss_isz _ _ Sh). Qed.

Lemma shape_iblk ino : valid_ino fs ino -> iblk fs' ino = iblk fs ino.
Proof.
  intros Hv. unfold valid_ino in Hv. pose proof (g_ipg _ G). unfold iblk, inode_byte.
  rewrite (ss_bs _ _ Sh), (ss_ipg _ _ Sh), (ss_isz _ _ Sh), (ss_itab _ _ Sh); [done|].
  split; [apply Z.div_pos; lia|apply Z.div_lt_upper_bound; lia].
Qed.

Lemma shape_disk_inode img ino : valid_ino fs ino -> disk_inode fs' img ino = disk_inode fs img ino.
Proof. intros Hv. unfold disk_inode. by rewrite shape_ioff, shape_iblk, (shape_eblk fs fs' Sh). Qed.

Lemma shape_sys_block c : sys_block fs' c <-> sys_block fs c.
Proof. unfold sys_block, sb_block, bgdt_block, bgdt_blocks. by rewrite (ss_bs _ _ Sh), (ss_groups _ _ Sh). Qed.

Lemma shape_table_block c : table_block fs' c <-> table_block fs c.
Proof.
  split; intros (i & Hi & ->); exists i.
  - apply shape_valid_ino in Hi. by rewrite shape_iblk.
  - rewrite shape_iblk by done. by rewrite shape_valid_ino.
Qed.

Lemma meta_evolved img inode img' inode' : meta_ok fs img -> evolved fs img inode fs' img' inode' -> meta_ok fs' img'.
Proof.
  intros M Ev.
  assert (Ho : forall c, owned fs img c -> owned fs' img' c).
  { intros c [H1 H2 H3]. apply (shape_owned fs fs' G Sh). constructor; [by apply (ev_mono Ev)| |done].
    eapply in_range_len; [apply (ev_len Ev)|done]. }
  destruct M as [M1 M2 M3 M4 M5 M6 M7]. constructor.
  - by rewrite (ss_bs _ _ Sh).
  - by rewrite (ss_bs _ _ Sh), (ss_groups _ _ Sh).
  - by rewrite (ss_ipg _ _ Sh), (ss_isz _ _ Sh).
  - intros c Hc. apply Ho, M4. by apply shape_sys_block.
  - intros c Hc. apply Ho, M5. by apply shape_table_block.
  - intros c. rewrite shape_sys_block, shape_table_block. apply M6.
  - intros i j. rewrite !shape_valid_ino, (ss_ipg _ _ Sh). intros Hi Hj. rewrite !shape_iblk by done. by apply M7.
Qed.
End ShapeMeta.

(** No block of the file is a block of the metadata. *)
Definition apart fs img inode : Prop :=
  forall p, pvalid fs p -> val fs img inode p <> 0 ->
    ~ sys_block fs (val fs img inode p) /\ ~ table_block fs (val fs img inode p).

Lemma apart_evolved fs img inode fs' img' inode' :
  meta_ok fs img -> apart fs img inode -> evolved fs img inode fs' img' inode' -> apart fs img' inode'.
Proof.
  intros M A Ev p Hp Hz. destruct (decide (used fs img (val fs img' inode' p))) as [Hu|Hnu].
  - destruct (ev_old Ev p Hp Hz Hu) as (q & Hq & E). rewrite <- E in *. by apply A.
  - split; intros Hc; apply Hnu; [apply (mo_sys M _ Hc)|apply (mo_inode M _ Hc)].
Qed.

(** ** An open file *)

Record file_ok fs img (fh : ext2_file_handle) : Prop := {
  fo_tree : file_tree fs img (fh_inode fh);
  fo_apart : apart fs img (fh_inode fh);
  fo_ino : valid_ino fs (fh_ino fh);
  fo_size : fh_file_size fh = i_size (fh_inode fh)
}.
Arguments fo_tree {_ _ _} _.
Arguments fo_apart {_ _ _} _.
Arguments fo_ino {_ _ _} _.
Arguments fo_size {_ _ _} _.

(** [c] is a block of the file. *)
Definition file_block fs img inode (c : Z) : Prop := exists p, pvalid fs p /\ val fs img inode p <> 0 /\ c = val fs img inode p.

(** The bytes [src] have been written at [pos]. *)
Record file_written fs img fh (pos : Z) (src : list Z) fs' img' fh' : Prop := {
  fw_shape : same_shape fs fs';
  fw_geo : geo fs';
  fw_lay : lay fs' img';
  fw_len : len img' = len img;
  fw_meta : meta_ok fs' img';
  fw_file : file_ok fs' img' fh';
  fw_ino : fh_ino fh' = fh_ino fh;
  fw_size : fh_file_size fh' = Z.max (fh_file_size fh) (pos + len src);
  fw_bytes : bytes_set fs img (fh_inode fh) pos src img' (fh_inode fh');
  fw_inodes j : valid_ino fs j ->
    disk_inode fs img' j = if decide (j = fh_ino fh) then fh_inode fh' else disk_inode fs img j;
  fw_frame c : 0 <= c -> used fs img c -> not_bitmap fs c -> ~ file_block fs img (fh_inode fh) c ->
    ~ sys_block fs c -> c <> iblk fs (fh_ino fh) -> eblk fs img' c = eblk fs img c;
  fw_used c : used fs img' c <-> used fs img c \/ file_block fs img' (fh_inode fh') c;
  fw_synced : synced fs' img'
}.
Arguments fw_shape {_ _ _ _ _ _ _ _} _.
Arguments fw_geo {_ _ _ _ _ _ _ _} _.
Arguments fw_lay {_ _ _ _ _ _ _ _} _.
Arguments fw_len {_ _ _ _ _ _ _ _} _.
Arguments fw_meta {_ _ _ _ _ _ _ _} _.
Arguments fw_file {_ _ _ _ _ _ _ _} _.
Arguments fw_ino {_ _ _ _ _ _ _ _} _.
Arguments fw_size {_ _ _ _ _ _ _ _} _.
Arguments fw_bytes {_ _ _ _ _ _ _ _} _.
Arguments fw_inodes {_ _ _ _ _ _ _ _} _.
Arguments fw_frame {_ _ _ _ _ _ _ _} _.
Arguments fw_used {_ _ _ _ _ _ _ _} _.
Arguments fw_synced {_ _ _ _ _ _ _ _} _.

Section Written.
Context (fs : ext2_fs) (img : list Z) (fh : ext2_file_handle) (pos : Z) (src : list Z).
Context (G : geo fs) (L : lay fs img) (M : meta_ok fs img) (F : file_ok fs img fh) (Hpos : 0 <= pos).
Context (fs1 : ext2_fs) (img1 inode1 : list Z) (Wr : wrote fs img (fh_inode fh) pos src fs1 img1 inode1).
Context (Hmax : pos + len src < 2 ^ 32).

Definition grown : ext2_file_handle :=
  if i_size inode1 <? pos + len src then mkhandle2 (fh_ino fh) (set_i_size inode1 (pos + len src)) (pos + len src)
  else mkhandle2 (fh_ino fh) inode1 (fh_file_size fh).

Lemma grown_size : i_size inode1 = i_size (fh_inode fh).
Proof.
  pose proof (ev_head (wr_evolved Wr)) as E. unfold i_size, field32.
  assert (Es : forall s : list Z, slice s 4 4 = slice (slice s 0 28) 4 4) by (intros s; rewrite slice_slice by lia; done).
  by rewrite (Es inode1), (Es (fh_inode fh)), E.
Qed.

Lemma grown_inode : inode_ok (fh_inode grown) /\ (forall r, 0 <= r < 15 -> i_block (fh_inode grown) r = i_block inode1 r) /\
  i_size (fh_inode grown) = Z.max (i_size (fh_inode fh)) (pos + len src) /\ fh_file_size grown = i_size (fh_inode grown).
Proof.
  pose proof (file_inode_ok _ _ _ (ev_file (wr_evolved Wr))) as Hi. assert (0 <= len src) by (unfold len; lia). unfold grown.
  rewrite grown_size. destruct (Z.ltb_spec (i_size (fh_inode fh)) (pos + len src)) as [Hlt|Hge]; cbn [fh_inode fh_file_size].
  - destruct (header_field inode1 4 (pos + len src) Hi ltac:(lia) ltac:(lia)) as [H1 H2].
    destruct Hi as [Hl _]. unfold INODE_SIZE in Hl.
    assert (E : i_size (set_i_size inode1 (pos + len src)) = pos + len src) by (apply set_field32_eq; lia).
    rewrite E. split_and!; [done|done|lia|done].
  - split_and!; [done|done|rewrite grown_size; lia|]. rewrite grown_size. apply (fo_size F).
Qed.

Context (img' : list Z) (Sv : saved fs1 img1 (fh_ino fh) (fh_inode grown) img').

Let Sh : same_shape fs fs1 := ev_shape (wr_evolved Wr).

Lemma written_frame c : 0 <= c -> ~ sys_block fs c -> c <> iblk fs (fh_ino fh) -> eblk fs img' c = eblk fs img1 c.
Proof.
  intros Hc Hs Hn. rewrite <- !(shape_eblk fs fs1 Sh). apply (sv_frame _ _ _ _ _ Sv); [done|by rewrite (shape_sys_block fs fs1 Sh)|].
  rewrite (shape_iblk fs fs1 G Sh); [done|apply (fo_ino F)].
Qed.

Lemma written_bitmaps g : 0 <= g < num_groups fs -> eblk fs img' (bbm fs g) = eblk fs img1 (bbm fs g).
Proof.
  intros Hg. destruct (meta_not_bitmap fs img g M Hg) as [H1 H2]. apply written_frame; [apply (bbm_range fs G g Hg)|done|].
  intros E. apply H2. rewrite E. exists (fh_ino fh). split; [apply (fo_ino F)|done].
Qed.

Lemma written_used c : used fs img' c <-> used fs img1 c.
Proof. by apply used_agree, written_bitmaps. Qed.

Lemma written_file : file_tree fs img' (fh_inode grown) /\
  (forall p, pvalid fs p -> val fs img' (fh_inode grown) p = val fs img1 inode1 p) /\
  forall p, pvalid fs p -> val fs img1 inode1 p <> 0 -> eblk fs img' (val fs img1 inode1 p) = eblk fs img1 (val fs img1 inode1 p).
Proof.
  destruct grown_inode as (Hi & Hib & _). pose proof (wr_evolved Wr) as Ev.
  pose proof (apart_evolved _ _ _ _ _ _ M (fo_apart F) Ev) as A1.
  assert (Hown : forall p, pvalid fs p -> val fs img1 inode1 p <> 0 -> eblk fs img' (val fs img1 inode1 p) = eblk fs img1 (val fs img1 inode1 p)).
  { intros p Hp Hz. destruct (A1 p Hp Hz) as [H1 H2]. destruct (ft_own (ev_file Ev) p Hp Hz) as [_ [Hr _] _].
    apply written_frame; [lia|done|]. intros E. apply H2. rewrite E. exists (fh_ino fh). split; [apply (fo_ino F)|done]. }
  destruct (file_tree_agree fs img1 img' inode1) as [F1 Hv1]; [apply (sv_len _ _ _ _ _ Sv)|by intros c; rewrite written_used|apply (ev_file Ev)| |].
  { intros q [Hq _]. by apply Hown. }
  destruct (file_tree_header fs img' inode1 (fh_inode grown) Hi Hib F1) as [F2 Hv2].
  split_and!; [done| |done]. intros p Hp. by rewrite Hv2, Hv1.
Qed.

Lemma file_written_ok : file_written fs img fh pos src fs1 img' grown.
Proof.
  destruct grown_inode as (Hi & Hib & Hs & Hfs). destruct written_file as (F2 & Hv & Hown). pose proof (wr_evolved Wr) as Ev.
  pose proof (meta_evolved fs fs1 G Sh _ _ _ _ M Ev) as M1. pose proof (ev_geo Ev) as G1.
  assert (Hino : fh_ino grown = fh_ino fh) by (unfold grown; by destruct (_ <? _)).
  assert (Hbm1 : forall g, 0 <= g < num_groups fs1 -> eblk fs1 img' (bbm fs1 g) = eblk fs1 img1 (bbm fs1 g)).
  { intros g. rewrite (ss_groups _ _ Sh). intros Hg. rewrite (ss_bbm _ _ Sh), !(shape_eblk fs fs1 Sh) by done. by apply written_bitmaps. }
  pose proof (sv_len _ _ _ _ _ Sv) as Hl.
  constructor; [done|done|by apply (lay_agree fs1 G1 img1), (ev_lay Ev)|by rewrite Hl, (ev_len Ev)|by apply (meta_agree fs1 G1 img1)| |done|..].
  - constructor; [by apply (shape_file_tree fs fs1 G Sh)| | |done].
    + intros p. rewrite (shape_pvalid fs fs1 Sh), (shape_val fs fs1 Sh), (shape_sys_block fs fs1 Sh), (shape_table_block fs fs1 G Sh).
      intros Hp. rewrite Hv by done. by apply (apart_evolved _ _ _ _ _ _ M (fo_apart F) Ev).
    + rewrite Hino. apply (shape_valid_ino fs fs1 Sh), (fo_ino F).
  - by rewrite Hfs, Hs, (fo_size F).
  - intros i Hir. rewrite <- (wr_bytes Wr i Hir). unfold byte_at, bmap_of.
    destruct (path_of_ok fs G _ (lbn_of_pos fs G i Hir)) as [Hp _]. rewrite Hv by done.
    destruct (Z.eqb_spec (val fs img1 inode1 (path_of fs (i / block_size fs))) 0); [done|]. by rewrite Hown.
  - intros j Hj. rewrite <- (shape_disk_inode fs fs1 G Sh), (sv_inode _ _ _ _ _ Sv) by (done || by apply (shape_valid_ino fs fs1 Sh)).
    destruct (decide _); [done|]. rewrite (shape_disk_inode fs fs1 G Sh) by done. unfold disk_inode. f_equal.
    assert (Ht : table_block fs (iblk fs j)) by by exists j. pose proof (mo_inode M _ Ht) as Ho.
    apply (ev_frame Ev); [apply Ho|apply Ho|by apply (not_bitmap_owned fs img)|]. intros p Hp Hz E.
    apply (proj2 (fo_apart F p Hp Hz)). by rewrite <- E.
  - intros c Hc Hu Hn Hnf Hsy Hib'. rewrite written_frame by done. apply (ev_frame Ev); try done.
    intros p Hp Hz E. apply Hnf. by exists p.
  - intros c. rewrite written_used. split.
    + intros Hc. destruct (wr_new Wr c Hc) as [|(p & Hp & Hz & ->)]; [by left|right]. exists p. by rewrite Hv.
    + intros [Hc|(p & Hp & Hz & ->)]; [by apply (ev_mono Ev)|]. rewrite Hv in * by done. apply (ft_own (ev_file Ev) p Hp Hz).
  - apply (sv_synced _ _ _ _ _ Sv).
Qed.
End Written.

(** Other files keep their blocks and their bytes. *)
Lemma other_file fs img fh pos src fs' img' fh' other :
  geo fs -> file_written fs img fh pos src fs' img' fh' -> valid_ino fs (fh_ino fh) ->
  file_tree fs img other -> apart fs img other ->
  (forall c, file_block fs img other c -> ~ file_block fs img (fh_inode fh) c) ->
  file_tree fs img' other /\ same_bytes fs img other img' other.
Proof.
  intros G Fw Hv F A Hsep.
  assert (Hown : forall p, pvalid fs p -> val fs img other p <> 0 -> eblk fs img' (val fs img other p) = eblk fs img (val fs img other p)).
  { intros p Hp Hz. destruct (ft_own F p Hp Hz) as [Hu [Hr _] Hd]. destruct (A p Hp Hz) as [H1 H2].
    apply (fw_frame Fw); [lia|done|done|apply Hsep; by exists p|done|]. intros E. apply H2. rewrite E. by exists (fh_ino fh). }
  pose proof (fw_len Fw) as Hl.
  destruct (file_tree_agree fs img img' other) as [F' Hvv]; [done|intros c Hc; apply (fw_used Fw); by left|done| |].
  { intros q [Hq _]. by apply Hown. }
  split; [done|]. intros i Hi. unfold byte_at, bmap_of. destruct (path_of_ok fs G _ (lbn_of_pos fs G i Hi)) as [Hp _].
  rewrite Hvv by done. destruct (Z.eqb_spec (val fs img other (path_of fs (i / block_size fs))) 0); [done|]. by rewrite Hown.
Qed.

Section VfsIo.
Context {W : Type} `{OK : FsWorldOk W} {RL : Reliable W True}.
Context (d : Z).
Implicit Types (fs : ext2_fs) (img inode : list Z).

Abbreviation T img m Q := (triple d 512 img m Q (fun _ _ => False)).

(** The result of ext2_vfs_write on an open file. *)
Definition vfs_write_result fs img fh (pos : Z) (src : list Z) img' (x : ext2_fs * option ext2_file_handle * Z * Z) : Prop :=
  let '(fs', h', pos', n) := x in
  exists fh', h' = Some fh' /\
    ((n = len src /\ pos' = pos + len src /\ file_written fs img fh pos src fs' img' fh') \/
     (n = - ENOSPC /\ pos' = pos /\ (forall c, covered fs c -> used fs img' c) /\
      exists k, 0 <= k < len src /\ evolved fs img (fh_inode fh) fs' img' (fh_inode fh') /\
        bytes_set fs img (fh_inode fh) pos (take (Z.to_nat k) src) img' (fh_inode fh'))).

Lemma ext2_vfs_write_ok fs img fh pos src :
  geo fs -> lay fs img -> meta_ok fs img -> block_dev fs = d -> read_only fs = false -> file_ok fs img fh ->
  0 <= pos -> pos + len src < 2 ^ 32 -> Forall byte_ok src -> src <> [] ->
  T img (ext2_vfs_write fs (Some fh) pos src) (vfs_write_result fs img fh pos src).
Proof.
  intros G L M Hd Hro F Hp Hmax Hby Hne. unfold ext2_vfs_write. rewrite Hro.
  assert (Hlen : 0 < len src) by (destruct src; [done|unfold len; cbn [length]; lia]).
  rewrite (proj2 (Z.eqb_neq (len src) 0)) by lia. rewrite u32_id by lia.
  eapply t_bind_ok.
  { apply t_buffer; [done|]. intros buf Hb Hbb. apply write_file_loop_ok; try done; [apply (fo_tree F)|unfold len; lia]. }
  intros img1 [[fs1 inode1] [pos'|e]]; unfold write_result; cbn [fst snd].
  - intros [-> Wr]. pose proof (wr_evolved Wr) as Ev. pose proof (ev_shape Ev) as Sh.
    change (if i_size inode1 <? pos + len src then _ else _) with (grown fh pos src inode1).
    destruct (grown_inode fs img fh pos src F Hp fs1 img1 inode1 Wr Hmax) as (Hi & _).
    assert (Hino : fh_ino (grown fh pos src inode1) = fh_ino fh) by (unfold grown; by destruct (_ <? _)).
    rewrite Hino. apply (save_ok d fs1 img1 (fh_ino fh)).
    + apply (ev_geo Ev).
    + by rewrite (ss_dev _ _ Sh).
    + by apply (meta_evolved fs fs1 G Sh _ _ _ _ M Ev).
    + apply (shape_valid_ino fs fs1 Sh), (fo_ino F).
    + done.
    + intros img' Sv. apply t_ok. exists (grown fh pos src inode1). split; [done|left].
      split_and!; [done|done|]. by eapply file_written_ok.
  - intros (-> & Hfull & k & Hk & Ev & Hb). apply t_ok. eexists. split; [done|right]. split_and!; [done|done|done|].
    by exists k.
Qed.

Lemma ext2_vfs_read_ok fs img fh pos count :
  geo fs -> block_dev fs = d -> file_ok fs img fh -> 0 <= pos < 2 ^ 32 -> 0 <= count < 2 ^ 63 ->
  let n := Z.max 0 (Z.min count (fh_file_size fh - pos)) in
  T img (ext2_vfs_read fs (Some fh) pos count) (fun img' r => img' = img /\ r = (content fs img (fh_inode fh) pos n, pos + n)).
Proof.
  intros G Hd F Hp Hc n. pose proof (fo_tree F) as Ft. destruct (file_inode_ok _ _ _ Ft) as [Hil Hib]. unfold INODE_SIZE in Hil.
  assert (Hs : 0 <= fh_file_size fh < 2 ^ 32) by (rewrite (fo_size F); apply field32_range; [done|lia|lia]).
  unfold ext2_vfs_read. rewrite (u32_id pos) by lia. destruct (Z.leb_spec (fh_file_size fh) pos) as [Hend|Hin].
  { apply t_ok. split; [done|]. replace n with 0 by lia. by rewrite Z.add_0_r. }
  rewrite (u64_id (pos + count)) by lia.
  assert (En : (if fh_file_size fh <? pos + count then fh_file_size fh - pos else count) = n).
  { destruct (Z.ltb_spec (fh_file_size fh) (pos + count)); lia. }
  rewrite En. destruct (Z.eqb_spec n 0) as [->|Hnz].
  { apply t_ok. split; [done|]. by rewrite Z.add_0_r. }
  apply t_buffer; [done|]. intros buf Hb _. eapply t_mono; [apply read_file_loop_ok; (done || lia)| |done].
  intros i r [-> ->]. done.
Qed.
End VfsIo.

(** * The ext2 driver: mounting and unmounting

    ext2_unmount leaves the superblock and the group descriptors on the disk, and
    ext2_mount finds them there: a volume that is unmounted and mounted again is
    the same file system. *)

(** The file system is what ext2_mount makes of its superblock. *)
Definition of_superblock fs (flags : Z) : Prop :=
  s_magic (sb fs) = EXT2_MAGIC /\
  fs_of_superblock (block_dev fs) (sb fs) flags =
    Ret (mkext2 (block_dev fs) (sb fs) (block_size fs) (sectors_per_block fs) (inodes_per_group fs) (blocks_per_group fs)
           (num_groups fs) (inode_size fs) (first_ino fs) [] 0 (read_only fs)).

(** The file system with its descriptors at another address. *)
Definition at_address fs (q : Z) : ext2_fs :=
  mkext2 (block_dev fs) (sb fs) (block_size fs) (sectors_per_block fs) (inodes_per_group fs) (blocks_per_group fs)
    (num_groups fs) (inode_size fs) (first_ino fs) (bgdt fs) q (read_only fs).

Lemma padded_len fs : geo fs -> len (padded fs) = bgdt_blocks fs * block_size fs.
Proof.
  intros G. pose proof (bgdt_size_bounds fs G) as [_ H]. pose proof (g_bgdt _ G). pose proof (g_groups _ G). pose proof (bs_pos fs G).
  unfold padded, len in *. rewrite length_app, length_replicate. unfold BGD_SIZE in *. lia.
Qed.

Lemma padded_bgdt fs : geo fs -> slice (padded fs) 0 (num_groups fs * BGD_SIZE) = bgdt fs.
Proof.
  intros G. pose proof (g_bgdt _ G) as Hl. unfold slice, padded, len in *. change (Z.to_nat 0) with 0%nat.
  rewrite drop_0, take_app_length'; [done|]. unfold BGD_SIZE in *. lia.
Qed.

(** The superblock is at byte 1024. *)
Lemma sb_place fs img : geo fs -> meta_ok fs img -> slice (eblk fs img (sb_block fs)) (sb_offset fs) SB_SIZE = slice img 1024 1024.
Proof.
  intros G M. destruct (sb_fits fs img G M) as (_ & H1 & H2 & _). pose proof (g_sb _ G) as Hs. rewrite Hs in H2. unfold SB_SIZE in *.
  unfold eblk, sb_block, sb_offset in *. destruct (Z.eqb_spec (block_size fs) 1024); rewrite slice_slice by lia; f_equal; lia.
Qed.

Section MountIo.
Context {W : Type} `{OK : FsWorldOk W} {RL : Reliable W True}.
Context (d : Z).
Implicit Types (fs : ext2_fs) (img : list Z).

Abbreviation T img m Q := (triple d 512 img m Q (fun _ _ => False)).

(** The loop that reads the descriptors, run with the geometry of [fs]. *)
Lemma read_bgdt_loop_ok fs fs0 img (G : geo fs) :
  block_dev fs0 = d -> block_size fs0 = block_size fs -> sectors_per_block fs0 = sectors_per_block fs ->
  meta_ok fs img -> synced fs img ->
  forall n i buf, 0 <= i -> i + Z.of_nat n = bgdt_blocks fs -> len buf = bgdt_blocks fs * block_size fs ->
  slice buf 0 (i * block_size fs) = slice (padded fs) 0 (i * block_size fs) ->
  T img (read_bgdt_loop n fs0 (bgdt_block fs) i buf) (fun img' r => img' = img /\ r = padded fs).
Proof.
  intros Hd Ebs Espb M Sy. pose proof (bs_pos fs G) as Hbs. pose proof (mo_bgdt M) as Hmax.
  pose proof (bgdt_size_bounds fs G) as [_ Hb]. pose proof (padded_len fs G) as Hpl.
  induction n as [|n IH]; intros i buf Hi Hn Hl Hpre; cbn [read_bgdt_loop].
  { apply t_ok. split; [done|]. assert (Ei : i = bgdt_blocks fs) by lia. rewrite Ei, <- Hpl in Hpre.
    rewrite slice_all in Hpre. rewrite <- Hpre. rewrite <- (slice_all buf) at 1. f_equal. lia. }
  destruct (mo_sys M (bgdt_block fs + i) ltac:(right; lia)) as [_ Hr _].
  destruct (sector_bounds fs img _ G Hr) as (H1 & H2 & Eu & E1 & E2).
  assert (Hib : 0 <= i * block_size fs /\ i * block_size fs + block_size fs <= len buf < 2 ^ 32) by nia.
  rewrite Ebs, (u32_id (i * block_size fs)) by lia. rewrite (u32_id (bgdt_block fs + i)) by apply Hr.
  set (at_ := Z.to_nat (i * block_size fs)).
  eapply t_bind.
  { apply t_or_fail. unfold ext2_read_block. rewrite Hd, Espb, Eu.
    eapply (t_read_into True _ _ _ _ _ _ (fun img' r => img' = img /\ r = splice (drop at_ buf) 0 (eblk fs img (bgdt_block fs + i)))).
    - lia.
    - lia.
    - pose proof (g_bs _ G). unfold len, at_ in *. rewrite length_drop. lia.
    - intros _. split; [done|]. unfold eblk. by rewrite E1, (g_bs _ G), (Z.mul_comm 512).
    - intros e Hs. specialize (Hs I). lia. }
  intros i' part [-> ->]. rewrite (sy_bgdt _ _ Sy i) by lia. set (s := slice (padded fs) (i * block_size fs) (block_size fs)).
  assert (Hs : len s = block_size fs) by (apply len_slice; nia).
  assert (Ebuf : take at_ buf ++ splice (drop at_ buf) 0 s = splice buf (i * block_size fs) s).
  { unfold splice. change (Z.to_nat 0) with 0%nat. rewrite take_0, app_nil_l, drop_drop. do 3 f_equal. }
  rewrite Ebuf. apply IH; [lia|lia|by rewrite len_splice by lia|].
  replace ((i + 1) * block_size fs) with (i * block_size fs + block_size fs) by lia.
  rewrite !slice_app_add by lia. rewrite !Z.add_0_l. f_equal.
  - rewrite slice_splice_ne by lia. done.
  - pose proof (slice_splice_eq buf (i * block_size fs) s ltac:(lia) ltac:(lia)) as E. rewrite Hs in E. exact E.
Qed.

Lemma ext2_mount_ok fs img device flags w :
  geo fs -> block_dev fs = d -> meta_ok fs img -> synced fs img -> of_superblock fs flags ->
  image d w = img -> w_block_size d w = 512 -> w_find device w = Some d ->
  runs_to (ext2_mount device flags w) (fun '(w', r) => image d w' = img /\ exists p q, r = Ok (p, at_address fs q)).
Proof.
  intros G Hd M Sy [Hmagic Hof] Hi Hb Hf. unfold ext2_mount. rewrite Hf.
  pose proof (bs_pos fs G) as Hbs. pose proof (mo_bgdt M) as Hmax. pose proof (g_groups _ G). pose proof (bgdt_size_bounds fs G) as [Hpos Hbb].
  assert (Hsb : slice img 1024 1024 = sb fs) by (rewrite <- (sy_sb _ _ Sy); symmetry; by apply sb_place).
  assert (Hroom : 2048 <= len img).
  { destruct (sb_fits fs img G M) as ([_ Hr] & _). unfold sb_block in Hr. destruct (mo_size M), (Z.eqb_spec (block_size fs) 1024); lia. }
  assert (Ht : T img (with_object EXT2_FS_SIZE (- ENOMEM) (fun p =>
        bind (or_fail EIO (read_blocks d 2 2 (replicate 1024 0))) (fun s =>
        if negb (s_magic s =? EXT2_MAGIC) then err (- EINVAL) else
        bind (lift (fs_of_superblock d s flags)) (fun fs =>
        let bgdt_bytes := u32 (num_groups fs * BGD_SIZE) in
        with_object bgdt_bytes (- ENOMEM) (fun q =>
          let bgdt_block := if block_size fs =? 1024 then 2 else 1 in
          bind (lift (udiv (u32 (bgdt_bytes + block_size fs - 1)) (block_size fs))) (fun bgdt_blks =>
          with_buffer (u32 (bgdt_blks * block_size fs)) (- ENOMEM) (fun buf =>
            bind (read_bgdt_loop (Z.to_nat bgdt_blks) fs bgdt_block 0 buf) (fun buf =>
            bind (lift (mem_read buf 0 bgdt_bytes)) (fun b =>
            ok (p, mkext2 d s (block_size fs) (sectors_per_block fs) (inodes_per_group fs) (blocks_per_group fs)
                     (num_groups fs) (inode_size fs) (first_ino fs) b q (read_only fs)))))))))))
      (fun img' r => img' = img /\ exists p q, r = (p, at_address fs q))).
  2: { eapply runs_to_mono; [by apply Ht|]. intros [w' [a|e]] [_ Hq]; [|done]. destruct Hq as [E (p & q & ->)]. split; [done|]. by exists p, q. }
  apply (t_with_object True); [unfold EXT2_FS_SIZE; lia| |by intros Hn; destruct Hn]. intros p.
  eapply t_bind.
  { apply t_or_fail. eapply (t_read_blocks True _ _ _ _ _ _ (fun img' r => img' = img /\ r = sb fs)); [lia|lia|done|by intros _; rewrite <- Hsb|].
    intros e Hs. specialize (Hs I). lia. }
  intros i s [-> ->]. rewrite Hmagic, Z.eqb_refl. cbn [negb]. rewrite Hd in Hof.
  eapply t_bind_lift; [exact Hof|]. cbn [num_groups block_size sectors_per_block inodes_per_group blocks_per_group inode_size first_ino read_only].
  rewrite (u32_id (num_groups fs * BGD_SIZE)) by (unfold BGD_SIZE in *; lia). cbn zeta.
  apply (t_with_object True); [unfold BGD_SIZE; lia| |by intros Hn; destruct Hn]. intros q.
  rewrite (u32_id (num_groups fs * BGD_SIZE + _ - 1)) by (unfold BGD_SIZE in *; lia).
  eapply t_bind_lift; [apply divmod_ok; lia|]. fold (bgdt_blocks fs) (bgdt_block fs).
  rewrite (u32_id (bgdt_blocks fs * block_size fs)) by lia.
  apply (t_with_buffer True); [lia| |by intros Hn; destruct Hn]. intros buf Hl _.
  eapply t_bind; [apply (read_bgdt_loop_ok fs); [done|done|done|done|done|done|lia|lia|done|done]|]. intros i buf' [-> ->].
  eapply t_bind_lift; [apply mem_read_slice; rewrite ?padded_len by done; unfold BGD_SIZE in *; lia|].
  apply t_ok. split; [done|]. exists p, q. unfold at_address. by rewrite padded_bgdt, Hd.
Qed.

Lemma kfree_ok p q img : T img (fun w => Ret (w_kfree p (w_kfree q w), Ok 0)) (fun img' r => img' = img /\ r = 0).
Proof.
  intros w Hi Hb. cbn [runs_to]. destruct (kfree_law d p (w_kfree q w)) as [E1 E2], (kfree_law d q w) as [E3 E4].
  rewrite E2, E4, E1, E3. done.
Qed.

Lemma ext2_unmount_ok fs img p :
  geo fs -> block_dev fs = d -> meta_ok fs img -> read_only fs = false ->
  T img (ext2_unmount (Some (p, fs))) (fun img' r =>
    r = 0 /\ synced fs img' /\ meta_ok fs img' /\ forall c, 0 <= c -> ~ sys_block fs c -> eblk fs img' c = eblk fs img c).
Proof.
  intros G Hd M Hro. unfold ext2_unmount. rewrite Hro.
  destruct (sb_fits fs img G M) as (Hr & Ho1 & Ho2 & Hl).
  assert (Hf1 : forall c, 0 <= c -> c <> sb_block fs -> eblk fs (put_sb fs img) c = eblk fs img c) by (intros; by apply eblk_upd_ne).
  assert (M1 : meta_ok fs (put_sb fs img)).
  { apply (meta_agree fs G img); [by apply len_upd| |done]. intros g Hg. apply Hf1; [apply (bbm_range fs G g Hg)|].
    intros E. apply (proj1 (meta_not_bitmap fs img g M Hg)). by left. }
  eapply (t_bind _ _ _ _ _ (fun img' _ => synced fs img' /\ meta_ok fs img' /\ forall c, 0 <= c -> ~ sys_block fs c -> eblk fs img' c = eblk fs img c)).
  - eapply t_bind_ok; [by apply write_superblock_ok|]. intros i _ ->.
    eapply t_bind_ok; [by apply write_bgdt_ok|]. intros img2 _ (Hl2 & Hf2 & Hw2). apply t_ok.
    assert (Hsb : ~ (bgdt_block fs <= sb_block fs < bgdt_block fs + bgdt_blocks fs)) by (unfold bgdt_block, sb_block; destruct (_ =? _); lia).
    split_and!.
    + constructor; [|done]. rewrite Hf2; [|apply Hr|done]. unfold put_sb. rewrite eblk_upd_eq by done. rewrite <- (g_sb _ G).
      apply slice_splice_eq; rewrite ?(len_eblk fs G) by done; lia.
    + apply (meta_agree fs G (put_sb fs img)); [done| |done]. intros g Hg. apply Hf2; [apply (bbm_range fs G g Hg)|].
      intros E. apply (proj1 (meta_not_bitmap fs img g M Hg)). by right.
    + intros c Hc Hs. rewrite Hf2; [apply Hf1; [done|]|done|]; intros E; apply Hs; [by left|by right].
  - intros img' _ (H1 & H2 & H3). eapply t_mono; [apply kfree_ok| |done]. intros i r [-> ->]. done.
Qed.
End MountIo.
