(* ===== verification/Ext2Dir.v ===== *)
(** * The ext2 driver: directories

    A directory block is a row of records that fill it ([records]); as a value it
    is the list of their inodes and names.  The search in a block is the search
    in that list, adding an entry inserts it into the list, and no access leaves
    the block. *)

From S2P Require Import Prelude Bytes Vfs BlockDev IoLogic FsBitmap Kstd KstdProofs Ext2 Ext2Proofs Ext2Alloc Ext2Map Ext2File Ext2Data Ext2Write Ext2Meta Ext2Vfs.

(** ** Names *)

(** A name as the VFS passes it: without a terminator in it. *)
Definition name_ok (name : list Z) : Prop := Forall (fun c => 0 < c < 256) name /\ 0 < len name < 256.

Lemma strncmp_prefix a t : Forall (fun c => 0 < c < 256) t -> (length t <= length a)%nat -> forall n i,
  (i + n = length t)%nat -> take i a = take i t ->
  exists r, strncmp_loop a (t ++ [0]) (Z.of_nat i) n = Ret r /\ (r =? 0) = bool_decide (take (length t) a = t).
Proof.
  intros Ht Hl. induction n as [|n IH]; intros i Hi Heq; cbn [strncmp_loop].
  { exists 0. split; [done|]. replace i with (length t) in Heq by lia. rewrite (firstn_all t) in Heq.
    rewrite bool_decide_true by done. done. }
  destruct (lookup_lt_is_Some_2 a i) as [c1 E1]; [lia|]. destruct (lookup_lt_is_Some_2 t i) as [c2 E2]; [lia|].
  rewrite (aget_lookup a _ c1) by (rewrite ?Nat2Z.id; (lia || done)). cbn [mbind outcome_bind].
  rewrite (aget_lookup _ _ c2) by (rewrite ?Nat2Z.id, ?lookup_app_l; (lia || done)). cbn [mbind outcome_bind].
  pose proof (proj1 (Forall_lookup _ _) Ht i c2 E2) as Hc2. cbn beta in Hc2.
  destruct (Z.eqb_spec c1 c2) as [<-|Hne].
  - rewrite (proj2 (Z.eqb_neq c1 0)) by lia. cbn [negb andb]. replace (Z.of_nat i + 1) with (Z.of_nat (S i)) by lia.
    apply IH; [lia|]. by rewrite (take_S_r a i c1), (take_S_r t i c1), Heq.
  - rewrite andb_false_r. exists (c1 - c2). split; [done|]. rewrite (proj2 (Z.eqb_neq _ _)) by lia.
    symmetry. apply bool_decide_false. intros E. apply Hne. rewrite <- E, lookup_take_lt in E2 by lia. congruence.
Qed.

(** ** The records of a block *)

Section Block.
Implicit Types (blk name : list Z) (off : Z).

Definition r_len blk off : Z := field16 blk (off + 4).
Definition r_ino blk off : Z := field32 blk off.
Definition r_nl blk off : Z := default 0 (blk !! Z.to_nat (off + 6)).
Definition r_name blk off : list Z := slice blk (off + 8) (r_nl blk off).

(** A record at [off] with room for its name. *)
Definition record_at blk off : Prop :=
  0 <= off /\ 8 + r_nl blk off <= r_len blk off /\ off + r_len blk off <= len blk /\ 0 <= r_nl blk off < 256 /\
  (r_ino blk off <> 0 -> entry_len (r_nl blk off) <= r_len blk off).

Inductive records blk : Z -> list (Z * list Z) -> Prop :=
| rec_end : records blk (len blk) []
| rec_cons off l : record_at blk off -> records blk (off + r_len blk off) l ->
    records blk off ((r_ino blk off, r_name blk off) :: l).

(** The first entry in use with the name. *)
Fixpoint find_name name (l : list (Z * list Z)) : Z :=
  match l with
  | [] => 0
  | (ino, s) :: l' => if negb (ino =? 0) && bool_decide (s = name) then ino else find_name name l'
  end.

Lemma record_bounds blk off : record_at blk off -> 0 <= off /\ off + 8 <= len blk /\ 8 <= r_len blk off.
Proof. intros (H1 & H2 & H3 & H4 & _). lia. Qed.

Lemma record_reads blk off : record_at blk off ->
  de_rec_len blk off = Ret (r_len blk off) /\ de_inode blk off = Ret (r_ino blk off) /\ de_name_len blk off = Ret (r_nl blk off).
Proof.
  intros R. destruct (record_bounds _ _ R) as (H1 & H2 & H3). split_and!.
  - unfold de_rec_len. rewrite get16_ok by lia. done.
  - unfold de_inode. rewrite get32_ok by lia. done.
  - unfold de_name_len, get8, r_nl. destruct (aget_in_bounds blk (off + 6)) as (x & E & El); [lia|]. by rewrite E, El.
Qed.

Lemma matches_ok blk off name : record_at blk off -> name_ok name ->
  dirent_matches blk off name = Ret (negb (r_ino blk off =? 0) && bool_decide (r_name blk off = name)).
Proof.
  intros R [Hc Hl]. pose proof R as (H1 & H2 & H3 & H4 & _). destruct (record_reads _ _ R) as (_ & Ei & En).
  unfold dirent_matches. rewrite Ei. cbn [mbind outcome_bind]. destruct (Z.eqb_spec (r_ino blk off) 0); [done|].
  rewrite En. cbn [mbind outcome_bind negb andb]. rewrite (u8_id (len name)) by lia.
  assert (Hsl : len (r_name blk off) = r_nl blk off) by (apply len_slice; lia).
  destruct (Z.eqb_spec (r_nl blk off) (len name)) as [E|Hne]; cbn [negb].
  2: { f_equal. symmetry. apply bool_decide_false. congruence. }
  destruct (strncmp_prefix (drop (Z.to_nat (off + 8)) blk) name Hc) with (n := length name) (i := 0%nat) as (r & Er & Hr);
    [unfold len in *; rewrite length_drop; lia|lia|done|].
  assert (Es : strncmp (drop (Z.to_nat (off + 8)) blk) (name ++ [0]) (len name) = Ret r).
  { unfold strncmp, len. by rewrite Nat2Z.id. }
  rewrite Es. cbn [mbind outcome_bind]. rewrite Hr. f_equal.
  apply bool_decide_ext. unfold r_name, slice. rewrite E. unfold len. by rewrite Nat2Z.id.
Qed.

(** The search in a block. *)
Lemma lookup_block_ok blk name : name_ok name -> len blk < 65536 -> forall n off l,
  records blk off l -> 0 <= off -> len blk - off < Z.of_nat n -> lookup_block n blk off (len blk) name = Ret (find_name name l).
Proof.
  intros Hname Hmax. induction n as [|n IH]; intros off l Hr Ho Hn; [inversion Hr as [|? ? R]; subst; [lia|]; destruct (record_bounds _ _ R); lia|].
  cbn [lookup_block]. inversion Hr as [|? l' R Hl']; subst.
  - by rewrite Z.ltb_irrefl.
  - destruct (record_bounds _ _ R) as (H1 & H2 & H3). rewrite (proj2 (Z.ltb_lt off (len blk))) by lia.
    destruct (record_reads _ _ R) as (El & Ei & _). rewrite El. cbn [mbind outcome_bind]. rewrite (proj2 (Z.eqb_neq _ 0)) by lia.
    rewrite matches_ok by done. cbn [mbind outcome_bind find_name]. destruct (_ && _); [done|].
    pose proof R as (_ & _ & H4 & _). rewrite u32_id by lia. apply IH; [done|lia|lia].
Qed.

(** ** Adding an entry to a block *)

Lemma entry_len_bounds nl : 0 <= nl < 256 -> 8 + nl <= entry_len nl <= nl + 11.
Proof.
  intros H. unfold entry_len. rewrite <- Z.ldiff_land. change 3 with (Z.ones 2). rewrite Z.ldiff_ones_r by lia.
  rewrite Z.shiftr_div_pow2, Z.shiftl_mul_pow2 by lia. change (2 ^ 2) with 4.
  pose proof (Z.div_mod (8 + nl + Z.ones 2) 4 ltac:(lia)) as E. pose proof (Z.mod_pos_bound (8 + nl + Z.ones 2) 4 ltac:(lia)).
  change (Z.ones 2) with 3 in *. rewrite u16_id; lia.
Qed.

(** [blk'] has the bytes of [blk] from [lo] to [hi]. *)
Definition same blk blk' (lo hi : Z) : Prop := forall i, lo <= i < hi -> blk' !! Z.to_nat i = blk !! Z.to_nat i.

Lemma slice_same blk blk' p n : 0 <= p -> 0 <= n -> same blk blk' p (p + n) -> slice blk' p n = slice blk p n.
Proof.
  intros Hp Hn Hs. apply list_eq. intros i. destruct (decide (Z.of_nat i < n)) as [Hi|].
  - replace i with (Z.to_nat (Z.of_nat i)) by lia. rewrite !slice_lookup by lia. apply Hs. lia.
  - unfold slice. rewrite !lookup_take_ge by lia. done.
Qed.

Lemma record_same blk blk' off :
  record_at blk off -> len blk' = len blk -> same blk blk' off (off + r_len blk off) ->
  record_at blk' off /\ r_len blk' off = r_len blk off /\ r_ino blk' off = r_ino blk off /\ r_name blk' off = r_name blk off.
Proof.
  intros R Hl Hs. pose proof R as (H1 & H2 & H3 & H4 & H5).
  assert (El : r_len blk' off = r_len blk off) by (unfold r_len, field16; rewrite (slice_same blk blk'); [done|lia|lia|intros i Hi; apply Hs; lia]).
  assert (Ei : r_ino blk' off = r_ino blk off) by (unfold r_ino, field32; rewrite (slice_same blk blk'); [done|lia|lia|intros i Hi; apply Hs; lia]).
  assert (En : r_nl blk' off = r_nl blk off) by (unfold r_nl; rewrite Hs by lia; done).
  assert (Em : r_name blk' off = r_name blk off) by (unfold r_name; rewrite En; apply slice_same; [lia|lia|intros i Hi; apply Hs; lia]).
  split_and!; try done. unfold record_at. rewrite El, En, Ei, Hl. done.
Qed.

Lemma records_same blk blk' off l :
  records blk off l -> 0 <= off -> len blk' = len blk -> same blk blk' off (len blk) -> records blk' off l.
Proof.
  intros Hr Ho Hl. induction Hr as [|off l R Hr IH]; intros Hs; [rewrite <- Hl; constructor|].
  pose proof R as (H1 & H2 & H3 & H4 & _).
  destruct (record_same blk blk' off R Hl) as (R' & El & Ei & En); [intros i Hi; apply Hs; lia|].
  rewrite <- Ei, <- En. constructor; [done|]. rewrite El. apply IH; [lia|]. intros i Hi. apply Hs. lia.
Qed.

(** The list with the entry [e] in it. *)
Inductive inserted (e : Z * list Z) : list (Z * list Z) -> list (Z * list Z) -> Prop :=
| ins_free s l : inserted e ((0, s) :: l) (e :: l)
| ins_after x l : inserted e (x :: l) (x :: e :: l)
| ins_skip x l l' : inserted e l l' -> inserted e (x :: l) (x :: l').

Lemma find_inserted name name' ino l l' :
  inserted (ino, name) l l' -> ino <> 0 -> find_name name l = 0 ->
  find_name name' l' = if bool_decide (name' = name) then ino else find_name name' l.
Proof.
  intros Hi Hz. assert (Eino : (ino =? 0) = false) by by apply Z.eqb_neq.
  induction Hi as [s l|[i s] l|[i s] l l' Hi IH]; cbn [find_name]; rewrite ?Eino; cbn [negb andb].
  - intros _. rewrite Z.eqb_refl. cbn [negb andb]. destruct (decide (name' = name)) as [->|]; rewrite ?bool_decide_true, ?bool_decide_false by done; done.
  - destruct (Z.eqb_spec i 0) as [->|Hiz]; cbn [negb andb].
    + intros _. destruct (decide (name' = name)) as [->|]; rewrite ?bool_decide_true, ?bool_decide_false by done; done.
    + destruct (decide (s = name)) as [->|Hs]; [by rewrite bool_decide_true by done|]. intros _.
      destruct (decide (name' = name)) as [->|]; rewrite ?(bool_decide_true (name = name)), ?(bool_decide_false (name' = name)), ?(bool_decide_false (name = name')), ?(bool_decide_false (s = name)) by congruence; [done|].
      by destruct (bool_decide _).
  - destruct (decide (i <> 0 /\ s = name)) as [[H1 ->]|Hn].
    { rewrite (proj2 (Z.eqb_neq i 0)), bool_decide_true by done. done. }
    assert (E : negb (i =? 0) && bool_decide (s = name) = false).
    { apply andb_false_iff. destruct (Z.eqb_spec i 0); [by left|right]. apply bool_decide_false. naive_solver. }
    rewrite E. intros Hf. rewrite IH by done. destruct (decide (name' = name)) as [->|]; [|rewrite (bool_decide_false (name' = name)) by done; done].
    by rewrite E, bool_decide_true.
Qed.

Lemma len_one (x : Z) : len [x] = 1.
Proof. done. Qed.

Lemma insert_splice blk i x : 0 <= i < len blk -> <[Z.to_nat i := x]> blk = splice blk i [x].
Proof.
  intros Hi. apply list_eq. intros j. replace j with (Z.to_nat (Z.of_nat j)) by lia.
  rewrite splice_lookup by (rewrite ?len_one; lia). change (len [x]) with 1.
  destruct (Z.leb_spec i (Z.of_nat j)), (Z.ltb_spec (Z.of_nat j) (i + 1)); cbn [andb]; try (rewrite list_lookup_insert_ne by lia; done).
  replace (Z.of_nat j) with i by lia. rewrite list_lookup_insert_eq by (unfold len in Hi; lia). by rewrite Z.sub_diag.
Qed.

(** Inode, name length, type and name of a new record. *)
Lemma fill_dirent_ok blk off ino name t :
  0 <= off -> off + 8 + len name <= len blk -> 0 <= ino < 2 ^ 32 -> 0 <= len name < 256 ->
  Forall byte_ok blk -> Forall byte_ok name -> byte_ok t ->
  exists blk', fill_dirent blk off ino name t = Ret blk' /\ len blk' = len blk /\ Forall byte_ok blk' /\
    r_ino blk' off = ino /\ r_nl blk' off = len name /\ r_name blk' off = name /\ r_len blk' off = r_len blk off /\
    same blk blk' 0 off /\ same blk blk' (off + 8 + len name) (len blk).
Proof.
  intros Ho Hfit Hino Hn Hb Hbn Ht. unfold fill_dirent.
  rewrite put32_ok by lia. cbn [mbind outcome_bind]. set (b1 := splice blk off (le_bytes 4 ino)).
  assert (L1 : len b1 = len blk) by (apply len_splice; size).
  rewrite u8_id by lia. rewrite aset_in_bounds by lia. cbn [mbind outcome_bind]. rewrite insert_splice by lia. set (b2 := splice b1 (off + 6) [len name]).
  assert (L2 : len b2 = len blk) by (unfold b2; rewrite len_splice; rewrite ?len_one; lia).
  rewrite aset_in_bounds by lia. cbn [mbind outcome_bind]. rewrite insert_splice by lia. set (b3 := splice b2 (off + 7) [t]).
  assert (L3 : len b3 = len blk) by (unfold b3; rewrite len_splice; rewrite ?len_one; lia).
  rewrite mem_write_splice by lia. set (b4 := splice b3 (off + 8) name). exists b4.
  assert (L4 : len b4 = len blk) by (unfold b4; rewrite len_splice; lia).
  assert (Hx : forall i, 0 <= i -> b4 !! Z.to_nat i =
    if (off + 8 <=? i) && (i <? off + 8 + len name) then name !! Z.to_nat (i - (off + 8)) else
    if (off + 7 <=? i) && (i <? off + 8) then [t] !! Z.to_nat (i - (off + 7)) else
    if (off + 6 <=? i) && (i <? off + 7) then [len name] !! Z.to_nat (i - (off + 6)) else
    if (off <=? i) && (i <? off + 4) then le_bytes 4 ino !! Z.to_nat (i - off) else blk !! Z.to_nat i).
  { intros i Hi. unfold b4. rewrite splice_lookup by lia. destruct (_ && _); [done|]. unfold b3. rewrite splice_lookup by (rewrite ?len_one; lia).
    change (len [t]) with 1. replace (off + 7 + 1) with (off + 8) by lia. destruct (_ && _); [done|]. unfold b2.
    rewrite splice_lookup by (rewrite ?len_one; lia). change (len [len name]) with 1. replace (off + 6 + 1) with (off + 7) by lia.
    destruct (_ && _); [done|]. unfold b1. rewrite splice_lookup by size. replace (len (le_bytes 4 ino)) with 4 by size. done. }
  assert (Hs : forall i, 0 <= i -> (i < off \/ off + 4 <= i < off + 6 \/ off + 8 + len name <= i) -> b4 !! Z.to_nat i = blk !! Z.to_nat i).
  { intros i Hi Hc. rewrite Hx by done. repeat (case_match; [lia|]). done. }
  assert (Enl : r_nl b4 off = len name).
  { unfold r_nl. rewrite Hx by lia. replace (off + 8 <=? off + 6) with false by (symmetry; apply Z.leb_gt; lia).
    replace (off + 7 <=? off + 6) with false by (symmetry; apply Z.leb_gt; lia). cbn [andb].
    rewrite Z.leb_refl. replace (off + 6 <? off + 7) with true by (symmetry; apply Z.ltb_lt; lia). by rewrite Z.sub_diag. }
  split_and!; try done.
  - assert (Forall byte_ok [len name]) by (constructor; [unfold byte_ok; lia|constructor]).
    assert (Forall byte_ok [t]) by (by constructor). repeat apply splice_Forall; try done. apply le_bytes_ok.
  - unfold r_ino, field32. assert (E : slice b4 off 4 = le_bytes 4 ino).
    { apply list_eq_len; [rewrite len_slice by lia; size|]. intros i Hi. rewrite len_slice in Hi by lia. rewrite slice_lookup, Hx by lia.
      do 3 (case_match; [lia|]). case_match; [|lia]. by replace (off + i - off) with i by lia. }
    rewrite E, le_value_bytes. by apply Z.mod_small.
  - unfold r_name. rewrite Enl. apply list_eq_len; [rewrite len_slice; lia|]. intros i Hi. rewrite len_slice in Hi by lia.
    rewrite slice_lookup, Hx by lia. replace ((off + 8 <=? off + 8 + i) && (off + 8 + i <? off + 8 + len name)) with true.
    + f_equal. lia.
    + symmetry. apply andb_true_iff. rewrite Z.leb_le, Z.ltb_lt. lia.
  - unfold r_len, field16. rewrite (slice_same blk b4); [done|lia|lia|]. intros i Hi. apply Hs; lia.
  - intros i Hi. apply Hs; lia.
  - intros i Hi. apply Hs; lia.
Qed.

(** The result of the search for room from [off] on: nothing, or the block with
    the entry in it. *)
Definition added blk off (e : Z * list Z) l (r : option (list Z)) : Prop :=
  match r with
  | None => True
  | Some blk' => len blk' = len blk /\ Forall byte_ok blk' /\ same blk blk' 0 off /\ exists l', records blk' off l' /\ inserted e l l'
  end.

Section Add.
Context (blk name : list Z) (ino t : Z).
Context (Hb : Forall byte_ok blk) (Hname : name_ok name) (Hino : 0 < ino < 2 ^ 32) (Ht : byte_ok t).

Lemma name_bytes : Forall byte_ok name.
Proof. destruct Hname as [H _]. eapply Forall_impl; [exact H|]. unfold byte_ok. intros. lia. Qed.

(** The record [off] of [b2] is filled; it has [n] bytes. *)
Lemma fill_record b2 off n :
  Forall byte_ok b2 -> 0 <= off -> r_len b2 off = n -> entry_len (len name) <= n -> off + n <= len b2 ->
  exists b3, fill_dirent b2 off ino name t = Ret b3 /\ len b3 = len b2 /\ Forall byte_ok b3 /\ record_at b3 off /\
    r_len b3 off = n /\ r_ino b3 off = ino /\ r_name b3 off = name /\ same b2 b3 0 off /\ same b2 b3 (off + n) (len b2).
Proof.
  intros Hb2 Ho Hn Hfit Hend. destruct Hname as [_ Hl]. pose proof (entry_len_bounds (len name) ltac:(lia)) as He.
  destruct (fill_dirent_ok b2 off ino name t) as (b3 & E & L3 & B3 & Ei & En & Em & El & S1 & S2); [lia|lia|lia|lia|done|apply name_bytes|done|].
  exists b3. split_and!; try done; [|congruence|intros i Hi; apply S2; lia].
  unfold record_at. rewrite El, En, Hn. split_and!; try lia.
Qed.

(** The record [off] is split after [n] bytes, which hold its name. *)
Lemma split_record off n :
  record_at blk off -> 8 + r_nl blk off <= n -> n + 8 <= r_len blk off -> r_len blk off < 65536 -> entry_len (r_nl blk off) <= n ->
  exists b1 b2, put16 blk (off + 4) n = Ret b1 /\ put16 b1 (off + n + 4) (r_len blk off - n) = Ret b2 /\
    len b2 = len blk /\ Forall byte_ok b2 /\ record_at b2 off /\ r_len b2 off = n /\ r_ino b2 off = r_ino blk off /\
    r_name b2 off = r_name blk off /\ r_len b2 (off + n) = r_len blk off - n /\ same blk b2 0 off /\
    same blk b2 (off + r_len blk off) (len blk).
Proof.
  intros R H1 H2 H3 H4. pose proof R as (Ho & Hnl & Hend & Hr & Hel).
  set (b1 := splice blk (off + 4) (le_bytes 2 n)). assert (L1 : len b1 = len blk) by (apply len_splice; size).
  set (b2 := splice b1 (off + n + 4) (le_bytes 2 (r_len blk off - n))).
  assert (L2 : len b2 = len blk) by (unfold b2; rewrite len_splice; size).
  exists b1, b2. split; [by apply put16_ok; lia|]. split; [by apply put16_ok; lia|].
  assert (Hs : forall i, 0 <= i -> ~ (off + 4 <= i < off + 6) -> ~ (off + n + 4 <= i < off + n + 6) -> b2 !! Z.to_nat i = blk !! Z.to_nat i).
  { intros i Hi Hc1 Hc2. unfold b2. rewrite splice_lookup by size. unfold b1. rewrite splice_lookup by size.
    replace (len (le_bytes 2 (r_len blk off - n))) with 2 by size. replace (len (le_bytes 2 n)) with 2 by size.
    repeat (case_match; [lia|]). done. }
  assert (Er : r_len b2 off = n).
  { unfold r_len, b2. rewrite field16_splice_ne by size. apply set_field16_eq; [lia|lia|]. change (2 ^ 16) with 65536. lia. }
  assert (Ei : r_ino b2 off = r_ino blk off) by (unfold r_ino, field32; rewrite (slice_same blk b2); [done|lia|lia|intros i Hi; apply Hs; lia]).
  assert (En : r_nl b2 off = r_nl blk off) by (unfold r_nl; rewrite Hs by lia; done).
  assert (Em : r_name b2 off = r_name blk off) by (unfold r_name; rewrite En; apply slice_same; [lia|lia|intros i Hi; apply Hs; lia]).
  split_and!; try done.
  - repeat apply splice_Forall; try done; apply le_bytes_ok.
  - unfold record_at. rewrite Er, En, Ei, L2. split_and!; try lia.
  - unfold r_len at 1. unfold b2. replace (off + n + 4) with (off + n + 4) by lia. apply set_field16_eq; [lia|lia|].
    change (2 ^ 16) with 65536. lia.
  - intros i Hi. apply Hs; lia.
  - intros i Hi. apply Hs; lia.
Qed.

Context (fs : ext2_fs) (Hbs : len blk = block_size fs) (Hmax : block_size fs < 65536).

Lemma add_in_block_ok : forall n off l, records blk off l -> 0 <= off -> len blk - off < Z.of_nat n ->
  runs_to (add_in_block n fs blk off (entry_len (len name)) ino name t) (added blk off (ino, name) l).
Proof.
  destruct Hname as [Hc Hl]. pose proof (entry_len_bounds (len name) ltac:(lia)) as He.
  induction n as [|n IH]; intros off l Hr Ho Hn; [inversion Hr as [|? ? R]; subst; [lia|]; destruct (record_bounds _ _ R); lia|].
  cbn [add_in_block]. rewrite <- Hbs. inversion Hr as [|? l' R Hl']; subst; [by rewrite Z.ltb_irrefl|].
  pose proof R as (H1 & H2 & H3 & H4 & H5). rewrite (proj2 (Z.ltb_lt off (len blk))) by lia.
  destruct (record_reads _ _ R) as (El & Ei & En). rewrite El. cbn [mbind outcome_bind]. rewrite (proj2 (Z.eqb_neq _ 0)) by lia.
  rewrite Ei. cbn [mbind outcome_bind]. rewrite En. cbn [mbind outcome_bind].
  assert (Hskip : runs_to (add_in_block n fs blk (u32 (off + r_len blk off)) (entry_len (len name)) ino name t)
                    (added blk off (ino, name) ((r_ino blk off, r_name blk off) :: l'))).
  { rewrite u32_id by lia. eapply runs_to_mono; [apply (IH _ l' Hl'); lia|]. intros [blk'|]; [|done].
    intros (Lb & Bb & Sb & l2 & Hr2 & Hins). cbn [added]. split_and!; [done|done|intros i Hi; apply Sb; lia|].
    destruct (record_same blk blk' off R Lb) as (R' & El' & Ei' & En'); [intros i Hi; apply Sb; lia|].
    exists ((r_ino blk off, r_name blk off) :: l2). split; [|by constructor]. rewrite <- Ei', <- En'. constructor; [done|]. by rewrite El'. }
  destruct (Z.eqb_spec (r_ino blk off) 0) as [Ez|Hnz]; cbn [negb].
  - destruct (Z.leb_spec (entry_len (len name)) (r_len blk off)) as [Hroom|]; [|done]. cbn [mbind outcome_bind].
    destruct (fill_record blk off (r_len blk off)) as (b3 & E3 & L3 & B3 & R3 & El3 & Ei3 & En3 & S1 & S2); [done|done|done|done|done|].
    rewrite E3. cbn [mbind outcome_bind runs_to added]. split_and!; [done|done|done|]. rewrite Ez. exists ((ino, name) :: l').
    split; [|constructor]. rewrite <- Ei3, <- En3. constructor; [done|]. rewrite El3. apply (records_same blk); [done|lia|done|done].
  - pose proof (entry_len_bounds (r_nl blk off) ltac:(lia)) as Hel. specialize (H5 Hnz). set (n0 := entry_len (r_nl blk off)) in *.
    rewrite (u16_id (r_len blk off - n0)) by lia.
    destruct (Z.leb_spec (entry_len (len name)) (r_len blk off - n0)) as [Hroom|]; [|done].
    destruct (split_record off n0) as (b1 & b2 & E1 & E2 & L2 & B2 & R2 & El2 & Ei2 & En2 & Er2 & S1 & S2); [done|lia|lia|lia|lia|].
    rewrite E1. cbn [mbind outcome_bind]. rewrite (u32_id (off + n0)) by lia. rewrite E2. cbn [mbind outcome_bind].
    destruct (fill_record b2 (off + n0) (r_len blk off - n0)) as (b3 & E3 & L3 & B3 & R3 & El3 & Ei3 & En3 & S3 & S4); [done|lia|done|done|lia|].
    rewrite E3. cbn [mbind outcome_bind runs_to added]. split_and!; [lia|done|intros i Hi; rewrite S3 by lia; apply S1; lia|].
    destruct (record_same b2 b3 off R2) as (R2' & El2' & Ei2' & En2'); [lia|intros i Hi; apply S3; lia|].
    exists ((r_ino blk off, r_name blk off) :: (ino, name) :: l'). split; [|constructor].
    rewrite <- Ei2, <- En2, <- Ei2', <- En2'. constructor; [done|]. rewrite El2', El2. rewrite <- Ei3, <- En3. constructor; [done|].
    rewrite El3. replace (off + n0 + (r_len blk off - n0)) with (off + r_len blk off) by lia.
    apply (records_same blk); [done|lia|lia|]. intros i Hi. rewrite S4 by lia. apply S2. lia.
Qed.
End Add.
End Block.
