(* ===== verification/Ext2DirOps.v ===== *)
(** * The ext2 driver: searching and extending a directory

    A directory is the list of the entries of its blocks ([dir_ok]).
    ext2_dir_lookup searches that list; ext2_dir_add_entry puts an entry into a
    block with room or into a new block at the end. *)

From S2P Require Import Prelude Bytes Vfs BlockDev IoLogic FsBitmap Kstd KstdProofs Ext2 Ext2Proofs Ext2Alloc Ext2Map Ext2File Ext2Data Ext2Write Ext2Meta Ext2Vfs Ext2Dir.

Abbreviation entries := (list (Z * list Z)).

(** The directory of inode [dir] has the blocks with the entries [ls]. *)
Record dir_ok fs img (dir : Z) (ls : list entries) : Prop := {
  do_ino : valid_ino fs dir;
  do_mode : EXT2_ISDIR (i_mode (disk_inode fs img dir)) = true;
  do_tree : file_tree fs img (disk_inode fs img dir);
  do_apart : apart fs img (disk_inode fs img dir);
  do_size : i_size (disk_inode fs img dir) = len ls * block_size fs;
  do_max : (len ls + 1) * block_size fs < 2 ^ 32;
  do_block k : 0 <= k < len ls -> bmap_of fs img (disk_inode fs img dir) k <> 0;
  do_entries k l : 0 <= k -> ls !! Z.to_nat k = Some l ->
    records (eblk fs img (bmap_of fs img (disk_inode fs img dir) k)) 0 l;
  do_hole k : len ls <= k -> lbn_ok fs k -> bmap_of fs img (disk_inode fs img dir) k = 0
}.
Arguments do_ino {_ _ _ _} _.
Arguments do_mode {_ _ _ _} _.
Arguments do_tree {_ _ _ _} _.
Arguments do_apart {_ _ _ _} _.
Arguments do_size {_ _ _ _} _.
Arguments do_max {_ _ _ _} _.
Arguments do_block {_ _ _ _} _.
Arguments do_entries {_ _ _ _} _.
Arguments do_hole {_ _ _ _} _.

Lemma find_name_app name l1 l2 :
  find_name name (l1 ++ l2) = if find_name name l1 =? 0 then find_name name l2 else find_name name l1.
Proof.
  induction l1 as [|[i s] l1 IH]; [done|]. cbn [find_name app]. destruct (Z.eqb_spec i 0) as [->|Hi]; cbn [negb andb]; [done|].
  destruct (bool_decide (s = name)); [|done]. by rewrite (proj2 (Z.eqb_neq i 0)).
Qed.

(** ** A file whose inode is written back *)

(** The blocks of the file have changed from [img] to [img1]; [inode3] differs
    from its inode [inode1] in the counters and goes to the inode table. *)
Section PutFile.
Context (fs : ext2_fs) (img : list Z) (dir : Z) (G : geo fs) (M : meta_ok fs img) (Hv : valid_ino fs dir).
Context (A : apart fs img (disk_inode fs img dir)).
Context (fs1 : ext2_fs) (img1 inode1 inode3 : list Z) (Ev : evolved fs img (disk_inode fs img dir) fs1 img1 inode1).
Context (Hi : inode_ok inode3) (Hib : forall r, 0 <= r < 15 -> i_block inode3 r = i_block inode1 r).

Let img3 : list Z := put_inode fs1 img1 dir inode3.
Let Sh : same_shape fs fs1 := ev_shape Ev.

Lemma put_meta : meta_ok fs1 img1.
Proof. by apply (meta_evolved fs fs1 G Sh _ _ _ _ M Ev). Qed.

Lemma put_valid : valid_ino fs1 dir.
Proof. by apply (shape_valid_ino fs fs1 Sh). Qed.

Lemma put_range : in_range fs1 img1 (iblk fs1 dir).
Proof. apply (mo_inode put_meta). exists dir. split; [apply put_valid|done]. Qed.

Lemma put_len : len img3 = len img1.
Proof. apply (len_upd fs1 (ev_geo Ev)); [apply put_range|]. by apply (put_inode_len fs1 img1 dir inode3 (ev_geo Ev) put_range Hi). Qed.

Lemma put_frame c : 0 <= c -> c <> iblk fs dir -> eblk fs img3 c = eblk fs img1 c.
Proof.
  intros Hc Hn. rewrite <- !(shape_eblk fs fs1 Sh). destruct (put_inode_len fs1 img1 dir inode3 (ev_geo Ev) put_range Hi) as [_ Hl].
  apply (eblk_upd_ne fs1 (ev_geo Ev)); [apply put_range|done|done|]. by rewrite (shape_iblk fs fs1 G Sh).
Qed.

Lemma put_bitmaps g : 0 <= g < num_groups fs1 -> eblk fs1 img3 (bbm fs1 g) = eblk fs1 img1 (bbm fs1 g).
Proof.
  rewrite (ss_groups _ _ Sh). intros Hg. rewrite (ss_bbm _ _ Sh), !(shape_eblk fs fs1 Sh) by done.
  apply put_frame; [apply (bbm_range fs G g Hg)|]. intros E. apply (meta_not_bitmap fs img g M Hg). rewrite E. by exists dir.
Qed.

Lemma put_own p : pvalid fs p -> val fs img1 inode1 p <> 0 ->
  eblk fs img3 (val fs img1 inode1 p) = eblk fs img1 (val fs img1 inode1 p).
Proof.
  intros Hp Hz. destruct (apart_evolved _ _ _ _ _ _ M A Ev p Hp Hz) as [_ H2].
  destruct (ft_own (ev_file Ev) p Hp Hz) as [_ [Hr _] _]. apply put_frame; [lia|]. intros E. apply H2. rewrite E. by exists dir.
Qed.

Lemma put_used c : used fs img3 c <-> used fs img1 c.
Proof. rewrite <- !(shape_used fs fs1 G Sh). apply (used_agree fs1 (ev_geo Ev)), put_bitmaps. Qed.

Lemma put_file : file_tree fs img3 inode3 /\ forall p, pvalid fs p -> val fs img3 inode3 p = val fs img1 inode1 p.
Proof.
  destruct (file_tree_agree fs img1 img3 inode1) as [F1 Hv1]; [apply put_len|by intros c; rewrite put_used|apply (ev_file Ev)| |].
  { intros q [Hq _]. by apply put_own. }
  destruct (file_tree_header fs img3 inode1 inode3 Hi Hib F1) as [F2 Hv2]. split; [done|]. intros p Hp. by rewrite Hv2, Hv1.
Qed.

Lemma put_disk j : valid_ino fs j -> disk_inode fs1 img3 j = if decide (j = dir) then inode3 else disk_inode fs img j.
Proof.
  intros Hj. unfold img3. rewrite (put_inode_disk fs1) by (apply (ev_geo Ev) || apply put_meta || apply put_valid || done || by apply (shape_valid_ino fs fs1 Sh)).
  destruct (decide (j = dir)); [done|]. rewrite (shape_disk_inode fs fs1 G Sh) by done. unfold disk_inode. f_equal.
  assert (Ht : table_block fs (iblk fs j)) by by exists j. pose proof (mo_inode M _ Ht) as Ho.
  apply (ev_frame Ev); [apply Ho|apply Ho|by apply (not_bitmap_owned fs img)|]. intros p Hp Hz E.
  apply (proj2 (A p Hp Hz)). by rewrite <- E.
Qed.

Lemma put_all :
  lay fs1 img3 /\ meta_ok fs1 img3 /\ file_tree fs1 img3 inode3 /\ apart fs1 img3 inode3 /\
  (forall k, lbn_ok fs k -> bmap_of fs1 img3 inode3 k = bmap_of fs img1 inode1 k /\
     (bmap_of fs img1 inode1 k <> 0 -> eblk fs1 img3 (bmap_of fs img1 inode1 k) = eblk fs img1 (bmap_of fs img1 inode1 k))) /\
  (forall c, 0 <= c -> used fs img c -> not_bitmap fs c -> ~ file_block fs img (disk_inode fs img dir) c -> c <> iblk fs dir ->
     eblk fs img3 c = eblk fs img c).
Proof.
  destruct put_file as [F3 Hval]. split_and!.
  - apply (lay_agree fs1 (ev_geo Ev) img1); [apply put_len|apply put_bitmaps|apply (ev_lay Ev)].
  - apply (meta_agree fs1 (ev_geo Ev) img1); [apply put_len|apply put_bitmaps|apply put_meta].
  - by apply (shape_file_tree fs fs1 G Sh).
  - intros p. rewrite (shape_pvalid fs fs1 Sh), (shape_val fs fs1 Sh), (shape_sys_block fs fs1 Sh), (shape_table_block fs fs1 G Sh).
    intros Hp. rewrite Hval by done. by apply (apart_evolved _ _ _ _ _ _ M A Ev).
  - intros k Hk. destruct (path_of_ok fs G k Hk) as [Hp _]. rewrite (shape_bmap_of fs fs1 Sh). unfold bmap_of. rewrite Hval by done.
    split; [done|]. intros Hz. rewrite (shape_eblk fs fs1 Sh). by apply put_own.
  - intros c Hc Hu Hn Hf Hne. rewrite put_frame by done. apply (ev_frame Ev); [done..|]. intros p Hp Hz E. apply Hf. by exists p.
Qed.
End PutFile.

(** The directory has become [ls'], and nothing else has changed. *)
Record dir_changed fs img (dir : Z) (ls' : list entries) fs' img' : Prop := {
  dc_shape : same_shape fs fs';
  dc_geo : geo fs';
  dc_lay : lay fs' img';
  dc_meta : meta_ok fs' img';
  dc_dir : dir_ok fs' img' dir ls';
  dc_inodes j : valid_ino fs j -> j <> dir -> disk_inode fs' img' j = disk_inode fs img j;
  dc_frame c : 0 <= c -> used fs img c -> not_bitmap fs c -> ~ file_block fs img (disk_inode fs img dir) c -> c <> iblk fs dir ->
    eblk fs img' c = eblk fs img c
}.
Arguments dc_shape {_ _ _ _ _ _} _.
Arguments dc_geo {_ _ _ _ _ _} _.
Arguments dc_lay {_ _ _ _ _ _} _.
Arguments dc_meta {_ _ _ _ _ _} _.
Arguments dc_dir {_ _ _ _ _ _} _.
Arguments dc_inodes {_ _ _ _ _ _} _.
Arguments dc_frame {_ _ _ _ _ _} _.

Section Changes.
Context (fs : ext2_fs) (img : list Z) (dir : Z) (ls : list entries).
Context (G : geo fs) (L : lay fs img) (M : meta_ok fs img) (D : dir_ok fs img dir ls).
Let inode : list Z := disk_inode fs img dir.

Lemma dir_lbn k : 0 <= k <= len ls -> lbn_ok fs k.
Proof.
  intros Hk. pose proof (bs_pos fs G). pose proof (do_max D). replace k with (k * block_size fs / block_size fs) by (apply Z.div_mul; lia).
  apply lbn_of_pos; [done|]. nia.
Qed.

(** New contents of block [k]. *)
Lemma room_changed k l' buf :
  0 <= k < len ls -> len buf = block_size fs -> records buf 0 l' ->
  dir_changed fs img dir (<[Z.to_nat k := l']> ls) fs (put_inode fs (upd fs img (bmap_of fs img inode k) buf) dir inode).
Proof.
  intros Hk Hlen Hrec. pose proof (dir_lbn k ltac:(lia)) as Hlk. pose proof (do_block D k Hk) as Hz. fold inode in Hz.
  pose proof (do_tree D) as F. fold inode in F. pose proof (file_inode_ok _ _ _ F) as Hi.
  destruct (data_evolved fs img inode k buf 0 G L F Hlk Hz Hlen) as (Ev & _ & Hval & _).
  set (b := bmap_of fs img inode k) in *. set (img1 := upd fs img b buf) in *.
  destruct (header_field inode 28 0 Hi ltac:(lia) ltac:(lia)) as [_ Hib].
  destruct (put_all fs img dir G M (do_ino D) (do_apart D) fs img1 (set_i_blocks inode 0) inode Ev Hi) as (L3 & M3 & F3 & A3 & Hb3 & Hf3);
    [by intros r Hr; symmetry; apply Hib|].
  pose proof (put_disk fs img dir G M (do_ino D) (do_apart D) fs img1 (set_i_blocks inode 0) inode Ev Hi) as Hd3.
  set (img3 := put_inode fs img1 dir inode) in *.
  assert (Ed : disk_inode fs img3 dir = inode) by (rewrite Hd3 by apply (do_ino D); by rewrite decide_True).
  assert (Hbm : forall j, lbn_ok fs j -> bmap_of fs img3 inode j = bmap_of fs img inode j /\
    (bmap_of fs img inode j <> 0 -> eblk fs img3 (bmap_of fs img inode j) = if decide (j = k) then buf else eblk fs img (bmap_of fs img inode j))).
  { intros j Hlj. destruct (Hb3 j Hlj) as [E1 E2].
    assert (E0 : bmap_of fs img1 (set_i_blocks inode 0) j = bmap_of fs img inode j) by (apply Hval; by apply path_of_ok).
    rewrite E0 in *. split; [done|]. intros Hjz. rewrite E2 by done.
    destruct (bmap_owned fs img inode k G F Hlk Hz) as [_ Hrk _]. destruct (bmap_owned fs img inode j G F Hlj Hjz) as [_ [Hrj _] _].
    destruct (decide (j = k)) as [->|Hne]; [by apply eblk_upd_eq|]. apply eblk_upd_ne; [done|done|done|lia|].
    intros E. apply Hne. by apply (data_inj fs G img inode). }
  constructor; try done.
  - pose proof (len_insert ls (Z.to_nat k) l') as Hli. constructor; rewrite ?Ed, ?Hli; try done; try apply D.
    + intros j Hj. destruct (Hbm j (dir_lbn j ltac:(lia))) as [-> _]. by apply (do_block D).
    + intros j lj Hj El. assert (Hjl : j < len ls). { apply lookup_lt_Some in El. rewrite length_insert in El. unfold len. lia. }
      destruct (Hbm j (dir_lbn j ltac:(lia))) as [E1 E2]. rewrite E1, E2 by (apply (do_block D); lia). destruct (decide (j = k)) as [->|Hne].
      * rewrite list_lookup_insert_eq in El by (unfold len in *; lia). by injection El as <-.
      * rewrite list_lookup_insert_ne in El by lia. by apply (do_entries D).
    + intros j Hj Hlj. destruct (Hbm j Hlj) as [-> _]. by apply (do_hole D).
  - intros j Hj Hne. rewrite Hd3 by done. by rewrite decide_False.
Qed.

(** A new last block. *)
Context (fs1 : ext2_fs) (img1 : list Z) (phys : Z) (Gr : grew fs img fs1 img1 0 phys).
Context (fs2 : ext2_fs) (img2 inode2 : list Z) (Mp : map_post fs1 img1 inode (path_of fs (len ls)) phys fs2 img2 inode2).

(** The inode of the directory after it. *)
Definition grown_dir (sz spb : Z) (i : list Z) : list Z :=
  let i := set_i_size i (u32 (i_size i + sz)) in set_i_blocks i (u32 (i_blocks i + spb)).

Lemma grown_dir_ok sz spb i : inode_ok i ->
  inode_ok (grown_dir sz spb i) /\ (forall r, 0 <= r < 15 -> i_block (grown_dir sz spb i) r = i_block i r) /\
  i_mode (grown_dir sz spb i) = i_mode i /\ i_size (grown_dir sz spb i) = u32 (i_size i + sz).
Proof.
  intros Hi. unfold grown_dir. set (v := u32 (i_size i + sz)). set (x := u32 _).
  destruct (header_field i 4 v Hi ltac:(lia) ltac:(lia)) as [H1 H2]. fold (set_i_size i v) in H1, H2.
  destruct (header_field (set_i_size i v) 28 x H1 ltac:(lia) ltac:(lia)) as [H3 H4]. fold (set_i_blocks (set_i_size i v) x) in H3, H4.
  destruct Hi as [Hl _], H1 as [Hl1 _]. unfold INODE_SIZE in *. split_and!; [done|by intros r Hr; rewrite H4, H2| |].
  - transitivity (i_mode (set_i_size i v)); apply field16_splice_ne; size.
  - transitivity (i_size (set_i_size i v)); [apply field32_splice_ne; size|]. apply set_field32_eq; [lia|lia|]. apply u32_range.
Qed.

Lemma grown_changed buf l' :
  len buf = block_size fs -> records buf 0 l' -> (len ls + 2) * block_size fs < 2 ^ 32 ->
  dir_changed fs img dir (ls ++ [l']) fs2
    (put_inode fs2 (upd fs2 img2 phys buf) dir (grown_dir (block_size fs2) (sectors_per_block fs2) inode2)).
Proof.
  intros Hlen Hrec Hmax. pose proof (do_tree D) as F. fold inode in F. pose proof (bs_pos fs G) as Hbs.
  pose proof (dir_lbn (len ls) ltac:(unfold len; lia)) as Hll.
  assert (Hhole : bmap_of fs img inode (len ls) = 0) by (apply (do_hole D); [lia|done]).
  pose proof (fill_evolved fs img inode (len ls) G F Hhole fs1 img1 phys Gr fs2 img2 inode2 Mp) as Ev.
  pose proof (ev_shape Ev) as Sh. pose proof (ev_geo Ev) as G2.
  assert (Hhere : bmap_of fs img2 inode2 (len ls) = phys) by apply (mp_here (map_post_shape fs fs1 G (gr_shape Gr) _ _ _ _ _ _ _ Mp)).
  assert (Hhere2 : bmap_of fs2 img2 inode2 (len ls) = phys) by by rewrite (shape_bmap_of fs fs2 Sh).
  assert (Hlen2 : len buf = block_size fs2) by by rewrite (ss_bs _ _ Sh).
  pose proof (proj2 (shape_file_tree fs fs2 G Sh img2 inode2) (ev_file Ev)) as F2. pose proof (file_inode_ok _ _ _ F2) as Hi2.
  pose proof (gr_nonzero Gr) as Hpz.
  destruct (data_evolved fs2 img2 inode2 (len ls) buf 0) as (Ev2 & _ & Hval & _);
    [done|apply (ev_lay Ev)|done|by apply (shape_lbn_ok fs fs2 Sh)|by rewrite Hhere2|done|].
  rewrite Hhere2 in *. apply (evolved_shape fs) in Ev2; [|done|done]. pose proof (evolved_trans _ _ _ _ _ _ _ _ _ G Ev Ev2) as Ev3.
  destruct (header_field inode2 28 0 Hi2 ltac:(lia) ltac:(lia)) as [_ Hib].
  destruct (grown_dir_ok (block_size fs2) (sectors_per_block fs2) inode2 Hi2) as (Hi3 & Hib3 & Hm3 & Hs3).
  set (inode3 := grown_dir _ _ inode2) in *. set (img3 := upd fs2 img2 phys buf) in *.
  destruct (put_all fs img dir G M (do_ino D) (do_apart D) fs2 img3 (set_i_blocks inode2 0) inode3 Ev3 Hi3) as (L3 & M3 & F3 & A3 & Hb3 & Hf3);
    [by intros r Hr; rewrite Hib3 by done; symmetry; apply Hib|].
  pose proof (put_disk fs img dir G M (do_ino D) (do_apart D) fs2 img3 (set_i_blocks inode2 0) inode3 Ev3 Hi3) as Hd3.
  set (img4 := put_inode fs2 img3 dir inode3) in *.
  assert (Ed : disk_inode fs2 img4 dir = inode3) by (rewrite Hd3 by apply (do_ino D); by rewrite decide_True).
  assert (Hown2 : in_range fs2 img2 phys).
  { rewrite <- Hhere2. apply (bmap_owned fs2 img2 inode2 (len ls) G2 F2); [by apply (shape_lbn_ok fs fs2 Sh)|by rewrite Hhere2]. }
  assert (Hbm : forall j, lbn_ok fs j -> bmap_of fs2 img4 inode3 j = (if decide (j = len ls) then phys else bmap_of fs img inode j) /\
    (bmap_of fs2 img4 inode3 j <> 0 -> eblk fs2 img4 (bmap_of fs2 img4 inode3 j) = if decide (j = len ls) then buf else eblk fs img (bmap_of fs img inode j))).
  { intros j Hlj. destruct (Hb3 j Hlj) as [E1 E2]. rewrite E1.
    assert (E0 : bmap_of fs img3 (set_i_blocks inode2 0) j = bmap_of fs img2 inode2 j).
    { rewrite <- !(shape_bmap_of fs fs2 Sh). apply Hval. apply path_of_ok; [done|]. by apply (shape_lbn_ok fs fs2 Sh). }
    rewrite E0 in *. destruct (decide (j = len ls)) as [->|Hne].
    - rewrite Hhere in *. split; [done|]. intros _. rewrite E2 by done. rewrite <- (shape_eblk fs fs2 Sh). by apply eblk_upd_eq.
    - destruct (fill_block fs img inode (len ls) G F Hll fs1 img1 phys Gr fs2 img2 inode2 Mp j Hlj Hne) as [E3 E4].
      rewrite E3 in *. split; [done|]. intros Hjz. rewrite E2 by done.
      destruct (bmap_owned fs img inode j G F Hlj Hjz) as [_ [Hrj _] _].
      rewrite <- (shape_eblk fs fs2 Sh). unfold img3. rewrite eblk_upd_ne; [|done|done|done|lia|].
      + rewrite (shape_eblk fs fs2 Sh). by apply E4.
      + intros E. apply Hne. apply (data_inj fs2 G2 img2 inode2); [done|by apply (shape_lbn_ok fs fs2 Sh)..| |]; rewrite (shape_bmap_of fs fs2 Sh), E3; congruence. }
  assert (Hla : len (ls ++ [l']) = len ls + 1) by (unfold len; rewrite length_app; cbn [length]; lia).
  constructor; try done.
  - constructor; rewrite ?Ed, ?Hla; try done.
    + by apply (shape_valid_ino fs fs2 Sh), (do_ino D).
    + rewrite Hm3. pose proof (do_mode D) as Hm. fold inode in Hm. rewrite <- Hm. f_equal. unfold i_mode, field16. f_equal.
      apply (slice_head _ _ _ 28); [lia|]. apply (ev_head Ev).
    + rewrite Hs3, (ss_bs _ _ Sh). assert (Es : i_size inode2 = i_size inode).
      { unfold i_size, field32. assert (Ex : forall q : list Z, slice q 4 4 = slice (slice q 0 28) 4 4) by (intros q; rewrite slice_slice by lia; done).
        by rewrite (Ex inode2), (Ex inode), (ev_head Ev). }
      rewrite Es. pose proof (do_size D) as Hsz. fold inode in Hsz. rewrite Hsz, u32_id by (unfold len in *; nia). lia.
    + rewrite (ss_bs _ _ Sh). lia.
    + intros j Hj. destruct (Hbm j ltac:(apply dir_lbn; lia)) as [-> _]. destruct (decide (j = len ls)); [done|]. apply (do_block D). lia.
    + intros j lj Hj El. assert (Hjl : j < len ls + 1). { apply lookup_lt_Some in El. rewrite <- Hla. unfold len. lia. }
      destruct (Hbm j ltac:(apply dir_lbn; lia)) as [E1 E2].
      assert (Hz : bmap_of fs2 img4 inode3 j <> 0). { rewrite E1. destruct (decide (j = len ls)); [done|]. apply (do_block D). lia. }
      rewrite (E2 Hz). destruct (decide (j = len ls)) as [->|Hne].
      * rewrite lookup_app_r in El by (unfold len; lia). replace (Z.to_nat (len ls) - length ls)%nat with 0%nat in El by (unfold len; lia).
        by injection El as <-.
      * rewrite lookup_app_l in El by (unfold len in *; lia). by apply (do_entries D).
    + intros j Hj Hlj. apply (shape_lbn_ok fs fs2 Sh) in Hlj. destruct (Hbm j Hlj) as [-> _]. rewrite decide_False by lia. apply (do_hole D); [lia|done].
  - intros j Hj Hne. rewrite Hd3 by done. by rewrite decide_False.
Qed.
End Changes.

Section DirIo.
Context {W : Type} `{OK : FsWorldOk W} {RL : Reliable W True}.
Context (d : Z).
Implicit Types (fs : ext2_fs) (img inode : list Z).

Abbreviation T img m Q := (triple d 512 img m Q (fun _ _ => False)).

Lemma dir_block_range fs img dir ls k : geo fs -> dir_ok fs img dir ls -> 0 <= k < len ls ->
  in_range fs img (bmap_of fs img (disk_inode fs img dir) k).
Proof.
  intros G D Hk. apply (bmap_owned fs img _ k G (do_tree D)); [apply (dir_lbn fs img dir ls G D); lia|by apply (do_block D)].
Qed.

Lemma lookup_loop_ok fs img dir ls name (G : geo fs) (D : dir_ok fs img dir ls) (Hname : name_ok name) : block_dev fs = d ->
  forall n k blk, 0 <= k <= len ls -> len ls - k < Z.of_nat n -> len blk = block_size fs ->
  T img (lookup_loop n fs (disk_inode fs img dir) (i_size (disk_inode fs img dir)) k (k * block_size fs) name blk)
    (fun i r => i = img /\ r = find_name name (concat (drop (Z.to_nat k) ls))).
Proof.
  intros Hd. pose proof (bs_pos fs G) as Hbs. pose proof (do_max D) as Hmax. rewrite (do_size D).
  induction n as [|n IH]; intros k blk Hk Hn Hb; [lia|]. cbn [lookup_loop].
  destruct (Z.ltb_spec (k * block_size fs) (len ls * block_size fs)) as [Hlt|Hge].
  2: { apply t_ok. split; [done|]. rewrite drop_ge; [done|]. unfold len in *. nia. }
  assert (Hkl : k < len ls) by nia. destruct (lookup_lt_is_Some_2 ls (Z.to_nat k)) as [l El]; [unfold len in *; lia|].
  rewrite (drop_S ls l (Z.to_nat k) El). cbn [concat]. rewrite find_name_app.
  eapply t_bind; [apply bmap_ok; [done|done|by apply (file_inode_ok fs img), (do_tree D)|apply (dir_lbn fs img dir ls G D); lia]|].
  intros i phys [-> ->]. rewrite (proj2 (Z.eqb_neq _ 0)) by (apply (do_block D); lia).
  pose proof (dir_block_range fs img dir ls k G D ltac:(lia)) as Hr. pose proof (len_eblk fs G img _ Hr) as Hl.
  eapply t_bind_ok; [by apply t_read_block|]. intros i b [-> ->].
  assert (Ec : chunk_of fs (k * block_size fs) (len ls * block_size fs) = block_size fs).
  { unfold chunk_of. rewrite u32_id by nia. rewrite (proj2 (Z.ltb_ge _ _)) by nia. done. }
  rewrite Ec. pose proof (do_entries D k l ltac:(lia) El) as Hrec.
  eapply t_bind_lift.
  { rewrite <- Hl at 2. apply (lookup_block_ok _ name Hname); [lia|exact Hrec|lia|lia]. }
  destruct (Z.eqb_spec (find_name name l) 0) as [Ez|Hnz]; cbn [negb]; [|by apply t_ok].
  rewrite (u32_id (k + 1)) by nia. rewrite u32_id by nia. replace (k * block_size fs + block_size fs) with ((k + 1) * block_size fs) by lia.
  replace (S (Z.to_nat k)) with (Z.to_nat (k + 1)) by lia. apply IH; [lia|lia|done].
Qed.

(** The search of a directory. *)
Lemma dir_lookup_ok fs img dir ls name :
  geo fs -> block_dev fs = d -> meta_ok fs img -> dir_ok fs img dir ls -> name_ok name ->
  T img (ext2_dir_lookup fs dir name) (fun i r => i = img /\ r = find_name name (concat ls)).
Proof.
  intros G Hd M D Hname. pose proof (bs_pos fs G) as Hbs. unfold ext2_dir_lookup.
  eapply t_bind_ok; [apply read_inode_ok; [done|done|done|apply (do_ino D)]|]. intros i inode [-> ->].
  rewrite (do_mode D). cbn [negb]. apply t_or_return, t_buffer; [done|]. intros buf Hb _.
  pose proof (lookup_loop_ok fs img dir ls name G D Hname Hd (dir_fuel fs (i_size (disk_inode fs img dir))) 0 buf) as HL.
  rewrite Z.mul_0_l in HL. apply HL; [unfold len; lia| |done].
  unfold dir_fuel. rewrite (do_size D), Z.div_mul by lia. unfold len. lia.
Qed.

(** ** Adding an entry *)

(** The entry is in one of the blocks, or in a new one. *)
Definition dir_inserted (e : Z * list Z) (ls ls' : list entries) : Prop :=
  (exists k l l', ls !! k = Some l /\ inserted e l l' /\ ls' = <[k := l']> ls) \/ ls' = ls ++ [[e]].

Lemma find_inserted_concat name name' ino ls ls' :
  dir_inserted (ino, name) ls ls' -> ino <> 0 -> find_name name (concat ls) = 0 ->
  find_name name' (concat ls') = if bool_decide (name' = name) then ino else find_name name' (concat ls).
Proof.
  intros [(k & l & l' & El & Hins & ->)| ->] Hz Hf.
  - rewrite <- (take_drop_middle ls k l El) in Hf |- *. rewrite insert_app_r_alt by (rewrite length_take; lia).
    assert (Hk : (length (take k ls) = k)%nat) by (rewrite length_take; apply lookup_lt_Some in El; lia).
    rewrite Hk, Nat.sub_diag. cbn [insert list_insert]. rewrite !concat_app in *. cbn [concat] in *. rewrite !find_name_app in *.
    destruct (Z.eqb_spec (find_name name (concat (take k ls))) 0) as [E1|]; [|done].
    assert (Hfl : find_name name l = 0) by (destruct (Z.eqb_spec (find_name name l) 0); [done|congruence]).
    pose proof (find_inserted name name' ino l l' Hins Hz Hfl) as E2. rewrite Hfl, Z.eqb_refl in Hf.
    destruct (decide (name' = name)) as [->|Hne].
    + rewrite bool_decide_true in * by done. by rewrite E1, Z.eqb_refl, E2, (proj2 (Z.eqb_neq ino 0)).
    + rewrite bool_decide_false in * by done. by rewrite E2.
  - rewrite concat_app, find_name_app. cbn [concat find_name app]. rewrite (proj2 (Z.eqb_neq ino 0)) by done. cbn [negb andb].
    destruct (decide (name' = name)) as [->|Hne].
    + by rewrite Hf, Z.eqb_refl, bool_decide_true.
    + rewrite !bool_decide_false by congruence. by destruct (Z.eqb_spec (find_name name' (concat ls)) 0) as [->|].
Qed.

Lemma store_dir_ok fs img dir inode phys blk :
  geo fs -> block_dev fs = d -> meta_ok fs img -> valid_ino fs dir -> inode_ok inode ->
  owned fs img phys -> len blk = block_size fs -> Forall byte_ok blk ->
  T img (store_dir fs dir inode phys blk) (fun img' _ => img' = put_inode fs (upd fs img phys blk) dir inode).
Proof.
  intros G Hd M Hv Hi Ho Hl Hb. unfold store_dir. pose proof (not_bitmap_owned _ _ _ Ho) as Hnb.
  eapply t_bind_ok; [apply t_write_block; [done|done|apply (ow_range Ho)|done|done]|]. intros img1 _ ->.
  eapply t_bind_ok; [apply write_inode_ok; [done|done| |done|done]|].
  - destruct M as [M1 M2 M3 M4 M5 M6 M7]. constructor; try done; intros c Hc; apply owned_upd; auto; apply (ow_range Ho).
  - intros img2 _ ->. by apply t_ok.
Qed.

(** A new block with one record in it. *)
Lemma new_block_ok fs ino name t :
  geo fs -> 0 < ino < 2 ^ 32 -> name_ok name -> byte_ok t ->
  exists b1 b2, put16 (replicate (Z.to_nat (block_size fs)) 0) 4 (u16 (block_size fs)) = Ret b1 /\
    fill_dirent b1 0 ino name t = Ret b2 /\ len b2 = block_size fs /\ Forall byte_ok b2 /\ records b2 0 [(ino, name)].
Proof.
  intros G Hino Hname Ht. pose proof (bs_pos fs G) as Hbs. rewrite u16_id by lia. set (z := replicate _ 0).
  assert (Lz : len z = block_size fs) by (unfold len, z; rewrite length_replicate; lia).
  assert (Bz : Forall byte_ok z) by (apply Forall_replicate; unfold byte_ok; lia).
  set (b1 := splice z 4 (le_bytes 2 (block_size fs))). assert (L1 : len b1 = block_size fs) by (unfold b1; rewrite len_splice; size).
  assert (B1 : Forall byte_ok b1) by (apply splice_Forall; [done|apply le_bytes_ok]).
  assert (E1 : r_len b1 0 = block_size fs) by (apply set_field16_eq; [lia|lia|change (2 ^ 16) with 65536; lia]).
  pose proof (entry_len_bounds (len name) ltac:(destruct Hname; lia)) as He. destruct Hname as [Hc Hl].
  destruct (fill_record name ino t (conj Hc Hl) Hino Ht b1 0 (block_size fs)) as (b2 & E2 & L2 & B2 & R2 & El2 & Ei2 & En2 & _);
    [done|lia|done|lia|lia|].
  exists b1, b2. split_and!; [apply put16_ok; lia|done|lia|done|]. rewrite <- Ei2, <- En2. constructor; [done|].
  rewrite El2, <- L1, <- L2. constructor.
Qed.

Definition add_result fs img (dir : Z) ls (e : Z * list Z) img' (x : ext2_fs * rc unit) : Prop :=
  match x.2 with
  | Ok _ => (exists ls', dir_changed fs img dir ls' x.1 img' /\ dir_inserted e ls ls') \/
            (EXT2_NDIR_BLOCKS <= len ls /\ forall c, covered fs c -> used fs img' c)
  | Err e => e = - ENOSPC /\ x.1 = fs /\ img' = img /\ forall c, covered fs c -> used fs img c
  end.

(** Storing a block and the inode changes no bitmap. *)
Lemma put_inode_used fs img dir inode phys blk c :
  geo fs -> meta_ok fs img -> valid_ino fs dir -> inode_ok inode -> owned fs img phys -> len blk = block_size fs ->
  used fs img c -> used fs (put_inode fs (upd fs img phys blk) dir inode) c.
Proof.
  intros G M Hv Hi Ho Hl Hu. assert (Ht : table_block fs (iblk fs dir)) by by exists dir. pose proof (mo_inode M _ Ht) as Hot.
  assert (Hr : in_range fs (upd fs img phys blk) (iblk fs dir)) by (apply in_range_upd; [done|apply (ow_range Ho)|done|apply (ow_range Hot)]).
  unfold put_inode. apply used_upd; [done|done|by apply put_inode_len|by apply (not_bitmap_owned fs img)|].
  apply used_upd; [done|apply (ow_range Ho)|done|by apply (not_bitmap_owned fs img)|done].
Qed.

Section AddEntry.
Context (fs : ext2_fs) (img : list Z) (dir ino t : Z) (name : list Z) (ls : list entries).
Context (G : geo fs) (Hd : block_dev fs = d) (L : lay fs img) (M : meta_ok fs img) (D : dir_ok fs img dir ls).
Context (Hname : name_ok name) (Hino : 0 < ino < 2 ^ 32) (Ht : byte_ok t) (Hmax : (len ls + 2) * block_size fs < 2 ^ 32).

(** The state after the new block has been put into the map, or after the map
    could not be extended. *)
Lemma mapped_state fs1 img1 phys (Gr : grew fs img fs1 img1 0 phys) img2 fs2 (r : rc (list Z)) :
  map_result fs1 img1 (disk_inode fs img dir) (len ls) phys img2 (fs2, r) ->
  exists inode2, inode2 = (match r with Ok i => i | Err _ => disk_inode fs img dir end) /\ inode_ok inode2 /\
    same_shape fs fs2 /\ geo fs2 /\ meta_ok fs2 img2 /\ owned fs2 img2 phys /\
    (map_post fs1 img1 (disk_inode fs img dir) (path_of fs (len ls)) phys fs2 img2 inode2 \/
     (EXT2_NDIR_BLOCKS <= len ls /\ forall c, covered fs c -> used fs img2 c)).
Proof.
  set (inode := disk_inode fs img dir). pose proof (do_tree D) as F. fold inode in F. pose proof (gr_shape Gr) as Sh.
  pose proof (dir_lbn fs img dir ls G D (len ls) ltac:(unfold len; lia)) as Hll.
  destruct (fill_first fs img inode G F fs1 img1 phys Gr) as (Ev & Hv & _).
  unfold map_result. cbn [fst snd]. destruct r as [inode2|e].
  - rewrite (shape_path_of fs fs1 Sh). intros Hm.
    pose proof (fill_evolved fs img inode (len ls) G F ltac:(apply (do_hole D); [lia|done]) fs1 img1 phys Gr fs2 img2 inode2 Hm) as Ev2.
    pose proof (ev_shape Ev2) as Sh2. exists inode2. split_and!; [done|by apply (file_inode_ok fs img2), (ev_file Ev2)|done|apply (ev_geo Ev2)| | |by left].
    + by apply (meta_evolved fs fs2 G Sh2 _ _ _ _ M Ev2).
    + assert (Hhere : val fs img2 inode2 (path_of fs (len ls)) = phys) by apply (mp_here (map_post_shape fs fs1 G Sh _ _ _ _ _ _ _ Hm)).
      apply (shape_owned fs fs2 G Sh2). rewrite <- Hhere. apply (ft_own (ev_file Ev2)); [by apply path_of_ok|rewrite Hhere; apply (gr_nonzero Gr)].
  - intros (_ & P & Hlbn).
    assert (F1 : file_tree fs1 img1 inode) by by apply (shape_file_tree fs fs1 G Sh), (ev_file Ev).
    destruct (quiet_file fs1 img1 inode fs2 img2) as (Ev2 & _); [apply (gr_geo Gr)|done|by destruct P..|].
    pose proof (evolved_trans _ _ _ _ _ _ _ _ _ G Ev (evolved_shape _ _ _ _ _ _ _ G Sh Ev2)) as Ev3. pose proof (ev_shape Ev3) as Sh2.
    exists inode. split_and!; [done|by apply (file_inode_ok fs img)|done|apply (ev_geo Ev3)| | |right; split; [done|]].
    + by apply (meta_evolved fs fs2 G Sh2 _ _ _ _ M Ev3).
    + destruct (gr_own Gr) as [H1 H2 H3]. apply (shape_owned fs fs2 G Sh2). constructor; [| |done].
      * apply (shape_used fs fs1 G Sh), (fp_mono P). by apply (shape_used fs fs1 G Sh).
      * eapply in_range_len; [apply (fp_len P)|done].
    + intros c Hcc. apply (shape_used fs fs1 G Sh), (fp_full P). by apply (shape_covered fs fs1 Sh).
Qed.

(** The last block is new. *)
Lemma add_dir_block_ok : T img (add_dir_block fs dir (disk_inode fs img dir) (len ls) ino name t) (add_result fs img dir ls (ino, name)).
Proof.
  pose proof (do_tree D) as F. set (inode := disk_inode fs img dir) in *. unfold add_dir_block.
  pose proof (dir_lbn fs img dir ls G D (len ls) ltac:(unfold len; lia)) as Hll.
  eapply t_bind; [by apply ext2_alloc_block_ok|].
  intros img1 [fs1 phys] [(-> & -> & -> & Hfull)|(Hz & Hc & _ & Hnu & Hr & Mv & _)].
  { apply t_ok. unfold add_result. cbn [fst snd]. split_and!; [done..|]. intros c Hc. by apply Hfull. }
  rewrite (proj2 (Z.eqb_neq _ _)) by done. pose proof (moved_grew fs img fs1 img1 phys G L Hc Hnu Hr Hz Mv) as Gr. pose proof (gr_shape Gr) as Sh.
  destruct (fill_first fs img inode G F fs1 img1 phys Gr) as (Ev & Hv & _).
  destruct (new_block_ok fs1 ino name t (gr_geo Gr) Hino Hname Ht) as (b1 & b2 & E1 & E2 & L2 & B2 & Rb).
  rewrite (ss_bs _ _ Sh) in E1, L2. rewrite (ss_bs _ _ Sh).
  eapply t_bind_lift; [exact E1|]. eapply t_bind_lift; [exact E2|]. unfold grow_dir.
  eapply t_bind; [eapply t_bind; [apply bmap_set_ok|]|].
  - apply (gr_geo Gr).
  - apply (gr_lay Gr).
  - by rewrite (ss_dev _ _ Sh).
  - by apply (shape_file_tree fs fs1 G Sh), (ev_file Ev).
  - by apply (shape_lbn_ok fs fs1 Sh).
  - apply (shape_owned fs fs1 G Sh), (gr_own Gr).
  - done.
  - intros p Hp E. apply (shape_pvalid fs fs1 Sh) in Hp. rewrite (shape_val fs fs1 Sh), Hv in E by done.
    apply Hnu. rewrite <- E. apply (ft_own F); [done|congruence].
  - intros img2 [fs2 r] Hm. apply t_ok.
    instantiate (1 := fun img2 x => exists r, map_result fs1 img1 inode (len ls) phys img2 (x.1, r) /\
      x.2 = grown_dir (block_size x.1) (sectors_per_block x.1) (match r with Ok i => i | Err _ => inode end)).
    by exists r.
  - intros img2 [fs2 inode3] (r & Hm & E3). cbn [fst snd] in Hm, E3. unfold map_result in Hm. cbn [fst snd] in Hm.
    destruct (mapped_state fs1 img1 phys Gr img2 fs2 r Hm) as (inode2 & Eq2 & Hi2 & Sh2 & G2 & M2 & Ho2 & Hcase). fold inode in Eq2. rewrite <- Eq2 in E3. subst inode3.
    destruct (grown_dir_ok (block_size fs2) (sectors_per_block fs2) inode2 Hi2) as (Hi3 & _).
    eapply t_bind; [apply store_dir_ok; [done|by rewrite (ss_dev _ _ Sh2)|done|by apply (shape_valid_ino fs fs2 Sh2), (do_ino D)|done|done|by rewrite (ss_bs _ _ Sh2)|done]|].
    intros img3 _ ->. apply t_ok. unfold add_result. cbn [fst snd]. destruct Hcase as [Mp|[Hlbn Hfull]]; [left|right].
    + exists (ls ++ [[(ino, name)]]). split; [|by right]. by eapply grown_changed.
    + split; [done|]. intros c Hcc. apply (shape_used fs fs2 G Sh2), put_inode_used; try done.
      * by apply (shape_valid_ino fs fs2 Sh2), (do_ino D).
      * by rewrite (ss_bs _ _ Sh2).
      * apply (shape_used fs fs2 G Sh2). by apply Hfull.
Qed.

(** A block with room. *)
Lemma add_room_ok k l blk' l' :
  0 <= k < len ls -> ls !! Z.to_nat k = Some l -> len blk' = block_size fs -> Forall byte_ok blk' -> records blk' 0 l' ->
  inserted (ino, name) l l' ->
  T img (bind (store_dir fs dir (disk_inode fs img dir) (bmap_of fs img (disk_inode fs img dir) k) blk') (fun _ => ok (fs, Ok tt)))
    (add_result fs img dir ls (ino, name)).
Proof.
  intros Hk El Hl Hb Hrec Hins. pose proof (do_tree D) as F. pose proof (file_inode_ok _ _ _ F) as Hi.
  pose proof (bmap_owned fs img _ k G F ltac:(apply (dir_lbn fs img dir ls G D); lia) (do_block D k Hk)) as Ho.
  eapply t_bind; [apply store_dir_ok; try done; apply (do_ino D)|]. intros img' _ ->. apply t_ok. left.
  eexists. split; [by apply room_changed|]. left. by exists (Z.to_nat k), l, l'.
Qed.

Lemma add_entry_loop_ok : forall n k blk, 0 <= k <= len ls -> len ls - k < Z.of_nat n -> len blk = block_size fs ->
  T img (add_entry_loop n fs dir (disk_inode fs img dir) (i_size (disk_inode fs img dir)) k (k * block_size fs)
           (entry_len (len name)) ino name t blk) (add_result fs img dir ls (ino, name)).
Proof.
  pose proof (bs_pos fs G) as Hbs. pose proof (do_tree D) as F. rewrite (do_size D).
  induction n as [|n IH]; intros k blk Hk Hn Hb; [lia|]. cbn [add_entry_loop].
  destruct (Z.ltb_spec (k * block_size fs) (len ls * block_size fs)) as [Hlt|Hge].
  2: { replace k with (len ls) by nia. apply add_dir_block_ok. }
  assert (Hkl : 0 <= k < len ls) by nia. destruct (lookup_lt_is_Some_2 ls (Z.to_nat k)) as [l El]; [unfold len in *; lia|].
  pose proof (dir_block_range fs img dir ls k G D Hkl) as Hr. pose proof (len_eblk fs G img _ Hr) as Hl.
  set (b := bmap_of fs img (disk_inode fs img dir) k) in *. apply t_bytes. intros Him.
  eapply (t_bind _ _ _ _ _ (fun i x => i = img /\ x = (fs, Ok (b, false, eblk fs img b)))).
  { unfold dir_block. eapply t_bind; [apply bmap_ok; [done|done|by apply (file_inode_ok fs img)|apply (dir_lbn fs img dir ls G D); lia]|].
    intros i phys [-> ->]. fold b. rewrite (proj2 (Z.eqb_neq b 0)) by (by apply (do_block D)).
    eapply t_bind_ok; [by apply t_read_block|]. intros i x [-> ->]. by apply t_ok. }
  intros i x [-> ->]. cbn beta iota.
  pose proof (add_in_block_ok (eblk fs img b) name ino t (eblk_bytes fs img b Him) Hname Hino Ht fs Hl ltac:(lia)
    (S (Z.to_nat (block_size fs))) 0 l (do_entries D k l ltac:(lia) El) ltac:(lia) ltac:(lia)) as Hadd.
  destruct (add_in_block _ _ _ _ _ _ _ _) as [r| |] eqn:Ea; try done. cbn [runs_to] in Hadd.
  eapply t_bind_lift; [done|]. destruct r as [blk'|].
  - destruct Hadd as (Lb & Bb & _ & l' & Hrec & Hins). eapply (t_bind _ _ _ _ _ (fun i x => i = img /\ x = (fs, disk_inode fs img dir))); [by apply t_ok|].
    intros i x [-> ->]. apply (add_room_ok k l blk' l'); (done || lia).
  - rewrite (u32_id (k + 1)) by nia. rewrite u32_id by nia. replace (k * block_size fs + block_size fs) with ((k + 1) * block_size fs) by lia.
    apply IH; [lia|lia|done].
Qed.

Lemma dir_add_entry_ok : T img (ext2_dir_add_entry fs dir ino name t) (add_result fs img dir ls (ino, name)).
Proof.
  pose proof (bs_pos fs G) as Hbs. unfold ext2_dir_add_entry.
  eapply t_bind_ok; [apply read_inode_ok; [done|done|done|apply (do_ino D)]|]. intros i inode [-> ->].
  rewrite (do_mode D). cbn [negb]. unfold with_table. eapply t_bind_ok.
  - apply t_buffer; [done|]. intros buf Hb _.
    pose proof (add_entry_loop_ok (dir_fuel fs (i_size (disk_inode fs img dir))) 0 buf) as HL. rewrite Z.mul_0_l in HL.
    apply HL; [unfold len; lia| |done]. unfold dir_fuel. rewrite (do_size D), Z.div_mul by lia. unfold len. lia.
  - intros i x Hx. by apply t_ok.
Qed.
End AddEntry.
End DirIo.
