(* ===== verification/Ext2Demo.v ===== *)
(** * The ext2 driver: a small volume

    Sixteen blocks of 1024 bytes on a RAM disk: superblock, one group
    descriptor, the two bitmaps, a table of eight inodes, the root directory in
    block 6 and the file of inode 3, of five bytes in block 7. *)

From S2P Require Import Prelude Bytes Vfs BlockDev IoLogic FsBitmap Kstd Ext2 Ext2Proofs Ext2Alloc Ext2Map Ext2File Ext2Data Ext2Write Ext2Meta Ext2Vfs Ext2Dir Ext2DirOps.

Definition blank (n : Z) : list Z := replicate (Z.to_nat n) 0.

Definition fields32 (s : list Z) (l : list (Z * Z)) : list Z := foldl (fun s '(off, v) => set_field32 s off v) s l.

Definition demo_sb : list Z :=
  set_field16 (fields32 (blank 1024) [(4, 16); (12, 8); (16, 5); (20, 1); (32, 16); (40, 8)]) 56 EXT2_MAGIC.

Definition demo_bgdt : list Z := set_field16 (set_field16 (fields32 (blank 32) [(0, 3); (4, 4); (8, 5)]) 12 8) 14 5.

Definition dir_inode : list Z := set_i_block (set_i_blocks (set_i_size (set_field16 (blank 128) 0 16877) 1024) 2) 0 6.
Definition file_inode : list Z := set_i_block (set_i_blocks (set_i_size new_file_inode 5) 2) 0 7.

(** An entry of a directory that reaches over [n] bytes. *)
Definition demo_entry (ino n t : Z) (name : list Z) : list Z :=
  let e := le_bytes 4 ino ++ le_bytes 2 n ++ [len name; t] ++ name in
  e ++ blank (n - len e).

Definition dir_data : list Z := demo_entry 2 12 2 [46] ++ demo_entry 2 12 2 [46; 46] ++ demo_entry 3 1000 1 [97].

Definition demo_img : list Z :=
  blank 1024 ++ demo_sb ++ (demo_bgdt ++ blank 992) ++ ([127; 128] ++ blank 1022) ++ ([7] ++ blank 1023) ++
  (blank 128 ++ dir_inode ++ file_inode ++ blank 640) ++ dir_data ++ ([104; 101; 108; 108; 111] ++ blank 1019) ++ blank 8192.

Definition demo_fs : ext2_fs := mkext2 0 demo_sb 1024 2 8 16 1 128 11 demo_bgdt 77 false.
Definition demo_fh : ext2_file_handle := mkhandle2 3 file_inode 5.
Definition demo_w : ram_world := mkram [mkbdev [100] 512 32 1 0 true] demo_img 100.

(** ** The volume is well-formed *)

Lemma demo_geo : geo demo_fs.
Proof.
  constructor; try (vm_compute; intuition congruence).
  - eapply Forall_impl; [|exact (fun x H => H)]. apply (bool_decide_unpack _). vm_compute. exact I.
  - eapply Forall_impl; [|exact (fun x H => H)]. apply (bool_decide_unpack _). vm_compute. exact I.
Qed.

Lemma demo_used b : 1 <= b <= 7 \/ b = 16 -> used demo_fs demo_img b.
Proof.
  intros Hb. assert (Hin : In b [1; 2; 3; 4; 5; 6; 7; 16]) by (cbn [In]; lia).
  repeat (destruct Hin as [<-|Hin]; [split; [vm_compute; intuition congruence|vm_compute; reflexivity]|]). destruct Hin.
Qed.

Lemma demo_lay : lay demo_fs demo_img.
Proof.
  assert (Hg : forall g, 0 <= g < num_groups demo_fs -> g = 0) by (intros g; change (num_groups demo_fs) with 1; lia).
  assert (E0 : bbm demo_fs 0 = 3) by (vm_compute; reflexivity).
  constructor.
  - intros g H%Hg. subst g. rewrite E0. split; [vm_compute; intuition congruence|apply demo_used; lia].
  - intros g g' H%Hg H'%Hg _. congruence.
  - intros b [H1 H2] Hnu. change (first_block demo_fs) with (field32 demo_sb 20) in *.
    assert (Ef : field32 demo_sb 20 = 1) by (vm_compute; reflexivity). rewrite Ef in *.
    change (num_groups demo_fs * blocks_per_group demo_fs) with 16 in H2.
    destruct (decide (b = 16)) as [->|]; [by destruct Hnu; apply demo_used; lia|].
    split; [|lia]. unfold in_range. change (block_size demo_fs) with 1024.
    assert (El : len demo_img = 16384) by (vm_compute; reflexivity). rewrite El. lia.
  - intros g H%Hg. subst g. vm_compute. reflexivity.
  - vm_compute. reflexivity.
Qed.

Lemma demo_owned c : In c [1; 2; 5; 6; 7] -> owned demo_fs demo_img c.
Proof.
  intros Hin. assert (Hc : 1 <= c <= 7 /\ c <> 3) by (cbn [In] in Hin; lia).
  assert (El : len demo_img = 16384) by (vm_compute; reflexivity).
  constructor; [apply demo_used; lia| |].
  - unfold in_range. change (block_size demo_fs) with 1024. rewrite El. lia.
  - intros g. change (num_groups demo_fs) with 1. intros Hg. replace g with 0 by lia.
    assert (E0 : bbm demo_fs 0 = 3) by (vm_compute; reflexivity). lia.
Qed.

Lemma demo_iblk ino : valid_ino demo_fs ino -> iblk demo_fs ino = 5.
Proof.
  unfold valid_ino. change (num_groups demo_fs * inodes_per_group demo_fs) with 8. intros Hv.
  assert (Hin : In ino [1; 2; 3; 4; 5; 6; 7; 8]) by (cbn [In]; lia).
  repeat (destruct Hin as [<-|Hin]; [vm_compute; reflexivity|]). destruct Hin.
Qed.

Lemma demo_sys c : sys_block demo_fs c -> c = 1 \/ c = 2.
Proof.
  unfold sys_block. change (sb_block demo_fs) with 1. change (bgdt_block demo_fs) with 2. change (bgdt_blocks demo_fs) with 1. lia.
Qed.

Lemma demo_meta : meta_ok demo_fs demo_img.
Proof.
  constructor; try (vm_compute; intuition congruence).
  - intros c [->| ->]%demo_sys; apply demo_owned; cbn [In]; lia.
  - intros c (i & Hi & ->). rewrite demo_iblk by done. apply demo_owned. cbn [In]. lia.
  - intros c Hs%demo_sys (i & Hi & ->). rewrite demo_iblk in Hs by done. lia.
  - intros i j. unfold valid_ino. change (inodes_per_group demo_fs) with 8. change (num_groups demo_fs * 8) with 8. intros Hi Hj _.
    rewrite !Z.div_small by lia. done.
Qed.

(** An inode with one direct block. *)
Lemma demo_val inode b p :
  i_block inode 0 = b -> (forall r, 1 <= r < 15 -> i_block inode r = 0) ->
  pvalid demo_fs p -> val demo_fs demo_img inode p <> 0 -> p = (0, []) /\ val demo_fs demo_img inode p = b.
Proof.
  intros E0 Ez. destruct p as [r l]. intros [Hr [Hl _]]. cbn [fst snd] in *. unfold val. cbn [fst snd].
  destruct (decide (r = 0)) as [->|Hne].
  - destruct l; [|cbn in Hl; lia]. cbn [walk foldl]. by rewrite E0.
  - by rewrite Ez, walk_zero by lia.
Qed.

Lemma demo_tree inode b :
  inode_ok inode -> i_block inode 0 = b -> (forall r, 1 <= r < 15 -> i_block inode r = 0) -> b = 6 \/ b = 7 ->
  file_tree demo_fs demo_img inode /\ apart demo_fs demo_img inode.
Proof.
  intros [Hl Hb] E0 Ez Hbb. pose proof (fun p => demo_val inode b p E0 Ez) as Hv. split; [constructor; [done|done|..]|].
  - intros p q Hp Hq E Hz. destruct (Hv p Hp Hz) as [-> _]. destruct (Hv q Hq) as [-> _]; [by rewrite <- E|done].
  - intros p Hp Hz. destruct (Hv p Hp Hz) as [_ ->]. apply demo_owned. cbn [In]. lia.
  - intros p Hp Hz. destruct (Hv p Hp Hz) as [_ ->]. split.
    + intros H%demo_sys. lia.
    + intros (i & Hi & E). rewrite demo_iblk in E by done. lia.
Qed.

Lemma demo_inode inode : inode = file_inode \/ inode = dir_inode -> inode_ok inode /\ forall r, 1 <= r < 15 -> i_block inode r = 0.
Proof.
  intros [->| ->]; (split; [split; [vm_compute; reflexivity|apply (bool_decide_unpack _); vm_compute; exact I]|]); intros r Hr;
    (assert (Hin : In r [1; 2; 3; 4; 5; 6; 7; 8; 9; 10; 11; 12; 13; 14]) by (cbn [In]; lia));
    repeat (destruct Hin as [<-|Hin]; [vm_compute; reflexivity|]); destruct Hin.
Qed.

Lemma demo_file : file_ok demo_fs demo_img demo_fh.
Proof.
  destruct (demo_inode file_inode ltac:(by left)) as [Hi Hz].
  destruct (demo_tree file_inode 7 Hi ltac:(vm_compute; reflexivity) Hz ltac:(by right)) as [F A].
  constructor; [done|done|vm_compute; intuition congruence|vm_compute; reflexivity].
Qed.

(** The entries of the root directory: ".", ".." and "a". *)
Definition demo_entries : list (list (Z * list Z)) := [[(2, [46]); (2, [46; 46]); (3, [97])]].

Lemma rec_step blk off i s l :
  record_at blk off -> r_ino blk off = i -> r_name blk off = s -> records blk (off + r_len blk off) l -> records blk off ((i, s) :: l).
Proof. intros R <- <- H. by constructor. Qed.

Lemma demo_records : records dir_data 0 [(2, [46]); (2, [46; 46]); (3, [97])].
Proof.
  assert (E1 : r_len dir_data 0 = 12) by (vm_compute; reflexivity). assert (E2 : r_len dir_data 12 = 12) by (vm_compute; reflexivity).
  assert (E3 : r_len dir_data 24 = 1000) by (vm_compute; reflexivity). assert (El : len dir_data = 1024) by (vm_compute; reflexivity).
  apply rec_step; [vm_compute; intuition congruence|vm_compute; reflexivity|vm_compute; reflexivity|]. rewrite E1. change (0 + 12) with 12.
  apply rec_step; [vm_compute; intuition congruence|vm_compute; reflexivity|vm_compute; reflexivity|]. rewrite E2.
  change (12 + 12) with 24.
  apply rec_step; [vm_compute; intuition congruence|vm_compute; reflexivity|vm_compute; reflexivity|]. rewrite E3.
  change (24 + 1000) with 1024. rewrite <- El. constructor.
Qed.

Lemma demo_dir : dir_ok demo_fs demo_img 2 demo_entries.
Proof.
  assert (Ed : disk_inode demo_fs demo_img 2 = dir_inode) by (vm_compute; reflexivity).
  destruct (demo_inode dir_inode ltac:(by right)) as [Hi Hz]. assert (E6 : i_block dir_inode 0 = 6) by (vm_compute; reflexivity).
  destruct (demo_tree dir_inode 6 Hi E6 Hz ltac:(by left)) as [F A].
  assert (Eb : bmap_of demo_fs demo_img dir_inode 0 = 6) by (vm_compute; reflexivity).
  constructor; rewrite ?Ed; [vm_compute; intuition congruence|vm_compute; reflexivity|exact F|exact A|vm_compute; reflexivity|vm_compute; reflexivity|..].
  - intros k. change (len demo_entries) with 1. intros Hk. replace k with 0 by lia. by rewrite Eb.
  - intros k l Hk. assert (k = 0 \/ 1 <= k) as [->|Hk1] by lia; [|by rewrite lookup_ge_None_2 by (change (length demo_entries) with 1%nat; lia)].
    intros [= <-]. rewrite Eb. assert (Ee : eblk demo_fs demo_img 6 = dir_data) by (vm_compute; reflexivity). rewrite Ee. apply demo_records.
  - intros k. change (len demo_entries) with 1. intros Hk Hl. destruct (path_of_ok demo_fs demo_geo k Hl) as [Hp _].
    destruct (decide (bmap_of demo_fs demo_img dir_inode k = 0)) as [|Hz0]; [done|exfalso].
    destruct (demo_val dir_inode 6 (path_of demo_fs k) E6 Hz Hp Hz0) as [E _].
    assert (Ek : k = 0); [|lia]. apply (path_of_inj demo_fs demo_geo); [done| |by rewrite E; vm_compute].
    unfold lbn_ok in *. lia.
Qed.
