(* ===== verification/Ext2Theorems.v ===== *)
(** * The ext2 driver: theorems

    The properties of core/fs/ext2.c, for any world that satisfies the interface
    of BlockDev.v and in which device and memory requests succeed, and their
    instances on the volume of Ext2Demo.v. *)

From S2P Require Import Prelude Bytes Vfs BlockDev IoLogic FsBitmap Kstd Ext2 Ext2Proofs Ext2Alloc Ext2Map Ext2File Ext2Data Ext2Write Ext2Meta Ext2Vfs Ext2Dir Ext2DirOps Ext2Demo.

Section Theorems.
Context {W : Type} `{OK : FsWorldOk W} {RL : Reliable W True}.
Context (fs : ext2_fs) (G : geo fs).
Implicit Types (img inode src : list Z) (fh : ext2_file_handle).

Abbreviation T img m Q := (triple (block_dev fs) 512 img m Q (fun _ _ => False)).

(** ** Allocation *)

(** ext2_alloc_block returns the first free block of the volume, now used
    and counted, or 0 when every block is in use; ext2_free_block of that block
    makes the set of used blocks and the counter what they were.  Bitmaps and
    counters agree before and after ([lay]), and no other block changes. *)
Theorem ext2_alloc_free img :
  lay fs img ->
  T img (bind (ext2_alloc_block fs) (fun '(fs1, b) =>
           if b =? 0 then ok (fs1, b, fs1) else bind (ext2_free_block fs1 b) (fun fs2 => ok (fs1, b, fs2))))
    (fun img' '(fs1, b, fs2) =>
       (b = 0 /\ img' = img /\ forall c, covered fs c -> used fs img c) \/
       (b <> 0 /\ covered fs b /\ ~ used fs img b /\ (forall c, covered fs c -> c < b -> used fs img c) /\
        s_free_blocks_count (sb fs1) = s_free_blocks_count (sb fs) - 1 /\
        lay fs2 img' /\ (forall c, used fs img' c <-> used fs img c) /\
        s_free_blocks_count (sb fs2) = s_free_blocks_count (sb fs) /\
        forall c, 0 <= c -> not_bitmap fs c -> eblk fs img' c = eblk fs img c)).
Proof.
  intros L. eapply t_bind; [by apply ext2_alloc_block_ok|].
  intros img1 [fs1 b] [(-> & -> & -> & Hfull)|(Hz & Hc & _ & Hnu & Hr & Mv & Hmin)].
  { apply t_ok. left. split_and!; [done|done|]. intros c Hc. by apply Hfull. }
  rewrite (proj2 (Z.eqb_neq b 0)) by done. pose proof (mv_shape Mv) as Sh.
  pose proof (moved_grew fs img fs1 img1 b G L Hc Hnu Hr Hz Mv) as Gr.
  pose proof (gr_own Gr) as Ho. apply (shape_owned fs fs1 G Sh) in Ho as [Ho1 Ho2 Ho3].
  eapply t_bind; [apply free_block_ok; [apply (mv_geo Mv)|apply (mv_lay Mv)|apply (ss_dev _ _ Sh)|done|done|done|done]|].
  intros img2 fs2 Mv2. apply t_ok. right. split_and!; try done.
  - intros c Hcc Hlt. by apply Hmin.
  - rewrite (mv_total Mv). lia.
  - apply (mv_lay Mv2).
  - assert (Sh2 : same_shape fs fs2) by (etrans; [exact Sh|apply (mv_shape Mv2)]).
    intros c. rewrite <- (shape_used fs fs2 G Sh2), (mv_used Mv2).
    destruct (decide (c = b)) as [->|Hne]; [by split|]. rewrite (mv_used Mv). by rewrite decide_False.
  - rewrite (mv_total Mv2), (mv_total Mv). lia.
  - intros c Hc0 Hn. rewrite <- (shape_eblk fs fs1 Sh), (mv_frame Mv2); [|done|].
    + rewrite (shape_eblk fs fs1 Sh). by apply (gr_frame Gr).
    + rewrite (ss_bbm _ _ Sh), (shape_grp fs fs1 Sh) by (rewrite (shape_grp fs fs1 Sh); apply (covered_parts fs G b Hc)).
      apply Hn. apply (covered_parts fs G b Hc).
Qed.

(** ** The block map *)

(** C7. The direct, indirect, double and triple indirect pointers of an inode
    are a finite map from block numbers of the file to blocks: what ext2_bmap
    returns after ext2_bmap_set is the new block at the number that was set and
    what it returned before at every other; all blocks of the file stay different
    from each other and in use, and blocks of others do not change.  Or the
    volume has no block left for a pointer block; the map is then as before. *)
Theorem ext2_block_map_refines img inode lbn phys lbn' :
  lay fs img -> file_tree fs img inode -> lbn_ok fs lbn -> lbn_ok fs lbn' ->
  owned fs img phys -> phys <> 0 -> (forall p, pvalid fs p -> val fs img inode p <> phys) ->
  T img (bind (ext2_bmap fs inode lbn') (fun before =>
         bind (ext2_bmap_set fs inode lbn phys) (fun '(fs1, r) =>
         bind (ext2_bmap fs1 (match r with Ok inode1 => inode1 | Err _ => inode end) lbn') (fun after => ok (before, r, after)))))
    (fun img' '(before, r, after) =>
       match r with
       | Ok inode1 => after = (if lbn' =? lbn then phys else before) /\ file_tree fs img' inode1
       | Err e => e = - ENOSPC /\ after = before /\ EXT2_NDIR_BLOCKS <= lbn /\ forall c, covered fs c -> used fs img' c
       end /\
       forall c, 0 <= c -> used fs img c -> not_bitmap fs c -> ~ file_block fs img inode c -> eblk fs img' c = eblk fs img c).
Proof.
  intros L F Hl Hl' Ho Hz Hnew. pose proof (file_inode_ok _ _ _ F) as Hi.
  eapply t_bind; [by apply bmap_ok|]. intros i before [-> ->].
  eapply t_bind; [by apply bmap_set_ok|]. intros img1 [fs1 [inode1|e]]; unfold map_result; cbn [fst snd].
  - intros M. pose proof (mp_shape M) as Sh.
    eapply t_bind; [apply bmap_ok; [apply (mp_geo M)|by rewrite (ss_dev _ _ Sh)|by apply (file_inode_ok fs img1), (mp_file M)|by apply (shape_lbn_ok fs fs1 Sh)]|].
    intros i after [-> ->]. apply t_ok. rewrite (shape_bmap_of fs fs1 Sh). split; [split; [|apply (mp_file M)]|].
    + destruct (Z.eqb_spec lbn' lbn) as [->|Hne]; [apply (mp_here M)|]. destruct (path_of_ok fs G lbn' Hl') as [Hp Hfull].
      destruct (mp_val M (path_of fs lbn') Hp) as [E|[[_ Hn] _]]; [intros E; by apply Hne, (path_of_inj fs G)|done|lia].
    + intros c Hc Hu Hn Hnf. apply (mp_frame M); [done..|]. intros p [Hp _] Hpz E. apply Hnf. by exists p.
  - intros (-> & P & Hlbn). pose proof (fp_shape P) as Sh.
    destruct (quiet_file fs img inode fs1 img1) as (Ev & Hv & _); [done|done|by destruct P..|].
    eapply t_bind; [apply bmap_ok; [apply (fp_geo P)|by rewrite (ss_dev _ _ Sh)|done|by apply (shape_lbn_ok fs fs1 Sh)]|].
    intros i after [-> ->]. apply t_ok. rewrite (shape_bmap_of fs fs1 Sh). split; [split_and!; [done| |done|apply (fp_full P)]|].
    + unfold bmap_of. apply Hv. by apply path_of_ok.
    + intros c Hc _ Hn _. by apply (fp_frame P).
Qed.

(** ** Files *)

(** C5. ext2_vfs_write refines a write to an array of bytes.  Either all bytes
    are written: the bytes of the file are the old ones with [src] from [pos] on
    (0 in holes), its size is the larger of the old size and the end of the
    write, the inode of the file on the disk is the one of the handle, the other
    inodes are as before, the superblock and the group descriptors on the disk
    are the ones in memory, the blocks that became used are blocks of the file,
    and every other file has the same blocks and bytes as before.  Or the call
    returns -ENOSPC, every block of the volume is in use, the position is as
    before and a prefix of [src] has been written. *)
Theorem ext2_write_refines img fh pos src :
  lay fs img -> meta_ok fs img -> read_only fs = false -> file_ok fs img fh ->
  0 <= pos -> pos + len src < 2 ^ 32 -> Forall byte_ok src -> src <> [] ->
  T img (ext2_vfs_write fs (Some fh) pos src) (fun img' x =>
    vfs_write_result fs img fh pos src img' x /\
    (x.2 = len src -> forall other,
       file_tree fs img other -> apart fs img other ->
       (forall c, file_block fs img other c -> ~ file_block fs img (fh_inode fh) c) ->
       file_tree fs img' other /\ same_bytes fs img other img' other)).
Proof.
  intros L M Hro F Hp Hmax Hby Hne. eapply t_mono; [by apply ext2_vfs_write_ok| |done].
  intros img' [[[fs' h'] pos'] n] Hres. split; [done|]. cbn [snd]. intros -> other Fo Ao Hsep.
  destruct Hres as (fh' & -> & [(_ & -> & Fw)|(E & _)]).
  - eapply other_file; try done. apply (fo_ino F).
  - unfold len, ENOSPC in E. lia.
Qed.

(** What ext2_vfs_write reports as written is what ext2_vfs_read returns at
    the same position, with the handle that the write leaves and also with one
    that is made from the inode on the disk; a write behind the end of the file
    leaves a hole that reads as zeros.  No write of valid length fails but with
    -ENOSPC. *)
Theorem ext2_write_read_back img fh pos src :
  lay fs img -> meta_ok fs img -> read_only fs = false -> file_ok fs img fh ->
  0 <= pos -> pos + len src < 2 ^ 32 -> Forall byte_ok src -> src <> [] ->
  T img (bind (ext2_vfs_write fs (Some fh) pos src) (fun '(fs', h', _, n) =>
         if n =? len src then
           bind (ext2_vfs_read fs' h' pos (len src)) (fun a =>
           bind (ext2_read_inode fs' (fh_ino fh)) (fun inode =>
           bind (ext2_vfs_read fs' (Some (mkhandle2 (fh_ino fh) inode (i_size inode))) pos (len src)) (fun b => ok (n, a, b))))
         else ok (n, ([], pos), ([], pos))))
    (fun _ '(n, a, b) => (n = len src /\ a = (src, pos + len src) /\ b = a) \/ n = - ENOSPC).
Proof.
  intros L M Hro F Hp Hmax Hby Hne. assert (Hl : 0 < len src) by (destruct src; [done|unfold len; cbn [length]; lia]).
  eapply t_bind; [by apply ext2_vfs_write_ok|]. intros img' [[[fs' h'] pos'] n] (fh' & -> & [(-> & -> & Fw)|(-> & _)]); cycle 1.
  { rewrite (proj2 (Z.eqb_neq _ _)) by (unfold len, ENOSPC; lia). apply t_ok. by right. }
  rewrite Z.eqb_refl. pose proof (fw_shape Fw) as Sh. pose proof (fw_file Fw) as F'. pose proof (fw_size Fw) as Hsz.
  assert (Hd : block_dev fs' = block_dev fs) by apply (ss_dev _ _ Sh).
  assert (Hc : content fs' img' (fh_inode fh') pos (Z.max 0 (Z.min (len src) (fh_file_size fh' - pos))) = src).
  { replace (Z.max 0 _) with (len src) by lia. apply list_eq_len; [rewrite len_file_content; lia|].
    intros i Hi. rewrite len_file_content in Hi by lia. unfold content. change (map ?f ?l) with (f <$> l).
    rewrite list_lookup_fmap, lookup_seqZ_lt by lia. cbn [fmap option_fmap option_map]. rewrite Z2Nat.id by lia.
    rewrite (shape_byte_at fs fs' Sh), (fw_bytes Fw) by lia.
    replace ((pos <=? pos + i) && (pos + i <? pos + len src)) with true.
    2: { symmetry. apply andb_true_iff. rewrite Z.leb_le, Z.ltb_lt. lia. }
    replace (pos + i - pos) with i by lia. destruct (src !! Z.to_nat i) eqn:E; [done|].
    apply lookup_ge_None in E. unfold len in *. lia. }
  assert (Hread : forall img'', img'' = img' -> T img'' (ext2_vfs_read fs' (Some fh') pos (len src)) (fun i r => i = img' /\ r = (src, pos + len src))).
  { intros ? ->. eapply t_mono; [apply ext2_vfs_read_ok; [apply (fw_geo Fw)|done|done|lia|lia]| |done].
    intros i r [-> ->]. rewrite Hc. split; [done|]. f_equal. lia. }
  eapply t_bind; [by apply Hread|]. intros i a [-> ->].
  eapply t_bind; [apply read_inode_ok; [apply (fw_geo Fw)|done|apply (fw_meta Fw)|rewrite <- (fw_ino Fw); apply (fo_ino F')]|].
  intros i inode [-> ->]. rewrite (shape_disk_inode fs fs' G Sh), (fw_inodes Fw), decide_True by (done || apply (fo_ino F)).
  replace (mkhandle2 (fh_ino fh) (fh_inode fh') (i_size (fh_inode fh'))) with fh'.
  2: { rewrite <- (fw_ino Fw), <- (fo_size F'). by destruct fh'. }
  eapply t_bind; [by apply Hread|]. intros i b [-> ->]. apply t_ok. by left.
Qed.

(** ** Inodes *)

(** ext2_read_inode returns what ext2_write_inode has written for that
    inode, and what it returned before for every other; no block but the one of
    the inode table changes. *)
Theorem ext2_inode_roundtrip img ino inode j :
  meta_ok fs img -> valid_ino fs ino -> valid_ino fs j -> inode_ok inode ->
  T img (bind (ext2_read_inode fs j) (fun before =>
         bind (ext2_write_inode fs ino inode) (fun _ =>
         bind (ext2_read_inode fs j) (fun after => ok (before, after)))))
    (fun img' '(before, after) => after = (if j =? ino then inode else before) /\
       forall c, 0 <= c -> c <> iblk fs ino -> eblk fs img' c = eblk fs img c).
Proof.
  intros M Hv Hj Hi. eapply t_bind; [by apply read_inode_ok|]. intros i before [-> ->].
  eapply t_bind; [by apply write_inode_ok|]. intros img1 _ ->.
  assert (Hr : in_range fs img (iblk fs ino)) by (apply (mo_inode M); by exists ino).
  destruct (put_inode_len fs img ino inode G Hr Hi) as [_ Hl].
  assert (Hf : forall c, 0 <= c -> c <> iblk fs ino -> eblk fs (put_inode fs img ino inode) c = eblk fs img c).
  { intros. by apply eblk_upd_ne. }
  assert (M1 : meta_ok fs (put_inode fs img ino inode)).
  { apply (meta_agree fs G img); [by apply len_upd| |done]. intros g Hg. apply Hf; [apply (bbm_range fs G g Hg)|].
    intros E. apply (meta_not_bitmap fs img g M Hg). rewrite E. by exists ino. }
  eapply t_bind; [by apply read_inode_ok|]. intros i after [-> ->]. apply t_ok. split; [|done].
  rewrite put_inode_disk by done. destruct (Z.eqb_spec j ino), (decide (j = ino)); done.
Qed.

(** ** Mounting *)

(** C32. A volume that is unmounted and mounted again is the same file system:
    ext2_unmount leaves the superblock and the group descriptors on the disk and
    no other block changed, and ext2_mount finds geometry, counters and
    descriptors there; only the address of the descriptors differs. *)
Theorem ext2_remount (w : W) p device flags :
  meta_ok fs (image (block_dev fs) w) -> read_only fs = false -> w_block_size (block_dev fs) w = 512 -> of_superblock fs flags ->
  runs_to (ext2_unmount (Some (p, fs)) w) (fun '(w1, r) =>
    r = Ok 0 /\
    (forall c, 0 <= c -> ~ sys_block fs c -> eblk fs (image (block_dev fs) w1) c = eblk fs (image (block_dev fs) w) c) /\
    (w_find device w1 = Some (block_dev fs) ->
     runs_to (ext2_mount device flags w1) (fun '(w2, r2) =>
       image (block_dev fs) w2 = image (block_dev fs) w1 /\ exists p' q, r2 = Ok (p', at_address fs q)))).
Proof.
  intros M Hro Hb Hof.
  pose proof (ext2_unmount_ok (block_dev fs) fs (image (block_dev fs) w) p G eq_refl M Hro w eq_refl Hb) as Hu.
  eapply runs_to_mono; [exact Hu|]. intros [w1 [r|e]] [Hb1 Hq]; [|done]. destruct Hq as (-> & Sy & M1 & Hf).
  split_and!; [done|done|]. intros Hfind. by eapply ext2_mount_ok.
Qed.

(** ** Directories *)

(** C14. A well-formed directory of less than 4 GiB, on a volume with consistent bitmaps
    and a device and an allocator that do not fail, is a finite map from names (of 1 to
    255 characters) to inodes.  ext2_dir_lookup returns the inode of the first entry
    with the name, 0 if there is none, and ends.  ext2_dir_add_entry of a name that was
    not there ends, and if it returns success the next lookup of that name finds the new
    inode and of every other name what it found before, and other inodes and the blocks
    of other files are unchanged; unless the directory had twelve blocks or more and
    every block of the volume is in use now: there the result of ext2_bmap_set is
    ignored and the entry may be lost.  The only error is -ENOSPC, which changes nothing
    and is returned only when every block is in use. *)
Theorem ext2_dir_refines img dir ls ino name t name' :
  lay fs img -> meta_ok fs img -> dir_ok fs img dir ls -> (len ls + 2) * block_size fs < 2 ^ 32 ->
  name_ok name -> name_ok name' -> 0 < ino < 2 ^ 32 -> byte_ok t -> find_name name (concat ls) = 0 ->
  T img (bind (ext2_dir_lookup fs dir name') (fun before =>
         bind (ext2_dir_add_entry fs dir ino name t) (fun '(fs1, r) => ok (before, fs1, r))))
    (fun img' '(before, fs1, r) =>
       before = find_name name' (concat ls) /\
       match r with
       | Ok _ =>
           (T img' (ext2_dir_lookup fs1 dir name') (fun i after => i = img' /\ after = (if bool_decide (name' = name) then ino else before)) /\
            exists ls', dir_changed fs img dir ls' fs1 img' /\ dir_inserted (ino, name) ls ls') \/
           (EXT2_NDIR_BLOCKS <= len ls /\ forall c, covered fs c -> used fs img' c)
       | Err e => e = - ENOSPC /\ fs1 = fs /\ img' = img /\ forall c, covered fs c -> used fs img c
       end).
Proof.
  intros L M D Hsmall Hn Hn' Hino Ht Hnew.
  eapply t_bind; [by eapply dir_lookup_ok|]. intros i before [-> ->].
  eapply t_bind; [by eapply dir_add_entry_ok|]. intros img1 [fs1 [u|e]]; unfold add_result; cbn [fst snd]; intros Hadd; apply t_ok; (split; [done|]).
  - destruct Hadd as [(ls' & C & Hins)|Hbig]; [left|by right]. split; [|by exists ls'].
    rewrite <- (find_inserted_concat name name' ino ls ls') by (done || lia).
    eapply dir_lookup_ok; [apply (dc_geo C)|apply (ss_dev _ _ (dc_shape C))|apply (dc_meta C)|apply (dc_dir C)|done].
  - destruct Hadd as (-> & -> & -> & Hfull). done.
Qed.
End Theorems.

(** ** Where the driver departs from its purpose *)

Section Departures.
Context {W : Type} `{FW : FsWorld W}.

(** An inode without blocks maps every block number to 0. *)
Lemma bmap_empty fs inode lbn (w : W) :
  4 <= block_size fs < 65536 -> (forall r, 0 <= r < 15 -> i_block inode r = 0) -> 0 <= lbn ->
  ext2_bmap fs inode lbn w = Ret (w, Ok 0).
Proof.
  intros Hbs Hz Hl. unfold ext2_bmap, EXT2_NDIR_BLOCKS, EXT2_IND_BLOCK, EXT2_DIND_BLOCK, EXT2_TIND_BLOCK.
  assert (Hp : 1 <= PTRS_PER_BLOCK fs < 16384).
  { unfold PTRS_PER_BLOCK. split; [apply Z.div_le_lower_bound; lia|apply Z.div_lt_upper_bound; lia]. }
  set (p := PTRS_PER_BLOCK fs) in *. rewrite (u32_id (p * p)) by nia.
  assert (Hd : forall x y, y <> 0 -> udiv x y = Ret (x / y) /\ umod x y = Ret (x mod y)) by (intros; by apply divmod_ok).
  destruct (Z.ltb_spec lbn 12); [unfold ok; by rewrite Hz by lia|].
  destruct (_ <? p); [by rewrite Hz by lia|]. rewrite !Hz by lia. unfold bind, lift. destruct (_ <? p * p).
  - destruct (Hd (lbn - 12 - p) p ltac:(lia)) as [-> ->]. done.
  - set (x := lbn - 12 - p - p * p). rewrite (proj1 (Hd x (p * p) ltac:(nia))), (proj1 (Hd x p ltac:(lia))), (proj2 (Hd x p ltac:(lia))).
    cbn [mbind outcome_bind]. by rewrite (proj2 (Hd (x / p) p ltac:(lia))).
Qed.

(** The search of a directory whose size is above 2^32 minus the block size
    never ends when it has no blocks: the 32-bit counter [consumed] wraps to 0
    before it reaches the size.  For every amount of fuel the loop runs out of
    it; ext2_dir_lookup takes the size from the disk without a check. *)
Theorem ext2_lookup_endless fs inode size name blk (w : W) n lbn consumed :
  512 <= block_size fs < 65536 -> (block_size fs | 2 ^ 32) -> (forall r, 0 <= r < 15 -> i_block inode r = 0) ->
  2 ^ 32 - block_size fs < size -> (block_size fs | consumed) -> 0 <= consumed < 2 ^ 32 -> 0 <= lbn ->
  lookup_loop n fs inode size lbn consumed name blk w = OutOfFuel.
Proof.
  intros Hbs [q Hq] Hz Hsize. revert lbn consumed. induction n as [|n IH]; intros lbn consumed [k Hk] Hc Hl; [done|].
  cbn [lookup_loop]. assert (k <= q - 1) by nia. rewrite (proj2 (Z.ltb_lt consumed size)) by nia.
  unfold bind at 1. rewrite bmap_empty; [|lia|exact Hz|lia]. cbn [mbind outcome_bind]. rewrite Z.eqb_refl.
  apply IH; [|apply u32_range|apply u32_range]. unfold u32, wrapu. rewrite Hq, Hk.
  replace (k * block_size fs + block_size fs) with ((k + 1) * block_size fs) by lia.
  rewrite Z.mul_mod_distr_r by nia. by exists ((k + 1) mod q).
Qed.

(** A record length that is not a multiple of four, or that leaves less
    than a header before the end of the block, takes the search past the end of
    its buffer: ext2_dir_lookup, unlike ext2_vfs_readdir, does not look at the
    record lengths it finds. *)
Theorem ext2_lookup_overrun blk name off n :
  name_ok name -> record_at blk off -> r_name blk off <> name -> len blk < 65536 ->
  off + r_len blk off < len blk < off + r_len blk off + 6 ->
  lookup_block (S (S n)) blk off (len blk) name = Fault OutOfBounds.
Proof.
  intros Hn R Hne Hmax Hlast. destruct (record_reads _ _ R) as (El & _). destruct (record_bounds _ _ R) as (H1 & H2 & H3).
  cbn [lookup_block]. rewrite (proj2 (Z.ltb_lt off (len blk))) by lia. rewrite El. cbn [mbind outcome_bind].
  rewrite (proj2 (Z.eqb_neq _ 0)) by lia. rewrite (matches_ok blk off name R Hn). rewrite (bool_decide_false _ Hne). rewrite andb_false_r.
  cbn [mbind outcome_bind]. rewrite u32_id by lia. rewrite (proj2 (Z.ltb_lt _ (len blk))) by lia.
  unfold de_rec_len, get16, mem_read. destruct (_ && _) eqn:E; [|done].
  rewrite !andb_true_iff, !Z.leb_le in E. lia.
Qed.
End Departures.

(** ** Instances on the volume of Ext2Demo.v *)

Abbreviation T0 m Q := (triple (W := ram_world) (block_dev demo_fs) 512 demo_img m Q (fun _ _ => False)).

(** Block 8 is the first free one. *)
Lemma ext2_alloc_free_witness :
  T0 (bind (ext2_alloc_block demo_fs) (fun '(fs1, b) =>
        if b =? 0 then ok (fs1, b, fs1) else bind (ext2_free_block fs1 b) (fun fs2 => ok (fs1, b, fs2))))
    (fun img' '(fs1, b, fs2) => b <> 0 -> covered demo_fs b /\ ~ used demo_fs demo_img b /\
       s_free_blocks_count (sb fs2) = 8 /\ forall c, used demo_fs img' c <-> used demo_fs demo_img c).
Proof.
  eapply t_mono; [apply (ext2_alloc_free demo_fs demo_geo demo_img demo_lay)| |done].
  assert (E8 : s_free_blocks_count (sb demo_fs) = 8) by (vm_compute; reflexivity).
  intros img' [[fs1 b] fs2] [(-> & _)|(_ & Hc & Hnu & _ & _ & _ & Hu & Hs & _)] Hz; [done|].
  split_and!; [done|done|by rewrite Hs, E8|done].
Defined.

Example demo_alloc_block : exists w fs1, ext2_alloc_block demo_fs demo_w = Ret (w, Ok (fs1, 8)).
Proof. vm_compute. eauto. Qed.

(** Block 20 of the file is behind the indirect block, which is allocated. *)
Lemma ext2_block_map_refines_witness :
  T0 (bind (ext2_bmap demo_fs file_inode 0) (fun before =>
      bind (ext2_bmap_set demo_fs file_inode 20 6) (fun '(fs1, r) =>
      bind (ext2_bmap fs1 (match r with Ok inode1 => inode1 | Err _ => file_inode end) 0) (fun after => ok (before, r, after)))))
    (fun img' '(before, r, after) => after = before).
Proof.
  assert (Hlo : lbn_ok demo_fs 20 /\ lbn_ok demo_fs 0) by (vm_compute; intuition congruence).
  eapply t_mono; [apply (ext2_block_map_refines demo_fs demo_geo demo_img file_inode 20 6 0)| |done].
  - apply demo_lay.
  - apply (fo_tree demo_file).
  - apply Hlo.
  - apply Hlo.
  - apply demo_owned. cbn [In]. lia.
  - done.
  - intros p Hp E. destruct (demo_inode file_inode ltac:(by left)) as [_ Hz].
    destruct (demo_val file_inode 7 p ltac:(vm_compute; reflexivity) Hz Hp) as [_ E']; [by rewrite E|congruence].
  - intros img' [[before r] after] [Hr _]. destruct r as [inode1|e]; [by destruct Hr as [-> _]|by destruct Hr as (_ & -> & _)].
Defined.

(** 40 bytes over the border of the first block: a second one is allocated. *)
Lemma ext2_write_refines_witness :
  T0 (ext2_vfs_write demo_fs (Some demo_fh) 1000 (replicate 40 9)) (fun img' x =>
    vfs_write_result demo_fs demo_img demo_fh 1000 (replicate 40 9) img' x).
Proof.
  assert (El : len (replicate 40 9) = 40) by (vm_compute; reflexivity).
  eapply t_mono; [apply (ext2_write_refines demo_fs demo_geo demo_img demo_fh 1000 (replicate 40 9))| |done].
  - apply demo_lay.
  - apply demo_meta.
  - reflexivity.
  - apply demo_file.
  - lia.
  - rewrite El. lia.
  - apply Forall_replicate. unfold byte_ok. lia.
  - discriminate.
  - intros img' x [H _]. exact H.
Defined.

Example demo_write : exists w fs fh, ext2_vfs_write demo_fs (Some demo_fh) 1000 (replicate 40 9) demo_w = Ret (w, Ok (fs, Some fh, 1040, 40)).
Proof. vm_compute. eauto. Qed.

Lemma ext2_write_read_back_witness :
  T0 (bind (ext2_vfs_write demo_fs (Some demo_fh) 14000 (replicate 40 9)) (fun '(fs', h', _, n) =>
      if n =? len (replicate 40 9) then
        bind (ext2_vfs_read fs' h' 14000 (len (replicate 40 9))) (fun a =>
        bind (ext2_read_inode fs' (fh_ino demo_fh)) (fun inode =>
        bind (ext2_vfs_read fs' (Some (mkhandle2 (fh_ino demo_fh) inode (i_size inode))) 14000 (len (replicate 40 9))) (fun b => ok (n, a, b))))
      else ok (n, ([], 14000), ([], 14000))))
    (fun _ '(n, a, b) => (n = 40 /\ a = (replicate 40 9, 14040) /\ b = a) \/ n = - ENOSPC).
Proof.
  assert (El : len (replicate 40 9) = 40) by (vm_compute; reflexivity).
  eapply t_mono; [apply (ext2_write_read_back demo_fs demo_geo demo_img demo_fh 14000 (replicate 40 9))| |done].
  - apply demo_lay.
  - apply demo_meta.
  - reflexivity.
  - apply demo_file.
  - lia.
  - rewrite El. lia.
  - apply Forall_replicate. unfold byte_ok. lia.
  - discriminate.
  - intros img' [[n a] b] [(-> & -> & ->)|Hn]; [left|by right]. split_and!; [done| |done]. by rewrite El.
Defined.

Lemma ext2_inode_roundtrip_witness :
  T0 (bind (ext2_read_inode demo_fs 2) (fun before =>
      bind (ext2_write_inode demo_fs 3 dir_inode) (fun _ =>
      bind (ext2_read_inode demo_fs 2) (fun after => ok (before, after)))))
    (fun _ '(before, after) => after = before).
Proof.
  assert (Hv : valid_ino demo_fs 2 /\ valid_ino demo_fs 3) by (vm_compute; intuition congruence).
  eapply t_mono; [apply (ext2_inode_roundtrip demo_fs demo_geo demo_img 3 dir_inode 2)| |done].
  - apply demo_meta.
  - apply Hv.
  - apply Hv.
  - apply (demo_inode dir_inode). by right.
  - intros img' [before after] [-> _]. reflexivity.
Defined.

Lemma demo_of_superblock : of_superblock demo_fs 0.
Proof. split; vm_compute; reflexivity. Qed.

Lemma ext2_remount_witness :
  runs_to (ext2_unmount (Some (1, demo_fs)) demo_w) (fun '(w1, r) =>
    r = Ok 0 /\ (w_find [100] w1 = Some (block_dev demo_fs) ->
      runs_to (ext2_mount [100] 0 w1) (fun '(w2, r2) => exists p' q, r2 = Ok (p', at_address demo_fs q)))).
Proof.
  assert (Hi : image (block_dev demo_fs) demo_w = demo_img) by (vm_compute; reflexivity).
  eapply runs_to_mono; [apply (ext2_remount demo_fs demo_geo demo_w 1 [100] 0)|].
  - rewrite Hi. apply demo_meta.
  - reflexivity.
  - reflexivity.
  - apply demo_of_superblock.
  - intros [w1 r] (-> & _ & Hm). split; [reflexivity|]. intros Hf. eapply runs_to_mono; [by apply Hm|]. by intros [w2 r2] [_ H].
Defined.

Lemma ext2_dir_refines_witness :
  T0 (bind (ext2_dir_lookup demo_fs 2 [97]) (fun before =>
      bind (ext2_dir_add_entry demo_fs 2 5 [98; 99] 1) (fun '(fs1, r) => ok (before, fs1, r))))
    (fun img' '(before, fs1, r) => before = 3 /\
       match r with
       | Ok _ => triple (W := ram_world) (block_dev demo_fs) 512 img' (ext2_dir_lookup fs1 2 [97]) (fun i after => i = img' /\ after = 3) (fun _ _ => False)
       | Err e => e = - ENOSPC
       end).
Proof.
  eapply t_mono; [apply (ext2_dir_refines demo_fs demo_geo demo_img 2 demo_entries 5 [98; 99] 1 [97])| |done].
  - apply demo_lay.
  - apply demo_meta.
  - apply demo_dir.
  - reflexivity.
  - split; [repeat constructor|split; reflexivity].
  - split; [repeat constructor|split; reflexivity].
  - split; reflexivity.
  - split; [discriminate|reflexivity].
  - reflexivity.
  - intros img' [[before fs1] r] [-> Hr]. split; [reflexivity|]. destruct r as [u|e]; [|by destruct Hr].
    destruct Hr as [[Hr _]|[Hr _]]; [exact Hr|]. exfalso. by apply Hr.
Defined.

Example demo_lookup : exists w w' fs1 w'',
  ext2_dir_add_entry demo_fs 2 5 [98; 99] 1 demo_w = Ret (w, Ok (fs1, Ok tt)) /\
  ext2_dir_lookup fs1 2 [98; 99] w = Ret (w', Ok 5) /\ ext2_dir_lookup fs1 2 [98] w = Ret (w'', Ok 0).
Proof. eexists _, _, _, _. split; [vm_compute; reflexivity|]. split; vm_compute; reflexivity. Qed.

(** A directory of 4 GiB without blocks. *)
Lemma ext2_lookup_endless_witness :
  lookup_loop (W := ram_world) 1000 demo_fs (replicate 128 0) (2 ^ 32 - 1) 0 0 [97] [] demo_w = OutOfFuel.
Proof.
  apply (ext2_lookup_endless demo_fs (replicate 128 0) (2 ^ 32 - 1) [97] [] demo_w 1000 0 0).
  - vm_compute. intuition congruence.
  - exists (2 ^ 22). reflexivity.
  - intros r Hr. assert (Hin : In r [0; 1; 2; 3; 4; 5; 6; 7; 8; 9; 10; 11; 12; 13; 14]) by (cbn [In]; lia).
    repeat (destruct Hin as [<-|Hin]; [reflexivity|]). destruct Hin.
  - reflexivity.
  - exists 0. reflexivity.
  - split; [discriminate|reflexivity].
  - discriminate.
Defined.

(** The last record of a block of 1024 bytes ends at 1020. *)
Lemma ext2_lookup_overrun_witness :
  lookup_block 2 (demo_entry 2 1020 2 [46] ++ blank 4) 0 1024 [97] = Fault OutOfBounds.
Proof.
  change 1024 with (len (demo_entry 2 1020 2 [46] ++ blank 4)).
  apply (ext2_lookup_overrun (demo_entry 2 1020 2 [46] ++ blank 4) [97] 0 0).
  - split; [repeat constructor|split; reflexivity].
  - vm_compute. intuition congruence.
  - vm_compute. discriminate.
  - reflexivity.
  - split; reflexivity.
Defined.
