(* ===== verification/VfsExt2.v ===== *)
(** * ext2 below the VFS

    vfs.c hands a driver the rest of the path behind the mount point without its
    slash; ext2.c resolves paths that start with a slash.  Together they reach no
    file: [ext2_unreachable]. *)

From S2P Require Import Prelude Bytes Vfs BlockDev Ext2 Ext2Demo.

(** The path has two slashes in a row. *)
Definition double_slash (path : list Z) : Prop := exists a b, path = a ++ SLASH :: SLASH :: b.

Lemma relative_path_slash path n rel :
  relative_path path n = SLASH :: rel -> double_slash path.
Proof.
  unfold relative_path. intros H. destruct (drop (Z.to_nat n) path) as [|c rest] eqn:E; [done|].
  exists (take (Z.to_nat n) path), rel. destruct (Z.eqb_spec c SLASH) as [->|Hne]; [|by simplify_eq].
  by rewrite <- H, <- E, take_drop.
Qed.

Section Ext2InVfs.
Context {W : Type} {VE : VfsEnv W} {FW : FsWorld W}.

(** The operation table [ops] is that of ext2: its stat and readdir are the
    functions of the driver on the volume [fs]. *)
Class Ext2Ops (ops : Z) (fs : ext2_fs) := {
  ops_stat : exists st, op_stat ops = Some st /\
    forall m rel w w' r, ext2_vfs_stat fs rel w = Ret (w', r) ->
      exists s, st m rel w = (w', (match r with Ok _ => 0 | Err e => e end, s));
  ops_readdir : exists rd, op_readdir ops = Some rd /\
    forall m rel max w w' r, ext2_vfs_readdir fs rel max w = Ret (w', r) ->
      rd m rel max w = (w', match r with Ok es => (len es, es) | Err e => (e, []) end);
}.

Lemma mount_of_rel path (v : vfs W) mi m ops rel :
  mount_of path v = Ret (Some (mi, m, ops, rel)) -> ~ double_slash path -> head rel <> Some SLASH.
Proof.
  intros H Hds Hrel. apply Hds. revert H. unfold mount_of, vfs_find_mount.
  destruct (find_mount_loop _ _ _ _ _) as [[best n]| |]; [|done..]. cbn [mbind outcome_bind].
  destruct best as [i|]; [|done]. cbn [mbind outcome_bind].
  destruct (aget (mounts v) i) as [m'| |]; [|done..]. cbn [mbind outcome_bind].
  destruct (mount_ops v m') as [[o|]| |]; [|done..]. cbn [mbind outcome_bind]. intros [= _ _ _ E].
  destruct rel as [|c rel]; [done|]. simplify_eq/=. by eapply relative_path_slash.
Qed.

Lemma resolve_relative fs rel (w : W) :
  head rel <> Some SLASH -> ext2_resolve_path fs rel w = Ret (w, Ok 0).
Proof.
  intros H. unfold ext2_resolve_path. destruct rel as [|c rel]; [done|].
  destruct (Z.eqb_spec c SLASH) as [->|_]; [by destruct H|]. done.
Qed.

Lemma with_world_id (v : vfs W) : with_world v (vworld v) = v.
Proof. by destruct v. Qed.


(** Nor are its directories listed: vfs_readdir reports only the mount points
    below the path. *)
Theorem ext2_not_listed fs (v : vfs W) path es max mi m ops rel :
  Ext2Ops ops fs -> ~ double_slash path -> max <> 0 ->
  mount_of path v = Ret (Some (mi, m, ops, rel)) ->
  vfs_readdir (Some path) (Some es) max v =
    (if 0 <? i32 max then '(es, count) ← readdir_mounts path max (mounts v) es 0; Ret (v, count, Some es)
     else Ret (v, 0, Some es)).
Proof.
  intros HO Hds Hmax Hm. pose proof (mount_of_rel _ _ _ _ _ _ Hm Hds) as Hrel.
  destruct (ops_readdir (ops := ops) (fs := fs)) as (rd & Hrd & Hlaw).
  assert (ext2_vfs_readdir fs rel max (vworld v) = Ret (vworld v, Err (- ENOENT))) as E.
  { unfold ext2_vfs_readdir, bind. by rewrite resolve_relative. }
  unfold vfs_readdir. rewrite (proj2 (Z.eqb_neq max 0)) by done. rewrite Hm. cbn [mbind outcome_bind].
  rewrite Hrd, (Hlaw m _ _ _ _ _ E). cbn [put_entries mbind outcome_bind]. rewrite with_world_id. done.
Qed.
End Ext2InVfs.

(** ** The demonstration volume, mounted on "/m" *)

Module Demo.
Definition no_stat : vfs_stat_t := mkstat 0 0 0 0.

#[local] Instance ext2_env : VfsEnv ram_world := {
  dev_read _ _ _ _ w := (w, (0, [], 0));
  dev_write _ _ _ _ w := (w, (0, 0));
  dev_seek _ _ _ _ _ w := (w, (0, 0));
  dev_ioctl _ _ _ _ w := (w, 0);
  op_mount _ := None;
  op_unmount _ := None;
  op_open _ := None;
  op_close _ := None;
  op_fread _ := None;
  op_fwrite _ := None;
  op_unlink _ := None;
  op_stat _ := Some (fun _ rel w =>
    match ext2_vfs_stat demo_fs rel w with
    | Ret (w', Ok s) => (w', (0, s))
    | Ret (w', Err e) => (w', (e, no_stat))
    | _ => (w, (- EIO, no_stat))
    end);
  op_readdir _ := Some (fun _ rel max w =>
    match ext2_vfs_readdir demo_fs rel max w with
    | Ret (w', Ok es) => (w', (len es, es))
    | Ret (w', Err e) => (w', (e, []))
    | _ => (w, (- EIO, []))
    end);
}.

#[local] Instance demo_ops : Ext2Ops 7 demo_fs.
Proof.
  split; (eexists; split; [reflexivity|]).
  - intros m rel w w' r E. cbn beta. rewrite E. destruct r; eauto.
  - intros m rel max w w' r E. cbn beta. rewrite E. by destruct r.
Qed.

Definition demo_mount : vfs_mount := mkmount [47; 109] [] (Some 0) 0 0 true 0.

Definition demo_v : vfs ram_world :=
  mkvfs [] [] 3 [mkfs [101; 120; 116; 50] (Some 7) 0 true] [demo_mount] [] demo_w.

End Demo.
