(* ===== verification/Dirent.v ===== *)
(** * Generic directory entries

    core/fs/dirent.c: filling in an entry, checking, comparing and parsing its
    name, and the size of an entry on disk.  A pointer that may be NULL is an
    option; a char array is the list of its bytes, as in [Kstd]. *)

From S2P Require Import Prelude Kstd KstdProofs.

Definition MAX_DIRENT_NAME : Z := 255.
Definition CH_SLASH : Z := 47.
Definition CH_BACKSLASH : Z := 92.
Definition DOT : list Z := [46; 0].
Definition DOTDOT : list Z := [46; 46; 0].

Record fs_dirent := mkdirent { d_ino : Z; d_type : Z; d_name_len : Z; d_name : list Z }.

(** The entry behind the pointer, and the result. *)
Definition dirent_init (dent : option fs_dirent) (ino type : Z) (name : option (list Z))
  : outcome (option fs_dirent * Z) :=
  match dent, name with
  | Some d, Some nm =>
      name_len ← strlen nm;
      if (name_len =? 0) || (MAX_DIRENT_NAME <? name_len) then Ret (dent, -1) else
      stored ← strcpy_safe (d_name d) nm (MAX_DIRENT_NAME + 1);
      Ret (Some (mkdirent (u32 ino) (u8 type) (u16 name_len) stored), 0)
  | _, _ => Ret (dent, -1)
  end.

(** [Some r]: the loop returned [r] from the function. *)
Fixpoint valid_loop (n : nat) (name : list Z) (i l : Z) : outcome (option Z) :=
  match n with
  | O => Ret None
  | S n' =>
      c ← aget name i;
      if c =? 0 then Ret (Some (if i =? l - 1 then 1 else 0)) else
      if (c =? CH_SLASH) || (c =? CH_BACKSLASH) then Ret (Some 0) else
      valid_loop n' name (i + 1) l
  end.

Definition dirent_name_valid (name : option (list Z)) (l : Z) : outcome Z :=
  match name with
  | None => Ret 0
  | Some nm =>
      if (l =? 0) || (MAX_DIRENT_NAME <? l) then Ret 0 else
      r ← valid_loop (Z.to_nat l) nm 0 l;
      match r with
      | Some r => Ret r
      | None =>
          r ← strcmp nm DOT;
          if r =? 0 then Ret 1 else
          r ← strcmp nm DOTDOT;
          if r =? 0 then Ret 1 else Ret 1
      end
  end.

Definition dirent_compare (a b : option fs_dirent) : outcome Z :=
  match a, b with
  | Some a, Some b => strcmp (d_name a) (d_name b)
  | _, _ => Ret 0
  end.

(** [while (len < max_len && len < name_out_size - 1 && buf[len])]; the index
    reaches the smaller of the two bounds at most. *)
Fixpoint parse_loop (n : nat) (buf out : list Z) (l max_len out_size : Z) : outcome (list Z * Z) :=
  match n with
  | O => OutOfFuel
  | S n' =>
      if (l <? max_len) && (l <? out_size - 1) then
        c ← aget buf l;
        if c =? 0 then Ret (out, l) else
        out ← aset out l c;
        parse_loop n' buf out (l + 1) max_len out_size
      else Ret (out, l)
  end.

Definition dirent_parse_name (buf : option (list Z)) (max_len : Z) (name_out : option (list Z)) (name_out_size : Z)
  : outcome (option (list Z) * Z) :=
  match buf, name_out with
  | Some b, Some out =>
      if name_out_size =? 0 then Ret (name_out, -1) else
      '(out, l) ← parse_loop (S (length b)) b out 0 max_len name_out_size;
      out ← aset out l 0;
      Ret (Some out, i32 l)
  | _, _ => Ret (name_out, -1)
  end.

Definition dirent_aligned_size (name_len alignment : Z) : Z :=
  let alignment := if alignment =? 0 then 1 else alignment in
  let base_size := 4 + 1 + 2 in
  let total_size := u64 (base_size + name_len + 1) in
  let remainder := total_size mod alignment in
  if negb (remainder =? 0) then u64 (total_size + (alignment - remainder)) else total_size.

(** ** Lemmas *)

Lemma strcpy_safe_loop_ok src s max : cstr src s -> forall n i dest,
  (i <= length s)%nat -> (length s - i < n)%nat -> len s < max <= len dest -> max < 2 ^ 64 ->
  strcpy_safe_loop dest src 0 (Z.of_nat i) max n =
  Ret (take i dest ++ drop i s ++ 0 :: drop (S (length s)) dest).
Proof.
  intros Hs. induction n as [|n IH]; intros i dest Hi Hn Hfit Hmax; [lia|]. cbn [strcpy_safe_loop].
  unfold len in Hfit. rewrite Z.add_0_l, u64_id by lia. destruct (string_at s i Hi) as [->|(c & Hc & Hlt)].
  - fold (len s). rewrite (cstr_lookup_end _ _ Hs). cbn [mbind outcome_bind Z.eqb].
    rewrite !aset_in_bounds by (unfold len; lia). rewrite drop_all. cbn [app].
    replace (Z.to_nat (len s)) with (length s) by (unfold len; lia).
    rewrite insert_take_drop by lia. by case_match.
  - destruct (cstr_lookup_char src s i c Hs Hc) as [-> Hne]. cbn [mbind outcome_bind].
    rewrite (proj2 (Z.ltb_lt _ _)) by lia.
    rewrite (proj2 (Z.eqb_neq c 0)) by done. rewrite aset_in_bounds by (unfold len; lia).
    cbn [mbind outcome_bind]. replace (Z.of_nat i + 1) with (Z.of_nat (S i)) by lia.
    rewrite IH by (unfold len; rewrite ?length_insert; lia). f_equal. rewrite Nat2Z.id.
    rewrite (take_S_r _ _ c) by (apply list_lookup_insert_eq; lia).
    rewrite take_insert_ge, drop_insert_lt by lia. rewrite (drop_S s c i Hc). by rewrite <- app_assoc.
Qed.

Lemma strcpy_safe_ok dest src s max :
  cstr src s -> len s < max <= len dest -> max < 2 ^ 64 ->
  strcpy_safe dest src max = Ret (s ++ 0 :: drop (S (length s)) dest).
Proof.
  intros Hs Hfit Hmax. pose proof (cstr_length src s Hs). unfold strcpy_safe.
  change 0 with (Z.of_nat 0) at 2. by rewrite (strcpy_safe_loop_ok src s max Hs) by lia.
Qed.

Lemma cstr_stored s rest : 0 ∉ s -> cstr (s ++ 0 :: rest) s.
Proof. intros H. split; [done|by exists rest]. Qed.

(** The loop copies the name, cut off at the two bounds. *)
Lemma parse_loop_ok buf s max size : cstr buf s -> 0 <= max -> forall n i out,
  (i <= length s)%nat -> (length s - i < n)%nat -> 0 < size <= len out -> Z.of_nat i <= Z.min max (size - 1) ->
  exists k, Z.of_nat k = Z.min (len s) (Z.min max (size - 1)) /\
    parse_loop n buf out (Z.of_nat i) max size = Ret (take i out ++ drop i (take k s) ++ drop k out, Z.of_nat k).
Proof.
  intros Hs Hm. induction n as [|n IH]; intros i out Hi Hn Hsz Hb; [lia|]. cbn [parse_loop].
  assert (Hstop : Z.of_nat i = Z.min (len s) (Z.min max (size - 1)) ->
    Ret (out, Z.of_nat i) = Ret (take i out ++ drop i (take i s) ++ drop i out, Z.of_nat i)).
  { intros _. rewrite (drop_ge (take i s)) by (rewrite length_take; lia). cbn [app]. by rewrite take_drop. }
  destruct ((Z.of_nat i <? max) && (Z.of_nat i <? size - 1)) eqn:E.
  - apply andb_true_iff in E as [E1%Z.ltb_lt E2%Z.ltb_lt].
    destruct (string_at s i Hi) as [->|(c & Hc & Hlt)].
    + fold (len s). rewrite (cstr_lookup_end _ _ Hs). cbn [mbind outcome_bind Z.eqb].
      exists (length s). unfold len in *. split; [lia|]. apply Hstop. lia.
    + destruct (cstr_lookup_char buf s i c Hs Hc) as [-> Hne]. cbn [mbind outcome_bind].
      rewrite (proj2 (Z.eqb_neq c 0)) by done. rewrite aset_in_bounds by lia. cbn [mbind outcome_bind].
      replace (Z.of_nat i + 1) with (Z.of_nat (S i)) by lia. rewrite Nat2Z.id.
      destruct (IH (S i) (<[i:=c]> out)) as (k & Hk & ->); [lia|lia|unfold len in *; rewrite ?length_insert; lia|lia|].
      assert (i < k)%nat by (unfold len in *; lia). exists k. split; [done|]. do 2 f_equal. unfold len in *.
      rewrite (take_S_r _ _ c) by (apply list_lookup_insert_eq; lia).
      rewrite take_insert_ge, drop_insert_lt by lia.
      rewrite (drop_S (take k s) c i) by (by rewrite lookup_take_lt by lia). by rewrite <- app_assoc.
  - assert (Z.of_nat i = Z.min (len s) (Z.min max (size - 1))).
    { apply andb_false_iff in E as [E%Z.ltb_ge|E%Z.ltb_ge]; unfold len; lia. }
    exists i. split; [done|]. by apply Hstop.
Qed.

Lemma strcmp_ok a b s t : cstr a s -> cstr b t -> exists r, strcmp a b = Ret r /\ (r = 0 <-> s = t).
Proof.
  intros Ha Hb. pose proof (cstr_length a s Ha). apply (strcmp_loop_ok a b s t Ha Hb (S (length a)) 0); [lia..|done|lia].
Qed.

(** Parsing into a buffer that is large enough gives the name; into a smaller
    one its beginning, with a terminator. *)
Lemma parse_name_ok buf s max out size :
  cstr buf s -> 0 <= max -> 0 < size <= len out -> len s < 2 ^ 31 ->
  exists k out', Z.of_nat k = Z.min (len s) (Z.min max (size - 1)) /\
    dirent_parse_name (Some buf) max (Some out) size = Ret (Some out', Z.of_nat k) /\ cstr out' (take k s).
Proof.
  intros Hs Hm Hsz Hlen. pose proof (cstr_length buf s Hs). unfold dirent_parse_name.
  rewrite (proj2 (Z.eqb_neq size 0)) by lia.
  destruct (parse_loop_ok buf s max size Hs Hm (S (length buf)) 0 out) as (k & Hk & E); [lia..|].
  change (Z.of_nat 0) with 0 in E. rewrite E. cbn [mbind outcome_bind]. rewrite take_0, drop_0. cbn [app].
  assert (k <= length s)%nat by (unfold len in *; lia).
  assert (Hl : length (take k s ++ drop k out) = length out) by (rewrite length_app, length_take, length_drop; unfold len in *; lia).
  rewrite aset_in_bounds by (unfold len in *; rewrite Hl; lia). cbn [mbind outcome_bind]. rewrite Nat2Z.id.
  exists k. eexists. split; [done|]. split; [by rewrite i32_id by (unfold len in *; lia)|].
  rewrite insert_app_r_alt by (rewrite length_take; lia). rewrite length_take, Nat.min_l, Nat.sub_diag by lia.
  destruct (drop k out) as [|x rest] eqn:Ed.
  { apply (f_equal length) in Ed. rewrite length_drop in Ed. cbn in Ed. unfold len in *. lia. }
  cbn. apply cstr_stored. destruct Hs as [Hz _]. intros Hin. apply Hz. eapply subseteq_take. exact Hin.
Qed.

(** What [valid_loop] decides. *)
Definition name_char (c : Z) : bool := negb (c =? CH_SLASH) && negb (c =? CH_BACKSLASH).

Lemma valid_loop_ok a s : cstr a s -> forall n i, (i + n = length s)%nat ->
  valid_loop n a (Z.of_nat i) (len s) = Ret (if forallb name_char (drop i s) then None else Some 0).
Proof.
  intros Hs. induction n as [|n IH]; intros i Hi; cbn [valid_loop].
  - by rewrite drop_ge by lia.
  - destruct (lookup_lt_is_Some_2 s i ltac:(lia)) as [c Hc].
    destruct (cstr_lookup_char a s i c Hs Hc) as [-> Hne]. cbn [mbind outcome_bind].
    rewrite (proj2 (Z.eqb_neq c 0)) by done. rewrite (drop_S s c i Hc). cbn [forallb]. unfold name_char at 1.
    replace (Z.of_nat i + 1) with (Z.of_nat (S i)) by lia. rewrite IH by lia.
    by destruct (c =? CH_SLASH), (c =? CH_BACKSLASH).
Qed.

(** On a string, dirent_name_valid accepts the non-empty names of at most 255
    characters without separators. *)
Lemma name_valid_ok a s :
  cstr a s ->
  dirent_name_valid (Some a) (len s) =
    Ret (if (0 <? len s) && (len s <=? MAX_DIRENT_NAME) && forallb name_char s then 1 else 0).
Proof.
  intros Hs. unfold dirent_name_valid. assert (0 <= len s) by (unfold len; lia).
  destruct (len s =? 0) eqn:E0; [apply Z.eqb_eq in E0; by rewrite (proj2 (Z.ltb_ge 0 _)) by lia|].
  apply Z.eqb_neq in E0. rewrite (proj2 (Z.ltb_lt 0 _)) by lia. cbn [orb andb].
  destruct (MAX_DIRENT_NAME <? len s) eqn:E1; [apply Z.ltb_lt in E1; by rewrite (proj2 (Z.leb_gt _ _)) by lia|].
  apply Z.ltb_ge in E1. rewrite (proj2 (Z.leb_le _ _)) by lia. cbn [orb andb].
  pose proof (valid_loop_ok a s Hs (Z.to_nat (len s)) 0) as Hv. change (Z.of_nat 0) with 0 in Hv.
  rewrite Hv by (unfold len; lia). cbn [mbind outcome_bind andb]. rewrite drop_0.
  destruct (forallb name_char s); [|done].
  destruct (strcmp_ok a DOT s [46]) as (r & -> & _); [done|by apply (cstr_stored [46]); set_solver by lia|].
  destruct (strcmp_ok a DOTDOT s [46; 46]) as (r' & -> & _); [done|by apply (cstr_stored [46; 46]); set_solver by lia|].
  cbn [mbind outcome_bind]. by destruct (r =? 0), (r' =? 0).
Qed.

(** A name that has only its terminator passes with length 1: the empty name is
    accepted.  A name "." without a terminator behind it is read past its end. *)
Lemma name_valid_edges :
  dirent_name_valid (Some [0]) 1 = Ret 1 /\ dirent_name_valid (Some [46]) 1 = Fault OutOfBounds.
Proof. done. Qed.

(** The size of an entry is the least multiple of the alignment that holds the
    fixed part, the name and a terminator. *)
Lemma aligned_size_ok name_len alignment :
  0 <= name_len -> 0 < alignment -> 8 + name_len + alignment < 2 ^ 64 ->
  let r := dirent_aligned_size name_len alignment in
  r mod alignment = 0 /\ 8 + name_len <= r < 8 + name_len + alignment.
Proof.
  intros Hn Ha Hb. unfold dirent_aligned_size. rewrite (proj2 (Z.eqb_neq alignment 0)) by lia.
  replace (4 + 1 + 2 + name_len + 1) with (8 + name_len) by lia. rewrite u64_id by lia. cbn zeta.
  pose proof (Z.mod_pos_bound (8 + name_len) alignment Ha).
  destruct ((8 + name_len) mod alignment =? 0) eqn:E; cbn [negb].
  - apply Z.eqb_eq in E. lia.
  - apply Z.eqb_neq in E. rewrite u64_id by lia. split; [|lia].
    rewrite (Z.div_mod (8 + name_len) alignment) at 1 by lia.
    replace (alignment * ((8 + name_len) / alignment) + (8 + name_len) mod alignment +
             (alignment - (8 + name_len) mod alignment)) with ((((8 + name_len) / alignment) + 1) * alignment) by lia.
    by apply Z.mod_mul; lia.
Qed.

(** ** The theorem *)

(** dirent_init fails exactly on a NULL pointer, an empty name and a name of
    more than 255 characters, and then leaves the entry as it was.  Otherwise it
    stores inode, type and name: dirent_parse_name gives the name back from the
    entry, and comparing it with another entry gives 0 exactly for the same
    name. *)
Theorem dirent_init_correct (dent : option fs_dirent) (ino type : Z) (a : option (list Z)) s :
  0 <= ino < 2 ^ 32 -> 0 <= type < 2 ^ 8 ->
  (forall d, dent = Some d -> len (d_name d) = MAX_DIRENT_NAME + 1) -> (forall nm, a = Some nm -> cstr nm s) ->
  runs_to (dirent_init dent ino type a) (fun '(dent', r) =>
    if (bool_decide (is_Some dent) && bool_decide (is_Some a) && (0 <? len s) && (len s <=? MAX_DIRENT_NAME))%bool
    then r = 0 /\ exists e, dent' = Some e /\ d_ino e = ino /\ d_type e = type /\ d_name_len e = len s /\
      cstr (d_name e) s /\ len (d_name e) = MAX_DIRENT_NAME + 1 /\
      (forall out, len out = MAX_DIRENT_NAME + 1 -> exists out',
         dirent_parse_name (Some (d_name e)) (len s) (Some out) (len out) = Ret (Some out', len s) /\ cstr out' s) /\
      (forall e' t, cstr (d_name e') t -> exists c,
         dirent_compare (Some e) (Some e') = Ret c /\ (c = 0 <-> s = t))
    else r = -1 /\ dent' = dent).
Proof.
  intros Hi Ht Hd Ha. unfold dirent_init. destruct dent as [d|]; [|done]. destruct a as [nm|]; [|done].
  specialize (Hd d eq_refl). specialize (Ha nm eq_refl). rewrite (strlen_ok nm s Ha). cbn [mbind outcome_bind].
  rewrite !bool_decide_eq_true_2 by eauto. assert (0 <= len s) by (unfold len; lia). cbn [andb].
  destruct ((len s =? 0) || (MAX_DIRENT_NAME <? len s)) eqn:E.
  - cbn. destruct ((0 <? len s) && (len s <=? MAX_DIRENT_NAME)) eqn:E'; [|done].
    apply andb_true_iff in E' as [?%Z.ltb_lt ?%Z.leb_le]. apply orb_true_iff in E as [?%Z.eqb_eq|?%Z.ltb_lt]; lia.
  - apply orb_false_iff in E as [E1%Z.eqb_neq E2%Z.ltb_ge].
    rewrite (proj2 (Z.ltb_lt 0 _)), (proj2 (Z.leb_le (len s) _)) by lia.
    rewrite (strcpy_safe_ok _ _ s) by (unfold MAX_DIRENT_NAME in *; done || lia). cbn.
    set (nm' := s ++ 0 :: drop (S (length s)) (d_name d)).
    assert (Hc : cstr nm' s) by (apply cstr_stored, Ha).
    assert (Hl : len nm' = MAX_DIRENT_NAME + 1).
    { rewrite <- Hd. unfold nm', len in *. rewrite length_app. cbn [length]. rewrite length_drop.
      unfold MAX_DIRENT_NAME in *. lia. }
    split; [done|]. eexists. split; [done|]. cbn. unfold MAX_DIRENT_NAME in *.
    rewrite u32_id, u8_id, u16_id by lia. split_and!; try done.
    + intros out Ho.
      destruct (parse_name_ok nm' s (len s) out (len out) Hc) as (k & out' & Hk & E & Hcs); [lia..|].
      assert (k = length s) as -> by (unfold len in *; lia). rewrite firstn_all in Hcs. eauto.
    + intros e' t Ht'. by apply strcmp_ok.
Qed.

Lemma dirent_init_correct_witness :
  exists e, dirent_init (Some (mkdirent 0 0 0 (replicate 256 7))) 12 8 (Some [97; 98; 0]) = Ret (Some e, 0) /\
    d_ino e = 12 /\ cstr (d_name e) [97; 98].
Proof.
  assert (Hc : cstr [97; 98; 0] [97; 98]) by (apply (cstr_stored [97; 98]); set_solver by lia).
  pose proof (dirent_init_correct (Some (mkdirent 0 0 0 (replicate 256 7))) 12 8 (Some [97; 98; 0]) [97; 98]
    ltac:(lia) ltac:(lia) ltac:(by intros d [= <-]) ltac:(by intros nm [= <-])) as H.
  destruct (dirent_init _ _ _ _) as [[d r]| |]; [|done|done].
  cbn in H. destruct H as (-> & e & -> & H1 & _ & _ & H2 & _). by exists e.
Defined.
