(* ===== verification/Chacha20.v ===== *)
(** * The stream cipher and the random generator: model

    core/crypto/chacha20.c and core/crypto/chacha20_rng.c.  Bytes are [int8_t]
    and words [int32_t], as in the code: sums wrap, right shifts are
    arithmetic, a byte that becomes a word is sign-extended.  An array is a
    list; [pack4(a + off)] is [pack4 a off]. *)

From S2P Require Import Prelude.

(** ** Words *)

Definition rotl32 (x n : Z) : Z :=
  Z.lor (i32 (Z.shiftl x n)) (Z.shiftr x (32 - n)).

Definition pack4 (a : list Z) (off : Z) : outcome Z :=
  a0 ← aget a off; a1 ← aget a (off + 1); a2 ← aget a (off + 2); a3 ← aget a (off + 3);
  Ret (Z.lor (Z.lor (Z.lor a0 (i32 (Z.shiftl a1 8))) (i32 (Z.shiftl a2 16))) (i32 (Z.shiftl a3 24))).

(** Byte [i] of a word in memory. *)
Definition byte_of (w i : Z) : Z := i8 (Z.shiftr w (8 * i)).

(** [memory_copy(dst, src, n)] from index [i] on. *)
Fixpoint copy_loop (dst src : list Z) (i : Z) (n : nat) : outcome (list Z) :=
  match n with
  | O => Ret dst
  | S n' => x ← aget src i; dst ← aset dst i x; copy_loop dst src (i + 1) n'
  end.

Definition memory_copy (dst src : list Z) (n : Z) : outcome (list Z) :=
  copy_loop dst src 0 (Z.to_nat n).

(** ** The permutation *)

(** Four lines of the code: [x[a] += x[b]; x[d] = rotl32(x[d] ^ x[a], 16); ...]. *)
Definition quarter_round (a b c d : Z) (x : list Z) : outcome (list Z) :=
  let half := fun (n1 n2 : Z) (x : list Z) =>
    xa ← aget x a; xb ← aget x b; x ← aset x a (i32 (xa + xb));
    xd ← aget x d; xa ← aget x a; x ← aset x d (rotl32 (Z.lxor xd xa) n1);
    xc ← aget x c; xd ← aget x d; x ← aset x c (i32 (xc + xd));
    xb ← aget x b; xc ← aget x c; aset x b (rotl32 (Z.lxor xb xc) n2) in
  x ← half 16 12 x; half 8 7 x.

Definition double_round (x : list Z) : outcome (list Z) :=
  x ← quarter_round 0 4 8 12 x;
  x ← quarter_round 1 5 9 13 x;
  x ← quarter_round 2 6 10 14 x;
  x ← quarter_round 3 7 11 15 x;
  x ← quarter_round 0 5 10 15 x;
  x ← quarter_round 1 6 11 12 x;
  x ← quarter_round 2 7 8 13 x;
  quarter_round 3 4 9 14 x.

Fixpoint rounds (n : nat) (x : list Z) : outcome (list Z) :=
  match n with O => Ret x | S n' => x ← double_round x; rounds n' x end.

(** [keystream32[i] = x[i] + state[i]]. *)
Definition add_words (x state : list Z) : list Z := zip_with (fun a b => i32 (a + b)) x state.

(** "expand 32-byte k" *)
Definition magic_constant : list Z :=
  [101; 120; 112; 97; 110; 100; 32; 51; 50; 45; 98; 121; 116; 101; 32; 107].

(** The initial state words of a key and a nonce. *)
Definition init_state (key nonce : list Z) : outcome (list Z) :=
  s0 ← pack4 magic_constant 0; s1 ← pack4 magic_constant 4;
  s2 ← pack4 magic_constant 8; s3 ← pack4 magic_constant 12;
  s4 ← pack4 key 0; s5 ← pack4 key 4; s6 ← pack4 key 8; s7 ← pack4 key 12;
  s8 ← pack4 key 16; s9 ← pack4 key 20; s10 ← pack4 key 24; s11 ← pack4 key 28;
  s13 ← pack4 nonce 0; s14 ← pack4 nonce 4; s15 ← pack4 nonce 8;
  Ret [s0; s1; s2; s3; s4; s5; s6; s7; s8; s9; s10; s11; 0; s13; s14; s15].

(** ** The cipher *)

Record chacha20_context := mkctx {
  keystream32 : list Z; position : Z; key : list Z; nonce : list Z; counter : Z; state : list Z
}.

Definition set_state c s := mkctx (keystream32 c) (position c) (key c) (nonce c) (counter c) s.
Definition set_stream_position c p := mkctx (keystream32 c) p (key c) (nonce c) (counter c) (state c).

Definition chacha20_init_block (c : chacha20_context) (k n : list Z) : outcome chacha20_context :=
  k' ← memory_copy (key c) k 32;
  n' ← memory_copy (nonce c) n 12;
  s ← init_state k n;
  Ret (mkctx (keystream32 c) (position c) k' n' (counter c) s).

Definition chacha20_block_set_counter (c : chacha20_context) (ctr : Z) : outcome chacha20_context :=
  s ← aset (state c) 12 ctr;
  w ← pack4 (nonce c) 0;
  s ← aset s 13 w;
  Ret (set_state c s).

Definition chacha20_block_next (c : chacha20_context) : outcome chacha20_context :=
  x ← rounds 10 (state c);
  let ks := add_words x (state c) in
  c12 ← aget (state c) 12;
  let c12 := i32 (c12 + 1) in
  s ← aset (state c) 12 c12;
  s ← (if c12 =? 0 then c13 ← aget s 13; aset s 13 (i32 (c13 + 1)) else Ret s);
  Ret (mkctx ks (position c) (key c) (nonce c) (counter c) s).

Definition zero_context : chacha20_context :=
  mkctx (replicate 16 0) 0 (replicate 32 0) (replicate 12 0) 0 (replicate 16 0).

Definition chacha20_init_context (k n : list Z) (ctr : Z) : outcome chacha20_context :=
  c ← chacha20_init_block zero_context k n;
  c ← chacha20_block_set_counter c ctr;
  Ret (mkctx (keystream32 c) 64 (key c) (nonce c) ctr (state c)).

(** The next byte of the key stream. *)
Definition stream_byte (c : chacha20_context) : outcome (chacha20_context * Z) :=
  c ← (if 64 <=? position c
       then c ← chacha20_block_next c; Ret (set_stream_position c 0)
       else Ret c);
  w ← aget (keystream32 c) (position c / 4);
  Ret (set_stream_position c (i32 (position c + 1)), byte_of w (position c mod 4)).

Fixpoint chacha20_xor (c : chacha20_context) (bytes : list Z) : outcome (chacha20_context * list Z) :=
  match bytes with
  | [] => Ret (c, [])
  | b :: bytes' =>
      '(c, k) ← stream_byte c;
      '(c, out) ← chacha20_xor c bytes';
      Ret (c, i8 (Z.lxor b k) :: out)
  end.

(** ** The generator *)

Record chacha20_rng := mkrng {
  r_key : list Z; r_nonce : list Z; r_state : list Z; r_keystream32 : list Z;
  r_counter : Z; r_position : Z
}.

Definition set_rng_position r p :=
  mkrng (r_key r) (r_nonce r) (r_state r) (r_keystream32 r) (r_counter r) p.

Definition rng_block_next (r : chacha20_rng) : outcome chacha20_rng :=
  x ← rounds 10 (r_state r);
  let ks := add_words x (r_state r) in
  s13 ← aget (r_state r) 13;
  s12 ← aget (r_state r) 12;
  let ctr := u64 (Z.lor (u64 (Z.shiftl s13 32)) (u32 s12) + 1) in
  s ← aset (r_state r) 12 (i32 ctr);
  s ← aset s 13 (i32 (Z.shiftr ctr 32));
  Ret (mkrng (r_key r) (r_nonce r) s ks (r_counter r) (r_position r)).

Definition zero_rng : chacha20_rng :=
  mkrng (replicate 32 0) (replicate 12 0) (replicate 16 0) (replicate 16 0) 0 0.

Definition seed_byte (seed i : Z) : Z := i8 (Z.shiftr seed (i mod 8 * 8)).

(** chacha20_init_block and chacha20_block_set_counter of chacha20_rng.c. *)
Definition rng_init_block (r : chacha20_rng) (k n : list Z) : outcome chacha20_rng :=
  k' ← memory_copy (r_key r) k 32;
  n' ← memory_copy (r_nonce r) n 12;
  s ← init_state k n;
  Ret (mkrng k' n' s (r_keystream32 r) (r_counter r) (r_position r)).

Definition rng_block_set_counter (r : chacha20_rng) (ctr : Z) : outcome chacha20_rng :=
  s ← aset (r_state r) 12 (i32 ctr);
  w ← pack4 (r_nonce r) 0;
  s ← aset s 13 (i32 (w + i32 (Z.shiftr ctr 32)));
  Ret (mkrng (r_key r) (r_nonce r) s (r_keystream32 r) (r_counter r) (r_position r)).

Definition chacha20_rng_init (seed : Z) : outcome chacha20_rng :=
  let k := map (seed_byte seed) (seqZ 0 32) in
  let n := map (fun i => i8 (Z.lxor (seed_byte seed i) 0xAA)) (seqZ 0 12) in
  r ← rng_init_block zero_rng k n;
  r ← rng_block_set_counter r 0;
  Ret (mkrng (r_key r) (r_nonce r) (r_state r) (r_keystream32 r) 0 64).

(** The refill at the head of the output functions. *)
Definition refill (r : chacha20_rng) : outcome chacha20_rng :=
  if 64 <=? r_position r
  then r ← rng_block_next r; Ret (set_rng_position r 0)
  else Ret r.

Definition chacha20_rng_next32 (r : chacha20_rng) : outcome (chacha20_rng * Z) :=
  r ← refill r;
  w ← aget (r_keystream32 r) (r_position r / 4);
  Ret (set_rng_position r (i32 (r_position r + 4)), w).

Definition chacha20_rng_next64 (r : chacha20_rng) : outcome (chacha20_rng * Z) :=
  '(r, high) ← chacha20_rng_next32 r;
  '(r, low) ← chacha20_rng_next32 r;
  Ret (r, Z.lor (u64 (Z.shiftl (u32 high) 32)) (u32 low)).

Fixpoint chacha20_rng_bytes (r : chacha20_rng) (size : nat) : outcome (chacha20_rng * list Z) :=
  match size with
  | O => Ret (r, [])
  | S n =>
      r ← refill r;
      w ← aget (r_keystream32 r) (r_position r / 4);
      let b := byte_of w (r_position r mod 4) in
      '(r, out) ← chacha20_rng_bytes (set_rng_position r (i32 (r_position r + 1))) n;
      Ret (r, b :: out)
  end.

(** * The stream cipher and the random generator: theorems

    Encryption and decryption are inverse and independent of how the data is
    cut into calls; the two output functions of the generator agree on aligned
    output.  The rotation of the code is not the rotation of ChaCha20: on
    negative words it fills the low bits with ones, so that the key stream is
    not the one of RFC 8439. *)

(** ** Signed bytes *)

Lemma in_s_shiftr w x : 0 < w -> in_s w x <-> Z.shiftr x (w - 1) = 0 \/ Z.shiftr x (w - 1) = -1.
Proof.
  intros Hw. unfold in_s. rewrite Z.shiftr_div_pow2 by lia.
  pose proof (Z.pow_pos_nonneg 2 (w - 1) ltac:(lia) ltac:(lia)). set (p := 2 ^ (w - 1)) in *.
  pose proof (Z.div_mod x p ltac:(lia)). pose proof (Z.mod_pos_bound x p ltac:(lia)). nia.
Qed.

Lemma lxor_in_s w a b : 0 < w -> in_s w a -> in_s w b -> in_s w (Z.lxor a b).
Proof.
  intros Hw. rewrite !in_s_shiftr by done. rewrite Z.shiftr_lxor. intros [-> | ->] [-> | ->]; auto.
Qed.

Lemma xor_twice b k : in_s 8 b -> in_s 8 k -> i8 (Z.lxor (i8 (Z.lxor b k)) k) = b.
Proof.
  intros Hb Hk. pose proof (lxor_in_s 8 b k ltac:(lia) Hb Hk) as Hx.
  unfold in_s in *. change (2 ^ (8 - 1)) with 128 in *.
  rewrite (i8_id (Z.lxor b k)) by done.
  rewrite Z.lxor_assoc, Z.lxor_nilpotent, Z.lxor_0_r. by apply i8_id.
Qed.

Lemma byte_of_range w i : in_s 8 (byte_of w i).
Proof. unfold byte_of, in_s. change (2 ^ (8 - 1)) with 128. apply i8_range. Qed.

(** ** The permutation is total on sixteen words *)

Lemma aset_len {A} (l : list A) i x : 0 <= i < len l -> exists l', aset l i x = Ret l' /\ len l' = len l.
Proof. intros Hi. rewrite aset_in_bounds by done. eexists. split; [done|]. apply len_insert. Qed.

(** Steps an access whose index is in range. *)
Ltac word :=
  match goal with
  | |- context [aget ?l ?i] =>
      let x := fresh "w" in destruct (aget_in_bounds l i) as (x & -> & _); [lia|]
  | |- context [aset ?l ?i ?x] =>
      let l' := fresh "l" in let H := fresh "Hlen" in
      destruct (aset_len l i x) as (l' & -> & H); [lia|]
  end; cbn [mbind outcome_bind].

Lemma quarter_round_ok a b c d x :
  0 <= a < 16 -> 0 <= b < 16 -> 0 <= c < 16 -> 0 <= d < 16 -> len x = 16 ->
  runs_to (quarter_round a b c d x) (fun x' => len x' = 16).
Proof.
  intros Ha Hb Hc Hd Hx. unfold quarter_round. do 11 word. word. do 12 word. cbn [runs_to]. lia.
Qed.

Lemma double_round_ok x : len x = 16 -> runs_to (double_round x) (fun x' => len x' = 16).
Proof.
  intros Hx. unfold double_round.
  do 7 (eapply runs_to_bind; [by apply quarter_round_ok|]; clear x Hx; intros x Hx).
  by apply quarter_round_ok.
Qed.

Lemma rounds_ok n : forall x, len x = 16 -> runs_to (rounds n x) (fun x' => len x' = 16).
Proof.
  induction n as [|n IH]; intros x Hx; [done|]. cbn [rounds].
  eapply runs_to_bind; [by apply double_round_ok|]. apply IH.
Qed.

Lemma add_words_len x s : len x = 16 -> len s = 16 -> len (add_words x s) = 16.
Proof. unfold add_words, len. intros. rewrite length_zip_with. lia. Qed.

Lemma pack4_ok a off : 0 <= off -> off + 4 <= len a -> exists w, pack4 a off = Ret w.
Proof. intros. unfold pack4. do 4 word. eauto. Qed.

Lemma copy_loop_ok src n : forall dst i,
  0 <= i -> i + Z.of_nat n <= len src -> len src <= len dst ->
  runs_to (copy_loop dst src i n) (fun d => len d = len dst).
Proof.
  induction n as [|n IH]; intros dst i Hi Hs Hd; [done|]. cbn [copy_loop]. word. word.
  eapply runs_to_mono; [apply IH; lia|]. simpl. lia.
Qed.

Lemma init_state_ok k n : len k = 32 -> len n = 12 -> runs_to (init_state k n) (fun s => len s = 16).
Proof.
  intros Hk Hn. unfold init_state.
  assert (Hm : len magic_constant = 16) by done.
  do 15 (match goal with |- context [pack4 ?a ?o] => destruct (pack4_ok a o) as [? ->]; [lia..|] end;
         cbn [mbind outcome_bind]). done.
Qed.

(** ** The cipher *)

Record ctx_wf (c : chacha20_context) : Prop := {
  cw_stream : len (keystream32 c) = 16;
  cw_state : len (state c) = 16;
  cw_position : 0 <= position c <= 64
}.

Lemma block_next_ok c :
  len (state c) = 16 -> runs_to (chacha20_block_next c) (fun c' =>
    len (keystream32 c') = 16 /\ len (state c') = 16).
Proof.
  intros Hs. unfold chacha20_block_next. eapply runs_to_bind; [by apply rounds_ok|]. intros x Hx.
  cbv zeta. word. word. destruct (_ =? 0).
  - word. word. cbn [runs_to keystream32 state]. split; [by apply add_words_len|lia].
  - cbn [mbind outcome_bind runs_to keystream32 state]. split; [by apply add_words_len|lia].
Qed.

Lemma stream_byte_ok c :
  ctx_wf c -> runs_to (stream_byte c) (fun '(c', k) => ctx_wf c' /\ in_s 8 k).
Proof.
  intros [Hk Hs Hp]. unfold stream_byte.
  eapply (runs_to_bind _ _ (fun c => ctx_wf c /\ position c < 64)).
  - destruct (Z.leb_spec 64 (position c)); [|by split; [constructor|]].
    eapply runs_to_bind; [by apply block_next_ok|]. intros c1 [Hk1 Hs1].
    split; [constructor; simpl; lia|simpl; lia].
  - intros c1 [[Hk1 Hs1 Hp1] Hlt].
    assert (0 <= position c1 / 4 < 16) by (split; [apply Z.div_pos; lia|apply Z.div_lt_upper_bound; lia]).
    word. cbn [runs_to]. split; [|apply byte_of_range]. constructor; cbn [set_stream_position keystream32 state position]; [lia..|].
    rewrite i32_id; lia.
Qed.

Lemma init_context_ok k n ctr :
  len k = 32 -> len n = 12 -> runs_to (chacha20_init_context k n ctr) ctx_wf.
Proof.
  intros Hk Hn. unfold chacha20_init_context, chacha20_init_block, memory_copy.
  eapply (runs_to_bind _ _ (fun c => len (state c) = 16 /\ len (nonce c) = 12 /\ len (keystream32 c) = 16)).
  - eapply runs_to_bind; [apply copy_loop_ok; [lia|simpl; lia|rewrite Hk; done]|]. intros k' _.
    eapply runs_to_bind; [apply copy_loop_ok; [lia|simpl; lia|rewrite Hn; done]|]. intros n' Hn'.
    eapply runs_to_bind; [by apply init_state_ok|]. intros s Hs. done.
  - intros c (Hs & Hn' & Hks). unfold chacha20_block_set_counter.
    word. destruct (pack4_ok (nonce c) 0) as [w ->]; [lia..|]. cbn [mbind outcome_bind]. word.
    cbn [runs_to set_state]. constructor; simpl; lia.
Qed.

(** Applying the cipher to its own output from the same state restores the
    input and ends in the same state. *)
Lemma xor_involutive bs : forall c, ctx_wf c -> Forall (in_s 8) bs ->
  runs_to (chacha20_xor c bs) (fun '(c', out) =>
    ctx_wf c' /\ len out = len bs /\ Forall (in_s 8) out /\ chacha20_xor c out = Ret (c', bs)).
Proof.
  induction bs as [|b bs IH]; intros c Hc Hbs; cbn [chacha20_xor]; [done|].
  apply Forall_cons in Hbs as [Hb Hbs]. pose proof (stream_byte_ok c Hc) as Hs.
  apply runs_to_inv in Hs as ([c1 k] & E & Hc1 & Hk). rewrite E. cbn [mbind outcome_bind].
  eapply runs_to_bind; [by apply IH|]. intros [c2 out] (Hc2 & Hlen & Hout & Hinv). cbn [runs_to].
  split_and!; [done|unfold len in *; simpl; lia|constructor; [|done]|].
  - unfold in_s. change (2 ^ (8 - 1)) with 128. apply i8_range.
  - cbn [chacha20_xor]. rewrite E. cbn [mbind outcome_bind]. rewrite Hinv. cbn [mbind outcome_bind].
    by rewrite xor_twice.
Qed.

Lemma xor_app bs1 : forall c bs2,
  chacha20_xor c (bs1 ++ bs2) =
  '(c, o1) ← chacha20_xor c bs1; '(c, o2) ← chacha20_xor c bs2; Ret (c, o1 ++ o2).
Proof.
  induction bs1 as [|b bs1 IH]; intros c bs2; cbn [chacha20_xor app].
  - cbn [mbind outcome_bind]. by destruct (chacha20_xor c bs2) as [[]| |].
  - destruct (stream_byte c) as [[c1 k]| |]; cbn [mbind outcome_bind]; [|done..]. rewrite IH.
    destruct (chacha20_xor c1 bs1) as [[c2 o1]| |]; cbn [mbind outcome_bind]; [|done..].
    by destruct (chacha20_xor c2 bs2) as [[c3 o2]| |].
Qed.

(** Encryption round trip: for a 32-byte key and a 12-byte nonce the
    cipher is defined on every message; encrypting it in two calls, cut
    anywhere, gives the same bytes as in one, and decrypting the result with a
    context initialised from the same key, nonce and counter gives the message
    back. *)
Theorem cipher_roundtrip k n ctr m1 m2 :
  len k = 32 -> len n = 12 -> Forall (in_s 8) m1 -> Forall (in_s 8) m2 ->
  runs_to (chacha20_init_context k n ctr) (fun c0 =>
    runs_to (chacha20_xor c0 (m1 ++ m2)) (fun '(c2, out) =>
      runs_to (chacha20_xor c0 m1) (fun '(c1, o1) =>
        exists o2, chacha20_xor c1 m2 = Ret (c2, o2) /\ out = o1 ++ o2) /\
      chacha20_xor c0 out = Ret (c2, m1 ++ m2))).
Proof.
  intros Hk Hn H1 H2. eapply runs_to_mono; [by apply init_context_ok|]. intros c0 Hc.
  assert (H12 : Forall (in_s 8) (m1 ++ m2)) by by apply Forall_app.
  pose proof (xor_involutive (m1 ++ m2) c0 Hc H12) as Hx.
  apply runs_to_inv in Hx as ([c2 out] & E & _ & _ & _ & Hinv). rewrite E. cbn [runs_to]. split; [|done].
  rewrite xor_app in E. destruct (chacha20_xor c0 m1) as [[c1 o1]| |]; [|done..]. cbn [mbind outcome_bind runs_to] in *.
  destruct (chacha20_xor c1 m2) as [[c3 o2]| |]; [|done..]. cbn [mbind outcome_bind] in E.
  injection E as <- <-. eauto.
Qed.

(** ** The rotation *)

Lemma i32_mod x : i32 x mod 2 ^ 32 = x mod 2 ^ 32.
Proof.
  unfold i32, wraps. rewrite Zminus_mod_idemp_l. f_equal. lia.
Qed.

Lemma u32_i32 x : u32 (i32 x) = u32 x.
Proof. apply i32_mod. Qed.

Lemma i32_testbit x i : 0 <= i < 32 -> Z.testbit (i32 x) i = Z.testbit x i.
Proof.
  intros Hi. rewrite <- (Z.mod_pow2_bits_low (i32 x) 32 i), <- (Z.mod_pow2_bits_low x 32 i) by lia.
  by rewrite i32_mod.
Qed.

(** The bits above 31 of an [int32_t] are copies of its sign. *)
Lemma negative_high_bits x i : in_s 32 x -> x < 0 -> 31 <= i -> Z.testbit x i = true.
Proof.
  intros Hx Hneg Hi. destruct (proj1 (in_s_shiftr 32 x ltac:(lia)) Hx) as [E|E].
  - exfalso. pose proof (Z.shiftr_neg x (32 - 1)). lia.
  - replace i with ((i - 31) + 31) by lia. rewrite <- Z.shiftr_spec by lia.
    change (32 - 1) with 31 in E. rewrite E. apply Z.bits_m1. lia.
Qed.

Lemma rotl32_negative x n : in_s 32 x -> x < 0 -> 0 < n < 32 -> rotl32 x n = Z.shiftr x (32 - n).
Proof.
  intros Hx Hneg Hn. unfold rotl32. apply Z.bits_inj'. intros i Hi. rewrite Z.lor_spec.
  destruct (Z.lt_ge_cases i n).
  - rewrite i32_testbit by lia. by rewrite Z.shiftl_spec_low by lia.
  - rewrite Z.shiftr_spec by lia. rewrite (negative_high_bits x (i + (32 - n))) by (done || lia). apply orb_true_r.
Qed.

(** The rotation of RFC 8439 on 32-bit words. *)
Definition rfc_rotl (x n : Z) : Z := Z.lor (u32 (Z.shiftl x n)) (Z.shiftr x (32 - n)).

Lemma u32_lor a b : u32 (Z.lor a b) = Z.lor (u32 a) (u32 b).
Proof.
  unfold u32, wrapu. rewrite <- !Z.land_ones by lia. apply Z.land_lor_distr_l.
Qed.

(** What the rotation of the code computes: on a word that is not negative
    as [int32_t], the rotation of RFC 8439; on a negative one an arithmetic
    right shift, which keeps only the top [n] bits of the word and replaces the
    other [32 - n] by ones. *)
Theorem rotl32_spec x n :
  in_s 32 x -> 0 < n < 32 ->
  (0 <= x -> u32 (rotl32 x n) = rfc_rotl (u32 x) n) /\
  (x < 0 -> rotl32 x n = Z.shiftr x (32 - n) /\ - 2 ^ (n - 1) <= rotl32 x n < 0).
Proof.
  intros Hx Hn. pose proof Hx as Hr. unfold in_s in Hr. split.
  - intros Hpos. unfold rotl32, rfc_rotl. rewrite u32_lor, u32_i32.
    assert (u32 x = x) as -> by (apply u32_id; lia). f_equal. apply u32_id.
    rewrite Z.shiftr_div_pow2 by lia. split; [apply Z.div_pos; lia|].
    apply Z.div_lt_upper_bound; [lia|]. pose proof (Z.pow_pos_nonneg 2 (32 - n) ltac:(lia) ltac:(lia)). nia.
  - intros Hneg. rewrite rotl32_negative by done. split; [done|].
    rewrite Z.shiftr_div_pow2 by lia. pose proof (Z.pow_pos_nonneg 2 (32 - n) ltac:(lia) ltac:(lia)).
    split; [|apply Z.div_lt_upper_bound; lia]. apply Z.div_le_lower_bound; [lia|].
    replace (2 ^ (32 - n) * - 2 ^ (n - 1)) with (- (2 ^ (32 - n) * 2 ^ (n - 1))) by lia.
    rewrite <- Z.pow_add_r by lia. replace (32 - n + (n - 1)) with (32 - 1) by lia. lia.
Qed.

(** *** The block function of RFC 8439 *)

Definition rfc_at (x : list Z) (i : nat) : Z := nth i x 0.

Definition rfc_quarter (a b c d : nat) (x : list Z) : list Z :=
  let step := fun (a b d : nat) (n : Z) (x : list Z) =>
    let x := <[a := u32 (rfc_at x a + rfc_at x b)]> x in
    <[d := rfc_rotl (Z.lxor (rfc_at x d) (rfc_at x a)) n]> x in
  step c d b 7 (step a b d 8 (step c d b 12 (step a b d 16 x))).

Definition rfc_double (x : list Z) : list Z :=
  rfc_quarter 3 4 9 14 (rfc_quarter 2 7 8 13 (rfc_quarter 1 6 11 12 (rfc_quarter 0 5 10 15
  (rfc_quarter 3 7 11 15 (rfc_quarter 2 6 10 14 (rfc_quarter 1 5 9 13 (rfc_quarter 0 4 8 12 x))))))).

Definition rfc_block (s : list Z) : list Z :=
  zip_with (fun a b => u32 (a + b)) (Nat.iter 10 rfc_double s) s.

(** The test vector of RFC 8439, section 2.3.2. *)
Definition rfc_key : list Z := seqZ 0 32.
Definition rfc_nonce : list Z := [0; 0; 0; 9; 0; 0; 0; 0x4a; 0; 0; 0; 0].


(** The key stream is not that of ChaCha20: on the key, nonce and counter
    of the test vector of RFC 8439 the RFC's block function (which gives the
    sixteen words printed there) and the code differ in the first word. *)
Theorem cipher_is_not_rfc8439 :
  runs_to (chacha20_init_context rfc_key rfc_nonce 1) (fun c =>
    rfc_block (map u32 (state c)) =
      [0xe4e7f110; 0x15593bd1; 0x1fdd0f50; 0xc47120a3; 0xc7f4d1c7; 0x0368c033; 0x9aaa2204; 0x4e6cd4c3;
       0x466482d2; 0x09aa9f07; 0x05d7c214; 0xa2028bd9; 0xd19c12b5; 0xb94e16de; 0xe883d0cb; 0x4e3c50a2] /\
    runs_to (chacha20_block_next c) (fun c' =>
      nth 0 (map u32 (keystream32 c')) 0 <> nth 0 (rfc_block (map u32 (state c))) 0)).
Proof. vm_compute. split; [reflexivity|discriminate]. Qed.

(** ** The generator *)

Record rng_wf (r : chacha20_rng) : Prop := {
  rw_stream : len (r_keystream32 r) = 16;
  rw_words : len (r_state r) = 16;
  rw_pos : 0 <= r_position r <= 67
}.

Definition aligned (r : chacha20_rng) : Prop := r_position r mod 4 = 0.

Lemma rng_block_next_ok r :
  len (r_state r) = 16 -> runs_to (rng_block_next r) (fun r' =>
    len (r_keystream32 r') = 16 /\ len (r_state r') = 16).
Proof.
  intros Hs. unfold rng_block_next. eapply runs_to_bind; [by apply rounds_ok|]. intros x Hx.
  cbv zeta. word. word. word. word. cbn [runs_to r_keystream32 r_state].
  split; [by apply add_words_len|lia].
Qed.

Lemma refill_ok r :
  rng_wf r -> runs_to (refill r) (fun r' =>
    rng_wf r' /\ r_position r' < 64 /\ (aligned r -> aligned r') /\ refill r' = Ret r').
Proof.
  intros [Hk Hs Hp]. unfold refill. destruct (Z.leb_spec 64 (r_position r)).
  - eapply runs_to_bind; [by apply rng_block_next_ok|]. intros r1 [Hk1 Hs1]. cbn [runs_to].
    split_and!; [constructor; simpl; lia|done..].
  - cbn [runs_to]. split_and!; [by constructor|done|done|].
    by destruct (Z.leb_spec 64 (r_position r)); [lia|].
Qed.

Lemma word_index p : 0 <= p < 64 -> 0 <= p / 4 < 16.
Proof. intros. split; [apply Z.div_pos; lia|apply Z.div_lt_upper_bound; lia]. Qed.

Lemma next32_ok r :
  rng_wf r -> runs_to (chacha20_rng_next32 r) (fun '(r', w) => rng_wf r' /\ (aligned r -> aligned r')).
Proof.
  intros Hr. unfold chacha20_rng_next32. eapply runs_to_bind; [by apply refill_ok|].
  intros r1 ([Hk Hs Hp] & Hlt & Hal & _). pose proof (word_index (r_position r1) ltac:(lia)). word.
  cbn [runs_to]. split; [constructor; cbn [set_rng_position r_keystream32 r_state r_position]; [lia..|]|].
  - rewrite i32_id; lia.
  - intros Ha. specialize (Hal Ha). unfold aligned in *. cbn [set_rng_position r_position].
    rewrite i32_id by lia. by rewrite <- Z.add_mod_idemp_r, Z.mod_same, Z.add_0_r by lia.
Qed.

Lemma rng_init_block_ok k n :
  len k = 32 -> len n = 12 ->
  runs_to (rng_init_block zero_rng k n) (fun r =>
    len (r_nonce r) = 12 /\ len (r_state r) = 16 /\ r_keystream32 r = r_keystream32 zero_rng).
Proof.
  intros Hk Hn. unfold rng_init_block, memory_copy.
  eapply runs_to_bind; [apply copy_loop_ok; [lia|lia|by rewrite Hk]|]. intros k' _.
  eapply runs_to_bind; [apply copy_loop_ok; [lia|lia|by rewrite Hn]|]. intros n' Hn'.
  eapply runs_to_bind; [by apply init_state_ok|]. intros s Hs. done.
Qed.

Lemma rng_init_ok seed : runs_to (chacha20_rng_init seed) (fun r => rng_wf r /\ aligned r).
Proof.
  unfold chacha20_rng_init. cbv zeta.
  eapply runs_to_bind; [by apply rng_init_block_ok|]. intros r (Hn & Hs & Hks).
  unfold rng_block_set_counter. word.
  destruct (pack4_ok (r_nonce r) 0) as [w ->]; [lia..|]. cbn [mbind outcome_bind]. word. cbn [runs_to].
  split; [|done]. constructor; cbn [r_keystream32 r_state r_position]; [by rewrite Hks|lia|lia].
Qed.

(** [n] words from the generator. *)
Fixpoint next_words (r : chacha20_rng) (n : nat) : outcome (chacha20_rng * list Z) :=
  match n with
  | O => Ret (r, [])
  | S n' =>
      '(r, w) ← chacha20_rng_next32 r;
      '(r, ws) ← next_words r n';
      Ret (r, w :: ws)
  end.

Definition word_bytes (w : Z) : list Z := [byte_of w 0; byte_of w 1; byte_of w 2; byte_of w 3].

(** One byte inside a word that is not refilled. *)
Lemma bytes_step r j n :
  rng_wf r -> aligned r -> 0 <= r_position r < 64 -> 0 <= j < 4 ->
  chacha20_rng_bytes (set_rng_position r (r_position r + j)) (S n) =
  (w ← aget (r_keystream32 r) (r_position r / 4);
   '(r', out) ← chacha20_rng_bytes (set_rng_position r (r_position r + j + 1)) n;
   Ret (r', byte_of w j :: out)).
Proof.
  intros Hr Ha Hp Hj. unfold aligned in Ha.
  assert (Hd : r_position r = 4 * (r_position r / 4)) by (apply Z.div_exact; lia).
  set (q := r_position r / 4) in *. assert (Hq : 0 <= q < 16) by lia.
  cbn [chacha20_rng_bytes]. unfold refill at 1.
  cbn [set_rng_position r_position r_keystream32].
  destruct (Z.leb_spec 64 (r_position r + j)); [lia|]. cbn [mbind outcome_bind].
  cbn [set_rng_position r_position r_keystream32].
  rewrite Hd, i32_id by lia. replace ((4 * q + j) / 4) with q by (apply (Z.div_unique_pos _ _ _ j); lia).
  replace ((4 * q + j) mod 4) with j by (apply (Z.mod_unique_pos _ _ q); lia). done.
Qed.

Lemma word_as_bytes r n :
  rng_wf r -> aligned r ->
  chacha20_rng_bytes r (4 + n) =
  ('(r, w) ← chacha20_rng_next32 r;
   '(r, out) ← chacha20_rng_bytes r n; Ret (r, word_bytes w ++ out)).
Proof.
  intros Hr Ha. pose proof (refill_ok r Hr) as Hf.
  apply runs_to_inv in Hf as (r1 & Er & Hr1 & Hlt & Hal & Er1). specialize (Hal Ha).
  pose proof (rw_pos _ Hr1) as Hp. pose proof (word_index (r_position r1) ltac:(lia)) as Hw.
  assert (E0 : chacha20_rng_bytes r (4 + n) = chacha20_rng_bytes (set_rng_position r1 (r_position r1 + 0)) (4 + n)).
  { assert (set_rng_position r1 (r_position r1 + 0) = r1) as -> by (rewrite Z.add_0_r; by destruct r1).
    cbn [chacha20_rng_bytes Nat.add]. by rewrite Er, Er1. }
  rewrite E0. cbn [Nat.add]. unfold chacha20_rng_next32. rewrite Er. cbn [mbind outcome_bind].
  pose proof (rw_stream _ Hr1) as Hk. rewrite bytes_step by (done || lia).
  destruct (aget_in_bounds (r_keystream32 r1) (r_position r1 / 4)) as (w & Ew & _); [lia|].
  rewrite Ew. cbn [mbind outcome_bind]. rewrite i32_id by lia.
  replace (r_position r1 + 0 + 1) with (r_position r1 + 1) by lia. rewrite bytes_step by (done || lia).
  rewrite Ew. cbn [mbind outcome_bind].
  replace (r_position r1 + 1 + 1) with (r_position r1 + 2) by lia. rewrite bytes_step by (done || lia).
  rewrite Ew. cbn [mbind outcome_bind].
  replace (r_position r1 + 2 + 1) with (r_position r1 + 3) by lia. rewrite bytes_step by (done || lia).
  rewrite Ew. cbn [mbind outcome_bind].
  replace (r_position r1 + 3 + 1) with (r_position r1 + 4) by lia.
  by destruct (chacha20_rng_bytes (set_rng_position r1 (r_position r1 + 4)) n) as [[]| |].
Qed.

(** The generator never fails from any seed, and its two output functions
    produce one stream: from the state after initialisation, asking for [4 n]
    bytes gives the bytes, least significant first, of [n] successive 32-bit
    outputs and leaves the generator in the same state. *)
Theorem rng_bytes_are_words seed n :
  runs_to (chacha20_rng_init seed) (fun r =>
    runs_to (next_words r n) (fun '(r', ws) =>
      chacha20_rng_bytes r (4 * n) = Ret (r', concat (map word_bytes ws)))).
Proof.
  eapply (runs_to_mono _ (fun r => rng_wf r /\ aligned r)); [by apply rng_init_ok|].
  induction n as [|n IH]; intros r [Hr Ha]; [done|]. cbn [next_words].
  pose proof (next32_ok r Hr) as Hn. apply runs_to_inv in Hn as ([r1 w] & E1 & Hr1 & Ha1).
  rewrite E1. cbn [mbind outcome_bind].
  replace (4 * S n)%nat with (4 + 4 * n)%nat by lia. rewrite word_as_bytes, E1 by done.
  eapply runs_to_bind; [apply IH; auto|]. intros [r2 ws] E2. cbn [runs_to mbind outcome_bind].
  rewrite E2. cbn [mbind outcome_bind]. done.
Qed.

(** ** The theorems on concrete inputs *)

Lemma cipher_roundtrip_witness :
  runs_to (chacha20_init_context rfc_key rfc_nonce 1) (fun c0 =>
    runs_to (chacha20_xor c0 ([1; -2] ++ [3])) (fun '(c2, out) =>
      runs_to (chacha20_xor c0 [1; -2]) (fun '(c1, o1) =>
        exists o2, chacha20_xor c1 [3] = Ret (c2, o2) /\ out = o1 ++ o2) /\
      chacha20_xor c0 out = Ret (c2, [1; -2] ++ [3]))).
Proof.
  apply (cipher_roundtrip rfc_key rfc_nonce 1 [1; -2] [3]); [reflexivity|reflexivity|..];
    repeat constructor; unfold in_s; lia.
Defined.

Lemma rotl32_spec_witness :
  (0 <= -5 -> u32 (rotl32 (-5) 7) = rfc_rotl (u32 (-5)) 7) /\
  (-5 < 0 -> rotl32 (-5) 7 = Z.shiftr (-5) (32 - 7) /\ - 2 ^ (7 - 1) <= rotl32 (-5) 7 < 0).
Proof. apply (rotl32_spec (-5) 7); [unfold in_s; lia|lia]. Defined.
