(* ===== verification/DevFs.v ===== *)
(** * devfs

    core/fs/devfs.c: a table of 32 devices with their callbacks, served as a file
    system that is mounted on "/dev".  The callbacks that the kernel registers
    are the constructors of [read_fn] and [write_fn]; entropy, console and timer
    are the class [DevHost].  devfs calls every callback with a NULL file.

    [devfs_register_find]: the table is a map with room for 32 names;
    [urandom_stream]: the reads of /dev/urandom are consecutive pieces of one
    stream; [std_fds_unlinked]: the standard descriptors get no device. *)

From S2P Require Import Prelude Bytes Vfs VfsProofs VfsOps VfsTable BlockDev Chacha20.

Definition MAX_DEVICES : Z := 32.
Definition DEV_NAME_SIZE : Z := 64.
Definition DEVFS_HANDLE_SIZE : Z := 16.      (** sizeof(devfs_handle_t) *)
Definition VFS_S_IFCHR : Z := 0x2000.
Definition VFS_FS_NODEV : Z := 0x02.
Definition VFS_FS_VIRTUAL : Z := 0x04.

(** The callbacks, as the function pointers of the table. *)
Inductive read_fn :=
| dev_null_read | dev_zero_read | dev_full_read | dev_urandom_read | dev_tty_read | dev_time_read | bdev_read_fn.
Inductive write_fn :=
| dev_null_write | dev_zero_write | dev_full_write | dev_urandom_write | dev_tty_write | bdev_write_fn.
Inductive seek_fn := dev_null_seek.

Record devfs_device := mkdev {
  dv_name : list Z;
  dv_read : option read_fn;
  dv_write : option write_fn;
  dv_seek : option seek_fn;
  dv_ioctl : option Z;
  dv_data : Z;
  dv_used : bool;
}.

(** The table, and the generator of dev_urandom_read once it is initialised. *)
Record devfs := mkdevfs {
  devices : list devfs_device;
  urandom : option chacha20_rng;
}.

Record devfs_handle := mkdh { dh_dev : Z; dh_pos : Z }.

Definition devfs_find_device (s : devfs) (name : list Z) : option Z :=
  first_index (fun d => dv_used d && str_eq (dv_name d) name) (devices s).

(** The first free entry is taken; a full table ignores the device. *)
Definition devfs_register_device (name : list Z) (r : option read_fn) (wr : option write_fn) (data : Z) (s : devfs)
  : outcome devfs :=
  match first_index (fun d => negb (dv_used d)) (devices s) with
  | None => Ret s
  | Some i =>
      name ← strcpy_into DEV_NAME_SIZE name;
      ds ← aset (devices s) i (mkdev name r wr None None data true);
      Ret (mkdevfs ds (urandom s))
  end.

(** ** What the devices use *)

Class DevHost (H : Type) := {
  get_hw_entropy : H -> Z * H;
  tty_puts : list Z -> H -> H;
  timer_get_readable : H -> list Z * H;          (** into a buffer of 128 bytes *)
  call_ioctl : Z -> Z -> Z -> H -> Z * H;
}.

Section DevFs.
Context {H : Type} {DH : DevHost H}.

(** ** Device callbacks: the result, the bytes stored in the buffer and the
    position; [count] is the size of the buffer. *)

Definition urandom_read (count : Z) (s : devfs) (h : H) : outcome (Z * list Z * devfs * H) :=
  '(rng, h) ← match urandom s with
              | Some rng => Ret (rng, h)
              | None => let '(seed, h) := get_hw_entropy h in rng ← chacha20_rng_init seed; Ret (rng, h)
              end;
  let n := if 1024 <? count then 1024 else count in
  '(rng, bytes) ← chacha20_rng_bytes rng (Z.to_nat n);
  Ret (n, bytes, mkdevfs (devices s) (Some rng), h).

Definition time_read (count pos : Z) (h : H) : Z * list Z * Z * H :=
  if 0 <? pos then (0, [], pos, h)
  else
    let '(str, h) := timer_get_readable h in
    let count := if len str <? count then len str else count in
    (count, take (Z.to_nat count) str, count, h).

(** [file] is NULL in every call that devfs makes. *)
Definition call_read (f : read_fn) (count pos : Z) (s : devfs) (h : H) : outcome (Z * list Z * Z * devfs * H) :=
  match f with
  | dev_null_read => Ret (0, [], pos, s, h)
  | dev_zero_read | dev_full_read => Ret (count, replicate (Z.to_nat count) 0, pos, s, h)
  | dev_urandom_read => '(n, bytes, s, h) ← urandom_read count s h; Ret (n, bytes, pos, s, h)
  | dev_tty_read => Ret (1, [], pos, s, h)
  | dev_time_read => let '(n, bytes, pos, h) := time_read count pos h in Ret (n, bytes, pos, s, h)
  | bdev_read_fn => Ret (- EINVAL, [], pos, s, h)
  end.

(** The string at the start of a buffer. *)
Fixpoint string_at (buf : list Z) : outcome (list Z) :=
  match buf with
  | [] => Fault OutOfBounds
  | c :: buf' => if c =? 0 then Ret [] else s ← string_at buf'; Ret (c :: s)
  end.

(** [buf]: the memory from the buffer on, of which [count] bytes are meant. *)
Definition call_write (f : write_fn) (buf : list Z) (count : Z) (h : H) : outcome (Z * H) :=
  match f with
  | dev_null_write | dev_zero_write => Ret (count, h)
  | dev_full_write => Ret (- ENOSPC, h)
  | dev_urandom_write => Ret (- EACCES, h)
  | dev_tty_write => str ← string_at buf; Ret (count, tty_puts str h)
  | bdev_write_fn => Ret (- EINVAL, h)
  end.

(** ** The file system *)

(** The result and the private data of the mount. *)
Definition devfs_mount : Z * Z := (0, 0).
Definition devfs_unmount : Z := 0.

Definition devfs_is_root (path : list Z) : bool := str_eq path [] || str_eq path [SLASH].

(** [alloc]: the address kmalloc returned.  The handle, or an error. *)
Definition devfs_open (path : list Z) (alloc : option Z) (s : devfs) : rc (Z * devfs_handle) :=
  if devfs_is_root path then Err (- EISDIR)
  else match devfs_find_device s path with
       | None => Err (- ENOENT)
       | Some i => match alloc with None => Err (- ENOMEM) | Some p => Ok (p, mkdh i 0) end
       end.

(** The addresses that are released; private_data keeps the pointer. *)
Definition devfs_close (private_data : option Z) : list Z :=
  match private_data with Some p => [p] | None => [] end.

Definition devfs_read (hd : option devfs_handle) (count : Z) (s : devfs) (h : H)
  : outcome (Z * list Z * option devfs_handle * devfs * H) :=
  match hd with
  | None => Ret (- EACCES, [], None, s, h)
  | Some x =>
      d ← aget (devices s) (dh_dev x);
      match dv_read d with
      | None => Ret (- EACCES, [], hd, s, h)
      | Some f =>
          '(n, bytes, pos, s, h) ← call_read f count (dh_pos x) s h;
          Ret (n, bytes, Some (mkdh (dh_dev x) pos), s, h)
      end
  end.

Definition devfs_write (hd : option devfs_handle) (buf : list Z) (count : Z) (s : devfs) (h : H) : outcome (Z * H) :=
  match hd with
  | None => Ret (- EACCES, h)
  | Some x =>
      d ← aget (devices s) (dh_dev x);
      match dv_write d with
      | None => Ret (- EACCES, h)
      | Some f => call_write f buf count h
      end
  end.

(** The result and the handle. *)
Definition devfs_seek (hd : option devfs_handle) (offset whence : Z) (s : devfs) : outcome (Z * option devfs_handle) :=
  match hd with
  | None => Ret (- EBADF, None)
  | Some x =>
      d ← aget (devices s) (dh_dev x);
      match dv_seek d with
      | Some dev_null_seek => Ret (0, Some (mkdh (dh_dev x) 0))
      | None =>
          let finish := fun p =>
            let p := if p <? 0 then 0 else p in Ret (p, Some (mkdh (dh_dev x) p)) in
          if whence =? VFS_SEEK_SET then finish offset
          else if whence =? VFS_SEEK_CUR then finish (i64 (dh_pos x + offset))
          else if whence =? VFS_SEEK_END then finish 0
          else Ret (- EINVAL, hd)
      end
  end.

Definition devfs_ioctl (hd : option devfs_handle) (req a : Z) (s : devfs) (h : H) : outcome (Z * H) :=
  match hd with
  | None => Ret (- EBADF, h)
  | Some x =>
      d ← aget (devices s) (dh_dev x);
      match dv_ioctl d with
      | Some f => Ret (call_ioctl f req a h)
      | None => Ret (- ENOTTY, h)
      end
  end.

Definition devfs_stat (path : list Z) (s : devfs) : rc vfs_stat_t :=
  if devfs_is_root path then Ok (mkstat (Z.lor VFS_S_IFDIR 493) 0 512 0)
  else match devfs_find_device s path with
       | Some _ => Ok (mkstat (Z.lor VFS_S_IFCHR 438) 0 512 0)
       | None => Err (- ENOENT)
       end.

(** The path is not looked at. *)
Fixpoint readdir_devices (ds : list devfs_device) (max : Z) (out : list vfs_dirent) : outcome (list vfs_dirent) :=
  match ds with
  | [] => Ret out
  | d :: ds' =>
      if negb (len out <? max) then Ret out
      else if dv_used d then
        name ← strcpy_into MAX_FILENAME (dv_name d);
        readdir_devices ds' max (out ++ [mkdirent name (type_code VFS_TYPE_DEVICE)])
      else readdir_devices ds' max out
  end.

Definition devfs_readdir (max : Z) (s : devfs) : outcome (list vfs_dirent) := readdir_devices (devices s) max [].
End DevFs.

(** ** Initialisation *)

Definition str_null : list Z := [110; 117; 108; 108].
Definition str_zero : list Z := [122; 101; 114; 111].
Definition str_full : list Z := [102; 117; 108; 108].
Definition str_urandom : list Z := [117; 114; 97; 110; 100; 111; 109].
Definition str_tty : list Z := [116; 116; 121].
Definition str_time : list Z := [116; 105; 109; 101].
Definition str_stdin : list Z := [115; 116; 100; 105; 110].
Definition str_stdout : list Z := [115; 116; 100; 111; 117; 116].
Definition str_stderr : list Z := [115; 116; 100; 101; 114; 114].
Definition str_devfs : list Z := [100; 101; 118; 102; 115].
Definition str_dev : list Z := [47; 100; 101; 118].

Definition register_devices (s : devfs) : outcome devfs :=
  s ← devfs_register_device str_null (Some dev_null_read) (Some dev_null_write) 0 s;
  s ← devfs_register_device str_zero (Some dev_zero_read) (Some dev_zero_write) 0 s;
  s ← devfs_register_device str_full (Some dev_full_read) (Some dev_full_write) 0 s;
  s ← devfs_register_device str_urandom (Some dev_urandom_read) (Some dev_urandom_write) 0 s;
  s ← devfs_register_device str_tty (Some dev_tty_read) (Some dev_tty_write) 0 s;
  s ← devfs_register_device str_time (Some dev_time_read) None 0 s;
  s ← devfs_register_device str_stdin None None 0 s;
  s ← devfs_register_device str_stdout None None 0 s;
  devfs_register_device str_stderr None None 0 s.

Section Init.
Context {V : Type} {VE : VfsEnv V}.

(** [ops]: the address of devfs_ops. *)
Definition devfs_init (ops : Z) (s : devfs) (v : vfs V) : outcome (devfs * vfs V) :=
  let ds := map (fun d => mkdev (dv_name d) (dv_read d) (dv_write d) (dv_seek d) (dv_ioctl d) (dv_data d) false)
              (devices s) in
  '(v, _) ← vfs_register_filesystem (Some str_devfs) (Some ops) (Z.lor VFS_FS_NODEV VFS_FS_VIRTUAL) v;
  '(v, _) ← vfs_mount_fs (Some str_devfs) (Some str_dev) None 0 0 v;
  s ← register_devices (mkdevfs ds (urandom s));
  v ← vfs_link_std_fd 0 DEV_STDIN v;
  v ← vfs_link_std_fd 1 DEV_STDOUT v;
  v ← vfs_link_std_fd 2 DEV_STDERR v;
  Ret (s, v).
End Init.

(** ** The table *)

Lemma find_insert (s : devfs) i d0 d name :
  devices s !! i = Some d0 -> dv_used d0 = false -> dv_name d <> name ->
  devfs_find_device (mkdevfs (<[i := d]> (devices s)) (urandom s)) name = devfs_find_device s name.
Proof.
  intros Hi Hu Hn. unfold devfs_find_device. cbn [devices]. eapply first_index_insert; [exact Hi|].
  rewrite Hu. unfold str_eq. rewrite bool_decide_false by done. apply andb_false_r.
Qed.

(** Registering a device under a new name adds it to the table, a map from names
    to devices, and changes nothing else; when all 32 entries are taken the
    device is dropped without an error. *)
Theorem devfs_register_find (s : devfs) name r wr data :
  len name < 64 -> devfs_find_device s name = None ->
  runs_to (devfs_register_device name r wr data s) (fun s' =>
    (forall name', name' <> name -> devfs_find_device s' name' = devfs_find_device s name') /\
    (Forall (fun d => dv_used d = true) (devices s) /\ s' = s \/
     exists i, devfs_find_device s' name = Some i /\
       devices s' !! Z.to_nat i = Some (mkdev name r wr None None data true))).
Proof.
  intros Hn Hnone. unfold devfs_register_device.
  destruct (first_index _ (devices s)) as [i|] eqn:Ei.
  2:{ split; [done|]. left. split; [|done]. apply first_index_None in Ei.
      eapply Forall_impl; [exact Ei|]. intros d Hd. by apply negb_false_iff. }
  apply first_index_Some in Ei as (Hi & d0 & Hd0 & Hu%negb_true_iff & _).
  unfold strcpy_into, DEV_NAME_SIZE. rewrite (proj2 (Z.ltb_lt _ 64)) by done. cbn [mbind outcome_bind].
  rewrite aset_in_bounds by done. cbn [mbind outcome_bind runs_to].
  split; [intros name' Hne; by eapply find_insert|]. right. exists i.
  assert (Hl : (Z.to_nat i < length (devices s))%nat) by (unfold len in Hi; lia).
  split; [|by apply list_lookup_insert_eq].
  unfold devfs_find_device in *. cbn [devices]. apply first_index_None in Hnone.
  rewrite <- (take_drop_middle _ _ _ Hd0) in Hnone |- *. apply Forall_app in Hnone as [Hpre _].
  rewrite insert_app_r_alt by (rewrite length_take; lia). rewrite length_take, Nat.min_l, Nat.sub_diag by lia.
  cbn [insert list_insert]. rewrite first_index_app; [|done|].
  - f_equal. unfold len. rewrite length_take. lia.
  - cbn. unfold str_eq. by rewrite bool_decide_true.
Qed.

(** ** /dev/urandom *)

Lemma rng_bytes_app r n : forall m,
  chacha20_rng_bytes r (n + m) =
    ('(r, b1) ← chacha20_rng_bytes r n; '(r, b2) ← chacha20_rng_bytes r m; Ret (r, b1 ++ b2)).
Proof.
  revert r. induction n as [|n IH]; intros r m; cbn [chacha20_rng_bytes Nat.add mbind outcome_bind].
  { by destruct (chacha20_rng_bytes r m) as [[? ?]| |]. }
  destruct (refill r) as [r1| |]; [|done..]. cbn [mbind outcome_bind].
  destruct (aget (r_keystream32 r1) (r_position r1 / 4)) as [w| |]; [|done..]. cbn [mbind outcome_bind].
  rewrite IH. destruct (chacha20_rng_bytes (set_rng_position r1 (i32 (r_position r1 + 1))) n) as [[r2 b1]| |]; [|done..].
  cbn [mbind outcome_bind]. by destruct (chacha20_rng_bytes r2 m) as [[r3 b2]| |].
Qed.

Lemma rng_bytes_ok n : forall r, rng_wf r ->
  runs_to (chacha20_rng_bytes r n) (fun '(r', b) => rng_wf r' /\ length b = n).
Proof.
  induction n as [|n IH]; intros r Hr; [done|]. cbn [chacha20_rng_bytes].
  eapply runs_to_bind; [by apply refill_ok|]. intros r1 (Hr1 & Hlt & _ & _).
  pose proof (rw_pos _ Hr1). pose proof (rw_stream _ Hr1).
  destruct (aget_in_bounds (r_keystream32 r1) (r_position r1 / 4)) as (w & -> & _).
  { split; [apply Z.div_pos; lia|]. apply Z.div_lt_upper_bound; lia. }
  cbn [mbind outcome_bind]. eapply runs_to_bind; [apply IH|].
  - destruct Hr1. split; cbn; [done|done|]. rewrite i32_id by lia. lia.
  - intros [r2 b] [Hr2 Hb]. split; [done|]. cbn. by rewrite Hb.
Qed.

Section Urandom.
Context {H : Type} {DH : DevHost H}.

(** The generator that the next read uses. *)
Definition generator (s : devfs) (h : H) : outcome chacha20_rng :=
  match urandom s with Some r => Ret r | None => chacha20_rng_init (get_hw_entropy h).1 end.

Definition urandom_wf (s : devfs) : Prop := forall r, urandom s = Some r -> rng_wf r.

Lemma urandom_read_ok n s h :
  urandom_wf s -> 0 <= n <= 1024 ->
  exists r r' b h', generator s h = Ret r /\ chacha20_rng_bytes r (Z.to_nat n) = Ret (r', b) /\ rng_wf r' /\
    len b = n /\ urandom_read n s h = Ret (n, b, mkdevfs (devices s) (Some r'), h') /\
    (is_Some (urandom s) -> h' = h).
Proof.
  intros Hwf Hn. assert (exists r, generator s h = Ret r /\ rng_wf r) as (r & Eg & Hr).
  { unfold generator, urandom_wf in *. destruct (urandom s) as [r|]; [eauto|].
    destruct (proj1 (runs_to_inv _ _) (rng_init_ok (get_hw_entropy h).1)) as (r & -> & Hr & _). eauto. }
  destruct (proj1 (runs_to_inv _ _) (rng_bytes_ok (Z.to_nat n) r Hr)) as ([r' b] & Eb & Hr' & Hl).
  exists r, r', b, (match urandom s with Some _ => h | None => (get_hw_entropy h).2 end).
  split_and!; [done|done|done|unfold len; lia| |by intros [x ->]].
  unfold urandom_read, generator in *. rewrite (proj2 (Z.ltb_ge 1024 n)) by lia.
  destruct (urandom s) as [r0|].
  - injection Eg as ->. cbn [mbind outcome_bind]. rewrite Eb. done.
  - destruct (get_hw_entropy h) as [seed h1]. cbn [fst snd] in *. rewrite Eg. cbn [mbind outcome_bind]. rewrite Eb. done.
Qed.

(** Two reads of /dev/urandom return consecutive pieces of one stream of the
    generator, which is seeded once; each read returns what was asked for, up to
    1024 bytes. *)
Theorem urandom_stream n m s h :
  urandom_wf s -> 0 <= n <= 1024 -> 0 <= m <= 1024 ->
  runs_to (urandom_read n s h) (fun '(r1, b1, s1, h1) =>
    runs_to (urandom_read m s1 h1) (fun '(r2, b2, _, h2) =>
      r1 = n /\ r2 = m /\ h2 = h1 /\ len b1 = n /\ len b2 = m /\
      runs_to (generator s h) (fun r =>
        runs_to (chacha20_rng_bytes r (Z.to_nat n + Z.to_nat m)) (fun '(_, b) => b = b1 ++ b2)))).
Proof.
  intros Hwf Hn Hm. destruct (urandom_read_ok n s h Hwf Hn) as (r & r1 & b1 & h1 & Eg & Eb & Hr1 & Hl & -> & _).
  cbn [runs_to]. set (s1 := mkdevfs (devices s) (Some r1)).
  assert (urandom_wf s1) as Hwf1 by (intros x [= <-]; done).
  destruct (urandom_read_ok m s1 h1 Hwf1 Hm) as (r2 & r3 & b2 & h2 & Eg2 & Eb2 & _ & Hl2 & -> & Hh).
  cbn [runs_to]. injection Eg2 as <-. rewrite Eg. cbn [runs_to].
  rewrite rng_bytes_app, Eb. cbn [mbind outcome_bind]. rewrite Eb2. cbn.
  split_and!; try done. apply Hh. by eexists.
Qed.
End Urandom.

(** ** devfs in the VFS *)

Lemma register_device_size name r wr data s :
  len name < 64 -> runs_to (devfs_register_device name r wr data s) (fun s' => len (devices s') = len (devices s)).
Proof.
  intros Hn. unfold devfs_register_device. destruct (first_index _ (devices s)) as [i|] eqn:Ei; [|done].
  apply first_index_Some in Ei as (Hi & _). unfold strcpy_into, DEV_NAME_SIZE.
  rewrite (proj2 (Z.ltb_lt _ 64)) by done. cbn [mbind outcome_bind]. rewrite aset_in_bounds by done.
  cbn. by rewrite len_insert.
Qed.

Lemma register_devices_runs s : runs_to (register_devices s) (fun _ => True).
Proof.
  unfold register_devices.
  repeat (eapply runs_to_bind; [by apply register_device_size|intros ? _]).
  eapply runs_to_mono; [by apply register_device_size|done].
Qed.

Section InVfs.
Context {V : Type} {VE : VfsEnv V}.
Implicit Types v : vfs V.

Lemma find_file_set_other v v' i f name :
  files_set v v' i f -> f_name f <> name -> find_file v name = None -> find_file v' name = None.
Proof.
  intros [-> Hi] Hn Hnone. unfold find_file in *. cbn [with_files files].
  apply first_index_None in Hnone. apply first_index_None.
  apply Forall_insert; [done|]. unfold str_eq. rewrite bool_decide_false by done. apply andb_false_r.
Qed.

Lemma mkdir_other v v' r dirname name :
  vfs_wf v -> vfs_mkdir dirname v = Ret (v', r) -> name <> dirname -> find_file v name = None -> find_file v' name = None.
Proof.
  intros Hw E Hne Hnone. pose proof (mkdir_ok dirname v Hw) as H. rewrite E in H.
  destruct H as (_ & _ & [->|(f & Hf & _ & _ & Hn & _)]); [done|].
  eapply find_file_set_other; [exact Hf|congruence|done].
Qed.

(** Mounting adds the mount point to the file table and no other name. *)
Lemma mount_other fs_name mp device flags data v v' r name :
  vfs_wf v -> vfs_mount_fs fs_name (Some mp) device flags data v = Ret (v', r) ->
  name <> mp -> find_file v name = None -> find_file v' name = None.
Proof.
  intros Hw E Hne Hnone. revert E. unfold vfs_mount_fs. destruct fs_name as [fn|]; [|by intros [= <- _]].
  path; [by intros [= <- _]|]. destruct (vfs_mkdir mp v) as [[v1 mr]| |] eqn:Em; [|done..]. cbn [mbind outcome_bind].
  pose proof (mkdir_other v v1 mr mp name Hw Em Hne Hnone) as H1.
  path; [by intros [= <- _]|]. path; [|by intros [= <- _]]. path; [by intros [= <- _]|].
  path; [|by intros [= <- _]]. path. path. path. path.
  match goal with |- (let '(_, _) := ?X in _) = _ -> _ => destruct X as [w [result private]] end.
  path; path; by intros [= <- _].
Qed.

Definition std_names : list (list Z) := [DEV_STDIN; DEV_STDOUT; DEV_STDERR].

(** devfs_init keeps the invariant of the VFS, so it is an initialisation that
    vfs_init may call; it leaves the descriptor table as it finds it, unless the
    file table has an entry with the name of a standard device. *)
Lemma devfs_init_ok ops s v :
  vfs_wf v -> (forall n, n ∈ std_names -> find_file v n = None) ->
  runs_to (devfs_init ops s v) (fun '(_, v') => vfs_wf v' /\ handles v' = handles v).
Proof.
  intros Hw Hstd. unfold devfs_init. eapply runs_to_bind; [by apply vfs_register_filesystem_ok|].
  intros [v1 r1] (Hw1 & Hf1 & Hh1).
  assert (forall n, n ∈ std_names -> find_file v1 n = None) as Hstd1.
  { intros n Hn. unfold find_file. rewrite Hf1. by apply Hstd. }
  destruct (proj1 (runs_to_inv _ _) (vfs_mount_fs_ok (Some str_devfs) (Some str_dev) None 0 0 v1 Hw1 ltac:(done)))
    as ([v2 r2] & E2 & Hw2 & Hh2 & _).
  rewrite E2. cbn [mbind outcome_bind].
  assert (forall n, n ∈ std_names -> find_file v2 n = None) as Hstd2.
  { intros n Hn. eapply mount_other; [exact Hw1|exact E2| |by apply Hstd1].
    intros ->. unfold std_names in Hn. rewrite !elem_of_cons, elem_of_nil in Hn. by destruct Hn as [?|[?|[?|[]]]]. }
  eapply runs_to_bind; [by apply register_devices_runs|]. intros s' _.
  unfold vfs_link_std_fd.
  rewrite (Hstd2 DEV_STDIN) by (unfold std_names; set_solver). cbn [mbind outcome_bind].
  rewrite (Hstd2 DEV_STDOUT) by (unfold std_names; set_solver). cbn [mbind outcome_bind].
  rewrite (Hstd2 DEV_STDERR) by (unfold std_names; set_solver). cbn [mbind outcome_bind].
  split; [done|congruence].
Qed.

(** The standard input has no device after devfs_init: a descriptor 0 without a
    file before it has none after it, and reading it is an I/O error. *)
Theorem std_fds_unlinked ops s v h :
  vfs_wf v -> (forall n, n ∈ std_names -> find_file v n = None) ->
  get_handle v 0 = Some 0 -> handles v !! 0%nat = Some h ->
  h_file h = None -> h_mount h = None -> flag_set (h_flags h) VFS_READ = true ->
  runs_to (devfs_init ops s v) (fun '(_, v') =>
    forall count, vfs_readfd 0 count v' = Ret (v', (- EIO, []))).
Proof.
  intros Hw Hstd Hg Hh Hfile Hmount Hflag. eapply runs_to_mono; [by apply devfs_init_ok|].
  intros [s' v'] [_ Ehs] count. unfold vfs_readfd, get_handle in *. rewrite Ehs, Hg.
  rewrite (aget_lookup _ 0 h) by (done || rewrite ?Ehs; exact Hh). cbn [mbind outcome_bind].
  rewrite Hflag, Hfile. cbn [negb]. unfold read_mounted, handle_ops. rewrite Hmount. done.
Qed.
End InVfs.

(** ** A machine that boots *)

Module Demo.
Definition host : Type := list (list Z).

#[local] Instance demo_host : DevHost host := {
  get_hw_entropy h := (42, h);
  tty_puts str h := str :: h;
  timer_get_readable h := ([49; 50; 58; 48; 48], h);
  call_ioctl _ _ _ h := (0, h);
}.

(** devfs, the handles it has allocated (the address is the index plus one) and
    the console. *)
Record world := mkworld { w_devfs : devfs; w_handles : list devfs_handle; w_console : host }.

Definition with_private (x : vfs_file_handle) p :=
  mkfh (fh_used x) (fh_fd x) (fh_mount x) (fh_path x) (fh_position x) (fh_flags x) p.

Definition handle_of (x : vfs_file_handle) (w : world) : option devfs_handle :=
  if fh_private x =? 0 then None else w_handles w !! Z.to_nat (fh_private x - 1).

#[local] Instance devfs_env : VfsEnv world := {
  dev_read _ _ _ _ w := (w, (0, [], 0));
  dev_write _ _ _ _ w := (w, (0, 0));
  dev_seek _ _ _ _ _ w := (w, (0, 0));
  dev_ioctl _ _ _ _ w := (w, 0);
  op_mount _ := Some (fun _ _ _ w => (w, devfs_mount));
  op_unmount _ := Some (fun _ w => (w, devfs_unmount));
  op_open _ := Some (fun _ path _ x w =>
    match devfs_open path (Some (len (w_handles w) + 1)) (w_devfs w) with
    | Ok (p, hd) => (mkworld (w_devfs w) (w_handles w ++ [hd]) (w_console w), (0, with_private x p))
    | Err e => (w, (e, x))
    end);
  op_close _ := Some (fun _ x w => (w, x));
  op_fread _ := Some (fun _ x count w =>
    match devfs_read (handle_of x w) count (w_devfs w) (w_console w) with
    | Ret (n, bytes, Some hd, s, h) =>
        (mkworld s (<[Z.to_nat (fh_private x - 1) := hd]> (w_handles w)) h, (n, bytes, x))
    | Ret (n, bytes, None, s, h) => (mkworld s (w_handles w) h, (n, bytes, x))
    | _ => (w, (- EIO, [], x))
    end);
  op_fwrite _ := Some (fun _ x buf w =>
    match devfs_write (handle_of x w) (buf ++ [0]) (len buf) (w_devfs w) (w_console w) with
    | Ret (n, h) => (mkworld (w_devfs w) (w_handles w) h, (n, x))
    | _ => (w, (- EIO, x))
    end);
  op_stat _ := Some (fun _ path w =>
    match devfs_stat path (w_devfs w) with
    | Ok st => (w, (0, st))
    | Err e => (w, (e, mkstat 0 0 0 0))
    end);
  op_unlink _ := None;
  op_readdir _ := Some (fun _ _ max w =>
    match devfs_readdir max (w_devfs w) with Ret es => (w, (len es, es)) | _ => (w, (- EIO, [])) end);
}.

Definition off : vfs world :=
  mkvfs (replicate 256 (mkfile [] [0] 0 false VFS_TYPE_FILE no_ops 0))
    (replicate 64 (mkhandle false 0 None 0 0 None None)) 3
    (replicate 16 (mkfs [] None 0 false)) (replicate 32 (mkmount [] [] None 0 0 false 0))
    (replicate 64 (mkfh false 0 None [] 0 0 0))
    (mkworld (mkdevfs (replicate 32 (mkdev [] None None None None 0 false)) None) [] []).

Definition boot : outcome (vfs world) :=
  vfs_init (fun v => '(s, v) ← devfs_init 1 (w_devfs (vworld v)) v;
                     Ret (with_world v (mkworld s (w_handles (vworld v)) (w_console (vworld v)))))
    (fun v => Ret v) off.

(** "/dev/zero" reads as zeros, "/dev/full" takes nothing, "/dev/tty" prints, a
    read of "/dev/tty" and of the standard input give what they give. *)
Example devices_through_the_vfs :
  runs_to (v ← boot;
           '(v, z) ← vfs_open (str_dev ++ SLASH :: str_zero) 3 v;
           '(v, zeros) ← vfs_readfd z 4 v;
           '(v, f) ← vfs_open (str_dev ++ SLASH :: str_full) 3 v;
           '(v, full) ← vfs_writefd f [1; 2] 2 v;
           '(v, t) ← vfs_open (str_dev ++ SLASH :: str_tty) 3 v;
           '(v, printed) ← vfs_writefd t [104; 105] 2 v;
           '(v, line) ← vfs_readfd t 10 v;
           '(v, input) ← vfs_readfd 0 10 v;
           '(v, none) ← vfs_open (str_dev ++ SLASH :: [120]) 3 v;
           Ret (zeros, full, printed, w_console (vworld v), line, input, none))
    (fun r => r = ((4, [0; 0; 0; 0]), - ENOSPC, 2, [[104; 105]], (1, []), (- EIO, []), - ENOENT)).
Proof. vm_compute. reflexivity. Qed.
End Demo.
