(* ===== verification/ProcfsProofs.v ===== *)
(** * procfs: theorems

    The table of entries is a map from names ([entry_of]); the texts are the ones
    that the formats describe.

    [procfs_files_of_process]: registering a process adds its five names and
    nothing else, its status file reads, in pieces of any size, as the status of the
    process, and unregistering it restores the table.  [procfs_last_opened]: the
    reads of an open file are answered for the process of the file opened last.
    [bytecode_dump_small] and [bytecode_dump_overruns]: the dump of up to 16 bytes
    of code, and that any longer code makes it leave its buffer. *)

From stdpp Require Import strings relations.
From S2P Require Import Prelude DevFs NvmProcess Vfs VfsProofs VfsOps VfsTable VfsTheorems Kstd KstdProofs Bytes BlockDev Text Procfs.

Lemma fresh_len junk n : 0 <= n -> len (fresh junk n) = n.
Proof. intros Hn. unfold fresh, len. rewrite length_take, length_app, length_replicate. lia. Qed.

(** Literals have no terminator inside. *)
Ltac lit_nul := apply (bool_decide_eq_true_1 (_ ∉ _)); vm_compute; reflexivity.

Lemma zlit_ok s : bool_decide (0 ∉ lit s) = true -> cstr (zlit s) (lit s).
Proof. intros H. apply zlit_cstr. by apply bool_decide_eq_true_1 in H. Qed.

Lemma nl_ok s : bool_decide (0 ∉ lit s) = true -> cstr (nl s) (10 :: lit s).
Proof.
  intros H. apply bool_decide_eq_true_1 in H. split; [|by exists []]. rewrite elem_of_cons. intros [?|?]; done.
Qed.

Lemma yes_no_ok b : cstr (yes_no b) (lit (if b then "yes" else "no")).
Proof. destruct b; by apply zlit_ok. Qed.

Create HintDb text.
#[local] Hint Resolve yes_no_ok : text.
#[local] Hint Extern 1 (cstr (zlit _) _) => apply zlit_ok; vm_compute; reflexivity : text.
#[local] Hint Extern 1 (cstr (nl _) _) => apply nl_ok; vm_compute; reflexivity : text.

(** The strings of a sequence of strcat_safe calls. *)
Ltac cats := repeat (apply Forall2_cons_2; [first [eassumption|eauto with text]|]); constructor.

(** Texts that differ in the nesting of their parts. *)
Ltac norm_text := cbn [concat]; repeat (rewrite ?app_nil_r, <- ?app_assoc; cbn [app]); reflexivity.

Lemma text_start_ok size junk src t :
  cstr src t -> len t < size -> 0 <= size <= 2 ^ 62 ->
  runs_to (strcpy_at (fresh junk size) 0 src size) (fun b => buf_is size b [] t).
Proof.
  intros Hc Hl Hs. rewrite <- (Z.sub_0_r size) at 2. apply (strcpy_at_ok size _ [] (fresh junk size)); try done.
  - apply fresh_len. lia.
  - lia.
  - by intros ?%elem_of_nil.
Qed.

(** ** Status *)

(** A number that itoa prints, in at most [k] characters. *)
Definition printable (n : Z) : Prop := - 2 ^ 31 < n < 2 ^ 31.

Definition status_lines (p : nvm_process) : list Z :=
  lit "pid: " ++ show (pid p) ++ 10 :: lit "active: " ++ lit (if active p then "yes" else "no")
  ++ 10 :: lit "blocked: " ++ lit (if blocked p then "yes" else "no") ++ 10 :: lit "sp: " ++ show (sp p)
  ++ 10 :: lit "ip: " ++ show (i32 (ip p)) ++ 10 :: lit "size: " ++ show (i32 (psize p))
  ++ 10 :: lit "exit_code: " ++ show (exit_code p) ++ 10 :: lit "wakeup_reason: " ++ show (wakeup_reason p)
  ++ 10 :: lit "caps_count: " ++ show (caps_count p) ++ [10].

Record status_ok (p : nvm_process) : Prop := {
  so_pid : printable (pid p); so_sp : printable (sp p); so_ip : printable (i32 (ip p));
  so_size : printable (i32 (psize p)); so_exit : printable (exit_code p);
  so_wake : printable (wakeup_reason p); so_caps : printable (caps_count p);
}.

Lemma itoa_in_16 n s : printable n -> len s = 16 -> runs_to (itoa n s 10) (fun s' => cstr s' (show n) /\ len s' = 16).
Proof.
  intros Hn Hs. pose proof (proj2 (show_chars n Hn)). eapply runs_to_mono; [apply itoa_show; [done|lia]|].
  intros s' [? ?]. split; [done|lia].
Qed.

Lemma status_text_ok junk p : status_ok p -> runs_to (status_text junk p) (fun buf => cstr buf (status_lines p)).
Proof.
  intros [H1 H2 H3 H4 H5 H6 H7]. unfold status_text.
  pose proof (fresh_len junk 16 ltac:(lia)) as F16.
  pose proof (proj2 (show_chars _ H1)). pose proof (proj2 (show_chars _ H2)). pose proof (proj2 (show_chars _ H3)).
  pose proof (proj2 (show_chars _ H4)). pose proof (proj2 (show_chars _ H5)). pose proof (proj2 (show_chars _ H6)).
  pose proof (proj2 (show_chars _ H7)).
  eapply runs_to_bind; [by apply itoa_in_16|]. intros s1 [C1 L1]. eapply runs_to_bind; [by apply itoa_in_16|]. intros s2 [C2 _].
  eapply runs_to_bind; [by apply itoa_in_16|]. intros s3 [C3 _]. eapply runs_to_bind; [by apply itoa_in_16|]. intros s4 [C4 _].
  eapply runs_to_bind; [by apply itoa_in_16|]. intros s5 [C5 _].
  eapply runs_to_bind; [apply (text_start_ok 512 junk (zlit "pid: ") (lit "pid: ")); [eauto with text|vm_compute; reflexivity|lia]|].
  intros b0 B0. eapply runs_to_bind.
  { eapply (strcats_ok 512 []); [|exact B0|].
    - cats.
    - cbn [concat]. unfold len in *. rewrite !length_app. cbn. destruct (active p), (blocked p); cbn; lia. }
  intros b1 B1. eapply runs_to_bind; [by apply itoa_in_16|]. intros s6 [C6 L6]. eapply runs_to_bind.
  { eapply (strcats_ok 512 []); [|exact B1|].
    - cats.
    - cbn [concat]. unfold len in *. rewrite !length_app. cbn. destruct (active p), (blocked p); cbn; lia. }
  intros b2 B2. eapply runs_to_bind; [by apply itoa_in_16|]. intros s7 [C7 _]. eapply runs_to_mono.
  { eapply (strcats_ok 512 []); [|exact B2|].
    - cats.
    - cbn [concat]. unfold len in *. rewrite !length_app. cbn. destruct (active p), (blocked p); cbn; lia. }
  intros b3 B3. apply buf_cstr in B3. match type of B3 with cstr _ ?t => replace (status_lines p) with t; [exact B3|] end.
  unfold status_lines. norm_text.
Qed.

(** ** The table as a map *)

Definition entry : Type := option proc_file * option Z * bool.
Definition as_entry (e : procfs_entry) : entry := (pe_read e, pe_data e, pe_is_dir e).

Definition entry_of (f : procfs) (name : list Z) : option entry :=
  i ← procfs_find_entry f name; as_entry <$> procfs_entries f !! Z.to_nat i.

Definition names_unique (f : procfs) : Prop := forall i j e e',
  procfs_entries f !! i = Some e -> procfs_entries f !! j = Some e' ->
  pe_used e = true -> pe_used e' = true -> pe_name e = pe_name e' -> i = j.

Definition free_entries (f : procfs) : nat := length (filter (fun e => pe_used e = false) (procfs_entries f)).

Lemma named_true n e : named n e = true <-> pe_used e = true /\ pe_name e = n.
Proof. unfold named, str_eq. rewrite andb_true_iff, bool_decide_eq_true. done. Qed.

Lemma find_spec f n i : names_unique f ->
  procfs_find_entry f n = Some i <-> exists e, 0 <= i /\ procfs_entries f !! Z.to_nat i = Some e /\ pe_used e = true /\ pe_name e = n.
Proof.
  intros Hu. unfold procfs_find_entry. split.
  - intros (Hi & e & He & [H1 H2]%named_true & _)%first_index_Some. exists e. split_and!; [lia|done..].
  - intros (e & Hi & He & H1 & H2). destruct (first_index (named n) (procfs_entries f)) as [j|] eqn:Ej.
    + apply first_index_Some in Ej as (Hj & e' & He' & [H1' H2']%named_true & _).
      assert (Z.to_nat j = Z.to_nat i) by (eapply Hu; eauto; congruence). f_equal. lia.
    + apply first_index_None in Ej. eapply Forall_lookup_1 in Ej; [|exact He].
      rewrite (proj2 (named_true n e)) in Ej; done.
Qed.

Lemma entry_of_spec f n x : names_unique f ->
  entry_of f n = Some x <-> exists i e, procfs_entries f !! i = Some e /\ pe_used e = true /\ pe_name e = n /\ x = as_entry e.
Proof.
  intros Hu. unfold entry_of. split.
  - intros (i & Hi & Hx)%bind_Some. apply (find_spec f n i Hu) in Hi as (e & _ & He & H1 & H2).
    rewrite He in Hx. injection Hx as <-. eauto 10.
  - intros (i & e & He & H1 & H2 & ->). apply bind_Some. exists (Z.of_nat i). rewrite Nat2Z.id, He. split; [|done].
    apply find_spec; [done|]. exists e. rewrite Nat2Z.id. split_and!; [lia|done..].
Qed.

Lemma entry_of_None f n : names_unique f ->
  entry_of f n = None <-> forall i e, procfs_entries f !! i = Some e -> pe_used e = true -> pe_name e <> n.
Proof.
  intros Hu. split.
  - intros Hn i e He H1 H2. assert (entry_of f n = Some (as_entry e)) by (apply entry_of_spec; eauto 10). congruence.
  - intros H. destruct (entry_of f n) as [x|] eqn:E; [|done]. apply entry_of_spec in E as (i & e & He & H1 & H2 & _); [|done].
    by destruct (H i e He H1).
Qed.

Lemma lookup_insert_cases {A} (l : list A) i x j y :
  <[i := x]> l !! j = Some y -> (j = i /\ y = x /\ (i < length l)%nat) \/ (j <> i /\ l !! j = Some y).
Proof. intros H%list_lookup_insert_Some. naive_solver. Qed.

Lemma free_entries_set (f : procfs) i e e' :
  procfs_entries f !! i = Some e -> pe_used e = negb (pe_used e') ->
  (free_entries (set_entries f (<[i := e']> (procfs_entries f))) + (if pe_used e' then 1 else 0) =
   free_entries f + (if pe_used e' then 0 else 1))%nat.
Proof.
  intros He Hu. unfold free_entries. cbn [set_entries procfs_entries].
  rewrite <- (take_drop_middle _ _ _ He) at 2. rewrite insert_take_drop by (by eapply lookup_lt_Some).
  rewrite !filter_app, !filter_cons, !length_app. destruct (pe_used e') eqn:E'; cbn [negb] in Hu; repeat case_decide; cbn [length]; try congruence; lia.
Qed.

Lemma add_ok name rd data d f :
  names_unique f -> entry_of f name = None -> (0 < free_entries f)%nat -> len name < 128 ->
  runs_to (procfs_add_entry name rd data d f) (fun f' =>
    names_unique f' /\ free_entries f = S (free_entries f') /\ f' = set_entries f (procfs_entries f') /\
    forall n, entry_of f' n = if decide (n = name) then Some (rd, data, d) else entry_of f n).
Proof.
  intros Hu Hn Hf Hl. unfold procfs_add_entry.
  destruct (first_index _ (procfs_entries f)) as [i|] eqn:Ei.
  2:{ exfalso. apply first_index_None in Ei. unfold free_entries in Hf.
      destruct (filter _ _) as [|e l] eqn:El; [cbn in Hf; lia|].
      assert (e ∈ filter (fun e => pe_used e = false) (procfs_entries f)) as [H1 H2]%list_elem_of_filter by (rewrite El; left).
      rewrite Forall_forall in Ei. specialize (Ei e H2). cbn in Ei. by rewrite H1 in Ei. }
  apply first_index_Some in Ei as (Hi & e & He & Hue%negb_true_iff & _).
  unfold strcpy_into, PROC_NAME_SIZE. rewrite (proj2 (Z.ltb_lt _ _) Hl). cbn [mbind outcome_bind].
  rewrite aset_in_bounds by done. cbn [mbind outcome_bind runs_to].
  set (e' := mkpe name rd data true d). set (f' := set_entries f _).
  assert (names_unique f') as Hu'.
  { intros a b ea eb Ha Hb Ua Ub Nab. cbn [f' set_entries procfs_entries] in Ha, Hb.
    rewrite entry_of_None in Hn by done.
    apply lookup_insert_cases in Ha as [(-> & -> & _)|[Hna Ha]], Hb as [(-> & -> & _)|[Hnb Hb]]; [done|..].
    - by destruct (Hn b eb Hb Ub).
    - by destruct (Hn a ea Ha Ua).
    - by eapply (Hu a b). }
  split_and!; [done| |done|].
  - pose proof (free_entries_set f (Z.to_nat i) e e' He ltac:(by rewrite Hue)) as H. cbn [e' pe_used] in H. fold f' in H. lia.
  - intros n. apply option_eq. intros x. rewrite entry_of_spec by done. cbn [f' set_entries procfs_entries].
    case_decide as En.
    + subst n. split.
      * intros (a & ea & Ha & Ua & Na & ->). apply lookup_insert_cases in Ha as [(-> & -> & _)|[_ Ha]]; [done|].
        rewrite entry_of_None in Hn by done. by destruct (Hn a ea Ha Ua).
      * intros [= <-]. exists (Z.to_nat i), e'. rewrite list_lookup_insert_eq by (by eapply lookup_lt_Some). done.
    + rewrite entry_of_spec by done. split.
      * intros (a & ea & Ha & Ua & Na & ->). apply lookup_insert_cases in Ha as [(-> & -> & _)|[_ Ha]]; [by destruct En|eauto 10].
      * intros (a & ea & Ha & Ua & Na & ->). exists a, ea. rewrite list_lookup_insert_ne; [done|].
        intros <-. rewrite He in Ha. injection Ha as <-. congruence.
Qed.

Lemma remove_ok name f :
  names_unique f ->
  runs_to (procfs_remove_entry name f) (fun f' =>
    names_unique f' /\ f' = set_entries f (procfs_entries f') /\
    free_entries f' = (free_entries f + (match entry_of f name with Some _ => 1 | None => 0 end))%nat /\
    forall n, entry_of f' n = if decide (n = name) then None else entry_of f n).
Proof.
  intros Hu. unfold procfs_remove_entry. destruct (procfs_find_entry f name) as [i|] eqn:Ei.
  2:{ assert (entry_of f name = None) as Hn by (unfold entry_of; by rewrite Ei). cbn [runs_to]. rewrite Hn.
      split_and!; [done|by destruct f|lia|]. intros n. by case_decide; subst. }
  apply (find_spec f name i Hu) in Ei as (e & Hi & He & Hue & Hne).
  assert (entry_of f name = Some (as_entry e)) as Hs by (apply entry_of_spec; eauto 10). rewrite Hs.
  rewrite (aget_lookup _ _ e) by done. cbn [mbind outcome_bind].
  rewrite aset_in_bounds by (apply lookup_lt_Some in He; unfold len; lia). cbn [mbind outcome_bind runs_to].
  set (e' := mkpe (pe_name e) (pe_read e) (pe_data e) false (pe_is_dir e)). set (f' := set_entries f _).
  assert (names_unique f') as Hu'.
  { intros a b ea eb Ha Hb Ua Ub Nab. cbn [f' set_entries procfs_entries] in Ha, Hb.
    apply lookup_insert_cases in Ha as [(-> & -> & _)|[Hna Ha]], Hb as [(-> & -> & _)|[Hnb Hb]]; try done. by eapply (Hu a b). }
  split_and!; [done|done| |].
  - pose proof (free_entries_set f (Z.to_nat i) e e' He ltac:(by rewrite Hue)) as H. cbn [e' pe_used] in H. fold f' in H. lia.
  - intros n. apply option_eq. intros x. rewrite entry_of_spec by done. cbn [f' set_entries procfs_entries].
    case_decide as En.
    + split; [|done]. intros (a & ea & Ha & Ua & Na & ->). apply lookup_insert_cases in Ha as [(-> & -> & _)|[Hna Ha]]; [done|].
      destruct Hna. eapply (Hu a (Z.to_nat i)); eauto. congruence.
    + rewrite entry_of_spec by done. split.
      * intros (a & ea & Ha & Ua & Na & ->). apply lookup_insert_cases in Ha as [(-> & -> & _)|[_ Ha]]; [done|eauto 10].
      * intros (a & ea & Ha & Ua & Na & ->). exists a, ea. rewrite list_lookup_insert_ne; [done|].
        intros <-. rewrite He in Ha. injection Ha as <-. congruence.
Qed.

(** ** The files of a process *)

Definition table := list (list Z * entry).

Fixpoint assoc (l : table) (n : list Z) : option entry :=
  match l with [] => None | (m, x) :: l' => if decide (n = m) then Some x else assoc l' n end.

(** What procfs_register adds for the process of index [i]. *)
Definition files_of (s : list Z) (i : Z) : table :=
  (s, (None, Some i, true)) :: ((fun '(name, fn) => (s ++ lit name, (Some fn, Some i, false))) <$> proc_files).

Lemma assoc_other l n : n ∉ l.*1 -> assoc l n = None.
Proof.
  induction l as [|[m x] l IH]; [done|]. cbn. rewrite not_elem_of_cons. intros [Hne Hl]. rewrite decide_False by done. auto.
Qed.

Lemma files_of_nodup s i : NoDup (files_of s i).*1.
Proof.
  assert ((files_of s i).*1 = (fun t => s ++ t) <$> [lit ""; lit "/status"; lit "/stack"; lit "/bytecode"; lit "/args"]) as ->.
  { cbn [files_of proc_files fmap list_fmap fst]. change (lit "") with (@nil Z). by rewrite app_nil_r. }
  apply NoDup_fmap_2; [intros a b; apply app_inv_head|].
  apply (bool_decide_eq_true_1 (NoDup _)). vm_compute. reflexivity.
Qed.

Lemma add_files_ok files s i : forall f,
  names_unique f -> (length files <= free_entries f)%nat -> len s <= 64 ->
  Forall (fun '(name, _) => len (lit name) < 64) files ->
  NoDup ((fun '(name, _) => s ++ lit name) <$> files) ->
  (forall name fn, (name, fn) ∈ files -> entry_of f (s ++ lit name) = None) ->
  runs_to (add_files files s i f) (fun f' =>
    names_unique f' /\ f' = set_entries f (procfs_entries f') /\ free_entries f = (length files + free_entries f')%nat /\
    forall n, entry_of f' n = match assoc ((fun '(name, fn) => (s ++ lit name, (Some fn, Some i, false))) <$> files) n with
                              | Some x => Some x | None => entry_of f n end).
Proof.
  induction files as [|[name fn] files IH]; intros f Hu Hf Hs Hl Hnd Hn; cbn [add_files].
  { cbn [runs_to]. by split_and!; [|destruct f| |]. }
  inversion_clear Hl. inversion_clear Hnd as [|? ? Hnot Hnd']. cbn [length] in Hf.
  assert (len (s ++ lit name) < 128) as Hlen by (unfold len in *; rewrite length_app; lia).
  unfold strcpy_into. rewrite (proj2 (Z.ltb_lt _ _) Hlen). cbn [mbind outcome_bind].
  eapply runs_to_bind; [apply add_ok; [done|eapply Hn; left|lia|done]|]. intros f1 (Hu1 & Hf1 & He1 & Hm1).
  eapply runs_to_mono; [apply IH; [done|lia|done|done|done|]|].
  { intros name' fn' Hin. rewrite Hm1. rewrite decide_False; [eapply Hn; by right|].
    intros E. apply Hnot. rewrite <- E. apply list_elem_of_fmap. by exists (name', fn'). }
  intros f2 (Hu2 & He2 & Hf2 & Hm2). split_and!; [done| |cbn [length]; lia|].
  - rewrite He2, He1. by destruct f.
  - intros n. rewrite Hm2, Hm1. cbn [fmap list_fmap assoc]. case_decide as En; [|done].
    rewrite assoc_other; [done|]. subst n.
    intros ([m x] & E & ([name' fn'] & [= -> ->] & Hin)%list_elem_of_fmap)%list_elem_of_fmap. cbn [fst] in E.
    apply Hnot. apply list_elem_of_fmap. by exists (name', fn').
Qed.

Lemma remove_files_ok files s : forall f,
  names_unique f -> len s <= 64 -> Forall (fun '(name, _) => len (lit name) < 64) files ->
  runs_to (remove_files files s f) (fun f' =>
    names_unique f' /\ f' = set_entries f (procfs_entries f') /\
    forall n, entry_of f' n = if bool_decide (n ∈ (fun '(name, _) => s ++ lit name) <$> files) then None else entry_of f n).
Proof.
  induction files as [|[name fn] files IH]; intros f Hu Hs Hl; cbn [remove_files].
  { cbn [runs_to]. by split_and!; [|destruct f|]. }
  inversion_clear Hl. assert (len (s ++ lit name) < 128) as Hlen by (unfold len in *; rewrite length_app; lia).
  unfold strcpy_into. rewrite (proj2 (Z.ltb_lt _ _) Hlen). cbn [mbind outcome_bind].
  eapply runs_to_bind; [by apply remove_ok|]. intros f1 (Hu1 & He1 & _ & Hm1).
  eapply runs_to_mono; [by apply IH|]. intros f2 (Hu2 & He2 & Hm2). split_and!; [done|rewrite He2, He1; by destruct f|].
  intros n. rewrite Hm2, Hm1. cbn [fmap list_fmap]. repeat case_bool_decide; repeat case_decide; try done; set_solver.
Qed.

Lemma pid_string_ok pid : 0 <= pid < 256 -> pid_string pid = Ret (show pid) /\ len (show pid) <= 3 /\ no_nul (show pid).
Proof.
  intros Hp. assert (printable pid) as Hpr by (unfold printable; lia). destruct (show_chars pid Hpr) as [Hn _].
  split; [|split; [apply (show_short pid 3); lia|done]].
  pose proof (itoa_in_16 pid (replicate 16 0) Hpr ltac:(done)) as H. unfold pid_string.
  destruct (itoa pid (replicate 16 0) 10) as [a| |]; [|done..]. destruct H as [Hc _]. cbn [mbind outcome_bind].
  unfold str_of. rewrite (strlen_ok _ _ Hc). cbn [mbind outcome_bind]. destruct Hc as [_ [rest ->]].
  unfold len. by rewrite Nat2Z.id, take_app_length.
Qed.

Lemma proc_files_short : Forall (fun '(name, _) => len (lit name) < 64) proc_files.
Proof. repeat constructor; vm_compute; reflexivity. Qed.

(** The part of procfs_register and procfs_unregister that works on the table. *)
Definition register_entries (s : list Z) (i : Z) (f : procfs) : outcome procfs :=
  f ← procfs_add_entry s None (Some i) true f; add_files proc_files s i f.
Definition unregister_entries (s : list Z) (f : procfs) : outcome procfs :=
  f ← remove_files proc_files s f; procfs_remove_entry s f.

Lemma register_entries_ok s i f :
  names_unique f -> (5 <= free_entries f)%nat -> len s <= 64 ->
  (forall n, n ∈ (files_of s i).*1 -> entry_of f n = None) ->
  runs_to (register_entries s i f) (fun f' =>
    names_unique f' /\ f' = set_entries f (procfs_entries f') /\
    forall n, entry_of f' n = match assoc (files_of s i) n with Some x => Some x | None => entry_of f n end).
Proof.
  intros Hu Hf Hs Hn. unfold register_entries. pose proof (files_of_nodup s i) as Hnd. cbn [files_of fmap list_fmap fst] in Hnd.
  apply NoDup_cons in Hnd as [Hnot Hnd].
  eapply runs_to_bind; [apply add_ok; [done|apply Hn; left|lia|lia]|]. intros f1 (Hu1 & Hf1 & He1 & Hm1).
  eapply runs_to_mono; [apply add_files_ok; [done|cbn; lia|done|apply proc_files_short|exact Hnd|]|].
  { intros name fn Hin. rewrite Hm1.
    assert (s ++ lit name ∈ (fun '(name, _) => s ++ lit name) <$> proc_files) as Hin' by (apply list_elem_of_fmap; by exists (name, fn)).
    rewrite decide_False.
    - apply Hn. right. exact Hin'.
    - intros E. rewrite E in Hin'. done. }
  intros f2 (Hu2 & He2 & _ & Hm2). split_and!; [done|rewrite He2, He1; by destruct f|].
  intros n. rewrite Hm2, Hm1. cbn [files_of assoc]. case_decide as En; [|done].
  rewrite assoc_other; [done|]. rewrite En. exact Hnot.
Qed.

Lemma unregister_entries_ok s f i :
  names_unique f -> len s <= 64 ->
  runs_to (unregister_entries s f) (fun f' =>
    names_unique f' /\ f' = set_entries f (procfs_entries f') /\
    forall n, entry_of f' n = if bool_decide (n ∈ (files_of s i).*1) then None else entry_of f n).
Proof.
  intros Hu Hs. unfold unregister_entries.
  eapply runs_to_bind; [apply remove_files_ok; [done|done|apply proc_files_short]|]. intros f1 (Hu1 & He1 & Hm1).
  eapply runs_to_mono; [by apply remove_ok|]. intros f2 (Hu2 & He2 & _ & Hm2).
  split_and!; [done|rewrite He2, He1; by destruct f|]. intros n. rewrite Hm2, Hm1.
  change ((files_of s i).*1) with (s :: ((fun '(name, _) => s ++ lit name) <$> proc_files)).
  repeat case_bool_decide; repeat case_decide; try done; set_solver.
Qed.

(** ** In the VFS *)

Section InVfs.
Context {V : Type} {VE : VfsEnv V} (fn_addr : proc_file -> Z) (proc_addr : Z -> Z).
Implicit Types v : vfs V.

Lemma register_nodes_ok files path i : forall v,
  vfs_wf v -> len path <= 64 -> Forall (fun '(name, _) => len (lit name) < 64) files ->
  NoDup ((fun '(name, _) => path ++ lit name) <$> files) ->
  (forall name fn, (name, fn) ∈ files -> find_file v (path ++ lit name) = None) ->
  runs_to (register_nodes fn_addr proc_addr files path i v) (fun v' => vfs_wf v' /\ handles v' = handles v).
Proof.
  induction files as [|[name fn] files IH]; intros v Hw Hp Hl Hnd Hn; cbn [register_nodes]; [done|].
  inversion_clear Hl. apply NoDup_cons in Hnd as [Hnot Hnd].
  assert (len (path ++ lit name) < 128) as Hlen by (unfold len in *; rewrite length_app; lia).
  unfold strcpy_into. rewrite (proj2 (Z.ltb_lt _ _) Hlen). cbn [mbind outcome_bind].
  eapply runs_to_bind; [apply pseudo_register_ok; [done|]|].
  { intros j g Hj. rewrite (Hn name fn) in Hj by left. done. }
  intros [v1 r] (Hw1 & Hh1 & Hset). eapply runs_to_mono; [apply IH; [done..|]|].
  - intros name' fn' Hin. destruct Hset as [[-> _]|(g & Hset & _ & Hgn & _)]; [eapply Hn; by right|].
    eapply find_file_set_other; [exact Hset| |eapply Hn; by right].
    rewrite Hgn. intros E. apply Hnot. rewrite E. apply list_elem_of_fmap. by exists (name', fn').
  - intros v2 [Hw2 Hh2]. split; [done|congruence].
Qed.

Lemma delete_nodes_ok files path : forall v,
  vfs_wf v -> len path <= 64 -> no_nul path -> Forall (fun '(name, _) => len (lit name) < 64 /\ no_nul (lit name)) files ->
  runs_to (delete_nodes files path v) vfs_wf.
Proof.
  induction files as [|[name fn] files IH]; intros v Hw Hp H0 Hl; cbn [delete_nodes]; [done|].
  apply Forall_cons_1 in Hl as [[Hlen0 Hnul] Hrest].
  assert (len (path ++ lit name) < 128) as Hlen by (unfold len in *; rewrite length_app; lia).
  unfold strcpy_into. rewrite (proj2 (Z.ltb_lt _ _) Hlen). cbn [mbind outcome_bind].
  eapply runs_to_bind; [apply vfs_delete_ok; [done|by apply no_nul_app]|]. intros [v1 r] Hw1. by apply IH.
Qed.

Definition node_names (s : list Z) : list (list Z) := (fun '(name, _) => (str_proc ++ s) ++ lit name) <$> proc_files.

Lemma node_names_nodup s : NoDup (node_names s).
Proof.
  assert (node_names s = (fun t => (str_proc ++ s) ++ t) <$> [lit "/status"; lit "/stack"; lit "/bytecode"; lit "/args"]) as -> by done.
  apply NoDup_fmap_2; [intros a b; apply app_inv_head|]. apply (bool_decide_eq_true_1 (NoDup _)). vm_compute. reflexivity.
Qed.

Lemma register_ok pid i f v :
  vfs_wf v -> 0 <= pid < 256 -> names_unique f -> (5 <= free_entries f)%nat ->
  (forall n, n ∈ (files_of (show pid) i).*1 -> entry_of f n = None) ->
  (forall n, n ∈ node_names (show pid) -> find_file v n = None) ->
  runs_to (procfs_register fn_addr proc_addr pid i f v) (fun '(f', v') =>
    vfs_wf v' /\ handles v' = handles v /\ names_unique f' /\ f' = set_entries f (procfs_entries f') /\
    forall n, entry_of f' n = match assoc (files_of (show pid) i) n with Some x => Some x | None => entry_of f n end).
Proof.
  intros Hw Hp Hu Hfree Hn Hnodes. destruct (pid_string_ok pid Hp) as (E & Hl & H0). unfold procfs_register. rewrite E. cbn [mbind outcome_bind].
  assert (len (str_proc ++ show pid) = 6 + len (show pid)) as Hpl by (unfold len; rewrite length_app; cbn; lia).
  unfold strcpy_into. rewrite (proj2 (Z.ltb_lt _ 64)) by lia. cbn [mbind outcome_bind].
  pose proof (register_entries_ok (show pid) i f Hu Hfree ltac:(lia) Hn) as HR. unfold register_entries in HR.
  destruct (procfs_add_entry (show pid) None (Some i) true f) as [f1| |]; [|done..]. cbn [mbind outcome_bind] in *.
  destruct (add_files proc_files (show pid) i f1) as [f2| |]; [|done..]. cbn [mbind outcome_bind runs_to] in *. destruct HR as (Hu2 & He2 & Hm2).
  destruct (proj1 (runs_to_inv _ _) (mkdir_ok (str_proc ++ show pid) v Hw)) as ([v1 r1] & E1 & Hw1 & Hh1 & _). rewrite E1. cbn [mbind outcome_bind].
  eapply runs_to_bind; [apply register_nodes_ok; [done|lia|apply proc_files_short|apply (node_names_nodup (show pid))|]|].
  { intros name fn Hin. assert ((str_proc ++ show pid) ++ lit name ∈ node_names (show pid)) as Hin'
      by (apply list_elem_of_fmap; by exists (name, fn)).
    eapply mkdir_other; [exact Hw|exact E1| |by apply Hnodes].
    intros Eq. rewrite <- (app_nil_r (str_proc ++ show pid)) in Eq at 2. apply app_inv_head in Eq.
    unfold proc_files in Hin. rewrite !elem_of_cons, elem_of_nil in Hin. by destruct Hin as [[= -> ->]|[[= -> ->]|[[= -> ->]|[[= -> ->]|[]]]]]. }
  intros v2 [Hw2 Hh2]. cbn [runs_to]. split_and!; [done|congruence|done..].
Qed.

(** Records of arguments that can be released: at most 32 arguments each. *)
Definition args_shape (f : procfs) : Prop :=
  Forall (fun a => len (pa_args a) = MAX_ARGS_PER_PROCESS /\ (pa_used a = true -> pa_argc a <= MAX_ARGS_PER_PROCESS)) (procfs_args f).

Lemma free_args_runs {H : Type} {PH : ProcHost H} a n : forall j (h : H), 0 <= j -> j + Z.of_nat n <= len (pa_args a) ->
  runs_to (free_args n a j h) (fun _ => True).
Proof.
  induction n as [|n IH]; intros j h Hj Hl; cbn [free_args]; [done|].
  destruct (aget_in_bounds (pa_args a) j ltac:(lia)) as (x & -> & _). cbn [mbind outcome_bind]. apply IH; lia.
Qed.

Lemma args_shape_set f i a : args_shape f -> len (pa_args a) = MAX_ARGS_PER_PROCESS -> (pa_used a = true -> pa_argc a <= MAX_ARGS_PER_PROCESS) ->
  args_shape (set_args f (<[i := a]> (procfs_args f))).
Proof. intros Hf Ha Hu. unfold args_shape. cbn [set_args procfs_args]. by apply Forall_insert. Qed.

Lemma clear_args_ok {H : Type} {PH : ProcHost H} pid f (h : H) : args_shape f ->
  runs_to (procfs_clear_args pid f h) (fun '(f', _) => args_shape f' /\ f' = set_args f (procfs_args f')).
Proof.
  intros Hf. unfold procfs_clear_args. destruct (first_index _ (procfs_args f)) as [i|] eqn:Ei; [|by destruct f].
  apply first_index_Some in Ei as (Hi & a & Ha & Hu & _). rewrite (aget_lookup _ _ _ (proj1 Hi) Ha). cbn [mbind outcome_bind].
  destruct (Forall_lookup_1 _ _ _ _ Hf Ha) as [Hl Hc]. unfold args_of in Hu. apply andb_prop in Hu as [Hu _]. specialize (Hc Hu).
  assert (0 <= 0 + Z.of_nat (Z.to_nat (pa_argc a)) <= len (pa_args a)) as Hn by (rewrite Hl; unfold MAX_ARGS_PER_PROCESS in *; lia).
  eapply runs_to_bind; [apply (free_args_runs a _ 0 h); lia|]. intros h' _. rewrite aset_in_bounds by done. cbn [mbind outcome_bind runs_to].
  split; [by apply args_shape_set|done].
Qed.

Lemma copy_args_ok {H : Type} {PH : ProcHost H} argv n : forall j args (h : H),
  0 <= j -> j + Z.of_nat n <= len args -> j + Z.of_nat n <= len argv ->
  runs_to (copy_args n argv j args h) (fun '(args', _) => len args' = len args).
Proof.
  induction n as [|n IH]; intros j args h Hj Ha Hv; cbn [copy_args]; [done|].
  destruct (aget_in_bounds argv j ltac:(lia)) as (s & -> & _). cbn [mbind outcome_bind]. destruct (ph_kmalloc _ h) as [p h'].
  rewrite aset_in_bounds by lia. cbn [mbind outcome_bind]. eapply runs_to_mono; [apply IH; rewrite ?len_insert; lia|].
  intros [args' h2]. by rewrite len_insert.
Qed.

Lemma set_args_ok {H : Type} {PH : ProcHost H} pid argv f (h : H) : args_shape f -> len argv <= MAX_ARGS_PER_PROCESS ->
  runs_to (procfs_set_args pid argv (len argv) f h) (fun '(f', _) => args_shape f' /\ f' = set_args f (procfs_args f')).
Proof.
  intros Hf Hv. unfold procfs_set_args. eapply runs_to_bind; [by apply clear_args_ok|]. intros [f1 h1] [Hf1 E1].
  destruct (first_index _ (procfs_args f1)) as [i|] eqn:Ei; [|done].
  apply first_index_Some in Ei as (Hi & a & Ha & _ & _). rewrite (aget_lookup _ _ _ (proj1 Hi) Ha). cbn [mbind outcome_bind].
  destruct (Forall_lookup_1 _ _ _ _ Hf1 Ha) as [Hl _].
  assert (0 <= len argv) by (unfold len; lia). rewrite Z.min_l by done.
  eapply runs_to_bind; [apply copy_args_ok; lia|]. intros [args h2] Hal. rewrite aset_in_bounds by done. cbn [mbind outcome_bind runs_to].
  split; [apply args_shape_set; [done|cbn [pa_args]; congruence|done]|]. by rewrite E1.
Qed.

Lemma unregister_ok {H : Type} {PH : ProcHost H} pid i f v (h : H) :
  vfs_wf v -> 0 <= pid < 256 -> names_unique f -> args_shape f ->
  runs_to (procfs_unregister pid f v h) (fun '(f', v', h') =>
    vfs_wf v' /\ names_unique f' /\
    forall n, entry_of f' n = if bool_decide (n ∈ (files_of (show pid) i).*1) then None else entry_of f n).
Proof.
  intros Hw Hp Hu Ha. destruct (pid_string_ok pid Hp) as (E & Hl & H0). unfold procfs_unregister. rewrite E. cbn [mbind outcome_bind].
  assert (len (str_proc ++ show pid) = 6 + len (show pid)) as Hpl by (unfold len; rewrite length_app; cbn; lia).
  unfold strcpy_into. rewrite (proj2 (Z.ltb_lt _ 64)) by lia. cbn [mbind outcome_bind].
  pose proof (unregister_entries_ok (show pid) f i Hu ltac:(lia)) as HR. unfold unregister_entries in HR.
  destruct (remove_files proc_files (show pid) f) as [f1| |]; [|done..]. cbn [mbind outcome_bind] in *.
  destruct (procfs_remove_entry (show pid) f1) as [f2| |]; [|done..]. cbn [mbind outcome_bind runs_to] in *. destruct HR as (Hu2 & He2 & Hm2).
  assert (no_nul (str_proc ++ show pid)) as Hnn by (apply no_nul_app; split; [lit_nul|done]).
  eapply runs_to_bind; [apply delete_nodes_ok; [done|lia|done|]|].
  { repeat constructor; first [vm_compute; reflexivity|lit_nul]. }
  intros v1 Hw1. eapply runs_to_bind; [apply vfs_rmdir_ok; [done|by destruct (show pid)|unfold MAX_FILENAME; lia]|].
  intros [v2 r2] [Hw2 _]. eapply runs_to_bind; [apply (clear_args_ok pid f2 h); by rewrite He2|]. intros [f3 h3] [_ ->].
  cbn [runs_to]. done.
Qed.
End InVfs.

(** ** Open files *)

Section Files.
Context {H : Type} {PH : ProcHost H} (junk : list Z).

Lemma entry_of_index f n x : names_unique f -> entry_of f n = Some x -> exists i e,
  procfs_find_entry f n = Some i /\ aget (procfs_entries f) i = Ret e /\ as_entry e = x.
Proof.
  intros Hu (i & e & He & H1 & H2 & ->)%entry_of_spec; [|done]. exists (Z.of_nat i), e. split_and!; [|apply aget_lookup; [lia|by rewrite Nat2Z.id]|done].
  apply find_spec; [done|]. exists e. rewrite Nat2Z.id. split_and!; [lia|done..].
Qed.

Lemma open_ok f n file data p :
  names_unique f -> entry_of f n = Some (Some file, data, false) -> proc_is_root n = false ->
  exists i, procfs_open n (Some p) f = Ret (inr (p, mkpp i 0), set_temp f data) /\
    forall g pos count h, procfs_entries g = procfs_entries f ->
      procfs_read junk (Some (mkpp i pos)) count g h =
        ('(r, bytes, pos, g, h) ← proc_read junk file (temp_data g) count pos g h; Ret (r, bytes, Some (mkpp i pos), g, h)).
Proof.
  intros Hu He Hr. destruct (entry_of_index f n _ Hu He) as (i & e & Hi & Ha & [= Hrd Hd Hdir]). exists i.
  unfold procfs_open. rewrite Hr, Hi, Ha. cbn [mbind outcome_bind]. rewrite Hdir, Hd. split; [done|].
  intros g pos count h Hg. unfold procfs_read. cbn [pp_entry pp_pos]. rewrite Hg, Ha. cbn [mbind outcome_bind]. by rewrite Hrd.
Qed.

(** A file of a process that is opened, and then another one: reads of the first are
    answered for the process of the second.  The private data of a file holds its
    entry, but dev_data is passed in the one static temp_file of procfs_open. *)
Theorem procfs_last_opened f na nb fa fb i j pa pb count (h : H) :
  names_unique f -> proc_is_root na = false -> proc_is_root nb = false ->
  entry_of f na = Some (Some fa, Some i, false) -> entry_of f nb = Some (Some fb, Some j, false) ->
  exists ha hb f1 f2,
    procfs_open na (Some pa) f = Ret (inr (pa, ha), f1) /\
    procfs_open nb (Some pb) f1 = Ret (inr (pb, hb), f2) /\
    procfs_read junk (Some ha) count f2 h =
      ('(r, bytes, pos, g, h) ← proc_read junk fa (Some j) count 0 f2 h; Ret (r, bytes, Some (mkpp (pp_entry ha) pos), g, h)).
Proof.
  intros Hu Ra Rb Ea Eb. destruct (open_ok f na fa (Some i) pa Hu Ea Ra) as (ia & Ha & Hread).
  assert (names_unique (set_temp f (Some i))) as Hu1 by exact Hu.
  destruct (open_ok (set_temp f (Some i)) nb fb (Some j) pb Hu1 Eb Rb) as (ib & Hb & _).
  eexists _, _, _, _. split_and!; [exact Ha|exact Hb|]. rewrite Hread by done. done.
Qed.

(** Reads of [n] bytes until 0 is returned. *)
Fixpoint drain (rounds : nat) (n : Z) (priv : procfs_private) (f : procfs) (h : H) : outcome (list Z) :=
  match rounds with
  | O => OutOfFuel
  | S k =>
      '(r, bytes, priv', f, h) ← procfs_read junk (Some priv) n f h;
      if r =? 0 then Ret [] else
      match priv' with
      | Some priv' => rest ← drain k n priv' f h; Ret (bytes ++ rest)
      | None => Fault NullDeref
      end
  end.

Lemma drain_status f i pi p n (h : H) :
  (forall pos count, procfs_read junk (Some (mkpp i pos)) count f h =
     ('(r, bytes, pos, g, h) ← proc_read junk procfs_status_read (temp_data f) count pos f h; Ret (r, bytes, Some (mkpp i pos), g, h))) ->
  temp_data f = Some pi -> 0 <= pi -> ph_processes h !! Z.to_nat pi = Some p -> status_ok p -> 0 < n ->
  forall rounds pos, 0 <= pos <= len (status_lines p) -> len (status_lines p) - pos < Z.of_nat rounds ->
  drain rounds n (mkpp i pos) f h = Ret (drop (Z.to_nat pos) (status_lines p)).
Proof.
  intros Hread Ht Hpi Hp Hok Hn. set (t := status_lines p).
  pose proof (status_text_ok junk p Hok) as Hs. destruct (status_text junk p) as [buf| |] eqn:Eb; [|done..]. cbn [runs_to] in Hs.
  assert (len t < 2 ^ 62) as Hlt.
  { destruct Hok as [A B C D E F G]. apply show_chars in A, B, C, D, E, F, G. unfold t, status_lines, len in *.
    repeat (rewrite ?length_app; cbn [length]). change (2 ^ 62) with 4611686018427387904.
    destruct (active p), (blocked p); cbn -[Z.of_nat]; lia. }
  intros rounds pos Hpos Hr. rewrite <- (read_all_ok buf t n Hs Hn Hlt rounds pos Hpos Hr). revert pos Hpos Hr.
  induction rounds as [|k IH]; intros pos Hpos Hr; [done|]. cbn [drain read_all]. rewrite Hread. unfold proc_read.
  rewrite Ht, (aget_lookup _ _ p) by done. cbn [mbind outcome_bind]. rewrite Eb. cbn [mbind outcome_bind].
  change (2 ^ 62) with 4611686018427387904 in Hlt.
  rewrite (text_read_ok buf t) by (done || change (2 ^ 63) with 9223372036854775808; lia). cbn zeta. cbn [mbind outcome_bind].
  set (bytes := take (Z.to_nat n) (drop (Z.to_nat pos) t)).
  assert (len bytes = Z.min n (len t - pos)) as Hl by (unfold bytes, len; rewrite length_take, length_drop; unfold len in *; lia).
  destruct (Z.eqb_spec (len bytes) 0); [done|]. by rewrite IH by lia.
Qed.
End Files.

(** ** The byte-code dump *)

Definition hex_digit (x : Z) : Z := default 0 (hex_chars !! Z.to_nat x).

(** A byte in the left column, with the gap in the middle of a row. *)
Definition hex_cell (k b : Z) : list Z :=
  (if k =? 8 then [32] else []) ++ [hex_digit (Z.land (Z.shiftr b 4) 0x0F); hex_digit (Z.land b 0x0F); 32].

Fixpoint hex_row (bs : list Z) (k : Z) : list Z :=
  match bs with [] => [] | b :: bs' => hex_cell k b ++ hex_row bs' (k + 1) end.

Lemma hex_row_app a b : forall k, hex_row (a ++ b) k = hex_row a k ++ hex_row b (k + len a).
Proof.
  induction a as [|x a IH]; intros k; cbn [hex_row app]; [by rewrite Z.add_0_r|].
  rewrite IH, <- app_assoc. do 3 f_equal. unfold len. cbn [length]. lia.
Qed.

Lemma hex_row_len bs : forall k, 0 <= k -> k + len bs <= 16 -> len (hex_row bs k) = 3 * len bs + (if (k <=? 8) && (8 <? k + len bs) then 1 else 0).
Proof.
  unfold len. induction bs as [|b bs IH]; intros k Hk Hl; cbn [hex_row length] in *.
  { destruct (Z.leb_spec k 8), (Z.ltb_spec 8 (k + Z.of_nat 0)); cbn; lia. }
  rewrite length_app, Nat2Z.inj_add, IH by lia. unfold hex_cell. rewrite length_app.
  destruct (Z.eqb_spec k 8), (Z.leb_spec k 8), (Z.leb_spec (k + 1) 8), (Z.ltb_spec 8 (k + 1 + Z.of_nat (length bs))),
    (Z.ltb_spec 8 (k + Z.of_nat (S (length bs)))); cbn [andb length Nat.add]; lia.
Qed.

Lemma hex_digit_ok x : 0 <= x < 16 -> aget hex_chars x = Ret (hex_digit x) /\ hex_digit x <> 0.
Proof.
  intros Hx. assert (forallb (fun x => match aget hex_chars x with Ret c => (c =? hex_digit x) && negb (c =? 0) | _ => false end) (seqZ 0 16) = true) as E
    by (vm_compute; reflexivity).
  pose proof (by_cases 16 _ E x Hx) as H. cbn beta in H. destruct (aget hex_chars x) as [c| |]; [|done..].
  apply andb_prop in H as [->%Z.eqb_eq H]. split; [done|]. intros E0. by rewrite E0 in H.
Qed.

Lemma hex_byte_ok b : exists h l, hex_byte b = Ret [h; l; 0] /\ hex_cell 0 b = [h; l; 32] /\ no_nul [h; l].
Proof.
  assert (forall x, 0 <= Z.land x 0x0F < 16) as Hr.
  { intros x. change 0x0F with (Z.ones 4). rewrite Z.land_ones by lia. apply Z.mod_pos_bound. lia. }
  destruct (hex_digit_ok _ (Hr (Z.shiftr b 4))) as [E1 N1]. destruct (hex_digit_ok _ (Hr b)) as [E2 N2].
  unfold hex_byte. rewrite E1, E2. cbn [mbind outcome_bind]. eexists _, _. split_and!; [done|done|].
  unfold no_nul. rewrite !elem_of_cons, elem_of_nil. naive_solver.
Qed.

Definition dump_header : list Z := lit "Bytecode (hex):" ++ [10].

(** The dump after [i] bytes of its first row. *)
Record dump_at (code : list Z) (i : Z) (d : dump) : Prop := {
  da_buf : buf_is 8192 (du_buf d) (dump_header ++ hex_row (take (Z.to_nat i) code) 0) [];
  da_ptr : du_ptr d = len (dump_header ++ hex_row (take (Z.to_nat i) code) 0);
  da_rem : du_rem d = 8192 - du_ptr d;
  da_ascii : du_ascii d = take (Z.to_nat i) code ++ replicate (17 - Z.to_nat i) 0;
  da_idx : du_idx d = i;
}.

Lemma dump_ptr code i d : dump_at code i d -> 0 <= i <= 16 -> i <= len code ->
  du_ptr d = 16 + 3 * i + (if 8 <? i then 1 else 0).
Proof.
  intros [_ Hp _ _ _] Hi Hl. rewrite Hp. unfold len. rewrite length_app, Nat2Z.inj_add.
  assert (len (take (Z.to_nat i) code) = i) as E by (unfold len in *; rewrite length_take; lia).
  pose proof (hex_row_len (take (Z.to_nat i) code) 0 ltac:(lia) ltac:(lia)) as H. rewrite E in H. unfold len in H. rewrite H.
  change (length dump_header) with 16%nat. rewrite Z.add_0_l. change (0 <=? 8) with true. cbn [andb]. destruct (8 <? i); lia.
Qed.

Lemma dump_step code size i d :
  dump_at code i d -> 0 <= i < 16 -> i < len code -> exists d', dump_at code (i + 1) d' /\
  forall n, dump_loop (S n) code size i d = dump_loop n code size (i + 1) d'.
Proof.
  intros Hd Hi Hl. pose proof (dump_ptr code i d Hd ltac:(lia) ltac:(lia)) as Hptr. destruct Hd as [Hb Hp Hr Ha Hx].
  destruct (aget_in_bounds code i ltac:(lia)) as (b & Eb & Hcb). destruct (hex_byte_ok b) as (h & l & Eh & Ecell & Hnul).
  set (text := dump_header ++ hex_row (take (Z.to_nat i) code) 0) in *.
  (* the gap before the ninth byte *)
  set (gap := if i =? 8 then [32] else @nil Z).
  assert (exists d1, (if (0 <? i) && (i mod 16 =? 0) then row_end d
           else if (0 <? i) && (i mod 8 =? 0) then
             buf ← strcat_at (du_buf d) (du_ptr d) (zlit " ") (du_rem d);
             Ret (mkdump buf (du_ptr d + 1) (u64 (du_rem d - 1)) (du_ascii d) (du_idx d))
           else Ret d) = Ret d1 /\ buf_is 8192 (du_buf d1) (text ++ gap) [] /\ du_ptr d1 = len (text ++ gap) /\
           du_rem d1 = 8192 - du_ptr d1 /\ du_ascii d1 = du_ascii d /\ du_idx d1 = du_idx d) as (d1 & E1 & Hb1 & Hp1 & Hr1 & Ha1 & Hx1).
  { replace ((0 <? i) && (i mod 16 =? 0)) with false.
    2:{ symmetry. apply andb_false_iff. destruct (decide (i = 0)) as [->|]; [by left|]. right. apply Z.eqb_neq. rewrite Z.mod_small; lia. }
    unfold gap. destruct (Z.eqb_spec i 8) as [->|Hne].
    - change ((0 <? 8) && (8 mod 8 =? 0)) with true. cbn iota. rewrite Hr, Hp.
      pose proof (strcat_at_ok 8192 (du_buf d) text [] (zlit " ") (lit " ") Hb (zlit_ok " " eq_refl)
        ltac:(rewrite <- Hp, Hptr; vm_compute; reflexivity)) as H.
      destruct (strcat_at (du_buf d) (len text) (zlit " ") (8192 - len text)) as [buf| |]; [|done..].
      cbn [runs_to mbind outcome_bind] in *. eexists. split; [done|]. cbn [du_buf du_ptr du_rem du_ascii du_idx].
      assert (len (text ++ [32]) = len text + 1) as El by (unfold len; rewrite length_app; cbn; lia).
      split_and!; [|done| |done|done].
      + apply buf_advance. apply H.
      + change (8 <? 8) with false in Hptr. rewrite u64_id by lia. lia.
    - replace ((0 <? i) && (i mod 8 =? 0)) with false.
      2:{ symmetry. apply andb_false_iff. destruct (decide (i = 0)) as [->|]; [by left|]. right. apply Z.eqb_neq. intros E0%Z.mod_divide; [|done].
          destruct E0 as [k ->]. lia. }
      exists d. rewrite app_nil_r. done. }
  assert (0 <= len (text ++ gap) <= 68) as Hsmall.
  { unfold len in *. rewrite length_app. unfold gap. destruct (i =? 8), (8 <? i); cbn [length]; lia. }
  assert (cstr [h; l; 0] [h; l]) as Hch by (split; [exact Hnul|by exists []]).
  pose proof (strcats_ok 8192 (text ++ gap) [[h; l; 0]; zlit " "] [[h; l]; lit " "]
    ltac:(constructor; [done|constructor; [by apply zlit_ok|constructor]]) (du_buf d1) [] Hb1
    ltac:(change (len (concat [[h; l]; lit " "])) with 3; change (len (@nil Z)) with 0; lia)) as H.
  destruct (strcats (du_buf d1) (len (text ++ gap)) [[h; l; 0]; zlit " "] (8192 - len (text ++ gap))) as [buf| |] eqn:Es; [|done..].
  cbn [runs_to concat app] in H.
  assert (aset (du_ascii d) i b = Ret (take (Z.to_nat (i + 1)) code ++ replicate (17 - Z.to_nat (i + 1)) 0)) as Easc.
  { assert (length (take (Z.to_nat i) code) = Z.to_nat i) as Etl by (rewrite length_take; unfold len in *; lia).
    rewrite aset_in_bounds by (rewrite Ha; unfold len; rewrite length_app, length_replicate, Etl; lia). f_equal. rewrite Ha.
    replace (17 - Z.to_nat i)%nat with (S (17 - Z.to_nat (i + 1))) by lia. cbn [replicate].
    rewrite insert_middle by done. replace (Z.to_nat (i + 1)) with (S (Z.to_nat i)) by lia.
    rewrite (take_S_r _ _ b) by done. by rewrite <- app_assoc. }
  exists (mkdump buf (du_ptr d1 + 3) (u64 (du_rem d1 - 3)) (take (Z.to_nat (i + 1)) code ++ replicate (17 - Z.to_nat (i + 1)) 0) (i + 1)).
  assert (dump_header ++ hex_row (take (Z.to_nat (i + 1)) code) 0 = (text ++ gap) ++ [h; l; 32]) as Et.
  { replace (Z.to_nat (i + 1)) with (S (Z.to_nat i)) by lia. rewrite (take_S_r _ _ b) by done. rewrite hex_row_app.
    assert (len (take (Z.to_nat i) code) = i) as -> by (unfold len in *; rewrite length_take; lia).
    cbn [hex_row]. rewrite app_nil_r, Z.add_0_l. unfold text, gap. rewrite <- !app_assoc. do 2 f_equal.
    unfold hex_cell in *. cbn [Z.eqb app] in Ecell. by rewrite Ecell. }
  split.
  - assert (len ((text ++ gap) ++ [h; l; 32]) = len (text ++ gap) + 3) as El by (unfold len; rewrite (length_app (text ++ gap)); cbn; lia).
    split; cbn [du_buf du_ptr du_rem du_ascii du_idx]; rewrite ?Et; [|lia| |done|done].
    + apply buf_advance. exact H.
    + rewrite u64_id by lia. lia.
  - intros n. cbn [dump_loop]. rewrite E1. cbn [mbind outcome_bind]. rewrite Eb. cbn [mbind outcome_bind]. rewrite Eh. cbn [mbind outcome_bind].
    rewrite Hr1, Hp1, Es. cbn [mbind outcome_bind]. rewrite Ha1, Hx1, Hx, Easc. cbn [mbind outcome_bind]. cbn [du_rem].
    rewrite (proj2 (Z.leb_gt _ 50)) by (rewrite u64_id; lia). done.
Qed.

Lemma dump_row code size k : forall i d, dump_at code i d -> 0 <= i -> i + Z.of_nat k <= 16 -> i + Z.of_nat k <= len code ->
  exists d', dump_at code (i + Z.of_nat k) d' /\ forall n, dump_loop (k + n) code size i d = dump_loop n code size (i + Z.of_nat k) d'.
Proof.
  induction k as [|k IH]; intros i d Hd Hi H16 Hl.
  { exists d. rewrite Z.add_0_r. done. }
  destruct (dump_step code size i d Hd ltac:(lia) ltac:(lia)) as (d1 & Hd1 & E1).
  destruct (IH (i + 1) d1 Hd1 ltac:(lia) ltac:(lia) ltac:(lia)) as (d2 & Hd2 & E2).
  exists d2. replace (i + Z.of_nat (S k)) with (i + 1 + Z.of_nat k) by lia. split; [done|]. intros n. cbn [Nat.add]. by rewrite E1.
Qed.

(** A character of the right column. *)
Definition shown (c : Z) : Z := if (32 <=? c) && (c <=? 126) then c else 46.

Lemma ascii_char_ok c : cstr (ascii_char c) [shown c].
Proof.
  unfold ascii_char, shown. destruct ((32 <=? c) && (c <=? 126)) eqn:E; [|by apply (zlit_ok ".")].
  apply andb_prop in E as [E1%Z.leb_le E2]. split; [|by exists []]. rewrite list_elem_of_singleton. lia.
Qed.

Lemma ascii_chars_ok cs : Forall2 cstr (map ascii_char cs) ((fun c => [shown c]) <$> cs).
Proof. induction cs; constructor; [apply ascii_char_ok|done]. Qed.

Lemma shown_concat cs : concat ((fun c => [shown c]) <$> cs) = shown <$> cs.
Proof. induction cs as [|c cs IH]; [done|]. cbn. by rewrite <- IH. Qed.

Lemma bar_ok : cstr (lit "|" ++ nl "") (lit "|" ++ [10]).
Proof. split; [|by exists []]. apply (bool_decide_eq_true_1 (_ ∉ _)). vm_compute. reflexivity. Qed.

(** The right column between its bars. *)
Definition ascii_column (cs : list Z) : list Z := lit "  |" ++ (shown <$> cs) ++ lit "|" ++ [10].

Lemma column_strs cs : Forall2 cstr (zlit "  |" :: map ascii_char cs ++ [lit "|" ++ nl ""])
  (lit "  |" :: ((fun c => [shown c]) <$> cs) ++ [lit "|" ++ [10]]).
Proof.
  constructor; [by apply zlit_ok|]. apply Forall2_app; [apply ascii_chars_ok|]. constructor; [apply bar_ok|constructor].
Qed.

Lemma column_text cs : concat (lit "  |" :: ((fun c => [shown c]) <$> cs) ++ [lit "|" ++ [10]]) = ascii_column cs.
Proof. cbn [concat]. rewrite concat_app, shown_concat. cbn [concat]. by rewrite app_nil_r. Qed.

Lemma column_len cs : len (ascii_column cs) = 5 + len cs.
Proof. unfold ascii_column, len. rewrite !length_app, length_fmap. change (length (lit "  |")) with 3%nat. change (length (lit "|")) with 1%nat. cbn [length]. lia. Qed.

Lemma strcats_app buf ptr a b rem : strcats buf ptr (a ++ b) rem = (buf ← strcats buf ptr a rem; strcats buf ptr b rem).
Proof.
  revert buf. induction a as [|x a IH]; intros buf; cbn [strcats app mbind outcome_bind]; [done|].
  destruct (strcat_at buf ptr x rem); cbn [mbind outcome_bind]; auto.
Qed.

(** The end of the first full row: the pointer is computed as the length of the
    column minus the offset of the pointer, a negative offset. *)
Lemma row_end_negative code d :
  dump_at code 16 d -> 16 <= len code -> exists d', row_end d = Ret d' /\ du_ptr d' = -44.
Proof.
  intros Hd Hl. pose proof (dump_ptr code 16 d Hd ltac:(lia) Hl) as Hptr. change (8 <? 16) with true in Hptr. cbn iota in Hptr.
  destruct Hd as [Hb Hp Hr Ha _]. rewrite Hptr in Hp, Hr. unfold row_end. rewrite Hptr, Hr.
  set (text := dump_header ++ hex_row (take (Z.to_nat 16) code) 0) in *. set (cs := take 16 (du_ascii d)).
  assert (len cs = 16) as Hcs.
  { unfold cs, len. rewrite Ha, length_take, length_app, length_replicate, length_take. unfold len in Hl. lia. }
  pose proof (strcats_ok 8192 text _ _ (column_strs cs) (du_buf d) [] Hb) as H. rewrite column_text in H.
  rewrite <- Hp in H. specialize (H ltac:(rewrite column_len, Hcs; change (len (@nil Z)) with 0; lia)).
  cbn [strcats] in H. change (8192 - (16 + 3 * 16 + 1)) with 8127 in *. change (16 + 3 * 16 + 1) with 65 in *.
  destruct (strcat_at (du_buf d) 65 (zlit "  |") 8127) as [b1| |]; [|done..]. cbn [mbind outcome_bind] in *.
  rewrite strcats_app in H. destruct (strcats b1 65 (map ascii_char cs) 8127) as [b2| |]; [|done..]. cbn [mbind outcome_bind strcats] in *.
  destruct (strcat_at b2 65 (lit "|" ++ nl "") 8127) as [b3| |]; [|done..]. cbn [mbind outcome_bind runs_to app] in *.
  assert (strlen (drop (Z.to_nat 65) b3) = Ret 21) as ->.
  { destruct H as [_ _ Hn [rest ->]]. apply no_nul_app in Hn as [_ Hn].
    replace (Z.to_nat 65) with (length text) by (unfold len in Hp; lia). rewrite drop_app_length.
    rewrite (strlen_ok _ (ascii_column cs)) by (split; [done|by exists rest]). by rewrite column_len, Hcs. }
  cbn [mbind outcome_bind]. eexists. split; done.
Qed.

Lemma dump_start junk : exists buf, strcpy_at (fresh junk 8192) 0 (lit "Bytecode (hex):" ++ nl "") 8192 = Ret buf /\
  strlen buf = Ret 16 /\ forall code, dump_at code 0 (mkdump buf 16 (u64 (8192 - 16)) (replicate 17 0) 0).
Proof.
  assert (cstr (lit "Bytecode (hex):" ++ nl "") dump_header) as Hc.
  { split; [|exists []; done]. apply (bool_decide_eq_true_1 (_ ∉ _)). vm_compute. reflexivity. }
  pose proof (text_start_ok 8192 junk _ _ Hc ltac:(vm_compute; reflexivity) ltac:(lia)) as H.
  destruct (strcpy_at (fresh junk 8192) 0 _ 8192) as [buf| |]; [|done..]. exists buf. cbn [runs_to] in H. split_and!; [done| |].
  - exact (strlen_ok _ _ (buf_cstr _ _ _ _ H)).
  - intros code. split; cbn [du_buf du_ptr du_rem du_ascii du_idx]; try done.
    change (Z.to_nat 0) with 0%nat. rewrite take_0. cbn [hex_row]. rewrite app_nil_r. exact (buf_advance _ _ _ _ H).
Qed.

(** C36. The byte-code file of every process with more than 16 bytes of code overruns its
    buffer: after the first full row procfs_bytecode_read sets its pointer to 44 bytes
    before bytecode_buf and goes on writing there. *)
Theorem bytecode_dump_overruns junk p b :
  bytecode p = Some b -> 16 < psize p -> 16 <= len (buf_bytes b) -> bytecode_text junk p = Fault OutOfBounds.
Proof.
  intros Hb Hs Hl. unfold bytecode_text. destruct (dump_start junk) as (buf & -> & Elen & Hstart). cbn [mbind outcome_bind].
  rewrite Elen. cbn [mbind outcome_bind]. rewrite (proj2 (Z.eqb_neq _ 0)), Hb by lia.
  destruct (dump_row (buf_bytes b) (psize p) 16 0 _ (Hstart (buf_bytes b)) ltac:(lia) ltac:(lia) ltac:(lia)) as (d & Hd & Eloop).
  replace (Z.to_nat (psize p)) with (16 + S (Z.to_nat (psize p) - 17))%nat by lia. rewrite Eloop.
  cbn [dump_loop]. change ((0 <? 0 + Z.of_nat 16) && ((0 + Z.of_nat 16) mod 16 =? 0)) with true. cbn iota.
  destruct (row_end_negative _ _ Hd Hl) as (d' & -> & Hptr). cbn [mbind outcome_bind].
  destruct (decide (17 <= len (buf_bytes b))).
  2:{ rewrite aget_out_of_bounds by lia. done. }
  destruct (aget_in_bounds (buf_bytes b) (0 + Z.of_nat 16) ltac:(lia)) as (x & -> & _). cbn [mbind outcome_bind].
  destruct (hex_byte_ok x) as (c1 & c2 & -> & _). cbn [mbind outcome_bind strcats]. unfold strcat_at, at_ptr. rewrite Hptr. done.
Qed.

Lemma pad_last_ok n : forall buf text, buf_is 8192 buf text [] -> len text + 3 * Z.of_nat n < 8000 ->
  exists buf', pad_last n buf (len text) (8192 - len text) =
    Ret (buf', len text + 3 * Z.of_nat n, 8192 - (len text + 3 * Z.of_nat n)) /\ buf_is 8192 buf' (text ++ replicate (3 * n) 32) [].
Proof.
  induction n as [|n IH]; intros buf text Hb Hl; cbn [pad_last].
  { exists buf. cbn [Nat.mul replicate]. rewrite app_nil_r. replace (len text + 3 * Z.of_nat 0) with (len text) by lia. done. }
  pose proof (strcat_at_ok 8192 buf text [] (zlit "   ") (lit "   ") Hb (zlit_ok "   " eq_refl)
    ltac:(change (len (@nil Z)) with 0; change (len (lit "   ")) with 3; lia)) as H.
  destruct (strcat_at buf (len text) (zlit "   ") (8192 - len text)) as [b1| |]; [|done..]. cbn [runs_to mbind outcome_bind app] in *.
  apply buf_advance in H. assert (len (text ++ lit "   ") = len text + 3) as El by (unfold len; rewrite length_app; cbn; lia).
  assert (0 <= len text) by (unfold len; lia). rewrite u64_id by lia.
  replace (len text + 3) with (len (text ++ lit "   ")) by lia. replace (8192 - len text - 3) with (8192 - len (text ++ lit "   ")) by lia.
  destruct (IH b1 (text ++ lit "   ") H ltac:(lia)) as (b2 & -> & Hb2). exists b2. rewrite El. split; [do 3 f_equal; lia|].
  replace (3 * S n)%nat with (3 + 3 * n)%nat by lia. rewrite replicate_add, app_assoc. exact Hb2.
Qed.

(** The dump of a single row. *)
Definition dump_text (bs : list Z) : list Z :=
  dump_header ++ hex_row bs 0
  ++ (match bs with [] => [] | _ => replicate (3 * (16 - length bs)) 32 ++ ascii_column (before_nul bs) end)
  ++ 10 :: lit "Bytecode size: " ++ show (len bs) ++ lit " bytes" ++ [10].

Lemma before_nul_pad bs n : before_nul (bs ++ replicate n 0) = before_nul bs.
Proof.
  induction bs as [|c bs IH]; cbn [before_nul app]; [by destruct n|]. destruct (c =? 0); [done|]. by rewrite IH.
Qed.

Lemma before_nul_len bs : len (before_nul bs) <= len bs.
Proof. unfold len. induction bs as [|c bs IH]; cbn [before_nul length]; [lia|]. destruct (c =? 0); cbn [length]; lia. Qed.

Lemma size_line_ok buf done_ s n junk :
  buf_is 8192 buf done_ s -> len done_ + len s < 8000 -> 0 <= n <= 16 ->
  runs_to (size_str ← itoa (i32 n) (fresh junk 16) 10;
           strcats buf (len done_) [nl "Bytecode size: "; size_str; lit " bytes" ++ nl ""] (8192 - len done_))
    (fun b => cstr b (done_ ++ s ++ 10 :: lit "Bytecode size: " ++ show n ++ lit " bytes" ++ [10])).
Proof.
  intros Hb Hl Hn. rewrite i32_id by lia. assert (printable n) as Hp by (unfold printable; lia).
  eapply runs_to_bind; [apply itoa_in_16; [done|by apply fresh_len]|]. intros sz [Hc _].
  assert (cstr (lit " bytes" ++ nl "") (lit " bytes" ++ [10])) as Hend.
  { split; [|by exists []]. apply (bool_decide_eq_true_1 (_ ∉ _)). vm_compute. reflexivity. }
  eapply runs_to_mono; [apply (strcats_ok 8192 done_ [nl "Bytecode size: "; sz; lit " bytes" ++ nl ""]
    [10 :: lit "Bytecode size: "; show n; lit " bytes" ++ [10]] ltac:(cats) buf s Hb)|].
  - pose proof (proj2 (show_chars n Hp)). cbn [concat]. unfold len in *. rewrite !length_app. cbn -[Z.of_nat Z.add]. lia.
  - intros b Hbt. apply buf_cstr in Hbt. cbn [concat app] in Hbt. rewrite app_nil_r in Hbt. exact Hbt.
Qed.

(** The dump of at most 16 bytes: header, hexadecimal row, padding, the printable
    characters before the first zero byte, and the size. *)
Theorem bytecode_dump_small junk p b :
  bytecode p = Some b -> 0 <= psize p <= 16 -> psize p <= len (buf_bytes b) ->
  runs_to (bytecode_text junk p) (fun buf => cstr buf (dump_text (take (Z.to_nat (psize p)) (buf_bytes b)))).
Proof.
  intros Hb Hs Hl. set (bs := take (Z.to_nat (psize p)) (buf_bytes b)).
  assert (len bs = psize p) as Hbl by (unfold bs, len in *; rewrite length_take; lia).
  unfold bytecode_text. destruct (dump_start junk) as (buf & -> & Elen & Hstart). cbn [mbind outcome_bind].
  rewrite Elen. cbn [mbind outcome_bind].
  destruct (dump_row (buf_bytes b) (psize p) (Z.to_nat (psize p)) 0 _ (Hstart (buf_bytes b)) ltac:(lia) ltac:(lia) ltac:(lia)) as (d & Hd & Eloop).
  specialize (Eloop 0%nat). rewrite Nat.add_0_r in Eloop. cbn [dump_loop] in Eloop.
  rewrite Z2Nat.id, Z.add_0_l in * by lia. pose proof (dump_ptr _ _ _ Hd ltac:(lia) ltac:(lia)) as Hptr.
  destruct (Z.eqb_spec (psize p) 0) as [E0|E0].
  - cbn [mbind outcome_bind du_idx]. change (0 <? 0) with false. cbn [mbind outcome_bind du_buf du_ptr du_rem].
    destruct (Hstart bs) as [Hsb _ _ _ _]. cbn [du_buf] in Hsb. change (Z.to_nat 0) with 0%nat in Hsb. rewrite take_0 in Hsb. cbn [hex_row] in Hsb.
    rewrite app_nil_r in Hsb. change 16 with (len dump_header) at 2. change (u64 (8192 - 16)) with (8192 - len dump_header).
    eapply runs_to_mono; [apply (size_line_ok buf dump_header [] (psize p) junk Hsb); [vm_compute; reflexivity|lia]|].
    intros x Hx. unfold dump_text. rewrite Hbl. assert (bs = []) as -> by (destruct bs; [done|unfold len in Hbl; cbn [length] in Hbl; lia]).
    exact Hx.
  - rewrite Hb, Eloop. cbn [mbind outcome_bind]. destruct Hd as [Hbuf Hp Hr Ha Hx]. fold bs in Hbuf, Hp, Ha.
    rewrite Hx, (proj2 (Z.ltb_lt 0 _)) by lia. set (text := dump_header ++ hex_row bs 0) in *. rewrite Hr, Hp.
    assert (len text <= 66) as Hsm by (rewrite <- Hp, Hptr; destruct (8 <? psize p); lia).
    destruct (pad_last_ok (Z.to_nat (16 - psize p)) (du_buf d) text Hbuf ltac:(lia)) as (b1 & -> & Hb1). cbn [mbind outcome_bind].
    set (text2 := text ++ replicate (3 * Z.to_nat (16 - psize p)) 32) in *.
    assert (len text2 = len text + 3 * Z.of_nat (Z.to_nat (16 - psize p))) as El2 by (unfold text2, len; rewrite length_app, length_replicate; lia).
    rewrite <- El2.
    assert (before_nul (take 16 (du_ascii d)) = before_nul bs) as ->.
    { rewrite Ha. rewrite take_app_ge by (unfold len in Hbl; lia). rewrite take_replicate. apply before_nul_pad. }
    eapply (runs_to_bind _ _ (fun '(b2, ptr, rem) => buf_is 8192 b2 text2 (ascii_column (before_nul bs)) /\ ptr = len text2 /\ rem = 8192 - len text2));
      [eapply runs_to_bind; [apply (strcats_ok 8192 text2 _ _ (column_strs (before_nul bs)) b1 [] Hb1)|]|].
    + rewrite column_text, column_len. pose proof (before_nul_len bs). change (len (@nil Z)) with 0. lia.
    + intros b2 Hb2. rewrite column_text in Hb2. cbn [runs_to]. split_and!; [exact Hb2|done|lia].
    + intros [[b2 ptr] rem] (Hb2 & -> & ->). eapply runs_to_mono; [apply (size_line_ok b2 text2 _ (psize p) junk Hb2); [|lia]|].
      * cbn [app]. rewrite column_len. pose proof (before_nul_len bs). lia.
      * intros x Hx'. unfold dump_text. rewrite Hbl.
        assert (forall X : list Z, match bs with [] => [] | _ => X end = X) as ->
          by (intros X; destruct bs; [change (len (@nil Z)) with 0 in Hbl; lia|done]).
        unfold text2, text in Hx'. replace (16 - length bs)%nat with (Z.to_nat (16 - psize p)) by (unfold len in Hbl; lia).
        rewrite <- !app_assoc in *. exact Hx'.
Qed.

(** C15. The files of a process, from its creation to its end: procfs_register adds the
    directory of the process and its four files to the table, which is a map from names,
    and changes no other name; the status file can then be opened, and a client that
    reads until 0 is returned gets, with a buffer of any size, exactly the status lines
    of the process; procfs_unregister, with or without a procfs_set_args of at most 32
    arguments before it, restores the map.  The VFS keeps its invariant throughout.  Five
    entries of the table must be free (when it is full an entry is dropped), the names
    of the process must not be taken in the table and in the VFS, no record of arguments
    may claim more than 32 of them, and no number of the status may be INT_MIN. *)
Theorem procfs_files_of_process {V : Type} {VE : VfsEnv V} {H : Type} {PH : ProcHost H}
    (fn_addr : proc_file -> Z) (proc_addr : Z -> Z) (junk : list Z) pid i p a n f (v : vfs V) (h : H) :
  vfs_wf v -> 0 <= pid < 256 -> names_unique f -> (5 <= free_entries f)%nat ->
  (forall m, m ∈ (files_of (show pid) i).*1 -> entry_of f m = None) ->
  (forall m, m ∈ node_names (show pid) -> find_file v m = None) ->
  args_shape f ->
  0 <= i -> ph_processes h !! Z.to_nat i = Some p -> status_ok p -> 0 < n ->
  runs_to (procfs_register fn_addr proc_addr pid i f v) (fun '(f1, v1) =>
    (forall m, entry_of f1 m = match assoc (files_of (show pid) i) m with Some x => Some x | None => entry_of f m end) /\
    (exists hd g, procfs_open (show pid ++ lit "/status") (Some a) f1 = Ret (inr (a, hd), g) /\
       drain junk (S (length (status_lines p))) n hd g h = Ret (status_lines p)) /\
    runs_to (procfs_unregister pid f1 v1 h) (fun '(f2, v2, _) => vfs_wf v2 /\ forall m, entry_of f2 m = entry_of f m) /\
    (forall argv, len argv <= 32 ->
       runs_to ('(f1, h1) ← procfs_set_args pid argv (len argv) f1 h; procfs_unregister pid f1 v1 h1)
         (fun '(f2, v2, _) => vfs_wf v2 /\ forall m, entry_of f2 m = entry_of f m))).
Proof.
  intros Hw Hp Hu Hfree Hn Hnodes Hargs Hi Hproc Hok Hpos.
  eapply runs_to_mono; [by apply register_ok|]. intros [f1 v1] (Hw1 & _ & Hu1 & He1 & Hm1). split_and!; [done| | |].
  - assert (entry_of f1 (show pid ++ lit "/status") = Some (Some procfs_status_read, Some i, false)) as Hst.
    { rewrite Hm1. cbn [files_of assoc proc_files fmap list_fmap]. rewrite decide_False, decide_True; [done|done|].
      intros E%(f_equal length). rewrite length_app in E. cbn in E. lia. }
    destruct (open_ok junk f1 _ _ _ a Hu1 Hst) as (k & Ho & Hread).
    { unfold proc_is_root, str_eq. rewrite !bool_decide_false; [done|..];
      intros E%(f_equal length); rewrite length_app in E; cbn in E; lia. }
    exists (mkpp k 0), (set_temp f1 (Some i)). split; [done|].
    apply (drain_status junk (set_temp f1 (Some i)) k i p n h); try done; try (unfold len; lia).
    intros pos count. by apply Hread.
  - eapply runs_to_mono; [apply (unregister_ok pid i); try done; by rewrite He1|].
    intros [[f2 v2] h2] (Hw2 & Hu2 & Hm2). split; [done|]. intros m. rewrite Hm2, Hm1.
    case_bool_decide as Em; [by rewrite Hn|]. by rewrite assoc_other.
  - intros argv Hl. eapply runs_to_bind; [apply (set_args_ok pid argv f1 h); [by rewrite He1|done]|]. intros [f3 h3] [Hs3 E3].
    eapply runs_to_mono; [apply (unregister_ok pid i); [done|done|by rewrite E3|done]|].
    intros [[f2 v2] h2] (Hw2 & Hu2 & Hm2). split; [done|]. intros m. rewrite Hm2. rewrite E3. change (entry_of (set_args f1 ?x) m) with (entry_of f1 m). rewrite Hm1.
    case_bool_decide as Em; [by rewrite Hn|]. by rewrite assoc_other.
Qed.

Section Start.
Context {W : Type} `{VE : VfsEnv W} `{!VfsEnvOk W}.
Implicit Types (v : vfs W).

Lemma add_entry_runs name rd data d f : len name < 128 -> runs_to (procfs_add_entry name rd data d f) (fun _ => True).
Proof.
  intros Hl. unfold procfs_add_entry. destruct (first_index _ (procfs_entries f)) as [i|] eqn:Ei; [|done].
  apply first_index_Some in Ei as (Hi & _). unfold strcpy_into, PROC_NAME_SIZE. rewrite (proj2 (Z.ltb_lt _ _) Hl).
  cbn [mbind outcome_bind]. by rewrite aset_in_bounds by done.
Qed.

Lemma add_system_files_runs files : Forall (fun '(name, _) => len (lit name) < 128) files ->
  forall f, runs_to (add_system_files files f) (fun _ => True).
Proof.
  induction 1 as [|[name fn] files Hn _ IH]; intros f; cbn [add_system_files]; [done|].
  eapply runs_to_bind; [by apply add_entry_runs|]. intros f' _. apply IH.
Qed.

Lemma procfs_init_ok cpuid junk ops f v buf :
  vfs_wf v -> cpuinfo_init cpuid junk (cpuinfo_buf f) = Ret buf ->
  runs_to (procfs_init cpuid junk ops f v) (fun '(_, v') => vfs_wf v').
Proof.
  intros Hw Eb. unfold procfs_init. eapply runs_to_bind; [by apply vfs_register_filesystem_ok|]. intros [v1 r1] (Hw1 & _).
  eapply runs_to_bind; [by apply vfs_mount_fs_ok|]. intros [v2 r2] (Hw2 & _).
  pose proof (add_system_files_runs system_files ltac:(repeat constructor; by vm_compute)
    (set_args (set_entries f (map (fun e => mkpe (pe_name e) (pe_read e) (pe_data e) false (pe_is_dir e)) (procfs_entries f)))
       (map (fun a => mkpa (pa_pid a) (pa_args a) (pa_argc a) false) (procfs_args f)))) as Hs.
  assert (forall files g g', add_system_files files g = Ret g' -> cpuinfo_buf g' = cpuinfo_buf g) as Hbuf.
  { clear. induction files as [|[name fn] files IH]; intros g g'; cbn [add_system_files]; [by intros [= <-]|].
    destruct (procfs_add_entry _ _ _ _ g) as [g1| |] eqn:E; cbn [mbind outcome_bind]; [|done..]. intros H%IH. rewrite H. clear IH H.
    revert E. unfold procfs_add_entry. repeat path; done. }
  apply runs_to_inv in Hs as (g & Eg & _). unfold set_args, set_entries in Eg |- *. cbn [procfs_entries procfs_args] in *. rewrite Eg. cbn [mbind outcome_bind].
  apply Hbuf in Eg. cbn [cpuinfo_buf] in Eg. rewrite Eg, Eb. done.
Qed.

End Start.

Module Demo.
Definition proc7 : nvm_process :=
  mkproc None 12 40 (replicate 1024 0) 3 (replicate 512 0) true false (-1) 7 0 0 (replicate 16 0) 2 None 0.

#[local] Instance proc_demo_host : ProcHost (list nvm_process) := {
  ph_processes h := h;
  ph_current _ := 7;
  ph_total _ := 1073741824;
  ph_used _ := 1536;
  ph_uptime h := (61230, h);
  ph_cpuid _ _ := mkcpuid 0 0 0 0;
  ph_kmalloc n h := (Some 4096, h);
  ph_kfree _ h := h;
}.

Definition boot : procfs :=
  mkpf (mkpe (lit "version") (Some procfs_version) None true false :: replicate 63 (mkpe [] None None false false))
    (replicate 64 (mkpa 0 (replicate 32 None) 0 false)) None (replicate 2048 0) false.

Lemma boot_unique : names_unique boot.
Proof.
  intros [|a] [|b] ea eb Ha Hb Ua Ub Nab; [done|..];
    cbn [boot procfs_entries lookup list_lookup] in Ha, Hb;
    try (by apply (lookup_replicate_used pe_used) in Ha; [congruence|]);
    by apply (lookup_replicate_used pe_used) in Hb; [congruence|].
Qed.

#[local] Existing Instance demo_env.
#[local] Existing Instance demo_env_ok.

Lemma procfs_files_of_process_witness :
  runs_to (procfs_register (fun _ => 1) (fun i => i) 7 7 boot demo_vfs) (fun '(f1, v1) =>
    (forall m, entry_of f1 m = match assoc (files_of (lit "7") 7) m with Some x => Some x | None => entry_of boot m end) /\
    (exists hd g, procfs_open (lit "7/status") (Some 4096) f1 = Ret (inr (4096, hd), g) /\
       drain [0x55] (S (length (status_lines proc7))) 5 hd g (replicate 8 proc7) = Ret (status_lines proc7)) /\
    runs_to (procfs_unregister 7 f1 v1 (replicate 8 proc7)) (fun '(f2, v2, _) =>
      vfs_wf v2 /\ forall m, entry_of f2 m = entry_of boot m) /\
    (forall argv, len argv <= 32 ->
       runs_to ('(f1, h1) ← procfs_set_args 7 argv (len argv) f1 (replicate 8 proc7); procfs_unregister 7 f1 v1 h1)
         (fun '(f2, v2, _) => vfs_wf v2 /\ forall m, entry_of f2 m = entry_of boot m))).
Proof.
  refine (procfs_files_of_process (fun _ => 1) (fun i => i) [0x55] 7 7 proc7 4096 5 boot demo_vfs (replicate 8 proc7)
    demo_vfs_wf _ boot_unique _ _ _ _ _ eq_refl _ _); try lia.
  - vm_compute. lia.
  - intros m Hm. apply (bool_decide_eq_true_1 (entry_of boot m = None)). revert m Hm. apply Forall_forall.
    apply (bool_decide_eq_true_1 (Forall _ _)). vm_compute. reflexivity.
  - intros m Hm. unfold find_file. apply (bool_decide_eq_true_1 (_ = None)). revert m Hm. apply Forall_forall.
    repeat constructor.
  - apply Forall_replicate. by split.
  - split; vm_compute; split; reflexivity.
Defined.

Definition code17 : buffer := mkbuf 4096 (map (fun k => 65 + k) (seqZ 0 17)).
Definition proc17 : nvm_process :=
  mkproc (Some code17) 0 17 (replicate 1024 0) 0 (replicate 512 0) true false 0 1 0 0 (replicate 16 0) 0 None 0.

Lemma bytecode_dump_overruns_witness : bytecode_text [] proc17 = Fault OutOfBounds.
Proof.
  exact (bytecode_dump_overruns [] proc17 code17 eq_refl ltac:(vm_compute; reflexivity) ltac:(vm_compute; congruence)).
Defined.

(** A processor whose brand string is "Test CPU  @ 3.60GHz". *)
Definition cpu (leaf _ : Z) : cpuid_result :=
  let word s := le_value (lit s) in
  if leaf =? 0 then mkcpuid 0x16 (word "Genu") (word "ntel") (word "ineI")
  else if leaf =? 1 then mkcpuid 0x906EA 0 0 1
  else if leaf =? 0x80000000 then mkcpuid 0x80000008 0 0 0
  else if leaf =? 0x80000002 then mkcpuid (word "  Te") (word "st C") (word "PU  ") (word "@ 3.")
  else if leaf =? 0x80000003 then mkcpuid (word "60GH") (word "z") 0 0
  else mkcpuid 0 0 0 0.


Example cpuinfo_text :
  (buf ← cpuinfo_init cpu [] (replicate 2048 7); str_of buf) =
  Ret (lit "vendor_id       : GenuineIntel" ++ 10 :: lit "cpu family      : 6" ++ 10 :: lit "model           : 158"
       ++ 10 :: lit "model name      : Test CPU @ 3.60GHz" ++ 10 :: lit "stepping        : 10" ++ 10 :: lit "cpu MHz         : 3600.0"
       ++ 10 :: lit "fpu             : yes" ++ [10]).
Proof. vm_compute. reflexivity. Qed.

(** Digits behind the third fractional one are added as if they were megahertz. *)
Example frequency_digits : parse_frequency_mhz (lit "3.6") = 3600 /\ parse_frequency_mhz (lit "3.6000") = 9000.
Proof. vm_compute. done. Qed.

Example meminfo_demo :
  (buf ← meminfo_text [0x55] [proc7]; str_of buf) =
  Ret (lit "MemTotal       : 1.0 GB" ++ 10 :: lit "MemUsed        : 1.5 KB" ++ 10 :: lit "MemFree        : 1023.9 MB" ++ [10]).
Proof. vm_compute. reflexivity. Qed.

(** Values of the stack are not separated, and a negative one is not a number. *)
Example stack_demo :
  (buf ← stack_text [] (mkproc None 0 0 ([1; 255; -1] ++ replicate 1021 0) 3 [] true false 0 1 0 0 [] 0 None 0); str_of buf) =
  Ret (lit "Stack dump (hex):" ++ 10 :: lit "0x000000010x000000ff0x0000000/" ++ [10]).
Proof. vm_compute. reflexivity. Qed.

(** A list of 33 arguments is stored with its count and copied up to 32: releasing it
    reads behind the array. *)
Example too_many_args :
  ('(f, h) ← procfs_set_args 7 (replicate 33 (lit "x")) 33 boot [proc7]; procfs_clear_args 7 f h) = Fault OutOfBounds.
Proof. vm_compute. reflexivity. Qed.

Example uptime_demo : uptime_text [] 61230 = Ret (lit "61.23" ++ [10; 0]).
Proof. vm_compute. reflexivity. Qed.
End Demo.
